(* ===== verification/_CoqProject ===== *)
-Q . S2P
Prelude.v
RustStr.v
RustText.v
CoreError.v
Location.v
Language.v
Metric.v
Event.v
Anchor.v
MetricRepo.v
Logpoint.v
OutputParsers.v
Sql.v
EventRepo.v
DeadLetter.v
Connection.v
ConnectionRepo.v
AdapterMetrics.v
DapFraming.v
Broker.v
Dwarf.v
CapturePlan.v
Wire.v
Decode.v
Runtime.v
TypeInfo.v
MemReader.v
Policy.v
ProbeValue.v
MapReader.v
MapImage.v
StructReader.v
StructOutcomes.v
ProbeProgram.v
RingEvent.v
ProbeCompiler.v
BpfMachine.v
ProbeRecord.v
CaptureRoundTrip.v
CaptureOutcomes.v
GeneratorsAgree.v
DwarfLocate.v
DwarfResolve.v
DwarfOutcomes.v
EbpfAdapter.v
EbpfOutcomes.v
Breaker.v
EventOutput.v
GelfUdp.v
AgentBreaker.v
SafetyTables.v
SafetyAnalysis.v
SafetyCache.v
SafetyValidator.v
MetricService.v
MetricOutcomes.v
Lifecycle.v
EventPipeline.v
ConnectionService.v
ConnectionOutcomes.v
SafetyRegistry.v
PurityCache.v
CallGraph.v
CallGraphOutcomes.v
FunctionText.v
PythonPurity.v
PythonOutcomes.v
GoPurity.v
RustPurity.v
DebugSession.v
Reconnect.v
Relocation.v
AgentManager.v
AgentReach.v
AgentOutcomes.v
RemoteAdapter.v
AgentWire.v
AgentAdapters.v
AgentSession.v
AgentProgram.v
