(* ===== verification/Prelude.v ===== *)
(** * A verification of detrix

    detrix observes running programs without stopping them.  A user registers a
    metric, a list of expressions at a source line, with a connection to a
    debugged process; the metric is stored, installed in the debugger as a
    logpoint, and each hit of the line comes back as a line of debugger output,
    is parsed into an event and shipped to outputs such as a Graylog server.
    Where no debugger is used, a native program is probed with eBPF: the variables
    at the line are located in its DWARF, a probe program is generated that copies
    them into a record, and the record is decoded into named values.  Processes on
    other hosts are reached through agents, which run the adapters there.  When a
    source file changes, metrics follow their code.  The sources are the crates
    under [src/crates/].

    ** Parts, and the files that model them

    - Foundations.  [Prelude] has results and the [?] operator, computations that
      may panic or loop, machine integers, byte lists, the tactics and the hint
      databases [rust] and [lens].  [RustStr] and [RustText] are the standard
      library's strings: a [str] is the string of its UTF-8 bytes; parsing and
      printing of integers, trimming, [chars], [lines].
    - Domain ([detrix-core]).  [CoreError], [Location], [Language], [Metric],
      [Event]: the entities, their validation, notation and hashes.
    - Debugger side ([detrix-dap]).  [Logpoint] writes a metric as a logpoint
      message and reads it back; [OutputParsers] are the parsers of the Python,
      Go and Rust debuggers; [AdapterMetrics] is the metric manager of
      [BaseAdapter], the debugger being a class [Debugger] with the law of
      [setBreakpoints]; [DebugSession] is [BaseAdapter] as the adapter port.
      [DapFraming] is the framing of protocol messages (the broker's and that of
      the [lldb-serve] command), [Broker] the broker: requests and their answers,
      time-outs, event subscribers and the reader task, as a step function.
      [Reconnect] is the wrapper that reconnects an adapter and sets its metrics
      again.
    - Expression safety ([detrix-config], [detrix-application/src/safety]).
      [SafetyTables] has the tables of functions and sensitive names,
      [SafetyAnalysis] the walkers over syntax trees, [SafetyCache] the cache of
      analyses, [SafetyValidator] the classification and the three validators,
      [SafetyRegistry] the registry with purity resolution and the gate it forms
      in front of the metric service.
    - Purity of called functions ([detrix-lsp]).  [PurityCache] is the cache of
      verdicts, [CallGraph] the search over a language server's call hierarchy
      and over function bodies with [CallGraphOutcomes] on its verdicts,
      [FunctionText] the extraction of bodies, [PythonPurity] with
      [PythonOutcomes], [GoPurity] and [RustPurity] the analyzers of the three
      languages.
    - Metrics ([detrix-application], [detrix-ports], [detrix-storage]).
      [MetricRepo] states the repository port as a class with laws and proves
      that the SQLite implementation keeps them; [MetricService] is the service
      above the ports [MetricRepository] and [DapAdapter], in a state and error
      monad; [MetricOutcomes] says what its operations do; [Anchor] is the anchor
      service; [Relocation] handles file changes.
    - Events (same crates).  [Sql] has databases whose statements can fail,
      transactions and ordered queries; [EventRepo] is the event table and its
      port; [DeadLetter] the dead-letter queue and the recovery service above the
      event port; [EventPipeline] the write path: the capture service and the
      buffer with its overlapping flushes; [Lifecycle] the lifecycle manager, which
      starts, registers, stops and cleans up the adapters the events come from, its
      overlapping calls cut into moves at the points where they wait.
    - Connections (same crates, and [detrix-core]).  [Connection] has the entities,
      [ConnectionRepo] the two tables, [ConnectionService] the service above the
      tables, the metric port and the lifecycle manager (a class of which the
      manager of [Lifecycle] is an instance), [ConnectionOutcomes] what it
      guarantees.
    - Remote hosts.  On the server, [AgentManager] is the agent connection manager,
      [AgentReach] and [AgentOutcomes] prove what its histories cannot do,
      [AgentBreaker] is the circuit breaker and [RemoteAdapter] the adapter port
      of a connection that an agent serves.  [AgentWire] has the messages
      ([detrix-api], [grpc/agent.rs]) and their conversions at both ends.  On the
      other host ([detrix-agent]), [AgentAdapters] is the agent: its adapter
      manager, session, scanner snapshots and reconnection; [AgentSession] has
      what holds of every session, [AgentProgram] the way of a metric from server
      to adapter, and defects.
    - Outputs ([detrix-output]).  [Breaker] is the circuit breaker, [EventOutput]
      the output port with its batching, breaker, timeout and fan-out wrappers,
      [GelfUdp] the chunking UDP transport.
    - Locating variables ([detrix-ebpf/src/dwarf]).  [Dwarf] evaluates location
      expressions, [TypeInfo] classifies types, [DwarfLocate] and [DwarfResolve]
      find program counters, scopes and variable locations for a line,
      [DwarfOutcomes] relates them to the trees and rows they come from.
    - Capturing (the rest of [detrix-ebpf]).  [Policy] chooses backends, program
      counters and layouts, [CapturePlan] admits plans, [Wire] is the record
      format, [Decode] reads payloads, [Runtime] is the lifecycle and accounting of
      a capture; [ProbeValue] and [ProbeProgram] describe what is captured and the
      generated program, [ProbeCompiler] generates its text, [BpfMachine] runs it,
      [ProbeRecord] is the record it leaves, [RingEvent] decodes it;
      [MemReader], [MapReader] with [MapImage] and [StructReader] with
      [StructOutcomes] read strings, slices, maps and structures from the memory of
      the process; [CaptureRoundTrip], [CaptureOutcomes] and [GeneratorsAgree]
      compose them; [EbpfAdapter] is the adapter port on top, with [EbpfOutcomes].

    A Rust struct is a [Record], an enum an [Inductive] with the source's
    constructors, a function or method a [Definition] or [Fixpoint] of the
    source's name (prefixed where two would collide); the doc comment of a file
    names the source files it models.  Interfaces are classes with laws; client
    theorems are proved from the laws and the implementations are proved to be
    instances.

    ** What the theorems show

    - The metric path, end to end.  A metric accepted by the service is stored and
      held by the debugger of its connection, whose breakpoints mirror the tracked
      metrics; adding and toggling are all or nothing, with the rollback failure
      reported as such; a second addition at a line merges; after removals and
      group operations the debugger is told to hold the union of what is enabled
      at the line.  Whatever happens, no two metrics of an owner share a place,
      everything stored was validated, and no caller touches another tenant's
      metric.  A wrapper that reconnects its adapter asks it again to set every
      metric that is wanted, whatever the adapter is.
    - Safety.  Every expression that the service accepts has passed the rules of
      its validator: no forbidden construct, every call on the whitelist by its name or last
      component (or, trusted, on neither list), every variable that the analysis
      reports permitted.  In strict mode acceptance of a Python expression is
      characterised exactly, and the cache of analyses is transparent.  What these
      rules let through is stated too: prohibited functions with a permitted last
      component, sensitive receivers of methods.
      A verdict of purity is characterised by what the server's answers or the
      bodies in the file reach; for Python, by the calls and the mutating methods
      in the extracted text of every function reached; a cached verdict is the one
      the analysis would give.
    - The debugger session.  Every answer a caller receives is the answer to its
      own request; a caller waiting when the session ends is told; the reader task
      ends on every stream and reads back the messages that were written; requests
      after the end of a session are only found out by their time-out.
    - Events.  A batch is stored whole or not at all; a query split into chunks is
      one query; every event of the write path is in exactly one place whatever
      fails and however flushes overlap; a refused batch is queued and recovered
      when the queue's database works; recovery loses nothing, delivers each event
      of an undisturbed round once, and drains the queue in a bounded number of
      rounds, delivering what it deletes, as long as the ids of a batch fit into
      one statement (with more, it recovers nothing).
    - Adapters.  However starts, stops and clean-ups overlap, a start in progress
      always has a call behind it, and no adapter is stopped twice; an adapter in the
      registry was not stopped, and the lifecycle manager started it, asked for the
      metrics, set the enabled ones and then resumed the program, in this order
      (with no metrics when the repository fails), unless a caller handed it over;
      a start that runs alone replaces the adapter of its connection.
    - Connections.  The tables stay well formed whatever fails; while a client
      holds a reference, other clients that give up theirs do not end the
      connection (an explicit disconnection does); a created connection runs and
      its creator holds a reference, or it is being started, or nothing runs;
      metrics survive a restart under another host name.
    - Remote hosts.  The manager's tables agree; a request is settled only by the
      agent that serves its connection, agents touch only their own connections, an
      agent that leaves releases its callers, a registration changes the tables
      wholly or not at all, a remote call ends with its agent's answer.  An agent
      answers the requests it reads in order and once, the first perhaps excepted,
      never has an adapter in two hands or uses one it stopped, accounts for
      every event, sends only files in allowed directories, and a creation ends
      with a working connection or without the records of one; a metric set on the
      server is set in the agent's adapter with what the protocol carries of it.
    - Following code.  The edit distance is the least number of edits; relocation
      by context returns the best line of the file and finds moved code; a metric
      moves with its function; a file change loses no metric and keeps the
      registry consistent.
    - Delivery.  A logpoint message read back yields the event of its metric and
      values, for each language; batched events are delivered in order and once;
      a dead output is shielded; breakers open at their threshold and recover;
      GELF chunks reassemble.
    - Capture.  The record format round-trips in both directions; a plan is
      admitted exactly when it is well formed; admitted plans decode to what was
      captured; for the variables that a record can carry, what the generated
      program copies for Go and Rust is what the decoder gives back, the two
      generators agree (Go), and a hit of a line is reported with its values;
      what a record cannot carry is listed as findings; maps and structures laid
      out as the readers expect are read back, and the readers of structures agree
      on such fields; lines resolve to the program counters of the right rows and
      scopes; counters reconcile at every point of every history; the lifecycle
      cannot be left by a forbidden edge.
    - Defects found on the way are theorems too, where they are claims about
      values: metrics of the same name displace each other, relocation depends on
      the order of creation, a merge escapes the limits, an interrupted recovery
      round strands its entries, overlapping starts leave an adapter running that
      nothing can stop, a failed migration loses metrics, stopping drops a flush
      under way, a small cache never evicts, a prohibited function passes by its
      last name, a function on one line is called pure, a metric removed through an
      agent stays in the debugger, a recovery batch above the variable limit
      recovers nothing.

    ** Conventions and bounds

    Integers are [N] or [Z] at the width of the source, with [wrap] where the
    release profile wraps, [checked_add] where the source checks, and saturation
    where it saturates; [usize] has 64 bits.  [f64] values that are only carried
    are bit patterns; the [f32] similarities of [Anchor] are computed with the
    Standard Library's [SpecFloat].  Recursion is structural wherever the source
    iterates over data.  The fuelled functions are [show_N] and its hexadecimal
    sibling in [Policy] (fuel: the number of binary digits, at least that of the
    digits printed), [strip_ws] and [trim_start_matches] (fuel: the length of the
    string, which every step shortens), [chunks] (fuel: the length of the data),
    the readers of [DapFraming] and [Broker] (fuel: the length of the stream
    and one, each round consuming a byte), the walks over the directory and the
    overflow chains of a map ([MapReader]: the theorems give a number of rounds
    that suffices for every image of a map) and over nested types ([StructReader]:
    the height of the type), the depth of the call-graph searches (the configured
    depth and one, which the code checks itself), the leftward scan of
    [PythonPurity] ([scan_limit], beyond which the source's counters overflow) and
    the attempts of [Reconnect] (the configured number); lemmas such as
    [show_N_fuel], [strip_ws_go_fuel], [concat_chunks_fuel] and [reader_loop_fuel]
    show that it is enough, and [reader_task_terminates] that it is never
    exhausted.  A panic of the source is an explicit outcome where it can happen.
    Methods that hold a lock for their whole body are steps, and histories are
    sequences of steps; [AgentBreaker] interleaves overlapping calls, [Broker]
    callers with the reader task, [EventPipeline] arrivals with flushes,
    [Lifecycle] starts with stops and clean-ups, [AgentManager] requests with
    everything else, [AgentAdapters] creations, closings, forwarding and requests;
    the operations of [MetricService] and [ConnectionService] and the rounds of
    the recovery service run one at a time, a start in the background being a step
    of its own.  Orders that the source leaves open (hash maps, the scheduler's
    cancellation point) are arguments, and theorems hold for all of them.

    ** Not modelled

    Sockets, processes and the file system (the broker's socket is a byte stream,
    an agent's files are functions), SQL beyond the statements of the metric,
    event, dead-letter and connection repositories, tree-sitter's parser, the
    processes of language servers and the regex library, gimli and the object-file
    parser, clang, the loading of probes and the kernel (the generated program
    runs on [BpfMachine]), the REST and MCP endpoints and the other gRPC services,
    the streaming and file-inspection services, the GELF message and its TCP and
    HTTP transports, configuration files, command line and terminal interface:
    they are input and output, generated code, libraries, or glue around what is
    modelled.  Where modelled code calls them they enter as arguments ([Env],
    [Debugger], [DebuggerLaws], [SerdeJson], [EventJson], [Engine],
    [PurityAnalyzer], [LanguageServer], [Factories], [gzip], [sha256], ...).

    This file is the prelude: shared vocabulary, arithmetic and automation. *)

From stdpp Require Export base list strings numbers option tactics.
From Stdlib Require Export NArith ZArith Lia.
From Stdlib Require Import Init.Byte Strings.Byte.

(** ** Results: Rust's [Result<T, E>] and the [?] operator *)

Inductive result (A E : Type) : Type :=
| Ok (a : A)
| Err (e : E).
Arguments Ok {A E} _.
Arguments Err {A E} _.

Definition res_bind {A B E : Type} (r : result A E) (k : A -> result B E) : result B E :=
  match r with Ok a => k a | Err e => Err e end.

Definition map_err {A E F : Type} (f : E -> F) (r : result A E) : result A F :=
  match r with Ok a => Ok a | Err e => Err (f e) end.

Definition res_map {A B E : Type} (f : A -> B) (r : result A E) : result B E :=
  match r with Ok a => Ok (f a) | Err e => Err e end.

Definition ok_or {A E : Type} (o : option A) (e : E) : result A E :=
  match o with Some a => Ok a | None => Err e end.

Definition is_ok {A E : Type} (r : result A E) : bool :=
  match r with Ok _ => true | Err _ => false end.

Declare Scope rust_scope.
Delimit Scope rust_scope with rust.
(** [let? x := e in k] is the source's [let x = e?; k]. *)
Notation "'let?' x := r 'in' k" := (res_bind r (fun x => k))
  (at level 200, x pattern, r at level 100, k at level 200, right associativity) : rust_scope.
Open Scope rust_scope.

(** [iter().map(f).collect::<Result<Vec<_>, _>>()]: the first error wins. *)
Fixpoint collect_results {A B E : Type} (f : A -> result B E) (l : list A) : result (list B) E :=
  match l with
  | [] => Ok []
  | a :: l' => let? b := f a in let? bs := collect_results f l' in Ok (b :: bs)
  end.

(** A loop that validates each element and returns at the first error. *)
Fixpoint try_each {A E : Type} (f : A -> result unit E) (l : list A) : result unit E :=
  match l with
  | [] => Ok tt
  | a :: l' => let? _ := f a in try_each f l'
  end.

Lemma res_bind_ok {A B E : Type} (r : result A E) (k : A -> result B E) b :
  res_bind r k = Ok b <-> exists a, r = Ok a /\ k a = Ok b.
Proof. destruct r; simpl; naive_solver. Qed.

Lemma map_err_ok {A E F : Type} (f : E -> F) (r : result A E) a :
  map_err f r = Ok a <-> r = Ok a.
Proof. destruct r; simpl; naive_solver. Qed.

Lemma ok_or_ok {A E : Type} (o : option A) (e : E) a : ok_or o e = Ok a <-> o = Some a.
Proof. destruct o; simpl; naive_solver. Qed.

Lemma collect_results_ok {A B E : Type} (f : A -> result B E) l bs :
  collect_results f l = Ok bs <-> Forall2 (fun a b => f a = Ok b) l bs.
Proof.
  revert bs. induction l as [|a l IH]; intros bs; simpl.
  - split; [intros [= <-]; constructor | intros H; inversion H; done].
  - rewrite res_bind_ok. setoid_rewrite res_bind_ok. split.
    + intros (b & Hb & bs' & Hbs & [= <-]). constructor; [done|]. by apply IH.
    + intros H. inversion H as [|? b ? bs' Hb Hbs]; subst.
      exists b. split; [done|]. exists bs'. split; [by apply IH | done].
Qed.

Lemma collect_total {A B E : Type} (f : A -> result B E) l :
  (forall a, a ∈ l -> exists b, f a = Ok b) -> exists bs, collect_results f l = Ok bs /\ Forall2 (fun a b => f a = Ok b) l bs.
Proof.
  intros Hl. assert (exists bs, Forall2 (fun a b => f a = Ok b) l bs) as [bs Hbs]; [|exists bs; by rewrite collect_results_ok].
  induction l as [|a l IH]; [by exists []|]. destruct (Hl a) as [b Hb]; [left|]. destruct IH as [bs Hbs]; [intros; apply Hl; by right|].
  exists (b :: bs). by constructor.
Qed.

Lemma try_each_ok {A E : Type} (f : A -> result unit E) l :
  try_each f l = Ok tt <-> Forall (fun a => f a = Ok tt) l.
Proof.
  induction l as [|a l IH]; simpl; [split; [by constructor | done]|].
  rewrite res_bind_ok. split.
  - intros ([] & Ha & Hl). constructor; [done | by apply IH].
  - intros H. inversion H; subst. exists tt. split; [done | by apply IH].
Qed.

(** Peel an [Ok] off a chain of binds and boolean guards in a hypothesis. *)
Ltac res_inv H :=
  repeat match type of H with
  | res_bind _ _ = Ok _ => let a := fresh "v" in let E := fresh "E" in
      apply res_bind_ok in H; destruct H as (a & E & H); res_inv E
  | (if ?b then Err _ else _) = Ok _ => let E := fresh "E" in
      destruct b eqn:E; [discriminate H|]
  | (if ?b then _ else Err _) = Ok _ => let E := fresh "E" in
      destruct b eqn:E; [|discriminate H]
  | map_err _ _ = Ok _ => apply map_err_ok in H
  | ok_or _ _ = Ok _ => apply ok_or_ok in H
  end.

(** ** Computations that may panic or loop *)

Inductive run (A : Type) : Type := Ret (a : A) | Panic | Looping.
Arguments Ret {_}.
Arguments Panic {_}.
Arguments Looping {_}.

Definition run_bind {A B : Type} (m : run A) (k : A -> run B) : run B :=
  match m with Ret a => k a | Panic => Panic | Looping => Looping end.
Definition run_map {A B : Type} (f : A -> B) (m : run A) : run B := run_bind m (fun a => Ret (f a)).

Notation "'let!' x := m 'in' k" := (run_bind m (fun x => k))
  (at level 200, x pattern, m at level 100, k at level 200, right associativity) : rust_scope.

(** [?] in a computation that may panic or loop *)
Definition run_try {A B E : Type} (m : run (result A E)) (k : A -> run (result B E)) : run (result B E) :=
  run_bind m (fun r => match r with Ok a => k a | Err e => Ret (Err e) end).

Fixpoint run_list {A B : Type} (f : A -> run B) (l : list A) : run (list B) :=
  match l with
  | [] => Ret []
  | a :: l => let! b := f a in let! bs := run_list f l in Ret (b :: bs)
  end.

Lemma run_bind_ret {A B : Type} (m : run A) (k : A -> run B) b :
  run_bind m k = Ret b <-> exists a, m = Ret a /\ k a = Ret b.
Proof.
  destruct m as [a| |]; cbn; split; try (intros (? & ? & ?); done); try done; [eauto|].
  intros (a' & [= ->] & ?). done.
Qed.

(** ** Machine integers

    Unsigned integers of width [w] are [N] values below [2 ^ w]; signed ones
    are [Z] values.  The arithmetic of a release build wraps. *)

Definition wrap (w n : N) : N := N.modulo n (2 ^ w).
Definition checked_add (w a b : N) : option N :=
  if (a + b <? 2 ^ w)%N then Some (a + b)%N else None.
Definition usize_bits : N := 64.
Definition usize_add : N -> N -> option N := checked_add usize_bits.

(** Two's complement reading and writing. *)
Definition to_signed (w n : N) : Z :=
  if (n <? 2 ^ (w - 1))%N then Z.of_N n else Z.of_N n - 2 ^ Z.of_N w.
Definition of_signed (w : N) (z : Z) : N := Z.to_N (z mod 2 ^ Z.of_N w).

Definition i64_min : Z := - 2 ^ 63.
Definition i64_max : Z := 2 ^ 63 - 1.
Definition i64_saturating_add (a b : Z) : Z := Z.max i64_min (Z.min i64_max (a + b)).
Definition u64_saturating_add (a b : N) : N := N.min (2 ^ 64 - 1) (a + b).

Definition lenN {A : Type} (l : list A) : N := N.of_nat (length l).

Lemma checked_add_some w a b c :
  checked_add w a b = Some c <-> c = (a + b)%N /\ (a + b < 2 ^ w)%N.
Proof.
  unfold checked_add. destruct (N.ltb_spec (a + b) (2 ^ w)); split.
  - intros [= <-]; done.
  - intros [-> _]; done.
  - done.
  - lia.
Qed.

Lemma wrap_small w n : (n < 2 ^ w)%N -> wrap w n = n.
Proof. intros. by apply N.mod_small. Qed.

Lemma wrap_lt w n : (wrap w n < 2 ^ w)%N.
Proof. apply N.mod_lt. apply N.pow_nonzero. lia. Qed.

Lemma lenN_app {A : Type} (l k : list A) : lenN (l ++ k) = (lenN l + lenN k)%N.
Proof. unfold lenN. rewrite length_app. lia. Qed.

Lemma lenN_nil {A : Type} : lenN (@nil A) = 0%N.
Proof. done. Qed.

Lemma lenN_cons {A : Type} (a : A) l : lenN (a :: l) = (1 + lenN l)%N.
Proof. unfold lenN. simpl. lia. Qed.

(** ** Slices *)

(** [l[off .. off + len]] for a range the caller has checked. *)
Definition slice {A : Type} (l : list A) (off len : N) : list A :=
  take (N.to_nat len) (drop (N.to_nat off) l).

Lemma lenN_slice {A : Type} (l : list A) off len :
  (off + len <= lenN l)%N -> lenN (slice l off len) = len.
Proof. unfold slice, lenN. intros. rewrite length_take, length_drop. lia. Qed.

Lemma slice_app_mid {A : Type} (p m q : list A) off len :
  off = lenN p -> len = lenN m -> slice (p ++ m ++ q) off len = m.
Proof.
  intros -> ->. unfold slice, lenN. rewrite !Nat2N.id.
  rewrite drop_app_length. by rewrite take_app_length.
Qed.

Lemma slice_lookup {A : Type} (l : list A) off len (i : nat) :
  (i < N.to_nat len)%nat -> slice l off len !! i = l !! (N.to_nat off + i)%nat.
Proof. intros. unfold slice. rewrite lookup_take_lt by done. by rewrite lookup_drop. Qed.

(** [data.chunks(n)], for [n > 0]; each round takes at least one element, so the
    length of the data bounds the rounds. *)
Fixpoint chunks_fuel {A : Type} (fuel n : nat) (data : list A) : list (list A) :=
  match fuel, data with
  | S fuel, _ :: _ => take n data :: chunks_fuel fuel n (drop n data)
  | _, _ => []
  end.
Definition chunks {A : Type} (n : N) (data : list A) : list (list A) := chunks_fuel (length data) (N.to_nat n) data.

Lemma concat_chunks_fuel {A : Type} n : (0 < n)%nat -> forall fuel (data : list A), (length data <= fuel)%nat ->
  List.concat (chunks_fuel fuel n data) = data.
Proof.
  intros Hn fuel. induction fuel as [|fuel IH]; intros [|b data] Hf; try done; [cbn in Hf; lia|].
  cbn [chunks_fuel List.concat]. rewrite IH; [apply take_drop|]. rewrite length_drop. cbn in *. lia.
Qed.

Lemma concat_chunks {A : Type} n (data : list A) : (0 < n)%N -> List.concat (chunks n data) = data.
Proof. intros. apply concat_chunks_fuel; lia. Qed.

Lemma chunks_fuel_sizes {A : Type} n fuel (data : list A) : Forall (fun c => length c <= n)%nat (chunks_fuel fuel n data).
Proof.
  revert data. induction fuel as [|fuel IH]; intros [|b data]; try constructor; [rewrite length_take; lia | apply IH].
Qed.

(** ** Little-endian byte strings *)

Definition N_of_byte (b : byte) : N := Byte.to_N b.
Definition byte_of_N (n : N) : byte :=
  match Byte.of_N (n mod 256) with Some b => b | None => x00 end.

#[export] Instance byte_eq_decision : EqDecision byte := Byte.byte_eq_dec.

Fixpoint of_le (l : list byte) : N :=
  match l with
  | [] => 0
  | b :: l' => (N_of_byte b + 256 * of_le l')%N
  end.

Fixpoint to_le (n : nat) (x : N) : list byte :=
  match n with
  | O => []
  | S n' => byte_of_N x :: to_le n' (x / 256)%N
  end.

Lemma N_of_byte_lt b : (N_of_byte b < 256)%N.
Proof. unfold N_of_byte. pose proof (Byte.to_N_bounded b). lia. Qed.

Lemma N_of_byte_of_N n : N_of_byte (byte_of_N n) = (n mod 256)%N.
Proof.
  unfold N_of_byte, byte_of_N.
  destruct (Byte.of_N (n mod 256)) as [b|] eqn:E; [by apply Byte.to_of_N|].
  apply Byte.of_N_None_iff in E. pose proof (N.mod_lt n 256). lia.
Qed.

Lemma byte_of_N_of_byte b : byte_of_N (N_of_byte b) = b.
Proof.
  unfold byte_of_N. rewrite N.mod_small by apply N_of_byte_lt.
  unfold N_of_byte. by rewrite Byte.of_to_N.
Qed.

Lemma length_to_le n x : length (to_le n x) = n.
Proof. revert x. induction n; simpl; auto. Qed.

Lemma lenN_to_le n x : lenN (to_le n x) = N.of_nat n.
Proof. unfold lenN. by rewrite length_to_le. Qed.

Lemma of_to_le n x : of_le (to_le n x) = (x mod 256 ^ N.of_nat n)%N.
Proof.
  revert x. induction n as [|n IH]; intros x; simpl.
  - rewrite N.mod_1_r. done.
  - rewrite N_of_byte_of_N, IH. replace (N.of_nat (S n)) with (N.succ (N.of_nat n)) by lia.
    rewrite N.pow_succ_r', N.Div0.mod_mul_r. lia.
Qed.

Lemma to_of_le l : to_le (length l) (of_le l) = l.
Proof.
  induction l as [|b l IH]; simpl; [done|].
  pose proof (N_of_byte_lt b). f_equal.
  - rewrite <- (byte_of_N_of_byte b) at 2. unfold byte_of_N. f_equal.
    rewrite N.mul_comm, N.Div0.mod_add, !N.mod_small by lia. done.
  - rewrite N.mul_comm, N.div_add, N.div_small by lia. by rewrite N.add_0_l.
Qed.

Lemma of_le_lt l : (of_le l < 256 ^ lenN l)%N.
Proof.
  induction l as [|b l IH]; [done|]. simpl.
  rewrite lenN_cons. replace (1 + lenN l)%N with (N.succ (lenN l)) by lia.
  rewrite N.pow_succ_r'. pose proof (N_of_byte_lt b). lia.
Qed.

(** ** Automation

    [lens] normalises lengths of byte strings and lists, [len_lia] finishes
    with arithmetic; [rust] holds the bounds every machine value satisfies. *)
Create HintDb rust.
#[export] Hint Resolve wrap_lt N_of_byte_lt of_le_lt : rust.
#[export] Hint Rewrite @lenN_app @lenN_nil @lenN_cons lenN_to_le : lens.

Ltac lens := autorewrite with lens in *.
Ltac len_lia := lens; lia.

(** Decide an equality between constructors of an enumeration. *)
Ltac enum_eq := repeat first [rewrite bool_decide_true by done | rewrite bool_decide_false by done].

(** Case analysis on the comparisons of a goal, closing the impossible cases. *)
Ltac cmp_cases :=
  repeat match goal with
  | |- context [(?a <? ?b)%N] => destruct (N.ltb_spec a b); try lia
  | |- context [(?a <=? ?b)%N] => destruct (N.leb_spec a b); try lia
  | |- context [(?a =? ?b)%N] => destruct (N.eqb_spec a b); try lia
  end.
