(* ===== verification/RustStr.v ===== *)
(** * Rust strings

    A Rust [str] is modelled by the Rocq [string] of its UTF-8 bytes, so that
    [String.length] is Rust's [len()] and byte equality is Rust's [==].  The
    invariant of the type, that the bytes are well-formed UTF-8, is the boolean
    [utf8_valid]; the operations below agree with the standard library's on
    every string that satisfies it.

    [char::is_whitespace] (the Unicode White_Space property) and
    [char::is_control] (category Cc) are enumerated exactly, by the UTF-8
    sequences of their code points.  [to_lowercase] is exact on ASCII, on
    U+212A and on U+0130 (the only non-ASCII code points whose lower case has
    an ASCII character); it leaves the other non-ASCII sequences alone.  The program only ever compares a
    lower-cased string with ASCII literals, and on those comparisons this is
    the standard library's answer. *)

From Stdlib Require Import Strings.String Strings.Ascii Init.Byte.
From S2P Require Import Prelude.

Local Open Scope string_scope.
Local Arguments String.append !_ _ / : simpl nomatch.

(** ** Bytes and characters *)

Definition code (c : ascii) : N := N_of_ascii c.

Definition as_bytes (s : string) : list byte := list_byte_of_string s.
Definition of_bytes (l : list byte) : string := string_of_list_byte l.
Definition str_len (s : string) : N := N.of_nat (String.length s).
Definition str_is_empty (s : string) : bool :=
  match s with EmptyString => true | String _ _ => false end.

Definition between (lo hi n : N) : bool := ((lo <=? n) && (n <=? hi))%N.

Definition is_ascii_digit (c : ascii) : bool := between 48 57 (code c).
Definition is_ascii_upper (c : ascii) : bool := between 65 90 (code c).
Definition is_ascii_lower (c : ascii) : bool := between 97 122 (code c).
Definition is_ascii_alphabetic (c : ascii) : bool := is_ascii_upper c || is_ascii_lower c.
Definition is_ascii_alphanumeric (c : ascii) : bool := is_ascii_alphabetic c || is_ascii_digit c.

Fixpoint str_forall (f : ascii -> bool) (s : string) : bool :=
  match s with
  | EmptyString => true
  | String c r => f c && str_forall f r
  end.

(** ** Prefixes, suffixes, searching *)

Fixpoint strip_prefix (p s : string) : option string :=
  match p, s with
  | EmptyString, _ => Some s
  | String a p', String b s' => if Ascii.eqb a b then strip_prefix p' s' else None
  | String _ _, EmptyString => None
  end.

Definition starts_with (p s : string) : bool :=
  match strip_prefix p s with Some _ => true | None => false end.

Fixpoint ends_with (q s : string) : bool :=
  String.eqb q s ||
  match s with EmptyString => false | String _ r => ends_with q r end.

Fixpoint contains (q s : string) : bool :=
  starts_with q s ||
  match s with EmptyString => false | String _ r => contains q r end.

(** [s.trim_start_matches(p)]: every leading copy of a non-empty [p] goes. *)
Fixpoint trim_start_matches_go (fuel : nat) (p s : string) : string :=
  match fuel with
  | O => s
  | S f => match strip_prefix p s with
           | Some r => trim_start_matches_go f p r
           | None => s
           end
  end.
Definition trim_start_matches (p s : string) : string :=
  trim_start_matches_go (String.length s) p s.

(** [s.rsplitn(2, c)] with two parts: what stands before and after the last [c]. *)
Fixpoint rsplit_once (c : ascii) (s : string) : option (string * string) :=
  match s with
  | EmptyString => None
  | String a r =>
      match rsplit_once c r with
      | Some (x, y) => Some (String a x, y)
      | None => if Ascii.eqb a c then Some (EmptyString, r) else None
      end
  end.

(** [s.split_once(c)]: what stands before and after the first [c]. *)
Fixpoint split_once (c : ascii) (s : string) : option (string * string) :=
  match s with
  | EmptyString => None
  | String a r =>
      if Ascii.eqb a c then Some (EmptyString, r)
      else match split_once c r with
           | Some (x, y) => Some (String a x, y)
           | None => None
           end
  end.

(** ** Whitespace and control characters *)

Definition is_ws1 (a : N) : bool := between 9 13 a || (a =? 32)%N.
(* U+0085, U+00A0 *)
Definition is_ws2 (a b : N) : bool := ((a =? 194) && ((b =? 133) || (b =? 160)))%N.
(* U+1680; U+2000-200A, U+2028, U+2029, U+202F; U+205F; U+3000 *)
Definition is_ws3 (a b c : N) : bool :=
  ((a =? 225) && (b =? 154) && (c =? 128)
   || (a =? 226) && (b =? 128) && (between 128 138 c || (c =? 168) || (c =? 169) || (c =? 175))
   || (a =? 226) && (b =? 129) && (c =? 159)
   || (a =? 227) && (b =? 128) && (c =? 128))%N.

(** Drop one leading whitespace character; [rev] reads its bytes backwards. *)
Definition strip_ws_char (rev : bool) (s : string) : option string :=
  match s with
  | EmptyString => None
  | String a r =>
      if is_ws1 (code a) then Some r else
      match r with
      | EmptyString => None
      | String b r2 =>
          if (if rev then is_ws2 (code b) (code a) else is_ws2 (code a) (code b)) then Some r2 else
          match r2 with
          | EmptyString => None
          | String c r3 =>
              if (if rev then is_ws3 (code c) (code b) (code a)
                  else is_ws3 (code a) (code b) (code c)) then Some r3 else None
          end
      end
  end.

Fixpoint strip_ws_go (rev : bool) (fuel : nat) (s : string) : string :=
  match fuel with
  | O => s
  | S f => match strip_ws_char rev s with
           | Some r => strip_ws_go rev f r
           | None => s
           end
  end.
Definition strip_ws (rev : bool) (s : string) : string := strip_ws_go rev (String.length s) s.

Fixpoint str_rev_app (s t : string) : string :=
  match s with
  | EmptyString => t
  | String c r => str_rev_app r (String c t)
  end.
Definition str_rev (s : string) : string := str_rev_app s EmptyString.

Definition trim_start (s : string) : string := strip_ws false s.
Definition trim_end (s : string) : string := str_rev (strip_ws true (str_rev s)).
Definition trim (s : string) : string := trim_end (trim_start s).

(** [s.chars().all(char::is_whitespace)] *)
Definition all_whitespace (s : string) : bool := str_is_empty (trim_start s).

(** [s.chars().any(char::is_control)]: U+0000-001F, U+007F, U+0080-009F *)
Fixpoint any_control (s : string) : bool :=
  match s with
  | EmptyString => false
  | String a r =>
      (code a <? 32)%N || (code a =? 127)%N
      || match r with
         | String b _ => ((code a =? 194) && between 128 159 (code b))%N
         | EmptyString => false
         end
      || any_control r
  end.

(** ** Case *)

Definition ascii_to_lower (c : ascii) : ascii :=
  if is_ascii_upper c then ascii_of_N (code c + 32) else c.

Fixpoint to_ascii_lowercase (s : string) : string :=
  match s with
  | EmptyString => EmptyString
  | String c r => String (ascii_to_lower c) (to_ascii_lowercase r)
  end.

Definition is_kelvin (a b c : ascii) : bool :=
  ((code a =? 226) && (code b =? 132) && (code c =? 170))%N.

(* U+0130, whose lower case is [i] followed by U+0307 *)
Definition is_dotted_I (a b : ascii) : bool := ((code a =? 196) && (code b =? 176))%N.

Fixpoint to_lowercase (s : string) : string :=
  match s with
  | EmptyString => EmptyString
  | String a r =>
      match r with
      | EmptyString => String (ascii_to_lower a) EmptyString
      | String b r2 =>
          if is_dotted_I a b then String "i" (String "204" (String "135" (to_lowercase r2)))
          else match r2 with
               | String c r3 =>
                   if is_kelvin a b c then String "k" (to_lowercase r3)
                   else String (ascii_to_lower a) (to_lowercase r)
               | EmptyString => String (ascii_to_lower a) (to_lowercase r)
               end
      end
  end.

(** ** Decimal numbers *)

Definition digit_char (d : N) : ascii := ascii_of_N (48 + d).
Definition digit_of (c : ascii) : option N :=
  if is_ascii_digit c then Some (code c - 48)%N else None.

Fixpoint show_go (fuel : nat) (n : N) (acc : string) : string :=
  match fuel with
  | O => acc
  | S f => let acc' := String (digit_char (n mod 10)) acc in
           if (n / 10 =? 0)%N then acc' else show_go f (n / 10)%N acc'
  end.
(** The [Display] form of an unsigned integer. *)
Definition show_N (n : N) : string := show_go (S (N.to_nat (N.log2 n))) n EmptyString.
Definition show_Z (z : Z) : string :=
  if (z <? 0)%Z then append "-" (show_N (Z.to_N (- z))) else show_N (Z.to_N z).

Fixpoint digits_val (acc : N) (s : string) : option N :=
  match s with
  | EmptyString => Some acc
  | String c r => match digit_of c with
                  | Some d => digits_val (10 * acc + d)%N r
                  | None => None
                  end
  end.

(** [s.parse::<uW>()]: one optional [+], at least one digit, a value that fits. *)
Definition parse_uint (w : N) (s : string) : option N :=
  let s' := match s with
            | String "+"%char (String _ _ as r) => r
            | _ => s
            end in
  if str_is_empty s' then None
  else match digits_val 0 s' with
       | Some v => if (v <? 2 ^ w)%N then Some v else None
       | None => None
       end.

(** ** UTF-8 *)

Definition cont (b : byte) : bool := between 128 191 (N_of_byte b).

Fixpoint utf8_valid (l : list byte) : bool :=
  match l with
  | [] => true
  | a :: l1 =>
      let n := N_of_byte a in
      if (n <? 128)%N then utf8_valid l1
      else match l1 with
      | [] => false
      | b :: l2 =>
          if between 194 223 n then cont b && utf8_valid l2
          else match l2 with
          | [] => false
          | c :: l3 =>
              let m := N_of_byte b in
              if between 224 239 n then
                cont b && cont c
                && negb ((n =? 224) && (m <? 160))%N
                && negb ((n =? 237) && (159 <? m))%N
                && utf8_valid l3
              else match l3 with
              | [] => false
              | d :: l4 =>
                  if between 240 244 n then
                    cont b && cont c && cont d
                    && negb ((n =? 240) && (m <? 144))%N
                    && negb ((n =? 244) && (143 <? m))%N
                    && utf8_valid l4
                  else false
              end
          end
      end
  end.

(** The invariant of Rust's [str] and [String]. *)
Definition str_wf (s : string) : bool := utf8_valid (as_bytes s).

(** [String::from_utf8]. *)
Definition from_utf8 (l : list byte) : option string :=
  if utf8_valid l then Some (of_bytes l) else None.

(** ** Facts *)

Lemma as_bytes_of_bytes l : as_bytes (of_bytes l) = l.
Proof. apply list_byte_of_string_of_list_byte. Qed.

Lemma of_bytes_as_bytes s : of_bytes (as_bytes s) = s.
Proof. apply string_of_list_byte_of_string. Qed.

Lemma lenN_as_bytes s : lenN (as_bytes s) = str_len s.
Proof.
  unfold lenN, str_len, as_bytes. f_equal. induction s as [|c s IH]; [done|].
  cbn -[byte_of_ascii]. by rewrite <- IH.
Qed.

Lemma str_is_empty_true s : str_is_empty s = true <-> s = EmptyString.
Proof. by destruct s. Qed.

Lemma str_len_zero s : str_len s = 0%N <-> str_is_empty s = true.
Proof. destruct s; cbn; [done|]. split; discriminate. Qed.

Lemma str_app_nil_r s : s ++ EmptyString = s.
Proof. induction s as [|c s IH]; [done|]. cbn. by rewrite IH. Qed.

Lemma str_app_assoc (a b c : string) : (a ++ b) ++ c = a ++ (b ++ c).
Proof. induction a as [|x a IH]; [done|]. cbn. by rewrite IH. Qed.

Lemma strip_prefix_some p s r : strip_prefix p s = Some r <-> s = p ++ r.
Proof.
  revert s. induction p as [|a p IH]; intros s; cbn.
  - split; [by intros [= ->] | by intros ->].
  - destruct s as [|b s]; [split; discriminate|].
    destruct (Ascii.eqb_spec a b) as [->|Hab].
    + rewrite IH. split; [by intros -> | by intros [= ->]].
    + split; [done | intros [= <- ->]; done].
Qed.

Lemma strip_prefix_app p s : strip_prefix p (p ++ s) = Some s.
Proof. by apply strip_prefix_some. Qed.

Lemma starts_with_spec p s : starts_with p s = true <-> exists r, s = p ++ r.
Proof.
  unfold starts_with. destruct (strip_prefix p s) as [r|] eqn:E.
  - apply strip_prefix_some in E. split; eauto.
  - split; [done|]. intros [r ->]. by rewrite strip_prefix_app in E.
Qed.

Lemma ends_with_spec q s : ends_with q s = true <-> exists r, s = r ++ q.
Proof.
  induction s as [|c s IH]; cbn.
  - rewrite orb_false_r, String.eqb_eq. split.
    + intros ->. by exists EmptyString.
    + intros [r Hr]. destruct r; cbn in Hr; [done | discriminate].
  - rewrite orb_true_iff, IH, String.eqb_eq. split.
    + intros [-> | [r ->]]; [by exists EmptyString | by exists (String c r)].
    + intros [[|x r] Hr]; cbn in Hr; [by left|]. injection Hr as -> ->. right. by exists r.
Qed.

Lemma contains_spec q s : contains q s = true <-> exists a b, s = a ++ q ++ b.
Proof.
  induction s as [|c s IH]; cbn [contains].
  - rewrite orb_false_r, starts_with_spec. split.
    + intros [r Hr]. exists EmptyString, r. done.
    + intros ([|x a] & b & H); [by exists b | discriminate].
  - rewrite orb_true_iff, IH, starts_with_spec. split.
    + intros [[r Hr] | (a & b & ->)]; [exists EmptyString, r; done | by exists (String c a), b].
    + intros ([|x a] & b & H); [left; by exists b|]. injection H as -> ->. right. by exists a, b.
Qed.

Lemma str_forall_app f a b : str_forall f (a ++ b) = str_forall f a && str_forall f b.
Proof. induction a as [|c a IH]; [done|]. cbn. by rewrite IH, andb_assoc. Qed.

Lemma rsplit_once_last c x y :
  str_forall (fun a => negb (Ascii.eqb a c)) y = true ->
  rsplit_once c (x ++ String c y) = Some (x, y).
Proof.
  intros Hy. assert (Hn : rsplit_once c y = None).
  { induction y as [|a y IH]; [done|]. cbn in Hy |- *.
    apply andb_true_iff in Hy as [Ha Hy]. rewrite IH by done.
    by destruct (Ascii.eqb a c). }
  induction x as [|a x IH]; cbn; [by rewrite Hn, Ascii.eqb_refl | by rewrite IH].
Qed.

Lemma rsplit_once_some c s x y :
  rsplit_once c s = Some (x, y) ->
  s = x ++ String c y /\ str_forall (fun a => negb (Ascii.eqb a c)) y = true.
Proof.
  assert (Hno : forall t, rsplit_once c t = None -> str_forall (fun a => negb (Ascii.eqb a c)) t = true).
  { induction t as [|a t IH]; cbn; [done|].
    destruct (rsplit_once c t) as [[? ?]|]; [done|].
    destruct (Ascii.eqb a c); [done|]. intros _. by apply IH. }
  revert x. induction s as [|a s IH]; intros x; cbn; [done|].
  destruct (rsplit_once c s) as [[x' y']|] eqn:E.
  - intros [= <- <-]. destruct (IH x' eq_refl) as [-> Hy]. done.
  - destruct (Ascii.eqb_spec a c) as [->|]; [|done].
    intros [= <- <-]. split; [done | by apply Hno].
Qed.

(** *** Decimal printing and parsing *)

Lemma code_digit_char d : (d < 10)%N -> code (digit_char d) = (48 + d)%N.
Proof. intros. unfold code, digit_char. rewrite N_ascii_embedding; lia. Qed.

Lemma digit_of_digit_char d : (d < 10)%N -> digit_of (digit_char d) = Some d.
Proof.
  intros. unfold digit_of, is_ascii_digit, between. rewrite code_digit_char by done.
  destruct (N.leb_spec 48 (48 + d)), (N.leb_spec (48 + d) 57); cbn; try lia.
  f_equal. lia.
Qed.

Lemma is_ascii_digit_digit_char d : (d < 10)%N -> is_ascii_digit (digit_char d) = true.
Proof.
  intros. pose proof (digit_of_digit_char d H) as E. unfold digit_of in E.
  by destruct (is_ascii_digit _).
Qed.

Lemma digits_val_show_go fuel n s :
  (n < 10 ^ N.of_nat (S fuel))%N ->
  digits_val 0 (show_go (S fuel) n s) = digits_val n s.
Proof.
  revert n s. induction fuel as [|fuel IH]; intros n s Hn;
    pose proof (N.mod_lt n 10 ltac:(lia)) as Hm;
    pose proof (N.div_mod n 10 ltac:(lia)) as Hd.
  - cbn in Hn. assert (n / 10 = 0)%N as E by (apply N.div_small; lia).
    cbn. rewrite E. cbn. rewrite digit_of_digit_char by done. f_equal. lia.
  - remember (S fuel) as f. cbn [show_go]. destruct (N.eqb_spec (n / 10) 0) as [E|E].
    + cbn. rewrite digit_of_digit_char by done. f_equal. lia.
    + subst f. rewrite IH.
      * cbn. rewrite digit_of_digit_char by done. f_equal. lia.
      * apply N.Div0.div_lt_upper_bound.
        replace (N.of_nat (S (S fuel))) with (N.succ (N.of_nat (S fuel))) in Hn by lia.
        by rewrite N.pow_succ_r' in Hn.
Qed.

Lemma show_N_fuel n : (n < 10 ^ N.of_nat (S (N.to_nat (N.log2 n))))%N.
Proof.
  replace (N.of_nat (S (N.to_nat (N.log2 n)))) with (N.succ (N.log2 n)) by lia.
  destruct (N.eq_dec n 0) as [->|Hn]; [done|].
  pose proof (N.log2_spec n ltac:(lia)) as [_ H].
  eapply N.lt_le_trans; [exact H|]. apply N.pow_le_mono_l. lia.
Qed.

Lemma digits_val_show n : digits_val 0 (show_N n) = Some n.
Proof. unfold show_N. rewrite digits_val_show_go by apply show_N_fuel. done. Qed.

Lemma show_go_digits fuel n s :
  str_forall is_ascii_digit s = true -> str_forall is_ascii_digit (show_go fuel n s) = true.
Proof.
  revert n s. induction fuel as [|fuel IH]; intros n s Hs; [done|]. cbn [show_go].
  pose proof (N.mod_lt n 10 ltac:(lia)).
  assert (Hd : str_forall is_ascii_digit (String (digit_char (n mod 10)) s) = true).
  { cbn. rewrite is_ascii_digit_digit_char by done. done. }
  destruct (_ =? 0)%N; [done | by apply IH].
Qed.

Lemma show_N_digits n : str_forall is_ascii_digit (show_N n) = true.
Proof. by apply show_go_digits. Qed.

Lemma show_go_last fuel n s :
  exists r, show_go (S fuel) n s = r ++ String (digit_char (n mod 10)) s.
Proof.
  revert n s. induction fuel as [|fuel IH]; intros n s.
  - exists EmptyString. cbn. by destruct (_ =? 0)%N.
  - remember (S fuel) as f. cbn [show_go]. destruct (n / 10 =? 0)%N; [by exists EmptyString|].
    subst f. destruct (IH (n / 10)%N (String (digit_char (n mod 10)) s)) as [r ->].
    exists (r ++ String (digit_char ((n / 10) mod 10)) EmptyString).
    by rewrite str_app_assoc.
Qed.

(** The last character of a printed number is a digit. *)
Lemma show_N_last n : exists r d, show_N n = r ++ String d EmptyString /\ is_ascii_digit d = true.
Proof.
  destruct (show_go_last (N.to_nat (N.log2 n)) n EmptyString) as [r Hr].
  exists r, (digit_char (n mod 10)). split; [exact Hr|].
  apply is_ascii_digit_digit_char. apply N.mod_lt. lia.
Qed.

Lemma parse_uint_digits w c r :
  is_ascii_digit c = true -> parse_uint w (String c r)
  = match digits_val 0 (String c r) with
    | Some v => if (v <? 2 ^ w)%N then Some v else None
    | None => None
    end.
Proof.
  intros Hc. unfold parse_uint. destruct (Ascii.eqb_spec c "+"%char) as [->|Hne].
  - by vm_compute in Hc.
  - destruct c as [[] [] [] [] [] [] [] []]; try done.
Qed.

Lemma parse_show_N w n : (n < 2 ^ w)%N -> parse_uint w (show_N n) = Some n.
Proof.
  intros Hn. pose proof (show_N_digits n) as Hd. pose proof (digits_val_show n) as Hv.
  destruct (show_N n) as [|c r] eqn:E.
  - destruct (show_N_last n) as (x & d & Hx & _). rewrite E in Hx. by destruct x.
  - cbn in Hd. apply andb_true_iff in Hd as [Hc _].
    rewrite parse_uint_digits, Hv by done. by apply N.ltb_lt in Hn as ->.
Qed.

Lemma parse_uint_lt w s v : parse_uint w s = Some v -> (v < 2 ^ w)%N.
Proof.
  unfold parse_uint. destruct (str_is_empty _); [done|].
  destruct (digits_val _ _) as [u|]; [|done].
  destruct (N.ltb_spec u (2 ^ w)); [|done]. by intros [= <-].
Qed.

(** *** Trimming *)

(** An ASCII character that is not whitespace. *)
Definition visible (c : ascii) : bool := (code c <? 128)%N && negb (is_ws1 (code c)).

Lemma is_ws2_high a b : is_ws2 a b = true -> (128 <= a /\ 128 <= b)%N.
Proof. unfold is_ws2. rewrite andb_true_iff, orb_true_iff, !N.eqb_eq. lia. Qed.

Lemma is_ws3_high a b c : is_ws3 a b c = true -> (128 <= a /\ 128 <= c)%N.
Proof.
  unfold is_ws3, between. rewrite !orb_true_iff, !andb_true_iff, !orb_true_iff, !andb_true_iff.
  rewrite !N.eqb_eq, !N.leb_le. lia.
Qed.

Lemma strip_ws_char_visible rev c r : visible c = true -> strip_ws_char rev (String c r) = None.
Proof.
  unfold visible. rewrite andb_true_iff, N.ltb_lt, negb_true_iff. intros [Hc Hw].
  cbn [strip_ws_char]. rewrite Hw. destruct r as [|b r]; [done|].
  destruct rev;
    (destruct (is_ws2 _ _) eqn:E2; [apply is_ws2_high in E2; lia|]);
    (destruct r as [|d r]; [done|]);
    (destruct (is_ws3 _ _ _) eqn:E3; [apply is_ws3_high in E3; lia|done]).
Qed.

Lemma strip_ws_visible rev c r : visible c = true -> strip_ws rev (String c r) = String c r.
Proof. intros. unfold strip_ws. cbn [strip_ws_go String.length]. by rewrite strip_ws_char_visible. Qed.

Lemma strip_ws_go_fuel rev n s : (String.length s <= n)%nat -> strip_ws_go rev n s = strip_ws rev s.
Proof.
  unfold strip_ws. remember (String.length s) as m eqn:Hm.
  assert (Hle : (String.length s <= m)%nat) by lia. clear Hm.
  intros Hn. revert s n Hle Hn. induction m as [|m IH]; intros s n Hs Hn.
  - destruct s; [|cbn in Hs; lia]. by destruct n.
  - destruct n as [|n]; [lia|]. cbn [strip_ws_go].
    destruct (strip_ws_char rev s) as [r|] eqn:E; [|done].
    apply IH; [|lia]. enough (String.length r < String.length s)%nat by lia.
    destruct s as [|a s]; [done|]. cbn in E.
    repeat (case_match; simplify_eq/=; try lia).
Qed.

(** Stripping one whitespace character first changes nothing. *)
Lemma strip_ws_step rev s r : strip_ws_char rev s = Some r -> strip_ws rev s = strip_ws rev r.
Proof.
  intros E. unfold strip_ws at 1. destruct s as [|a s]; [done|]. cbn [String.length strip_ws_go].
  rewrite E. apply strip_ws_go_fuel. cbn in E.
  repeat (case_match; simplify_eq/=; try lia).
Qed.

Lemma trim_start_space s : trim_start (String " " s) = trim_start s.
Proof. by apply strip_ws_step. Qed.

Lemma str_rev_app_spec s t : str_rev_app s t = str_rev s ++ t.
Proof.
  unfold str_rev. revert t. induction s as [|c s IH]; intros t; [done|]. cbn [str_rev_app].
  rewrite IH, (IH (String c EmptyString)), str_app_assoc. done.
Qed.

Lemma str_rev_snoc s c : str_rev (s ++ String c EmptyString) = String c (str_rev s).
Proof.
  unfold str_rev. induction s as [|a s IH]; [done|]. cbn [str_rev_app String.append].
  rewrite !(str_rev_app_spec _ (String a EmptyString)). unfold str_rev. by rewrite IH.
Qed.

Lemma str_rev_cons c s : str_rev (String c s) = str_rev s ++ String c EmptyString.
Proof. unfold str_rev at 1. cbn. by rewrite str_rev_app_spec. Qed.

Lemma str_rev_involutive s : str_rev (str_rev s) = s.
Proof. induction s as [|c s IH]; [done|]. rewrite str_rev_cons, str_rev_snoc. by rewrite IH. Qed.

(** A string that starts and ends with a visible character is its own trim. *)
Lemma trim_visible c s r d :
  String c s = r ++ String d EmptyString -> visible c = true -> visible d = true ->
  trim (String c s) = String c s.
Proof.
  intros H Hc Hd. unfold trim, trim_start. rewrite strip_ws_visible by done.
  unfold trim_end. rewrite H, str_rev_snoc, strip_ws_visible by done.
  rewrite <- str_rev_snoc. by rewrite str_rev_involutive.
Qed.

Lemma digit_visible d : is_ascii_digit d = true -> visible d = true.
Proof.
  unfold is_ascii_digit, visible, is_ws1, between. rewrite !andb_true_iff, !N.leb_le, N.ltb_lt.
  intros [H1 H2]. split; [lia|]. rewrite negb_true_iff, orb_false_iff, andb_false_iff.
  rewrite !N.leb_gt, N.eqb_neq. lia.
Qed.

Lemma strip_ws_none rev s : strip_ws_char rev s = None -> strip_ws rev s = s.
Proof. intros E. unfold strip_ws. destruct s as [|a s]; [done|]. cbn [String.length strip_ws_go]. by rewrite E. Qed.

(** What is left is a suffix with no leading whitespace character. *)
Lemma strip_ws_spec rev s :
  strip_ws_char rev (strip_ws rev s) = None /\ exists p, s = p ++ strip_ws rev s.
Proof.
  remember (String.length s) as n eqn:Hn. revert s Hn.
  induction n as [n IH] using lt_wf_ind. intros s Hn.
  destruct (strip_ws_char rev s) as [r|] eqn:E.
  - rewrite (strip_ws_step _ _ _ E).
    assert (exists p, s = p ++ r /\ (String.length r < String.length s)%nat) as (p & Hp & Hlt).
    { destruct s as [|a s]; [done|]. cbn in E.
      repeat (case_match; simplify_eq/=);
        first [ exists (String a EmptyString); cbn; split; [done|lia]
              | (eexists (String a (String _ EmptyString)); cbn; split; [done|lia])
              | (eexists (String a (String _ (String _ EmptyString))); cbn; split; [done|lia]) ]. }
    destruct (IH (String.length r)) with (s := r) as [H1 [q Hq]]; [lia|done|].
    split; [done|]. exists (p ++ q). rewrite str_app_assoc, <- Hq. done.
  - rewrite strip_ws_none by done. split; [done|]. by exists EmptyString.
Qed.

(** A visible character is never stripped. *)
Lemma strip_ws_char_visible_last rev x c r :
  visible c = true -> strip_ws_char rev (x ++ String c EmptyString) = Some r ->
  exists y, r = y ++ String c EmptyString /\ (String.length y < String.length x)%nat.
Proof.
  intros Hc H. pose proof Hc as Hc'. unfold visible in Hc'. rewrite andb_true_iff, N.ltb_lt, negb_true_iff in Hc'.
  destruct Hc' as [Hlo Hw].
  destruct x as [|a [|b [|d x]]]; cbn [String.append strip_ws_char] in H.
  - by rewrite Hw in H.
  - destruct (is_ws1 (code a)); [injection H as <-; exists EmptyString; cbn; split; [done|lia]|].
    destruct rev; (destruct (is_ws2 _ _) eqn:E; [apply is_ws2_high in E; lia|done]).
  - destruct (is_ws1 (code a)); [injection H as <-; exists (String b EmptyString); cbn; split; [done|lia]|].
    destruct rev; (destruct (is_ws2 _ _); [injection H as <-; exists EmptyString; cbn; split; [done|lia]|]);
      (destruct (is_ws3 _ _ _) eqn:E; [apply is_ws3_high in E; lia|done]).
  - destruct (is_ws1 (code a)); [injection H as <-; exists (String b (String d x)); cbn; split; [done|lia]|].
    destruct rev; (destruct (is_ws2 _ _); [injection H as <-; exists (String d x); cbn; split; [done|lia]|]);
      (destruct (is_ws3 _ _ _); [injection H as <-; exists x; cbn; split; [done|lia]|done]).
Qed.

Lemma strip_ws_visible_last rev x c : visible c = true -> strip_ws rev (x ++ String c EmptyString) <> EmptyString.
Proof.
  intros Hc. remember (String.length x) as n eqn:Hn. revert x Hn. induction n as [n IH] using lt_wf_ind. intros x Hn.
  destruct (strip_ws_char rev (x ++ String c EmptyString)) as [r|] eqn:E.
  - rewrite (strip_ws_step _ _ _ E). destruct (strip_ws_char_visible_last _ _ _ _ Hc E) as (y & -> & Hy).
    eapply IH; [|reflexivity]. lia.
  - rewrite strip_ws_none by done. by destruct x.
Qed.

Lemma trim_visible_first c r : visible c = true -> trim (String c r) <> EmptyString.
Proof.
  intros Hc H. unfold trim, trim_start, trim_end in H. rewrite strip_ws_visible, str_rev_cons in H by done.
  apply (strip_ws_visible_last true (str_rev r) c Hc).
  rewrite <- (str_rev_involutive (strip_ws true _)), H. done.
Qed.

Lemma strip_ws_char_app rev a b r :
  strip_ws_char rev a = Some r -> exists r', strip_ws_char rev (a ++ b) = Some r'.
Proof.
  destruct a as [|x a]; [done|]. cbn. intros H.
  destruct (is_ws1 (code x)); [eauto|]. destruct a as [|y a]; [done|]. cbn in *.
  destruct (if rev then _ else _); [eauto|]. destruct a as [|z a]; [done|]. cbn in *.
  destruct (if rev then _ else _); [eauto|done].
Qed.

Lemma str_rev_app_distr a b : str_rev (a ++ b) = str_rev b ++ str_rev a.
Proof.
  induction a as [|c a IH]; [by rewrite str_app_nil_r|]. cbn [String.append].
  rewrite !str_rev_cons, IH, str_app_assoc. done.
Qed.

Lemma trim_idem s : trim (trim s) = trim s.
Proof.
  change (trim s) with (trim_end (trim_start s)). set (t := trim_start s).
  assert (strip_ws_char false t = None) as Ht by apply strip_ws_spec.
  unfold trim_end. destruct (strip_ws_spec true (str_rev t)) as [He [p Hp]].
  set (u := strip_ws true (str_rev t)) in *.
  assert (t = str_rev u ++ str_rev p) as Hsplit by (rewrite <- str_rev_app_distr, <- Hp; by rewrite str_rev_involutive).
  assert (strip_ws_char false (str_rev u) = None) as Hu.
  { destruct (strip_ws_char false (str_rev u)) as [r|] eqn:E; [|done].
    destruct (strip_ws_char_app false _ (str_rev p) _ E) as [r' Hr']. rewrite <- Hsplit in Hr'. congruence. }
  unfold trim, trim_start. rewrite (strip_ws_none false) by done.
  unfold trim_end. rewrite str_rev_involutive. by rewrite strip_ws_none.
Qed.

(** Proofs go through the lemmas above; evaluation still computes. *)
Arguments trim : simpl never.
Arguments trim_start : simpl never.
Arguments trim_end : simpl never.
Arguments show_N : simpl never.
Arguments parse_uint : simpl never.
Arguments to_lowercase : simpl never.
Arguments to_ascii_lowercase : simpl never.
Arguments utf8_valid : simpl never.
Arguments code : simpl never.

(** *** Splitting concatenations *)

Lemma str_app_inj_until f c x y p q :
  str_forall f x = true -> str_forall f y = true -> f c = false ->
  (x ++ String c p = y ++ String c q)%string -> x = y /\ p = q.
Proof.
  revert y. induction x as [|a x IH]; intros [|b y]; cbn; rewrite ?andb_true_iff.
  - intros _ _ _ [= ->]. done.
  - intros _ [Hb _] Hc [= <- _]. congruence.
  - intros [Ha _] _ Hc [= -> _]. congruence.
  - intros [_ Hx] [_ Hy] Hc [= -> H]. destruct (IH y) as [-> ->]; done.
Qed.

Lemma str_app_inj_len (x y p q : string) :
  str_len x = str_len y -> (x ++ p = y ++ q)%string -> x = y /\ p = q.
Proof.
  unfold str_len. rewrite Nat2N.inj_iff. revert y.
  induction x as [|a x IH]; intros [|b y]; cbn; try done.
  intros [= Hl] [= -> H]. destruct (IH y Hl H) as [-> ->]. done.
Qed.

Lemma str_app_inj_l (x p q : string) : (x ++ p = x ++ q)%string -> p = q.
Proof. intros H. by destruct (str_app_inj_len x x p q eq_refl H). Qed.

Lemma str_len_app (x y : string) : str_len (x ++ y) = (str_len x + str_len y)%N.
Proof.
  unfold str_len. rewrite <- Nat2N.inj_add. f_equal.
  induction x as [|a x IH]; [done|]. cbn. by rewrite IH.
Qed.

Lemma show_N_inj a b : show_N a = show_N b -> a = b.
Proof. intros H. pose proof (digits_val_show a) as Ha. rewrite H, digits_val_show in Ha. by injection Ha. Qed.

(** Length-prefixed encoding of a list of strings, [len ":" bytes ...]: the
    input fed to a hash so that no two lists share it. *)
Fixpoint encode_fields (l : list string) : string :=
  match l with
  | [] => EmptyString
  | e :: l' => show_N (str_len e) ++ ":" ++ e ++ encode_fields l'
  end.

Lemma encode_fields_inj l k : encode_fields l = encode_fields k -> l = k.
Proof.
  assert (Hne : forall (e r : string), (show_N (str_len e) ++ ":" ++ e ++ r)%string <> EmptyString).
  { intros e r H. apply (f_equal str_len) in H. rewrite !str_len_app in H.
    change (str_len ":") with 1%N in H. change (str_len EmptyString) with 0%N in H. lia. }
  revert k. induction l as [|e l IH]; intros [|e' k]; cbn.
  - done.
  - intros H. symmetry in H. by apply Hne in H.
  - intros H. by apply Hne in H.
  - intros H. change (":" ++ ?x)%string with (String ":" x) in H.
    apply (str_app_inj_until is_ascii_digit ":") in H as [Hl H]; try apply show_N_digits; [|done].
    apply show_N_inj in Hl. apply str_app_inj_len in H as [-> H]; [|done].
    f_equal. by apply IH.
Qed.

(** Lower-case hexadecimal, two digits per byte. *)
Definition hex_digit (n : N) : ascii :=
  if (n <? 10)%N then ascii_of_N (48 + n) else ascii_of_N (87 + n).
Fixpoint hex_lower (l : list byte) : string :=
  match l with
  | [] => EmptyString
  | b :: l' => String (hex_digit (N_of_byte b / 16)) (String (hex_digit (N_of_byte b mod 16)) (hex_lower l'))
  end.

Lemma hex_byte_inj a b :
  hex_digit (N_of_byte a / 16) = hex_digit (N_of_byte b / 16) ->
  hex_digit (N_of_byte a mod 16) = hex_digit (N_of_byte b mod 16) -> a = b.
Proof.
  assert (Hd : forall n m, (n < 16 -> m < 16 -> hex_digit n = hex_digit m -> n = m)%N).
  { intros n m Hn Hm H. apply (f_equal N_of_ascii) in H. unfold hex_digit in H.
    destruct (N.ltb_spec n 10), (N.ltb_spec m 10);
      rewrite !N_ascii_embedding in H; lia. }
  pose proof (N_of_byte_lt a). pose proof (N_of_byte_lt b). intros H1 H2.
  apply Hd in H1; [|apply N.Div0.div_lt_upper_bound; lia..].
  apply Hd in H2; [|apply N.mod_lt; lia..].
  rewrite <- (byte_of_N_of_byte a), <- (byte_of_N_of_byte b). f_equal.
  rewrite (N.div_mod (N_of_byte a) 16), (N.div_mod (N_of_byte b) 16), H1, H2 by lia. done.
Qed.

Lemma hex_lower_inj l k : hex_lower l = hex_lower k -> l = k.
Proof.
  revert k. induction l as [|a l IH]; intros [|b k]; cbn; try done.
  intros H. injection H as H1 H2 H. apply IH in H as ->. by rewrite (hex_byte_inj a b).
Qed.
