(* ===== verification/RustText.v ===== *)
(** * Rust text

    The iterators of the standard library over a [str]: [chars], [lines] and
    [split_whitespace], and [join], on the byte strings of [RustStr].  A
    character is its UTF-8 sequence.  The lemmas say how whitespace at the two
    ends of a string is recognised (a whitespace character reads the same from
    either side) and how [lines] inverts [join]. *)

From Stdlib Require Import Strings.String Strings.Ascii.
From stdpp Require Import list.
From S2P Require Import Prelude RustStr.

Local Open Scope string_scope.
Local Arguments String.append !_ _ / : simpl nomatch.

Definition newline : ascii := ascii_of_N 10.
Definition carriage_return : ascii := ascii_of_N 13.
Definition nl : string := String newline EmptyString.

(** A continuation byte belongs to the character before it. *)
Definition is_cont (c : ascii) : bool := between 128 191 (code c).
Definition head_is (p : ascii -> bool) (s : string) : bool :=
  match s with String c _ => p c | EmptyString => false end.

Fixpoint chars (s : string) : list string :=
  match s with
  | EmptyString => []
  | String c r =>
      match chars r with
      | ch :: rest => if head_is is_cont r then String c ch :: rest else String c EmptyString :: ch :: rest
      | [] => [String c EmptyString]
      end
  end.

(** [str::lines]: lines end with LF or CRLF; what follows the last one is a
    line unless it is empty. *)
Fixpoint lines (s : string) : list string :=
  match s with
  | EmptyString => []
  | String c r =>
      if Ascii.eqb c newline then EmptyString :: lines r
      else if Ascii.eqb c carriage_return && head_is (Ascii.eqb newline) r then lines r
      else match lines r with
           | l :: ls => String c l :: ls
           | [] => [String c EmptyString]
           end
  end.

Definition is_whitespace (ch : string) : bool := negb (str_is_empty ch) && all_whitespace ch.

Fixpoint take_while {A : Type} (p : A -> bool) (l : list A) : list A :=
  match l with [] => [] | x :: r => if p x then x :: take_while p r else [] end.
Fixpoint drop_while {A : Type} (p : A -> bool) (l : list A) : list A :=
  match l with [] => [] | x :: r => if p x then drop_while p r else l end.

Fixpoint words (cur : string) (l : list string) : list string :=
  match l with
  | [] => if str_is_empty cur then [] else [cur]
  | ch :: r => if is_whitespace ch then (if str_is_empty cur then words EmptyString r else cur :: words EmptyString r)
               else words (cur ++ ch) r
  end.
Definition split_whitespace (s : string) : list string := words EmptyString (chars s).

Definition join (sep : string) (l : list string) : string := String.concat sep l.

(** ** Characters *)

Lemma concat_cons c l : String.concat EmptyString (c :: l) = c ++ String.concat EmptyString l.
Proof. destruct l; cbn; [by rewrite str_app_nil_r|done]. Qed.

Lemma concat_chars s : String.concat EmptyString (chars s) = s.
Proof.
  induction s as [|c r IH]; [done|]. cbn [chars]. destruct (chars r) as [|ch rest]; [cbn in *; by subst r|].
  rewrite concat_cons in IH. destruct (head_is is_cont r); rewrite !concat_cons; cbn [String.append]; by rewrite IH.
Qed.

Lemma chars_nonempty s ch : ch ∈ chars s -> ch <> EmptyString.
Proof.
  induction s as [|c r IH]; cbn [chars]; [by intros ?%elem_of_nil|]. destruct (chars r) as [|d rest].
  - by intros ->%list_elem_of_singleton.
  - destruct (head_is is_cont r); rewrite !elem_of_cons; intros [->|H]; [done| |done|]; apply IH; rewrite elem_of_cons; naive_solver.
Qed.

Lemma chars_length s : (length (chars s) <= String.length s)%nat.
Proof.
  induction s as [|c r IH]; cbn [chars]; [done|]. destruct (chars r) as [|d rest]; cbn in *; [lia|]. destruct (head_is is_cont r); cbn; lia.
Qed.

Lemma chars_ascii s : str_forall (fun c => (code c <? 128)%N) s = true -> length (chars s) = String.length s.
Proof.
  induction s as [|c r IH]; cbn [chars str_forall]; [done|]. rewrite andb_true_iff. intros [_ Hr]. specialize (IH Hr).
  assert (head_is is_cont r = false) as Hh.
  { destruct r as [|d r]; [done|]. cbn in Hr |- *. apply andb_true_iff in Hr as [Hd%N.ltb_lt _]. unfold is_cont, between.
    apply andb_false_iff. left. apply N.leb_gt. lia. }
  destruct (chars r) as [|ch rest] eqn:E; cbn in *; [by rewrite <- IH|]. rewrite Hh. cbn. by rewrite IH.
Qed.

(** ** Whitespace characters *)

(** Exactly one whitespace character. *)
Definition ws_char (w : string) : Prop := strip_ws_char false w = Some EmptyString.

Lemma ws_char_cases w : ws_char w ->
  (exists a, w = String a EmptyString /\ is_ws1 (code a) = true)
  \/ (exists a b, w = String a (String b EmptyString) /\ is_ws2 (code a) (code b) = true)
  \/ (exists a b c, w = String a (String b (String c EmptyString)) /\ is_ws3 (code a) (code b) (code c) = true).
Proof.
  unfold ws_char. destruct w as [|a [|b [|c r]]]; cbn; [done| | |].
  - destruct (is_ws1 (code a)) eqn:E; [|done]. left. eauto.
  - destruct (is_ws1 (code a)); [done|]. destruct (is_ws2 (code a) (code b)) eqn:E; [|done]. right. left. eauto.
  - destruct (is_ws1 (code a)); [done|]. destruct (is_ws2 (code a) (code b)); [done|].
    destruct (is_ws3 (code a) (code b) (code c)) eqn:E; [|done]. intros [= ->]. right. right. eauto 6.
Qed.

Lemma is_ws1_low a : is_ws1 a = true -> (a < 128)%N.
Proof. unfold is_ws1, between. rewrite orb_true_iff, andb_true_iff, !N.leb_le, N.eqb_eq. lia. Qed.
Lemma high_not_ws1 a : (128 <= a)%N -> is_ws1 a = false.
Proof. intros H. destruct (is_ws1 a) eqn:E; [|done]. apply is_ws1_low in E. lia. Qed.

Lemma is_ws3_not_ws2 a b c : is_ws3 a b c = true -> is_ws2 a b = false /\ is_ws2 b c = false.
Proof.
  unfold is_ws3, is_ws2. rewrite !orb_true_iff, !andb_true_iff, !N.eqb_eq. intros H.
  split; apply andb_false_iff; left; apply N.eqb_neq; lia.
Qed.

Lemma strip_ws_char_front w s : ws_char w -> strip_ws_char false (w ++ s) = Some s.
Proof.
  intros [(a & -> & E)|[(a & b & -> & E)|(a & b & c & -> & E)]]%ws_char_cases; cbn.
  - by rewrite E.
  - pose proof (is_ws2_high _ _ E) as [? ?]. by rewrite high_not_ws1, E.
  - pose proof (is_ws3_high _ _ _ E) as [? ?]. pose proof (is_ws3_not_ws2 _ _ _ E) as [E2 _]. by rewrite high_not_ws1, E2, E.
Qed.

Lemma strip_ws_char_back w s : ws_char w -> strip_ws_char true (str_rev w ++ s) = Some s.
Proof.
  intros [(a & -> & E)|[(a & b & -> & E)|(a & b & c & -> & E)]]%ws_char_cases; cbn.
  - by rewrite E.
  - pose proof (is_ws2_high _ _ E) as [? ?]. by rewrite high_not_ws1, E.
  - pose proof (is_ws3_high _ _ _ E) as [? ?]. pose proof (is_ws3_not_ws2 _ _ _ E) as [_ E2]. by rewrite high_not_ws1, E2, E.
Qed.

(** What was stripped was one whitespace character. *)
Lemma strip_ws_char_some rev s r : strip_ws_char rev s = Some r -> exists w, ws_char w /\ s = (if rev then str_rev w else w) ++ r.
Proof.
  destruct s as [|a s]; [done|]. cbn. destruct (is_ws1 (code a)) eqn:E1.
  { intros [= ->]. exists (String a EmptyString). split; [unfold ws_char; cbn; by rewrite E1|by destruct rev]. }
  destruct s as [|b s]; [done|]. destruct (if rev then is_ws2 (code b) (code a) else is_ws2 (code a) (code b)) eqn:E2.
  { intros [= ->]. exists (if rev then String b (String a EmptyString) else String a (String b EmptyString)).
    destruct rev; (split; [|done]); unfold ws_char; cbn; rewrite E2; pose proof (is_ws2_high _ _ E2) as [? ?]; by rewrite high_not_ws1. }
  destruct s as [|c s]; [done|]. destruct (if rev then is_ws3 (code c) (code b) (code a) else is_ws3 (code a) (code b) (code c)) eqn:E3; [|done].
  intros [= ->]. exists (if rev then String c (String b (String a EmptyString)) else String a (String b (String c EmptyString))).
  destruct rev; (split; [|done]); unfold ws_char; cbn; rewrite E3; pose proof (is_ws3_high _ _ _ E3) as [? ?];
    pose proof (is_ws3_not_ws2 _ _ _ E3) as [-> _]; by rewrite high_not_ws1.
Qed.

(** Whitespace strings: what both trims remove. *)
Inductive ws_string : string -> Prop :=
| ws_nil : ws_string EmptyString
| ws_cons w s : ws_char w -> ws_string s -> ws_string (w ++ s).

Lemma ws_string_app a b : ws_string a -> ws_string b -> ws_string (a ++ b).
Proof. induction 1; intros; [done|]. rewrite str_app_assoc. constructor; auto. Qed.
Lemma ws_string_snoc s w : ws_string s -> ws_char w -> ws_string (s ++ w).
Proof. intros. apply ws_string_app; [done|]. rewrite <- (str_app_nil_r w). by constructor; [|constructor]. Qed.

Lemma ws_string_rev s r : ws_string s -> strip_ws true (str_rev s ++ r) = strip_ws true r.
Proof.
  intros H. revert r. induction H as [|w s Hw Hs IH]; intros r; [done|].
  rewrite str_rev_app_distr, str_app_assoc, IH. apply strip_ws_step. by apply strip_ws_char_back.
Qed.
Lemma ws_string_front s r : ws_string s -> strip_ws false (s ++ r) = strip_ws false r.
Proof.
  induction 1 as [|w s Hw Hs IH]; [done|]. rewrite str_app_assoc. rewrite <- IH. apply strip_ws_step. by apply strip_ws_char_front.
Qed.

Lemma strip_ws_decomp (rev : bool) (s : string) :
  exists p, ws_string p /\ s = (if rev then str_rev p else p) ++ strip_ws rev s /\ strip_ws_char rev (strip_ws rev s) = None.
Proof.
  remember (String.length s) as n eqn:Hn. revert s Hn. induction n as [n IH] using lt_wf_ind. intros s Hn.
  destruct (strip_ws_char rev s) as [r|] eqn:E.
  - rewrite (strip_ws_step _ _ _ E). destruct (strip_ws_char_some _ _ _ E) as (w & Hw & ->).
    assert (String.length r < n)%nat as Hlt.
    { subst n. pose proof (str_len_app (if rev then str_rev w else w) r) as Hl. unfold str_len in Hl.
      enough (0 < String.length (if rev then str_rev w else w))%nat by lia.
      destruct (ws_char_cases w Hw) as [(a & -> & _)|[(a & b & -> & _)|(a & b & c & -> & _)]]; destruct rev; cbn; lia. }
    destruct (IH (String.length r) Hlt r eq_refl) as (p & Hp & Hr & Hnone). exists (if rev then p ++ w else w ++ p).
    split; [destruct rev; [by apply ws_string_snoc|by constructor]|]. split; [|done].
    destruct rev; rewrite Hr at 1; rewrite ?str_rev_app_distr, str_app_assoc; done.
  - exists EmptyString. rewrite strip_ws_none by done. split; [constructor|]. split; [by destruct rev|done].
Qed.

Lemma trim_start_empty s : trim_start s = EmptyString <-> ws_string s.
Proof.
  unfold trim_start. split.
  - intros E. destruct (strip_ws_decomp false s) as (p & Hp & Hs & _). rewrite E, str_app_nil_r in Hs. by subst.
  - intros H. rewrite <- (str_app_nil_r s). by rewrite ws_string_front.
Qed.

Lemma trim_end_decomp s : exists p, ws_string p /\ s = trim_end s ++ p /\ strip_ws_char true (str_rev (trim_end s)) = None.
Proof.
  unfold trim_end. destruct (strip_ws_decomp true (str_rev s)) as (p & Hp & Hs & Hn). exists p. split; [done|].
  rewrite str_rev_involutive. split; [|done]. rewrite <- (str_rev_involutive s), Hs at 1. by rewrite str_rev_app_distr, str_rev_involutive.
Qed.

Lemma trim_end_ws s p : ws_string p -> trim_end (s ++ p) = trim_end s.
Proof. intros H. unfold trim_end. by rewrite str_rev_app_distr, ws_string_rev. Qed.

Lemma trim_end_idem s : trim_end (trim_end s) = trim_end s.
Proof.
  destruct (trim_end_decomp s) as (p & Hp & _ & Hn). unfold trim_end at 1. rewrite (strip_ws_none true) by done. apply str_rev_involutive.
Qed.

Lemma trim_end_empty s : trim_end s = EmptyString <-> ws_string s.
Proof.
  split.
  - intros E. destruct (trim_end_decomp s) as (p & Hp & Hs & _). rewrite E in Hs. by subst.
  - intros H. by apply (trim_end_ws EmptyString s).
Qed.

Lemma trim_empty s : trim s = EmptyString <-> ws_string s.
Proof.
  unfold trim. rewrite trim_end_empty. destruct (strip_ws_decomp false s) as (p & Hp & Hs & Hn). unfold trim_start. split.
  - intros H. rewrite Hs. by apply ws_string_app.
  - intros H. assert (strip_ws false s = EmptyString) as -> by by apply trim_start_empty. constructor.
Qed.

Lemma ws_string_trim_end s : ws_string (trim_end s) <-> ws_string s.
Proof. by rewrite <- !trim_end_empty, trim_end_idem. Qed.

Lemma trim_end_no_cr s x : trim_end s <> x ++ String carriage_return EmptyString.
Proof.
  intros E. destruct (trim_end_decomp s) as (p & _ & _ & Hn). rewrite E, str_rev_snoc in Hn. done.
Qed.

(** ** Lines *)

Definition no_nl (s : string) : bool := str_forall (fun c => negb (Ascii.eqb c newline)) s.
Definition no_final_cr (s : string) : Prop := forall x, s <> x ++ String carriage_return EmptyString.

Lemma no_nl_head s r : no_nl s = true -> s <> EmptyString -> head_is (Ascii.eqb newline) (s ++ r) = false.
Proof.
  destruct s as [|c s]; [done|]. unfold no_nl. cbn [str_forall String.append head_is]. rewrite andb_true_iff, negb_true_iff. intros [H _] _. by rewrite Ascii.eqb_sym.
Qed.

Lemma lines_line l t : no_nl l = true -> no_final_cr l -> lines (l ++ nl ++ t) = l :: lines t.
Proof.
  induction l as [|c l IH]; intros Hl Hcr; [done|]. unfold no_nl in Hl. cbn [str_forall] in Hl. apply andb_true_iff in Hl as [Hc Hl].
  apply negb_true_iff in Hc. cbn [String.append lines]. rewrite Hc.
  rewrite (IH Hl) by (intros x ->; by apply (Hcr (String c x))).
  destruct (Ascii.eqb c carriage_return) eqn:Ec; [|done]. apply Ascii.eqb_eq in Ec as ->.
  destruct l as [|d l]; [by destruct (Hcr EmptyString)|]. by rewrite no_nl_head.
Qed.

Lemma lines_last l : no_nl l = true -> l <> EmptyString -> lines l = [l].
Proof.
  induction l as [|c l IH]; intros Hl Hne; [done|]. unfold no_nl in Hl. cbn [str_forall] in Hl. apply andb_true_iff in Hl as [Hc Hl]. apply negb_true_iff in Hc.
  cbn [lines]. rewrite Hc. destruct l as [|d l]; [by rewrite andb_false_r|]. rewrite (IH Hl) by done.
  assert (head_is (Ascii.eqb newline) (String d l) = false) as -> by (rewrite <- (str_app_nil_r (String d l)); by apply no_nl_head).
  by rewrite andb_false_r.
Qed.

(** Joining non-empty lines and splitting them again. *)
Lemma lines_join ls : Forall (fun l => no_nl l = true /\ no_final_cr l /\ l <> EmptyString) ls -> lines (join nl ls) = ls.
Proof.
  induction 1 as [|l ls (H1 & H2 & H3) Hls IH]; [done|]. destruct ls as [|m ls]; [by apply lines_last|].
  change (join nl (l :: m :: ls)) with (l ++ nl ++ join nl (m :: ls)). rewrite lines_line by done. by rewrite IH.
Qed.

Lemma lines_no_nl s : Forall (fun l => no_nl l = true) (lines s).
Proof.
  induction s as [|c s IH]; cbn [lines]; [constructor|]. destruct (Ascii.eqb c newline) eqn:Ec; [by constructor|].
  destruct (_ && _); [done|]. destruct (lines s) as [|l ls]; [constructor; [|constructor]|inversion IH; subst; constructor; [|done]];
    unfold no_nl in *; cbn [str_forall]; by rewrite Ec.
Qed.
