(* ===== verification/CoreError.v ===== *)
(** * The core error type and its retry classification

    [crates/detrix-core/src/error.rs]: the [Error] enum every component
    returns, its machine-readable [ErrorCode], and the [ErrorCategory] that
    decides whether an operation may be retried (the agent circuit breaker of
    [AgentBreaker.v] counts only retryable failures). *)

From S2P Require Import Prelude.

Inductive ErrorCode : Type :=
| MetricNotFoundCode | MetricInvalidName | MetricInvalidLocation | MetricDuplicate
| MetricLocationConflictCode | MetricInvalidExpression | MetricExpressionTooLong | InvalidTenantIdCode
| SafetyViolationCode | SafetyAstFailed | SafetyError | SafetyUnsupportedLanguage
| SafetyProcessSpawn | SafetyProcessTimeout | SafetyOutputParse | SafetyProcessExecution
| SafetyHashVerification | SafeModeViolationCode
| ConfigInvalid | ConfigTomlParse | ConfigTomlSerialize | ConfigReadFailed | ConfigWriteFailed
| ConfigRestartRequired | ConfigInvalidValue | ConfigEnvironmentValidation
| ConnectionNotConnected | ConnectionNotFound
| FileReadFailed | FileParseFailed | AnalyzerNotFound | CommandFailed | InvalidPath
| FileNotFoundCode | NotAFile | LineNotFound | VariableNotInExecutableScope
| DatabaseError | AdapterError | IoError | SerializationError | OutputError
| Unauthorized | Forbidden
| RemoteAppError
| InternalError | StorageError | PartialGroupFailure | RollbackFailure | SubprocessTimeout.

#[export] Instance ErrorCode_eq_dec : EqDecision ErrorCode.
Proof. solve_decision. Defined.

(** The enum's explicit discriminants. *)
Definition as_u16 (c : ErrorCode) : N :=
  match c with
  | MetricNotFoundCode => 1001 | MetricInvalidName => 1002 | MetricInvalidLocation => 1003
  | MetricDuplicate => 1004 | MetricLocationConflictCode => 1005 | MetricInvalidExpression => 1006
  | MetricExpressionTooLong => 1007 | InvalidTenantIdCode => 1008
  | SafetyViolationCode => 2001 | SafetyAstFailed => 2002 | SafetyError => 2003
  | SafetyUnsupportedLanguage => 2004 | SafetyProcessSpawn => 2005 | SafetyProcessTimeout => 2006
  | SafetyOutputParse => 2007 | SafetyProcessExecution => 2008 | SafetyHashVerification => 2009
  | SafeModeViolationCode => 2010
  | ConfigInvalid => 3001 | ConfigTomlParse => 3002 | ConfigTomlSerialize => 3003
  | ConfigReadFailed => 3004 | ConfigWriteFailed => 3005 | ConfigRestartRequired => 3006
  | ConfigInvalidValue => 3007 | ConfigEnvironmentValidation => 3008
  | ConnectionNotConnected => 4001 | ConnectionNotFound => 4002
  | FileReadFailed => 4301 | FileParseFailed => 4302 | AnalyzerNotFound => 4303
  | CommandFailed => 4304 | InvalidPath => 4305 | FileNotFoundCode => 4306 | NotAFile => 4307
  | LineNotFound => 4308 | VariableNotInExecutableScope => 4309
  | DatabaseError => 5001 | AdapterError => 5002 | IoError => 5003 | SerializationError => 5004
  | OutputError => 5005
  | Unauthorized => 6001 | Forbidden => 6002
  | RemoteAppError => 7001
  | InternalError => 9001 | StorageError => 9002 | PartialGroupFailure => 9003
  | RollbackFailure => 9004 | SubprocessTimeout => 9005
  end.

Inductive ErrorCategory : Type := Retryable | Terminal | Security | Internal.

Definition category_is_retryable (c : ErrorCategory) : bool :=
  match c with Retryable => true | _ => false end.

Definition code_category (c : ErrorCode) : ErrorCategory :=
  match c with
  | DatabaseError | AdapterError | IoError | ConnectionNotConnected | SubprocessTimeout
  | RemoteAppError => Retryable
  | Unauthorized | Forbidden => Security
  | InternalError | StorageError | PartialGroupFailure | RollbackFailure
  | SerializationError | OutputError => Internal
  | MetricNotFoundCode | MetricInvalidName | MetricInvalidLocation | MetricDuplicate
  | MetricLocationConflictCode | MetricInvalidExpression | MetricExpressionTooLong
  | InvalidTenantIdCode | SafetyViolationCode | SafetyAstFailed | SafetyError
  | SafetyUnsupportedLanguage | SafeModeViolationCode | SafetyProcessSpawn
  | SafetyProcessTimeout | SafetyOutputParse | SafetyProcessExecution | SafetyHashVerification
  | ConfigInvalid | ConfigTomlParse | ConfigTomlSerialize | ConfigReadFailed
  | ConfigWriteFailed | ConfigRestartRequired | ConfigInvalidValue
  | ConfigEnvironmentValidation | ConnectionNotFound | FileReadFailed | FileParseFailed
  | AnalyzerNotFound | CommandFailed | InvalidPath | FileNotFoundCode | NotAFile
  | LineNotFound | VariableNotInExecutableScope => Terminal
  end.

Inductive Error : Type :=
| InvalidMetricName (msg : string)
| InvalidLocation (msg : string)
| MetricNotFound (id : string)
| DuplicateMetric (msg : string)
| MetricLocationConflict (location connection_id existing_name : string) (existing_id : N)
| InvalidTenantId (msg : string)
| SafetyViolation (violations : list string)
| AstAnalysisFailed (msg : string)
| Safety (msg : string)
| SafeModeViolation (operation connection_id : string)
| InvalidConfig (msg : string)
| InvalidExpression (msg : string)
| ExpressionTooLong (len max : N)
| Database (msg : string)
| Serialization (msg : string)
| Adapter (msg : string)
| NotConnected (msg : string)
| Io (msg : string)
| Output (msg : string)
| FileNotFound (path : string)
| RemoteApp (msg : string).

Definition error_code (e : Error) : ErrorCode :=
  match e with
  | MetricNotFound _ => MetricNotFoundCode
  | InvalidMetricName _ => MetricInvalidName
  | InvalidLocation _ => MetricInvalidLocation
  | DuplicateMetric _ => MetricDuplicate
  | MetricLocationConflict _ _ _ _ => MetricLocationConflictCode
  | InvalidExpression _ => MetricInvalidExpression
  | ExpressionTooLong _ _ => MetricExpressionTooLong
  | InvalidTenantId _ => InvalidTenantIdCode
  | SafetyViolation _ => SafetyViolationCode
  | AstAnalysisFailed _ => SafetyAstFailed
  | Safety _ => SafetyError
  | SafeModeViolation _ _ => SafeModeViolationCode
  | InvalidConfig _ => ConfigInvalid
  | NotConnected _ => ConnectionNotConnected
  | FileNotFound _ => FileNotFoundCode
  | Database _ => DatabaseError
  | Adapter _ => AdapterError
  | Io _ => IoError
  | Serialization _ => SerializationError
  | Output _ => OutputError
  | RemoteApp _ => RemoteAppError
  end.

Definition error_category (e : Error) : ErrorCategory := code_category (error_code e).
Definition is_retryable (e : Error) : bool := category_is_retryable (error_category e).

Definition is_not_found (e : Error) : bool :=
  match e with MetricNotFound _ | FileNotFound _ => true | _ => false end.

Definition resource_type (e : Error) : option string :=
  match e with
  | MetricNotFound _ => Some "metric"%string
  | FileNotFound _ => Some "file"%string
  | _ => None
  end.

Definition resource_id (e : Error) : option string :=
  match e with MetricNotFound i | FileNotFound i => Some i | _ => None end.

(** The range of the wire code determines the family documented for it. *)
Definition code_family (c : ErrorCode) : N := (as_u16 c / 1000)%N.

Lemma as_u16_lt c : (as_u16 c < 2 ^ 16)%N.
Proof. destruct c; vm_compute; done. Qed.

Definition all_codes : list ErrorCode :=
  [ MetricNotFoundCode; MetricInvalidName; MetricInvalidLocation; MetricDuplicate
  ; MetricLocationConflictCode; MetricInvalidExpression; MetricExpressionTooLong
  ; InvalidTenantIdCode; SafetyViolationCode; SafetyAstFailed; SafetyError
  ; SafetyUnsupportedLanguage; SafetyProcessSpawn; SafetyProcessTimeout; SafetyOutputParse
  ; SafetyProcessExecution; SafetyHashVerification; SafeModeViolationCode; ConfigInvalid
  ; ConfigTomlParse; ConfigTomlSerialize; ConfigReadFailed; ConfigWriteFailed
  ; ConfigRestartRequired; ConfigInvalidValue; ConfigEnvironmentValidation
  ; ConnectionNotConnected; ConnectionNotFound; FileReadFailed; FileParseFailed
  ; AnalyzerNotFound; CommandFailed; InvalidPath; FileNotFoundCode; NotAFile; LineNotFound
  ; VariableNotInExecutableScope; DatabaseError; AdapterError; IoError; SerializationError
  ; OutputError; Unauthorized; Forbidden; RemoteAppError; InternalError; StorageError
  ; PartialGroupFailure; RollbackFailure; SubprocessTimeout ].

Lemma elem_of_all_codes c : In c all_codes.
Proof. destruct c; vm_compute; tauto. Qed.

(** Distinct codes have distinct wire numbers: a client can tell them apart. *)
Lemma as_u16_inj c1 c2 : as_u16 c1 = as_u16 c2 -> c1 = c2.
Proof.
  set (back := fun n => find (fun c => (as_u16 c =? n)%N) all_codes).
  assert (Hback : forall c, back (as_u16 c) = Some c) by (by intros []).
  intros H. pose proof (Hback c1) as H1. rewrite H, Hback in H1. by injection H1.
Qed.
