(* ===== verification/Location.v ===== *)
(** * Source locations

    [crates/detrix-core/src/entities/location.rs]: the [@file#line] notation by
    which every observation point is addressed. *)

From Stdlib Require Import Strings.String Strings.Ascii.
From S2P Require Import Prelude RustStr CoreError.

Local Open Scope string_scope.
Local Arguments String.append !_ _ / : simpl nomatch.

Record Location : Type := mkLocation { loc_file : string; loc_line : N }.

#[export] Instance Location_eq_dec : EqDecision Location.
Proof. solve_decision. Defined.

(** A value of the Rust struct: [line] is a [u32]. *)
Definition location_wf (l : Location) : bool := (loc_line l <? 2 ^ 32)%N.

Definition location_parse (s : string) : result Location Error :=
  let s := trim s in
  if str_is_empty s then Err (InvalidLocation "Location cannot be empty") else
  let without_at := match strip_prefix "@" s with Some r => r | None => s end in
  match rsplit_once "#" without_at with
  | None => Err (InvalidLocation "Expected format: file.py#line (@ prefix optional)")
  | Some (file, line_str) =>
      let? line := ok_or (parse_uint 32 line_str) (InvalidLocation "Line must be a positive integer") in
      if str_is_empty file then Err (InvalidLocation "File path cannot be empty")
      else Ok (mkLocation file line)
  end.

Definition to_string_format (l : Location) : string :=
  "@" ++ loc_file l ++ "#" ++ show_N (loc_line l).

Lemma digit_not_hash s :
  str_forall is_ascii_digit s = true ->
  str_forall (fun a => negb (Ascii.eqb a "#")) s = true.
Proof.
  induction s as [|c s IH]; [done|]. cbn. rewrite !andb_true_iff. intros [Hc Hs].
  split; [|by apply IH]. destruct (Ascii.eqb_spec c "#") as [->|]; [by vm_compute in Hc | done].
Qed.

Lemma to_string_format_trimmed l : trim (to_string_format l) = to_string_format l.
Proof.
  destruct (show_N_last (loc_line l)) as (r & d & Hr & Hd).
  unfold to_string_format. rewrite Hr. cbn.
  eapply (trim_visible _ _ ("@" ++ loc_file l ++ "#" ++ r) d); [|done|by apply digit_visible].
  cbn. rewrite str_app_assoc. done.
Qed.

Lemma location_format_parses l :
  loc_file l <> EmptyString -> location_wf l = true -> location_parse (to_string_format l) = Ok l.
Proof.
  intros Hf Hl. apply N.ltb_lt in Hl. unfold location_parse. rewrite to_string_format_trimmed.
  destruct l as [file line]. unfold to_string_format. cbn [loc_file loc_line] in *.
  cbn [str_is_empty String.append strip_prefix]. rewrite Ascii.eqb_refl.
  replace (file ++ "#" ++ show_N line) with (file ++ String "#" (show_N line)) by done.
  rewrite rsplit_once_last by apply digit_not_hash, show_N_digits.
  rewrite parse_show_N by done. cbn. by destruct file.
Qed.

(** Printing a location and parsing it back is the identity: every file
    name the struct can hold with a non-empty path (spaces, [@], [#] and
    non-ASCII bytes included) and every [u32] line survive. *)
Theorem location_roundtrip l :
  loc_file l <> EmptyString -> location_wf l = true ->
  location_parse (to_string_format l) = Ok l.
Proof. apply location_format_parses. Qed.

Lemma location_roundtrip_witness :
  location_parse (to_string_format (mkLocation "src/a b#1.py" 4294967295))
  = Ok (mkLocation "src/a b#1.py" 4294967295).
Proof. apply (location_roundtrip (mkLocation "src/a b#1.py" 4294967295)); [discriminate | vm_compute; reflexivity]. Defined.

(** An accepted text denotes exactly the location it is parsed to: after
    trimming it is an optional [@], the file, a [#] and a decimal number that
    denotes the line; the file is non-empty and the line fits in a [u32]. *)
Theorem location_parse_sound s l :
  location_parse s = Ok l ->
  loc_file l <> EmptyString /\ location_wf l = true /\
  exists at_ digits, (at_ = EmptyString \/ at_ = "@") /\
    trim s = at_ ++ loc_file l ++ "#" ++ digits /\ parse_uint 32 digits = Some (loc_line l).
Proof.
  unfold location_parse. set (t := trim s). intros H. res_inv H.
  destruct (rsplit_once "#" _) as [[file digits]|] eqn:Hsp; [|discriminate].
  res_inv H. injection H as <-. cbn [loc_file loc_line].
  apply rsplit_once_some in Hsp as [Hsp _]. split_and!.
  - intros ->. done.
  - unfold location_wf. apply N.ltb_lt. eapply parse_uint_lt. eassumption.
  - destruct (strip_prefix "@" t) as [r|] eqn:Ht.
    + apply strip_prefix_some in Ht. exists "@", digits. split; [by right|]. by rewrite Ht, Hsp.
    + exists EmptyString, digits. split; [by left|]. by rewrite Hsp.
Qed.

Lemma location_parse_sound_witness :
  location_parse " orders.py#42 " = Ok (mkLocation "orders.py" 42) /\ "orders.py" <> EmptyString.
Proof.
  split; [reflexivity|].
  exact (proj1 (location_parse_sound " orders.py#42 " (mkLocation "orders.py" 42) eq_refl)).
Defined.
