(* ===== verification/Language.v ===== *)
(** * Source languages

    [crates/detrix-core/src/entities/language.rs]: the language tag of metrics
    and connections, its canonical names and its parser. *)

From Stdlib Require Import Strings.String Strings.Ascii.
From S2P Require Import Prelude RustStr.

Local Open Scope string_scope.

Inductive SourceLanguage : Type :=
| Python | Go | Rust | JavaScript | TypeScript | Java | Cpp | CLang | Ruby | Php | UnknownLang.

#[export] Instance SourceLanguage_eq_dec : EqDecision SourceLanguage.
Proof. solve_decision. Defined.

Definition lang_as_str (l : SourceLanguage) : string :=
  match l with
  | Python => "python" | Go => "go" | Rust => "rust" | JavaScript => "javascript"
  | TypeScript => "typescript" | Java => "java" | Cpp => "cpp" | CLang => "c"
  | Ruby => "ruby" | Php => "php" | UnknownLang => "unknown"
  end.

Definition display_name (l : SourceLanguage) : string :=
  match l with
  | Python => "Python" | Go => "Go" | Rust => "Rust" | JavaScript => "JavaScript"
  | TypeScript => "TypeScript" | Java => "Java" | Cpp => "C++" | CLang => "C"
  | Ruby => "Ruby" | Php => "PHP" | UnknownLang => "Unknown"
  end.

Definition DAP_SUPPORTED : list SourceLanguage := [Python; Go; Rust].
Definition is_dap_supported (l : SourceLanguage) : bool := bool_decide (l ∈ DAP_SUPPORTED).
Definition dap_supported_list : string := String.concat ", " (map lang_as_str DAP_SUPPORTED).

Definition language_error (lang : string) : string :=
  if str_is_empty lang then "language is required. Supported: " ++ dap_supported_list
  else "Unsupported language '" ++ lang ++ "'. Supported: " ++ dap_supported_list.

(** Rust's [match s.as_str() { "lit" => v, ... }] over string literals. *)
Fixpoint match_str {A : Type} (arms : list (string * A)) (s : string) : option A :=
  match arms with
  | [] => None
  | (k, v) :: rest => if String.eqb s k then Some v else match_str rest s
  end.

Definition from_extension (ext : string) : SourceLanguage :=
  default UnknownLang (match_str
    [ ("py", Python); ("go", Go); ("rs", Rust); ("js", JavaScript); ("jsx", JavaScript)
    ; ("ts", TypeScript); ("tsx", TypeScript); ("java", Java); ("cpp", Cpp); ("cc", Cpp)
    ; ("cxx", Cpp); ("c", CLang); ("rb", Ruby); ("php", Php) ] (to_lowercase ext)).

Definition lang_from_str (s : string) : result SourceLanguage unit :=
  ok_or (match_str
    [ ("python", Python); ("go", Go); ("golang", Go); ("rust", Rust)
    ; ("javascript", JavaScript); ("js", JavaScript); ("typescript", TypeScript)
    ; ("ts", TypeScript); ("java", Java); ("cpp", Cpp); ("c++", Cpp); ("c", CLang)
    ; ("ruby", Ruby); ("php", Php); ("unknown", UnknownLang) ] (to_lowercase s)) tt.

Record ParseLanguageError : Type := mkPLE { invalid_value : string; ple_context : option string }.

Definition ple_with_context (e : ParseLanguageError) (c : string) : ParseLanguageError :=
  mkPLE (invalid_value e) (Some c).

Definition valid_options : string :=
  "python, go, rust, javascript, typescript, java, cpp, c, ruby, php".

Definition ple_display (e : ParseLanguageError) : string :=
  match ple_context e with
  | Some c => "Invalid language '" ++ invalid_value e ++ "' " ++ c ++ ". Valid options: " ++ valid_options
  | None => "Invalid language '" ++ invalid_value e ++ "'. Valid options: " ++ valid_options
  end.

Definition parse_language (s : string) : result SourceLanguage ParseLanguageError :=
  map_err (fun _ => mkPLE s None) (lang_from_str s).

Definition parse_language_lossy (s : string) : SourceLanguage :=
  match lang_from_str s with Ok l => l | Err _ => UnknownLang end.

(** Every language's canonical name parses back to it, through the strict
    parser and the lossy one, whatever the letter case of its display form;
    the two parsers agree wherever the strict one accepts, and a rejected
    string is reported verbatim. *)
Theorem language_roundtrip :
  (forall l, parse_language (lang_as_str l) = Ok l /\ parse_language_lossy (lang_as_str l) = l
             /\ parse_language (display_name l) = Ok l) /\
  (forall s, match parse_language s with
             | Ok l => parse_language_lossy s = l
             | Err e => parse_language_lossy s = UnknownLang /\ e = mkPLE s None
             end).
Proof.
  split; [by intros []|]. intros s. unfold parse_language, parse_language_lossy.
  by destruct (lang_from_str s).
Qed.
