(* ===== verification/Metric.v ===== *)
(** * Metrics: the observation points

    [crates/detrix-core/src/entities/{metric,anchor,memory,mod}.rs]: the
    [Metric] entity, its capture mode, safety level and anchor, name and
    tenant validation, and the hashes that identify its expressions and its
    source context.  SHA-256 (the [sha2] crate) is a parameter of the two
    hashes. *)

From Stdlib Require Import Strings.String Strings.Ascii Init.Byte.
From S2P Require Import Prelude RustStr CoreError Location Language.

Local Open Scope string_scope.
Local Arguments String.append !_ _ / : simpl nomatch.

(** ** Enumerations *)

Inductive MetricMode : Type :=
| Stream
| Sample (rate : N)
| SampleInterval (seconds : N)
| First
| Throttle (max_per_second : N).

Definition mode_as_str (m : MetricMode) : string :=
  match m with
  | Stream => "stream" | Sample _ => "sample" | SampleInterval _ => "sample_interval"
  | First => "first" | Throttle _ => "throttle"
  end.

Inductive SafetyLevel : Type := Strict | Trusted.
#[export] Instance SafetyLevel_eq_dec : EqDecision SafetyLevel.
Proof. solve_decision. Defined.

Definition safety_as_str (l : SafetyLevel) : string :=
  match l with Strict => "strict" | Trusted => "trusted" end.

Definition safety_from_str (s : string) : result SafetyLevel string :=
  let low := to_lowercase s in
  if String.eqb low "strict" then Ok Strict
  else if String.eqb low "trusted" then Ok Trusted
  else Err ("Unknown safety level: '" ++ low ++ "'. Valid: strict, trusted").

Inductive SnapshotScope : Type := ScopeLocal | ScopeGlobal | ScopeBoth.
Definition snapshot_scope_str (s : SnapshotScope) : string :=
  match s with ScopeLocal => "local" | ScopeGlobal => "global" | ScopeBoth => "both" end.

Record StackTraceSlice : Type := mkSlice { st_full : bool; st_head : option N; st_tail : option N }.
Definition default_slice : StackTraceSlice := mkSlice false (Some 5%N) None.

Inductive AnchorStatus : Type := Unanchored | Verified | Relocated | Orphaned.

(** ** Anchors *)

Record MetricAnchor : Type := mkAnchor {
  enclosing_symbol : option string;
  symbol_kind : option N;
  symbol_range : option (N * N);
  offset_in_symbol : option N;
  context_fingerprint : option string;
  context_before : option string;
  source_line : option string;
  context_after : option string;
  last_verified_at : option Z;
  original_location : option string
}.

Definition anchor_new : MetricAnchor :=
  mkAnchor None None None None None None None None None None.

Definition has_symbol_anchor (a : MetricAnchor) : bool :=
  bool_decide (is_Some (enclosing_symbol a)) && bool_decide (is_Some (offset_in_symbol a)).
Definition has_context_fingerprint (a : MetricAnchor) : bool :=
  bool_decide (is_Some (context_fingerprint a)).

(** What [compute_fingerprint] feeds to the hasher; [None] when there is no context. *)
Definition fingerprint_fields (a : MetricAnchor) : list string :=
  [default EmptyString (context_before a); default EmptyString (source_line a); default EmptyString (context_after a)].

Section Hashes.
Context (sha256 : list byte -> list byte).

Definition compute_fingerprint (a : MetricAnchor) : option string :=
  if forallb str_is_empty (fingerprint_fields a) then None
  else Some (hex_lower (sha256 (as_bytes (encode_fields (fingerprint_fields a))))).

Definition refresh_fingerprint (a : MetricAnchor) : MetricAnchor :=
  mkAnchor (enclosing_symbol a) (symbol_kind a) (symbol_range a) (offset_in_symbol a)
    (compute_fingerprint a) (context_before a) (source_line a) (context_after a)
    (last_verified_at a) (original_location a).
End Hashes.

(** ** The entity *)

Record Metric : Type := mkMetric {
  m_id : option N;
  m_name : string;
  m_connection_id : string;
  m_group : option string;
  m_location : Location;
  m_expressions : list string;
  m_language : SourceLanguage;
  m_enabled : bool;
  m_mode : MetricMode;
  m_condition : option string;
  m_safety_level : SafetyLevel;
  m_created_at : option Z;
  m_user_id : option string;
  m_agent_id : option string;
  m_capture_stack_trace : bool;
  m_stack_trace_ttl : option N;
  m_stack_trace_slice : option StackTraceSlice;
  m_capture_memory_snapshot : bool;
  m_snapshot_scope : option SnapshotScope;
  m_snapshot_ttl : option N;
  m_anchor : option MetricAnchor;
  m_anchor_status : AnchorStatus
}.

Definition MAX_METRIC_NAME_LEN : N := 255.
Definition MAX_USER_ID_LEN : N := 256.

Definition reserved_names : list string := ["all"; "none"; "system"; "detrix"; "internal"].

Definition name_start (c : ascii) : bool := is_ascii_alphabetic c || Ascii.eqb c "_".
Definition name_char (c : ascii) : bool :=
  is_ascii_alphanumeric c || Ascii.eqb c "_" || Ascii.eqb c "-".

Definition str_starts (f : ascii -> bool) (s : string) : bool :=
  match s with String c _ => f c | EmptyString => false end.

Definition validate_name (name : string) : result unit Error :=
  if str_is_empty name || (MAX_METRIC_NAME_LEN <? str_len name)%N then
    Err (InvalidMetricName ("Length must be 1-" ++ show_N MAX_METRIC_NAME_LEN ++ " characters"))
  else if negb (str_starts name_start name) then
    Err (InvalidMetricName "Must start with letter or underscore")
  else if negb (str_forall name_char name) then
    Err (InvalidMetricName "Can only contain letters, numbers, underscore, hyphen")
  else if contains "--" name || contains "__" name then
    Err (InvalidMetricName "No consecutive special characters allowed")
  else if existsb (String.eqb (to_lowercase name)) reserved_names then
    Err (InvalidMetricName ("'" ++ name ++ "' is a reserved name"))
  else Ok tt.

(** The bytes [expression_hash] streams into SHA-256. *)
Definition expression_preimage (m : Metric) : list byte := as_bytes (encode_fields (m_expressions m)).
Definition expression_hash (sha256 : list byte -> list byte) (m : Metric) : string :=
  hex_lower (sha256 (expression_preimage m)).

Definition metric_expression (m : Metric) : string := default EmptyString (head (m_expressions m)).

Definition metric_new (name connection_id : string) (location : Location)
    (expressions : list string) (language : SourceLanguage) : result Metric Error :=
  let? _ := validate_name name in
  match expressions with
  | [] => Err (InvalidExpression "At least one expression is required")
  | _ :: _ =>
      Ok (mkMetric None name connection_id None location expressions language true Stream
            None Strict None None None false None None false None None None Unanchored)
  end.

Definition validate_expression_length (expression : string) (max_length : N) : result unit Error :=
  if (max_length <? str_len expression)%N
  then Err (ExpressionTooLong (str_len expression) max_length) else Ok tt.

Definition validate_expressions_length (expressions : list string) (max_length : N) : result unit Error :=
  try_each (fun e => validate_expression_length e max_length) expressions.

(** ** Tenant identifiers *)

Definition reserved_pattern (v : string) : bool :=
  starts_with "__" v && ends_with "__" v && (4 <? str_len v)%N.

Definition validate_tenant_id (field : string) (value : option string) : result unit Error :=
  match value with
  | None => Ok tt
  | Some v =>
      if str_is_empty v then Err (InvalidTenantId (field ++ " must not be empty"))
      else if all_whitespace v then Err (InvalidTenantId (field ++ " must not be whitespace-only"))
      else if any_control v then Err (InvalidTenantId (field ++ " contains control characters"))
      else if reserved_pattern v then Err (InvalidTenantId (field ++ " uses reserved __*__ pattern"))
      else if (MAX_USER_ID_LEN <? str_len v)%N then
        Err (InvalidTenantId (field ++ " exceeds maximum length of " ++ show_N MAX_USER_ID_LEN ++ " characters"))
      else Ok tt
  end.

Definition validate_tenant_ids (user_id agent_id : option string) : result unit Error :=
  let? _ := validate_tenant_id "user_id" user_id in
  validate_tenant_id "agent_id" agent_id.

(** ** Theorems *)

(** What a metric name is, stated without the order of the checks. *)
Record name_spec (name : string) : Prop := mkNameSpec {
  ns_len : (1 <= str_len name <= MAX_METRIC_NAME_LEN)%N;
  ns_start : exists c r, name = String c r /\ name_start c = true;
  ns_chars : forall a c b, name = a ++ String c b -> name_char c = true;
  ns_pairs : forall a b, name <> a ++ "--" ++ b /\ name <> a ++ "__" ++ b;
  ns_reserved : ~ In (to_lowercase name) reserved_names
}.

Lemma str_forall_spec f s :
  str_forall f s = true <-> forall a c b, s = a ++ String c b -> f c = true.
Proof.
  split.
  - intros H a c b ->. rewrite str_forall_app in H. cbn in H.
    rewrite !andb_true_iff in H. tauto.
  - induction s as [|x s IH]; intros H; [done|]. cbn. rewrite (H EmptyString x s) by done.
    apply IH. intros a c b ->. apply (H (String x a) c b). done.
Qed.

Lemma contains_false q s : contains q s = false <-> forall a b, s <> a ++ q ++ b.
Proof.
  rewrite <- not_true_iff_false, contains_spec. split.
  - intros H a b ->. apply H. by exists a, b.
  - intros H (a & b & ->). by eapply H.
Qed.

Lemma validate_name_cases name :
  validate_name name = Ok tt <->
  (str_is_empty name = false /\ (str_len name <= MAX_METRIC_NAME_LEN)%N) /\
  str_starts name_start name = true /\ str_forall name_char name = true /\
  (contains "--" name = false /\ contains "__" name = false) /\
  existsb (String.eqb (to_lowercase name)) reserved_names = false.
Proof.
  unfold validate_name. rewrite <- orb_false_iff, <- N.ltb_ge, <- orb_false_iff.
  repeat case_match; simplify_eq; rewrite ?negb_true_iff, ?negb_false_iff in *;
    split; intros; destruct_and?; try congruence; auto.
Qed.

(** [Metric::validate_name] accepts exactly the names of the documented
    grammar: 1 to 255 bytes, a letter or underscore first, then letters,
    digits, underscores and hyphens, no doubled hyphen or underscore, and not
    one of the reserved words in any letter case. *)
Theorem validate_name_spec name : validate_name name = Ok tt <-> name_spec name.
Proof.
  rewrite validate_name_cases, !contains_false, str_forall_spec. split.
  - intros ((Hne & Hlen) & Hst & Hch & [Hd Hu] & Hres). constructor; auto.
    + destruct name; [done|]. unfold str_len in *. cbn -[N.of_nat] in *. lia.
    + destruct name as [|c r]; [done|]. by exists c, r.
    + intros Hin. rewrite <- not_true_iff_false in Hres. apply Hres, existsb_exists.
      exists (to_lowercase name). by rewrite String.eqb_refl.
  - intros [Hlen (c & r & -> & Hst) Hch Hp Hres]. split_and!; auto.
    + lia.
    + intros a b. apply Hp.
    + intros a b. apply Hp.
    + apply not_true_iff_false. intros (x & Hx & He)%existsb_exists.
      apply String.eqb_eq in He. congruence.
Qed.

(** Two metrics with the same [expression_hash] have the same expressions,
    unless their (different) encodings are a SHA-256 collision: the
    length-prefixed encoding itself never identifies two expression lists. *)
Theorem expression_hash_separates sha256 m1 m2 :
  expression_hash sha256 m1 = expression_hash sha256 m2 ->
  m_expressions m1 = m_expressions m2 \/
  (expression_preimage m1 <> expression_preimage m2 /\
   sha256 (expression_preimage m1) = sha256 (expression_preimage m2)).
Proof.
  intros H%hex_lower_inj.
  destruct (list_eq_dec Byte.byte_eq_dec (expression_preimage m1) (expression_preimage m2)) as [E|E]; [|by right].
  left. apply encode_fields_inj. rewrite <- (of_bytes_as_bytes (encode_fields (m_expressions m1))).
  unfold expression_preimage in E. by rewrite E, of_bytes_as_bytes.
Qed.

(** The same for anchors: equal context fingerprints mean equal context
    lines (before, at and after the metric), up to a SHA-256 collision. *)
Theorem fingerprint_separates sha256 a1 a2 f :
  compute_fingerprint sha256 a1 = Some f -> compute_fingerprint sha256 a2 = Some f ->
  fingerprint_fields a1 = fingerprint_fields a2 \/
  exists x y, x <> y /\ sha256 x = sha256 y.
Proof.
  unfold compute_fingerprint. destruct (forallb _ _); [done|]. destruct (forallb _ _); [done|].
  intros [= <-] [= H%hex_lower_inj].
  destruct (list_eq_dec Byte.byte_eq_dec (as_bytes (encode_fields (fingerprint_fields a1)))
    (as_bytes (encode_fields (fingerprint_fields a2)))) as [E|E]; [left|right; by eexists _, _].
  apply encode_fields_inj. apply (f_equal of_bytes) in E. by rewrite !of_bytes_as_bytes in E.
Qed.

(** A tenant identifier that passes validation is never empty, blank,
    longer than 256 bytes, in the reserved [__*__] namespace (so it can never
    impersonate the daemon), nor carries a control character. *)
Theorem validate_tenant_id_spec field v :
  validate_tenant_id field (Some v) = Ok tt <->
  v <> EmptyString /\ all_whitespace v = false /\ any_control v = false /\
  (str_len v <= MAX_USER_ID_LEN)%N /\
  ~ (exists mid, mid <> EmptyString /\ v = "__" ++ mid ++ "__").
Proof.
  assert (Hr : reserved_pattern v = true <-> exists mid, mid <> EmptyString /\ v = "__" ++ mid ++ "__").
  { unfold reserved_pattern. rewrite !andb_true_iff, starts_with_spec, ends_with_spec, N.ltb_lt. split.
    - intros [[[r Hr] [t Ht]] Hlen]. subst v.
      destruct t as [|c1 [|c2 mid]]; cbn in Ht.
      + injection Ht as ->. by vm_compute in Hlen.
      + injection Ht as <- ->. by vm_compute in Hlen.
      + injection Ht as <- <- ->. exists mid. split; [|done]. intros ->. by vm_compute in Hlen.
    - intros (mid & Hm & ->). split; [split|].
      + by exists (mid ++ "__").
      + by exists ("__" ++ mid).
      + rewrite !str_len_app. change (str_len "__") with 2%N. destruct mid; [done|].
        unfold str_len. cbn -[N.of_nat]. lia. }
  rewrite <- Hr, not_true_iff_false, <- N.ltb_ge. unfold validate_tenant_id.
  destruct (str_is_empty v) eqn:He.
  { apply str_is_empty_true in He as ->. split; [done | by intros [? _]]. }
  assert (v <> EmptyString) by (by intros ->).
  repeat case_match; simplify_eq; split; intros; destruct_and?; try congruence; repeat split; congruence.
Qed.

(** A concrete metric for the worked instances. *)
Definition sample_metric (id : N) (name file : string) (line : N) (exprs : list string) : Metric :=
  mkMetric (Some id) name "conn" None (mkLocation file line) exprs Python true Stream None Strict
    None None None false None None false None None None Unanchored.

Lemma expression_hash_separates_witness :
  m_expressions (sample_metric 1 "a" "f.py" 3 ["x"; "y"]) = m_expressions (sample_metric 2 "b" "g.py" 9 ["x"; "y"]).
Proof.
  destruct (expression_hash_separates (fun x => x) (sample_metric 1 "a" "f.py" 3 ["x"; "y"]) (sample_metric 2 "b" "g.py" 9 ["x"; "y"]) eq_refl)
    as [H|[H _]]; [exact H | exfalso; apply H; reflexivity].
Defined.
