(* ===== verification/Event.v ===== *)
(** * Metric events

    [crates/detrix-core/src/entities/event.rs]: what a hit of an observation
    point produces.  An [f64] is represented by its 64-bit IEEE pattern; no
    floating-point arithmetic happens in the modelled code. *)

From Stdlib Require Import Strings.String.
From S2P Require Import Prelude RustStr Metric.

Local Open Scope string_scope.

Definition f64 : Type := N.

Inductive TypedValue : Type :=
| Numeric (n : f64)
| Text (s : string)
| Boolean (b : bool).

Record ExpressionValue : Type := mkEV {
  ev_expression : string;
  ev_value_json : string;
  ev_typed_value : option TypedValue
}.

(** The flat serde proxy used for storage and the wire. *)
Record ExpressionValueSerde : Type := mkEVS {
  evs_expression : string;
  evs_value_json : string;
  evs_value_numeric : option f64;
  evs_value_string : option string;
  evs_value_boolean : option bool
}.

Definition evs_from_ev (ev : ExpressionValue) : ExpressionValueSerde :=
  let '(n, s, b) :=
    match ev_typed_value ev with
    | Some (Numeric n) => (Some n, None, None)
    | Some (Text s) => (None, Some s, None)
    | Some (Boolean b) => (None, None, Some b)
    | None => (None, None, None)
    end in
  mkEVS (ev_expression ev) (ev_value_json ev) n s b.

Definition ev_from_evs (s : ExpressionValueSerde) : ExpressionValue :=
  mkEV (evs_expression s) (evs_value_json s)
    (match evs_value_numeric s with
     | Some n => Some (Numeric n)
     | None => match evs_value_string s with
               | Some t => Some (Text t)
               | None => Boolean <$> evs_value_boolean s
               end
     end).

Definition ev_new (expression value_json : string) : ExpressionValue := mkEV expression value_json None.
Definition ev_with_numeric (e v : string) (n : f64) : ExpressionValue := mkEV e v (Some (Numeric n)).
Definition ev_with_text (e v s : string) : ExpressionValue := mkEV e v (Some (Text s)).
Definition ev_with_boolean (e v : string) (b : bool) : ExpressionValue := mkEV e v (Some (Boolean b)).
Definition ev_numeric (ev : ExpressionValue) : option f64 :=
  match ev_typed_value ev with Some (Numeric n) => Some n | _ => None end.
Definition ev_text (ev : ExpressionValue) : option string :=
  match ev_typed_value ev with Some (Text s) => Some s | _ => None end.
Definition ev_boolean (ev : ExpressionValue) : option bool :=
  match ev_typed_value ev with Some (Boolean b) => Some b | _ => None end.

(** Stack traces and memory snapshots. *)
Record StackFrame : Type := mkFrame {
  sf_index : N; sf_name : string; sf_file : option string; sf_line : option N;
  sf_column : option N; sf_module : option string
}.
Record CapturedStackTrace : Type := mkTrace {
  cst_frames : list StackFrame; cst_total_frames : N; cst_truncated : bool
}.
Record CapturedVariable : Type := mkVar {
  cv_name : string; cv_value : string; cv_type : option string; cv_scope : option string
}.
Record MemorySnapshot : Type := mkSnapshot {
  ms_locals : list CapturedVariable; ms_globals : list CapturedVariable; ms_scope : SnapshotScope
}.

Record MetricEvent : Type := mkEvent {
  e_id : option Z;
  e_metric_id : N;
  e_metric_name : string;
  e_connection_id : string;
  e_timestamp : Z;
  e_thread_name : option string;
  e_thread_id : option Z;
  e_values : list ExpressionValue;
  e_is_error : bool;
  e_error_type : option string;
  e_error_message : option string;
  e_request_id : option string;
  e_session_id : option string;
  e_stack_trace : option CapturedStackTrace;
  e_memory_snapshot : option MemorySnapshot
}.

(** [MetricEvent::new]; [now] is the clock reading. *)
Definition event_new (now : Z) (metric_id : N) (metric_name connection_id value_json : string) : MetricEvent :=
  mkEvent None metric_id metric_name connection_id now None None [ev_new EmptyString value_json]
    false None None None None None None.

(** [MetricEvent::error]. *)
Definition event_error (now : Z) (metric_id : N) (metric_name connection_id error_type error_message : string) : MetricEvent :=
  mkEvent None metric_id metric_name connection_id now None None [] true
    (Some error_type) (Some error_message) None None None None.

Definition event_value_json (e : MetricEvent) : string := default EmptyString (ev_value_json <$> head (e_values e)).
Definition event_value_numeric (e : MetricEvent) : option f64 := head (e_values e) ≫= ev_numeric.
Definition event_value_string (e : MetricEvent) : option string := head (e_values e) ≫= ev_text.
Definition event_value_boolean (e : MetricEvent) : option bool := head (e_values e) ≫= ev_boolean.

Definition with_stack_trace (e : MetricEvent) (st : option CapturedStackTrace) : MetricEvent :=
  mkEvent (e_id e) (e_metric_id e) (e_metric_name e) (e_connection_id e) (e_timestamp e)
    (e_thread_name e) (e_thread_id e) (e_values e) (e_is_error e) (e_error_type e)
    (e_error_message e) (e_request_id e) (e_session_id e) st (e_memory_snapshot e).
Definition with_memory_snapshot (e : MetricEvent) (ms : option MemorySnapshot) : MetricEvent :=
  mkEvent (e_id e) (e_metric_id e) (e_metric_name e) (e_connection_id e) (e_timestamp e)
    (e_thread_name e) (e_thread_id e) (e_values e) (e_is_error e) (e_error_type e)
    (e_error_message e) (e_request_id e) (e_session_id e) (e_stack_trace e) ms.

(** How many of the proxy's typed fields are set (the serializer's debug assertion). *)
Definition evs_fields_set (s : ExpressionValueSerde) : nat :=
  length (List.filter (fun b : bool => b) [bool_decide (is_Some (evs_value_numeric s)); bool_decide (is_Some (evs_value_string s));
                     bool_decide (is_Some (evs_value_boolean s))]).

(** The storage proxy loses nothing: an expression value survives
    serialization and deserialization, the serializer sets at most one typed
    field, and every proxy record with at most one typed field is itself
    reproduced. *)
Theorem expression_value_serde_roundtrip :
  (forall ev, ev_from_evs (evs_from_ev ev) = ev /\ (evs_fields_set (evs_from_ev ev) <= 1)%nat) /\
  (forall s, (evs_fields_set s <= 1)%nat <-> evs_from_ev (ev_from_evs s) = s).
Proof.
  split.
  - intros [e v [[n|t|b]|]]; split; try done; vm_compute; lia.
  - intros [e v [n|] [t|] [b|]]; split; cbn; intros H; try done; try lia; exfalso;
      first [vm_compute in H; lia | discriminate].
Qed.
