(* ===== verification/Anchor.v ===== *)
(** * The anchor service

    [crates/detrix-application/src/services/anchor_service.rs] with the types of
    [crates/detrix-ports/src/anchor.rs] and [detrix-core/src/entities/anchor.rs]:
    what is remembered of the code around a metric, how it is recognised again
    after the file changed, and where the metric is moved to.

    Similarities are [f32] values: the binary32 arithmetic is the Standard
    Library's executable [SpecFloat] at precision 24.  The file contents, the
    language server, the comment stripper (tree-sitter) and SHA-256 are
    arguments; one call sees one version of the file. *)

From Stdlib Require Import Strings.String Strings.Ascii Init.Byte Floats.SpecFloat.
From stdpp Require Import list sets.
From S2P Require Import Prelude RustStr RustText CoreError Location Language Metric.

Local Open Scope string_scope.
Local Arguments String.append !_ _ / : simpl nomatch.

(** ** Binary32 *)

Definition f32 : Type := spec_float.
Definition f32_of_usize (n : N) : f32 := binary_normalize 24 128 (Z.of_N n) 0 false.
Definition f32_sub (x y : f32) : f32 := SFsub 24 128 x y.
Definition f32_div (x y : f32) : f32 := SFdiv 24 128 x y.
Definition f32_lt (x y : f32) : bool := SFltb x y.
Definition f32_le (x y : f32) : bool := SFleb x y.
Definition f32_zero : f32 := S754_zero false.
Definition f32_one : f32 := f32_of_usize 1.

(** ** Configuration and data *)

Record NormalizationConfig : Type := mkNorm {
  strip_blank_lines : bool; strip_trailing_whitespace : bool; normalize_internal_whitespace : bool; nc_strip_comments : bool
}.
Definition default_normalization : NormalizationConfig := mkNorm true true false false.

Definition DEFAULT_ANCHOR_CONTEXT_LINES : N := 2.
Definition DEFAULT_ANCHOR_MAX_CONTEXT_BYTES : N := 200.
(* 0.8 *)
Definition DEFAULT_ANCHOR_MIN_CONFIDENCE : f32 := S754_finite false 13421773 (-24).

Record AnchorServiceConfig : Type := mkAnchorConfig {
  context_lines : N; max_context_bytes : N; min_fingerprint_confidence : f32; as_enabled : bool; normalization : NormalizationConfig
}.
Definition default_anchor_config : AnchorServiceConfig :=
  mkAnchorConfig DEFAULT_ANCHOR_CONTEXT_LINES DEFAULT_ANCHOR_MAX_CONTEXT_BYTES DEFAULT_ANCHOR_MIN_CONFIDENCE true default_normalization.

Record SymbolInfo : Type := mkSymbol { si_name : string; si_kind : N; si_start_line : N; si_end_line : N }.
Record SourceContext : Type := mkContext { ctx_before : string; ctx_line : string; ctx_after : string }.

Inductive RelocationResult : Type :=
| ExactMatch
| RelocatedInSymbol (old_line new_line : N) (symbol_name : string)
| RelocatedByContext (old_line new_line : N) (confidence : f32)
| OrphanedAt (last_known_location reason : string).

Record LspSymbolLookup : Type := mkLsp {
  lsp_enclosing_symbol : string -> N -> SourceLanguage -> result (option SymbolInfo) Error;
  lsp_file_symbols : string -> SourceLanguage -> result (list SymbolInfo) Error
}.
Definition NullLspLookup : LspSymbolLookup := mkLsp (fun _ _ _ => Ok None) (fun _ _ => Ok []).

Record DefaultAnchorService : Type := mkAnchorService {
  as_config : AnchorServiceConfig; as_lsp : option LspSymbolLookup; as_vfs : option (string -> result string Error)
}.

(** ** Edit distance *)

Fixpoint lev_cells (a : string) (bs : list string) (prev : list N) (left : N) : list N :=
  match bs, prev with
  | b :: bs', p :: ((p1 :: _) as prev') =>
      let cost := if String.eqb a b then 0%N else 1%N in
      let c := N.min (N.min (p1 + 1) (left + 1)) (p + cost) in
      c :: lev_cells a bs' prev' c
  | _, _ => []
  end.

Fixpoint lev_rows (i : N) (a_chars b_chars : list string) (prev_row : list N) : list N :=
  match a_chars with
  | [] => prev_row
  | a :: rest => lev_rows (i + 1) rest b_chars ((i + 1)%N :: lev_cells a b_chars prev_row (i + 1))
  end.

Definition levenshtein_distance (a b : string) : N :=
  let a_chars := chars a in
  let b_chars := chars b in
  if (lenN a_chars =? 0)%N then lenN b_chars
  else if (lenN b_chars =? 0)%N then lenN a_chars
  else nth (length b_chars) (lev_rows 0 a_chars b_chars (map N.of_nat (seq 0 (S (length b_chars))))) 0%N.

(** ** Text *)

Fixpoint truncate_chars (cs : list string) (acc : string) (max_bytes : N) : string :=
  match cs with
  | [] => acc
  | c :: rest => if (max_bytes <? str_len acc + str_len c)%N then acc else truncate_chars rest (acc ++ c) max_bytes
  end.
Definition truncate_to_bytes (s : string) (max_bytes : N) : string :=
  if (str_len s <=? max_bytes)%N then s else truncate_chars (chars s) EmptyString max_bytes.

Definition process_line (config : NormalizationConfig) (line : string) : string :=
  let processed := if strip_trailing_whitespace config then trim_end line else line in
  if normalize_internal_whitespace config
  then String.concat EmptyString (take_while is_whitespace (chars processed))
       ++ join " " (split_whitespace (String.concat EmptyString (drop_while is_whitespace (chars processed))))
  else processed.

(** [parse_line_from_location] *)
Definition parse_line_from_location (location : option string) : option N :=
  match location with
  | Some loc => match rsplit_once "#" loc with Some (_, line) => parse_uint 32 line | None => None end
  | None => None
  end.

Definition find_enclosing_symbol (symbols : list SymbolInfo) (line : N) : option SymbolInfo :=
  fold_left (fun best s =>
      match best with
      | None => Some s
      | Some b => if (si_end_line s - si_start_line s <? si_end_line b - si_start_line b)%N then Some s else Some b
      end)
    (List.filter (fun s => (si_start_line s <=? line)%N && (line <=? si_end_line s)%N) symbols) None.

Definition verify_relocation_in_symbol (symbols : list SymbolInfo) (new_line : N) (expected_symbol : option string) : bool :=
  match expected_symbol with
  | None => true
  | Some expected_name =>
      match find_enclosing_symbol symbols new_line with
      | Some enclosing => String.eqb (si_name enclosing) expected_name
      | None => false
      end
  end.

(** ** The service *)

Section Service.
Context (sha256 : list byte -> list byte).
Context (strip_comments : string -> SourceLanguage -> result string Error).
Context (fs_read_to_string : string -> result string string).
Context (now : Z).
Context (self : DefaultAnchorService).
Notation config := (as_config self).

Definition read_file_lines (file : string) : result (list string) Error :=
  let? content := match as_vfs self with
                  | Some vfs => vfs file
                  | None => map_err (fun e => InvalidConfig ("Failed to read file '" ++ file ++ "': " ++ e)) (fs_read_to_string file)
                  end in
  Ok (lines content).

Definition normalize_for_fingerprint (content : string) (nc : NormalizationConfig) (language : option SourceLanguage) : string :=
  let content := match nc_strip_comments nc, language with
                 | true, Some lang => match strip_comments content lang with Ok stripped => stripped | Err _ => content end
                 | _, _ => content
                 end in
  join nl (map (process_line nc)
             (List.filter (fun line => negb (strip_blank_lines nc && str_is_empty (trim line))) (lines content))).

Definition compute_fingerprint_from_normalized (normalized : string) : string := hex_lower (sha256 (as_bytes normalized)).
Definition joined_context (before line after : string) : string := before ++ nl ++ line ++ nl ++ after.
Definition context_fingerprint_of (c : SourceContext) (language : option SourceLanguage) : string :=
  compute_fingerprint_from_normalized
    (normalize_for_fingerprint (joined_context (ctx_before c) (ctx_line c) (ctx_after c)) (normalization config) language).

Definition context_similarity (a b : string) (language : option SourceLanguage) : f32 :=
  let norm_a := normalize_for_fingerprint a (normalization config) language in
  let norm_b := normalize_for_fingerprint b (normalization config) language in
  if str_is_empty norm_a && str_is_empty norm_b then f32_one
  else if str_is_empty norm_a || str_is_empty norm_b then f32_zero
  else let distance := levenshtein_distance norm_a norm_b in
       let max_len := N.max (str_len norm_a) (str_len norm_b) in
       f32_sub f32_one (f32_div (f32_of_usize distance) (f32_of_usize max_len)).

Definition read_context (file : string) (line nlines max_bytes : N) : result SourceContext Error :=
  let? ls := read_file_lines file in
  let line_idx := (line - 1)%N in
  if (lenN ls <=? line_idx)%N
  then Err (InvalidConfig ("Line " ++ show_N line ++ " out of range (file has " ++ show_N (lenN ls) ++ " lines)"))
  else
    let target_line := truncate_to_bytes (nth (N.to_nat line_idx) ls EmptyString) max_bytes in
    let before_start := (line_idx - nlines)%N in
    let before := truncate_to_bytes (join nl (slice ls before_start (line_idx - before_start))) max_bytes in
    let after_end := N.min (line_idx + 1 + nlines) (lenN ls) in
    let after := truncate_to_bytes (join nl (slice ls (line_idx + 1) (after_end - (line_idx + 1)))) max_bytes in
    Ok (mkContext before target_line after).

Definition service_context (file : string) (line : N) : result SourceContext Error :=
  read_context file line (context_lines config) (max_context_bytes config).

Definition get_enclosing_symbol (file : string) (line : N) (language : SourceLanguage) : result (option SymbolInfo) Error :=
  match as_lsp self with Some lsp => lsp_enclosing_symbol lsp file line language | None => Ok None end.

Definition capture_anchor (location : Location) (language : SourceLanguage) : result MetricAnchor Error :=
  if negb (as_enabled config) then Ok anchor_new else
  let? context := service_context (loc_file location) (loc_line location) in
  let fingerprint := context_fingerprint_of context (Some language) in
  let? symbol_info := get_enclosing_symbol (loc_file location) (loc_line location) language in
  Ok (mkAnchor (si_name <$> symbol_info) (si_kind <$> symbol_info)
        ((fun s => (si_start_line s, si_end_line s)) <$> symbol_info) ((fun s => (loc_line location - si_start_line s)%N) <$> symbol_info)
        (Some fingerprint) (Some (ctx_before context)) (Some (ctx_line context)) (Some (ctx_after context))
        (Some now) (Some (to_string_format location))).

Definition or_empty (o : option string) : string := default EmptyString o.

Definition verify_anchor (location : Location) (anchor : MetricAnchor) (language : SourceLanguage) : result bool Error :=
  if negb (as_enabled config) then Ok true else
  match service_context (loc_file location) (loc_line location) with
  | Err _ => Ok false
  | Ok current =>
      match context_fingerprint anchor with
      | None => Ok false
      | Some stored_fingerprint =>
          if String.eqb (context_fingerprint_of current (Some language)) stored_fingerprint then Ok true
          else Ok (f32_le (min_fingerprint_confidence config)
                     (context_similarity
                        (or_empty (context_before anchor) ++ or_empty (source_line anchor) ++ or_empty (context_after anchor))
                        (ctx_before current ++ ctx_line current ++ ctx_after current) (Some language)))
      end
  end.

Definition relocate_by_symbol_offset (anchor : MetricAnchor) (file : string) (language : SourceLanguage) : option N :=
  match enclosing_symbol anchor, offset_in_symbol anchor, as_lsp self with
  | Some symbol_name, Some offset, Some lsp =>
      match lsp_file_symbols lsp file language with
      | Err _ => None
      | Ok symbols =>
          match List.find (fun s => String.eqb (si_name s) symbol_name) symbols with
          | None => None
          | Some symbol => let new_line := wrap 32 (si_start_line symbol + offset) in
                           if (new_line <=? si_end_line symbol)%N then Some new_line else None
          end
      end
  | _, _, _ => None
  end.

(** One window position: its line and similarity when it qualifies. *)
Definition candidate (stored_context : string) (symbols : option (list SymbolInfo)) (expected : option string)
    (file : string) (language : SourceLanguage) (line_num : N) : option (N * f32) :=
  match service_context file line_num with
  | Err _ => None
  | Ok ctx =>
      let similarity := context_similarity stored_context (joined_context (ctx_before ctx) (ctx_line ctx) (ctx_after ctx)) (Some language) in
      if f32_lt similarity (min_fingerprint_confidence config) then None
      else if (match symbols with Some syms => verify_relocation_in_symbol syms line_num expected | None => true end)
      then Some (line_num, similarity) else None
  end.

Definition keep_best (best cand : option (N * f32)) : option (N * f32) :=
  match cand, best with
  | Some (l, sim), Some (_, best_sim) => if f32_lt best_sim sim then Some (l, sim) else best
  | Some c, None => Some c
  | None, _ => best
  end.

Definition stored_context_of (anchor : MetricAnchor) : string :=
  joined_context (or_empty (context_before anchor)) (or_empty (source_line anchor)) (or_empty (context_after anchor)).

Definition symbols_of (file : string) (language : SourceLanguage) : option (list SymbolInfo) :=
  match as_lsp self with
  | Some lsp => match lsp_file_symbols lsp file language with Ok syms => Some syms | Err _ => None end
  | None => None
  end.

Definition relocate_by_context (anchor : MetricAnchor) (file : string) (language : SourceLanguage) : option (N * f32) :=
  match context_fingerprint anchor, source_line anchor with
  | None, None => None
  | _, _ =>
      match read_file_lines file with
      | Err _ => None
      | Ok ls =>
          fold_left (fun best l => keep_best best (candidate (stored_context_of anchor) (symbols_of file language)
                                                     (enclosing_symbol anchor) file language (N.of_nat l)))
            (seq 1 (N.to_nat (wrap 32 (lenN ls)))) None
      end
  end.

Definition relocate (file : string) (anchor : MetricAnchor) (language : SourceLanguage) : result RelocationResult Error :=
  if negb (as_enabled config) then Ok (OrphanedAt (default "unknown" (original_location anchor)) "Anchor tracking disabled") else
  let old_line := default 0%N (parse_line_from_location (original_location anchor)) in
  match relocate_by_symbol_offset anchor file language with
  | Some new_line => Ok (RelocatedInSymbol old_line new_line (or_empty (enclosing_symbol anchor)))
  | None =>
      match relocate_by_context anchor file language with
      | Some (new_line, confidence) => Ok (RelocatedByContext old_line new_line confidence)
      | None => Ok (OrphanedAt (default ("@" ++ file ++ "#" ++ show_N old_line) (original_location anchor)) "No matching symbol or context found")
      end
  end.
End Service.

(** ** The edit distance is the least number of edits *)

Inductive edits : N -> list string -> list string -> Prop :=
| ed_nil : edits 0 [] []
| ed_keep x n a b : edits n a b -> edits n (x :: a) (x :: b)
| ed_subst x y n a b : edits n a b -> edits (n + 1) (x :: a) (y :: b)
| ed_delete x n a b : edits n a b -> edits (n + 1) (x :: a) b
| ed_insert y n a b : edits n a b -> edits (n + 1) a (y :: b).

Lemma edits_app n m a b c d : edits n a b -> edits m c d -> edits (n + m) (a ++ c)%list (b ++ d)%list.
Proof.
  intros H1 H2. induction H1; cbn [app].
  - by rewrite N.add_0_l.
  - by constructor.
  - replace (n + 1 + m)%N with (n + m + 1)%N by lia. by constructor.
  - replace (n + 1 + m)%N with (n + m + 1)%N by lia. by constructor.
  - replace (n + 1 + m)%N with (n + m + 1)%N by lia. by constructor.
Qed.

Lemma edits_rev n a b : edits n a b -> edits n (rev a) (rev b).
Proof.
  induction 1; cbn [rev].
  - constructor.
  - replace n with (n + 0)%N by lia. apply edits_app; [done|]. repeat constructor.
  - apply edits_app; [done|]. apply (ed_subst _ _ 0). constructor.
  - rewrite <- (List.app_nil_r (rev b)). apply edits_app; [done|]. apply (ed_delete _ 0). constructor.
  - rewrite <- (List.app_nil_r (rev a)). apply edits_app; [done|]. apply (ed_insert _ 0). constructor.
Qed.

Lemma edits_sym n a b : edits n a b -> edits n b a.
Proof. induction 1; by constructor. Qed.
Lemma edits_zero a b : edits 0 a b -> a = b.
Proof. intros H. remember 0%N as n eqn:Hn. induction H; try lia; [done|]. by rewrite IHedits. Qed.
Lemma edits_refl a : edits 0 a a.
Proof. induction a; by constructor. Qed.
Lemma edits_length n a b : edits n a b -> (lenN a <= lenN b + n)%N.
Proof. induction 1; rewrite ?lenN_cons, ?lenN_nil; lia. Qed.

(** The recurrence, from the front. *)
Fixpoint lev (a : list string) : list string -> N :=
  fix go b :=
    match a, b with
    | [], _ => lenN b
    | _, [] => lenN a
    | x :: a', y :: b' =>
        N.min (N.min (lev a' b + 1) (go b' + 1)) (lev a' b' + (if String.eqb x y then 0 else 1))
    end.

Lemma lev_nil_l b : lev [] b = lenN b.
Proof. by destruct b. Qed.
Lemma lev_nil_r a : lev a [] = lenN a.
Proof. by destruct a. Qed.
Lemma lev_cons x a y b :
  lev (x :: a) (y :: b) = N.min (N.min (lev a (y :: b) + 1) (lev (x :: a) b + 1)) (lev a b + (if String.eqb x y then 0 else 1)).
Proof. done. Qed.

Lemma edits_insert_all b : edits (lenN b) [] b.
Proof. induction b as [|y b IH]; [constructor|]. rewrite lenN_cons, N.add_comm. by constructor. Qed.

Lemma lev_edits a b : edits (lev a b) a b.
Proof.
  revert b. induction a as [|x a IHa]; intros b; [rewrite lev_nil_l; apply edits_insert_all|].
  induction b as [|y b IHb]; [rewrite lev_nil_r; apply edits_sym, edits_insert_all|]. rewrite lev_cons.
  destruct (N.min_spec (N.min (lev a (y :: b) + 1) (lev (x :: a) b + 1)) (lev a b + (if String.eqb x y then 0 else 1))) as [[_ ->]|[_ ->]].
  - destruct (N.min_spec (lev a (y :: b) + 1) (lev (x :: a) b + 1)) as [[_ ->]|[_ ->]]; by constructor.
  - destruct (String.eqb_spec x y) as [->|_]; [rewrite N.add_0_r|]; by constructor.
Qed.

Lemma lev_delete x a b : (lev (x :: a) b <= lev a b + 1)%N.
Proof. destruct b as [|y b]; [rewrite !lev_nil_r, lenN_cons; lia|]. rewrite lev_cons. lia. Qed.
Lemma lev_insert y a b : (lev a (y :: b) <= lev a b + 1)%N.
Proof. destruct a as [|x a]; [rewrite !lev_nil_l, lenN_cons; lia|]. rewrite lev_cons. lia. Qed.

Lemma lev_least n a b : edits n a b -> (lev a b <= n)%N.
Proof.
  induction 1.
  - by rewrite lev_nil_l.
  - rewrite lev_cons, String.eqb_refl. lia.
  - rewrite lev_cons. destruct (String.eqb x y); lia.
  - pose proof (lev_delete x a b). lia.
  - pose proof (lev_insert y a b). lia.
Qed.

Lemma lev_rev a b : lev (rev a) (rev b) = lev a b.
Proof.
  apply N.le_antisymm.
  - apply lev_least, edits_rev, lev_edits.
  - apply lev_least. rewrite <- (rev_involutive a), <- (rev_involutive b) at 2. apply edits_rev, lev_edits.
Qed.

(** A row of the table: the distances of a reversed prefix to all reversed prefixes. *)
Fixpoint lev_spec_row (ra acc bs : list string) : list N :=
  lev ra acc :: match bs with [] => [] | b :: bs' => lev_spec_row ra (b :: acc) bs' end.

Lemma lev_cells_spec a ra acc bs :
  lev (a :: ra) acc :: lev_cells a bs (lev_spec_row ra acc bs) (lev (a :: ra) acc) = lev_spec_row (a :: ra) acc bs.
Proof.
  revert acc. induction bs as [|b bs IH]; intros acc; [done|]. cbn [lev_spec_row]. f_equal.
  assert (lev_spec_row ra (b :: acc) bs = lev ra (b :: acc) :: tl (lev_spec_row ra (b :: acc) bs)) as Hrow by by destruct bs.
  rewrite Hrow. cbn [lev_cells]. rewrite <- lev_cons, <- Hrow. apply IH.
Qed.

Lemma lev_rows_spec a_chars b_chars ra i :
  i = lenN ra ->
  lev_rows i a_chars b_chars (lev_spec_row ra [] b_chars) = lev_spec_row (rev a_chars ++ ra)%list [] b_chars.
Proof.
  revert ra i. induction a_chars as [|a rest IH]; intros ra i ->; [done|]. cbn [lev_rows rev]. rewrite <- List.app_assoc. cbn [app].
  rewrite <- (IH (a :: ra) (lenN ra + 1)%N) by (rewrite lenN_cons; lia). f_equal. rewrite <- lev_cells_spec.
  rewrite lev_nil_r, lenN_cons. by rewrite N.add_comm.
Qed.

Lemma lev_spec_row_first acc bs : lev_spec_row [] acc bs = map (fun n => (lenN acc + N.of_nat n)%N) (seq 0 (S (length bs))).
Proof.
  revert acc. induction bs as [|b bs IH]; intros acc; cbn [lev_spec_row]; rewrite lev_nil_l; [cbn; by rewrite N.add_0_r|].
  rewrite IH. change (seq 0 (S (length (b :: bs)))) with (0%nat :: seq 1 (S (length bs))). rewrite <- (seq_shift (S (length bs)) 0). cbn [map].
  rewrite map_map. f_equal; [lia|]. apply map_ext. intros n. rewrite lenN_cons. lia.
Qed.

Lemma lev_spec_row_last ra acc bs : nth (length bs) (lev_spec_row ra acc bs) 0%N = lev ra (rev bs ++ acc)%list.
Proof. revert acc. induction bs as [|b bs IH]; intros acc; [done|]. cbn [length lev_spec_row nth rev]. rewrite IH, <- List.app_assoc. done. Qed.

Lemma levenshtein_lev a b : levenshtein_distance a b = lev (chars a) (chars b).
Proof.
  unfold levenshtein_distance. destruct (N.eqb_spec (lenN (chars a)) 0) as [Ea|Ea].
  { destruct (chars a); [by rewrite lev_nil_l|]. rewrite lenN_cons in Ea. lia. }
  destruct (N.eqb_spec (lenN (chars b)) 0) as [Eb|Eb].
  { destruct (chars b); [by rewrite lev_nil_r|]. rewrite lenN_cons in Eb. lia. }
  pose proof (lev_spec_row_first [] (chars b)) as Hfirst. change (lenN []) with 0%N in Hfirst.
  rewrite (map_ext _ N.of_nat) in Hfirst by done. rewrite <- Hfirst.
  rewrite (lev_rows_spec _ _ [] 0) by done. rewrite lev_spec_row_last, !List.app_nil_r. apply lev_rev.
Qed.

(** C39: the two-row computation of the edit distance is right: its result edits
    one text into the other, character by character, and no shorter sequence of
    insertions, deletions and substitutions does. *)
Theorem levenshtein_distance_least (a b : string) :
  edits (levenshtein_distance a b) (chars a) (chars b)
  /\ forall n, edits n (chars a) (chars b) -> (levenshtein_distance a b <= n)%N.
Proof. rewrite levenshtein_lev. split; [apply lev_edits|]. intros n. apply lev_least. Qed.

Lemma levenshtein_sym a b : levenshtein_distance a b = levenshtein_distance b a.
Proof. rewrite !levenshtein_lev. apply N.le_antisymm; apply lev_least, edits_sym, lev_edits. Qed.
Lemma levenshtein_refl a : levenshtein_distance a a = 0%N.
Proof. rewrite levenshtein_lev. apply N.le_0_r, lev_least, edits_refl. Qed.

(** ** Similarities *)

(** Finite values are ordered by sign, exponent and mantissa. *)
Lemma f32_lt_trans x y z : f32_lt x y = true -> f32_lt y z = true -> f32_lt x z = true.
Proof.
  unfold f32_lt, SFltb. destruct x as [sx|sx| |sx mx ex], y as [sy|sy| |sy my ey], z as [sz|sz| |sz mz ez]; cbn; try done;
    repeat match goal with s : bool |- _ => destruct s end; try done; change (Pos.compare_cont Eq) with Pos.compare;
    repeat match goal with |- context [Z.compare ?a ?b] => destruct (Z.compare_spec a b); try done end; subst; try lia;
    repeat match goal with |- context [Pos.compare ?a ?b] => destruct (Pos.compare_spec a b); cbn; try done end; intros; try done; lia.
Qed.

Lemma f32_lt_irrefl x : f32_lt x x = false.
Proof.
  unfold f32_lt, SFltb. destruct x as [[]|[]| |[] m e]; cbn; try done; rewrite Z.compare_refl;
    change (Pos.compare_cont Eq) with Pos.compare; by rewrite Pos.compare_refl.
Qed.

Lemma digits2_iter_xO (m : positive) (k : positive) : Zpos (digits2_pos (Pos.iter xO m k)) = (Zpos (digits2_pos m) + Zpos k)%Z.
Proof.
  induction k as [|k IH] using Pos.peano_ind; [cbn; lia|]. rewrite Pos.iter_succ. cbn [digits2_pos]. lia.
Qed.

(** Rounding leaves a mantissa of 24 bits alone. *)
Lemma round_24 m e : (Zpos (digits2_pos m) = 24)%Z -> (-149 <= e <= 104)%Z -> binary_round_aux 24 128 false (Zpos m) e loc_Exact = S754_finite false m e.
Proof.
  intros Hd He. unfold binary_round_aux, shr_fexp. cbn [Zdigits2 shr_record_of_loc].
  assert (fexp 24 128 (Zpos (digits2_pos m) + e) - e = 0)%Z as Hz by (unfold fexp, emin; lia).
  rewrite Hz. cbn [shr shr_m loc_of_shr_record round_nearest_even Zdigits2]. rewrite Hz. cbn. destruct (Z.leb_spec e (128 - 24)); [done|lia].
Qed.

(** A [usize] below 2^24 is exact in binary32. *)
Lemma f32_of_usize_finite n : (0 < n < 2 ^ 24)%N -> exists m e, f32_of_usize n = S754_finite false m e.
Proof.
  intros Hn. destruct n as [|m]; [lia|]. unfold f32_of_usize. cbn [Z.of_N binary_normalize]. unfold binary_round.
  assert (Zpos (digits2_pos m) <= 24)%Z as Hd.
  { assert (forall p k, (Zpos p < 2 ^ Z.of_nat k)%Z -> (Zpos (digits2_pos p) <= Z.of_nat k)%Z) as Hdig.
    { induction p as [p IH|p IH|]; intros [|k] Hk; try (cbn in Hk; lia); rewrite Nat2Z.inj_succ in *; rewrite Z.pow_succ_r in Hk by lia;
        cbn [digits2_pos]; try specialize (IH k ltac:(lia)); lia. }
    apply (Hdig m 24%nat). cbn. lia. }
  unfold shl_align. assert (fexp 24 128 (Zpos (digits2_pos m) + 0) - 0 = Zpos (digits2_pos m) - 24)%Z as -> by (unfold fexp, emin; lia).
  destruct (Zpos (digits2_pos m) - 24)%Z as [|d|d] eqn:E; [|lia|].
  - rewrite round_24 by lia. eauto.
  - rewrite round_24; [eauto| |unfold fexp, emin; lia]. rewrite digits2_iter_xO. lia.
Qed.

Lemma parse_line_of_format l : (loc_line l < 2 ^ 32)%N -> parse_line_from_location (Some (to_string_format l)) = Some (loc_line l).
Proof.
  intros Hl. unfold parse_line_from_location, to_string_format. change ("@" ++ loc_file l ++ "#" ++ show_N (loc_line l)) with
    (String "@" (loc_file l) ++ String "#" (show_N (loc_line l))). rewrite rsplit_once_last by apply digit_not_hash, show_N_digits. by apply parse_show_N.
Qed.

Section Facts.
Context (sha256 : list byte -> list byte) (strip_comments : string -> SourceLanguage -> result string Error).
Context (fs_read_to_string : string -> result string string) (now : Z) (self : DefaultAnchorService).
Notation config := (as_config self).
Notation normalize a lang := (normalize_for_fingerprint strip_comments a (normalization config) lang).
Notation similarity := (context_similarity strip_comments self).

Lemma similarity_same (a b : string) (lang : option SourceLanguage) :
  (str_len (normalize a lang) < 2 ^ 24)%N -> normalize a lang = normalize b lang -> similarity a b lang = f32_one.
Proof.
  unfold context_similarity. intros Hlen <-. rewrite levenshtein_refl, N.max_id.
  destruct (str_is_empty (normalize a lang)) eqn:E; [done|]. cbn [andb orb].
  assert (0 < str_len (normalize a lang))%N as Hpos by (destruct (normalize a lang); [done|unfold str_len; cbn; lia]).
  destruct (f32_of_usize_finite (str_len (normalize a lang))) as (m & e & ->); [lia|]. done.
Qed.

(** The similarity of contexts does not depend on their order, and a context
    is similar to itself, or to any context with the same normal form, to
    degree exactly 1.0. *)
Theorem context_similarity_laws (a b : string) (lang : option SourceLanguage)
  (Hlen : (str_len (normalize a lang) < 2 ^ 24)%N) :
  similarity a b lang = similarity b a lang /\ (normalize a lang = normalize b lang -> similarity a b lang = f32_one).
Proof.
  split; [|by apply similarity_same]. unfold context_similarity. rewrite levenshtein_sym, N.max_comm.
  destruct (str_is_empty (normalize a lang)), (str_is_empty (normalize b lang)); done.
Qed.

Notation capture := (capture_anchor sha256 strip_comments fs_read_to_string now self).
Notation verify := (verify_anchor sha256 strip_comments fs_read_to_string self).
Notation context_at := (service_context fs_read_to_string self).

(** An anchor captured at a location verifies there as long as the code
    around it has not changed. *)
Theorem captured_anchor_verifies (loc : Location) (lang : SourceLanguage) (a : MetricAnchor) :
  capture loc lang = Ok a -> verify loc a lang = Ok true.
Proof.
  unfold capture_anchor, verify_anchor. destruct (negb (as_enabled config)); [done|].
  intros (ctx & -> & (sym & Hsym & [= <-])%res_bind_ok)%res_bind_ok. cbn. by rewrite String.eqb_refl.
Qed.

(** *** The sliding window *)

Section Window.
Context (anchor : MetricAnchor) (file : string) (lang : SourceLanguage).
Notation cand := (candidate strip_comments fs_read_to_string self (stored_context_of anchor)
                    (symbols_of self file lang) (enclosing_symbol anchor) file lang).

(** What the window has found after the lines [ls]. *)
Definition best_of (ls : list nat) (best : option (N * f32)) : Prop :=
  match best with
  | None => forall l, l ∈ ls -> cand (N.of_nat l) = None
  | Some (l, c) =>
      (exists n, n ∈ ls /\ l = N.of_nat n) /\ cand l = Some (l, c)
      /\ (forall n l' c', n ∈ ls -> cand (N.of_nat n) = Some (l', c') -> f32_lt c c' = false)
      /\ (forall n l' c', n ∈ ls -> (N.of_nat n < l)%N -> cand (N.of_nat n) = Some (l', c') -> c' <> c)
  end.

Lemma candidate_line n l c : cand n = Some (l, c) -> l = n.
Proof. unfold candidate. destruct (service_context _ _ _ _); [|done]. destruct (f32_lt _ _); [done|]. case_match; [|done]. by intros [= <- _]. Qed.

Lemma best_of_step ls n best :
  best_of ls best -> (forall m, m ∈ ls -> (m < n)%nat) -> best_of (ls ++ [n])%list (keep_best best (cand (N.of_nat n))).
Proof.
  intros Hb Hlt. destruct (cand (N.of_nat n)) as [[l c]|] eqn:Ec; cbn [keep_best].
  2: { destruct best as [[l c]|]; cbn in *.
       - destruct Hb as ((k & Hk & ->) & Hc & Hmax & Hfst). split; [exists k; split; [set_solver|done]|]. split; [done|].
         split; intros k' l' c' [Hk'|Hk']%elem_of_app; eauto; apply list_elem_of_singleton in Hk' as ->; congruence.
       - intros k [Hk|Hk]%elem_of_app; [by apply Hb|]. apply list_elem_of_singleton in Hk as ->. done. }
  pose proof (candidate_line _ _ _ Ec) as ->. destruct best as [[lb cb]|]; cbn in *.
  - destruct Hb as ((k & Hk & ->) & Hc & Hmax & Hfst). destruct (f32_lt cb c) eqn:Elt.
    + split; [exists n; split; [set_solver|done]|]. split; [done|].
      assert (forall k' l' c', k' ∈ ls -> cand (N.of_nat k') = Some (l', c') -> f32_lt c c' = false /\ c' <> c) as Hold.
      { intros k' l' c' Hk' Hc'. specialize (Hmax _ _ _ Hk' Hc'). split; [|congruence].
        destruct (f32_lt c c') eqn:E; [|done]. by rewrite (f32_lt_trans _ _ _ Elt E) in Hmax. }
      split; intros k' l' c' [Hk'|Hk']%elem_of_app; try (by intros; eapply Hold); apply list_elem_of_singleton in Hk' as ->; [|lia].
      intros Hc'. rewrite Ec in Hc'. injection Hc' as <- <-. apply f32_lt_irrefl.
    + split; [exists k; split; [set_solver|done]|]. split; [done|].
      split; intros k' l' c' [Hk'|Hk']%elem_of_app; try (by eauto); apply list_elem_of_singleton in Hk' as ->;
        [congruence|]. intros Hl. specialize (Hlt _ Hk). lia.
  - split; [exists n; split; [set_solver|done]|]. split; [done|].
    split; intros k' l' c' [Hk'|Hk']%elem_of_app; try (by intros; rewrite Hb in * by done); apply list_elem_of_singleton in Hk' as ->; [|lia].
    intros Hc'. rewrite Ec in Hc'. injection Hc' as <- <-. apply f32_lt_irrefl.
Qed.

Lemma window_best n : best_of (seq 1 n) (fold_left (fun best l => keep_best best (cand (N.of_nat l))) (seq 1 n) None).
Proof.
  induction n as [|n IH]; [by intros l Hl%elem_of_nil|]. rewrite seq_S, fold_left_app. apply best_of_step; [exact IH|].
  intros m Hm. apply list_elem_of_In, in_seq in Hm. lia.
Qed.
End Window.

Lemma relocate_by_context_window (anchor : MetricAnchor) (file : string) (lang : SourceLanguage) (ls : list string) :
  context_fingerprint anchor <> None \/ source_line anchor <> None ->
  read_file_lines fs_read_to_string self file = Ok ls -> (lenN ls < 2 ^ 32)%N ->
  best_of anchor file lang (seq 1 (length ls)) (relocate_by_context strip_comments fs_read_to_string self anchor file lang).
Proof.
  intros Hanchor Hfile Hlen. pose proof (window_best anchor file lang (length ls)) as Hw. unfold relocate_by_context. rewrite Hfile, wrap_small by done.
  unfold lenN. rewrite Nat2N.id. destruct (context_fingerprint anchor), (source_line anchor); try done. by destruct Hanchor.
Qed.

(** Relocation by context finds the best place.  Of the lines of the file that
    are similar enough to the remembered context and lie in the expected symbol,
    it returns one that no other such line exceeds in similarity, and the first
    of that similarity; it returns nothing only when there is no such line. *)
Theorem relocate_by_context_best (anchor : MetricAnchor) (file : string) (lang : SourceLanguage) (ls : list string)
  (Hanchor : context_fingerprint anchor <> None \/ source_line anchor <> None)
  (Hfile : read_file_lines fs_read_to_string self file = Ok ls) (Hlen : (lenN ls < 2 ^ 32)%N) :
  let cand l := candidate strip_comments fs_read_to_string self (stored_context_of anchor)
                  (symbols_of self file lang) (enclosing_symbol anchor) file lang l in
  match relocate_by_context strip_comments fs_read_to_string self anchor file lang with
  | None => forall l, (0 < l <= lenN ls)%N -> cand l = None
  | Some (l, c) => (0 < l <= lenN ls)%N /\ cand l = Some (l, c)
      /\ forall l' c', (0 < l' <= lenN ls)%N -> cand l' = Some (l', c') -> f32_lt c c' = false /\ ((l' < l)%N -> c' <> c)
  end.
Proof.
  assert (forall l, (0 < l <= lenN ls)%N -> N.to_nat l ∈ seq 1 (length ls)) as Hin
    by (intros l Hl; apply list_elem_of_In, in_seq; unfold lenN in Hl; lia).
  intros cand. pose proof (relocate_by_context_window anchor file lang ls Hanchor Hfile Hlen) as Hb.
  destruct (relocate_by_context _ _ _ _ _ _) as [[l c]|]; cbn in Hb.
  - destruct Hb as ((n & Hn & ->) & Hc & Hmax & Hfst). apply list_elem_of_In, in_seq in Hn. split; [unfold lenN; lia|]. split; [done|].
    intros l' c' Hl' Hc'. rewrite <- (N2Nat.id l') in Hc' |- *. split; [by eapply Hmax; eauto|]. intros ?. eapply Hfst; eauto.
  - intros l Hl. specialize (Hb _ (Hin l Hl)). by rewrite N2Nat.id in Hb.
Qed.

Lemma context_in_range file line ctx ls :
  read_file_lines fs_read_to_string self file = Ok ls -> context_at file line = Ok ctx -> (line <= lenN ls)%N.
Proof.
  intros Hf. unfold service_context, read_context. rewrite Hf. cbn [res_bind]. destruct (N.leb_spec (lenN ls) (line - 1)); [done|]. lia.
Qed.

(** Code that moved is found again.  When the remembered context stands
    unchanged, up to its normal form, at some line of the changed file, in the
    expected symbol, relocation by context succeeds, at a line whose similarity
    is not below 1.0. *)
Theorem moved_context_is_found (anchor : MetricAnchor) (file : string) (lang : SourceLanguage) (ls : list string) (line : N) (ctx : SourceContext)
  (Hanchor : context_fingerprint anchor <> None) (Hfile : read_file_lines fs_read_to_string self file = Ok ls) (Hlen : (lenN ls < 2 ^ 32)%N)
  (Hline : (0 < line)%N) (Hctx : context_at file line = Ok ctx)
  (Hsame : normalize (stored_context_of anchor) (Some lang) = normalize (joined_context (ctx_before ctx) (ctx_line ctx) (ctx_after ctx)) (Some lang))
  (Hsize : (str_len (normalize (stored_context_of anchor) (Some lang)) < 2 ^ 24)%N)
  (Hconf : f32_lt f32_one (min_fingerprint_confidence config) = false)
  (Hsym : match symbols_of self file lang with Some syms => verify_relocation_in_symbol syms line (enclosing_symbol anchor) = true | None => True end) :
  exists l c, relocate_by_context strip_comments fs_read_to_string self anchor file lang = Some (l, c) /\ f32_lt c f32_one = false.
Proof.
  assert (candidate strip_comments fs_read_to_string self (stored_context_of anchor) (symbols_of self file lang) (enclosing_symbol anchor) file lang line
    = Some (line, f32_one)) as Hc.
  { unfold candidate. rewrite Hctx, (similarity_same _ _ _ Hsize Hsame), Hconf.
    destruct (symbols_of self file lang); [by rewrite Hsym|done]. }
  pose proof (context_in_range _ _ _ _ Hfile Hctx) as Hle.
  assert (N.to_nat line ∈ seq 1 (length ls)) as Hin by (apply list_elem_of_In, in_seq; unfold lenN in Hle; lia).
  pose proof (relocate_by_context_window anchor file lang ls (or_introl Hanchor) Hfile Hlen) as Hb.
  destruct (relocate_by_context _ _ _ _ _ _) as [[l c]|]; cbn in Hb.
  - exists l, c. split; [done|]. destruct Hb as (_ & _ & Hmax & _). apply (Hmax (N.to_nat line) line); [done|]. by rewrite N2Nat.id.
  - specialize (Hb _ Hin). rewrite N2Nat.id in Hb. congruence.
Qed.

(** A metric follows its function.  An anchor captured in a symbol and
    relocated by a language server that now finds the first symbol of that name
    [shift] lines further on moves by exactly as many lines, when the symbol
    still reaches that far. *)
Theorem relocation_follows_symbol (loc : Location) (lang : SourceLanguage) (a : MetricAnchor) (old new : SymbolInfo)
  (lsp' : LspSymbolLookup) (symbols : list SymbolInfo) (shift : N)
  (Hon : as_enabled config = true)
  (Hcap : capture loc lang = Ok a) (Hold : get_enclosing_symbol self (loc_file loc) (loc_line loc) lang = Ok (Some old))
  (Hin : (si_start_line old <= loc_line loc)%N) (Hu32 : (loc_line loc + shift < 2 ^ 32)%N)
  (Hsyms : lsp_file_symbols lsp' (loc_file loc) lang = Ok symbols)
  (Hfind : List.find (fun s => String.eqb (si_name s) (si_name old)) symbols = Some new)
  (Hstart : si_start_line new = (si_start_line old + shift)%N) (Hend : (loc_line loc + shift <= si_end_line new)%N) :
  relocate strip_comments fs_read_to_string (mkAnchorService config (Some lsp') (as_vfs self)) (loc_file loc) a lang
  = Ok (RelocatedInSymbol (loc_line loc) (loc_line loc + shift) (si_name old)).
Proof.
  unfold capture_anchor in Hcap. rewrite Hon in Hcap. cbn [negb] in Hcap.
  apply res_bind_ok in Hcap as (ctx & _ & (sym & Hs & [= <-])%res_bind_ok). rewrite Hold in Hs. injection Hs as <-.
  unfold relocate. cbn [as_config]. rewrite Hon. cbn [negb original_location]. unfold relocate_by_symbol_offset.
  cbn [enclosing_symbol offset_in_symbol as_lsp fmap option_fmap option_map]. rewrite Hsyms, Hfind.
  rewrite Hstart, wrap_small by lia. assert (si_start_line old + shift + (loc_line loc - si_start_line old) = loc_line loc + shift)%N as -> by lia.
  destruct (N.leb_spec (loc_line loc + shift) (si_end_line new)); [|lia].
  by rewrite parse_line_of_format by lia.
Qed.
End Facts.

(** ** Context text *)

Lemma truncate_chars_spec cs acc max :
  exists k, (k <= length cs)%nat /\ truncate_chars cs acc max = acc ++ String.concat EmptyString (take k cs)
    /\ ((str_len acc <= max)%N -> (str_len (truncate_chars cs acc max) <= max)%N)
    /\ forall c, cs !! k = Some c -> (max < str_len (truncate_chars cs acc max) + str_len c)%N.
Proof.
  revert acc. induction cs as [|c cs IH]; intros acc; cbn [truncate_chars].
  { exists 0%nat. cbn. rewrite str_app_nil_r. done. }
  destruct (N.ltb_spec max (str_len acc + str_len c)) as [Hlt|Hge].
  - exists 0%nat. cbn. rewrite str_app_nil_r. split; [lia|]. split; [done|]. split; [done|]. by intros ? [= <-].
  - destruct (IH (acc ++ c)) as (k & Hk & E & Hle & Hmax). exists (S k). cbn [length take lookup list_lookup]. rewrite concat_cons, <- str_app_assoc.
    split; [lia|]. split; [done|]. split; [|done]. intros _. apply Hle. rewrite str_len_app. lia.
Qed.

(** Cutting a context field keeps as many whole characters of it as fit in
    the limit, and never a part of one. *)
Theorem truncate_to_bytes_spec (s : string) (max : N) :
  let t := truncate_to_bytes s max in
  exists k, t = String.concat EmptyString (take k (chars s)) /\ (str_len t <= max)%N
    /\ forall c, chars s !! k = Some c -> (max < str_len t + str_len c)%N.
Proof.
  unfold truncate_to_bytes. destruct (N.leb_spec (str_len s) max) as [Hle|Hgt]; cbn.
  - exists (length (chars s)). rewrite take_ge by done. rewrite concat_chars. split; [done|]. split; [done|].
    intros c. by rewrite lookup_ge_None_2.
  - destruct (truncate_chars_spec (chars s) EmptyString max) as (k & Hk & E & Hle & Hmax). exists k.
    split; [done|]. split; [apply Hle; change (str_len EmptyString) with 0%N; lia|done].
Qed.

(** The lines that normalisation keeps, without comment stripping. *)
Lemma normalized_lines nc content :
  strip_blank_lines nc = true -> strip_trailing_whitespace nc = true -> normalize_internal_whitespace nc = false ->
  let ls := map (process_line nc) (List.filter (fun line => negb (strip_blank_lines nc && str_is_empty (trim line))) (lines content)) in
  Forall (fun l => trim_end l = l /\ str_is_empty (trim l) = false /\ no_nl l = true) ls.
Proof.
  intros H1 H2 H3 ls. subst ls. apply List.Forall_forall. intros x (l & <- & [Hl Hne]%List.filter_In)%in_map_iff.
  assert (process_line nc l = trim_end l) as -> by (unfold process_line; by rewrite H2, H3). rewrite H1 in Hne. cbn in Hne. apply negb_true_iff in Hne.
  split; [apply trim_end_idem|]. split.
  - destruct (str_is_empty (trim (trim_end l))) eqn:E; [|done]. apply str_is_empty_true, trim_empty, (proj1 (ws_string_trim_end l)), trim_empty in E.
    by rewrite E in Hne.
  - destruct (trim_end_decomp l) as (p & _ & Hsplit & _). assert (no_nl l = true) as Hn by by eapply (proj1 (List.Forall_forall _ _) (lines_no_nl content)).
    rewrite Hsplit in Hn. unfold no_nl in *. rewrite str_forall_app in Hn. by apply andb_true_iff in Hn as [? _].
Qed.

(** Normalisation is stable: with blank lines and trailing whitespace
    stripped (the default), a normalised text is its own normal form, so a
    fingerprint taken from it is the fingerprint of the original. *)
Theorem normalize_idempotent strip_comments (content : string) (nc : NormalizationConfig) (lang : option SourceLanguage)
  (Hblank : strip_blank_lines nc = true) (Htrail : strip_trailing_whitespace nc = true)
  (Hint : normalize_internal_whitespace nc = false) (Hcom : nc_strip_comments nc = false) :
  let n s := normalize_for_fingerprint strip_comments s nc lang in n (n content) = n content.
Proof.
  intros n. unfold n, normalize_for_fingerprint. rewrite Hcom. pose proof (normalized_lines nc content Hblank Htrail Hint) as Hls.
  set (ls := map (process_line nc) _) in *. cbn in Hls.
  assert (lines (join nl ls) = ls) as ->.
  { apply lines_join. eapply Forall_impl; [|exact Hls]. intros l (Ht & Hne & Hnl). split; [done|]. split.
    - intros x. rewrite <- Ht. apply trim_end_no_cr.
    - intros ->. by vm_compute in Hne. }
  f_equal. clearbody ls. induction Hls as [|l ls (Ht & Hne & _) _ IH]; [done|]. cbn [List.filter]. rewrite Hne, andb_false_r. cbn [negb map].
  f_equal; [|exact IH]. unfold process_line. by rewrite Htrail, Hint.
Qed.

(** ** Instances *)

Definition sample_source : list string := ["def area(w, h):"; "    total = w * h"; "    log(total)"; "    return total"; "# end"].
Definition source_text (ls : list string) : string := join nl ls ++ nl.
Definition reads_text (ls : list string) (file : string) : result string string := Ok (source_text ls).
Definition sample_anchors : DefaultAnchorService := mkAnchorService default_anchor_config None None.
Definition no_stripper (s : string) (_ : SourceLanguage) : result string Error := Ok s.
Definition sample_symbol : SymbolInfo := mkSymbol "area" 12 1 4.
Definition sample_lsp : LspSymbolLookup := mkLsp (fun _ _ _ => Ok (Some sample_symbol)) (fun _ _ => Ok [sample_symbol]).
Definition sample_capture : result MetricAnchor Error :=
  capture_anchor id no_stripper (reads_text sample_source) 7 sample_anchors (mkLocation "a.py" 3) Python.
Definition sample_anchor : MetricAnchor :=
  match sample_capture with Ok a => a | Err _ => anchor_new end.
(** Two lines were inserted above. *)
Definition moved_source : list string := ["import math"; ""] ++ sample_source.

Lemma captured_anchor_verifies_witness :
  verify_anchor id no_stripper (reads_text sample_source) sample_anchors (mkLocation "a.py" 3) sample_anchor Python = Ok true.
Proof.
  apply (captured_anchor_verifies id no_stripper (reads_text sample_source) 7 sample_anchors (mkLocation "a.py" 3) Python sample_anchor).
  vm_compute. reflexivity.
Defined.

Lemma context_similarity_laws_witness : context_similarity no_stripper sample_anchors "x = 1" "x = 1  " None = f32_one.
Proof. apply (context_similarity_laws no_stripper sample_anchors "x = 1" "x = 1  " None); vm_compute; reflexivity. Defined.

Lemma relocate_by_context_best_witness :
  relocate_by_context no_stripper (reads_text moved_source) sample_anchors sample_anchor "a.py" Python = Some (5%N, f32_one).
Proof.
  assert (context_fingerprint sample_anchor <> None) as Hfp by (vm_compute; discriminate).
  assert (read_file_lines (reads_text moved_source) sample_anchors "a.py" = Ok moved_source) as Hf by (vm_compute; reflexivity).
  assert (lenN moved_source < 2 ^ 32)%N as Hl by (vm_compute; reflexivity).
  pose proof (relocate_by_context_best no_stripper (reads_text moved_source) sample_anchors sample_anchor "a.py" Python moved_source
    (or_introl Hfp) Hf Hl) as Hb.
  assert (relocate_by_context no_stripper (reads_text moved_source) sample_anchors sample_anchor "a.py" Python = Some (5%N, f32_one)) as E
    by (vm_compute; reflexivity).
  rewrite E in Hb. destruct Hb as (_ & _ & _). exact E.
Defined.

Lemma moved_context_is_found_witness :
  exists l c, relocate_by_context no_stripper (reads_text moved_source) sample_anchors sample_anchor "a.py" Python = Some (l, c)
    /\ f32_lt c f32_one = false.
Proof.
  assert (exists ctx, service_context (reads_text moved_source) sample_anchors "a.py" 5 = Ok ctx
    /\ ctx = mkContext (join nl ["def area(w, h):"; "    total = w * h"]) "    log(total)" (join nl ["    return total"; "# end"])) as (ctx & Hctx & Ec)
    by (eexists; split; [vm_compute; reflexivity|reflexivity]).
  apply (moved_context_is_found no_stripper (reads_text moved_source) sample_anchors sample_anchor "a.py" Python moved_source 5 ctx);
    first [exact Hctx | subst ctx; vm_compute; (reflexivity || exact I || discriminate)].
Defined.

Lemma relocation_follows_symbol_witness :
  let self := mkAnchorService default_anchor_config (Some sample_lsp) None in
  let lsp' := mkLsp (fun _ _ _ => Ok None) (fun _ _ => Ok [mkSymbol "area" 12 11 14]) in
  exists a, capture_anchor id no_stripper (reads_text sample_source) 7 self (mkLocation "a.py" 3) Python = Ok a
    /\ relocate no_stripper (reads_text sample_source) (mkAnchorService default_anchor_config (Some lsp') None) "a.py" a Python
       = Ok (RelocatedInSymbol 3 13 "area").
Proof.
  intros self lsp'. eexists. split; [vm_compute; reflexivity|].
  apply (relocation_follows_symbol id no_stripper (reads_text sample_source) 7 self (mkLocation "a.py" 3) Python _ sample_symbol
    (mkSymbol "area" 12 11 14) lsp' [mkSymbol "area" 12 11 14] 10); try (vm_compute; reflexivity); vm_compute; discriminate.
Defined.

Lemma normalize_idempotent_witness :
  let n s := normalize_for_fingerprint no_stripper s default_normalization None in n (n (source_text moved_source)) = n (source_text moved_source).
Proof. exact (normalize_idempotent no_stripper (source_text moved_source) default_normalization None eq_refl eq_refl eq_refl eq_refl). Defined.

(** U+1F600, four bytes, and another character of four bytes. *)
Definition four_bytes (last : N) : string :=
  String (ascii_of_N 240) (String (ascii_of_N 159) (String (ascii_of_N 152) (String (ascii_of_N last) EmptyString))).

(** The similarity is documented to be 0.0 for completely different contexts,
    but the distance counts characters and the length it is divided by counts
    bytes: two texts with no character in common can be similar to 0.75. *)
Theorem similarity_counts_bytes :
  let a := four_bytes 128 in let b := four_bytes 129 in
  levenshtein_distance a b = lenN (chars a) /\ lenN (chars a) = 1%N
  /\ context_similarity no_stripper sample_anchors a b None = f32_sub f32_one (f32_div (f32_of_usize 1) (f32_of_usize 4)).
Proof. vm_compute. repeat split. Qed.
