(* ===== verification/MetricRepo.v ===== *)
(** * The metric repository

    The port [crates/detrix-ports/src/repository.rs] ([MetricRepository]) as a
    type class with its laws, and the SQLite implementation
    [crates/detrix-storage/src/sqlite/metric_repo.rs] as an instance: the
    [metrics] table is a finite map from row ids, each query the selection its
    SQL text states.  Every statement may fail in the database; a table carries
    the failures to come.  Columns that hold JSON are kept as the values
    [serde_json] writes and reads back. *)

From Stdlib Require Import Strings.String Strings.Ascii.
From stdpp Require Import gmap sorting.
From S2P Require Import Prelude RustStr CoreError Location Language Metric.

Local Open Scope string_scope.
Local Arguments String.append !_ _ / : simpl nomatch.

Definition SYSTEM_USER_ID : string := "__system__".

Inductive OwnerFilter : Type := OwnerUser (uid : string) | OwnerSystem.

Definition owner_of (user_id : option string) : OwnerFilter :=
  match user_id with Some uid => OwnerUser uid | None => OwnerSystem end.

(** Which metrics a location query is about. *)
Definition located (conn file : string) (line : N) (m : Metric) : Prop :=
  m_connection_id m = conn /\ loc_file (m_location m) = file /\ loc_line (m_location m) = line.
Definition owned (o : OwnerFilter) (m : Metric) : Prop :=
  match o with OwnerUser uid => m_user_id m = Some uid | OwnerSystem => m_user_id m = None end.

(** A caller never names the sentinel as an owner. *)
Definition owner_ok (o : OwnerFilter) : Prop :=
  match o with OwnerUser uid => uid <> SYSTEM_USER_ID | OwnerSystem => True end.

(** [row_to_metric] rebuilds an anchor only from some of its columns. *)
Definition stored_anchor (a : option MetricAnchor) : option MetricAnchor :=
  match a with
  | Some a' =>
      if bool_decide (is_Some (enclosing_symbol a')) || bool_decide (is_Some (context_fingerprint a'))
         || bool_decide (is_Some (context_before a')) || bool_decide (is_Some (source_line a'))
      then Some a' else None
  | None => None
  end.

(** A metric as it reads back after [save], and after [update]: ownership, the
    connection and the introspection settings are not columns of the UPDATE. *)
Definition saved_metric (now : Z) (id : N) (m : Metric) : Metric :=
  mkMetric (Some id) (m_name m) (m_connection_id m) (m_group m) (m_location m) (m_expressions m) (m_language m)
    (m_enabled m) (m_mode m) (m_condition m) (m_safety_level m) (Some now) (m_user_id m) (m_agent_id m)
    (m_capture_stack_trace m) (m_stack_trace_ttl m) (m_stack_trace_slice m) (m_capture_memory_snapshot m)
    (m_snapshot_scope m) (m_snapshot_ttl m) (stored_anchor (m_anchor m)) (m_anchor_status m).
Definition updated_metric (old m : Metric) : Metric :=
  mkMetric (m_id old) (m_name m) (m_connection_id old) (m_group m) (m_location m) (m_expressions m) (m_language m)
    (m_enabled m) (m_mode m) (m_condition m) (m_safety_level m) (m_created_at old) (m_user_id old) (m_agent_id old)
    (m_capture_stack_trace old) (m_stack_trace_ttl old) (m_stack_trace_slice old) (m_capture_memory_snapshot old)
    (m_snapshot_scope old) (m_snapshot_ttl old) (stored_anchor (m_anchor m)) (m_anchor_status m).

(** What a value of the Rust type must satisfy to survive the columns: a
    location that parses back, and an owner that is not the sentinel. *)
Definition storable (m : Metric) : bool :=
  negb (str_is_empty (loc_file (m_location m))) && location_wf (m_location m)
  && negb (bool_decide (m_user_id m = Some SYSTEM_USER_ID)).

Class MetricRepository (R : Type) : Type := {
  repo_save : Z -> Metric -> R -> R * result N Error;
  repo_find_by_id : N -> R -> R * result (option Metric) Error;
  repo_find_all : R -> R * result (list Metric) Error;
  repo_find_by_location : string -> string -> N -> OwnerFilter -> R -> R * result (option Metric) Error;
  repo_find_all_at_location : string -> string -> N -> R -> R * result (list Metric) Error;
  repo_find_by_group : string -> R -> R * result (list Metric) Error;
  repo_find_by_connection_id : string -> R -> R * result (list Metric) Error;
  repo_update : Metric -> R -> R * result unit Error;
  repo_delete : N -> R -> R * result unit Error
}.

(** The contract.  [stored r] is what the ids of [r] read as; [repo_inv] is the
    implementation's own invariant. *)
Class RepositoryLaws (R : Type) `{MetricRepository R} : Type := {
  stored : R -> gmap N Metric;
  repo_inv : R -> Prop;
  stored_wf r id m : repo_inv r -> stored r !! id = Some m ->
    m_id m = Some id /\ storable m = true /\ stored_anchor (m_anchor m) = m_anchor m;
  stored_unique r i j m n : repo_inv r -> stored r !! i = Some m -> stored r !! j = Some n ->
    m_connection_id m = m_connection_id n -> m_location m = m_location n -> m_user_id m = m_user_id n -> i = j;
  find_by_id_law r id : repo_inv r -> let '(r', x) := repo_find_by_id id r in
    repo_inv r' /\ stored r' = stored r /\ forall o, x = Ok o -> o = stored r !! id;
  find_all_law r : repo_inv r -> let '(r', x) := repo_find_all r in
    repo_inv r' /\ stored r' = stored r /\
    forall ms, x = Ok ms -> NoDup ms /\ forall m, m ∈ ms <-> exists id, stored r !! id = Some m;
  find_by_location_law r c f l o : repo_inv r -> owner_ok o -> let '(r', x) := repo_find_by_location c f l o r in
    repo_inv r' /\ stored r' = stored r /\
    (forall m, x = Ok (Some m) -> exists id, stored r !! id = Some m /\ located c f l m /\ owned o m) /\
    (x = Ok None -> forall id m, stored r !! id = Some m -> ~ (located c f l m /\ owned o m));
  find_all_at_location_law r c f l : repo_inv r -> let '(r', x) := repo_find_all_at_location c f l r in
    repo_inv r' /\ stored r' = stored r /\
    forall ms, x = Ok ms -> forall m, m ∈ ms <-> exists id, stored r !! id = Some m /\ located c f l m;
  find_by_group_law r g : repo_inv r -> let '(r', x) := repo_find_by_group g r in
    repo_inv r' /\ stored r' = stored r /\
    forall ms, x = Ok ms -> forall m, m ∈ ms <-> exists id, stored r !! id = Some m /\ m_group m = Some g;
  find_by_connection_law r c : repo_inv r -> let '(r', x) := repo_find_by_connection_id c r in
    repo_inv r' /\ stored r' = stored r /\
    forall ms, x = Ok ms -> forall m, m ∈ ms <-> exists id, stored r !! id = Some m /\ m_connection_id m = c;
  save_law r now m : repo_inv r -> storable m = true -> let '(r', x) := repo_save now m r in
    repo_inv r' /\ match x with
                   | Ok id => stored r !! id = None /\ stored r' = <[id := saved_metric now id m]> (stored r)
                   | Err _ => stored r' = stored r
                   end;
  update_law r m : repo_inv r -> storable m = true -> let '(r', x) := repo_update m r in
    repo_inv r' /\ match x with
                   | Ok _ => exists id old, m_id m = Some id /\ stored r !! id = Some old /\
                               stored r' = <[id := updated_metric old m]> (stored r)
                   | Err _ => stored r' = stored r
                   end;
  delete_law r id : repo_inv r -> let '(r', x) := repo_delete id r in
    repo_inv r' /\ match x with
                   | Ok _ => is_Some (stored r !! id) /\ stored r' = delete id (stored r)
                   | Err _ => stored r' = stored r
                   end
}.

(** ** The SQLite table *)

Record Row : Type := mkRow { row_location : string; row_user_id : string; row_language : string; row_body : Metric }.

Definition effective_user_id (user_id : option string) : string := default SYSTEM_USER_ID user_id.

Definition row_to_metric (id : N) (r : Row) : result Metric Error :=
  let b := row_body r in
  let? location := location_parse (row_location r) in
  let? language := map_err (fun e => InvalidConfig (ple_display (ple_with_context e ("in database for metric " ++ show_N id))))
                     (parse_language (row_language r)) in
  Ok (mkMetric (Some id) (m_name b) (m_connection_id b) (m_group b) location (m_expressions b) language
        (m_enabled b) (m_mode b) (m_condition b) (m_safety_level b) (m_created_at b)
        (if String.eqb (row_user_id r) SYSTEM_USER_ID then None else Some (row_user_id r)) (m_agent_id b)
        (m_capture_stack_trace b) (m_stack_trace_ttl b) (m_stack_trace_slice b) (m_capture_memory_snapshot b)
        (m_snapshot_scope b) (m_snapshot_ttl b) (stored_anchor (m_anchor b)) (m_anchor_status b)).

Record Table : Type := mkTable { t_rows : gmap N Row; t_next : N; t_faults : list bool }.
Definition empty_table : Table := mkTable ∅ 1 [].

(** A statement sent to the database: the first pending fault decides. *)
Definition statement {A : Type} (k : Table -> Table * result A Error) (t : Table) : Table * result A Error :=
  match t_faults t with
  | true :: fs => (mkTable (t_rows t) (t_next t) fs, Err (Database "database error"))
  | _ :: fs => k (mkTable (t_rows t) (t_next t) fs)
  | [] => k t
  end.

Definition row_le (x y : N * Row) : Prop :=
  (default 0 (m_created_at (row_body (snd x))) <= default 0 (m_created_at (row_body (snd y))))%Z.
#[export] Instance row_le_dec : RelDecision row_le := fun x y => Z_le_dec _ _.

(** [SELECT * FROM metrics WHERE p ORDER BY created_at], ascending. *)
Definition select_asc (p : Row -> bool) (t : Table) : list (N * Row) :=
  merge_sort row_le (filter (fun x => p (snd x) = true) (map_to_list (t_rows t))).
Definition select_desc (p : Row -> bool) (t : Table) : list (N * Row) := reverse (select_asc p t).
Definition read_rows (rows : list (N * Row)) : result (list Metric) Error :=
  collect_results (fun x => row_to_metric (fst x) (snd x)) rows.

Definition at_location (conn location : string) (r : Row) : bool :=
  String.eqb (m_connection_id (row_body r)) conn && String.eqb (row_location r) location.
Definition location_pattern (file : string) (line : N) : string := "@" ++ file ++ "#" ++ show_N line.

(** The unique index on (location, connection_id, user_id). *)
Definition same_key (a b : Row) : bool :=
  String.eqb (row_location a) (row_location b) && String.eqb (m_connection_id (row_body a)) (m_connection_id (row_body b))
  && String.eqb (row_user_id a) (row_user_id b).
Definition conflicts (except : option N) (r : Row) (t : Table) : bool :=
  existsb (fun x => same_key (snd x) r && negb (bool_decide (Some (fst x) = except))) (map_to_list (t_rows t)).

Definition table_save (now : Z) (m : Metric) : Table -> Table * result N Error :=
  statement (fun t =>
    let row := mkRow (to_string_format (m_location m)) (effective_user_id (m_user_id m)) (lang_as_str (m_language m))
                 (saved_metric now (t_next t) m) in
    if conflicts None row t then (t, Err (Database "UNIQUE constraint failed"))
    else (mkTable (<[t_next t := row]> (t_rows t)) (t_next t + 1) (t_faults t), Ok (t_next t))).

Definition table_find_by_id (id : N) : Table -> Table * result (option Metric) Error :=
  statement (fun t => (t, match t_rows t !! id with
                          | Some r => res_map Some (row_to_metric id r)
                          | None => Ok None
                          end)).

Definition table_find_all : Table -> Table * result (list Metric) Error :=
  statement (fun t => (t, read_rows (select_desc (fun _ => true) t))).

Definition table_find_by_location (conn file : string) (line : N) (o : OwnerFilter) : Table -> Table * result (option Metric) Error :=
  let uid := match o with OwnerUser u => u | OwnerSystem => SYSTEM_USER_ID end in
  statement (fun t =>
    (t, match select_asc (fun r => at_location conn (location_pattern file line) r && String.eqb (row_user_id r) uid) t with
        | (id, r) :: _ => res_map Some (row_to_metric id r)
        | [] => Ok None
        end)).

Definition table_find_all_at_location (conn file : string) (line : N) : Table -> Table * result (list Metric) Error :=
  statement (fun t => (t, read_rows (select_asc (at_location conn (location_pattern file line)) t))).
Definition table_find_by_group (g : string) : Table -> Table * result (list Metric) Error :=
  statement (fun t => (t, read_rows (select_desc (fun r => bool_decide (m_group (row_body r) = Some g)) t))).
Definition table_find_by_connection_id (conn : string) : Table -> Table * result (list Metric) Error :=
  statement (fun t => (t, read_rows (select_desc (fun r => String.eqb (m_connection_id (row_body r)) conn) t))).

Definition table_update (m : Metric) (t : Table) : Table * result unit Error :=
  match m_id m with
  | None => (t, Err (InvalidConfig "Metric must have ID to update"))
  | Some id =>
      statement (fun t =>
        match t_rows t !! id with
        | None => (t, Err (MetricNotFound (show_N id)))
        | Some old =>
            let row := mkRow (to_string_format (m_location m)) (row_user_id old) (lang_as_str (m_language m))
                         (updated_metric (row_body old) m) in
            if conflicts (Some id) row t then (t, Err (Database "UNIQUE constraint failed"))
            else (mkTable (<[id := row]> (t_rows t)) (t_next t) (t_faults t), Ok tt)
        end) t
  end.

Definition table_delete (id : N) : Table -> Table * result unit Error :=
  statement (fun t =>
    match t_rows t !! id with
    | None => (t, Err (MetricNotFound (show_N id)))
    | Some _ => (mkTable (delete id (t_rows t)) (t_next t) (t_faults t), Ok tt)
    end).

#[export] Instance table_repository : MetricRepository Table := {|
  repo_save := table_save; repo_find_by_id := table_find_by_id; repo_find_all := table_find_all;
  repo_find_by_location := table_find_by_location;
  repo_find_all_at_location := table_find_all_at_location; repo_find_by_group := table_find_by_group;
  repo_find_by_connection_id := table_find_by_connection_id; repo_update := table_update; repo_delete := table_delete
|}.

(** ** The table meets the contract *)

Lemma location_pattern_inj f l f' l' : location_pattern f l = location_pattern f' l' -> f = f' /\ l = l'.
Proof.
  unfold location_pattern. cbn. intros [= E]. apply (f_equal (rsplit_once "#")) in E.
  rewrite !rsplit_once_last in E by apply digit_not_hash, show_N_digits. injection E as -> E. split; [done|]. by apply show_N_inj.
Qed.

Lemma location_pattern_format l : to_string_format l = location_pattern (loc_file l) (loc_line l).
Proof. done. Qed.

Definition rows_stored (rows : gmap N Row) : gmap N Metric :=
  map_imap (fun id r => match row_to_metric id r with Ok m => Some m | Err _ => None end) rows.

(** A row that holds a storable metric in canonical form. *)
Record row_ok (id : N) (r : Row) (m : Metric) : Prop := {
  ro_reads : row_to_metric id r = Ok m;
  ro_storable : storable m = true;
  ro_location : row_location r = to_string_format (m_location m)
}.

Record table_inv (t : Table) : Prop := {
  ti_fresh : forall id r, t_rows t !! id = Some r -> (id < t_next t)%N;
  ti_rows : forall id r, t_rows t !! id = Some r -> exists m, row_ok id r m;
  ti_unique : forall i j a b, t_rows t !! i = Some a -> t_rows t !! j = Some b -> same_key a b = true -> i = j
}.

Lemma row_fields id r m :
  row_to_metric id r = Ok m ->
  m_id m = Some id /\ m_connection_id m = m_connection_id (row_body r) /\ m_group m = m_group (row_body r)
  /\ effective_user_id (m_user_id m) = row_user_id r.
Proof.
  unfold row_to_metric. intros E. res_inv E. injection E as <-. cbn. split; [done|]. split; [done|]. split; [done|].
  by destruct (String.eqb_spec (row_user_id r) SYSTEM_USER_ID).
Qed.

Lemma storable_spec m :
  storable m = true <-> loc_file (m_location m) <> EmptyString /\ location_wf (m_location m) = true /\ m_user_id m <> Some SYSTEM_USER_ID.
Proof.
  unfold storable. rewrite !andb_true_iff, !negb_true_iff, bool_decide_eq_false.
  destruct (loc_file (m_location m)); cbn; naive_solver.
Qed.

(** A row made from a storable metric reads back as the metric it was made from. *)
Lemma row_reads_back id m body :
  storable m = true -> m_id m = Some id -> stored_anchor (m_anchor m) = m_anchor m -> body = m ->
  row_ok id (mkRow (to_string_format (m_location m)) (effective_user_id (m_user_id m)) (lang_as_str (m_language m)) body) m.
Proof.
  intros Hs Hid Ha ->. pose proof Hs as (Hf & Hl & Hu)%storable_spec. constructor; [|done|done].
  unfold row_to_metric. cbn [row_body row_location row_language row_user_id]. rewrite location_format_parses by done. cbn [res_bind]. unfold parse_language.
  assert (lang_from_str (lang_as_str (m_language m)) = Ok (m_language m)) as -> by by destruct (m_language m).
  cbn [res_bind map_err]. destruct m as [i nm c g loc ex lang en mode cond sl cr uid aid cst stt sts cms ss st an ast]. cbn in *. subst i. rewrite Ha. do 2 f_equal.
  destruct uid as [u|]; cbn; [|done]. destruct (String.eqb_spec u SYSTEM_USER_ID); [congruence|done].
Qed.

Lemma stored_anchor_idem a : stored_anchor (stored_anchor a) = stored_anchor a.
Proof. destruct a as [a|]; [|done]. cbn. destruct (_ || _ || _ || _) eqn:E; cbn; [by rewrite E|done]. Qed.

Lemma row_anchor id r m : row_to_metric id r = Ok m -> stored_anchor (m_anchor m) = m_anchor m.
Proof. unfold row_to_metric. intros E. res_inv E. injection E as <-. apply stored_anchor_idem. Qed.

Lemma rows_stored_lookup rows id m : rows_stored rows !! id = Some m <-> exists r, rows !! id = Some r /\ row_to_metric id r = Ok m.
Proof.
  unfold rows_stored. rewrite map_lookup_imap. destruct (rows !! id) as [r|]; cbn; [|split; [done | by intros (? & ? & _)]].
  split; [|intros (? & [= <-] & ->); done]. destruct (row_to_metric id r) eqn:E; [intros [= <-]; eauto | done].
Qed.

Lemma rows_stored_insert rows id r m : row_to_metric id r = Ok m -> rows_stored (<[id := r]> rows) = <[id := m]> (rows_stored rows).
Proof.
  intros E. apply map_eq. intros j. unfold rows_stored. rewrite map_lookup_imap.
  destruct (decide (id = j)) as [->|Hne]; [rewrite !lookup_insert_eq; cbn; by rewrite E|].
  rewrite !lookup_insert_ne by done. by rewrite map_lookup_imap.
Qed.

Lemma rows_stored_delete rows id : rows_stored (delete id rows) = delete id (rows_stored rows).
Proof.
  apply map_eq. intros j. unfold rows_stored. rewrite map_lookup_imap.
  destruct (decide (id = j)) as [->|Hne]; [by rewrite !lookup_delete_eq|].
  rewrite !lookup_delete_ne by done. by rewrite map_lookup_imap.
Qed.

(** Faults to come do not matter to the invariant or the contents. *)
Lemma statement_law {A : Type} (P : Table -> result A Error -> Prop) (k : Table -> Table * result A Error) t :
  table_inv t ->
  (forall fs e, P (mkTable (t_rows t) (t_next t) fs) (Err e)) ->
  (forall fs, table_inv (mkTable (t_rows t) (t_next t) fs) -> let '(t', x) := k (mkTable (t_rows t) (t_next t) fs) in P t' x) ->
  let '(t', x) := statement k t in P t' x.
Proof.
  intros [H1 H2 H3] Herr Hk. unfold statement. destruct t as [rows next [|[] fs]]; cbn in *.
  - apply (Hk []). by constructor.
  - apply Herr.
  - apply Hk. by constructor.
Qed.

Lemma select_elem p t x : x ∈ select_asc p t <-> t_rows t !! fst x = Some (snd x) /\ p (snd x) = true.
Proof.
  unfold select_asc. rewrite merge_sort_Permutation, list_elem_of_filter. destruct x as [i r].
  rewrite elem_of_map_to_list. cbn. naive_solver.
Qed.

Lemma read_rows_elem rows ms m :
  read_rows rows = Ok ms -> m ∈ ms <-> exists x, x ∈ rows /\ row_to_metric (fst x) (snd x) = Ok m.
Proof.
  unfold read_rows. rewrite collect_results_ok. intros H. induction H as [|x y rows ms Hx H IH].
  - split; [by intros ?%not_elem_of_nil | by intros (? & ?%not_elem_of_nil & _)].
  - rewrite elem_of_cons, IH. split.
    + intros [->|(z & Hz & Em)]; [exists x; split; [left|done] | exists z; split; [by right|done]].
    + intros (z & [->|Hz]%elem_of_cons & Em); [left; congruence | right; eauto].
Qed.

Lemma table_inv_faults t fs : table_inv t -> table_inv (mkTable (t_rows t) (t_next t) fs).
Proof. intros []. by constructor. Qed.

Lemma at_location_spec id r m c f l : row_ok id r m -> at_location c (location_pattern f l) r = true <-> located c f l m.
Proof.
  intros [Hr _ Hl]. apply row_fields in Hr as (_ & Hc & _). unfold at_location, located. rewrite andb_true_iff, !String.eqb_eq, Hl, Hc.
  rewrite location_pattern_format. split; [intros [? []%location_pattern_inj]; auto | intros (? & <- & <-); done].
Qed.

Lemma owner_spec id r m o : row_ok id r m ->
  String.eqb (row_user_id r) (match o with OwnerUser u => u | OwnerSystem => SYSTEM_USER_ID end) = true
  -> owner_ok o -> owned o m.
Proof.
  intros [Hr Hs _] Hu%String.eqb_eq Ho. apply row_fields in Hr as (_ & _ & _ & He). apply storable_spec in Hs as (_ & _ & Hn).
  rewrite <- He in Hu. unfold owned. destruct o as [u|], (m_user_id m) as [v|]; cbn in *; congruence.
Qed.

Lemma stored_ok t id m : table_inv t -> rows_stored (t_rows t) !! id = Some m -> exists r, t_rows t !! id = Some r /\ row_ok id r m.
Proof.
  intros Ht (r & Hr & Em)%rows_stored_lookup. destruct (ti_rows t Ht id r Hr) as (m' & Hok).
  exists r. split; [done|]. pose proof (ro_reads _ _ _ Hok). congruence.
Qed.

Lemma read_query t (p : Row -> bool) (P : Metric -> Prop) rows ms :
  table_inv t -> (forall id r m, row_ok id r m -> p r = true <-> P m) ->
  (forall x, x ∈ rows <-> x ∈ select_asc p t) -> read_rows rows = Ok ms ->
  forall m, m ∈ ms <-> exists id, rows_stored (t_rows t) !! id = Some m /\ P m.
Proof.
  intros Ht Hp Hrows Hread m. rewrite (read_rows_elem _ _ _ Hread). split.
  - intros ([id r] & Hx & Em). rewrite Hrows, select_elem in Hx. cbn in *. destruct Hx as [Hr Hpr]. exists id.
    destruct (ti_rows t Ht id r Hr) as (m' & Hok). assert (m' = m) as -> by (pose proof (ro_reads _ _ _ Hok); congruence).
    split; [apply rows_stored_lookup; eauto | by apply (Hp _ _ _ Hok)].
  - intros (id & Hs & HP). destruct (stored_ok _ _ _ Ht Hs) as (r & Hr & Hok). exists (id, r). cbn.
    split; [|by apply ro_reads]. rewrite Hrows, select_elem. split; [done|]. by apply (Hp _ _ _ Hok).
Qed.

(** The shape of the laws for queries. *)
Definition reads (t : Table) {A : Type} (good : A -> Prop) (t' : Table) (x : result A Error) : Prop :=
  table_inv t' /\ rows_stored (t_rows t') = rows_stored (t_rows t) /\ forall a, x = Ok a -> good a.

Lemma query_law t {A : Type} (q : Table -> result A Error) (good : A -> Prop) :
  table_inv t -> (forall fs a, q (mkTable (t_rows t) (t_next t) fs) = Ok a -> good a) ->
  let '(t', x) := statement (fun t => (t, q t)) t in reads t good t' x.
Proof.
  intros Ht Hq. apply (statement_law (reads t good)); [done| |].
  - intros fs e. split; [by apply table_inv_faults|]. split; [done|]. done.
  - intros fs Hfs. split; [done|]. split; [done|]. apply Hq.
Qed.

Lemma table_find_by_location_ok t c f l o :
  table_inv t -> owner_ok o ->
  let '(t', x) := table_find_by_location c f l o t in
  table_inv t' /\ rows_stored (t_rows t') = rows_stored (t_rows t) /\
  (forall m, x = Ok (Some m) -> exists id, rows_stored (t_rows t) !! id = Some m /\ located c f l m /\ owned o m) /\
  (x = Ok None -> forall id m, rows_stored (t_rows t) !! id = Some m -> ~ (located c f l m /\ owned o m)).
Proof.
  intros Ht Ho. unfold table_find_by_location.
  pose proof (query_law t (fun t => match select_asc (fun r => at_location c (location_pattern f l) r && String.eqb (row_user_id r)
      (match o with OwnerUser u => u | OwnerSystem => SYSTEM_USER_ID end)) t with
    | (id, r) :: _ => res_map Some (row_to_metric id r) | [] => Ok None end)
    (fun a => match a with
     | Some m => exists id, rows_stored (t_rows t) !! id = Some m /\ located c f l m /\ owned o m
     | None => forall id m, rows_stored (t_rows t) !! id = Some m -> ~ (located c f l m /\ owned o m) end) Ht) as Hq.
  destruct (statement _ t) as [t' x]. destruct Hq as (H1 & H2 & H3).
  - intros fs a. pose proof (select_elem (fun r => at_location c (location_pattern f l) r && String.eqb (row_user_id r)
      (match o with OwnerUser u => u | OwnerSystem => SYSTEM_USER_ID end)) (mkTable (t_rows t) (t_next t) fs)) as Hel. cbn [t_rows] in Hel.
    destruct (select_asc _ _) as [|[id r] rows].
    + intros [= <-] id m Hm [Hl Hown]. destruct (stored_ok _ _ _ Ht Hm) as (r & Hr & Hok).
      apply (not_elem_of_nil (id, r)). apply Hel. cbn [fst snd]. split; [done|]. rewrite (proj2 (at_location_spec _ _ _ c f l Hok) Hl). cbn [andb].
      apply String.eqb_eq. destruct (row_fields _ _ _ (ro_reads _ _ _ Hok)) as (_ & _ & _ & <-).
      by destruct o; cbn in Hown; rewrite Hown.
    + destruct (proj1 (Hel (id, r)) ltac:(left)) as [Hr [Hloc Hu]%andb_true_iff]. cbn [fst snd] in *.
      destruct (ti_rows t Ht id r Hr) as (m & Hok). rewrite (ro_reads _ _ _ Hok). cbn [res_map]. intros [= <-]. exists id.
      split; [apply rows_stored_lookup; eexists; split; [done | by apply ro_reads] |].
      split; [by apply (at_location_spec _ _ _ c f l Hok) | by eapply owner_spec].
  - split; [done|]. split; [done|]. split; [intros m ->; by apply (H3 (Some m)) | intros ->; by apply (H3 None)].
Qed.

Lemma conflicts_false except r t :
  conflicts except r t = false <-> forall i a, t_rows t !! i = Some a -> same_key a r = true -> Some i = except.
Proof.
  unfold conflicts. rewrite <- not_true_iff_false, existsb_exists. split.
  - intros Hn i a Ha Hk. destruct (decide (Some i = except)); [done|]. exfalso. apply Hn. exists (i, a).
    split; [by apply list_elem_of_In, elem_of_map_to_list|]. cbn. by rewrite Hk, bool_decide_false.
  - intros Hall ([i a] & Hin%list_elem_of_In%elem_of_map_to_list & [Hk Hne]%andb_true_iff). cbn in *.
    by rewrite bool_decide_true in Hne by by eapply Hall.
Qed.

Lemma same_key_sym a b : same_key a b = same_key b a.
Proof. unfold same_key. by rewrite (String.eqb_sym (row_location a)), (String.eqb_sym (m_connection_id (row_body a))), (String.eqb_sym (row_user_id a)). Qed.

(** Writing a row whose key is free keeps the index unique. *)
Lemma table_inv_insert t id r m next fs :
  table_inv t -> row_ok id r m -> (forall i a, t_rows t !! i = Some a -> same_key a r = true -> i = id) ->
  (id < next)%N -> (t_next t <= next)%N -> table_inv (mkTable (<[id := r]> (t_rows t)) next fs).
Proof.
  intros [Hf Hr Hu] Hok Hfree Hid Hnext. constructor; cbn.
  - intros j a [[<- <-]|[_ Ha]]%lookup_insert_Some; [done|]. specialize (Hf _ _ Ha). lia.
  - intros j a [[<- <-]|[_ Ha]]%lookup_insert_Some; eauto.
  - intros i j a b [[<- <-]|[Hi Ha]]%lookup_insert_Some [[<- <-]|[Hj Hb]]%lookup_insert_Some Hk; [done| | |by eapply Hu].
    + symmetry. rewrite same_key_sym in Hk. by eapply Hfree.
    + by eapply Hfree.
Qed.

Lemma updated_row_ok id old oldm m :
  row_ok id old oldm -> storable m = true ->
  row_ok id (mkRow (to_string_format (m_location m)) (row_user_id old) (lang_as_str (m_language m)) (updated_metric (row_body old) m))
    (updated_metric oldm m).
Proof.
  intros [Hread Hs Hl] Hm. pose proof Hs as (_ & _ & Hu)%storable_spec. pose proof Hm as (Hmf & Hml & _)%storable_spec.
  constructor; [|by apply storable_spec|done].
  unfold row_to_metric in *. cbn [row_body row_location row_language row_user_id]. rewrite location_format_parses by done. cbn [res_bind].
  unfold parse_language at 1.
  assert (lang_from_str (lang_as_str (m_language m)) = Ok (m_language m)) as -> by by destruct (m_language m).
  cbn [res_bind map_err]. res_inv Hread. injection Hread as <-. unfold updated_metric. cbn. by rewrite stored_anchor_idem.
Qed.

(** The shape of the laws for writes. *)
Definition writes (t : Table) {A : Type} (good : A -> gmap N Metric -> Prop) (t' : Table) (x : result A Error) : Prop :=
  table_inv t' /\ match x with Ok a => good a (rows_stored (t_rows t')) | Err _ => rows_stored (t_rows t') = rows_stored (t_rows t) end.

Lemma table_save_ok t now m :
  table_inv t -> storable m = true ->
  let '(t', x) := table_save now m t in
  writes t (fun id s => rows_stored (t_rows t) !! id = None /\ s = <[id := saved_metric now id m]> (rows_stored (t_rows t))) t' x.
Proof.
  intros Ht Hm. apply statement_law; [done|intros; split; [by apply table_inv_faults|done]|].
  intros fs Hfs. cbn -[conflicts]. destruct (conflicts None _ _) eqn:Ec; [done|].
  assert (row_ok (t_next t) (mkRow (to_string_format (m_location m)) (effective_user_id (m_user_id m)) (lang_as_str (m_language m))
            (saved_metric now (t_next t) m)) (saved_metric now (t_next t) m)) as Hok
    by (apply (row_reads_back _ (saved_metric now (t_next t) m)); [done|done|apply stored_anchor_idem|done]).
  assert (t_rows t !! t_next t = None) as Hnone.
  { destruct (t_rows t !! t_next t) eqn:E; [|done]. apply (ti_fresh t Ht) in E. lia. }
  split.
  - eapply (table_inv_insert t); [done|exact Hok| |lia|lia]. intros i a Ha Hk.
    apply (proj1 (conflicts_false _ _ _) Ec i a Ha) in Hk. done.
  - cbn. split; [|by apply rows_stored_insert, ro_reads].
    destruct (rows_stored (t_rows t) !! t_next t) eqn:E; [|done]. apply rows_stored_lookup in E as (? & ? & _). congruence.
Qed.

Lemma table_update_ok t m :
  table_inv t -> storable m = true ->
  let '(t', x) := table_update m t in
  writes t (fun _ s => exists id old, m_id m = Some id /\ rows_stored (t_rows t) !! id = Some old /\
             s = <[id := updated_metric old m]> (rows_stored (t_rows t))) t' x.
Proof.
  intros Ht Hm. unfold table_update. destruct (m_id m) as [id|]; [|done].
  apply statement_law; [done|intros; split; [by apply table_inv_faults|done]|].
  intros fs Hfs. cbn -[conflicts]. destruct (t_rows t !! id) as [old|] eqn:Eold; [|done].
  destruct (ti_rows t Ht id old Eold) as (oldm & Hold). pose proof (updated_row_ok id old oldm m Hold Hm) as Hok.
  destruct (conflicts (Some id) _ _) eqn:Ec; [done|]. split.
  - eapply (table_inv_insert t); [done|exact Hok| |by eapply ti_fresh|done]. intros i a Ha Hk.
    apply (proj1 (conflicts_false _ _ _) Ec i a Ha) in Hk. congruence.
  - cbn. exists id, oldm. split; [done|]. split; [apply rows_stored_lookup; eexists; split; [done|by apply ro_reads]|].
    by apply rows_stored_insert, ro_reads.
Qed.

Lemma table_delete_ok t id :
  table_inv t -> let '(t', x) := table_delete id t in
  writes t (fun _ s => is_Some (rows_stored (t_rows t) !! id) /\ s = delete id (rows_stored (t_rows t))) t' x.
Proof.
  intros Ht. apply statement_law; [done|intros; split; [by apply table_inv_faults|done]|].
  intros fs [Hf Hr Hu]. cbn. destruct (t_rows t !! id) as [r|] eqn:Er; [|done]. split.
  - constructor; cbn; [intros ?? [_ ?]%lookup_delete_Some; eauto..|].
    intros i j a b [_ Ha]%lookup_delete_Some [_ Hb]%lookup_delete_Some. by eapply Hu.
  - cbn. split; [|by apply rows_stored_delete]. destruct (Hr id r Er) as (m & Hok). exists m.
    apply rows_stored_lookup. eexists. split; [done|by apply ro_reads].
Qed.

Lemma stored_key_unique t i j m n :
  table_inv t -> rows_stored (t_rows t) !! i = Some m -> rows_stored (t_rows t) !! j = Some n ->
  m_connection_id m = m_connection_id n -> m_location m = m_location n -> m_user_id m = m_user_id n -> i = j.
Proof.
  intros Ht Hi Hj Hc Hl Hu. destruct (stored_ok _ _ _ Ht Hi) as (a & Ha & Hoka), (stored_ok _ _ _ Ht Hj) as (b & Hb & Hokb).
  apply (ti_unique t Ht i j a b Ha Hb). unfold same_key.
  rewrite (ro_location _ _ _ Hoka), (ro_location _ _ _ Hokb), Hl.
  destruct (row_fields _ _ _ (ro_reads _ _ _ Hoka)) as (_ & <- & _ & <-), (row_fields _ _ _ (ro_reads _ _ _ Hokb)) as (_ & <- & _ & <-).
  by rewrite Hc, Hu, !String.eqb_refl.
Qed.

(** Distinct rows read as distinct metrics: they carry their row's id. *)
Lemma read_rows_ids rows ms : read_rows rows = Ok ms -> map m_id ms = map (fun x => Some (fst x)) rows.
Proof.
  revert ms. induction rows as [|[id r] rows IH]; cbn; intros ms E; [by injection E as <-|].
  res_inv E. injection E as <-. cbn. erewrite IH by done. f_equal. by eapply row_fields.
Qed.

Lemma read_rows_NoDup p t ms : read_rows (select_desc p t) = Ok ms -> NoDup ms.
Proof.
  intros E%read_rows_ids. apply (NoDup_fmap_1 m_id). change (m_id <$> ms) with (map m_id ms). rewrite E. clear E.
  assert (NoDup (select_desc p t).*1) as Hnd.
  { unfold select_desc, select_asc. rewrite fmap_reverse, reverse_Permutation, merge_sort_Permutation.
    apply (sublist_NoDup _ (map_to_list (t_rows t)).*1); [apply NoDup_fst_map_to_list|apply fmap_sublist, sublist_filter]. }
  rewrite <- map_map. by apply (NoDup_fmap_2 Some).
Qed.

#[refine, export] Instance table_laws : RepositoryLaws Table := {
  stored t := rows_stored (t_rows t);
  repo_inv := table_inv
}.
Proof.
  - intros t id m Ht (r & Hr & Hok)%stored_ok; [|done]. split; [by apply (row_fields _ _ _ (ro_reads _ _ _ Hok))|].
    split; [by eapply ro_storable | by eapply row_anchor, ro_reads].
  - intros. by eapply stored_key_unique.
  - intros t id Ht. apply (query_law t (fun t => match t_rows t !! id with Some r => res_map Some (row_to_metric id r) | None => Ok None end)
      (fun o => o = rows_stored (t_rows t) !! id) Ht).
    intros fs a. cbn. unfold rows_stored. rewrite map_lookup_imap. destruct (t_rows t !! id) as [r|]; cbn; [|by intros [= <-]].
    destruct (row_to_metric id r); [by intros [= <-] | done].
  - intros t Ht. apply (query_law t (fun t => read_rows (select_desc (fun _ => true) t)) _ Ht).
    intros fs ms E. split; [by eapply read_rows_NoDup|]. intros m.
    rewrite (read_query (mkTable (t_rows t) (t_next t) fs) (fun _ => true) (fun _ => True) _ ms (table_inv_faults _ _ Ht)) with (3 := E);
      [naive_solver|done|]. intros x. unfold select_desc. by rewrite elem_of_reverse.
  - intros t c f l o Ht Ho. by apply table_find_by_location_ok.
  - intros t c f l Ht. apply (query_law t (fun t => read_rows (select_asc (at_location c (location_pattern f l)) t)) _ Ht).
    intros fs ms E. apply (read_query (mkTable (t_rows t) (t_next t) fs) (at_location c (location_pattern f l)) (located c f l) _ _ (table_inv_faults _ _ Ht)) with (3 := E); [|done].
    intros id r m Hok. by apply (at_location_spec id).
  - intros t g Ht. apply (query_law t (fun t => read_rows (select_desc (fun r => bool_decide (m_group (row_body r) = Some g)) t)) _ Ht).
    intros fs ms E. apply (read_query (mkTable (t_rows t) (t_next t) fs) (fun r => bool_decide (m_group (row_body r) = Some g))
      (fun m => m_group m = Some g) _ _ (table_inv_faults _ _ Ht)) with (3 := E).
    + intros id r m Hok. destruct (row_fields _ _ _ (ro_reads _ _ _ Hok)) as (_ & _ & -> & _). apply bool_decide_eq_true.
    + intros x. unfold select_desc. by rewrite elem_of_reverse.
  - intros t c Ht. apply (query_law t (fun t => read_rows (select_desc (fun r => String.eqb (m_connection_id (row_body r)) c) t)) _ Ht).
    intros fs ms E. apply (read_query (mkTable (t_rows t) (t_next t) fs) (fun r => String.eqb (m_connection_id (row_body r)) c)
      (fun m => m_connection_id m = c) _ _ (table_inv_faults _ _ Ht)) with (3 := E).
    + intros id r m Hok. destruct (row_fields _ _ _ (ro_reads _ _ _ Hok)) as (_ & -> & _ & _). apply String.eqb_eq.
    + intros x. unfold select_desc. by rewrite elem_of_reverse.
  - intros t now m Ht Hm. pose proof (table_save_ok t now m Ht Hm) as Hw. cbn. destruct (table_save now m t) as [t' x]. exact Hw.
  - intros t m Ht Hm. pose proof (table_update_ok t m Ht Hm) as Hw. cbn. destruct (table_update m t) as [t' x]. exact Hw.
  - intros t id Ht. pose proof (table_delete_ok t id Ht) as Hw. cbn. destruct (table_delete id t) as [t' x]. exact Hw.
Defined.

Lemma empty_table_inv faults : table_inv (mkTable ∅ 1 faults).
Proof. by constructor. Qed.

(** ** Metrics of a connection

    The two operations of the port that the connection service uses:
    [migrate_connection_id] and [delete_by_connection_id]. *)

Definition set_connection (to : string) (m : Metric) : Metric :=
  mkMetric (m_id m) (m_name m) to (m_group m) (m_location m) (m_expressions m) (m_language m)
    (m_enabled m) (m_mode m) (m_condition m) (m_safety_level m) (m_created_at m) (m_user_id m) (m_agent_id m)
    (m_capture_stack_trace m) (m_stack_trace_ttl m) (m_stack_trace_slice m) (m_capture_memory_snapshot m)
    (m_snapshot_scope m) (m_snapshot_ttl m) (m_anchor m) (m_anchor_status m).

(** The owner has another metric of [to] at the place of [m]. *)
Definition place_taken (to : string) (id : N) (m : Metric) (ms : gmap N Metric) : Prop :=
  exists i n, ms !! i = Some n /\ i <> id /\ m_connection_id n = to /\ m_location n = m_location m /\ m_user_id n = m_user_id m.

(** What a migration makes of the metric [m] with the id [id]. *)
Definition migrated (from to : string) (ms : gmap N Metric) (id : N) (m m' : Metric) : Prop :=
  (m_connection_id m = from /\ ~ place_taken to id m ms /\ m' = set_connection to m) \/
  ((m_connection_id m <> from \/ place_taken to id m ms) /\ m' = m).

Class ConnectionMetrics (R : Type) : Type := {
  repo_migrate_connection_id : string -> string -> R -> R * result N Error;
  repo_delete_by_connection_id : string -> R -> R * result N Error
}.

Class ConnectionMetricsLaws (R : Type) `{RepositoryLaws R} `{ConnectionMetrics R} : Type := {
  migrate_law r from to : repo_inv r -> let '(r', x) := repo_migrate_connection_id from to r in
    repo_inv r' /\ match x with
                   | Ok _ => (forall id, stored r !! id = None -> stored r' !! id = None) /\
                       (forall id m, stored r !! id = Some m -> exists m', stored r' !! id = Some m' /\ migrated from to (stored r) id m m')
                   | Err _ => stored r' = stored r
                   end;
  delete_by_connection_law r cid : repo_inv r -> let '(r', x) := repo_delete_by_connection_id cid r in
    repo_inv r' /\ match x with
                   | Ok _ => forall id m, stored r' !! id = Some m <-> stored r !! id = Some m /\ m_connection_id m <> cid
                   | Err _ => stored r' = stored r
                   end
}.

Definition moved_row (to : string) (r : Row) : Row :=
  mkRow (row_location r) (row_user_id r) (row_language r) (set_connection to (row_body r)).

(** [UPDATE OR IGNORE metrics SET connection_id = ? WHERE connection_id = ?]: a
    row stays where the unique index forbids the move.  The rows that move cannot
    forbid each other: they had the same connection before. *)
Definition migrate_row (from to : string) (t : Table) (id : N) (r : Row) : Row :=
  if String.eqb (m_connection_id (row_body r)) from && negb (conflicts (Some id) (moved_row to r) t) then moved_row to r else r.
Definition table_migrate_connection_id (from to : string) : Table -> Table * result N Error :=
  statement (fun t =>
    (mkTable (map_imap (fun id r => Some (migrate_row from to t id r)) (t_rows t)) (t_next t) (t_faults t),
     Ok (N.of_nat (size (filter (fun x => String.eqb (m_connection_id (row_body (snd x))) from
                                          && negb (conflicts (Some (fst x)) (moved_row to (snd x)) t) = true) (t_rows t)))))).

Definition table_delete_by_connection_id (cid : string) : Table -> Table * result N Error :=
  statement (fun t =>
    (mkTable (filter (fun x => m_connection_id (row_body (snd x)) <> cid) (t_rows t)) (t_next t) (t_faults t),
     Ok (N.of_nat (size (filter (fun x => m_connection_id (row_body (snd x)) = cid) (t_rows t)))))).

#[export] Instance table_connection_metrics : ConnectionMetrics Table := {|
  repo_migrate_connection_id := table_migrate_connection_id; repo_delete_by_connection_id := table_delete_by_connection_id
|}.

Lemma moved_row_ok id r m to : row_ok id r m -> row_ok id (moved_row to r) (set_connection to m).
Proof.
  intros [H1 H2 H3]. constructor; [|done|done]. unfold row_to_metric in *. cbn [moved_row row_location row_language row_body row_user_id].
  destruct (location_parse (row_location r)); [|done]. destruct (parse_language (row_language r)); [|done]. cbn in *. by injection H1 as <-.
Qed.

(** The unique index and places of metrics. *)
Lemma same_key_place i j a b m n : row_ok i a m -> row_ok j b n ->
  same_key a b = true <-> m_connection_id m = m_connection_id n /\ m_location m = m_location n /\ m_user_id m = m_user_id n.
Proof.
  intros [Ha Hsa Hla] [Hb Hsb Hlb]. pose proof (row_fields _ _ _ Ha) as (_ & -> & _ & Hua). pose proof (row_fields _ _ _ Hb) as (_ & -> & _ & Hub).
  unfold same_key. rewrite !andb_true_iff, !String.eqb_eq, Hla, Hlb, <- Hua, <- Hub.
  apply storable_spec in Hsa as (Hfa & Hwa & Hna), Hsb as (Hfb & Hwb & Hnb). split.
  - intros [[El ->] Eu]. split; [done|]. split.
    + apply (f_equal location_parse) in El. rewrite !location_format_parses in El by done. by injection El.
    + unfold effective_user_id in Eu. destruct (m_user_id m), (m_user_id n); cbn in *; congruence.
  - intros (-> & -> & ->). done.
Qed.

Lemma conflict_place t id r m to : table_inv t -> row_ok id r m ->
  conflicts (Some id) (moved_row to r) t = true <-> place_taken to id m (rows_stored (t_rows t)).
Proof.
  intros Ht Hok. pose proof (moved_row_ok id r m to Hok) as Hmv. unfold conflicts. rewrite existsb_exists. split.
  - intros ([i a] & Hin%list_elem_of_In%elem_of_map_to_list & [Hk Hne]%andb_true_iff). cbn in *. destruct (ti_rows t Ht i a Hin) as (n & Hn).
    apply (same_key_place _ _ _ _ _ _ Hn Hmv) in Hk as (E1 & E2 & E3). exists i, n.
    split; [apply rows_stored_lookup; exists a; split; [done|by apply ro_reads]|]. split; [|done]. intros ->. by rewrite bool_decide_true in Hne.
  - intros (i & n & (a & Ha & Hn)%stored_ok & Hne & E1 & E2 & E3); [|done]. exists (i, a).
    split; [by apply list_elem_of_In, elem_of_map_to_list|]. cbn. rewrite bool_decide_false by congruence.
    rewrite andb_true_r. by apply (same_key_place _ _ _ _ _ _ Hn Hmv).
Qed.

Lemma migrate_row_ok t from to id r m : table_inv t -> row_ok id r m ->
  exists m', row_ok id (migrate_row from to t id r) m' /\ migrated from to (rows_stored (t_rows t)) id m m'.
Proof.
  intros Ht Hok. pose proof (conflict_place t id r m to Ht Hok) as Hc. unfold migrate_row, migrated.
  destruct (row_fields _ _ _ (ro_reads _ _ _ Hok)) as (_ & Econn & _). rewrite <- Econn.
  destruct (String.eqb_spec (m_connection_id m) from) as [E|E]; cbn [andb].
  - destruct (conflicts (Some id) (moved_row to r) t); cbn [negb].
    + exists m. split; [done|]. right. split; [right; by apply Hc|done].
    + exists (set_connection to m). split; [by apply moved_row_ok|]. left. split; [done|]. split; [|done]. intros Hp. by apply Hc in Hp.
  - exists m. auto.
Qed.

Lemma migrated_cases from to ms id m m' : migrated from to ms id m m' ->
  m_location m' = m_location m /\ m_user_id m' = m_user_id m /\
  (m' = m \/ m_connection_id m = from /\ m_connection_id m' = to /\ ~ place_taken to id m ms).
Proof. intros [(E1 & E2 & ->)|[_ ->]]; [|by auto]. split; [done|]. split; [done|]. by right. Qed.

Lemma migrate_unique t from to i j a b : table_inv t -> t_rows t !! i = Some a -> t_rows t !! j = Some b ->
  same_key (migrate_row from to t i a) (migrate_row from to t j b) = true -> i = j.
Proof.
  intros Ht Ha Hb Hk. destruct (ti_rows t Ht i a Ha) as (m & Hm), (ti_rows t Ht j b Hb) as (n & Hn).
  destruct (migrate_row_ok t from to i a m Ht Hm) as (m' & Hm' & Hmm), (migrate_row_ok t from to j b n Ht Hn) as (n' & Hn' & Hnn).
  apply (same_key_place _ _ _ _ _ _ Hm' Hn') in Hk as (E1 & E2 & E3).
  apply migrated_cases in Hmm as (L1 & U1 & Hmm), Hnn as (L2 & U2 & Hnn). destruct (decide (i = j)) as [|Hne]; [done|].
  assert (rows_stored (t_rows t) !! i = Some m) as Si by (apply rows_stored_lookup; exists a; split; [done|by apply ro_reads]).
  assert (rows_stored (t_rows t) !! j = Some n) as Sj by (apply rows_stored_lookup; exists b; split; [done|by apply ro_reads]).
  destruct Hmm as [->|(Cm & Tm & Pm)], Hnn as [->|(Cn & Tn & Pn)].
  - eapply (stored_key_unique t i j m n); congruence.
  - destruct Pn. exists i, m. repeat split; congruence.
  - destruct Pm. exists j, n. repeat split; congruence.
  - eapply (stored_key_unique t i j m n); congruence.
Qed.

#[refine, export] Instance table_connection_laws : ConnectionMetricsLaws Table := {}.
Proof.
  - intros t from to Ht. apply (statement_law (fun t' x => table_inv t' /\ match x with
        | Ok _ => (forall id, rows_stored (t_rows t) !! id = None -> rows_stored (t_rows t') !! id = None) /\
            (forall id m, rows_stored (t_rows t) !! id = Some m -> exists m', rows_stored (t_rows t') !! id = Some m' /\ migrated from to (rows_stored (t_rows t)) id m m')
        | Err _ => rows_stored (t_rows t') = rows_stored (t_rows t) end)); [done|intros; split; [by apply table_inv_faults|done]|].
    intros fs Hfs. set (u := mkTable (t_rows t) (t_next t) fs) in *.
    assert (forall id r, map_imap (fun id r => Some (migrate_row from to u id r)) (t_rows t) !! id = Some r ->
              exists a, t_rows t !! id = Some a /\ r = migrate_row from to u id a) as Hl.
    { intros id r. rewrite map_lookup_imap. intros (a & Ha & E)%bind_Some. exists a. split; [done|]. congruence. }
    split; [constructor; cbn|split].
    + intros id r (a & Ha & _)%Hl. by apply (ti_fresh t Ht id a).
    + intros id r (a & Ha & ->)%Hl. destruct (ti_rows t Ht id a Ha) as (m & Hm). destruct (migrate_row_ok u from to id a m Hfs Hm) as (m' & Hm' & _). eauto.
    + intros i j a b (a' & Ha & ->)%Hl (b' & Hb & ->)%Hl. by apply (migrate_unique u from to).
    + intros id Hn. cbn. apply eq_None_not_Some. intros [m' E]. apply rows_stored_lookup in E as (r & (a & Ha & _)%Hl & _).
      destruct (ti_rows t Ht id a Ha) as (m & Hm). assert (rows_stored (t_rows t) !! id = Some m) as Hs by (apply rows_stored_lookup; exists a; split; [done|by apply ro_reads]). congruence.
    + intros id m Hs. destruct (stored_ok t id m Ht Hs) as (a & Ha & Hm). destruct (migrate_row_ok u from to id a m Hfs Hm) as (m' & Hm' & Hmig).
      exists m'. split; [|done]. apply rows_stored_lookup. exists (migrate_row from to u id a). split; [|by apply ro_reads]. cbn. by rewrite map_lookup_imap, Ha.
  - intros t cid Ht. apply (statement_law (fun t' x => table_inv t' /\ match x with
        | Ok _ => forall id m, rows_stored (t_rows t') !! id = Some m <-> rows_stored (t_rows t) !! id = Some m /\ m_connection_id m <> cid
        | Err _ => rows_stored (t_rows t') = rows_stored (t_rows t) end)); [done|intros; split; [by apply table_inv_faults|done]|].
    intros fs [H1 H2 H3]. split; [constructor; cbn|].
    + intros id r [Hr _]%map_lookup_filter_Some. eauto.
    + intros id r [Hr _]%map_lookup_filter_Some. eauto.
    + intros i j a b [Ha _]%map_lookup_filter_Some [Hb _]%map_lookup_filter_Some. eauto.
    + intros id m. cbn. rewrite !rows_stored_lookup. setoid_rewrite map_lookup_filter_Some. cbn. split.
      * intros (r & [Hr Hc] & Em). split; [eauto|]. by destruct (row_fields _ _ _ Em) as (_ & -> & _).
      * intros ((r & Hr & Em) & Hc). exists r. split; [|done]. split; [done|]. by destruct (row_fields _ _ _ Em) as (_ & <- & _).
Defined.
