(* ===== verification/Logpoint.v ===== *)
(** * The logpoint protocol

    [crates/detrix-dap/src/base/{traits,parsing}.rs], the thread extractors of
    [go.rs] and [rust.rs], [python.rs]'s message builder and
    [error_detection.rs]: how an observation point is written for a debugger
    ([DETRICS:name={expr}...]) and how the debugger's output is read back into
    a metric event.

    [serde_json] and the standard library's decimal-to-[f64] conversion are
    parameters.  A [HashMap] of active metrics is the list of its entries in
    iteration order, which the program leaves unspecified; the theorems hold
    for every order. *)

From Stdlib Require Import Strings.String Strings.Ascii.
From S2P Require Import Prelude RustStr CoreError Location Metric Event.

Local Open Scope string_scope.
Local Arguments String.append !_ _ / : simpl nomatch.

(** ** String searching used by the parsers *)

(** [s.split(c)] *)
Fixpoint str_split (c : ascii) (s : string) : list string :=
  match s with
  | EmptyString => [EmptyString]
  | String a r =>
      if Ascii.eqb a c then EmptyString :: str_split c r
      else match str_split c r with
           | [] => [String a EmptyString]
           | p :: ps => String a p :: ps
           end
  end.

(** [s.find(q)], as the text before the first match and the text from it on. *)
Fixpoint find_str (q s : string) : option (string * string) :=
  if starts_with q s then Some (EmptyString, s)
  else match s with
       | EmptyString => None
       | String a r => match find_str q r with
                       | Some (x, y) => Some (String a x, y)
                       | None => None
                       end
       end.

(** The longest prefix of characters satisfying [f], and the rest. *)
Fixpoint span (f : ascii -> bool) (s : string) : string * string :=
  match s with
  | EmptyString => (EmptyString, EmptyString)
  | String a r => if f a then let '(x, y) := span f r in (String a x, y) else (EmptyString, s)
  end.

(** [s.parse::<i64>()] *)
Definition parse_i64 (s : string) : option Z :=
  let '(neg, body) :=
    match s with
    | String "-" (String _ _ as r) => (true, r)
    | String "+" (String _ _ as r) => (false, r)
    | _ => (false, s)
    end%char in
  if str_is_empty body then None
  else match digits_val 0 body with
       | Some v => let z := if (neg : bool) then (- Z.of_N v)%Z else Z.of_N v in
                   if ((i64_min <=? z) && (z <=? i64_max))%Z then Some z else None
       | None => None
       end.

(** [s.lines()]: lines end at [\n], with one [\r] before it dropped; a final
    empty line is not a line. *)
Definition strip_cr (rev_line : string) : string :=
  match rev_line with
  | String "013" r => str_rev r
  | _ => str_rev rev_line
  end%char.
Fixpoint lines_go (rev_line : string) (s : string) : list string :=
  match s with
  | EmptyString => if str_is_empty rev_line then [] else [str_rev rev_line]
  | String "010" r => strip_cr rev_line :: lines_go EmptyString r
  | String c r => lines_go (String c rev_line) r
  end%char.
Definition str_lines (s : string) : list string := lines_go EmptyString s.

(** ** Thread extraction *)

Definition DETRICS_PREFIX : string := "DETRICS:".
Definition MULTI_EXPR_DELIMITER : ascii := "031"%char.

Record ThreadInfo : Type := mkThreadInfo {
  ti_thread_id : option Z;
  ti_thread_name : option string;
  ti_cleaned_text : string
}.

Definition without_thread (text : string) : ThreadInfo := mkThreadInfo None None text.
Definition with_goroutine (id : Z) (text : string) : ThreadInfo :=
  mkThreadInfo (Some id) (Some ("goroutine-" ++ show_Z id)) text.
Definition with_thread (id : Z) (text : string) : ThreadInfo :=
  mkThreadInfo (Some id) (Some ("thread-" ++ show_Z id)) text.

(** The trait the shared parser is generic in. *)
Class ThreadExtractor (E : Type) : Type := extract_thread_info : E -> string -> ThreadInfo.

Inductive NoThreadExtractor : Type := NoThread.
#[export] Instance no_thread_extract : ThreadExtractor NoThreadExtractor :=
  fun _ output => without_thread output.

Inductive GoThreadExtractor : Type := GoThread.
#[export] Instance go_extract : ThreadExtractor GoThreadExtractor :=
  fun _ output =>
    match strip_prefix "> [Go " output with
    | Some rest =>
        match find_str "]: " rest with
        | Some (goroutine_str, tail) =>
            match parse_i64 goroutine_str, strip_prefix "]: " tail with
            | Some id, Some message => with_goroutine id message
            | _, _ => without_thread output
            end
        | None => without_thread output
        end
    | None => without_thread output
    end.

Definition first_some {A : Type} (x y : option A) : option A :=
  match x with Some _ => x | None => y end.

(** Pattern 1: ["thread #N..." ] or ["* thread #N..."] with [DETRICS:] later on. *)
Definition rust_pattern1 (output : string) : option ThreadInfo :=
  match first_some (strip_prefix "thread #" output) (strip_prefix "* thread #" output) with
  | Some rest =>
      let '(digits, _) := span is_ascii_digit rest in
      if str_is_empty digits then None
      else match parse_i64 digits, find_str DETRICS_PREFIX rest with
           | Some id, Some (_, text) => Some (with_thread id text)
           | _, _ => None
           end
  | None => None
  end.

(** Pattern 2: ["[thread N] DETRICS:..."] *)
Definition rust_pattern2 (output : string) : option ThreadInfo :=
  match strip_prefix "[thread " output with
  | Some rest =>
      match split_once "]" rest with
      | Some (num, tail) =>
          match parse_i64 (trim num) with
          | Some id => let remaining := trim_start tail in
                       if starts_with DETRICS_PREFIX remaining then Some (with_thread id remaining) else None
          | None => None
          end
      | None => None
      end
  | None => None
  end.

(** Pattern 3: the thread on one line, the logpoint on a later one. *)
Fixpoint rust_pattern3_lines (found : option Z) (lines : list string) : option ThreadInfo :=
  match lines with
  | [] => None
  | line :: rest =>
      let line := trim line in
      let found :=
        match first_some (strip_prefix "* thread #" line) (strip_prefix "thread #" line) with
        | Some part => let '(digits, _) := span is_ascii_digit part in
                       if str_is_empty digits then found
                       else match parse_i64 digits with Some id => Some id | None => found end
        | None => found
        end in
      if starts_with DETRICS_PREFIX line then
        Some (match found with Some id => with_thread id line | None => without_thread line end)
      else rust_pattern3_lines found rest
  end.

Definition rust_pattern3 (output : string) : option ThreadInfo :=
  if contains (String "010" EmptyString) output
  then rust_pattern3_lines None (str_lines output) else None.

Inductive RustThreadExtractor : Type := RustThread.
#[export] Instance rust_extract : ThreadExtractor RustThreadExtractor :=
  fun _ output =>
    match first_some (rust_pattern1 output) (first_some (rust_pattern2 output) (rust_pattern3 output)) with
    | Some ti => ti
    | None => match find_str DETRICS_PREFIX output with
              | Some (_, text) => without_thread text
              | None => without_thread output
              end
    end.

(** ** Parsing a logpoint *)

Record LogpointParseResult : Type := mkLPR {
  lp_metric_name : string;
  lp_value_parts : list string;
  lp_thread_info : ThreadInfo
}.

Definition parse_logpoint_core {E : Type} `{ThreadExtractor E} (e : E) (output : string) : option LogpointParseResult :=
  let output := trim output in
  let thread_info := extract_thread_info e output in
  match strip_prefix DETRICS_PREFIX (ti_cleaned_text thread_info) with
  | None => None
  | Some rest =>
      main_content ← head (str_split "|" rest);
      '(name, values) ← split_once "=" main_content;
      Some (mkLPR name (str_split MULTI_EXPR_DELIMITER values) thread_info)
  end.

(** [OutputParser::build_logpoint_message], the default used for Delve and lldb. *)
Definition braces (e : string) : string := "{" ++ e ++ "}".
Definition delim_str : string := String MULTI_EXPR_DELIMITER EmptyString.

Definition build_logpoint_message (m : Metric) : string :=
  match m_expressions m with
  | [e] => DETRICS_PREFIX ++ m_name m ++ "=" ++ braces e
  | es => DETRICS_PREFIX ++ m_name m ++ "=" ++ String.concat delim_str (map braces es)
  end.

(** ** From output to event *)

Section Events.

(** [serde_json::from_str::<Value>], the value's compact text, and its typed views. *)
Context {Json : Type}.
Context (json_parse : string -> option Json) (json_to_string : Json -> string)
        (json_as_f64 : Json -> option f64) (json_as_str : Json -> option string)
        (json_as_bool : Json -> option bool).
(** [str::parse::<f64>] *)
Context (parse_f64 : string -> option f64).

Definition parse_value (value_str : string) : string * option TypedValue :=
  match json_parse value_str with
  | Some j =>
      (json_to_string j,
       match json_as_f64 j with
       | Some n => Some (Numeric n)
       | None => match json_as_str j with
                 | Some s => Some (Text s)
                 | None => Boolean <$> json_as_bool j
                 end
       end)
  | None =>
      (value_str,
       match parse_f64 value_str with
       | Some n => Some (Numeric n)
       | None => Some (Text value_str)
       end)
  end.

Definition active_metrics : Type := list (string * Metric).

(** [metrics.values().find(|m| m.name == name)] *)
Definition find_by_name (ms : active_metrics) (name : string) : option Metric :=
  List.find (fun m => String.eqb (m_name m) name) (map snd ms).

Definition zip_values (expressions parts : list string) : list ExpressionValue :=
  map (fun '(expr, val) => let '(vj, typed) := parse_value val in mkEV expr vj typed)
      (combine expressions parts).

Definition create_metric_event_from_logpoint (now : Z) (r : LogpointParseResult) (ms : active_metrics) : option MetricEvent :=
  metric ← find_by_name ms (lp_metric_name r);
  metric_id ← m_id metric;
  Some (mkEvent None metric_id (m_name metric) (m_connection_id metric) now
          (ti_thread_name (lp_thread_info r)) (ti_thread_id (lp_thread_info r))
          (zip_values (m_expressions metric) (lp_value_parts r))
          false None None None None None None).

(** [parse_logpoint_output]: shared by the Go and Rust adapters. *)
Definition parse_logpoint_output {E : Type} `{ThreadExtractor E} (e : E) (now : Z) (body_output : string) (ms : active_metrics) : option MetricEvent :=
  r ← parse_logpoint_core e (trim body_output);
  create_metric_event_from_logpoint now r ms.

End Events.

(** ** Facts about splitting *)

Definition no_char (c : ascii) (s : string) : bool := str_forall (fun a => negb (Ascii.eqb a c)) s.

Lemma str_split_none c s : no_char c s = true -> str_split c s = [s].
Proof.
  unfold no_char. induction s as [|a s IH]; [done|]. cbn. rewrite andb_true_iff, negb_true_iff.
  intros [-> Hs]. by rewrite IH.
Qed.

Lemma str_split_app c x r : no_char c x = true -> str_split c (x ++ String c r) = x :: str_split c r.
Proof.
  unfold no_char. induction x as [|a x IH]; cbn.
  - by rewrite Ascii.eqb_refl.
  - rewrite andb_true_iff, negb_true_iff. intros [-> Hx]. by rewrite IH.
Qed.

Lemma concat_cons2 (d x y : string) l : String.concat d (x :: y :: l) = x ++ d ++ String.concat d (y :: l).
Proof. done. Qed.

Lemma str_split_concat c vs :
  vs <> [] -> Forall (fun v => no_char c v = true) vs ->
  str_split c (String.concat (String c EmptyString) vs) = vs.
Proof.
  intros Hne H. destruct vs as [|v vs]; [done|]. clear Hne. revert v H.
  induction vs as [|w vs IH]; intros v H; inversion_clear H as [|? ? Hv Hvs].
  - by apply str_split_none.
  - rewrite concat_cons2. cbn [String.append]. rewrite str_split_app by done. by rewrite IH.
Qed.

Lemma no_char_app c a b : no_char c (a ++ b) = no_char c a && no_char c b.
Proof. apply str_forall_app. Qed.

Lemma no_char_concat c d vs :
  no_char c d = true -> Forall (fun v => no_char c v = true) vs -> no_char c (String.concat d vs) = true.
Proof.
  intros Hd H. destruct vs as [|v vs]; [done|]. revert v H.
  induction vs as [|w vs IH]; intros v H; inversion_clear H as [|? ? Hv Hvs]; [done|].
  rewrite concat_cons2, !no_char_app, Hv, Hd. by apply IH.
Qed.

Lemma split_once_first c x y : no_char c x = true -> split_once c (x ++ String c y) = Some (x, y).
Proof.
  unfold no_char. induction x as [|a x IH]; cbn.
  - by rewrite Ascii.eqb_refl.
  - rewrite andb_true_iff, negb_true_iff. intros [-> Hx]. by rewrite IH.
Qed.

(** The first match of a string that starts with [c] is not before the first [c]. *)
Lemma find_str_first c q x y :
  no_char c x = true -> find_str (String c q) (x ++ String c q ++ y) = Some (x, String c q ++ y).
Proof.
  unfold no_char. induction x as [|a x IH]; intros H.
  - cbn [String.append]. unfold find_str. unfold starts_with.
    replace (String c (q ++ y)) with (String c q ++ y) by done. rewrite strip_prefix_app. done.
  - cbn in H. rewrite andb_true_iff, negb_true_iff in H. destruct H as [Ha Hx].
    cbn [String.append find_str]. unfold starts_with at 1. cbn [strip_prefix].
    rewrite Ascii.eqb_sym, Ha. cbn [String.append] in IH. by rewrite IH.
Qed.

Lemma name_char_not c : name_char c = false -> forall s, str_forall name_char s = true -> no_char c s = true.
Proof.
  intros Hc s. unfold no_char. induction s as [|a s IH]; [done|]. cbn.
  rewrite !andb_true_iff, negb_true_iff. intros [Ha Hs]. split; [|by apply IH].
  destruct (Ascii.eqb_spec a c) as [->|]; congruence.
Qed.

(** ** The protocol round trip *)

(** The text a logpoint becomes once its [{expr}] blocks are replaced. *)
Definition render_logpoint (name : string) (blocks : list string) : string :=
  DETRICS_PREFIX ++ name ++ "=" ++ String.concat delim_str blocks.

(** A value the protocol can carry: neither separator occurs in it. *)
Definition carriable (v : string) : bool := no_char "|" v && no_char MULTI_EXPR_DELIMITER v.

Lemma build_logpoint_message_render m :
  build_logpoint_message m = render_logpoint (m_name m) (map braces (m_expressions m)).
Proof. unfold build_logpoint_message, render_logpoint. by destruct (m_expressions m) as [|? [|]]. Qed.

Lemma carriable_split vs :
  Forall (fun v => carriable v = true) vs ->
  Forall (fun v => no_char "|" v = true) vs /\ Forall (fun v => no_char MULTI_EXPR_DELIMITER v = true) vs.
Proof.
  intros Hvs. split; (eapply Forall_impl; [|exact Hvs]); intros v; unfold carriable; rewrite andb_true_iff; by intros [].
Qed.

Lemma parse_core_render {E : Type} `{ThreadExtractor E} (e : E) out name vs :
  ti_cleaned_text (extract_thread_info e (trim out)) = render_logpoint name vs ->
  validate_name name = Ok tt -> vs <> [] -> Forall (fun v => carriable v = true) vs ->
  parse_logpoint_core e out = Some (mkLPR name vs (extract_thread_info e (trim out))).
Proof.
  intros Hti Hname Hne Hvs. apply validate_name_cases in Hname as (_ & _ & Hch & _).
  apply carriable_split in Hvs as [Hp Hd].
  unfold parse_logpoint_core. rewrite Hti. unfold render_logpoint. rewrite strip_prefix_app.
  rewrite str_split_none.
  - cbn [head mbind option_bind]. change ("=" ++ ?x) with (String "=" x).
    rewrite split_once_first by (eapply name_char_not; done).
    cbn. by rewrite str_split_concat.
  - rewrite no_char_app, (name_char_not "|" eq_refl) by done. cbn.
    by apply no_char_concat.
Qed.

(** What the Python adapter reads back is what the logpoint said: for every
    valid metric name and non-empty list of values without [|] or the unit
    separator, whatever whitespace surrounds the output line (and whatever
    [=] signs the values contain). *)
Theorem python_logpoint_roundtrip out name vs :
  trim out = render_logpoint name vs -> validate_name name = Ok tt ->
  vs <> [] -> Forall (fun v => carriable v = true) vs ->
  parse_logpoint_core NoThread out = Some (mkLPR name vs (without_thread (render_logpoint name vs))).
Proof. intros Hout. rewrite <- Hout. intros. rewrite parse_core_render with (name := name) (vs := vs); done. Qed.

Lemma python_logpoint_roundtrip_witness :
  parse_logpoint_core NoThread (" " ++ render_logpoint "order_total" ["a=1"; "x"] ++ String "010" EmptyString)
  = Some (mkLPR "order_total" ["a=1"; "x"] (without_thread (render_logpoint "order_total" ["a=1"; "x"]))).
Proof.
  apply (python_logpoint_roundtrip _ "order_total" ["a=1"; "x"]);
    [vm_compute; reflexivity | vm_compute; reflexivity | discriminate | repeat constructor].
Defined.

(** ** Thread prefixes *)

Lemma parse_i64_digits c r :
  is_ascii_digit c = true ->
  parse_i64 (String c r) =
    match digits_val 0 (String c r) with
    | Some v => if ((i64_min <=? Z.of_N v) && (Z.of_N v <=? i64_max))%Z then Some (Z.of_N v) else None
    | None => None
    end.
Proof.
  intros Hc. unfold parse_i64.
  destruct c as [[] [] [] [] [] [] [] []]; try discriminate Hc; reflexivity.
Qed.

Lemma show_N_cons n : exists c r, show_N n = String c r /\ is_ascii_digit c = true.
Proof.
  pose proof (show_N_digits n) as Hd. destruct (show_N n) as [|c r] eqn:E.
  - destruct (show_N_last n) as (x & d & Hx & _). rewrite E in Hx. by destruct x.
  - cbn in Hd. apply andb_true_iff in Hd as [Hc _]. eauto.
Qed.

Lemma parse_show_Z z : (i64_min <= z <= i64_max)%Z -> parse_i64 (show_Z z) = Some z.
Proof.
  intros Hz. unfold show_Z. destruct (Z.ltb_spec z 0).
  - destruct (show_N_cons (Z.to_N (- z))) as (c & r & E & _).
    cbn [String.append]. rewrite E. unfold parse_i64. cbn [str_is_empty].
    rewrite <- E, digits_val_show.
    replace (- Z.of_N (Z.to_N (- z)))%Z with z by lia.
    by rewrite (proj2 (Z.leb_le i64_min z)), (proj2 (Z.leb_le z i64_max)) by lia.
  - destruct (show_N_cons (Z.to_N z)) as (c & r & E & Hc).
    rewrite E, parse_i64_digits, <- E, digits_val_show by done.
    replace (Z.of_N (Z.to_N z)) with z by lia.
    by rewrite (proj2 (Z.leb_le i64_min z)), (proj2 (Z.leb_le z i64_max)) by lia.
Qed.

Lemma digits_not c s : is_ascii_digit c = false -> str_forall is_ascii_digit s = true -> no_char c s = true.
Proof.
  intros Hc. unfold no_char. induction s as [|a s IH]; [done|]. cbn.
  rewrite !andb_true_iff, negb_true_iff. intros [Ha Hs]. split; [|by apply IH].
  destruct (Ascii.eqb_spec a c) as [->|]; congruence.
Qed.

Lemma show_Z_not c z : is_ascii_digit c = false -> c <> "-"%char -> no_char c (show_Z z) = true.
Proof.
  intros Hc Hm. unfold show_Z. destruct (z <? 0)%Z.
  - cbn [String.append]. unfold no_char. cbn [str_forall].
    rewrite (proj2 (Ascii.eqb_neq "-" c)) by congruence. cbn [negb andb].
    apply digits_not; [done|]. apply show_N_digits.
  - apply digits_not; [done|]. apply show_N_digits.
Qed.

Definition go_line (id : Z) (text : string) : string := "> [Go " ++ show_Z id ++ "]: " ++ text.

Lemma go_extract_line id text :
  (i64_min <= id <= i64_max)%Z -> go_extract GoThread (go_line id text) = with_goroutine id text.
Proof.
  intros Hid. unfold go_extract, go_line. rewrite strip_prefix_app.
  rewrite find_str_first by (apply show_Z_not; done).
  rewrite parse_show_Z by done. by rewrite strip_prefix_app.
Qed.

(** Delve's lines are read back with their goroutine: for every goroutine
    id in the [i64] range, the event carries that id, the metric's name and
    exactly the printed values. *)
Theorem go_logpoint_roundtrip out id name vs :
  trim out = go_line id (render_logpoint name vs) -> (i64_min <= id <= i64_max)%Z ->
  validate_name name = Ok tt -> vs <> [] -> Forall (fun v => carriable v = true) vs ->
  parse_logpoint_core GoThread out =
    Some (mkLPR name vs (mkThreadInfo (Some id) (Some ("goroutine-" ++ show_Z id)) (render_logpoint name vs))).
Proof.
  intros Hout Hid Hn Hne Hvs. pose proof (go_extract_line id (render_logpoint name vs) Hid) as Hx.
  rewrite parse_core_render with (name := name) (vs := vs); rewrite ?Hout; try done.
  - change (extract_thread_info GoThread ?x) with (go_extract GoThread x). by rewrite Hx.
  - change (extract_thread_info GoThread ?x) with (go_extract GoThread x). by rewrite Hx.
Qed.

Lemma go_logpoint_roundtrip_witness :
  parse_logpoint_core GoThread (go_line (-7) (render_logpoint "order_total" ["a=1"; "x"]) ++ String "010" EmptyString)
  = Some (mkLPR "order_total" ["a=1"; "x"]
            (mkThreadInfo (Some (-7)%Z) (Some "goroutine--7") (render_logpoint "order_total" ["a=1"; "x"]))).
Proof.
  apply (go_logpoint_roundtrip _ (-7) "order_total" ["a=1"; "x"]);
    [vm_compute; reflexivity | vm_compute; split; discriminate | vm_compute; reflexivity | discriminate | repeat constructor].
Defined.

(** ** From the output line to the event *)

(** The map of active metrics is keyed by metric name. *)
Definition keyed_by_name (ms : active_metrics) : Prop :=
  NoDup (map fst ms) /\ Forall (fun km => fst km = m_name (snd km)) ms.

Lemma find_by_name_keyed ms m :
  keyed_by_name ms -> In m (map snd ms) -> find_by_name ms (m_name m) = Some m.
Proof.
  unfold find_by_name. intros [Hnd Hk] Hin. induction ms as [|[k x] ms IH]; [done|].
  cbn in *. inversion_clear Hnd as [|? ? Hnot Hnd']. inversion_clear Hk as [|? ? Hkx Hk']. cbn in Hkx.
  destruct (String.eqb_spec (m_name x) (m_name m)) as [E|E].
  - destruct Hin as [->|Hin]; [done|]. exfalso. apply Hnot.
    apply list_elem_of_In, in_map_iff. apply in_map_iff in Hin as ([k' m'] & <- & Hin). cbn in *.
    exists (k', m'). split; [|done]. cbn. rewrite List.Forall_forall in Hk'. specialize (Hk' _ Hin). cbn in Hk'.
    congruence.
  - apply IH; [done..|]. destruct Hin as [->|]; [congruence|done].
Qed.

Section Delivery.
Context {Json : Type} (json_parse : string -> option Json) (json_to_string : Json -> string)
        (json_as_f64 : Json -> option f64) (json_as_str : Json -> option string)
        (json_as_bool : Json -> option bool) (parse_f64 : string -> option f64).

Notation pv := (parse_value json_parse json_to_string json_as_f64 json_as_str json_as_bool parse_f64).
Notation parse_out := (parse_logpoint_output json_parse json_to_string json_as_f64 json_as_str json_as_bool parse_f64).

(** A logpoint hit reaches its own metric. When the debugger prints the
    rendered logpoint of a registered metric (any language's thread prefix),
    the adapter produces exactly one event: that metric's id, name and
    connection, the thread the line names, and one value per expression, in
    the order the expressions were given. *)
Theorem logpoint_event_delivery {E : Type} `{ThreadExtractor E} (e : E) now out ms m id vs ti :
  keyed_by_name ms -> In m (map snd ms) -> m_id m = Some id -> validate_name (m_name m) = Ok tt ->
  extract_thread_info e (trim out) = ti -> ti_cleaned_text ti = render_logpoint (m_name m) vs ->
  length vs = length (m_expressions m) -> vs <> [] -> Forall (fun v => carriable v = true) vs ->
  exists ev, parse_out e now out ms = Some ev /\
    e_metric_id ev = id /\ e_metric_name ev = m_name m /\ e_connection_id ev = m_connection_id m /\
    e_timestamp ev = now /\ e_is_error ev = false /\
    e_thread_id ev = ti_thread_id ti /\ e_thread_name ev = ti_thread_name ti /\
    map ev_expression (e_values ev) = m_expressions m /\
    map (fun v => (ev_value_json v, ev_typed_value v)) (e_values ev) = map pv vs.
Proof.
  intros Hms Hin Hid Hname Hti Htext Hlen Hne Hvs.
  unfold parse_logpoint_output. rewrite <- trim_idem in Hti.
  rewrite parse_core_render with (name := m_name m) (vs := vs) by (rewrite ?Hti; done).
  cbn [mbind option_bind]. unfold create_metric_event_from_logpoint. cbn [lp_metric_name].
  rewrite find_by_name_keyed by done. cbn [mbind option_bind]. rewrite Hid, Hti. cbn.
  eexists. split; [reflexivity|]. cbn. do 7 (split; [done|]). clear -Hlen. unfold zip_values.
  revert vs Hlen. induction (m_expressions m) as [|x xs IH]; intros [|v vs] Hlen; try done.
  cbn in *. destruct (IH vs) as [H1 H2]; [lia|]. rewrite H1, H2.
  by destruct (pv v).
Qed.

(** Text after a [|] never reaches a value. Whatever the program prints
    after the first [|] of a logpoint line, the values read are those of the
    line cut there: a value containing [|] is truncated, silently. *)
Theorem logpoint_value_cut_at_pipe name v w rest :
  validate_name name = Ok tt -> carriable v = true ->
  trim (render_logpoint name [v ++ "|" ++ w] ++ rest) = render_logpoint name [v ++ "|" ++ w] ++ rest ->
  parse_logpoint_core NoThread (render_logpoint name [v ++ "|" ++ w] ++ rest) =
    Some (mkLPR name [v] (without_thread (render_logpoint name [v ++ "|" ++ w] ++ rest))).
Proof.
  intros Hname Hv Htrim. apply validate_name_cases in Hname as (_ & _ & Hch & _).
  apply andb_true_iff in Hv as [Hp Hd].
  unfold parse_logpoint_core. rewrite Htrim.
  change (extract_thread_info NoThread ?x) with (without_thread x). cbn [without_thread ti_cleaned_text].
  unfold render_logpoint. cbn [String.concat]. rewrite !str_app_assoc, strip_prefix_app.
  change ("|" ++ ?x) with (String "|" x). change ("=" ++ ?x) with (String "=" x).
  replace (name ++ String "=" (v ++ String "|" (w ++ rest)))
    with ((name ++ String "=" v) ++ String "|" (w ++ rest)) by by rewrite str_app_assoc.
  rewrite str_split_app.
  - cbn [head mbind option_bind]. rewrite split_once_first by (eapply name_char_not; done).
    cbn. by rewrite str_split_none.
  - rewrite no_char_app, (name_char_not "|" eq_refl) by done. by cbn.
Qed.
End Delivery.

Lemma logpoint_event_delivery_witness :
  exists ev, parse_logpoint_output (Json := unit) (fun _ => None) (fun _ => EmptyString) (fun _ => None) (fun _ => None) (fun _ => None)
               (fun _ => None) GoThread 5%Z (go_line 3 (render_logpoint "total" ["x"; "y"]))
               [("total", sample_metric 9 "total" "a.py" 3 ["a"; "b"])] = Some ev /\
    e_metric_id ev = 9%N /\ e_thread_id ev = Some 3%Z.
Proof.
  destruct (logpoint_event_delivery (Json := unit) (fun _ => None) (fun _ => EmptyString) (fun _ => None) (fun _ => None)
              (fun _ => None) (fun _ => None) GoThread 5%Z (go_line 3 (render_logpoint "total" ["x"; "y"]))
              [("total", sample_metric 9 "total" "a.py" 3 ["a"; "b"])]
              (sample_metric 9 "total" "a.py" 3 ["a"; "b"]) 9%N ["x"; "y"]
              (with_goroutine 3 (render_logpoint "total" ["x"; "y"])))
    as (ev & H & H1 & _ & _ & _ & _ & H2 & _).
  - split; cbn; [|by repeat constructor]. constructor; [|constructor]. intros Hin. inversion Hin.
  - cbn. by left.
  - reflexivity.
  - vm_compute. reflexivity.
  - vm_compute. reflexivity.
  - reflexivity.
  - reflexivity.
  - discriminate.
  - repeat constructor.
  - exists ev. split; [exact H|]. split; [exact H1|]. rewrite H2. reflexivity.
Defined.

Lemma logpoint_value_cut_at_pipe_witness :
  parse_logpoint_core NoThread (render_logpoint "total" ["a" ++ "|" ++ "b"] ++ EmptyString) =
    Some (mkLPR "total" ["a"] (without_thread (render_logpoint "total" ["a" ++ "|" ++ "b"] ++ EmptyString))).
Proof. apply (logpoint_value_cut_at_pipe "total" "a" "b" EmptyString); vm_compute; reflexivity. Defined.

(** ** lldb's thread prefixes *)

Lemma span_digits x c y :
  str_forall is_ascii_digit x = true -> is_ascii_digit c = false ->
  span is_ascii_digit (x ++ String c y) = (x, String c y).
Proof.
  induction x as [|a x IH]; intros Hx Hc; cbn [String.append span]; [by rewrite Hc|].
  cbn in Hx. apply andb_true_iff in Hx as [-> Hx]. by rewrite IH.
Qed.

Definition rust_line (starred : bool) (id : N) (c : ascii) (sep text : string) : string :=
  (if starred then "* thread #" else "thread #") ++ show_N id ++ String c (sep ++ DETRICS_PREFIX ++ text).

Lemma rust_extract_line starred id c sep text :
  (Z.of_N id <= i64_max)%Z -> is_ascii_digit c = false -> no_char "D" (String c sep) = true ->
  rust_extract RustThread (rust_line starred id c sep text) = with_thread (Z.of_N id) (DETRICS_PREFIX ++ text).
Proof.
  intros Hid Hc Hsep. unfold rust_extract, rust_pattern1.
  assert (first_some (strip_prefix "thread #" (rust_line starred id c sep text))
            (strip_prefix "* thread #" (rust_line starred id c sep text))
          = Some (show_N id ++ String c (sep ++ DETRICS_PREFIX ++ text))) as ->.
  { unfold rust_line. destruct starred; [|by rewrite strip_prefix_app].
    rewrite (strip_prefix_app "* thread #"). done. }
  rewrite span_digits by (done || apply show_N_digits).
  destruct (show_N_cons id) as (d & r & E & Hd).
  replace (str_is_empty (show_N id)) with false by by rewrite E.
  replace (show_N id) with (show_Z (Z.of_N id)) at 1
    by (unfold show_Z; destruct (Z.ltb_spec (Z.of_N id) 0); [lia|by rewrite N2Z.id]).
  rewrite parse_show_Z by (unfold i64_min; lia).
  replace (show_N id ++ String c (sep ++ DETRICS_PREFIX ++ text))
    with ((show_N id ++ String c sep) ++ String "D" "ETRICS:" ++ text) by by rewrite str_app_assoc.
  unfold DETRICS_PREFIX. rewrite find_str_first; [done|].
  rewrite no_char_app, Hsep, digits_not; [done|done|]. apply show_N_digits.
Qed.

(** Lldb's one-line form is read back with its thread: ["thread #N"] or
    ["* thread #N"], any separator text without a capital [D], then the
    rendered logpoint. *)
Theorem rust_logpoint_roundtrip out starred id c sep name vs :
  trim out = rust_line starred id c sep (name ++ "=" ++ String.concat delim_str vs) ->
  (Z.of_N id <= i64_max)%Z -> is_ascii_digit c = false -> no_char "D" (String c sep) = true ->
  validate_name name = Ok tt -> vs <> [] -> Forall (fun v => carriable v = true) vs ->
  parse_logpoint_core RustThread out =
    Some (mkLPR name vs (with_thread (Z.of_N id) (render_logpoint name vs))).
Proof.
  intros Hout Hid Hc Hs Hn Hne Hvs.
  pose proof (rust_extract_line starred id c sep (name ++ "=" ++ String.concat delim_str vs) Hid Hc Hs) as Hx.
  rewrite parse_core_render with (name := name) (vs := vs); rewrite ?Hout; try done;
    change (extract_thread_info RustThread ?x) with (rust_extract RustThread x); by rewrite Hx.
Qed.

Lemma rust_logpoint_roundtrip_witness :
  parse_logpoint_core RustThread ("* thread #2, stop reason = breakpoint DETRICS:total=1" ++ String "010" EmptyString)
  = Some (mkLPR "total" ["1"] (with_thread 2 (render_logpoint "total" ["1"]))).
Proof.
  apply (rust_logpoint_roundtrip _ true 2 "," " stop reason = breakpoint " "total" ["1"]);
    first [discriminate | by repeat constructor | vm_compute; reflexivity | vm_compute; discriminate].
Defined.
