(* ===== verification/OutputParsers.v ===== *)
(** * The language output parsers

    [crates/detrix-dap/src/error_detection.rs], [python.rs], and the
    [parse_output] methods of [go.rs] and [rust.rs]: a line of debugger output
    becomes a value event of the metric it names, an error event, or nothing.

    [serde_json]'s readers are parameters.  [Path::file_name] is the Unix
    one. *)

From Stdlib Require Import Strings.String Strings.Ascii.
From S2P Require Import Prelude RustStr CoreError Location Language Metric Event Logpoint.

Local Open Scope string_scope.
Local Arguments String.append !_ _ / : simpl nomatch.

(** ** Error detection *)

Inductive MatchMode : Type := StartsWith | StartsWithIgnoreCase | Contains.

Record ErrorPattern : Type := mkEP { ep_pattern : string; ep_mode : MatchMode; ep_error_type : string }.

Definition ep_contains (pattern error_type : string) : ErrorPattern := mkEP pattern Contains error_type.
Definition ep_starts_with (pattern error_type : string) : ErrorPattern := mkEP pattern StartsWith error_type.
Definition ep_starts_with_ignore_case (pattern error_type : string) : ErrorPattern :=
  mkEP pattern StartsWithIgnoreCase error_type.

Definition ep_matches (p : ErrorPattern) (output output_lower : string) : bool :=
  match ep_mode p with
  | StartsWith => starts_with (ep_pattern p) output
  | StartsWithIgnoreCase => starts_with (to_lowercase (ep_pattern p)) output_lower
  | Contains => contains (to_lowercase (ep_pattern p)) output_lower
  end.

Fixpoint detect_error_in (output output_lower : string) (patterns : list ErrorPattern) : option (string * string) :=
  match patterns with
  | [] => None
  | p :: ps => if ep_matches p output output_lower then Some (ep_error_type p, output)
               else detect_error_in output output_lower ps
  end.
Definition detect_error (output : string) (patterns : list ErrorPattern) : option (string * string) :=
  detect_error_in output (to_lowercase output) patterns.

Definition PYTHON_ERROR_PATTERNS : list ErrorPattern :=
  [ ep_contains "' is not defined" "NameError"
  ; ep_contains "name '" "NameError"
  ; ep_contains "AttributeError:" "AttributeError"
  ; ep_contains "has no attribute" "AttributeError"
  ; ep_contains "TypeError:" "TypeError"
  ; ep_contains "unsupported operand type" "TypeError"
  ; ep_contains "KeyError:" "KeyError"
  ; ep_contains "IndexError:" "IndexError"
  ; ep_contains "list index out of range" "IndexError"
  ; ep_contains "ValueError:" "ValueError"
  ; ep_contains "invalid literal" "ValueError"
  ; ep_contains "ZeroDivisionError:" "ZeroDivisionError"
  ; ep_contains "division by zero" "ZeroDivisionError"
  ; ep_contains "ImportError:" "ImportError"
  ; ep_contains "ModuleNotFoundError:" "ModuleNotFoundError"
  ; ep_contains "No module named" "ModuleNotFoundError"
  ; ep_contains "FileNotFoundError:" "FileNotFoundError"
  ; ep_contains "PermissionError:" "PermissionError"
  ; ep_contains "IOError:" "IOError"
  ; ep_contains "RuntimeError:" "RuntimeError"
  ; ep_contains "RecursionError:" "RecursionError"
  ; ep_contains "maximum recursion depth" "RecursionError"
  ; ep_contains "MemoryError:" "MemoryError"
  ; ep_contains "AssertionError:" "AssertionError"
  ; ep_contains "StopIteration:" "StopIteration"
  ; ep_contains "SyntaxError:" "SyntaxError"
  ; ep_contains "IndentationError:" "IndentationError" ].

Definition GO_ERROR_PATTERNS : list ErrorPattern :=
  [ ep_starts_with_ignore_case "could not evaluate" "EvalError"
  ; ep_starts_with "Command failed:" "EvalError"
  ; ep_contains "nil pointer dereference" "NilPointerError"
  ; ep_contains "invalid memory address" "NilPointerError"
  ; ep_contains "runtime error: invalid memory" "NilPointerError"
  ; ep_contains "index out of range" "IndexError"
  ; ep_contains "slice bounds out of range" "IndexError"
  ; ep_contains "runtime error: index out of bounds" "IndexError"
  ; ep_contains "interface conversion" "TypeAssertionError"
  ; ep_contains "type assertion failed" "TypeAssertionError"
  ; ep_contains "integer divide by zero" "DivisionByZeroError"
  ; ep_contains "division by zero" "DivisionByZeroError"
  ; ep_contains "runtime error: integer divide by zero" "DivisionByZeroError"
  ; ep_contains "stack overflow" "StackOverflowError"
  ; ep_contains "goroutine stack" "StackOverflowError"
  ; ep_contains "panic:" "PanicError"
  ; ep_starts_with_ignore_case "panic(" "PanicError"
  ; ep_contains "undefined:" "UndefinedError"
  ; ep_contains "not found in scope" "UndefinedError"
  ; ep_contains "send on closed channel" "ChannelError"
  ; ep_contains "close of closed channel" "ChannelError"
  ; ep_contains "receive from closed channel" "ChannelError"
  ; ep_contains "assignment to entry in nil map" "MapError"
  ; ep_contains "fatal error: all goroutines are asleep - deadlock" "DeadlockError" ].

Definition RUST_ERROR_PATTERNS : list ErrorPattern :=
  [ ep_starts_with "error:" "LldbError"
  ; ep_starts_with "expression error:" "ExpressionError"
  ; ep_contains "use of undeclared identifier" "UndefinedError"
  ; ep_contains "is not defined" "UndefinedError"
  ; ep_contains "cannot find" "UndefinedError"
  ; ep_contains "not found in this scope" "UndefinedError"
  ; ep_contains "type mismatch" "TypeError"
  ; ep_contains "mismatched types" "TypeError"
  ; ep_contains "expected type" "TypeError"
  ; ep_contains "null pointer" "NullPointerError"
  ; ep_contains "invalid reference" "NullPointerError"
  ; ep_contains "dangling reference" "NullPointerError"
  ; ep_contains "use after free" "NullPointerError"
  ; ep_contains "index out of bounds" "IndexError"
  ; ep_contains "out of range" "IndexError"
  ; ep_contains "slice index" "IndexError"
  ; ep_contains "division by zero" "DivisionByZeroError"
  ; ep_contains "divide by zero" "DivisionByZeroError"
  ; ep_contains "attempt to divide by zero" "DivisionByZeroError"
  ; ep_contains "overflow" "OverflowError"
  ; ep_contains "arithmetic operation" "OverflowError"
  ; ep_contains "integer overflow" "OverflowError"
  ; ep_contains "called `option::unwrap()` on a `none` value" "PanicError"
  ; ep_contains "called `result::unwrap()` on an `err` value" "PanicError"
  ; ep_contains "panicked at" "PanicError" ].

(** ** Attributing an error to a metric *)

Record Source : Type := mkSource { src_path : option string; src_name : option string; src_reference : option Z }.
Inductive OutputCategory : Type := Console | Stdout | Stderr | Telemetry.
Record OutputEventBody : Type := mkBody {
  ob_category : option OutputCategory;
  ob_output : string;
  ob_source : option Source;
  ob_line : option N;
  ob_column : option N;
  ob_variables_reference : option Z
}.

(** [Path::new(p).file_name()]: the last component, unless it is [..]. *)
Definition path_components (p : string) : list string :=
  List.filter (fun c => negb (str_is_empty c) && negb (String.eqb c ".")) (str_split "/" p).
Definition file_name (p : string) : option string :=
  match list.last (path_components p) with
  | Some c => if String.eqb c ".." then None else Some c
  | None => None
  end.

(** [metrics.get(&key)] *)
Definition get_metric (ms : active_metrics) (key : string) : option Metric :=
  snd <$> List.find (fun km => String.eqb (fst km) key) ms.

Definition location_key (file : string) (line : N) : string := file ++ "#" ++ show_N line.

Definition metric_ids (m : Metric) : option (N * string * string) :=
  id ← m_id m; Some (id, m_name m, m_connection_id m).

Definition metric_by_location (output : OutputEventBody) (ms : active_metrics) : option Metric :=
  match ob_source output, ob_line output with
  | Some source, Some line =>
      match src_path source with
      | Some path => get_metric ms (location_key (default path (file_name path)) line)
      | None => None
      end
  | _, _ => None
  end.

Definition find_metric_for_error (output : OutputEventBody) (ms : active_metrics) : option (N * string * string) :=
  match metric_by_location output ms with
  | Some metric => metric_ids metric
  | None => km ← head ms; metric_ids (snd km)
  end.

Definition parse_error_output_common (now : Z) (output : OutputEventBody) (ms : active_metrics)
    (patterns : list ErrorPattern) : option MetricEvent :=
  '(error_type, error_message) ← detect_error (trim (ob_output output)) patterns;
  '(metric_id, metric_name, connection_id) ← find_metric_for_error output ms;
  Some (event_error now metric_id metric_name connection_id error_type error_message).

(** ** Python's logpoint message *)

Definition stack_frames_of (slice : option StackTraceSlice) : N :=
  match slice with
  | Some s => if st_full s then 100
              else match st_tail s with
                   | Some t => t
                   | None => match st_head s with Some h => h | None => 10 end
                   end
  | None => 10
  end%N.

Definition stack_expr (max_frames : N) : string :=
  "__import__('json').dumps([{'name':f.name,'file':f.filename,'line':f.lineno} for f in __import__('traceback').extract_stack()[-"
  ++ show_N max_frames ++ ":]])".

Definition vars_expr (scope : SnapshotScope) : string :=
  match scope with
  | ScopeLocal => "__import__('json').dumps({'locals': {k:str(v)[:100] for k,v in locals().items() if not k.startswith('_')}})"
  | ScopeGlobal => "__import__('json').dumps({'globals': {k:str(v)[:100] for k,v in globals().items() if not k.startswith('_') and not callable(v)}})"
  | ScopeBoth => "__import__('json').dumps({'locals': {k:str(v)[:100] for k,v in locals().items() if not k.startswith('_')}, 'globals': {k:str(v)[:100] for k,v in globals().items() if not k.startswith('_') and not callable(v)}})"
  end.

(** [SnapshotScope::default()] *)
Definition scope_or_default (s : option SnapshotScope) : SnapshotScope := default ScopeLocal s.

Definition python_build_logpoint_message (m : Metric) : string :=
  build_logpoint_message m
  ++ (if m_capture_stack_trace m then "|ST:" ++ braces (stack_expr (stack_frames_of (m_stack_trace_slice m))) else EmptyString)
  ++ (if m_capture_memory_snapshot m then "|MS:" ++ braces (vars_expr (scope_or_default (m_snapshot_scope m))) else EmptyString).

(** ** The three parsers *)

Section Parsers.
Context {Json : Type} (json_parse : string -> option Json) (json_to_string : Json -> string)
        (json_as_f64 : Json -> option f64) (json_as_str : Json -> option string)
        (json_as_bool : Json -> option bool) (parse_f64 : string -> option f64).
(** [serde_json::from_str::<Vec<RawFrame>>]: (name, file, line) per frame;
    [from_str::<RawSnapshot>]: the locals and the globals, in map order. *)
Context (json_frames : string -> option (list (string * string * N)))
        (json_snapshot : string -> option (list (string * string) * list (string * string))).

Notation create_event := (create_metric_event_from_logpoint json_parse json_to_string json_as_f64 json_as_str json_as_bool parse_f64).
Notation parse_out := (parse_logpoint_output json_parse json_to_string json_as_f64 json_as_str json_as_bool parse_f64).

Definition parse_stack_trace_json (json_str : string) : option CapturedStackTrace :=
  frames ← json_frames json_str;
  Some (mkTrace (imap (fun idx '(name, file, line) =>
                   mkFrame (wrap 32 (N.of_nat idx)) name (Some file) (Some line) None None) frames)
          (wrap 32 (lenN frames)) false).

Definition parse_memory_snapshot_json (json_str : string) (scope : SnapshotScope) : option MemorySnapshot :=
  '(locals, globals) ← json_snapshot json_str;
  Some (mkSnapshot (map (fun '(name, value) => mkVar name value None (Some "local")) locals)
          (map (fun '(name, value) => mkVar name value None (Some "global")) globals) scope).

Fixpoint apply_sections (scope : SnapshotScope) (sections : list string) (event : MetricEvent) : MetricEvent :=
  match sections with
  | [] => event
  | section :: rest =>
      apply_sections scope rest
        (match strip_prefix "ST:" section with
         | Some st_data => with_stack_trace event (parse_stack_trace_json st_data)
         | None => match strip_prefix "MS:" section with
                   | Some ms_data => with_memory_snapshot event (parse_memory_snapshot_json ms_data scope)
                   | None => event
                   end
         end)
  end.

(** [PythonOutputParser::parse_logpoint_output] *)
Definition python_parse_logpoint_output (now : Z) (text : string) (ms : active_metrics) : option MetricEvent :=
  r ← parse_logpoint_core NoThread text;
  let snapshot_scope := scope_or_default (find_by_name ms (lp_metric_name r) ≫= m_snapshot_scope) in
  event ← create_event now r ms;
  let content := trim_start_matches DETRICS_PREFIX text in
  Some (apply_sections snapshot_scope (List.skipn 1 (str_split "|" content)) event).

Definition python_parse_output (now : Z) (body : OutputEventBody) (ms : active_metrics) : option MetricEvent :=
  let text := trim (ob_output body) in
  if starts_with DETRICS_PREFIX text then python_parse_logpoint_output now text ms
  else parse_error_output_common now body ms PYTHON_ERROR_PATTERNS.

Definition go_parse_output (now : Z) (body : OutputEventBody) (ms : active_metrics) : option MetricEvent :=
  match parse_out GoThread now (ob_output body) ms with
  | Some event => Some event
  | None => parse_error_output_common now body ms GO_ERROR_PATTERNS
  end.

Definition rust_parse_output (now : Z) (body : OutputEventBody) (ms : active_metrics) : option MetricEvent :=
  match parse_out RustThread now (ob_output body) ms with
  | Some event => Some event
  | None => parse_error_output_common now body ms RUST_ERROR_PATTERNS
  end.
End Parsers.

(** ** Theorems *)

(** What [detect_error] reports: the type of the first pattern of the table that matches. *)
Lemma detect_error_in_spec output lower ps ty msg :
  detect_error_in output lower ps = Some (ty, msg) <->
  exists before p after, ps = (before ++ p :: after)%list /\
    Forall (fun q => ep_matches q output lower = false) before /\
    ep_matches p output lower = true /\ ty = ep_error_type p /\ msg = output.
Proof.
  induction ps as [|q ps IH]; cbn [detect_error_in].
  - split; [done|]. by intros ([|] & ? & ? & ? & _).
  - destruct (ep_matches q output lower) eqn:E.
    + split.
      * intros [= <- <-]. exists [], q, ps. repeat split; [constructor|done].
      * intros ([|q' before] & p & after & [= -> ->] & Hb & Hp & -> & ->); [done|].
        inversion Hb. congruence.
    + rewrite IH. split.
      * intros (before & p & after & -> & Hb & Hr). exists (q :: before), p, after. split; [done|].
        split; [by constructor|done].
      * intros ([|q' before] & p & after & [= -> ->] & Hb & Hp & Hr); [congruence|].
        inversion_clear Hb. exists before, p, after. done.
Qed.

(** A key of the form [file#line] is not a metric name. *)
Lemma location_key_not_a_name file line : validate_name (location_key file line) <> Ok tt.
Proof.
  intros H. apply validate_name_cases in H as (_ & _ & Hch & _). unfold location_key in Hch.
  rewrite str_forall_app in Hch. apply andb_true_iff in Hch as [_ Hch]. done.
Qed.

Lemma get_metric_in ms key m : get_metric ms key = Some m -> In (key, m) ms.
Proof.
  unfold get_metric. intros H. destruct (List.find _ ms) as [[k x]|] eqn:E; [|done].
  apply find_some in E as [Hin Hk]. cbn in *. apply String.eqb_eq in Hk as ->. by injection H as ->.
Qed.

(** The location of an error never selects its metric. The adapter keys
    its active metrics by name, the lookup by [file#line], and no valid metric
    name has that form: every error is attributed to the first metric in the
    map's iteration order, wherever it happened. *)
Theorem error_attribution_ignores_location output ms :
  keyed_by_name ms -> Forall (fun km => validate_name (m_name (snd km)) = Ok tt) ms ->
  find_metric_for_error output ms = (km ← head ms; metric_ids (snd km)).
Proof.
  intros [_ Hk] Hv. unfold find_metric_for_error.
  destruct (metric_by_location output ms) as [m|] eqn:E; [|done]. exfalso.
  unfold metric_by_location in E. repeat (case_match; try done).
  apply get_metric_in in E. rewrite List.Forall_forall in Hk, Hv.
  specialize (Hk _ E). specialize (Hv _ E). cbn in Hk, Hv. rewrite <- Hk in Hv.
  by apply location_key_not_a_name in Hv.
Qed.

Definition two_metrics : active_metrics :=
  [("alpha", sample_metric 1 "alpha" "a.py" 3 ["x"]); ("beta", sample_metric 2 "beta" "b.py" 7 ["y"])].

Lemma two_metrics_ok :
  keyed_by_name two_metrics /\ Forall (fun km => validate_name (m_name (snd km)) = Ok tt) two_metrics.
Proof.
  split; [split|].
  - cbn. repeat constructor; rewrite ?list_elem_of_In; cbn; intuition discriminate.
  - repeat constructor.
  - repeat constructor; vm_compute; reflexivity.
Qed.

(** An error at [b.py:7], the location of [beta], is reported against [alpha]. *)
Lemma error_attribution_ignores_location_witness :
  find_metric_for_error
    (mkBody (Some Stderr) "IndexError: list index out of range" (Some (mkSource (Some "/app/b.py") None None)) (Some 7%N) None None)
    two_metrics = Some (1%N, "alpha", "conn").
Proof. rewrite error_attribution_ignores_location; [reflexivity|apply two_metrics_ok..]. Defined.

(** ** Python introspection *)

(** The text debugpy prints for a logpoint with both captures on. *)
Definition python_line (name : string) (vs : list string) (st msn : string) : string :=
  render_logpoint name vs ++ "|ST:" ++ st ++ "|MS:" ++ msn.

(** Two texts that meet different separators first do not share a prefix. *)
Lemma strip_prefix_sep p c q x d y :
  no_char d p = true -> no_char c x = true -> c <> d ->
  strip_prefix (p ++ String c q) (x ++ String d y) = None.
Proof.
  unfold no_char. revert x. induction p as [|a p IH]; intros [|b x] Hp Hx Hcd; cbn in *.
  - by destruct (Ascii.eqb_spec c d).
  - rewrite andb_true_iff, negb_true_iff in Hx. destruct Hx as [Hb _]. by rewrite Ascii.eqb_sym, Hb.
  - rewrite andb_true_iff, negb_true_iff in Hp. destruct Hp as [Ha _]. by rewrite Ha.
  - rewrite andb_true_iff in Hp, Hx. destruct Hp, Hx. destruct (Ascii.eqb a b); [|done]. by apply IH.
Qed.

(** The prefix is removed once: a metric name has no [:], so it cannot occur again. *)
Lemma detrics_trim name rest :
  validate_name name = Ok tt ->
  trim_start_matches DETRICS_PREFIX (DETRICS_PREFIX ++ name ++ String "=" rest) = name ++ String "=" rest.
Proof.
  intros Hn. apply validate_name_cases in Hn as (_ & _ & Hch & _).
  assert (strip_prefix DETRICS_PREFIX (name ++ String "=" rest) = None) as Hno.
  { apply (strip_prefix_sep "DETRICS" ":" EmptyString name "=" rest); [done| |done]. by eapply name_char_not. }
  unfold trim_start_matches.
  change (String.length (DETRICS_PREFIX ++ ?x)) with (S (7 + String.length x)).
  cbn [trim_start_matches_go]. rewrite strip_prefix_app. cbn [Nat.add trim_start_matches_go]. by rewrite Hno.
Qed.

Section PythonTheorems.
Context {Json : Type} (json_parse : string -> option Json) (json_to_string : Json -> string)
        (json_as_f64 : Json -> option f64) (json_as_str : Json -> option string)
        (json_as_bool : Json -> option bool) (parse_f64 : string -> option f64)
        (json_frames : string -> option (list (string * string * N)))
        (json_snapshot : string -> option (list (string * string) * list (string * string))).
Notation python_out := (python_parse_output json_parse json_to_string json_as_f64 json_as_str json_as_bool parse_f64 json_frames json_snapshot).
Notation create_event := (create_metric_event_from_logpoint json_parse json_to_string json_as_f64 json_as_str json_as_bool parse_f64).

Lemma python_line_core name vs st msn :
  trim (python_line name vs st msn) = python_line name vs st msn ->
  validate_name name = Ok tt -> vs <> [] -> Forall (fun v => carriable v = true) vs ->
  parse_logpoint_core NoThread (python_line name vs st msn) =
    Some (mkLPR name vs (without_thread (python_line name vs st msn))) /\
  (no_char "|" st = true -> no_char "|" msn = true ->
   List.skipn 1 (str_split "|" (trim_start_matches DETRICS_PREFIX (python_line name vs st msn)))
   = ["ST:" ++ st; "MS:" ++ msn]).
Proof.
  intros Ht Hn Hne Hvs. pose proof Hn as Hn'. apply validate_name_cases in Hn' as (_ & _ & Hch & _).
  assert (Forall (fun v => no_char "|" v = true) vs /\ Forall (fun v => no_char MULTI_EXPR_DELIMITER v = true) vs) as [Hp Hd]
    by (apply carriable_split; done).
  assert (python_line name vs st msn =
    DETRICS_PREFIX ++ (name ++ String "=" (String.concat delim_str vs)) ++ String "|" ("ST:" ++ st ++ String "|" ("MS:" ++ msn))) as Hline
    by (unfold python_line, render_logpoint; by rewrite !str_app_assoc).
  assert (no_char "|" (name ++ String "=" (String.concat delim_str vs)) = true) as Hmain.
  { rewrite no_char_app, (name_char_not "|" eq_refl) by done. change (no_char "|" (String "=" ?x)) with (no_char "|" x).
    by apply no_char_concat. }
  split.
  - unfold parse_logpoint_core. rewrite Ht. change (extract_thread_info NoThread ?x) with (without_thread x).
    cbn [without_thread ti_cleaned_text]. rewrite Hline at 1. rewrite strip_prefix_app, str_split_app by done.
    cbn [head mbind option_bind]. rewrite split_once_first by (eapply name_char_not; done).
    cbn. by rewrite str_split_concat.
  - intros Hst Hms. rewrite Hline, (str_app_assoc name).
    change (String "=" ?x ++ ?y) with (String "=" (x ++ y)). rewrite detrics_trim by done.
    change (String "=" (?x ++ ?y)) with (String "=" x ++ y). rewrite <- (str_app_assoc name).
    rewrite str_split_app by done. rewrite <- str_app_assoc. rewrite str_split_app by done.
    by rewrite str_split_none.
Qed.

(** A Python logpoint with stack trace and memory snapshot delivers all
    three parts: the values of the plain logpoint, the frames read from the
    [ST] section and the variables read from the [MS] section, with the
    metric's own snapshot scope. *)
Theorem python_introspection_roundtrip now body ms m vs st msn ev :
  trim (ob_output body) = python_line (m_name m) vs st msn ->
  keyed_by_name ms -> In m (map snd ms) -> validate_name (m_name m) = Ok tt ->
  vs <> [] -> Forall (fun v => carriable v = true) vs -> no_char "|" st = true -> no_char "|" msn = true ->
  create_event now (mkLPR (m_name m) vs (without_thread (trim (ob_output body)))) ms = Some ev ->
  python_out now body ms =
    Some (with_memory_snapshot (with_stack_trace ev (parse_stack_trace_json json_frames st))
            (parse_memory_snapshot_json json_snapshot msn (scope_or_default (m_snapshot_scope m)))).
Proof.
  intros Hb Hms Hin Hn Hne Hvs Hst Hmsn Hev. unfold python_parse_output.
  assert (trim (python_line (m_name m) vs st msn) = python_line (m_name m) vs st msn) as Ht
    by (rewrite <- Hb; apply trim_idem).
  destruct (python_line_core _ _ _ _ Ht Hn Hne Hvs) as [Hcore Hsec].
  rewrite Hb in *. replace (starts_with DETRICS_PREFIX _) with true
    by (unfold starts_with, python_line, render_logpoint; by rewrite (str_app_assoc DETRICS_PREFIX), strip_prefix_app).
  unfold python_parse_logpoint_output. rewrite Hcore. cbn [mbind option_bind lp_metric_name].
  rewrite find_by_name_keyed by done. rewrite Hev. cbn [mbind option_bind]. rewrite (Hsec Hst Hmsn).
  reflexivity.
Qed.

Lemma apply_sections_is_error scope sections ev :
  e_is_error (apply_sections json_frames json_snapshot scope sections ev) = e_is_error ev.
Proof.
  revert ev. induction sections as [|x xs IH]; intros ev; [done|]. cbn [apply_sections]. rewrite IH.
  destruct (strip_prefix "ST:" x); [done|]. by destruct (strip_prefix "MS:" x).
Qed.

(** What the Python parser reads from a logpoint line is never an error
    event, even when the value's text looks like one. *)
Theorem python_logpoint_is_not_an_error now body ms ev :
  starts_with DETRICS_PREFIX (trim (ob_output body)) = true -> python_out now body ms = Some ev -> e_is_error ev = false.
Proof.
  intros Hs. unfold python_parse_output. rewrite Hs. unfold python_parse_logpoint_output.
  destruct (parse_logpoint_core _ _) as [r|]; [|done]. cbn [mbind option_bind].
  destruct (create_event now r ms) as [e|] eqn:E; [|done]. cbn [mbind option_bind]. intros [= <-].
  assert (e_is_error e = false) as He.
  { unfold create_metric_event_from_logpoint in E. destruct (find_by_name _ _) as [m|]; [|done].
    cbn in E. destruct (m_id m); [|done]. cbn in E. by injection E as <-. }
  by rewrite apply_sections_is_error.
Qed.
End PythonTheorems.

Definition none1 {A B : Type} : A -> option B := fun _ => None.

Lemma python_introspection_roundtrip_witness :
  exists ev, python_parse_output (Json := unit) none1 (fun _ => EmptyString) none1 none1 none1 none1
    (fun _ => Some [("main", "a.py", 3%N)]) none1 5%Z
    (mkBody None (python_line "alpha" ["1"] "[st]" "{ms}") None None None None) two_metrics = Some ev /\
    e_stack_trace ev = Some (mkTrace [mkFrame 0 "main" (Some "a.py") (Some 3%N) None None] 1 false).
Proof.
  eexists. split.
  - apply (python_introspection_roundtrip (Json := unit) none1 (fun _ => EmptyString) none1 none1 none1 none1
             (fun _ => Some [("main", "a.py", 3%N)]) none1 5%Z
             (mkBody None (python_line "alpha" ["1"] "[st]" "{ms}") None None None None)
             two_metrics (sample_metric 1 "alpha" "a.py" 3 ["x"]) ["1"] "[st]" "{ms}");
      [ vm_compute; reflexivity | apply two_metrics_ok | by left | vm_compute; reflexivity | discriminate
      | by repeat constructor | reflexivity | reflexivity | vm_compute; reflexivity ].
  - reflexivity.
Defined.

Lemma python_logpoint_is_not_an_error_witness :
  exists ev, python_parse_output (Json := unit) none1 (fun _ => EmptyString) none1 none1 none1 none1 none1 none1 5%Z
    (mkBody None "DETRICS:alpha=IndexError: list index out of range" None None None None) two_metrics = Some ev /\
    e_is_error ev = false.
Proof.
  eexists. split.
  - vm_compute. reflexivity.
  - apply (python_logpoint_is_not_an_error (Json := unit) none1 (fun _ => EmptyString) none1 none1 none1 none1 none1 none1 5%Z
      (mkBody None "DETRICS:alpha=IndexError: list index out of range" None None None None) two_metrics); vm_compute; reflexivity.
Defined.

(** A Delve logpoint line of a metric that is no longer active is not
    dropped: its value text goes through error detection, and a value such as
    [index out of range] becomes an error event of an unrelated metric. *)
Theorem go_stale_logpoint_becomes_foreign_error now :
  go_parse_output (Json := unit) none1 (fun _ => EmptyString) none1 none1 none1 none1 now
    (mkBody None (go_line 7 (render_logpoint "gone" ["index out of range"])) None None None None) two_metrics
  = Some (event_error now 1 "alpha" "conn" "IndexError" (go_line 7 (render_logpoint "gone" ["index out of range"]))).
Proof. reflexivity. Qed.
