(* ===== verification/Sql.v ===== *)
(** * Statements, transactions and ordered queries

    What the repositories of [crates/detrix-storage/src/] share of their
    database: a table is a value with the failures to come; a statement is a
    function on it that the next pending failure may refuse; a transaction is
    rolled back by any error inside it.  What is open about SQLite is the class
    [Engine], and theorems hold for all engines: the order in which it visits rows
    that a query leaves unordered, and the number of variables a statement may
    have (SQLITE_MAX_VARIABLE_NUMBER, 999 or, since 3.32, 32766 by default).  Also [serialize_optional] and [deserialize_optional]
    of [json_helpers.rs]. *)

From Stdlib Require Import Strings.String Sorting.Sorted.
From stdpp Require Import gmap.
From S2P Require Import Prelude CoreError.

Local Open Scope string_scope.
Local Open Scope Z_scope.
Local Open Scope list_scope.

Record Db (T : Type) : Type := mkDb { db_data : T; db_faults : list bool }.
Arguments mkDb {T} _ _.
Arguments db_data {T} _.
Arguments db_faults {T} _.

(** State and errors: an operation that fails leaves the state it reached. *)
Definition Eff (S A : Type) : Type := S -> S * result A Error.
Definition Sql (T A : Type) : Type := Eff (Db T) A.

Definition sql_ret {S A : Type} (a : A) : Eff S A := fun s => (s, Ok a).
Definition sql_bind {S A B : Type} (m : Eff S A) (k : A -> Eff S B) : Eff S B := fun s =>
  let '(s, r) := m s in match r with Ok a => k a s | Err e => (s, Err e) end.
Definition sql_lift {S A : Type} (r : result A Error) : Eff S A := fun s => (s, r).

Declare Scope sql_scope.
Delimit Scope sql_scope with sql.
Notation "'let*' x := m 'in' k" := (sql_bind m (fun x => k))
  (at level 200, x pattern, m at level 100, k at level 200, right associativity) : sql_scope.

(** [execute] and the [fetch] methods: the first pending failure decides. *)
Definition statement {T A : Type} (k : T -> T * A) : Sql T A := fun db =>
  match db_faults db with
  | true :: fs => (mkDb (db_data db) fs, Err (Database "database error"))
  | fs => let '(d, a) := k (db_data db) in (mkDb d (tail fs), Ok a)
  end.

(** A statement that a constraint may refuse. *)
Definition try_statement {T A : Type} (k : T -> result (T * A) Error) : Sql T A :=
  sql_bind (statement (fun d => match k d with Ok (d', a) => (d', Ok a) | Err e => (d, Err e) end)) sql_lift.

(** [begin], the statements of [body], [commit]: dropped unless it commits. *)
Definition transaction {T A : Type} (body : Sql T A) : Sql T A := fun db =>
  match statement (fun d => (d, tt)) db with
  | (db1, Err e) => (db1, Err e)
  | (db1, Ok _) =>
      match body db1 with
      | (db2, Err e) => (mkDb (db_data db) (db_faults db2), Err e)
      | (db2, Ok a) =>
          match statement (fun d => (d, tt)) db2 with
          | (db3, Err e) => (mkDb (db_data db) (db_faults db3), Err e)
          | (db3, Ok _) => (db3, Ok a)
          end
      end
  end.

(** The order of rows that no ORDER BY fixes, and the limit on variables. *)
Class Engine : Type := {
  visit : forall {A : Type}, list A -> list A;
  visit_perm : forall (A : Type) (l : list A), visit l ≡ₚ l;
  max_variables : N;
  max_variables_least : (999 <= max_variables)%N
}.

Lemma modern_limit : (999 <= 32766)%N.
Proof. done. Qed.
Definition insertion_order : Engine :=
  {| visit := fun _ l => l; visit_perm := fun _ l => Permutation_refl l; max_variables := 32766%N; max_variables_least := modern_limit |}.

(** A statement with [n] variables is refused when it is prepared if that is too
    many. *)
Definition with_variables `{Engine} {T A : Type} (n : N) (m : Sql T A) : Sql T A :=
  if (max_variables <? n)%N then sql_lift (Err (Database "too many SQL variables")) else m.

Lemma with_variables_ok `{Engine} {T A : Type} n (m : Sql T A) : (n <= 999)%N -> with_variables n m = m.
Proof. intros Hn. unfold with_variables. pose proof max_variables_least. by rewrite (proj2 (N.ltb_ge _ _)) by lia. Qed.

(** [sort_by_key(Reverse(key))], which is stable, and [ORDER BY key DESC]. *)
Fixpoint insert_desc {A : Type} (key : A -> Z) (x : A) (l : list A) : list A :=
  match l with
  | [] => [x]
  | y :: l' => if key y <=? key x then x :: l else y :: insert_desc key x l'
  end.
Definition order_desc {A : Type} (key : A -> Z) (l : list A) : list A := foldr (insert_desc key) [] l.

(** [LIMIT n]: a negative limit is none. *)
Definition sql_limit {A : Type} (n : Z) (l : list A) : list A := if n <? 0 then l else take (Z.to_nat n) l.

Definition serialize_optional {A : Type} (to_json : A -> result string string) (v : option A) : option string :=
  match v with
  | Some a => match to_json a with Ok s => Some s | Err _ => None end
  | None => None
  end.
Definition deserialize_optional {A : Type} (of_json : string -> result A string) (json : option string) : option A :=
  match json with
  | Some s => match of_json s with Ok a => Some a | Err _ => None end
  | None => None
  end.

(** ** Sorting *)

Section Order.
Context {A : Type} (key : A -> Z).

Definition desc (l : list A) : Prop := StronglySorted (fun x y => key y <= key x) l.

Lemma insert_desc_perm x l : insert_desc key x l ≡ₚ x :: l.
Proof.
  induction l as [|y l IH]; [done|]. cbn. destruct (_ <=? _); [done|]. rewrite IH. apply Permutation_swap.
Qed.

Lemma order_desc_perm l : order_desc key l ≡ₚ l.
Proof. induction l as [|x l IH]; [done|]. cbn. rewrite insert_desc_perm. by f_equiv. Qed.

Lemma insert_desc_sorted x l : desc l -> desc (insert_desc key x l).
Proof.
  intros H. induction H as [|y l H IH Hy]; cbn; [by repeat constructor|].
  destruct (Z.leb_spec (key y) (key x)).
  - constructor; [by constructor|]. constructor; [done|]. eapply List.Forall_impl; [|exact Hy]. cbn. lia.
  - constructor; [done|]. rewrite insert_desc_perm. constructor; [lia|done].
Qed.

Lemma order_desc_sorted l : desc (order_desc key l).
Proof. induction l as [|x l IH]; cbn; [constructor|]. by apply insert_desc_sorted. Qed.

Lemma desc_app_inv l k : desc (l ++ k) -> desc l /\ desc k /\ forall x y, x ∈ l -> y ∈ k -> key y <= key x.
Proof.
  induction l as [|a l IH]; cbn.
  - intros H. split; [constructor|]. split; [done|]. intros x y Hx. by apply not_elem_of_nil in Hx.
  - intros H. inversion H as [|? ? H1 H2]; subst. destruct (IH H1) as (Hl & Hk & Hlk).
    apply Forall_app in H2 as [H2 H3]. rewrite Forall_forall in H3.
    split; [by constructor|]. split; [done|]. intros x y Hx Hy. apply elem_of_cons in Hx as [->|Hx]; [by apply H3, list_elem_of_In|eauto].
Qed.

(** The [n] rows of [all] with the greatest keys, in descending order; all of
    them when [n] is negative. *)
Definition newest (n : Z) (all res : list A) : Prop :=
  exists rest, res ++ rest ≡ₚ all /\ desc res /\ (forall x y, x ∈ res -> y ∈ rest -> key y <= key x) /\
    length res = if n <? 0 then length all else Nat.min (Z.to_nat n) (length all).

Lemma newest_query n l : newest n l (sql_limit n (order_desc key l)).
Proof.
  unfold newest, sql_limit. pose proof (order_desc_sorted l) as Hs. pose proof (order_desc_perm l) as Hp.
  destruct (n <? 0).
  - exists []. rewrite app_nil_r. split; [done|]. split; [done|]. split; [|by apply Permutation_length].
    intros x y _ Hy. by apply not_elem_of_nil in Hy.
  - exists (drop (Z.to_nat n) (order_desc key l)). rewrite take_drop.
    rewrite <- (take_drop (Z.to_nat n) (order_desc key l)) in Hs. apply desc_app_inv in Hs as (H1 & _ & H2).
    split; [done|]. split; [done|]. split; [exact H2|]. rewrite length_take. by rewrite (Permutation_length Hp).
Qed.

Lemma newest_perm n l l' res : l ≡ₚ l' -> newest n l res -> newest n l' res.
Proof. intros E (rest & H1 & H2 & H3 & H4). exists rest. rewrite H4, (Permutation_length E). by rewrite <- E. Qed.

(** In a descending list, what precedes an element includes all that is greater. *)
Lemma desc_rank l k x : desc (l ++ k) -> x ∈ l -> forall big, big ⊆+ l ++ k -> Forall (fun y => key x < key y) big ->
  (length big < length l)%nat.
Proof.
  intros Hs Hx big Hsub Hbig.
  assert (length (filter (fun y => (key x < key y)%Z) (l ++ k)) < length l)%nat as Hlt.
  { pose proof (desc_app_inv _ _ Hs) as (_ & _ & Hlk). rewrite list.filter_app, length_app.
    assert (filter (fun y => key x < key y) k = []) as ->.
    { destruct (filter _ k) as [|z f] eqn:E; [done|]. exfalso.
      assert (z ∈ filter (fun y => key x < key y) k) as [Hz Hk]%list_elem_of_filter by (rewrite E; left).
      specialize (Hlk x z Hx Hk). lia. }
    cbn. rewrite Nat.add_0_r. apply list_elem_of_split in Hx as (l1 & l2 & ->).
    rewrite list.filter_app, filter_cons_False, length_app, length_app by lia. cbn.
    pose proof (length_filter (fun y => key x < key y) l1). pose proof (length_filter (fun y => key x < key y) l2). lia. }
  assert (length big <= length (filter (fun y => (key x < key y)%Z) (l ++ k)))%nat; [|lia].
  assert (big = filter (fun y => key x < key y) big) as ->.
  { clear - Hbig. induction Hbig as [|y b Hy _ IH]; [done|]. by rewrite filter_cons_True, <- IH. }
  apply submseteq_length. destruct (submseteq_Permutation _ _ Hsub) as (r & ->). rewrite list.filter_app. apply submseteq_inserts_r. done.
Qed.

(** The newest of the newest of each part are the newest of the whole: a query
    split into chunks, re-sorted and cut again, is the single query. *)
Lemma newest_merge n alls ress :
  Forall2 (newest n) alls ress -> newest n (List.concat alls) (sql_limit n (order_desc key (List.concat ress))).
Proof.
  intros H.
  assert (exists rests, List.concat ress ++ List.concat rests ≡ₚ List.concat alls /\
            forall y, y ∈ List.concat rests -> exists big, big ⊆+ List.concat ress /\ Forall (fun x => key y <= key x) big /\
              0 <= n /\ length big = Z.to_nat n) as (rests & Hp & Hr).
  { induction H as [|all res alls ress (rest & H1 & _ & H3 & H4) _ (rests & IH1 & IH2)].
    - exists []. split; [done|]. intros y Hy. by apply not_elem_of_nil in Hy.
    - exists (rest :: rests). cbn. rewrite <- IH1, <- H1. split; [by rewrite <- !app_assoc, (Permutation_app_swap_app _ rest)|].
      intros y [Hy|Hy]%elem_of_app.
      + exists res. split; [by apply submseteq_inserts_r|]. split; [apply Forall_forall; intros x Hx; apply H3; [by apply list_elem_of_In|done]|].
        assert (length rest <> 0)%nat by (destruct rest; [by apply not_elem_of_nil in Hy | done]).
        apply Permutation_length in H1. rewrite length_app in H1. destruct (Z.ltb_spec n 0); lia.
      + destruct (IH2 y Hy) as (big & Hb & Hrest). exists big. split; [by apply submseteq_inserts_l|done]. }
  destruct (newest_query n (List.concat ress)) as (rest & H1 & H2 & H3 & H4).
  assert (length (List.concat ress) + length (List.concat rests) = length (List.concat alls))%nat as Hlen
    by (rewrite <- length_app; by apply Permutation_length).
  exists (rest ++ List.concat rests). rewrite app_assoc, H1. split; [done|]. split; [done|]. split.
  - intros x y Hx [Hy|Hy]%elem_of_app; [by apply H3|]. destruct (Hr y Hy) as (big & Hb & Hbig & Hn & Hl).
    destruct (Z.le_gt_cases (key y) (key x)) as [Hle|Hgt]; [done|exfalso].
    unfold sql_limit in Hx. destruct (Z.ltb_spec n 0); [lia|].
    assert (length big < length (take (Z.to_nat n) (order_desc key (List.concat ress))))%nat as Hlt.
    { eapply desc_rank; [rewrite take_drop; apply order_desc_sorted | exact Hx | rewrite take_drop, order_desc_perm; exact Hb|].
      eapply List.Forall_impl; [|exact Hbig]. cbn. lia. }
    rewrite length_take in Hlt. lia.
  - rewrite H4. destruct (Z.ltb_spec n 0) as [Hn|Hn].
    + destruct (List.concat rests) as [|y r] eqn:E; [cbn in *; lia|]. destruct (Hr y) as (? & ? & ? & ? & ?); [left|lia].
    + destruct (List.concat rests) as [|y r] eqn:E; [cbn in *; lia|]. destruct (Hr y) as (big & Hb & _ & _ & Hl); [left|].
      apply submseteq_length in Hb. lia.
Qed.

End Order.

(** ** Databases *)

(** A statement either is refused and changes nothing, or runs. *)
Lemma statement_cases {T A : Type} (k : T -> T * A) db :
  let '(db', r) := statement k db in
  (db_data db' = db_data db /\ r = Err (Database "database error")) \/
  (db_data db' = fst (k (db_data db)) /\ r = Ok (snd (k (db_data db)))).
Proof. unfold statement. destruct (db_faults db) as [|[] fs]; [|by left|]; destruct (k _); by right. Qed.

(** Without pending failures it runs. *)
Lemma statement_calm {T A : Type} (k : T -> T * A) d : statement k (mkDb d []) = (mkDb (fst (k d)) [], Ok (snd (k d))).
Proof. unfold statement. cbn. by destruct (k d). Qed.
Lemma try_statement_calm {T A : Type} (k : T -> result (T * A) Error) d :
  try_statement k (mkDb d []) = match k d with Ok (d', a) => (mkDb d' [], Ok a) | Err e => (mkDb d [], Err e) end.
Proof. unfold try_statement, sql_bind. rewrite statement_calm. destruct (k d) as [[d' a]|e]; done. Qed.
Lemma transaction_calm {T A : Type} (body : Sql T A) d d' a : body (mkDb d []) = (mkDb d' [], Ok a) -> transaction body (mkDb d []) = (mkDb d' [], Ok a).
Proof. intros E. unfold transaction. rewrite statement_calm. cbn. by rewrite E, statement_calm. Qed.

Lemma sql_bind_ok {S A B : Type} (m : Eff S A) (k : A -> Eff S B) db db' b :
  sql_bind m k db = (db', Ok b) <-> exists db1 a, m db = (db1, Ok a) /\ k a db1 = (db', Ok b).
Proof. unfold sql_bind. destruct (m db) as [db1 [a|e]]; split; [by eauto | by intros (? & ? & [= <- <-] & ?) | done | by intros (? & ? & ? & ?)]. Qed.

Lemma statement_ok {T A : Type} (k : T -> T * A) db db' a :
  statement k db = (db', Ok a) -> k (db_data db) = (db_data db', a).
Proof. pose proof (statement_cases k db) as Hs. intros E. rewrite E in Hs. destruct Hs as [[_ [=]]|[-> [= ->]]]. by destruct (k _). Qed.

(** What a committed transaction did, and that any other did nothing. *)
Lemma transaction_cases {T A : Type} (body : Sql T A) db :
  let '(db', r) := transaction body db in
  match r with
  | Err _ => db_data db' = db_data db
  | Ok a => exists fs fs', snd (body (mkDb (db_data db) fs)) = Ok a /\ fst (body (mkDb (db_data db) fs)) = mkDb (db_data db') fs'
  end.
Proof.
  unfold transaction. pose proof (statement_cases (fun d : T => (d, tt)) db) as H1. destruct (statement _ db) as [[d1 fs1] r1].
  destruct H1 as [[E ->]|[E ->]]; cbn in E; [done|]. subst d1. destruct (body _) as [[d2 fs2] [a|e]] eqn:Eb; [|done].
  pose proof (statement_cases (fun d : T => (d, tt)) (mkDb d2 fs2)) as H2. destruct (statement _ (mkDb d2 fs2)) as [[d3 fs3] r3].
  destruct H2 as [[E ->]|[E ->]]; cbn in *; [done|]. subst d3. exists fs1, fs2. by rewrite Eb.
Qed.

Lemma try_statement_cases {T A : Type} (k : T -> result (T * A) Error) db :
  let '(db', r) := try_statement k db in
  match r with
  | Ok a => k (db_data db) = Ok (db_data db', a)
  | Err e => db_data db' = db_data db /\ (e = Database "database error" \/ k (db_data db) = Err e)
  end.
Proof.
  unfold try_statement, sql_bind, statement, sql_lift. destruct (db_faults db) as [|[] fs]; [|by auto|]; destruct (k _) as [[d' a]|e]; by auto.
Qed.

(** Invariants of operations, whether they succeed or fail. *)
Definition preserves {S A : Type} (I : S -> Prop) (m : Eff S A) : Prop := forall s, I s -> I (fst (m s)).

Lemma preserves_bind {S A B : Type} (I : S -> Prop) (m : Eff S A) (k : A -> Eff S B) :
  preserves I m -> (forall a, preserves I (k a)) -> preserves I (sql_bind m k).
Proof. intros Hm Hk s Hs. unfold sql_bind. specialize (Hm s Hs). destruct (m s) as [s' [a|e]]; [by apply Hk|done]. Qed.
Lemma preserves_ret {S A : Type} (I : S -> Prop) (a : A) : preserves I (sql_ret a).
Proof. by intros s. Qed.
Lemma preserves_lift {S A : Type} (I : S -> Prop) (r : result A Error) : preserves I (sql_lift r).
Proof. by intros s. Qed.
Lemma preserves_statement {T A : Type} (I : T -> Prop) (k : T -> T * A) :
  (forall d, I d -> I (fst (k d))) -> preserves (fun db => I (db_data db)) (statement k).
Proof. intros Hk db Hi. pose proof (statement_cases k db) as H. destruct (statement k db) as [db' r]. cbn. destruct H as [[-> _]|[-> _]]; auto. Qed.
Lemma preserves_query {T A : Type} (I : T -> Prop) (q : T -> A) : preserves (fun db => I (db_data db)) (statement (fun d => (d, q d))).
Proof. by apply preserves_statement. Qed.
Lemma preserves_try_statement {T A : Type} (I : T -> Prop) (k : T -> result (T * A) Error) :
  (forall d d' a, I d -> k d = Ok (d', a) -> I d') -> preserves (fun db => I (db_data db)) (try_statement k).
Proof.
  intros Hk db Hi. pose proof (try_statement_cases k db) as H. destruct (try_statement k db) as [db' [a|e]]; cbn in *; [eauto|]. by destruct H as [-> _].
Qed.
Lemma preserves_transaction {T A : Type} (I : T -> Prop) (body : Sql T A) :
  preserves (fun db => I (db_data db)) body -> preserves (fun db => I (db_data db)) (transaction body).
Proof.
  intros Hb db Hi. pose proof (transaction_cases body db) as H. destruct (transaction body db) as [db' [a|e]]; cbn in *; [|by rewrite H].
  destruct H as (fs & fs' & _ & H). specialize (Hb (mkDb (db_data db) fs) Hi). cbn in Hb. by rewrite H in Hb.
Qed.

Lemma preserves_and {S A : Type} (I J : S -> Prop) (m : Eff S A) : preserves I m -> preserves J m -> preserves (fun s => I s /\ J s) m.
Proof. intros HI HJ s [H1 H2]. split; auto. Qed.

(** No failure is pending, nor ever will be. *)
Definition calm {T : Type} (db : Db T) : Prop := db_faults db = [].

Lemma calm_statement {T A : Type} (k : T -> T * A) : preserves calm (statement k).
Proof. intros [d fs] Hc. change (fs = []) in Hc. subst fs. by rewrite statement_calm. Qed.
Lemma calm_try_statement {T A : Type} (k : T -> result (T * A) Error) : preserves calm (try_statement k).
Proof. intros [d fs] Hc. change (fs = []) in Hc. subst fs. rewrite try_statement_calm. by destruct (k d) as [[]|]. Qed.
Lemma calm_transaction {T A : Type} (body : Sql T A) : preserves calm body -> preserves calm (transaction body).
Proof.
  intros Hb [d fs] Hc. change (fs = []) in Hc. subst fs. unfold transaction. rewrite statement_calm. cbn. specialize (Hb (mkDb d []) eq_refl).
  destruct (body (mkDb d [])) as [[d2 fs2] [a|e]]; cbn in *; [|done]. unfold calm in Hb. cbn in Hb. subst fs2. by rewrite statement_calm.
Qed.

Create HintDb sql.
#[export] Hint Resolve preserves_bind preserves_ret preserves_lift preserves_query preserves_transaction
  calm_statement calm_try_statement calm_transaction : sql.

Lemma insert_desc_rel {A B : Type} (f : A -> Z) (g : B -> Z) (R : A -> B -> Prop) x x' l l' :
  (forall a b, R a b -> f a = g b) -> R x x' -> Forall2 R l l' -> Forall2 R (insert_desc f x l) (insert_desc g x' l').
Proof.
  intros Hk Hx H. induction H as [|y y' l l' Hy H IH]; cbn; [by repeat constructor|].
  rewrite (Hk _ _ Hx), (Hk _ _ Hy). destruct (_ <=? _); by repeat constructor.
Qed.

(** Sorting commutes with a translation that keeps the keys. *)
Lemma order_desc_rel {A B : Type} (f : A -> Z) (g : B -> Z) (R : A -> B -> Prop) l l' :
  (forall a b, R a b -> f a = g b) -> Forall2 R l l' -> Forall2 R (order_desc f l) (order_desc g l').
Proof. intros Hk H. induction H; cbn; [constructor|]. by apply insert_desc_rel. Qed.

(** ** AUTOINCREMENT *)

Section Append.
Context {A : Type}.

(** Rows inserted one after the other, from the id [next] on. *)
Fixpoint add_rows (rows : list A) (next : Z) (m : gmap Z A) : gmap Z A :=
  match rows with [] => m | r :: rows' => add_rows rows' (next + 1) (<[next := r]> m) end.

Definition below (next : Z) (m : gmap Z A) : Prop := forall id r, m !! id = Some r -> id < next.

Lemma below_fresh next m i : below next m -> (0 <= i) -> m !! (next + i) = None.
Proof. intros Hb Hi. destruct (m !! (next + i)) eqn:E; [apply Hb in E; lia | done]. Qed.

Lemma below_insert next m r : below next m -> below (next + 1) (<[next := r]> m).
Proof.
  intros Hb id x. destruct (decide (id = next)) as [->|Hne]; [lia|]. rewrite lookup_insert_ne by done. intros Hx%Hb. lia.
Qed.

Lemma add_rows_spec rows : forall next m, below next m ->
  below (next + Z.of_nat (length rows)) (add_rows rows next m) /\
  map_to_list (add_rows rows next m) ≡ₚ imap (fun i r => (next + Z.of_nat i, r)) rows ++ map_to_list m.
Proof.
  induction rows as [|row rows IH]; intros next m Hb; cbn [add_rows imap length].
  - rewrite Z.add_0_r. done.
  - destruct (IH _ _ (below_insert next m row Hb)) as [H1 H2]. split; [by replace (next + Z.of_nat (S (length rows))) with (next + 1 + Z.of_nat (length rows)) by lia|].
    rewrite H2, map_to_list_insert by (rewrite <- (Z.add_0_r next); by apply below_fresh).
    rewrite Z.add_0_r, <- Permutation_middle. cbn. f_equiv. f_equiv. apply reflexive_eq, imap_ext. intros i x _. cbn. f_equal. lia.
Qed.

Lemma add_rows_lookup rows next m i : below next m -> (i < length rows)%nat -> add_rows rows next m !! (next + Z.of_nat i) = rows !! i.
Proof.
  intros Hb [r Hr]%lookup_lt_is_Some. rewrite Hr. apply elem_of_map_to_list. destruct (add_rows_spec rows next m Hb) as [_ ->].
  apply elem_of_app. left. apply elem_of_lookup_imap. by exists i, r.
Qed.

Lemma add_rows_keeps rows next m : below next m -> m ⊆ add_rows rows next m.
Proof.
  intros Hb. apply map_subseteq_spec. intros id row Hr. apply elem_of_map_to_list. destruct (add_rows_spec rows next m Hb) as [_ ->].
  apply elem_of_app. right. by apply elem_of_map_to_list.
Qed.

End Append.
