(* ===== verification/EventRepo.v ===== *)
(** * The event repository

    [crates/detrix-storage/src/sqlite/event_repo.rs] and the port it implements
    ([EventRepository] of [crates/detrix-ports/src/repository.rs]): the table
    [metric_events] as a finite map from row ids, with the ids of the table
    [metrics] that its statements join with.  [serde_json] is the class
    [EventJson]; an event is [faithful] when its JSON columns read back.  The
    port is the class [EventRepository], its contract [EventRepositoryLaws]. *)

From Stdlib Require Import Strings.String.
From stdpp Require Import gmap.
From S2P Require Import Prelude CoreError RustStr Metric Event Sql.

Local Open Scope string_scope.
Local Open Scope Z_scope.
Local Open Scope sql_scope.
Local Open Scope list_scope.

Definition SQLITE_MAX_VARIABLES : N := 999.

(** ** JSON columns *)

Class EventJson : Type := {
  values_to_json : list ExpressionValue -> result string string;
  values_of_json : string -> result (list ExpressionValue) string;
  trace_to_json : CapturedStackTrace -> result string string;
  trace_of_json : string -> result CapturedStackTrace string;
  snapshot_to_json : MemorySnapshot -> result string string;
  snapshot_of_json : string -> result MemorySnapshot string;
  event_to_json : MetricEvent -> result string string;
  event_of_json : string -> result MetricEvent string
}.

Section Repo.
Context `{Engine} `{EventJson}.

Record EventRow : Type := mkERow {
  er_metric_id : Z; er_metric_name : string; er_connection_id : string; er_timestamp : Z;
  er_thread_name : option string; er_thread_id : option Z; er_values_json : string;
  er_is_error : bool; er_error_type : option string; er_error_message : option string; er_error_traceback : option string;
  er_request_id : option string; er_session_id : option string;
  er_stack_trace_json : option string; er_memory_snapshot_json : option string
}.

(** The table, the next AUTOINCREMENT id, and the ids of the live metrics. *)
Record EventTable : Type := mkET { et_rows : gmap Z EventRow; et_next : Z; et_metrics : gset Z }.

(** [metric_id.0 as i64] and back. *)
Definition id_column (metric_id : N) : Z := to_signed 64 metric_id.

Definition event_columns (e : MetricEvent) : result EventRow Error :=
  let stack_trace_json := serialize_optional trace_to_json (e_stack_trace e) in
  let memory_snapshot_json := serialize_optional snapshot_to_json (e_memory_snapshot e) in
  let? values_json := map_err Serialization (values_to_json (e_values e)) in
  Ok (mkERow (id_column (e_metric_id e)) (e_metric_name e) (e_connection_id e) (e_timestamp e)
        (e_thread_name e) (e_thread_id e) values_json (e_is_error e) (e_error_type e) (e_error_message e) None
        (e_request_id e) None stack_trace_json memory_snapshot_json).

Definition row_to_event (id : Z) (row : EventRow) : result MetricEvent Error :=
  let? values := map_err (fun e => Database ("Failed to parse values_json for event " ++ show_Z id ++ ": " ++ e)%string)
                   (values_of_json (er_values_json row)) in
  let stack_trace := deserialize_optional trace_of_json (er_stack_trace_json row) in
  let memory_snapshot := deserialize_optional snapshot_of_json (er_memory_snapshot_json row) in
  Ok (mkEvent (Some id) (of_signed 64 (er_metric_id row)) (er_metric_name row) (er_connection_id row) (er_timestamp row)
        (er_thread_name row) (er_thread_id row) values (er_is_error row) (er_error_type row) (er_error_message row)
        (er_request_id row) None stack_trace memory_snapshot).

(** ** Writing *)

Definition live (t : EventTable) (row : EventRow) : bool := bool_decide (er_metric_id row ∈ et_metrics t).

Definition insert_row (t : EventTable) (row : EventRow) : EventTable :=
  mkET (<[et_next t := row]> (et_rows t)) (et_next t + 1) (et_metrics t).

(** [INSERT ... WHERE EXISTS (SELECT 1 FROM metrics WHERE id = ?)]. *)
Definition event_save (e : MetricEvent) : Sql EventTable Z :=
  let* row := sql_lift (event_columns e) in
  statement (fun t => if live t row then (insert_row t row, et_next t) else (t, 0)).

(** One multi-row INSERT joined with [metrics]: the last id and the row count. *)
Definition insert_joined (rows : list EventRow) (t : EventTable) : EventTable * (Z * Z) :=
  let joined := visit (List.filter (live t) rows) in
  let t' := fold_left insert_row joined t in
  (t', (et_next t' - 1, Z.of_nat (length joined))).

Definition COLUMNS_PER_EVENT : N := 15.
Definition CHUNK_SIZE : N := SQLITE_MAX_VARIABLES / COLUMNS_PER_EVENT.

Definition save_chunk (chunk : list MetricEvent) : Sql EventTable (list Z) :=
  let* rows := sql_lift (collect_results event_columns chunk) in
  let* x := statement (insert_joined rows) in
  let '(last_id, rows_affected) := x in
  let first_id := last_id - rows_affected + 1 in
  sql_ret (map (fun i => first_id + Z.of_nat i) (seq 0 (Z.to_nat rows_affected))).

Fixpoint save_chunks (cs : list (list MetricEvent)) : Sql EventTable (list Z) :=
  match cs with
  | [] => sql_ret []
  | chunk :: cs' => let* ids := save_chunk chunk in let* all_ids := save_chunks cs' in sql_ret (ids ++ all_ids)%list
  end.

Definition event_save_batch (events : list MetricEvent) : Sql EventTable (list Z) :=
  match events with
  | [] => sql_ret []
  | _ => transaction (save_chunks (chunks CHUNK_SIZE events))
  end.

(** ** Reading *)

Definition select_newest (p : EventRow -> bool) (limit : Z) (t : EventTable) : list (Z * EventRow) :=
  sql_limit limit (order_desc (fun x => er_timestamp (snd x))
    (visit (List.filter (fun x => p (snd x)) (map_to_list (et_rows t))))).

Definition fetch_events (p : EventRow -> bool) (limit : Z) : Sql EventTable (list MetricEvent) :=
  let* rows := statement (fun t => (t, select_newest p limit t)) in
  sql_lift (collect_results (fun x => row_to_event (fst x) (snd x)) rows).

Definition of_metric (metric_id : N) (row : EventRow) : bool := er_metric_id row =? id_column metric_id.

Definition find_by_metric_id (metric_id : N) (limit : Z) : Sql EventTable (list MetricEvent) :=
  fetch_events (of_metric metric_id) limit.
Definition find_by_metric_id_since (metric_id : N) (since_micros limit : Z) : Sql EventTable (list MetricEvent) :=
  fetch_events (fun r => of_metric metric_id r && (since_micros <=? er_timestamp r)) limit.
Definition find_by_metric_id_and_time_range (metric_id : N) (start_micros end_micros limit : Z) : Sql EventTable (list MetricEvent) :=
  fetch_events (fun r => of_metric metric_id r && (start_micros <=? er_timestamp r) && (er_timestamp r <=? end_micros)) limit.
Definition event_find_recent (limit : Z) : Sql EventTable (list MetricEvent) := fetch_events (fun _ => true) limit.

Definition of_metrics (metric_ids : list N) (row : EventRow) : bool := existsb (fun m => of_metric m row) metric_ids.

Fixpoint fetch_chunks (cs : list (list N)) (limit : Z) : Sql EventTable (list MetricEvent) :=
  match cs with
  | [] => sql_ret []
  | chunk :: cs' =>
      let* rows := fetch_events (of_metrics chunk) limit in
      let* all_rows := fetch_chunks cs' limit in
      sql_ret (rows ++ all_rows)%list
  end.

Definition find_by_metric_ids (metric_ids : list N) (limit : Z) : Sql EventTable (list MetricEvent) :=
  match metric_ids with
  | [] => sql_ret []
  | _ =>
      let* all_rows := fetch_chunks (chunks SQLITE_MAX_VARIABLES metric_ids) limit in
      sql_ret (take (N.to_nat (of_signed 64 limit)) (order_desc e_timestamp all_rows))
  end.

Definition count_rows (p : EventRow -> bool) (t : EventTable) : Z :=
  Z.of_nat (length (List.filter (fun x => p (snd x)) (map_to_list (et_rows t)))).
Definition count_by_metric_id (metric_id : N) : Sql EventTable Z := statement (fun t => (t, count_rows (of_metric metric_id) t)).
Definition event_count_all : Sql EventTable Z := statement (fun t => (t, count_rows (fun _ => true) t)).

Record MetricEventSummary : Type := mkSummary { mes_count : N; mes_last_timestamp_micros : option Z }.

(** [GROUP BY metric_id] over the metrics of a chunk: one row per metric that has events. *)
Definition max_timestamp (rows : list EventRow) : option Z :=
  foldr (fun r acc => Some (match acc with Some m => Z.max (er_timestamp r) m | None => er_timestamp r end)) None rows.
Definition group_rows (chunk : list N) (t : EventTable) : list (Z * MetricEventSummary) :=
  let ids := visit (elements (list_to_set (map (fun x => er_metric_id (snd x))
               (List.filter (fun x => of_metrics chunk (snd x)) (map_to_list (et_rows t)))) : gset Z)) in
  map (fun i => let rows := List.filter (fun r => er_metric_id r =? i) (map snd (map_to_list (et_rows t))) in
                (i, mkSummary (lenN rows) (max_timestamp rows))) ids.

Fixpoint count_chunks (cs : list (list N)) (result : gmap N MetricEventSummary) : Sql EventTable (gmap N MetricEventSummary) :=
  match cs with
  | [] => sql_ret result
  | chunk :: cs' =>
      let* rows := statement (fun t => (t, group_rows chunk t)) in
      count_chunks cs' (fold_left (fun acc x => <[of_signed 64 (fst x) := snd x]> acc) rows result)
  end.
Definition count_by_metric_ids (metric_ids : list N) : Sql EventTable (gmap N MetricEventSummary) :=
  match metric_ids with
  | [] => sql_ret ∅
  | _ => count_chunks (chunks SQLITE_MAX_VARIABLES metric_ids) ∅
  end.

(** ** Cleaning up *)

Definition delete_where (p : Z -> EventRow -> bool) (t : EventTable) : EventTable * N :=
  let kept := filter (fun x => p (fst x) (snd x) = false) (et_rows t) in
  (mkET kept (et_next t) (et_metrics t), N.of_nat (size (et_rows t) - size kept)).

Definition delete_older_than (timestamp_micros : Z) : Sql EventTable N :=
  statement (delete_where (fun _ r => er_timestamp r <? timestamp_micros)).

Definition cleanup_metric_events (metric_id : N) (keep_count : N) : Sql EventTable N :=
  statement (fun t =>
    let kept := map fst (select_newest (of_metric metric_id) (to_signed 64 keep_count) t) in
    delete_where (fun id r => of_metric metric_id r && negb (bool_decide (id ∈ kept))) t).

(** ** What a table holds *)

(** An event as it reads back from the row it is given. *)
Definition stored_event (id : option Z) (e : MetricEvent) : MetricEvent :=
  mkEvent id (e_metric_id e) (e_metric_name e) (e_connection_id e) (e_timestamp e) (e_thread_name e) (e_thread_id e)
    (e_values e) (e_is_error e) (e_error_type e) (e_error_message e) (e_request_id e) None (e_stack_trace e) (e_memory_snapshot e).

(** The JSON of the event's columns reads back, and its metric id is one of 64 bits. *)
Record faithful (e : MetricEvent) : Prop := {
  f_values : exists s, values_to_json (e_values e) = Ok s /\ values_of_json s = Ok (e_values e);
  f_trace : forall x, e_stack_trace e = Some x -> exists s, trace_to_json x = Ok s /\ trace_of_json s = Ok x;
  f_snapshot : forall x, e_memory_snapshot e = Some x -> exists s, snapshot_to_json x = Ok s /\ snapshot_of_json s = Ok x;
  f_metric_id : (e_metric_id e < 2 ^ 64)%N
}.

Definition row_event (x : Z * EventRow) : option MetricEvent :=
  match row_to_event (fst x) (snd x) with Ok e => Some (stored_event None e) | Err _ => None end.
Definition recorded (t : EventTable) : list MetricEvent := omap row_event (map_to_list (et_rows t)).
Definition wanted (t : EventTable) (e : MetricEvent) : bool := bool_decide (id_column (e_metric_id e) ∈ et_metrics t).
Definition fresh (t : EventTable) : Prop := below (et_next t) (et_rows t).

Lemma of_to_signed n : (n < 2 ^ 64)%N -> of_signed 64 (to_signed 64 n) = n.
Proof.
  intros Hn. unfold of_signed, to_signed. destruct (N.ltb_spec n (2 ^ (64 - 1))) as [Hlt|Hge].
  - rewrite Z.mod_small by lia. apply N2Z.id.
  - rewrite <- (Z.mod_unique_pos (Z.of_N n - 2 ^ Z.of_N 64) (2 ^ Z.of_N 64) (-1) (Z.of_N n)) by lia. apply N2Z.id.
Qed.

Lemma optional_roundtrip {A : Type} (to_json : A -> result string string) of_json v :
  (forall x, v = Some x -> exists s, to_json x = Ok s /\ of_json s = Ok x) ->
  deserialize_optional of_json (serialize_optional to_json v) = v.
Proof. destruct v as [x|]; [|done]. intros Hv. destruct (Hv x eq_refl) as (s & E1 & E2). cbn. by rewrite E1; cbn; rewrite E2. Qed.

(** A faithful event survives its columns. *)
Lemma columns_read_back e : faithful e ->
  exists row, event_columns e = Ok row /\ er_metric_id row = id_column (e_metric_id e) /\
              forall id, row_to_event id row = Ok (stored_event (Some id) e).
Proof.
  intros [(s & E1 & E2) Ht Hs Hm]. unfold event_columns. rewrite E1. cbn [map_err res_bind]. eexists. split; [done|]. split; [done|].
  intros id. unfold row_to_event, stored_event, id_column. cbn. rewrite E2. cbn. rewrite of_to_signed by done.
  by rewrite !optional_roundtrip.
Qed.

Lemma event_columns_ok e row : event_columns e = Ok row -> er_metric_id row = id_column (e_metric_id e) /\ er_timestamp row = e_timestamp e.
Proof. unfold event_columns. intros E. res_inv E. by injection E as <-. Qed.

Lemma row_to_event_ok id row e : row_to_event id row = Ok e -> e_timestamp e = er_timestamp row /\ e_id e = Some id.
Proof. unfold row_to_event. intros E. res_inv E. by injection E as <-. Qed.

(** ** Inserting *)

Definition insert_rows (t : EventTable) (rows : list EventRow) : EventTable := fold_left insert_row rows t.

Lemma insert_rows_eq rows : forall t,
  insert_rows t rows = mkET (add_rows rows (et_next t) (et_rows t)) (et_next t + Z.of_nat (length rows)) (et_metrics t).
Proof.
  induction rows as [|r rows IH]; intros [m n ms]; cbn [insert_rows fold_left add_rows length].
  - by rewrite Z.add_0_r.
  - change (fold_left insert_row rows ?t) with (insert_rows t rows). rewrite IH. cbn. f_equal. lia.
Qed.

Lemma insert_rows_spec rows t : fresh t ->
  fresh (insert_rows t rows) /\ et_metrics (insert_rows t rows) = et_metrics t /\
  et_next (insert_rows t rows) = et_next t + Z.of_nat (length rows) /\
  map_to_list (et_rows (insert_rows t rows)) ≡ₚ imap (fun i r => (et_next t + Z.of_nat i, r)) rows ++ map_to_list (et_rows t).
Proof. intros Hf. rewrite insert_rows_eq. destruct (add_rows_spec rows _ _ Hf). done. Qed.

Lemma insert_rows_lookup rows t i : fresh t -> (i < length rows)%nat ->
  et_rows t !! (et_next t + Z.of_nat i) = None /\ et_rows (insert_rows t rows) !! (et_next t + Z.of_nat i) = rows !! i.
Proof. intros Hf Hi. rewrite insert_rows_eq. split; [apply below_fresh; [done|lia] | by apply add_rows_lookup]. Qed.

Lemma insert_rows_keeps rows t : fresh t -> et_rows t ⊆ et_rows (insert_rows t rows).
Proof. intros Hf. rewrite insert_rows_eq. by apply add_rows_keeps. Qed.

Lemma row_event_id i r : row_event (i, r) = row_event (0, r).
Proof. unfold row_event, row_to_event. cbn. by destruct (values_of_json _). Qed.

Lemma recorded_insert_rows rows t : fresh t -> recorded (insert_rows t rows) ≡ₚ omap (fun r => row_event (0, r)) rows ++ recorded t.
Proof.
  intros Hf. unfold recorded. destruct (insert_rows_spec rows t Hf) as (_ & _ & _ & ->). rewrite omap_app. f_equiv.
  apply reflexive_eq. generalize (et_next t). clear. induction rows as [|r rows IH]; intros n; [done|].
  cbn [imap omap list_omap]. rewrite row_event_id, <- (IH (n + 1)). erewrite (imap_ext (_ ∘ S)); [done|].
  intros i x _. cbn. f_equal. lia.
Qed.

(** ** The batch *)

Lemma collect_live t es rows :
  collect_results event_columns es = Ok rows ->
  map er_metric_id (List.filter (live t) rows) = map (fun e => id_column (e_metric_id e)) (List.filter (wanted t) es).
Proof.
  intros E%collect_results_ok. induction E as [|e row es rows He _ IH]; [done|]. cbn.
  apply event_columns_ok in He as [He _]. unfold live at 1, wanted at 1. rewrite He. case_bool_decide; cbn; by rewrite ?He, IH.
Qed.

Lemma faithful_rows t es rows :
  Forall faithful es -> collect_results event_columns es = Ok rows ->
  omap (fun r => row_event (0, r)) (List.filter (live t) rows) = map (stored_event None) (List.filter (wanted t) es).
Proof.
  intros Hf E%collect_results_ok. revert Hf. induction E as [|e row es rows He _ IH]; intros Hf; [done|].
  inversion Hf as [|? ? Hfe Hfs]; subst. cbn. destruct (columns_read_back e Hfe) as (row' & E1 & E2 & E3).
  rewrite E1 in He. injection He as <-. unfold live at 1, wanted at 1. rewrite E2. case_bool_decide; cbn; [|by apply IH].
  unfold row_event at 1. cbn. rewrite E3. cbn. f_equal. by apply IH.
Qed.

Lemma collect_results_app {A B E : Type} (f : A -> result B E) l l' bs bs' :
  collect_results f l = Ok bs -> collect_results f l' = Ok bs' -> collect_results f (l ++ l') = Ok (bs ++ bs').
Proof. rewrite !collect_results_ok. apply Forall2_app. Qed.

Lemma insert_rows_app t l l' : insert_rows t (l ++ l') = insert_rows (insert_rows t l) l'.
Proof. apply fold_left_app. Qed.

Lemma seq_ids n a b : map (fun i => n + Z.of_nat i) (seq 0 a) ++ map (fun i => n + Z.of_nat a + Z.of_nat i) (seq 0 b)
                      = map (fun i => n + Z.of_nat i) (seq 0 (a + b)).
Proof.
  rewrite seq_app, map_app. f_equal. cbn.
  assert (seq a b = map (Nat.add a) (seq 0 b)) as -> by (pose proof (fmap_add_seq a 0 b) as E; rewrite Nat.add_0_r in E; by symmetry).
  rewrite List.map_map. apply List.map_ext. intros i. lia.
Qed.

Lemma save_chunk_spec chunk db db' ids :
  fresh (db_data db) -> save_chunk chunk db = (db', Ok ids) ->
  exists rows joined, collect_results event_columns chunk = Ok rows /\ joined ≡ₚ List.filter (live (db_data db)) rows /\
    db_data db' = insert_rows (db_data db) joined /\ ids = map (fun i => et_next (db_data db) + Z.of_nat i) (seq 0 (length joined)).
Proof.
  intros Hf (db1 & rows & [= <- Er] & Hk)%sql_bind_ok. apply sql_bind_ok in Hk as (db2 & [last n] & Hs & [= <- <-]).
  apply statement_ok in Hs. unfold insert_joined in Hs. injection Hs as Ed El En. fold (insert_rows (db_data db)) in *.
  set (joined := visit (List.filter (live (db_data db)) rows)) in *. exists rows, joined.
  split; [done|]. split; [apply visit_perm|]. split; [done|].
  destruct (insert_rows_spec joined (db_data db) Hf) as (_ & _ & Hn & _). change (fold_left insert_row joined (db_data db)) with (insert_rows (db_data db) joined) in *.
  rewrite <- En, Nat2Z.id. apply List.map_ext. intros i. lia.
Qed.

Lemma live_insert t l : fresh t -> forall row, live (insert_rows t l) row = live t row.
Proof. intros Hf row. unfold live. by destruct (insert_rows_spec l t Hf) as (_ & -> & _). Qed.

Lemma save_chunks_spec cs : forall db db' ids,
  fresh (db_data db) -> save_chunks cs db = (db', Ok ids) ->
  exists rows joined, collect_results event_columns (List.concat cs) = Ok rows /\ joined ≡ₚ List.filter (live (db_data db)) rows /\
    db_data db' = insert_rows (db_data db) joined /\ ids = map (fun i => et_next (db_data db) + Z.of_nat i) (seq 0 (length joined)).
Proof.
  induction cs as [|chunk cs IH]; intros db db' ids Hf.
  - intros [= <- <-]. by exists [], [].
  - intros (db1 & ids1 & H1 & (db2 & ids2 & H2 & [= <- <-])%sql_bind_ok)%sql_bind_ok.
    apply save_chunk_spec in H1 as (rows1 & j1 & E1 & P1 & D1 & ->); [|done].
    destruct (insert_rows_spec j1 (db_data db) Hf) as (Hf1 & _ & Hn1 & _). rewrite <- D1 in Hf1, Hn1.
    apply IH in H2 as (rows2 & j2 & E2 & P2 & D2 & ->); [|done].
    exists (rows1 ++ rows2), (j1 ++ j2). cbn. split; [by apply collect_results_app|]. split.
    + rewrite List.filter_app, P1, P2, D1. f_equiv. apply reflexive_eq, List.filter_ext. by apply live_insert.
    + split; [by rewrite insert_rows_app, <- D1|]. by rewrite Hn1, length_app, seq_ids.
Qed.

(** What a batch did to the table. *)
Lemma save_batch_rows events db : fresh (db_data db) ->
  let '(db', r) := event_save_batch events db in
  match r with
  | Err _ => db_data db' = db_data db
  | Ok ids => exists rows joined, collect_results event_columns events = Ok rows /\ joined ≡ₚ List.filter (live (db_data db)) rows /\
      db_data db' = insert_rows (db_data db) joined /\ ids = map (fun i => et_next (db_data db) + Z.of_nat i) (seq 0 (length joined))
  end.
Proof.
  intros Hf. destruct (event_save_batch events db) as [db' r] eqn:E. unfold event_save_batch in E.
  destruct events as [|e es]; [injection E as <- <-; by exists [], []|].
  pose proof (transaction_cases (save_chunks (chunks CHUNK_SIZE (e :: es))) db) as Ht. rewrite E in Ht. destruct r as [ids|err]; [|done].
  destruct Ht as (fs & fs' & H1 & H2). destruct (save_chunks _ (mkDb _ fs)) as [db2 r2] eqn:Es. cbn in H1, H2. subst r2 db2.
  apply save_chunks_spec in Es as (rows & joined & E1 & P1 & D1 & ->); [|done]. rewrite concat_chunks in E1 by done. by exists rows, joined.
Qed.

Lemma save_rows e db : fresh (db_data db) ->
  let '(db', r) := event_save e db in
  match r with
  | Err _ => db_data db' = db_data db
  | Ok _ => exists row, event_columns e = Ok row /\
      db_data db' = insert_rows (db_data db) (List.filter (live (db_data db)) [row])
  end.
Proof.
  intros Hf. unfold event_save, sql_bind, sql_lift. destruct (event_columns e) as [row|err] eqn:E; [|done].
  match goal with |- context [statement ?k db] => pose proof (statement_cases k db) as Hs; destruct (statement k db) as [db' r] end.
  destruct Hs as [[H1 ->]|[H1 ->]]; [done|]. exists row. split; [done|]. rewrite H1. cbn. by destruct (live (db_data db) row).
Qed.

(** The recorded events after faithful ones were inserted. *)
Lemma recorded_joined t es rows joined :
  fresh t -> Forall faithful es -> collect_results event_columns es = Ok rows -> joined ≡ₚ List.filter (live t) rows ->
  recorded (insert_rows t joined) ≡ₚ map (stored_event None) (List.filter (wanted t) es) ++ recorded t.
Proof.
  intros Hf Hfa E P. rewrite recorded_insert_rows by done. f_equiv. rewrite <- (faithful_rows t es rows Hfa E). by apply omap_Permutation.
Qed.

(** Saving a batch of events is all or nothing.  If it succeeds, every event
    whose metric still exists is recorded once, as the event that was given,
    events of removed metrics are left out without failing the others, earlier
    rows stay, and the ids returned are those of the new rows.  If it fails the
    table is as it was. *)
Theorem save_batch_atomic events db :
  fresh (db_data db) -> Forall faithful events ->
  let '(db', r) := event_save_batch events db in
  match r with
  | Err _ => db_data db' = db_data db
  | Ok ids =>
      recorded (db_data db') ≡ₚ map (stored_event None) (List.filter (wanted (db_data db)) events) ++ recorded (db_data db) /\
      et_rows (db_data db) ⊆ et_rows (db_data db') /\ fresh (db_data db') /\ NoDup ids /\
      length ids = length (List.filter (wanted (db_data db)) events) /\
      Forall (fun id => et_rows (db_data db) !! id = None /\ is_Some (et_rows (db_data db') !! id)) ids
  end.
Proof.
  intros Hf Hfa. pose proof (save_batch_rows events db Hf) as Hb. destruct (event_save_batch events db) as [db' [ids|err]]; [|done].
  destruct Hb as (rows & joined & E1 & P1 & D1 & ->).
  destruct (insert_rows_spec joined (db_data db) Hf) as (Hf1 & _ & _ & _). rewrite <- D1 in Hf1. split; [|split; [|split; [done|split; [|split]]]].
  - rewrite D1. by eapply recorded_joined.
  - rewrite D1. by apply insert_rows_keeps.
  - apply list.NoDup_fmap_2_strong; [intros; lia | apply NoDup_seq].
  - rewrite length_map, length_seq, P1. rewrite <- (length_map er_metric_id), (collect_live _ _ _ E1), length_map. done.
  - apply Forall_forall. intros id (i & <- & Hi)%in_map_iff. apply in_seq in Hi.
    destruct (insert_rows_lookup joined (db_data db) i Hf) as [Hn Hs]; [lia|]. split; [done|]. rewrite D1, Hs. apply lookup_lt_is_Some. lia.
Qed.

(** ** Queries *)

Definition row_key (x : Z * EventRow) : Z := er_timestamp (snd x).
Definition reads (x : Z * EventRow) (e : MetricEvent) : Prop := row_to_event (fst x) (snd x) = Ok e.
Definition readable (t : EventTable) : Prop := forall id row, et_rows t !! id = Some row -> exists e, reads (id, row) e.
Definition matching (p : EventRow -> bool) (t : EventTable) : list (Z * EventRow) :=
  List.filter (fun x => p (snd x)) (map_to_list (et_rows t)).

Lemma matching_elem p t x : x ∈ matching p t <-> et_rows t !! fst x = Some (snd x) /\ p (snd x) = true.
Proof. unfold matching. rewrite list_elem_of_In, filter_In, <- list_elem_of_In. destruct x. by rewrite elem_of_map_to_list. Qed.

Lemma matching_NoDup p t : base.NoDup (matching p t).
Proof. apply NoDup_ListNoDup, List.NoDup_filter, NoDup_ListNoDup, NoDup_map_to_list. Qed.

Lemma select_newest_spec p limit t : newest row_key limit (matching p t) (select_newest p limit t).
Proof. eapply newest_perm; [apply visit_perm|]. apply newest_query. Qed.

Lemma newest_elem {A : Type} (key : A -> Z) n all res x : newest key n all res -> x ∈ res -> x ∈ all.
Proof. intros (rest & <- & _) Hx. apply elem_of_app. by left. Qed.

Lemma fetch_events_ok p limit t : readable t -> exists rows es,
  fetch_events p limit (mkDb t []) = (mkDb t [], Ok es) /\ newest row_key limit (matching p t) rows /\ Forall2 reads rows es.
Proof.
  intros Hr. exists (select_newest p limit t). pose proof (select_newest_spec p limit t) as Hn.
  destruct (collect_total (fun x => row_to_event (fst x) (snd x)) (select_newest p limit t)) as (es & E & Hes).
  { intros x Hx. eapply newest_elem in Hx; [|done]. apply matching_elem in Hx as [Hx _]. destruct (Hr _ _ Hx) as [e He]. by exists e. }
  exists es. split; [|done]. unfold fetch_events, sql_bind, statement, sql_lift. cbn. by rewrite E.
Qed.

Lemma fetch_chunks_ok limit t cs : readable t -> exists rowss es,
  fetch_chunks cs limit (mkDb t []) = (mkDb t [], Ok es) /\
  Forall2 (newest row_key limit) (map (fun c => matching (of_metrics c) t) cs) rowss /\ Forall2 reads (List.concat rowss) es.
Proof.
  intros Hr. induction cs as [|c cs (rowss & es & E & H1 & H2)]; [exists [], []; by repeat constructor|].
  destruct (fetch_events_ok (of_metrics c) limit t Hr) as (rows & es1 & E1 & H3 & H4).
  exists (rows :: rowss), (es1 ++ es). cbn [fetch_chunks map List.concat]. unfold sql_bind at 1. rewrite E1. unfold sql_bind. rewrite E. split; [done|]. split; [by constructor|]. by apply Forall2_app.
Qed.

Lemma of_metrics_elem c row : of_metrics c row = true <-> er_metric_id row ∈ map id_column c.
Proof.
  unfold of_metrics, of_metric. rewrite existsb_exists, list_elem_of_In, in_map_iff. setoid_rewrite Z.eqb_eq. naive_solver.
Qed.

Lemma matching_split c c' t : base.NoDup (map id_column (c ++ c')) ->
  matching (of_metrics (c ++ c')) t ≡ₚ matching (of_metrics c) t ++ matching (of_metrics c') t.
Proof.
  rewrite map_app. intros (_ & Hd & _)%list.NoDup_app. unfold matching. induction (map_to_list (et_rows t)) as [|x l IH]; [done|].
  cbn. assert (of_metrics (c ++ c') (snd x) = of_metrics c (snd x) || of_metrics c' (snd x)) as -> by apply existsb_app.
  destruct (of_metrics c (snd x)) eqn:E1, (of_metrics c' (snd x)) eqn:E2; cbn; rewrite ?IH; [|done|by rewrite Permutation_middle|done].
  exfalso. apply of_metrics_elem in E1, E2. by eapply Hd.
Qed.

Lemma matching_concat t cs : base.NoDup (map id_column (List.concat cs)) ->
  List.concat (map (fun c => matching (of_metrics c) t) cs) ≡ₚ matching (of_metrics (List.concat cs)) t.
Proof.
  induction cs as [|c cs IH]; cbn; intros Hn.
  - unfold matching. induction (map_to_list (et_rows t)); done.
  - rewrite matching_split by done. f_equiv. apply IH. rewrite map_app in Hn. by apply list.NoDup_app in Hn as (_ & _ & Hn).
Qed.

(** A query over many metrics is sent in chunks that fit SQLite's variable
    limit, and the answers are merged, sorted and cut again; the outcome is that
    of one query: the [limit] newest events of all the metrics asked for, newest
    first, whatever order SQLite visits equal timestamps in. *)
Theorem chunked_query_is_one_query metric_ids limit t :
  readable t -> base.NoDup (map id_column metric_ids) -> 0 <= limit < 2 ^ 63 ->
  exists rows es, find_by_metric_ids metric_ids limit (mkDb t []) = (mkDb t [], Ok es) /\
    newest row_key limit (matching (of_metrics metric_ids) t) rows /\ Forall2 reads rows es.
Proof.
  intros Hr Hn Hl. destruct metric_ids as [|m ms].
  { exists [], []. split; [done|]. split; [|constructor]. exists []. unfold matching.
    assert (List.filter (fun x => of_metrics [] (snd x)) (map_to_list (et_rows t)) = []) as ->
      by (induction (map_to_list (et_rows t)); done).
    split; [done|]. split; [constructor|]. split; [|destruct (_ <? _); cbn; lia]. intros x y Hx. by apply not_elem_of_nil in Hx. }
  unfold find_by_metric_ids. set (ids := m :: ms) in *.
  assert (List.concat (chunks SQLITE_MAX_VARIABLES ids) = ids) as Hc by by apply concat_chunks.
  destruct (fetch_chunks_ok limit t (chunks SQLITE_MAX_VARIABLES ids) Hr) as (rowss & es & E & H1 & H2).
  apply newest_merge in H1. rewrite <- Hc in Hn. apply (newest_perm _ _ _ _ _ (matching_concat t _ Hn)) in H1. rewrite Hc in H1.
  eexists _, _. unfold sql_bind. rewrite E. split; [done|]. split; [exact H1|]. unfold sql_limit. destruct (Z.ltb_spec limit 0); [lia|].
  assert (N.to_nat (of_signed 64 limit) = Z.to_nat limit) as -> by (unfold of_signed; rewrite Z.mod_small; lia).
  apply Forall2_take, order_desc_rel; [|done]. intros x e He. symmetry. by apply (row_to_event_ok (fst x)).
Qed.

Lemma delete_where_lookup p t id row :
  et_rows (fst (delete_where p t)) !! id = Some row <-> et_rows t !! id = Some row /\ p id row = false.
Proof. cbn. rewrite map_lookup_filter_Some. done. Qed.

Lemma matching_length_split p t : size (et_rows t) = (length (matching p t) + length (matching (fun r => negb (p r)) t))%nat.
Proof.
  rewrite <- length_map_to_list. unfold matching. induction (map_to_list (et_rows t)) as [|x l IH]; [done|]. cbn.
  destruct (p (snd x)); cbn; lia.
Qed.

(** [cleanup_metric_events] is a ring buffer: of the events of the metric the
    [keep_count] newest stay, the other metrics' events are untouched, and the
    number returned is the number of events deleted. *)
Theorem cleanup_keeps_newest metric_id keep_count t :
  exists t' deleted kept, cleanup_metric_events metric_id keep_count (mkDb t []) = (mkDb t' [], Ok deleted) /\
    newest row_key (to_signed 64 keep_count) (matching (of_metric metric_id) t) kept /\
    matching (of_metric metric_id) t' ≡ₚ kept /\
    matching (fun r => negb (of_metric metric_id r)) t' ≡ₚ matching (fun r => negb (of_metric metric_id r)) t /\
    (N.to_nat deleted + length kept = length (matching (of_metric metric_id) t))%nat.
Proof.
  set (kept := select_newest (of_metric metric_id) (to_signed 64 keep_count) t).
  set (p := fun id r => of_metric metric_id r && negb (bool_decide (id ∈ map fst kept))).
  exists (fst (delete_where p t)), (snd (delete_where p t)), kept.
  pose proof (select_newest_spec (of_metric metric_id) (to_signed 64 keep_count) t) as Hn. fold kept in Hn.
  assert (matching (of_metric metric_id) (fst (delete_where p t)) ≡ₚ kept) as Hk.
  { apply NoDup_Permutation; [apply matching_NoDup| |].
    - destruct Hn as (rest & Hp & _). pose proof (matching_NoDup (of_metric metric_id) t) as Hd. rewrite <- Hp in Hd. by apply list.NoDup_app in Hd as (Hd & _).
    - intros [id row]. rewrite matching_elem, delete_where_lookup. cbn [fst snd]. unfold p. split.
      + intros ((Hr & Hp) & Hm). rewrite Hm in Hp. cbn in Hp. apply negb_false_iff, bool_decide_eq_true in Hp.
        apply list_elem_of_In, in_map_iff in Hp as ([id' row'] & E & Hin). cbn in E. subst id'. apply list_elem_of_In in Hin.
        pose proof (newest_elem _ _ _ _ _ Hn Hin) as [Hr' _]%matching_elem. cbn in Hr'. rewrite Hr in Hr'. by injection Hr' as <-.
      + intros Hin. pose proof (newest_elem _ _ _ _ _ Hn Hin) as [Hr Hm]%matching_elem. cbn in Hr, Hm. rewrite Hm. cbn. split; [|done].
        split; [done|]. apply negb_false_iff, bool_decide_eq_true. apply list_elem_of_In, in_map_iff. exists (id, row). by rewrite <- list_elem_of_In. }
  assert (matching (fun r => negb (of_metric metric_id r)) (fst (delete_where p t)) ≡ₚ matching (fun r => negb (of_metric metric_id r)) t) as Ho.
  { apply NoDup_Permutation; [apply matching_NoDup..|]. intros [id row]. rewrite !matching_elem, delete_where_lookup. cbn. unfold p.
    destruct (of_metric metric_id row); cbn; naive_solver. }
  split; [done|]. split; [exact Hn|]. split; [done|]. split; [done|].
  pose proof (matching_length_split (of_metric metric_id) t) as H1.
  pose proof (matching_length_split (of_metric metric_id) (fst (delete_where p t))) as H2.
  apply Permutation_length in Hk, Ho. rewrite Hk, Ho in H2. destruct Hn as (rest & Hp & _). apply Permutation_length in Hp. rewrite length_app in Hp.
  cbn [delete_where snd fst et_rows] in *. rewrite Nat2N.id, H1, H2. lia.
Qed.

End Repo.

(** ** The port and its contract *)

Class EventRepository (R : Type) : Type := {
  ev_save : MetricEvent -> Eff R Z;
  ev_save_batch : list MetricEvent -> Eff R (list Z)
}.

(** [ev_recorded] is what reads back, [ev_wanted] whether the metric of an event
    still exists; an event of a removed metric is accepted and left out. *)
Class EventRepositoryLaws (R : Type) `{EventRepository R} `{EventJson} : Type := {
  ev_recorded : R -> list MetricEvent;
  ev_wanted : R -> MetricEvent -> bool;
  ev_inv : R -> Prop;
  ev_save_keeps r e : ev_inv r -> let '(r', _) := ev_save e r in
    ev_inv r' /\ (forall e', ev_wanted r' e' = ev_wanted r e') /\ ev_recorded r ⊆+ ev_recorded r';
  ev_save_law r e : ev_inv r -> faithful e -> let '(r', x) := ev_save e r in
    match x with
    | Ok _ => ev_recorded r' ≡ₚ (if ev_wanted r e then [stored_event None e] else []) ++ ev_recorded r
    | Err _ => ev_recorded r' = ev_recorded r
    end;
  ev_save_batch_keeps r es : ev_inv r -> let '(r', _) := ev_save_batch es r in
    ev_inv r' /\ (forall e', ev_wanted r' e' = ev_wanted r e') /\ ev_recorded r ⊆+ ev_recorded r';
  ev_save_batch_law r es : ev_inv r -> Forall faithful es -> let '(r', x) := ev_save_batch es r in
    match x with
    | Ok _ => ev_recorded r' ≡ₚ map (stored_event None) (List.filter (ev_wanted r) es) ++ ev_recorded r
    | Err _ => ev_recorded r' = ev_recorded r
    end
}.

#[export] Instance sqlite_events `{Engine} `{EventJson} : EventRepository (Db EventTable) :=
  {| ev_save := event_save; ev_save_batch := event_save_batch |}.

Lemma inserted_keeps `{Engine} `{EventJson} t rows : fresh t ->
  fresh (insert_rows t rows) /\ (forall e, wanted (insert_rows t rows) e = wanted t e) /\ recorded t ⊆+ recorded (insert_rows t rows).
Proof.
  intros Hf. destruct (insert_rows_spec rows t Hf) as (H1 & H2 & _). split; [done|]. split; [intros e; unfold wanted; by rewrite H2|].
  rewrite recorded_insert_rows by done. by apply submseteq_inserts_l.
Qed.

(** The SQLite implementation keeps the contract. *)
#[export] Instance sqlite_events_laws `{Engine} `{EventJson} : EventRepositoryLaws (Db EventTable).
Proof.
  refine {| ev_recorded := fun db => recorded (db_data db); ev_wanted := fun db => wanted (db_data db); ev_inv := fun db => fresh (db_data db) |}.
  - intros db e Hf. pose proof (save_rows e db Hf) as Hs. cbn [ev_save ev_save_batch sqlite_events]. destruct (event_save e db) as [db' [id|err]]; [|by rewrite Hs].
    destruct Hs as (row & _ & ->). by apply inserted_keeps.
  - intros db e Hf Hfa. pose proof (save_rows e db Hf) as Hs. cbn [ev_save ev_save_batch sqlite_events]. destruct (event_save e db) as [db' [id|err]]; [|by rewrite Hs].
    destruct Hs as (row & E & ->). rewrite (recorded_joined (db_data db) [e] [row]); [|done|by constructor; [|constructor]|cbn; by rewrite E|done].
    cbn. by destruct (wanted (db_data db) e).
  - intros db es Hf. pose proof (save_batch_rows es db Hf) as Hs. cbn [ev_save ev_save_batch sqlite_events]. destruct (event_save_batch es db) as [db' [ids|err]]; [|by rewrite Hs].
    destruct Hs as (rows & joined & _ & _ & -> & _). by apply inserted_keeps.
  - intros db es Hf Hfa. pose proof (save_batch_rows es db Hf) as Hs. cbn [ev_save ev_save_batch sqlite_events]. destruct (event_save_batch es db) as [db' [ids|err]]; [|by rewrite Hs].
    destruct Hs as (rows & joined & E & P & -> & _). by eapply recorded_joined.
Defined.

(** ** Examples *)

Module Sample.
#[export] Existing Instance insertion_order.

(** A JSON good enough for events that carry no values. *)
#[export] Instance json : EventJson := {|
  values_to_json := fun vs => match vs with [] => Ok "[]" | _ => Err "unsupported" end;
  values_of_json := fun s => if String.eqb s "[]" then Ok [] else Err "unsupported";
  trace_to_json := fun _ => Err "unsupported"; trace_of_json := fun _ => Err "unsupported";
  snapshot_to_json := fun _ => Err "unsupported"; snapshot_of_json := fun _ => Err "unsupported";
  event_to_json := fun e => Ok (show_N (e_metric_id e));
  event_of_json := fun s => match digits_val 0 s with Some n => Ok (event_error 0 n "m" "c" "E" "e") | None => Err "not an event" end
|}.

Definition event (ts : Z) (metric_id : N) : MetricEvent := event_error ts metric_id "m" "c" "E" "e".
Definition table : EventTable := mkET ∅ 1 {[1; 2]}.
Definition filled : EventTable := insert_rows table (map (fun ts => mkERow (1 + ts `mod` 2) "m" "c" ts None None "[]" true None None None None None None None) [10; 13; 11; 12]).

Lemma faithful_event ts m : (m < 2 ^ 64)%N -> faithful (event ts m).
Proof. intros Hm. constructor; [by exists "[]" | done | done | done]. Qed.
End Sample.
Import Sample.

Lemma save_batch_atomic_witness :
  Forall faithful [event 5 1; event 6 9; event 7 2] /\
  recorded (db_data (fst (event_save_batch [event 5 1; event 6 9; event 7 2] (mkDb table [])))) ≡ₚ [stored_event None (event 5 1); stored_event None (event 7 2)].
Proof.
  assert (Forall faithful [event 5 1; event 6 9; event 7 2]) as Hf by (repeat (constructor; [by apply faithful_event|]); constructor).
  assert (fresh (db_data (mkDb table []))) as Hr by (intros id row E; cbn in E; by rewrite lookup_empty in E).
  split; [exact Hf|]. exact (proj1 (save_batch_atomic [event 5 1; event 6 9; event 7 2] (mkDb table []) Hr Hf)).
Defined.

Lemma chunked_query_is_one_query_witness :
  exists rows es, find_by_metric_ids [1; 2]%N 3 (mkDb filled []) = (mkDb filled [], Ok es) /\
    newest row_key 3 (matching (of_metrics [1; 2]%N) filled) rows /\ Forall2 reads rows es.
Proof.
  apply chunked_query_is_one_query; [|apply (bool_decide_unpack _); vm_compute; exact I|lia].
  intros id row E. unfold reads, row_to_event. apply elem_of_map_to_list in E. vm_compute in E.
  repeat (apply elem_of_cons in E as [[= -> ->]|E]; [eexists; cbn; reflexivity|]). by apply not_elem_of_nil in E.
Defined.

Example chunked_query_example :
  res_map (map e_timestamp) (snd (find_by_metric_ids [1; 2]%N 3 (mkDb filled []))) = Ok [13; 12; 11].
Proof. vm_compute. reflexivity. Qed.
