(* ===== verification/DeadLetter.v ===== *)
(** * The dead-letter queue and its recovery

    [crates/detrix-ports/src/dlq.rs], the SQLite queue of
    [crates/detrix-storage/src/dlq_storage.rs], and the recovery service of
    [crates/detrix-application/src/services/dlq_recovery_service.rs] above the
    event repository port.  The queue has a database of its own, so either
    database may fail while the other works.  A clock reading is an argument of
    the operation that takes it. *)

From Stdlib Require Import Strings.String.
From stdpp Require Import gmap.
From S2P Require Import Prelude CoreError RustStr Event Sql EventRepo.

Local Open Scope string_scope.
Local Open Scope Z_scope.
Local Open Scope sql_scope.
Local Open Scope list_scope.

(** ** The port *)

Inductive DlqEntryStatus : Type := Pending | Retrying | Failed.
#[export] Instance dlq_status_eq_dec : EqDecision DlqEntryStatus.
Proof. solve_decision. Defined.

Definition dlq_as_str (s : DlqEntryStatus) : string :=
  match s with Pending => "pending" | Retrying => "retrying" | Failed => "failed" end.
Definition dlq_from_str (s : string) : result DlqEntryStatus string :=
  if String.eqb s "pending" then Ok Pending
  else if String.eqb s "retrying" then Ok Retrying
  else if String.eqb s "failed" then Ok Failed
  else Err ("invalid DLQ entry status: '" ++ s ++ "'")%string.

Record DlqEntry : Type := mkEntry {
  de_id : Z; de_event_json : string; de_error_message : string; de_retry_count : N;
  de_status : DlqEntryStatus; de_created_at : Z; de_last_retry_at : option Z
}.

(** ** The table [dead_letter_events] *)

Record DlqRow : Type := mkDR {
  dr_event_json : string; dr_error_message : string; dr_retry_count : Z; dr_status : string;
  dr_created_at : Z; dr_last_retry_at : option Z
}.
Record DlqTable : Type := mkDT { dt_rows : gmap Z DlqRow; dt_next : Z }.

Definition new_row (created_at : Z) (x : string * string) : DlqRow := mkDR (fst x) (snd x) 0 "pending" created_at None.
Definition dlq_insert (t : DlqTable) (r : DlqRow) : DlqTable := mkDT (<[dt_next t := r]> (dt_rows t)) (dt_next t + 1).

Definition dlq_save (created_at : Z) (event_json error_message : string) : Sql DlqTable Z :=
  statement (fun t => (dlq_insert t (new_row created_at (event_json, error_message)), dt_next t)).

Definition DLQ_COLUMNS_PER_EVENT : N := 3.
Definition DLQ_CHUNK_SIZE : N := SQLITE_MAX_VARIABLES / DLQ_COLUMNS_PER_EVENT.

(** One multi-row INSERT; it answers with the last row id. *)
Definition dlq_insert_all (created_at : Z) (chunk : list (string * string)) (t : DlqTable) : DlqTable * Z :=
  let t' := fold_left dlq_insert (map (new_row created_at) chunk) t in (t', dt_next t' - 1).

Fixpoint dlq_save_chunks (created_at : Z) (cs : list (list (string * string))) : Sql DlqTable (list Z) :=
  match cs with
  | [] => sql_ret []
  | chunk :: cs' =>
      let* last_id := statement (dlq_insert_all created_at chunk) in
      let first_id := last_id - (Z.of_nat (length chunk) - 1) in
      let* all_ids := dlq_save_chunks created_at cs' in
      sql_ret (map (fun i => first_id + Z.of_nat i) (seq 0 (length chunk)) ++ all_ids)
  end.

Definition dlq_save_batch (created_at : Z) (events : list (string * string)) : Sql DlqTable (list Z) :=
  match events with
  | [] => sql_ret []
  | _ => transaction (dlq_save_chunks created_at (chunks DLQ_CHUNK_SIZE events))
  end.

Definition dlq_entry (x : Z * DlqRow) : DlqEntry :=
  let '(id, r) := x in
  mkEntry id (dr_event_json r) (dr_error_message r) (of_signed 32 (dr_retry_count r))
    (match dlq_from_str (dr_status r) with Ok s => s | Err _ => Pending end) (dr_created_at r) (dr_last_retry_at r).

(** Updates of the rows whose id is listed. *)
Definition update_ids (ids : list Z) (f : DlqRow -> DlqRow) (t : DlqTable) : DlqTable :=
  mkDT (map_imap (fun id r => Some (if bool_decide (id ∈ ids) then f r else r)) (dt_rows t)) (dt_next t).
Definition set_retrying (now : Z) (r : DlqRow) : DlqRow :=
  mkDR (dr_event_json r) (dr_error_message r) (dr_retry_count r) "retrying" (dr_created_at r) (Some now).
Definition set_incremented (now : Z) (r : DlqRow) : DlqRow :=
  mkDR (dr_event_json r) (dr_error_message r) (dr_retry_count r + 1) "pending" (dr_created_at r) (Some now).
Definition set_failed (r : DlqRow) : DlqRow :=
  mkDR (dr_event_json r) (dr_error_message r) (dr_retry_count r) "failed" (dr_created_at r) (dr_last_retry_at r).

Definition run_update (ids : list Z) (f : DlqRow -> DlqRow) : Sql DlqTable unit := statement (fun t => (update_ids ids f t, tt)).
Definition dlq_mark_retrying (now id : Z) : Sql DlqTable unit := run_update [id] (set_retrying now).
Definition dlq_increment_retry (now id : Z) : Sql DlqTable unit := run_update [id] (set_incremented now).
Definition dlq_mark_failed (id : Z) : Sql DlqTable unit := run_update [id] set_failed.

(** The batch operations bind the time and every id, in one statement. *)
Section Batches.
Context `{Engine}.
Definition dlq_mark_retrying_batch (now : Z) (ids : list Z) : Sql DlqTable unit :=
  match ids with [] => sql_ret tt | _ => with_variables (1 + lenN ids) (run_update ids (set_retrying now)) end.
Definition dlq_increment_retry_batch (now : Z) (ids : list Z) : Sql DlqTable unit :=
  match ids with [] => sql_ret tt | _ => with_variables (1 + lenN ids) (run_update ids (set_incremented now)) end.
Definition dlq_mark_failed_batch (ids : list Z) : Sql DlqTable unit :=
  match ids with [] => sql_ret tt | _ => with_variables (lenN ids) (run_update ids set_failed) end.
End Batches.

Definition delete_ids (ids : list Z) (t : DlqTable) : DlqTable :=
  mkDT (filter (fun x => fst x ∉ ids) (dt_rows t)) (dt_next t).
Definition dlq_delete (id : Z) : Sql DlqTable unit := statement (fun t => (delete_ids [id] t, tt)).
Definition dlq_delete_batch `{Engine} (ids : list Z) : Sql DlqTable unit :=
  match ids with [] => sql_ret tt | _ => with_variables (lenN ids) (statement (fun t => (delete_ids ids t, tt))) end.

Definition dlq_count (p : DlqRow -> bool) (t : DlqTable) : N :=
  lenN (List.filter (fun x => p (snd x)) (map_to_list (dt_rows t))).
Definition dlq_count_by_status (s : DlqEntryStatus) : Sql DlqTable N :=
  statement (fun t => (t, dlq_count (fun r => String.eqb (dr_status r) (dlq_as_str s)) t)).
Definition dlq_count_all : Sql DlqTable N := statement (fun t => (t, dlq_count (fun _ => true) t)).

Definition old_failed (older_than_micros : Z) (r : DlqRow) : bool :=
  String.eqb (dr_status r) "failed" && (dr_created_at r <? older_than_micros).
Definition dlq_delete_old_failed (older_than_micros : Z) : Sql DlqTable N :=
  statement (fun t =>
    (mkDT (filter (fun x => old_failed older_than_micros (snd x) = false) (dt_rows t)) (dt_next t),
     dlq_count (old_failed older_than_micros) t)).

Section Dlq.
Context `{Engine}.

(** [WHERE status = 'pending' ORDER BY created_at ASC LIMIT ?]. *)
Definition select_pending (limit : N) (t : DlqTable) : list (Z * DlqRow) :=
  sql_limit (to_signed 64 limit) (order_desc (fun x => - dr_created_at (snd x))
    (visit (List.filter (fun x => String.eqb (dr_status (snd x)) "pending") (map_to_list (dt_rows t))))).
Definition dlq_find_pending (limit : N) : Sql DlqTable (list DlqEntry) :=
  statement (fun t => (t, map dlq_entry (select_pending limit t))).

(** ** The recovery service *)

Record DlqConfig : Type := mkDlqConfig {
  dc_enabled : bool; dc_retry_interval_ms : N; dc_max_retries : N; dc_batch_size : N
}.
Definition default_dlq_config : DlqConfig := mkDlqConfig true 30000 3 50.

Context {R : Type} `{EventRepository R} `{EventJson}.

Record Recovery : Type := mkRec { rc_dlq : Db DlqTable; rc_events : R }.

Definition on_dlq {A : Type} (m : Sql DlqTable A) : Eff Recovery A := fun s =>
  let '(d, x) := m (rc_dlq s) in (mkRec d (rc_events s), x).
Definition on_events {A : Type} (m : Eff R A) : Eff Recovery A := fun s =>
  let '(r, x) := m (rc_events s) in (mkRec (rc_dlq s) r, x).
Definition when_some {S : Type} (ids : list Z) (m : Eff S unit) : Eff S unit :=
  match ids with [] => sql_ret tt | _ => m end.

Definition retry_entry (entry : DlqEntry) : Eff R unit :=
  let* event := sql_lift (map_err Serialization (event_of_json (de_event_json entry))) in
  let* _ := ev_save event in
  sql_ret tt.

(** Phase 4: the ids recovered, and those to try again. *)
Fixpoint retry_all (entries : list DlqEntry) (r : R) : R * (list Z * list Z) :=
  match entries with
  | [] => (r, ([], []))
  | entry :: rest =>
      let '(r, x) := retry_entry entry r in
      let '(r, (recovered_ids, increment_ids)) := retry_all rest r in
      match x with
      | Ok _ => (r, (de_id entry :: recovered_ids, increment_ids))
      | Err _ => (r, (recovered_ids, de_id entry :: increment_ids))
      end
  end.

Definition exceeded (cfg : DlqConfig) (e : DlqEntry) : bool := (dc_max_retries cfg <=? de_retry_count e)%N.

(** [t1] and [t2] are the clock readings of phases 3 and 6. *)
Definition process_pending_entries (cfg : DlqConfig) (t1 t2 : Z) : Eff Recovery unit :=
  let* pending := on_dlq (dlq_find_pending (dc_batch_size cfg)) in
  match pending with
  | [] => sql_ret tt
  | _ =>
      let exceeded_max_retries := List.filter (exceeded cfg) pending in
      let to_retry := List.filter (fun e => negb (exceeded cfg e)) pending in
      let failed_ids := map de_id exceeded_max_retries in
      let* _ := when_some failed_ids (on_dlq (dlq_mark_failed_batch failed_ids)) in
      let retry_ids := map de_id to_retry in
      let* _ := when_some retry_ids (on_dlq (dlq_mark_retrying_batch t1 retry_ids)) in
      let* outcome := on_events (fun r => let '(r, x) := retry_all to_retry r in (r, Ok x)) in
      let '(recovered_ids, increment_ids) := outcome in
      let* _ := when_some recovered_ids (on_dlq (dlq_delete_batch recovered_ids)) in
      when_some increment_ids (on_dlq (dlq_increment_retry_batch t2 increment_ids))
  end.

Record DlqStats : Type := mkStats { ds_pending : N; ds_retrying : N; ds_failed : N; ds_total : N }.
Definition get_stats : Eff Recovery DlqStats :=
  let* pending := on_dlq (dlq_count_by_status Pending) in
  let* retrying := on_dlq (dlq_count_by_status Retrying) in
  let* failed := on_dlq (dlq_count_by_status Failed) in
  let* total := on_dlq dlq_count_all in
  sql_ret (mkStats pending retrying failed total).

Definition i64_saturating_mul (a b : Z) : Z := Z.max i64_min (Z.min i64_max (a * b)).
Definition cutoff_micros (now : Z) (older_than_hours : N) : Z :=
  now - i64_saturating_mul (i64_saturating_mul (Z.of_N older_than_hours) 3600) 1000000.
Definition cleanup_old_failed (now : Z) (older_than_hours : N) : Eff Recovery N :=
  on_dlq (dlq_delete_old_failed (cutoff_micros now older_than_hours)).

(** [spawn_recovery_task]: one round per tick; an error is logged and the next
    tick tries again. *)
Fixpoint recovery_ticks (cfg : DlqConfig) (ticks : list (Z * Z)) (s : Recovery) : Recovery :=
  match ticks with
  | [] => s
  | (t1, t2) :: ticks' => recovery_ticks cfg ticks' (fst (process_pending_entries cfg t1 t2 s))
  end.

End Dlq.

(** ** Rows *)

Lemma update_ids_lookup ids f t id :
  dt_rows (update_ids ids f t) !! id = (fun r => if bool_decide (id ∈ ids) then f r else r) <$> dt_rows t !! id.
Proof. cbn. rewrite map_lookup_imap. by destruct (dt_rows t !! id). Qed.

Lemma delete_ids_lookup ids t id :
  dt_rows (delete_ids ids t) !! id = if bool_decide (id ∈ ids) then None else dt_rows t !! id.
Proof.
  cbn. case_bool_decide as Hid.
  - apply map_lookup_filter_None. right. intros r _ Hn. by apply Hn.
  - destruct (dt_rows t !! id) as [r|] eqn:E.
    + by apply map_lookup_filter_Some.
    + apply map_lookup_filter_None. by left.
Qed.

(** The events a queue holds, by entry. *)
Definition jsons (t : DlqTable) : gmap Z string := dr_event_json <$> dt_rows t.

Lemma jsons_update ids f t : (forall r, dr_event_json (f r) = dr_event_json r) -> jsons (update_ids ids f t) = jsons t.
Proof.
  intros Hf. apply map_eq. intros id. unfold jsons. rewrite !lookup_fmap, update_ids_lookup.
  destruct (dt_rows t !! id) as [r|]; [|done]. cbn. case_bool_decide; [by rewrite Hf|done].
Qed.

Lemma jsons_delete ids t id : jsons (delete_ids ids t) !! id = if bool_decide (id ∈ ids) then None else jsons t !! id.
Proof. unfold jsons. rewrite !lookup_fmap, delete_ids_lookup. by case_bool_decide. Qed.

(** ** Saving *)

Definition dlq_fresh (t : DlqTable) : Prop := below (dt_next t) (dt_rows t).
Definition dlq_insert_rows (t : DlqTable) (rows : list DlqRow) : DlqTable := fold_left dlq_insert rows t.

Lemma dlq_insert_rows_eq rows : forall t,
  dlq_insert_rows t rows = mkDT (add_rows rows (dt_next t) (dt_rows t)) (dt_next t + Z.of_nat (length rows)).
Proof.
  induction rows as [|r rows IH]; intros [m n]; cbn [dlq_insert_rows fold_left add_rows length].
  - by rewrite Z.add_0_r.
  - change (fold_left dlq_insert rows ?t) with (dlq_insert_rows t rows). rewrite IH. cbn. f_equal. lia.
Qed.

Lemma dlq_save_chunks_spec now cs : forall db db' ids, dlq_save_chunks now cs db = (db', Ok ids) ->
  db_data db' = dlq_insert_rows (db_data db) (map (new_row now) (List.concat cs)) /\
  ids = map (fun i => dt_next (db_data db) + Z.of_nat i) (seq 0 (length (List.concat cs))).
Proof.
  induction cs as [|chunk cs IH]; intros db db' ids; [by intros [= <- <-]|]. cbn [dlq_save_chunks List.concat].
  intros (db1 & last & H1 & (db2 & ids2 & H2 & [= <- <-])%sql_bind_ok)%sql_bind_ok. apply statement_ok in H1. unfold dlq_insert_all in H1.
  change (fold_left dlq_insert ?rows ?t) with (dlq_insert_rows t rows) in H1. injection H1 as Hd Hlast.
  apply IH in H2 as [Hd2 ->]. rewrite <- Hd in Hd2 |- *. split.
  - rewrite Hd2, map_app. unfold dlq_insert_rows. by rewrite fold_left_app.
  - rewrite dlq_insert_rows_eq in *. cbn in Hlast |- *. rewrite length_map in *. rewrite length_app, <- seq_ids. f_equal.
    apply List.map_ext. intros i. lia.
Qed.

(** A batch is queued whole, under fresh ids in its order, or not at all. *)
Lemma dlq_save_batch_spec now events db :
  let '(db', r) := dlq_save_batch now events db in
  match r with
  | Err _ => db_data db' = db_data db
  | Ok ids => db_data db' = dlq_insert_rows (db_data db) (map (new_row now) events) /\
              ids = map (fun i => dt_next (db_data db) + Z.of_nat i) (seq 0 (length events))
  end.
Proof.
  unfold dlq_save_batch. destruct events as [|x xs]; [by destruct db as [[]]|].
  pose proof (transaction_cases (dlq_save_chunks now (chunks DLQ_CHUNK_SIZE (x :: xs))) db) as Ht. destruct (transaction _ db) as [db' [ids|err]]; [|done].
  destruct Ht as (fs & fs' & H1 & H2). destruct (dlq_save_chunks _ _ (mkDb _ fs)) as [db2 r2] eqn:Es. cbn in H1, H2. subst r2 db2.
  apply dlq_save_chunks_spec in Es as [Hd ->]. rewrite concat_chunks in * by done. done.
Qed.

Section Recovering.
Context `{Engine} {R : Type} `{EventRepository R} `{EventJson}.

Notation recovery := (Recovery (R := R)).
Definition queue (s : recovery) : DlqTable := db_data (rc_dlq s).

Lemma on_dlq_statement {A : Type} (I : recovery -> Prop) (k : DlqTable -> DlqTable * A) :
  (forall t r fs fs', I (mkRec (mkDb t fs) r) -> I (mkRec (mkDb (fst (k t)) fs') r)) ->
  (forall t r fs fs', I (mkRec (mkDb t fs) r) -> I (mkRec (mkDb t fs') r)) ->
  preserves I (on_dlq (statement k)).
Proof.
  intros Hk Hid [[t fs] r] Hs. specialize (Hk t r). unfold on_dlq, statement. cbn. destruct fs as [|[] fs]; cbn.
  - specialize (Hk _ [] Hs). by destruct (k t).
  - exact (Hid _ _ _ fs Hs).
  - specialize (Hk _ fs Hs). by destruct (k t).
Qed.

Lemma preserves_variables (I : recovery -> Prop) n (m : Sql DlqTable unit) : preserves I (on_dlq m) -> preserves I (on_dlq (with_variables n m)).
Proof. intros Hm. unfold with_variables. destruct (_ <? n)%N; [|done]. by intros [d r] Hs. Qed.

Lemma preserves_when (I : recovery -> Prop) ids (m : Eff recovery unit) : (ids <> [] -> preserves I m) -> preserves I (when_some ids m).
Proof. intros Hm. destruct ids; [apply preserves_ret | by apply Hm]. Qed.

Lemma select_pending_spec limit t :
  newest (fun x => - dr_created_at (snd x)) (to_signed 64 limit)
    (List.filter (fun x => String.eqb (dr_status (snd x)) "pending") (map_to_list (dt_rows t))) (select_pending limit t).
Proof. eapply newest_perm; [apply visit_perm|]. apply newest_query. Qed.

Lemma select_pending_elem limit t x : x ∈ select_pending limit t -> dt_rows t !! fst x = Some (snd x) /\ dr_status (snd x) = "pending".
Proof.
  intros Hx. eapply newest_elem in Hx; [|apply select_pending_spec]. rewrite list_elem_of_In, filter_In, <- list_elem_of_In in Hx.
  destruct x as [id r]. rewrite elem_of_map_to_list, String.eqb_eq in Hx. done.
Qed.

Lemma select_pending_NoDup limit t : base.NoDup (map fst (select_pending limit t)).
Proof.
  destruct (select_pending_spec limit t) as (rest & Hp & _).
  assert (base.NoDup (map fst (select_pending limit t ++ rest))) as Hd.
  { rewrite Hp. apply list.NoDup_fmap_2_strong; [|apply NoDup_ListNoDup, List.NoDup_filter, NoDup_ListNoDup, NoDup_map_to_list].
    intros [i a] [j b]. rewrite !list_elem_of_In, !filter_In, <- !list_elem_of_In, !elem_of_map_to_list. cbn.
    intros [Ha _] [Hb _] ->. rewrite Ha in Hb. by injection Hb as ->. }
  rewrite map_app in Hd. by apply list.NoDup_app in Hd as (Hd & _).
Qed.

Lemma dlq_entry_id x : de_id (dlq_entry x) = fst x.
Proof. by destruct x. Qed.

Lemma batch_ids limit t (p : DlqEntry -> bool) id :
  id ∈ map de_id (List.filter p (map dlq_entry (select_pending limit t))) -> id ∈ map fst (select_pending limit t).
Proof.
  rewrite !list_elem_of_In, !in_map_iff. intros (e & <- & [Hin Hp]%filter_In). apply in_map_iff in Hin as (x & <- & Hx).
  exists x. by rewrite dlq_entry_id.
Qed.

Lemma retry_all_ids entries : forall r, let '(r', (recovered, increment)) := retry_all entries r in
  recovered ++ increment ≡ₚ map de_id entries.
Proof.
  induction entries as [|e entries IH]; intros r; cbn [retry_all map]; [done|]. destruct (retry_entry e r) as [r1 x]. specialize (IH r1).
  destruct (retry_all entries r1) as [r2 [rec inc]]. destruct x; cbn; [by rewrite IH|]. by rewrite <- Permutation_middle, IH.
Qed.

Definition batch (cfg : DlqConfig) (t : DlqTable) : list DlqEntry := map dlq_entry (select_pending (dc_batch_size cfg) t).
Definition failing (cfg : DlqConfig) (t : DlqTable) : list DlqEntry := List.filter (exceeded cfg) (batch cfg t).
Definition retrying (cfg : DlqConfig) (t : DlqTable) : list DlqEntry := List.filter (fun e => negb (exceeded cfg e)) (batch cfg t).

(** The phases of a round, with every statement of the queue allowed to fail:
    [I] holds until the entries are retried, [J] from then on. *)
Lemma process_rule cfg t1 t2 (s : recovery) (I K : recovery -> Prop) (J : list Z -> list Z -> recovery -> Prop) :
  (forall fs, I (mkRec (mkDb (queue s) fs) (rc_events s))) ->
  (forall e, e ∈ [failing cfg (queue s); retrying cfg (queue s)] ->
     preserves I (on_dlq (run_update (map de_id e) set_failed)) /\ preserves I (on_dlq (run_update (map de_id e) (set_retrying t1)))) ->
  (forall d r, I (mkRec d r) -> let '(r', (recovered, increment)) := retry_all (retrying cfg (queue s)) r in J recovered increment (mkRec d r')) ->
  (forall recovered increment, preserves (J recovered increment) (on_dlq (dlq_delete_batch recovered)) /\
     preserves (J recovered increment) (on_dlq (run_update increment (set_incremented t2)))) ->
  (forall s', I s' -> K s') -> (forall recovered increment s', J recovered increment s' -> K s') ->
  K (fst (process_pending_entries cfg t1 t2 s)).
Proof.
  intros H1' Hup Hre Hpost HIK HJK. unfold process_pending_entries. unfold sql_bind at 1, on_dlq at 1, dlq_find_pending.
  pose proof (statement_cases (fun t => (t, map dlq_entry (select_pending (dc_batch_size cfg) t))) (rc_dlq s)) as Hst.
  destruct (statement _ (rc_dlq s)) as [[q' fs] x]. destruct Hst as [[Hd ->]|[Hd ->]]; cbn in Hd; subst q'; [apply HIK, H1'|].
  cbn [snd]. fold (queue s) (batch cfg (queue s)). destruct (batch cfg (queue s)) as [|e0 b0] eqn:Eb; [apply HIK, H1'|].
  rewrite <- Eb. fold (failing cfg (queue s)) (retrying cfg (queue s)). clear e0 b0 Eb.
  assert (forall n ids f (b : list Z -> Sql DlqTable unit) (P : recovery -> Prop), b ids = match ids with [] => sql_ret tt | _ => with_variables n (run_update ids f) end ->
    preserves P (on_dlq (run_update ids f)) -> preserves P (when_some ids (on_dlq (b ids)))) as Hb.
  { intros n [|i ids] f b P Eb Hp; [apply preserves_ret|]. cbn. rewrite Eb. by apply preserves_variables. }
  destruct (Hup (failing cfg (queue s))) as [Hf _]; [left|]. destruct (Hup (retrying cfg (queue s))) as [_ Hr]; [right; left|].
  apply (Hb _ _ _ dlq_mark_failed_batch I eq_refl) in Hf. apply (Hb _ _ _ (dlq_mark_retrying_batch t1) I eq_refl) in Hr.
  unfold sql_bind at 1. specialize (Hf _ (H1' fs)). destruct (when_some (map de_id (failing cfg (queue s))) _ _) as [s1 [[]|err]]; [|by apply HIK].
  unfold sql_bind at 1. specialize (Hr _ Hf). destruct (when_some (map de_id (retrying cfg (queue s))) _ _) as [[d2 r2] [[]|err]]; [|by apply HIK].
  unfold sql_bind at 1. unfold on_events. cbn [rc_dlq rc_events]. specialize (Hre d2 r2 Hr).
  destruct (retry_all (retrying cfg (queue s)) r2) as [r' [rec inc]]. apply (HJK rec inc). destruct (Hpost rec inc) as [Hdel Hinc].
  apply (preserves_bind (J rec inc) (when_some rec (on_dlq (dlq_delete_batch rec))) (fun _ => when_some inc (on_dlq (dlq_increment_retry_batch t2 inc)))); [| |exact Hre].
  - apply preserves_when. intros _. exact Hdel.
  - intros _. exact (Hb _ _ _ (dlq_increment_retry_batch t2) _ eq_refl Hinc).
Qed.

Lemma preserves_update (P : DlqTable -> R -> Prop) ids f : (forall t r, P t r -> P (update_ids ids f t) r) ->
  preserves (fun s : recovery => P (queue s) (rc_events s)) (on_dlq (run_update ids f)).
Proof. intros Hp. apply on_dlq_statement; [|done]. intros t r fs fs'. apply Hp. Qed.

Lemma preserves_delete (P : DlqTable -> R -> Prop) ids : (forall t r, P t r -> P (delete_ids ids t) r) ->
  preserves (fun s : recovery => P (queue s) (rc_events s)) (on_dlq (dlq_delete_batch ids)).
Proof. intros Hp. destruct ids; [by intros [d r] ?|]. apply preserves_variables, on_dlq_statement; [|done]. intros t r fs fs'. apply Hp. Qed.

(** Whatever fails, a round leaves alone every entry outside its batch. *)
Lemma process_untouched cfg t1 t2 (s : recovery) id :
  id ∉ map fst (select_pending (dc_batch_size cfg) (queue s)) ->
  dt_rows (queue (fst (process_pending_entries cfg t1 t2 s))) !! id = dt_rows (queue s) !! id.
Proof.
  intros Hid. set (P := fun t (_ : R) => dt_rows t !! id = dt_rows (queue s) !! id).
  assert (forall ids f, id ∉ ids -> forall t r, P t r -> P (update_ids ids f t) r) as Hup.
  { intros ids f Hni t r Ht. unfold P. rewrite update_ids_lookup, bool_decide_false by done. rewrite Ht. by destruct (dt_rows (queue s) !! id). }
  assert (forall e, e ∈ [failing cfg (queue s); retrying cfg (queue s)] -> id ∉ map de_id e) as Hni.
  { intros e He Hin. apply elem_of_cons in He as [->|[->|[]%not_elem_of_nil]%elem_of_cons]; by apply batch_ids in Hin. }
  apply (process_rule cfg t1 t2 s (fun s => P (queue s) (rc_events s)) (fun s => P (queue s) (rc_events s))
              (fun rec inc s => P (queue s) (rc_events s) /\ id ∉ rec /\ id ∉ inc)); [done|..|done|naive_solver].
  - intros e He. split; apply preserves_update, Hup; by apply Hni.
  - intros d r Hd. pose proof (retry_all_ids (retrying cfg (queue s)) r) as Hi.
    specialize (Hni (retrying cfg (queue s)) ltac:(right; left)). destruct (retry_all (retrying cfg (queue s)) r) as [r' [rec inc]].
    rewrite <- Hi, elem_of_app in Hni. split; [exact Hd|]. naive_solver.
  - intros rec inc. split.
    + apply (preserves_delete (fun t r => P t r /\ id ∉ rec /\ id ∉ inc)). intros t r (Ht & H3 & H4). split; [|done].
      unfold P. by rewrite delete_ids_lookup, bool_decide_false.
    + apply (preserves_update (fun t r => P t r /\ id ∉ rec /\ id ∉ inc)). intros t r (Ht & H3 & H4). split; [|done]. by apply Hup.
Qed.

(** ** A round without failures of the queue *)

Lemma update_ids_nil f t : update_ids [] f t = t.
Proof.
  destruct t as [rows n]. unfold update_ids. f_equal. apply map_eq. intros id. cbn. rewrite map_lookup_imap. by destruct (rows !! id).
Qed.
Lemma delete_ids_nil t : delete_ids [] t = t.
Proof. destruct t as [rows n]. unfold delete_ids. f_equal. apply map_filter_id. intros i x _. apply not_elem_of_nil. Qed.

(** The batch of a round fits into one statement. *)
Definition batch_fits (cfg : DlqConfig) : Prop := (dc_batch_size cfg < SQLITE_MAX_VARIABLES)%N.

Lemma batch_length cfg t : batch_fits cfg -> (lenN (batch cfg t) < SQLITE_MAX_VARIABLES)%N.
Proof.
  intros Hb. destruct (select_pending_spec (dc_batch_size cfg) t) as (rest & _ & _ & _ & Hlen). unfold batch, lenN. rewrite length_map, Hlen.
  unfold batch_fits, SQLITE_MAX_VARIABLES in *. assert (to_signed 64 (dc_batch_size cfg) = Z.of_N (dc_batch_size cfg)) as ->.
  { unfold to_signed. change (2 ^ (64 - 1))%N with 9223372036854775808%N. by rewrite (proj2 (N.ltb_lt _ _)) by lia. }
  rewrite (proj2 (Z.ltb_ge _ _)) by lia. lia.
Qed.

Lemma process_ok cfg t1 t2 t r : batch_fits cfg ->
  process_pending_entries cfg t1 t2 (mkRec (mkDb t []) r) =
  let '(r', (recovered, increment)) := retry_all (retrying cfg t) r in
  (mkRec (mkDb (update_ids increment (set_incremented t2) (delete_ids recovered
     (update_ids (map de_id (retrying cfg t)) (set_retrying t1) (update_ids (map de_id (failing cfg t)) set_failed t)))) []) r', Ok tt).
Proof.
  intros Hb. pose proof (batch_length cfg t Hb) as Hlen. unfold SQLITE_MAX_VARIABLES in Hlen.
  assert (forall n ids f (b : list Z -> Sql DlqTable unit) t (r : R), b ids = match ids with [] => sql_ret tt | _ => with_variables n (run_update ids f) end -> (n <= 999)%N ->
    when_some ids (on_dlq (b ids)) (mkRec (mkDb t []) r) = (mkRec (mkDb (update_ids ids f t) []) r, Ok tt)) as Hup.
  { intros n [|i ids] f b t0 r0 -> Hn; [by rewrite update_ids_nil|]. by rewrite with_variables_ok. }
  assert (forall ids t (r : R), (lenN ids <= 999)%N -> when_some ids (on_dlq (dlq_delete_batch ids)) (mkRec (mkDb t []) r) = (mkRec (mkDb (delete_ids ids t) []) r, Ok tt)) as Hdel.
  { intros [|i ids] t0 r0 Hn; [by rewrite delete_ids_nil|]. unfold dlq_delete_batch. by rewrite with_variables_ok. }
  assert (forall p, lenN (map de_id (List.filter p (batch cfg t))) <= lenN (batch cfg t))%N as Hfl.
  { intros p. unfold lenN. rewrite length_map. pose proof (filter_length_le p (batch cfg t)). lia. }
  pose proof (Hfl (exceeded cfg)) as Hl1. pose proof (Hfl (fun e => negb (exceeded cfg e))) as Hl2. fold (failing cfg t) in Hl1. fold (retrying cfg t) in Hl2.
  unfold process_pending_entries. unfold sql_bind at 1. unfold on_dlq at 1, dlq_find_pending, statement at 1. cbn [rc_dlq db_faults db_data tail rc_events].
  fold (batch cfg t). destruct (batch cfg t) as [|e0 b0] eqn:Eb.
  { unfold retrying, failing. rewrite Eb. cbn [List.filter map retry_all]. by rewrite !update_ids_nil, delete_ids_nil. }
  rewrite <- Eb in *. fold (failing cfg t) (retrying cfg t).
  unfold sql_bind at 1. rewrite (Hup _ _ set_failed dlq_mark_failed_batch _ _ eq_refl) by lia.
  unfold sql_bind at 1. rewrite (Hup _ _ (set_retrying t1) (dlq_mark_retrying_batch t1) _ _ eq_refl) by lia.
  unfold sql_bind at 1. unfold on_events. cbn [rc_dlq rc_events]. pose proof (retry_all_ids (retrying cfg t) r) as Hids.
  destruct (retry_all (retrying cfg t) r) as [r' [rec inc]]. apply Permutation_length in Hids. rewrite length_app in Hids. unfold lenN in Hl2, Hlen.
  unfold sql_bind. rewrite Hdel by (unfold lenN; lia). by rewrite (Hup _ _ (set_incremented t2) (dlq_increment_retry_batch t2) _ _ eq_refl) by (unfold lenN; lia).
Qed.

Lemma batch_ids_eq cfg t : map de_id (batch cfg t) = map fst (select_pending (dc_batch_size cfg) t).
Proof. unfold batch. rewrite List.map_map. apply List.map_ext, dlq_entry_id. Qed.

Lemma filter_split {A : Type} (p : A -> bool) l : List.filter p l ++ List.filter (fun x => negb (p x)) l ≡ₚ l.
Proof. induction l as [|x l IH]; [done|]. cbn. destruct (p x); cbn; [by rewrite IH|]. by rewrite <- Permutation_middle, IH. Qed.

(** The batch is split without overlap into the entries given up, those
    recovered and those to try again. *)
Lemma round_ids cfg t r : let '(_, (recovered, increment)) := retry_all (retrying cfg t) r in
  base.NoDup (map de_id (failing cfg t) ++ recovered ++ increment) /\
  map de_id (failing cfg t) ++ recovered ++ increment ≡ₚ map fst (select_pending (dc_batch_size cfg) t) /\
  recovered ++ increment ≡ₚ map de_id (retrying cfg t).
Proof.
  pose proof (retry_all_ids (retrying cfg t) r) as Hi. destruct (retry_all (retrying cfg t) r) as [r' [rec inc]].
  assert (map de_id (failing cfg t) ++ rec ++ inc ≡ₚ map fst (select_pending (dc_batch_size cfg) t)) as Hp.
  { rewrite Hi, <- map_app, <- batch_ids_eq. apply Permutation_map, filter_split. }
  split; [rewrite Hp; apply select_pending_NoDup|done].
Qed.

Definition row_after (t1 t2 : Z) (failed recovered increment : list Z) (id : Z) (r : DlqRow) : option DlqRow :=
  if bool_decide (id ∈ failed) then Some (set_failed r)
  else if bool_decide (id ∈ recovered) then None
  else if bool_decide (id ∈ increment) then Some (set_incremented t2 r)
  else Some r.

Lemma round_rows cfg t1 t2 t r id : batch_fits cfg ->
  let '(_, (recovered, increment)) := retry_all (retrying cfg t) r in
  dt_rows (queue (fst (process_pending_entries cfg t1 t2 (mkRec (mkDb t []) r)))) !! id =
  dt_rows t !! id ≫= row_after t1 t2 (map de_id (failing cfg t)) recovered increment id.
Proof.
  intros Hb. rewrite process_ok by done. pose proof (round_ids cfg t r) as Hr. destruct (retry_all (retrying cfg t) r) as [r' [rec inc]].
  destruct Hr as (Hn & _ & Hi). apply list.NoDup_app in Hn as (_ & Hd1 & Hn). apply list.NoDup_app in Hn as (_ & Hd2 & _).
  cbn [fst queue rc_dlq db_data]. rewrite update_ids_lookup, delete_ids_lookup, !update_ids_lookup.
  assert (id ∈ map de_id (retrying cfg t) <-> id ∈ rec \/ id ∈ inc) as Hri by by rewrite <- Hi, elem_of_app.
  destruct (dt_rows t !! id) as [row|]; cbn; [|by destruct (bool_decide (id ∈ rec))]. unfold row_after.
  destruct (bool_decide_reflect (id ∈ map de_id (failing cfg t))) as [Hf|Hf].
  - assert (id ∉ rec) as Hx1 by (intros ?; apply (Hd1 id Hf), elem_of_app; by left).
    assert (id ∉ inc) as Hx2 by (intros ?; apply (Hd1 id Hf), elem_of_app; by right).
    rewrite (bool_decide_false (id ∈ rec)), (bool_decide_false (id ∈ map de_id (retrying cfg t))) by naive_solver. cbn.
    by rewrite bool_decide_false.
  - destruct (bool_decide_reflect (id ∈ rec)) as [Hr|Hr]; [done|]. cbn. destruct (bool_decide_reflect (id ∈ inc)) as [Hc|Hc].
    + by rewrite bool_decide_true by naive_solver.
    + by rewrite bool_decide_false by naive_solver.
Qed.

(** ** The queue drains *)

Definition is_pending (r : DlqRow) : bool := String.eqb (dr_status r) "pending".
Definition counts_ok (t : DlqTable) : Prop := forall id r, dt_rows t !! id = Some r -> 0 <= dr_retry_count r < 2 ^ 32.

(** The attempts a row has left, counting the one that gives it up. *)
Definition weight (cfg : DlqConfig) (r : DlqRow) : nat :=
  if is_pending r then S (N.to_nat (dc_max_retries cfg) - Z.to_nat (dr_retry_count r)) else 0.
Definition weight_at (cfg : DlqConfig) (t : DlqTable) (id : Z) : nat := from_option (weight cfg) 0%nat (dt_rows t !! id).

Lemma batch_member cfg t e : e ∈ batch cfg t ->
  exists r, dt_rows t !! de_id e = Some r /\ is_pending r = true /\ e = dlq_entry (de_id e, r).
Proof.
  unfold batch. rewrite list_elem_of_In, in_map_iff. intros ([id r] & <- & Hx). apply list_elem_of_In, select_pending_elem in Hx as [Hx Hs].
  exists r. rewrite dlq_entry_id. split; [done|]. split; [unfold is_pending; cbn in Hs; by rewrite Hs|done].
Qed.

Lemma retrying_member cfg t id : counts_ok t -> id ∈ map de_id (retrying cfg t) ->
  exists r, dt_rows t !! id = Some r /\ is_pending r = true /\ dr_retry_count r < Z.of_N (dc_max_retries cfg).
Proof.
  intros Hc. rewrite list_elem_of_In, in_map_iff. intros (e & <- & [He Hx]%filter_In). apply list_elem_of_In, batch_member in He as (r & Hr & Hp & E).
  exists r. split; [done|]. split; [done|]. rewrite E in Hx. apply negb_true_iff in Hx. unfold exceeded in Hx. cbn in Hx. apply N.leb_gt in Hx.
  specialize (Hc _ _ Hr). unfold of_signed in Hx. rewrite Z.mod_small in Hx; lia.
Qed.

Lemma failing_member cfg t id : counts_ok t -> id ∈ map de_id (failing cfg t) ->
  exists r, dt_rows t !! id = Some r /\ is_pending r = true /\ Z.of_N (dc_max_retries cfg) <= dr_retry_count r.
Proof.
  intros Hc. rewrite list_elem_of_In, in_map_iff. intros (e & <- & [He Hx]%filter_In). apply list_elem_of_In, batch_member in He as (r & Hr & Hp & E).
  exists r. split; [done|]. split; [done|]. rewrite E in Hx. unfold exceeded in Hx. cbn in Hx. apply N.leb_le in Hx.
  specialize (Hc _ _ Hr). unfold of_signed in Hx. rewrite Z.mod_small in Hx; lia.
Qed.

Definition next_queue (cfg : DlqConfig) (t1 t2 : Z) (t : DlqTable) (r : R) : DlqTable :=
  queue (fst (process_pending_entries cfg t1 t2 (mkRec (mkDb t []) r))).

(** What a round does to one row. *)
Lemma round_row cfg t1 t2 t r id : batch_fits cfg -> counts_ok t ->
  (id ∉ map fst (select_pending (dc_batch_size cfg) t) /\ dt_rows (next_queue cfg t1 t2 t r) !! id = dt_rows t !! id) \/
  (exists row, dt_rows t !! id = Some row /\ is_pending row = true /\
    (dt_rows (next_queue cfg t1 t2 t r) !! id = None \/
     (Z.of_N (dc_max_retries cfg) <= dr_retry_count row /\ dt_rows (next_queue cfg t1 t2 t r) !! id = Some (set_failed row)) \/
     (dr_retry_count row < Z.of_N (dc_max_retries cfg) /\ dt_rows (next_queue cfg t1 t2 t r) !! id = Some (set_incremented t2 row)))).
Proof.
  intros Hb Hc. pose proof (round_rows cfg t1 t2 t r id Hb) as Hr. pose proof (round_ids cfg t r) as Hi. fold (next_queue cfg t1 t2 t r) in Hr.
  destruct (retry_all (retrying cfg t) r) as [r' [rec inc]]. destruct Hi as (_ & Hp & Hri). unfold row_after in Hr.
  destruct (bool_decide_reflect (id ∈ map de_id (failing cfg t))) as [Hf|Hf].
  { right. destruct (failing_member cfg t id Hc Hf) as (row & Hrow & Hpe & Hle). exists row. rewrite Hrow in Hr. cbn in Hr. split; [done|]. split; [done|]. right; left; done. }
  destruct (bool_decide_reflect (id ∈ rec)) as [Hr1|Hr1].
  { right. destruct (retrying_member cfg t id Hc) as (row & Hrow & Hpe & Hlt); [rewrite <- Hri; apply elem_of_app; by left|].
    exists row. rewrite Hrow in Hr. cbn in Hr. split; [done|]. split; [done|]. left; done. }
  destruct (bool_decide_reflect (id ∈ inc)) as [Hr2|Hr2].
  { right. destruct (retrying_member cfg t id Hc) as (row & Hrow & Hpe & Hlt); [rewrite <- Hri; apply elem_of_app; by right|].
    exists row. rewrite Hrow in Hr. cbn in Hr. split; [done|]. split; [done|]. right; right; done. }
  left. rewrite <- Hp, !elem_of_app. split; [naive_solver|]. rewrite Hr. by destruct (dt_rows t !! id).
Qed.

Lemma round_counts cfg t1 t2 t r : batch_fits cfg -> (dc_max_retries cfg < 2 ^ 32)%N -> counts_ok t -> counts_ok (next_queue cfg t1 t2 t r).
Proof.
  intros Hb Hm Hc id row' Hr'. destruct (round_row cfg t1 t2 t r id Hb Hc) as [[_ E]|(row & Hr & _ & [E|[[Hle E]|[Hlt E]]])];
    rewrite E in Hr'; try done; [by apply (Hc id)|..]; injection Hr' as <-; specialize (Hc _ _ Hr); cbn; lia.
Qed.

Lemma round_weight cfg t1 t2 t r id : batch_fits cfg -> counts_ok t ->
  (weight_at cfg (next_queue cfg t1 t2 t r) id <= weight_at cfg t id)%nat /\
  (id ∈ map fst (select_pending (dc_batch_size cfg) t) -> (weight_at cfg (next_queue cfg t1 t2 t r) id < weight_at cfg t id)%nat).
Proof.
  intros Hb Hc. unfold weight_at. destruct (round_row cfg t1 t2 t r id Hb Hc) as [[Hn E]|(row & Hr & Hp & [E|[[Hle E]|[Hlt E]]])].
  - rewrite E. by split.
  - rewrite E, Hr. cbn. unfold weight. rewrite Hp. lia.
  - rewrite E, Hr. cbn. unfold weight. rewrite Hp. cbn. lia.
  - rewrite E, Hr. cbn. unfold weight. rewrite Hp. cbn. specialize (Hc _ _ Hr). lia.
Qed.

Lemma pending_in_batch cfg t id row : (0 < dc_batch_size cfg)%N -> batch_fits cfg -> dt_rows t !! id = Some row -> is_pending row = true ->
  exists i, i ∈ map fst (select_pending (dc_batch_size cfg) t).
Proof.
  intros Hb Hfit Hr Hp. unfold batch_fits, SQLITE_MAX_VARIABLES in Hfit. destruct (select_pending_spec (dc_batch_size cfg) t) as (rest & Hperm & _ & _ & Hlen).
  assert ((id, row) ∈ List.filter (fun x => String.eqb (dr_status (snd x)) "pending") (map_to_list (dt_rows t))) as Hin.
  { rewrite list_elem_of_In, filter_In, <- list_elem_of_In. by rewrite elem_of_map_to_list. }
  destruct (select_pending (dc_batch_size cfg) t) as [|x l]; [|exists (fst x); left]. exfalso.
  destruct (List.filter _ (map_to_list (dt_rows t))) as [|y ys]; [by apply not_elem_of_nil in Hin|].
  cbn in Hlen. assert (to_signed 64 (dc_batch_size cfg) <> 0) by (unfold to_signed; destruct (N.ltb_spec (dc_batch_size cfg) (2 ^ (64 - 1))); lia).
  destruct (Z.ltb_spec (to_signed 64 (dc_batch_size cfg)) 0); lia.
Qed.

Definition measure (cfg : DlqConfig) (ids : list Z) (t : DlqTable) : nat := sum_list_with (weight_at cfg t) ids.

Lemma sum_le {A : Type} (f g : A -> nat) l : (forall a, f a <= g a)%nat -> (sum_list_with f l <= sum_list_with g l)%nat.
Proof. intros Hle. induction l as [|a l IH]; cbn; [done|]. specialize (Hle a). lia. Qed.

Lemma sum_lt {A : Type} (f g : A -> nat) l a : (forall a, f a <= g a)%nat -> a ∈ l -> (f a < g a)%nat ->
  (sum_list_with f l < sum_list_with g l)%nat.
Proof.
  intros Hle Ha Hlt. induction l as [|b l IH]; [by apply not_elem_of_nil in Ha|]. cbn. pose proof (sum_le f g l Hle). specialize (Hle b).
  apply elem_of_cons in Ha as [->|Ha]; [lia|]. specialize (IH Ha). lia.
Qed.

Lemma round_measure cfg t1 t2 t r ids : (0 < dc_batch_size cfg)%N -> batch_fits cfg -> counts_ok t ->
  (forall id, is_Some (dt_rows t !! id) -> id ∈ ids) ->
  (measure cfg ids (next_queue cfg t1 t2 t r) <= pred (measure cfg ids t))%nat.
Proof.
  intros Hb Hfit Hc Hids. unfold measure. destruct (decide (sum_list_with (weight_at cfg t) ids = 0)%nat) as [E|E].
  { rewrite E. cbn. rewrite <- E. apply sum_le. intros id. by apply round_weight. }
  assert (exists id row, dt_rows t !! id = Some row /\ is_pending row = true) as (id & row & Hr & Hp).
  { clear - E. induction ids as [|id ids IH]; [done|]. cbn in E. unfold weight_at at 1 in E.
    destruct (dt_rows t !! id) as [row|] eqn:Hr; [|by apply IH]. cbn in E. unfold weight in E. destruct (is_pending row) eqn:Hp; [by exists id, row | by apply IH]. }
  destruct (pending_in_batch cfg t id row Hb Hfit Hr Hp) as (i & Hi).
  assert (i ∈ ids) as Hin.
  { apply Hids. apply list_elem_of_In, in_map_iff in Hi as (x & <- & Hx). apply list_elem_of_In, select_pending_elem in Hx as [-> _]. by eexists. }
  pose proof (sum_lt (weight_at cfg (next_queue cfg t1 t2 t r)) (weight_at cfg t) ids i (fun a => proj1 (round_weight cfg t1 t2 t r a Hfit Hc)) Hin
                (proj2 (round_weight cfg t1 t2 t r i Hfit Hc) Hi)). lia.
Qed.

Lemma process_state cfg t1 t2 t r : batch_fits cfg -> exists r', fst (process_pending_entries cfg t1 t2 (mkRec (mkDb t []) r)) = mkRec (mkDb (next_queue cfg t1 t2 t r) []) r'.
Proof. intros Hb. unfold next_queue. rewrite process_ok by done. destruct (retry_all (retrying cfg t) r) as [r' [rec inc]]. by exists r'. Qed.

(** What has become of a row that was pending: delivered, still pending, or given
    up after [max_retries] attempts. *)
Definition progressed (cfg : DlqConfig) (row : DlqRow) (o : option DlqRow) : Prop :=
  match o with
  | None => True
  | Some row' => dr_event_json row' = dr_event_json row /\
      (is_pending row' = true \/ (dr_status row' = "failed" /\ Z.of_N (dc_max_retries cfg) <= dr_retry_count row'))
  end.

Lemma round_progress cfg t1 t2 t r id row : batch_fits cfg -> counts_ok t ->
  progressed cfg row (dt_rows t !! id) -> progressed cfg row (dt_rows (next_queue cfg t1 t2 t r) !! id).
Proof.
  intros Hb Hc Hp. destruct (round_row cfg t1 t2 t r id Hb Hc) as [[_ ->]|(row1 & Hr & _ & [->|[[Hle ->]|[Hlt ->]]])]; [done|done|..];
    rewrite Hr in Hp; destruct Hp as [Hj _]; (split; [done|]); [by right | by left].
Qed.

Lemma ticks_drain cfg ids ticks : (dc_max_retries cfg < 2 ^ 32)%N -> (0 < dc_batch_size cfg)%N -> batch_fits cfg -> forall t r, counts_ok t ->
  (forall id, is_Some (dt_rows t !! id) -> id ∈ ids) -> (measure cfg ids t <= length ticks)%nat ->
  let t' := queue (recovery_ticks cfg ticks (mkRec (mkDb t []) r)) in
  measure cfg ids t' = 0%nat /\ (forall id, is_Some (dt_rows t' !! id) -> id ∈ ids) /\
  forall id row, progressed cfg row (dt_rows t !! id) -> progressed cfg row (dt_rows t' !! id).
Proof.
  intros Hm Hb Hfit. induction ticks as [|[t1 t2] ticks IH]; intros t r Hc Hids Hle; cbn [recovery_ticks length] in *.
  - split; [unfold queue; cbn; lia|]. done.
  - destruct (process_state cfg t1 t2 t r Hfit) as [r' ->]. pose proof (round_measure cfg t1 t2 t r ids Hb Hfit Hc Hids).
    destruct (IH (next_queue cfg t1 t2 t r) r') as (H3 & H4 & H5).
    + by apply round_counts.
    + intros id [row' Hr']. apply Hids. destruct (round_row cfg t1 t2 t r id Hfit Hc) as [[_ E]|(row & Hr & _)]; [|by eexists].
      rewrite <- E. by eexists.
    + lia.
    + split; [done|]. split; [done|]. intros id row Hp. by apply H5, round_progress.
Qed.

Lemma measure_zero cfg ids t id row : measure cfg ids t = 0%nat -> id ∈ ids -> dt_rows t !! id = Some row -> is_pending row = false.
Proof.
  unfold measure. intros E Hid Hr. induction ids as [|i ids IH]; [by apply not_elem_of_nil in Hid|]. cbn in E.
  apply elem_of_cons in Hid as [->|Hid]; [|apply IH; [lia|done]]. unfold weight_at in E. rewrite Hr in E. cbn in E. unfold weight in E.
  destruct (is_pending row); [lia|done].
Qed.

Lemma measure_bound cfg t : counts_ok t ->
  (measure cfg (map fst (map_to_list (dt_rows t))) t <= (N.to_nat (dc_max_retries cfg) + 1) * size (dt_rows t))%nat.
Proof.
  intros _. unfold measure. rewrite <- length_map_to_list. induction (map_to_list (dt_rows t)) as [|x l IH]; cbn; [lia|].
  assert (weight_at cfg t (fst x) <= N.to_nat (dc_max_retries cfg) + 1)%nat; [|lia].
  unfold weight_at. destruct (dt_rows t !! fst x) as [row|]; cbn; [|lia]. unfold weight. destruct (is_pending row); lia.
Qed.

(** Enough rounds settle every pending row. *)
Lemma ticks_settle cfg t r ticks :
  (dc_max_retries cfg < 2 ^ 32)%N -> (0 < dc_batch_size cfg)%N -> batch_fits cfg -> counts_ok t ->
  ((N.to_nat (dc_max_retries cfg) + 1) * size (dt_rows t) <= length ticks)%nat ->
  let t' := queue (recovery_ticks cfg ticks (mkRec (mkDb t []) r)) in
  forall id row, dt_rows t !! id = Some row -> is_pending row = true ->
    dt_rows t' !! id = None \/
    exists row', dt_rows t' !! id = Some row' /\ dr_event_json row' = dr_event_json row /\ dr_status row' = "failed" /\
                 Z.of_N (dc_max_retries cfg) <= dr_retry_count row'.
Proof.
  intros Hm Hb Hfit Hc Hl t' id row Hr Hp. pose proof (measure_bound cfg t Hc).
  destruct (ticks_drain cfg (map fst (map_to_list (dt_rows t))) ticks Hm Hb Hfit t r Hc) as (H3 & H4 & H5).
  - intros i [x Hx]. apply list_elem_of_In, in_map_iff. exists (i, x). by rewrite <- list_elem_of_In, elem_of_map_to_list.
  - lia.
  - fold t' in H3, H4, H5. specialize (H5 id row). rewrite Hr in H5. specialize (H5 (conj eq_refl (or_introl Hp))).
    destruct (dt_rows t' !! id) as [row'|] eqn:Hr'; [right|by left]. exists row'. destruct H5 as [Hj Hs].
    rewrite (measure_zero _ _ _ id row' H3) in Hs; [|apply H4; by eexists|done]. naive_solver.
Qed.

(** An entry that is marked as being retried is left alone for ever. *)
Lemma retrying_kept cfg ticks : forall (s : recovery) id row,
  dt_rows (queue s) !! id = Some row -> dr_status row = "retrying" -> dt_rows (queue (recovery_ticks cfg ticks s)) !! id = Some row.
Proof.
  induction ticks as [|[t1 t2] ticks IH]; intros s id row Hr Hs; [done|]. apply IH; [|done]. rewrite process_untouched; [done|].
  rewrite list_elem_of_In, in_map_iff. intros (x & <- & Hx). apply list_elem_of_In, select_pending_elem in Hx as [Hx Hp].
  rewrite Hr in Hx. injection Hx as ->. by rewrite Hs in Hp.
Qed.

End Recovering.

(** ** Nothing is lost *)

Section Conservation.
Context `{Engine} {R : Type} `{ELaws : EventRepositoryLaws R}.
Notation recovery := (Recovery (R := R)).

(** The event an entry holds has reached the event repository; the event of a
    removed metric needs no place there. *)
Definition settled (r : R) (json : string) : Prop :=
  exists e, event_of_json json = Ok e /\ (faithful e -> ev_wanted r e = true -> stored_event None e ∈ ev_recorded r).

(** What later saves keep of a repository. *)
Definition grown (r r' : R) : Prop :=
  ev_inv r' /\ (forall e, ev_wanted r' e = ev_wanted r e) /\ ev_recorded r ⊆+ ev_recorded r'.

Lemma grown_trans r1 r2 r3 : grown r1 r2 -> grown r2 r3 -> grown r1 r3.
Proof. intros (_ & H2 & H3) (H4 & H5 & H6). split; [done|]. split; [intros e; by rewrite H5|]. by transitivity (ev_recorded r2). Qed.

Lemma settled_grown r r' json : settled r json -> grown r r' -> settled r' json.
Proof.
  intros (e & E & Hs) (_ & Hw & Hsub). exists e. split; [done|]. rewrite Hw. intros Hf Hwe.
  eapply elem_of_submseteq; [by apply Hs|done].
Qed.

Lemma retry_entry_law entry r : ev_inv r ->
  let '(r', x) := retry_entry entry r in
  grown r r' /\
  match x with
  | Ok _ => settled r' (de_event_json entry) /\
            exists e, event_of_json (de_event_json entry) = Ok e /\
              (faithful e -> ev_recorded r' ≡ₚ map (stored_event None) (List.filter (ev_wanted r) [e]) ++ ev_recorded r)
  | Err _ => (forall e, event_of_json (de_event_json entry) = Ok e -> faithful e) -> ev_recorded r' = ev_recorded r
  end.
Proof.
  intros Hi. unfold retry_entry, sql_bind, sql_lift. destruct (event_of_json (de_event_json entry)) as [e|err] eqn:E; cbn.
  - pose proof (ev_save_keeps r e Hi) as Hk. pose proof (ev_save_law r e Hi) as Hl. destruct (ev_save e r) as [r' [id|err]].
    + split; [done|]. split.
      * exists e. split; [done|]. intros Hf Hw. specialize (Hl Hf). destruct Hk as (_ & Hwk & _). rewrite Hwk in Hw. rewrite Hw in Hl. rewrite Hl. by left.
      * exists e. split; [done|]. intros Hf. specialize (Hl Hf). by destruct (ev_wanted r e).
    + split; [done|]. intros Hall. by apply Hl, Hall.
  - split; [|done]. split; [done|]. split; [done|]. done.
Qed.

(** What phase 4 achieves. *)
Lemma retry_all_law entries : forall r, ev_inv r ->
  let '(r', (recovered, increment)) := retry_all entries r in
  grown r r' /\
  Forall (fun id => exists e, e ∈ entries /\ de_id e = id /\ settled r' (de_event_json e)) recovered /\
  ((forall e ev, e ∈ entries -> event_of_json (de_event_json e) = Ok ev -> faithful ev) ->
   exists evs, Forall2 (fun id ev => exists e, e ∈ entries /\ de_id e = id /\ event_of_json (de_event_json e) = Ok ev) recovered evs /\
     ev_recorded r' ≡ₚ map (stored_event None) (List.filter (ev_wanted r) evs) ++ ev_recorded r).
Proof.
  induction entries as [|e entries IH]; intros r Hi; cbn [retry_all].
  { split; [done|]. split; [constructor|]. intros _. by exists []. }
  pose proof (retry_entry_law e r Hi) as He. destruct (retry_entry e r) as [r1 x]. destruct He as [Hg He].
  specialize (IH r1 (proj1 Hg)). destruct (retry_all entries r1) as [r2 [rec inc]]. destruct IH as (Hg2 & Hs & Hev).
  assert (Forall (fun id => exists e0, e0 ∈ e :: entries /\ de_id e0 = id /\ settled r2 (de_event_json e0)) rec) as Hs'.
  { eapply List.Forall_impl; [|exact Hs]. intros id (e0 & Hin & Hrest). exists e0. split; [by right|done]. }
  assert (forall evs, Forall2 (fun id ev => exists e0, e0 ∈ entries /\ de_id e0 = id /\ event_of_json (de_event_json e0) = Ok ev) rec evs ->
          Forall2 (fun id ev => exists e0, e0 ∈ e :: entries /\ de_id e0 = id /\ event_of_json (de_event_json e0) = Ok ev) rec evs) as Hw.
  { intros evs Hf2. eapply Forall2_impl; [|exact Hf2]. intros id ev (e0 & Hin & Hrest). exists e0. split; [by right|done]. }
  destruct x as [u|err].
  - destruct He as [Hset (ev & Eev & Hrec)]. split; [by eapply grown_trans|]. split.
    + constructor; [|done]. exists e. split; [left|]. split; [done|]. by eapply settled_grown.
    + intros Hall. destruct Hev as (evs & Hf2 & Hp); [intros; eapply Hall; [by right|done]|]. exists (ev :: evs).
      split; [constructor; [exists e; split; [left|done]|by apply Hw]|]. rewrite Hp, Hrec by (eapply Hall; [left|done]).
      destruct Hg as (_ & Hwt & _). rewrite (List.filter_ext _ (ev_wanted r)) by done. cbn.
      destruct (ev_wanted r ev); cbn; [|done]. by rewrite Permutation_middle.
  - split; [by eapply grown_trans|]. split; [done|]. intros Hall. destruct Hev as (evs & Hf2 & Hp); [intros; eapply Hall; [by right|done]|].
    exists evs. split; [by apply Hw|]. rewrite Hp, He by (intros; eapply Hall; [left|done]). destruct Hg as (_ & Hwt & _).
    by rewrite (List.filter_ext _ (ev_wanted r)).
Qed.

Lemma batch_json cfg t e : e ∈ batch cfg t -> jsons t !! de_id e = Some (de_event_json e).
Proof. intros (row & Hr & _ & E)%batch_member. unfold jsons. rewrite lookup_fmap, Hr. cbn. by rewrite E. Qed.

Lemma retrying_batch cfg t e : e ∈ retrying cfg t -> e ∈ batch cfg t.
Proof. unfold retrying. rewrite !list_elem_of_In, filter_In. by intros [He _]. Qed.

(** Each entry is still queued, or its event has arrived. *)
Definition accounted (s s' : recovery) : Prop :=
  grown (rc_events s) (rc_events s') /\
  forall id json, jsons (queue s) !! id = Some json -> jsons (queue s') !! id = Some json \/ settled (rc_events s') json.

Lemma process_accounted cfg t1 t2 (s : recovery) : ev_inv (rc_events s) -> accounted s (fst (process_pending_entries cfg t1 t2 s)).
Proof.
  intros Hi. set (I := fun t (r : R) => jsons t = jsons (queue s) /\ r = rc_events s).
  set (J := fun (rec : list Z) t (r : R) => grown (rc_events s) r /\
    (forall id json, id ∈ rec -> jsons (queue s) !! id = Some json -> settled r json) /\
    (forall id json, jsons (queue s) !! id = Some json -> jsons t !! id = Some json \/ id ∈ rec)).
  apply (process_rule cfg t1 t2 s (fun s => I (queue s) (rc_events s)) (accounted s) (fun rec _ s => J rec (queue s) (rc_events s))).
  - done.
  - intros e _. split; apply preserves_update; intros t r [Hj Hr]; (split; [|done]); by rewrite jsons_update.
  - intros d r [Hj Hr]. cbn in Hr. subst r. pose proof (retry_all_law (retrying cfg (queue s)) (rc_events s) Hi) as Hl.
    destruct (retry_all (retrying cfg (queue s)) (rc_events s)) as [r' [rec inc]]. destruct Hl as (Hg & Hs & _). split; [done|]. split.
    + intros id json Hid Hjs. rewrite List.Forall_forall in Hs. apply list_elem_of_In in Hid. apply Hs in Hid as (e & He & <- & Hset).
      apply retrying_batch, batch_json in He. rewrite He in Hjs. by injection Hjs as <-.
    + intros id json Hjs. left. unfold queue in *. cbn in *. by rewrite Hj.
  - intros rec inc. split.
    + apply preserves_delete. intros t r (Hg & Hs & Hq). split; [done|]. split; [done|]. intros id json Hjs. rewrite jsons_delete.
      destruct (bool_decide_reflect (id ∈ rec)); [by right|]. by apply Hq.
    + apply preserves_update. intros t r (Hg & Hs & Hq). split; [done|]. split; [done|]. by rewrite jsons_update.
  - intros s' [Hj Hr]. unfold accounted. rewrite Hr, Hj. split; [by split|]. eauto.
  - intros rec inc s' (Hg & Hs & Hq). split; [done|]. intros id json Hjs. destruct (Hq id json Hjs); [by left|]. right. by eapply Hs.
Qed.

Lemma accounted_trans s1 s2 s3 : accounted s1 s2 -> accounted s2 s3 -> accounted s1 s3.
Proof.
  intros (Hg1 & Ha1) (Hg2 & Ha2). split; [by eapply grown_trans|]. intros id json Hj. destruct (Ha1 id json Hj) as [Hj2|Hs]; [by apply Ha2|].
  right. by eapply settled_grown.
Qed.

Lemma ticks_accounted cfg ticks (s : recovery) :
  ev_inv (rc_events s) -> accounted s (recovery_ticks cfg ticks s).
Proof.
  revert s. induction ticks as [|[t1 t2] ticks IH]; intros s Hi; cbn [recovery_ticks].
  - split; [by split|]. eauto.
  - pose proof (process_accounted cfg t1 t2 s Hi) as Ha. eapply accounted_trans; [exact Ha|]. apply IH. apply Ha.
Qed.

(** C31: recovery loses no event.  Whatever fails and whenever, after any number of
    rounds every queued event is still in the queue, or has reached the event
    repository (where it is recorded unless its metric is gone), and nothing
    that was recorded disappears. *)
Theorem recovery_loses_nothing cfg ticks (s : recovery) :
  ev_inv (rc_events s) -> accounted s (recovery_ticks cfg ticks s).
Proof. apply ticks_accounted. Qed.

(** C36: the queue drains.  With a queue database that works, a batch size between
    1 and 998 (so that the ids of a batch fit into one statement under the
    variable limit the program reckons with) and stored counts that are 32-bit
    numbers, and whatever the event repository answers, a bounded number of rounds,
    (max_retries + 1) for each entry of the table, settles every entry that was
    pending.  It was delivered and then deleted: its row is gone, and its event,
    if its metric still exists and its fields fit the columns ([faithful]), is
    recorded in the event repository.  Or it is marked failed after at least
    [max_retries] attempts, with its event intact. *)
Theorem recovery_drains cfg t (r : R) ticks :
  (dc_max_retries cfg < 2 ^ 32)%N -> (0 < dc_batch_size cfg)%N -> batch_fits cfg -> counts_ok t -> ev_inv r ->
  ((N.to_nat (dc_max_retries cfg) + 1) * size (dt_rows t) <= length ticks)%nat ->
  let s' := recovery_ticks cfg ticks (mkRec (mkDb t []) r) in
  forall id row, dt_rows t !! id = Some row -> is_pending row = true ->
    (dt_rows (queue s') !! id = None /\
     exists e, event_of_json (dr_event_json row) = Ok e /\
       (faithful e -> ev_wanted r e = true -> stored_event None e ∈ ev_recorded (rc_events s'))) \/
    exists row', dt_rows (queue s') !! id = Some row' /\ dr_event_json row' = dr_event_json row /\ dr_status row' = "failed" /\
                 Z.of_N (dc_max_retries cfg) <= dr_retry_count row'.
Proof.
  intros Hm Hb Hfit Hc Hi Hl s' id row Hr Hp. destruct (ticks_settle cfg t r ticks Hm Hb Hfit Hc Hl id row Hr Hp) as [Hn|Hfailed]; [left|by right].
  split; [exact Hn|]. destruct (ticks_accounted cfg ticks (mkRec (mkDb t []) r) Hi) as [(_ & Hw & _) Ha].
  destruct (Ha id (dr_event_json row)) as [Hj|(e & He & Hs)]; [unfold jsons; rewrite lookup_fmap; cbn [queue rc_dlq db_data]; by rewrite Hr| |].
  - unfold jsons in Hj. rewrite lookup_fmap in Hj. unfold queue in Hn, Hj. by rewrite Hn in Hj.
  - exists e. split; [done|]. intros Hfa Hwe. apply Hs; [done|]. by rewrite Hw.
Qed.

(** A batch size above the variable limit stops recovery: when more entries are
    to be retried than a statement can name, the round fails before it has
    delivered anything, and every later one like it. *)
Theorem oversized_batch_recovers_nothing cfg ticks t (r : R) :
  (forall e, e ∈ batch cfg t -> exceeded cfg e = false) -> (max_variables <= lenN (batch cfg t))%N ->
  recovery_ticks cfg ticks (mkRec (mkDb t []) r) = mkRec (mkDb t []) r.
Proof.
  intros He Hn. assert (failing cfg t = []) as Hf.
  { unfold failing. destruct (List.filter (exceeded cfg) (batch cfg t)) as [|e l] eqn:E; [done|].
    assert (In e (e :: l)) as Hin by by left. rewrite <- E in Hin. apply filter_In in Hin as [Hin Hx]. apply list_elem_of_In, He in Hin. congruence. }
  assert (retrying cfg t = batch cfg t) as Hre.
  { unfold retrying. clear Hf Hn. induction (batch cfg t) as [|e l IH]; [done|]. cbn. rewrite (He e) by left. cbn. rewrite IH; [done|]. intros e' Hin. apply He. by right. }
  induction ticks as [|[t1 t2] ticks IH]; [done|]. cbn [recovery_ticks].
  assert (fst (process_pending_entries cfg t1 t2 (mkRec (mkDb t []) r)) = mkRec (mkDb t []) r) as ->; [|done].
  unfold process_pending_entries. unfold sql_bind at 1. unfold on_dlq at 1, dlq_find_pending, statement at 1. cbn [rc_dlq db_faults db_data tail rc_events].
  fold (batch cfg t). destruct (batch cfg t) as [|e0 b0] eqn:Eb; [done|]. rewrite <- Eb in *. fold (failing cfg t) (retrying cfg t). rewrite Hf, Hre.
  cbn [map when_some sql_bind sql_ret]. unfold sql_bind at 1. rewrite Eb. cbn [map when_some]. unfold on_dlq, dlq_mark_retrying_batch, with_variables.
  rewrite (proj2 (N.ltb_lt max_variables _)); [done|]. rewrite Eb in Hn. unfold lenN in *. cbn [length] in *. rewrite length_map. lia.
Qed.

(** A round whose queue statements succeed delivers each event it recovers
    exactly once: the events of the entries it deleted are added to the
    repository, those of removed metrics excepted, and nothing else is; entries
    out of attempts are marked failed, entries whose delivery failed go back with
    one attempt more, and all others stay as they were. *)
Theorem recovery_exactly_once cfg t1 t2 t r :
  batch_fits cfg -> ev_inv r -> (forall id json e, jsons t !! id = Some json -> event_of_json json = Ok e -> faithful e) ->
  exists t' r' failed recovered increment evs,
    process_pending_entries cfg t1 t2 (mkRec (mkDb t []) r) = (mkRec (mkDb t' []) r', Ok tt) /\
    failed ++ recovered ++ increment ≡ₚ map fst (select_pending (dc_batch_size cfg) t) /\
    Forall2 (fun id e => exists json, jsons t !! id = Some json /\ event_of_json json = Ok e) recovered evs /\
    ev_recorded r' ≡ₚ map (stored_event None) (List.filter (ev_wanted r) evs) ++ ev_recorded r /\
    (forall id, dt_rows t' !! id = dt_rows t !! id ≫= row_after t1 t2 failed recovered increment id).
Proof.
  intros Hfit Hi Hf. pose proof (fun id => round_rows cfg t1 t2 t r id Hfit) as Hrows. pose proof (round_ids cfg t r) as Hids.
  pose proof (retry_all_law (retrying cfg t) r Hi) as Hl. rewrite process_ok in Hrows |- * by done.
  destruct (retry_all (retrying cfg t) r) as [r' [rec inc]]. destruct Hl as (_ & _ & Hev). destruct Hids as (_ & Hp & _).
  destruct Hev as (evs & Hf2 & Hrec).
  { intros e ev He. eapply Hf. by eapply batch_json, retrying_batch. }
  eexists _, _, (map de_id (failing cfg t)), rec, inc, evs. split; [done|]. split; [done|]. split; [|by split].
  eapply Forall2_impl; [|exact Hf2]. intros id ev (e & He & <- & Hj). exists (de_event_json e). split; [by eapply batch_json, retrying_batch|done].
Qed.

End Conservation.

(** ** Examples *)

Module SampleQueue.
Definition row (json : string) (retries : Z) : DlqRow := mkDR json "disk full" retries "pending" 7 None.
(** Entry 1 holds an event of a live metric, entry 2 is not an event, entry 3 has no attempt left. *)
Definition table : DlqTable := mkDT (list_to_map [(1, row "1" 0); (2, row "?" 0); (3, row "2" 3)]) 4.
Definition state (faults : list bool) : Recovery := mkRec (mkDb table faults) (mkDb EventRepo.Sample.table []).
End SampleQueue.
Import EventRepo.Sample.

Lemma sample_fresh : fresh EventRepo.Sample.table.
Proof. intros id r E. cbn in E. by rewrite lookup_empty in E. Qed.

Lemma sample_rows id r : dt_rows SampleQueue.table !! id = Some r -> In (id, r) [(1, SampleQueue.row "1" 0); (2, SampleQueue.row "?" 0); (3, SampleQueue.row "2" 3)].
Proof.
  intros E%elem_of_map_to_list. apply list_elem_of_In. cbn [SampleQueue.table dt_rows] in E. rewrite map_to_list_to_map in E; [done|].
  apply (bool_decide_unpack _). vm_compute. exact I.
Qed.

Lemma sample_counts : counts_ok SampleQueue.table.
Proof. intros id r E%sample_rows. cbn in E. destruct E as [[= <- <-]|[[= <- <-]|[[= <- <-]|[]]]]; cbn; lia. Qed.

Lemma recovery_drains_witness :
  let s' := recovery_ticks default_dlq_config (repeat (0, 0) 12) (SampleQueue.state []) in
  (dt_rows (queue s') !! 2 = None /\
   exists e, event_of_json "?" = Ok e /\ (faithful e -> ev_wanted (mkDb EventRepo.Sample.table []) e = true -> stored_event None e ∈ ev_recorded (rc_events s'))) \/
  exists row', dt_rows (queue s') !! 2 = Some row' /\ dr_event_json row' = "?" /\ dr_status row' = "failed" /\ 3 <= dr_retry_count row'.
Proof.
  exact (recovery_drains default_dlq_config SampleQueue.table (mkDb EventRepo.Sample.table []) (repeat (0, 0) 12) ltac:(done) ltac:(done) ltac:(done)
    sample_counts sample_fresh ltac:(vm_compute; lia) 2 (SampleQueue.row "?" 0) eq_refl eq_refl).
Defined.

Lemma recovery_loses_nothing_witness :
  accounted (SampleQueue.state [false; false; true]) (recovery_ticks default_dlq_config [(1, 2); (3, 4)] (SampleQueue.state [false; false; true])).
Proof. apply recovery_loses_nothing. exact sample_fresh. Defined.

Lemma sample_faithful id json e : jsons SampleQueue.table !! id = Some json -> event_of_json json = Ok e -> faithful e.
Proof.
  unfold jsons. rewrite lookup_fmap. destruct (dt_rows SampleQueue.table !! id) as [r|] eqn:E; [|done]. intros [= <-] Hj.
  apply sample_rows in E. cbn in E. destruct E as [[= <- <-]|[[= <- <-]|[[= <- <-]|[]]]]; cbn in Hj; try done; injection Hj as <-; by apply faithful_event.
Qed.

Lemma recovery_exactly_once_witness :
  exists t' r' failed recovered increment evs,
    process_pending_entries default_dlq_config 1 2 (SampleQueue.state []) = (mkRec (mkDb t' []) r', Ok tt) /\
    failed ++ recovered ++ increment ≡ₚ map fst (select_pending 50 SampleQueue.table) /\
    Forall2 (fun id e => exists json, jsons SampleQueue.table !! id = Some json /\ event_of_json json = Ok e) recovered evs /\
    ev_recorded r' ≡ₚ map (stored_event None) (List.filter (ev_wanted (mkDb EventRepo.Sample.table [])) evs) ++ [] /\
    (forall id, dt_rows t' !! id = dt_rows SampleQueue.table !! id ≫= row_after 1 2 failed recovered increment id).
Proof. exact (recovery_exactly_once default_dlq_config 1 2 SampleQueue.table (mkDb EventRepo.Sample.table []) ltac:(done) sample_fresh sample_faithful). Defined.

(** An interrupted round strands its entries.  When the queue's database
    refuses the deletion that follows a delivery, the round ends with the entries
    marked as being retried; only pending entries are ever selected and nothing
    resets the mark, so no later round, whatever its configuration, delivers,
    counts, fails or deletes the entry again. *)
Theorem interrupted_entry_stays_retrying :
  let outcome := process_pending_entries default_dlq_config 1 2 (SampleQueue.state [false; false; false; true]) in
  snd outcome = Err (Database "database error") /\
  forall cfg ticks, let t := queue (recovery_ticks cfg ticks (fst outcome)) in
    dt_rows t !! 2 = Some (set_retrying 1 (SampleQueue.row "?" 0)) /\ dt_rows t !! 1 = Some (set_retrying 1 (SampleQueue.row "1" 0)).
Proof.
  split; [vm_compute; reflexivity|]. intros cfg ticks. split; (eapply retrying_kept; [vm_compute; reflexivity|done]).
Qed.
