(* ===== verification/Connection.v ===== *)
(** * Connections

    [crates/detrix-core/src/connection.rs], [connection_identity.rs] and
    [connection_reference.rs]: a connection to a debugged program, the identity
    its id is derived from, its status with the text it is stored as, and the
    references that clients hold on it.  Times are microseconds ([i64]), passed
    as arguments; [sha256] is the hash function of the [sha2] crate. *)

From Stdlib Require Import Strings.String Strings.Ascii Init.Byte.
From S2P Require Import Prelude RustStr CoreError Language Metric.

Local Open Scope string_scope.
Local Open Scope Z_scope.
Local Arguments String.append !_ _ / : simpl nomatch.

Definition MIN_UNRESERVED_PORT : N := 1024.
Definition AGENT_NAME_PREFIX : string := "agent/".
Definition UNKNOWN_WORKSPACE_ROOT : string := "/unknown".

(** ** Ids *)

Fixpoint map_chars (f : ascii -> ascii) (s : string) : string :=
  match s with EmptyString => EmptyString | String c r => String (f c) (map_chars f r) end.

Definition underscore : ascii := "_".
Definition from_host_port (host : string) (port : N) : string :=
  let normalized_host := map_chars (fun c => if Ascii.eqb c "." || Ascii.eqb c ":" then underscore else c) host in
  let final_host := if str_forall (Ascii.eqb underscore) normalized_host then "localhost" else normalized_host in
  final_host ++ "_" ++ show_N port.

Record ConnectionIdentity : Type := mkIdentity {
  ci_name : string; ci_language : SourceLanguage; ci_workspace_root : string; ci_hostname : string
}.

Definition unknown_language_error : Error :=
  InvalidConfig ("Unknown language is not allowed for connections. Specify a valid language: " ++ valid_options).

Definition identity_validate (i : ConnectionIdentity) : result unit Error :=
  if str_is_empty (ci_name i) then Err (InvalidConfig "Connection name cannot be empty")
  else if bool_decide (ci_language i = UnknownLang) then Err unknown_language_error
  else if str_is_empty (ci_workspace_root i) then Err (InvalidConfig "Workspace root cannot be empty")
  else if str_is_empty (ci_hostname i) then Err (InvalidConfig "Hostname cannot be empty")
  else Ok tt.

(** What [to_uuid] hashes. *)
Definition uuid_input (i : ConnectionIdentity) : string :=
  ci_name i ++ "|" ++ lang_as_str (ci_language i) ++ "|" ++ ci_workspace_root i ++ "|" ++ ci_hostname i.

(** ** Status *)

Inductive ConnectionStatus : Type := Disconnected | Connecting | Connected | Reconnecting | Failed (msg : string).

#[export] Instance ConnectionStatus_eq_dec : EqDecision ConnectionStatus.
Proof. solve_decision. Defined.

Definition status_as_str (s : ConnectionStatus) : string :=
  match s with
  | Disconnected => "disconnected" | Connecting => "connecting" | Connected => "connected"
  | Reconnecting => "reconnecting" | Failed _ => "failed"
  end.

(** [Display], which is also [to_status_string]. *)
Definition status_display (s : ConnectionStatus) : string :=
  match s with Failed msg => "failed: " ++ msg | _ => status_as_str s end.

(** [From<&str>]: an unknown text is read as disconnected. *)
Definition status_of_str (s : string) : ConnectionStatus :=
  match match_str [("disconnected", Disconnected); ("connecting", Connecting); ("connected", Connected); ("reconnecting", Reconnecting)] s with
  | Some st => st
  | None => if starts_with "failed:" s then Failed (trim (trim_start_matches "failed:" s)) else Disconnected
  end.

(** ** The entity *)

Record Connection : Type := mkConn {
  c_id : string; c_name : option string; c_workspace_root : string; c_hostname : string;
  c_host : string; c_port : N; c_language : SourceLanguage; c_status : ConnectionStatus;
  c_auto_reconnect : bool; c_safe_mode : bool; c_control_plane_url : option string;
  c_build_commit : option string; c_build_tag : option string; c_user_id : option string;
  c_created_at : Z; c_last_connected_at : option Z; c_last_active : Z
}.

Definition is_agent_managed_identity (i : ConnectionIdentity) : bool := starts_with AGENT_NAME_PREFIX (ci_name i).
Definition is_agent_managed (c : Connection) : bool :=
  match c_name c with Some name => starts_with AGENT_NAME_PREFIX name | None => false end.

Definition valid_workspace_root (c : Connection) : option string :=
  if negb (String.eqb (c_workspace_root c) UNKNOWN_WORKSPACE_ROOT) && negb (str_is_empty (c_workspace_root c))
  then Some (c_workspace_root c) else None.

Definition reserved_port_error (port : N) : Error :=
  InvalidConfig ("Port " ++ show_N port ++ " is below " ++ show_N MIN_UNRESERVED_PORT ++ " (reserved range)").

Section Ids.
Context (sha256 : list byte -> list byte).

(** The first sixteen bytes of the hash, in hexadecimal. *)
Definition to_uuid (i : ConnectionIdentity) : string := hex_lower (take 16 (sha256 (as_bytes (uuid_input i)))).

Definition new_with_identity (now : Z) (i : ConnectionIdentity) (host : string) (port : N) : result Connection Error :=
  let? _ := identity_validate i in
  if (port <? MIN_UNRESERVED_PORT)%N && negb (is_agent_managed_identity i) then Err (reserved_port_error port)
  else if str_is_empty host then Err (InvalidConfig "Host cannot be empty")
  else Ok (mkConn (to_uuid i) (Some (ci_name i)) (ci_workspace_root i) (ci_hostname i) host port (ci_language i)
             Disconnected true false None None None None now None now).
End Ids.

Definition connection_new (now : Z) (id host : string) (port : N) (language : SourceLanguage) : result Connection Error :=
  if (port <? MIN_UNRESERVED_PORT)%N then Err (reserved_port_error port)
  else if str_is_empty host then Err (InvalidConfig "Host cannot be empty")
  else if bool_decide (language = UnknownLang) then Err unknown_language_error
  else Ok (mkConn id None UNKNOWN_WORKSPACE_ROOT "unknown" host port language Disconnected true false None None None None now None now).

Definition new_with_auto_id (now : Z) (host : string) (port : N) (language : SourceLanguage) : result Connection Error :=
  connection_new now (from_host_port host port) host port language.

Definition address (c : Connection) : string := c_host c ++ ":" ++ show_N (c_port c).

Definition with_status (s : ConnectionStatus) (last_connected_at : option Z) (last_active : Z) (c : Connection) : Connection :=
  mkConn (c_id c) (c_name c) (c_workspace_root c) (c_hostname c) (c_host c) (c_port c) (c_language c) s
    (c_auto_reconnect c) (c_safe_mode c) (c_control_plane_url c) (c_build_commit c) (c_build_tag c) (c_user_id c)
    (c_created_at c) last_connected_at last_active.

(** [now1] and [now2] are the two readings of the clock. *)
Definition set_status (now1 now2 : Z) (s : ConnectionStatus) (c : Connection) : Connection :=
  with_status s (if bool_decide (s = Connected) then Some now1 else c_last_connected_at c) now2 c.
Definition touch (now : Z) (c : Connection) : Connection := with_status (c_status c) (c_last_connected_at c) now c.

Definition is_active (c : Connection) : bool := match c_status c with Connected | Connecting => true | _ => false end.
Definition should_reconnect (c : Connection) : bool :=
  c_auto_reconnect c && match c_status c with Disconnected | Reconnecting | Failed _ => true | _ => false end.

Definition validate_user_id (user_id : option string) : result unit Error := validate_tenant_id "connection user_id" user_id.

(** [i64] arithmetic of a release build. *)
Definition i64_wrap (z : Z) : Z := to_signed 64 (of_signed 64 z).
Definition MICROS_PER_DAY : Z := 86400 * 1000000.

Definition inactive_for_days (days now_micros : Z) (c : Connection) : bool :=
  if days <? 0 then false
  else if days =? 0 then true
  else i64_wrap (days * MICROS_PER_DAY) <=? i64_wrap (now_micros - c_last_active c).

(** ** References *)

Inductive ClientIdentity : Type := Bridge (id : string) | Daemon.

#[export] Instance ClientIdentity_eq_dec : EqDecision ClientIdentity.
Proof. solve_decision. Defined.

Definition DAEMON_IDENTITY : string := "__daemon__".
Definition client_as_str (c : ClientIdentity) : string := match c with Bridge id => id | Daemon => DAEMON_IDENTITY end.
Definition client_of_str (s : string) : ClientIdentity := if String.eqb s DAEMON_IDENTITY then Daemon else Bridge s.

Inductive ReferenceKind : Type := KClient | KDaemon.
Definition kind_as_str (k : ReferenceKind) : string := match k with KClient => "client" | KDaemon => "daemon" end.
Definition kind_of_str (s : string) : ReferenceKind := if String.eqb s "daemon" then KDaemon else KClient.

Record ConnectionReference : Type := mkRef {
  cr_connection_id : string; cr_client : ClientIdentity; cr_kind : ReferenceKind; cr_created_at : Z; cr_last_active : Z
}.
Definition reference_new (now : Z) (connection_id : string) (client : ClientIdentity) (kind : ReferenceKind) : ConnectionReference :=
  mkRef connection_id client kind now now.

(** ** Lemmas *)

Lemma client_roundtrip c : c <> Bridge DAEMON_IDENTITY -> client_of_str (client_as_str c) = c.
Proof.
  destruct c as [id|]; [|done]. intros H. unfold client_of_str. cbn. destruct (String.eqb_spec id DAEMON_IDENTITY); [congruence|done].
Qed.
Lemma kind_roundtrip k : kind_of_str (kind_as_str k) = k.
Proof. by destruct k. Qed.

(** A caller that passed the validation cannot be taken for the daemon. *)
Lemma validated_not_daemon uid : validate_user_id (Some uid) = Ok tt -> client_of_str (client_as_str (Bridge uid)) = Bridge uid.
Proof. intros H. apply client_roundtrip. intros [= ->]. by vm_compute in H. Qed.

Lemma trim_space s : trim (String " " s) = trim s.
Proof. unfold trim. by rewrite trim_start_space. Qed.

(** The stored text of a status reads back, up to blanks around the message. *)
Theorem status_roundtrip s :
  status_of_str (status_display s) = match s with Failed msg => Failed (trim msg) | _ => s end.
Proof. destruct s as [| | | |msg]; [done..|]. unfold status_of_str. cbn. by rewrite trim_space. Qed.

(** The separator of the hashed text is not escaped: valid identities of
    different workspaces and hosts get the same id. *)
Theorem identities_share_id sha256 :
  exists i j, i <> j /\ identity_validate i = Ok tt /\ identity_validate j = Ok tt /\ to_uuid sha256 i = to_uuid sha256 j.
Proof. exists (mkIdentity "app" Python "/w|a" "b"), (mkIdentity "app" Python "/w" "a|b"). by repeat split. Qed.

Definition no_bar (s : string) : bool := str_forall (fun c => negb (Ascii.eqb c "|")) s.
Definition plain_identity (i : ConnectionIdentity) : bool :=
  no_bar (ci_name i) && no_bar (ci_workspace_root i) && no_bar (ci_hostname i).

(** Without the separator in their parts, identities that share an id are the
    same, or their texts collide under the truncated hash. *)
Theorem plain_identities_distinct sha256 i j :
  plain_identity i = true -> plain_identity j = true -> to_uuid sha256 i = to_uuid sha256 j ->
  i = j \/ uuid_input i <> uuid_input j /\ take 16 (sha256 (as_bytes (uuid_input i))) = take 16 (sha256 (as_bytes (uuid_input j))).
Proof.
  intros Hi Hj H. apply hex_lower_inj in H. destruct (decide (uuid_input i = uuid_input j)) as [E|]; [|by right]. left. clear H.
  unfold plain_identity in *. rewrite !andb_true_iff in *. destruct Hi as [[Hi1 Hi2] Hi3], Hj as [[Hj1 Hj2] Hj3].
  destruct i as [n1 l1 w1 h1], j as [n2 l2 w2 h2]. unfold uuid_input, no_bar in *. cbn [ci_name ci_language ci_workspace_root ci_hostname] in *.
  assert (forall l, str_forall (fun c => negb (Ascii.eqb c "|")) (lang_as_str l) = true) as Hl by (by intros []).
  apply (str_app_inj_until (fun c => negb (Ascii.eqb c "|"))) in E as [-> E]; [|done..].
  apply (str_app_inj_until (fun c => negb (Ascii.eqb c "|"))) in E as [El E]; [|done..].
  apply (str_app_inj_until (fun c => negb (Ascii.eqb c "|"))) in E as [-> ->]; [|done..].
  f_equal. by destruct l1, l2.
Qed.

(** A time to live of more than 292,000 years overflows: a connection active at
    this moment counts as stale. *)
Theorem long_ttl_is_none c now : c_last_active c = now -> inactive_for_days 106751992 now c = true.
Proof. intros <-. unfold inactive_for_days. rewrite Z.sub_diag. by vm_compute. Qed.
