(* ===== verification/ConnectionRepo.v ===== *)
(** * The connection tables

    [crates/detrix-storage/src/sqlite/connection_repo.rs] and
    [connection_reference_repo.rs], which implement the ports
    [ConnectionRepository] and [ConnectionReferenceRepository]: the tables
    [connections] and [connection_references] as finite maps by primary key,
    with the constraints of [migrations/001_schema.sql] and
    [006_agent_connection_port.sql]: the checks on port and host, the unique index
    on the parts of an identity, and the foreign key of references, which a
    deletion follows.  Statements may fail, see [Sql]. *)

From Stdlib Require Import Strings.String Strings.Ascii.
From stdpp Require Import gmap.
From S2P Require Import Prelude CoreError RustStr Language Metric Sql Connection.

Local Open Scope string_scope.
Local Open Scope Z_scope.
Local Open Scope sql_scope.
Local Open Scope list_scope.
Local Arguments String.append !_ _ / : simpl nomatch.

Record ConnRow : Type := mkCRow {
  r_name : option string; r_workspace_root : string; r_hostname : string; r_host : string; r_port : Z;
  r_language : string; r_status : string; r_auto_reconnect : bool; r_safe_mode : bool;
  r_created_at : Z; r_last_connected_at : option Z; r_last_active : Z;
  r_control_plane_url : option string; r_build_commit : option string; r_build_tag : option string; r_user_id : option string
}.

Record RefRow : Type := mkRRow { rr_kind : string; rr_created_at : Z; rr_last_active : Z }.

Record Store : Type := mkStore { st_conns : gmap string ConnRow; st_refs : gmap (string * string) RefRow }.
Definition empty_store : Store := mkStore ∅ ∅.

Definition set_conns (x : gmap string ConnRow) (s : Store) : Store := mkStore x (st_refs s).
Definition set_refs (x : gmap (string * string) RefRow) (s : Store) : Store := mkStore (st_conns s) x.

(** ** Rows *)

Definition connection_row (c : Connection) : ConnRow :=
  mkCRow (c_name c) (c_workspace_root c) (c_hostname c) (c_host c) (Z.of_N (c_port c)) (lang_as_str (c_language c))
    (status_display (c_status c)) (c_auto_reconnect c) (c_safe_mode c) (c_created_at c) (c_last_connected_at c) (c_last_active c)
    (c_control_plane_url c) (c_build_commit c) (c_build_tag c) (c_user_id c).

Definition row_status (status_str : string) : result ConnectionStatus Error :=
  let lower := to_lowercase status_str in
  match match_str [("disconnected", Disconnected); ("connecting", Connecting); ("connected", Connected); ("reconnecting", Reconnecting)] lower with
  | Some st => Ok st
  | None =>
      if starts_with "failed:" lower then
        Ok (Failed (match split_once ":" status_str with Some (_, msg) => trim msg | None => EmptyString end))
      else Err (Database ("Invalid connection status: " ++ status_str))
  end.

Definition row_to_connection (id : string) (r : ConnRow) : result Connection Error :=
  let? status := row_status (r_status r) in
  let? language := map_err (fun e => InvalidConfig (ple_display (ple_with_context e ("in database for connection " ++ id))))
                     (parse_language (r_language r)) in
  Ok (mkConn id (r_name r) (r_workspace_root r) (r_hostname r) (r_host r) (of_signed 16 (r_port r)) language status
        (r_auto_reconnect r) (r_safe_mode r) (r_control_plane_url r) (r_build_commit r) (r_build_tag r) (r_user_id r)
        (r_created_at r) (r_last_connected_at r) (r_last_active r)).

Definition row_to_reference (k : string * string) (r : RefRow) : ConnectionReference :=
  mkRef (fst k) (client_of_str (snd k)) (kind_of_str (rr_kind r)) (rr_created_at r) (rr_last_active r).

(** ** Constraints *)

Definition check_row (r : ConnRow) : bool := ((r_port r =? 0) || (1024 <=? r_port r)) && negb (str_is_empty (r_host r)).

(** [idx_connections_identity], WHERE name IS NOT NULL. *)
Definition same_identity (a b : ConnRow) : bool :=
  match r_name a, r_name b with
  | Some n, Some m => String.eqb n m && String.eqb (r_language a) (r_language b)
                      && String.eqb (r_workspace_root a) (r_workspace_root b) && String.eqb (r_hostname a) (r_hostname b)
  | _, _ => false
  end.
Definition identity_taken (id : string) (r : ConnRow) (s : Store) : bool :=
  existsb (fun x => negb (String.eqb (fst x) id) && same_identity (snd x) r) (map_to_list (st_conns s)).

Definition write_row (id : string) (r : ConnRow) (s : Store) : result (Store * unit) Error :=
  if negb (check_row r) then Err (Database "CHECK constraint failed")
  else if identity_taken id r s then Err (Database "UNIQUE constraint failed")
  else Ok (set_conns (<[id := r]> (st_conns s)) s, tt).

(** [DO UPDATE SET]: the time of creation stays, and the owner unless a new one is given. *)
Definition merge_row (old new : ConnRow) : ConnRow :=
  mkCRow (r_name new) (r_workspace_root new) (r_hostname new) (r_host new) (r_port new) (r_language new) (r_status new)
    (r_auto_reconnect new) (r_safe_mode new) (r_created_at old) (r_last_connected_at new) (r_last_active new)
    (r_control_plane_url new) (r_build_commit new) (r_build_tag new)
    (match r_user_id new with Some u => Some u | None => r_user_id old end).

Definition upsert (c : Connection) (s : Store) : result (Store * unit) Error :=
  let new := connection_row c in
  write_row (c_id c) (match st_conns s !! c_id c with Some old => merge_row old new | None => new end) s.

Section Repo.
Context `{Engine}.

(** ** [ConnectionRepository] *)

Definition conn_save (c : Connection) : Sql Store string :=
  let* _ := try_statement (upsert c) in sql_ret (c_id c).

Fixpoint save_each (cs : list Connection) : Sql Store unit :=
  match cs with
  | [] => sql_ret tt
  | c :: cs' => let* _ := try_statement (upsert c) in save_each cs'
  end.
Definition conn_save_batch (cs : list Connection) : Sql Store nat :=
  match cs with
  | [] => sql_ret 0%nat
  | _ => let* _ := transaction (save_each cs) in sql_ret (length cs)
  end.

Definition select_conns (p : string -> ConnRow -> bool) (s : Store) : list (string * ConnRow) :=
  visit (List.filter (fun x => p (fst x) (snd x)) (map_to_list (st_conns s))).

Definition fetch_optional_conn (p : string -> ConnRow -> bool) : Sql Store (option Connection) :=
  let* rows := statement (fun s => (s, select_conns p s)) in
  match rows with
  | (id, r) :: _ => let* c := sql_lift (row_to_connection id r) in sql_ret (Some c)
  | [] => sql_ret None
  end.

Definition conn_find_by_id (id : string) : Sql Store (option Connection) := fetch_optional_conn (fun i _ => String.eqb i id).
Definition conn_find_by_identity (name language workspace_root hostname : string) : Sql Store (option Connection) :=
  fetch_optional_conn (fun _ r => bool_decide (r_name r = Some name) && String.eqb (r_language r) language
    && String.eqb (r_workspace_root r) workspace_root && String.eqb (r_hostname r) hostname).
Definition conn_find_by_address (host : string) (port : N) : Sql Store (option Connection) :=
  fetch_optional_conn (fun _ r => String.eqb (r_host r) host && (r_port r =? Z.of_N port)).

(** [ORDER BY last_active DESC]. *)
Definition fetch_conns (p : string -> ConnRow -> bool) : Sql Store (list Connection) :=
  let* rows := statement (fun s => (s, order_desc (fun x => r_last_active (snd x)) (select_conns p s))) in
  sql_lift (collect_results (fun x => row_to_connection (fst x) (snd x)) rows).

Definition lower_in (l : list string) (r : ConnRow) : bool := existsb (String.eqb (to_ascii_lowercase (r_status r))) l.
Definition disconnected_or_failed (r : ConnRow) : bool :=
  String.eqb (to_ascii_lowercase (r_status r)) "disconnected" || starts_with "failed:" (to_ascii_lowercase (r_status r)).

Definition conn_list_all : Sql Store (list Connection) := fetch_conns (fun _ _ => true).
Definition conn_find_active : Sql Store (list Connection) := fetch_conns (fun _ r => lower_in ["connected"; "connecting"] r).
Definition conn_find_for_reconnect : Sql Store (list Connection) :=
  fetch_conns (fun _ r => r_auto_reconnect r && lower_in ["connected"; "disconnected"; "reconnecting"; "failed"] r).
Definition conn_find_by_language (language : string) : Sql Store (list Connection) :=
  fetch_conns (fun _ r => String.eqb (r_language r) language).

Definition not_found (id : string) : Error := Database ("Connection " ++ id ++ " not found").

(** An UPDATE of the row of [id], which must be there. *)
Definition update_row (id : string) (f : ConnRow -> ConnRow) : Sql Store unit :=
  let* affected := try_statement (fun s =>
    match st_conns s !! id with
    | Some old => let? x := write_row id (f old) s in Ok (fst x, true)
    | None => Ok (s, false)
    end) in
  if (affected : bool) then sql_ret tt else sql_lift (Err (not_found id)).

(** The columns that [update] sets. *)
Definition updated_row (c : Connection) (old : ConnRow) : ConnRow :=
  mkCRow (c_name c) (r_workspace_root old) (r_hostname old) (c_host c) (Z.of_N (c_port c)) (lang_as_str (c_language c))
    (status_display (c_status c)) (c_auto_reconnect c) (r_safe_mode old) (r_created_at old) (c_last_connected_at c) (c_last_active c)
    (r_control_plane_url old) (r_build_commit old) (r_build_tag old) (r_user_id old).
Definition conn_update (c : Connection) : Sql Store unit := update_row (c_id c) (updated_row c).

Definition status_row (status : ConnectionStatus) (now : Z) (old : ConnRow) : ConnRow :=
  mkCRow (r_name old) (r_workspace_root old) (r_hostname old) (r_host old) (r_port old) (r_language old)
    (status_display status) (r_auto_reconnect old) (r_safe_mode old) (r_created_at old)
    (if bool_decide (status = Connected) then Some now else r_last_connected_at old) now
    (r_control_plane_url old) (r_build_commit old) (r_build_tag old) (r_user_id old).
Definition conn_update_status (now : Z) (id : string) (status : ConnectionStatus) : Sql Store unit :=
  update_row id (status_row status now).

Definition touched_row (now : Z) (old : ConnRow) : ConnRow :=
  mkCRow (r_name old) (r_workspace_root old) (r_hostname old) (r_host old) (r_port old) (r_language old) (r_status old)
    (r_auto_reconnect old) (r_safe_mode old) (r_created_at old) (r_last_connected_at old) now
    (r_control_plane_url old) (r_build_commit old) (r_build_tag old) (r_user_id old).
Definition conn_touch (now : Z) (id : string) : Sql Store unit := update_row id (touched_row now).

(** [DELETE ... WHERE p]; the references of a deleted row go with it. *)
Definition delete_where (p : string -> ConnRow -> bool) (s : Store) : Store * N :=
  let gone := filter (fun x => p (fst x) (snd x) = true) (st_conns s) in
  (mkStore (st_conns s ∖ gone) (filter (fun x => gone !! fst (fst x) = None) (st_refs s)), N.of_nat (size gone)).

Definition conn_delete (id : string) : Sql Store unit :=
  let* affected := statement (delete_where (fun i _ => String.eqb i id)) in
  if (affected =? 0)%N then sql_lift (Err (not_found id)) else sql_ret tt.
Definition conn_delete_disconnected : Sql Store N := statement (delete_where (fun _ r => disconnected_or_failed r)).

Definition conn_exists (id : string) : Sql Store bool := statement (fun s => (s, bool_decide (is_Some (st_conns s !! id)))).

Definition conn_find_stale_same_project (name language workspace_root exclude_id : string) : Sql Store (list string) :=
  statement (fun s => (s, map fst (select_conns (fun id r =>
    bool_decide (r_name r = Some name) && String.eqb (r_language r) language && String.eqb (r_workspace_root r) workspace_root
    && negb (String.eqb id exclude_id) && disconnected_or_failed r) s))).

(** ** [ConnectionReferenceRepository] *)

Definition ref_add (r : ConnectionReference) : Sql Store unit :=
  try_statement (fun s =>
    let k := (cr_connection_id r, client_as_str (cr_client r)) in
    match st_conns s !! cr_connection_id r with
    | None => Err (Database "FOREIGN KEY constraint failed")
    | Some _ =>
        let row := match st_refs s !! k with
                   | Some old => mkRRow (kind_as_str (cr_kind r)) (rr_created_at old) (cr_last_active r)
                   | None => mkRRow (kind_as_str (cr_kind r)) (cr_created_at r) (cr_last_active r)
                   end in
        Ok (set_refs (<[k := row]> (st_refs s)) s, tt)
    end).

(** [DELETE FROM connection_references WHERE p], with the rows affected. *)
Definition delete_refs (p : string * string -> RefRow -> bool) (s : Store) : Store * N :=
  let gone := filter (fun x => p (fst x) (snd x) = true) (st_refs s) in
  (set_refs (st_refs s ∖ gone) s, N.of_nat (size gone)).

Definition refs_of (connection_id : string) (s : Store) : gmap (string * string) RefRow :=
  filter (fun x => fst (fst x) = connection_id) (st_refs s).
Definition ref_count (connection_id : string) (s : Store) : N := N.of_nat (size (refs_of connection_id s)).

Definition ref_count_references (connection_id : string) : Sql Store N := statement (fun s => (s, ref_count connection_id s)).

Definition ref_remove_and_count (connection_id : string) (client : ClientIdentity) : Sql Store (bool * N) :=
  transaction (
    let* removed := statement (delete_refs (fun k _ => bool_decide (k = (connection_id, client_as_str client)))) in
    let* remaining := ref_count_references connection_id in
    sql_ret ((0 <? removed)%N, remaining)).

Fixpoint count_each (ids : list string) : Sql Store (list (string * N)) :=
  match ids with
  | [] => sql_ret []
  | id :: ids' => let* n := ref_count_references id in let* rest := count_each ids' in sql_ret ((id, n) :: rest)
  end.

(** [SELECT DISTINCT connection_id ... WHERE client_id = ?]; the key is unique. *)
Definition connections_of_client (client : string) (s : Store) : list string :=
  visit (map (fun x => fst (fst x)) (List.filter (fun x => String.eqb (snd (fst x)) client) (map_to_list (st_refs s)))).

Definition ref_remove_all_by_client (client : ClientIdentity) : Sql Store (list (string * N)) :=
  transaction (
    let* affected_ids := statement (fun s => (s, connections_of_client (client_as_str client) s)) in
    match affected_ids with
    | [] => sql_ret []
    | _ =>
        let* _ := statement (delete_refs (fun k _ => String.eqb (snd k) (client_as_str client))) in
        count_each affected_ids
    end).

Definition ref_remove_all_by_connection (connection_id : string) : Sql Store N :=
  statement (delete_refs (fun k _ => String.eqb (fst k) connection_id)).

(** [ORDER BY created_at]. *)
Definition select_refs (p : string * string -> bool) (s : Store) : list ConnectionReference :=
  order_desc (fun r => - cr_created_at r)
    (visit (map (fun x => row_to_reference (fst x) (snd x)) (List.filter (fun x => p (fst x)) (map_to_list (st_refs s))))).
Definition ref_find_by_connection (connection_id : string) : Sql Store (list ConnectionReference) :=
  statement (fun s => (s, select_refs (fun k => String.eqb (fst k) connection_id) s)).
Definition ref_find_by_client (client : ClientIdentity) : Sql Store (list ConnectionReference) :=
  statement (fun s => (s, select_refs (fun k => String.eqb (snd k) (client_as_str client)) s)).
Definition ref_has (connection_id : string) (client : ClientIdentity) : Sql Store bool :=
  statement (fun s => (s, bool_decide (is_Some (st_refs s !! (connection_id, client_as_str client))))).

Definition ref_cleanup_stale (now ttl_days : Z) : Sql Store N :=
  if ttl_days <? 0 then sql_ret 0%N
  else let cutoff := if ttl_days =? 0 then i64_max else i64_wrap (now - i64_wrap (ttl_days * MICROS_PER_DAY)) in
       statement (delete_refs (fun _ r => rr_last_active r <? cutoff)).

Definition ref_touch_all (now : Z) (client : ClientIdentity) : Sql Store N :=
  statement (fun s =>
    let mine := fun (x : (string * string) * RefRow) => snd (fst x) = client_as_str client in
    (set_refs (map_imap (fun k r => Some (if String.eqb (snd k) (client_as_str client) then mkRRow (rr_kind r) (rr_created_at r) now else r)) (st_refs s)) s,
     N.of_nat (size (filter mine (st_refs s))))).

End Repo.

(** ** Reading what was written *)

Definition read_status (s : ConnectionStatus) : ConnectionStatus := match s with Failed msg => Failed (trim msg) | _ => s end.

Lemma to_lowercase_failed msg : to_lowercase ("failed: " ++ msg) = ("failed:" ++ to_lowercase (" " ++ msg))%string.
Proof. by destruct msg. Qed.

Lemma row_status_display s : row_status (status_display s) = Ok (read_status s).
Proof.
  destruct s as [| | | |msg]; [by vm_compute..|]. unfold row_status. cbn [status_display]. rewrite to_lowercase_failed. cbn. by rewrite trim_space.
Qed.

Definition row_readable (r : ConnRow) : Prop :=
  (exists st, r_status r = status_display st) /\ (exists l, r_language r = lang_as_str l).

Lemma parse_as_str l : parse_language (lang_as_str l) = Ok l.
Proof. by destruct l. Qed.

Lemma readable_ok id r : row_readable r ->
  exists c, row_to_connection id r = Ok c /\ c_id c = id /\ c_last_active c = r_last_active r /\ c_auto_reconnect c = r_auto_reconnect r /\
    exists st, r_status r = status_display st /\ c_status c = read_status st.
Proof.
  intros [[st Hs] [l Hl]]. unfold row_to_connection. rewrite Hs, Hl, row_status_display, parse_as_str. cbn. eexists. repeat split. by exists st.
Qed.

Lemma connection_row_readable c : row_readable (connection_row c).
Proof. split; by eexists. Qed.

(** A value of the Rust type: the port has sixteen bits. *)
Definition typed (c : Connection) : Prop := (c_port c < 2 ^ 16)%N.

Lemma port_roundtrip c : typed c -> of_signed 16 (Z.of_N (c_port c)) = c_port c.
Proof. unfold typed, of_signed. intros Hp. rewrite Z.mod_small by (cbn; lia). lia. Qed.

(** ** The tables stay well formed *)

Record store_ok (s : Store) : Prop := mkStoreOk {
  so_rows : forall id r, st_conns s !! id = Some r -> check_row r = true /\ row_readable r;
  so_unique : forall i j a b, st_conns s !! i = Some a -> st_conns s !! j = Some b -> same_identity a b = true -> i = j;
  so_refs : forall k r, st_refs s !! k = Some r -> is_Some (st_conns s !! fst k)
}.

Lemma same_identity_sym a b : same_identity a b = same_identity b a.
Proof.
  unfold same_identity. destruct (r_name a), (r_name b); [|done..]. rewrite !(String.eqb_sym (r_language a)), (String.eqb_sym s), (String.eqb_sym (r_workspace_root a)), (String.eqb_sym (r_hostname a)). done.
Qed.

Lemma identity_free id r s : identity_taken id r s = false -> forall i a, st_conns s !! i = Some a -> i <> id -> same_identity a r = false.
Proof.
  unfold identity_taken. intros Ht i a Ha Hne. rewrite <- not_true_iff_false, existsb_exists in Ht. destruct (same_identity a r) eqn:E; [|done].
  exfalso. apply Ht. exists (i, a). cbn. rewrite E, andb_true_r. split; [by apply list_elem_of_In, elem_of_map_to_list|].
  by destruct (String.eqb_spec i id).
Qed.

Lemma write_row_ok id r s s' x : row_readable r -> store_ok s -> write_row id r s = Ok (s', x) -> store_ok s'.
Proof.
  unfold write_row. intros Hr [H1 H2 H3] H. res_inv H. injection H as <- <-. rewrite negb_false_iff in E. constructor; cbn.
  - intros i a. destruct (decide (i = id)) as [->|Hne]; [rewrite lookup_insert_eq; by intros [= <-]|]. rewrite lookup_insert_ne by done. apply H1.
  - intros i j a b. pose proof (identity_free _ _ _ E0) as Hf.
    destruct (decide (i = id)) as [->|Hi], (decide (j = id)) as [->|Hj]; rewrite ?lookup_insert_eq, ?lookup_insert_ne by done; [done| | |apply H2].
    + intros [= <-] Hb Hs. rewrite same_identity_sym, (Hf j b) in Hs by done. done.
    + intros Ha [= <-] Hs. rewrite (Hf i a) in Hs by done. done.
  - intros k a Ha%H3. destruct (decide (fst k = id)) as [->|Hne]; [rewrite lookup_insert_eq; by eexists|by rewrite lookup_insert_ne].
Qed.

Lemma delete_where_ok p s : store_ok s -> store_ok (fst (delete_where p s)).
Proof.
  intros [H1 H2 H3]. cbn. constructor; cbn.
  - intros id r [Hr _]%lookup_difference_Some. eauto.
  - intros i j a b [Ha _]%lookup_difference_Some [Hb _]%lookup_difference_Some. eauto.
  - intros k r [Hr Hk]%map_lookup_filter_Some. apply H3 in Hr as [c Hc]. exists c. by apply lookup_difference_Some.
Qed.

(** References may go, and new ones need their connection. *)
Lemma refs_ok s x : store_ok s -> (forall k r, x !! k = Some r -> is_Some (st_conns s !! fst k)) -> store_ok (set_refs x s).
Proof. intros [H1 H2 H3] Hx. by constructor. Qed.

Lemma delete_refs_ok p s : store_ok s -> store_ok (fst (delete_refs p s)).
Proof. intros Hs. apply refs_ok; [done|]. intros k r [Hr _]%lookup_difference_Some. by eapply so_refs. Qed.

#[export] Hint Resolve connection_row_readable delete_where_ok delete_refs_ok : sql.

Section Ops.
Context `{Engine}.

Notation keeps m := (preserves (fun db => store_ok (db_data db)) m).

Lemma upsert_ok c s s' x : store_ok s -> upsert c s = Ok (s', x) -> store_ok s'.
Proof.
  intros Hs. apply write_row_ok; [|done]. destruct (st_conns s !! c_id c); [|apply connection_row_readable].
  destruct (connection_row_readable c) as [H1 H2]. by split.
Qed.

Lemma update_row_ok id f : (forall r, row_readable r -> row_readable (f r)) -> keeps (update_row id f).
Proof.
  intros Hf. apply preserves_bind; [|intros []; auto with sql]. apply preserves_try_statement. intros s s' a Hs.
  destruct (st_conns s !! id) as [old|] eqn:E; [|by intros [= <- <-]]. intros Hw. res_inv Hw. destruct v as [s1 []]. injection Hw as <- <-.
  eapply write_row_ok; [|done|done]. by apply Hf, (so_rows _ Hs id).
Qed.

Lemma add_ok r : keeps (ref_add r).
Proof.
  apply preserves_try_statement. intros s s' a Hs. destruct (st_conns s !! cr_connection_id r) as [c|] eqn:E; [|done]. intros [= <- _].
  apply refs_ok; [done|]. intros k x. destruct (decide (k = (cr_connection_id r, client_as_str (cr_client r)))) as [->|Hne]; [by eexists|].
  rewrite lookup_insert_ne by done. by eapply so_refs.
Qed.

Lemma touch_all_ok now client : keeps (ref_touch_all now client).
Proof.
  apply preserves_statement. intros s Hs. apply refs_ok; [done|]. intros k x. rewrite map_lookup_imap. intros (r & Hr & _)%bind_Some. by eapply so_refs.
Qed.

(** The operations that write. *)
Inductive RepoOp : Type :=
| OSave (c : Connection) | OSaveBatch (cs : list Connection) | OUpdate (c : Connection)
| OUpdateStatus (now : Z) (id : string) (status : ConnectionStatus) | OTouch (now : Z) (id : string)
| ODelete (id : string) | ODeleteDisconnected
| OAddReference (r : ConnectionReference) | ORemoveReference (id : string) (client : ClientIdentity)
| ORemoveClient (client : ClientIdentity) | ORemoveConnection (id : string)
| OCleanupReferences (now ttl_days : Z) | OTouchReferences (now : Z) (client : ClientIdentity).

Definition repo_op (o : RepoOp) (db : Db Store) : Db Store :=
  match o with
  | OSave c => fst (conn_save c db)
  | OSaveBatch cs => fst (conn_save_batch cs db)
  | OUpdate c => fst (conn_update c db)
  | OUpdateStatus now id status => fst (conn_update_status now id status db)
  | OTouch now id => fst (conn_touch now id db)
  | ODelete id => fst (conn_delete id db)
  | ODeleteDisconnected => fst (conn_delete_disconnected db)
  | OAddReference r => fst (ref_add r db)
  | ORemoveReference id client => fst (ref_remove_and_count id client db)
  | ORemoveClient client => fst (ref_remove_all_by_client client db)
  | ORemoveConnection id => fst (ref_remove_all_by_connection id db)
  | OCleanupReferences now ttl_days => fst (ref_cleanup_stale now ttl_days db)
  | OTouchReferences now client => fst (ref_touch_all now client db)
  end.

Lemma save_each_ok cs : keeps (save_each cs).
Proof. induction cs as [|c cs IH]; cbn; [auto with sql|]. apply preserves_bind; [|by auto]. apply preserves_try_statement, upsert_ok. Qed.

Lemma count_each_ok ids : keeps (count_each ids).
Proof. induction ids as [|i ids IH]; cbn; [auto with sql|]. apply preserves_bind; [apply preserves_query|]. auto with sql. Qed.

Lemma conn_save_ok c : keeps (conn_save c).
Proof. apply preserves_bind; [apply preserves_try_statement, upsert_ok|auto with sql]. Qed.
Lemma conn_save_batch_ok cs : keeps (conn_save_batch cs).
Proof. unfold conn_save_batch. destruct cs; [auto with sql|]. apply preserves_bind; [apply preserves_transaction, save_each_ok|auto with sql]. Qed.
Lemma conn_update_status_ok now id status : keeps (conn_update_status now id status).
Proof. apply update_row_ok. intros r [H1 H2]. split; [by eexists|done]. Qed.
Lemma conn_delete_ok id : keeps (conn_delete id).
Proof.
  apply preserves_bind; [apply preserves_statement; auto with sql|]. intros n. destruct (n =? 0)%N; auto with sql.
Qed.
Lemma ref_remove_ok id client : keeps (ref_remove_and_count id client).
Proof.
  apply preserves_transaction, preserves_bind; [apply preserves_statement; auto with sql|]. intros n.
  apply preserves_bind; [apply preserves_query|auto with sql].
Qed.
Lemma ref_remove_all_ok client : keeps (ref_remove_all_by_client client).
Proof.
  apply preserves_transaction, preserves_bind; [apply preserves_query|]. intros [|i l]; [auto with sql|].
  apply preserves_bind; [apply preserves_statement; auto with sql|]. intros _. apply count_each_ok.
Qed.
Lemma ref_cleanup_ok now ttl : keeps (ref_cleanup_stale now ttl).
Proof. unfold ref_cleanup_stale. destruct (ttl <? 0); [auto with sql|]. apply preserves_statement. auto with sql. Qed.

Lemma repo_op_ok o db : store_ok (db_data db) -> store_ok (db_data (repo_op o db)).
Proof.
  destruct o; cbn; intros Hs;
    [by apply conn_save_ok | by apply conn_save_batch_ok | | by apply conn_update_status_ok | | by apply conn_delete_ok | |
     by apply add_ok | by apply ref_remove_ok | by apply ref_remove_all_ok | | by apply ref_cleanup_ok | by apply touch_all_ok].
  - apply update_row_ok; [|done]. intros r _. apply (connection_row_readable c).
  - by apply update_row_ok.
  - apply (preserves_statement store_ok); [auto with sql|done].
  - apply (preserves_statement store_ok); [auto with sql|done].
Qed.
End Ops.

(** ** Queries on well-formed tables *)

Section Queries.
Context `{Engine}.

Lemma select_conns_spec p s x : x ∈ select_conns p s <-> st_conns s !! fst x = Some (snd x) /\ p (fst x) (snd x) = true.
Proof.
  unfold select_conns. rewrite visit_perm, list_elem_of_In, filter_In, <- list_elem_of_In. destruct x as [id r]. by rewrite elem_of_map_to_list.
Qed.

(** Rows of a well-formed table are read in the order they come. *)
Lemma read_rows_ok s rows : store_ok s -> (forall x, x ∈ rows -> st_conns s !! fst x = Some (snd x)) ->
  exists cs, collect_results (fun x => row_to_connection (fst x) (snd x)) rows = Ok cs /\
    Forall2 (fun x c => row_to_connection (fst x) (snd x) = Ok c) rows cs.
Proof.
  intros Hs Hx. apply collect_total. intros x Hin. destruct (readable_ok (fst x) (snd x)) as (c & Hc & _); [|by exists c].
  by apply (so_rows _ Hs (fst x)), Hx.
Qed.

Lemma conn_row_fields id r c : row_to_connection id r = Ok c ->
  c_id c = id /\ c_last_active c = r_last_active r /\ c_auto_reconnect c = r_auto_reconnect r /\ c_host c = r_host r.
Proof. unfold row_to_connection. intros Hc. res_inv Hc. by injection Hc as <-. Qed.

Lemma desc_rel {A B : Type} (f : A -> Z) (g : B -> Z) (R : A -> B -> Prop) l l' :
  (forall a b, R a b -> f a = g b) -> Forall2 R l l' -> desc f l -> desc g l'.
Proof.
  intros Hk HR. induction HR as [|a b l l' Hab HR IH]; intros Hd; inversion Hd as [|? ? Hd' Ha]; subst; constructor; [by apply IH|].
  clear IH Hd' Hd. induction HR as [|a' b' l l' Hab' HR IH]; inversion Ha; subst; constructor; [|by apply IH].
  rewrite <- (Hk _ _ Hab), <- (Hk _ _ Hab'). done.
Qed.

(** [fetch_conns] reads what its condition selects, the last active first, and
    fails only when the database does. *)
Lemma fetch_conns_spec p db : store_ok (db_data db) ->
  match snd (fetch_conns p db) with
  | Ok cs => desc c_last_active cs /\
      Permutation (map c_id cs) (map fst (select_conns p (db_data db))) /\
      (forall c, c ∈ cs <-> exists r, st_conns (db_data db) !! c_id c = Some r /\ p (c_id c) r = true /\ row_to_connection (c_id c) r = Ok c)
  | Err e => e = Database "database error"
  end.
Proof.
  intros Hs. unfold fetch_conns, sql_bind, sql_lift. set (q := fun s => order_desc (fun x => r_last_active (snd x)) (select_conns p s)).
  pose proof (statement_cases (fun s => (s, q s)) db) as Hc. destruct (statement _ db) as [db' r].
  destruct Hc as [[_ ->]|[_ ->]]; [done|]. cbn [snd].
  destruct (read_rows_ok (db_data db) (q (db_data db))) as (cs & -> & HF); [done| |].
  { intros x. unfold q. rewrite order_desc_perm, select_conns_spec. by intros [? _]. }
  split; [|split].
  - eapply (desc_rel _ _ _ _ _ (fun x c Hr => eq_sym (proj1 (proj2 (conn_row_fields _ _ c Hr)))) HF). apply order_desc_sorted.
  - transitivity (map fst (q (db_data db))).
    + apply reflexive_eq. induction HF as [|x c l l' Hc HF IH]; [done|]. cbn. rewrite IH. f_equal. by apply conn_row_fields in Hc as [-> _].
    + unfold q. by rewrite order_desc_perm.
  - intros c. split.
    + intros Hin. apply list_elem_of_lookup in Hin as [i Hi]. destruct (Forall2_lookup_r _ _ _ _ _ HF Hi) as (x & Hx & Hr).
      apply list_elem_of_lookup_2 in Hx. unfold q in Hx. rewrite order_desc_perm, select_conns_spec in Hx.
      pose proof (conn_row_fields _ _ _ Hr) as [-> _]. naive_solver.
    + intros (r & Hr & Hp & Hc). assert ((c_id c, r) ∈ q (db_data db)) as Hin by (unfold q; by rewrite order_desc_perm, select_conns_spec).
      apply list_elem_of_lookup in Hin as [i Hi]. destruct (Forall2_lookup_l _ _ _ _ _ HF Hi) as (c' & Hc' & E). cbn in E.
      rewrite Hc in E. injection E as <-. by eapply list_elem_of_lookup_2.
Qed.
End Queries.

Section Results.
Context `{Engine}.

Definition no_rows_but (id : string) (s : Store) : list (string * ConnRow) :=
  match st_conns s !! id with Some r => [(id, r)] | None => [] end.

Lemma select_by_id id s : select_conns (fun i _ => String.eqb i id) s = no_rows_but id s.
Proof.
  unfold no_rows_but. pose proof (select_conns_spec (fun i _ => String.eqb i id) s) as Hsel.
  assert (NoDup (select_conns (fun i _ => String.eqb i id) s)) as Hnd.
  { unfold select_conns. rewrite visit_perm. apply NoDup_ListNoDup, List.NoDup_filter, NoDup_ListNoDup, NoDup_map_to_list. }
  destruct (select_conns _ s) as [|[i r] rest] eqn:E.
  - destruct (st_conns s !! id) as [r|] eqn:Er; [|done]. assert ((id, r) ∈ @nil (string * ConnRow)) as Hx; [|by apply not_elem_of_nil in Hx].
    apply Hsel. cbn. by rewrite String.eqb_refl.
  - destruct (proj1 (Hsel (i, r))) as [Hr Hi]; [by left|]. cbn in Hr, Hi. apply String.eqb_eq in Hi as ->. rewrite Hr. f_equal.
    destruct rest as [|[j r'] rest]; [done|]. destruct (proj1 (Hsel (j, r'))) as [Hr' Hj]; [by right; left|]. cbn in Hr', Hj. apply String.eqb_eq in Hj as ->.
    rewrite Hr in Hr'. injection Hr' as <-. inversion Hnd as [|? ? Hn _]; subst. destruct Hn. by left.
Qed.

(** [find_by_id] reads the row of the id, or fails with the database. *)
Lemma find_by_id_calm id s : store_ok s ->
  conn_find_by_id id (mkDb s []) =
  (mkDb s [], match st_conns s !! id with Some r => res_map Some (row_to_connection id r) | None => Ok None end).
Proof.
  intros Hs. unfold conn_find_by_id, fetch_optional_conn, sql_bind. rewrite statement_calm. cbn. rewrite select_by_id. unfold no_rows_but.
  destruct (st_conns s !! id) as [r|] eqn:Er; [|done]. cbn. by destruct (row_to_connection id r).
Qed.

(** What a saved connection reads as. *)
Definition saved_connection (s : Store) (c : Connection) : Connection :=
  let old := st_conns s !! c_id c in
  mkConn (c_id c) (c_name c) (c_workspace_root c) (c_hostname c) (c_host c) (c_port c) (c_language c) (read_status (c_status c))
    (c_auto_reconnect c) (c_safe_mode c) (c_control_plane_url c) (c_build_commit c) (c_build_tag c)
    (match c_user_id c, old with Some u, _ => Some u | None, Some r => r_user_id r | None, None => None end)
    (match old with Some r => r_created_at r | None => c_created_at c end) (c_last_connected_at c) (c_last_active c).

(** A saved connection reads back as it was, but for blanks around the message
    of a failure; one that was there keeps its time of creation, and its owner
    unless a new one is given.  A save that is refused changes nothing, and is
    refused only by the database, the checks on port and host, or another
    connection with the identity. *)
Theorem saved_connection_reads_back c s fs : store_ok s -> typed c ->
  match conn_save c (mkDb s fs) with
  | (db', Ok id) => id = c_id c /\ store_ok (db_data db') /\
      snd (conn_find_by_id id (mkDb (db_data db') [])) = Ok (Some (saved_connection s c)) /\
      (forall i, i <> id -> st_conns (db_data db') !! i = st_conns s !! i) /\ st_refs (db_data db') = st_refs s
  | (db', Err e) => db_data db' = s /\
      (e = Database "database error" \/ e = Database "CHECK constraint failed" \/
       e = Database "UNIQUE constraint failed" /\ identity_taken (c_id c) (connection_row c) s = true)
  end.
Proof.
  intros Hs Ht. pose proof (conn_save_ok c (mkDb s fs) Hs) as Hok. unfold conn_save, sql_bind in *.
  pose proof (try_statement_cases (upsert c) (mkDb s fs)) as Hc. destruct (try_statement _ _) as [db' [[]|e]]; cbn [sql_ret fst db_data] in *.
  - split; [done|]. split; [exact Hok|]. unfold upsert, write_row in Hc. res_inv Hc. injection Hc as Hc.
    rewrite find_by_id_calm by done. rewrite <- Hc. cbn. rewrite lookup_insert_eq. split; [|split; [|done]].
    + unfold row_to_connection, saved_connection.
      destruct (st_conns s !! c_id c) as [old|]; cbn; rewrite row_status_display, parse_as_str; cbn; rewrite port_roundtrip by done; by destruct (c_user_id c).
    + intros i Hi. by rewrite lookup_insert_ne.
  - destruct Hc as [-> [->|Hc]]; [auto|]. split; [done|]. right. unfold upsert, write_row in Hc.
    destruct (negb (check_row _)); [left; by injection Hc|]. destruct (identity_taken _ _ s) eqn:E; [|done]. right. split; [by injection Hc|].
    rewrite <- E. by destruct (st_conns s !! c_id c).
Qed.

Lemma empty_store_ok : store_ok empty_store.
Proof. constructor; cbn; intros *; by rewrite lookup_empty. Qed.

Lemma repo_ops_ok l db : store_ok (db_data db) -> store_ok (db_data (fold_left (fun db o => repo_op o db) l db)).
Proof. revert db. induction l as [|o l IH]; intros db Hs; [done|]. cbn. by apply IH, repo_op_ok. Qed.

(** C11: the tables are well formed.  After any operations, whatever fails: every row
    reads as a connection with a host and an admissible port, no two connections
    share a named identity, every reference is to a connection that exists, and
    listing returns every connection once, the last active first, unless the
    database fails. *)
Theorem connection_tables_typed l fs :
  let db := fold_left (fun db o => repo_op o db) l (mkDb empty_store fs) in
  let s := db_data db in
  (forall id r, st_conns s !! id = Some r ->
     (r_port r = 0 \/ 1024 <= r_port r) /\ r_host r <> EmptyString /\ exists c, row_to_connection id r = Ok c /\ c_id c = id) /\
  (forall i j a b, st_conns s !! i = Some a -> st_conns s !! j = Some b -> r_name a = r_name b -> is_Some (r_name a) ->
     r_language a = r_language b -> r_workspace_root a = r_workspace_root b -> r_hostname a = r_hostname b -> i = j) /\
  (forall cid client r, st_refs s !! (cid, client) = Some r -> is_Some (st_conns s !! cid)) /\
  match snd (conn_list_all db) with
  | Ok cs => desc c_last_active cs /\ Permutation (map c_id cs) (map fst (map_to_list (st_conns s)))
  | Err e => e = Database "database error"
  end.
Proof.
  cbn zeta. set (db := fold_left _ _ _). assert (store_ok (db_data db)) as Hs by (apply repo_ops_ok, empty_store_ok).
  split; [|split; [|split]].
  - intros id r Hr. destruct (so_rows _ Hs _ _ Hr) as [Hc Hread]. unfold check_row in Hc. apply andb_true_iff in Hc as [Hp Hh].
    split; [apply orb_true_iff in Hp as [Hp|Hp]; lia|]. split; [intros E; by rewrite E in Hh|].
    destruct (readable_ok id r Hread) as (c & Hc & Hi & _). eauto.
  - intros i j a b Ha Hb En [n Hn] El Ew Eh. apply (so_unique _ Hs i j a b Ha Hb). unfold same_identity. rewrite <- En, Hn, El, Ew, Eh.
    by rewrite !String.eqb_refl.
  - intros cid client r. apply (so_refs _ Hs).
  - pose proof (fetch_conns_spec (fun _ _ => true) db Hs) as Hf. change (fetch_conns (fun _ _ => true) db) with (conn_list_all db) in Hf.
    destruct (snd (conn_list_all db)); [|done]. destruct Hf as (H1 & H2 & _). split; [done|]. rewrite H2. unfold select_conns.
    rewrite visit_perm, List.filter_true. done.
Qed.

(** The query for connections to reconnect compares the stored text with
    [failed], which is never the text of a failure: it finds every other
    connection that should reconnect, and none that failed. *)
Theorem failed_not_found_for_reconnect l fs :
  let db := fold_left (fun db o => repo_op o db) l (mkDb empty_store fs) in
  forall cs, snd (conn_find_for_reconnect db) = Ok cs -> forall id r c, st_conns (db_data db) !! id = Some r -> row_to_connection id r = Ok c ->
  (c ∈ cs <-> c_auto_reconnect c = true /\ (c_status c = Connected \/ c_status c = Disconnected \/ c_status c = Reconnecting)).
Proof.
  cbn zeta. set (db := fold_left _ _ _). assert (store_ok (db_data db)) as Hs by (apply repo_ops_ok, empty_store_ok).
  intros cs Hcs id r c Hr Hc. pose proof (fetch_conns_spec (fun _ r => r_auto_reconnect r && lower_in ["connected"; "disconnected"; "reconnecting"; "failed"] r) db Hs) as Hf.
  change (fetch_conns _ db) with (conn_find_for_reconnect db) in Hf. rewrite Hcs in Hf. destruct Hf as (_ & _ & Hin).
  destruct (so_rows _ Hs _ _ Hr) as [_ Hread]. destruct (readable_ok id r Hread) as (c' & Hc' & Hid & _ & Ha & st & Est & Es).
  rewrite Hc in Hc'. injection Hc' as <-. rewrite Hin, Ha, Es, Hid. split.
  - intros (r' & Hr' & Hp & _). rewrite Hr in Hr'. injection Hr' as <-. apply andb_true_iff in Hp as [-> Hp]. split; [done|].
    unfold lower_in in Hp. rewrite Est in Hp. destruct st; cbn [status_display status_as_str] in Hp; try (by vm_compute in Hp); cbn; auto.
  - intros [Hau Hst]. exists r. rewrite Hau. split; [done|]. split; [|done]. unfold lower_in. rewrite Est.
    destruct st; cbn in Hst; try (by destruct Hst as [?|[?|?]]); done.
Qed.
End Results.
