(* ===== verification/AdapterMetrics.v ===== *)
(** * Metrics in the debugger

    [crates/detrix-dap/src/base/metrics.rs] (setting and removing metrics as
    logpoints), [base/adapter.rs] (path resolution, reading the
    [setBreakpoints] answer), [base/introspection.rs]
    ([find_metrics_at_location]) and [base/events.rs] ([handle_output_event]).

    The tracking map is a [gmap] from metric names; the order in which a
    [HashMap] yields its entries is a parameter [entries], constrained to be
    some order of the map's contents.  The debugger is an interface with the
    law the Debug Adapter Protocol documents: a successful [setBreakpoints]
    replaces all breakpoints of the source it names and touches no other. *)

From Stdlib Require Import Strings.String Strings.Ascii.
From stdpp Require Import gmap sorting.
From S2P Require Import Prelude RustStr CoreError Location Language Metric Event Logpoint OutputParsers.

Local Open Scope string_scope.
Local Arguments String.append !_ _ / : simpl nomatch.

(** ** Breakpoints *)

Record SourceBreakpoint : Type := mkSB {
  sb_line : N; sb_column : option N; sb_condition : option string;
  sb_hit_condition : option string; sb_log_message : option string
}.
Definition at_line (line : N) : SourceBreakpoint := mkSB line None None None None.
Definition logpoint (line : N) (message : string) : SourceBreakpoint := mkSB line None None None (Some message).

(** [expression_contains_function_call] *)
Definition ident_tail (c : ascii) : bool := is_ascii_alphanumeric c || Ascii.eqb c "_" || Ascii.eqb c ".".
Fixpoint expression_contains_function_call (expr : string) : bool :=
  match expr with
  | String p (String c _ as r) => (Ascii.eqb c "(" && ident_tail p) || expression_contains_function_call r
  | _ => false
  end.

Definition needs_introspection (m : Metric) : bool := m_capture_stack_trace m || m_capture_memory_snapshot m.
Definition is_go_function_call (m : Metric) : bool :=
  bool_decide (m_language m = Go) && existsb expression_contains_function_call (m_expressions m).

Definition build_source_breakpoint (m : Metric) (supports_logpoint_introspection : bool) (logpoint_message : string) : SourceBreakpoint :=
  if (needs_introspection m && negb supports_logpoint_introspection) || is_go_function_call m
  then at_line (loc_line (m_location m))
  else logpoint (loc_line (m_location m)) logpoint_message.

(** ** The debugger's side *)

Inductive DapError : Type :=
| DapProtocol (msg : string)
| DapInvalidMessage (msg : string)
| DapAdapterNotFound (msg : string)
| DapCommunication (msg : string)
| DapInitializationFailed (msg : string)
| DapTimeout (ms : N).

Record SetBreakpointsArguments : Type := mkSBA {
  sba_source : Source;
  sba_breakpoints : list SourceBreakpoint
}.

(** One entry of the answer's [breakpoints] array, as read by [get]. *)
Record BreakpointInfo : Type := mkBI { bi_verified : option bool; bi_line : option N; bi_message : option string }.

(** [body] is the array, when the body has one. *)
Record SetBreakpointsResponse : Type := mkSBR {
  sbr_success : bool; sbr_message : option string; sbr_body : option (list BreakpointInfo)
}.

Class Debugger (D : Type) : Type := {
  send_set_breakpoints : D -> SetBreakpointsArguments -> D * result SetBreakpointsResponse DapError;
  breakpoints_of : D -> string -> list SourceBreakpoint
}.

Class DebuggerLaws (D : Type) `{Debugger D} : Prop := {
  set_breakpoints_replaces : forall d args d' r path,
    send_set_breakpoints d args = (d', Ok r) -> sbr_success r = true ->
    src_path (sba_source args) = Some path ->
    breakpoints_of d' path = sba_breakpoints args /\
    forall other, other <> path -> breakpoints_of d' other = breakpoints_of d other;
  set_breakpoints_refused : forall d args d' r,
    send_set_breakpoints d args = (d', Ok r) -> sbr_success r = false ->
    forall path, breakpoints_of d' path = breakpoints_of d path
}.

(** [parse_breakpoint_response] *)
Definition parse_breakpoint_response (body : option (list BreakpointInfo)) (default_line : N) : bool * N * option string :=
  match body with
  | Some (bp :: _) =>
      (default false (bi_verified bp),
       match bi_line bp with Some l => wrap 32 l | None => default_line end,
       bi_message bp)
  | _ => (false, default_line, None)
  end.

(** [BaseAdapter::resolve_path], with [PathBuf::join] as on Unix. *)
Definition path_join (base file : string) : string :=
  if str_is_empty base then file
  else if ends_with "/" base then base ++ file
  else base ++ "/" ++ file.
Definition resolve_path (base file : string) : string :=
  if starts_with "/" file then file else path_join base file.

(** ** Setting and removing metrics *)

Record SetMetricResult : Type := mkSMR { smr_verified : bool; smr_line : N; smr_message : option string }.
Record RemoveMetricResult : Type := mkRMR { rmr_confirmed : bool; rmr_message : option string }.

(** What an [OutputParser] contributes. *)
Class LogpointLanguage (P : Type) : Type := {
  lang_build_message : P -> Metric -> string;
  lang_logpoint_introspection : P -> bool
}.

Inductive PythonParser : Type := PythonP.
Inductive GoParser : Type := GoP.
Inductive RustParser : Type := RustP.
#[export] Instance python_language : LogpointLanguage PythonParser :=
  {| lang_build_message _ := python_build_logpoint_message; lang_logpoint_introspection _ := true |}.
#[export] Instance go_language : LogpointLanguage GoParser :=
  {| lang_build_message _ := build_logpoint_message; lang_logpoint_introspection _ := false |}.
#[export] Instance rust_language : LogpointLanguage RustParser :=
  {| lang_build_message _ := build_logpoint_message; lang_logpoint_introspection _ := false |}.

Record AdapterState (D : Type) : Type := mkAS {
  as_active : gmap string Metric;
  as_debugger : D
}.
Arguments mkAS {D} _ _.
Arguments as_active {D} _.
Arguments as_debugger {D} _.

Section Manager.
Context {P D : Type} `{LogpointLanguage P} `{Debugger D}.
Context (p : P) (base : string).
(** The iteration order of the map. *)
Context (entries : gmap string Metric -> list (string * Metric)).

Definition breakpoint_of (m : Metric) : SourceBreakpoint :=
  build_source_breakpoint m (lang_logpoint_introspection p) (lang_build_message p m).

Definition in_file (file : string) (m : Metric) : bool := String.eqb (loc_file (m_location m)) file.

Definition file_breakpoints (active : gmap string Metric) (file : string) : list SourceBreakpoint :=
  map breakpoint_of (List.filter (in_file file) (map snd (entries active))).

Definition request_for (active : gmap string Metric) (file : string) : SetBreakpointsArguments :=
  mkSBA (mkSource (Some (resolve_path base file)) (Some file) None) (file_breakpoints active file).

(** [broker] is the outcome of [adapter().broker()]. *)
Definition set_metric (broker : result unit DapError) (m : Metric) (st : AdapterState D)
    : AdapterState D * result SetMetricResult DapError :=
  let file := loc_file (m_location m) in
  let active := <[m_name m := m]> (as_active st) in
  match broker with
  | Err e => (mkAS active (as_debugger st), Err e)
  | Ok _ =>
      match send_set_breakpoints (as_debugger st) (request_for active file) with
      | (d, Err e) => (mkAS active d, Err e)
      | (d, Ok response) =>
          if negb (sbr_success response) then
            (mkAS (delete (m_name m) active) d,
             Err (DapProtocol ("Failed to set breakpoint: " ++ default "Unknown error" (sbr_message response))))
          else
            let '(verified, actual_line, message) :=
              parse_breakpoint_response (sbr_body response) (loc_line (m_location m)) in
            (mkAS active d, Ok (mkSMR verified actual_line message))
      end
  end.

Definition remove_metric (broker : result unit DapError) (m : Metric) (st : AdapterState D)
    : AdapterState D * result RemoveMetricResult DapError :=
  let file := loc_file (m_location m) in
  let active := delete (m_name m) (as_active st) in
  match broker with
  | Err e => (mkAS active (as_debugger st), Err e)
  | Ok _ =>
      match send_set_breakpoints (as_debugger st) (request_for active file) with
      | (d, Err e) => (mkAS active d, Err e)
      | (d, Ok response) => (mkAS active d, Ok (mkRMR (sbr_success response) (sbr_message response)))
      end
  end.
End Manager.

(** ** Specification: the debugger mirrors the tracking map *)

(** The metrics tracked for a file, as the map defines them (no order). *)
Definition tracked_in (active : gmap string Metric) (file : string) : list Metric :=
  (map_to_list (filter (fun km : string * Metric => loc_file (m_location km.2) = file) active)).*2.

Lemma in_file_filter file l :
  List.filter (in_file file) (map snd l) = (filter (fun km : string * Metric => loc_file (m_location km.2) = file) l).*2.
Proof.
  induction l as [|[k m] l IH]; [done|]. rewrite filter_cons. cbn. unfold in_file at 1.
  destruct (String.eqb_spec (loc_file (m_location m)) file); case_decide; try done; cbn; by rewrite IH.
Qed.

Lemma tracked_in_perm (entries : gmap string Metric -> list (string * Metric)) active file :
  entries active ≡ₚ map_to_list active ->
  List.filter (in_file file) (map snd (entries active)) ≡ₚ tracked_in active file.
Proof.
  intros Hperm. rewrite in_file_filter. unfold tracked_in. rewrite map_filter_alt.
  rewrite map_to_list_to_map; [by rewrite Hperm|].
  eapply sublist_NoDup; [apply (NoDup_fst_map_to_list active)|].
  apply fmap_sublist, sublist_filter.
Qed.

Lemma tracked_in_insert_other active file m :
  loc_file (m_location m) <> file ->
  (forall m', active !! m_name m = Some m' -> loc_file (m_location m') <> file) ->
  tracked_in (<[m_name m := m]> active) file = tracked_in active file.
Proof. intros Hm Hold. unfold tracked_in. by rewrite map_filter_insert_not'. Qed.

Lemma tracked_in_delete_other active file name :
  (forall m', active !! name = Some m' -> loc_file (m_location m') <> file) ->
  tracked_in (delete name active) file = tracked_in active file.
Proof. intros Hold. unfold tracked_in. by rewrite map_filter_delete_not. Qed.

Section Mirror.
Context {P D : Type} `{LogpointLanguage P} `{Hdbg : Debugger D} `{!DebuggerLaws D}.
Context (p : P) (base : string).
Context (entries : gmap string Metric -> list (string * Metric)).
Hypothesis entries_perm : forall m, entries m ≡ₚ map_to_list m.

Notation set_m := (set_metric p base entries (Ok tt)).
Notation remove_m := (remove_metric p base entries (Ok tt)).

Definition absolute (file : string) : Prop := starts_with "/" file = true.

Definition mirrored (st : AdapterState D) (file : string) : Prop :=
  breakpoints_of (as_debugger st) file ≡ₚ map (breakpoint_of p) (tracked_in (as_active st) file).

(** The debugger holds, at the path to which the spelling [file] resolves, the
    breakpoints of the metrics tracked under that spelling. *)
Definition mirrored_at (st : AdapterState D) (file : string) : Prop :=
  breakpoints_of (as_debugger st) (resolve_path base file) ≡ₚ map (breakpoint_of p) (tracked_in (as_active st) file).

(** Metrics named by absolute paths; a name keeps its file while it is tracked. *)
Definition same_file (st : AdapterState D) (m : Metric) : Prop :=
  absolute (loc_file (m_location m)) /\
  forall m', as_active st !! m_name m = Some m' -> loc_file (m_location m') = loc_file (m_location m).

Inductive reachable : AdapterState D -> Prop :=
| reach_init d : (forall file, breakpoints_of d file = []) -> reachable (mkAS ∅ d)
| reach_set st st' m r : reachable st -> same_file st m -> set_m m st = (st', Ok r) -> reachable st'
| reach_refused st st' m e : reachable st -> same_file st m -> as_active st !! m_name m = None ->
    set_m m st = (st', Err e) -> as_active st' !! m_name m = None -> reachable st'
| reach_remove st st' m r : reachable st -> same_file st m -> remove_m m st = (st', Ok r) ->
    rmr_confirmed r = true -> reachable st'.

Lemma resolve_absolute file : absolute file -> resolve_path base file = file.
Proof. unfold absolute, resolve_path. by intros ->. Qed.

(** A request for [file] that the debugger accepts puts the two in agreement. *)
Lemma request_mirrors_at active file d d' r :
  send_set_breakpoints d (request_for p base entries active file) = (d', Ok r) -> sbr_success r = true ->
  mirrored_at (mkAS active d') file /\
  forall other, other <> resolve_path base file -> breakpoints_of d' other = breakpoints_of d other.
Proof.
  intros Hsend Hok.
  destruct (set_breakpoints_replaces _ _ _ _ (resolve_path base file) Hsend Hok) as [Hbp Hother]; [done|].
  split; [|exact Hother]. unfold mirrored_at. cbn. rewrite Hbp. cbn. unfold file_breakpoints.
  apply Permutation_map. by apply tracked_in_perm.
Qed.
Lemma request_mirrors active file d d' r :
  absolute file -> send_set_breakpoints d (request_for p base entries active file) = (d', Ok r) ->
  sbr_success r = true ->
  mirrored (mkAS active d') file /\
  forall other, other <> file -> breakpoints_of d' other = breakpoints_of d other.
Proof.
  intros Habs Hsend Hok. destruct (request_mirrors_at _ _ _ _ _ Hsend Hok) as [Hm Ho]. unfold mirrored_at in Hm. rewrite resolve_absolute in Hm, Ho by done. done.
Qed.

Lemma set_metric_ok_inv m st st' r :
  set_m m st = (st', Ok r) ->
  exists resp, send_set_breakpoints (as_debugger st)
      (request_for p base entries (<[m_name m := m]> (as_active st)) (loc_file (m_location m))) = (as_debugger st', Ok resp) /\
    sbr_success resp = true /\ as_active st' = <[m_name m := m]> (as_active st).
Proof.
  unfold set_metric. destruct (send_set_breakpoints _ _) as [d [resp|e]]; [|done].
  destruct (sbr_success resp) eqn:E; [|done]. cbn.
  destruct (parse_breakpoint_response _ _) as [[? ?] ?]. intros [= <- _]. eauto.
Qed.

Lemma set_metric_refused_inv m st st' e :
  set_m m st = (st', Err e) -> as_active st !! m_name m = None -> as_active st' !! m_name m = None ->
  as_active st' = as_active st /\ forall file, breakpoints_of (as_debugger st') file = breakpoints_of (as_debugger st) file.
Proof.
  unfold set_metric. intros Hset Hnone Hnone'.
  destruct (send_set_breakpoints _ _) as [d [resp|e']] eqn:Hs.
  - destruct (sbr_success resp) eqn:E.
    + cbn in Hset. by destruct (parse_breakpoint_response _ _) as [[? ?] ?].
    + cbn in Hset. injection Hset as <- _. cbn. split; [by rewrite delete_insert_id|].
      by eapply set_breakpoints_refused.
  - injection Hset as <- _. cbn in Hnone'. by rewrite lookup_insert_eq in Hnone'.
Qed.

Lemma remove_metric_ok_inv m st st' r :
  remove_m m st = (st', Ok r) -> rmr_confirmed r = true ->
  exists resp, send_set_breakpoints (as_debugger st)
      (request_for p base entries (delete (m_name m) (as_active st)) (loc_file (m_location m))) = (as_debugger st', Ok resp) /\
    sbr_success resp = true /\ as_active st' = delete (m_name m) (as_active st).
Proof.
  unfold remove_metric. destruct (send_set_breakpoints _ _) as [d [resp|e]]; [|done].
  intros [= <- <-] Hc. cbn in Hc. eauto.
Qed.

Lemma mirrored_transfer st st' file :
  mirrored st file -> breakpoints_of (as_debugger st') file = breakpoints_of (as_debugger st) file ->
  tracked_in (as_active st') file = tracked_in (as_active st) file -> mirrored st' file.
Proof. unfold mirrored. by intros Hm -> ->. Qed.

(** The debugger mirrors the tracking map. However the metrics of a
    session are set, refused and removed, and whatever order the map yields
    its entries in, every source file's breakpoints in the debugger are
    exactly those of the metrics tracked for it, each once. *)
Theorem debugger_mirrors_active_metrics st file :
  reachable st -> absolute file -> mirrored st file.
Proof.
  intros Hr. revert file. induction Hr as [d Hd|st st' m r Hr IH [Habs Hsame] Hset|st st' m e Hr IH Hsame Hnone Hset Hnone'|st st' m r Hr IH [Habs Hsame] Hrem Hc];
    intros file Hfile.
  - unfold mirrored. cbn. by rewrite Hd.
  - destruct (set_metric_ok_inv _ _ _ _ Hset) as (resp & Hsend & Hok & Hact).
    destruct (request_mirrors _ _ _ _ _ Habs Hsend Hok) as [Hown Hother].
    destruct st' as [active' d']. cbn in *. subst active'.
    destruct (decide (file = loc_file (m_location m))) as [->|Hne]; [done|].
    eapply (mirrored_transfer st); [by apply IH|by apply Hother|].
    apply tracked_in_insert_other; [done|]. intros m' Hm'. rewrite (Hsame _ Hm'). done.
  - destruct (set_metric_refused_inv _ _ _ _ Hset Hnone Hnone') as [Hact Hbp].
    eapply (mirrored_transfer st); [by apply IH|apply Hbp|by rewrite Hact].
  - destruct (remove_metric_ok_inv _ _ _ _ Hrem Hc) as (resp & Hsend & Hok & Hact).
    destruct (request_mirrors _ _ _ _ _ Habs Hsend Hok) as [Hown Hother].
    destruct st' as [active' d']. cbn in *. subst active'.
    destruct (decide (file = loc_file (m_location m))) as [->|Hne]; [done|].
    eapply (mirrored_transfer st); [by apply IH|by apply Hother|].
    apply tracked_in_delete_other. intros m' Hm'. rewrite (Hsame _ Hm'). done.
Qed.
End Mirror.

(** ** A concrete debugger *)

(** Accepts every request and reports each breakpoint verified at its line. *)
Record EchoDebugger : Type := mkEcho { echo_bps : gmap string (list SourceBreakpoint) }.
#[export] Instance echo_debugger : Debugger EchoDebugger := {|
  send_set_breakpoints d args :=
    (mkEcho (match src_path (sba_source args) with
             | Some path => <[path := sba_breakpoints args]> (echo_bps d)
             | None => echo_bps d
             end),
     Ok (mkSBR true None (Some (map (fun b => mkBI (Some true) (Some (sb_line b)) None) (sba_breakpoints args)))));
  breakpoints_of d path := default [] (echo_bps d !! path)
|}.

#[export] Instance echo_debugger_laws : DebuggerLaws EchoDebugger.
Proof.
  split.
  - intros d args d' r path [= <- <-] _ Hp. cbn. rewrite Hp. cbn. split; [by rewrite lookup_insert_eq|].
    intros other Hne. by rewrite lookup_insert_ne.
  - intros d args d' r [= <- <-] [=].
Qed.

Definition empty_session : AdapterState EchoDebugger := mkAS ∅ (mkEcho ∅).

Lemma debugger_mirrors_active_metrics_witness :
  let m := sample_metric 1 "alpha" "/a.py" 3 ["x"] in
  let st := fst (set_metric PythonP "/w" map_to_list (Ok tt) m empty_session) in
  mirrored PythonP st "/a.py" /\ breakpoints_of (as_debugger st) "/a.py" = [logpoint 3 "DETRICS:alpha={x}"].
Proof.
  split.
  - eapply (debugger_mirrors_active_metrics PythonP "/w" map_to_list); [done| |done].
    eapply (reach_set _ _ _ empty_session _ (sample_metric 1 "alpha" "/a.py" 3 ["x"])).
    + constructor. intros file. done.
    + split; [done|]. intros m' Hm'. done.
    + vm_compute. reflexivity.
  - vm_compute. reflexivity.
Defined.

(** What each outcome of [set_metric] leaves behind. An accepted request
    and a failed transport both keep the metric tracked (in the second case the
    debugger may never have heard of it); only a refusal by the debugger takes
    it out again, and then any metric tracked under that name before is gone
    too. *)
Theorem set_metric_tracking {P D : Type} `{LogpointLanguage P} `{Debugger D} (p : P) base entries broker m (st : AdapterState D) :
  let '(st', outcome) := set_metric p base entries broker m st in
  match outcome with
  | Ok _ => as_active st' = <[m_name m := m]> (as_active st)
  | Err _ =>
      as_active st' = <[m_name m := m]> (as_active st)
        /\ (forall d r, broker = Ok tt -> send_set_breakpoints (as_debugger st) (request_for p base entries (<[m_name m := m]> (as_active st)) (loc_file (m_location m))) = (d, Ok r) -> False)
      \/ as_active st' = delete (m_name m) (as_active st)
        /\ exists d r, broker = Ok tt /\ send_set_breakpoints (as_debugger st) (request_for p base entries (<[m_name m := m]> (as_active st)) (loc_file (m_location m))) = (d, Ok r)
           /\ sbr_success r = false
  end.
Proof.
  unfold set_metric. destruct broker as [[]|e]; [|by left].
  destruct (send_set_breakpoints _ _) as [d [r|e]] eqn:Hs.
  - destruct (sbr_success r) eqn:E; cbn.
    + by destruct (parse_breakpoint_response _ _) as [[? ?] ?].
    + right. split; [|by eauto]. by rewrite delete_insert_eq.
  - left. split; [done|]. intros d' r _ Heq. congruence.
Qed.

Definition name_le (a b : string * Metric) : Prop := String.leb a.1 b.1 = true.
#[export] Instance name_le_dec a b : Decision (name_le a b) := bool_eq_dec (String.leb a.1 b.1) true.

(** The line reported for a metric can be another metric's. The answer's
    first breakpoint is read, while the request lists the file's metrics in
    map order: after [alpha] (line 3) is set, setting [beta] at line 7 reports
    that [beta] was placed at line 3. *)
Theorem set_metric_reports_another_metrics_line :
  exists entries : gmap string Metric -> list (string * Metric),
    (forall m, entries m ≡ₚ map_to_list m) /\
    let alpha := sample_metric 1 "alpha" "/a.py" 3 ["x"] in
    let beta := sample_metric 2 "beta" "/a.py" 7 ["y"] in
    let st1 := fst (set_metric PythonP "/w" entries (Ok tt) alpha empty_session) in
    snd (set_metric PythonP "/w" entries (Ok tt) beta st1) = Ok (mkSMR true 3 None).
Proof.
  exists (fun m => merge_sort name_le (map_to_list m)).
  split; [intros m; apply merge_sort_Permutation|]. vm_compute. reflexivity.
Qed.

(** Two spellings of one file erase each other. A metric set under the
    absolute path disappears from the debugger when another is set under the
    relative path, although it is still tracked as active. *)
Theorem path_spellings_clobber :
  let alpha := sample_metric 1 "alpha" "/w/a.py" 3 ["x"] in
  let beta := sample_metric 2 "beta" "a.py" 7 ["y"] in
  let st1 := fst (set_metric PythonP "/w" map_to_list (Ok tt) alpha empty_session) in
  let st2 := fst (set_metric PythonP "/w" map_to_list (Ok tt) beta st1) in
  breakpoints_of (as_debugger st1) "/w/a.py" = [breakpoint_of PythonP alpha] /\
  as_active st2 !! "alpha" = Some alpha /\
  breakpoints_of (as_debugger st2) "/w/a.py" = [breakpoint_of PythonP beta].
Proof. vm_compute. auto. Qed.

(** A metric's condition never reaches the debugger: whatever the metric's
    [condition], the breakpoint it becomes is unconditional, so it fires (and
    logs) on every hit. *)
Theorem breakpoint_drops_condition m b msg :
  sb_condition (build_source_breakpoint m b msg) = None /\
  sb_line (build_source_breakpoint m b msg) = loc_line (m_location m).
Proof. unfold build_source_breakpoint. by destruct (_ || _). Qed.

Lemma contains_function_call_spec e :
  expression_contains_function_call e = true <->
  exists x i y, e = x ++ String i (String "(" y) /\ ident_tail i = true.
Proof.
  induction e as [|c e IH].
  - split; [done|]. by intros ([] & i & y & [=] & _).
  - destruct e as [|d e'].
    + split; [done|]. intros (x & i & y & Hx & _). destruct x as [|? [|]]; discriminate.
    + cbn [expression_contains_function_call]. rewrite orb_true_iff, andb_true_iff, Ascii.eqb_eq. split.
      * intros [[-> Hi]|Hr]; [by exists EmptyString, c, e'|].
        apply IH in Hr as (x & i & y & -> & Hi). by exists (String c x), i, y.
      * intros (x & i & y & Hx & Hi). destruct x as [|c' x]; cbn in Hx.
        { injection Hx as -> -> ->. by left. }
        injection Hx as <- Hx. right. apply IH. eauto.
Qed.

(** Which metrics stop the program. A metric is set as a blocking
    breakpoint exactly when it captures state its adapter cannot capture in a
    logpoint, or is a Go metric with a call [ident(...)] in an expression; in
    every other case it is a logpoint carrying its message. *)
Theorem blocking_breakpoint_iff {P : Type} `{LogpointLanguage P} (p : P) m :
  (sb_log_message (breakpoint_of p m) = None <->
     (m_capture_stack_trace m = true \/ m_capture_memory_snapshot m = true) /\ lang_logpoint_introspection p = false \/
     m_language m = Go /\ exists e x i y, In e (m_expressions m) /\ e = x ++ String i (String "(" y) /\ ident_tail i = true) /\
  (sb_log_message (breakpoint_of p m) = None \/ sb_log_message (breakpoint_of p m) = Some (lang_build_message p m)).
Proof.
  assert (is_go_function_call m = true <->
    m_language m = Go /\ exists e x i y, In e (m_expressions m) /\ e = x ++ String i (String "(" y) /\ ident_tail i = true) as <-.
  { unfold is_go_function_call. rewrite andb_true_iff, bool_decide_eq_true, existsb_exists.
    setoid_rewrite contains_function_call_spec. naive_solver. }
  unfold breakpoint_of, build_source_breakpoint, needs_introspection.
  destruct (m_capture_stack_trace m), (m_capture_memory_snapshot m), (lang_logpoint_introspection p), (is_go_function_call m);
    cbn; naive_solver.
Qed.

(** ** Which metrics a stop belongs to *)

Definition DAP_LINE_TOLERANCE : N := 5.
Definition u32_max : N := 4294967295.

Definition abs_diff (a b : N) : N := if (a <? b)%N then (b - a)%N else (a - b)%N.

Definition file_matches (file : string) (m : Metric) : bool :=
  String.eqb (loc_file (m_location m)) file
  || (bool_decide (is_Some (file_name file)) && bool_decide (file_name (loc_file (m_location m)) = file_name file)).

Record LocationSearch : Type := mkLS { ls_exact : list Metric; ls_closest : N; ls_tolerance : list Metric }.

Definition location_step (file : string) (line : N) (s : LocationSearch) (m : Metric) : LocationSearch :=
  if negb (file_matches file m) then s else
  let distance := abs_diff line (loc_line (m_location m)) in
  if (distance =? 0)%N then mkLS (ls_exact s ++ [m])%list (ls_closest s) (ls_tolerance s)
  else if (distance <=? DAP_LINE_TOLERANCE)%N then
    if (distance <? ls_closest s)%N then mkLS (ls_exact s) distance [m]
    else if (distance =? ls_closest s)%N then mkLS (ls_exact s) (ls_closest s) (ls_tolerance s ++ [m])%list
    else s
  else s.

Definition find_metrics_at_location (ms : active_metrics) (file : string) (line : N) : list Metric :=
  let s := fold_left (location_step file line) (map snd ms) (mkLS [] u32_max []) in
  match ls_exact s with
  | [] => ls_tolerance s
  | exact => exact
  end.

Definition at_distance (file : string) (line d : N) (m : Metric) : bool :=
  file_matches file m && (abs_diff line (loc_line (m_location m)) =? d)%N.

Definition dist_to (line : N) (m : Metric) : N := abs_diff line (loc_line (m_location m)).

(** The loop invariant, in two halves: the exact matches seen so far ... *)
Definition exact_inv (file : string) (line : N) (seen : list Metric) (s : LocationSearch) : Prop :=
  ls_exact s = List.filter (at_distance file line 0) seen.

(** ... and the nearest inexact ones. *)
Definition not_nearer (file : string) (line closest : N) (m : Metric) : Prop :=
  file_matches file m = true -> dist_to line m = 0%N \/ (N.min closest (1 + DAP_LINE_TOLERANCE) <= dist_to line m)%N.
Definition near_inv (file : string) (line : N) (seen : list Metric) (s : LocationSearch) : Prop :=
  (forall m, In m seen -> not_nearer file line (ls_closest s) m) /\
  (ls_closest s = u32_max /\ ls_tolerance s = []
   \/ (0 < ls_closest s <= DAP_LINE_TOLERANCE)%N /\
      ls_tolerance s = List.filter (at_distance file line (ls_closest s)) seen /\ ls_tolerance s <> []).

Lemma filter_snoc {A : Type} (f : A -> bool) l x :
  List.filter f (l ++ [x])%list = (List.filter f l ++ if f x then [x] else [])%list.
Proof. rewrite List.filter_app. cbn. by destruct (f x). Qed.

Lemma filter_none {A : Type} (f : A -> bool) l : (forall x, In x l -> f x = false) -> List.filter f l = [].
Proof.
  induction l as [|x l IH]; intros Hf; [done|]. cbn. rewrite (Hf x) by by left. apply IH. intros y Hy. apply Hf. by right.
Qed.

Lemma exact_inv_step file line seen s m :
  exact_inv file line seen s -> exact_inv file line (seen ++ [m])%list (location_step file line s m).
Proof.
  unfold exact_inv, location_step. intros He. rewrite filter_snoc, <- He. unfold at_distance.
  destruct (file_matches file m); cbn [negb andb]; [|by rewrite app_nil_r].
  destruct (_ =? 0)%N; [done|]. rewrite app_nil_r. by repeat case_match.
Qed.

Lemma seen_snoc {A : Type} (Q : A -> Prop) seen m :
  (forall x, In x seen -> Q x) -> Q m -> forall x, In x (seen ++ [m])%list -> Q x.
Proof. intros HQ Hm x [Hx|[<-|[]]]%in_app_iff; [by apply HQ|done]. Qed.

(** A metric that is not nearer than the best so far leaves the search as it is. *)
Lemma near_inv_skip file line seen s m :
  near_inv file line seen s ->
  not_nearer file line (ls_closest s) m ->
  at_distance file line (ls_closest s) m = false \/ ls_closest s = u32_max ->
  near_inv file line (seen ++ [m])%list s.
Proof.
  intros [Hall Hbest] Hm Hat. split; [by apply (seen_snoc (not_nearer _ _ _))|].
  destruct Hbest as [Hb|(H1 & H2 & H3)]; [by left|]. right. split; [done|]. split; [|done].
  destruct Hat as [Hat|Hat]; [|unfold u32_max, DAP_LINE_TOLERANCE in *; lia].
  by rewrite filter_snoc, Hat, app_nil_r.
Qed.

Lemma near_inv_better file line seen s m :
  near_inv file line seen s -> file_matches file m = true ->
  (0 < dist_to line m <= DAP_LINE_TOLERANCE)%N -> (dist_to line m < ls_closest s)%N ->
  near_inv file line (seen ++ [m])%list (mkLS (ls_exact s) (dist_to line m) [m]).
Proof.
  intros [Hall Hbest] Hf Ht Hlt. split; cbn [ls_closest ls_tolerance].
  - apply (seen_snoc (not_nearer _ _ _)); [|intros _; right; lia]. intros x Hx Hfx. destruct (Hall x Hx Hfx); lia.
  - right. split; [done|]. split; [|done]. rewrite filter_snoc, filter_none.
    + unfold at_distance. rewrite Hf. fold (dist_to line m). by rewrite N.eqb_refl.
    + intros x Hx. unfold at_distance. destruct (file_matches file x) eqn:Hfx; [|done]. cbn.
      apply N.eqb_neq. fold (dist_to line x). destruct (Hall x Hx Hfx); lia.
Qed.

Lemma near_inv_equal file line seen s m :
  near_inv file line seen s -> file_matches file m = true ->
  (0 < dist_to line m <= DAP_LINE_TOLERANCE)%N -> dist_to line m = ls_closest s ->
  near_inv file line (seen ++ [m])%list (mkLS (ls_exact s) (ls_closest s) (ls_tolerance s ++ [m])%list).
Proof.
  intros [Hall Hbest] Hf Ht Heq. split; cbn [ls_closest ls_tolerance].
  - apply (seen_snoc (not_nearer _ _ _)); [done|]. intros _. right. lia.
  - destruct Hbest as [[Hb _]|(H1 & H2 & H3)]; [unfold u32_max, DAP_LINE_TOLERANCE in *; lia|].
    right. split; [done|]. split; [|by destruct (ls_tolerance s)]. rewrite filter_snoc, <- H2.
    unfold at_distance. rewrite Hf. fold (dist_to line m). by rewrite Heq, N.eqb_refl.
Qed.

Lemma near_inv_step file line seen s m :
  near_inv file line seen s -> near_inv file line (seen ++ [m])%list (location_step file line s m).
Proof.
  intros Hn. assert (ls_closest s = u32_max \/ (0 < ls_closest s <= DAP_LINE_TOLERANCE)%N) as Hc
    by (destruct Hn as [_ [[? _]|[? _]]]; auto).
  unfold location_step. destruct (file_matches file m) eqn:Hf; cbn [negb].
  2:{ apply near_inv_skip; [done|unfold not_nearer; congruence|]. left. unfold at_distance. by rewrite Hf. }
  fold (dist_to line m). destruct (N.eqb_spec (dist_to line m) 0).
  { change (near_inv file line (seen ++ [m]) s). apply near_inv_skip; [done|intros _; by left|].
    unfold at_distance. rewrite Hf. cbn. rewrite N.eqb_neq. fold (dist_to line m). lia. }
  destruct (N.leb_spec (dist_to line m) DAP_LINE_TOLERANCE).
  - destruct (N.ltb_spec (dist_to line m) (ls_closest s)); [apply near_inv_better; (done || lia)|].
    destruct (N.eqb_spec (dist_to line m) (ls_closest s)); [apply near_inv_equal; (done || lia)|].
    apply near_inv_skip; [done|intros _; right; lia|]. left. unfold at_distance. rewrite Hf. cbn. by apply N.eqb_neq.
  - apply near_inv_skip; [done|intros _; right; lia|]. unfold at_distance. rewrite Hf. cbn. rewrite N.eqb_neq.
    fold (dist_to line m). lia.
Qed.

Lemma search_inv_fold file line l seen s :
  exact_inv file line seen s -> near_inv file line seen s ->
  exact_inv file line (seen ++ l)%list (fold_left (location_step file line) l s) /\
  near_inv file line (seen ++ l)%list (fold_left (location_step file line) l s).
Proof.
  revert seen s. induction l as [|m l IH]; intros seen s He Hs; [by rewrite app_nil_r|]. cbn [fold_left].
  replace (seen ++ m :: l)%list with ((seen ++ [m]) ++ l)%list by by rewrite <- app_assoc.
  apply IH; [by apply exact_inv_step | by apply near_inv_step].
Qed.

(** A stop belongs to the nearest metrics. The search returns, in map
    order, all metrics of the file at the smallest line distance, provided it
    is at most the tolerance; exact matches therefore shut out every nearby
    one, and nothing is returned exactly when no metric of the file is within
    the tolerance. *)
Theorem find_metrics_at_location_nearest ms file line :
  (exists d, (d <= DAP_LINE_TOLERANCE)%N /\
     find_metrics_at_location ms file line = List.filter (at_distance file line d) (map snd ms) /\
     find_metrics_at_location ms file line <> [] /\
     forall m, In m (map snd ms) -> file_matches file m = true -> (d <= abs_diff line (loc_line (m_location m)))%N)
  \/ (find_metrics_at_location ms file line = [] /\
      forall m, In m (map snd ms) -> file_matches file m = true -> (DAP_LINE_TOLERANCE < abs_diff line (loc_line (m_location m)))%N).
Proof.
  destruct (search_inv_fold file line (map snd ms) [] (mkLS [] u32_max [])) as [Hex [Hall Hbest]].
  { done. } { split; [by intros ? []|by left]. }
  unfold find_metrics_at_location. cbn [app] in *. set (s := fold_left _ _ _) in *. unfold exact_inv in Hex.
  destruct (ls_exact s) as [|x xs] eqn:Ex.
  - assert (H0 : forall m, In m (map snd ms) -> file_matches file m = true -> dist_to line m <> 0%N).
    { intros m Hm Hf Hd. assert (In m (List.filter (at_distance file line 0) (map snd ms))) as Hbad.
      { apply filter_In. split; [done|]. unfold at_distance. rewrite Hf. unfold dist_to in Hd. by rewrite Hd. }
      by rewrite <- Hex in Hbad. }
    destruct Hbest as [[Hc ->]|(H1 & H2 & H3)]; [right|left; exists (ls_closest s)].
    + split; [done|]. intros m Hm Hf. pose proof (H0 m Hm Hf). destruct (Hall m Hm Hf); [lia|].
      fold (dist_to line m). unfold u32_max, DAP_LINE_TOLERANCE in *. lia.
    + split; [lia|]. split; [done|]. split; [done|]. intros m Hm Hf. pose proof (H0 m Hm Hf).
      destruct (Hall m Hm Hf); [lia|]. fold (dist_to line m). lia.
  - left. exists 0%N. rewrite <- Hex. split; [unfold DAP_LINE_TOLERANCE; lia|]. split; [done|]. split; [done|]. intros. lia.
Qed.

(** ** Forwarding parsed events *)

Definition DEFAULT_DAP_VALUE_DISPLAY_LIMIT : N := 100.

(** [s.is_char_boundary(i)] for [i < len]: not inside a multi-byte character. *)
Definition is_char_boundary (s : string) (i : N) : bool :=
  match String.get (N.to_nat i) s with
  | Some c => negb (between 128 191 (code c))
  | None => (i =? str_len s)%N
  end.

(** [&s[..n]]; [None] is the panic of slicing inside a character. *)
Definition str_slice_to (s : string) (n : N) : option string :=
  if is_char_boundary s n then Some (String.substring 0 (N.to_nat n) s) else None.

Definition value_display (primary_value : string) : option string :=
  if (DEFAULT_DAP_VALUE_DISPLAY_LIMIT <? str_len primary_value)%N then
    t ← str_slice_to primary_value DEFAULT_DAP_VALUE_DISPLAY_LIMIT; Some (t ++ "...")
  else Some primary_value.

(** A bounded channel. *)
Record Channel : Type := mkChan { ch_capacity : N; ch_queue : list MetricEvent; ch_closed : bool }.
Inductive SendOutcome : Type := Sent | Full | Closed.
Definition try_send (ch : Channel) (e : MetricEvent) : Channel * SendOutcome :=
  if ch_closed ch then (ch, Closed)
  else if (lenN (ch_queue ch) <? ch_capacity ch)%N
  then (mkChan (ch_capacity ch) (ch_queue ch ++ [e])%list (ch_closed ch), Sent)
  else (ch, Full).

Inductive HandlerResult : Type :=
| Panicked
| Returned (should_exit : bool) (ch : Channel).

(** [body] is the event's JSON body already read as an [OutputEventBody]
    ([None] when there is none or it does not read); [parse] is the adapter's
    [parse_output] on the current metrics. *)
Definition handle_output_event (parse : OutputEventBody -> option MetricEvent) (body : option OutputEventBody) (tx : Channel) : HandlerResult :=
  match body with
  | None => Returned false tx
  | Some output =>
      match parse output with
      | None => Returned false tx
      | Some ev =>
          match value_display (event_value_json ev) with
          | None => Panicked
          | Some _ =>
              let '(tx', outcome) := try_send tx ev in
              Returned (match outcome with Closed => true | _ => false end) tx'
          end
      end
  end.

(** What the output handler does with a parsed event, on every path: an
    event whose value is at most the display limit, or whose value is cut
    between characters, is queued in order when there is room, dropped when the
    channel is full, and ends the loop when the receiver is gone. *)
Theorem handle_output_event_outcomes parse output tx ev :
  parse output = Some ev ->
  ((str_len (event_value_json ev) <= DEFAULT_DAP_VALUE_DISPLAY_LIMIT)%N \/
   is_char_boundary (event_value_json ev) DEFAULT_DAP_VALUE_DISPLAY_LIMIT = true) ->
  handle_output_event parse (Some output) tx =
    Returned (ch_closed tx)
      (if ch_closed tx then tx
       else if (lenN (ch_queue tx) <? ch_capacity tx)%N
            then mkChan (ch_capacity tx) (ch_queue tx ++ [ev])%list false else tx).
Proof.
  intros Hp Hd. unfold handle_output_event. rewrite Hp.
  assert (exists t, value_display (event_value_json ev) = Some t) as [t ->].
  { unfold value_display, str_slice_to. destruct (N.ltb_spec DEFAULT_DAP_VALUE_DISPLAY_LIMIT (str_len (event_value_json ev))); [|eauto].
    destruct Hd as [Hd| ->]; [lia|]. cbn. eauto. }
  unfold try_send. destruct (ch_closed tx) eqn:Hc; [done|]. by destruct (_ <? _)%N.
Qed.

Definition text_event (value : string) : MetricEvent := event_new 0 1 "alpha" "conn" value.

Lemma handle_output_event_outcomes_witness :
  handle_output_event (fun _ => Some (text_event "42")) (Some (mkBody None "DETRICS:alpha=42" None None None None))
    (mkChan 2 [] false) = Returned false (mkChan 2 [text_event "42"] false).
Proof.
  rewrite (handle_output_event_outcomes _ _ _ (text_event "42")); [reflexivity | reflexivity | left; vm_compute; discriminate].
Defined.

Fixpoint str_repeat (n : nat) (c : ascii) : string :=
  match n with O => EmptyString | S k => String c (str_repeat k c) end.

(** 99 letters and an [é]: well-formed, 101 bytes, byte 100 inside a character. *)
Definition long_value : string := str_repeat 99 "a" ++ String "195" (String "169" EmptyString).

(** The output handler panics on a legal event: the value shown in the log
    line is cut at byte 100 without looking for a character boundary, so a
    well-formed value with a two-byte character there stops the event loop and
    the event is lost. *)
Theorem handle_output_event_panics_on_utf8 output tx :
  str_wf long_value = true /\
  handle_output_event (fun _ => Some (text_event long_value)) (Some output) tx = Panicked.
Proof. split; [vm_compute; reflexivity|]. reflexivity. Qed.
