(* ===== verification/DapFraming.v ===== *)
(** * Message framing of the debug adapter protocol

    [crates/detrix-dap/src/broker.rs] ([send_message], [read_message]) and
    [crates/detrix-cli/src/commands/lldb_serve/protocol.rs] ([read_dap_message],
    [write_dap_message]); the message types are those of
    [crates/detrix-dap/src/protocol.rs].  A message is the header
    [Content-Length: n], an empty line and [n] bytes of JSON.

    The JSON library is the class [SerdeJson]: a type of values, a printer and
    a reader of messages, and the law that a printed message is text that reads
    back as the message, for the messages [json_faithful] picks out (an optional
    field set to [null] comes back as absent, and floating-point numbers may
    lose a last digit, so not all do).  A stream is the string of the bytes that
    will arrive and the way it ends, closed or with an I/O error. *)

From Stdlib Require Import Strings.String Strings.Ascii.
From S2P Require Import Prelude RustStr RustText AdapterMetrics.

Local Open Scope string_scope.
Local Arguments String.append !_ _ / : simpl nomatch.

(** ** Protocol messages *)

Section Messages.
Context {J : Type}.

Record Request : Type := mkRequest { rq_seq : Z; rq_command : string; rq_arguments : option J }.
Record Response : Type := mkResponse {
  rs_seq : Z; rs_request_seq : Z; rs_command : string; rs_success : bool;
  rs_message : option string; rs_body : option J
}.
Record DapEvent : Type := mkDapEvent { ev_seq : Z; ev_event : string; ev_body : option J }.

Inductive ProtocolMessage : Type :=
| MRequest (r : Request)
| MResponse (r : Response)
| MEvent (e : DapEvent).

Definition message_seq (m : ProtocolMessage) : Z :=
  match m with MRequest r => rq_seq r | MResponse r => rs_seq r | MEvent e => ev_seq e end.

Definition message_request (seq : Z) (command : string) (arguments : J) : ProtocolMessage :=
  MRequest (mkRequest seq command (Some arguments)).
Definition message_response (seq request_seq : Z) (command : string) (success : bool) (body : option J) (message : option string) : ProtocolMessage :=
  MResponse (mkResponse seq request_seq command success message body).
Definition message_event (seq : Z) (event : string) (body : option J) : ProtocolMessage :=
  MEvent (mkDapEvent seq event body).

Definition request_new (seq : Z) (command : string) : Request := mkRequest seq command None.
Definition request_with_arguments (r : Request) (a : J) : Request := mkRequest (rq_seq r) (rq_command r) (Some a).
Definition response_success (seq request_seq : Z) (command : string) : Response :=
  mkResponse seq request_seq command true None None.
Definition response_error (seq request_seq : Z) (command message : string) : Response :=
  mkResponse seq request_seq command false (Some message) None.
Definition response_with_body (r : Response) (b : J) : Response :=
  mkResponse (rs_seq r) (rs_request_seq r) (rs_command r) (rs_success r) (rs_message r) (Some b).
Definition event_new (seq : Z) (event : string) : DapEvent := mkDapEvent seq event None.
Definition event_with_body (e : DapEvent) (b : J) : DapEvent := mkDapEvent (ev_seq e) (ev_event e) (Some b).
End Messages.
Arguments Request : clear implicits.
Arguments Response : clear implicits.
Arguments DapEvent : clear implicits.
Arguments ProtocolMessage : clear implicits.

(** ** The JSON library *)

Class SerdeJson (J : Type) : Type := {
  json_to_string : ProtocolMessage J -> result string string;
  json_from_str : string -> result (ProtocolMessage J) string;
  json_faithful : ProtocolMessage J -> bool
}.
Class SerdeJsonLaws (J : Type) `{SerdeJson J} : Prop := {
  json_prints m : json_faithful m = true -> exists s, json_to_string m = Ok s;
  json_reads_back m s : json_faithful m = true -> json_to_string m = Ok s -> json_from_str s = Ok m;
  json_is_text m s : json_to_string m = Ok s -> str_wf s = true
}.

(** ** Streams *)

Record Stream : Type := mkStream { st_bytes : string; st_error : option string }.

(** The bytes up to and including the first line feed, and the others. *)
Fixpoint split_line (s : string) : string * string :=
  match s with
  | EmptyString => ("", "")
  | String c r => if Ascii.eqb c newline then (String c "", r)
                  else let '(l, t) := split_line r in (String c l, t)
  end.

Definition has_nl (s : string) : bool := negb (no_nl s).
Definition not_utf8 : string := "stream did not contain valid UTF-8".

(** [AsyncBufReadExt::read_line]: a line with its line feed, the rest of the
    stream when it ends without one, the empty string at its end. *)
Definition read_line (st : Stream) : result (string * Stream) string :=
  let '(l, rest) := split_line (st_bytes st) in
  match st_error st with
  | Some e => if has_nl l then if str_wf l then Ok (l, mkStream rest (Some e)) else Err not_utf8 else Err e
  | None => if str_wf l then Ok (l, mkStream rest None) else Err not_utf8
  end.

Fixpoint str_take (n : nat) (s : string) : string :=
  match n, s with S n', String c r => String c (str_take n' r) | _, _ => "" end.
Fixpoint str_drop (n : nat) (s : string) : string :=
  match n, s with S n', String _ r => str_drop n' r | _, _ => s end.

(** [AsyncReadExt::read_exact] of a buffer of [n] bytes. *)
Definition read_exact (n : N) (st : Stream) : result (string * Stream) string :=
  if (n <=? str_len (st_bytes st))%N
  then Ok (str_take (N.to_nat n) (st_bytes st), mkStream (str_drop (N.to_nat n) (st_bytes st)) (st_error st))
  else Err (match st_error st with Some e => e | None => "early eof" end).

(** [str::parse::<usize>] with the text of its error. *)
Fixpoint parse_digits (acc : N) (s : string) : result N string :=
  match s with
  | EmptyString => Ok acc
  | String c r =>
      match digit_of c with
      | None => Err "invalid digit found in string"
      | Some d => if (10 * acc + d <? 2 ^ usize_bits)%N then parse_digits (10 * acc + d) r
                  else Err "number too large to fit in target type"
      end
  end.
Definition parse_usize (s : string) : result N string :=
  match s with
  | EmptyString => Err "cannot parse integer from empty string"
  | String c r =>
      if Ascii.eqb c "+" then match r with EmptyString => Err "invalid digit found in string" | _ => parse_digits 0 r end
      else if Ascii.eqb c "-" && str_is_empty r then Err "invalid digit found in string"
      else parse_digits 0 s
  end.

(** ** The broker's framing *)

Definition crlf : string := String carriage_return nl.
Definition header_name : string := "Content-Length:".

(** What [send_message] writes for the JSON of a message. *)
Definition frame (json : string) : string :=
  "Content-Length: " ++ show_N (str_len json) ++ crlf ++ crlf ++ json.

(** The outcome of reading: a message, the end of the stream, an error, the
    panic of an allocation beyond [isize::MAX]; [OutOfFuel] never happens. *)
Inductive ReadOutcome (A : Type) : Type :=
| Got (a : A) (rest : Stream)
| Eof
| Failed (e : DapError)
| Panicked
| OutOfFuel.
Arguments Got {A} _ _.
Arguments Eof {A}.
Arguments Failed {A} _.
Arguments Panicked {A}.
Arguments OutOfFuel {A}.

(** The header loop of [read_message], until the empty line. *)
Fixpoint read_headers (fuel : nat) (content_length : option N) (st : Stream) : ReadOutcome (option N) :=
  match fuel with
  | O => OutOfFuel
  | S f =>
      match read_line st with
      | Err e => Failed (DapCommunication e)
      | Ok (raw, st') =>
          if str_is_empty raw then Eof
          else let line := trim raw in
          if str_is_empty line then Got content_length st'
          else if starts_with header_name line then
            let length_str := trim (trim_start_matches header_name line) in
            match parse_usize length_str with
            | Ok n => read_headers f (Some n) st'
            | Err e => Failed (DapProtocol ("Invalid Content-Length '" ++ length_str ++ "': " ++ e))
            end
          else read_headers f content_length st'
      end
  end.

Definition isize_max : N := 2 ^ 63 - 1.

Section Framing.
Context {J : Type} `{SerdeJson J}.
(** The [Display] of [FromUtf8Error]. *)
Context (utf8_display : string -> string).

(** [serde_json::to_string] and the framing of [send_message]. *)
Definition encode_message (m : ProtocolMessage J) : result string DapError :=
  match json_to_string m with
  | Ok json => Ok (frame json)
  | Err e => Err (DapInvalidMessage e)
  end.

Definition read_message (st : Stream) : ReadOutcome (ProtocolMessage J) :=
  match read_headers (S (String.length (st_bytes st))) None st with
  | Got None _ => Failed (DapProtocol "Missing Content-Length header")
  | Got (Some n) st' =>
      if (isize_max <? n)%N then Panicked
      else match read_exact n st' with
      | Err e => Failed (DapCommunication e)
      | Ok (buffer, st'') =>
          if str_wf buffer then
            match json_from_str buffer with
            | Ok m => Got m st''
            | Err e => Failed (DapInvalidMessage e)
            end
          else Failed (DapProtocol ("Invalid UTF-8: " ++ utf8_display buffer))
      end
  | Eof => Eof
  | Failed e => Failed e
  | Panicked => Panicked
  | OutOfFuel => OutOfFuel
  end.
End Framing.

(** ** The framing of [lldb-serve]

    Program output may leak into the stream: lines that are not headers are
    printed and skipped, and a body that does not start like JSON is cut at the
    first brace.  Results come with what was printed and the rest of the stream. *)

Definition after_line (st : Stream) : Stream := mkStream (snd (split_line (st_bytes st))) (st_error st).

(** [print!] with the prefix, and a line feed when there was none. *)
Definition print_program (text : string) : string :=
  "[program] " ++ text ++ (if ends_with nl text then "" else nl).

(** [s.split(':').nth(1)]. *)
Definition second_field (s : string) : option string :=
  match split_once ":" s with
  | None => None
  | Some (_, r) => match split_once ":" r with Some (a, _) => Some a | None => Some r end
  end.

Inductive HeaderOutcome : Type :=
| HdrLength (n : N) (rest : Stream)
| HdrNone (rest : Stream)
| HdrFuel.

Fixpoint dap_headers (fuel : nat) (content_length : option N) (st : Stream) : string * HeaderOutcome :=
  match fuel with
  | O => ("", HdrFuel)
  | S f =>
      let st' := after_line st in
      match read_line st with
      | Err _ => ("", HdrNone st')
      | Ok (line, _) =>
          if str_is_empty line then ("", HdrNone st')
          else let trimmed := trim line in
          if str_is_empty trimmed then
            match content_length with
            | Some n => ("", HdrLength n st')
            | None => dap_headers f None st'
            end
          else if starts_with "content-length:" (to_lowercase trimmed) then
            let len := match second_field trimmed with
                       | Some len_str => match parse_usize (trim len_str) with Ok n => Some n | Err _ => content_length end
                       | None => content_length
                       end in
            dap_headers f len st'
          else if negb (starts_with "content-type:" (to_lowercase trimmed)) then
            let '(out, r) := dap_headers f None st' in (print_program line ++ out, r)
          else dap_headers f content_length st'
      end
  end.

(** The body as returned, and what is printed of it. *)
Fixpoint find_brace (s : string) : option (string * string) :=
  match s with
  | EmptyString => None
  | String c r => if Ascii.eqb c "{" then Some ("", s)
                  else match find_brace r with Some (a, b) => Some (String c a, b) | None => None end
  end.
Definition dap_body (s : string) : string * option string :=
  let trimmed_body := trim_start s in
  if negb (starts_with "{" trimmed_body) && negb (starts_with "[" trimmed_body) then
    match find_brace trimmed_body with
    | Some (program_output, json_part) =>
        (if str_is_empty (trim program_output) then "" else print_program program_output, Some json_part)
    | None => ("[program] " ++ s, None)
    end
  else ("", Some s).

(** [None]: the allocation of the body panics. *)
Definition read_dap_message (st : Stream) : option (string * option string * Stream) :=
  match dap_headers (S (String.length (st_bytes st))) None st with
  | (out, HdrLength n st') =>
      if (isize_max <? n)%N then None
      else match read_exact n st' with
      | Err _ => Some (out, None, mkStream "" (st_error st'))
      | Ok (body, st'') =>
          if str_wf body then let '(out', r) := dap_body body in Some (out ++ out', r, st'')
          else Some (out, None, st'')
      end
  | (out, HdrNone st') => Some (out, None, st')
  | (out, HdrFuel) => Some (out, None, st)
  end.

(** What [write_dap_message] writes. *)
Definition write_dap_message (message : string) : string :=
  "Content-Length: " ++ show_N (str_len message) ++ crlf ++ crlf ++ message.

(** ** Facts about streams *)

Lemma split_line_nl (a r : string) : no_nl a = true -> split_line (a ++ nl ++ r) = (a ++ nl, r).
Proof.
  induction a as [|c a IH]; intros Ha; [done|]. unfold no_nl in Ha. cbn [str_forall] in Ha. apply andb_true_iff in Ha as [Hc Ha].
  apply negb_true_iff in Hc. cbn [String.append split_line]. by rewrite Hc, (IH Ha).
Qed.

Lemma split_line_parts (s : string) : let '(l, r) := split_line s in s = l ++ r /\ (l = "" -> s = "").
Proof.
  induction s as [|c s IH]; [done|]. cbn [split_line]. destruct (Ascii.eqb c newline); [done|].
  destruct (split_line s) as [l r]. destruct IH as [-> _]. done.
Qed.

Lemma str_take_app (a b : string) : str_take (String.length a) (a ++ b) = a.
Proof. induction a as [|c a IH]; [by destruct b|]. cbn. by rewrite IH. Qed.
Lemma str_drop_app (a b : string) : str_drop (String.length a) (a ++ b) = b.
Proof. induction a as [|c a IH]; [done|]. apply IH. Qed.
Lemma str_drop_length n (s : string) : (String.length (str_drop n s) <= String.length s)%nat.
Proof. revert s. induction n as [|n IH]; intros [|c s]; cbn; try lia. specialize (IH s). lia. Qed.

Definition is_ascii (c : ascii) : bool := (code c <? 128)%N.
Lemma utf8_valid_ascii b l : (N_of_byte b <? 128)%N = true -> utf8_valid (b :: l) = utf8_valid l.
Proof. intros E. unfold utf8_valid at 1. by rewrite E. Qed.
Lemma str_wf_ascii (s : string) : str_forall is_ascii s = true -> str_wf s = true.
Proof.
  unfold str_wf, as_bytes. induction s as [|c s IH]; [done|]. cbn [str_forall]. rewrite andb_true_iff. intros [Hc Hs].
  change (list_byte_of_string (String c s)) with (byte_of_ascii c :: list_byte_of_string s). rewrite utf8_valid_ascii; [by apply IH|].
  unfold is_ascii, code in Hc. rewrite <- Hc. f_equal. destruct c as [[] [] [] [] [] [] [] []]; reflexivity.
Qed.

Lemma str_forall_impl (f g : ascii -> bool) s : (forall c, f c = true -> g c = true) -> str_forall f s = true -> str_forall g s = true.
Proof. intros Hfg. induction s as [|c s IH]; [done|]. cbn [str_forall]. rewrite !andb_true_iff. naive_solver. Qed.

Lemma digit_ascii c : is_ascii_digit c = true -> is_ascii c = true.
Proof. unfold is_ascii_digit, is_ascii, between. rewrite andb_true_iff, !N.leb_le, N.ltb_lt. lia. Qed.
Lemma digit_not_nl c : is_ascii_digit c = true -> negb (Ascii.eqb c newline) = true.
Proof. intros H. destruct (Ascii.eqb_spec c newline) as [->|]; [by vm_compute in H|done]. Qed.

Lemma read_line_nl (a r : string) e : no_nl a = true -> str_wf (a ++ nl) = true ->
  read_line (mkStream (a ++ nl ++ r) e) = Ok (a ++ nl, mkStream r e).
Proof.
  intros Ha Hw. unfold read_line. cbn [st_bytes st_error]. rewrite (split_line_nl _ _ Ha), Hw.
  destruct e; [|done]. unfold has_nl, no_nl. rewrite str_forall_app. cbn. by rewrite andb_false_r.
Qed.

(** A line that was read is a non-empty prefix of the stream, or the stream was at its end. *)
Lemma read_line_consumes st l st' : read_line st = Ok (l, st') ->
  st_bytes st = l ++ st_bytes st' /\ st_error st' = st_error st /\ (l = "" -> st_bytes st = "").
Proof.
  unfold read_line. pose proof (split_line_parts (st_bytes st)) as Hp. destruct (split_line (st_bytes st)) as [a r].
  destruct Hp as [-> Hz]. destruct (st_error st) as [e|]; [destruct (has_nl a)|]; try destruct (str_wf a); try discriminate; by intros [= <- <-].
Qed.

Lemma read_exact_app (a b : string) e : read_exact (str_len a) (mkStream (a ++ b) e) = Ok (a, mkStream b e).
Proof.
  unfold read_exact. cbn [st_bytes st_error]. rewrite str_len_app. replace (str_len a <=? str_len a + str_len b)%N with true by (symmetry; apply N.leb_le; lia).
  unfold str_len. rewrite Nat2N.id. by rewrite str_take_app, str_drop_app.
Qed.

(** ** Numbers in headers *)

Lemma digits_val_mono s acc v : digits_val acc s = Some v -> (acc <= v)%N.
Proof.
  revert acc. induction s as [|c s IH]; intros acc; cbn [digits_val]; [intros [= ->]; lia|].
  destruct (digit_of c); [|done]. intros H. apply IH in H. lia.
Qed.

Lemma parse_digits_val s acc v : digits_val acc s = Some v -> (v < 2 ^ usize_bits)%N -> parse_digits acc s = Ok v.
Proof.
  revert acc. induction s as [|c s IH]; intros acc; cbn [digits_val parse_digits]; [by intros [= ->]|].
  destruct (digit_of c) as [d|]; [|done]. intros H Hv. pose proof (digits_val_mono _ _ _ H).
  replace (10 * acc + d <? 2 ^ usize_bits)%N with true by (symmetry; apply N.ltb_lt; lia). by apply IH.
Qed.

Lemma show_N_head n : exists c r, show_N n = String c r /\ is_ascii_digit c = true.
Proof.
  pose proof (show_N_digits n) as Hd. destruct (show_N_last n) as (r & d & E & _). destruct (show_N n) as [|c s] eqn:Es; [by destruct r|].
  cbn [str_forall] in Hd. apply andb_true_iff in Hd as [Hc _]. by exists c, s.
Qed.

Lemma parse_usize_show n : (n < 2 ^ usize_bits)%N -> parse_usize (show_N n) = Ok n.
Proof.
  intros Hn. pose proof (digits_val_show n) as Hv. destruct (show_N_head n) as (c & r & E & Hc). rewrite E in *. unfold parse_usize.
  destruct (Ascii.eqb_spec c "+") as [->|_]; [by vm_compute in Hc|]. destruct (Ascii.eqb_spec c "-") as [->|_]; [by vm_compute in Hc|].
  by apply parse_digits_val.
Qed.

Lemma trim_show_N n : trim (String " " (show_N n)) = show_N n.
Proof.
  unfold trim. rewrite trim_start_space. destruct (show_N_head n) as (c & s & E & Hc). destruct (show_N_last n) as (r & d & E' & Hd).
  change (trim (show_N n) = show_N n). rewrite E. rewrite E in E'. by eapply trim_visible; [exact E'|apply digit_visible..].
Qed.

(** ** Reading a frame *)

Definition header_line (n : N) : string := "Content-Length: " ++ show_N n.

Lemma header_line_ascii n : str_forall is_ascii (header_line n) = true.
Proof. unfold header_line. rewrite str_forall_app. rewrite (str_forall_impl _ _ _ digit_ascii (show_N_digits n)). done. Qed.
Lemma header_line_no_nl n : no_nl (header_line n) = true.
Proof. unfold header_line, no_nl. rewrite str_forall_app. rewrite (str_forall_impl _ _ _ digit_not_nl (show_N_digits n)). done. Qed.

Lemma ws_cr : ws_string (String carriage_return "").
Proof. change (ws_string (String carriage_return "" ++ "")). by repeat constructor. Qed.
Lemma ws_nl : ws_string nl.
Proof. change (ws_string (nl ++ "")). by repeat constructor. Qed.

Lemma trim_header_line n : trim (header_line n ++ String carriage_return "" ++ nl) = header_line n.
Proof.
  unfold trim, trim_start, header_line. cbn [String.append].
  rewrite strip_ws_visible by done. destruct (show_N_last n) as (r & d & E & Hd). rewrite E.
  match goal with |- trim_end ?x = _ => change x with (("Content-Length: " ++ (r ++ String d "")) ++ crlf) end.
  rewrite trim_end_ws by exact (ws_string_app _ _ ws_cr ws_nl).
  unfold trim_end. rewrite <- str_app_assoc, str_rev_snoc, strip_ws_visible by by apply digit_visible. by rewrite <- str_rev_snoc, str_rev_involutive.
Qed.

Lemma header_value n : trim (trim_start_matches header_name (header_line n)) = show_N n.
Proof.
  assert (forall k, trim_start_matches_go (S k) header_name (header_line n) = String " " (show_N n)) as E.
  { intros k. cbn [trim_start_matches_go]. change (header_line n) with (header_name ++ String " " (show_N n)).
    rewrite strip_prefix_app. by destruct k. }
  etransitivity; [|apply trim_show_N]. apply (f_equal trim). exact (E _).
Qed.

Lemma read_header_line n e rest :
  read_line (mkStream ((header_line n ++ String carriage_return "") ++ nl ++ rest) e)
  = Ok ((header_line n ++ String carriage_return "") ++ nl, mkStream rest e).
Proof.
  apply read_line_nl.
  - unfold no_nl. rewrite str_forall_app. pose proof (header_line_no_nl n) as Hh. unfold no_nl in Hh. by rewrite Hh.
  - apply str_wf_ascii. rewrite !str_forall_app. by rewrite header_line_ascii.
Qed.

Lemma trim_crlf : trim (String carriage_return nl) = "".
Proof. apply trim_empty. apply (ws_string_app _ _ ws_cr ws_nl). Qed.

Lemma read_headers_frame f n e rest : (n < 2 ^ usize_bits)%N ->
  read_headers (S (S f)) None (mkStream (header_line n ++ crlf ++ crlf ++ rest) e) = Got (Some n) (mkStream rest e).
Proof.
  intros Hn. cbn [read_headers].
  replace (header_line n ++ crlf ++ crlf ++ rest) with ((header_line n ++ String carriage_return "") ++ nl ++ crlf ++ rest) by by rewrite !str_app_assoc.
  rewrite read_header_line. assert (str_is_empty ((header_line n ++ String carriage_return "") ++ nl) = false) as -> by done.
  rewrite str_app_assoc, trim_header_line.
  change (str_is_empty (header_line n)) with false. cbn iota.
  assert (starts_with header_name (header_line n) = true) as -> by (apply starts_with_spec; by exists (String " " (show_N n))).
  rewrite header_value, parse_usize_show by done.
  change (crlf ++ rest) with (String carriage_return "" ++ nl ++ rest). rewrite read_line_nl by done. cbn [str_is_empty String.append].
  by rewrite trim_crlf.
Qed.

Section Laws.
Context {J : Type} `{HJ : SerdeJson J} `{!SerdeJsonLaws J} (utf8_display : string -> string).
Notation read_message := (read_message utf8_display).

Lemma read_message_frame m s e rest :
  json_faithful m = true -> json_to_string m = Ok s -> (str_len s <= isize_max)%N ->
  read_message (mkStream (frame s ++ rest) e) = Got m (mkStream rest e).
Proof.
  intros Hf Hs Hlen. unfold DapFraming.read_message. cbn [st_bytes].
  replace (frame s ++ rest) with (header_line (str_len s) ++ crlf ++ crlf ++ (s ++ rest)) by (unfold frame, header_line; by rewrite !str_app_assoc).
  change (String.length (header_line (str_len s) ++ crlf ++ crlf ++ s ++ rest))
    with (S (String.length ("ontent-Length: " ++ show_N (str_len s) ++ crlf ++ crlf ++ s ++ rest))).
  rewrite read_headers_frame by (unfold isize_max, usize_bits in *; lia).
  replace (isize_max <? str_len s)%N with false by (symmetry; apply N.ltb_ge; lia).
  rewrite read_exact_app, (json_is_text m s Hs), (json_reads_back m s Hf Hs). done.
Qed.
End Laws.

(** ** Termination *)

Lemma str_length_app (a b : string) : String.length (a ++ b) = (String.length a + String.length b)%nat.
Proof. pose proof (str_len_app a b). unfold str_len in *. lia. Qed.

(** Reading a non-empty line shortens the stream. *)
Lemma read_line_shorter st l st' : read_line st = Ok (l, st') -> str_is_empty l = false ->
  (String.length (st_bytes st') < String.length (st_bytes st))%nat.
Proof.
  intros H Hl. apply read_line_consumes in H as (-> & _ & _). rewrite str_length_app. destruct l; [done|]. cbn. lia.
Qed.

Lemma read_headers_progress f cl st :
  (String.length (st_bytes st) < f)%nat ->
  match read_headers f cl st with
  | OutOfFuel => False
  | Got _ st' => (String.length (st_bytes st') < String.length (st_bytes st))%nat
  | _ => True
  end.
Proof.
  revert cl st. induction f as [|f IH]; intros cl st Hf; [lia|]. cbn [read_headers].
  destruct (read_line st) as [[l st']|e] eqn:E; [|done]. destruct (str_is_empty l) eqn:El; [done|].
  pose proof (read_line_shorter _ _ _ E El) as Hlt. destruct (str_is_empty (trim l)); [done|].
  assert (forall cl', match read_headers f cl' st' with OutOfFuel => False | Got _ st2 => (String.length (st_bytes st2) < String.length (st_bytes st))%nat | _ => True end) as Hrec.
  { intros cl'. specialize (IH cl' st' ltac:(lia)). destruct (read_headers f cl' st'); try done. lia. }
  destruct (starts_with _ _); [destruct (parse_usize _)|]; [apply Hrec|done|apply Hrec].
Qed.

Lemma read_exact_shorter n st b st' : read_exact n st = Ok (b, st') -> (String.length (st_bytes st') <= String.length (st_bytes st))%nat.
Proof. unfold read_exact. destruct (_ <=? _)%N; [|done]. intros [= <- <-]. cbn. apply str_drop_length. Qed.

(** Reading a message always comes to an end, and a message that is read
    shortens the stream. *)
Lemma read_message_progress {J : Type} `{SerdeJson J} (display : string -> string) st :
  match read_message display st with
  | OutOfFuel => False
  | Got _ st' => (String.length (st_bytes st') < String.length (st_bytes st))%nat
  | _ => True
  end.
Proof.
  unfold read_message. pose proof (read_headers_progress (S (String.length (st_bytes st))) None st ltac:(lia)) as Hp.
  destruct (read_headers _ _ _) as [[n|] st'| | | |]; try done. destruct (_ <? _)%N; [done|].
  destruct (read_exact n st') as [[b st'']|] eqn:E; [|done]. apply read_exact_shorter in E.
  destruct (str_wf b); [|done]. destruct (json_from_str b); [lia|done].
Qed.

(** ** [lldb-serve] and leaked output *)

(** A line of program output: not a header, and text. *)
Definition noise_line (l : string) : bool :=
  no_nl l && str_wf (l ++ nl) && negb (starts_with "content-length:" (to_lowercase (trim (l ++ nl))))
  && negb (starts_with "content-type:" (to_lowercase (trim (l ++ nl)))).

Definition unlines (ls : list string) : string := String.concat "" (map (fun l => l ++ nl) ls).

(** What is printed of it: the lines that are not blank, prefixed. *)
Definition printed (ls : list string) : string :=
  String.concat "" (map (fun l => if str_is_empty (trim (l ++ nl)) then "" else "[program] " ++ l ++ nl) ls).

Lemma print_program_line l : print_program (l ++ nl) = "[program] " ++ l ++ nl.
Proof.
  unfold print_program. assert (ends_with nl (l ++ nl) = true) as -> by (apply ends_with_spec; by exists l). by rewrite str_app_nil_r.
Qed.

Lemma after_read_line st l st' : read_line st = Ok (l, st') -> after_line st = st'.
Proof.
  unfold read_line, after_line. destruct (split_line (st_bytes st)) as [a r]. cbn [snd].
  destruct (st_error st); [destruct (has_nl a)|]; try destruct (str_wf a); try discriminate; by intros [= <- <-].
Qed.

Lemma dap_headers_noise f l e rest : noise_line l = true ->
  dap_headers (S f) None (mkStream (l ++ nl ++ rest) e)
  = let '(out, r) := dap_headers f None (mkStream rest e) in
    ((if str_is_empty (trim (l ++ nl)) then "" else "[program] " ++ l ++ nl) ++ out, r).
Proof.
  unfold noise_line. rewrite !andb_true_iff, !negb_true_iff. intros (((Hnl & Hw) & Hcl) & Hct). cbn [dap_headers].
  pose proof (read_line_nl l rest e Hnl Hw) as Hr. rewrite (after_read_line _ _ _ Hr), Hr.
  assert (str_is_empty (l ++ nl) = false) as -> by (destruct l; done).
  destruct (str_is_empty (trim (l ++ nl))); [by destruct (dap_headers f None _)|].
  rewrite Hcl, Hct. cbn [negb]. rewrite print_program_line. by destruct (dap_headers f None _).
Qed.

Lemma unlines_cons l ls : unlines (l :: ls) = l ++ nl ++ unlines ls.
Proof. unfold unlines. cbn [map]. rewrite concat_cons. by rewrite str_app_assoc. Qed.
Lemma printed_cons l ls : printed (l :: ls) = (if str_is_empty (trim (l ++ nl)) then "" else "[program] " ++ l ++ nl) ++ printed ls.
Proof. unfold printed. cbn [map]. apply concat_cons. Qed.

Lemma second_field_header n : second_field (header_line n) = Some (String " " (show_N n)).
Proof.
  unfold second_field. change (split_once ":" (header_line n)) with (Some ("Content-Length", String " " (show_N n))). cbn iota.
  assert (forall s, str_forall is_ascii_digit s = true -> split_once ":" s = None) as Hn.
  { induction s as [|c s IH]; [done|]. cbn [str_forall split_once]. rewrite andb_true_iff. intros [Hc Hs].
    destruct (Ascii.eqb_spec c ":") as [->|_]; [by vm_compute in Hc|]. by rewrite (IH Hs). }
  cbn [split_once Ascii.eqb Bool.eqb]. by rewrite (Hn _ (show_N_digits n)).
Qed.

Lemma lower_header n : starts_with "content-length:" (to_lowercase (header_line n)) = true.
Proof. destruct (show_N_head n) as (c & r & E & _). unfold header_line. rewrite E. reflexivity. Qed.

Lemma dap_headers_frame f n e rest : (n < 2 ^ usize_bits)%N ->
  dap_headers (S (S f)) None (mkStream (header_line n ++ crlf ++ crlf ++ rest) e) = ("", HdrLength n (mkStream rest e)).
Proof.
  intros Hn. cbn [dap_headers].
  replace (header_line n ++ crlf ++ crlf ++ rest) with ((header_line n ++ String carriage_return "") ++ nl ++ crlf ++ rest) by by rewrite !str_app_assoc.
  pose proof (read_header_line n e (crlf ++ rest)) as Hr. rewrite (after_read_line _ _ _ Hr), Hr.
  assert (str_is_empty ((header_line n ++ String carriage_return "") ++ nl) = false) as -> by done.
  rewrite str_app_assoc, trim_header_line. change (str_is_empty (header_line n)) with false. cbn iota.
  rewrite lower_header, second_field_header, trim_show_N, parse_usize_show by done.
  change (crlf ++ rest) with (String carriage_return "" ++ nl ++ rest).
  pose proof (read_line_nl (String carriage_return "") rest e eq_refl eq_refl) as Hr2. rewrite (after_read_line _ _ _ Hr2), Hr2.
  cbn [str_is_empty String.append]. by rewrite trim_crlf.
Qed.

Lemma dap_headers_stream ls f n e rest : Forall (fun l => noise_line l = true) ls -> (n < 2 ^ usize_bits)%N ->
  dap_headers (length ls + S (S f)) None (mkStream (unlines ls ++ header_line n ++ crlf ++ crlf ++ rest) e)
  = (printed ls, HdrLength n (mkStream rest e)).
Proof.
  intros Hls Hn. induction Hls as [|l ls Hl Hls IH]; [by apply dap_headers_frame|].
  cbn [length Nat.add]. rewrite unlines_cons, printed_cons, !str_app_assoc, dap_headers_noise by done. by rewrite IH.
Qed.

Lemma unlines_length ls : (length ls <= String.length (unlines ls))%nat.
Proof. induction ls as [|l ls IH]; [cbn; lia|]. rewrite unlines_cons, !str_length_app. cbn [length String.length nl]. lia. Qed.

(** Leaked program output does not disturb the messages.  Whatever lines of
    text a program has printed into the stream, other than lines that look like
    the two headers, reading past them returns the JSON text of the next framed
    message and leaves the stream right after it, and the lines that are not
    blank are shown to the user with a prefix, in order and once. *)
Theorem leaked_output_is_skipped (ls : list string) (message rest : string) (e : option string)
  (Hnoise : Forall (fun l => noise_line l = true) ls)
  (Hjson : starts_with "{" (trim_start message) || starts_with "[" (trim_start message) = true)
  (Htext : str_wf message = true) (Hlen : (str_len message <= isize_max)%N) :
  read_dap_message (mkStream (unlines ls ++ write_dap_message message ++ rest) e)
  = Some (printed ls, Some message, mkStream rest e).
Proof.
  unfold read_dap_message. cbn [st_bytes].
  replace (unlines ls ++ write_dap_message message ++ rest) with (unlines ls ++ header_line (str_len message) ++ crlf ++ crlf ++ (message ++ rest))
    by (unfold write_dap_message, header_line; by rewrite !str_app_assoc).
  set (n := S (String.length _)).
  assert (exists f, n = length ls + S (S f))%nat as [f ->].
  { exists (n - length ls - 2)%nat. subst n. rewrite str_length_app. pose proof (unlines_length ls). cbn [header_line String.append String.length]. lia. }
  rewrite dap_headers_stream by (done || (unfold isize_max, usize_bits in *; lia)).
  replace (isize_max <? str_len message)%N with false by (symmetry; apply N.ltb_ge; lia).
  rewrite read_exact_app, Htext. unfold dap_body. rewrite <- negb_orb, Hjson. cbn [negb]. by rewrite str_app_nil_r.
Qed.

Lemma leaked_output_is_skipped_witness :
  read_dap_message (mkStream (unlines ["booting"; ""; "ready: 3"] ++ write_dap_message "{ }" ++ "more") None)
  = Some (printed ["booting"; ""; "ready: 3"], Some "{ }", mkStream "more" None).
Proof. apply leaked_output_is_skipped; [by repeat constructor|vm_compute; done..]. Defined.

Lemma dap_headers_total f cl st : (String.length (st_bytes st) < f)%nat -> snd (dap_headers f cl st) <> HdrFuel.
Proof.
  revert cl st. induction f as [|f IH]; intros cl st Hf; [lia|]. cbn [dap_headers].
  destruct (read_line st) as [[l st']|e] eqn:E; [|done]. rewrite (after_read_line _ _ _ E). destruct (str_is_empty l) eqn:El; [done|].
  pose proof (read_line_shorter _ _ _ E El) as Hlt.
  assert (forall cl', snd (dap_headers f cl' st') <> HdrFuel) as Hrec by (intros; apply IH; lia).
  destruct (str_is_empty (trim l)); [destruct cl; [done|apply Hrec]|]. destruct (starts_with _ _); [apply Hrec|].
  destruct (starts_with _ _); cbn [negb]; [apply Hrec|]. specialize (Hrec None). by destruct (dap_headers f None st').
Qed.
