(* ===== verification/Broker.v ===== *)
(** * The DAP broker

    [crates/detrix-dap/src/broker.rs]: one broker per debug session.  Callers
    send requests one at a time, under a lock held until the answer, the timeout
    or the loss of the session; a reader task takes messages off the stream,
    hands each response to the request of its sequence number and each event to
    the subscribers.

    The state is what the two sides share.  A step is what one side does between
    two points where it can be interrupted: [BrokerAction] lists them and [step]
    performs one when it is enabled.  One-shot channels and bounded queues are
    those of the standard runtime; a channel is named by its index. *)

From Stdlib Require Import Strings.String Strings.Ascii Sorted.
From stdpp Require Import gmap.
From S2P Require Import Prelude RustStr RustText AdapterMetrics DapFraming.

Local Open Scope string_scope.
Local Arguments String.append !_ _ / : simpl nomatch.

(** Names of events, [constants.rs]. *)
Definition OUTPUT_EVENT : string := "output".
Definition STOPPED_EVENT : string := "stopped".
Definition TERMINATED_EVENT : string := "terminated".
Definition EXITED_EVENT : string := "exited".
Definition CONTINUED_EVENT : string := "continued".
Definition BREAKPOINT_EVENT : string := "breakpoint".
Definition MODULE_EVENT : string := "module".

(** Events that subscribers get to see. *)
Definition kept_event (name : string) : bool :=
  String.eqb name OUTPUT_EVENT || String.eqb name STOPPED_EVENT || String.eqb name TERMINATED_EVENT
  || String.eqb name EXITED_EVENT || String.eqb name CONTINUED_EVENT || String.eqb name BREAKPOINT_EVENT.

Section Broker.
Context {J : Type} `{SerdeJson J}.
Notation Message := (ProtocolMessage J).

Definition session_end_event (m : Message) : bool :=
  match m with
  | MEvent e => String.eqb (ev_event e) TERMINATED_EVENT || String.eqb (ev_event e) EXITED_EVENT
  | _ => false
  end.

(** A one-shot channel from the reader to one caller. *)
Inductive Oneshot : Type :=
| Empty                                         (* nothing sent yet, the caller may still be waiting *)
| Sent (r : result (Response J) DapError)
| Closed                                        (* the caller is gone *)
| Lost.                                         (* the sender was dropped unsent *)

(** A subscriber's bounded queue. *)
Record Mailbox : Type := mkMailbox { mb_queue : list (DapEvent J); mb_capacity : N; mb_closed : bool }.

Inductive CallKind : Type :=
| Await (timeout_ms : N)                        (* [send_request_with_timeout] *)
| DetectFailure.                                (* [send_and_detect_failure] *)
Inductive CallPhase : Type := Registered | Waiting | Expired.

(** The call that holds the request lock. *)
Record Call : Type := mkCall {
  call_request : Request J; call_channel : nat; call_kind : CallKind; call_phase : CallPhase
}.
Definition with_phase (c : Call) (p : CallPhase) : Call := mkCall (call_request c) (call_channel c) (call_kind c) p.
Definition call_seq (c : Call) : Z := rq_seq (call_request c).

(** The reader task: reading, past its loop, or over. *)
Inductive ReaderState : Type := Reading | Closing | Stopped.

Record Broker : Type := mkBroker {
  br_next_seq : Z;
  br_call : option Call;
  br_pending : gmap Z nat;
  br_channels : list Oneshot;
  br_subscribers : list nat;
  br_mailboxes : list Mailbox;
  br_stdin : string;
  br_reader : ReaderState;
  br_module_count : N
}.

(** [new_with_config], with the reader task running. *)
Definition new_broker : Broker := mkBroker 1 None ∅ [] [] [] "" Reading 0.

Definition set_call (c : option Call) (b : Broker) : Broker :=
  mkBroker (br_next_seq b) c (br_pending b) (br_channels b) (br_subscribers b) (br_mailboxes b) (br_stdin b) (br_reader b) (br_module_count b).
Definition set_pending (p : gmap Z nat) (b : Broker) : Broker :=
  mkBroker (br_next_seq b) (br_call b) p (br_channels b) (br_subscribers b) (br_mailboxes b) (br_stdin b) (br_reader b) (br_module_count b).
Definition set_channels (l : list Oneshot) (b : Broker) : Broker :=
  mkBroker (br_next_seq b) (br_call b) (br_pending b) l (br_subscribers b) (br_mailboxes b) (br_stdin b) (br_reader b) (br_module_count b).
Definition set_subscribers (l : list nat) (m : list Mailbox) (b : Broker) : Broker :=
  mkBroker (br_next_seq b) (br_call b) (br_pending b) (br_channels b) l m (br_stdin b) (br_reader b) (br_module_count b).
Definition set_stdin (s : string) (b : Broker) : Broker :=
  mkBroker (br_next_seq b) (br_call b) (br_pending b) (br_channels b) (br_subscribers b) (br_mailboxes b) s (br_reader b) (br_module_count b).
Definition set_reader (r : ReaderState) (b : Broker) : Broker :=
  mkBroker (br_next_seq b) (br_call b) (br_pending b) (br_channels b) (br_subscribers b) (br_mailboxes b) (br_stdin b) r (br_module_count b).
Definition count_module (b : Broker) : Broker :=
  mkBroker (br_next_seq b) (br_call b) (br_pending b) (br_channels b) (br_subscribers b) (br_mailboxes b) (br_stdin b) (br_reader b) (wrap usize_bits (br_module_count b + 1)).

(** The 64-bit counter wraps in a release build. *)
Definition seq_succ (z : Z) : Z := to_signed 64 (of_signed 64 (z + 1)).
Definition next_sequence (b : Broker) : Z * Broker :=
  (br_next_seq b,
   mkBroker (seq_succ (br_next_seq b)) (br_call b) (br_pending b) (br_channels b) (br_subscribers b) (br_mailboxes b) (br_stdin b) (br_reader b) (br_module_count b)).

(** How writing to the adapter goes: all of it, or an error after some bytes. *)
Inductive WriteOutcome : Type := Written | WriteFailed (error : string) (after : nat).

Definition send_message (m : Message) (w : WriteOutcome) (b : Broker) : Broker * result unit DapError :=
  match encode_message m with
  | Err e => (b, Err e)
  | Ok content =>
      match w with
      | Written => (set_stdin (br_stdin b ++ content) b, Ok tt)
      | WriteFailed e n => (set_stdin (br_stdin b ++ str_take n content) b, Err (DapCommunication e))
      end
  end.

(** The senders of [br_pending] know when their receiver is gone. *)
Definition is_closed (b : Broker) (ch : nat) : bool :=
  match br_channels b !! ch with Some Closed => true | _ => false end.
Definition mailbox_closed (b : Broker) (i : nat) : bool :=
  match br_mailboxes b !! i with Some mb => mb_closed mb | None => true end.

(** Sending on a one-shot channel fails when the receiver is gone. *)
Definition oneshot_send (ch : nat) (r : result (Response J) DapError) (l : list Oneshot) : list Oneshot :=
  match l !! ch with Some Empty => <[ch := Sent r]> l | _ => l end.

(** [try_send] to one subscriber: whether it is kept, and its queue. *)
Definition try_send (e : DapEvent J) (mb : Mailbox) : bool * Mailbox :=
  if mb_closed mb then (false, mb)
  else if (lenN (mb_queue mb) <? mb_capacity mb)%N then (true, mkMailbox (mb_queue mb ++ [e])%list (mb_capacity mb) false)
  else (true, mb).

Fixpoint broadcast (e : DapEvent J) (subs : list nat) (boxes : list Mailbox) : list nat * list Mailbox :=
  match subs with
  | [] => ([], boxes)
  | i :: r =>
      match boxes !! i with
      | Some mb => let '(keep, mb') := try_send e mb in
                   let '(r', boxes') := broadcast e r (<[i := mb']> boxes) in
                   (if keep then i :: r' else r', boxes')
      | None => broadcast e r boxes
      end
  end.

Definition handle_message (m : Message) (b : Broker) : Broker :=
  match m with
  | MResponse r =>
      match br_pending b !! rs_request_seq r with
      | Some ch => set_channels (oneshot_send ch (Ok r) (br_channels b)) (set_pending (delete (rs_request_seq r) (br_pending b)) b)
      | None => b
      end
  | MEvent e =>
      if kept_event (ev_event e)
      then let '(subs, boxes) := broadcast e (br_subscribers b) (br_mailboxes b) in set_subscribers subs boxes b
      else if String.eqb (ev_event e) MODULE_EVENT then count_module b else b
  | MRequest _ => b
  end.

(** The end of the reader task: every pending caller is told, and the
    subscribers' senders are dropped. *)
Definition disconnected : result (Response J) DapError := Err (DapCommunication "Adapter disconnected").
Definition close_session (b : Broker) : Broker :=
  set_reader Stopped (set_subscribers [] (br_mailboxes b) (set_pending ∅
    (set_channels (fold_right (fun p l => oneshot_send (snd p) disconnected l) (br_channels b) (map_to_list (br_pending b))) b))).

(** [subscribe_events]; a capacity of zero panics. *)
Definition subscribe_events (capacity : N) (b : Broker) : option (nat * Broker) :=
  if (capacity =? 0)%N then None
  else let live := filter (fun i => mailbox_closed b i = false) (br_subscribers b) in
       let i := length (br_mailboxes b) in
       Some (i, set_subscribers (live ++ [i])%list (br_mailboxes b ++ [mkMailbox [] capacity false])%list b).

Definition cleanup_dropped_subscribers (b : Broker) : nat * Broker :=
  let live := filter (fun i => mailbox_closed b i = false) (br_subscribers b) in
  ((length (br_subscribers b) - length live)%nat, set_subscribers live (br_mailboxes b) b).

Definition cleanup_orphaned_requests (b : Broker) : nat * Broker :=
  let live := filter (fun p => is_closed b (snd p) = false) (br_pending b) in
  ((size (br_pending b) - size live)%nat, set_pending live b).

Definition subscriber_count (b : Broker) : nat := length (br_subscribers b).
Definition pending_request_count (b : Broker) : nat := size (br_pending b).
Definition is_alive (b : Broker) : bool := match br_reader b with Stopped => false | _ => true end.

(** ** Steps *)

Inductive BrokerAction : Type :=
| Begin (kind : CallKind) (command : string) (arguments : option J)   (* take the lock and register *)
| Send (w : WriteOutcome)
| Resume                                        (* the channel has the answer *)
| Expire                                        (* the timer fires on an empty channel *)
| Cleanup                                       (* and the pending entry is removed *)
| Abandon                                       (* the caller's future is dropped *)
| NoWait (m : Message) (w : WriteOutcome)       (* [send_message_no_wait] *)
| Receive (m : Message)
| EndOfStream                                   (* end of stream or read error *)
| CloseSession
| ReaderLost                                    (* the task panics or is aborted *)
| Subscribe (capacity : N)
| Take (i : nat)                                (* a subscriber takes an event *)
| Unsubscribe (i : nat)
| CleanSubscribers
| CleanRequests.

(** What a finished call returns. *)
Inductive CallReturn : Type :=
| Answer (r : result (Response J) DapError)
| Detected (r : result unit DapError).

Definition fail_call (c : Call) (e : DapError) : CallReturn :=
  match call_kind c with Await _ => Answer (Err e) | DetectFailure => Detected (Err e) end.

Definition answer_call (c : Call) (r : result (Response J) DapError) : CallReturn :=
  match call_kind c with
  | Await _ => Answer r
  | DetectFailure =>
      Detected match r with
      | Ok resp => if rs_success resp then Ok tt
                   else Err (DapInitializationFailed
                     match rs_message resp with Some m => m | None => rq_command (call_request c) ++ " request failed" end)
      | Err e => Err e
      end
  end.

Definition closed_message (c : Call) : string :=
  match call_kind c with Await _ => "Response channel closed" | DetectFailure => "Response channel closed unexpectedly" end.

Definition expire_call (c : Call) : CallReturn :=
  match call_kind c with Await ms => Answer (Err (DapTimeout ms)) | DetectFailure => Detected (Ok tt) end.

(** The receiving end goes away with the call. *)
Definition drop_receiver (ch : nat) (l : list Oneshot) : list Oneshot := <[ch := Closed]> l.
Definition end_call (c : Call) (b : Broker) : Broker :=
  set_call None (set_channels (drop_receiver (call_channel c) (br_channels b)) b).

(** Inserting over an entry drops the sender that was there. *)
Definition displace (seq : Z) (b : Broker) : list Oneshot :=
  match br_pending b !! seq with
  | Some ch => match br_channels b !! ch with Some Empty => <[ch := Lost]> (br_channels b) | _ => br_channels b end
  | None => br_channels b
  end.

Definition begin_call (kind : CallKind) (command : string) (arguments : option J) (b : Broker) : Broker :=
  let '(seq, b1) := next_sequence b in
  let ch := length (br_channels b1) in
  set_call (Some (mkCall (mkRequest seq command arguments) ch kind Registered))
    (set_channels (displace seq b1 ++ [Empty])%list (set_pending (<[seq := ch]> (br_pending b1)) b1)).

Definition step (a : BrokerAction) (b : Broker) : option (Broker * option (Z * CallReturn)) :=
  match a, br_call b with
  | Begin kind command arguments, None => Some (begin_call kind command arguments b, None)
  | Send w, Some c =>
      match call_phase c with
      | Registered =>
          match send_message (MRequest (call_request c)) w b with
          | (b', Ok _) => Some (set_call (Some (with_phase c Waiting)) b', None)
          | (b', Err e) => Some (end_call c b', Some (call_seq c, fail_call c e))
          end
      | _ => None
      end
  | Resume, Some c =>
      match call_phase c, br_channels b !! call_channel c with
      | Waiting, Some (Sent r) => Some (end_call c b, Some (call_seq c, answer_call c r))
      | Waiting, Some Lost => Some (end_call c b, Some (call_seq c, fail_call c (DapCommunication (closed_message c))))
      | _, _ => None
      end
  | Expire, Some c =>
      match call_phase c, br_channels b !! call_channel c with
      | Waiting, Some Empty =>
          Some (set_call (Some (with_phase c Expired)) (set_channels (drop_receiver (call_channel c) (br_channels b)) b), None)
      | _, _ => None
      end
  | Cleanup, Some c =>
      match call_phase c with
      | Expired => Some (set_call None (set_pending (delete (call_seq c) (br_pending b)) b), Some (call_seq c, expire_call c))
      | _ => None
      end
  | Abandon, Some c => Some (end_call c b, None)
  | NoWait m w, None => Some (fst (send_message m w b), None)
  | Receive m, _ =>
      match br_reader b with
      | Reading => let b' := handle_message m b in
                   Some (if session_end_event m then set_reader Closing b' else b', None)
      | _ => None
      end
  | EndOfStream, _ => match br_reader b with Reading => Some (set_reader Closing b, None) | _ => None end
  | CloseSession, _ => match br_reader b with Closing => Some (close_session b, None) | _ => None end
  | ReaderLost, _ => Some (set_reader Stopped b, None)
  | Subscribe capacity, _ => match subscribe_events capacity b with Some (_, b') => Some (b', None) | None => None end
  | Take i, _ =>
      match br_mailboxes b !! i with
      | Some (mkMailbox (_ :: q) cap closed) => Some (set_subscribers (br_subscribers b) (<[i := mkMailbox q cap closed]> (br_mailboxes b)) b, None)
      | _ => None
      end
  | Unsubscribe i, _ =>
      match br_mailboxes b !! i with
      | Some mb => Some (set_subscribers (br_subscribers b) (<[i := mkMailbox (mb_queue mb) (mb_capacity mb) true]> (br_mailboxes b)) b, None)
      | None => None
      end
  | CleanSubscribers, _ => Some (snd (cleanup_dropped_subscribers b), None)
  | CleanRequests, _ => Some (snd (cleanup_orphaned_requests b), None)
  | _, _ => None
  end.

(** A history: its steps one after the other, with what the calls returned. *)
Fixpoint run (acts : list BrokerAction) (b : Broker) : option (Broker * list (Z * CallReturn)) :=
  match acts with
  | [] => Some (b, [])
  | a :: rest =>
      match step a b with
      | None => None
      | Some (b', ret) =>
          match run rest b' with
          | None => None
          | Some (b'', rets) => Some (b'', match ret with Some x => x :: rets | None => rets end)
          end
      end
  end.

(** ** The reader task's loop *)

Inductive ReaderEnd : Type := EndSession | EndEof | EndError (e : DapError) | EndPanic | EndFuel.

(** The messages the task handles, in order, and why it stops. *)
Fixpoint reader_loop (display : string -> string) (fuel : nat) (st : Stream) : list Message * ReaderEnd :=
  match fuel with
  | O => ([], EndFuel)
  | S f =>
      match read_message display st with
      | Got m st' => if session_end_event m then ([m], EndSession)
                     else let '(ms, e) := reader_loop display f st' in (m :: ms, e)
      | Eof => ([], EndEof)
      | Failed e => ([], EndError e)
      | Panicked => ([], EndPanic)
      | OutOfFuel => ([], EndFuel)
      end
  end.
Definition reader_task (display : string -> string) (st : Stream) : list Message * ReaderEnd :=
  reader_loop display (S (String.length (st_bytes st))) st.

(** The steps it takes: the cleanup runs unless the task panicked. *)
Definition reader_actions (r : list Message * ReaderEnd) : list BrokerAction :=
  (map Receive (fst r) ++
   match snd r with
   | EndSession => [CloseSession]
   | EndEof | EndError _ => [EndOfStream; CloseSession]
   | EndPanic | EndFuel => [ReaderLost]
   end)%list.
End Broker.

(** ** Invariant *)

Section Invariant.
Context {J : Type} `{HJ : SerdeJson J}.
Notation Broker := (@Broker J).
Notation Oneshot := (@Oneshot J).
Notation Call := (@Call J).
Notation CallReturn := (@CallReturn J).
Notation BrokerAction := (@BrokerAction J).

(** What the channel of the current call holds. *)
Definition channel_ok (b : Broker) (c : Call) : Prop :=
  match br_channels b !! call_channel c with
  | Some Empty => call_phase c <> Expired /\ br_pending b !! call_seq c = Some (call_channel c)
  | Some (Sent (Ok r)) => call_phase c <> Expired /\ rs_request_seq r = call_seq c
  | Some (Sent (Err e)) => call_phase c <> Expired /\ e = DapCommunication "Adapter disconnected"
  | Some Closed => call_phase c = Expired
  | _ => False
  end.

Record broker_inv (b : Broker) : Prop := {
  inv_seq : (1 <= br_next_seq b)%Z;
  inv_pending : forall s ch, br_pending b !! s = Some ch ->
    (1 <= s < br_next_seq b)%Z /\ (br_channels b !! ch = Some Empty \/ br_channels b !! ch = Some Closed);
  inv_inj : forall s1 s2 ch, br_pending b !! s1 = Some ch -> br_pending b !! s2 = Some ch -> s1 = s2;
  inv_live : forall s ch, br_pending b !! s = Some ch -> br_channels b !! ch = Some Empty ->
    exists c, br_call b = Some c /\ call_channel c = ch /\ call_seq c = s;
  inv_call : forall c, br_call b = Some c -> (1 <= call_seq c < br_next_seq b)%Z /\ channel_ok b c
}.

(** Steps that leave the calls and their channels alone. *)
Definition same_calls (b b' : Broker) : Prop :=
  br_next_seq b' = br_next_seq b /\ br_call b' = br_call b /\ br_pending b' = br_pending b /\ br_channels b' = br_channels b.

Lemma same_calls_inv b b' : same_calls b b' -> broker_inv b -> broker_inv b'.
Proof.
  intros (E1 & E2 & E3 & E4) [H1 H2 H3 H4 H5]. split; rewrite ?E1, ?E2, ?E3, ?E4; auto.
  intros c Hc. unfold channel_ok. rewrite E3, E4. by apply H5.
Qed.

Lemma seq_succ_small z : (0 <= z < 2 ^ 63 - 1)%Z -> seq_succ z = (z + 1)%Z.
Proof.
  intros Hz. unfold seq_succ, to_signed, of_signed. rewrite Z.mod_small by lia.
  replace (Z.to_N (z + 1) <? 2 ^ (64 - 1))%N with true by (symmetry; apply N.ltb_lt; change (2 ^ (64 - 1))%N with 9223372036854775808%N; lia). lia.
Qed.

Lemma begin_inv kind command arguments b :
  broker_inv b -> br_call b = None -> (br_next_seq b < 2 ^ 63 - 1)%Z -> broker_inv (begin_call kind command arguments b).
Proof.
  intros [H1 H2 H3 H4 H5] Hn Hlt. unfold begin_call, next_sequence. cbn [br_channels br_pending set_call set_channels set_pending].
  assert (br_pending b !! br_next_seq b = None) as Hfree.
  { destruct (br_pending b !! br_next_seq b) as [ch|] eqn:E; [|done]. apply H2 in E as [? _]. lia. }
  assert (forall s ch, br_pending b !! s = Some ch -> ch <> length (br_channels b)) as Hch.
  { intros s ch Hp ->. apply H2 in Hp as [_ [Hp|Hp]]; apply lookup_lt_Some in Hp; lia. }
  unfold displace. cbn [br_pending br_channels]. rewrite Hfree.
  split; cbn; rewrite ?seq_succ_small by lia.
  - lia.
  - intros s ch. rewrite lookup_insert_Some. intros [[<- <-]|[Hne Hp]].
    + split; [lia|]. left. by rewrite list_lookup_middle.
    + destruct (H2 _ _ Hp) as [Hs Hc]. split; [lia|]. by rewrite !lookup_app_l by (destruct Hc as [Hc|Hc]; by eapply lookup_lt_Some).
  - intros s1 s2 ch. rewrite !lookup_insert_Some. intros [[<- <-]|[? Hp1]] [[<- ?]|[? Hp2]]; [done| | |by eapply H3].
    + by destruct (Hch _ _ Hp2).
    + subst. by destruct (Hch _ _ Hp1).
  - intros s ch. rewrite lookup_insert_Some. intros [[<- <-]|[Hne Hp]] He; [by eexists|].
    rewrite lookup_app_l in He by (destruct (H2 _ _ Hp) as [_ [Hc|Hc]]; by eapply lookup_lt_Some).
    destruct (H4 _ _ Hp He) as (c & Hc & _). congruence.
  - intros c [= <-]. unfold channel_ok, call_seq. cbn. split; [lia|]. rewrite list_lookup_middle by done. split; [done|]. by rewrite lookup_insert_eq.
Qed.

Lemma end_call_inv b c : broker_inv b -> br_call b = Some c -> broker_inv (end_call c b).
Proof.
  intros [H1 H2 H3 H4 H5] Hc. unfold end_call, drop_receiver. split; cbn; auto; [|intros s ch Hp|by intros ? [=]].
  - intros s ch Hp. destruct (H2 _ _ Hp) as [Hs Ho]. split; [done|]. destruct (decide (ch = call_channel c)) as [->|Hne].
    + right. apply list_lookup_insert_eq. destruct Ho as [Ho|Ho]; by eapply lookup_lt_Some.
    + by rewrite list_lookup_insert_ne.
  - destruct (decide (ch = call_channel c)) as [->|Hne].
    + intros E. apply list_lookup_insert_Some in E. naive_solver.
    + rewrite list_lookup_insert_ne by done. intros E. destruct (H4 _ _ Hp E) as (c' & Hc' & <- & _). congruence.
Qed.

Lemma send_message_same m w (b : Broker) : same_calls b (fst (send_message m w b)).
Proof. unfold send_message. destruct (encode_message m); [destruct w|]; by repeat split. Qed.

Lemma waiting_inv b c : broker_inv b -> br_call b = Some c -> call_phase c = Registered ->
  broker_inv (set_call (Some (with_phase c Waiting)) b).
Proof.
  intros [H1 H2 H3 H4 H5] Hc Hp. split; cbn; auto.
  - intros s ch Hs Ho. destruct (H4 _ _ Hs Ho) as (c' & Hc' & Hch & Hsq). eexists. split; [done|]. assert (c' = c) as -> by congruence. done.
  - intros ? [= <-]. destruct (H5 _ Hc) as [Hs Hok]. split; [done|]. unfold channel_ok in *. cbn in *. rewrite Hp in Hok.
    change (call_seq (with_phase c Waiting)) with (call_seq c).
    destruct (br_channels b !! call_channel c) as [[|[r|e]| |]|]; naive_solver.
Qed.

Lemma expired_inv b c : broker_inv b -> br_call b = Some c ->
  broker_inv (set_call (Some (with_phase c Expired)) (set_channels (drop_receiver (call_channel c) (br_channels b)) b)).
Proof.
  intros Hi Hc. pose proof (end_call_inv _ _ Hi Hc) as [H1 H2 H3 H4 H5]. destruct (inv_call _ Hi _ Hc) as [Hs Hok].
  unfold end_call, drop_receiver in *. split; cbn in *; auto.
  - intros s ch Hp Ho. by destruct (H4 _ _ Hp Ho) as (? & [=] & _).
  - intros ? [= <-]. split; [done|]. unfold channel_ok in *. cbn. rewrite list_lookup_insert_eq; [done|].
    destruct (br_channels b !! call_channel c) eqn:E; [by eapply lookup_lt_Some|done].
Qed.

(** Without a call in progress, pending entries may be removed at will. *)
Lemma shrink_inv b p : broker_inv b -> p ⊆ br_pending b ->
  (forall c, br_call b = Some c -> br_channels b !! call_channel c = Some Empty -> p !! call_seq c = Some (call_channel c)) ->
  broker_inv (set_pending p b).
Proof.
  intros [H1 H2 H3 H4 H5] Hsub Hk. split; cbn; auto.
  - intros s ch Hp. eapply H2, lookup_weaken, Hsub. done.
  - intros s1 s2 ch Ha Hb. eapply H3; by eapply lookup_weaken.
  - intros s ch Hp Ho. eapply H4; [by eapply lookup_weaken|done].
  - intros c Hc. destruct (H5 _ Hc) as [Hs Hok]. split; [done|]. unfold channel_ok in *. cbn.
    destruct (br_channels b !! call_channel c) as [[|[r|e]| |]|] eqn:E; try done. split; [apply Hok|by apply Hk].
Qed.

Lemma call_none_inv b c : broker_inv b -> br_call b = Some c -> call_phase c = Expired -> broker_inv (set_call None b).
Proof.
  intros Hi Hc Hp. pose proof Hi as [H1 H2 H3 H4 H5]. split; cbn; auto; [|by intros ? [=]].
  intros s ch Hs Ho. destruct (H4 _ _ Hs Ho) as (c' & Hc' & Hch & Hsq). assert (c' = c) as -> by congruence. subst ch.
  destruct (H5 _ Hc) as [_ Hok]. unfold channel_ok in Hok. rewrite Ho in Hok. naive_solver.
Qed.

(** Delivering to the channel of a pending request and removing it. *)
Lemma deliver_inv b s ch r : broker_inv b -> br_pending b !! s = Some ch ->
  match r with Ok resp => rs_request_seq resp = s | Err e => e = DapCommunication "Adapter disconnected" end ->
  broker_inv (set_channels (oneshot_send ch r (br_channels b)) (set_pending (delete s (br_pending b)) b)).
Proof.
  intros [H1 H2 H3 H4 H5] Hp Hr.
  assert (forall ch', ch' <> ch -> oneshot_send ch r (br_channels b) !! ch' = br_channels b !! ch') as Hother.
  { intros ch' Hne. unfold oneshot_send. destruct (br_channels b !! ch) as [[]|]; try done. by rewrite list_lookup_insert_ne. }
  split; cbn; auto.
  - intros s' ch'. rewrite lookup_delete_Some. intros [Hne Hp']. rewrite Hother; [by apply H2|]. intros ->. by apply Hne, (H3 _ _ ch).
  - intros s1 s2 ch'. rewrite !lookup_delete_Some. intros [_ ?] [_ ?]. by eapply H3.
  - intros s' ch'. rewrite lookup_delete_Some. intros [Hne Hp']. rewrite Hother; [by apply H4|]. intros ->. by apply Hne, (H3 _ _ ch).
  - intros c Hc. destruct (H5 _ Hc) as [Hs Hok]. split; [done|]. unfold channel_ok in *. cbn.
    destruct (decide (call_channel c = ch)) as [<-|Hne].
    + unfold oneshot_send. destruct (br_channels b !! call_channel c) as [[|[r'|e]| |]|] eqn:E; cbn in *; try (by rewrite E).
      * assert (call_seq c = s) as Hsq by (apply (H3 _ _ (call_channel c)); naive_solver).
        rewrite list_lookup_insert_eq by by eapply lookup_lt_Some. destruct r; [|naive_solver]. split; [naive_solver|congruence].
    + rewrite Hother by done. destruct (br_channels b !! call_channel c) as [[|[r'|e]| |]|] eqn:E; try done.
      destruct Hok as [Hph Hp']. split; [done|]. rewrite lookup_delete_ne; [done|]. intros ->. congruence.
Qed.

Lemma handle_message_inv m b : broker_inv b -> broker_inv (handle_message m b).
Proof.
  intros Hi. destruct m as [r|r|e]; cbn [handle_message]; [done| |].
  - destruct (br_pending b !! rs_request_seq r) as [ch|] eqn:E; [|done]. by apply (deliver_inv _ _ _ (Ok r)).
  - destruct (kept_event _); [destruct (broadcast _ _ _) as [subs boxes]|destruct (String.eqb _ _)]; try done;
      (eapply same_calls_inv; [|exact Hi]); by repeat split.
Qed.

Lemma drain_lookup (l : list (Z * nat)) (chs : list Oneshot) ch :
  fold_right (fun p l => oneshot_send (snd p) disconnected l) chs l !! ch
  = match chs !! ch with
    | Some Empty => if bool_decide (ch ∈ map snd l) then Some (Sent disconnected) else Some Empty
    | o => o
    end.
Proof.
  induction l as [|[s c] l IH]; cbn [fold_right map snd].
  - by destruct (chs !! ch) as [[]|].
  - unfold oneshot_send at 1. destruct (decide (ch = c)) as [->|Hne].
    + rewrite IH. destruct (chs !! c) as [[]|] eqn:E; try done; try (by rewrite IH). rewrite (bool_decide_true (c ∈ c :: _)) by by left.
      case_bool_decide; [by rewrite IH|]. rewrite list_lookup_insert_eq; [done|]. apply lookup_lt_is_Some. by rewrite IH.
    + assert (bool_decide (ch ∈ c :: map snd l) = bool_decide (ch ∈ map snd l)) as ->
        by (apply bool_decide_ext; rewrite elem_of_cons; naive_solver).
      destruct (_ !! c) as [[]|]; rewrite ?list_lookup_insert_ne by done; apply IH.
Qed.

Lemma close_session_inv b : broker_inv b -> broker_inv (close_session b).
Proof.
  intros [H1 H2 H3 H4 H5]. unfold close_session. split; cbn; auto; try (intros *; by rewrite lookup_empty).
  intros c Hc. destruct (H5 _ Hc) as [Hs Hok]. split; [done|]. unfold channel_ok in *. cbn. rewrite drain_lookup.
  destruct (br_channels b !! call_channel c) as [[|[r|e]| |]|]; try done. destruct Hok as [Hph Hp].
  rewrite bool_decide_true; [done|]. apply list_elem_of_fmap. exists (call_seq c, call_channel c). split; [done|]. by apply elem_of_map_to_list.
Qed.

(** Steps that do not concern calls. *)
Definition quiet (a : BrokerAction) : bool :=
  match a with NoWait _ _ | EndOfStream | ReaderLost | Subscribe _ | Take _ | Unsubscribe _ | CleanSubscribers => true | _ => false end.

Lemma step_quiet a b b' ret : quiet a = true -> step a b = Some (b', ret) -> same_calls b b' /\ ret = None.
Proof.
  destruct a; try done; intros _; cbn [step].
  - destruct (br_call b); [done|]. intros [= <- <-]. split; [apply send_message_same|done].
  - destruct (br_reader b); try done. by intros [= <- <-].
  - by intros [= <- <-].
  - unfold subscribe_events. destruct (_ =? 0)%N; [done|]. by intros [= <- <-].
  - destruct (br_mailboxes b !! i) as [[[|e q] cap cl]|]; try done. by intros [= <- <-].
  - destruct (br_mailboxes b !! i); [|done]. by intros [= <- <-].
  - by intros [= <- <-].
Qed.

Lemma step_inv a b b' ret : broker_inv b -> (br_next_seq b < 2 ^ 63 - 1)%Z -> step a b = Some (b', ret) -> broker_inv b'.
Proof.
  intros Hi Hlt Hst. destruct (quiet a) eqn:Q; [eapply same_calls_inv; [apply (step_quiet _ _ _ _ Q Hst)|done]|].
  destruct a; try discriminate Q; cbn [step] in Hst.
  - destruct (br_call b) eqn:Ec; [done|]. injection Hst as <- _. by apply begin_inv.
  - destruct (br_call b) as [c|] eqn:Ec; [|done]. destruct (call_phase c) eqn:Ep; try done.
    pose proof (send_message_same (MRequest (call_request c)) w b) as Hsame. destruct (send_message _ w b) as [b1 [[]|e]]; cbn in Hsame; injection Hst as <- _.
    + apply waiting_inv; [by eapply same_calls_inv| |done]. destruct Hsame as (_ & -> & _). done.
    + apply end_call_inv; [by eapply same_calls_inv|]. destruct Hsame as (_ & -> & _). done.
  - destruct (br_call b) as [c|] eqn:Ec; [|done]. destruct (call_phase c); try done.
    destruct (br_channels b !! call_channel c) as [[]|]; try done; injection Hst as <- _; by apply end_call_inv.
  - destruct (br_call b) as [c|] eqn:Ec; [|done]. destruct (call_phase c); try done.
    destruct (br_channels b !! call_channel c) as [[]|]; try done; injection Hst as <- _; by apply expired_inv.
  - destruct (br_call b) as [c|] eqn:Ec; [|done]. destruct (call_phase c) eqn:Ep; try done. injection Hst as <- _.
    pose proof (call_none_inv _ _ Hi Ec Ep) as Hn. apply (shrink_inv (set_call None b)); [done|apply delete_subseteq|done].
  - destruct (br_call b) as [c|] eqn:Ec; [|done]. injection Hst as <- _. by apply end_call_inv.
  - destruct (br_reader b); try done. injection Hst as <- _. pose proof (handle_message_inv m _ Hi) as Hm.
    destruct (session_end_event m); [|done]. eapply same_calls_inv; [|exact Hm]. by repeat split.
  - destruct (br_reader b); try done. injection Hst as <- _. by apply close_session_inv.
  - injection Hst as <- _. apply shrink_inv; [done|apply map_filter_subseteq|]. intros c Hc He. apply map_lookup_filter_Some.
    destruct (inv_call _ Hi _ Hc) as [_ Hok]. unfold channel_ok in Hok. rewrite He in Hok. split; [apply Hok|]. cbn. unfold is_closed. by rewrite He.
Qed.

(** ** Histories *)

(** The least sequence number that may still be answered. *)
Definition lower (b : Broker) : Z := match br_call b with Some c => call_seq c | None => br_next_seq b end.

Lemma handle_message_call m (b : Broker) : br_call (handle_message m b) = br_call b /\ br_next_seq (handle_message m b) = br_next_seq b.
Proof.
  destruct m as [r|r|e]; cbn [handle_message]; [done| |].
  - by destruct (br_pending b !! rs_request_seq r).
  - destruct (kept_event _); [by destruct (broadcast _ _ _)|by destruct (String.eqb _ _)].
Qed.

(** What a step returns, and how it moves the numbers on. *)
Lemma step_returns a b b' ret : broker_inv b -> (br_next_seq b < 2 ^ 63 - 1)%Z -> step a b = Some (b', ret) ->
  (br_next_seq b <= br_next_seq b' <= br_next_seq b + 1)%Z /\
  match ret with
  | Some (s, x) => s = lower b /\ (lower b < lower b')%Z /\
      match x with Answer (Ok r) => rs_request_seq r = s /\ exists ch, br_channels b !! ch = Some (Sent (Ok r)) | _ => True end
  | None => (lower b <= lower b')%Z
  end.
Proof.
  intros Hi Hlt. pose proof Hi as [H1 _ _ _ H5]. unfold lower. intros Hst.
  destruct (quiet a) eqn:Q; [destruct (step_quiet _ _ _ _ Q Hst) as [(-> & -> & _) ->]; destruct (br_call b); lia|].
  destruct a; try discriminate Q; cbn [step] in Hst.
  - destruct (br_call b) eqn:Ec; [done|]. injection Hst as <- <-. cbn. unfold call_seq. cbn. rewrite seq_succ_small by lia. lia.
  - destruct (br_call b) as [c|] eqn:Ec; [|done]. destruct (call_phase c); try done. destruct (H5 _ eq_refl) as [Hs _].
    pose proof (send_message_same (MRequest (call_request c)) w b) as (E1 & E2 & _). destruct (send_message _ w b) as [b1 [[]|e]]; cbn in E1, E2; injection Hst as <- <-; cbn; rewrite ?E1.
    + unfold call_seq in *. cbn. lia.
    + unfold fail_call. destruct (call_kind c); lia.
  - destruct (br_call b) as [c|] eqn:Ec; [|done]. destruct (call_phase c); try done. destruct (H5 _ eq_refl) as [Hs Hok]. unfold channel_ok in Hok.
    destruct (br_channels b !! call_channel c) as [[|r| |]|] eqn:E; try done; injection Hst as <- <-; cbn; (split; [lia|]); (split; [done|]); (split; [lia|]).
    unfold answer_call. destruct (call_kind c); [|done]. destruct r; [|done]. split; [apply Hok|]. by eexists.
  - destruct (br_call b) as [c|] eqn:Ec; [|done]. destruct (call_phase c); try done.
    destruct (br_channels b !! call_channel c) as [[]|]; try done; injection Hst as <- <-. cbn. unfold call_seq. cbn. lia.
  - destruct (br_call b) as [c|] eqn:Ec; [|done]. destruct (call_phase c) eqn:Ep; try done. destruct (H5 _ eq_refl) as [Hs _]. injection Hst as <- <-.
    cbn. unfold expire_call. destruct (call_kind c); lia.
  - destruct (br_call b) as [c|] eqn:Ec; [|done]. destruct (H5 _ eq_refl) as [Hs _]. injection Hst as <- <-. cbn. lia.
  - destruct (br_reader b); try done. injection Hst as <- <-. destruct (handle_message_call m b) as [Ea Eb].
    destruct (session_end_event m); cbn; rewrite Ea, Eb; destruct (br_call b); lia.
  - destruct (br_reader b); try done. injection Hst as <- <-. cbn. destruct (br_call b); lia.
  - injection Hst as <- <-. cbn. destruct (br_call b); lia.
Qed.

(** Every answer in a channel was heard by the reader. *)
Definition all_heard (heard : Response J -> Prop) (b : Broker) : Prop :=
  forall ch r, br_channels b !! ch = Some (Sent (Ok r)) -> heard r.

Lemma heard_insert (heard : Response J -> Prop) (l : list Oneshot) ch o : (forall r, o = Sent (Ok r) -> heard r) ->
  (forall ch' r, l !! ch' = Some (Sent (Ok r)) -> heard r) -> forall ch' r, <[ch := o]> l !! ch' = Some (Sent (Ok r)) -> heard r.
Proof. intros Ho Hl ch' r E. apply list_lookup_insert_Some in E as [(_ & -> & _)|[_ E]]; [by apply Ho|by eapply Hl]. Qed.

Lemma step_heard heard a b b' ret : all_heard heard b -> (forall r, a = Receive (MResponse r) -> heard r) ->
  step a b = Some (b', ret) -> all_heard heard b'.
Proof.
  unfold all_heard. intros Hb Ha Hst.
  destruct (quiet a) eqn:Q; [by destruct (step_quiet _ _ _ _ Q Hst) as [(_ & _ & _ & ->) _]|].
  destruct a; try discriminate Q; cbn [step] in Hst.
  - destruct (br_call b); [done|]. injection Hst as <- _. unfold begin_call, next_sequence, displace. cbn. intros ch r.
    rewrite lookup_app_Some. intros [E|[_ E]]; [|destruct (ch - _)%nat as [|[]]; discriminate].
    revert ch r E. destruct (br_pending b !! br_next_seq b) as [ch|]; [|done]. destruct (br_channels b !! ch) as [[]|]; try done. by apply heard_insert.
  - destruct (br_call b) as [c|]; [|done]. destruct (call_phase c); try done.
    pose proof (send_message_same (MRequest (call_request c)) w b) as (_ & _ & _ & E4). destruct (send_message _ w b) as [b1 [[]|e]]; cbn in E4; injection Hst as <- _; cbn; rewrite E4; [done|].
    by apply heard_insert.
  - destruct (br_call b) as [c|]; [|done]. destruct (call_phase c); try done.
    destruct (br_channels b !! call_channel c) as [[]|]; try done; injection Hst as <- _; by apply heard_insert.
  - destruct (br_call b) as [c|]; [|done]. destruct (call_phase c); try done.
    destruct (br_channels b !! call_channel c) as [[]|]; try done; injection Hst as <- _; by apply heard_insert.
  - destruct (br_call b) as [c|]; [|done]. destruct (call_phase c); try done. by injection Hst as <- _.
  - destruct (br_call b) as [c|]; [|done]. injection Hst as <- _. by apply heard_insert.
  - destruct (br_reader b); try done. injection Hst as <- _.
    assert (forall ch r, br_channels (handle_message m b) !! ch = Some (Sent (Ok r)) -> heard r) as Hm by
     (destruct m as [r|r|e]; cbn [handle_message]; [done| |destruct (kept_event _); [by destruct (broadcast _ _ _)|by destruct (String.eqb _ _)]];
      destruct (br_pending b !! rs_request_seq r) as [ch|]; [|done]; cbn; unfold oneshot_send; destruct (br_channels b !! ch) as [[]|]; try done;
      apply heard_insert; [|done]; intros ? [= <-]; by apply Ha).
    by destruct (session_end_event m).
  - destruct (br_reader b); try done. injection Hst as <- _. cbn. intros ch r. rewrite drain_lookup.
    destruct (br_channels b !! ch) as [[]|] eqn:E; try done; [by case_bool_decide|]. intros [= ->]. by eapply Hb.
  - by injection Hst as <- _.
Qed.

Lemma new_broker_inv : broker_inv new_broker.
Proof. split; cbn; try done; intros *; by rewrite lookup_empty. Qed.

(** Along a history: the invariant, the order of the answers and what they are. *)
Lemma run_spec (heard : Response J -> Prop) acts b b' rets :
  broker_inv b -> (br_next_seq b + Z.of_nat (length acts) < 2 ^ 63)%Z -> all_heard heard b ->
  (forall r, Receive (MResponse r) ∈ acts -> heard r) -> run acts b = Some (b', rets) ->
  broker_inv b' /\ StronglySorted Z.lt (map fst rets) /\ Forall (fun x => (lower b <= fst x)%Z) rets
  /\ Forall (fun x => match snd x with Answer (Ok r) => rs_request_seq r = fst x /\ heard r | _ => True end) rets.
Proof.
  revert b rets. induction acts as [|a acts IH]; intros b rets Hi Hlen Hh Hacts; cbn [run].
  { intros [= <- <-]. split; [done|]. repeat constructor. }
  cbn [length] in Hlen. destruct (step a b) as [[b1 ret]|] eqn:Es; [|done]. destruct (run acts b1) as [[b2 rets']|] eqn:Er; [|done]. intros [= <- <-].
  assert (br_next_seq b < 2 ^ 63 - 1)%Z as Hlt by lia. destruct (step_returns _ _ _ _ Hi Hlt Es) as [Hseq Hret].
  assert (all_heard heard b1) as Hh1 by (eapply step_heard; [done| |done]; intros r ->; apply Hacts; left).
  destruct (IH b1 rets' (step_inv _ _ _ _ Hi Hlt Es) ltac:(lia) Hh1 (fun r Hr => Hacts r (list_elem_of_further _ _ _ Hr)) Er) as (Hi' & Hsort & Hlow & Hans).
  split; [done|]. destruct ret as [[s x]|].
  - destruct Hret as (Heq & Hlo & Hx). subst s. split; [|split].
    + cbn [map fst]. constructor; [done|]. apply List.Forall_forall. intros z Hz. apply in_map_iff in Hz as (y & <- & Hy). rewrite List.Forall_forall in Hlow. specialize (Hlow _ Hy). cbn in Hlow. lia.
    + constructor; [cbn; lia|]. eapply List.Forall_impl; [|exact Hlow]. cbn. lia.
    + constructor; [|done]. cbn. destruct x as [[r|]|]; try done. destruct Hx as [-> [ch Hch]]. split; [done|]. by eapply Hh.
  - split; [done|]. split; [|done]. eapply List.Forall_impl; [|exact Hlow]. cbn. lia.
Qed.

Lemma new_broker_run acts b rets : run acts new_broker = Some (b, rets) -> (Z.of_nat (length acts) < 2 ^ 63 - 1)%Z ->
  broker_inv b /\ StronglySorted Z.lt (map fst rets)
  /\ Forall (fun x => match snd x with Answer (Ok r) => rs_request_seq r = fst x /\ Receive (MResponse r) ∈ acts | _ => True end) rets.
Proof.
  intros Hr Hlen. destruct (run_spec (fun r => Receive (MResponse r) ∈ acts) acts new_broker b rets) as (H1 & H2 & _ & H3); auto using new_broker_inv.
  - cbn. lia.
  - intros ch r E. cbn in E. by rewrite lookup_nil in E.
Qed.

(** C5: every caller gets its own answer.  In every history of a session, of
    fewer than 2^63 - 1 steps, however callers, timeouts, abandoned calls, the
    reader and the end of the session interleave: a request that returns a
    response returns one that the reader received and that answers the request's
    own sequence number; and the requests return in the order of their sequence
    numbers, each at most once. *)
Theorem answers_match_requests (acts : list BrokerAction) (b : Broker) (rets : list (Z * CallReturn))
  (Hrun : run acts new_broker = Some (b, rets)) (Hlen : (Z.of_nat (length acts) < 2 ^ 63 - 1)%Z) :
  StronglySorted Z.lt (map fst rets)
  /\ forall s r, (s, Answer (Ok r)) ∈ rets -> rs_request_seq r = s /\ Receive (MResponse r) ∈ acts.
Proof.
  destruct (new_broker_run acts b rets Hrun Hlen) as (_ & Hs & Hf). split; [done|]. intros s r Hin.
  rewrite List.Forall_forall in Hf. exact (Hf _ (proj1 (list_elem_of_In _ _) Hin)).
Qed.

(** A waiting caller is always told.  In a session whose history has brought
    it to a state with a call waiting for its answer: if nothing has been sent to
    it yet, then the next response with its sequence number is what it returns,
    and if the session closes first, it returns the disconnection error; if
    something was sent, it returns that, whatever the reader does. *)
Theorem waiting_caller_is_told (acts : list BrokerAction) (b : Broker) (rets : list (Z * CallReturn)) (c : Call) (r : Response J)
  (Hrun : run acts new_broker = Some (b, rets)) (Hlen : (Z.of_nat (length acts) < 2 ^ 63 - 1)%Z)
  (Hcall : br_call b = Some c) (Hwait : call_phase c = Waiting) (Hseq : rs_request_seq r = call_seq c) :
  match br_channels b !! call_channel c with
  | Some Empty =>
      (br_reader b = Reading -> exists b', run [Receive (MResponse r); Resume] b = Some (b', [(call_seq c, answer_call c (Ok r))]))
      /\ (br_reader b = Closing -> exists b', run [CloseSession; Resume] b = Some (b', [(call_seq c, answer_call c disconnected)]))
  | Some (Sent x) => exists b', run [Resume] b = Some (b', [(call_seq c, answer_call c x)])
  | _ => False
  end.
Proof.
  destruct (new_broker_run acts b rets Hrun Hlen) as (Hi & _ & _). destruct (inv_call _ Hi _ Hcall) as [_ Hok]. unfold channel_ok in Hok.
  destruct (br_channels b !! call_channel c) as [[|x| |]|] eqn:E; try done; [|cbn; rewrite Hcall, Hwait, E; by eexists|congruence].
  destruct Hok as [_ Hp]. pose proof (lookup_lt_Some _ _ _ E) as Hl. split; intros Hrd.
  - cbn [run step]. rewrite Hrd. cbn [session_end_event]. cbn [handle_message]. rewrite Hseq, Hp. cbn. rewrite Hcall, Hwait. unfold oneshot_send. rewrite E.
    rewrite list_lookup_insert_eq by done. by eexists.
  - cbn [run step]. rewrite Hrd. cbn. rewrite Hcall, Hwait, drain_lookup, E. rewrite bool_decide_true; [by eexists|].
    apply list_elem_of_fmap. exists (call_seq c, call_channel c). split; [done|]. by apply elem_of_map_to_list.
Qed.

(** ** Events *)

(** Subscribers are distinct queues, none over its capacity. *)
Definition mailboxes_ok (subs : list nat) (boxes : list (@Mailbox J)) : Prop :=
  NoDup subs /\ (forall i, i ∈ subs -> i < length boxes)%nat
  /\ forall i mb, boxes !! i = Some mb -> (lenN (mb_queue mb) <= mb_capacity mb)%N.

Definition after_event (e : DapEvent J) (mb : Mailbox) : Mailbox := snd (try_send e mb).

Lemma after_event_ok e mb : (lenN (mb_queue mb) <= mb_capacity mb)%N -> (lenN (mb_queue (after_event e mb)) <= mb_capacity (after_event e mb))%N.
Proof.
  intros Hle. unfold after_event, try_send. destruct (mb_closed mb); [done|]. destruct (N.ltb_spec (lenN (mb_queue mb)) (mb_capacity mb)); cbn; [|done]. rewrite lenN_app, lenN_cons, lenN_nil. lia.
Qed.

Lemma broadcast_spec e subs boxes : NoDup subs -> (forall i, i ∈ subs -> i < length boxes)%nat ->
  let '(subs', boxes') := broadcast e subs boxes in
  (forall i, boxes' !! i = if bool_decide (i ∈ subs) then after_event e <$> boxes !! i else boxes !! i)
  /\ subs' `sublist_of` subs /\ length boxes' = length boxes
  /\ (forall i mb, i ∈ subs -> boxes !! i = Some mb -> mb_closed mb = false -> i ∈ subs').
Proof.
  revert boxes. induction subs as [|i subs IH]; intros boxes Hnd Hlt; cbn [broadcast].
  { split; [done|]. split; [done|]. split; [done|]. by intros ? ? H%elem_of_nil. }
  inversion Hnd as [|? ? Hni Hnd']; subst. destruct (boxes !! i) as [mb|] eqn:E.
  2: { exfalso. apply lookup_ge_None in E. specialize (Hlt i (list_elem_of_here _ _)). lia. }
  destruct (try_send e mb) as [keep mb'] eqn:Et.
  specialize (IH (<[i:=mb']> boxes) Hnd'). rewrite length_insert in IH. specialize (IH (fun j Hj => Hlt j (list_elem_of_further _ _ _ Hj))).
  destruct (broadcast e subs (<[i:=mb']> boxes)) as [subs' boxes']. destruct IH as (Hb & Hk & Hl & Hin).
  split; [|split; [|split; [done|]]].
  - intros j. rewrite Hb. destruct (decide (j = i)) as [->|Hne].
    + rewrite (bool_decide_false (i ∈ subs)) by done. rewrite bool_decide_true by by left. rewrite list_lookup_insert_eq by by eapply lookup_lt_Some.
      rewrite E. cbn. unfold after_event. by rewrite Et.
    + rewrite list_lookup_insert_ne by done. assert (bool_decide (j ∈ i :: subs) = bool_decide (j ∈ subs)) as -> by (apply bool_decide_ext; rewrite elem_of_cons; naive_solver). done.
  - destruct keep; by constructor.
  - intros j mj Hj Ej Hcl. apply elem_of_cons in Hj as [->|Hj].
    + assert (mj = mb) as -> by congruence. unfold try_send in Et. rewrite Hcl in Et. destruct (_ <? _)%N; injection Et as <- _; by left.
    + assert (j <> i) as Hne by (intros ->; done). assert (j ∈ subs') as Hj' by (eapply Hin; [done| |done]; by rewrite list_lookup_insert_ne).
      destruct keep; [by right|done].
Qed.

Lemma mailboxes_shrink subs subs' boxes : subs' `sublist_of` subs -> mailboxes_ok subs boxes -> mailboxes_ok subs' boxes.
Proof.
  intros Hs (H1 & H2 & H3). split; [by eapply sublist_NoDup|]. split; [|done]. intros i Hi. apply H2. by eapply elem_of_submseteq, sublist_submseteq, Hs.
Qed.

Lemma mailboxes_insert subs boxes i mb : mailboxes_ok subs boxes -> (lenN (mb_queue mb) <= mb_capacity mb)%N -> mailboxes_ok subs (<[i := mb]> boxes).
Proof.
  intros (H1 & H2 & H3) Hle. split; [done|]. split; [intros; rewrite length_insert; auto|]. intros j mj E.
  apply list_lookup_insert_Some in E as [(_ & <- & _)|[_ E]]; [done|by eapply H3].
Qed.

Lemma broadcast_ok e subs boxes : mailboxes_ok subs boxes -> mailboxes_ok (fst (broadcast e subs boxes)) (snd (broadcast e subs boxes)).
Proof.
  intros (H1 & H2 & H3). pose proof (broadcast_spec e subs boxes H1 H2) as Hb. destruct (broadcast e subs boxes) as [subs' boxes'].
  destruct Hb as (Hb & Hk & Hl & _). cbn [fst snd]. apply (mailboxes_shrink subs); [done|]. split; [done|]. split; [intros; rewrite Hl; auto|].
  intros i mb E. rewrite Hb in E. case_bool_decide; [|by eapply H3]. destruct (boxes !! i) eqn:Ei; [|done]. injection E as <-. by eapply after_event_ok, H3.
Qed.

Lemma step_mailboxes a b b' ret : mailboxes_ok (br_subscribers b) (br_mailboxes b) -> step a b = Some (b', ret) ->
  mailboxes_ok (br_subscribers b') (br_mailboxes b').
Proof.
  intros Hm. destruct a; cbn [step]; intros Hst.
  - destruct (br_call b); [done|]. by injection Hst as <- _.
  - destruct (br_call b) as [c|]; [|done]. destruct (call_phase c); try done. unfold send_message in Hst. destruct (encode_message _); [destruct w|]; by injection Hst as <- _.
  - destruct (br_call b) as [c|]; [|done]. destruct (call_phase c); try done. destruct (br_channels b !! call_channel c) as [[]|]; try done; by injection Hst as <- _.
  - destruct (br_call b) as [c|]; [|done]. destruct (call_phase c); try done. destruct (br_channels b !! call_channel c) as [[]|]; try done; by injection Hst as <- _.
  - destruct (br_call b) as [c|]; [|done]. destruct (call_phase c); try done. by injection Hst as <- _.
  - destruct (br_call b) as [c|]; [|done]. by injection Hst as <- _.
  - destruct (br_call b); [done|]. injection Hst as <- _. unfold send_message. by destruct (encode_message _); [destruct w|].
  - destruct (br_reader b); try done. injection Hst as <- _.
    assert (mailboxes_ok (br_subscribers (handle_message m b)) (br_mailboxes (handle_message m b))) as Hh.
    { destruct m as [r|r|e]; cbn [handle_message]; [done|by destruct (br_pending b !! _)|]. pose proof (broadcast_ok e _ _ Hm) as Hb.
      destruct (kept_event _); [by destruct (broadcast _ _ _)|by destruct (String.eqb _ _)]. }
    by destruct (session_end_event m).
  - destruct (br_reader b); try done. by injection Hst as <- _.
  - destruct (br_reader b); try done. injection Hst as <- _. eapply mailboxes_shrink; [apply sublist_nil_l|exact Hm].
  - by injection Hst as <- _.
  - unfold subscribe_events in Hst. destruct (capacity =? 0)%N; [done|]. injection Hst as <- _. cbn.
    destruct (mailboxes_shrink _ (filter (fun i => mailbox_closed b i = false) (br_subscribers b)) _ (sublist_filter _ _) Hm) as (H1 & H2 & H3).
    split; [|split].
    + apply list.NoDup_app. split; [done|]. split; [|apply NoDup_singleton]. intros i Hi ->%list_elem_of_singleton. apply H2 in Hi. lia.
    + intros i. rewrite elem_of_app, list_elem_of_singleton, length_app. cbn. intros [Hi| ->]; [apply H2 in Hi|]; lia.
    + intros i mb. rewrite lookup_app_Some. intros [E|[_ E]]; [by eapply H3|]. apply list_lookup_singleton_Some in E as [_ <-]. apply N.le_0_l.
  - destruct (br_mailboxes b !! i) as [[[|e q] cap cl]|] eqn:E; try done. injection Hst as <- _. apply mailboxes_insert; [done|].
    destruct Hm as (_ & _ & H3). apply H3 in E. cbn in *. rewrite lenN_cons in E. lia.
  - destruct (br_mailboxes b !! i) as [mb|] eqn:E; [|done]. injection Hst as <- _. apply mailboxes_insert; [done|]. destruct Hm as (_ & _ & H3). by apply H3 in E.
  - injection Hst as <- _. eapply mailboxes_shrink; [apply sublist_filter|done].
  - by injection Hst as <- _.
Qed.

Lemma run_mailboxes acts b b' rets : mailboxes_ok (br_subscribers b) (br_mailboxes b) -> run acts b = Some (b', rets) ->
  mailboxes_ok (br_subscribers b') (br_mailboxes b').
Proof.
  revert b rets. induction acts as [|a acts IH]; intros b rets Hm; cbn [run]; [by intros [= <- _]|].
  destruct (step a b) as [[b1 ret]|] eqn:Es; [|done]. destruct (run acts b1) as [[b2 rets']|] eqn:Er; [|done]. intros [= <- _].
  by eapply IH, Er; eapply step_mailboxes.
Qed.

(** The events among some messages that subscribers get to see. *)
Definition kept_of (m : ProtocolMessage J) : option (DapEvent J) :=
  match m with MEvent e => if kept_event (ev_event e) then Some e else None | _ => None end.

Lemma after_event_open e q cap : (lenN q <= cap)%N ->
  after_event e (mkMailbox q cap false) = mkMailbox (take (N.to_nat cap) (q ++ [e])) cap false.
Proof.
  intros Hq. unfold after_event, try_send, lenN in *. cbn. destruct (N.ltb_spec (N.of_nat (length q)) cap); cbn; f_equal.
  - rewrite take_ge; [done|]. rewrite length_app. cbn. lia.
  - rewrite take_app_le by lia. by rewrite take_ge by lia.
Qed.

(** One message, seen from an open subscription. *)
Lemma handle_message_box m b i q cap :
  mailboxes_ok (br_subscribers b) (br_mailboxes b) -> i ∈ br_subscribers b -> br_mailboxes b !! i = Some (mkMailbox q cap false) ->
  br_mailboxes (handle_message m b) !! i
    = Some (mkMailbox (take (N.to_nat cap) (q ++ match kept_of m with Some e => [e] | None => [] end)) cap false)
  /\ i ∈ br_subscribers (handle_message m b).
Proof.
  intros (H1 & H2 & H3) Hi E. pose proof (H3 _ _ E) as Hq. cbn in Hq. unfold lenN in Hq.
  assert (take (N.to_nat cap) (q ++ []) = q) as Hz by (rewrite app_nil_r, take_ge by lia; done).
  destruct m as [r|r|e]; cbn [handle_message kept_of].
  - by rewrite Hz.
  - rewrite Hz. by destruct (br_pending b !! rs_request_seq r).
  - destruct (kept_event (ev_event e)); [|rewrite Hz; by destruct (String.eqb _ _)].
    pose proof (broadcast_spec e _ _ H1 H2) as Hb. destruct (broadcast e _ _) as [subs boxes]. destruct Hb as (Hb & _ & _ & Hin). cbn.
    rewrite Hb, bool_decide_true, E by done. cbn. rewrite after_event_open by done. split; [done|]. by eapply Hin.
Qed.

Lemma take_app_take {A : Type} n (x m : list A) : take n (take n x ++ m) = take n (x ++ m).
Proof. rewrite !take_app, take_take, Nat.min_id, length_take. do 2 f_equal. lia. Qed.

(** A subscriber sees the events in order.  In any reachable state, let a
    subscription be open and the reader then take messages off the stream: the
    subscriber's queue is what it was followed by exactly the events it is meant
    to see (output, stopped, terminated, exited, continued, breakpoint), in
    order, cut at the capacity of the queue; responses, requests and the other
    events leave it alone. *)
Theorem subscriber_sees_events (acts : list BrokerAction) (b b' : Broker) (rets rets' : list (Z * CallReturn)) (i : nat)
  (q : list (DapEvent J)) (cap : N) (ms : list (ProtocolMessage J))
  (Hrun : run acts new_broker = Some (b, rets)) (Hsub : i ∈ br_subscribers b) (Hopen : br_mailboxes b !! i = Some (mkMailbox q cap false))
  (Hread : run (map Receive ms) b = Some (b', rets')) :
  br_mailboxes b' !! i = Some (mkMailbox (take (N.to_nat cap) (q ++ omap kept_of ms)) cap false).
Proof.
  assert (mailboxes_ok (br_subscribers b) (br_mailboxes b)) as Hm.
  { eapply run_mailboxes; [|exact Hrun]. cbn. split; [constructor|]. split; [by intros ? ?%elem_of_nil|intros *; by rewrite lookup_nil]. }
  clear Hrun. revert b q rets' Hsub Hopen Hread Hm. induction ms as [|m ms IH]; intros b q rets' Hsub Hopen Hread Hm; cbn [map run] in Hread.
  { injection Hread as <- _. rewrite Hopen. cbn. rewrite app_nil_r, take_ge; [done|]. destruct Hm as (_ & _ & H3). apply H3 in Hopen. unfold lenN in Hopen. cbn in Hopen. lia. }
  destruct (step (Receive m) b) as [[b1 ret]|] eqn:Es; [|done]. destruct (run (map Receive ms) b1) as [[b2 rets2]|] eqn:Er; [|done]. injection Hread as <- _.
  pose proof (step_mailboxes _ _ _ _ Hm Es) as Hm1. cbn [step] in Es. destruct (br_reader b); try done. injection Es as <- <-.
  destruct (handle_message_box m b i q cap Hm Hsub Hopen) as [Hbox Hin].
  set (b1 := if session_end_event m then _ else _) in *.
  assert (br_mailboxes b1 = br_mailboxes (handle_message m b) /\ br_subscribers b1 = br_subscribers (handle_message m b)) as [E1 E2] by by (unfold b1; destruct (session_end_event m)).
  rewrite <- E1 in Hbox. rewrite <- E2 in Hin. rewrite (IH b1 _ _ Hin Hbox Er Hm1), take_app_take, <- app_assoc. cbn. by destruct (kept_of m).
Qed.

(** ** Housekeeping and dead sessions *)

Lemma map_size_le_1 (m : gmap Z nat) : (forall i j x y, m !! i = Some x -> m !! j = Some y -> i = j) -> (size m <= 1)%nat.
Proof.
  intros Huniq. destruct (decide (size m <= 1)%nat) as [|Hbig]; [done|exfalso].
  destruct (map_choose m) as (i & x & Hi); [intros ->; rewrite map_size_empty in Hbig; lia|].
  destruct (map_choose (delete i m)) as (j & y & Hj).
  { intros Hz. assert (size (delete i m) = pred (size m)) as Hs by (apply map_size_delete_Some; by eexists). rewrite Hz, map_size_empty in Hs. lia. }
  apply lookup_delete_Some in Hj as [Hne Hj]. by destruct (Hne (Huniq _ _ _ _ Hi Hj)).
Qed.

(** Nothing accumulates.  In every reachable state, once orphaned requests
    are cleaned up, at most one request is pending, and it is the one whose
    caller holds the lock. *)
Theorem pending_requests_bounded (acts : list BrokerAction) (b : Broker) (rets : list (Z * CallReturn))
  (Hrun : run acts new_broker = Some (b, rets)) (Hlen : (Z.of_nat (length acts) < 2 ^ 63 - 1)%Z) :
  let b' := snd (cleanup_orphaned_requests b) in
  (pending_request_count b' <= 1)%nat
  /\ forall s ch, br_pending b' !! s = Some ch -> exists c, br_call b = Some c /\ call_seq c = s /\ call_channel c = ch.
Proof.
  destruct (new_broker_run acts b rets Hrun Hlen) as (Hi & _ & _). cbn zeta.
  assert (forall s ch, br_pending (snd (cleanup_orphaned_requests b)) !! s = Some ch -> exists c, br_call b = Some c /\ call_seq c = s /\ call_channel c = ch) as Hall.
  { cbn. intros s ch. rewrite map_lookup_filter_Some. cbn. intros [Hp Hc]. destruct (inv_pending _ Hi _ _ Hp) as [_ [Ho|Ho]]; unfold is_closed in Hc; rewrite Ho in Hc; [|done].
    destruct (inv_live _ Hi _ _ Hp Ho) as (c & ? & ? & ?). by exists c. }
  split; [|done]. apply map_size_le_1. intros s s2 ch ch2 Hs Hs2.
  destruct (Hall _ _ Hs) as (c & Hc & Hcs & _). destruct (Hall _ _ Hs2) as (c2 & Hc2 & Hcs2 & _). congruence.
Qed.

Lemma displace_length s (b : Broker) : length (displace s b) = length (br_channels b).
Proof. unfold displace. destruct (br_pending b !! s); [|done]. destruct (br_channels b !! _) as [[]|]; rewrite ?length_insert; done. Qed.

(** A session whose reader is over, with at most a call nothing was sent to. *)
Definition dead (b : Broker) : Prop :=
  br_reader b = Stopped /\ forall c, br_call b = Some c -> br_channels b !! call_channel c = Some Empty \/ call_phase c = Expired.

(** Returns that come from the timer or from writing, not from the session. *)
Definition own_error (acts : list BrokerAction) (e : DapError) : Prop :=
  (exists m, encode_message m = Err e) \/ exists text n, e = DapCommunication text /\ Send (WriteFailed text n) ∈ acts.
Definition uninformed (acts : list BrokerAction) (x : CallReturn) : Prop :=
  match x with
  | Answer (Ok _) => False
  | Answer (Err e) => (exists ms, e = DapTimeout ms) \/ own_error acts e
  | Detected (Ok _) => True
  | Detected (Err e) => own_error acts e
  end.

Lemma own_error_mono acts acts' e : acts ⊆ acts' -> own_error acts e -> own_error acts' e.
Proof. intros Hs [H|(t & n & ? & H)]; [by left|right]. exists t, n. split; [done|by apply Hs]. Qed.
Lemma uninformed_mono acts acts' x : acts ⊆ acts' -> uninformed acts x -> uninformed acts' x.
Proof.
  intros Hs. destruct x as [[r|e]|[u|e]]; cbn; try done; [intros [H|H]; [by left|right]|]; by eapply own_error_mono.
Qed.

Lemma step_dead a b b' ret : dead b -> step a b = Some (b', ret) ->
  dead b' /\ match ret with Some (_, x) => uninformed [a] x | None => True end.
Proof.
  intros [Hr Hc] Hst. destruct (quiet a) eqn:Q.
  { destruct (step_quiet _ _ _ _ Q Hst) as [(_ & E2 & _ & E4) ->]. split; [|done]. split; [|by rewrite E2, E4].
    destruct a; try done; cbn [step] in Hst; rewrite ?Hr in Hst; try done.
    - destruct (br_call b); [done|]. injection Hst as <-. unfold send_message. by destruct (encode_message _); [destruct w|].
    - by injection Hst as <-.
    - destruct (subscribe_events capacity b) as [[i b1]|] eqn:Es; [|done]. unfold subscribe_events in Es. destruct (_ =? 0)%N; [done|]. injection Es as _ <-. by injection Hst as <-.
    - destruct (br_mailboxes b !! i) as [[[|e q] cap cl]|]; try done. by injection Hst as <-.
    - destruct (br_mailboxes b !! i); [|done]. by injection Hst as <-.
    - by injection Hst as <-. }
  destruct a; try discriminate Q; cbn [step] in Hst.
  - destruct (br_call b); [done|]. injection Hst as <- <-. split; [|done]. split; [done|]. intros c [= <-]. left. cbn.
    rewrite lookup_app_r; rewrite displace_length; [|done]. cbn. by rewrite Nat.sub_diag.
  - destruct (br_call b) as [c|] eqn:Ec; [|done]. destruct (call_phase c) eqn:Ep; try done.
    unfold send_message in Hst. destruct (encode_message _) as [content|e] eqn:Ee; [destruct w|]; injection Hst as <- <-; (split; [split; [done|]|]); try done.
    + intros ? [= <-]. left. cbn. destruct (Hc c eq_refl) as [H|H]; congruence.
    + cbn. unfold fail_call. destruct (call_kind c); cbn; [right|]; right; exists error, after; (split; [done|left]).
    + cbn. unfold fail_call. destruct (call_kind c); cbn; [right|]; left; by eexists.
  - destruct (br_call b) as [c|] eqn:Ec; [|done]. destruct (call_phase c) eqn:Ep; try done. destruct (Hc c eq_refl) as [H|H]; [|congruence]. by rewrite H in Hst.
  - destruct (br_call b) as [c|] eqn:Ec; [|done]. destruct (call_phase c) eqn:Ep; try done. destruct (br_channels b !! call_channel c) as [[]|]; try done. injection Hst as <- <-.
    split; [|done]. split; [done|]. intros ? [= <-]. by right.
  - destruct (br_call b) as [c|] eqn:Ec; [|done]. destruct (call_phase c) eqn:Ep; try done. injection Hst as <- <-. split; [by split|].
    unfold expire_call. destruct (call_kind c); cbn; [left; by eexists|done].
  - destruct (br_call b) as [c|] eqn:Ec; [|done]. injection Hst as <- <-. by split.
  - by rewrite Hr in Hst.
  - by rewrite Hr in Hst.
  - injection Hst as <- <-. by split.
Qed.

(** A dead session is found out by waiting.  Once the reader task is over, a
    request that begins afterwards never learns of it: whatever the rest of the
    history, it ends in a timeout or in an error of its own writing, and the
    failure detection of attach and launch reports success unless writing failed. *)
Theorem dead_session_found_by_timeout (acts later : list BrokerAction) (b b' : Broker) (rets rets' : list (Z * CallReturn))
  (Hrun : run acts new_broker = Some (b, rets)) (Hstop : br_reader b = Stopped) (Hidle : br_call b = None)
  (Hlater : run later b = Some (b', rets')) :
  Forall (fun x => uninformed later (snd x)) rets' /\ is_alive b' = false.
Proof.
  assert (dead b) as Hd by (split; [done|congruence]). clear Hrun Hstop Hidle. revert b rets' Hd Hlater.
  induction later as [|a later IH]; intros b rets' Hd; cbn [run].
  { intros [= <- <-]. split; [constructor|]. destruct Hd as [Hr _]. unfold is_alive. by rewrite Hr. }
  destruct (step a b) as [[b1 ret]|] eqn:Es; [|done]. destruct (run later b1) as [[b2 rets2]|] eqn:Er; [|done]. intros [= <- <-].
  destruct (step_dead _ _ _ _ Hd Es) as [Hd1 Hret]. destruct (IH _ _ Hd1 Er) as [Hf Ha]. split; [|done].
  assert (Forall (fun x => uninformed (a :: later) (snd x)) rets2) as Hf'
    by (eapply List.Forall_impl; [|exact Hf]; intros x; apply uninformed_mono; intros y Hy; by right).
  destruct ret as [[s x]|]; [|done]. constructor; [|done]. cbn. eapply uninformed_mono; [|exact Hret].
  intros y ->%list_elem_of_singleton. left.
Qed.
End Invariant.

(** ** The reader task *)

Section Reader.
Context {J : Type} `{HJ : SerdeJson J} (display : string -> string).

Lemma reader_loop_terminates f st : (String.length (st_bytes st) < f)%nat ->
  snd (reader_loop display f st) <> EndFuel /\ (length (fst (reader_loop display f st)) <= String.length (st_bytes st))%nat.
Proof.
  revert st. induction f as [|f IH]; intros st Hf; [lia|]. cbn [reader_loop]. pose proof (read_message_progress display st) as Hp.
  destruct (read_message display st) as [m st'| | | |]; try (cbn; split; [done|lia]). destruct (session_end_event m); [cbn; split; [done|lia]|].
  specialize (IH st' ltac:(lia)). destruct (reader_loop display f st') as [ms e]. cbn in *. split; [apply IH|lia].
Qed.

(** The reader task comes to an end.  On every finite stream of bytes,
    however malformed, the loop of the reader task stops: at a session-ending
    event, at the end of the stream, at an error, or with a panic, after no more
    messages than there are bytes. *)
Theorem reader_task_terminates (st : Stream) :
  snd (reader_task display st) <> EndFuel /\ (length (fst (reader_task display st)) <= String.length (st_bytes st))%nat.
Proof. apply reader_loop_terminates. lia. Qed.

Context `{!SerdeJsonLaws J}.

(** The messages up to and including the first that ends the session. *)
Fixpoint until_end (ms : list (ProtocolMessage J)) : list (ProtocolMessage J) :=
  match ms with [] => [] | m :: r => if session_end_event m then [m] else m :: until_end r end.

Definition stream_end (ms : list (ProtocolMessage J)) (e : option string) : ReaderEnd :=
  if existsb session_end_event ms then EndSession
  else match e with Some text => EndError (DapCommunication text) | None => EndEof end.

Lemma reader_loop_fuel f g st : (String.length (st_bytes st) < f)%nat -> (String.length (st_bytes st) < g)%nat ->
  reader_loop display f st = reader_loop display g st.
Proof.
  revert g st. induction f as [|f IH]; intros [|g] st Hf Hg; try lia. cbn [reader_loop]. pose proof (read_message_progress display st) as Hp.
  destruct (read_message display st) as [m st'| | | |]; try done. destruct (session_end_event m); [done|]. by rewrite (IH g st') by lia.
Qed.

Lemma frame_length (s : string) : (str_len s <= str_len (frame s))%N.
Proof. unfold frame. rewrite !str_len_app. lia. Qed.

(** Messages sent are messages received.  The frames of a list of messages,
    written one after the other, are read back by the reader task as exactly
    those messages in their order, up to the first that ends the session; and
    what follows is how the stream ended. *)
Theorem frames_roundtrip (ms : list (ProtocolMessage J)) (frames : list string) (e : option string)
  (Hf : Forall (fun m => json_faithful m = true) ms) (He : collect_results encode_message ms = Ok frames)
  (Hlen : Forall (fun f => (str_len f <= isize_max)%N) frames) :
  reader_task display (mkStream (String.concat "" frames) e) = (until_end ms, stream_end ms e).
Proof.
  apply collect_results_ok in He. unfold reader_task. cbn [st_bytes]. revert Hf Hlen. induction He as [|m f ms frames Hm He IH]; intros Hf Hlen.
  { unfold stream_end. by destruct e. }
  inversion Hf; subst. inversion Hlen; subst. specialize (IH ltac:(done) ltac:(done)). unfold encode_message in Hm.
  destruct (json_to_string m) as [s|] eqn:Es; [|done]. injection Hm as <-. rewrite concat_cons. cbn [reader_loop].
  rewrite (read_message_frame display m s) by (done || (pose proof (frame_length s); lia)). unfold stream_end. cbn [until_end existsb].
  destruct (session_end_event m); [done|]. cbn [orb]. rewrite str_length_app.
  rewrite (reader_loop_fuel _ (S (String.length (String.concat "" frames)))) by (cbn [st_bytes frame String.append String.length]; lia).
  by rewrite IH.
Qed.
End Reader.

(** ** A concrete message syntax *)

(** Values are texts; a message is printed as the digits of its number. *)
Definition message_parts (m : ProtocolMessage string) :
    (Z * string * option string) + (Z * Z * string * bool * option string * option string) + (Z * string * option string) :=
  match m with
  | MRequest r => inl (inl (rq_seq r, rq_command r, rq_arguments r))
  | MResponse r => inl (inr (rs_seq r, rs_request_seq r, rs_command r, rs_success r, rs_message r, rs_body r))
  | MEvent e => inr (ev_seq e, ev_event e, ev_body e)
  end.
Definition message_of_parts p : ProtocolMessage string :=
  match p with
  | inl (inl (s, c, a)) => MRequest (mkRequest s c a)
  | inl (inr (s, q, c, k, m, b)) => MResponse (mkResponse s q c k m b)
  | inr (s, e, b) => MEvent (mkDapEvent s e b)
  end.

#[export, refine] Instance digits_json : SerdeJson string := {|
  json_to_string m := Ok (show_N (Npos (encode (message_parts m))));
  json_from_str s := match digits_val 0 s with
                     | Some (Npos p) => ok_or (message_of_parts <$> decode p) "unknown message"
                     | _ => Err "not a number"
                     end;
  json_faithful _ := true
|}.
Defined.
#[export] Instance digits_json_laws : SerdeJsonLaws string.
Proof.
  split.
  - intros m _. by eexists.
  - intros m s _ [= <-]. cbn. rewrite digits_val_show, decode_encode. by destruct m as [[]|[]|[]].
  - intros m s [= <-]. apply str_wf_ascii. eapply str_forall_impl; [apply digit_ascii|apply show_N_digits].
Qed.

(** ** Instances *)

Definition ok_response (s : Z) (c : string) : Response string := response_success 7 s c.
Definition out_event (text : string) : DapEvent string := event_with_body (event_new 8 OUTPUT_EVENT) text.

(** Two requests: the first is answered after a stray response, the second times
    out and its answer comes too late. *)
Definition two_requests : list (@BrokerAction string) :=
  [Begin (Await 5000) "threads" None; Send Written; Receive (MResponse (ok_response 9 "threads")); Receive (MResponse (ok_response 1 "threads")); Resume;
   Begin (Await 50) "stackTrace" (Some "1"); Send Written; Expire; Receive (MResponse (ok_response 2 "stackTrace")); Cleanup].

Lemma answers_match_requests_witness :
  exists b, run two_requests new_broker = Some (b, [(1%Z, Answer (Ok (ok_response 1 "threads"))); (2%Z, Answer (Err (DapTimeout 50)))])
  /\ rs_request_seq (ok_response 1 "threads") = 1%Z /\ Receive (MResponse (ok_response 1 "threads")) ∈ two_requests.
Proof.
  destruct (run two_requests new_broker) as [[b rets]|] eqn:E; [|by vm_compute in E].
  assert (rets = [(1%Z, Answer (Ok (ok_response 1 "threads"))); (2%Z, Answer (Err (DapTimeout 50)))]) as -> by (vm_compute in E; injection E as _ <-; reflexivity).
  exists b. split; [done|]. apply (answers_match_requests two_requests b _ E); [by vm_compute|left].
Defined.

Definition asking : list (@BrokerAction string) := [Begin (Await 5000) "threads" None; Send Written].

Lemma waiting_caller_is_told_witness :
  exists b c, run asking new_broker = Some (b, []) /\ br_call b = Some c
  /\ exists b', run [Receive (MResponse (ok_response 1 "threads")); Resume] b = Some (b', [(1%Z, Answer (Ok (ok_response 1 "threads")))]).
Proof.
  destruct (run asking new_broker) as [[b rets]|] eqn:E; [|by vm_compute in E].
  assert (rets = []) as -> by (vm_compute in E; injection E as _ <-; reflexivity).
  exists b, (mkCall (mkRequest 1 "threads" None) 0 (Await 5000) Waiting).
  assert (br_call b = Some (mkCall (mkRequest 1 "threads" None) 0 (Await 5000) Waiting)) as Hc by (vm_compute in E; injection E as <-; done).
  assert (br_channels b !! 0%nat = Some Empty) as Ho by (vm_compute in E; injection E as <-; done).
  assert (br_reader b = Reading) as Hr by (vm_compute in E; injection E as <-; done).
  split; [done|]. split; [done|].
  pose proof (waiting_caller_is_told asking b [] _ (ok_response 1 "threads") E eq_refl Hc eq_refl eq_refl) as Ht.
  cbn [call_channel] in Ht. rewrite Ho in Ht. exact (proj1 Ht Hr).
Defined.

Lemma subscriber_sees_events_witness :
  exists b b' rets, run [Subscribe 2] new_broker = Some (b, []) /\
  run (map Receive [MEvent (out_event "a"); MEvent (event_new 1 MODULE_EVENT); MResponse (ok_response 1 "x"); MEvent (out_event "b"); MEvent (out_event "c")]) b = Some (b', rets)
  /\ br_mailboxes b' !! 0%nat = Some (mkMailbox [out_event "a"; out_event "b"] 2 false).
Proof.
  destruct (run [Subscribe 2] new_broker) as [[b rets]|] eqn:E; [|by vm_compute in E].
  assert (rets = []) as -> by (vm_compute in E; injection E as _ <-; reflexivity).
  set (ms := [MEvent (out_event "a"); MEvent (event_new 1 MODULE_EVENT); MResponse (ok_response 1 "x"); MEvent (out_event "b"); MEvent (out_event "c")]).
  destruct (run (map Receive ms) b) as [[b' rets']|] eqn:E'; [|by vm_compute in E; injection E as <-; vm_compute in E'].
  exists b, b', rets'. split; [done|]. split; [done|].
  apply (subscriber_sees_events [Subscribe 2] b b' [] rets' 0 [] 2 ms E); [| |exact E']; vm_compute in E; injection E as <-; [left|done].
Defined.

Lemma pending_requests_bounded_witness :
  exists b, run [Begin (Await 5000) "threads" None; Abandon; Begin (Await 5000) "scopes" None] (@new_broker string) = Some (b, [])
  /\ pending_request_count b = 2%nat /\ (pending_request_count (snd (cleanup_orphaned_requests b)) <= 1)%nat.
Proof.
  destruct (run [Begin (Await 5000) "threads" None; Abandon; Begin (Await 5000) "scopes" None] (@new_broker string)) as [[b rets]|] eqn:E; [|by vm_compute in E].
  assert (rets = []) as -> by (vm_compute in E; injection E as _ <-; reflexivity). exists b. split; [done|].
  split; [vm_compute in E; injection E as <-; by vm_compute|]. apply (pending_requests_bounded _ b [] E). by vm_compute.
Defined.

Lemma dead_session_found_by_timeout_witness :
  exists b b' rets', run [EndOfStream; CloseSession] (@new_broker string) = Some (b, []) /\
  run [Begin (Await 10) "threads" None; Send Written; Expire; Cleanup] b = Some (b', rets')
  /\ Forall (fun x => uninformed [Begin (Await 10) "threads" None; Send Written; Expire; Cleanup] (snd x)) rets' /\ is_alive b' = false.
Proof.
  destruct (run [EndOfStream; CloseSession] (@new_broker string)) as [[b rets]|] eqn:E; [|by vm_compute in E].
  assert (rets = []) as -> by (vm_compute in E; injection E as _ <-; reflexivity).
  destruct (run [Begin (Await 10) "threads" None; Send Written; Expire; Cleanup] b) as [[b' rets']|] eqn:E'; [|by vm_compute in E; injection E as <-; vm_compute in E'].
  exists b, b', rets'. split; [done|]. split; [done|].
  apply (dead_session_found_by_timeout [EndOfStream; CloseSession] _ b b' [] rets' E); [| |exact E']; vm_compute in E; injection E as <-; done.
Defined.

Lemma frames_roundtrip_witness :
  exists frames, collect_results encode_message [MEvent (out_event "a"); MResponse (ok_response 1 "x"); MEvent (event_new 3 EXITED_EVENT); MEvent (out_event "b")] = Ok frames
  /\ reader_task (fun s => s) (mkStream (String.concat "" frames) None)
     = ([MEvent (out_event "a"); MResponse (ok_response 1 "x"); MEvent (event_new 3 EXITED_EVENT)], EndSession).
Proof.
  eexists. split; [reflexivity|].
  apply (frames_roundtrip (fun s => s) [MEvent (out_event "a"); MResponse (ok_response 1 "x"); MEvent (event_new 3 EXITED_EVENT); MEvent (out_event "b")]);
    [by repeat constructor|reflexivity|repeat constructor; by vm_compute].
Defined.

(** A declared length beyond [isize::MAX] panics the task before its cleanup:
    the caller that is waiting then is not told. *)
Definition huge_frame : string := "Content-Length: 9223372036854775808" ++ crlf ++ crlf.
Lemma huge_length_panics :
  reader_task (J := string) (fun s => s) (mkStream huge_frame None) = ([], EndPanic)
  /\ exists b, run (asking ++ reader_actions (reader_task (fun s => s) (mkStream huge_frame None)))%list new_broker = Some (b, [])
     /\ br_channels b !! 0%nat = Some Empty /\ br_reader b = Stopped.
Proof. split; [by vm_compute|]. eexists. split; [vm_compute; reflexivity|done]. Qed.
