(* ===== verification/Dwarf.v ===== *)
(** * DWARF registers and location expressions

    [crates/detrix-ebpf/src/dwarf/types.rs] (target registers) and
    [dwarf/evaluator.rs] (lowering of the operations of a location expression
    into pieces).  The operations come from [gimli], whose parser is outside
    the repository: an expression is the list of what its iterator yields.
    The [Debug] text of an atom, used in one diagnostic, is a parameter. *)

From Stdlib Require Import Strings.String Strings.Ascii.
From S2P Require Import Prelude RustStr.

Local Open Scope string_scope.
Local Arguments String.append !_ _ / : simpl nomatch.

Inductive TargetArchitecture : Type := X86_64 | Aarch64.
#[export] Instance TargetArchitecture_eq_dec : EqDecision TargetArchitecture.
Proof. solve_decision. Defined.

Inductive Register : Type :=
| Rax | Rdx | Rcx | Rbx | Rsi | Rdi | Rbp | Rsp
| R8 | R9 | R10 | R11 | R12 | R13 | R14 | R15
| Arm64 (index : N).
#[export] Instance Register_eq_dec : EqDecision Register.
Proof. solve_decision. Defined.

Definition x86_registers : list Register :=
  [Rax; Rdx; Rcx; Rbx; Rsi; Rdi; Rbp; Rsp; R8; R9; R10; R11; R12; R13; R14; R15].

Definition from_dwarf_for_arch (reg_num : N) (arch : TargetArchitecture) : option Register :=
  match arch with
  | Aarch64 => if (reg_num <=? 31)%N then Some (Arm64 reg_num) else None
  | X86_64 => if (reg_num <? 16)%N then nth_error x86_registers (N.to_nat reg_num) else None
  end.
Definition from_dwarf (reg_num : N) : option Register := from_dwarf_for_arch reg_num X86_64.

Definition pt_regs_field (r : Register) : string :=
  match r with
  | Rax => "rax" | Rdx => "rdx" | Rcx => "rcx" | Rbx => "rbx"
  | Rsi => "rsi" | Rdi => "rdi" | Rbp => "rbp" | Rsp => "rsp"
  | R8 => "r8" | R9 => "r9" | R10 => "r10" | R11 => "r11"
  | R12 => "r12" | R13 => "r13" | R14 => "r14" | R15 => "r15"
  | Arm64 _ => "regs"
  end.

Definition pt_regs_access (r : Register) : string :=
  match r with
  | Arm64 index => if (index =? 31)%N then "ctx->sp" else "ctx->regs[" ++ show_N index ++ "]"
  | _ => "ctx->" ++ pt_regs_field r
  end.

Definition register_display (r : Register) : string :=
  match r with
  | Arm64 index => if (index =? 31)%N then "%sp" else "%x" ++ show_N index
  | _ => "%" ++ pt_regs_field r
  end.

(** ** Location expressions *)

Inductive LocationSemantics : Type := LValue | LAddress | LDerefAddress.

Inductive LocationAtom : Type :=
| ARegister (r : Register)
| ARegisterOffset (register : Register) (offset : Z)
| AFrameOffset (offset : Z)
| ACfaOffset (offset : Z)
| AAbsolute (address : N)
| AConstant (value : N)
| ADereference (a : LocationAtom)
| AUnavailable (reason : string).

Record LocationPiece : Type := mkLP {
  lpc_atom : option LocationAtom;
  lpc_semantics : LocationSemantics;
  lpc_byte_size : N;
  lpc_value_offset : N
}.

(** The operations the lowering distinguishes. *)
Inductive Operation : Type :=
| OpRegister (reg : N)
| OpRegisterOffset (reg : N) (offset : Z)
| OpFrameOffset (offset : Z)
| OpCallFrameCFA
| OpAddress (address : N)
| OpPlusConstant (value : N)
| OpUnsignedConstant (value : N)
| OpSignedConstant (value : Z)
| OpDeref
| OpStackValue
| OpPiece (size_in_bits : N) (bit_offset : option N)
| OpImplicitValue
| OpNop
| OpOther (debug : string).

Inductive DwarfError : Type := DwarfParse (msg : string).

Section Evaluator.
Context (debug_atom : LocationAtom -> string) (arch : TargetArchitecture).

Definition pending_t : Type := option (LocationAtom * LocationSemantics).

Definition lower_register (reg : N) (k : Register -> LocationAtom) (what : string) : LocationAtom :=
  match from_dwarf_for_arch reg arch with
  | Some r => k r
  | None => AUnavailable ("unsupported DWARF " ++ what ++ " " ++ show_N reg)
  end.

(** [value as i64] *)
Definition as_i64 (value : N) : Z := to_signed 64 value.

Definition plus_constant (value : N) (pending : pending_t) : LocationAtom * LocationSemantics :=
  match pending with
  | Some (ARegister r, s) => (ARegisterOffset r (as_i64 value), s)
  | Some (ARegisterOffset r off, s) => (ARegisterOffset r (i64_saturating_add off (as_i64 value)), s)
  | Some (AFrameOffset off, s) => (AFrameOffset (i64_saturating_add off (as_i64 value)), s)
  | Some (ACfaOffset off, s) => (ACfaOffset (i64_saturating_add off (as_i64 value)), s)
  | Some (AAbsolute a, s) => (AAbsolute (u64_saturating_add a value), s)
  | Some (atom, s) => (AUnavailable ("DW_OP_plus_uconst cannot apply to " ++ debug_atom atom), s)
  | None => (AUnavailable "DW_OP_plus_uconst without a preceding location", LValue)
  end.

Definition stack_value (pending : pending_t) : pending_t :=
  match pending with
  | Some (AFrameOffset _, _) =>
      Some (AUnavailable "DW_OP_stack_value on a frame address is not a memory location", LValue)
  | Some (atom, _) => Some (atom, LValue)
  | None => None
  end.

Definition piece_of (pending : pending_t) (size_in_bits : N) (bit_offset : option N) : LocationPiece :=
  let '(atom, s) := default (AUnavailable "undefined DWARF piece", LValue) pending in
  mkLP (Some atom) s (size_in_bits / 8)%N (default 0%N bit_offset / 8)%N.

(** One operation: the new pending location and the pieces it completes. *)
Definition eval_op (op : Operation) (pending : pending_t) : pending_t * list LocationPiece :=
  match op with
  | OpRegister reg => (Some (lower_register reg ARegister "register", LValue), [])
  | OpRegisterOffset reg offset =>
      (Some (lower_register reg (fun r => ARegisterOffset r offset) "base register", LAddress), [])
  | OpFrameOffset offset => (Some (AFrameOffset offset, LAddress), [])
  | OpCallFrameCFA => (Some (ACfaOffset 0, LAddress), [])
  | OpAddress address => (Some (AAbsolute address, LAddress), [])
  | OpPlusConstant value => (Some (plus_constant value pending), [])
  | OpUnsignedConstant value => (Some (AConstant value, LValue), [])
  | OpSignedConstant value => (Some (AConstant (of_signed 64 value), LValue), [])
  | OpDeref =>
      let '(atom, _) := default (AUnavailable "DW_OP_deref without an address", LAddress) pending in
      (Some (ADereference atom, LDerefAddress), [])
  | OpStackValue => (stack_value pending, [])
  | OpPiece size bit_offset => (None, [piece_of pending size bit_offset])
  | OpImplicitValue => (Some (AUnavailable "implicit value requires profile bytes", LValue), [])
  | OpNop => (pending, [])
  | OpOther debug => (Some (AUnavailable ("unsupported DWARF operation: " ++ debug), LValue), [])
  end.

(** The loop; an error of the iterator aborts it. *)
Fixpoint eval_ops (ops : list (result Operation string)) (pending : pending_t) (pieces : list LocationPiece)
    : result (pending_t * list LocationPiece) DwarfError :=
  match ops with
  | [] => Ok (pending, pieces)
  | Err e :: _ => Err (DwarfParse ("DWARF operation: " ++ e))
  | Ok op :: rest => let '(pending', done_) := eval_op op pending in eval_ops rest pending' (pieces ++ done_)%list
  end.

Definition evaluate_expression (ops : list (result Operation string)) : result (list LocationPiece) DwarfError :=
  let? (pending, pieces) := eval_ops ops None [] in
  let pieces := match pending with
                | Some (atom, s) => (pieces ++ [mkLP (Some atom) s 0 0])%list
                | None => pieces
                end in
  match pieces with
  | [] => Err (DwarfParse "empty DWARF location expression")
  | _ => Ok pieces
  end.
End Evaluator.

(** ** Registers *)

(** The DWARF number a register came from. *)
Definition register_number (r : Register) : N :=
  match r with
  | Rax => 0 | Rdx => 1 | Rcx => 2 | Rbx => 3 | Rsi => 4 | Rdi => 5 | Rbp => 6 | Rsp => 7
  | R8 => 8 | R9 => 9 | R10 => 10 | R11 => 11 | R12 => 12 | R13 => 13 | R14 => 14 | R15 => 15
  | Arm64 i => i
  end%N.
Definition is_arm (r : Register) : bool := match r with Arm64 _ => true | _ => false end.

Lemma show_N_bracket_inj a b : "ctx->regs[" ++ show_N a ++ "]" = "ctx->regs[" ++ show_N b ++ "]" -> a = b.
Proof.
  intros H. apply str_app_inj_l in H. change "]" with (String "]" EmptyString) in H.
  eapply (str_app_inj_until is_ascii_digit "]") in H as [H _]; [by apply show_N_inj|apply show_N_digits..|done].
Qed.

Lemma x86_register_table n r :
  from_dwarf_for_arch n X86_64 = Some r ->
  is_arm r = false /\ register_number r = n /\ pt_regs_access r = "ctx->" ++ pt_regs_field r.
Proof.
  cbn [from_dwarf_for_arch]. destruct (N.ltb_spec n 16) as [Hn|]; [|done].
  rewrite <- (N2Nat.id n) at 2. set (k := N.to_nat n). assert (k < 16)%nat as Hk by lia. clearbody k. clear Hn n.
  do 16 (destruct k as [|k]; [intros [= <-]; done|]). lia.
Qed.

(** The register table is faithful: on either architecture exactly the
    supported DWARF numbers are accepted (0-15, or 0-31), each maps to the
    register of that number, and two different numbers are never read through
    the same [pt_regs] expression. *)
Theorem dwarf_register_table arch n :
  (is_Some (from_dwarf_for_arch n arch) <-> (n < match arch with X86_64 => 16 | Aarch64 => 32 end)%N) /\
  (forall r, from_dwarf_for_arch n arch = Some r -> register_number r = n) /\
  (forall n' r r', from_dwarf_for_arch n arch = Some r -> from_dwarf_for_arch n' arch = Some r' ->
     pt_regs_access r = pt_regs_access r' -> n = n').
Proof.
  destruct arch.
  - split; [|split].
    + cbn. destruct (N.ltb_spec n 16); [|split; [by intros []|lia]].
      split; [done|]. intros _. destruct (nth_error x86_registers (N.to_nat n)) eqn:E; [eauto|].
      apply nth_error_None in E. cbn in E. lia.
    + intros r Hr. by apply x86_register_table in Hr as (_ & ? & _).
    + intros n' r r' Hr Hr' Heq. apply x86_register_table in Hr as (Ha & <- & Hx), Hr' as (Ha' & <- & Hx').
      rewrite Hx, Hx' in Heq. apply str_app_inj_l in Heq. by destruct r, r'.
  - cbn. split; [|split].
    + destruct (N.leb_spec n 31); split; intros Hs; try lia; [by eauto|by destruct Hs].
    + intros r. destruct (n <=? 31)%N; [by intros [= <-]|done].
    + intros n' r r'. destruct (n <=? 31)%N, (n' <=? 31)%N; try done. intros [= <-] [= <-]. cbn [pt_regs_access].
      destruct (N.eqb_spec n 31) as [->|], (N.eqb_spec n' 31) as [->|]; try done. apply show_N_bracket_inj.
Qed.

(** ** Lowering *)

(** The widths of the piece operations of an expression, in order. *)
Fixpoint piece_widths (ops : list (result Operation string)) : list N :=
  match ops with
  | [] => []
  | Ok (OpPiece size _) :: rest => (size / 8)%N :: piece_widths rest
  | _ :: rest => piece_widths rest
  end.

(** Only a piece operation completes a piece. *)
Lemma eval_op_pieces debug arch op pending :
  snd (eval_op debug arch op pending) =
    match op with OpPiece size bit_offset => [piece_of pending size bit_offset] | _ => [] end.
Proof. destruct op; cbn; try done. by destruct (default _ _). Qed.

Lemma piece_of_spec pending size bit_offset :
  exists atom, lpc_atom (piece_of pending size bit_offset) = Some atom /\
    lpc_byte_size (piece_of pending size bit_offset) = (size / 8)%N /\
    lpc_value_offset (piece_of pending size bit_offset) = (default 0 bit_offset / 8)%N.
Proof. unfold piece_of. destruct (default (AUnavailable "undefined DWARF piece", LValue) pending). eauto. Qed.

(** The pieces of a finished loop: those so far, then one per piece operation. *)
Lemma eval_ops_pieces debug arch ops pending pieces p' ps :
  eval_ops debug arch ops pending pieces = Ok (p', ps) ->
  exists more, ps = (pieces ++ more)%list /\ map lpc_byte_size more = piece_widths ops /\
    Forall (fun p => is_Some (lpc_atom p)) more /\
    (Forall (fun r => match r with Ok (OpPiece _ (Some _)) => False | _ => True end) ops ->
     Forall (fun p => lpc_value_offset p = 0%N) more).
Proof.
  revert pending pieces. induction ops as [|[op|e] ops IH]; intros pending pieces H; cbn in H.
  - injection H as <- <-. exists []. rewrite app_nil_r. repeat split; constructor.
  - pose proof (eval_op_pieces debug arch op pending) as Hop.
    destruct (eval_op debug arch op pending) as [pending' done_]. cbn in Hop.
    apply IH in H as (more & -> & Hw & Ha & Hz). exists (done_ ++ more)%list. rewrite app_assoc. split; [done|].
    subst done_. destruct op; cbn;
      try (split; [done|]; split; [done|]; intros Hf; inversion_clear Hf; by apply Hz).
    destruct (piece_of_spec pending size_in_bits bit_offset) as (atom & H1 & H2 & H3). rewrite H2, Hw.
    split; [done|]. split; [constructor; eauto|]. intros Hf. inversion_clear Hf as [|? ? Hb Hf'].
    constructor; [|by apply Hz]. by destruct bit_offset.
  - done.
Qed.

(** Adding the trailing location, if any. *)
Lemma evaluate_expression_inv debug arch ops ps :
  evaluate_expression debug arch ops = Ok ps ->
  exists pending pieces, eval_ops debug arch ops None [] = Ok (pending, pieces) /\ ps <> [] /\
    ps = (pieces ++ match pending with Some (atom, s) => [mkLP (Some atom) s 0 0] | None => [] end)%list.
Proof.
  unfold evaluate_expression. intros H. apply res_bind_ok in H as ([pending pieces] & E & H).
  exists pending, pieces. split; [done|].
  destruct pending as [[atom s]|]; rewrite ?app_nil_r; destruct pieces; cbn in H; try done; by injection H as <-.
Qed.

(** Lowering a location expression drops nothing. Every piece operation
    contributes exactly one piece of its width, in order, whether or not a
    location precedes it (an undefined piece stays as an unavailable one); a
    trailing location adds one piece of unspecified width; and a successful
    lowering is never empty. *)
Theorem evaluate_expression_keeps_pieces debug arch ops ps :
  evaluate_expression debug arch ops = Ok ps ->
  ps <> [] /\ Forall (fun p => is_Some (lpc_atom p)) ps /\
  (map lpc_byte_size ps = piece_widths ops \/ map lpc_byte_size ps = (piece_widths ops ++ [0%N])%list).
Proof.
  intros (pending & pieces & E & Hne & ->)%evaluate_expression_inv.
  apply eval_ops_pieces in E as (more & -> & Hw & Ha & _). cbn [app] in *. split; [done|].
  rewrite Forall_app, map_app, Hw. destruct pending as [[atom s]|]; cbn.
  - split; [split; [done|by repeat constructor]|by right].
  - rewrite app_nil_r. split; [split; [done|constructor]|by left].
Qed.

Lemma evaluate_expression_keeps_pieces_witness :
  exists ps, evaluate_expression (fun _ => EmptyString) X86_64 [Ok (OpRegister 0); Ok (OpPiece 64 None); Ok (OpPiece 32 None)] = Ok ps /\
    map lpc_byte_size ps = [8%N; 4%N].
Proof.
  eexists. split; [reflexivity|].
  destruct (evaluate_expression_keeps_pieces (fun _ => EmptyString) X86_64
    [Ok (OpRegister 0); Ok (OpPiece 64 None); Ok (OpPiece 32 None)] _ eq_refl) as (_ & _ & [H|H]); [exact H|discriminate H].
Defined.

(** Every piece made by [DW_OP_piece], which has no bit offset, gets value
    offset 0, whatever precedes it: the pieces of a value split over several
    locations all claim its first bytes. *)
Theorem plain_pieces_share_offset_zero debug arch ops ps :
  Forall (fun r => match r with Ok (OpPiece _ (Some _)) => False | _ => True end) ops ->
  evaluate_expression debug arch ops = Ok ps -> Forall (fun p => lpc_value_offset p = 0%N) ps.
Proof.
  intros Hops (pending & pieces & E & Hne & ->)%evaluate_expression_inv.
  apply eval_ops_pieces in E as (more & -> & _ & _ & Hz). cbn [app]. apply Forall_app. split; [by apply Hz|].
  destruct pending as [[atom s]|]; by repeat constructor.
Qed.

Lemma plain_pieces_share_offset_zero_witness :
  Forall (fun p => lpc_value_offset p = 0%N)
    (match evaluate_expression (fun _ => EmptyString) X86_64
       [Ok (OpRegister 0); Ok (OpPiece 64 None); Ok (OpRegister 3); Ok (OpPiece 64 None)] with Ok ps => ps | Err _ => [] end).
Proof.
  apply (plain_pieces_share_offset_zero (fun _ => EmptyString) X86_64
    [Ok (OpRegister 0); Ok (OpPiece 64 None); Ok (OpRegister 3); Ok (OpPiece 64 None)]); [repeat constructor|reflexivity].
Defined.
