(* ===== verification/CapturePlan.v ===== *)
(** * Capture plans

    [crates/detrix-ebpf/src/capture_plan.rs]: the language-neutral program of
    reads a probe backend executes, and the admission check that bounds it.

    The [Debug] rendering of an operation, which only the configuration
    fingerprint uses, and SHA-256 are parameters. *)

From Stdlib Require Import Strings.String Strings.Ascii Init.Byte.
From S2P Require Import Prelude RustStr Dwarf.

Local Open Scope string_scope.
Local Arguments String.append !_ _ / : simpl nomatch.

Definition CAPTURE_PLAN_SCHEMA_VERSION : N := 1.
Definition MAX_CAPTURE_FIELDS : N := 64.
Definition MAX_CAPTURE_PAYLOAD_BYTES : N := 4096.
Definition MAX_CAPTURE_OP_BYTES : N := 4096.
Definition MAX_CAPTURE_OP_DEPTH : N := 8.

Inductive ValueSemantics : Type := VValue | VAddress | VDerefAddress.
Inductive HeaderKind : Type := HString | HRustString | HBorrowedStr | HSlice | HRustVec | HBorrowedSlice.

Record CapturePieceOf (Op : Type) : Type := mkPiece { cp_offset : N; cp_size : N; cp_op : option Op }.
Arguments mkPiece {Op} _ _ _.
Arguments cp_offset {Op} _.
Arguments cp_size {Op} _.
Arguments cp_op {Op} _.

Inductive ReadOp : Type :=
| RRegister (register : Register) (semantics : ValueSemantics)
| RStack (offset : Z) (size : N) (semantics : ValueSemantics)
| RFrame (register : Register) (offset : Z) (size : N) (semantics : ValueSemantics)
| RBlob (offset : Z) (size : N) (semantics : ValueSemantics)
| RIndirect (base : ReadOp) (size : N)
| RMap (base : ReadOp)
| RHeader (base : ReadOp) (size : N) (kind : HeaderKind)
| RHeaderExplicit (ptr len : ReadOp) (cap : option ReadOp) (size : N) (kind : HeaderKind)
| RCfa (offset : Z) (size : N) (semantics : ValueSemantics)
| RUserBytes (address_field : N) (size : N)
| RConstant (bytes : list byte)
| RPiece (offset size : N) (op : ReadOp)
| RPiecewise (pieces : list (CapturePieceOf ReadOp))
| RUnavailable (reason : string).

Definition CapturePiece : Type := CapturePieceOf ReadOp.

Record CaptureField : Type := mkField { cf_name : string; cf_offset : N; cf_size : N; cf_op : ReadOp }.

Record CapturePlan : Type := mkPlan {
  plan_schema_version : N;
  plan_architecture : TargetArchitecture;
  plan_profile_id : string;
  plan_hash : string;
  plan_probe_pc : N;
  plan_fields : list CaptureField;
  plan_max_payload_bytes : N
}.

Inductive PlanError : Type :=
| UnsupportedSchema (v : N)
| MissingProfile
| EmptyFields
| InvalidField (msg : string)
| TooManyFields (count limit : N)
| TooLarge
| PayloadLimit (required limit : N)
| MissingPlanHash.

Definition plan_error_text (e : PlanError) : string :=
  match e with
  | UnsupportedSchema v => "unsupported capture plan schema " ++ show_N v
  | MissingProfile => "capture plan has no profile"
  | EmptyFields => "capture plan has no fields"
  | InvalidField msg => "invalid capture field: " ++ msg
  | TooManyFields count limit => "capture plan has " ++ show_N count ++ " fields, limit is " ++ show_N limit
  | TooLarge => "capture plan is too large"
  | PayloadLimit required limit => "payload requires " ++ show_N required ++ " bytes, limit is " ++ show_N limit
  | MissingPlanHash => "capture plan has no deterministic hash"
  end.

(** ** The overlap check shared by fields and pieces *)

(** [ranges.iter().any(|(start, end)| offset < end && start < my_end)] *)
Definition overlapping (r prev : N * N) : bool := ((fst r <? snd prev) && (fst prev <? snd r))%N.

Section Ranges.
Context {A : Type} (pre : A -> result (N * N) PlanError) (overlap : A -> PlanError) (post : A -> result unit PlanError).

(** The loop that collects byte ranges, refusing one that meets an earlier one. *)
Fixpoint check_ranges (ranges : list (N * N)) (l : list A) : result unit PlanError :=
  match l with
  | [] => Ok tt
  | a :: rest =>
      let? r := pre a in
      if existsb (overlapping r) ranges then Err (overlap a)
      else let? _ := post a in check_ranges (ranges ++ [r]) rest
  end.
End Ranges.

(** ** Operations *)

Definition read_size_error (size : N) : PlanError := InvalidField ("read size " ++ show_N size ++ " exceeds limit").
Definition check_read_size (size : N) : result unit PlanError :=
  if ((size =? 0) || (MAX_CAPTURE_OP_BYTES <? size))%N then Err (read_size_error size) else Ok tt.

Definition piece_range (field_size : N) (p : CapturePiece) : result (N * N) PlanError :=
  match usize_add (cp_offset p) (cp_size p) with
  | None => Err (InvalidField "invalid piecewise bounds")
  | Some end_ =>
      if (cp_size p =? 0)%N then Err (InvalidField "invalid piecewise bounds")
      else if (field_size <? end_)%N then Err (InvalidField "piecewise piece extends beyond field payload")
      else Ok (cp_offset p, end_)
  end.

Fixpoint validate_op (op : ReadOp) (field_count depth field_size : N) : result unit PlanError :=
  if (MAX_CAPTURE_OP_DEPTH <? depth)%N then Err (InvalidField "read operation nesting exceeds limit")
  else match op with
  | RStack _ size _ | RFrame _ _ size _ | RBlob _ size _ | RCfa _ size _ => check_read_size size
  | RIndirect base size =>
      let? _ := check_read_size size in validate_op base field_count (depth + 1) field_size
  | RConstant bytes =>
      if ((lenN bytes =? 0) || (MAX_CAPTURE_OP_BYTES <? lenN bytes))%N
      then Err (InvalidField "invalid constant size") else Ok tt
  | RUserBytes address_field size =>
      let? _ := check_read_size size in
      if (field_count <=? address_field)%N then Err (InvalidField "user-byte address field out of range") else Ok tt
  | RPiece offset size op =>
      if (size =? 0)%N then Err (InvalidField "invalid piece bounds") else
      match usize_add offset size with
      | None => Err (InvalidField "invalid piece bounds")
      | Some end_ =>
          if (field_size <? end_)%N then Err (InvalidField "piece extends beyond field payload")
          else validate_op op field_count (depth + 1) size
      end
  | RPiecewise pieces =>
      match pieces with
      | [] => Err (InvalidField "piecewise operation has no pieces")
      | _ =>
          check_ranges (piece_range field_size) (fun _ => InvalidField "piecewise pieces overlap another piece")
            (fun p => match cp_op p with
                      | Some op => validate_op op field_count (depth + 1) (cp_size p)
                      | None => Ok tt
                      end) [] pieces
      end
  | RHeader base size _ =>
      let? _ := check_read_size size in validate_op base field_count (depth + 1) size
  | RHeaderExplicit ptr len cap size _ =>
      let? _ := check_read_size size in
      let? _ := validate_op ptr field_count (depth + 1) 8 in
      let? _ := validate_op len field_count (depth + 1) 8 in
      match cap with
      | Some cap => validate_op cap field_count (depth + 1) 8
      | None => Ok tt
      end
  | RMap base => validate_op base field_count (depth + 1) field_size
  | RRegister _ _ | RUnavailable _ => Ok tt
  end.

(** ** Plans *)

Definition field_range (f : CaptureField) : result (N * N) PlanError :=
  if str_is_empty (trim (cf_name f)) then Err (InvalidField "empty field name")
  else if (cf_size f =? 0)%N then Err (InvalidField (cf_name f ++ " has zero size"))
  else let? end_ := ok_or (usize_add (cf_offset f) (cf_size f)) TooLarge in Ok (cf_offset f, end_).

(** The running maximum of the field ends. *)
Definition fields_end (fields : list CaptureField) : N :=
  fold_left (fun e f => N.max e (cf_offset f + cf_size f)) fields 0%N.

Definition plan_validate (p : CapturePlan) : result unit PlanError :=
  if negb (plan_schema_version p =? CAPTURE_PLAN_SCHEMA_VERSION)%N then Err (UnsupportedSchema (plan_schema_version p))
  else if str_is_empty (trim (plan_profile_id p)) then Err MissingProfile
  else if (lenN (plan_fields p) =? 0)%N then Err EmptyFields
  else if (MAX_CAPTURE_FIELDS <? lenN (plan_fields p))%N then Err (TooManyFields (lenN (plan_fields p)) MAX_CAPTURE_FIELDS)
  else if ((plan_max_payload_bytes p =? 0) || (MAX_CAPTURE_PAYLOAD_BYTES <? plan_max_payload_bytes p))%N
  then Err (PayloadLimit (plan_max_payload_bytes p) MAX_CAPTURE_PAYLOAD_BYTES)
  else
    let? _ := check_ranges field_range (fun f => InvalidField (cf_name f ++ " overlaps another field"))
                (fun f => validate_op (cf_op f) (lenN (plan_fields p)) 0 (cf_size f)) [] (plan_fields p) in
    if (plan_max_payload_bytes p <? fields_end (plan_fields p))%N
    then Err (PayloadLimit (fields_end (plan_fields p)) (plan_max_payload_bytes p))
    else if str_is_empty (trim (plan_hash p)) then Err MissingPlanHash
    else Ok tt.

Section Fingerprint.
Context (debug_op : ReadOp -> string) (sha256 : list byte -> list byte).

Definition debug_arch (a : TargetArchitecture) : string := match a with X86_64 => "X86_64" | Aarch64 => "Aarch64" end.

(** Everything streamed into the hasher, in order. *)
Definition fingerprint_preimage (p : CapturePlan) : list byte :=
  (to_le 2 (plan_schema_version p) ++ as_bytes (debug_arch (plan_architecture p))
   ++ as_bytes (plan_profile_id p) ++ as_bytes (plan_hash p)
   ++ to_le 8 (plan_probe_pc p) ++ to_le 8 (plan_max_payload_bytes p)
   ++ concat (map (fun f => as_bytes (cf_name f) ++ to_le 8 (cf_offset f) ++ to_le 8 (cf_size f)
                              ++ as_bytes (debug_op (cf_op f))) (plan_fields p)))%list.

Definition configuration_fingerprint (p : CapturePlan) : result string PlanError :=
  let? _ := plan_validate p in
  Ok ("sha256:" ++ hex_lower (sha256 (fingerprint_preimage p))).
End Fingerprint.

(** ** Specification *)

Definition disjoint_range (a b : N * N) : Prop := (snd a <= fst b \/ snd b <= fst a)%N.

Definition bounded_read (size : N) : Prop := (0 < size <= MAX_CAPTURE_OP_BYTES)%N.

Definition opt_all {A : Type} (P : A -> Prop) (o : option A) : Prop := match o with Some a => P a | None => True end.

(** How deeply operations nest. *)
Fixpoint op_depth (op : ReadOp) : N :=
  match op with
  | RIndirect base _ | RMap base | RHeader base _ _ => 1 + op_depth base
  | RPiece _ _ op => 1 + op_depth op
  | RHeaderExplicit ptr len cap _ _ =>
      1 + N.max (op_depth ptr) (N.max (op_depth len) (match cap with Some c => op_depth c | None => 0 end))
  | RPiecewise pieces =>
      fold_right (fun p d => N.max (match cp_op p with Some o => 1 + op_depth o | None => 0 end) d) 0 pieces
  | _ => 0
  end%N.

Definition piece_in (size : N) (p : CapturePiece) : Prop :=
  (0 < cp_size p /\ cp_offset p + cp_size p <= size /\ cp_offset p + cp_size p < 2 ^ 64)%N.
Definition piece_span (p : CapturePiece) : N * N := (cp_offset p, (cp_offset p + cp_size p)%N).

(** Every read is bounded, every piece lies inside what it is a piece of, the
    pieces of one value do not overlap, every address field exists. *)
Fixpoint wf_op (field_count size : N) (op : ReadOp) : Prop :=
  match op with
  | RStack _ n _ | RFrame _ _ n _ | RBlob _ n _ | RCfa _ n _ => bounded_read n
  | RIndirect base n => bounded_read n /\ wf_op field_count size base
  | RConstant bytes => bounded_read (lenN bytes)
  | RUserBytes field n => bounded_read n /\ (field < field_count)%N
  | RPiece off n op => piece_in size (mkPiece off n None) /\ wf_op field_count n op
  | RPiecewise pieces =>
      pieces <> [] /\ Forall (piece_in size) pieces /\ ForallOrdPairs disjoint_range (map piece_span pieces) /\
      fold_right (fun p P => match cp_op p with Some o => wf_op field_count (cp_size p) o | None => True end /\ P) True pieces
  | RHeader base n _ => bounded_read n /\ wf_op field_count n base
  | RHeaderExplicit ptr len cap n _ =>
      bounded_read n /\ wf_op field_count 8 ptr /\ wf_op field_count 8 len /\
      match cap with Some c => wf_op field_count 8 c | None => True end
  | RMap base => wf_op field_count size base
  | RRegister _ _ | RUnavailable _ => True
  end.

Definition field_span (f : CaptureField) : N * N := (cf_offset f, (cf_offset f + cf_size f)%N).

Record plan_wf (p : CapturePlan) : Prop := {
  pw_schema : plan_schema_version p = CAPTURE_PLAN_SCHEMA_VERSION;
  pw_profile : trim (plan_profile_id p) <> EmptyString;
  pw_hash : trim (plan_hash p) <> EmptyString;
  pw_count : (0 < lenN (plan_fields p) <= MAX_CAPTURE_FIELDS)%N;
  pw_payload : (0 < plan_max_payload_bytes p <= MAX_CAPTURE_PAYLOAD_BYTES)%N;
  pw_names : Forall (fun f => trim (cf_name f) <> EmptyString) (plan_fields p);
  pw_bounds : Forall (fun f => 0 < cf_size f /\ cf_offset f + cf_size f <= plan_max_payload_bytes p)%N (plan_fields p);
  pw_disjoint : ForallOrdPairs disjoint_range (map field_span (plan_fields p));
  pw_depth : Forall (fun f => op_depth (cf_op f) <= MAX_CAPTURE_OP_DEPTH)%N (plan_fields p);
  pw_ops : Forall (fun f => wf_op (lenN (plan_fields p)) (cf_size f) (cf_op f)) (plan_fields p)
}.

(** ** Range lemmas *)

Lemma overlapping_false r prev : overlapping r prev = false <-> disjoint_range prev r.
Proof. unfold overlapping, disjoint_range. rewrite andb_false_iff, !N.ltb_ge. lia. Qed.

Lemma no_overlap r ranges : existsb (overlapping r) ranges = false <-> Forall (fun p => disjoint_range p r) ranges.
Proof.
  induction ranges as [|q ranges IH]; cbn; [split; [constructor|done]|].
  rewrite orb_false_iff, overlapping_false, IH. split; [intros []; by constructor|intros H; by inversion H].
Qed.

Lemma check_ranges_ok {A : Type} (pre : A -> result (N * N) PlanError) ov post (span : A -> N * N) (good : A -> Prop) ranges l :
  (forall a r, pre a = Ok r <-> good a /\ r = span a) ->
  check_ranges pre ov post ranges l = Ok tt <->
  Forall good l /\ Forall (fun a => post a = Ok tt) l /\ ForallOrdPairs disjoint_range (map span l) /\
  Forall (fun a => Forall (fun p => disjoint_range p (span a)) ranges) l.
Proof.
  intros Hpre. revert ranges. induction l as [|a l IH]; intros ranges; cbn [check_ranges map].
  - split; [intros _; repeat split; constructor|done].
  - rewrite res_bind_ok. split.
    + intros (r & Hr & H). apply Hpre in Hr as [Hg ->].
      destruct (existsb (overlapping (span a)) ranges) eqn:E; [done|]. apply no_overlap in E.
      apply res_bind_ok in H as ([] & Hpost & H). apply IH in H as (H1 & H2 & H3 & H4).
      repeat split; try (constructor; done).
      * constructor; [|done]. apply List.Forall_forall. intros s Hs. apply in_map_iff in Hs as (b & <- & Hb).
        rewrite List.Forall_forall in H4. specialize (H4 b Hb). apply Forall_app in H4 as [_ H4]. by inversion H4.
      * constructor; [done|]. eapply Forall_impl; [|exact H4]. cbn. intros b Hb. by apply Forall_app in Hb as [Hb _].
    + intros (Hg & Hpost & Hd & Hr). inversion_clear Hg as [|? ? Hga Hgl]. inversion_clear Hpost as [|? ? Hpa Hpl].
      inversion_clear Hd as [|? ? Hda Hdl]. inversion_clear Hr as [|? ? Hra Hrl].
      exists (span a). split; [by apply Hpre|].
      rewrite (proj2 (no_overlap _ _) Hra), Hpa. cbn [res_bind]. apply IH. repeat split; try done.
      rewrite List.Forall_forall in *. intros b Hb. apply Forall_app. split; [by apply Hrl|]. constructor; [|constructor].
      apply Hda. by apply in_map.
Qed.

Lemma check_read_size_ok n : check_read_size n = Ok tt <-> bounded_read n.
Proof.
  unfold check_read_size, bounded_read. destruct (N.eqb_spec n 0), (N.ltb_spec MAX_CAPTURE_OP_BYTES n); cbn; split;
    intros; try done; try discriminate; unfold MAX_CAPTURE_OP_BYTES in *; lia.
Qed.

Lemma piece_range_ok fs p r : piece_range fs p = Ok r <-> piece_in fs p /\ r = piece_span p.
Proof.
  unfold piece_range, piece_in, piece_span. destruct (usize_add _ _) as [e|] eqn:E.
  - apply checked_add_some in E as [-> Hlt]. unfold usize_bits in Hlt.
    destruct (N.eqb_spec (cp_size p) 0); [split; [done|lia]|].
    destruct (N.ltb_spec fs (cp_offset p + cp_size p)); [split; [done|lia]|].
    split; [intros [= <-]; split; [lia|done]|by intros [_ ->]].
  - split; [done|]. intros [(_ & _ & Hlt) _].
    assert (usize_add (cp_offset p) (cp_size p) = Some (cp_offset p + cp_size p)%N) by (apply checked_add_some; done). congruence.
Qed.

Lemma field_range_ok f r :
  field_range f = Ok r <->
  (trim (cf_name f) <> EmptyString /\ 0 < cf_size f /\ cf_offset f + cf_size f < 2 ^ 64)%N /\ r = field_span f.
Proof.
  unfold field_range. destruct (str_is_empty _) eqn:En.
  { apply str_is_empty_true in En. split; [done|]. by intros [[? _] _]. }
  assert (trim (cf_name f) <> EmptyString) as Hn by (intros H; rewrite H in En; done).
  destruct (N.eqb_spec (cf_size f) 0); [split; [done|lia]|].
  rewrite res_bind_ok. setoid_rewrite ok_or_ok. setoid_rewrite checked_add_some. unfold usize_bits, field_span. split.
  - intros (e & [-> Hlt] & [= <-]). repeat split; (done || lia).
  - intros [(_ & _ & Hlt) ->]. eauto.
Qed.

(** ** Operations: the check decides the specification *)

(** Induction over operations, through pieces and optional capacities. *)
Section ReadOpInd.
Context (P : ReadOp -> Prop).
Context (Hleaf : forall op, op_depth op = 0%N -> (forall ps, op <> RPiecewise ps) -> P op).
Context (Hindirect : forall b n, P b -> P (RIndirect b n)) (Hmap : forall b, P b -> P (RMap b)).
Context (Hheader : forall b n k, P b -> P (RHeader b n k)).
Context (Hexplicit : forall p l c n k, P p -> P l -> opt_all P c -> P (RHeaderExplicit p l c n k)).
Context (Hpiece : forall o n op, P op -> P (RPiece o n op)).
Context (Hpieces : forall ps, Forall (fun p => opt_all P (cp_op p)) ps -> P (RPiecewise ps)).

Fixpoint ReadOp_nested_ind (op : ReadOp) : P op.
Proof.
  destruct op as [| | | |b n|b|b n k|p l c n k| | | |o n op|ps|]; try (apply Hleaf; [reflexivity|discriminate]).
  - apply Hindirect, ReadOp_nested_ind.
  - apply Hmap, ReadOp_nested_ind.
  - apply Hheader, ReadOp_nested_ind.
  - apply Hexplicit; [apply ReadOp_nested_ind..|]. destruct c; cbn; [apply ReadOp_nested_ind|exact I].
  - apply Hpiece, ReadOp_nested_ind.
  - apply Hpieces. induction ps as [|[o n c] ps IHps]; constructor; [|exact IHps].
    destruct c; cbn; [apply ReadOp_nested_ind|exact I].
Qed.
End ReadOpInd.

Lemma fold_right_and {A : Type} (Q : A -> Prop) l : fold_right (fun a P => Q a /\ P) True l <-> Forall Q l.
Proof.
  induction l as [|a l IH]; cbn; [split; [constructor|done]|]. rewrite IH.
  split; [intros []; by constructor|intros H; by inversion H].
Qed.

Lemma fold_right_max_le {A : Type} (f : A -> N) l b :
  (fold_right (fun a d => N.max (f a) d) 0 l <= b <-> Forall (fun a => f a <= b) l)%N.
Proof.
  induction l as [|a l IH]; cbn; [split; [constructor|lia]|]. rewrite N.max_lub_iff, IH.
  split; [intros []; by constructor|intros H; by inversion H].
Qed.

Lemma validate_op_depth op fc d fs : validate_op op fc d fs = Ok tt -> (d <= MAX_CAPTURE_OP_DEPTH)%N.
Proof.
  destruct (N.ltb_spec MAX_CAPTURE_OP_DEPTH d) as [Hd|]; [|done]. apply N.ltb_lt in Hd.
  destruct op; cbn [validate_op]; by rewrite Hd.
Qed.

Lemma then_read_size (n : N) (r : result unit PlanError) :
  (let? _ := check_read_size n in r) = Ok tt <-> bounded_read n /\ r = Ok tt.
Proof. rewrite res_bind_ok, <- check_read_size_ok. split; [by intros ([] & ? & ?)|intros []; eauto]. Qed.

Lemma then_ok (r s : result unit PlanError) : (let? _ := r in s) = Ok tt <-> r = Ok tt /\ s = Ok tt.
Proof. rewrite res_bind_ok. split; [by intros ([] & ? & ?)|intros []; eauto]. Qed.

Definition validates (op : ReadOp) : Prop := forall fc d fs,
  validate_op op fc d fs = Ok tt <-> (d + op_depth op <= MAX_CAPTURE_OP_DEPTH)%N /\ wf_op fc fs op.

(** Enough to show it for an operation that is not too deep already. *)
Lemma validates_intro op :
  (forall fc d fs, (d <=? MAX_CAPTURE_OP_DEPTH)%N = true -> (MAX_CAPTURE_OP_DEPTH <? d)%N = false ->
     validate_op op fc d fs = Ok tt <-> (d + op_depth op <= MAX_CAPTURE_OP_DEPTH)%N /\ wf_op fc fs op) -> validates op.
Proof.
  intros H fc d fs. destruct (N.leb_spec d MAX_CAPTURE_OP_DEPTH) as [Hd|Hd].
  - apply H; [by apply N.leb_le|by apply N.ltb_ge].
  - split; [|lia]. intros Hv. apply validate_op_depth in Hv. lia.
Qed.

Lemma validates_leaf op : op_depth op = 0%N -> (forall ps, op <> RPiecewise ps) -> validates op.
Proof.
  intros H0 Hnp. apply validates_intro. intros fc d fs Hle Hd. rewrite H0, N.add_0_r, <- N.leb_le, Hle.
  destruct op; try (by destruct (Hnp pieces)); cbn in H0; try lia; cbn [validate_op wf_op]; rewrite Hd, ?check_read_size_ok;
    try naive_solver.
  - rewrite then_read_size. destruct (N.leb_spec fc address_field); split; intros; destruct_and?; try done; lia.
  - pose proof (check_read_size_ok (lenN bytes)) as Hs. unfold check_read_size in Hs. destruct (_ || _); naive_solver.
Qed.

Lemma validates_indirect b n : validates b -> validates (RIndirect b n).
Proof.
  intros IH. apply validates_intro. intros fc d fs Hle Hd. cbn [validate_op op_depth wf_op].
  rewrite Hd, then_read_size, (IH _ _ _), N.add_assoc. naive_solver.
Qed.

Lemma validates_map b : validates b -> validates (RMap b).
Proof.
  intros IH. apply validates_intro. intros fc d fs Hle Hd. cbn [validate_op op_depth wf_op].
  by rewrite Hd, (IH _ _ _), N.add_assoc.
Qed.

Lemma validates_header b n k : validates b -> validates (RHeader b n k).
Proof.
  intros IH. apply validates_intro. intros fc d fs Hle Hd. cbn [validate_op op_depth wf_op].
  rewrite Hd, then_read_size, (IH _ _ _), N.add_assoc. naive_solver.
Qed.

Lemma validates_explicit p l c n k : validates p -> validates l -> opt_all validates c -> validates (RHeaderExplicit p l c n k).
Proof.
  intros IHp IHl IHc. apply validates_intro. intros fc d fs Hle Hd. cbn [validate_op op_depth wf_op].
  rewrite Hd, then_read_size, !then_ok, (IHp _ _ _), (IHl _ _ _).
  replace (match c with Some c0 => validate_op c0 fc (d + 1) 8 | None => Ok tt end = Ok tt)
    with (match c with Some c0 => validate_op c0 fc (d + 1) 8 = Ok tt | None => Ok tt = (Ok tt : result unit PlanError) end) by by destruct c.
  destruct c as [c|]; [rewrite (IHc fc _ _)|]; intuition lia.
Qed.

Lemma validates_piece o n op : validates op -> validates (RPiece o n op).
Proof.
  intros IH. apply validates_intro. intros fc d fs Hle Hd. cbn [validate_op op_depth wf_op]. rewrite Hd.
  unfold piece_in. cbn [cp_size cp_offset].
  destruct (N.eqb_spec n 0); [split; [done|lia]|].
  destruct (usize_add o n) as [e|] eqn:E.
  - apply checked_add_some in E as [-> Hlt]. unfold usize_bits in Hlt.
    destruct (N.ltb_spec fs (o + n)); [split; [done|lia]|]. rewrite (IH _ _ _), N.add_assoc. intuition lia.
  - split; [done|]. intros (_ & (_ & _ & Hlt) & _).
    assert (usize_add o n = Some (o + n)%N) by (apply checked_add_some; done). congruence.
Qed.

Lemma validates_pieces ps : Forall (fun p => opt_all validates (cp_op p)) ps -> validates (RPiecewise ps).
Proof.
  intros IH. apply validates_intro. intros fc d fs Hle Hd. cbn [validate_op op_depth wf_op]. rewrite Hd.
  apply N.leb_le in Hle.
  assert (forall X, match ps with [] => Err (InvalidField "piecewise operation has no pieces") | _ => X end = Ok tt
            <-> ps <> [] /\ X = Ok tt) as -> by (intros X; destruct ps; naive_solver).
  rewrite (check_ranges_ok _ _ _ piece_span (piece_in fs)) by apply piece_range_ok.
  rewrite (fold_right_and (fun p => match cp_op p with Some o => wf_op fc (cp_size p) o | None => True end)).
  assert (Forall (fun p : CapturePiece => match cp_op p with Some op => validate_op op fc (d + 1) (cp_size p) | None => Ok tt end = Ok tt) ps
    <-> (d + fold_right (fun p d0 => N.max match cp_op p with Some o => 1 + op_depth o | None => 0 end d0) 0 ps <= MAX_CAPTURE_OP_DEPTH)%N /\
        Forall (fun p => match cp_op p with Some o => wf_op fc (cp_size p) o | None => True end) ps) as ->.
  { clear Hd. induction IH as [|[o n c] ps Hp Hps IHps]; cbn [fold_right cp_op cp_size].
    - split; [intros _; split; [lia|constructor]|constructor].
    - rewrite !List.Forall_cons_iff, IHps. rewrite <- N.add_max_distr_l, N.max_lub_iff.
      destruct c as [c|]; cbn [opt_all cp_op cp_size] in *; [rewrite (Hp fc _ _), N.add_assoc; tauto|]. intuition lia. }
  split; intros; destruct_and?; repeat split; try done. apply List.Forall_forall. intros. constructor.
Qed.

Lemma validate_op_ok op : validates op.
Proof.
  induction op using ReadOp_nested_ind;
    auto using validates_leaf, validates_indirect, validates_map, validates_header, validates_explicit, validates_piece, validates_pieces.
Qed.

(** ** Plans *)

Lemma fold_max_le fields acc b :
  (fold_left (fun e f => N.max e (cf_offset f + cf_size f)) fields acc <= b <->
   acc <= b /\ Forall (fun f => cf_offset f + cf_size f <= b) fields)%N.
Proof.
  revert acc. induction fields as [|f fields IH]; intros acc; cbn [fold_left].
  - split; [intros; split; [done|constructor]|by intros []].
  - rewrite IH, List.Forall_cons_iff, N.max_lub_iff. tauto.
Qed.

Lemma trim_nonempty s : str_is_empty (trim s) = false <-> trim s <> EmptyString.
Proof. destruct (trim s); cbn; naive_solver. Qed.

Lemma plan_validate_ok p : plan_validate p = Ok tt <-> plan_wf p.
Proof.
  unfold plan_validate.
  destruct (N.eqb_spec (plan_schema_version p) CAPTURE_PLAN_SCHEMA_VERSION) as [Hs|Hs]; cbn [negb]; [|split; [done|by intros []]].
  destruct (str_is_empty (trim (plan_profile_id p))) eqn:Hp.
  { apply str_is_empty_true in Hp. split; [done|]. by intros []. }
  apply trim_nonempty in Hp.
  destruct (N.eqb_spec (lenN (plan_fields p)) 0) as [H0|H0]; [split; [done|intros []; lia]|].
  destruct (N.ltb_spec MAX_CAPTURE_FIELDS (lenN (plan_fields p))) as [Hm|Hm]; [split; [done|intros []; lia]|].
  destruct (N.eqb_spec (plan_max_payload_bytes p) 0) as [Hz|Hz]; cbn [orb]; [split; [done|intros []; lia]|].
  destruct (N.ltb_spec MAX_CAPTURE_PAYLOAD_BYTES (plan_max_payload_bytes p)) as [Hl|Hl]; [split; [done|intros []; lia]|].
  rewrite then_ok, (check_ranges_ok _ _ _ field_span _ _ _ field_range_ok).
  destruct (N.ltb_spec (plan_max_payload_bytes p) (fields_end (plan_fields p))) as [He|He].
  { split; [by intros [_ ?]|]. intros [_ _ _ _ _ _ Hb _ _ _]. exfalso.
    enough (fields_end (plan_fields p) <= plan_max_payload_bytes p)%N by lia.
    apply fold_max_le. split; [lia|]. eapply Forall_impl; [|exact Hb]. cbn. tauto. }
  apply fold_max_le in He as [_ He].
  destruct (str_is_empty (trim (plan_hash p))) eqn:Hh.
  { apply str_is_empty_true in Hh. split; [by intros [_ ?]|]. by intros []. }
  apply trim_nonempty in Hh. split.
  - intros [(Hf & Hv & Hd & _) _]. rewrite List.Forall_forall in *. constructor; try done; try lia;
      apply List.Forall_forall; intros f Hin; specialize (Hf f Hin); specialize (Hv f Hin); specialize (He f Hin);
      apply validate_op_ok in Hv; naive_solver lia.
  - intros [_ _ _ _ _ Hn Hb Hd Hdep Hw]. rewrite !List.Forall_forall in Hn, Hb, Hdep, Hw. split; [|done]. split; [|split; [|split; [done|]]].
    + apply List.Forall_forall. intros f Hin. specialize (Hb f Hin). specialize (Hn f Hin).
      unfold MAX_CAPTURE_PAYLOAD_BYTES in Hl. repeat split; [done|lia|lia].
    + apply List.Forall_forall. intros f Hin. apply validate_op_ok. specialize (Hdep f Hin). specialize (Hw f Hin). split; [lia|done].
    + apply List.Forall_forall. intros. constructor.
Qed.

(** Admission decides well-formedness. A capture plan is accepted exactly
    when its schema is the supported one, it names its profile and hash, has 1
    to 64 named non-empty fields that lie inside a payload of at most 4096
    bytes and do not overlap, and every operation of every field is bounded:
    no read over 4096 bytes, nesting at most 8, pieces inside their value and
    disjoint, address fields in range. *)
Theorem plan_admission p : plan_validate p = Ok tt <-> plan_wf p.
Proof. apply plan_validate_ok. Qed.

(** Two different accepted plans can share a configuration fingerprint, for
    any hash and any rendering of operations: the identities are concatenated
    without lengths, so moving a character from the profile to the hash goes
    unnoticed. *)
Theorem fingerprint_ignores_field_boundaries debug_op sha256 :
  exists p q, p <> q /\ plan_profile_id p <> plan_profile_id q /\ plan_validate p = Ok tt /\ plan_validate q = Ok tt /\
    configuration_fingerprint debug_op sha256 p = configuration_fingerprint debug_op sha256 q.
Proof.
  exists (mkPlan 1 X86_64 "go" "xh" 0 [mkField "f" 0 8 (RRegister Rax VValue)] 8),
         (mkPlan 1 X86_64 "gox" "h" 0 [mkField "f" 0 8 (RRegister Rax VValue)] 8).
  split; [done|]. split; [done|]. split; [reflexivity|]. split; [reflexivity|]. reflexivity.
Qed.
