(* ===== verification/Wire.v ===== *)
(** * The eBPF event envelope

    [crates/detrix-ebpf/src/wire.rs]: the versioned [DRX1] record that carries
    captured bytes from a probe to user space. *)

From Stdlib Require Import Strings.String Strings.Ascii Init.Byte.
From S2P Require Import Prelude RustStr CapturePlan.

Local Open Scope string_scope.
Local Arguments String.append !_ _ / : simpl nomatch.

Definition MAX_IDENTITY_BYTES : N := 1024.

Inductive EnvelopeError : Type :=
| UnknownSchema (v : N)
| MissingIdentity
| Oversized (size limit : N)
| LengthMismatch (declared actual : N)
| MalformedHeader
| InvalidIdentity
| UnknownProfile (p : string)
| IdentityTooLong
| InvalidFieldCount (count limit : N)
| UnknownFlags (flags : N).

Record WireCapabilities : Type := mkCaps {
  supported_schema_versions : list N;
  supported_profiles : list string;
  caps_max_payload_bytes : N
}.

Definition default_capabilities : WireCapabilities := mkCaps [CAPTURE_PLAN_SCHEMA_VERSION] ["go"; "rust"] 4096.

Definition negotiate (c : WireCapabilities) (schema_version : N) (profile_id : string) (max_payload_bytes : N)
    : result unit EnvelopeError :=
  if negb (existsb (N.eqb schema_version) (supported_schema_versions c)) then Err (UnknownSchema schema_version)
  else if negb (existsb (fun p => String.eqb p profile_id) (supported_profiles c)) then Err (UnknownProfile profile_id)
  else if (caps_max_payload_bytes c <? max_payload_bytes)%N then Err (Oversized max_payload_bytes (caps_max_payload_bytes c))
  else Ok tt.

Record EventEnvelope : Type := mkEnv {
  env_schema_version : N;
  env_profile_id : string;
  env_plan_hash : string;
  env_field_count : N;
  env_payload_len : N;
  env_partial : bool;
  env_unavailable : bool
}.

(** The ranges the Rust field types give: [u16], [u16], [u32], UTF-8. *)
Definition envelope_typed (e : EventEnvelope) : Prop :=
  (env_schema_version e < 2 ^ 16)%N /\ (env_field_count e < 2 ^ 16)%N /\ (env_payload_len e < 2 ^ 32)%N /\
  str_wf (env_profile_id e) = true /\ str_wf (env_plan_hash e) = true.

Definition envelope_new (profile_id plan_hash : string) (field_count payload_len : N) : EventEnvelope :=
  mkEnv CAPTURE_PLAN_SCHEMA_VERSION profile_id plan_hash field_count (wrap 32 payload_len) false false.

Definition validate_with_capabilities (e : EventEnvelope) (c : WireCapabilities) : result unit EnvelopeError :=
  if negb (env_schema_version e =? CAPTURE_PLAN_SCHEMA_VERSION)%N then Err (UnknownSchema (env_schema_version e))
  else if str_is_empty (env_profile_id e) || str_is_empty (env_plan_hash e) then Err MissingIdentity
  else if ((MAX_IDENTITY_BYTES <? str_len (env_profile_id e)) || (MAX_IDENTITY_BYTES <? str_len (env_plan_hash e)))%N
  then Err IdentityTooLong
  else if ((env_field_count e =? 0) || (MAX_CAPTURE_FIELDS <? env_field_count e))%N
  then Err (InvalidFieldCount (env_field_count e) MAX_CAPTURE_FIELDS)
  else if (MAX_CAPTURE_PAYLOAD_BYTES <? env_payload_len e)%N
  then Err (Oversized (env_payload_len e) MAX_CAPTURE_PAYLOAD_BYTES)
  else negotiate c (env_schema_version e) (env_profile_id e) (env_payload_len e).

Definition envelope_validate (e : EventEnvelope) (max_payload : N) : result unit EnvelopeError :=
  validate_with_capabilities e
    (mkCaps (supported_schema_versions default_capabilities) (supported_profiles default_capabilities) max_payload).

Definition magic : list byte := as_bytes "DRX1".
Definition env_flags (e : EventEnvelope) : N :=
  N.lor (if env_partial e then 1 else 0) (if env_unavailable e then 2 else 0).

Definition encode_header (e : EventEnvelope) : list byte :=
  (magic ++ to_le 2 (env_schema_version e) ++ to_le 2 (env_flags e)
   ++ to_le 2 (wrap 16 (str_len (env_profile_id e))) ++ to_le 2 (env_field_count e)
   ++ to_le 2 (wrap 16 (str_len (env_plan_hash e))) ++ to_le 4 (env_payload_len e))%list.

Definition encode_record (e : EventEnvelope) (payload : list byte) (max_payload : N) : result (list byte) EnvelopeError :=
  if negb (env_payload_len e =? lenN payload)%N then Err (LengthMismatch (env_payload_len e) (lenN payload))
  else
    let? _ := envelope_validate e max_payload in
    let profile := as_bytes (env_profile_id e) in
    let plan := as_bytes (env_plan_hash e) in
    if ((MAX_IDENTITY_BYTES <? lenN profile) || (MAX_IDENTITY_BYTES <? lenN plan))%N then Err IdentityTooLong
    else Ok (encode_header e ++ profile ++ plan ++ payload)%list.

Definition HEADER : N := 18.

(** [record.get(a..b).map(uN::from_le_bytes)] *)
Definition get_le (record : list byte) (off len : N) : result N EnvelopeError :=
  if (off + len <=? lenN record)%N then Ok (of_le (slice record off len)) else Err MalformedHeader.

Definition utf8_or {E : Type} (bytes : list byte) (e : E) : result string E := ok_or (from_utf8 bytes) e.

Definition decode_record (record : list byte) (max_payload : N) : result (EventEnvelope * list byte) EnvelopeError :=
  if ((lenN record <? HEADER)%N || negb (bool_decide (slice record 0 4 = magic))) then Err MalformedHeader else
  let? schema_version := get_le record 4 2 in
  let? flags := get_le record 6 2 in
  if negb (N.land flags (N.lxor 3 65535) =? 0)%N then Err (UnknownFlags flags) else
  let? profile_len := get_le record 8 2 in
  let? field_count := get_le record 10 2 in
  let? plan_len := get_le record 12 2 in
  let? payload_len := get_le record 14 4 in
  if ((profile_len =? 0) || (plan_len =? 0))%N then Err MissingIdentity
  else if ((MAX_IDENTITY_BYTES <? profile_len) || (MAX_IDENTITY_BYTES <? plan_len))%N then Err IdentityTooLong else
  let? identity_end := ok_or (n ← usize_add HEADER profile_len; usize_add n plan_len) MalformedHeader in
  let? end_ := ok_or (usize_add identity_end payload_len) MalformedHeader in
  if negb (end_ =? lenN record)%N then Err (LengthMismatch end_ (lenN record)) else
  let? profile_id := utf8_or (slice record HEADER profile_len) InvalidIdentity in
  let plan_start := (HEADER + profile_len)%N in
  let? plan_hash := utf8_or (slice record plan_start (identity_end - plan_start)) InvalidIdentity in
  let envelope := mkEnv schema_version profile_id plan_hash field_count (wrap 32 payload_len)
                    (negb (N.land flags 1 =? 0)%N) (negb (N.land flags 2 =? 0)%N) in
  let? _ := envelope_validate envelope max_payload in
  Ok (envelope, drop (N.to_nat identity_end) record).

(** ** Reading a framed record *)

Lemma lenN_magic : lenN magic = 4%N.
Proof. reflexivity. Qed.
#[local] Hint Rewrite lenN_magic : lens.

Definition frame (a b c d e f rest : list byte) : list byte := (magic ++ a ++ b ++ c ++ d ++ e ++ f ++ rest)%list.

Lemma get_le_mid p m q off len :
  off = lenN p -> len = lenN m -> get_le (p ++ m ++ q) off len = Ok (of_le m).
Proof.
  intros -> ->. unfold get_le. rewrite !lenN_app. destruct (N.leb_spec (lenN p + lenN m) (lenN p + (lenN m + lenN q))); [|lia].
  by rewrite slice_app_mid.
Qed.

Lemma slice_drop {A : Type} (p q : list A) off len : slice (p ++ q) (lenN p + off) len = slice q off len.
Proof.
  unfold slice. f_equal. unfold lenN. rewrite N2Nat.inj_add, Nat2N.id. rewrite drop_app_add. done.
Qed.

Lemma cut_prefix {A : Type} (l : list A) n : (n <= lenN l)%N -> exists x y, l = (x ++ y)%list /\ lenN x = n.
Proof.
  intros Hn. exists (take (N.to_nat n) l), (drop (N.to_nat n) l). split; [by rewrite take_drop|].
  unfold lenN in *. rewrite length_take. lia.
Qed.

(** A record of at least 18 bytes that starts with the magic is such a frame. *)
Lemma frame_split record :
  (HEADER <= lenN record)%N -> slice record 0 4 = magic ->
  exists a b c d e f rest, record = frame a b c d e f rest /\
    lenN a = 2%N /\ lenN b = 2%N /\ lenN c = 2%N /\ lenN d = 2%N /\ lenN e = 2%N /\ lenN f = 4%N.
Proof.
  unfold HEADER. intros Hlen Hm.
  destruct (cut_prefix record 4%N) as (m & r0 & -> & Hm4); [lia|].
  assert (m = magic) as -> by (pose proof (slice_app_mid [] m r0 0 4 eq_refl (eq_sym Hm4)) as Hm'; cbn [app] in Hm'; congruence).
  destruct (cut_prefix r0 2%N) as (a & r1 & -> & Ha); [len_lia|].
  destruct (cut_prefix r1 2%N) as (b & r2 & -> & Hb); [len_lia|].
  destruct (cut_prefix r2 2%N) as (c & r3 & -> & Hc); [len_lia|].
  destruct (cut_prefix r3 2%N) as (d & r4 & -> & Hd); [len_lia|].
  destruct (cut_prefix r4 2%N) as (e & r5 & -> & He); [len_lia|].
  destruct (cut_prefix r5 4%N) as (f & rest & -> & Hf); [len_lia|].
  by exists a, b, c, d, e, f, rest.
Qed.

Section Frame.
Context (a b c d e f rest : list byte).
Context (Ha : lenN a = 2%N) (Hb : lenN b = 2%N) (Hc : lenN c = 2%N) (Hd : lenN d = 2%N) (He : lenN e = 2%N) (Hf : lenN f = 4%N).

Lemma lenN_frame : lenN (frame a b c d e f rest) = (HEADER + lenN rest)%N.
Proof. unfold frame, HEADER. len_lia. Qed.

Lemma frame_fields :
  slice (frame a b c d e f rest) 0 4 = magic /\
  get_le (frame a b c d e f rest) 4 2 = Ok (of_le a) /\ get_le (frame a b c d e f rest) 6 2 = Ok (of_le b) /\
  get_le (frame a b c d e f rest) 8 2 = Ok (of_le c) /\ get_le (frame a b c d e f rest) 10 2 = Ok (of_le d) /\
  get_le (frame a b c d e f rest) 12 2 = Ok (of_le e) /\ get_le (frame a b c d e f rest) 14 4 = Ok (of_le f).
Proof.
  unfold frame. change (lenN magic) with 4%N. repeat split.
  - by apply get_le_mid.
  - rewrite (app_assoc magic). apply get_le_mid; len_lia.
  - rewrite (app_assoc magic), (app_assoc (magic ++ a)). apply get_le_mid; len_lia.
  - rewrite (app_assoc magic), (app_assoc (magic ++ a)), (app_assoc ((magic ++ a) ++ b)). apply get_le_mid; len_lia.
  - rewrite !app_assoc, <- (app_assoc _ f), <- (app_assoc _ e). apply get_le_mid; len_lia.
  - rewrite !app_assoc, <- (app_assoc _ f). apply get_le_mid; len_lia.
Qed.

Lemma frame_tail off len : slice (frame a b c d e f rest) (HEADER + off) len = slice rest off len.
Proof.
  unfold frame. rewrite !app_assoc. replace HEADER with (lenN ((((((magic ++ a) ++ b) ++ c) ++ d) ++ e) ++ f)) at 1.
  - apply slice_drop.
  - unfold HEADER. len_lia.
Qed.
End Frame.

(** ** Flags *)

Lemma flags_known flags : (flags < 2 ^ 16)%N -> (N.land flags (N.lxor 3 65535) =? 0)%N = (flags <? 4)%N.
Proof.
  intros Hlt. change (N.lxor 3 65535) with (N.shiftl (N.ones 14) 2).
  destruct (N.ltb_spec flags 4) as [H4|H4].
  - assert (flags = 0 \/ flags = 1 \/ flags = 2 \/ flags = 3)%N as [->|[->|[->| ->]]] by lia; reflexivity.
  - apply N.eqb_neq. intros H0.
    assert (Hbit : N.testbit (N.land flags (N.shiftl (N.ones 14) 2)) (N.log2 flags) = true).
    { rewrite N.land_spec, N.bit_log2 by lia.
      assert (2 <= N.log2 flags)%N by (change 2%N with (N.log2 4); by apply N.log2_le_mono).
      assert (N.log2 flags < 16)%N by (apply N.log2_lt_pow2; lia).
      rewrite N.shiftl_spec_high' by done. rewrite N.ones_spec_low by lia. done. }
    by rewrite H0, N.bits_0 in Hbit.
Qed.

Lemma flags_decode flags :
  (flags < 4)%N ->
  N.lor (if negb (N.land flags 1 =? 0)%N then 1 else 0) (if negb (N.land flags 2 =? 0)%N then 2 else 0) = flags.
Proof. intros. assert (flags = 0 \/ flags = 1 \/ flags = 2 \/ flags = 3)%N as [->|[->|[->| ->]]] by lia; reflexivity. Qed.

Lemma env_flags_lt e : (env_flags e < 4)%N.
Proof. unfold env_flags. destruct (env_partial e), (env_unavailable e); done. Qed.

Lemma env_flags_bits e :
  negb (N.land (env_flags e) 1 =? 0)%N = env_partial e /\ negb (N.land (env_flags e) 2 =? 0)%N = env_unavailable e.
Proof. unfold env_flags. by destruct (env_partial e), (env_unavailable e). Qed.

(** ** What validation promises *)

Lemma envelope_validate_ok e mp :
  envelope_validate e mp = Ok tt <->
  env_schema_version e = CAPTURE_PLAN_SCHEMA_VERSION /\
  (env_profile_id e = "go" \/ env_profile_id e = "rust") /\
  (0 < str_len (env_plan_hash e) <= MAX_IDENTITY_BYTES)%N /\
  (0 < env_field_count e <= MAX_CAPTURE_FIELDS)%N /\
  (env_payload_len e <= N.min mp MAX_CAPTURE_PAYLOAD_BYTES)%N.
Proof.
  unfold envelope_validate, validate_with_capabilities, negotiate.
  cbn [supported_schema_versions supported_profiles default_capabilities caps_max_payload_bytes existsb].
  destruct (N.eqb_spec (env_schema_version e) CAPTURE_PLAN_SCHEMA_VERSION) as [Hs|]; cbn [negb orb]; [|naive_solver].
  rewrite (String.eqb_sym "go"), (String.eqb_sym "rust").
  destruct (str_is_empty (env_plan_hash e)) eqn:Hh.
  { apply str_len_zero in Hh. rewrite orb_true_r. split; [done|]. lia. }
  assert (str_len (env_plan_hash e) <> 0)%N by (rewrite str_len_zero, Hh; done). rewrite orb_false_r.
  destruct (String.eqb_spec (env_profile_id e) "go") as [->|]; [|destruct (String.eqb_spec (env_profile_id e) "rust") as [->|]];
    cbn [str_is_empty orb negb].
  3:{ repeat case_match; naive_solver. }
  all: change (str_len "go") with 2%N; change (str_len "rust") with 4%N;
    unfold MAX_IDENTITY_BYTES, MAX_CAPTURE_FIELDS, MAX_CAPTURE_PAYLOAD_BYTES in *; cbn [N.ltb N.compare orb];
    repeat (match goal with |- context [(?x <? ?y)%N] => destruct (N.ltb_spec x y) | |- context [(?x =? ?y)%N] => destruct (N.eqb_spec x y) end; cbn [orb]);
    split; intros; try done; destruct_and?; repeat split; auto; try lia.
Qed.

(** ** Decoding a frame *)

Lemma from_utf8_some l s : from_utf8 l = Some s <-> l = as_bytes s /\ str_wf s = true.
Proof.
  unfold from_utf8, str_wf. destruct (utf8_valid l) eqn:E; split.
  - intros [= <-]. by rewrite as_bytes_of_bytes.
  - intros [-> _]. by rewrite of_bytes_as_bytes.
  - done.
  - intros [-> H]. congruence.
Qed.

Lemma split3 (l : list byte) p q r :
  lenN l = (p + q + r)%N -> l = (slice l 0 p ++ slice l p q ++ drop (N.to_nat (p + q)) l)%list.
Proof.
  intros Hlen. unfold slice. rewrite <- (take_drop (N.to_nat p) l) at 1. f_equal.
  rewrite <- (take_drop (N.to_nat q) (drop (N.to_nat p) l)) at 1. f_equal. by rewrite drop_drop, N2Nat.inj_add.
Qed.

Lemma of_le_bound l n : lenN l = n -> (of_le l < 256 ^ n)%N.
Proof. intros <-. apply of_le_lt. Qed.

Lemma usize_add_small a b : (a + b < 2 ^ 64)%N -> usize_add a b = Some (a + b)%N.
Proof. intros. by apply checked_add_some. Qed.

Lemma drop_frame a b c d e f rest k :
  lenN a = 2%N -> lenN b = 2%N -> lenN c = 2%N -> lenN d = 2%N -> lenN e = 2%N -> lenN f = 4%N ->
  drop (N.to_nat (HEADER + k)) (frame a b c d e f rest) = drop (N.to_nat k) rest.
Proof.
  intros Ha Hb Hc Hd He Hf. unfold frame. rewrite !app_assoc.
  rewrite N2Nat.inj_add. rewrite drop_app_add'; [done|].
  unfold lenN in *. rewrite !length_app. change (length magic) with 4%nat. change (N.to_nat HEADER) with 18%nat. lia.
Qed.

(** What a frame decodes to, when it decodes. *)
Record frame_decodes (a b c d e f rest : list byte) (mp : N) (env : EventEnvelope) (payload : list byte) : Prop := {
  fd_flags : (of_le b < 4)%N;
  fd_profile_len : lenN (as_bytes (env_profile_id env)) = of_le c;
  fd_plan_len : lenN (as_bytes (env_plan_hash env)) = of_le e;
  fd_payload_len : lenN payload = of_le f;
  fd_rest : rest = (as_bytes (env_profile_id env) ++ as_bytes (env_plan_hash env) ++ payload)%list;
  fd_wf : str_wf (env_profile_id env) = true /\ str_wf (env_plan_hash env) = true;
  fd_env : env = mkEnv (of_le a) (env_profile_id env) (env_plan_hash env) (of_le d) (of_le f)
                   (negb (N.land (of_le b) 1 =? 0)%N) (negb (N.land (of_le b) 2 =? 0)%N);
  fd_valid : envelope_validate env mp = Ok tt
}.

Lemma decode_frame a b c d e f rest mp env payload :
  lenN a = 2%N -> lenN b = 2%N -> lenN c = 2%N -> lenN d = 2%N -> lenN e = 2%N -> lenN f = 4%N ->
  decode_record (frame a b c d e f rest) mp = Ok (env, payload) <-> frame_decodes a b c d e f rest mp env payload.
Proof.
  intros Ha Hb Hc Hd He Hf.
  pose proof (of_le_bound _ _ Hb) as Bb. pose proof (of_le_bound _ _ Hc) as Bc.
  pose proof (of_le_bound _ _ He) as Be. pose proof (of_le_bound _ _ Hf) as Bf.
  destruct (frame_fields a b c d e f rest Ha Hb Hc Hd He Hf) as (Hm & G1 & G2 & G3 & G4 & G5 & G6).
  unfold decode_record. rewrite (lenN_frame a b c d e f rest) by done. unfold HEADER at 1 2.
  destruct (N.ltb_spec (18 + lenN rest) 18) as [?|_]; [lia|]. rewrite Hm, bool_decide_true by done. cbn [orb negb].
  rewrite G1, G2, G3, G4, G5, G6. cbn [res_bind]. rewrite flags_known by done.
  destruct (N.ltb_spec (of_le b) 4) as [Hfl|Hfl]; cbn [negb]; [|split; [done|intros []; lia]].
  rewrite usize_add_small by (unfold HEADER; lia). cbn [mbind option_bind].
  rewrite usize_add_small by (unfold HEADER; lia). cbn [ok_or res_bind].
  rewrite usize_add_small by (unfold HEADER; lia). cbn [ok_or res_bind].
  replace (HEADER + of_le c + of_le e - (HEADER + of_le c))%N with (of_le e) by lia.
  rewrite frame_tail by done. 
  change (slice (frame a b c d e f rest) HEADER) with (slice (frame a b c d e f rest) (HEADER + 0)). rewrite frame_tail by done.
  rewrite <- (N.add_assoc HEADER (of_le c) (of_le e)), drop_frame by done.
  rewrite (wrap_small 32) by done.
  split.
  - intros H. res_inv H.
    injection H as <- <-. destruct v1. apply ok_or_ok, from_utf8_some in E2 as [E2 W2].
    apply ok_or_ok, from_utf8_some in E3 as [E3 W3].
    apply negb_false_iff, N.eqb_eq in E1.
    constructor; cbn [env_profile_id env_plan_hash]; try done.
    + rewrite <- E2, lenN_slice; lia.
    + rewrite <- E3, lenN_slice; lia.
    + unfold lenN in *. rewrite length_drop. lia.
    + rewrite <- E2, <- E3. apply (split3 _ _ _ (of_le f)). lia.
  - intros [_ H1 H2 H3 -> [W1 W2] H5 H6].
    pose proof H6 as (_ & Hp & Hh & _ & _)%envelope_validate_ok. rewrite lenN_as_bytes in H1, H2.
    assert (0 < of_le c <= MAX_IDENTITY_BYTES)%N as Hcb by (rewrite <- H1; unfold MAX_IDENTITY_BYTES; destruct Hp as [-> | ->]; done).
    rewrite H2 in Hh.
    rewrite (proj2 (N.eqb_neq (of_le c) 0)), (proj2 (N.eqb_neq (of_le e) 0)) by lia.
    rewrite (proj2 (N.ltb_ge MAX_IDENTITY_BYTES (of_le c))), (proj2 (N.ltb_ge MAX_IDENTITY_BYTES (of_le e))) by lia.
    cbn [orb]. rewrite !lenN_app, !lenN_as_bytes, H1, H2, H3.
    rewrite (proj2 (N.eqb_eq _ _)) by lia. cbn [negb].
    assert (Hu : forall s, str_wf s = true -> utf8_or (as_bytes s) InvalidIdentity = Ok s)
      by (intros s Hs; apply ok_or_ok; by apply from_utf8_some).
    rewrite <- (lenN_as_bytes (env_profile_id env)) in H1. rewrite <- (lenN_as_bytes (env_plan_hash env)) in H2.
    pose proof (slice_app_mid [] (as_bytes (env_profile_id env)) (as_bytes (env_plan_hash env) ++ payload) 0 _ eq_refl (eq_sym H1)) as Hs.
    cbn [app] in Hs. rewrite Hs, Hu by done. cbn [res_bind].
    rewrite slice_app_mid, Hu by done. cbn [res_bind]. rewrite <- H5, H6. cbn [res_bind].
    rewrite app_assoc, drop_app_length'; [done|]. unfold lenN in *. rewrite length_app. lia.
Qed.

(** ** Round trips *)

Lemma encode_record_ok e payload mp r :
  encode_record e payload mp = Ok r <->
  env_payload_len e = lenN payload /\ envelope_validate e mp = Ok tt /\
  r = (encode_header e ++ as_bytes (env_profile_id e) ++ as_bytes (env_plan_hash e) ++ payload)%list.
Proof.
  unfold encode_record. destruct (N.eqb_spec (env_payload_len e) (lenN payload)) as [Hl|Hl]; cbn [negb]; [|naive_solver].
  rewrite res_bind_ok. split.
  - intros ([] & Hv & H). destruct (_ || _)%bool; [done|]. by injection H as <-.
  - intros (_ & Hv & ->). exists tt. split; [done|].
    pose proof Hv as (_ & Hp & Hh & _ & _)%envelope_validate_ok. rewrite !lenN_as_bytes.
    rewrite (proj2 (N.ltb_ge _ _)) by (unfold MAX_IDENTITY_BYTES; destruct Hp as [-> | ->]; done).
    by rewrite (proj2 (N.ltb_ge _ _)) by lia.
Qed.

Lemma encode_header_frame e rest :
  (encode_header e ++ rest)%list =
  frame (to_le 2 (env_schema_version e)) (to_le 2 (env_flags e)) (to_le 2 (wrap 16 (str_len (env_profile_id e))))
        (to_le 2 (env_field_count e)) (to_le 2 (wrap 16 (str_len (env_plan_hash e)))) (to_le 4 (env_payload_len e)) rest.
Proof. unfold encode_header, frame. by rewrite <- !app_assoc. Qed.

Lemma of_to_le_2 x : (x < 2 ^ 16)%N -> of_le (to_le 2 x) = x.
Proof. intros. rewrite of_to_le. by apply N.mod_small. Qed.
Lemma of_to_le_4 x : (x < 2 ^ 32)%N -> of_le (to_le 4 x) = x.
Proof. intros. rewrite of_to_le. by apply N.mod_small. Qed.

Lemma encode_then_decode e payload mp r :
  envelope_typed e -> encode_record e payload mp = Ok r -> decode_record r mp = Ok (e, payload).
Proof.
  intros (T1 & T2 & T3 & W1 & W2) (Hl & Hv & ->)%encode_record_ok.
  rewrite encode_header_frame. apply decode_frame; [by rewrite lenN_to_le..|].
  pose proof Hv as (_ & Hp & Hh & _ & _)%envelope_validate_ok.
  assert (str_len (env_profile_id e) < 2 ^ 16)%N as Hpl by (destruct Hp as [-> | ->]; done).
  assert (str_len (env_plan_hash e) < 2 ^ 16)%N as Hhl by (unfold MAX_IDENTITY_BYTES in Hh; lia).
  pose proof (env_flags_lt e) as Hf. destruct (env_flags_bits e) as [Hf1 Hf2].
  constructor; rewrite ?lenN_as_bytes, ?wrap_small, ?of_to_le_2, ?of_to_le_4 by (done || lia); try done.
  rewrite Hf1, Hf2. by destruct e.
Qed.

(** Every record that can be encoded decodes to the same envelope and
    payload, under the same payload limit. *)
Theorem wire_encode_decode e payload mp r :
  envelope_typed e -> encode_record e payload mp = Ok r -> decode_record r mp = Ok (e, payload).
Proof. apply encode_then_decode. Qed.

Lemma to_le_of n l : lenN l = N.of_nat n -> to_le n (of_le l) = l.
Proof. unfold lenN. intros H. replace n with (length l) by lia. apply to_of_le. Qed.

(** Decoding is canonical: a record that decodes is exactly the encoding of
    what it decodes to, so no two byte strings carry the same event and none of
    the record's bytes is ignored. *)
Theorem wire_decode_encode r mp e payload :
  decode_record r mp = Ok (e, payload) -> encode_record e payload mp = Ok r /\ envelope_typed e.
Proof.
  intros H. assert (HEADER <= lenN r /\ slice r 0 4 = magic)%N as [Hlen Hm].
  { unfold decode_record in H. destruct (N.ltb_spec (lenN r) HEADER); [done|]. split; [done|].
    destruct (bool_decide (slice r 0 4 = magic)) eqn:E; [by apply bool_decide_eq_true in E|done]. }
  destruct (frame_split r Hlen Hm) as (a & b & c & d & e' & f & rest & -> & Ha & Hb & Hc & Hd & He & Hf).
  apply decode_frame in H as [H1 H2 H3 H4 -> [W1 W2] H6 H7]; [|done..].
  assert (env_flags e = of_le b /\ env_schema_version e = of_le a /\ env_field_count e = of_le d /\ env_payload_len e = of_le f)
    as (Efl & Esv & Efc & Epl) by (rewrite H6; cbn; split; [by apply flags_decode|done]).
  rewrite lenN_as_bytes in H2, H3.
  pose proof (of_le_bound _ _ Ha). pose proof (of_le_bound _ _ Hc). pose proof (of_le_bound _ _ Hd).
  pose proof (of_le_bound _ _ He). pose proof (of_le_bound _ _ Hf).
  split.
  - apply encode_record_ok. split; [congruence|]. split; [done|].
    rewrite encode_header_frame, Efl, Esv, Efc, Epl, H2, H3.
    by rewrite !wrap_small, !to_le_of.
  - split; [by rewrite Esv|]. split; [by rewrite Efc|]. split; [by rewrite Epl|]. done.
Qed.

(** C29: the record format is exact.  Under any payload limit, the bytes that decode to
    an envelope and a payload are exactly the encoding of these: what can be encoded
    decodes to itself, no two byte strings decode to the same event, no byte of a record is
    ignored, and a decoded envelope has numbers of the declared widths. *)
Theorem wire_codec_exact e payload mp r :
  (envelope_typed e /\ encode_record e payload mp = Ok r) <-> decode_record r mp = Ok (e, payload).
Proof.
  split; [intros [Ht He]; by apply encode_then_decode|]. intros [He Ht]%wire_decode_encode. by split.
Qed.

Definition sample_envelope : EventEnvelope := mkEnv 1 "go" "h1" 1 3 true false.

Lemma wire_encode_decode_witness :
  exists r, encode_record sample_envelope [x01; x02; x03] 64 = Ok r /\ decode_record r 64 = Ok (sample_envelope, [x01; x02; x03]).
Proof.
  eexists. split; [vm_compute; reflexivity|]. apply wire_encode_decode; [|vm_compute; reflexivity].
  repeat split; vm_compute; reflexivity.
Defined.

Lemma wire_decode_encode_witness :
  exists r, encode_record sample_envelope [x01; x02; x03] 64 = Ok r /\ envelope_typed sample_envelope.
Proof.
  eexists. apply (wire_decode_encode _ 64 sample_envelope [x01; x02; x03]).
  instantiate (1 := match encode_record sample_envelope [x01; x02; x03] 64 with Ok r => r | Err _ => [] end).
  vm_compute. reflexivity.
Defined.
