(* ===== verification/Decode.v ===== *)
(** * Decoding captured records

    [crates/detrix-ebpf/src/decode.rs] and [replay.rs]: from a validated
    envelope and its payload to named values.  [f64] values are their IEEE bit
    patterns; [f32 as f64] is the exact widening on the bits (a signalling NaN
    becomes quiet). *)

From Stdlib Require Import Strings.String Strings.Ascii Init.Byte.
From S2P Require Import Prelude RustStr Dwarf CapturePlan Wire.

Local Open Scope string_scope.

Inductive ScalarKind : Type := SUnsigned | SSigned | SBool | SFloat32 | SFloat64 | SAddress.

Record ScalarFieldSpec : Type := mkSFS { sfs_name : string; sfs_offset : N; sfs_size : N; sfs_kind : ScalarKind }.
Record BlobFieldSpec : Type := mkBFS { bfs_name : string; bfs_offset : N; bfs_size : N }.
Record DecodedBlob : Type := mkBlob { blob_name : string; blob_bytes : list byte }.
Record EnumVariantSpec : Type := mkVariant {
  evn_name : string; evn_discriminant : N; evn_payload_offset : option N; evn_payload_size : option N
}.
Record DecodedEnum : Type := mkDE { de_discriminant : N; de_variant : string; de_payload : option (list byte) }.

(** The two constructors of [CapturedValue] that scalar decoding produces. *)
Inductive ScalarValue : Type := Scalar (v : N) | Float (bits : N).
Record DecodedScalar : Type := mkDS { ds_name : string; ds_value : ScalarValue }.

Inductive CompositeKind : Type :=
| CKString (pointer_offset length_offset word_size : N)
| CKSlice (pointer_offset length_offset capacity_offset word_size : N)
| CKEnumDiscriminant (offset size : N).

Inductive DecodedComposite : Type :=
| DCString (pointer length : N)
| DCSlice (pointer length capacity : N)
| DCEnumDiscriminant (d : N).

Inductive ScalarDecodeError : Type :=
| Envelope (e : EnvelopeError)
| FieldCount (declared actual : N)
| Length (declared actual : N)
| DInvalidField (name : string)
| Truncated (field : string) (end_ payload_len : N)
| UnsupportedWidth (field : string) (size : N)
| IncompleteEnum (name : string)
| UnknownEnumDiscriminant (field : string) (discriminant : N).

(** ** Scalars *)

Definition f32_to_f64 (b : N) : N :=
  let s := N.shiftl (N.shiftr b 31) 63 in
  let e := N.land (N.shiftr b 23) 255 in
  let m := N.land b (N.ones 23) in
  if (e =? 255)%N then
    if (m =? 0)%N then s + N.shiftl 2047 52 else s + N.shiftl 2047 52 + N.lor (N.shiftl 1 51) (N.shiftl m 29)
  else if (e =? 0)%N then
    if (m =? 0)%N then s
    else let k := N.log2 m in s + N.shiftl (k + 874) 52 + N.shiftl (m - 2 ^ k) (52 - k)
  else s + N.shiftl (e + 896) 52 + N.shiftl m 29.

(** [bytes as iN as i64 as u64] for an [N]-bit little-endian integer. *)
Definition sign_extend (bits : N) (v : N) : N := of_signed 64 (to_signed bits v).

Definition decode_scalar (kind : ScalarKind) (bytes : list byte) : option ScalarValue :=
  match kind, length bytes with
  | (SUnsigned | SAddress), (1 | 2 | 4 | 8)%nat => Some (Scalar (of_le bytes))
  | SSigned, (1 | 2 | 4 | 8)%nat => Some (Scalar (sign_extend (8 * lenN bytes) (of_le bytes)))
  | SBool, 1%nat => Some (Scalar (if (of_le bytes =? 0)%N then 0 else 1))
  | SFloat32, 4%nat => Some (Float (f32_to_f64 (of_le bytes)))
  | SFloat64, 8%nat => Some (Float (of_le bytes))
  | _, _ => None
  end.

(** The checks common to both record decoders. *)
Definition check_record (e : EventEnvelope) (payload : list byte) (count max_payload : N) : result unit ScalarDecodeError :=
  let? _ := map_err Envelope (envelope_validate e max_payload) in
  if negb (env_field_count e =? count)%N then Err (FieldCount (env_field_count e) count)
  else if negb (env_payload_len e =? lenN payload)%N then Err (Length (env_payload_len e) (lenN payload))
  else Ok tt.

(** The bytes of one field, or why they cannot be read. *)
Definition field_bytes (name : string) (offset size : N) (payload : list byte) : result (list byte) ScalarDecodeError :=
  if str_is_empty (trim name) || (size =? 0)%N then Err (DInvalidField name)
  else
    let? end_ := ok_or (usize_add offset size) (DInvalidField name) in
    if (lenN payload <? end_)%N then Err (Truncated name end_ (lenN payload))
    else Ok (slice payload offset size).

Definition decode_blob_field (payload : list byte) (f : BlobFieldSpec) : result DecodedBlob ScalarDecodeError :=
  let? bytes := field_bytes (bfs_name f) (bfs_offset f) (bfs_size f) payload in
  Ok (mkBlob (bfs_name f) bytes).

Definition decode_blob_record (e : EventEnvelope) (payload : list byte) (fields : list BlobFieldSpec) (max_payload : N)
    : result (list DecodedBlob) ScalarDecodeError :=
  let? _ := check_record e payload (lenN fields) max_payload in
  collect_results (decode_blob_field payload) fields.

Definition decode_scalar_field (payload : list byte) (f : ScalarFieldSpec) : result DecodedScalar ScalarDecodeError :=
  let? bytes := field_bytes (sfs_name f) (sfs_offset f) (sfs_size f) payload in
  let? value := ok_or (decode_scalar (sfs_kind f) bytes) (UnsupportedWidth (sfs_name f) (sfs_size f)) in
  Ok (mkDS (sfs_name f) value).

Definition decode_scalar_record (e : EventEnvelope) (payload : list byte) (fields : list ScalarFieldSpec) (max_payload : N)
    : result (list DecodedScalar) ScalarDecodeError :=
  let? _ := check_record e payload (lenN fields) max_payload in
  collect_results (decode_scalar_field payload) fields.

(** ** Composites *)

Definition word_width (size : N) : bool := existsb (N.eqb size) [1; 2; 4; 8]%N.

(** Copying into a zeroed 8-byte word and reading it little-endian. *)
Definition read_word (blob : DecodedBlob) (offset size : N) : result N ScalarDecodeError :=
  if negb (word_width size) then Err (UnsupportedWidth (blob_name blob) size) else
  let? end_ := ok_or (usize_add offset size) (DInvalidField (blob_name blob)) in
  if (lenN (blob_bytes blob) <? end_)%N then Err (Truncated (blob_name blob) end_ (lenN (blob_bytes blob)))
  else Ok (of_le (slice (blob_bytes blob) offset size ++ repeat x00 (N.to_nat (8 - size)))).

Definition decode_composite (blob : DecodedBlob) (kind : CompositeKind) (max_bytes : N)
    : result DecodedComposite ScalarDecodeError :=
  if (max_bytes <? lenN (blob_bytes blob))%N
  then Err (Truncated (blob_name blob) (lenN (blob_bytes blob)) max_bytes) else
  match kind with
  | CKString po lo w =>
      let? pointer := read_word blob po w in
      let? length := read_word blob lo w in
      Ok (DCString pointer (N.min length max_bytes))
  | CKSlice po lo co w =>
      let? pointer := read_word blob po w in
      let? length := read_word blob lo w in
      let? capacity := read_word blob co w in
      Ok (DCSlice pointer length capacity)
  | CKEnumDiscriminant o s => let? d := read_word blob o s in Ok (DCEnumDiscriminant d)
  end.

Definition variant_payload (blob : DecodedBlob) (max_bytes : N) (v : EnumVariantSpec)
    : result (option (list byte)) ScalarDecodeError :=
  match evn_payload_offset v, evn_payload_size v with
  | Some offset, Some size =>
      if (0 <? size)%N then
        let? payload_end := ok_or (usize_add offset size) (DInvalidField (blob_name blob)) in
        if ((lenN (blob_bytes blob) <? payload_end) || (max_bytes <? payload_end))%N
        then Err (Truncated (blob_name blob) payload_end (lenN (blob_bytes blob)))
        else Ok (Some (slice (blob_bytes blob) offset size))
      else Err (IncompleteEnum (blob_name blob))
  | None, None => Ok None
  | _, _ => Err (IncompleteEnum (blob_name blob))
  end.

Definition decode_enum_variant (blob : DecodedBlob) (discriminant_offset discriminant_size : N)
    (variants : list EnumVariantSpec) (max_bytes : N) : result DecodedEnum ScalarDecodeError :=
  if (max_bytes <? lenN (blob_bytes blob))%N
  then Err (Truncated (blob_name blob) (lenN (blob_bytes blob)) max_bytes)
  else if (lenN variants <? 2)%N then Err (IncompleteEnum (blob_name blob)) else
  let? discriminant := read_word blob discriminant_offset discriminant_size in
  let? variant := ok_or (List.find (fun v => N.eqb (evn_discriminant v) discriminant) variants)
                    (UnknownEnumDiscriminant (blob_name blob) discriminant) in
  let? payload := variant_payload blob max_bytes variant in
  Ok (mkDE discriminant (evn_name variant) payload).

(** ** Replay *)

Record ReplayRecord : Type := mkReplay { rr_envelope : EventEnvelope; rr_payload : list byte }.
Inductive ReplayError : Type :=
| REnvelope (e : EnvelopeError) | RLengthMismatch (declared actual : N) | RDecode (e : ScalarDecodeError).

Definition replay_validate (r : ReplayRecord) (max_payload : N) : result (list byte) ReplayError :=
  let? _ := map_err REnvelope (envelope_validate (rr_envelope r) max_payload) in
  if negb (env_payload_len (rr_envelope r) =? lenN (rr_payload r))%N
  then Err (RLengthMismatch (env_payload_len (rr_envelope r)) (lenN (rr_payload r))) else Ok (rr_payload r).
Definition replay_decode_scalars (r : ReplayRecord) (fields : list ScalarFieldSpec) (max_payload : N) : result (list DecodedScalar) ReplayError :=
  map_err RDecode (decode_scalar_record (rr_envelope r) (rr_payload r) fields max_payload).
Definition replay_decode_blobs (r : ReplayRecord) (fields : list BlobFieldSpec) (max_payload : N) : result (list DecodedBlob) ReplayError :=
  map_err RDecode (decode_blob_record (rr_envelope r) (rr_payload r) fields max_payload).
Definition replay_decode_enum (r : ReplayRecord) (discriminant_offset discriminant_size : N) (variants : list EnumVariantSpec) (max_payload : N)
    : result DecodedEnum ReplayError :=
  let? _ := replay_validate r max_payload in
  map_err RDecode (decode_enum_variant (mkBlob "enum" (rr_payload r)) discriminant_offset discriminant_size variants max_payload).

(** ** Theorems *)

Lemma to_of_signed bits z :
  (0 < bits)%N -> (- 2 ^ Z.of_N (bits - 1) <= z < 2 ^ Z.of_N (bits - 1))%Z -> to_signed bits (of_signed bits z) = z.
Proof.
  intros Hb Hz. unfold to_signed, of_signed.
  assert (2 ^ Z.of_N bits = 2 * 2 ^ Z.of_N (bits - 1))%Z as Hp.
  { rewrite <- Z.pow_succ_r by lia. f_equal. lia. }
  assert (Z.of_N (2 ^ (bits - 1)) = 2 ^ Z.of_N (bits - 1))%Z as Hc by (rewrite N2Z.inj_pow; done).
  pose proof (Z.mod_pos_bound z (2 ^ Z.of_N bits)) as Hm.
  destruct (Z.lt_ge_cases z 0) as [Hn|Hn].
  - assert (z mod 2 ^ Z.of_N bits = z + 2 ^ Z.of_N bits)%Z as Hmod.
    { rewrite <- (Z.mod_small (z + 2 ^ Z.of_N bits) (2 ^ Z.of_N bits)) by lia.
      rewrite <- Z.add_mod_idemp_r, Z.mod_same, Z.add_0_r by lia. done. }
    rewrite Hmod. destruct (N.ltb_spec (Z.to_N (z + 2 ^ Z.of_N bits)) (2 ^ (bits - 1))); lia.
  - rewrite (Z.mod_small z) by lia. destruct (N.ltb_spec (Z.to_N z) (2 ^ (bits - 1))); lia.
Qed.

Lemma to_signed_range bits v :
  (0 < bits)%N -> (v < 2 ^ bits)%N -> (- 2 ^ Z.of_N (bits - 1) <= to_signed bits v < 2 ^ Z.of_N (bits - 1))%Z.
Proof.
  intros Hb Hv. unfold to_signed.
  assert (2 ^ Z.of_N bits = 2 * 2 ^ Z.of_N (bits - 1))%Z as Hp by (rewrite <- Z.pow_succ_r by lia; f_equal; lia).
  assert (Z.of_N (2 ^ (bits - 1)) = 2 ^ Z.of_N (bits - 1))%Z as Hc by (rewrite N2Z.inj_pow; done).
  assert (Z.of_N (2 ^ bits) = 2 ^ Z.of_N bits)%Z as Hd by (rewrite N2Z.inj_pow; done).
  destruct (N.ltb_spec v (2 ^ (bits - 1))); lia.
Qed.

(** A signed field keeps its value: whatever its width, the 64-bit word it
    decodes to, read as two's complement, is the number the field's bytes hold
    at their own width. *)
Theorem decode_signed_value bytes v :
  decode_scalar SSigned bytes = Some (Scalar v) ->
  to_signed 64 v = to_signed (8 * lenN bytes) (of_le bytes) /\ (v < 2 ^ 64)%N.
Proof.
  intros H. assert (lenN bytes = 1 \/ lenN bytes = 2 \/ lenN bytes = 4 \/ lenN bytes = 8)%N as Hl.
  { unfold decode_scalar in H. unfold lenN. destruct (length bytes) as [|[|[|[|[|[|[|[|[|?]]]]]]]]]; try done; auto. }
  assert (v = sign_extend (8 * lenN bytes) (of_le bytes)) as ->.
  { unfold decode_scalar in H. destruct (length bytes) as [|[|[|[|[|[|[|[|[|?]]]]]]]]]; try done; by injection H. }
  pose proof (of_le_lt bytes) as Hb.
  assert (256 ^ lenN bytes = 2 ^ (8 * lenN bytes))%N as Hpow by (destruct Hl as [->|[->|[->| ->]]]; done).
  rewrite Hpow in Hb. unfold sign_extend. split.
  - rewrite to_of_signed; [done|done|].
    pose proof (to_signed_range (8 * lenN bytes) (of_le bytes) ltac:(lia) Hb) as Hr.
    assert (2 ^ Z.of_N (8 * lenN bytes - 1) <= 2 ^ Z.of_N (64 - 1))%Z by (apply Z.pow_le_mono_r; lia). lia.
  - unfold of_signed. pose proof (Z.mod_pos_bound (to_signed (8 * lenN bytes) (of_le bytes)) (2 ^ Z.of_N 64)). lia.
Qed.

Lemma decode_signed_value_witness :
  decode_scalar SSigned [xfe; xff] = Some (Scalar 18446744073709551614) /\ to_signed 64 18446744073709551614 = (-2)%Z.
Proof.
  split; [vm_compute; reflexivity|].
  rewrite (proj1 (decode_signed_value [xfe; xff] 18446744073709551614 ltac:(vm_compute; reflexivity))). reflexivity.
Defined.

Lemma check_record_ok e payload count mp :
  check_record e payload count mp = Ok tt <->
  envelope_validate e mp = Ok tt /\ env_field_count e = count /\ env_payload_len e = lenN payload.
Proof.
  unfold check_record. rewrite res_bind_ok. setoid_rewrite map_err_ok.
  destruct (N.eqb_spec (env_field_count e) count), (N.eqb_spec (env_payload_len e) (lenN payload)); cbn;
    (split; [intros ([] & ? & ?); done|intros (? & ? & ?); try done; exists tt; done]).
Qed.

Definition field_readable (name : string) (offset size : N) (payload : list byte) : Prop :=
  trim name <> EmptyString /\ (0 < size)%N /\ (offset + size <= lenN payload)%N.

Lemma field_bytes_ok name offset size payload bytes :
  (lenN payload < 2 ^ 64)%N ->
  field_bytes name offset size payload = Ok bytes <->
  field_readable name offset size payload /\ bytes = slice payload offset size.
Proof.
  intros Hlt. unfold field_bytes, field_readable. destruct (str_is_empty (trim name)) eqn:En; cbn [orb].
  { apply str_is_empty_true in En. split; [done|]. by intros [(? & _) _]. }
  assert (trim name <> EmptyString) as Hn by (intros Hx; rewrite Hx in En; done).
  destruct (N.eqb_spec size 0); [split; [done|lia]|].
  rewrite res_bind_ok. setoid_rewrite ok_or_ok. setoid_rewrite checked_add_some. unfold usize_bits. split.
  - intros (end_ & [-> Ha] & H). destruct (N.ltb_spec (lenN payload) (offset + size)); [done|].
    injection H as <-. repeat split; (done || lia).
  - intros [(_ & _ & Hr) ->]. exists (offset + size)%N. split; [split; [done|lia]|].
    destruct (N.ltb_spec (lenN payload) (offset + size)); [lia|done].
Qed.

Lemma validated_payload_small e mp (payload : list byte) :
  envelope_validate e mp = Ok tt -> env_payload_len e = lenN payload -> (lenN payload < 2 ^ 64)%N.
Proof.
  intros (_ & _ & _ & _ & Hp)%envelope_validate_ok Hl. unfold MAX_CAPTURE_PAYLOAD_BYTES in Hp. lia.
Qed.

Lemma decode_scalar_record_ok e payload fields mp ds :
  decode_scalar_record e payload fields mp = Ok ds <->
  envelope_validate e mp = Ok tt /\ env_field_count e = lenN fields /\ env_payload_len e = lenN payload /\
  Forall2 (fun f d => field_readable (sfs_name f) (sfs_offset f) (sfs_size f) payload /\ ds_name d = sfs_name f /\
             decode_scalar (sfs_kind f) (slice payload (sfs_offset f) (sfs_size f)) = Some (ds_value d)) fields ds.
Proof.
  unfold decode_scalar_record. rewrite res_bind_ok. split.
  - intros ([] & (Hv & Hc & Hl)%check_record_ok & H). apply collect_results_ok in H.
    pose proof (validated_payload_small _ _ _ Hv Hl) as Hs. split; [done|]. split; [done|]. split; [done|].
    eapply Forall2_impl; [|exact H]. intros f d Hd. unfold decode_scalar_field in Hd. res_inv Hd. injection Hd as <-.
    apply field_bytes_ok in E as [Hr ->]; done.
  - intros (Hv & Hc & Hl & H). exists tt. split; [by apply check_record_ok|]. apply collect_results_ok.
    pose proof (validated_payload_small _ _ _ Hv Hl) as Hs.
    eapply Forall2_impl; [|exact H]. intros f [dn dv] (Hr & Hn & Hd). cbn in *. unfold decode_scalar_field.
    rewrite (proj2 (field_bytes_ok _ _ _ _ _ Hs) (conj Hr eq_refl)). cbn [res_bind]. rewrite Hd. cbn. by rewrite Hn.
Qed.

(** Scalar decoding is exact. A record decodes exactly when its envelope is
    valid, the declared field count and length match, and every field is named,
    lies inside the payload and has a width its kind supports; the result then
    lists the fields in order, each with the value of its own bytes. *)
Theorem decode_scalar_record_spec e payload fields mp ds :
  decode_scalar_record e payload fields mp = Ok ds <->
  envelope_validate e mp = Ok tt /\ env_field_count e = lenN fields /\ env_payload_len e = lenN payload /\
  Forall2 (fun f d => field_readable (sfs_name f) (sfs_offset f) (sfs_size f) payload /\ ds_name d = sfs_name f /\
             decode_scalar (sfs_kind f) (slice payload (sfs_offset f) (sfs_size f)) = Some (ds_value d)) fields ds.
Proof. apply decode_scalar_record_ok. Qed.

(** ** From a capture plan to the decoded fields *)

(** What a backend does with the bytes of a field: store them at its offset. *)
Definition write_at (buf : list byte) (off : N) (bytes : list byte) : list byte :=
  (take (N.to_nat off) buf ++ bytes ++ drop (N.to_nat off + length bytes) buf)%list.

Fixpoint store_fields (buf : list byte) (l : list (CaptureField * list byte)) : list byte :=
  match l with
  | [] => buf
  | (f, bytes) :: l' => store_fields (write_at buf (cf_offset f) bytes) l'
  end.

Definition blob_spec (f : CaptureField) : BlobFieldSpec := mkBFS (cf_name f) (cf_offset f) (cf_size f).

Lemma lenN_write_at buf off bytes : (off + lenN bytes <= lenN buf)%N -> lenN (write_at buf off bytes) = lenN buf.
Proof. unfold write_at, lenN. intros. rewrite !length_app, length_take, length_drop. lia. Qed.

Lemma slice_write_same buf off bytes :
  (off + lenN bytes <= lenN buf)%N -> slice (write_at buf off bytes) off (lenN bytes) = bytes.
Proof. intros H. unfold write_at. apply slice_app_mid; [|done]. unfold lenN in *. rewrite length_take. lia. Qed.

Lemma slice_write_other buf off bytes off' len' :
  (off + lenN bytes <= lenN buf)%N -> (off' + len' <= lenN buf)%N ->
  disjoint_range (off, off + lenN bytes)%N (off', off' + len')%N ->
  slice (write_at buf off bytes) off' len' = slice buf off' len'.
Proof.
  intros H1 H2 Hd. apply list_eq. intros i.
  destruct (decide (i < N.to_nat len')%nat) as [Hi|Hi].
  - rewrite !slice_lookup by done. unfold write_at, disjoint_range, lenN in *. cbn in Hd.
    destruct Hd as [Hd|Hd].
    + rewrite lookup_app_r by (rewrite length_take; lia). rewrite lookup_app_r by (rewrite length_take; lia).
      rewrite lookup_drop, length_take. f_equal. lia.
    + rewrite lookup_app_l by (rewrite length_take; lia). rewrite lookup_take_lt by lia. done.
  - rewrite !lookup_ge_None_2; [done|unfold slice; rewrite length_take; lia|unfold slice; rewrite length_take; lia].
Qed.

(** Every field whose range meets no later write keeps its bytes. *)
Lemma store_fields_keeps buf l off len :
  (off + len <= lenN buf)%N ->
  Forall (fun fb => lenN (snd fb) = cf_size (fst fb) /\ (cf_offset (fst fb) + cf_size (fst fb) <= lenN buf)%N /\
                    disjoint_range (off, off + len)%N (field_span (fst fb))) l ->
  slice (store_fields buf l) off len = slice buf off len.
Proof.
  revert buf. induction l as [|[f bytes] l IH]; intros buf Hb Hl; [done|]. cbn [store_fields].
  apply List.Forall_cons_iff in Hl as [(Hlen & Hin & Hd) Hl]. cbn in *.
  assert (lenN (write_at buf (cf_offset f) bytes) = lenN buf) as Hw by (apply lenN_write_at; lia).
  rewrite IH; [|by rewrite Hw|by rewrite Hw].
  apply slice_write_other; [lia|done|]. unfold disjoint_range, field_span in *. cbn in *. lia.
Qed.

Lemma store_fields_slices buf l :
  Forall (fun fb => lenN (snd fb) = cf_size (fst fb) /\ (cf_offset (fst fb) + cf_size (fst fb) <= lenN buf)%N) l ->
  ForallOrdPairs disjoint_range (map (fun fb => field_span (fst fb)) l) ->
  lenN (store_fields buf l) = lenN buf /\
  Forall (fun fb => slice (store_fields buf l) (cf_offset (fst fb)) (cf_size (fst fb)) = snd fb) l.
Proof.
  revert buf. induction l as [|[f bytes] l IH]; intros buf Hl Hd; [done|]. cbn [store_fields map] in *.
  apply List.Forall_cons_iff in Hl as [[Hlen Hin] Hl]. cbn in Hlen, Hin. inversion_clear Hd as [|? ? Hdf Hd'].
  assert (lenN (write_at buf (cf_offset f) bytes) = lenN buf) as Hw by (apply lenN_write_at; lia).
  destruct (IH (write_at buf (cf_offset f) bytes)) as [Hlen' Hsl]; [by rewrite Hw|done|].
  split; [by rewrite Hlen'|]. constructor; [|exact Hsl]. cbn.
  rewrite store_fields_keeps.
  - rewrite <- Hlen. apply slice_write_same. lia.
  - rewrite Hw. lia.
  - rewrite Hw. rewrite List.Forall_forall in *. intros [g gb] Hg. specialize (Hl _ Hg). cbn in *. repeat split; [lia|lia|].
    apply Hdf. apply in_map_iff. by exists (g, gb).
Qed.

Lemma decode_blob_record_ok e payload fields mp bs :
  envelope_validate e mp = Ok tt -> env_field_count e = lenN fields -> env_payload_len e = lenN payload ->
  Forall2 (fun f b => field_readable (bfs_name f) (bfs_offset f) (bfs_size f) payload /\
             b = mkBlob (bfs_name f) (slice payload (bfs_offset f) (bfs_size f))) fields bs ->
  decode_blob_record e payload fields mp = Ok bs.
Proof.
  intros Hv Hc Hl H. unfold decode_blob_record. apply res_bind_ok. exists tt. split; [by apply check_record_ok|].
  apply collect_results_ok. pose proof (validated_payload_small _ _ _ Hv Hl) as Hs.
  eapply Forall2_impl; [|exact H]. intros f b [Hr ->]. unfold decode_blob_field.
  by rewrite (proj2 (field_bytes_ok _ _ _ _ _ Hs) (conj Hr eq_refl)).
Qed.

(** What an admitted plan captures is what is decoded. For every accepted
    capture plan and any bytes of the planned sizes, storing each field at its
    planned offset in the payload and sending that payload under a valid
    envelope yields, after decoding, every field's name with exactly its own
    bytes: fields never overwrite each other and never fall outside. *)
Theorem plan_capture_roundtrip p e values buf :
  plan_validate p = Ok tt ->
  Forall2 (fun f v => lenN v = cf_size f) (plan_fields p) values ->
  lenN buf = plan_max_payload_bytes p ->
  envelope_validate e (plan_max_payload_bytes p) = Ok tt ->
  env_field_count e = lenN (plan_fields p) -> env_payload_len e = plan_max_payload_bytes p ->
  decode_blob_record e (store_fields buf (combine (plan_fields p) values)) (map blob_spec (plan_fields p)) (plan_max_payload_bytes p)
  = Ok (zip_with (fun f v => mkBlob (cf_name f) v) (plan_fields p) values).
Proof.
  intros [Hs Hp Hh Hcnt Hpay Hn Hb Hd Hdep Hw]%plan_validate_ok Hvals Hbuf Hv Hc Hl.
  destruct (store_fields_slices buf (combine (plan_fields p) values)) as [Hlen Hsl].
  { rewrite Hbuf. clear -Hvals Hb. induction Hvals as [|f v fs vs Hfv Hfs IH]; cbn; [constructor|].
    apply List.Forall_cons_iff in Hb as [Hf Hb]. constructor; [cbn; lia|by apply IH]. }
  { clear -Hvals Hd. assert (map (fun fb : CaptureField * list byte => field_span (fst fb)) (combine (plan_fields p) values) = map field_span (plan_fields p)) as ->; [|done].
    clear Hd. induction Hvals; cbn; [done|by f_equal]. }
  apply decode_blob_record_ok; [done|by rewrite Hc; unfold lenN; rewrite length_map|congruence|].
  set (payload := store_fields buf _) in *. rewrite Hbuf in Hlen. clearbody payload. clear Hcnt Hc Hd Hdep Hw.
  induction Hvals as [|f v fs vs Hfv Hfs IH]; cbn; [constructor|].
  apply List.Forall_cons_iff in Hn as [Hnf Hn], Hb as [Hbf Hb], Hsl as [Hslf Hsl]. cbn in Hslf.
  constructor; [|by apply IH]. cbn. rewrite Hslf. split; [|done]. unfold field_readable. repeat split; [done|lia|lia].
Qed.

Definition sample_plan : CapturePlan :=
  mkPlan 1 X86_64 "go" "h" 0 [mkField "a" 4 2 (RRegister Rax VValue); mkField "b" 0 3 (RStack 8 3 VValue)] 6.

Lemma plan_capture_roundtrip_witness :
  decode_blob_record (mkEnv 1 "go" "h" 2 6 false false)
    (store_fields (repeat x00 6) (combine (plan_fields sample_plan) [[x01; x02]; [x03; x04; x05]]))
    (map blob_spec (plan_fields sample_plan)) 6
  = Ok [mkBlob "a" [x01; x02]; mkBlob "b" [x03; x04; x05]].
Proof.
  rewrite (plan_capture_roundtrip sample_plan); [reflexivity|reflexivity|repeat constructor|reflexivity..].
Defined.

(** ** Composites stay inside their blob *)

Lemma read_word_ok blob off size v :
  (lenN (blob_bytes blob) < 2 ^ 64)%N -> read_word blob off size = Ok v ->
  (size = 1 \/ size = 2 \/ size = 4 \/ size = 8)%N /\ (off + size <= lenN (blob_bytes blob))%N /\
  v = of_le (slice (blob_bytes blob) off size).
Proof.
  intros Hlt H. unfold read_word in H. destruct (word_width size) eqn:Ew; [|done]. cbn [negb] in H. res_inv H.
  apply checked_add_some in E as [-> _]. apply N.ltb_ge in E0. injection H as <-. split; [|split; [done|]].
  - unfold word_width in Ew. cbn in Ew. rewrite !orb_true_iff, !N.eqb_eq in Ew. naive_solver.
  - assert (Hz : forall n l, of_le (l ++ repeat x00 n) = of_le l).
    { intros n l. induction l as [|b l IH]; cbn; [|by rewrite IH]. induction n as [|n IHn]; [done|]. cbn. by rewrite IHn. }
    by rewrite Hz.
Qed.

(** Enum decoding never guesses. A decoded enum has the discriminant its
    bytes spell (inside the blob), names a variant of the table with exactly
    that discriminant, and its payload, if any, is the variant's own byte
    range of the blob. *)
Theorem decode_enum_variant_sound blob off size variants mp d :
  (mp < 2 ^ 64)%N -> decode_enum_variant blob off size variants mp = Ok d ->
  (off + size <= lenN (blob_bytes blob) <= mp)%N /\
  de_discriminant d = of_le (slice (blob_bytes blob) off size) /\
  exists v, In v variants /\ evn_discriminant v = de_discriminant d /\ evn_name v = de_variant d /\
    (de_payload d = None /\ evn_payload_offset v = None /\ evn_payload_size v = None \/
     exists po ps, evn_payload_offset v = Some po /\ evn_payload_size v = Some ps /\ (0 < ps)%N /\
       (po + ps <= lenN (blob_bytes blob))%N /\ de_payload d = Some (slice (blob_bytes blob) po ps)).
Proof.
  intros Hmp H. unfold decode_enum_variant in H. res_inv H. injection H as <-. cbn [de_discriminant de_variant de_payload].
  apply N.ltb_ge in E. apply read_word_ok in E1 as (_ & Hin & ->); [|lia].
  apply find_some in E2 as [Hv Hd]. apply N.eqb_eq in Hd.
  split; [lia|]. split; [done|]. exists v0. split; [done|]. split; [done|]. split; [done|].
  unfold variant_payload in E3. destruct (evn_payload_offset v0) as [po|], (evn_payload_size v0) as [ps|]; try done.
  - right. exists po, ps. destruct (N.ltb_spec 0 ps); [|done]. res_inv E3. apply checked_add_some in E1 as [-> _].
    apply orb_false_iff in E2 as [E2 _]. apply N.ltb_ge in E2. injection E3 as <-. done.
  - left. by injection E3 as <-.
Qed.

Definition enum_blob : DecodedBlob := mkBlob "e" [x01; x00; x07; x08].
Definition enum_table : list EnumVariantSpec :=
  [mkVariant "None" 0 None None; mkVariant "Some" 1 (Some 2%N) (Some 2%N)].

Lemma decode_enum_variant_sound_witness :
  decode_enum_variant enum_blob 0 2 enum_table 64 = Ok (mkDE 1 "Some" (Some [x07; x08])) /\
  exists v, In v enum_table /\ evn_discriminant v = 1%N.
Proof.
  split; [vm_compute; reflexivity|].
  destruct (decode_enum_variant_sound enum_blob 0 2 enum_table 64 (mkDE 1 "Some" (Some [x07; x08])))
    as (_ & _ & v & Hv & Hd & _); [reflexivity|vm_compute; reflexivity|]. exists v. split; [exact Hv|exact Hd].
Defined.
