(* ===== verification/Runtime.v ===== *)
(** * The capture runtime

    [crates/detrix-ebpf/src/runtime.rs]: the lifecycle of a capture (created,
    prepared, attached, active, draining, detached or failed), its record
    counters, and the live path from a raw record to decoded fields. *)

From Stdlib Require Import Strings.String Strings.Ascii Init.Byte.
From S2P Require Import Prelude RustStr CapturePlan Wire Decode.

Local Open Scope string_scope.
Local Arguments String.append !_ _ / : simpl nomatch.

Inductive RuntimeState : Type := Created | Prepared | Attached | Active | Draining | Detached | Failed.
#[export] Instance RuntimeState_eq_dec : EqDecision RuntimeState.
Proof. solve_decision. Defined.

Record RuntimeCounters : Type := mkCounters {
  records_seen : N;
  records_decoded : N;
  decode_drops : N;
  unavailable_fields : N;
  kernel_drops : N;
  transport_drops : N
}.
Definition zero_counters : RuntimeCounters := mkCounters 0 0 0 0 0 0.

Inductive RuntimeError : Type :=
| RtMissingIdentity
| RtEmptyPlan
| RtInvalidPlan (msg : string)
| RtInvalidPayload (actual required limit : N)
| RtInvalidTransition (from to : RuntimeState)
| RtNotActive (s : RuntimeState)
| RtStalePlan (expected_profile actual_profile expected_plan actual_plan : string)
| RtEnvelope (e : EnvelopeError)
| RtDecode (e : ScalarDecodeError)
| RtCounterInvariant (decoded dropped : N)
| RtForwardingInvariant (decoded forwarded transport : N).

Definition counters_validate (c : RuntimeCounters) : result unit RuntimeError :=
  if negb (records_seen c =? u64_saturating_add (records_decoded c) (decode_drops c))%N
  then Err (RtCounterInvariant (records_decoded c) (decode_drops c)) else Ok tt.

Definition validate_reconciliation (c : RuntimeCounters) (forwarded transport : N) : result unit RuntimeError :=
  let? _ := counters_validate c in
  if negb (records_decoded c =? u64_saturating_add forwarded transport)%N
  then Err (RtForwardingInvariant (records_decoded c) forwarded transport) else Ok tt.

Record Runtime : Type := mkRuntime {
  rt_profile_id : string;
  rt_plan_hash : string;
  rt_fields : list ScalarFieldSpec;
  rt_max_payload : N;
  rt_state : RuntimeState;
  rt_counters : RuntimeCounters
}.

Definition with_state (rt : Runtime) (s : RuntimeState) : Runtime :=
  mkRuntime (rt_profile_id rt) (rt_plan_hash rt) (rt_fields rt) (rt_max_payload rt) s (rt_counters rt).
Definition with_counters (rt : Runtime) (c : RuntimeCounters) : Runtime :=
  mkRuntime (rt_profile_id rt) (rt_plan_hash rt) (rt_fields rt) (rt_max_payload rt) (rt_state rt) c.

Definition overlap_any (ranges : list (N * N)) (r : N * N) : bool := existsb (overlapping r) ranges.

(** The loop over the fields of [ProfiledCaptureRuntime::new]. *)
Fixpoint check_scalar_fields (max_payload : N) (ranges : list (N * N)) (fields : list ScalarFieldSpec) : result unit RuntimeError :=
  match fields with
  | [] => Ok tt
  | f :: rest =>
      if str_is_empty (trim (sfs_name f)) || (sfs_size f =? 0)%N
      then Err (RtInvalidPlan ("invalid scalar field '" ++ sfs_name f ++ "': empty name or size")) else
      let? end_ := ok_or (usize_add (sfs_offset f) (sfs_size f)) (RtInvalidPlan "field offset overflow") in
      if (max_payload <? end_)%N then Err (RtInvalidPlan ("field '" ++ sfs_name f ++ "' exceeds payload limit"))
      else match decode_scalar (sfs_kind f) (repeat x00 (N.to_nat (sfs_size f))) with
      | None => Err (RtInvalidPlan ("field '" ++ sfs_name f ++ "' has unsupported scalar width " ++ show_N (sfs_size f)))
      | Some _ =>
          if overlap_any ranges (sfs_offset f, end_)
          then Err (RtInvalidPlan ("field '" ++ sfs_name f ++ "' overlaps another field"))
          else check_scalar_fields max_payload (ranges ++ [(sfs_offset f, end_)]) rest
      end
  end.

Definition runtime_new (profile_id plan_hash : string) (fields : list ScalarFieldSpec) (max_payload : N) : result Runtime RuntimeError :=
  if str_is_empty (trim profile_id) || str_is_empty (trim plan_hash) then Err RtMissingIdentity
  else if (lenN fields =? 0)%N then Err RtEmptyPlan
  else if ((MAX_CAPTURE_FIELDS <? lenN fields) || (max_payload =? 0) || (MAX_CAPTURE_PAYLOAD_BYTES <? max_payload))%N
  then Err (RtInvalidPlan "capture bounds exceed the negotiated limit")
  else
    let? _ := check_scalar_fields max_payload [] fields in
    Ok (mkRuntime profile_id plan_hash fields max_payload Created zero_counters).

(** ** Lifecycle *)

Definition transition (from to : RuntimeState) (rt : Runtime) : Runtime * result unit RuntimeError :=
  if bool_decide (rt_state rt = from) then (with_state rt to, Ok tt)
  else (rt, Err (RtInvalidTransition (rt_state rt) to)).

Definition prepare : Runtime -> Runtime * result unit RuntimeError := transition Created Prepared.
Definition attach : Runtime -> Runtime * result unit RuntimeError := transition Prepared Attached.
Definition activate : Runtime -> Runtime * result unit RuntimeError := transition Attached Active.
Definition drain : Runtime -> Runtime * result unit RuntimeError := transition Active Draining.
Definition detach (rt : Runtime) : Runtime * result unit RuntimeError :=
  match rt_state rt with
  | Attached | Active | Draining => (with_state rt Detached, Ok tt)
  | Detached => (rt, Ok tt)
  | s => (rt, Err (RtInvalidTransition s Detached))
  end.
Definition fail (rt : Runtime) : Runtime := with_state rt Failed.

(** ** Counters *)

Definition record_kernel_drops (count : N) (rt : Runtime) : Runtime :=
  let c := rt_counters rt in
  with_counters rt (mkCounters (records_seen c) (records_decoded c) (decode_drops c) (unavailable_fields c)
                      (u64_saturating_add (kernel_drops c) count) (transport_drops c)).
Definition record_transport_drops (count : N) (rt : Runtime) : Runtime :=
  let c := rt_counters rt in
  with_counters rt (mkCounters (records_seen c) (records_decoded c) (decode_drops c) (unavailable_fields c)
                      (kernel_drops c) (u64_saturating_add (transport_drops c) count)).
Definition record_unavailable_fields (count : N) (rt : Runtime) : Runtime :=
  let c := rt_counters rt in
  with_counters rt (mkCounters (records_seen c) (records_decoded c) (decode_drops c)
                      (u64_saturating_add (unavailable_fields c) count) (kernel_drops c) (transport_drops c)).

(** ** Records *)

Definition required_len (rt : Runtime) : N :=
  fold_right (fun f m => N.max (N.min (2 ^ 64 - 1) (sfs_offset f + sfs_size f)) m) 0%N (rt_fields rt).

Definition encode_payload (rt : Runtime) (payload : list byte) (partial : bool) : result (list byte) RuntimeError :=
  if ((lenN payload <? required_len rt) || (rt_max_payload rt <? lenN payload))%N
  then Err (RtInvalidPayload (lenN payload) (required_len rt) (rt_max_payload rt))
  else
    let e := envelope_new (rt_profile_id rt) (rt_plan_hash rt) (wrap 16 (lenN (rt_fields rt))) (lenN payload) in
    let e := mkEnv (env_schema_version e) (env_profile_id e) (env_plan_hash e) (env_field_count e)
               (env_payload_len e) partial (env_unavailable e) in
    map_err RtEnvelope (encode_record e payload (rt_max_payload rt)).

Definition rt_decode_record (rt : Runtime) (record : list byte) : result (list DecodedScalar) RuntimeError :=
  let? (envelope, payload) := map_err RtEnvelope (decode_record record (rt_max_payload rt)) in
  if negb (String.eqb (env_profile_id envelope) (rt_profile_id rt)) || negb (String.eqb (env_plan_hash envelope) (rt_plan_hash rt))
  then Err (RtStalePlan (rt_profile_id rt) (env_profile_id envelope) (rt_plan_hash rt) (env_plan_hash envelope))
  else map_err RtDecode (decode_scalar_record envelope payload (rt_fields rt) (rt_max_payload rt)).

Definition current_partial (rt : Runtime) (record : list byte) : bool :=
  match decode_record record (rt_max_payload rt) with Ok (e, _) => env_partial e | Err _ => false end.

Definition ingest (rt : Runtime) (record : list byte) : Runtime * result (list DecodedScalar) RuntimeError :=
  if negb (bool_decide (rt_state rt = Active)) then (rt, Err (RtNotActive (rt_state rt)))
  else
    let c := rt_counters rt in
    let seen := u64_saturating_add (records_seen c) 1 in
    match rt_decode_record rt record with
    | Ok values =>
        let unavailable := if current_partial rt record then wrap 64 (unavailable_fields c + 1) else unavailable_fields c in
        (with_counters rt (mkCounters seen (wrap 64 (records_decoded c + 1)) (decode_drops c) unavailable
                             (kernel_drops c) (transport_drops c)), Ok values)
    | Err error =>
        (with_counters rt (mkCounters seen (records_decoded c) (wrap 64 (decode_drops c + 1)) (unavailable_fields c)
                             (kernel_drops c) (transport_drops c)), Err error)
    end.

(** ** The machine as a step relation *)

Inductive rt_op : Type :=
| OPrepare | OAttach | OActivate | ODrain | ODetach | OFail
| OKernelDrops (n : N) | OTransportDrops (n : N) | OUnavailable (n : N)
| OIngest (record : list byte).

Definition apply_op (op : rt_op) (rt : Runtime) : Runtime :=
  match op with
  | OPrepare => fst (prepare rt) | OAttach => fst (attach rt) | OActivate => fst (activate rt)
  | ODrain => fst (drain rt) | ODetach => fst (detach rt) | OFail => fail rt
  | OKernelDrops n => record_kernel_drops n rt | OTransportDrops n => record_transport_drops n rt
  | OUnavailable n => record_unavailable_fields n rt
  | OIngest record => fst (ingest rt record)
  end.

Definition run (ops : list rt_op) (rt : Runtime) : Runtime := fold_left (fun r op => apply_op op r) ops rt.

(** ** Accounting *)

Definition accounted (k : N) (c : RuntimeCounters) : Prop :=
  records_seen c = (records_decoded c + decode_drops c)%N /\ (records_seen c <= k)%N.

Lemma accounted_step op rt k :
  (k + 1 < 2 ^ 64)%N -> accounted k (rt_counters rt) -> accounted (k + 1) (rt_counters (apply_op op rt)).
Proof.
  unfold accounted. intros Hk [Hs Hle].
  assert (forall s r, accounted (k + 1) (rt_counters (fst (if bool_decide (rt_state rt = s) then (with_state rt r, Ok tt) else (rt, Err (RtInvalidTransition (rt_state rt) r)) : Runtime * result unit RuntimeError))))
    as Ht by (intros; case_bool_decide; unfold accounted; cbn; lia).
  destruct op; cbn [apply_op]; try apply Ht.
  - unfold detach. destruct (rt_state rt); cbn; lia.
  - cbn. lia.
  - cbn. lia.
  - cbn. lia.
  - cbn. lia.
  - unfold ingest. case_bool_decide; cbn [negb]; [|cbn; lia].
    destruct (rt_decode_record rt record); cbn; unfold u64_saturating_add; rewrite wrap_small; lia.
Qed.

Lemma accounted_run ops rt k :
  (k + lenN ops < 2 ^ 64)%N -> accounted k (rt_counters rt) -> accounted (k + lenN ops) (rt_counters (run ops rt)).
Proof.
  revert rt k. induction ops as [|op ops IH]; intros rt k Hk Hc; cbn [run fold_left].
  - rewrite lenN_nil, N.add_0_r. done.
  - rewrite lenN_cons in *. replace (k + (1 + lenN ops))%N with (k + 1 + lenN ops)%N by lia.
    apply IH; [lia|]. apply accounted_step; [lia|done].
Qed.

Lemma runtime_new_inv p h fs mp rt :
  runtime_new p h fs mp = Ok rt ->
  rt = mkRuntime p h fs mp Created zero_counters /\ check_scalar_fields mp [] fs = Ok tt /\
  trim h <> EmptyString /\ (0 < lenN fs <= MAX_CAPTURE_FIELDS)%N /\ (0 < mp <= MAX_CAPTURE_PAYLOAD_BYTES)%N.
Proof.
  unfold runtime_new. intros H. res_inv H. injection H as <-. destruct v.
  apply orb_false_iff in E as [_ E]. apply orb_false_iff in E1 as [[E1 E4]%orb_false_iff E5].
  apply N.eqb_neq in E0, E4. apply N.ltb_ge in E1, E5.
  repeat split; try done; try lia. intros Hx. by rewrite Hx in E.
Qed.

(** No record is lost from the accounts. Whatever sequence of lifecycle
    calls, drop reports and records a runtime goes through (fewer than 2^64 of
    them), every record it has seen is counted once as decoded or dropped, and
    the runtime's own consistency check passes. *)
Theorem runtime_accounting p h fs mp rt ops :
  runtime_new p h fs mp = Ok rt -> (lenN ops < 2 ^ 64)%N ->
  let c := rt_counters (run ops rt) in
  records_seen c = (records_decoded c + decode_drops c)%N /\ (records_seen c <= lenN ops)%N /\ counters_validate c = Ok tt.
Proof.
  intros (-> & _)%runtime_new_inv Hlen.
  destruct (accounted_run ops (mkRuntime p h fs mp Created zero_counters) 0) as [Hs Hle]; [lia|split; cbn; lia|].
  cbn zeta. rewrite N.add_0_l in Hle. split; [exact Hs|]. split; [exact Hle|].
  unfold counters_validate, u64_saturating_add. rewrite N.min_r by lia. by rewrite Hs, N.eqb_refl.
Qed.

Definition demo_fields : list ScalarFieldSpec := [mkSFS "n" 0 2 SSigned].

Lemma runtime_accounting_witness :
  exists rt, runtime_new "go" "h" demo_fields 8 = Ok rt /\
    records_seen (rt_counters (run [OPrepare; OAttach; OActivate; OIngest [x00]] rt)) = 1%N /\
    counters_validate (rt_counters (run [OPrepare; OAttach; OActivate; OIngest [x00]] rt)) = Ok tt.
Proof.
  eexists. split; [vm_compute; reflexivity|]. split; [vm_compute; reflexivity|].
  apply (runtime_accounting "go" "h" demo_fields 8); vm_compute; reflexivity.
Defined.

(** ** Lifecycle *)

Definition stage (s : RuntimeState) : N :=
  match s with Created => 0 | Prepared => 1 | Attached => 2 | Active => 3 | Draining => 4 | Detached => 5 | Failed => 6 end.

Lemma apply_op_stage op rt : (stage (rt_state rt) <= stage (rt_state (apply_op op rt)))%N.
Proof.
  destruct op; cbn [apply_op]; unfold prepare, attach, activate, drain, transition, detach, ingest;
    try (case_bool_decide as E; cbn; [rewrite E|]; cbn; lia); try (destruct (rt_state rt) eqn:E; cbn; rewrite ?E; cbn; lia).
  - destruct (negb _); [done|]. by destruct (rt_decode_record rt record).
Qed.

Lemma run_stage ops rt : (stage (rt_state rt) <= stage (rt_state (run ops rt)))%N.
Proof.
  revert rt. induction ops as [|op ops IH]; intros rt; cbn [run fold_left]; [done|].
  etransitivity; [apply (apply_op_stage op)|apply IH].
Qed.

(** A capture never goes back. Every operation keeps the lifecycle stage or
    moves it forward, so a detached or failed runtime is never active again,
    and outside the active stage a record is refused and changes nothing, the
    counters included. *)
Theorem runtime_lifecycle ops rt :
  (stage (rt_state rt) <= stage (rt_state (run ops rt)))%N /\
  ((stage Active < stage (rt_state rt))%N -> forall record,
     ingest (run ops rt) record = (run ops rt, Err (RtNotActive (rt_state (run ops rt))))).
Proof.
  split; [apply run_stage|]. intros Hs record. pose proof (run_stage ops rt) as Hm. unfold ingest.
  rewrite bool_decide_false; [done|]. intros E. rewrite E in Hm. lia.
Qed.

(** ** The live path *)

Definition same_config (rt rt' : Runtime) : Prop :=
  rt_profile_id rt = rt_profile_id rt' /\ rt_plan_hash rt = rt_plan_hash rt' /\
  rt_fields rt = rt_fields rt' /\ rt_max_payload rt = rt_max_payload rt'.

Lemma apply_op_config op rt : same_config rt (apply_op op rt).
Proof.
  destruct op; cbn [apply_op]; unfold prepare, attach, activate, drain, transition, detach, ingest;
    repeat (case_bool_decide || case_match); done.
Qed.

Lemma run_config ops rt : same_config rt (run ops rt).
Proof.
  revert rt. induction ops as [|op ops IH]; intros rt; cbn [run fold_left]; [done|].
  specialize (IH (apply_op op rt)). pose proof (apply_op_config op rt) as H. unfold same_config in *.
  destruct_and!. repeat split; etransitivity; eauto.
Qed.

(** Only the number of bytes decides whether a scalar decodes. *)
Lemma decode_scalar_width kind a b :
  length a = length b -> is_Some (decode_scalar kind a) -> is_Some (decode_scalar kind b).
Proof.
  unfold decode_scalar. intros ->. destruct kind, (length b) as [|[|[|[|[|[|[|[|[|?]]]]]]]]]; intros [? ?]; try done; eauto.
Qed.

Lemma check_scalar_fields_ok mp ranges fs :
  check_scalar_fields mp ranges fs = Ok tt ->
  Forall (fun f => trim (sfs_name f) <> EmptyString /\ (0 < sfs_size f)%N /\ (sfs_offset f + sfs_size f <= mp)%N /\
            is_Some (decode_scalar (sfs_kind f) (repeat x00 (N.to_nat (sfs_size f))))) fs.
Proof.
  revert ranges. induction fs as [|f fs IH]; intros ranges H; [constructor|]. cbn [check_scalar_fields] in H.
  destruct (str_is_empty (trim (sfs_name f))) eqn:En; [done|]. destruct (N.eqb_spec (sfs_size f) 0); [done|]. cbn [orb] in H.
  apply res_bind_ok in H as (end_ & [-> _]%ok_or_ok%checked_add_some & H).
  destruct (N.ltb_spec mp (sfs_offset f + sfs_size f)); [done|].
  destruct (decode_scalar (sfs_kind f) _) eqn:Ed; [|done]. destruct (overlap_any _ _); [done|].
  constructor; [|by eapply IH]. split; [intros Hx; by rewrite Hx in En|]. split; [lia|]. split; [lia|]. eauto.
Qed.

Lemma required_len_le fs payload_len :
  (fold_right (fun f m => N.max (N.min (2 ^ 64 - 1) (sfs_offset f + sfs_size f)) m) 0 fs <= payload_len)%N ->
  (payload_len < 2 ^ 64 - 1)%N -> Forall (fun f => sfs_offset f + sfs_size f <= payload_len)%N fs.
Proof.
  induction fs as [|f fs IH]; intros H Hp; [constructor|]. cbn in H. constructor; [lia|]. apply IH; lia.
Qed.

(** What the runtime reads for a field of the payload. *)
Definition field_value (payload : list byte) (f : ScalarFieldSpec) : option DecodedScalar :=
  mkDS (sfs_name f) <$> decode_scalar (sfs_kind f) (slice payload (sfs_offset f) (sfs_size f)).

Lemma length_slice (payload : list byte) off len : (off + len <= lenN payload)%N -> length (slice payload off len) = N.to_nat len.
Proof. intros H. pose proof (lenN_slice payload off len H) as Hl. unfold lenN in Hl. lia. Qed.

Lemma fields_decode (payload : list byte) fs :
  Forall (fun f => is_Some (decode_scalar (sfs_kind f) (repeat x00 (N.to_nat (sfs_size f))))) fs ->
  Forall (fun f => sfs_offset f + sfs_size f <= lenN payload)%N fs ->
  exists ds, Forall2 (fun f d => field_value payload f = Some d) fs ds.
Proof.
  induction fs as [|f fs IH]; intros H1 H2; [by exists []|].
  apply List.Forall_cons_iff in H1 as [H1 H1'], H2 as [H2 H2']. destruct (IH H1' H2') as [ds Hds].
  assert (is_Some (decode_scalar (sfs_kind f) (slice payload (sfs_offset f) (sfs_size f)))) as [v Hv].
  { eapply decode_scalar_width; [|exact H1]. by rewrite repeat_length, length_slice. }
  exists (mkDS (sfs_name f) v :: ds). constructor; [|done]. unfold field_value. by rewrite Hv.
Qed.

(** What a probe records is what the runtime reports. For a runtime that
    was accepted at creation and is active, every payload it can encode comes
    back from [ingest] as all the planned fields, in order, each with the value
    of its own bytes, and the record is counted as decoded. *)
Theorem runtime_record_roundtrip p h fs mp rt0 ops payload partial record :
  runtime_new p h fs mp = Ok rt0 -> str_wf p = true -> str_wf h = true ->
  rt_state (run ops rt0) = Active -> encode_payload (run ops rt0) payload partial = Ok record ->
  exists ds, snd (ingest (run ops rt0) record) = Ok ds /\
    Forall2 (fun f d => field_value payload f = Some d) fs ds /\
    records_decoded (rt_counters (fst (ingest (run ops rt0) record))) = wrap 64 (records_decoded (rt_counters (run ops rt0)) + 1).
Proof.
  intros (-> & Hfs & Hh & Hcount & Hmp)%runtime_new_inv Wp Wh Hact Henc.
  pose proof (run_config ops (mkRuntime p h fs mp Created zero_counters)) as (Cp & Ch & Cf & Cm). cbn in Cp, Ch, Cf, Cm.
  set (rt := run ops _) in *. clearbody rt. apply check_scalar_fields_ok in Hfs.
  unfold encode_payload in Henc. destruct (N.ltb_spec (lenN payload) (required_len rt)) as [|Hreq]; [done|].
  destruct (N.ltb_spec (rt_max_payload rt) (lenN payload)) as [|Hmax]; [done|]. cbn [orb] in Henc.
  apply map_err_ok in Henc. unfold MAX_CAPTURE_PAYLOAD_BYTES, MAX_CAPTURE_FIELDS in *.
  assert (Hwl : wrap 32 (lenN payload) = lenN payload) by (apply wrap_small; lia).
  assert (Hwf : wrap 16 (lenN (rt_fields rt)) = lenN (rt_fields rt)) by (apply wrap_small; rewrite <- Cf; lia).
  set (e := mkEnv _ _ _ _ _ _ _) in Henc.
  pose proof (proj1 (encode_record_ok _ _ _ _) Henc) as (Hpl & Hval & _).
  assert (Hdec : decode_record record (rt_max_payload rt) = Ok (e, payload)).
  { apply encode_then_decode; [|exact Henc]. unfold e. cbn. rewrite Hwl, Hwf, <- Cp, <- Ch, <- Cf.
    unfold envelope_typed. cbn [env_schema_version env_field_count env_payload_len env_profile_id env_plan_hash].
    split; [done|]. split; [lia|]. split; [lia|]. done. }
  unfold required_len in Hreq. rewrite <- Cf in Hreq. apply required_len_le in Hreq; [|lia].
  destruct (fields_decode payload fs) as [ds Hds].
  { eapply Forall_impl; [|exact Hfs]. cbn. tauto. } { done. }
  assert (Hsc : decode_scalar_record e payload (rt_fields rt) (rt_max_payload rt) = Ok ds).
  { apply decode_scalar_record_ok. split; [done|]. split; [unfold e; cbn; by rewrite Hwf|]. split; [done|].
    rewrite <- Cf. clear -Hds Hfs Hreq. induction Hds as [|f d fs ds Hd Hds IH]; constructor.
    - inversion_clear Hfs as [|? ? (Hn & Hs & _) _]. inversion_clear Hreq as [|? ? Hr _]. unfold field_value in Hd.
      destruct (decode_scalar (sfs_kind f) _) eqn:E; [|done]. injection Hd as <-. done.
    - inversion_clear Hfs. inversion_clear Hreq. by apply IH. }
  assert (Hrt : rt_decode_record rt record = Ok ds).
  { unfold rt_decode_record. rewrite Hdec. cbn [map_err res_bind]. unfold e at 1 2. cbn [env_profile_id env_plan_hash envelope_new].
    rewrite !String.eqb_refl. cbn [negb orb]. fold e. by rewrite Hsc. }
  exists ds. unfold ingest. rewrite bool_decide_true by done. cbn [negb]. rewrite Hrt. cbn. done.
Qed.

(** A record of another plan is never decoded: it is refused as stale and
    counted as a drop, whatever its payload. *)
Theorem runtime_rejects_stale_plan rt record e payload :
  rt_state rt = Active -> decode_record record (rt_max_payload rt) = Ok (e, payload) ->
  (env_profile_id e, env_plan_hash e) <> (rt_profile_id rt, rt_plan_hash rt) ->
  snd (ingest rt record) = Err (RtStalePlan (rt_profile_id rt) (env_profile_id e) (rt_plan_hash rt) (env_plan_hash e)) /\
  decode_drops (rt_counters (fst (ingest rt record))) = wrap 64 (decode_drops (rt_counters rt) + 1).
Proof.
  intros Hact Hdec Hne. unfold ingest. rewrite bool_decide_true by done. cbn [negb].
  assert (rt_decode_record rt record = Err (RtStalePlan (rt_profile_id rt) (env_profile_id e) (rt_plan_hash rt) (env_plan_hash e))) as ->; [|done].
  unfold rt_decode_record. rewrite Hdec. cbn [map_err res_bind].
  destruct (String.eqb_spec (env_profile_id e) (rt_profile_id rt)), (String.eqb_spec (env_plan_hash e) (rt_plan_hash rt)); cbn; try done.
  congruence.
Qed.

Definition demo_runtime : Runtime :=
  mkRuntime "go" "h" demo_fields 8 Active zero_counters.

Lemma runtime_record_roundtrip_witness :
  exists record ds, encode_payload demo_runtime [xfe; xff] false = Ok record /\
    snd (ingest demo_runtime record) = Ok ds /\ Forall2 (fun f d => field_value [xfe; xff] f = Some d) demo_fields ds.
Proof.
  destruct (runtime_record_roundtrip "go" "h" demo_fields 8 (mkRuntime "go" "h" demo_fields 8 Created zero_counters)
              [OPrepare; OAttach; OActivate] [xfe; xff] false
              (match encode_payload demo_runtime [xfe; xff] false with Ok r => r | Err _ => [] end))
    as (ds & H1 & H2 & _); [vm_compute; reflexivity..|].
  eexists. exists ds. split; [vm_compute; reflexivity|]. split; [exact H1|exact H2].
Defined.

Lemma runtime_rejects_stale_plan_witness :
  exists record, snd (ingest demo_runtime record) = Err (RtStalePlan "go" "rust" "h" "h").
Proof.
  exists (match encode_record (mkEnv 1 "rust" "h" 1 2 false false) [xfe; xff] 8 with Ok r => r | Err _ => [] end).
  apply (runtime_rejects_stale_plan demo_runtime _ (mkEnv 1 "rust" "h" 1 2 false false) [xfe; xff]);
    [reflexivity|vm_compute; reflexivity|discriminate].
Defined.
