(* ===== verification/TypeInfo.v ===== *)
(** * Types of captured variables

    The data of [crates/detrix-ebpf/src/dwarf/typeinfo.rs] (what is known of a
    variable's type), [nested_types.rs] (the type tree user space follows when it
    decodes a value), [types.rs] (sizes, resolved variables, probe points), and
    the functions of these files and of [slice_types.rs] that work on names and
    sizes.  Reading a type out of the debug information is the business of the
    gimli library and is not modelled: type trees are inputs here.

    Names are the strings of their bytes; the characters the scanners look for
    are ASCII, and no byte of a longer UTF-8 sequence equals one, so scanning
    bytes is scanning characters. *)

From Stdlib Require Import Strings.String Strings.Ascii Init.Byte.
From S2P Require Import Prelude RustStr Dwarf.

Local Open Scope string_scope.
Local Arguments String.append !_ _ / : simpl nomatch.

(** ** Sizes *)

Inductive VariableSize : Type := SByte | SWord | SDWord | SQWord.

Definition size_bytes (s : VariableSize) : N :=
  match s with SByte => 1 | SWord => 2 | SDWord => 4 | SQWord => 8 end.

Definition from_byte_size (size : N) : option VariableSize :=
  match size with
  | 1%N => Some SByte
  | 2%N => Some SWord
  | 4%N => Some SDWord
  | 8%N => Some SQWord
  | _ => None
  end.

(** ** Type information *)

Record EnumVariantLayout : Type := mkEVL {
  evl_name : string;
  evl_discriminant : option Z;          (* i128 *)
  evl_payload_offset : option N;
  evl_payload_size : option N
}.

Record EnumLayout : Type := mkEL {
  el_discriminant_offset : N;
  el_discriminant_size : N;
  el_variants : list EnumVariantLayout;
  el_niche : bool
}.

Definition is_explicit_non_niche (l : EnumLayout) : bool :=
  negb (el_niche l)
  && existsb (N.eqb (el_discriminant_size l)) [1; 2; 4; 8]%N
  && (2 <=? lenN (el_variants l))%N
  && forallb (fun v => bool_decide (is_Some (evl_discriminant v))) (el_variants l).

Record TypeInfo : Type := mkTI {
  ti_name : string;
  ti_size : VariableSize;
  ti_byte_size : N;
  ti_is_pointer : bool;
  ti_is_string : bool;
  ti_is_slice : bool;
  ti_is_array : bool;
  ti_is_struct : bool;
  ti_is_map : bool;
  ti_is_enum : bool;
  ti_array_element_count : N;
  ti_array_element_type : string;
  ti_slice_element_type : string;
  ti_element_byte_size : N;
  ti_enum_layout : option EnumLayout
}.

(** [TypeInfo::unknown] *)
Definition unknown_type : TypeInfo :=
  mkTI "unknown" SQWord 8 false false false false false false false 0 EmptyString EmptyString 0 None.

(** ** Type trees *)

Definition MAX_DEPTH : N := 32.

Record StructFieldOf (T : Type) : Type := mkSF {
  sf_name : string;
  sf_type_info : TypeInfo;
  sf_byte_offset : N;
  sf_byte_size : N;
  sf_nested_type : option T
}.
Arguments mkSF {_}.
Arguments sf_name {_}.
Arguments sf_type_info {_}.
Arguments sf_byte_offset {_}.
Arguments sf_byte_size {_}.
Arguments sf_nested_type {_}.

Inductive NestedType : Type :=
| NScalar (ti : TypeInfo)
| NStruct (ti : TypeInfo) (fields : list (StructFieldOf NestedType)) (depth : N)
| NArray (ti : TypeInfo) (element_type : NestedType) (count : option N)
| NMap (ti : TypeInfo) (key_type value_type : NestedType)
| NPointer (ti : TypeInfo) (pointee : NestedType)
| NInterface (ti : TypeInfo) (concrete_type : option string)
| NUnsupported (ti : TypeInfo) (reason : string).

Definition StructField : Type := StructFieldOf NestedType.

Definition nested_type_info (n : NestedType) : TypeInfo :=
  match n with
  | NScalar t | NStruct t _ _ | NArray t _ _ | NMap t _ _ | NPointer t _ | NInterface t _ | NUnsupported t _ => t
  end.
Definition nested_depth (n : NestedType) : N := match n with NStruct _ _ d => d | _ => 0 end.
Definition should_recurse (n : NestedType) (max_depth : N) : bool := (nested_depth n <? max_depth)%N.
Definition nested_name (n : NestedType) : string := ti_name (nested_type_info n).

(** How deep a type tree is: what bounds the recursion of its readers. *)
Fixpoint nested_height (n : NestedType) : nat :=
  match n with
  | NStruct _ fields _ =>
      S (fold_right (fun f m => Nat.max match sf_nested_type f with Some t => nested_height t | None => O end m) O fields)
  | NArray _ e _ => S (nested_height e)
  | NMap _ k v => S (Nat.max (nested_height k) (nested_height v))
  | NPointer _ p => S (nested_height p)
  | NScalar _ | NInterface _ _ | NUnsupported _ _ => O
  end.
Definition opt_height (o : option NestedType) : nat := match o with Some t => nested_height t | None => O end.
Definition fields_height (fields : list StructField) : nat :=
  fold_right (fun f m => Nat.max (opt_height (sf_nested_type f)) m) O fields.

Lemma nested_height_struct ti fields d : nested_height (NStruct ti fields d) = S (fields_height fields).
Proof. reflexivity. Qed.

Lemma field_height_le fields f : f ∈ fields -> (opt_height (sf_nested_type f) <= fields_height fields)%nat.
Proof.
  induction 1 as [f' l | f' g l _ IH]; cbn [fields_height fold_right]; [lia|].
  fold (fields_height l). lia.
Qed.

(** ** Names and sizes *)

(** [typeinfo.rs] *)
Definition is_rust_string_name (name : string) : bool :=
  existsb (String.eqb name) ["String"; "alloc::string::String"; "std::string::String"].

Definition is_rust_slice_name (name : string) : bool :=
  String.eqb name "&str" || String.eqb name "&mut str" || starts_with "&[" name || starts_with "&mut [" name
  || starts_with "Vec<" name || starts_with "alloc::vec::Vec<" name || starts_with "std::vec::Vec<" name.

Definition is_rust_hash_map_name (name : string) : bool :=
  contains "HashMap<" name || contains "hash::map::HashMap<" name.

Definition is_go_string_name (name : string) : bool :=
  let lower := to_lowercase name in
  String.eqb lower "string" || ends_with "string" lower || contains "/string" lower || contains ".string" lower.

Definition is_go_string_type_by_name_and_size (name linkage_name : string) (byte_size : N) : bool :=
  if (byte_size =? 16)%N then
    if String.eqb name "string" || String.eqb name "basic/string" || contains "/string" name || contains "runtime.string" linkage_name
    then true
    else if is_go_string_name name then true
    else false
  else false.

Definition is_go_string_type (name : string) : bool := String.eqb name "string".
Definition is_go_slice_type (name : string) : bool := starts_with "[]" name.
Definition is_go_bool_type (name : string) : bool := String.eqb name "bool".

Definition infer_array_byte_size (dwarf_byte_size element_count element_byte_size : N) (element_size : VariableSize) : N :=
  if negb (dwarf_byte_size =? 0)%N then dwarf_byte_size
  else let total := (element_count * N.max element_byte_size (size_bytes element_size))%N in
       if (total <? 2 ^ 64)%N then total else 0.

(** [nested_types.rs] *)
Definition known_go_type_byte_size (name : string) : N :=
  if String.eqb name "string" then 16
  else if existsb (String.eqb name) ["bool"; "int8"; "uint8"; "byte"] then 1
  else if existsb (String.eqb name) ["int16"; "uint16"] then 2
  else if existsb (String.eqb name) ["int32"; "uint32"; "float32"; "rune"] then 4
  else if existsb (String.eqb name) ["int"; "int64"; "uint"; "uint64"; "uintptr"; "float64"; "complex64"; "error"] then 8
  else if String.eqb name "complex128" then 16
  else if starts_with "*" name then 8
  else if starts_with "[]" name then 24
  else 8.

(** [slice_types.rs] *)
Definition estimate_element_size (type_name : string) : N :=
  if existsb (String.eqb type_name) ["int"; "int64"; "uint64"; "float64"] then 8
  else if existsb (String.eqb type_name) ["int32"; "uint32"; "float32"] then 4
  else if existsb (String.eqb type_name) ["int16"; "uint16"] then 2
  else if existsb (String.eqb type_name) ["int8"; "uint8"; "byte"] then 1
  else if String.eqb type_name "bool" then 1
  else if String.eqb type_name "string" then 16
  else if existsb (String.eqb type_name) ["uintptr"; "unsafe.Pointer"] then 8
  else 8.

(** The loop of [split_map_type_name] over the text after [map[]: the key ends
    at the bracket that closes the one of [map[].  The result is what lies before
    and after it. *)
Fixpoint split_bracket (depth : N) (s : string) : option (string * string) :=
  match s with
  | EmptyString => None
  | String c r =>
      if Ascii.eqb c "[" then '(k, v) ← split_bracket (depth + 1) r; Some (String c k, v)
      else if Ascii.eqb c "]" then
        if (depth - 1 =? 0)%N then Some (EmptyString, r)
        else '(k, v) ← split_bracket (depth - 1) r; Some (String c k, v)
      else '(k, v) ← split_bracket depth r; Some (String c k, v)
  end.

(** Its loop over the text between the angle brackets.  [depth -= 1] on a
    [usize] wraps in a release build. *)
Fixpoint split_comma (depth : N) (s : string) : option (string * string) :=
  match s with
  | EmptyString => None
  | String c r =>
      if Ascii.eqb c "<" || Ascii.eqb c "[" then
        '(k, v) ← split_comma (wrap 64 (depth + 1)) r; Some (String c k, v)
      else if Ascii.eqb c ">" || Ascii.eqb c "]" then
        '(k, v) ← split_comma (wrap 64 (depth + (2 ^ 64 - 1))) r; Some (String c k, v)
      else if Ascii.eqb c "," && (depth =? 0)%N then Some (EmptyString, r)
      else '(k, v) ← split_comma depth r; Some (String c k, v)
  end.

Fixpoint trim_end_char (c : ascii) (s : string) : string :=
  match s with
  | EmptyString => EmptyString
  | String d r =>
      let r' := trim_end_char c r in
      if Ascii.eqb d c && str_is_empty r' then EmptyString else String d r'
  end.

Definition split_map_type_name (s : string) : option (string * string) :=
  match strip_prefix "map[" s with
  | Some inner => split_bracket 1 inner
  | None =>
      match strip_prefix "map<" s with
      | Some inner => '(k, v) ← split_comma 0 (trim_end_char ">" inner); Some (k, trim_start v)
      | None => None
      end
  end.

Definition infer_nested_from_map_name (type_name : string) (component : N) : NestedType :=
  match split_map_type_name type_name with
  | None => NScalar unknown_type
  | Some (key_name, val_name) =>
      let name := if (component =? 0)%N then key_name else val_name in
      let size := known_go_type_byte_size name in
      NScalar (mkTI name (default SQWord (from_byte_size size)) size (starts_with "*" name) (String.eqb name "string")
        (starts_with "[]" name) false (contains "." name && negb (starts_with "*" name) && negb (starts_with "[]" name))
        (starts_with "map[" name) false 0 EmptyString EmptyString 0 None)
  end.

(** The scanners of [rust_container_element_name] and [rust_map_type_arguments]:
    angle brackets nest, a comma at the top level always ends the scan, a closing
    bracket there ends it when [stop] says so. *)
Fixpoint scan_argument (stop : bool) (depth : N) (s : string) : option (string * string) :=
  match s with
  | EmptyString => None
  | String c r =>
      if Ascii.eqb c "<" then '(k, v) ← scan_argument stop (depth + 1) r; Some (String c k, v)
      else if Ascii.eqb c ">" && (0 <? depth)%N then '(k, v) ← scan_argument stop (depth - 1) r; Some (String c k, v)
      else if Ascii.eqb c "," && (depth =? 0)%N then Some (EmptyString, r)
      else if stop && Ascii.eqb c ">" && (depth =? 0)%N then Some (EmptyString, r)
      else '(k, v) ← scan_argument stop depth r; Some (String c k, v)
  end.

Definition strip_suffix_ascii (c : ascii) (s : string) : option string :=
  match str_rev s with String d r => if Ascii.eqb d c then Some (str_rev r) else None | EmptyString => None end.

Definition rust_container_element_name (name : string) : option string :=
  match (match strip_prefix "&[" name with Some i => Some i | None => strip_prefix "&mut [" name end) with
  | Some inner => trim <$> strip_suffix_ascii "]" inner
  | None =>
      '(_, rest) ← split_once "<" name;
      '(arg, _) ← scan_argument true 0 rest;
      Some (trim arg)
  end.

Definition rust_map_type_arguments (name : string) : option (string * string) :=
  '(_, rest) ← split_once "<" name;
  '(key, rest) ← scan_argument false 0 rest;
  let value := trim rest in
  let value := match scan_argument true 0 value with Some (v, _) => v | None => value end in
  Some (trim key, trim value).

(** ** Variables *)

Section SplitMap.

(** What may stand between the brackets of [map[]: text whose brackets match. *)
Fixpoint bracket_depth (d : N) (s : string) : option N :=
  match s with
  | EmptyString => Some d
  | String c r =>
      if Ascii.eqb c "[" then bracket_depth (d + 1) r
      else if Ascii.eqb c "]" then if (d =? 0)%N then None else bracket_depth (d - 1) r
      else bracket_depth d r
  end.

Lemma split_bracket_balanced k v d d' :
  bracket_depth d k = Some d' ->
  split_bracket (1 + d) (k ++ v) = ('(k', r) ← split_bracket (1 + d') v; Some (k ++ k', r)).
Proof.
  revert d. induction k as [|c k IH]; intros d Hd.
  - cbn in Hd. injection Hd as ->. cbn [String.append]. destruct (split_bracket (1 + d') v) as [[? ?]|]; reflexivity.
  - cbn [bracket_depth] in Hd. cbn [String.append split_bracket].
    destruct (Ascii.eqb c "[") eqn:E1; [|destruct (Ascii.eqb c "]") eqn:E2].
    + replace (1 + d + 1)%N with (1 + (d + 1))%N by lia. rewrite (IH _ Hd).
      destruct (split_bracket (1 + d') v) as [[? ?]|]; reflexivity.
    + destruct (N.eqb_spec d 0) as [->|Hn]; [done|].
      replace (1 + d - 1)%N with (1 + (d - 1))%N by lia.
      rewrite (proj2 (N.eqb_neq (1 + (d - 1)) 0)) by lia. rewrite (IH _ Hd).
      destruct (split_bracket (1 + d') v) as [[? ?]|]; reflexivity.
    + rewrite (IH _ Hd). destruct (split_bracket (1 + d') v) as [[? ?]|]; reflexivity.
Qed.

(** A Go map type whose key has matching brackets is split into its key and its
    value, whatever nests inside the key. *)
Theorem split_map_type_name_go key value :
  bracket_depth 0 key = Some 0%N -> split_map_type_name ("map[" ++ key ++ "]" ++ value) = Some (key, value).
Proof.
  intros Hk. unfold split_map_type_name. rewrite strip_prefix_app.
  change 1%N with (1 + 0)%N. rewrite (split_bracket_balanced _ _ _ _ Hk). cbn -[N.sub N.add N.eqb]. change (1 + 0 - 1 =? 0)%N with true. cbn.
  by rewrite str_app_nil_r.
Qed.

Lemma split_map_type_name_go_witness :
  split_map_type_name "map[[4]int]map[string]bool" = Some ("[4]int", "map[string]bool").
Proof. apply (split_map_type_name_go "[4]int" "map[string]bool"). reflexivity. Defined.

End SplitMap.
