(* ===== verification/MemReader.v ===== *)
(** * Reading the memory of the observed process

    [crates/detrix-ebpf/src/mem_reader.rs] and [error.rs].  The trait
    [ProcessMemoryReader] is a record of operations; [linux_reader] is
    [LinuxProcessMemoryReader] above three system interfaces: whether [/proc/PID]
    exists, the system call [process_vm_readv] and the file [/proc/PID/mem].

    What decoders need of a reader is the class [FaithfulReader]: a mapped range
    reads as its bytes.  The Linux reader has it when the system call has
    ([linux_reader_faithful]). *)

From Stdlib Require Import Strings.String Strings.Ascii Init.Byte.
From S2P Require Import Prelude RustStr.

Local Open Scope string_scope.

(** ** Errors *)

Inductive EbpfError : Type :=
| EDwarfParse (s : string)
| EMissingDebugInfo (s : string)
| EVariableNotFound (s : string)
| EPlanRejected (s : string)
| EVerifierRejected (s : string)
| EAttachFailed (s : string)
| EEbpf (s : string)
| ERingBuffer (s : string)
| EDecodeFailed (s : string)
| ETargetExited (s : string)
| EUnsupportedAbi (s : string)
| EUnsupportedProfile (s : string)
| EAdapter (s : string)
| EIo (s : string)
| EGimli (s : string)
| EInvalidBinaryPath (s : string).

Definition ebpf_error_text (e : EbpfError) : string :=
  match e with
  | EDwarfParse s => "DWARF parse error: " ++ s
  | EMissingDebugInfo s => "Missing debug info: " ++ s
  | EVariableNotFound s => "Variable not found: " ++ s
  | EPlanRejected s => "Capture plan rejected: " ++ s
  | EVerifierRejected s => "eBPF verifier rejected: " ++ s
  | EAttachFailed s => "uprobe attach failed: " ++ s
  | EEbpf s => "eBPF error: " ++ s
  | ERingBuffer s => "Ring buffer error: " ++ s
  | EDecodeFailed s => "event decode failed: " ++ s
  | ETargetExited s => "target exited: " ++ s
  | EUnsupportedAbi s => "unsupported ABI: " ++ s
  | EUnsupportedProfile s => "unsupported profile: " ++ s
  | EAdapter s => "Adapter error: " ++ s
  | EIo s => "I/O error: " ++ s
  | EGimli s => "DWARF library error: " ++ s
  | EInvalidBinaryPath s => "Invalid binary path: " ++ s
  end.

(** [{:#x}] of a [u64] *)
Definition hex_digit_char (d : N) : ascii := if (d <? 10)%N then ascii_of_N (48 + d) else ascii_of_N (87 + d).
Fixpoint hex_go (fuel : nat) (n : N) (acc : string) : string :=
  match fuel with
  | O => acc
  | S f => let acc' := String (hex_digit_char (n mod 16)) acc in
           if (n / 16 =? 0)%N then acc' else hex_go f (n / 16)%N acc'
  end.
Definition hex_prefixed (n : N) : string := "0x" ++ hex_go 16 n EmptyString.

(** ** The trait *)

Record MemReader : Type := mkReader {
  mr_read_string : N -> N -> N -> result string EbpfError;
  mr_read_bytes : N -> N -> N -> result (list byte) EbpfError;
  mr_read_u64 : N -> N -> result N EbpfError
}.

(** ** The Linux reader *)

(** What the kernel offers.  [vm_readv pid addr len] is the system call: the bytes
    it delivered, or the text of its error; it may deliver fewer than [len].
    [proc_mem] is opening, seeking and reading [/proc/PID/mem].  [utf8_error] is
    the text of a failed UTF-8 conversion. *)
Record Kernel : Type := mkKernel {
  k_pid_exists : N -> bool;
  k_vm_readv : N -> N -> N -> result (list byte) string;
  k_proc_mem : N -> N -> N -> result (list byte) string;
  k_utf8_error : list byte -> string
}.

Section Linux.
Context (k : Kernel).

Definition process_vm_read (pid addr len : N) : result (list byte) EbpfError :=
  match k_vm_readv k pid addr len with
  | Err e => Err (EEbpf ("process_vm_readv failed: " ++ e))
  | Ok [] => Err (EEbpf "process_vm_readv returned 0 (address may be invalid)")
  | Ok buf => Ok (take (N.to_nat len) buf)
  end.

Definition read_proc_mem (pid addr len : N) : result (list byte) EbpfError :=
  match k_proc_mem k pid addr len with
  | Err e => Err (EEbpf e)
  | Ok buf => Ok (take (N.to_nat len) buf)
  end.

(** The check both attempts of [read_string] make on what they read: a string of
    zeros counts as a failed read. *)
Definition nonzero_text (len : N) (buf : list byte) : option (result string EbpfError) :=
  let actual_len := N.min (lenN buf) len in
  if (0 <? actual_len)%N && existsb (fun b => negb (N_of_byte b =? 0)%N) buf
  then let text := take (N.to_nat actual_len) buf in
       Some (match from_utf8 text with
             | Some s => Ok s
             | None => Err (EDwarfParse ("Invalid UTF-8 in string: " ++ k_utf8_error k text))
             end)
  else None.

Definition linux_read_string (pid ptr len : N) : result string EbpfError :=
  if negb (k_pid_exists k pid) then
    Err (EEbpf ("Process " ++ show_N pid ++ " has exited — cannot read string at " ++ hex_prefixed ptr))
  else
    let read_len := N.min len 1024 in
    let attempt r := match r with Ok buf => nonzero_text len buf | Err _ => None end in
    match attempt (process_vm_read pid ptr read_len) with
    | Some answer => answer
    | None =>
        match attempt (read_proc_mem pid ptr read_len) with
        | Some answer => answer
        | None => Err (EEbpf ("Failed to read string from pid=" ++ show_N pid ++ " ptr=" ++ hex_prefixed ptr ++ " len=" ++ show_N len))
        end
    end.

Definition linux_read_bytes (pid ptr len : N) : result (list byte) EbpfError :=
  if negb (k_pid_exists k pid) then
    Err (EEbpf ("Process " ++ show_N pid ++ " has exited — cannot read bytes at " ++ hex_prefixed ptr))
  else match process_vm_read pid ptr len with
  | Ok buf => Ok buf
  | Err _ => read_proc_mem pid ptr len
  end.

Definition linux_read_u64 (pid ptr : N) : result N EbpfError :=
  let? bytes := linux_read_bytes pid ptr 8 in
  if (lenN bytes <? 8)%N then Err (EEbpf ("read_u64: only got " ++ show_N (lenN bytes) ++ " bytes"))
  else Ok (of_le (take 8 bytes)).

Definition linux_reader : MemReader := mkReader linux_read_string linux_read_bytes linux_read_u64.
End Linux.

(** ** Process images *)

(** The memory of a process: which addresses are mapped, and to what. *)
Definition image : Type := N -> option byte.

Fixpoint img_bytes (img : image) (addr : N) (len : nat) : option (list byte) :=
  match len with
  | O => Some []
  | S n => b ← img addr; r ← img_bytes img (addr + 1) n; Some (b :: r)
  end.
Definition img_read (img : image) (addr len : N) : option (list byte) := img_bytes img addr (N.to_nat len).
Definition img_u64 (img : image) (addr : N) : option N := of_le <$> img_read img addr 8.

Definition some_nonzero (bytes : list byte) : bool := existsb (fun b => negb (N_of_byte b =? 0)%N) bytes.

(** A reader that shows process [pid] as [img]. *)
Class FaithfulReader (mr : MemReader) (pid : N) (img : image) : Prop := {
  fr_bytes addr len bytes : (0 < len)%N -> img_read img addr len = Some bytes -> mr_read_bytes mr pid addr len = Ok bytes;
  fr_u64 addr v : img_u64 img addr = Some v -> mr_read_u64 mr pid addr = Ok v;
  fr_string addr len bytes s : (0 < len <= 1024)%N -> img_read img addr len = Some bytes -> some_nonzero bytes = true ->
    from_utf8 bytes = Some s -> mr_read_string mr pid addr len = Ok s
}.

Lemma img_bytes_length img addr n bytes : img_bytes img addr n = Some bytes -> length bytes = n.
Proof.
  revert addr bytes. induction n as [|n IH]; intros addr bytes; cbn.
  - intros [= <-]. done.
  - destruct (img addr) as [b|]; [|done]. cbn. destruct (img_bytes img (addr + 1) n) as [r|] eqn:E; [|done].
    cbn. intros [= <-]. cbn. f_equal. eauto.
Qed.

Lemma img_read_len img addr len bytes : img_read img addr len = Some bytes -> lenN bytes = len.
Proof. unfold img_read, lenN. intros H%img_bytes_length. lia. Qed.

Lemma img_bytes_app img addr n m :
  img_bytes img addr (n + m) =
    (x ← img_bytes img addr n; y ← img_bytes img (addr + N.of_nat n) m; Some (x ++ y)%list).
Proof.
  revert addr. induction n as [|n IH]; intros addr; cbn [img_bytes Nat.add].
  - rewrite N.add_0_r. cbn. destruct (img_bytes img addr m); done.
  - destruct (img addr) as [b|]; [|done]. cbn. rewrite IH.
    replace (addr + 1 + N.of_nat n)%N with (addr + N.of_nat (S n))%N by lia.
    destruct (img_bytes img (addr + 1) n) as [x|]; [|done]. cbn.
    by destruct (img_bytes img (addr + N.of_nat (S n)) m).
Qed.

Lemma img_read_app img addr n m x y :
  img_read img addr n = Some x -> img_read img (addr + n) m = Some y -> img_read img addr (n + m) = Some (x ++ y)%list.
Proof.
  unfold img_read. intros Hx Hy. rewrite N2Nat.inj_add, img_bytes_app, Hx. cbn. rewrite N2Nat.id, Hy. done.
Qed.

Lemma img_read_prefix img addr n m l :
  img_read img addr (n + m) = Some l -> img_read img addr n = Some (take (N.to_nat n) l).
Proof.
  unfold img_read. rewrite N2Nat.inj_add, img_bytes_app.
  destruct (img_bytes img addr (N.to_nat n)) as [x|] eqn:E; [|done]. cbn.
  destruct (img_bytes img (addr + N.of_nat (N.to_nat n)) (N.to_nat m)) as [y|]; [|done]. cbn. intros [= <-].
  apply img_bytes_length in E. by rewrite <- E, take_app_length.
Qed.

(** ** The Linux reader is faithful *)

(** What [process_vm_readv] documents: a read that lies in mapped memory of a
    running process delivers all of it. *)
Record shows (k : Kernel) (pid : N) (img : image) : Prop := {
  sh_alive : k_pid_exists k pid = true;
  sh_readv addr len bytes : img_read img addr len = Some bytes -> k_vm_readv k pid addr len = Ok bytes
}.

Section Faithful.
Context (k : Kernel) (pid : N) (img : image) (Hk : shows k pid img).

Lemma process_vm_read_mapped addr len bytes :
  (0 < len)%N -> img_read img addr len = Some bytes -> process_vm_read k pid addr len = Ok bytes.
Proof.
  intros Hl Hr. unfold process_vm_read. rewrite (sh_readv _ _ _ Hk _ _ _ Hr).
  pose proof (img_read_len _ _ _ _ Hr) as Hlen.
  destruct bytes as [|b bytes]; [unfold lenN in Hlen; cbn in Hlen; lia|]. rewrite firstn_all2; [done|]. unfold lenN in Hlen. lia.
Qed.

Lemma linux_read_bytes_mapped addr len bytes :
  (0 < len)%N -> img_read img addr len = Some bytes -> linux_read_bytes k pid addr len = Ok bytes.
Proof.
  intros Hl Hr. unfold linux_read_bytes. rewrite (sh_alive _ _ _ Hk). cbn.
  by rewrite (process_vm_read_mapped _ _ _ Hl Hr).
Qed.

#[export] Instance linux_reader_faithful : FaithfulReader (linux_reader k) pid img.
Proof.
  constructor; cbn.
  - apply linux_read_bytes_mapped.
  - intros addr v Hv. unfold img_u64 in Hv. destruct (img_read img addr 8) as [bytes|] eqn:E; [|done].
    injection Hv as <-. unfold linux_read_u64. rewrite (linux_read_bytes_mapped addr 8 bytes); [|lia|done]. cbn.
    pose proof (img_read_len _ _ _ _ E) as Hl. rewrite Hl. cbn.
    rewrite firstn_all2; [done|]. unfold lenN in Hl. lia.
  - intros addr len bytes s Hl Hr Hz Hs. unfold linux_read_string. rewrite (sh_alive _ _ _ Hk). cbn.
    rewrite N.min_l by lia. rewrite (process_vm_read_mapped addr len bytes); [|lia|done].
    pose proof (img_read_len _ _ _ _ Hr) as Hlen.
    unfold nonzero_text. rewrite Hlen, N.min_id.
    replace (0 <? len)%N with true by (symmetry; apply N.ltb_lt; lia). fold (some_nonzero bytes). rewrite Hz. cbn.
    rewrite firstn_all2 by (unfold lenN in Hlen; lia). by rewrite Hs.
Qed.
End Faithful.

(** Whatever the process holds, a captured string is never longer than 1024
    bytes, nor than what was asked for. *)
Theorem linux_string_bounded k pid ptr len s :
  linux_read_string k pid ptr len = Ok s -> (str_len s <= N.min len 1024)%N.
Proof.
  unfold linux_read_string. destruct (negb (k_pid_exists k pid)); [done|].
  assert (Hn : forall buf a, nonzero_text k len buf = Some (Ok a) -> (str_len a <= N.min (lenN buf) len)%N).
  { intros buf a. unfold nonzero_text. destruct (_ && _); [|done].
    destruct (from_utf8 _) as [t|] eqn:E; [|done]. intros [= <-].
    unfold from_utf8 in E. destruct (utf8_valid _); [|done]. injection E as <-.
    rewrite <- lenN_as_bytes, as_bytes_of_bytes. unfold lenN. rewrite length_take. lia. }
  assert (Hb : forall buf, process_vm_read k pid ptr (N.min len 1024) = Ok buf -> (lenN buf <= N.min len 1024)%N).
  { intros buf. unfold process_vm_read. destruct (k_vm_readv k pid ptr _) as [[|b l]|]; [done| |done].
    intros [= <-]. unfold lenN. rewrite length_take. lia. }
  assert (Hp : forall buf, read_proc_mem k pid ptr (N.min len 1024) = Ok buf -> (lenN buf <= N.min len 1024)%N).
  { intros buf. unfold read_proc_mem. destruct (k_proc_mem k pid ptr _) as [l|]; [|done].
    intros [= <-]. unfold lenN. rewrite length_take. lia. }
  destruct (process_vm_read k pid ptr _) as [buf|] eqn:E1.
  - destruct (nonzero_text k len buf) as [[a|]|] eqn:E2; [| |].
    + intros [= <-]. specialize (Hb _ eq_refl). specialize (Hn _ _ E2). lia.
    + done.
    + destruct (read_proc_mem k pid ptr _) as [buf2|] eqn:E3; [|done].
      destruct (nonzero_text k len buf2) as [[b|]|] eqn:E4; [|done|done].
      intros [= <-]. specialize (Hp _ eq_refl). specialize (Hn _ _ E4). lia.
  - destruct (read_proc_mem k pid ptr _) as [buf2|] eqn:E3; [|done].
    destruct (nonzero_text k len buf2) as [[b|]|] eqn:E4; [|done|done].
    intros [= <-]. specialize (Hp _ eq_refl). specialize (Hn _ _ E4). lia.
Qed.

Definition flat_kernel (img : image) : Kernel :=
  mkKernel (fun _ => true) (fun _ a n => ok_or (img_read img a n) "EFAULT") (fun _ _ _ => Err "EIO") (fun _ => EmptyString).

Lemma flat_kernel_shows pid img : shows (flat_kernel img) pid img.
Proof. split; [done|]. intros addr len bytes H. cbn. by rewrite H. Qed.

Definition three_letters : image := fun a => if (a <? 3)%N then Some x61 else None.

Lemma linux_string_bounded_witness :
  linux_read_string (flat_kernel three_letters) 7 0 3 = Ok "aaa" /\ (str_len "aaa" <= N.min 3 1024)%N.
Proof.
  assert (H : linux_read_string (flat_kernel three_letters) 7 0 3 = Ok "aaa") by (vm_compute; reflexivity).
  split; [exact H | exact (linux_string_bounded _ _ _ _ _ H)].
Defined.
