(* ===== verification/Policy.v ===== *)
(** * Choosing a backend and lowering a variable

    [crates/detrix-ebpf/src/policy.rs] (backend selection), [pc_selection.rs]
    (which program counter of a line to probe), [profile.rs] (type
    classification and scalar lowering of the Go and Rust profiles),
    [rust_layout.rs] and the name lookup of [registry.rs].  The [Debug] text of
    an unsupported location, used in an error message, is a parameter. *)

From Stdlib Require Import Strings.String Strings.Ascii Init.Byte.
From S2P Require Import Prelude RustStr Dwarf CapturePlan TypeInfo.

Local Open Scope string_scope.
Local Arguments String.append !_ _ / : simpl nomatch.

(** ** Backends *)

Inductive CaptureBackend : Type := BAuto | BDap | BEbpf.
Inductive ProfileId : Type := PGo | PRust.
#[export] Instance CaptureBackend_eq_dec : EqDecision CaptureBackend.
Proof. solve_decision. Defined.
#[export] Instance ProfileId_eq_dec : EqDecision ProfileId.
Proof. solve_decision. Defined.

Definition profile_str (p : ProfileId) : string := match p with PGo => "go" | PRust => "rust" end.

Inductive PreflightError : Type :=
| UnknownBackend (s : string)
| UnsupportedProfile (s : string)
| UnsupportedPlatform
| UnsupportedAbi (s : string)
| MissingDebugInfo (s : string).

Definition backend_parse (value : string) : result CaptureBackend PreflightError :=
  let v := to_ascii_lowercase (trim value) in
  if String.eqb v EmptyString || String.eqb v "auto" then Ok BAuto
  else if String.eqb v "dap" then Ok BDap
  else if String.eqb v "ebpf" then Ok BEbpf
  else Err (UnknownBackend v).

Record BackendDecision : Type := mkDecision {
  bd_requested : CaptureBackend;
  bd_selected : CaptureBackend;
  bd_profile : option ProfileId;
  bd_profile_name : string;
  bd_reason : string
}.

Definition decide_backend (requested selected : CaptureBackend) (profile : ProfileId) (reason : string) : BackendDecision :=
  mkDecision requested selected (Some profile) (profile_str profile) reason.

Definition resolve_backend_with_rust_auto (requested : CaptureBackend) (profile : ProfileId)
    (ebpf_available debug_info_available rust_auto_enabled : bool) : result BackendDecision PreflightError :=
  if bool_decide (requested = BDap) then Ok (decide_backend requested BDap profile "explicit dap")
  else if bool_decide (profile = PRust) && bool_decide (requested = BAuto) && negb rust_auto_enabled then
    Ok (decide_backend requested BDap profile "rust eBPF auto-selection release gate is disabled")
  else if negb ebpf_available then
    if bool_decide (requested = BAuto) then Ok (decide_backend requested BDap profile "eBPF unavailable; auto fell back to DAP")
    else Err UnsupportedPlatform
  else if negb debug_info_available then
    if bool_decide (requested = BAuto) then
      Ok (decide_backend requested BDap profile "usable variable DWARF unavailable; auto fell back to DAP")
    else Err (MissingDebugInfo "usable variable DWARF is required")
  else Ok (decide_backend requested BEbpf profile "eBPF capability preflight passed").

Definition resolve_backend (requested : CaptureBackend) (profile : ProfileId) (ebpf_available debug_info_available : bool)
    : result BackendDecision PreflightError :=
  resolve_backend_with_rust_auto requested profile ebpf_available debug_info_available false.

(** [builtin_profile_id] of the registry *)
Definition builtin_profile_id (profile : string) : option ProfileId :=
  let v := to_ascii_lowercase (trim profile) in
  if String.eqb v "go" then Some PGo else if String.eqb v "rust" then Some PRust else None.

(** Backend selection honours the request. [dap] is always granted; [ebpf]
    is granted exactly when the platform and the debug information allow it and
    is otherwise refused, never silently replaced; [auto] never fails, and
    selects eBPF exactly when both are available and, for Rust, the release
    gate is open. *)
Theorem backend_selection requested profile ebpf dwarf gate :
  match requested with
  | BDap => exists d, resolve_backend_with_rust_auto requested profile ebpf dwarf gate = Ok d /\ bd_selected d = BDap
  | BEbpf =>
      if ebpf && dwarf then exists d, resolve_backend_with_rust_auto requested profile ebpf dwarf gate = Ok d /\ bd_selected d = BEbpf
      else exists e, resolve_backend_with_rust_auto requested profile ebpf dwarf gate = Err e
  | BAuto =>
      exists d, resolve_backend_with_rust_auto requested profile ebpf dwarf gate = Ok d /\
        (bd_selected d = BEbpf <-> ebpf = true /\ dwarf = true /\ (profile = PRust -> gate = true)) /\
        (bd_selected d = BEbpf \/ bd_selected d = BDap)
  end.
Proof.
  destruct requested, profile, ebpf, dwarf, gate; cbn; eexists; repeat split; try reflexivity; naive_solver.
Qed.

(** ** Program counters *)

Section PcSelection.
Context {T : Type}.
Record PcCandidate : Type := mkPc { pc_pc : N; pc_value : T; pc_available : N; pc_requested : N }.

Definition pc_complete (c : PcCandidate) : bool := (pc_available c =? pc_requested c)%N.

Definition pc_replaces (candidate current : PcCandidate) : bool :=
  (pc_available current <? pc_available candidate)%N
  || (pc_complete candidate && negb (pc_complete current))
  || ((pc_available candidate =? pc_available current)%N && (pc_pc candidate <? pc_pc current)%N).

Definition select_step (best : option PcCandidate) (candidate : PcCandidate) : option PcCandidate :=
  match best with
  | None => Some candidate
  | Some current => if pc_replaces candidate current then Some candidate else Some current
  end.

Definition select_best (candidates : list PcCandidate) : option PcCandidate := fold_left select_step candidates None.

(** [a] is at least as good as [b]: more fields, or as many at no later PC. *)
Definition pc_better (a b : PcCandidate) : Prop :=
  (pc_available b < pc_available a \/ pc_available b = pc_available a /\ pc_pc a <= pc_pc b)%N.

Definition pc_wf (q : N) (c : PcCandidate) : Prop := pc_requested c = q /\ (pc_available c <= q)%N.

Lemma select_step_better q best c r :
  pc_wf q c -> (forall b, best = Some b -> pc_wf q b) -> select_step best c = Some r ->
  pc_wf q r /\ pc_better r c /\ (forall b, best = Some b -> pc_better r b) /\ (r = c \/ best = Some r).
Proof.
  intros [Hc1 Hc2] Hb. unfold select_step. destruct best as [b|].
  - destruct (Hb b eq_refl) as [Hb1 Hb2]. unfold pc_replaces, pc_complete.
    destruct (N.ltb_spec (pc_available b) (pc_available c)); cbn [orb].
    { intros [= <-]. unfold pc_wf, pc_better. repeat split; try done; [right; lia|intros ? [= <-]; lia|by left]. }
    destruct (N.eqb_spec (pc_available c) (pc_requested c)), (N.eqb_spec (pc_available b) (pc_requested b)); try (exfalso; lia);
      cbn [andb orb negb]; destruct (N.eqb_spec (pc_available c) (pc_available b)), (N.ltb_spec (pc_pc c) (pc_pc b)); cbn [andb];
      intros [= <-]; unfold pc_wf, pc_better; repeat split; try done; try lia; try (intros ? [= <-]; lia); auto.
  - intros [= <-]. unfold pc_wf, pc_better. repeat split; try done; [right; lia|by left].
Qed.

Lemma select_best_fold q l best :
  Forall (pc_wf q) l -> (forall b, best = Some b -> pc_wf q b) ->
  match fold_left select_step l best with
  | None => l = [] /\ best = None
  | Some r => pc_wf q r /\ (In r l \/ best = Some r) /\ Forall (pc_better r) l /\ (forall b, best = Some b -> pc_better r b)
  end.
Proof.
  revert best. induction l as [|c l IH]; intros best Hl Hb; cbn [fold_left].
  - destruct best as [b|]; [|done]. split; [by apply Hb|]. split; [by right|]. split; [constructor|].
    intros ? [= <-]. right. lia.
  - apply List.Forall_cons_iff in Hl as [Hc Hl].
    destruct (select_step best c) as [r|] eqn:E; [|unfold select_step in E; repeat case_match; done].
    destruct (select_step_better q best c r Hc Hb E) as (Hr & Hrc & Hrb & Hor).
    specialize (IH (Some r) Hl ltac:(intros ? [= <-]; done)). destruct (fold_left select_step l (Some r)) as [r'|]; [|naive_solver].
    destruct IH as (Hr' & Hin & Hall & Hle). specialize (Hle r eq_refl). split; [done|].
    split; [cbn; destruct Hin as [|[= <-]]; [by auto|naive_solver]|].
    split; [constructor; [|done]|intros b Eb; specialize (Hrb b Eb)]; unfold pc_better in *; lia.
Qed.
End PcSelection.
Arguments PcCandidate : clear implicits.

(** The probe point chosen on a line is the best one: among candidates that
    were asked for the same variables, a member of the list that exposes the
    most of them, and the earliest program counter among those; there is always
    one when the list is not empty. *)
Theorem select_best_optimal {T : Type} (q : N) (l : list (PcCandidate T)) :
  Forall (pc_wf q) l ->
  match select_best l with
  | Some r => In r l /\ Forall (pc_better r) l
  | None => l = []
  end.
Proof.
  intros Hl. pose proof (select_best_fold q l None Hl ltac:(done)) as H. unfold select_best.
  destruct (fold_left _ l None) as [r|]; [|by destruct H]. destruct H as (_ & [Hin|] & Hall & _); done.
Qed.

Lemma select_best_optimal_witness :
  select_best [mkPc 16 tt 1 2; mkPc 32 tt 2 2; mkPc 24 tt 2 2] = Some (mkPc 24 tt 2 2) /\
  Forall (pc_better (mkPc 24 tt 2 2)) [mkPc 16 tt 1 2; mkPc 32 tt 2 2; mkPc 24 tt 2 2].
Proof.
  split; [reflexivity|].
  apply (select_best_optimal 2 [mkPc 16 tt 1 2; mkPc 32 tt 2 2; mkPc 24 tt 2 2]).
  repeat constructor; cbn; lia.
Defined.

(** ** Type classification *)

Inductive TypeDescriptor : Type :=
| TScalar (size : N) | TPointer (size : N) | TStringHeader (size : N) | TSliceHeader (size : N)
| TStruct (size : N) | TArray (element_size count : N) | TEnum (size : N) | TOpaqueBytes (size : N).

Definition go_classify_type (name : string) (byte_size : N) : TypeDescriptor :=
  if String.eqb name "string" then TOpaqueBytes byte_size else TScalar byte_size.

Definition slice_prefixes : list string :=
  ["&["; "&mut ["; "&str"; "&mut str"; "slice::"; "Vec<"; "alloc::vec::Vec"; "std::vec::Vec"].

Definition rust_classify_type (name : string) (byte_size : N) : TypeDescriptor :=
  let normalized := trim name in
  if existsb (String.eqb normalized) ["String"; "alloc::string::String"; "std::string::String"] then TStringHeader byte_size
  else if existsb (fun p => starts_with p normalized) slice_prefixes then TSliceHeader byte_size
  else if starts_with "*" normalized || starts_with "&" normalized then TPointer byte_size
  else if starts_with "[" normalized then TArray 1 byte_size
  else if starts_with "enum " normalized then TEnum byte_size
  else TScalar byte_size.

(** [rust_layout::infer] *)
Inductive RustLayoutContract : Type :=
| NicheOption (pointer_offset word_size : N)
| TraitObject (data_offset vtable_offset word_size : N)
| AsyncState (state_offset state_size : N).

Definition strip_suffix_char (c : ascii) (s : string) : option string :=
  match str_rev s with String d r => if Ascii.eqb d c then Some (str_rev r) else None | EmptyString => None end.

Definition pointer_like (inner : string) : bool :=
  existsb (fun p => starts_with p inner)
    ["&"; "*const "; "*mut "; "Box<"; "alloc::boxed::Box<"; "NonNull<"; "core::ptr::NonNull<"; "Arc<"; "Rc<"].

Definition infer_layout (name : string) (byte_size : N) : option RustLayoutContract :=
  let normalized := trim name in
  let is_option := existsb (fun p => starts_with p normalized) ["Option<"; "core::option::Option<"; "std::option::Option<"] in
  let inner := default EmptyString ('(_, rest) ← split_once "<" normalized; strip_suffix_char ">" rest) in
  if is_option && ((byte_size =? 8) || (byte_size =? 16))%N && pointer_like inner then Some (NicheOption 0 8)
  else if contains "dyn " normalized && (byte_size =? 16)%N then Some (TraitObject 0 8 8)
  else if (contains "DetrixAsyncState" normalized || contains "detrix::AsyncState" normalized) && (1 <=? byte_size)%N
  then Some (AsyncState 0 1)
  else None.

Definition rust_classify_type_info (t : TypeInfo) : TypeDescriptor :=
  if ti_is_enum t then TEnum (ti_byte_size t)
  else match infer_layout (ti_name t) (ti_byte_size t) with
  | Some _ => TStruct (ti_byte_size t)
  | None =>
      if ti_is_string t then TStringHeader (ti_byte_size t)
      else if ti_is_slice t then TSliceHeader (ti_byte_size t)
      else rust_classify_type (ti_name t) (ti_byte_size t)
  end.

(** A reference to a type whose path starts with [str] (such as
    [&stream::Reader]) is taken for a string slice: the prefix test [&str] has
    no word boundary, so a one-word pointer is read as a fat pointer. *)
Theorem reference_misread_as_slice rest byte_size :
  trim ("&str" ++ rest) = "&str" ++ rest -> rust_classify_type ("&str" ++ rest) byte_size = TSliceHeader byte_size.
Proof.
  intros Ht. unfold rust_classify_type. rewrite Ht. reflexivity.
Qed.

Lemma reference_misread_as_slice_witness : rust_classify_type "&stream::Reader" 8 = TSliceHeader 8.
Proof. apply (reference_misread_as_slice "eam::Reader" 8). vm_compute. reflexivity. Defined.

(** ** Lowering a scalar *)

Record VariablePieceOf (L : Type) : Type := mkVP { vp_location : option L; vp_byte_size : N }.
Inductive VariableLocation : Type :=
| VRegister (r : Register)
| VStackOffset (offset : Z)
| VFrameOffset (register : Register) (offset : Z)
| VGoString (ptr len : VariableLocation)
| VStringHeader (ptr len : VariableLocation)
| VGoSlice (ptr len cap : VariableLocation)
| VSliceHeader (ptr len cap : VariableLocation)
| VStackBlob (offset : Z) (byte_size : N)
| VPiecewiseBlob (pieces : list (VariablePieceOf VariableLocation)) (byte_size : N)
| VStackIndirect (offset : Z) (byte_size : N)
| VGoMap (ptr : VariableLocation).

Definition is_scalar (l : VariableLocation) : bool :=
  match l with VRegister _ | VStackOffset _ | VFrameOffset _ _ => true | _ => false end.
Definition read_count (l : VariableLocation) : N :=
  match l with
  | VRegister _ | VStackOffset _ | VFrameOffset _ _ | VStackBlob _ _ | VStackIndirect _ _ | VGoMap _ => 1
  | VGoString _ _ | VStringHeader _ _ => 2
  | VGoSlice _ _ _ | VSliceHeader _ _ _ => 3
  | VPiecewiseBlob pieces _ => lenN (List.filter (fun p => bool_decide (is_Some (vp_location _ p))) pieces)
  end%N.

Inductive ProfileError : Type :=
| UnsupportedArchitecture (a : TargetArchitecture)
| UnsupportedLocation (msg : string)
| InvalidPlan (e : PlanError).

Definition hex_char (d : N) : ascii := if (d <? 10)%N then ascii_of_N (48 + d) else ascii_of_N (87 + d).
Fixpoint show_hex_go (fuel : nat) (n : N) (acc : string) : string :=
  match fuel with
  | O => acc
  | S f => let acc' := String (hex_char (n mod 16)) acc in
           if (n / 16 =? 0)%N then acc' else show_hex_go f (n / 16)%N acc'
  end.
(** [{:x}] of a [u64]: at most 16 digits. *)
Definition show_hex (n : N) : string := show_hex_go 16 n EmptyString.

Section Lowering.
Context (debug_location : VariableLocation -> string).

Definition architectures : list TargetArchitecture := [X86_64; Aarch64].

Definition single_field_plan (profile plan_hash name : string) (pc : N) (arch : TargetArchitecture) (op : ReadOp) (byte_size : N) : CapturePlan :=
  mkPlan CAPTURE_PLAN_SCHEMA_VERSION arch profile plan_hash pc [mkField name 0 byte_size op] byte_size.

(** The trait's default, used by the Go profile. *)
Definition go_lower_scalar (name : string) (pc : N) (arch : TargetArchitecture) (location : VariableLocation) (byte_size : N)
    : result CapturePlan ProfileError :=
  if negb (existsb (fun a => bool_decide (a = arch)) architectures) then Err (UnsupportedArchitecture arch) else
  let? op := match location with
             | VRegister r => Ok (RRegister r VValue)
             | VStackOffset offset => Ok (RStack offset byte_size VValue)
             | other => Err (UnsupportedLocation (debug_location other ++ " is not a scalar location"))
             end in
  let plan := single_field_plan "go" ("profile:go:pc:" ++ show_hex pc ++ ":" ++ name ++ ":" ++ show_N byte_size)
                name pc arch op byte_size in
  let? _ := map_err InvalidPlan (plan_validate plan) in
  Ok plan.

Definition rust_semantics (name : string) : ValueSemantics :=
  if starts_with "*" (trim_start name) || starts_with "&" (trim_start name) then VAddress else VValue.

Definition rust_lower_scalar (name : string) (pc : N) (arch : TargetArchitecture) (location : VariableLocation) (byte_size : N)
    : result CapturePlan ProfileError :=
  let semantics := rust_semantics name in
  if negb (existsb (fun a => bool_decide (a = arch)) architectures) then Err (UnsupportedArchitecture arch) else
  let? op := match location with
             | VRegister r => Ok (RRegister r semantics)
             | VStackOffset offset => Ok (RStack offset byte_size semantics)
             | VFrameOffset r offset => Ok (RFrame r offset byte_size semantics)
             | VStackIndirect offset _ => Ok (RStack offset byte_size VDerefAddress)
             | other => Err (UnsupportedLocation (debug_location other ++ " is not a Rust scalar/pointer location"))
             end in
  let plan := single_field_plan "rust" ("profile:rust:pc:" ++ show_hex pc ++ ":" ++ name ++ ":" ++ show_N byte_size)
                name pc arch op byte_size in
  let? _ := map_err InvalidPlan (plan_validate plan) in
  Ok plan.

Definition scalar_plan (profile name : string) (pc : N) (register : Register) : result CapturePlan PlanError :=
  let plan := single_field_plan profile ("profile:" ++ profile ++ ":pc:" ++ show_hex pc ++ ":" ++ name)
                name pc X86_64 (RRegister register VValue) 8 in
  let? _ := plan_validate plan in
  Ok plan.

(** Which locations lower to which read. *)
Definition rust_read (name : string) (location : VariableLocation) (byte_size : N) : option ReadOp :=
  match location with
  | VRegister r => Some (RRegister r (rust_semantics name))
  | VStackOffset o => Some (RStack o byte_size (rust_semantics name))
  | VFrameOffset r o => Some (RFrame r o byte_size (rust_semantics name))
  | VStackIndirect o _ => Some (RStack o byte_size VDerefAddress)
  | _ => None
  end.

Lemma rust_read_match name location byte_size :
  match location with
  | VRegister r => Ok (RRegister r (rust_semantics name))
  | VStackOffset offset => Ok (RStack offset byte_size (rust_semantics name))
  | VFrameOffset r offset => Ok (RFrame r offset byte_size (rust_semantics name))
  | VStackIndirect offset _ => Ok (RStack offset byte_size VDerefAddress)
  | other => Err (UnsupportedLocation (debug_location other ++ " is not a Rust scalar/pointer location"))
  end = match rust_read name location byte_size with
        | Some op => Ok op
        | None => Err (UnsupportedLocation (debug_location location ++ " is not a Rust scalar/pointer location"))
        end.
Proof. by destruct location. Qed.

Lemma single_field_plan_ok profile name pc arch op byte_size hash :
  op_depth op = 0%N ->
  plan_validate (single_field_plan profile hash name pc arch op byte_size) = Ok tt <->
  trim profile <> EmptyString /\ trim hash <> EmptyString /\ trim name <> EmptyString /\
  (0 < byte_size <= MAX_CAPTURE_PAYLOAD_BYTES)%N /\ wf_op 1 byte_size op.
Proof.
  intros Hd. rewrite plan_validate_ok. split.
  - intros [_ Hp Hh _ Hm Hn _ _ _ Hw]. cbn in *. inversion_clear Hn. inversion_clear Hw. done.
  - intros (Hp & Hh & Hn & Hm & Hw). constructor; cbn; try done; repeat constructor; cbn; rewrite ?Hd; (done || lia).
Qed.
End Lowering.

(** A lowered Rust scalar is admitted and reads what was asked. Lowering
    succeeds exactly for register, stack, frame and indirect-stack locations of
    a named variable of 1 to 4096 bytes; the plan then has that one field at
    offset 0 and passes admission, and a dereferenced location keeps its own
    semantics (never that of the name). *)
Theorem rust_lower_scalar_spec debug name pc arch location byte_size :
  (forall plan, rust_lower_scalar debug name pc arch location byte_size = Ok plan <->
     exists op, rust_read name location byte_size = Some op /\
       trim name <> EmptyString /\ (0 < byte_size <= MAX_CAPTURE_PAYLOAD_BYTES)%N /\
       plan = single_field_plan "rust" ("profile:rust:pc:" ++ show_hex pc ++ ":" ++ name ++ ":" ++ show_N byte_size)
                name pc arch op byte_size) /\
  (forall plan, rust_lower_scalar debug name pc arch location byte_size = Ok plan -> plan_wf plan).
Proof.
  unfold rust_lower_scalar. assert (existsb (fun a => bool_decide (a = arch)) architectures = true) as -> by by destruct arch.
  cbn [negb]. set (hash := "profile:rust:pc:" ++ _). assert (Hh : trim hash <> EmptyString) by by apply trim_visible_first.
  clearbody hash. rewrite (rust_read_match debug name location byte_size).
  destruct (rust_read name location byte_size) as [op|] eqn:Er; cbn [res_bind]; [|naive_solver].
  assert (op_depth op = 0%N /\ ((0 < byte_size <= MAX_CAPTURE_PAYLOAD_BYTES)%N -> wf_op 1 byte_size op)) as [Hd Hw]
    by (destruct location; cbn in Er; try done; by injection Er as <-).
  split; intros plan; rewrite res_bind_ok; setoid_rewrite map_err_ok.
  - split.
    + intros ([] & Hv & [= <-]). apply single_field_plan_ok in Hv as (_ & _ & Hn & Hm & _); [eauto|done].
    + intros (op' & [= <-] & Hn & Hm & ->). exists tt. split; [|done].
      apply single_field_plan_ok; [done|]. repeat split; try done; try lia. by apply Hw.
  - intros ([] & Hv & [= <-]). by apply plan_validate_ok.
Qed.
