(* ===== verification/ProbeValue.v ===== *)
(** * Captured values and capture limits

    [crates/detrix-ebpf/src/probe/types.rs] (the limits of a capture, captured
    values and their JSON text, probe events) and the variables and probe points
    of [dwarf/types.rs].  A float is its bit pattern; its decimal text
    ([show_f64]) is a parameter.

    The decoders of user space run in [run]: they return, panic, or are still in
    a loop when the fuel given to the loop is spent. *)

From Stdlib Require Import Strings.String Strings.Ascii Init.Byte.
From S2P Require Import Prelude RustStr RustText Dwarf TypeInfo Policy.

Local Open Scope string_scope.

(** ** Capture limits *)

Definition MAX_CAPTURE_VARS : N := 8.
Definition MAX_STRING_CAPTURE : N := 64.
Definition MAX_BLOB_CAPTURE : N := 64.

Record CaptureConfig : Type := mkConfig {
  cc_max_capture_vars : N;
  cc_max_string_capture : N;
  cc_max_blob_capture : N;
  cc_max_capture_depth : N;
  cc_max_struct_fields : Z;          (* i32, negative for no limit *)
  cc_max_array_values : N;
  cc_capture_goid : bool
}.

Definition default_config : CaptureConfig :=
  mkConfig MAX_CAPTURE_VARS MAX_STRING_CAPTURE MAX_BLOB_CAPTURE 2 (-1) 64 false.

Definition config_validate (c : CaptureConfig) : list string :=
  ((if cc_max_capture_vars c =? 0 then ["max_capture_vars must be >= 1"] else [])
   ++ (if 16 <? cc_max_capture_vars c then ["max_capture_vars must be <= 16 (BPF stack limit)"] else [])
   ++ (if cc_max_string_capture c =? 0 then ["max_string_capture must be > 0"]
       else if negb (cc_max_string_capture c mod 8 =? 0)
       then [("max_string_capture must be a multiple of 8, got " ++ show_N (cc_max_string_capture c))%string] else [])
   ++ (if 255 <? cc_max_string_capture c then ["max_string_capture must be <= 255 (BPF verifier bound)"] else [])
   ++ (if cc_max_blob_capture c =? 0 then ["max_blob_capture must be > 0"]
       else if negb (cc_max_blob_capture c mod 8 =? 0)
       then [("max_blob_capture must be a multiple of 8, got " ++ show_N (cc_max_blob_capture c))%string] else [])
   ++ (if 32 <? cc_max_capture_depth c then [("max_capture_depth must be <= 32, got " ++ show_N (cc_max_capture_depth c))%string] else [])
   ++ (if cc_max_array_values c =? 0 then ["max_array_values must be >= 1"] else []))%list%N.

(** What a configuration without errors guarantees. *)
Record config_ok (c : CaptureConfig) : Prop := {
  co_vars : (1 <= cc_max_capture_vars c <= 16)%N;
  co_string : (0 < cc_max_string_capture c <= 255)%N;
  co_string8 : (cc_max_string_capture c mod 8 = 0)%N;
  co_blob : (0 < cc_max_blob_capture c)%N;
  co_blob8 : (cc_max_blob_capture c mod 8 = 0)%N;
  co_depth : (cc_max_capture_depth c <= 32)%N;
  co_array : (1 <= cc_max_array_values c)%N
}.

Theorem config_validate_ok c : config_validate c = [] <-> config_ok c.
Proof.
  unfold config_validate. split.
  - intros H. repeat apply app_eq_nil in H as [? H].
    repeat match goal with
    | H : (if ?b then _ else _) = [] |- _ => destruct b eqn:?; try discriminate H
    end.
    rewrite ?negb_false_iff, ?N.eqb_eq, ?N.eqb_neq, ?N.ltb_ge in *.
    constructor; lia.
  - intros [? ? H8 ? B8 ? ?].
    repeat match goal with
    | |- context [(?a =? 0)%N] => rewrite (proj2 (N.eqb_neq a 0)) by lia
    | |- context [(?a <? ?b)%N] => rewrite (proj2 (N.ltb_ge a b)) by lia
    end.
    rewrite H8, B8. reflexivity.
Qed.

(** ** Values *)

Inductive CapturedValue : Type :=
| CScalar (v : N)
| CFloat (bits : N)
| CString (data : list byte) (len : N)
| CSlice (len cap : N)
| CArray (element_type : string) (elements : list CapturedValue)
| CBytes (b : list byte)
| CStruct (type_name : string) (fields : list (string * CapturedValue))
| CMap (key_type value_type : string) (entries : list (CapturedValue * CapturedValue)) (reason : string)
| CError (msg : string).

Definition value_as_i64 (v : CapturedValue) : option Z := match v with CScalar n => Some (to_signed 64 n) | _ => None end.
Definition value_as_u64 (v : CapturedValue) : option N := match v with CScalar n => Some n | _ => None end.
Definition value_as_f64 (v : CapturedValue) : option N := match v with CScalar n => Some n | CFloat b => Some b | _ => None end.
Definition value_as_bool (v : CapturedValue) : option bool := match v with CScalar n => Some (negb (n =? 0)%N) | _ => None end.
Definition value_as_str (v : CapturedValue) : option string :=
  match v with
  | CString data len => from_utf8 (take (N.to_nat (N.min len (lenN data))) data)
  | _ => None
  end.
Definition slice_len (v : CapturedValue) : option N := match v with CSlice len _ => Some len | _ => None end.
Definition value_as_bytes (v : CapturedValue) : option (list byte) := match v with CBytes b => Some b | _ => None end.

Definition dq : string := String (ascii_of_N 34) EmptyString.
Definition quoted (s : string) : string := dq ++ s ++ dq.
Definition member (name value : string) : string := quoted name ++ ":" ++ value.

Section Json.
Context (show_f64 : N -> string).

Fixpoint to_json_value (v : CapturedValue) (size : VariableSize) : string :=
  match v with
  | CFloat f => show_f64 f
  | CScalar n =>
      match size with
      | SByte => if (n <=? 1)%N then (if negb (n =? 0)%N then "true" else "false") else show_N n
      | SDWord => show_Z (to_signed 32 (wrap 32 n))
      | SQWord => show_Z (to_signed 64 n)
      | SWord => show_Z (to_signed 16 (wrap 16 n))
      end
  | CString data len =>
      let actual_len := N.min len (lenN data) in
      match from_utf8 (take (N.to_nat actual_len) data) with
      | Some s => quoted s
      | None => quoted ("<binary " ++ show_N actual_len ++ " bytes>")
      end
  | CSlice len cap => "{" ++ member "len" (show_N len) ++ "," ++ member "cap" (show_N cap) ++ "}"
  | CArray element_type elements =>
      "{" ++ member "__type" (quoted ("[" ++ show_N (lenN elements) ++ "]" ++ element_type)) ++ ","
      ++ member "elements" ("[" ++ join "," (map (fun e => to_json_value e SQWord) elements) ++ "]") ++ "}"
  | CBytes b => quoted ("0x" ++ hex_lower b)
  | CStruct type_name fields =>
      "{" ++ member "__type" (quoted type_name) ++ ","
      ++ join "," (map (fun f => member (fst f) (to_json_value (snd f) SQWord)) fields) ++ "}"
  | CMap key_type value_type entries reason =>
      let ty := member "__type" (quoted ("map[" ++ key_type ++ "]" ++ value_type)) in
      if match entries with [] => negb (str_is_empty reason) | _ => false end then
        "{" ++ ty ++ "," ++ member "error" (quoted reason) ++ "," ++ member "partial_entries" "0" ++ "}"
      else
        "{" ++ ty ++ ","
        ++ member "entries" ("[" ++ join "," (map (fun e =>
             "{" ++ member "key" (to_json_value (fst e) SQWord) ++ "," ++ member "value" (to_json_value (snd e) SQWord) ++ "}") entries) ++ "]")
        ++ "}"
  | CError msg => quoted ("<error: " ++ msg ++ ">")
  end.

(** Captured text is put between quotes without escaping, so a quote inside it
    ends the JSON string: one field holding crafted text is written exactly like
    two fields. *)
Theorem captured_text_can_forge_fields type_name :
  to_json_value (CStruct type_name [("user", CString (as_bytes ("bob" ++ dq ++ "," ++ dq ++ "admin" ++ dq ++ ":" ++ dq ++ "yes")) 23)]) SQWord
  = to_json_value (CStruct type_name [("user", CString (as_bytes "bob") 3); ("admin", CString (as_bytes "yes") 3)]) SQWord.
Proof. reflexivity. Qed.

(** A struct without fields is written with a comma before its closing brace,
    which is not JSON. *)
Theorem empty_struct_json type_name : to_json_value (CStruct type_name []) SQWord = "{" ++ member "__type" (quoted type_name) ++ ",}".
Proof. cbn [to_json_value map join String.concat]. reflexivity. Qed.
End Json.

(** ** Probe points and events *)

Record ResolvedVariable : Type := mkRV {
  rv_name : string;
  rv_location : VariableLocation;
  rv_size : VariableSize;
  rv_type_name : string;
  rv_nested_type : option NestedType
}.

Record ProbePoint : Type := mkPP {
  pp_binary_path : string;
  pp_pc : N;
  pp_symbol_offset : N;
  pp_function_name : string;
  pp_variables : list ResolvedVariable
}.

Record ProbeEvent : Type := mkPE {
  pe_pid : N;
  pe_tid : N;
  pe_goid : option N;
  pe_timestamp_ns : N;
  pe_values : list CapturedValue
}.

(** Address arithmetic of a release build *)
Definition addr_add (a b : N) : N := wrap 64 (a + b).
Definition addr_mul (a b : N) : N := wrap 64 (a * b).

Lemma addr_add_small a b : (a + b < 2 ^ 64)%N -> addr_add a b = (a + b)%N.
Proof. apply wrap_small. Qed.
Lemma addr_mul_small a b : (a * b < 2 ^ 64)%N -> addr_mul a b = (a * b)%N.
Proof. apply wrap_small. Qed.
