(* ===== verification/MapReader.v ===== *)
(** * Reading maps out of a running process

    [crates/detrix-ebpf/src/probe/map_iter.rs]: the readers of Go maps (the Swiss
    tables of Go 1.24 and the bucket arrays before) and of Rust's [HashMap].  The
    memory reader, the process, the limits and the reader of struct values
    ([parse_struct_fields_from_addr] of [ringbuf.rs], modelled in [StructReader])
    are arguments, and so is the fuel of the two loops whose length the observed
    process controls: the walk along an overflow chain and the walk over a
    directory of tables.

    [MapImage] says what such maps look like in memory and proves that reading one
    returns its entries. *)

From Stdlib Require Import Strings.String Strings.Ascii Init.Byte.
From S2P Require Import Prelude RustStr Decode TypeInfo MemReader ProbeValue.

Local Open Scope string_scope.

(** ** Helpers *)

Definition le_bytes_to_u64 (data : list byte) : result N string :=
  if (lenN data =? 8)%N then Ok (of_le data) else Err ("expected 8 bytes, got " ++ show_N (lenN data)).
Definition le_bytes_to_i64 (data : list byte) : result Z string :=
  if (lenN data =? 8)%N then Ok (to_signed 64 (of_le data)) else Err ("expected 8 bytes, got " ++ show_N (lenN data)).

Definition SLOTS_PER_GROUP : N := 8.
Definition CTRL_EMPTY : byte := x80.
Definition CTRL_DELETED : byte := xfe.
Definition BUCKET_COUNT : N := 8.
Definition HASH_TOPHASH_EMPTY_ONE_GO112 : N := 1.
Definition HASH_MIN_TOPHASH_GO112 : N := 5.

(** The table is that of [TypeInfo.known_go_type_byte_size]. *)
Definition known_type_byte_size (name : string) : N := known_go_type_byte_size name.

Definition is_rust_owned_string_name (name : string) : bool :=
  String.eqb name "String" || String.eqb name "alloc::string::String" || String.eqb name "std::string::String"
  || ends_with "::String" name.

Definition slot_type_size_fallback (nested : option NestedType) (type_name : string) : N :=
  let by_size n :=
    let s := ti_byte_size (nested_type_info n) in
    if (0 <? s)%N then s else known_type_byte_size (nested_name n) in
  match nested with
  | Some (NScalar ti) =>
      if ti_is_string ti || String.eqb (ti_name ti) "string" then if is_rust_owned_string_name (ti_name ti) then 24 else 16
      else by_size (NScalar ti)
  | Some n => by_size n
  | None => known_type_byte_size type_name
  end.

Definition align_of (size : N) : N :=
  match size with 0 | 1 => 1 | 2 => 2 | 3 | 4 => 4 | _ => 8 end%N.

Definition div_ceil (n d : N) : N := (n / d + if (n mod d =? 0) then 0 else 1)%N.
Definition align_up (n align : N) : N := if (align =? 0)%N then n else addr_mul (div_ceil n align) align.

Definition compute_slot_layout (key_nested val_nested : option NestedType) (key_type val_type : string) : N * N :=
  let key_size := slot_type_size_fallback key_nested key_type in
  let val_size := slot_type_size_fallback val_nested val_type in
  let key_align := align_of key_size in
  let val_align := align_of val_size in
  let slot_align := N.max key_align val_align in
  let val_offset := align_up key_size val_align in
  let slot_size := align_up (addr_add val_offset val_size) slot_align in
  (val_offset, slot_size).

(** [read_le_u64]: at most eight bytes, the missing ones zero *)
Definition read_le_u64 (bytes : list byte) (size : N) : N :=
  of_le (take (N.to_nat (N.min (N.min size 8) (lenN bytes))) bytes).

Definition nested_name_or_unknown (n : option NestedType) : string :=
  match n with Some n => nested_name n | None => "unknown" end.

Definition entry : Type := (CapturedValue * CapturedValue)%type.

Section Reader.
Context (mr : MemReader) (pid : N) (config : CaptureConfig).
Context (parse_struct : N -> string -> NestedType -> run (result CapturedValue EbpfError)).
Context (fuel : nat).

(** ** Slots *)

Definition read_raw_bytes (addr size : N) : CapturedValue :=
  match mr_read_bytes mr pid addr size with Ok b => CBytes b | Err _ => CError "read failed" end.

Definition read_rust_string_slot (addr : N) : CapturedValue :=
  match mr_read_bytes mr pid addr 24 with
  | Err _ => CError "Rust String header read failed"
  | Ok hdr =>
      if (lenN hdr <? 24)%N then CError ("Rust String header too short: " ++ show_N (lenN hdr) ++ " bytes")
      else
        let ptr := of_le (slice hdr 8 8) in
        let len := of_le (slice hdr 16 8) in
        if (addr_mul (cc_max_string_capture config) 1024 <? len)%N || ((ptr =? 0)%N && negb (len =? 0)%N)
        then CError ("invalid Rust String header ptr=" ++ hex_prefixed ptr ++ " len=" ++ show_N len)
        else if (ptr =? 0)%N || (len =? 0)%N then CString [] len
        else match mr_read_string mr pid ptr (N.min len (cc_max_string_capture config)) with
        | Ok s => CString (as_bytes s) len
        | Err _ => CError "Rust String data read failed"
        end
  end.

Definition read_string_slot (addr : N) : CapturedValue :=
  match mr_read_bytes mr pid addr 16 with
  | Err _ => CError "string header read failed"
  | Ok hdr =>
      if (lenN hdr <? 16)%N then CError "string header too short"
      else match le_bytes_to_u64 (slice hdr 0 8) with
      | Err e => CError e
      | Ok ptr =>
          match le_bytes_to_u64 (slice hdr 8 8) with
          | Err e => CError e
          | Ok len =>
              if (ptr =? 0)%N || (len =? 0)%N then CString [] 0
              else match mr_read_string mr pid ptr (N.min len (cc_max_string_capture config)) with
              | Ok s => CString (as_bytes s) len
              | Err _ => CError "string data read failed"
              end
          end
      end
  end.

Definition read_slot_value (addr : N) (nested : option NestedType) (size : N) : run CapturedValue :=
  if (size =? 0)%N then Ret (CScalar 0)
  else match nested with
  | Some (NScalar ti) =>
      if ti_is_string ti || String.eqb (ti_name ti) "string" then
        Ret (if is_rust_owned_string_name (ti_name ti) then read_rust_string_slot addr else read_string_slot addr)
      else
        match mr_read_bytes mr pid addr size with
        | Ok b =>
            let val := read_le_u64 b size in
            Ret (if String.eqb (ti_name ti) "float64" then CFloat val
                 else if String.eqb (ti_name ti) "float32" then CFloat (f32_to_f64 (wrap 32 val))
                 else CScalar val)
        | Err _ => Ret (CError "read failed")
        end
  | Some (NStruct ti fields _) =>
      let! r := parse_struct addr (ti_name ti) (NStruct ti fields 0) in
      Ret (match r with Ok cv => cv | Err _ => read_raw_bytes addr size end)
  | _ => Ret (read_raw_bytes addr size)
  end.

(** The loop all three readers make over the marker bytes of their slots, from
    slot [s]: slots that are not [full] are skipped, the others read and added
    until there are [max_entries]; the flag says that the limit ended the loop. *)
Fixpoint scan_slots (full : byte -> bool) (read_at : N -> run entry) (max_entries s : N) (markers : list byte)
    (entries : list entry) : run (list entry * bool) :=
  match markers with
  | [] => Ret (entries, false)
  | m :: markers =>
      if (max_entries <=? lenN entries)%N then Ret (entries, true)
      else if full m then
        let! e := read_at s in
        scan_slots full read_at max_entries (s + 1) markers (entries ++ [e])%list
      else scan_slots full read_at max_entries (s + 1) markers entries
  end.

(** ** Swiss tables *)

Section Groups.
Context (key_nested val_nested : option NestedType) (key_size val_size val_offset slot_size : N) (max_entries : N).

Definition read_pair (key_addr val_addr : N) : run entry :=
  let! k := read_slot_value key_addr key_nested key_size in
  let! v := read_slot_value val_addr val_nested val_size in
  Ret (k, v).

(** The loop over the control bytes of a group. *)
Definition ctrl_full (cb : byte) : bool := negb (bool_decide (cb = CTRL_EMPTY) || bool_decide (cb = CTRL_DELETED)).

Definition read_ctrl (group_ptr : N) (ctrl : list byte) (entries : list entry) : run (list entry) :=
  run_map fst (scan_slots ctrl_full (fun s =>
      let slot_base := addr_add (addr_add group_ptr SLOTS_PER_GROUP) (addr_mul s slot_size) in
      read_pair slot_base (addr_add slot_base val_offset)) max_entries 0 ctrl entries).

(** The loop over [n] groups, from group [g]. *)
Fixpoint read_groups_from (groups_ptr group_size g : N) (n : nat) (entries : list entry) : run (list entry) :=
  match n with
  | O => Ret entries
  | S n =>
      if (max_entries <=? lenN entries)%N then Ret entries
      else
        let group_ptr := addr_add groups_ptr (addr_mul g group_size) in
        match mr_read_bytes mr pid group_ptr SLOTS_PER_GROUP with
        | Err _ => read_groups_from groups_ptr group_size (g + 1) n entries
        | Ok ctrl =>
            let! entries := read_ctrl group_ptr (take (N.to_nat SLOTS_PER_GROUP) ctrl) entries in
            read_groups_from groups_ptr group_size (g + 1) n entries
        end
  end.

Definition read_groups (groups_ptr num_groups : N) (entries : list entry) : run (list entry) :=
  let group_size := addr_add SLOTS_PER_GROUP (addr_mul SLOTS_PER_GROUP slot_size) in
  read_groups_from groups_ptr group_size 0 (N.to_nat num_groups) entries.
End Groups.

Section Map.
Context (key_nested val_nested : option NestedType) (key_type_name val_type_name : string).

Let key_size := slot_type_size_fallback key_nested key_type_name.
Let val_size := slot_type_size_fallback val_nested val_type_name.

Definition read_table (table_ptr max_entries : N) (entries : list entry) : run (result (list entry) string) :=
  match mr_read_bytes mr pid table_ptr 32 with
  | Err e => Ret (Err ("table header: " ++ ebpf_error_text e))
  | Ok hdr =>
      if (lenN hdr <? 32)%N then Ret (Err ("table header too short: " ++ show_N (lenN hdr) ++ " bytes"))
      else
        let groups_data := of_le (slice hdr 16 8) in
        let length_mask := of_le (slice hdr 24 8) in
        let num_groups := wrap 64 (length_mask + 1) in
        if (groups_data =? 0)%N then Ret (Ok entries)
        else if (1024 <? num_groups)%N then
          Ret (Err ("table@" ++ hex_prefixed table_ptr ++ " num_groups=" ++ show_N num_groups ++ " exceeds sanity limit"))
        else
          let '(val_offset, slot_size) := compute_slot_layout key_nested val_nested key_type_name val_type_name in
          let! entries := read_groups key_nested val_nested key_size val_size val_offset slot_size max_entries groups_data num_groups entries in
          Ret (Ok entries)
  end.

(** The loop over the directory: [fuel] bounds how much of it is looked at. *)
Fixpoint read_directory (fuel : nat) (dir_ptr dir_len max_entries i : N) (seen_tables : list N) (entries : list entry)
    : run (list entry) :=
  if (dir_len <=? i)%N || (max_entries <=? lenN entries)%N then Ret entries
  else match fuel with
  | O => Looping
  | S fuel =>
      let next := read_directory fuel dir_ptr dir_len max_entries (i + 1) in
      match mr_read_u64 mr pid (addr_add dir_ptr (addr_mul i 8)) with
      | Err _ => next seen_tables entries
      | Ok table_ptr =>
          if (table_ptr =? 0)%N || bool_decide (table_ptr ∈ seen_tables) then next seen_tables entries
          else
            let! r := read_table table_ptr (max_entries - lenN entries) entries in
            match r with
            | Ok entries => next (table_ptr :: seen_tables) entries
            | Err _ => next (table_ptr :: seen_tables) entries
            end
      end
  end.

Definition read_swiss_map_inner (map_ptr : N) : run (result (list entry) string) :=
  match mr_read_bytes mr pid map_ptr 32 with
  | Err e => Ret (Err ("map header: " ++ ebpf_error_text e))
  | Ok header =>
      if (lenN header <? 32)%N then Ret (Err ("map header too short: " ++ show_N (lenN header) ++ " bytes"))
      else
        let used := of_le (slice header 0 8) in
        let dir_ptr := of_le (slice header 16 8) in
        let dir_len := to_signed 64 (of_le (slice header 24 8)) in
        if (used =? 0)%N || (dir_ptr =? 0)%N then Ret (Ok [])
        else
          let max_entries := cc_max_array_values config in
          if (dir_len <? 0)%Z then Ret (Ok [])
          else if (dir_len =? 0)%Z then
            let '(val_offset, slot_size) := compute_slot_layout key_nested val_nested key_type_name val_type_name in
            run_map Ok (read_groups key_nested val_nested key_size val_size val_offset slot_size max_entries dir_ptr 1 [])
          else run_map Ok (read_directory fuel dir_ptr (Z.to_N dir_len) max_entries 0 [] [])
  end.

(** ** Bucket arrays *)

Definition is_evacuated (bucket_addr hash_tophash_empty_one hash_min_tophash : N) : bool :=
  if (bucket_addr =? 0)%N then true
  else match mr_read_bytes mr pid bucket_addr 1 with
  | Ok [b] => (hash_tophash_empty_one <? N_of_byte b)%N && (N_of_byte b <? hash_min_tophash)%N
  | _ => true
  end.

Section Bucket.
Context (keys_offset vals_offset overflow_offset hash_min_tophash max_entries : N).

(** The loop over the slots of a bucket. *)
Definition read_tophash (bucket_addr : N) (tophash : list byte) (entries : list entry) : run (list entry * bool) :=
  scan_slots (fun t => negb (N_of_byte t <? hash_min_tophash)%N) (fun slot =>
      let key_addr := addr_add (addr_add bucket_addr keys_offset) (addr_mul slot key_size) in
      let val_addr := addr_add (addr_add bucket_addr vals_offset) (addr_mul slot val_size) in
      read_pair key_nested val_nested key_size val_size key_addr val_addr) max_entries 0 tophash entries.

(** The overflow chain from [bucket_addr]; [fuel] bounds the buckets visited. *)
Fixpoint read_classic_bucket (fuel : nat) (bucket_addr : N) (entries : list entry) : run (result unit string * list entry) :=
  if (bucket_addr =? 0)%N || (max_entries <=? lenN entries)%N then Ret (Ok tt, entries)
  else match fuel with
  | O => Looping
  | S fuel =>
      match mr_read_bytes mr pid bucket_addr BUCKET_COUNT with
      | Err e => Ret (Err ("bucket tophash read failed: " ++ ebpf_error_text e), entries)
      | Ok tophash =>
          if negb (lenN tophash =? BUCKET_COUNT)%N then Ret (Err "bucket tophash read too short", entries)
          else
            let! r := read_tophash bucket_addr tophash entries in
            let '(entries, returned) := r in
            if (returned : bool) then Ret (Ok tt, entries)
            else match mr_read_u64 mr pid (addr_add bucket_addr overflow_offset) with
            | Err _ => Ret (Ok tt, entries)
            | Ok overflow_addr => if negb (overflow_addr =? 0)%N then read_classic_bucket fuel overflow_addr entries else Ret (Ok tt, entries)
            end
      end
  end.
End Bucket.

(** Offsets of the values and of the overflow pointer in a bucket. *)
Definition bucket_layout (key_size val_size : N) : N * N :=
  let vals_offset := align_up (addr_add 8 (addr_mul BUCKET_COUNT key_size)) (align_of val_size) in
  let overflow_offset := align_up (addr_add vals_offset (addr_mul BUCKET_COUNT val_size)) 8 in
  (vals_offset, overflow_offset).

(** The loop over the buckets: [n] is what is left of
    [min(numbuckets, max_buckets)]. *)
Fixpoint classic_loop (n : nat) (buckets_ptr oldbuckets_ptr oldmask max_entries : N) (bidx : N)
    (oldbuckets_visited : list N) (entries : list entry) : run (list entry) :=
  match n with
  | O => Ret entries
  | S n =>
      if (max_entries <=? lenN entries)%N then Ret entries
      else
        let '(vals_offset, overflow_offset) := bucket_layout key_size val_size in
        let bucket_size := addr_add overflow_offset 8 in
        let primary := addr_add buckets_ptr (addr_mul bidx bucket_size) in
        let next visited addr :=
          let! r := read_classic_bucket 8 vals_offset overflow_offset HASH_MIN_TOPHASH_GO112 max_entries fuel addr entries in
          let '(_, entries) := r in
          classic_loop n buckets_ptr oldbuckets_ptr oldmask max_entries (bidx + 1) visited entries in
        if negb (oldbuckets_ptr =? 0)%N then
          let oldbidx := N.land bidx oldmask in
          let oldb_addr := addr_add oldbuckets_ptr (addr_mul oldbidx bucket_size) in
          if negb (is_evacuated oldb_addr HASH_TOPHASH_EMPTY_ONE_GO112 HASH_MIN_TOPHASH_GO112) then
            if (oldbidx =? bidx)%N then next oldbuckets_visited oldb_addr
            else if bool_decide (oldbidx ∈ oldbuckets_visited) then
              classic_loop n buckets_ptr oldbuckets_ptr oldmask max_entries (bidx + 1) oldbuckets_visited entries
            else next (oldbidx :: oldbuckets_visited) oldb_addr
          else next oldbuckets_visited primary
        else next oldbuckets_visited primary
  end.

Definition read_classic_map_inner (map_ptr : N) : run (result (list entry) string) :=
  match mr_read_bytes mr pid map_ptr 40 with
  | Err e => Ret (Err ("classic map header: " ++ ebpf_error_text e))
  | Ok header =>
      if (lenN header <? 40)%N then Ret (Err ("classic map header too short: " ++ show_N (lenN header) ++ " bytes"))
      else
        let count := to_signed 64 (of_le (slice header 0 8)) in
        let b := of_le (slice header 9 1) in
        let buckets_ptr := of_le (slice header 16 8) in
        let oldbuckets_ptr := of_le (slice header 24 8) in
        if (buckets_ptr =? 0)%N then Ret (Ok [])
        else if (64 <=? b)%N then
          Ret (Err ("corrupt hmap header: B=" ++ show_N b ++ " exceeds maximum (63). Map pointer=" ++ hex_prefixed map_ptr
                    ++ ", count=" ++ show_Z count))
        else
          let numbuckets := N.shiftl 1 b in
          let oldmask := if (0 <? b)%N then (N.shiftl 1 (b - 1) - 1)%N else 0%N in
          let max_entries := cc_max_array_values config in
          let max_buckets := cc_max_array_values config in
          run_map Ok (classic_loop (N.to_nat (N.min numbuckets max_buckets)) buckets_ptr oldbuckets_ptr oldmask max_entries 0 [] [])
  end.

End Map.

(** ** Choosing the layout *)

Definition is_swiss_header (header : list byte) : bool :=
  let dir_len := to_signed 64 (of_le (slice header 24 8)) in
  let dir_ptr := of_le (slice header 16 8) in
  if (0 <? dir_len)%Z && (dir_len <=? 64)%Z then true
  else if (dir_len =? 0)%Z && negb (dir_ptr =? 0)%N then
    let flags := of_le (slice header 8 1) in
    let b_field := of_le (slice header 9 1) in
    negb ((flags <? 16)%N && (b_field <? 32)%N)
  else false.

Definition read_map (map_ptr : N) (key_nested val_nested : option NestedType) : run CapturedValue :=
  let key_type_name := nested_name_or_unknown key_nested in
  let val_type_name := nested_name_or_unknown val_nested in
  let answer entries reason := CMap key_type_name val_type_name entries reason in
  let swiss := read_swiss_map_inner key_nested val_nested key_type_name val_type_name map_ptr in
  let classic := read_classic_map_inner key_nested val_nested key_type_name val_type_name map_ptr in
  let or_empty r := match r with Ok e => e | Err _ => [] end in
  if (map_ptr =? 0)%N then Ret (answer [] "nil map")
  else match mr_read_bytes mr pid map_ptr 48 with
  | Err e => Ret (answer [] ("map header read failed: " ++ ebpf_error_text e))
  | Ok header =>
      if (lenN header <? 32)%N then Ret (answer [] ("map header too short: " ++ show_N (lenN header) ++ " bytes"))
      else
        let map_count := of_le (slice header 0 8) in
        let dir_len := to_signed 64 (of_le (slice header 24 8)) in
        let! entries :=
          if is_swiss_header header then
            let! r := swiss in
            match r with
            | Ok e =>
                if match e with [] => true | _ => false end && ((0 <? dir_len)%Z && (dir_len <=? 64)%Z)
                then run_map or_empty classic
                else Ret e
            | Err _ => run_map or_empty classic
            end
          else
            let! r := classic in
            match r with
            | Ok e =>
                if (0 <? map_count)%N && (map_count <? lenN e)%N
                then let! s := swiss in Ret (match s with Ok e' => e' | Err _ => e end)
                else Ret e
            | Err _ => run_map or_empty swiss
            end in
        Ret (answer entries EmptyString)
  end.

(** ** Rust's [HashMap] *)

Definition rust_map_error (key_nested val_nested : option NestedType) (reason : string) : CapturedValue :=
  CMap (nested_name_or_unknown key_nested) (nested_name_or_unknown val_nested) [] reason.

Definition header_u64 (header : list byte) (offset : N) : option N :=
  if (offset + 8 <=? lenN header)%N then Some (of_le (slice header offset 8)) else None.

(** Where the bucket mask, the control pointer and the item count may be. *)
Definition raw_table_layouts : list (N * N * N) := [(8, 0, 24); (16, 24, 40); (0, 8, 24); (8, 16, 32)]%N.

Definition plausible_table (header : list byte) (offsets : N * N * N) : option (N * N * N) :=
  let '(bucket_off, ctrl_off, items_off) := offsets in
  if (lenN header <? items_off + 8)%N then None
  else
    bucket_mask ← header_u64 header bucket_off;
    ctrl ← header_u64 header ctrl_off;
    items ← header_u64 header items_off;
    if negb (ctrl =? 0)%N && (bucket_mask <? 2 ^ 20)%N && (N.land (bucket_mask + 1) bucket_mask =? 0)%N
       && (items <=? bucket_mask + 1)%N && (items <=? cc_max_array_values config)%N
    then Some (bucket_mask, ctrl, items) else None.

Fixpoint first_some {A B : Type} (f : A -> option B) (l : list A) : option B :=
  match l with [] => None | a :: l => match f a with Some b => Some b | None => first_some f l end end.

Section RustLoop.
Context (key_nested val_nested : option NestedType) (key_size val_size ctrl val_offset pair_size max_entries : N).

Definition read_controls (controls : list byte) (entries : list entry) : run (list entry) :=
  run_map fst (scan_slots (fun marker => negb (128 <=? N_of_byte marker)%N) (fun index =>
      let slot := (ctrl - addr_mul (index + 1) pair_size)%N in
      read_pair key_nested val_nested key_size val_size slot (addr_add slot val_offset)) max_entries 0 controls entries).
End RustLoop.

Definition read_rust_hash_map_header (header : list byte) (key_nested val_nested : option NestedType) : run CapturedValue :=
  let fail reason := Ret (rust_map_error key_nested val_nested reason) in
  let key_name := nested_name_or_unknown key_nested in
  let val_name := nested_name_or_unknown val_nested in
  if (lenN header <? 32)%N then fail ("header too short: " ++ show_N (lenN header) ++ " bytes")
  else if forallb (fun b => (N_of_byte b =? 0)%N) header then Ret (CMap key_name val_name [] "nil map")
  else match first_some (plausible_table header) raw_table_layouts with
  | None => fail "unrecognized hashbrown RawTable layout"
  | Some (bucket_mask, ctrl, items) =>
      if (ctrl =? 0)%N || (items =? 0)%N then Ret (CMap key_name val_name [] EmptyString)
      else
        let buckets := (bucket_mask + 1)%N in
        match mr_read_bytes mr pid ctrl buckets with
        | Err e => fail ("control read failed: " ++ ebpf_error_text e)
        | Ok controls =>
            let key_size := slot_type_size_fallback key_nested key_name in
            let val_size := slot_type_size_fallback val_nested val_name in
            if (key_size =? 0)%N || (val_size =? 0)%N || (2 ^ 20 <? key_size)%N || (2 ^ 20 <? val_size)%N
            then fail "invalid key/value size"
            else
              let val_offset := align_up key_size (align_of val_size) in
              let pair_size := align_up (addr_add val_offset val_size) (align_of (addr_add val_offset val_size)) in
              if (ctrl <? N.min (2 ^ 64 - 1) (pair_size * buckets))%N then fail "slot address overflow"
              else
                let! entries := read_controls key_nested val_nested key_size val_size ctrl val_offset pair_size
                                  (cc_max_array_values config) controls [] in
                Ret (CMap key_name val_name entries
                  (if (lenN entries =? items)%N then EmptyString
                   else "partial hashbrown table: expected " ++ show_N items ++ ", decoded " ++ show_N (lenN entries)))
        end
  end.

Definition read_rust_hash_map (map_addr : N) (key_nested val_nested : option NestedType) : run CapturedValue :=
  match mr_read_bytes mr pid map_addr 64 with
  | Err e => Ret (rust_map_error key_nested val_nested ("header read failed: " ++ ebpf_error_text e))
  | Ok header => read_rust_hash_map_header header key_nested val_nested
  end.

Definition read_rust_hash_map_from_blob (header : list byte) (key_nested val_nested : option NestedType) : run CapturedValue :=
  read_rust_hash_map_header header key_nested val_nested.

End Reader.
