(* ===== verification/MapImage.v ===== *)
(** * What the map readers return

    How Go and Rust lay out a map ([group_at], [table_at], [bucket_at], [chain_at],
    [raw_table_at]), as predicates on the image of a process, and theorems that
    the readers of [MapReader] return the entries of a map that is laid out in
    memory: all of them, in order, up to the configured limit. *)

From Stdlib Require Import Strings.String Strings.Ascii Init.Byte.
From S2P Require Import Prelude RustStr Decode TypeInfo MemReader ProbeValue MapReader.

Local Open Scope string_scope.

(** ** Slots *)

(** The indices of the full slots of a row of markers that starts at slot [s]. *)
Fixpoint occupied (full : byte -> bool) (s : N) (markers : list byte) : list N :=
  match markers with
  | [] => []
  | m :: markers => if full m then s :: occupied full (s + 1) markers else occupied full (s + 1) markers
  end.

Lemma occupied_bounds full markers s i : i ∈ occupied full s markers -> (s <= i < s + lenN markers)%N.
Proof.
  revert s. induction markers as [|m markers IH]; intros s; cbn [occupied]; [by intros ?%not_elem_of_nil|].
  rewrite lenN_cons. destruct (full m); [intros [->|H]%elem_of_cons | intros H];
    try (apply IH in H); lia.
Qed.

Lemma Forall2_impl_in {A B : Type} (P Q : A -> B -> Prop) l k :
  Forall2 P l k -> (forall a b, a ∈ l -> P a b -> Q a b) -> Forall2 Q l k.
Proof.
  induction 1 as [|a b l k Hab _ IH]; intros Himp; constructor; [apply Himp; [left|done]|].
  apply IH. intros a' b' Hin. apply Himp. by right.
Qed.

(** What a reader that stops at [max] entries adds to [entries]. *)
Definition budget {A : Type} (max : N) (entries es : list A) : list A := take (N.to_nat (max - lenN entries)) es.

Lemma budget_app {A : Type} max (entries es rest : list A) :
  ((entries ++ budget max entries es) ++ budget max (entries ++ budget max entries es) rest)%list
  = (entries ++ budget max entries (es ++ rest))%list.
Proof.
  rewrite <- app_assoc. f_equal. unfold budget. rewrite take_app. f_equal. f_equal.
  rewrite lenN_app. unfold lenN. rewrite length_take. lia.
Qed.

Lemma budget_full {A : Type} max (entries es : list A) : (max <= lenN entries)%N -> budget max entries es = [].
Proof. intros. unfold budget. replace (max - lenN entries)%N with 0%N by lia. done. Qed.

Lemma budget_all {A : Type} max (entries es : list A) : (lenN entries + lenN es <= max)%N -> budget max entries es = es.
Proof. intros. unfold budget. apply firstn_all2. unfold lenN in *. lia. Qed.

Lemma budget_nil {A : Type} max (entries : list A) : budget max entries [] = [].
Proof. unfold budget. by rewrite take_nil. Qed.

Lemma scan_slots_spec full read_at max markers s entries es :
  Forall2 (fun i e => read_at i = Ret e) (occupied full s markers) es ->
  exists stopped, scan_slots full read_at max s markers entries = Ret (entries ++ budget max entries es, stopped)%list
    /\ (stopped = true -> max <= lenN (entries ++ budget max entries es))%N.
Proof.
  revert s entries es. induction markers as [|m markers IH]; intros s entries es H; cbn [occupied scan_slots] in *.
  - inversion H; subst. rewrite budget_nil, app_nil_r. exists false. done.
  - destruct (N.leb_spec max (lenN entries)) as [Hm|Hm].
    { rewrite (budget_full _ _ _ Hm), app_nil_r. exists true. done. }
    destruct (full m); [|by apply IH].
    inversion H as [|i e ? es' He Hes]; subst. rewrite He. cbn [run_bind].
    destruct (IH (s + 1)%N (entries ++ [e])%list es' Hes) as (st & Hs & Hst).
    assert (Heq : ((entries ++ [e]) ++ budget max (entries ++ [e]) es' = entries ++ budget max entries (e :: es'))%list).
    { rewrite <- app_assoc. f_equal. unfold budget. rewrite lenN_app, lenN_cons, lenN_nil.
      replace (N.to_nat (max - lenN entries)) with (S (N.to_nat (max - (lenN entries + (1 + 0))))) by lia. done. }
    rewrite Heq in *. eauto.
Qed.

(** A value of the type [nested] at an address. *)
Definition plain_scalar (ti : TypeInfo) : bool :=
  negb (ti_is_string ti) && negb (String.eqb (ti_name ti) "string") && negb (String.eqb (ti_name ti) "float64")
  && negb (String.eqb (ti_name ti) "float32").

Definition string_type (ti : TypeInfo) : bool := ti_is_string ti || String.eqb (ti_name ti) "string".

Section Layout.
Context (img : image) (max_string : N).

(** The text of a string lies where its header says, and fits the limit. *)
Definition text_at (ptr len : N) (bytes : list byte) : Prop :=
  ptr <> 0%N /\ (0 < len <= max_string)%N /\ img_read img ptr len = Some bytes /\ some_nonzero bytes = true /\ utf8_valid bytes = true.

Inductive slot_holds : option NestedType -> N -> N -> CapturedValue -> Prop :=
| holds_scalar ti size addr bytes : plain_scalar ti = true -> (0 < size <= 8)%N ->
    img_read img addr size = Some bytes -> slot_holds (Some (NScalar ti)) size addr (CScalar (of_le bytes))
| holds_float64 ti addr bytes : string_type ti = false -> ti_name ti = "float64" ->
    img_read img addr 8 = Some bytes -> slot_holds (Some (NScalar ti)) 8 addr (CFloat (of_le bytes))
| holds_string ti addr ptr len bytes : string_type ti = true -> is_rust_owned_string_name (ti_name ti) = false ->
    img_u64 img addr = Some ptr -> img_u64 img (addr + 8) = Some len -> text_at ptr len bytes ->
    slot_holds (Some (NScalar ti)) 16 addr (CString bytes len)
| holds_no_string ti addr ptr : string_type ti = true -> is_rust_owned_string_name (ti_name ti) = false ->
    img_u64 img addr = Some ptr -> img_u64 img (addr + 8) = Some 0%N ->
    slot_holds (Some (NScalar ti)) 16 addr (CString [] 0)
| holds_rust_string ti addr cap ptr len bytes : string_type ti = true -> is_rust_owned_string_name (ti_name ti) = true ->
    img_u64 img addr = Some cap -> img_u64 img (addr + 8) = Some ptr -> img_u64 img (addr + 16) = Some len ->
    text_at ptr len bytes -> slot_holds (Some (NScalar ti)) 24 addr (CString bytes len).
End Layout.

Lemma img_u64_read img addr v : img_u64 img addr = Some v -> exists bytes, img_read img addr 8 = Some bytes /\ lenN bytes = 8%N /\ v = of_le bytes.
Proof.
  unfold img_u64. destruct (img_read img addr 8) as [bytes|] eqn:E; [|done]. intros [= <-].
  exists bytes. split_and!; [done| |done]. by eapply img_read_len.
Qed.

(** Two adjacent words, read together. *)
Lemma img_two_words img addr a b : img_u64 img addr = Some a -> img_u64 img (addr + 8) = Some b ->
  exists hdr, img_read img addr 16 = Some hdr /\ lenN hdr = 16%N /\ of_le (slice hdr 0 8) = a /\ of_le (slice hdr 8 8) = b.
Proof.
  intros (x & Hx & Lx & ->)%img_u64_read (y & Hy & Ly & ->)%img_u64_read.
  exists (x ++ y)%list. split_and!.
  - apply (img_read_app img addr 8 8); done.
  - rewrite lenN_app. lia.
  - f_equal. apply (slice_app_mid [] x y 0 8); done.
  - f_equal. rewrite <- (app_nil_r y) at 1. apply (slice_app_mid x y [] 8 8); done.
Qed.

Lemma img_three_words img addr a b c : img_u64 img addr = Some a -> img_u64 img (addr + 8) = Some b -> img_u64 img (addr + 16) = Some c ->
  exists hdr, img_read img addr 24 = Some hdr /\ lenN hdr = 24%N /\ of_le (slice hdr 8 8) = b /\ of_le (slice hdr 16 8) = c.
Proof.
  intros (x & Hx & Lx & ->)%img_u64_read (y & Hy & Ly & ->)%img_u64_read (z & Hz & Lz & ->)%img_u64_read.
  exists (x ++ y ++ z)%list. split_and!.
  - apply (img_read_app img addr 8 16); [done|]. apply (img_read_app img (addr + 8) 8 8); [done|].
    by replace (addr + 8 + 8)%N with (addr + 16)%N by lia.
  - rewrite !lenN_app. lia.
  - f_equal. by apply slice_app_mid.
  - f_equal. rewrite <- (app_nil_r z) at 1. rewrite app_assoc.
    apply (slice_app_mid (x ++ y) z [] 16 8); [rewrite lenN_app|]; lia.
Qed.

Lemma slice_take {A : Type} (l : list A) n off len :
  (off + len <= n)%N -> slice (take (N.to_nat n) l) off len = slice l off len.
Proof.
  intros H. unfold slice. rewrite skipn_firstn_comm, firstn_firstn. f_equal. lia.
Qed.

Section Reading.
Context (mr : MemReader) (pid : N) (img : image) `{HF : !FaithfulReader mr pid img}.
Context (config : CaptureConfig) (Hlim : (cc_max_string_capture config <= 1024)%N).
Context (parse_struct : N -> string -> NestedType -> run (result CapturedValue EbpfError)).

Local Notation holds := (slot_holds img (cc_max_string_capture config)).
Local Notation read_slot := (read_slot_value mr pid config parse_struct).

Lemma text_read ptr len bytes : text_at img (cc_max_string_capture config) ptr len bytes ->
  mr_read_string mr pid ptr (N.min len (cc_max_string_capture config)) = Ok (of_bytes bytes).
Proof.
  intros (Hp & Hl & Hr & Hz & Hu). rewrite N.min_l by lia.
  eapply fr_string; [lia|done|done|]. unfold from_utf8. by rewrite Hu.
Qed.

Lemma read_slot_holds nested size addr v : holds nested size addr v -> read_slot addr nested size = Ret v.
Proof.
  destruct 1 as [ti size addr bytes Hp Hs Hr | ti addr bytes Hst Hn Hr | ti addr ptr len bytes Hst Ho Ha Hb Ht
    | ti addr ptr Hst Ho Ha Hb | ti addr cap ptr len bytes Hst Ho Hc Ha Hb Ht]; unfold read_slot_value.
  - rewrite (proj2 (N.eqb_neq size 0)) by lia.
    unfold plain_scalar in Hp. apply andb_true_iff in Hp as [Hp H32]. apply andb_true_iff in Hp as [Hp H64].
    rewrite !negb_true_iff in *. apply andb_true_iff in Hp as [Hp1 Hp2]. rewrite !negb_true_iff in *.
    rewrite Hp1, Hp2, H64, H32. cbn [orb].
    rewrite (fr_bytes addr size bytes) by (lia || done).
    unfold read_le_u64. rewrite (img_read_len _ _ _ _ Hr). rewrite firstn_all2; [done|].
    pose proof (img_read_len _ _ _ _ Hr). unfold lenN in *. lia.
  - cbn [N.eqb]. unfold string_type in Hst. rewrite Hst, Hn. cbn [String.eqb].
    rewrite (fr_bytes addr 8 bytes) by (lia || done). change (String.eqb "float64" "float64") with true.
    unfold read_le_u64. rewrite (img_read_len _ _ _ _ Hr). rewrite firstn_all2; [done|].
    pose proof (img_read_len _ _ _ _ Hr). unfold lenN in *. cbn in *. lia.
  - cbn [N.eqb]. unfold string_type in Hst. rewrite Hst, Ho. unfold read_string_slot.
    destruct (img_two_words _ _ _ _ Ha Hb) as (hdr & Hh & Lh & H0 & H8).
    rewrite (fr_bytes addr 16 hdr) by (lia || done). rewrite Lh. change (16 <? 16)%N with false. cbv iota.
    unfold le_bytes_to_u64. rewrite !lenN_slice by lia. cbn [N.eqb]. rewrite H0, H8.
    pose proof Ht as (Hp & Hl & _). cbn. rewrite (proj2 (N.eqb_neq ptr 0)), (proj2 (N.eqb_neq len 0)) by lia. cbn.
    rewrite (text_read _ _ _ Ht), as_bytes_of_bytes. done.
  - cbn [N.eqb]. unfold string_type in Hst. rewrite Hst, Ho. unfold read_string_slot.
    destruct (img_two_words _ _ _ _ Ha Hb) as (hdr & Hh & Lh & H0 & H8).
    rewrite (fr_bytes addr 16 hdr) by (lia || done). rewrite Lh. change (16 <? 16)%N with false. cbv iota.
    unfold le_bytes_to_u64. rewrite !lenN_slice by lia. cbn [N.eqb]. rewrite H0, H8. cbn.
    by rewrite orb_true_r.
  - cbn [N.eqb]. unfold string_type in Hst. rewrite Hst, Ho. unfold read_rust_string_slot.
    destruct (img_three_words _ _ _ _ _ Hc Ha Hb) as (hdr & Hh & Lh & H8 & H16).
    rewrite (fr_bytes addr 24 hdr) by (lia || done). rewrite Lh. change (24 <? 24)%N with false. cbv iota. rewrite H8, H16.
    pose proof Ht as (Hp & Hl & _). rewrite (proj2 (N.eqb_neq ptr 0)), (proj2 (N.eqb_neq len 0)) by lia. cbn [andb orb negb].
    rewrite addr_mul_small by (pose proof Hlim; lia). rewrite (proj2 (N.ltb_ge _ _)) by lia. cbn [orb].
    rewrite (text_read _ _ _ Ht), as_bytes_of_bytes. done.
Qed.

(** A map entry whose key and value are at two addresses. *)
Definition pair_holds (kn vn : option NestedType) (ks vs key_addr val_addr : N) (e : entry) : Prop :=
  holds kn ks key_addr (fst e) /\ holds vn vs val_addr (snd e).

Lemma read_pair_holds kn vn ks vs ka va e : pair_holds kn vn ks vs ka va e ->
  read_pair mr pid config parse_struct kn vn ks vs ka va = Ret e.
Proof.
  intros [Hk Hv]. unfold read_pair. rewrite (read_slot_holds _ _ _ _ Hk), (read_slot_holds _ _ _ _ Hv). by destruct e.
Qed.

(** ** Swiss tables *)

Section Swiss.
Context (kn vn : option NestedType) (kname vname : string).

Let ks := slot_type_size_fallback kn kname.
Let vs := slot_type_size_fallback vn vname.
Let val_offset := fst (compute_slot_layout kn vn kname vname).
Let slot_size := snd (compute_slot_layout kn vn kname vname).
Let group_size := (8 + 8 * slot_size)%N.

(** Eight control bytes, then eight slots; [es] are the entries of the full ones.
    The group does not wrap around the address space. *)
Record group_at (gp : N) (ctrl : list byte) (es : list entry) : Prop := {
  ga_ctrl : img_read img gp 8 = Some ctrl;
  ga_space : (gp + group_size + val_offset < 2 ^ 64)%N;
  ga_slots : Forall2 (fun s e => pair_holds kn vn ks vs (gp + 8 + s * slot_size) (gp + 8 + s * slot_size + val_offset) e)
               (occupied ctrl_full 0 ctrl) es
}.

Fixpoint groups_at (gp : N) (gs : list (list byte * list entry)) : Prop :=
  match gs with
  | [] => True
  | (ctrl, es) :: gs => group_at gp ctrl es /\ groups_at (gp + group_size) gs
  end.

Definition group_entries (gs : list (list byte * list entry)) : list entry := List.concat (map snd gs).

Lemma read_ctrl_group max gp ctrl es entries : group_at gp ctrl es ->
  read_ctrl mr pid config parse_struct kn vn ks vs val_offset slot_size max gp ctrl entries
  = Ret (entries ++ budget max entries es)%list.
Proof.
  intros [Hc Hsp Hs]. unfold read_ctrl. pose proof (img_read_len _ _ _ _ Hc) as Hlen.
  match goal with |- run_map fst (scan_slots ?full ?ra _ _ _ _) = _ =>
    destruct (scan_slots_spec full ra max ctrl 0 entries es) as (st & -> & _) end; [|done].
  eapply Forall2_impl_in; [exact Hs|]. intros s e Hin He. cbn beta.
  apply occupied_bounds in Hin. rewrite Hlen in Hin.
  assert (Hsz : (s * slot_size <= 7 * slot_size)%N) by (apply N.mul_le_mono_r; lia).
  unfold SLOTS_PER_GROUP. rewrite (addr_add_small gp 8) by (unfold group_size in Hsp; lia).
  rewrite (addr_mul_small s slot_size) by (unfold group_size in Hsp; lia).
  rewrite (addr_add_small (gp + 8)) by (unfold group_size in Hsp; lia).
  rewrite addr_add_small by (unfold group_size in Hsp; lia).
  by apply read_pair_holds.
Qed.

Lemma read_groups_from_spec max gs : forall groups_ptr g entries,
  groups_at (groups_ptr + g * group_size) gs ->
  read_groups_from mr pid config parse_struct kn vn ks vs val_offset slot_size max groups_ptr group_size g (length gs) entries
  = Ret (entries ++ budget max entries (group_entries gs))%list.
Proof.
  induction gs as [|[ctrl es] gs IH]; intros groups_ptr g entries H.
  - cbn [read_groups_from length group_entries map List.concat]. by rewrite budget_nil, app_nil_r.
  - destruct H as [Hg Hgs]. cbn [length read_groups_from].
    destruct (N.leb_spec max (lenN entries)) as [Hm|Hm].
    { by rewrite (budget_full _ _ _ Hm), app_nil_r. }
    pose proof Hg as [Hc Hsp _].
    rewrite (addr_mul_small g) by lia. rewrite addr_add_small by lia.
    unfold SLOTS_PER_GROUP. rewrite (fr_bytes _ 8 ctrl) by (lia || done).
    pose proof (img_read_len _ _ _ _ Hc) as Hlen.
    rewrite firstn_all2 by (unfold lenN in Hlen; lia).
    rewrite (read_ctrl_group _ _ _ _ _ Hg). cbn [run_bind]. rewrite IH.
    + unfold group_entries. cbn [map List.concat snd]. by rewrite budget_app.
    + replace (groups_ptr + (g + 1) * group_size)%N with (groups_ptr + g * group_size + group_size)%N by lia. done.
Qed.

Lemma read_groups_spec max groups_ptr gs entries : (group_size < 2 ^ 64)%N -> groups_at groups_ptr gs ->
  read_groups mr pid config parse_struct kn vn ks vs val_offset slot_size max groups_ptr (lenN gs) entries
  = Ret (entries ++ budget max entries (group_entries gs))%list.
Proof.
  intros Hsz H. unfold read_groups, SLOTS_PER_GROUP.
  rewrite (addr_mul_small 8), addr_add_small by (unfold group_size in Hsz; lia). fold group_size.
  replace (N.to_nat (lenN gs)) with (length gs) by (unfold lenN; lia).
  apply read_groups_from_spec. by rewrite N.mul_0_l, N.add_0_r.
Qed.

(** A table: its header points at a power-of-two number of groups, at most 1024. *)
Record table_at (tp : N) (gs : list (list byte * list entry)) : Prop := {
  ta_header : exists hdr groups_data, img_read img tp 32 = Some hdr /\ of_le (slice hdr 16 8) = groups_data
    /\ of_le (slice hdr 24 8) = (lenN gs - 1)%N /\ groups_data <> 0%N /\ groups_at groups_data gs;
  ta_groups : (1 <= lenN gs <= 1024)%N;
  ta_size : (group_size < 2 ^ 64)%N
}.

Lemma read_table_spec max tp gs entries : table_at tp gs ->
  read_table mr pid config parse_struct kn vn kname vname tp max entries
  = Ret (Ok (entries ++ budget max entries (group_entries gs))%list).
Proof.
  intros [(hdr & gd & Hr & Hd & Hm & Hnz & Hgs) Hn Hsz]. unfold read_table.
  rewrite (fr_bytes tp 32 hdr) by (lia || done). rewrite (img_read_len _ _ _ _ Hr).
  change (32 <? 32)%N with false. cbv iota. rewrite Hd, Hm. rewrite (proj2 (N.eqb_neq gd 0) Hnz).
  rewrite (wrap_small 64 (lenN gs - 1 + 1)) by lia. replace (lenN gs - 1 + 1)%N with (lenN gs) by lia.
  rewrite (proj2 (N.ltb_ge 1024 (lenN gs))) by lia.
  rewrite (surjective_pairing (compute_slot_layout kn vn kname vname)).
  fold val_offset slot_size ks vs. by rewrite (read_groups_spec _ _ _ _ Hsz Hgs).
Qed.

(** Directories may name a table several times; it counts once, where it is
    first named. *)
Fixpoint first_tables (seen tps : list N) : list N :=
  match tps with
  | [] => []
  | tp :: tps =>
      if bool_decide (tp ∈ seen) then first_tables seen tps else tp :: first_tables (tp :: seen) tps
  end.

Definition directory_entries (tables : N -> list (list byte * list entry)) (tps : list N) : list entry :=
  List.concat (map (fun tp => group_entries (tables tp)) tps).

Definition dir_slots (dir_ptr : N) (tps : list N) : Prop :=
  forall i tp, tps !! i = Some tp -> img_u64 img (dir_ptr + N.of_nat i * 8) = Some tp.

Lemma read_directory_spec tables max tps : forall fuel dir_ptr i seen entries,
  dir_slots (dir_ptr + i * 8) tps -> Forall (fun tp => tp <> 0%N /\ table_at tp (tables tp)) tps ->
  (dir_ptr + (i + lenN tps) * 8 < 2 ^ 64)%N -> (length tps <= fuel)%nat -> (0 < max)%N ->
  (2 * (lenN entries + lenN (directory_entries tables (first_tables seen tps))) <= max)%N ->
  read_directory mr pid config parse_struct kn vn kname vname fuel dir_ptr (i + lenN tps) max i seen entries
  = Ret (entries ++ directory_entries tables (first_tables seen tps))%list.
Proof.
  induction tps as [|tp tps IH]; intros fuel dir_ptr i seen entries Hd Ht Ha Hf Hm Hb.
  - rewrite lenN_nil, N.add_0_r, app_nil_r. destruct fuel; cbn [read_directory]; by rewrite N.leb_refl.
  - apply Forall_cons_1 in Ht as [[Hnz Htp] Ht]. destruct fuel as [|fuel]; [cbn in Hf; lia|].
    rewrite lenN_cons in *. cbn [read_directory].
    rewrite (proj2 (N.leb_gt (i + (1 + lenN tps)) i)) by lia. rewrite (proj2 (N.leb_gt max (lenN entries))) by lia. cbn [orb].
    rewrite (addr_mul_small i), addr_add_small by lia.
    rewrite (fr_u64 _ tp); [|specialize (Hd 0%nat tp eq_refl); cbn in Hd; by rewrite N.add_0_r in Hd].
    rewrite (proj2 (N.eqb_neq tp 0) Hnz). cbn [orb].
    assert (Hd' : dir_slots (dir_ptr + (i + 1) * 8) tps).
    { intros j t Hj. specialize (Hd (S j) t Hj). rewrite <- Hd. f_equal. lia. }
    replace (i + (1 + lenN tps))%N with (i + 1 + lenN tps)%N in * by lia.
    cbn [length] in Hf. cbn [first_tables] in *. destruct (bool_decide (tp ∈ seen)).
    + apply IH; try done; lia.
    + unfold directory_entries in Hb |- *. cbn [map List.concat] in Hb |- *.
      rewrite (read_table_spec _ _ _ _ Htp). cbn [run_bind].
      rewrite lenN_app in Hb. rewrite budget_all by lia.
      rewrite IH; try done; try lia.
      * by rewrite <- app_assoc.
      * rewrite lenN_app. unfold directory_entries. lia.
Qed.
End Swiss.

(** ** Bucket arrays *)

Section Classic.
Context (kn vn : option NestedType) (kname vname : string).

Let ks := slot_type_size_fallback kn kname.
Let vs := slot_type_size_fallback vn vname.
Let vals_offset := fst (bucket_layout ks vs).
Let overflow_offset := snd (bucket_layout ks vs).
Let bucket_size := (overflow_offset + 8)%N.

Definition tophash_full (t : byte) : bool := negb (N_of_byte t <? HASH_MIN_TOPHASH_GO112)%N.

(** A bucket: eight hash bytes, eight keys, eight values, and the address of the
    next bucket of its chain. *)
Record bucket_at (addr : N) (tophash : list byte) (es : list entry) (overflow : N) : Prop := {
  ba_tophash : img_read img addr 8 = Some tophash;
  ba_space : (addr + 8 + 8 * ks + vals_offset + 8 * vs + overflow_offset + 8 < 2 ^ 64)%N;
  ba_slots : Forall2 (fun s e => pair_holds kn vn ks vs (addr + 8 + s * ks) (addr + vals_offset + s * vs) e)
               (occupied tophash_full 0 tophash) es;
  ba_overflow : img_u64 img (addr + overflow_offset) = Some overflow
}.

(** A chain of buckets, with the entries of each. *)
Inductive chain_at : N -> list (list entry) -> Prop :=
| chain_last addr tophash es : addr <> 0%N -> bucket_at addr tophash es 0 -> chain_at addr [es]
| chain_more addr tophash es overflow ess : addr <> 0%N -> overflow <> 0%N -> bucket_at addr tophash es overflow ->
    chain_at overflow ess -> chain_at addr (es :: ess).

Lemma read_tophash_bucket max addr tophash es ov entries : bucket_at addr tophash es ov ->
  exists stopped,
    read_tophash mr pid config parse_struct kn vn kname vname 8 vals_offset HASH_MIN_TOPHASH_GO112 max addr tophash entries
      = Ret (entries ++ budget max entries es, stopped)%list
    /\ (stopped = true -> max <= lenN (entries ++ budget max entries es))%N.
Proof.
  intros [Ht Hsp Hs _]. unfold read_tophash. pose proof (img_read_len _ _ _ _ Ht) as Hlen.
  apply scan_slots_spec. eapply Forall2_impl_in; [exact Hs|]. intros s e Hin He. cbn beta.
  apply occupied_bounds in Hin. rewrite Hlen in Hin.
  assert (Hk : (s * ks <= 7 * ks)%N) by (apply N.mul_le_mono_r; lia).
  assert (Hv : (s * vs <= 7 * vs)%N) by (apply N.mul_le_mono_r; lia).
  fold ks vs. rewrite (addr_add_small addr 8), (addr_mul_small s ks), (addr_add_small (addr + 8)) by lia.
  rewrite (addr_add_small addr vals_offset), (addr_mul_small s vs), addr_add_small by lia.
  by apply read_pair_holds.
Qed.

Lemma read_chain_spec max addr ess : chain_at addr ess -> forall fuel entries, (length ess <= fuel)%nat ->
  read_classic_bucket mr pid config parse_struct kn vn kname vname 8 vals_offset overflow_offset HASH_MIN_TOPHASH_GO112 max fuel addr entries
  = Ret (Ok tt, entries ++ budget max entries (List.concat ess))%list.
Proof.
  induction 1 as [addr tophash es Hnz Hb | addr tophash es ov ess Hnz Hov Hb Hc IH]; intros fuel entries Hf;
    (destruct fuel as [|fuel]; [cbn in Hf; lia|]); cbn [read_classic_bucket]; rewrite (proj2 (N.eqb_neq addr 0) Hnz);
    cbn [orb]; (destruct (N.leb_spec max (lenN entries)) as [Hm|Hm]; [by rewrite (budget_full _ _ _ Hm), app_nil_r|]);
    pose proof Hb as [Ht Hsp _ Hover]; unfold BUCKET_COUNT; rewrite (fr_bytes addr 8 tophash) by (lia || done);
    rewrite (img_read_len _ _ _ _ Ht); cbn [N.eqb Pos.eqb negb];
    destruct (read_tophash_bucket max _ _ _ _ entries Hb) as (st & Hr & Hst); rewrite Hr; cbn [run_bind];
    rewrite (addr_add_small addr) by lia; rewrite (fr_u64 _ _ Hover).
  - cbn [List.concat]. rewrite app_nil_r. by destruct st.
  - rewrite (proj2 (N.eqb_neq ov 0) Hov). cbn [negb List.concat]. rewrite <- budget_app. destruct st.
    + rewrite (budget_full _ _ (List.concat ess)) by (by apply Hst). by rewrite app_nil_r.
    + apply IH. cbn in Hf. lia.
Qed.

(** A bucket the growth of the map has left alone or already moved. *)
Definition settled (oldbuckets_ptr oldmask bidx : N) : Prop :=
  oldbuckets_ptr = 0%N \/
  is_evacuated mr pid (addr_add oldbuckets_ptr (addr_mul (N.land bidx oldmask) bucket_size))
    HASH_TOPHASH_EMPTY_ONE_GO112 HASH_MIN_TOPHASH_GO112 = true.

Definition chains_from (buckets_ptr oldbuckets_ptr oldmask bidx : N) (css : list (list (list entry))) : Prop :=
  forall i ess, css !! i = Some ess ->
    chain_at (buckets_ptr + (bidx + N.of_nat i) * bucket_size) ess /\ settled oldbuckets_ptr oldmask (bidx + N.of_nat i).

Lemma classic_loop_spec fuel max buckets_ptr oldbuckets_ptr oldmask css : forall bidx visited entries,
  chains_from buckets_ptr oldbuckets_ptr oldmask bidx css -> Forall (fun ess => length ess <= fuel)%nat css ->
  (buckets_ptr + (bidx + lenN css) * bucket_size < 2 ^ 64)%N ->
  classic_loop mr pid config parse_struct fuel kn vn kname vname (length css) buckets_ptr oldbuckets_ptr oldmask max bidx visited entries
  = Ret (entries ++ budget max entries (List.concat (map (@List.concat entry) css)))%list.
Proof.
  induction css as [|ess css IH]; intros bidx visited entries Hc Hf Ha.
  - cbn. by rewrite budget_nil, app_nil_r.
  - cbn [length classic_loop]. rewrite lenN_cons in Ha.
    destruct (N.leb_spec max (lenN entries)) as [Hm|Hm]; [by rewrite (budget_full _ _ _ Hm), app_nil_r|].
    rewrite (surjective_pairing (bucket_layout _ _)). fold ks vs vals_offset overflow_offset.
    destruct (Hc 0%nat ess eq_refl) as [Hch Hset]. rewrite N.add_0_r in Hch, Hset.
    apply Forall_cons_1 in Hf as [Hfe Hf].
    assert (Hbs : addr_add overflow_offset 8 = bucket_size).
    { apply addr_add_small. destruct Hch as [? ? ? ? [_ Hsp _ _]|? ? ? ? ? ? ? [_ Hsp _ _] _]; lia. }
    rewrite Hbs.
    assert (Hbb : (bidx * bucket_size <= (bidx + (1 + lenN css)) * bucket_size)%N) by (apply N.mul_le_mono_r; lia).
    assert (Hnext : forall vis, (let! r := read_classic_bucket mr pid config parse_struct kn vn kname vname 8 vals_offset overflow_offset
                          HASH_MIN_TOPHASH_GO112 max fuel (addr_add buckets_ptr (addr_mul bidx bucket_size)) entries in
                let '(_, entries) := r in
                classic_loop mr pid config parse_struct fuel kn vn kname vname (length css) buckets_ptr oldbuckets_ptr oldmask max (bidx + 1) vis entries)
              = Ret (entries ++ budget max entries (List.concat (map (@List.concat entry) (ess :: css))))%list).
    { intros vis. rewrite (addr_mul_small bidx), addr_add_small by lia.
      rewrite (read_chain_spec max _ _ Hch fuel entries Hfe). cbn [run_bind]. rewrite IH; [| |done|].
      - cbn [map List.concat]. by rewrite budget_app.
      - intros i e Hi. replace (bidx + 1 + N.of_nat i)%N with (bidx + N.of_nat (S i))%N by lia. by apply Hc.
      - by replace (bidx + 1 + lenN css)%N with (bidx + (1 + lenN css))%N by lia. }
    destruct Hset as [-> | Hev].
    + cbn [N.eqb negb]. apply Hnext.
    + destruct (oldbuckets_ptr =? 0)%N; cbn [negb]; [apply Hnext|]. rewrite Hev. cbn [negb]. apply Hnext.
Qed.
End Classic.

(** ** Go maps *)

Section GoMap.
Context (kn vn : option NestedType).

Let kname := nested_name_or_unknown kn.
Let vname := nested_name_or_unknown vn.
Let max := cc_max_array_values config.

Definition swiss_group_size : N := (8 + 8 * snd (compute_slot_layout kn vn kname vname))%N.
Definition classic_bucket_size : N :=
  (snd (bucket_layout (slot_type_size_fallback kn kname) (slot_type_size_fallback vn vname)) + 8)%N.

(** The three shapes of a Go map with entries [es] at [p]: a small Swiss map (one
    group), a Swiss map with a directory of tables, and a bucket array.  This is
    Go's layout as far as the reader knows it: slots are laid out by the reader's
    own estimate of their sizes, keys and values are numbers or texts, a bucket
    array is not growing, the map fits the configured limit (for a directory:
    half of it), its header is not mistaken for the other kind, and a directory is
    not empty. *)
Inductive go_map_at (p : N) : list entry -> Prop :=
| swiss_small_at hdr ctrl es :
    img_read img p 48 = Some hdr -> is_swiss_header hdr = true ->
    of_le (slice hdr 0 8) <> 0%N -> of_le (slice hdr 16 8) <> 0%N -> of_le (slice hdr 24 8) = 0%N ->
    group_at kn vn kname vname (of_le (slice hdr 16 8)) ctrl es -> (swiss_group_size < 2 ^ 64)%N -> (lenN es <= max)%N ->
    go_map_at p es
| swiss_directory_at hdr tps tables :
    img_read img p 48 = Some hdr -> of_le (slice hdr 0 8) <> 0%N -> of_le (slice hdr 16 8) <> 0%N ->
    of_le (slice hdr 24 8) = lenN tps -> (1 <= lenN tps <= 64)%N ->
    dir_slots (of_le (slice hdr 16 8)) tps -> (of_le (slice hdr 16 8) + lenN tps * 8 < 2 ^ 64)%N ->
    Forall (fun tp => tp <> 0%N /\ table_at kn vn kname vname tp (tables tp)) tps ->
    directory_entries tables (first_tables [] tps) <> [] ->
    (2 * lenN (directory_entries tables (first_tables [] tps)) <= max)%N ->
    go_map_at p (directory_entries tables (first_tables [] tps))
| classic_at hdr css :
    img_read img p 48 = Some hdr -> is_swiss_header hdr = false ->
    of_le (slice hdr 0 8) = lenN (List.concat (map (@List.concat entry) css)) ->
    (of_le (slice hdr 9 1) < 64)%N -> lenN css = N.shiftl 1 (of_le (slice hdr 9 1)) -> (lenN css <= max)%N ->
    of_le (slice hdr 16 8) <> 0%N ->
    chains_from kn vn kname vname (of_le (slice hdr 16 8)) (of_le (slice hdr 24 8))
      (if (0 <? of_le (slice hdr 9 1))%N then (N.shiftl 1 (of_le (slice hdr 9 1) - 1) - 1)%N else 0%N) 0 css ->
    (of_le (slice hdr 16 8) + lenN css * classic_bucket_size < 2 ^ 64)%N ->
    (lenN (List.concat (map (@List.concat entry) css)) <= max)%N ->
    go_map_at p (List.concat (map (@List.concat entry) css)).

Lemma read_swiss_header fuel p hdr : img_read img p 48 = Some hdr ->
  read_swiss_map_inner mr pid config parse_struct fuel kn vn kname vname p
  = (if (of_le (slice hdr 0 8) =? 0)%N || (of_le (slice hdr 16 8) =? 0)%N then Ret (Ok [])
     else let dir_len := to_signed 64 (of_le (slice hdr 24 8)) in
       if (dir_len <? 0)%Z then Ret (Ok [])
       else if (dir_len =? 0)%Z then
         let '(val_offset, slot_size) := compute_slot_layout kn vn kname vname in
         run_map Ok (read_groups mr pid config parse_struct kn vn (slot_type_size_fallback kn kname) (slot_type_size_fallback vn vname)
           val_offset slot_size max (of_le (slice hdr 16 8)) 1 [])
       else run_map Ok (read_directory mr pid config parse_struct kn vn kname vname fuel (of_le (slice hdr 16 8)) (Z.to_N dir_len) max 0 [] [])).
Proof.
  intros Hh. apply (img_read_prefix img p 32 16) in Hh as H32. pose proof (img_read_len _ _ _ _ H32) as Hl.
  unfold read_swiss_map_inner. rewrite (fr_bytes p 32 _ ltac:(lia) H32), Hl. change (32 <? 32)%N with false. cbv iota.
  rewrite !slice_take by lia. done.
Qed.

Lemma to_signed_small n : (n < 2 ^ 63)%N -> to_signed 64 n = Z.of_N n.
Proof. intros H. unfold to_signed. change (64 - 1)%N with 63%N. by rewrite (proj2 (N.ltb_lt _ _) H). Qed.

Lemma read_swiss_small fuel p hdr ctrl es :
  img_read img p 48 = Some hdr -> of_le (slice hdr 0 8) <> 0%N -> of_le (slice hdr 16 8) <> 0%N -> of_le (slice hdr 24 8) = 0%N ->
  group_at kn vn kname vname (of_le (slice hdr 16 8)) ctrl es -> (swiss_group_size < 2 ^ 64)%N -> (lenN es <= max)%N ->
  read_swiss_map_inner mr pid config parse_struct fuel kn vn kname vname p = Ret (Ok es).
Proof.
  intros Hh Hu Hd Hl Hg Hsz Hm. rewrite (read_swiss_header _ _ _ Hh).
  rewrite (proj2 (N.eqb_neq _ 0) Hu), (proj2 (N.eqb_neq _ 0) Hd), Hl. cbn [orb].
  change (to_signed 64 0) with 0%Z. cbn [Z.ltb Z.compare Z.eqb]. cbv zeta.
  rewrite (surjective_pairing (compute_slot_layout kn vn kname vname)).
  rewrite (read_groups_spec kn vn kname vname max _ [(ctrl, es)] []); [|done|by split].
  unfold group_entries. cbn [run_map run_bind map List.concat snd app]. rewrite app_nil_r.
  by rewrite budget_all by (rewrite lenN_nil; lia).
Qed.

Lemma read_classic_map fuel p hdr css :
  img_read img p 48 = Some hdr -> (of_le (slice hdr 9 1) < 64)%N -> lenN css = N.shiftl 1 (of_le (slice hdr 9 1)) -> (lenN css <= max)%N ->
  of_le (slice hdr 16 8) <> 0%N ->
  chains_from kn vn kname vname (of_le (slice hdr 16 8)) (of_le (slice hdr 24 8))
    (if (0 <? of_le (slice hdr 9 1))%N then (N.shiftl 1 (of_le (slice hdr 9 1) - 1) - 1)%N else 0%N) 0 css ->
  (of_le (slice hdr 16 8) + lenN css * classic_bucket_size < 2 ^ 64)%N ->
  (lenN (List.concat (map (@List.concat entry) css)) <= max)%N -> Forall (fun ess => length ess <= fuel)%nat css ->
  read_classic_map_inner mr pid config parse_struct fuel kn vn kname vname p = Ret (Ok (List.concat (map (@List.concat entry) css))).
Proof.
  intros Hh Hb Hn Hmb Hp Hc Hsp Hm Hf. apply (img_read_prefix img p 40 8) in Hh as H40.
  pose proof (img_read_len _ _ _ _ H40) as Hl.
  unfold read_classic_map_inner. rewrite (fr_bytes p 40 _ ltac:(lia) H40), Hl. change (40 <? 40)%N with false. cbv iota.
  rewrite !slice_take by lia. rewrite (proj2 (N.eqb_neq _ 0) Hp), (proj2 (N.leb_gt 64 _) Hb).
  rewrite <- Hn, N.min_l by done. replace (N.to_nat (lenN css)) with (length css) by (unfold lenN; lia).
  rewrite (classic_loop_spec kn vn kname vname fuel max _ _ _ css 0 [] []); [| exact Hc | exact Hf | by rewrite N.add_0_l].
  cbn [run_map run_bind app]. by rewrite budget_all by (rewrite lenN_nil; lia).
Qed.

Lemma read_map_header fuel p hdr : p <> 0%N -> img_read img p 48 = Some hdr ->
  read_map mr pid config parse_struct fuel p kn vn =
    let swiss := read_swiss_map_inner mr pid config parse_struct fuel kn vn kname vname p in
    let classic := read_classic_map_inner mr pid config parse_struct fuel kn vn kname vname p in
    let or_empty r := match r with Ok e => e | Err _ => [] end in
    let dir_len := to_signed 64 (of_le (slice hdr 24 8)) in
    let! entries :=
      if is_swiss_header hdr then
        let! r := swiss in
        match r with
        | Ok e => if match e with [] => true | _ => false end && ((0 <? dir_len)%Z && (dir_len <=? 64)%Z)
                  then run_map or_empty classic else Ret e
        | Err _ => run_map or_empty classic
        end
      else
        let! r := classic in
        match r with
        | Ok e => if (0 <? of_le (slice hdr 0 8))%N && (of_le (slice hdr 0 8) <? lenN e)%N
                  then let! s := swiss in Ret (match s with Ok e' => e' | Err _ => e end) else Ret e
        | Err _ => run_map or_empty swiss
        end in
    Ret (CMap kname vname entries EmptyString).
Proof.
  intros Hp Hh. unfold read_map. rewrite (proj2 (N.eqb_neq p 0) Hp), (fr_bytes p 48 _ ltac:(lia) Hh).
  rewrite (img_read_len _ _ _ _ Hh). done.
Qed.

(** Reading a Go map that is laid out in the process the way the reader expects
    it ([go_map_at]) ends and returns exactly its entries, in memory order. *)
Theorem go_map_is_read p es : p <> 0%N -> go_map_at p es ->
  exists n, forall fuel, (n <= fuel)%nat ->
    read_map mr pid config parse_struct fuel p kn vn = Ret (CMap kname vname es EmptyString).
Proof.
  intros Hp H. destruct H as [hdr ctrl es Hh Hs Hu Hd Hl Hg Hsz Hm
    | hdr tps tables Hh Hu Hd Hl Hn Hsl Hsp Ht Hne Hm | hdr css Hh Hs Hcnt Hb Hn Hmb Hbp Hc Hsp Hm].
  - exists 0%nat. intros fuel _. rewrite (read_map_header _ _ _ Hp Hh). cbv zeta. rewrite Hs.
    rewrite (read_swiss_small fuel p hdr ctrl es) by done. cbn [run_bind]. rewrite Hl. change (to_signed 64 0) with 0%Z.
    cbn [Z.ltb Z.compare andb]. by rewrite andb_false_r.
  - exists 64%nat. intros fuel Hf. rewrite (read_map_header _ _ _ Hp Hh). cbv zeta.
    assert (Hsg : to_signed 64 (of_le (slice hdr 24 8)) = Z.of_N (lenN tps)) by (rewrite Hl; apply to_signed_small; lia).
    assert (Hs : is_swiss_header hdr = true).
    { unfold is_swiss_header. rewrite Hsg. rewrite (proj2 (Z.ltb_lt 0 _)), (proj2 (Z.leb_le _ 64)) by lia. done. }
    rewrite Hs, (read_swiss_header _ _ _ Hh), (proj2 (N.eqb_neq _ 0) Hu), (proj2 (N.eqb_neq _ 0) Hd), Hsg. cbn [orb]. cbv zeta.
    rewrite (proj2 (Z.ltb_ge (Z.of_N (lenN tps)) 0)), (proj2 (Z.eqb_neq (Z.of_N (lenN tps)) 0)), N2Z.id by lia.
    assert (Hdir : (0 < lenN (directory_entries tables (first_tables [] tps)))%N).
    { destruct (directory_entries tables (first_tables [] tps)) as [|e l]; [done|]. rewrite lenN_cons. lia. }
    change (lenN tps) with (0 + lenN tps)%N at 1.
    rewrite (read_directory_spec kn vn kname vname tables max tps fuel (of_le (slice hdr 16 8)) 0 [] []);
      [|by rewrite N.mul_0_l, N.add_0_r|done|by rewrite N.add_0_l|unfold lenN in Hn; lia|lia|rewrite lenN_nil; lia].
    cbn [run_map run_bind]. destruct (directory_entries tables (first_tables [] tps)) as [|e l]; done.
  - exists (list_max (map length css)). intros fuel Hf.
    rewrite (read_map_header _ _ _ Hp Hh). cbv zeta. rewrite Hs.
    rewrite (read_classic_map fuel p hdr css) by (done || (apply list_max_le, Forall_map in Hf; exact Hf)).
    cbn [run_bind]. rewrite Hcnt, N.ltb_irrefl, andb_false_r. done.
Qed.
End GoMap.

(** ** Rust maps *)

Section RustMap.
Context (kn vn : option NestedType).

Let kname := nested_name_or_unknown kn.
Let vname := nested_name_or_unknown vn.
Let ks := slot_type_size_fallback kn kname.
Let vs := slot_type_size_fallback vn vname.
Let val_offset := align_up ks (align_of vs).
Let pair_size := align_up (addr_add val_offset vs) (align_of (addr_add val_offset vs)).

Definition control_full (marker : byte) : bool := negb (128 <=? N_of_byte marker)%N.

(** A [RawTable] of [2 ^ bits] buckets whose control bytes start at [ctrl]:
    the header holds [ctrl], the mask and the number of items; bucket [i] lies
    [i + 1] pairs below the control bytes. *)
Record raw_table_at (hdr : list byte) (ctrl bits : N) (controls : list byte) (es : list entry) : Prop := {
  rt_header : (32 <= lenN hdr)%N;
  rt_ctrl : of_le (slice hdr 0 8) = ctrl;
  rt_mask : of_le (slice hdr 8 8) = (2 ^ bits - 1)%N;
  rt_items : of_le (slice hdr 24 8) = lenN es;
  rt_bits : (bits < 20)%N;
  rt_limit : (lenN es <= cc_max_array_values config)%N;
  rt_sizes : (0 < ks <= 2 ^ 20)%N /\ (0 < vs <= 2 ^ 20)%N;
  rt_controls : img_read img ctrl (2 ^ bits) = Some controls;
  rt_space : (0 < ctrl < 2 ^ 64)%N /\ (pair_size * 2 ^ bits <= ctrl)%N /\ (ctrl + val_offset < 2 ^ 64)%N;
  rt_slots : Forall2 (fun i e => pair_holds kn vn ks vs (ctrl - (i + 1) * pair_size) (ctrl - (i + 1) * pair_size + val_offset) e)
               (occupied control_full 0 controls) es
}.

Lemma occupied_length full markers s : (lenN (occupied full s markers) <= lenN markers)%N.
Proof.
  revert s. induction markers as [|m markers IH]; intros s; cbn [occupied]; [unfold lenN; cbn; lia|].
  specialize (IH (s + 1)%N). destruct (full m); rewrite ?lenN_cons in *; lia.
Qed.

Lemma zero_bytes_zero l hdr : forallb (fun b => (N_of_byte b =? 0)%N) hdr = true -> (forall b, b ∈ l -> b ∈ hdr) -> of_le l = 0%N.
Proof.
  intros Hall. induction l as [|b l IH]; intros Hin; [done|]. cbn [of_le].
  rewrite IH by (intros; apply Hin; by right).
  assert (Hb : In b hdr) by (apply list_elem_of_In, Hin; left).
  apply (proj1 (forallb_forall _ _) Hall) in Hb. apply N.eqb_eq in Hb. lia.
Qed.

Lemma raw_table_found hdr ctrl bits controls es : raw_table_at hdr ctrl bits controls es ->
  first_some (plausible_table config hdr) raw_table_layouts = Some ((2 ^ bits - 1)%N, ctrl, lenN es).
Proof.
  intros [Hl Hc Hm Hi Hb Hcap _ Hr Hsp Hs]. unfold raw_table_layouts. cbn [first_some].
  assert (H2 : (0 < 2 ^ bits)%N) by (apply N.neq_0_lt_0, N.pow_nonzero; lia).
  assert (Hpow : (2 ^ bits < 2 ^ 20)%N) by (apply N.pow_lt_mono_r; lia).
  assert (Hes : (lenN es <= 2 ^ bits)%N).
  { pose proof (occupied_length control_full controls 0). apply Forall2_length in Hs.
    rewrite (img_read_len _ _ _ _ Hr) in H. unfold lenN in *. lia. }
  unfold plausible_table, header_u64. rewrite (proj2 (N.ltb_ge (lenN hdr) (24 + 8))) by lia.
  rewrite (proj2 (N.leb_le (8 + 8) (lenN hdr))), (proj2 (N.leb_le (0 + 8) (lenN hdr))), (proj2 (N.leb_le (24 + 8) (lenN hdr))) by lia.
  cbn [mbind option_bind].
  rewrite Hc, Hm, Hi. rewrite (proj2 (N.eqb_neq ctrl 0)) by lia.
  rewrite (proj2 (N.ltb_lt (2 ^ bits - 1) (2 ^ 20))) by lia.
  replace (2 ^ bits - 1 + 1)%N with (2 ^ bits)%N by lia.
  rewrite (proj2 (N.leb_le (lenN es) (2 ^ bits))), (proj2 (N.leb_le (lenN es) (cc_max_array_values config))) by lia.
  replace (2 ^ bits - 1)%N with (N.ones bits) by (rewrite N.ones_equiv; lia).
  rewrite N.land_ones, N.Div0.mod_same. done.
Qed.

(** A Rust [HashMap] whose table is laid out in the process is read back whole,
    and is not reported as partial. *)
Theorem rust_map_is_read hdr ctrl bits controls es : raw_table_at hdr ctrl bits controls es ->
  read_rust_hash_map_header mr pid config parse_struct hdr kn vn = Ret (CMap kname vname es EmptyString).
Proof.
  intros Hraw. pose proof (raw_table_found _ _ _ _ _ Hraw) as Hfound.
  destruct Hraw as [Hl Hc Hm Hi Hb Hcap [Hks Hvs] Hr [Hsp [Hlow Hhi]] Hs]. unfold read_rust_hash_map_header.
  rewrite (proj2 (N.ltb_ge (lenN hdr) 32)) by lia.
  assert (Hnz : forallb (fun b => (N_of_byte b =? 0)%N) hdr = false).
  { apply not_true_iff_false. intros Hall. apply (zero_bytes_zero (slice hdr 0 8)) in Hall as Hz; [lia|].
    intros b (i & Hb0 & _)%elem_of_take. rewrite lookup_drop in Hb0. by eapply list_elem_of_lookup_2. }
  rewrite Hnz, Hfound. rewrite (proj2 (N.eqb_neq ctrl 0)) by lia. cbn [orb].
  assert (H2 : (0 < 2 ^ bits)%N) by (apply N.neq_0_lt_0, N.pow_nonzero; lia).
  destruct (N.eqb_spec (lenN es) 0) as [He|He].
  { destruct es as [|e es]; [done|]. rewrite lenN_cons in He. lia. }
  replace (2 ^ bits - 1 + 1)%N with (2 ^ bits)%N by lia.
  rewrite (fr_bytes ctrl _ _ H2 Hr). fold kname vname ks vs.
  rewrite (proj2 (N.eqb_neq ks 0)), (proj2 (N.eqb_neq vs 0)), (proj2 (N.ltb_ge (2 ^ 20) ks)), (proj2 (N.ltb_ge (2 ^ 20) vs)) by lia.
  cbn [orb]. fold val_offset. fold pair_size. rewrite (proj2 (N.ltb_ge ctrl _)) by lia.
  unfold read_controls. pose proof (img_read_len _ _ _ _ Hr) as Hlen.
  match goal with |- context [scan_slots ?full ?ra ?m 0 controls []] =>
    destruct (scan_slots_spec full ra m controls 0 [] es) as (st & -> & _) end.
  - eapply Forall2_impl_in; [exact Hs|]. intros i e Hin Hp. cbn beta.
    apply occupied_bounds in Hin. rewrite Hlen in Hin.
    assert (Hmul : ((i + 1) * pair_size <= pair_size * 2 ^ bits)%N) by (rewrite N.mul_comm; apply N.mul_le_mono_l; lia).
    rewrite addr_mul_small, addr_add_small by lia. by apply read_pair_holds.
  - cbn [run_map run_bind fst app]. rewrite budget_all by (rewrite lenN_nil; lia). by rewrite N.eqb_refl.
Qed.
End RustMap.
End Reading.

(** ** Defects of the readers *)

(** A directory map is cut to half of the limit: what is left of the limit is
    passed to the reader of a table, which compares it with the number of entries
    read so far; once half of the limit is read, further tables add nothing. *)
Theorem later_tables_ignored (mr : MemReader) (pid : N) (img : image) `{!FaithfulReader mr pid img} (config : CaptureConfig)
    (parse_struct : N -> string -> NestedType -> run (result CapturedValue EbpfError)) kn vn kname vname tp gs max entries :
  (cc_max_string_capture config <= 1024)%N -> table_at img config kn vn kname vname tp gs ->
  (max <= 2 * lenN entries)%N ->
  read_table mr pid config parse_struct kn vn kname vname tp (max - lenN entries) entries = Ret (Ok entries).
Proof.
  intros Hs Ht Hm. rewrite (read_table_spec mr pid img config Hs parse_struct _ _ _ _ _ _ _ _ Ht).
  by rewrite budget_full, app_nil_r by lia.
Qed.

(** A chain of buckets that leads back to itself and has no entry is followed for
    ever: the walk stops only at a null pointer or at the limit of entries. *)
Theorem cyclic_chain_never_ends (mr : MemReader) (pid : N) (img : image) `{!FaithfulReader mr pid img} (config : CaptureConfig)
    (parse_struct : N -> string -> NestedType -> run (result CapturedValue EbpfError)) kn vn kname vname addr tophash max fuel entries :
  (cc_max_string_capture config <= 1024)%N -> addr <> 0%N -> (lenN entries < max)%N ->
  bucket_at img config kn vn kname vname addr tophash [] addr ->
  let ks := slot_type_size_fallback kn kname in
  let vs := slot_type_size_fallback vn vname in
  read_classic_bucket mr pid config parse_struct kn vn kname vname 8 (fst (bucket_layout ks vs)) (snd (bucket_layout ks vs))
    HASH_MIN_TOPHASH_GO112 max fuel addr entries = Looping.
Proof.
  intros Hs Ha Hm Hb. cbv zeta.
  assert (Hempty : forall n, budget n entries (@nil entry) = []) by (intros; apply budget_nil).
  induction fuel as [|fuel IH]; cbn [read_classic_bucket];
    rewrite (proj2 (N.eqb_neq addr 0) Ha), (proj2 (N.leb_gt max (lenN entries)) Hm); cbn [orb]; [done|].
  destruct (read_tophash_bucket mr pid img config Hs parse_struct _ _ _ _ max _ _ _ _ entries Hb) as (st & Hr & Hst).
  destruct Hb as [Ht Hsp _ Hover]. unfold BUCKET_COUNT. rewrite (fr_bytes addr 8 tophash) by (lia || done).
  rewrite (img_read_len _ _ _ _ Ht). cbn [N.eqb Pos.eqb negb]. rewrite Hr. cbn [run_bind].
  rewrite Hempty, app_nil_r in *. destruct st; [specialize (Hst eq_refl); lia|].
  rewrite (addr_add_small addr) by lia. rewrite (fr_u64 _ _ Hover). rewrite (proj2 (N.eqb_neq addr 0) Ha). cbn [negb]. exact IH.
Qed.

(** The directory walk goes through as many slots as the length says, readable
    or not. *)
Definition dead_slot (mr : MemReader) (pid addr : N) : Prop :=
  match mr_read_u64 mr pid addr with
  | Err _ => True
  | Ok tp => tp = 0%N \/ is_ok (mr_read_bytes mr pid tp 32) = false
  end.

Lemma dead_directory_spins (mr : MemReader) pid config parse_struct kn vn kname vname dir_ptr dir_len max entries :
  (forall i, (i < dir_len)%N -> dead_slot mr pid (addr_add dir_ptr (addr_mul i 8))) -> (lenN entries < max)%N ->
  forall fuel i seen, (i + N.of_nat fuel < dir_len)%N ->
  read_directory mr pid config parse_struct kn vn kname vname fuel dir_ptr dir_len max i seen entries = Looping.
Proof.
  intros Hd Hm. induction fuel as [|fuel IH]; intros i seen Hi; cbn [read_directory];
    rewrite (proj2 (N.leb_gt dir_len i)), (proj2 (N.leb_gt max (lenN entries))) by lia; cbn [orb]; [done|].
  specialize (Hd i ltac:(lia)). unfold dead_slot in Hd.
  destruct (mr_read_u64 mr pid (addr_add dir_ptr (addr_mul i 8))) as [tp|e]; [|apply IH; lia].
  destruct Hd as [-> | Hd]; [apply IH; lia|].
  destruct ((tp =? 0)%N || bool_decide (tp ∈ seen)); [apply IH; lia|].
  unfold read_table. destruct (mr_read_bytes mr pid tp 32); [done|]. cbn [run_bind]. apply IH. lia.
Qed.

(** ** Images made of blocks *)

Fixpoint image_of (blocks : list (N * list byte)) : image :=
  match blocks with
  | [] => fun _ => None
  | (base, bytes) :: blocks => fun a =>
      if (base <=? a)%N && (a <? base + lenN bytes)%N then bytes !! N.to_nat (a - base) else image_of blocks a
  end.

Definition int64_type : NestedType :=
  NScalar (mkTI "int64" SQWord 8 false false false false false false false 0 EmptyString EmptyString 0 None).

Lemma holds_int64 img lim addr v : img_u64 img addr = Some v -> slot_holds img lim (Some int64_type) 8 addr (CScalar v).
Proof. intros (bytes & Hr & _ & ->)%img_u64_read. by apply holds_scalar. Qed.

Definition words (l : list N) : list byte := List.concat (map (to_le 8) l).

(** A small Swiss map with the entries 7 -> 70 and 9 -> 90. *)
Definition small_map_image : image := image_of
  [(4096, words [2; 2 ^ 64 - 1; 8192; 0; 0; 0]);
   (8192, [x01; x80; x02; x80; x80; x80; x80; x80] ++ words [7; 70; 0; 0; 9; 90; 0; 0; 0; 0; 0; 0; 0; 0; 0; 0])]%N%list.

Definition small_map_entries : list entry := [(CScalar 7, CScalar 70); (CScalar 9, CScalar 90)].

Lemma small_map_at : go_map_at (linux_reader (flat_kernel small_map_image)) 1 small_map_image default_config
  (Some int64_type) (Some int64_type) 4096 small_map_entries.
Proof.
  eapply swiss_small_at with (ctrl := [x01; x80; x02; x80; x80; x80; x80; x80]); try (vm_compute; (reflexivity || discriminate)).
  constructor; [vm_compute; reflexivity..|].
  change (occupied _ _ _) with [0; 2]%N. unfold small_map_entries.
  repeat constructor; apply holds_int64; vm_compute; reflexivity.
Qed.

Lemma go_map_is_read_witness : exists n, forall fuel, (n <= fuel)%nat ->
  read_map (linux_reader (flat_kernel small_map_image)) 1 default_config (fun _ _ _ => Panic) fuel 4096 (Some int64_type) (Some int64_type)
  = Ret (CMap "int64" "int64" small_map_entries EmptyString).
Proof.
  apply (@go_map_is_read (linux_reader (flat_kernel small_map_image)) 1 small_map_image
    (linux_reader_faithful _ _ _ (flat_kernel_shows 1 small_map_image)) default_config); [by vm_compute|done|exact small_map_at].
Defined.

(** A Rust table of two buckets; bucket 1 holds 7 -> 70. *)
Definition rust_map_image : image := image_of [(8192, words [7; 70; 0; 0] ++ [xff; x05])]%N%list.
Definition rust_map_header : list byte := words [8224; 1; 0; 1]%N.

Lemma rust_map_is_read_witness :
  read_rust_hash_map_header (linux_reader (flat_kernel rust_map_image)) 1 default_config (fun _ _ _ => Panic) rust_map_header
    (Some int64_type) (Some int64_type) = Ret (CMap "int64" "int64" [(CScalar 7, CScalar 70)] EmptyString).
Proof.
  apply (@rust_map_is_read (linux_reader (flat_kernel rust_map_image)) 1 rust_map_image
    (linux_reader_faithful _ _ _ (flat_kernel_shows 1 rust_map_image)) default_config ltac:(by vm_compute) _ (Some int64_type) (Some int64_type)
    rust_map_header 8224 1 [xff; x05]).
  constructor; try (vm_compute; (reflexivity || discriminate)).
  - repeat split; vm_compute; (reflexivity || discriminate).
  - repeat split; vm_compute; (reflexivity || discriminate).
  - change (occupied _ _ _) with [1]%N. repeat constructor; apply holds_int64; vm_compute; reflexivity.
Defined.

(** A bucket array of one entry (7 -> 70) that is growing from one bucket to two,
    the old bucket not yet moved. *)
Definition growing_map_image : image := image_of
  [(4096, words [1; 256; 8192; 12288; 0; 0]);
   (8192, words (repeat 0 36));
   (12288, [x05; x00; x00; x00; x00; x00; x00; x00] ++ words ([7] ++ repeat 0 7 ++ [70] ++ repeat 0 7 ++ [0]))]%N%list.
Definition growing_reader : MemReader := linux_reader (flat_kernel growing_map_image).

Definition dead_slotb (mr : MemReader) (pid addr : N) : bool :=
  match mr_read_u64 mr pid addr with Err _ => true | Ok tp => (tp =? 0)%N || negb (is_ok (mr_read_bytes mr pid tp 32)) end.

Lemma growing_directory_dead i : (i < 12288)%N -> dead_slot growing_reader 1 (addr_add 8192 (addr_mul i 8)).
Proof.
  intros Hi.
  assert (Hall : forallb (fun n => dead_slotb growing_reader 1 (addr_add 8192 (addr_mul (N.of_nat n) 8))) (seq 0 (N.to_nat 12288)) = true)
    by (vm_compute; reflexivity).
  apply (proj1 (forallb_forall _ _)) with (x := N.to_nat i) in Hall; [|apply in_seq; lia].
  rewrite N2Nat.id in Hall. unfold dead_slotb in Hall. unfold dead_slot.
  destruct (mr_read_u64 _ _ _); [|done]. apply orb_true_iff in Hall as [H|H]; [left; by apply N.eqb_eq|].
  right. by apply negb_true_iff.
Qed.

(** While a bucket array grows, a bucket that is not yet moved is read twice, once
    for each half.  The map then has more entries than its header counts, so it is
    taken for a Swiss map, and the address of its old buckets for the length of a
    directory: the reader makes as many rounds as that address says. *)
Theorem growing_map_read_twice_and_spins parse_struct :
  (forall fuel, read_classic_map_inner growing_reader 1 default_config parse_struct (S fuel) (Some int64_type) (Some int64_type)
     "int64" "int64" 4096 = Ret (Ok [(CScalar 7, CScalar 70); (CScalar 7, CScalar 70)]))
  /\ (forall fuel, (N.of_nat fuel < 12288)%N ->
        read_map growing_reader 1 default_config parse_struct fuel 4096 (Some int64_type) (Some int64_type) = Looping).
Proof.
  assert (Hc : forall fuel, read_classic_map_inner growing_reader 1 default_config parse_struct (S fuel) (Some int64_type) (Some int64_type)
     "int64" "int64" 4096 = Ret (Ok [(CScalar 7, CScalar 70); (CScalar 7, CScalar 70)])) by (intros; vm_compute; reflexivity).
  split; [exact Hc|]. intros [|fuel] Hf; [vm_compute; reflexivity|].
  pose proof (linux_reader_faithful _ _ _ (flat_kernel_shows 1 growing_map_image)) as HF.
  pose (hdr := words [1; 256; 8192; 12288; 0; 0]%N).
  assert (Hh : img_read growing_map_image 4096 48 = Some hdr) by (vm_compute; reflexivity).
  rewrite (read_map_header growing_reader 1 growing_map_image default_config ltac:(by vm_compute) parse_struct _ _ _ 4096%N hdr ltac:(done) Hh). cbv zeta.
  change (is_swiss_header hdr) with false. cbv iota.
  change (nested_name_or_unknown (Some int64_type)) with "int64". rewrite Hc. cbn [run_bind].
  change ((0 <? of_le (slice hdr 0 8))%N && (of_le (slice hdr 0 8) <? lenN [(CScalar 7, CScalar 70); (CScalar 7, CScalar 70)])%N)
    with true. cbv iota.
  change "int64" with (nested_name_or_unknown (Some int64_type)).
  rewrite (read_swiss_header growing_reader 1 growing_map_image default_config ltac:(by vm_compute) parse_struct _ _ _ _ hdr Hh).
  change (of_le (slice hdr 0 8)) with 1%N. change (of_le (slice hdr 16 8)) with 8192%N. change (of_le (slice hdr 24 8)) with 12288%N.
  cbn [N.eqb orb]. change (to_signed 64 12288) with 12288%Z. cbn [Z.ltb Z.compare Z.eqb]. change (Z.to_N 12288) with 12288%N.
  rewrite dead_directory_spins; [done|exact growing_directory_dead|by vm_compute|lia].
Qed.

(** The alignment of a value is guessed from its size: for a 4-byte key and an
    8-byte value made of two 4-byte fields, the value is looked for at offset 8 of
    a 16-byte slot, where Go puts it at offset 4 of a 12-byte slot. *)
Theorem alignment_guessed_from_size ti fields depth :
  ti_byte_size ti = 8%N ->
  compute_slot_layout None (Some (NStruct ti fields depth)) "int32" (ti_name ti) = (8, 16)%N.
Proof. intros H. unfold compute_slot_layout, slot_type_size_fallback. cbn [nested_type_info]. rewrite H. reflexivity. Qed.

Lemma alignment_guessed_from_size_witness :
  compute_slot_layout None (Some (NStruct unknown_type [] 0)) "int32" "unknown" = (8, 16)%N.
Proof. apply (alignment_guessed_from_size unknown_type [] 0). reflexivity. Defined.
