(* ===== verification/StructReader.v ===== *)
(** * Reading structs out of a running process

    The user-space half of [crates/detrix-ebpf/src/probe/ringbuf.rs]:
    [parse_struct_fields_from_addr] follows a type tree through the memory of the
    process, [parse_struct_fields_from_blob] decodes bytes the probe captured
    inline, and both descend into slices, maps, embedded structs and pointers.

    The two functions call each other on smaller type trees.  They are written
    over one another's results ([addr_body], [blob_body]) and tied by recursion on
    fuel; the height of the type tree is always enough ([reader_fuel]).  Addresses
    wrap around; sums of an offset and a size inside a captured blob are plain sums
    (they stay below 2^64 for any type that fits an address space).  The date
    library ([datetime]) and the text of a decoding error are parameters. *)

From Stdlib Require Import Strings.String Strings.Ascii Init.Byte.
From S2P Require Import Prelude RustStr RustText Decode TypeInfo MemReader ProbeValue MapReader.

Local Open Scope string_scope.

(** ** Names *)

(** [find_struct_pointee]: at most [n] pointers are unwrapped. *)
Fixpoint find_struct_pointee_from (n : nat) (nested : NestedType) : option (string * list StructField) :=
  match n with
  | O => None
  | S n =>
      match nested with
      | NPointer _ pointee => find_struct_pointee_from n pointee
      | NStruct ti fields _ => Some (ti_name ti, fields)
      | _ => None
      end
  end.
Definition find_struct_pointee (nested : NestedType) : option (string * list StructField) :=
  find_struct_pointee_from (N.to_nat MAX_DEPTH) nested.

(** [s.find(c)], as the text before and after the first [c] *)
Definition find_char (c : ascii) (s : string) : option (string * string) := split_once c s.

(** [parse_map_type_names]; taking the text between a comma and a closing bracket
    that comes before it is a panic. *)
Definition parse_map_type_names (type_name : string) : run (string * string) :=
  match (inner ← strip_prefix "map[" type_name; find_char "]" inner) with
  | Some (key, val) => Ret (key, val)
  | None =>
      match strip_prefix "map<" type_name with
      | None => Ret ("unknown", "unknown")
      | Some inner =>
          match find_char "," inner, find_char ">" inner with
          | Some (before_comma, after_comma), Some (before_gt, _) =>
              if (str_len before_gt <? str_len before_comma + 1)%N then Panic
              else Ret (trim before_comma,
                        trim (String.substring (N.to_nat (str_len before_comma + 1))
                                (N.to_nat (str_len before_gt - (str_len before_comma + 1))) inner))
          | _, _ => Ret ("unknown", "unknown")
          end
      end
  end.

Definition is_probably_rust_type (type_name : string) : bool :=
  let name := trim type_name in
  starts_with "Option<" name || starts_with "core::option::Option<" name || starts_with "std::option::Option<" name
  || contains "dyn " name || contains "DetrixAsyncState" name || contains "detrix::AsyncState" name.

Definition is_rust_owned_string_type (type_name : string) : bool :=
  existsb (String.eqb (trim type_name)) ["String"; "alloc::string::String"; "std::string::String"].

Definition is_rust_hash_map_type (type_name : string) : bool :=
  contains "HashMap<" type_name || contains "hash::map::HashMap<" type_name.

Definition is_rust_map_field (type_name : string) (is_map : bool) : bool :=
  is_rust_hash_map_type type_name
  || (is_map && negb (starts_with "map[" (trim_start type_name)) && negb (starts_with "map<" (trim_start type_name))).

Definition rust_string_header_offsets (type_name : string) : N * N * N :=
  if is_rust_owned_string_type type_name then (8, 16, 24)%N else (0, 8, 16)%N.

Definition rust_slice_header_offsets (type_name : string) : N * N * N * N :=
  let name := trim type_name in
  if starts_with "Vec<" name || starts_with "alloc::vec::Vec<" name || starts_with "std::vec::Vec<" name then (8, 16, 16, 24)%N
  else if starts_with "&[" name || starts_with "&mut [" name then (0, 8, 8, 16)%N
  else (0, 8, 16, 24)%N.

Definition read_layout_word (bytes : list byte) (offset size : N) : option N :=
  if negb (existsb (N.eqb size) [1; 2; 4; 8]%N) then None
  else end_ ← usize_add offset size;
       if (end_ <=? lenN bytes)%N then Some (of_le (slice bytes offset size)) else None.

Definition is_go_map_name (name : string) : bool := starts_with "map[" name || starts_with "map<" name.

(** ** Words of a captured record *)

Definition word_error (label want : string) (slice : list byte) : EbpfError :=
  ERingBuffer (label ++ ": expected " ++ want ++ " bytes, got " ++ show_N (lenN slice)).
Definition read_u64_le (slice : list byte) (label : string) : result N EbpfError :=
  if (lenN slice =? 8)%N then Ok (of_le slice) else Err (word_error label "8" slice).
Definition read_u32_le (slice : list byte) (label : string) : result N EbpfError :=
  if (lenN slice =? 4)%N then Ok (of_le slice) else Err (word_error label "4" slice).
Definition read_u16_le (slice : list byte) (label : string) : result N EbpfError :=
  if (lenN slice =? 2)%N then Ok (of_le slice) else Err (word_error label "2" slice).

Definition read_word_le (size : N) (slice : list byte) (label : string) : result N EbpfError :=
  match size with
  | 8%N => read_u64_le slice label
  | 4%N => read_u32_le slice label
  | 2%N => read_u16_le slice label
  | 1%N => Ok (of_le (take 1 slice))
  | _ => Ok 0%N
  end.

(** Scalars by type name: floats are floats. *)
Definition is_f64_name (name : string) : bool := String.eqb name "float64" || String.eqb name "f64".
Definition is_f32_name (name : string) : bool := String.eqb name "float32" || String.eqb name "f32".
Definition scalar_by_name (name : string) (val : N) : CapturedValue :=
  if is_f64_name name then CFloat val
  else if is_f32_name name then CFloat (f32_to_f64 (wrap 32 val))
  else CScalar val.

(** ** Enums *)

Definition variant_specs (layout : EnumLayout) : list EnumVariantSpec :=
  omap (fun v => d ← evl_discriminant v;
                 if (0 <=? d)%Z && (d <? 2 ^ 64)%Z
                 then Some (mkVariant (evl_name v) (Z.to_N d) (evl_payload_offset v) (evl_payload_size v)) else None)
    (el_variants layout).

Definition enum_value (type_name : string) (d : DecodedEnum) : CapturedValue :=
  CStruct type_name [("variant", CString (as_bytes (de_variant d)) (str_len (de_variant d))); ("discriminant", CScalar (de_discriminant d))].

Definition bad_enum (name : string) : CapturedValue := CError ("enum '" ++ name ++ "' has incomplete or niche DWARF layout").

Definition read_failed : list byte := as_bytes "<read-failed>".

(** ** Traversal of lists *)

(** A [for] loop whose body may return early with an error. *)
Fixpoint try_list {A B E : Type} (f : A -> run (result B E)) (l : list A) : run (result (list B) E) :=
  match l with
  | [] => Ret (Ok [])
  | a :: l => run_try (f a) (fun b => run_try (try_list f l) (fun bs => Ret (Ok (b :: bs))))
  end.

Definition indices (n : N) : list N := map N.of_nat (seq 0 (N.to_nat n)).

Definition limit_fields (config : CaptureConfig) (fields : list StructField) : list StructField :=
  if (0 <=? cc_max_struct_fields config)%Z then take (Z.to_nat (cc_max_struct_fields config)) fields else fields.

Section Readers.
Context (mr : MemReader) (pid : N) (config : CaptureConfig).
Context (datetime : Z -> option string) (decode_error_text : ScalarDecodeError -> string).
Context (loop_fuel : nat).

Definition read_u64_or_error (addr : N) (context : string) : result N EbpfError :=
  map_err (fun e => ERingBuffer (context ++ ": " ++ ebpf_error_text e)) (mr_read_u64 mr pid addr).

Definition format_unix_timestamp (unix_secs : Z) : string :=
  match datetime unix_secs with Some s => s | None => show_Z unix_secs ++ " (invalid timestamp)" end.

(** The text of a [time.Time] from its two words. *)
Definition time_text (wall ext : N) : string :=
  if N.testbit wall 63 then
    let sec := Z.of_N (N.shiftr (wrap 64 (wall * 2)) 31) in
    format_unix_timestamp (sec + -2682288000)
  else format_unix_timestamp (to_signed 64 (of_signed 64 (to_signed 64 ext + -62135596800))).

Definition time_value (wall ext : result N EbpfError) : CapturedValue :=
  match wall, ext with
  | Ok wall, Ok ext =>
      let text := time_text wall ext in
      CStruct "time.Time" [("wall", CScalar wall); ("ext", CScalar ext); ("str_value", CString (as_bytes text) (str_len text))]
  | Err e, _ | _, Err e => CError (ebpf_error_text e)
  end.

Section Body.
Context (rec_addr : N -> string -> option NestedType -> N -> run (result CapturedValue EbpfError)).
Context (rec_blob : list byte -> string -> list StructField -> run CapturedValue).

(** The struct reader the map readers use. *)
Definition slot_struct (addr : N) (name : string) (t : NestedType) : run (result CapturedValue EbpfError) :=
  rec_addr addr name (Some t) 0.

Definition map_types (nested : option NestedType) : option NestedType * option NestedType :=
  match nested with Some (NMap _ k v) => (Some k, Some v) | _ => (None, None) end.

Definition read_map_field (map_ptr : N) (nested : option NestedType) : run CapturedValue :=
  let '(k, v) := map_types nested in read_map mr pid config slot_struct loop_fuel map_ptr k v.

(** *** Slice elements *)

Definition parse_slice_element (elem_addr : N) (element : NestedType) (element_size : N) : run (result CapturedValue EbpfError) :=
  let failed what e := ERingBuffer ("Failed to read " ++ what ++ " at " ++ hex_prefixed elem_addr ++ ": " ++ ebpf_error_text e) in
  let word what k := Ret (let? val := map_err (failed what) (mr_read_u64 mr pid elem_addr) in Ok (k val)) in
  match element with
  | NStruct ti _ _ => rec_addr elem_addr (ti_name ti) (Some element) 0
  | NScalar ti =>
      if ti_is_string ti then
        let '(ptr_offset, len_offset, _) := rust_string_header_offsets (ti_name ti) in
        Ret (let? str_ptr := map_err (failed "string ptr") (mr_read_u64 mr pid (addr_add elem_addr ptr_offset)) in
             let? str_len := map_err (failed "string len") (mr_read_u64 mr pid (addr_add elem_addr len_offset)) in
             if negb (str_ptr =? 0)%N && (0 <? str_len)%N then
               match mr_read_string mr pid str_ptr (N.min str_len (cc_max_string_capture config)) with
               | Ok s => Ok (CString (as_bytes s) (RustStr.str_len s))
               | Err _ => Ok (CString read_failed str_len)
               end
             else Ok (CString [] 0))
      else if is_f64_name (ti_name ti) then word "float64" CFloat
      else if is_f32_name (ti_name ti) then word "float32" (fun val => CFloat (f32_to_f64 (wrap 32 val)))
      else word "scalar" CScalar
  | NPointer _ _ => word "pointer" CScalar
  | _ =>
      Ret (Ok (match mr_read_bytes mr pid elem_addr element_size with Ok bytes => CBytes bytes | Err _ => CError "read failed" end))
  end.

Definition slice_value (elem_type : string) (len cap : N) (elements : list CapturedValue) : CapturedValue :=
  CStruct ("[]" ++ elem_type) [("len", CScalar len); ("cap", CScalar cap); ("elements", CArray elem_type elements)].

Definition array_element_of (nested : option NestedType) : option NestedType :=
  match nested with Some (NArray _ e _) => Some e | _ => None end.

(** *** Fields at an address *)

Definition addr_string (field_addr : N) (f : StructField) : CapturedValue :=
  let '(ptr_offset, len_offset, _) := rust_string_header_offsets (ti_name (sf_type_info f)) in
  match read_u64_or_error (addr_add field_addr ptr_offset) ("string ptr for '" ++ sf_name f ++ "'"),
        read_u64_or_error (addr_add field_addr len_offset) ("string len for '" ++ sf_name f ++ "'") with
  | Ok ptr, Ok len =>
      if negb (ptr =? 0)%N && (0 <? len)%N then
        match mr_read_string mr pid ptr len with
        | Ok s => CString (as_bytes s) len
        | Err _ => CString read_failed len
        end
      else CString [] 0
  | Err e, _ | _, Err e => CError (ebpf_error_text e)
  end.

Definition addr_enum (field_addr : N) (f : StructField) : CapturedValue :=
  let name := ti_name (sf_type_info f) in
  match ti_enum_layout (sf_type_info f) with
  | Some layout =>
      if is_explicit_non_niche layout then
        let size := N.max 1 (N.min 8 (sf_byte_size f)) in
        match mr_read_bytes mr pid field_addr size with
        | Err e => CError (ebpf_error_text e)
        | Ok bytes =>
            match decode_enum_variant (mkBlob name bytes) (el_discriminant_offset layout) (el_discriminant_size layout)
                    (variant_specs layout) (cc_max_blob_capture config) with
            | Ok d => enum_value name d
            | Err e => CError (ebpf_error_text (ERingBuffer (decode_error_text e)))
            end
        end
      else bad_enum name
  | None => bad_enum name
  end.

Definition addr_array (field_addr : N) (f : StructField) : run (result CapturedValue EbpfError) :=
  let count := ti_array_element_count (sf_type_info f) in
  let elem_size := N.max 1 (sf_byte_size f / count) in
  let element_nested := array_element_of (sf_nested_type f) in
  let element_name :=
    match element_nested with
    | Some n => if String.eqb (nested_name n) "unknown" then ti_array_element_type (sf_type_info f) else nested_name n
    | None => ti_array_element_type (sf_type_info f)
    end in
  run_try (try_list (fun index =>
      let addr := addr_add field_addr (addr_mul index elem_size) in
      match element_nested with
      | Some n => parse_slice_element addr n elem_size
      | None =>
          Ret (let? v := read_u64_or_error addr ("array element " ++ show_N index) in
               Ok (if is_f64_name element_name then CFloat v else CScalar v))
      end) (indices count))
    (fun elements => Ret (Ok (CArray element_name elements))).

Definition addr_slice (field_addr : N) (f : StructField) : run (result CapturedValue EbpfError) :=
  let '(ptr_offset, len_offset, cap_offset, _) := rust_slice_header_offsets (ti_name (sf_type_info f)) in
  match read_u64_or_error (addr_add field_addr ptr_offset) ("slice ptr for '" ++ sf_name f ++ "'"),
        read_u64_or_error (addr_add field_addr len_offset) ("slice len for '" ++ sf_name f ++ "'"),
        read_u64_or_error (addr_add field_addr cap_offset) ("slice cap for '" ++ sf_name f ++ "'") with
  | Ok slice_ptr, Ok slice_len, Ok slice_cap =>
      if negb (slice_ptr =? 0)%N && (0 <? slice_len)%N && (slice_len <=? cc_max_array_values config)%N then
        let element := array_element_of (sf_nested_type f) in
        let element_size :=
          match element with
          | Some e => N.max 1 (ti_byte_size (nested_type_info e))
          | None => if (0 <? ti_element_byte_size (sf_type_info f))%N then ti_element_byte_size (sf_type_info f) else 8%N
          end in
        let elem_type :=
          match element with
          | Some e => nested_name e
          | None => if str_is_empty (ti_slice_element_type (sf_type_info f)) then "unknown" else ti_slice_element_type (sf_type_info f)
          end in
        run_try (try_list (fun i =>
            let elem_addr := addr_add slice_ptr (addr_mul i element_size) in
            match element with
            | Some e => parse_slice_element elem_addr e element_size
            | None => Ret (Ok (match mr_read_bytes mr pid elem_addr element_size with Ok b => CBytes b | Err _ => CError "read failed" end))
            end) (indices slice_len))
          (fun elements => Ret (Ok (slice_value elem_type slice_len slice_cap elements)))
      else Ret (Ok (CSlice slice_len slice_cap))
  | Err e, _, _ | _, Err e, _ | _, _, Err e => Ret (Ok (CError (ebpf_error_text e)))
  end.

Definition is_time (name : string) : bool := String.eqb name "time.Time" || ends_with ".Time" name.

Definition addr_map (field_addr : N) (f : StructField) : run CapturedValue :=
  match read_u64_or_error field_addr ("map ptr for '" ++ sf_name f ++ "'") with
  | Ok map_ptr => if (map_ptr =? 0)%N then Ret (CMap "?" "?" [] "nil map") else read_map_field map_ptr (sf_nested_type f)
  | Err e => Ret (CError (ebpf_error_text e))
  end.

Definition zero_bytes (n : N) : list byte := repeat x00 (N.to_nat n).

Definition addr_struct (field_addr : N) (f : StructField) : run CapturedValue :=
  let blob_size := N.min (sf_byte_size f) (cc_max_blob_capture config) in
  match mr_read_bytes mr pid field_addr blob_size with
  | Err _ => Ret (CBytes (zero_bytes blob_size))
  | Ok bytes =>
      match sf_nested_type f with
      | Some (NStruct sub_ti sub_fields _) => rec_blob bytes (ti_name sub_ti) sub_fields
      | _ => Ret (CBytes bytes)
      end
  end.

(** The loop that unwraps pointers to find a struct. *)
Fixpoint pointee_struct (n : NestedType) : option TypeInfo :=
  match n with
  | NPointer _ p => pointee_struct p
  | NStruct ti _ _ => Some ti
  | _ => None
  end.

Definition addr_pointer (field_addr : N) (f : StructField) (depth : N) : run CapturedValue :=
  match read_u64_or_error field_addr ("pointer value for '" ++ sf_name f ++ "'") with
  | Err e => Ret (CError (ebpf_error_text e))
  | Ok ptr_val =>
      if (ptr_val =? 0)%N then Ret (CScalar 0)
      else match sf_nested_type f with
      | None => Ret (CScalar ptr_val)
      | Some nested =>
          match pointee_struct nested with
          | Some ti =>
              let! r := rec_addr ptr_val (ti_name ti) (Some nested) (depth + 1) in
              Ret (match r with Ok v => v | Err _ => CScalar ptr_val end)
          | None => Ret (CScalar ptr_val)
          end
      end
  end.

Definition narrow (name : string) (val : N) : N :=
  if existsb (String.eqb name) ["u8"; "i8"; "bool"] then N.land val 255
  else if existsb (String.eqb name) ["u16"; "i16"] then N.land val 65535
  else if existsb (String.eqb name) ["u32"; "i32"; "f32"] then N.land val 4294967295
  else val.

Definition addr_scalar (field_addr : N) (f : StructField) : CapturedValue :=
  match read_u64_or_error field_addr ("scalar value for '" ++ sf_name f ++ "'") with
  | Ok val => scalar_by_name (ti_name (sf_type_info f)) (narrow (ti_name (sf_type_info f)) val)
  | Err e => CError (ebpf_error_text e)
  end.

(** One field of [parse_struct_fields_from_addr]. *)
Definition addr_field (struct_base_addr depth : N) (f : StructField) : run (result CapturedValue EbpfError) :=
  let ti := sf_type_info f in
  let field_addr := addr_add struct_base_addr (sf_byte_offset f) in
  let lift m := run_map Ok m in
  if ti_is_string ti then Ret (Ok (addr_string field_addr f))
  else if ti_is_enum ti then Ret (Ok (addr_enum field_addr f))
  else if ti_is_array ti && (0 <? ti_array_element_count ti)%N then addr_array field_addr f
  else if ti_is_slice ti then addr_slice field_addr f
  else if is_time (ti_name ti) then
    Ret (Ok (time_value (read_u64_or_error field_addr ("time.Time wall for '" ++ sf_name f ++ "'"))
                        (read_u64_or_error (addr_add field_addr 8) ("time.Time ext for '" ++ sf_name f ++ "'"))))
  else if ti_is_array ti then
    let blob_size := N.min (sf_byte_size f) (cc_max_blob_capture config) in
    Ret (Ok (match mr_read_bytes mr pid field_addr blob_size with Ok b => CBytes b | Err _ => CBytes (zero_bytes blob_size) end))
  else if is_rust_map_field (ti_name ti) (ti_is_map ti) then
    let '(k, v) := map_types (sf_nested_type f) in
    lift (read_rust_hash_map mr pid config slot_struct field_addr k v)
  else if is_go_map_name (ti_name ti) then lift (addr_map field_addr f)
  else if ti_is_struct ti then lift (addr_struct field_addr f)
  else if ti_is_pointer ti then lift (addr_pointer field_addr f depth)
  else Ret (Ok (addr_scalar field_addr f)).

Definition addr_body (struct_base_addr : N) (type_name : string) (nested_type : option NestedType) (depth : N)
    : run (result CapturedValue EbpfError) :=
  if (MAX_DEPTH <=? depth)%N then
    Ret (Ok (CStruct type_name [("__depth_exceeded",
      CError ("recursion depth " ++ show_N depth ++ " exceeded MAX_PARSE_DEPTH (" ++ show_N MAX_DEPTH ++ ")"))]))
  else if (struct_base_addr =? 0)%N then Ret (Ok (CStruct type_name []))
  else match nested_type with
  | Some (NPointer _ pointee) => rec_addr struct_base_addr (nested_name pointee) (Some pointee) (depth + 1)
  | Some (NStruct _ dwarf_fields _) =>
      run_try (try_list (fun f => run_try (addr_field struct_base_addr depth f) (fun v => Ret (Ok (sf_name f, v))))
                 (limit_fields config dwarf_fields))
        (fun fields => Ret (Ok (CStruct type_name fields)))
  | _ => Ret (Ok (CStruct type_name [("__base_addr", CScalar struct_base_addr)]))
  end.

(** *** Fields of a captured blob *)

Definition blob_enum (blob : list byte) (f : StructField) : CapturedValue :=
  let name := ti_name (sf_type_info f) in
  let start := sf_byte_offset f in
  let end_ := N.min (start + sf_byte_size f) (lenN blob) in
  match ti_enum_layout (sf_type_info f) with
  | Some layout =>
      if is_explicit_non_niche layout && (start <? end_)%N then
        match decode_enum_variant (mkBlob name (slice blob start (end_ - start))) (el_discriminant_offset layout)
                (el_discriminant_size layout) (variant_specs layout) (cc_max_blob_capture config) with
        | Ok d => enum_value name d
        | Err e => CError (decode_error_text e)
        end
      else bad_enum name
  | None => bad_enum name
  end.

Definition blob_string (blob : list byte) (f : StructField) : CapturedValue :=
  let start := sf_byte_offset f in
  let '(ptr_offset, len_offset, header_size) :=
    if is_rust_owned_string_type (ti_name (sf_type_info f)) then (0, 16, 24)%N else (0, 8, 16)%N in
  if (lenN blob <? start + header_size)%N then CError ("string header for '" ++ sf_name f ++ "' is truncated")
  else match read_u64_le (slice blob (start + ptr_offset) 8) "string ptr", read_u64_le (slice blob (start + len_offset) 8) "string len" with
  | Ok ptr, Ok len =>
      if negb (ptr =? 0)%N && (0 <? len)%N && (len <=? cc_max_string_capture config)%N then
        match mr_read_string mr pid ptr len with
        | Ok s => CString (as_bytes s) (str_len s)
        | Err _ => CString read_failed len
        end
      else CString [] 0
  | Err e, _ | _, Err e => CError (ebpf_error_text e)
  end.

(** The elements of an inline array that lie inside the blob. *)
Fixpoint blob_elements (blob : list byte) (start elem_size : N) (element_type : string) (idxs : list N) : result (list CapturedValue) EbpfError :=
  match idxs with
  | [] => Ok []
  | i :: idxs =>
      let elem_start := (start + addr_mul i elem_size)%N in
      if (lenN blob <? elem_start + elem_size)%N then Ok []
      else
        let? val := read_word_le elem_size (slice blob elem_start elem_size) "array elem" in
        let? rest := blob_elements blob start elem_size element_type idxs in
        Ok (scalar_by_name element_type val :: rest)
  end.

Definition blob_array (blob : list byte) (f : StructField) : CapturedValue :=
  let ti := sf_type_info f in
  let elem_size := (sf_byte_size f / ti_array_element_count ti)%N in
  match blob_elements blob (sf_byte_offset f) elem_size (ti_array_element_type ti) (indices (ti_array_element_count ti)) with
  | Ok elements => CArray (ti_array_element_type ti) elements
  | Err e => CError (ebpf_error_text e)
  end.

(** Eight bytes at [start], or zero when the blob ends before. *)
Definition blob_word (blob : list byte) (start : N) (label : string) : result N EbpfError :=
  let end_ := N.min (start + 8) (lenN blob) in
  if (end_ - start =? 8)%N then read_u64_le (slice blob start 8) label else Ok 0%N.

Definition blob_map (blob : list byte) (f : StructField) : run CapturedValue :=
  match blob_word blob (sf_byte_offset f) "map ptr" with
  | Err e => Ret (CError (ebpf_error_text e))
  | Ok map_ptr =>
      if (map_ptr =? 0)%N then
        let! names := parse_map_type_names (ti_name (sf_type_info f)) in
        Ret (CMap (fst names) (snd names) [] "nil map")
      else read_map_field map_ptr (sf_nested_type f)
  end.

Definition blob_pointer (blob : list byte) (f : StructField) : run CapturedValue :=
  match blob_word blob (sf_byte_offset f) "pointer" with
  | Err e => Ret (CError (ebpf_error_text e))
  | Ok ptr_val =>
      if (ptr_val =? 0)%N then Ret (CScalar 0)
      else match sf_nested_type f with
      | None => Ret (CScalar ptr_val)
      | Some nested =>
          match find_struct_pointee nested with
          | None => Ret (CScalar ptr_val)
          | Some _ =>
              let! r := rec_addr ptr_val (ti_name (sf_type_info f)) (Some nested) 0 in
              Ret (match r with Ok v => v | Err _ => CScalar ptr_val end)
          end
      end
  end.

Definition blob_slice (blob : list byte) (f : StructField) : run CapturedValue :=
  let start := sf_byte_offset f in
  let '(ptr_offset, len_offset, cap_offset, header_size) := rust_slice_header_offsets (ti_name (sf_type_info f)) in
  if (start + header_size <=? lenN blob)%N then
    match read_u64_le (slice blob (start + ptr_offset) 8) "slice ptr", read_u64_le (slice blob (start + len_offset) 8) "slice len",
          read_u64_le (slice blob (start + cap_offset) 8) "slice cap" with
    | Ok slice_ptr, Ok slice_len, Ok slice_cap =>
        if negb (slice_ptr =? 0)%N && (0 <? slice_len)%N && (slice_len <=? cc_max_array_values config)%N then
          match array_element_of (sf_nested_type f) with
          | Some e =>
              let element_size := N.max 1 (ti_byte_size (nested_type_info e)) in
              let! elements := run_list (fun i =>
                  let! r := parse_slice_element (addr_add slice_ptr (addr_mul i element_size)) e element_size in
                  Ret (match r with Ok v => v | Err _ => CError "slice element read failed" end)) (indices slice_len) in
              Ret (slice_value (nested_name e) slice_len slice_cap elements)
          | None => Ret (CSlice slice_len slice_cap)
          end
        else Ret (CSlice slice_len slice_cap)
    | Err e, _, _ | _, Err e, _ | _, _, Err e => Ret (CError (ebpf_error_text e))
    end
  else Ret (CSlice 0 0).

Definition blob_scalar (blob : list byte) (f : StructField) : CapturedValue :=
  let start := sf_byte_offset f in
  let size := N.min (sf_byte_size f) 8 in
  let end_ := N.min (start + size) (lenN blob) in
  let bytes := slice blob start (end_ - start) in
  match read_word_le (lenN bytes) bytes "scalar" with
  | Ok val => scalar_by_name (ti_name (sf_type_info f)) val
  | Err e => CError (ebpf_error_text e)
  end.

(** One field of [parse_struct_fields_from_blob]; [None] ends the loop. *)
Definition blob_field (blob : list byte) (f : StructField) : option (run CapturedValue) :=
  let ti := sf_type_info f in
  let start := sf_byte_offset f in
  if (lenN blob <=? start)%N then None
  else if ti_is_enum ti then Some (Ret (blob_enum blob f))
  else if ti_is_string ti then Some (Ret (blob_string blob f))
  else if ti_is_array ti && (0 <? ti_array_element_count ti)%N then Some (Ret (blob_array blob f))
  else if ti_is_struct ti then
    let end_ := N.min (start + sf_byte_size f) (lenN blob) in
    if (end_ <=? start)%N then None
    else
      let sub_blob := slice blob start (end_ - start) in
      Some (match sf_nested_type f with
            | Some (NStruct sub_ti sub_fields _) => rec_blob sub_blob (ti_name sub_ti) sub_fields
            | _ => Ret (CBytes sub_blob)
            end)
  else if is_rust_map_field (ti_name ti) (ti_is_map ti) then
    let '(k, v) := map_types (sf_nested_type f) in
    let end_ := N.min (start + sf_byte_size f) (lenN blob) in
    Some (if (end_ <=? start)%N then Ret (CError "Rust HashMap header outside captured blob")
          else read_rust_hash_map_from_blob mr pid config slot_struct (slice blob start (end_ - start)) k v)
  else if is_go_map_name (ti_name ti) then Some (blob_map blob f)
  else if ti_is_pointer ti then Some (blob_pointer blob f)
  else if ti_is_slice ti then Some (blob_slice blob f)
  else Some (Ret (blob_scalar blob f)).

Fixpoint blob_fields (blob : list byte) (fields : list StructField) : run (list (string * CapturedValue)) :=
  match fields with
  | [] => Ret []
  | f :: fields =>
      match blob_field blob f with
      | None => Ret []
      | Some m => let! v := m in let! rest := blob_fields blob fields in Ret ((sf_name f, v) :: rest)
      end
  end.

Definition blob_body (blob : list byte) (type_name : string) (fields : list StructField) : run CapturedValue :=
  let! result := blob_fields blob (limit_fields config fields) in Ret (CStruct type_name result).
End Body.

(** ** The two readers *)

Fixpoint from_addr (fuel : nat) (struct_base_addr : N) (type_name : string) (nested_type : option NestedType) (depth : N)
    : run (result CapturedValue EbpfError) :=
  match fuel with
  | O => Looping
  | S fuel => addr_body (from_addr fuel) (from_blob fuel) struct_base_addr type_name nested_type depth
  end
with from_blob (fuel : nat) (blob : list byte) (type_name : string) (fields : list StructField) : run CapturedValue :=
  match fuel with
  | O => Looping
  | S fuel => blob_body (from_addr fuel) (from_blob fuel) blob type_name fields
  end.

Definition addr_fuel (nested_type : option NestedType) : nat := S (opt_height nested_type).
Definition blob_fuel (fields : list StructField) : nat := S (S (fields_height fields)).

Definition parse_struct_fields_from_addr (struct_base_addr : N) (type_name : string) (nested_type : option NestedType) (depth : N)
    : run (result CapturedValue EbpfError) :=
  from_addr (addr_fuel nested_type) struct_base_addr type_name nested_type depth.
Definition parse_struct_fields_from_blob (blob : list byte) (type_name : string) (fields : list StructField) : run CapturedValue :=
  from_blob (blob_fuel fields) blob type_name fields.
End Readers.
