(* ===== verification/StructOutcomes.v ===== *)
(** * What the struct readers return

    Theorems on [StructReader]: the recursion over type trees always ends, the
    reader of memory and the reader of captured bytes agree where they should, and
    the places where they do not. *)

From Stdlib Require Import Strings.String Strings.Ascii Init.Byte.
From S2P Require Import Prelude RustStr RustText Decode TypeInfo MemReader ProbeValue MapReader MapImage StructReader.

Local Open Scope string_scope.

(** ** Map readers depend on the struct reader only for the types of the map *)

Section MapExt.
Context (mr : MemReader) (pid : N) (config : CaptureConfig) (kn vn : option NestedType).
Context (ps1 ps2 : N -> string -> NestedType -> run (result CapturedValue EbpfError)) (h : nat).
Context (Hps : forall a nm t, (nested_height t <= h)%nat -> ps1 a nm t = ps2 a nm t).
Context (Hk : (opt_height kn <= h)%nat) (Hv : (opt_height vn <= h)%nat).

Lemma slot_ext nested a sz : (opt_height nested <= h)%nat ->
  read_slot_value mr pid config ps1 a nested sz = read_slot_value mr pid config ps2 a nested sz.
Proof.
  intros Hn. unfold read_slot_value. destruct nested as [[]|]; try done. cbn [opt_height] in Hn.
  rewrite Hps; [done|]. rewrite nested_height_struct in *. done.
Qed.

Lemma pair_ext ks vs ka va : read_pair mr pid config ps1 kn vn ks vs ka va = read_pair mr pid config ps2 kn vn ks vs ka va.
Proof. unfold read_pair. by rewrite !slot_ext. Qed.

Lemma scan_slots_ext full ra1 ra2 max markers : (forall s, ra1 s = ra2 s) ->
  forall s entries, scan_slots full ra1 max s markers entries = scan_slots full ra2 max s markers entries.
Proof.
  intros Hra. induction markers as [|m markers IH]; intros s entries; cbn [scan_slots]; [done|].
  rewrite Hra. destruct (max <=? lenN entries)%N; [done|]. destruct (full m); [|apply IH].
  destruct (ra2 s); cbn [run_bind]; [apply IH|done|done].
Qed.

Lemma ctrl_ext ks vs vo ss max gp ctrl entries :
  read_ctrl mr pid config ps1 kn vn ks vs vo ss max gp ctrl entries = read_ctrl mr pid config ps2 kn vn ks vs vo ss max gp ctrl entries.
Proof. unfold read_ctrl. f_equal. apply scan_slots_ext. intros s. apply pair_ext. Qed.

Lemma groups_from_ext ks vs vo ss max gp gs n : forall g entries,
  read_groups_from mr pid config ps1 kn vn ks vs vo ss max gp gs g n entries
  = read_groups_from mr pid config ps2 kn vn ks vs vo ss max gp gs g n entries.
Proof.
  induction n as [|n IH]; intros g entries; cbn [read_groups_from]; [done|].
  destruct (max <=? lenN entries)%N; [done|]. destruct (mr_read_bytes _ _ _ _) as [ctrl|]; [|apply IH].
  rewrite ctrl_ext. destruct (read_ctrl _ _ _ ps2 _ _ _ _ _ _ _ _ _ _); cbn [run_bind]; [apply IH|done|done].
Qed.

Lemma table_ext kname vname tp max entries :
  read_table mr pid config ps1 kn vn kname vname tp max entries = read_table mr pid config ps2 kn vn kname vname tp max entries.
Proof.
  unfold read_table, read_groups. destruct (mr_read_bytes _ _ _ _) as [hdr|]; [|done].
  destruct (lenN hdr <? 32)%N; [done|]. destruct (_ =? 0)%N; [done|]. destruct (1024 <? _)%N; [done|].
  destruct (compute_slot_layout _ _ _ _). by rewrite groups_from_ext.
Qed.

Lemma directory_ext kname vname fuel dp dl max : forall i seen entries,
  read_directory mr pid config ps1 kn vn kname vname fuel dp dl max i seen entries
  = read_directory mr pid config ps2 kn vn kname vname fuel dp dl max i seen entries.
Proof.
  induction fuel as [|fuel IH]; intros i seen entries; cbn [read_directory]; [done|].
  destruct (_ || _); [done|]. destruct (mr_read_u64 _ _ _) as [tp|]; [|apply IH].
  destruct (_ || _); [apply IH|]. rewrite table_ext.
  destruct (read_table _ _ _ ps2 _ _ _ _ _ _ _) as [[]| |]; cbn [run_bind]; try done; apply IH.
Qed.

Lemma swiss_ext fuel kname vname p :
  read_swiss_map_inner mr pid config ps1 fuel kn vn kname vname p = read_swiss_map_inner mr pid config ps2 fuel kn vn kname vname p.
Proof.
  unfold read_swiss_map_inner, read_groups. destruct (mr_read_bytes _ _ _ _) as [hdr|]; [|done].
  destruct (lenN hdr <? 32)%N; [done|]. destruct (_ || _); [done|]. cbv zeta. destruct (_ <? 0)%Z; [done|].
  destruct (_ =? 0)%Z; [|by rewrite directory_ext]. destruct (compute_slot_layout _ _ _ _). by rewrite groups_from_ext.
Qed.

Lemma chain_ext kname vname ko vo oo hm max fuel : forall addr entries,
  read_classic_bucket mr pid config ps1 kn vn kname vname ko vo oo hm max fuel addr entries
  = read_classic_bucket mr pid config ps2 kn vn kname vname ko vo oo hm max fuel addr entries.
Proof.
  induction fuel as [|fuel IH]; intros addr entries; cbn [read_classic_bucket]; [done|].
  destruct (_ || _); [done|]. destruct (mr_read_bytes _ _ _ _) as [th|]; [|done]. destruct (negb _); [done|].
  unfold read_tophash.
  match goal with |- run_bind ?a _ = run_bind ?b _ => assert (a = b) as -> end.
  { apply scan_slots_ext. intros s. apply pair_ext. }
  destruct (scan_slots _ _ _ _ _ _) as [[es st]| |]; cbn [run_bind]; try done. destruct st; [done|].
  destruct (mr_read_u64 _ _ _) as [ov|]; [|done]. destruct (negb _); [apply IH|done].
Qed.

Lemma classic_loop_ext fuel kname vname bp ob om max n : forall bidx visited entries,
  classic_loop mr pid config ps1 fuel kn vn kname vname n bp ob om max bidx visited entries
  = classic_loop mr pid config ps2 fuel kn vn kname vname n bp ob om max bidx visited entries.
Proof.
  induction n as [|n IH]; intros bidx visited entries; cbn [classic_loop]; [done|].
  destruct (max <=? lenN entries)%N; [done|]. destruct (bucket_layout _ _) as [vo oo].
  assert (Hnext : forall vis addr,
    (let! r := read_classic_bucket mr pid config ps1 kn vn kname vname 8 vo oo HASH_MIN_TOPHASH_GO112 max fuel addr entries in
     let '(_, entries) := r in classic_loop mr pid config ps1 fuel kn vn kname vname n bp ob om max (bidx + 1) vis entries)
    = (let! r := read_classic_bucket mr pid config ps2 kn vn kname vname 8 vo oo HASH_MIN_TOPHASH_GO112 max fuel addr entries in
     let '(_, entries) := r in classic_loop mr pid config ps2 fuel kn vn kname vname n bp ob om max (bidx + 1) vis entries)).
  { intros vis addr. rewrite chain_ext. destruct (read_classic_bucket _ _ _ ps2 _ _ _ _ _ _ _ _ _ _ _ _) as [[]| |]; cbn [run_bind]; [apply IH|done|done]. }
  destruct (negb (ob =? 0)%N); [|apply Hnext]. destruct (negb (is_evacuated _ _ _ _ _)); [|apply Hnext].
  destruct (_ =? bidx)%N; [apply Hnext|]. destruct (bool_decide _); [apply IH|apply Hnext].
Qed.

Lemma read_map_ext fuel p : read_map mr pid config ps1 fuel p kn vn = read_map mr pid config ps2 fuel p kn vn.
Proof.
  unfold read_map. destruct (p =? 0)%N; [done|]. destruct (mr_read_bytes _ _ _ _) as [hdr|]; [|done].
  destruct (lenN hdr <? 32)%N; [done|]. cbv zeta. rewrite swiss_ext.
  assert (Hc : forall kname vname, read_classic_map_inner mr pid config ps1 fuel kn vn kname vname p
                                 = read_classic_map_inner mr pid config ps2 fuel kn vn kname vname p).
  { intros kname vname. unfold read_classic_map_inner. destruct (mr_read_bytes _ _ _ _) as [h40|]; [|done].
    destruct (lenN h40 <? 40)%N; [done|]. destruct (_ =? 0)%N; [done|]. destruct (64 <=? _)%N; [done|].
    cbv zeta. by rewrite classic_loop_ext. }
  by rewrite Hc.
Qed.

Lemma rust_map_ext hdr :
  read_rust_hash_map_header mr pid config ps1 hdr kn vn = read_rust_hash_map_header mr pid config ps2 hdr kn vn.
Proof.
  unfold read_rust_hash_map_header. destruct (lenN hdr <? 32)%N; [done|]. destruct (forallb _ _); [done|].
  destruct (first_some _ _) as [[[mask ctrl] items]|]; [|done]. destruct (_ || _); [done|].
  destruct (mr_read_bytes _ _ _ _) as [controls|]; [|done]. destruct (_ || _); [done|]. cbv zeta.
  destruct (_ <? _)%N; [done|]. unfold read_controls.
  match goal with |- run_bind (run_map fst ?a) _ = run_bind (run_map fst ?b) _ => assert (a = b) as ->; [|done] end.
  apply scan_slots_ext. intros s. apply pair_ext.
Qed.
End MapExt.

(** ** The recursion over type trees *)

Lemma try_list_ext {A B E : Type} (f g : A -> run (result B E)) l : (forall a, a ∈ l -> f a = g a) -> try_list f l = try_list g l.
Proof.
  induction l as [|a l IH]; intros H; cbn [try_list]; [done|]. rewrite (H a) by left.
  rewrite IH by (intros; apply H; by right). done.
Qed.
Lemma run_list_ext {A B : Type} (f g : A -> run B) l : (forall a, f a = g a) -> run_list f l = run_list g l.
Proof. intros H. induction l as [|a l IH]; cbn [run_list]; [done|]. by rewrite H, IH. Qed.

Section BodyExt.
Context (mr : MemReader) (pid : N) (config : CaptureConfig).
Context (datetime : Z -> option string) (decode_error_text : ScalarDecodeError -> string) (loop_fuel : nat).
Context (ra1 ra2 : N -> string -> option NestedType -> N -> run (result CapturedValue EbpfError)).
Context (rb1 rb2 : list byte -> string -> list StructField -> run CapturedValue) (h : nat).
Context (Ha : forall a nm t d, (opt_height t <= h)%nat -> ra1 a nm t d = ra2 a nm t d).
Context (Hb : forall blob nm fs, (fields_height fs < h)%nat -> rb1 blob nm fs = rb2 blob nm fs).

Lemma slot_struct_ext a nm t : (nested_height t <= h)%nat -> slot_struct ra1 a nm t = slot_struct ra2 a nm t.
Proof. intros H. apply Ha. done. Qed.

Lemma elem_ext a e sz : (nested_height e <= h)%nat ->
  parse_slice_element mr pid config ra1 a e sz = parse_slice_element mr pid config ra2 a e sz.
Proof. intros H. unfold parse_slice_element. destruct e; try done. by apply Ha. Qed.

Lemma map_types_height nested : (opt_height nested <= h)%nat ->
  (opt_height (fst (map_types nested)) <= h)%nat /\ (opt_height (snd (map_types nested)) <= h)%nat.
Proof. destruct nested as [[]|]; cbn; lia. Qed.

Lemma array_element_height nested e : array_element_of nested = Some e -> (opt_height nested <= h)%nat -> (nested_height e <= h)%nat.
Proof. destruct nested as [[]|]; try done. intros [= <-]. cbn. lia. Qed.

Lemma map_field_ext p nested : (opt_height nested <= h)%nat ->
  read_map_field mr pid config loop_fuel ra1 p nested = read_map_field mr pid config loop_fuel ra2 p nested.
Proof.
  intros H. unfold read_map_field. pose proof (map_types_height _ H) as [Hk Hv]. destruct (map_types nested) as [k v].
  by apply (read_map_ext _ _ _ _ _ _ _ h slot_struct_ext).
Qed.

Lemma addr_field_ext base d f : (opt_height (sf_nested_type f) <= h)%nat ->
  addr_field mr pid config datetime decode_error_text loop_fuel ra1 rb1 base d f
  = addr_field mr pid config datetime decode_error_text loop_fuel ra2 rb2 base d f.
Proof.
  intros H. unfold addr_field. pose proof (map_types_height _ H) as [Hk Hv].
  destruct (ti_is_string _); [done|]. destruct (ti_is_enum _); [done|].
  destruct (_ && _).
  { unfold addr_array. f_equal. apply try_list_ext. intros i _.
    destruct (array_element_of _) eqn:E; [|done]. apply elem_ext. by eapply array_element_height. }
  destruct (ti_is_slice _).
  { unfold addr_slice. destruct (rust_slice_header_offsets _) as [[[po lo] co] hs].
    destruct (read_u64_or_error _ _ _ _); [|done]. destruct (read_u64_or_error _ _ _ _); [|done].
    destruct (read_u64_or_error _ _ _ _); [|done]. destruct (_ && _); [|done]. cbv zeta. f_equal.
    apply try_list_ext. intros i _. destruct (array_element_of _) eqn:E; [|done]. apply elem_ext. by eapply array_element_height. }
  destruct (is_time _); [done|]. destruct (ti_is_array _); [done|].
  destruct (is_rust_map_field _ _).
  { destruct (map_types _) as [k v]. unfold read_rust_hash_map. destruct (mr_read_bytes _ _ _ _); [|done].
    by rewrite (rust_map_ext _ _ _ _ _ _ _ h slot_struct_ext). }
  destruct (is_go_map_name _).
  { unfold addr_map. destruct (read_u64_or_error _ _ _ _) as [p|]; [|done]. destruct (p =? 0)%N; [done|]. by rewrite map_field_ext. }
  destruct (ti_is_struct _).
  { unfold addr_struct. destruct (mr_read_bytes _ _ _ _); [|done].
    destruct (sf_nested_type f) as [[]|] eqn:E; try done. rewrite Hb; [done|].
    cbn [opt_height] in H. rewrite nested_height_struct in H. lia. }
  destruct (ti_is_pointer _); [|done].
  unfold addr_pointer. destruct (read_u64_or_error _ _ _ _) as [p|]; [|done]. destruct (p =? 0)%N; [done|].
  destruct (sf_nested_type f) as [t|]; [|done]. destruct (pointee_struct t); [|done]. by rewrite Ha.
Qed.

Lemma limit_fields_sub fields f : f ∈ limit_fields config fields -> f ∈ fields.
Proof.
  unfold limit_fields. destruct (_ <=? _)%Z; [|done]. intros (i & Hi & _)%elem_of_take. by eapply list_elem_of_lookup_2.
Qed.

Lemma addr_body_ext base nm t d : (opt_height t <= S h)%nat ->
  addr_body mr pid config datetime decode_error_text loop_fuel ra1 rb1 base nm t d
  = addr_body mr pid config datetime decode_error_text loop_fuel ra2 rb2 base nm t d.
Proof.
  intros H. unfold addr_body. destruct (_ <=? d)%N; [done|]. destruct (base =? 0)%N; [done|].
  destruct t as [[]|]; try reflexivity.
  - f_equal. apply try_list_ext. intros f Hf%limit_fields_sub. rewrite addr_field_ext; [done|].
    cbn [opt_height] in H. rewrite nested_height_struct in H. pose proof (field_height_le _ _ Hf). lia.
  - apply Ha. cbn in *. lia.
Qed.

Lemma blob_field_ext blob f : (opt_height (sf_nested_type f) <= h)%nat ->
  blob_field mr pid config decode_error_text loop_fuel ra1 rb1 blob f = blob_field mr pid config decode_error_text loop_fuel ra2 rb2 blob f.
Proof.
  intros H. unfold blob_field. pose proof (map_types_height _ H) as [Hk Hv].
  destruct (_ <=? _)%N; [done|]. destruct (ti_is_enum _); [done|]. destruct (ti_is_string _); [done|].
  destruct (_ && _); [done|]. destruct (ti_is_struct _).
  { destruct (_ <=? _)%N; [done|]. cbv zeta. apply (f_equal Some). destruct (sf_nested_type f) as [[]|]; try done. apply Hb.
    cbn [opt_height] in H. rewrite nested_height_struct in H. lia. }
  destruct (is_rust_map_field _ _).
  { destruct (map_types _) as [k v]. cbv zeta. apply (f_equal Some). destruct (_ <=? _)%N; [done|].
    by apply (rust_map_ext _ _ _ _ _ _ _ h slot_struct_ext). }
  destruct (is_go_map_name _).
  { apply (f_equal Some). unfold blob_map. destruct (blob_word _ _ _) as [p|]; [|done]. destruct (p =? 0)%N; [done|]. by apply map_field_ext. }
  destruct (ti_is_pointer _).
  { apply (f_equal Some). unfold blob_pointer. destruct (blob_word _ _ _) as [p|]; [|done]. destruct (p =? 0)%N; [done|].
    destruct (sf_nested_type f) as [t|]; [|done]. destruct (find_struct_pointee t); [|done]. by rewrite Ha. }
  destruct (ti_is_slice _); [|done]. apply (f_equal Some). unfold blob_slice.
  destruct (rust_slice_header_offsets _) as [[[po lo] co] hs]. destruct (_ <=? _)%N; [|done].
  destruct (read_u64_le _ _); [|done]. destruct (read_u64_le _ _); [|done]. destruct (read_u64_le _ _); [|done].
  destruct (_ && _); [|done]. destruct (array_element_of _) eqn:E; [|done]. cbv zeta.
  match goal with |- run_bind ?a _ = run_bind ?b _ => assert (a = b) as ->; [|done] end. apply run_list_ext.
  intros i. by rewrite elem_ext by (by eapply array_element_height).
Qed.

Lemma blob_body_ext blob nm fs : (fields_height fs <= h)%nat ->
  blob_body mr pid config decode_error_text loop_fuel ra1 rb1 blob nm fs = blob_body mr pid config decode_error_text loop_fuel ra2 rb2 blob nm fs.
Proof.
  intros H. unfold blob_body.
  assert (Hl : forall f, f ∈ limit_fields config fs -> (opt_height (sf_nested_type f) <= h)%nat).
  { intros f Hf%limit_fields_sub%field_height_le. lia. }
  match goal with |- run_bind ?a _ = run_bind ?b _ => assert (a = b) as ->; [|reflexivity] end.
  induction (limit_fields config fs) as [|f l IH]; cbn [blob_fields]; [reflexivity|].
  rewrite blob_field_ext by (apply Hl; left). rewrite IH by (intros; apply Hl; by right). reflexivity.
Qed.
End BodyExt.

Section Fuel.
Context (mr : MemReader) (pid : N) (config : CaptureConfig).
Context (datetime : Z -> option string) (decode_error_text : ScalarDecodeError -> string) (loop_fuel : nat).
Local Notation from_addr := (from_addr mr pid config datetime decode_error_text loop_fuel).
Local Notation from_blob := (from_blob mr pid config datetime decode_error_text loop_fuel).

Local Notation parse_addr := (parse_struct_fields_from_addr mr pid config datetime decode_error_text loop_fuel).
Local Notation parse_blob := (parse_struct_fields_from_blob mr pid config datetime decode_error_text loop_fuel).
Local Notation addr_step := (addr_body mr pid config datetime decode_error_text loop_fuel).
Local Notation blob_step := (blob_body mr pid config decode_error_text loop_fuel).

Lemma from_addr_S n a nm t d : from_addr (S n) a nm t d = addr_step (from_addr n) (from_blob n) a nm t d.
Proof. reflexivity. Qed.
Lemma from_blob_S n blob nm fs : from_blob (S n) blob nm fs = blob_step (from_addr n) (from_blob n) blob nm fs.
Proof. reflexivity. Qed.

(** On a type without parts the readers do not recurse. *)
Lemma addr_body_leaf ra1 rb1 ra2 rb2 a nm t d : opt_height t = O -> addr_step ra1 rb1 a nm t d = addr_step ra2 rb2 a nm t d.
Proof. intros H. unfold addr_body. destruct t as [[]|]; first [reflexivity|discriminate H]. Qed.

Lemma reader_fuel n : forall m, (n <= m)%nat ->
  (forall a nm t d, (S (opt_height t) <= n)%nat -> from_addr m a nm t d = from_addr n a nm t d)
  /\ (forall blob nm fs, (S (S (fields_height fs)) <= n)%nat -> from_blob m blob nm fs = from_blob n blob nm fs).
Proof.
  induction n as [|n IH]; intros m Hm; [split; intros; lia|].
  destruct m as [|m]; [lia|]. specialize (IH m ltac:(lia)) as [IHa IHb]. split.
  - intros a nm t d Ht. rewrite !from_addr_S. destruct (opt_height t) as [|h] eqn:E; [by apply addr_body_leaf|].
    apply (addr_body_ext _ _ _ _ _ _ (from_addr m) (from_addr n) (from_blob m) (from_blob n) h); [| |lia].
    + intros. apply IHa. lia.
    + intros. apply IHb. lia.
  - intros blob nm fs Hf. rewrite !from_blob_S.
    apply (blob_body_ext _ _ _ _ _ (from_addr m) (from_addr n) (from_blob m) (from_blob n) (fields_height fs)); [| |lia].
    + intros. apply IHa. lia.
    + intros. apply IHb. lia.
Qed.

Lemma addr_enough n a nm t d : (S (opt_height t) <= n)%nat -> from_addr n a nm t d = parse_addr a nm t d.
Proof. intros H. by apply (reader_fuel (addr_fuel t)). Qed.
Lemma blob_enough n blob nm fs : (S (S (fields_height fs)) <= n)%nat -> from_blob n blob nm fs = parse_blob blob nm fs.
Proof. intros H. by apply (reader_fuel (blob_fuel fs)). Qed.

(** The readers obey the equations of the source: each is its body applied to
    the two readers themselves, on every type tree. *)
Theorem struct_readers_unfold :
  (forall a nm t d, parse_addr a nm t d = addr_step parse_addr parse_blob a nm t d)
  /\ (forall blob nm fs, parse_blob blob nm fs = blob_step parse_addr parse_blob blob nm fs).
Proof.
  split.
  - intros a nm t d. unfold parse_struct_fields_from_addr at 1, addr_fuel. rewrite from_addr_S.
    destruct (opt_height t) as [|h] eqn:E; [by apply addr_body_leaf|].
    apply (addr_body_ext _ _ _ _ _ _ (from_addr (S h)) parse_addr (from_blob (S h)) parse_blob h); [| |lia].
    + intros. apply addr_enough. lia.
    + intros. apply blob_enough. lia.
  - intros blob nm fs. unfold parse_struct_fields_from_blob at 1, blob_fuel. rewrite from_blob_S.
    apply (blob_body_ext _ _ _ _ _ (from_addr (S (fields_height fs))) parse_addr (from_blob (S (fields_height fs))) parse_blob (fields_height fs)); [| |lia].
    + intros. apply addr_enough. lia.
    + intros. apply blob_enough. lia.
Qed.
End Fuel.

(** ** The two readers agree *)

Lemma of_le_app (a b : list byte) : of_le (a ++ b)%list = (of_le a + 256 ^ lenN a * of_le b)%N.
Proof.
  induction a as [|x a IH]; cbn [app of_le]; [unfold lenN; cbn; lia|].
  rewrite IH, lenN_cons. replace (1 + lenN a)%N with (N.succ (lenN a)) by lia. rewrite N.pow_succ_r'. lia.
Qed.

Lemma of_le_take l (k : nat) : (k <= length l)%nat -> of_le (take k l) = (of_le l mod 256 ^ N.of_nat k)%N.
Proof.
  intros H. rewrite <- (take_drop k l) at 2. rewrite of_le_app.
  assert (Hl : lenN (take k l) = N.of_nat k) by (unfold lenN; rewrite length_take; lia). rewrite Hl.
  rewrite N.mul_comm, N.Div0.mod_add. rewrite N.mod_small; [done|]. rewrite <- Hl. apply of_le_lt.
Qed.

Lemma slice_slice8 {A : Type} (l : list A) off w : (w <= 8)%N -> slice l off w = take (N.to_nat w) (slice l off 8).
Proof. intros H. unfold slice. rewrite firstn_firstn. f_equal. lia. Qed.

(** The width a scalar of this name has in memory. *)
Definition scalar_width (name : string) : N :=
  if existsb (String.eqb name) ["u8"; "i8"; "bool"] then 1
  else if existsb (String.eqb name) ["u16"; "i16"] then 2
  else if existsb (String.eqb name) ["u32"; "i32"; "f32"; "float32"] then 4
  else 8.

Lemma narrow_value name val : scalar_by_name name (narrow name val) = scalar_by_name name (val mod 256 ^ scalar_width name)%N
  \/ (scalar_width name = 8%N /\ narrow name val = val).
Proof.
  unfold narrow, scalar_width.
  destruct (existsb (String.eqb name) ["u8"; "i8"; "bool"]); [left; change 255%N with (N.ones 8); by rewrite N.land_ones|].
  destruct (existsb (String.eqb name) ["u16"; "i16"]); [left; change 65535%N with (N.ones 16); by rewrite N.land_ones|].
  cbn [existsb]. destruct (String.eqb name "u32"); [left; change 4294967295%N with (N.ones 32); by rewrite N.land_ones|].
  destruct (String.eqb name "i32"); [left; change 4294967295%N with (N.ones 32); by rewrite N.land_ones|].
  destruct (String.eqb name "f32"); [left; change 4294967295%N with (N.ones 32); by rewrite N.land_ones|]. cbn [orb].
  destruct (String.eqb name "float32") eqn:E; [|by right]. left. apply String.eqb_eq in E. subst.
  unfold scalar_by_name. cbn. unfold wrap. by rewrite N.Div0.mod_mod.
Qed.

(** Fields that are neither composite nor special. *)
Definition simple_type (ti : TypeInfo) : bool :=
  negb (ti_is_enum ti || ti_is_array ti || ti_is_slice ti || ti_is_map ti || ti_is_struct ti)
  && negb (is_time (ti_name ti)) && negb (is_rust_hash_map_type (ti_name ti)) && negb (is_go_map_name (ti_name ti)).

Section Agreement.
Context (mr : MemReader) (pid : N) (img : image) `{HF : !FaithfulReader mr pid img}.
Context (config : CaptureConfig) (Hlim : (cc_max_string_capture config <= 1024)%N).
Context (datetime : Z -> option string) (decode_error_text : ScalarDecodeError -> string) (loop_fuel : nat).
Context (base : N) (blob : list byte) (Hbase : base <> 0%N) (Hspace : (base + lenN blob < 2 ^ 64)%N).
Context (Hblob : img_read img base (lenN blob) = Some blob).

(** What a field of the captured bytes means, for the fields on which both readers
    can be asked: scalars of the width their type's name says and plain pointers,
    at least 8 bytes before the end of the bytes, and borrowed texts that are not
    empty, not blank, within the limit and valid UTF-8.  On others (narrow Go
    scalars, fields at the very end, owned strings, empty or invalid texts,
    pointers to known types) the two readers are not compared; on some of them
    they differ. *)
Inductive field_means (f : StructField) : CapturedValue -> Prop :=
| means_scalar : simple_type (sf_type_info f) = true -> ti_is_string (sf_type_info f) = false -> ti_is_pointer (sf_type_info f) = false ->
    sf_byte_size f = scalar_width (ti_name (sf_type_info f)) -> (sf_byte_offset f + 8 <= lenN blob)%N ->
    field_means f (scalar_by_name (ti_name (sf_type_info f)) (of_le (slice blob (sf_byte_offset f) (sf_byte_size f))))
| means_pointer : simple_type (sf_type_info f) = true -> ti_is_string (sf_type_info f) = false -> ti_is_pointer (sf_type_info f) = true ->
    sf_nested_type f = None -> (sf_byte_offset f + 8 <= lenN blob)%N ->
    field_means f (CScalar (of_le (slice blob (sf_byte_offset f) 8)))
| means_string ptr len bytes : simple_type (sf_type_info f) = true -> ti_is_string (sf_type_info f) = true ->
    is_rust_owned_string_type (ti_name (sf_type_info f)) = false -> (sf_byte_offset f + 16 <= lenN blob)%N ->
    of_le (slice blob (sf_byte_offset f) 8) = ptr -> of_le (slice blob (sf_byte_offset f + 8) 8) = len ->
    text_at img (cc_max_string_capture config) ptr len bytes -> field_means f (CString bytes len).

Lemma blob_word_read off : (off + 8 <= lenN blob)%N -> mr_read_u64 mr pid (addr_add base off) = Ok (of_le (slice blob off 8)).
Proof.
  intros H. rewrite addr_add_small by lia. apply fr_u64. unfold img_u64.
  enough (img_read img (base + off) 8 = Some (slice blob off 8)) as -> by done.
  unfold img_read in *. replace (N.to_nat (lenN blob)) with (N.to_nat off + (N.to_nat 8 + (N.to_nat (lenN blob) - N.to_nat off - 8)))%nat in Hblob
    by (unfold lenN in *; lia).
  rewrite img_bytes_app, N2Nat.id in Hblob. destruct (img_bytes img base (N.to_nat off)) as [x|] eqn:Ex; [|done]. cbn in Hblob.
  rewrite img_bytes_app in Hblob. destruct (img_bytes img (base + off) (N.to_nat 8)) as [y|] eqn:Ey; [|done]. cbn in Hblob.
  destruct (img_bytes img (base + off + N.of_nat (N.to_nat 8)) _) as [z|]; [|done]. cbn in Hblob. injection Hblob as Hb.
  apply img_bytes_length in Ex, Ey. f_equal. rewrite <- Hb. symmetry. apply slice_app_mid; unfold lenN; lia.
Qed.

Lemma simple_type_flags ti : simple_type ti = true ->
  ti_is_enum ti = false /\ ti_is_array ti = false /\ ti_is_slice ti = false /\ ti_is_struct ti = false
  /\ is_time (ti_name ti) = false /\ is_rust_map_field (ti_name ti) (ti_is_map ti) = false /\ is_go_map_name (ti_name ti) = false.
Proof.
  unfold simple_type, is_rust_map_field. destruct (ti_is_enum ti), (ti_is_array ti), (ti_is_slice ti), (ti_is_map ti), (ti_is_struct ti); try done.
  destruct (is_time _); [done|]. destruct (is_rust_hash_map_type _); [done|]. destruct (is_go_map_name _); [done|]. done.
Qed.

Local Ltac flags H :=
  let F1 := fresh in let F2 := fresh in let F3 := fresh in let F4 := fresh in let F5 := fresh in let F6 := fresh in let F7 := fresh in
  pose proof (simple_type_flags _ H) as (F1 & F2 & F3 & F4 & F5 & F6 & F7);
  rewrite ?F1, ?F2, ?F3, ?F4, ?F5, ?F6, ?F7; clear F1 F2 F3 F4 F5 F6 F7; cbn [andb].

Lemma addr_field_means ra rb depth f v : field_means f v ->
  addr_field mr pid config datetime decode_error_text loop_fuel ra rb base depth f = Ret (Ok v).
Proof.
  destruct 1 as [Hs Hst Hp Hw Ho | Hs Hst Hp Hn Ho | ptr len bytes Hs Hst Hr Ho Hptr Hlen Ht]; unfold addr_field; rewrite Hst; cbv zeta.
  - flags Hs. rewrite Hp. unfold addr_scalar, read_u64_or_error. rewrite blob_word_read by done. cbn [map_err].
    do 2 f_equal. rewrite Hw. set (name := ti_name (sf_type_info f)) in *.
    assert (H8 : (scalar_width name <= 8)%N) by (unfold scalar_width; repeat case_match; lia).
    rewrite (slice_slice8 _ _ _ H8), of_le_take by (pose proof (lenN_slice blob (sf_byte_offset f) 8 Ho); unfold lenN in *; lia).
    rewrite N2Nat.id. destruct (narrow_value name (of_le (slice blob (sf_byte_offset f) 8))) as [->|[-> ->]]; [done|].
    rewrite N.mod_small; [done|]. pose proof (of_le_lt (slice blob (sf_byte_offset f) 8)) as Hlt. rewrite lenN_slice in Hlt by done. exact Hlt.
  - flags Hs. rewrite Hp. unfold addr_pointer, read_u64_or_error. rewrite blob_word_read by done. cbn [map_err].
    rewrite Hn. destruct (N.eqb_spec (of_le (slice blob (sf_byte_offset f) 8)) 0) as [->|]; done.
  - unfold addr_string, rust_string_header_offsets. rewrite Hr. unfold read_u64_or_error.
    assert (Ha : addr_add (addr_add base (sf_byte_offset f)) 0 = addr_add base (sf_byte_offset f)).
    { rewrite (addr_add_small base) by lia. rewrite addr_add_small; lia. }
    assert (Hb : addr_add (addr_add base (sf_byte_offset f)) 8 = addr_add base (sf_byte_offset f + 8)).
    { rewrite (addr_add_small base (sf_byte_offset f)) by lia. rewrite !addr_add_small by lia. lia. }
    rewrite Ha, Hb, !blob_word_read, Hptr, Hlen by lia. cbn [map_err].
    destruct Ht as (Hnz & Hl & Hrd & Hz & Hu). rewrite (proj2 (N.eqb_neq ptr 0) Hnz), (proj2 (N.ltb_lt 0 len)) by lia. cbn [negb andb].
    rewrite (fr_string ptr len bytes (of_bytes bytes)); [by rewrite as_bytes_of_bytes|lia|done|done|]. unfold from_utf8. by rewrite Hu.
Qed.

Lemma blob_field_means ra rb f v : field_means f v ->
  blob_field mr pid config decode_error_text loop_fuel ra rb blob f = Some (Ret v).
Proof.
  destruct 1 as [Hs Hst Hp Hw Ho | Hs Hst Hp Hn Ho | ptr len bytes Hs Hst Hr Ho Hptr Hlen Ht]; unfold blob_field; rewrite Hst; cbv zeta;
    rewrite (proj2 (N.leb_gt (lenN blob) (sf_byte_offset f))) by lia; flags Hs.
  - rewrite Hp. do 2 f_equal. unfold blob_scalar. rewrite Hw. set (name := ti_name (sf_type_info f)) in *.
    assert (H8 : (0 < scalar_width name <= 8)%N) by (unfold scalar_width; repeat case_match; lia).
    rewrite (N.min_l (scalar_width name)), N.min_l by lia.
    replace (sf_byte_offset f + scalar_width name - sf_byte_offset f)%N with (scalar_width name) by lia.
    rewrite lenN_slice by lia. unfold read_word_le, read_u64_le, read_u32_le, read_u16_le. rewrite lenN_slice by lia.
    assert (Hcases : scalar_width name = 1%N \/ scalar_width name = 2%N \/ scalar_width name = 4%N \/ scalar_width name = 8%N)
      by (unfold scalar_width; repeat case_match; tauto).
    destruct Hcases as [Hc|[Hc|[Hc|Hc]]]; rewrite Hc; cbn [N.eqb Pos.eqb]; [|done..].
    unfold slice. by rewrite firstn_firstn.
  - rewrite Hp. unfold blob_pointer, blob_word. rewrite N.min_l by lia.
    replace (sf_byte_offset f + 8 - sf_byte_offset f)%N with 8%N by lia. cbn [N.eqb Pos.eqb].
    unfold read_u64_le. rewrite lenN_slice by lia. cbn [N.eqb Pos.eqb]. rewrite Hn.
    destruct (N.eqb_spec (of_le (slice blob (sf_byte_offset f) 8)) 0) as [->|]; done.
  - unfold blob_string. rewrite Hr. rewrite (proj2 (N.ltb_ge (lenN blob) (sf_byte_offset f + 16))) by lia.
    unfold read_u64_le. rewrite !lenN_slice by lia. cbn [N.eqb Pos.eqb]. rewrite N.add_0_r, Hptr, Hlen.
    destruct Ht as (Hnz & Hl & Hrd & Hz & Hu).
    rewrite (proj2 (N.eqb_neq ptr 0) Hnz), (proj2 (N.ltb_lt 0 len)), (proj2 (N.leb_le len (cc_max_string_capture config))) by lia. cbn [negb andb].
    rewrite (fr_string ptr len bytes (of_bytes bytes)); [|lia|done|done|unfold from_utf8; by rewrite Hu].
    rewrite as_bytes_of_bytes. do 3 f_equal. rewrite <- lenN_as_bytes, as_bytes_of_bytes. by eapply img_read_len.
Qed.

(** A struct all of whose fields have a meaning in the sense of [field_means] reads
    the same from the memory of the process and from its captured bytes: every
    field, within the configured number of fields, with the value its bytes mean. *)
Theorem struct_readers_agree type_name ti fields d depth values :
  (depth < MAX_DEPTH)%N -> Forall2 field_means fields values ->
  let result := CStruct type_name (zip (map sf_name (limit_fields config fields)) values) in
  parse_struct_fields_from_addr mr pid config datetime decode_error_text loop_fuel base type_name (Some (NStruct ti fields d)) depth
    = Ret (Ok result)
  /\ parse_struct_fields_from_blob mr pid config datetime decode_error_text loop_fuel blob type_name fields = Ret result.
Proof.
  intros Hd Hf. cbv zeta.
  assert (Hlf : exists values', Forall2 field_means (limit_fields config fields) values'
            /\ zip (map sf_name (limit_fields config fields)) values = zip (map sf_name (limit_fields config fields)) values').
  { unfold limit_fields. destruct (0 <=? _)%Z; [|eauto]. exists (take (Z.to_nat (cc_max_struct_fields config)) values).
    split; [by apply Forall2_take|]. rewrite <- firstn_map. generalize (Z.to_nat (cc_max_struct_fields config)) as k. clear Hd.
    induction Hf; intros [|k]; cbn; try done. by rewrite IHHf. }
  destruct Hlf as (values' & Hv & ->).
  destruct (struct_readers_unfold mr pid config datetime decode_error_text loop_fuel) as [Ha Hb]. rewrite Ha, Hb. split.
  - unfold addr_body. rewrite (proj2 (N.leb_gt MAX_DEPTH depth)) by done. rewrite (proj2 (N.eqb_neq base 0) Hbase).
    match goal with |- run_try (try_list ?g ?l) _ = _ => assert (try_list g l = Ret (Ok (zip (map sf_name l) values'))) as -> end; [|done].
    induction Hv as [|f v l vs Hm _ IH]; cbn [try_list map zip]; [done|]. rewrite (addr_field_means _ _ _ _ _ Hm). cbn [run_try run_bind].
    rewrite IH. done.
  - unfold blob_body. induction Hv as [|f v l vs Hm _ IH]; cbn [blob_fields map zip]; [done|].
    rewrite (blob_field_means _ _ _ _ Hm). cbn [run_bind] in *.
    destruct (blob_fields _ _ _ _ _ _ _ blob l); cbn [run_bind] in *; try done. injection IH as ->. done.
Qed.
End Agreement.

Definition no_text (_ : ScalarDecodeError) : string := EmptyString.
Definition no_date (_ : Z) : option string := None.

Definition scalar_type (name : string) (size : VariableSize) : TypeInfo :=
  mkTI name size (size_bytes size) false false false false false false false 0 EmptyString EmptyString 0 None.
Definition scalar_field (name type_name : string) (size : VariableSize) (offset : N) : StructField :=
  mkSF name (scalar_type type_name size) offset (size_bytes size) None.

Definition pair_image : image := image_of [(4096, words [5; 1])]%N.
Definition pair_fields : list StructField := [scalar_field "n" "int64" SQWord 0; scalar_field "ok" "bool" SByte 8].

Lemma struct_readers_agree_witness :
  let result := CStruct "main.T" [("n", CScalar 5); ("ok", CScalar 1)] in
  parse_struct_fields_from_addr (linux_reader (flat_kernel pair_image)) 1 default_config no_date no_text 0 4096 "main.T"
    (Some (NStruct unknown_type pair_fields 0)) 0 = Ret (Ok result)
  /\ parse_struct_fields_from_blob (linux_reader (flat_kernel pair_image)) 1 default_config no_date no_text 0 (words [5; 1]%N) "main.T" pair_fields
     = Ret result.
Proof.
  refine (@struct_readers_agree (linux_reader (flat_kernel pair_image)) 1 pair_image
    (linux_reader_faithful _ _ _ (flat_kernel_shows 1 pair_image)) default_config _ no_date no_text 0 4096 (words [5; 1]%N) _ _ _
    "main.T" unknown_type pair_fields 0 0 [CScalar 5; CScalar 1] _ _); try (vm_compute; (reflexivity || discriminate)).
  constructor; [|constructor; [|constructor]].
  - apply (means_scalar pair_image default_config (words [5; 1]%N) (scalar_field "n" "int64" SQWord 0)); vm_compute; (reflexivity || discriminate).
  - apply (means_scalar pair_image default_config (words [5; 1]%N) (scalar_field "ok" "bool" SByte 8)); vm_compute; (reflexivity || discriminate).
Defined.

(** ** Where the readers go wrong *)

Section Defects.
Context (mr : MemReader) (pid : N) (config : CaptureConfig).
Context (datetime : Z -> option string) (decode_error_text : ScalarDecodeError -> string) (loop_fuel : nat).
Context (ra : N -> string -> option NestedType -> N -> run (result CapturedValue EbpfError)).

(** A field of a Go integer type narrower than a word is read as a whole word:
    the bytes behind it, those of the next fields, are taken for its high bytes.
    (The reader narrows by type name, and knows the names of Rust's types only.) *)
Theorem go_narrow_field_read_wide name f addr word :
  name ∈ ["int8"; "uint8"; "byte"; "int16"; "uint16"; "int32"; "uint32"; "rune"] ->
  ti_name (sf_type_info f) = name -> mr_read_u64 mr pid addr = Ok word -> addr_scalar mr pid addr f = CScalar word.
Proof.
  intros Hn Ht Hw. unfold addr_scalar, read_u64_or_error. rewrite Hw, Ht. cbn [map_err].
  repeat (apply elem_of_cons in Hn as [->|Hn]; [reflexivity|]). by apply not_elem_of_nil in Hn.
Qed.

(** The elements of a slice of scalars are words whatever their size: element [i]
    of an [[]int32] also holds element [i + 1] in its upper half. *)
Theorem slice_elements_read_wide ti size addr word :
  ti_is_string ti = false -> is_f64_name (ti_name ti) = false -> is_f32_name (ti_name ti) = false ->
  mr_read_u64 mr pid addr = Ok word -> parse_slice_element mr pid config ra addr (NScalar ti) size = Ret (Ok (CScalar word)).
Proof. intros Hs H64 H32 Hw. unfold parse_slice_element. rewrite Hs, H64, H32, Hw. reflexivity. Qed.

(** The blob reader takes the first word of a Rust [String], its capacity, for the
    address of its text. *)
Theorem blob_string_reads_capacity f cap ptr len blob :
  is_rust_owned_string_type (ti_name (sf_type_info f)) = true -> sf_byte_offset f = 0%N ->
  (0 < len <= cc_max_string_capture config)%N -> (0 < cap < 2 ^ 64)%N -> (len < 2 ^ 64)%N ->
  blob = words [cap; ptr; len] ->
  blob_string mr pid config blob f =
    match mr_read_string mr pid cap len with Ok s => CString (as_bytes s) (str_len s) | Err _ => CString read_failed len end.
Proof.
  intros Ht Ho Hl Hc Hlb ->. unfold blob_string. rewrite Ht, Ho. unfold words. cbn [map List.concat]. rewrite app_nil_r.
  rewrite !lenN_app, !lenN_to_le.
  change (0 + 0)%N with 0%N. change (0 + 16)%N with 16%N.
  assert (H0 : slice (to_le 8 cap ++ to_le 8 ptr ++ to_le 8 len) 0 8 = to_le 8 cap) by (by apply (slice_app_mid [])).
  assert (H16 : slice (to_le 8 cap ++ to_le 8 ptr ++ to_le 8 len) 16 8 = to_le 8 len).
  { rewrite app_assoc. rewrite <- (app_nil_r (to_le 8 len)) at 1. by apply slice_app_mid; rewrite ?lenN_app, !lenN_to_le. }
  rewrite H0, H16. unfold read_u64_le. rewrite !lenN_to_le.
  rewrite !of_to_le. change (256 ^ N.of_nat 8)%N with (2 ^ 64)%N. rewrite !N.mod_small by lia.
  change (N.of_nat 8 + (N.of_nat 8 + N.of_nat 8) <? 0 + 24)%N with false. change (N.of_nat 8 =? 8)%N with true. cbv iota.
  rewrite (proj2 (N.eqb_neq cap 0)), (proj2 (N.ltb_lt 0 len)), (proj2 (N.leb_le len (cc_max_string_capture config))) by lia. done.
Qed.

(** A fixed-size array is read element by element up to its declared length; the
    configured limit on array elements is not applied. *)
Theorem arrays_ignore_limit f addr word :
  sf_nested_type f = None -> is_f64_name (ti_array_element_type (sf_type_info f)) = false ->
  (forall a, mr_read_u64 mr pid a = Ok word) ->
  addr_array mr pid config ra addr f =
    Ret (Ok (CArray (ti_array_element_type (sf_type_info f)) (repeat (CScalar word) (N.to_nat (ti_array_element_count (sf_type_info f)))))).
Proof.
  intros Hn Hf Hw. unfold addr_array. rewrite Hn. cbn [array_element_of]. rewrite Hf.
  match goal with |- run_try (try_list ?g ?l) _ = _ => assert (try_list g l = Ret (Ok (repeat (CScalar word) (length l)))) as -> end.
  - induction (indices _) as [|i l IH]; cbn [try_list length repeat]; [done|]. unfold read_u64_or_error at 1. rewrite Hw.
    cbn [map_err res_bind run_try run_bind]. rewrite IH. done.
  - cbn [run_try run_bind]. unfold indices. by rewrite length_map, length_seq.
Qed.
End Defects.

Lemma go_narrow_field_read_wide_witness :
  addr_scalar (linux_reader (flat_kernel pair_image)) 1 4096 (scalar_field "n" "int32" SDWord 0) = CScalar 5.
Proof. apply (go_narrow_field_read_wide _ _ "int32"); [apply list_elem_of_In; cbn; tauto|reflexivity|vm_compute; reflexivity]. Defined.

Lemma slice_elements_read_wide_witness :
  parse_slice_element (linux_reader (flat_kernel (image_of [(4096, to_le 4 1 ++ to_le 4 2 ++ words [0])%list]%N))) 1 default_config (fun _ _ _ _ => Panic)
    4096 (NScalar (scalar_type "int32" SDWord)) 4 = Ret (Ok (CScalar 8589934593)).
Proof. apply slice_elements_read_wide; vm_compute; reflexivity. Defined.

(** A nil map whose type is written [map<K,V>] with a generic key panics the
    decoder: the first closing bracket comes before the first comma. *)
Theorem generic_map_name_panics :
  parse_map_type_names "map<Vec<u8>, String>" = Panic
  /\ parse_struct_fields_from_blob (linux_reader (flat_kernel pair_image)) 1 default_config no_date no_text 0 (words [0%N]) "T"
       [mkSF "m" (scalar_type "map<Vec<u8>, String>" SQWord) 0 8 None] = Panic.
Proof. split; vm_compute; reflexivity. Qed.

(** An enum whose payload ends beyond its eighth byte is never decoded from memory,
    because at most eight bytes of it are fetched; from captured bytes it is. *)
Definition wide_enum : TypeInfo :=
  mkTI "Shape" SQWord 24 false false false false false false true 0 EmptyString EmptyString 0
    (Some (mkEL 0 8 [mkEVL "Dot" (Some 0%Z) None None; mkEVL "Box" (Some 1%Z) (Some 8%N) (Some 16%N)] false)).

Theorem wide_enum_undecodable :
  let img := image_of [(4096, words [1; 2; 3])]%N in
  let f := mkSF "shape" wide_enum 0 24 None in
  addr_enum (linux_reader (flat_kernel img)) 1 default_config no_text 4096 f = CError "Ring buffer error: "
  /\ blob_enum default_config no_text (words [1; 2; 3]%N) f = enum_value "Shape" (mkDE 1 "Box" (Some (words [2; 3]%N))).
Proof. split; vm_compute; reflexivity. Qed.
