(* ===== verification/ProbeProgram.v ===== *)
(** * Generating a probe's BPF program

    [crates/detrix-ebpf/src/probe/program.rs]: from a capture plan (or from
    resolved variables, the older route) to the members of the event struct, the
    statements that fill it and the size reserved in the ring buffer.

    Generated C is a list of declarations ([cdecl]) and statements ([stmt]) with
    the text [render_decl] and [render_stmt] give them, which is the text the
    source builds.  [BpfMachine] gives them their meaning.  The [Debug] text of an
    operation and the template file are parameters. *)

From Stdlib Require Import Strings.String Strings.Ascii Init.Byte.
From S2P Require Import Prelude RustStr RustText Dwarf CapturePlan TypeInfo MemReader Policy ProbeValue.

Local Open Scope string_scope.

(** ** Generated C *)

(** Members of the event struct: those of the template, of the raw envelope, and
    the per-variable ones. *)
Inductive cmember : Type :=
| MPid | MTid | MNsPid | MReserved | MTimestamp
| MMagic | MSchema | MFieldCount | MPayloadLen | MProfileTag | MPlanTag
| MGoid
| MVar (i : N) | MLen (i : N) | MCap (i : N) | MStr (i : N) | MBlob (i : N).

#[export] Instance cmember_eq_decision : EqDecision cmember.
Proof. solve_decision. Defined.

Definition var_name (i : N) : string := "var" ++ show_N i.
Definition member_name (m : cmember) : string :=
  match m with
  | MPid => "pid" | MTid => "tid" | MNsPid => "ns_pid" | MReserved => "reserved" | MTimestamp => "timestamp"
  | MMagic => "drx_magic" | MSchema => "drx_schema" | MFieldCount => "drx_field_count"
  | MPayloadLen => "drx_payload_len" | MProfileTag => "drx_profile_tag" | MPlanTag => "drx_plan_tag"
  | MGoid => "goid"
  | MVar i => var_name i
  | MLen i => var_name i ++ "_len"
  | MCap i => var_name i ++ "_cap"
  | MStr i => var_name i ++ "_str"
  | MBlob i => var_name i ++ "_blob"
  end.

Inductive ctype : Type := U8 | U16 | U32 | U64.
Definition ctype_width (t : ctype) : N := match t with U8 => 1 | U16 => 2 | U32 => 4 | U64 => 8 end.
Definition ctype_text (t : ctype) : string := match t with U8 => "u8" | U16 => "u16" | U32 => "u32" | U64 => "u64" end.

(** One declaration; [d_gap] is the white space after the type. *)
Record cdecl : Type := mkDecl { d_type : ctype; d_gap : string; d_member : cmember; d_count : option N; d_note : option string }.
Definition word_decl (m : cmember) : cdecl := mkDecl U64 " " m None None.
Definition bytes_decl (gap : string) (m : cmember) (count : N) : cdecl := mkDecl U8 gap m (Some count) None.

Definition render_decl (d : cdecl) : string :=
  "    " ++ ctype_text (d_type d) ++ d_gap d ++ member_name (d_member d)
  ++ match d_count d with Some n => "[" ++ show_N n ++ "]" | None => EmptyString end ++ ";"
  ++ match d_note d with Some s => " // " ++ s | None => EmptyString end ++ nl.

(** Addresses, in the spellings the generator uses. *)
Inductive abase : Type := BStack | BReg (r : Register).
Definition abase_text (b : abase) : string := match b with BStack => "DETRIX_STACK_PTR" | BReg r => pt_regs_access r end.

Inductive caddress : Type :=
| APlan (b : abase) (offset : Z)       (* base plus or minus a literal *)
| ANested (b : abase) (offset : Z)     (* the same inside one more pair of parentheses *)
| ASigned (b : abase) (offset : Z)     (* base plus a literal that has its sign *)
| ABase (b : abase).                   (* the base alone *)

(** [plan_address] *)
Definition plan_address (base : string) (offset : Z) : string :=
  if (0 <=? offset)%Z then "(" ++ base ++ " + " ++ show_Z offset ++ ")"
  else "(" ++ base ++ " - " ++ show_N (Z.abs_N offset) ++ ")".

Definition address_text (a : caddress) : string :=
  match a with
  | APlan b offset => plan_address (abase_text b) offset
  | ANested b offset => "(" ++ plan_address (abase_text b) offset ++ ")"
  | ASigned b offset => "(" ++ abase_text b ++ " + (" ++ show_Z offset ++ "))"
  | ABase b => abase_text b
  end.

Inductive lvalue : Type := LMember (m : cmember) | LElement (m : cmember) (n : N).
Definition lvalue_text (l : lvalue) : string :=
  match l with
  | LMember m => "event->" ++ member_name m
  | LElement m n => "event->" ++ member_name m ++ "[" ++ show_N n ++ "]"
  end.

Inductive stmt : Type :=
| SComment (text : string)
| SSetReg (d : lvalue) (r : Register)                          (* d = (u64)reg; *)
| SSetByte (m : cmember) (n : N) (r : Register) (shift : N)    (* one byte of a register *)
| SSetAddr (d : lvalue) (a : caddress)                         (* d = (u64)address; *)
| SSetZero (d : lvalue) (note : string)                        (* d = 0; *)
| SSetHex (d : lvalue) (n : N)
| SSetDec (d : lvalue) (n : N)
| SSetPayloadLen (n : N)                                       (* sizeof the event minus n *)
| SReadInto (d : lvalue) (size : N) (a : caddress)             (* read into the address of d *)
| SReadArray (m : cmember) (size : N) (a : caddress)           (* read into an array member *)
| SMemset (m : cmember) (n : N)
| SReadText (i : N) (max : N) (note : string)                  (* the bytes a string header points to *)
| SGoid.

Definition GOID_EXTRACT : string :=
"    // Extract goroutine ID (goid) from runtime.g struct.
    // ARM64 (non-cgo): X28 register holds G pointer directly (callee-saved, reliable).
    // x86-64: TLS-based approach using BPF CO-RE to read thread.fsbase from task_struct,
    //         then read G pointer from TLS + G_ADDR_OFFSET, then goid from G struct.
    // This mirrors Delve's approach — reliable at any instruction, not register-dependent.
#ifndef GOID_OFFSET
#define GOID_OFFSET 160  // Go 1.17+ default (param field added before atomicstatus/goid); override via -DGOID_OFFSET=N
#endif
#ifndef G_ADDR_OFFSET
#define G_ADDR_OFFSET -8  // fallback for pure Go (no PT_TLS); override via -DG_ADDR_OFFSET=N
#endif
    u64 goid = 0;
#if defined(__TARGET_ARCH_arm64)
    {
        // ARM64: Go uses X28 as callee-saved goroutine register.
        void *g_ptr = (void *)ctx->regs[28];
        if (g_ptr) {
            bpf_probe_read_user(&goid, sizeof(goid), g_ptr + GOID_OFFSET);
        }
    }
#else
    {
        // x86-64: TLS-based approach via BPF CO-RE.
        // Minimal struct definitions for CO-RE field relocation — the actual
        // offsets are resolved at load time from the kernel's BTF vmlinux.
        struct thread_struct___detrix { unsigned long fsbase; };
        struct task_struct___detrix   { struct thread_struct___detrix thread; };

        struct task_struct *task = (struct task_struct *)bpf_get_current_task();
        u64 fsbase = 0;
        if (task) {
            bpf_core_read(&fsbase, sizeof(fsbase),
                          &((struct task_struct___detrix *)task)->thread.fsbase);
        }
        if (fsbase) {
            void *g_ptr = NULL;
            bpf_probe_read_user(&g_ptr, sizeof(g_ptr), (void *)(fsbase + G_ADDR_OFFSET));
            if (g_ptr) {
                bpf_probe_read_user(&goid, sizeof(goid), (u8 *)g_ptr + GOID_OFFSET);
            }
        }
    }
#endif
    event->goid = goid;
".

Definition read_text_block (i max : N) (note : string) : string :=
  let len := "_len" ++ show_N i in
  let value := "event->" ++ var_name i in
  "    {" ++ nl
  ++ "        u32 " ++ len ++ " = (u32)" ++ value ++ "_len;" ++ nl
  ++ "        " ++ len ++ " &= 0xFF;" ++ note ++ nl
  ++ "        if (" ++ value ++ " && " ++ len ++ " > 0 && " ++ len ++ " <= " ++ show_N max ++ ") {" ++ nl
  ++ "            bpf_probe_read_user(" ++ value ++ "_str, " ++ len ++ ", (void *)" ++ value ++ ");" ++ nl
  ++ "        }" ++ nl
  ++ "    }".

(** A statement's text, without the line end after it. *)
Definition render_stmt (s : stmt) : string :=
  match s with
  | SComment text => "    // " ++ text
  | SSetReg d r => "    " ++ lvalue_text d ++ " = (u64)" ++ pt_regs_access r ++ ";"
  | SSetByte m n r shift =>
      "    " ++ lvalue_text (LElement m n) ++ " = (u8)(((u64)" ++ pt_regs_access r ++ ") >> " ++ show_N shift ++ ");"
  | SSetAddr d a => "    " ++ lvalue_text d ++ " = (u64)" ++ address_text a ++ ";"
  | SSetZero d note => "    " ++ lvalue_text d ++ " = 0;" ++ note
  | SSetHex d n => "    " ++ lvalue_text d ++ " = " ++ hex_prefixed n ++ ";"
  | SSetDec d n => "    " ++ lvalue_text d ++ " = " ++ show_N n ++ ";"
  | SSetPayloadLen n => "    " ++ lvalue_text (LMember MPayloadLen) ++ " = sizeof(*event) - " ++ show_N n ++ ";"
  | SReadInto d size a =>
      "    bpf_probe_read_user(&" ++ lvalue_text d ++ ", " ++ show_N size ++ ", (void *)" ++ address_text a ++ ");"
  | SReadArray m size a =>
      "    bpf_probe_read_user(" ++ lvalue_text (LMember m) ++ ", " ++ show_N size ++ ", (void *)" ++ address_text a ++ ");"
  | SMemset m n => "    __builtin_memset(" ++ lvalue_text (LMember m) ++ ", 0, " ++ show_N n ++ ");"
  | SReadText i max note => read_text_block i max note
  | SGoid => GOID_EXTRACT
  end.

Definition render_decls (ds : list cdecl) : string := String.concat EmptyString (map render_decl ds).
Definition render_stmts (ss : list stmt) : string := String.concat EmptyString (map (fun s => render_stmt s ++ nl) ss).

(** ** Programs *)

Record RawEnvelopeSpec : Type := mkSpec { es_profile_tag : N; es_plan_tag : N }.
Definition RAW_ENVELOPE_MAGIC : N := of_le (as_bytes "DRX1").
Definition RAW_ENVELOPE_SCHEMA : N := 1.
Definition RAW_ENVELOPE_SIZE : N := 24.

(** The program before it is text: [bp_fields] and [bp_reads] replace the two
    placeholders of the template, [bp_event_size] the third. *)
Record BpfProgram : Type := mkProgram {
  bp_fields : list cdecl;
  bp_reads : list stmt;
  bp_event_size : N;
  bp_var_count : N;
  bp_captures_goid : bool;
  bp_g_addr_offset : option Z;
  bp_goid_offset : option N;
  bp_versioned_envelope : bool
}.

(** [str::replace] with a non-empty pattern *)
Fixpoint replace_from (fuel : nat) (pattern by_ s : string) : string :=
  match fuel with
  | O => s
  | S fuel =>
      match strip_prefix pattern s with
      | Some rest => by_ ++ replace_from fuel pattern by_ rest
      | None => match s with
                | EmptyString => EmptyString
                | String c rest => String c (replace_from fuel pattern by_ rest)
                end
      end
  end.
Definition replace (pattern by_ s : string) : string := replace_from (S (String.length s)) pattern by_ s.

Definition program_source (template : string) (p : BpfProgram) : string :=
  replace "/*DETRIX_EVENT_SIZE*/" (show_N (bp_event_size p))
    (replace "/*DETRIX_VAR_READS*/" (render_stmts (bp_reads p))
      (replace "/*DETRIX_EVENT_FIELDS*/" (render_decls (bp_fields p)) template)).

(** ** The parts both generators share *)

(** [(size + 7) & !7] *)
Definition round_up8 (size : N) : N := N.ldiff (size + 7) 7.
Definition prefix_size (capture_goid : bool) (envelope : option RawEnvelopeSpec) : N :=
  24 + (if envelope then 24 else 0) + (if capture_goid then 8 else 0).

Definition envelope_decls (envelope : option RawEnvelopeSpec) : list cdecl :=
  match envelope with
  | None => []
  | Some _ =>
      [mkDecl U32 " " MMagic None None; mkDecl U16 " " MSchema None None; mkDecl U16 " " MFieldCount None None;
       mkDecl U32 " " MPayloadLen None None; mkDecl U32 " " MProfileTag None None; mkDecl U64 " " MPlanTag None None]
  end.
Definition goid_decls (capture_goid : bool) : list cdecl := if capture_goid then [word_decl MGoid] else [].

Definition envelope_reads (envelope : option RawEnvelopeSpec) (count : N) : list stmt :=
  match envelope with
  | None => []
  | Some e =>
      [SSetHex (LMember MMagic) RAW_ENVELOPE_MAGIC; SSetDec (LMember MSchema) RAW_ENVELOPE_SCHEMA;
       SSetDec (LMember MFieldCount) count; SSetPayloadLen (24 + RAW_ENVELOPE_SIZE);
       SSetHex (LMember MProfileTag) (es_profile_tag e); SSetHex (LMember MPlanTag) (es_plan_tag e)]
  end.
Definition goid_reads (capture_goid : bool) : list stmt := if capture_goid then [SGoid] else [].

Definition var_decl (i : N) (note : string) : cdecl := mkDecl U64 " " (MVar i) None (Some note).

(** Read a string header's bytes: clear the buffer, then read what the header says. *)
Definition text_reads (i max : N) (note : string) : list stmt := [SMemset (MStr i) max; SReadText i max note].

Section Enumerate.
Context {A B : Type}.
Fixpoint enumerate_from (i : N) (l : list A) (f : N -> A -> list B) : list B :=
  match l with [] => [] | a :: l => (f i a ++ enumerate_from (i + 1) l f)%list end.
Fixpoint try_enumerate_from (i : N) (l : list A) (f : N -> A -> result (list B) EbpfError) : result (list B) EbpfError :=
  match l with
  | [] => Ok []
  | a :: l => let? x := f i a in let? y := try_enumerate_from (i + 1) l f in Ok (x ++ y)%list
  end.
End Enumerate.

(** ** From a plan *)

Definition text_kind (k : HeaderKind) : bool :=
  match k with HString | HRustString | HBorrowedStr => true | HSlice | HRustVec | HBorrowedSlice => false end.

Section Limits.
Context (config : CaptureConfig).
Definition string_capture : N := N.min (cc_max_string_capture config) 255.
Definition blob_capture (size : N) : N := N.min size (cc_max_blob_capture config).

(** What a field takes beside its word, as [plan_event_size] counts it. *)
Definition plan_extra_size (f : CaptureField) : N :=
  match cf_op f with
  | RHeader _ _ kind | RHeaderExplicit _ _ _ _ kind => if text_kind kind then 8 + string_capture else 16
  | RBlob _ size _ => blob_capture size
  | RPiecewise _ | RPiece _ _ _ => blob_capture (cf_size f)
  | RRegister _ _ | RStack _ _ _ | RFrame _ _ _ _ => if (8 <? cf_size f)%N then blob_capture (cf_size f) else 0
  | _ => 0
  end.
Definition plan_event_size (fields : list CaptureField) (capture_goid : bool) (envelope : option RawEnvelopeSpec) : N :=
  round_up8 (fold_left (fun size f => size + 8 + plan_extra_size f) fields (prefix_size capture_goid envelope))%N.

Definition plan_field_decls (index : N) (f : CaptureField) : list cdecl :=
  var_decl index (cf_name f ++ ": plan-op") ::
  match cf_op f with
  | RHeader _ _ kind | RHeaderExplicit _ _ _ _ kind =>
      if text_kind kind then [word_decl (MLen index); bytes_decl " " (MStr index) string_capture]
      else [word_decl (MLen index); word_decl (MCap index)]
  | RBlob _ size _ => [bytes_decl " " (MBlob index) (blob_capture size)]
  | RPiecewise _ | RPiece _ _ _ => [bytes_decl " " (MBlob index) (blob_capture (cf_size f))]
  | _ => if (8 <? cf_size f)%N then [bytes_decl " " (MBlob index) (blob_capture (cf_size f))] else []
  end.
Definition build_plan_event_fields (fields : list CaptureField) (capture_goid : bool) (envelope : option RawEnvelopeSpec)
    : list cdecl :=
  (envelope_decls envelope ++ goid_decls capture_goid ++ enumerate_from 0 fields plan_field_decls)%list.

(** [plan_memory_read] *)
Definition plan_memory_read (destination : lvalue) (base : abase) (offset : Z) (size : N) : list stmt :=
  [SSetZero destination EmptyString; SReadInto destination size (APlan base offset)].

Definition shift_plan_op (op : ReadOp) (delta : Z) : ReadOp :=
  match op with
  | RStack offset size semantics => RStack (i64_saturating_add offset delta) size semantics
  | RFrame register offset size semantics => RFrame register (i64_saturating_add offset delta) size semantics
  | other => other
  end.

Context (debug_op : ReadOp -> string).

Fixpoint generate_plan_read_into (op : ReadOp) (destination : lvalue) (size : N) : result (list stmt) EbpfError :=
  if (size =? 0)%N then Err (EEbpf "capture plan contains a zero-sized read")
  else match op with
  | RRegister register _ => Ok [SSetReg destination register]
  | RStack offset _ _ => Ok (plan_memory_read destination BStack offset size)
  | RFrame register offset _ _ => Ok (plan_memory_read destination (BReg register) offset size)
  | RIndirect base _ | RMap base => generate_plan_read_into base destination size
  | _ => Err (EEbpf ("unsupported nested plan read operation: " ++ debug_op op))
  end.

(** The distances of the pointer, length and capacity words from a header's base. *)
Definition header_deltas (kind : HeaderKind) : Z * Z * option Z :=
  match kind with
  | HString | HBorrowedStr => (0, 8, None)
  | HRustString => (8, 16, None)
  | HSlice => (0, 8, Some 16)
  | HRustVec => (0, 16, Some 16)
  | HBorrowedSlice => (0, 8, Some 8)
  end%Z.

(** Pointer, length, then the capacity or the text: what both header operations
    generate once their three reads are known. *)
Definition header_reads (index : N) (ptr len : ReadOp) (cap : option ReadOp) : result (list stmt) EbpfError :=
  let? a := generate_plan_read_into ptr (LMember (MVar index)) 8 in
  let? b := generate_plan_read_into len (LMember (MLen index)) 8 in
  match cap with
  | Some cap => let? c := generate_plan_read_into cap (LMember (MCap index)) 8 in Ok (a ++ b ++ c)%list
  | None => Ok (a ++ b ++ text_reads index string_capture EmptyString)%list
  end.

(** The pieces of a piecewise value, in order. *)
Fixpoint piece_reads (index capture : N) (pieces : list CapturePiece) : result (list stmt) EbpfError :=
  match pieces with
  | [] => Ok []
  | piece :: pieces =>
      if (capture <=? cp_offset piece)%N then piece_reads index capture pieces
      else
        let size := N.min (cp_size piece) (capture - cp_offset piece) in
        let? here := match cp_op piece with
                     | Some op => generate_plan_read_into op (LElement (MBlob index) (cp_offset piece)) size
                     | None => Ok []
                     end in
        let? rest := piece_reads index capture pieces in Ok (here ++ rest)%list
  end.

(** [constant |= u64::from(byte) << (shift * 8)] over the first eight bytes *)
Definition constant_word (bytes : list byte) : N := of_le (take 8 bytes).

Definition generate_plan_read_expr (op : ReadOp) (index field_size : N) : result (list stmt) EbpfError :=
  let value := LMember (MVar index) in
  let wide := (8 <? field_size)%N in
  match op with
  | RRegister register _ =>
      Ok (if wide then [SReadArray (MBlob index) (blob_capture field_size) (ABase (BReg register))]
          else [SSetReg value register])
  | RStack offset size _ =>
      Ok (if wide then [SReadArray (MBlob index) (blob_capture field_size) (APlan BStack offset)]
          else plan_memory_read value BStack offset size)
  | RFrame register offset size _ =>
      Ok (if wide then [SReadArray (MBlob index) (blob_capture field_size) (ANested (BReg register) offset)]
          else plan_memory_read value (BReg register) offset size)
  | RBlob offset size _ =>
      Ok [SSetAddr value (APlan BStack offset); SReadArray (MBlob index) (blob_capture size) (APlan BStack offset)]
  | RIndirect base _ | RMap base => generate_plan_read_into base value 8
  | RHeader base _ kind =>
      let '(ptr_delta, len_delta, cap_delta) := header_deltas kind in
      header_reads index (shift_plan_op base ptr_delta) (shift_plan_op base len_delta) (shift_plan_op base <$> cap_delta)
  | RHeaderExplicit ptr len cap _ _ => header_reads index ptr len cap
  | RPiecewise pieces =>
      let capture := blob_capture field_size in
      let? rest := piece_reads index capture pieces in Ok (SMemset (MBlob index) capture :: rest)
  | RPiece offset size op =>
      generate_plan_read_into op (LElement (MBlob index) offset) (N.min size (field_size - offset))
  | RUnavailable _ => Ok [SSetZero value EmptyString]
  | RConstant bytes => Ok [SSetHex value (constant_word bytes)]
  | RCfa _ _ _ | RUserBytes _ _ => Err (EEbpf "capture plan operation requires user-space lowering")
  end.

Definition plan_field_reads (index : N) (f : CaptureField) : result (list stmt) EbpfError :=
  let? reads := generate_plan_read_expr (cf_op f) index (cf_size f) in
  Ok (SComment (cf_name f ++ ": plan-op") :: reads).
Definition build_plan_var_reads (fields : list CaptureField) (capture_goid : bool) (envelope : option RawEnvelopeSpec)
    : result (list stmt) EbpfError :=
  let? reads := try_enumerate_from 0 fields plan_field_reads in
  Ok (envelope_reads envelope (lenN fields) ++ goid_reads capture_goid ++ reads)%list.

Definition too_many_variables (count : N) : EbpfError :=
  EEbpf ("Too many variables: " ++ show_N count ++ " (max " ++ show_N (cc_max_capture_vars config) ++ ")").

Definition generate_bpf_program_from_plan (plan : CapturePlan) (capture_goid : bool) (g_addr_offset : option Z)
    (goid_offset : option N) (envelope : option RawEnvelopeSpec) : result BpfProgram EbpfError :=
  let? _ := map_err (fun e => EEbpf ("invalid capture plan: " ++ plan_error_text e)) (plan_validate plan) in
  if (cc_max_capture_vars config <? lenN (plan_fields plan))%N then Err (too_many_variables (lenN (plan_fields plan)))
  else
    let? reads := build_plan_var_reads (plan_fields plan) capture_goid envelope in
    Ok (mkProgram (build_plan_event_fields (plan_fields plan) capture_goid envelope) reads
          (plan_event_size (plan_fields plan) capture_goid envelope) (lenN (plan_fields plan))
          capture_goid g_addr_offset goid_offset (bool_decide (is_Some envelope))).

(** ** From resolved variables *)

(** The [Display] text of a location, which ends up in a comment *)
Definition signed_hex (prefix : string) (offset : Z) : string :=
  (if (0 <=? offset)%Z then prefix ++ "+" else prefix ++ "-") ++ hex_prefixed (Z.abs_N offset).
Definition location_display (l : VariableLocation) : string :=
  match l with
  | VRegister r => register_display r
  | VStackOffset offset => signed_hex "[sp" offset ++ "]"
  | VFrameOffset register offset => signed_hex ("[" ++ register_display register) offset ++ "]"
  | VGoString _ _ => "go.string{ptr, len}"
  | VStringHeader _ _ => "string.header{ptr, len}"
  | VGoSlice _ _ _ => "go.slice{ptr, len, cap}"
  | VSliceHeader _ _ _ => "slice.header{ptr, len, cap}"
  | VStackBlob offset byte_size => signed_hex ("blob[" ++ show_N byte_size ++ "b@sp") offset ++ "]"
  | VPiecewiseBlob pieces byte_size => "piecewise-blob[" ++ show_N byte_size ++ "b/" ++ show_N (lenN pieces) ++ " pieces]"
  | VStackIndirect offset byte_size => signed_hex ("indirect[" ++ show_N byte_size ++ "b@*sp") offset ++ "]"
  | VGoMap _ => "go.map{ptr}"
  end.

Definition legacy_extra_size (v : ResolvedVariable) : N :=
  match rv_location v with
  | VGoString _ _ | VStringHeader _ _ => 8 + string_capture
  | VGoSlice _ _ _ | VSliceHeader _ _ _ => 16
  | VStackBlob _ byte_size | VPiecewiseBlob _ byte_size => blob_capture byte_size
  | _ => 0
  end.
Definition legacy_event_size (variables : list ResolvedVariable) (capture_goid : bool) (envelope : option RawEnvelopeSpec) : N :=
  round_up8 (fold_left (fun size v => size + 8 + legacy_extra_size v) variables (prefix_size capture_goid envelope))%N.

Definition event_field_decls (i : N) (v : ResolvedVariable) : list cdecl :=
  var_decl i (rv_name v ++ ": " ++ location_display (rv_location v)) ::
  match rv_location v with
  | VGoString _ _ | VStringHeader _ _ => [word_decl (MLen i); bytes_decl "  " (MStr i) string_capture]
  | VGoSlice _ _ _ | VSliceHeader _ _ _ => [word_decl (MLen i); word_decl (MCap i)]
  | VStackBlob _ byte_size | VPiecewiseBlob _ byte_size => [bytes_decl "  " (MBlob i) (blob_capture byte_size)]
  | _ => []
  end.
Definition build_event_fields (variables : list ResolvedVariable) (capture_goid : bool) (envelope : option RawEnvelopeSpec)
    : list cdecl :=
  (envelope_decls envelope ++ goid_decls capture_goid ++ enumerate_from 0 variables event_field_decls)%list.

Definition simple_read_expr (loc : VariableLocation) (field : cmember) : list stmt :=
  match loc with
  | VRegister reg => [SSetReg (LMember field) reg]
  | VStackOffset offset => [SReadInto (LMember field) 8 (ASigned BStack offset)]
  | VFrameOffset register offset => [SReadInto (LMember field) 8 (APlan (BReg register) offset)]
  | _ => [SSetZero (LMember field) " // unsupported"]
  end.

(** One word of a string header: the three location forms, cleared before a
    memory read. *)
Definition string_word_read (loc : VariableLocation) (field : cmember) : list stmt :=
  match loc with
  | VStackOffset offset => [SSetZero (LMember field) EmptyString; SReadInto (LMember field) 8 (ASigned BStack offset)]
  | VRegister reg => [SSetReg (LMember field) reg]
  | VFrameOffset register offset =>
      [SSetZero (LMember field) EmptyString; SReadInto (LMember field) 8 (APlan (BReg register) offset)]
  | _ => [SSetZero (LMember field) EmptyString]
  end.

Definition verifier_note : string := "  /* bound to [0,255] — verifier hint */".

(** The pieces of a piecewise value; [written] counts the bytes done. *)
Fixpoint legacy_pieces (idx capture written : N) (pieces : list (VariablePieceOf VariableLocation)) : run (list stmt) :=
  match pieces with
  | [] => Ret []
  | piece :: pieces =>
      if (capture <=? written)%N then Ret []
      else
        let piece_size := N.min (capture - written) (vp_byte_size _ piece) in
        match vp_location _ piece with
        | None => legacy_pieces idx capture (written + vp_byte_size _ piece) pieces
        | Some loc =>
            let next here := let! rest := legacy_pieces idx capture (written + piece_size) pieces in Ret (here ++ rest)%list in
            match loc with
            | VRegister reg =>
                next (map (fun byte => SSetByte (MBlob idx) (written + N.of_nat byte) reg (N.of_nat byte * 8)) (seq 0 (N.to_nat piece_size)))
            | VStackOffset offset => next [SReadInto (LElement (MBlob idx) written) piece_size (APlan BStack offset)]
            | VFrameOffset register offset =>
                next [SReadInto (LElement (MBlob idx) written) piece_size (APlan (BReg register) offset)]
            | _ => Panic
            end
        end
  end.

Definition generate_read_expr (v : ResolvedVariable) (idx : N) : run (list stmt) :=
  let value := LMember (MVar idx) in
  match rv_location v with
  | VRegister reg => Ret [SSetReg value reg]
  | VStackOffset offset => Ret (plan_memory_read value BStack offset (size_bytes (rv_size v)))
  | VFrameOffset register offset => Ret (plan_memory_read value (BReg register) offset (size_bytes (rv_size v)))
  | VGoString ptr len | VStringHeader ptr len =>
      Ret (string_word_read ptr (MVar idx) ++ string_word_read len (MLen idx) ++ text_reads idx string_capture verifier_note)%list
  | VGoSlice ptr len cap | VSliceHeader ptr len cap =>
      Ret (simple_read_expr ptr (MVar idx) ++ simple_read_expr len (MLen idx) ++ simple_read_expr cap (MCap idx))%list
  | VStackBlob offset byte_size =>
      Ret [SSetAddr value (APlan BStack offset); SReadArray (MBlob idx) (blob_capture byte_size) (APlan BStack offset)]
  | VPiecewiseBlob pieces byte_size =>
      let capture := blob_capture byte_size in
      let! rest := legacy_pieces idx capture 0 pieces in Ret (SMemset (MBlob idx) capture :: rest)
  | VStackIndirect offset _ => Ret [SReadInto value 8 (APlan BStack offset)]
  | VGoMap ptr => Ret (simple_read_expr ptr (MVar idx))
  end.

Fixpoint var_reads_from (i : N) (variables : list ResolvedVariable) : run (list stmt) :=
  match variables with
  | [] => Ret []
  | v :: rest =>
      let! here := generate_read_expr v i in
      let! after := var_reads_from (i + 1) rest in
      Ret (SComment (rv_name v ++ ": " ++ rv_type_name v) :: here ++ after)%list
  end.
Definition build_var_reads (variables : list ResolvedVariable) (capture_goid : bool) (envelope : option RawEnvelopeSpec)
    : run (list stmt) :=
  let! reads := var_reads_from 0 variables in
  Ret (envelope_reads envelope (lenN variables) ++ goid_reads capture_goid ++ reads)%list.

Definition generate_bpf_program_with_envelope (variables : list ResolvedVariable) (capture_goid : bool)
    (g_addr_offset : option Z) (goid_offset : option N) (envelope : option RawEnvelopeSpec) : run (result BpfProgram EbpfError) :=
  if (cc_max_capture_vars config <? lenN variables)%N then Ret (Err (too_many_variables (lenN variables)))
  else
    let! reads := build_var_reads variables capture_goid envelope in
    Ret (Ok (mkProgram (build_event_fields variables capture_goid envelope) reads
               (legacy_event_size variables capture_goid envelope) (lenN variables)
               capture_goid g_addr_offset goid_offset (bool_decide (is_Some envelope)))).
Definition generate_bpf_program (variables : list ResolvedVariable) (capture_goid : bool)
    (g_addr_offset : option Z) (goid_offset : option N) : run (result BpfProgram EbpfError) :=
  generate_bpf_program_with_envelope variables capture_goid g_addr_offset goid_offset None.
End Limits.

(** The C text of a two-variable plan, as the generator writes it. *)
Example plan_text :
  res_map render_stmts
    (build_plan_var_reads default_config (fun _ => EmptyString)
       [mkField "n" 0 4 (RStack (-16) 4 VValue); mkField "r" 4 8 (RRegister (Arm64 3) VValue)] false None)
  = Ok ("    // n: plan-op" ++ nl
        ++ "    event->var0 = 0;" ++ nl
        ++ "    bpf_probe_read_user(&event->var0, 4, (void *)(DETRIX_STACK_PTR - 16));" ++ nl
        ++ "    // r: plan-op" ++ nl
        ++ "    event->var1 = (u64)ctx->regs[3];" ++ nl).
Proof. vm_compute. reflexivity. Qed.
