(* ===== verification/RingEvent.v ===== *)
(** * Decoding ring-buffer records

    [parse_ring_buffer_event_with_envelope] of
    [crates/detrix-ebpf/src/probe/ringbuf.rs]: the header, the raw envelope and the
    goroutine id, then each variable by its location, reading on in the memory of
    the process where the record only holds an address.

    [CaptureRoundTrip] composes it with the generated program. *)

From Stdlib Require Import Strings.String Strings.Ascii Init.Byte.
From S2P Require Import Prelude RustStr RustText Dwarf CapturePlan Decode TypeInfo MemReader Policy ProbeValue MapReader StructReader ProbeProgram.

Local Open Scope string_scope.

(** ** Cursor reads *)

Definition MIN_EVENT_SIZE : N := 24.

(** [read_u16], [read_u32], [read_u64]: [n] bytes at the cursor, and the cursor after them *)
Definition read_le (n : N) (data : list byte) (offset : N) : result (N * N) EbpfError :=
  if (lenN data <? offset + n)%N then Err (ERingBuffer ("Unexpected end of event at offset " ++ show_N offset))
  else Ok (of_le (slice data offset n), offset + n)%N.
Definition read_u16 : list byte -> N -> result (N * N) EbpfError := read_le 2.
Definition read_u32 : list byte -> N -> result (N * N) EbpfError := read_le 4.
Definition read_u64 : list byte -> N -> result (N * N) EbpfError := read_le 8.

Definition read_bytes (data : list byte) (offset count : N) : result (list byte * N) EbpfError :=
  if (lenN data <? offset + count)%N
  then Err (ERingBuffer ("Unexpected end of event reading " ++ show_N count ++ " bytes at offset " ++ show_N offset))
  else Ok (slice data offset count, offset + count)%N.

(** Clear the top byte of a pointer. *)
Definition canonicalize_user_pointer (ptr : N) : N := N.land ptr (2 ^ 56 - 1).

Record RawEnvelopeExpectation : Type := mkExpectation { ee_profile_tag : N; ee_plan_tag : N; ee_field_count : N }.

Definition check_raw_envelope (data : list byte) (offset : N) (count : N) (expected : RawEnvelopeExpectation)
    : result N EbpfError :=
  if negb (ee_field_count expected =? count)%N then
    Err (ERingBuffer ("Envelope field count mismatch: expected " ++ show_N (ee_field_count expected) ++ ", variables " ++ show_N count))
  else if (lenN data <? offset + RAW_ENVELOPE_SIZE)%N then Err (ERingBuffer "Truncated DRX1 envelope header")
  else
    let? (magic, offset) := read_u32 data offset in
    let? (schema, offset) := read_u16 data offset in
    let? (field_count, offset) := read_u16 data offset in
    let? (payload_len, offset) := read_u32 data offset in
    let? (profile_tag, offset) := read_u32 data offset in
    let? (plan_tag, offset) := read_u64 data offset in
    if negb (magic =? RAW_ENVELOPE_MAGIC)%N || negb (schema =? RAW_ENVELOPE_SCHEMA)%N then
      Err (ERingBuffer ("Unsupported DRX1 envelope magic/schema: " ++ hex_prefixed magic ++ "/" ++ show_N schema))
    else if negb (field_count =? ee_field_count expected)%N || negb (profile_tag =? ee_profile_tag expected)%N
            || negb (plan_tag =? ee_plan_tag expected)%N then Err (ERingBuffer "Stale or mismatched DRX1 envelope")
    else
      let actual_payload_len := (lenN data - offset)%N in
      if negb (payload_len =? actual_payload_len)%N then
        Err (ERingBuffer ("DRX1 payload length mismatch: declared " ++ show_N payload_len ++ ", actual " ++ show_N actual_payload_len))
      else Ok offset.

(** ** Values *)

Section Decode.
Context (mr : MemReader) (config : CaptureConfig).
Context (datetime : Z -> option string) (decode_error_text : ScalarDecodeError -> string).
Context (loop_fuel : nat).

Definition struct_at (ns_pid : N) : N -> string -> option NestedType -> N -> run (result CapturedValue EbpfError) :=
  parse_struct_fields_from_addr mr ns_pid config datetime decode_error_text loop_fuel.
Definition struct_in (ns_pid : N) : list byte -> string -> list StructField -> run CapturedValue :=
  parse_struct_fields_from_blob mr ns_pid config datetime decode_error_text loop_fuel.

Definition no_text : CapturedValue := CString [] 0.

(** A string header, given its two words and the bytes the probe read. *)
Definition string_value (ns_pid val len : N) (inline : list byte) : CapturedValue :=
  if (cc_max_string_capture config <? len)%N then no_text
  else
    let val := canonicalize_user_pointer val in
    if (val =? 0)%N then no_text
    else if (val <? 4096)%N then no_text
    else if (2 ^ 56 <=? val)%N then no_text
    else if (len <=? lenN inline)%N && some_nonzero (take (N.to_nat len) inline)
    then CString (take (N.to_nat len) inline) len
    else match mr_read_string mr ns_pid val len with
         | Ok s => CString (as_bytes s) len
         | Err _ => CString read_failed len
         end.

Definition truncated (what name part : string) : EbpfError := ERingBuffer ("Rust " ++ what ++ " '" ++ name ++ "'" ++ part ++ " is truncated").

(** The layouts [rust_layout::infer] knows. *)
Definition contract_value (v : ResolvedVariable) (bytes : list byte) (contract : RustLayoutContract) : result CapturedValue EbpfError :=
  match contract with
  | NicheOption pointer_offset word_size =>
      let? pointer := ok_or (read_layout_word bytes pointer_offset word_size) (truncated "niche Option" (rv_name v) EmptyString) in
      let variant := if (pointer =? 0)%N then "None" else "Some" in
      Ok (CStruct (rv_type_name v) [("variant", CString (as_bytes variant) (str_len variant)); ("pointer", CScalar pointer)])
  | TraitObject data_offset vtable_offset word_size =>
      let? data_ptr := ok_or (read_layout_word bytes data_offset word_size) (truncated "trait object" (rv_name v) " data pointer") in
      let? vtable_ptr := ok_or (read_layout_word bytes vtable_offset word_size) (truncated "trait object" (rv_name v) " vtable pointer") in
      Ok (CStruct (rv_type_name v) [("data_ptr", CScalar data_ptr); ("vtable_ptr", CScalar vtable_ptr)])
  | AsyncState state_offset state_size =>
      let? state := ok_or (read_layout_word bytes state_offset state_size) (truncated "async state" (rv_name v) EmptyString) in
      Ok (CStruct (rv_type_name v) [("state", CScalar state)])
  end.

Definition blob_enum_value (v : ResolvedVariable) (bytes : list byte) (layout : EnumLayout) : result CapturedValue EbpfError :=
  if negb (is_explicit_non_niche layout) then
    Err (ERingBuffer ("Enum '" ++ rv_name v ++ "' has incomplete or niche DWARF layout"))
  else
    let? d := map_err (fun e => ERingBuffer (decode_error_text e))
                (decode_enum_variant (mkBlob (rv_name v) bytes) (el_discriminant_offset layout) (el_discriminant_size layout)
                   (variant_specs layout) (cc_max_blob_capture config)) in
    Ok (CStruct (rv_type_name v)
          ([("variant", CString (as_bytes (de_variant d)) (str_len (de_variant d))); ("discriminant", CScalar (de_discriminant d))]
           ++ match de_payload d with Some payload => [("payload", CBytes payload)] | None => [] end)%list).

(** Bytes read from a place that has struct fields, or the bytes themselves. *)
Definition bytes_value (ns_pid : N) (v : ResolvedVariable) (bytes : list byte) : run CapturedValue :=
  match rv_nested_type v with
  | Some (NStruct _ fields _) => struct_in ns_pid bytes (rv_type_name v) fields
  | _ => Ret (CBytes bytes)
  end.

(** [StackBlob] and [PiecewiseBlob], once the bytes are there *)
Definition blob_value (ns_pid : N) (v : ResolvedVariable) (byte_size : N) (bytes : list byte) : run (result CapturedValue EbpfError) :=
  let contract := if is_probably_rust_type (rv_type_name v) then infer_layout (rv_type_name v) byte_size else None in
  match contract with
  | Some contract => Ret (contract_value v bytes contract)
  | None =>
      match rv_nested_type v with
      | Some (NScalar ti) =>
          match ti_enum_layout ti with
          | Some layout => Ret (blob_enum_value v bytes layout)
          | None => Ret (Ok (CBytes bytes))
          end
      | _ => run_map Ok (bytes_value ns_pid v bytes)
      end
  end.

(** [StackIndirect]: the bytes behind the pointer, zeros when they cannot be read *)
Definition indirect_value (ns_pid : N) (v : ResolvedVariable) (byte_size val : N) : run CapturedValue :=
  let capture := blob_capture config byte_size in
  let zeros := replicate (N.to_nat capture) x00 in
  let bytes := if (val =? 0)%N then zeros
               else match mr_read_bytes mr ns_pid val capture with Ok b => b | Err _ => zeros end in
  bytes_value ns_pid v bytes.

Definition map_value (ns_pid : N) (v : ResolvedVariable) (val : N) : run CapturedValue :=
  let '(key_nested, val_nested) :=
    match rv_nested_type v with Some (NMap _ k w) => (Some k, Some w) | _ => (None, None) end in
  read_map mr ns_pid config (slot_struct (struct_at ns_pid)) loop_fuel val key_nested val_nested.

Definition word_value (ns_pid : N) (v : ResolvedVariable) (val : N) : run (result CapturedValue EbpfError) :=
  match rv_nested_type v with
  | Some _ => struct_at ns_pid val (rv_type_name v) (rv_nested_type v) 0
  | None =>
      let name := rv_type_name v in
      Ret (Ok (if String.eqb name "float64" || String.eqb name "f64" then CFloat val
               else if String.eqb name "float32" || String.eqb name "f32" then CFloat (f32_to_f64 (wrap 32 val))
               else CScalar val))
  end.

(** ** One variable *)

Definition ring_error (what : string) (v : ResolvedVariable) (e : EbpfError) : EbpfError :=
  ERingBuffer (what ++ " '" ++ rv_name v ++ "': " ++ ebpf_error_text e).

Definition blob_bytes (data : list byte) (offset ns_pid val capture : N) (v : ResolvedVariable) : result (list byte * N) EbpfError :=
  if (capture <=? lenN data - offset)%N
  then map_err (ring_error "Failed to read StackBlob" v) (read_bytes data offset capture)
  else if negb (val =? 0)%N
  then let? bytes := map_err (ring_error "Failed to read StackBlob" v) (mr_read_bytes mr ns_pid val capture) in Ok (bytes, offset)
  else Err (ERingBuffer ("Failed to read StackBlob '" ++ rv_name v ++ "': Unexpected end of event reading " ++ show_N capture
                         ++ " bytes at offset " ++ show_N offset)).

(** The value and the cursor after it. *)
Definition read_variable (data : list byte) (ns_pid : N) (v : ResolvedVariable) (offset : N)
    : run (result (CapturedValue * N) EbpfError) :=
  let with_offset offset (m : run (result CapturedValue EbpfError)) := run_try m (fun c => Ret (Ok (c, offset))) in
  run_try (Ret (map_err (ring_error "Failed to read variable" v) (read_u64 data offset))) (fun '(val, offset) =>
  match rv_location v with
  | VGoString _ _ | VStringHeader _ _ =>
      Ret (let? (len, offset) := map_err (ring_error "Failed to read string len for" v) (read_u64 data offset) in
           let? (inline, offset) := read_bytes data offset (cc_max_string_capture config) in
           Ok (string_value ns_pid val len inline, offset))
  | VGoSlice _ _ _ | VSliceHeader _ _ _ =>
      Ret (let? (second, offset) := map_err (ring_error "Failed to read slice len for" v) (read_u64 data offset) in
           let? (third, offset) := map_err (ring_error "Failed to read slice cap for" v) (read_u64 data offset) in
           Ok (CSlice second third, offset))
  | VStackBlob _ byte_size | VPiecewiseBlob _ byte_size =>
      run_try (Ret (blob_bytes data offset ns_pid val (blob_capture config byte_size) v)) (fun '(bytes, offset) =>
      with_offset offset (blob_value ns_pid v byte_size bytes))
  | VStackIndirect _ byte_size => with_offset offset (run_map Ok (indirect_value ns_pid v byte_size val))
  | VGoMap _ => with_offset offset (run_map Ok (map_value ns_pid v val))
  | VRegister _ | VStackOffset _ | VFrameOffset _ _ => with_offset offset (word_value ns_pid v val)
  end).

Fixpoint read_variables (data : list byte) (ns_pid : N) (variables : list ResolvedVariable) (offset : N)
    : run (result (list CapturedValue) EbpfError) :=
  match variables with
  | [] => Ret (Ok [])
  | v :: variables =>
      run_try (read_variable data ns_pid v offset) (fun '(value, offset) =>
      run_try (read_variables data ns_pid variables offset) (fun values => Ret (Ok (value :: values))))
  end.

(** ** Records *)

(** Process, thread, process in the daemon's namespace, time; the cursor is at 24. *)
Definition read_fixed_header (data : list byte) : result (N * N * N * N * N) EbpfError :=
  if (lenN data <? MIN_EVENT_SIZE)%N
  then Err (ERingBuffer ("Event too small: " ++ show_N (lenN data) ++ " bytes (min " ++ show_N MIN_EVENT_SIZE ++ ")"))
  else
    let? (pid, offset) := read_u32 data 0 in
    let? (tid, offset) := read_u32 data offset in
    let? (ns_pid, offset) := read_u32 data offset in
    let? (reserved, offset) := read_u32 data offset in
    let? (timestamp_ns, offset) := read_u64 data offset in
    Ok (pid, tid, ns_pid, timestamp_ns, offset).

(** What lies between the fixed header and the variables. *)
Definition read_optional_header (data : list byte) (count : N) (capture_goid : bool) (envelope : option RawEnvelopeExpectation)
    (offset : N) : result (option N * N) EbpfError :=
  let? offset := match envelope with Some expected => check_raw_envelope data offset count expected | None => Ok offset end in
  if capture_goid then (let? (g, offset) := read_u64 data offset in Ok (Some g, offset)) else Ok (None, offset).

Definition parse_ring_buffer_event_with_envelope (data : list byte) (variables : list ResolvedVariable) (capture_goid : bool)
    (envelope : option RawEnvelopeExpectation) : run (result ProbeEvent EbpfError) :=
  run_try (Ret (read_fixed_header data)) (fun '(pid, tid, ns_pid, timestamp_ns, offset) =>
  run_try (Ret (read_optional_header data (lenN variables) capture_goid envelope offset)) (fun '(goid, offset) =>
  run_try (read_variables data ns_pid variables offset) (fun values =>
  Ret (Ok (mkPE pid tid goid timestamp_ns values))))).

Definition parse_ring_buffer_event (data : list byte) (variables : list ResolvedVariable) (capture_goid : bool)
    : run (result ProbeEvent EbpfError) :=
  parse_ring_buffer_event_with_envelope data variables capture_goid None.
End Decode.
