(* ===== verification/ProbeCompiler.v ===== *)
(** * From resolved variables to capture plans and programs

    [crates/detrix-ebpf/src/compiler.rs]: the Go and Rust compilers lower the
    variables of a probe point to a capture plan, check it and hand it to the
    generator; [plan_field_to_go_variable] goes back from a plan field to a
    variable.  The [Debug] texts of locations and operations and the template file
    are parameters. *)

From Stdlib Require Import Strings.String Strings.Ascii Init.Byte.
From S2P Require Import Prelude RustStr RustText Dwarf CapturePlan TypeInfo MemReader Policy ProbeValue ProbeProgram.

Local Open Scope string_scope.

Inductive CompileError : Type :=
| InvalidPlan (e : PlanError)
| UnsupportedArchitecture (a : TargetArchitecture)
| Rejected (s : string)
| ProfileMismatch (expected actual : string)
| UnsupportedLocation (s : string)
| Backend (s : string).

Definition compile_error_text (e : CompileError) : string :=
  match e with
  | InvalidPlan e => "invalid capture plan: " ++ plan_error_text e
  | UnsupportedArchitecture a => "capture compiler does not support architecture " ++ debug_arch a
  | Rejected s => "capture program rejected: " ++ s
  | ProfileMismatch expected actual => "compiler profile mismatch: expected " ++ expected ++ ", got " ++ actual
  | UnsupportedLocation s => "unsupported capture location: " ++ s
  | Backend s => "backend compiler error: " ++ s
  end.

Record CompiledCapture : Type := mkCompiled { cpl_plan_hash : string; cpl_architecture : TargetArchitecture; cpl_artifact : list byte }.

(** ** Locations *)

Definition arm_location (l : VariableLocation) : bool :=
  match l with VRegister (Arm64 _) | VFrameOffset (Arm64 _) _ => true | _ => false end.
Definition infer_architecture (variables : list ResolvedVariable) : TargetArchitecture :=
  if existsb (fun v => arm_location (rv_location v)) variables then Aarch64 else X86_64.

Fixpoint frame_location (l : VariableLocation) : VariableLocation :=
  match l with
  | VStackOffset offset => VStackOffset offset
  | VGoString ptr len | VStringHeader ptr len => VStringHeader (frame_location ptr) (frame_location len)
  | VGoSlice ptr len cap | VSliceHeader ptr len cap => VSliceHeader (frame_location ptr) (frame_location len) (frame_location cap)
  | other => other
  end.

Definition header_kind (v : ResolvedVariable) : option HeaderKind :=
  let name := rv_type_name v in
  match rv_location v with
  | VGoString _ _ | VStringHeader _ _ =>
      Some (if String.eqb name "&str" || String.eqb name "&mut str" then HBorrowedStr
            else if String.eqb name "String" || starts_with "alloc::string::String" name || starts_with "std::string::String" name
            then HRustString else HString)
  | VGoSlice _ _ _ | VSliceHeader _ _ _ =>
      Some (if starts_with "Vec<" name || starts_with "alloc::vec::Vec<" name || starts_with "std::vec::Vec<" name then HRustVec
            else if starts_with "&[" name || starts_with "&mut [" name then HBorrowedSlice else HSlice)
  | _ => None
  end.

Definition shift_location (l : VariableLocation) (delta : Z) : VariableLocation :=
  match l with
  | VStackOffset offset => VStackOffset (i64_saturating_add offset delta)
  | VFrameOffset register offset => VFrameOffset register (i64_saturating_add offset delta)
  | other => other
  end.

Definition header_base_location (l : VariableLocation) (kind : HeaderKind) : VariableLocation :=
  shift_location l (match kind with HRustString => -8 | _ => 0 end)%Z.

Definition header_location (base : VariableLocation) (kind : HeaderKind) : VariableLocation :=
  match kind with
  | HString => VGoString base (shift_location base 8)
  | HRustString => VStringHeader (shift_location base 8) (shift_location base 16)
  | HBorrowedStr => VStringHeader base (shift_location base 8)
  | HSlice => VGoSlice base (shift_location base 8) (shift_location base 16)
  | HRustVec => VSliceHeader base (shift_location base 16) (shift_location base 16)
  | HBorrowedSlice => VSliceHeader base (shift_location base 8) (shift_location base 8)
  end.

Definition header_type_name (kind : HeaderKind) : string :=
  match kind with
  | HString => "String"
  | HRustString => "alloc::string::String"
  | HBorrowedStr => "&str"
  | HSlice => "[]byte"
  | HRustVec => "Vec<u8>"
  | HBorrowedSlice => "&[u8]"
  end.

(** ** Tags (FNV-1 over the bytes) *)

Definition profile_tag (profile : string) : N :=
  fold_left (fun hash b => N.lxor (wrap 32 (hash * 0x01000193)) (N_of_byte b)) (as_bytes profile) 0x811c9dc5%N.
Definition plan_tag (hash : string) : N :=
  fold_left (fun hash b => N.lxor (wrap 64 (hash * 0x00000100000001b3)) (N_of_byte b)) (as_bytes hash) 0xcbf29ce484222325%N.

(** ** Lowering *)

Section Compiler.
Context (debug_location : VariableLocation -> string) (debug_op : ReadOp -> string).

Definition location_to_read_op (l : VariableLocation) : result ReadOp CompileError :=
  match l with
  | VRegister register => Ok (RRegister register VValue)
  | VStackOffset offset => Ok (RStack offset 8 VValue)
  | VFrameOffset register offset => Ok (RFrame register offset 8 VValue)
  | other => Err (UnsupportedLocation ("header base has unsupported location " ++ debug_location other))
  end.

Definition read_op_to_location (op : ReadOp) : result VariableLocation CompileError :=
  match op with
  | RRegister register _ => Ok (VRegister register)
  | RStack offset _ _ => Ok (VStackOffset offset)
  | RFrame register offset _ _ => Ok (VFrameOffset register offset)
  | other => Err (UnsupportedLocation ("header base operation " ++ debug_op other ++ " is not a scalar address"))
  end.

(** [Option::map(f).transpose()] *)
Definition opt_try {A B E : Type} (f : A -> result B E) (o : option A) : result (option B) E :=
  match o with Some a => res_map Some (f a) | None => Ok None end.

Fixpoint lower_pieces (cursor : N) (pieces : list (VariablePieceOf VariableLocation)) : result (list CapturePiece) CompileError :=
  match pieces with
  | [] => Ok []
  | piece :: pieces =>
      let? op := opt_try location_to_read_op (vp_location _ piece) in
      let? rest := lower_pieces (u64_saturating_add cursor (vp_byte_size _ piece)) pieces in
      Ok (mkPiece cursor (vp_byte_size _ piece) op :: rest)
  end.

(** *** Go *)

Definition go_lower (v : ResolvedVariable) : result (N * ReadOp) CompileError :=
  let size := size_bytes (rv_size v) in
  match rv_location v with
  | VRegister register => Ok (size, RRegister register VValue)
  | VStackOffset stack => Ok (size, RStack stack size VValue)
  | VFrameOffset register frame => Ok (size, RFrame register frame size VValue)
  | VStackBlob stack byte_size => Ok (byte_size, RBlob stack byte_size VValue)
  | VStackIndirect stack byte_size => Ok (8, RIndirect (RStack stack 8 VAddress) byte_size)%N
  | VGoMap ptr => let? op := location_to_read_op ptr in Ok (8, RMap op)%N
  | VPiecewiseBlob pieces byte_size => let? lowered := lower_pieces 0 pieces in Ok (byte_size, RPiecewise lowered)
  | VGoString ptr _ | VStringHeader ptr _ => let? op := location_to_read_op ptr in Ok (16, RHeader op 16 HString)%N
  | VGoSlice ptr _ _ | VSliceHeader ptr _ _ => let? op := location_to_read_op ptr in Ok (24, RHeader op 24 HSlice)%N
  end.

(** *** Rust *)

Definition is_blob_location (l : VariableLocation) : bool := match l with VStackBlob _ _ | VPiecewiseBlob _ _ => true | _ => false end.
Definition is_header_location (l : VariableLocation) : bool :=
  match l with VGoString _ _ | VStringHeader _ _ | VGoSlice _ _ _ | VSliceHeader _ _ _ => true | _ => false end.
Definition header_ptr (l : VariableLocation) : option VariableLocation :=
  match l with VGoString ptr _ | VStringHeader ptr _ | VGoSlice ptr _ _ | VSliceHeader ptr _ _ => Some ptr | _ => None end.

Definition not_bounded (v : ResolvedVariable) : CompileError :=
  UnsupportedLocation ("Rust variable '" ++ rv_name v ++ "' is not a bounded scalar").

Definition rust_size (v : ResolvedVariable) : N :=
  match rv_location v with
  | VStackBlob _ byte_size | VPiecewiseBlob _ byte_size => byte_size
  | VGoString _ _ | VStringHeader _ _ => 16
  | VGoSlice _ _ _ | VSliceHeader _ _ _ => 24
  | _ => size_bytes (rv_size v)
  end.

Definition rust_header_op (ptr : VariableLocation) (size : N) (kind : HeaderKind) : result ReadOp CompileError :=
  let? base := location_to_read_op (header_base_location ptr kind) in
  match kind with
  | HRustString =>
      let? p := location_to_read_op (shift_location ptr 8) in
      let? l := location_to_read_op (shift_location ptr 16) in
      Ok (RHeaderExplicit p l None size kind)
  | _ => Ok (RHeader base size kind)
  end.

(** The last match of the source is [unreachable!] for the locations the guard
    has refused; here they get the guard's error. *)
Definition rust_lower (v : ResolvedVariable) : result (N * ReadOp) CompileError :=
  let l := rv_location v in
  let is_blob := is_blob_location l in
  let header := is_header_location l in
  if (bool_decide (is_Some (rv_nested_type v)) && negb is_blob && negb header) || (negb (is_scalar l) && negb is_blob && negb header)
  then Err (not_bounded v)
  else
    let size := rust_size v in
    match header_kind v, header_ptr l with
    | Some kind, Some ptr => let? op := rust_header_op ptr size kind in Ok (size, op)
    | _, _ =>
        let? op := match l with
                   | VRegister register => Ok (RRegister register VValue)
                   | VStackOffset offset => Ok (RStack offset size VValue)
                   | VFrameOffset register offset => Ok (RFrame register offset size VValue)
                   | VStackBlob offset byte_size => Ok (RBlob offset byte_size VValue)
                   | VPiecewiseBlob pieces _ => res_map RPiecewise (lower_pieces 0 pieces)
                   | _ => Err (not_bounded v)
                   end in
        Ok (size, op)
    end.

(** *** Plans *)

Section Plans.
Context (lower : ResolvedVariable -> result (N * ReadOp) CompileError).

(** The fields, laid out one after the other, and the offset after the last. *)
Fixpoint lower_variables (offset : N) (variables : list ResolvedVariable) : result (list CaptureField * N) CompileError :=
  match variables with
  | [] => Ok ([], offset)
  | v :: variables =>
      let? (size, op) := lower v in
      let? (fields, end_) := lower_variables (u64_saturating_add offset size) variables in
      Ok (mkField (rv_name v) offset size op :: fields, end_)
  end.

Definition plan_from (profile : string) (architecture : TargetArchitecture) (probe_point : ProbePoint) (hash : string)
    : result CapturePlan CompileError :=
  let? (fields, offset) := lower_variables 0 (pp_variables probe_point) in
  let plan := mkPlan CAPTURE_PLAN_SCHEMA_VERSION architecture profile hash (pp_pc probe_point) fields offset in
  let? _ := map_err InvalidPlan (plan_validate plan) in
  Ok plan.
End Plans.

Definition go_plan_from_probe (probe_point : ProbePoint) (hash : string) : result CapturePlan CompileError :=
  plan_from go_lower "go" (infer_architecture (pp_variables probe_point)) probe_point hash.
Definition rust_plan_from_probe (probe_point : ProbePoint) (hash : string) : result CapturePlan CompileError :=
  plan_from rust_lower "rust" (infer_architecture (pp_variables probe_point)) probe_point hash.

(** ** Compilers *)

Context (template : string).

Record GoBpfCompiler : Type := mkGo { gc_config : CaptureConfig; gc_capture_goid : bool; gc_g_addr_offset : option Z; gc_goid_offset : option N }.
Record RustBpfCompiler : Type := mkRust { rc_config : CaptureConfig }.
Definition default_rust_compiler : RustBpfCompiler := mkRust default_config.

Definition check_profile (expected : string) (plan : CapturePlan) : result unit CompileError :=
  let? _ := map_err InvalidPlan (plan_validate plan) in
  if String.eqb (plan_profile_id plan) expected then Ok tt else Err (ProfileMismatch expected (plan_profile_id plan)).
Definition compiled (plan : CapturePlan) (program : BpfProgram) : CompiledCapture :=
  mkCompiled (plan_hash plan) (plan_architecture plan) (as_bytes (program_source template program)).

Definition go_program (c : GoBpfCompiler) (plan : CapturePlan) (envelope : option RawEnvelopeSpec) : result BpfProgram CompileError :=
  let? _ := check_profile "go" plan in
  map_err (fun e => Backend (ebpf_error_text e))
    (generate_bpf_program_from_plan (gc_config c) debug_op plan (gc_capture_goid c) (gc_g_addr_offset c) (gc_goid_offset c) envelope).
Definition go_compile_with_envelope (c : GoBpfCompiler) (plan : CapturePlan) (envelope : option RawEnvelopeSpec)
    : result CompiledCapture CompileError :=
  let? program := go_program c plan envelope in Ok (compiled plan program).
Definition go_compile (c : GoBpfCompiler) (plan : CapturePlan) : result CompiledCapture CompileError := go_compile_with_envelope c plan None.
Definition go_compile_variables (c : GoBpfCompiler) (variables : list ResolvedVariable) : run (result BpfProgram EbpfError) :=
  generate_bpf_program (gc_config c) variables (gc_capture_goid c) (gc_g_addr_offset c) (gc_goid_offset c).

Definition rust_envelope (plan : CapturePlan) : RawEnvelopeSpec := mkSpec (profile_tag "rust") (plan_tag (plan_hash plan)).
Definition compile_scalar_variables (c : RustBpfCompiler) (plan : CapturePlan) : result BpfProgram CompileError :=
  map_err (fun e => Backend (ebpf_error_text e))
    (generate_bpf_program_from_plan (rc_config c) debug_op plan false None None (Some (rust_envelope plan))).
Definition compile_plan_to_program (c : RustBpfCompiler) (plan : CapturePlan) : result BpfProgram CompileError :=
  let? _ := check_profile "rust" plan in compile_scalar_variables c plan.
Definition rust_compile (c : RustBpfCompiler) (plan : CapturePlan) : result CompiledCapture CompileError :=
  let? _ := check_profile "rust" plan in
  let? program := compile_plan_to_program c plan in Ok (compiled plan program).

Definition with_location (v : ResolvedVariable) (l : VariableLocation) : ResolvedVariable :=
  mkRV (rv_name v) l (rv_size v) (rv_type_name v) (rv_nested_type v).
Definition compile_variables_with_envelope_for_arch (c : RustBpfCompiler) (variables : list ResolvedVariable)
    (envelope : option RawEnvelopeSpec) (architecture : TargetArchitecture) : run (result BpfProgram EbpfError) :=
  if existsb (fun v => bool_decide (is_Some (rv_nested_type v))) variables
  then Ret (Err (EEbpf "Rust eBPF compiler currently supports scalar variables only"))
  else generate_bpf_program_with_envelope (rc_config c) (map (fun v => with_location v (frame_location (rv_location v))) variables)
         false None None envelope.
Definition compile_variables_with_envelope (c : RustBpfCompiler) (variables : list ResolvedVariable) (envelope : option RawEnvelopeSpec)
    : run (result BpfProgram EbpfError) :=
  compile_variables_with_envelope_for_arch c variables envelope (infer_architecture variables).
Definition rust_compile_variables (c : RustBpfCompiler) (variables : list ResolvedVariable) : run (result BpfProgram EbpfError) :=
  compile_variables_with_envelope c variables None.

(** [PlanValidatorCompiler] *)
Definition arch_number (a : TargetArchitecture) : N := match a with X86_64 => 0 | Aarch64 => 1 end.
Definition validator_compile (plan : CapturePlan) : result CompiledCapture CompileError :=
  let? _ := map_err InvalidPlan (plan_validate plan) in
  Ok (mkCompiled (plan_hash plan) (plan_architecture plan)
        (as_bytes ("detrix-capture-plan-v" ++ show_N (plan_schema_version plan) ++ ":" ++ plan_profile_id plan ++ ":"
                   ++ show_N (arch_number (plan_architecture plan)) ++ ":" ++ plan_hash plan))).

(** ** Back from a plan field *)

Definition scalar_size (size : N) (what : string) : result VariableSize CompileError :=
  ok_or (from_byte_size size) (UnsupportedLocation (show_N size ++ "-byte " ++ what ++ " scalar")).

Fixpoint raise_pieces (pieces : list CapturePiece) : result (list (VariablePieceOf VariableLocation)) CompileError :=
  match pieces with
  | [] => Ok []
  | piece :: pieces =>
      let? l := opt_try read_op_to_location (cp_op piece) in
      let? rest := raise_pieces pieces in
      Ok (mkVP _ l (cp_size piece) :: rest)
  end.

Definition needs_profile : CompileError := UnsupportedLocation "address/deref semantics require a profile-specific lowering".

Definition plan_field_to_go_variable (f : CaptureField) : result ResolvedVariable CompileError :=
  let var l size ty := Ok (mkRV (cf_name f) l size ty None) in
  match cf_op f with
  | RHeader base _ kind =>
      let? base := read_op_to_location base in var (header_location base kind) SQWord (header_type_name kind)
  | RHeaderExplicit ptr len cap _ kind =>
      let? ptr := read_op_to_location ptr in
      let? len := read_op_to_location len in
      let? l := match kind with
                | HRustString | HBorrowedStr => Ok (VStringHeader ptr len)
                | HRustVec | HBorrowedSlice | HSlice =>
                    let? cap := ok_or cap (UnsupportedLocation "header cap missing") in
                    let? cap := read_op_to_location cap in Ok (VSliceHeader ptr len cap)
                | HString => Ok (VGoString ptr len)
                end in
      var l SQWord (header_type_name kind)
  | RRegister register VValue => let? size := scalar_size (cf_size f) "register" in var (VRegister register) size "scalar"
  | RStack offset size VValue => let? s := scalar_size size "stack" in var (VStackOffset offset) s "scalar"
  | RFrame register offset size VValue => let? s := scalar_size size "frame" in var (VFrameOffset register offset) s "scalar"
  | RBlob offset size VValue => var (VStackBlob offset size) SQWord "blob"
  | RPiecewise pieces => let? legacy := raise_pieces pieces in var (VPiecewiseBlob legacy (cf_size f)) SQWord "piecewise"
  | RIndirect base size =>
      let? base := read_op_to_location base in
      match base with
      | VStackOffset offset | VFrameOffset _ offset => var (VStackIndirect offset size) SQWord "indirect"
      | other => Err (UnsupportedLocation ("indirect base operation " ++ debug_location other ++ " is not stack-addressable"))
      end
  | RMap base => let? base := read_op_to_location base in var (VGoMap base) SQWord "map"
  | RRegister _ _ | RStack _ _ _ | RFrame _ _ _ _ | RBlob _ _ _ => Err needs_profile
  | other => Err (UnsupportedLocation ("IR operation " ++ debug_op other ++ " is not supported by the Go compatibility compiler"))
  end.
End Compiler.
