(* ===== verification/BpfMachine.v ===== *)
(** * What a generated probe program does

    The meaning of the C that [ProbeProgram] generates: the layout a C compiler
    gives the event struct, and the effect of the statements on the record reserved
    in the ring buffer, given the registers and the memory of the stopped thread.

    The machine follows [probe_template.c] (its fixed members and the statements
    around the placeholders) and the documented behaviour of the BPF helpers:
    [bpf_probe_read_user] copies a mapped range and otherwise clears its
    destination; reserved memory holds whatever was there; a program that names a
    member it does not declare is refused by the compiler and one that writes
    outside the reserved record by the verifier ([run_probe] is [None]).

    [plan_program_fills_event] says what the reserved record holds at the end. *)

From Stdlib Require Import Strings.String Strings.Ascii Init.Byte.
From S2P Require Import Prelude RustStr RustText Dwarf CapturePlan Decode TypeInfo MemReader Policy ProbeValue ProbeProgram.

Local Open Scope N_scope.

(** ** Struct layout *)

Definition align_to (a n : N) : N := (n + (a - 1)) / a * a.
Definition decl_size (d : cdecl) : N := ctype_width (d_type d) * default 1 (d_count d).
Definition decl_start (off : N) (d : cdecl) : N := align_to (ctype_width (d_type d)) off.

Fixpoint layout_end (off : N) (ds : list cdecl) : N :=
  match ds with [] => off | d :: ds => layout_end (decl_start off d + decl_size d) ds end.

(** Where a member is, and its type (of an array, the type of the elements). *)
Fixpoint offset_of (m : cmember) (off : N) (ds : list cdecl) : option (N * ctype) :=
  match ds with
  | [] => None
  | d :: ds =>
      if decide (d_member d = m) then Some (decl_start off d, d_type d)
      else offset_of m (decl_start off d + decl_size d) ds
  end.

(** The fixed members of [struct probe_event]. *)
Definition template_decls : list cdecl :=
  [mkDecl U32 " " MPid None None; mkDecl U32 " " MTid None None; mkDecl U32 " " MNsPid None None;
   mkDecl U32 "  " MReserved None None; mkDecl U64 " " MTimestamp None None].
Definition event_struct (p : BpfProgram) : list cdecl := (template_decls ++ bp_fields p)%list.

(** The timestamp makes the struct as aligned as a word. *)
Definition sizeof_event (p : BpfProgram) : N := align_to 8 (layout_end 0 (event_struct p)).

(** ** The stopped thread *)

Record machine : Type := mkMachine {
  mc_arch : TargetArchitecture;
  mc_regs : Register -> N;
  mc_image : image;
  mc_fsbase : N;               (* the thread's TLS base, 0 when it cannot be read *)
  mc_pid_tgid : N;
  mc_ktime : N;
  mc_ns_tgid : option N        (* the process in the daemon's namespace, when the kernel can tell *)
}.

Section Machine.
Context (mc : machine).

Definition stack_pointer : N := match mc_arch mc with X86_64 => mc_regs mc Rsp | Aarch64 => mc_regs mc (Arm64 31) end.
Definition base_value (b : abase) : N := match b with BStack => stack_pointer | BReg r => mc_regs mc r end.
Definition offset_address (b : abase) (offset : Z) : N := of_signed 64 (Z.of_N (base_value b) + offset).
Definition address_value (a : caddress) : N :=
  match a with
  | APlan b offset | ANested b offset | ASigned b offset => offset_address b offset
  | ABase b => base_value b
  end.

Definition probe_read (addr size : N) : list byte :=
  default (replicate (N.to_nat size) x00) (img_read (mc_image mc) addr size).
Definition probe_word (addr : N) : N := of_le (probe_read addr 8).

(** The block [GOID_EXTRACT]; the two distances come from the command line of the
    compiler ([loader.rs]) or are its defaults. *)
Definition goid_value (p : BpfProgram) : N :=
  let goid_of g := if g =? 0 then 0 else probe_word (addr_add g (default 160 (bp_goid_offset p))) in
  match mc_arch mc with
  | Aarch64 => goid_of (mc_regs mc (Arm64 28))
  | X86_64 =>
      if mc_fsbase mc =? 0 then 0
      else goid_of (probe_word (of_signed 64 (Z.of_N (mc_fsbase mc) + default (-8)%Z (bp_g_addr_offset p))))
  end.

(** ** Statements *)

Definition store (buf : list byte) (off : N) (bytes : list byte) : option (list byte) :=
  if off + lenN bytes <=? lenN buf then Some (write_at buf off bytes) else None.
Definition load (buf : list byte) (off len : N) : option (list byte) :=
  if off + len <=? lenN buf then Some (slice buf off len) else None.

Section Program.
Context (p : BpfProgram).
Notation ds := (event_struct p).

Definition lvalue_at (l : lvalue) : option (N * N) :=
  match l with
  | LMember m => '(off, t) ← offset_of m 0 ds; Some (off, ctype_width t)
  | LElement m n => '(off, t) ← offset_of m 0 ds; Some (off + n * ctype_width t, ctype_width t)
  end.

(** [d = value;], converted to the type of [d] *)
Definition assign (l : lvalue) (value : N) (buf : list byte) : option (list byte) :=
  '(off, width) ← lvalue_at l; store buf off (to_le (N.to_nat width) value).
Definition read_to (l : lvalue) (bytes : list byte) (buf : list byte) : option (list byte) :=
  '(off, _) ← lvalue_at l; store buf off bytes.
Definition member_word (m : cmember) (buf : list byte) : option N :=
  '(off, _) ← lvalue_at (LMember m); of_le <$> load buf off 8.

Definition read_text (i max : N) (buf : list byte) : option (list byte) :=
  len ← member_word (MLen i) buf;
  ptr ← member_word (MVar i) buf;
  let n := N.land (wrap 32 len) 255 in
  if negb (ptr =? 0) && (0 <? n) && (n <=? max) then read_to (LMember (MStr i)) (probe_read ptr n) buf
  else Some buf.

Definition exec_stmt (s : stmt) (buf : list byte) : option (list byte) :=
  match s with
  | SComment _ => Some buf
  | SSetReg d r => assign d (mc_regs mc r) buf
  | SSetByte m n r shift => assign (LElement m n) (N.shiftr (mc_regs mc r) shift) buf
  | SSetAddr d a => assign d (address_value a) buf
  | SSetZero d _ => assign d 0 buf
  | SSetHex d n | SSetDec d n => assign d n buf
  | SSetPayloadLen n => assign (LMember MPayloadLen) (wrap 64 (sizeof_event p + 2 ^ 64 - n)) buf
  | SReadInto d size a => read_to d (probe_read (address_value a) size) buf
  | SReadArray m size a => read_to (LMember m) (probe_read (address_value a) size) buf
  | SMemset m n => read_to (LMember m) (replicate (N.to_nat n) x00) buf
  | SReadText i max _ => read_text i max buf
  | SGoid => assign (LMember MGoid) (goid_value p) buf
  end.

Fixpoint exec_stmts (ss : list stmt) (buf : list byte) : option (list byte) :=
  match ss with [] => Some buf | s :: ss => buf ← exec_stmt s buf; exec_stmts ss buf end.

(** The statements of the template before the variable reads. *)
Definition host_pid : N := N.shiftr (mc_pid_tgid mc) 32.
Definition ns_pid : N := default host_pid (mc_ns_tgid mc).
Definition prologue : list (cmember * N) :=
  [(MPid, host_pid); (MTid, wrap 32 (mc_pid_tgid mc)); (MTimestamp, mc_ktime mc); (MNsPid, ns_pid)].
Fixpoint exec_prologue (l : list (cmember * N)) (buf : list byte) : option (list byte) :=
  match l with [] => Some buf | (m, v) :: l => buf ← assign (LMember m) v buf; exec_prologue l buf end.

(** One hit of the probe on the record [ring] the ring buffer reserved. *)
Definition run_probe (ring : list byte) : option (list byte) :=
  buf ← exec_prologue prologue ring; exec_stmts (bp_reads p) buf.
End Program.
End Machine.

(** ** What the fields of a plan capture *)

Section Chunks.
Context (mc : machine) (config : CaptureConfig).

(** The bytes [generate_plan_read_into] stores through a destination of
    [width] bytes. *)
Fixpoint op_bytes (op : ReadOp) (width size : N) : option (list byte) :=
  match op with
  | RRegister r _ => Some (to_le (N.to_nat width) (mc_regs mc r))
  | RStack offset _ _ => Some (probe_read mc (offset_address mc BStack offset) size)
  | RFrame r offset _ _ => Some (probe_read mc (offset_address mc (BReg r) offset) size)
  | RIndirect base _ | RMap base => op_bytes base width size
  | _ => None
  end.
Definition op_word (op : ReadOp) : option (list byte) := op_bytes op 8 8.

(** The first bytes a string header points to, in a cleared buffer. *)
Definition text_bytes (ptr len : list byte) : list byte :=
  let max := string_capture config in
  let n := N.land (wrap 32 (of_le len)) 255 in
  let blank := replicate (N.to_nat max) x00 in
  if negb (of_le ptr =? 0) && (0 <? n) && (n <=? max) then write_at blank 0 (probe_read mc (of_le ptr) n) else blank.

Definition header_chunk (text : bool) (ptr len : ReadOp) (cap : option ReadOp) : option (list byte) :=
  a ← op_word ptr; b ← op_word len;
  match cap with
  | Some cap => if text then None else c ← op_word cap; Some (a ++ b ++ c)%list
  | None => if text then Some (a ++ b ++ text_bytes a b)%list else None
  end.

Fixpoint place_pieces (capture : N) (pieces : list CapturePiece) (blob : list byte) : option (list byte) :=
  match pieces with
  | [] => Some blob
  | piece :: pieces =>
      if capture <=? cp_offset piece then place_pieces capture pieces blob
      else match cp_op piece with
      | None => place_pieces capture pieces blob
      | Some op =>
          bytes ← op_bytes op 1 (N.min (cp_size piece) (capture - cp_offset piece));
          place_pieces capture pieces (write_at blob (cp_offset piece) bytes)
      end
  end.

(** The part of the record that belongs to a field, given the word [old] the
    record held where the field's own word is.  [None]: the operation is outside
    what is described here. *)
Definition field_chunk (old : list byte) (f : CaptureField) : option (list byte) :=
  let narrow k := if cf_size f <=? 8 then k else None in
  let scalar size bytes := if size <=? 8 then Some (bytes ++ replicate (N.to_nat (8 - size)) x00)%list else None in
  match cf_op f with
  | RRegister r _ => narrow (Some (to_le 8 (mc_regs mc r)))
  | RStack offset size _ => narrow (scalar size (probe_read mc (offset_address mc BStack offset) size))
  | RFrame r offset size _ => narrow (scalar size (probe_read mc (offset_address mc (BReg r) offset) size))
  | RBlob offset size _ =>
      let a := offset_address mc BStack offset in
      Some (to_le 8 a ++ probe_read mc a (blob_capture config size))%list
  | RIndirect base _ | RMap base => narrow (op_word base)
  | RHeader base _ kind =>
      let '(ptr_delta, len_delta, cap_delta) := header_deltas kind in
      header_chunk (text_kind kind) (shift_plan_op base ptr_delta) (shift_plan_op base len_delta) (shift_plan_op base <$> cap_delta)
  | RHeaderExplicit ptr len cap _ kind => header_chunk (text_kind kind) ptr len cap
  | RPiecewise pieces =>
      let capture := blob_capture config (cf_size f) in
      blob ← place_pieces capture pieces (replicate (N.to_nat capture) x00); Some (old ++ blob)%list
  | RUnavailable _ => narrow (Some (to_le 8 0))
  | RConstant bytes => narrow (Some (to_le 8 (constant_word bytes)))
  | _ => None
  end.

Definition chunk_size (f : CaptureField) : N := 8 + plan_extra_size config f.

Fixpoint chunks_of (fields : list CaptureField) (ring : list byte) : option (list byte) :=
  match fields with
  | [] => Some []
  | f :: fields =>
      c ← field_chunk (take 8 ring) f;
      cs ← chunks_of fields (drop (N.to_nat (chunk_size f)) ring);
      Some (c ++ cs)%list
  end.
End Chunks.
