(* ===== verification/ProbeRecord.v ===== *)
(** * The record a probe submits

    [plan_program_fills_event]: when the parts of all fields are whole words, the
    program generated from a plan leaves in the reserved record the header, the raw
    envelope, the goroutine id and, one after the other, what each field of the
    plan captures ([BpfMachine.field_chunk]); its size is the size reserved. *)

From Stdlib Require Import Strings.String Strings.Ascii Init.Byte.
From S2P Require Import Prelude RustStr RustText Dwarf CapturePlan Decode TypeInfo MemReader Policy ProbeValue ProbeProgram BpfMachine.

Local Open Scope N_scope.

(** ** Buffers *)

Lemma write_at_app (pre c post : list byte) off bytes :
  off + lenN bytes <= lenN c -> write_at (pre ++ c ++ post) (lenN pre + off) bytes = (pre ++ write_at c off bytes ++ post)%list.
Proof.
  intros H. unfold write_at, lenN in *.
  replace (N.to_nat (N.of_nat (length pre) + off)) with (length pre + N.to_nat off)%nat by lia.
  rewrite firstn_app_2, take_app_le by lia. rewrite <- Nat.add_assoc.
  replace (length pre + (N.to_nat off + length bytes))%nat with (length pre + (N.to_nat off + length bytes))%nat by lia.
  rewrite skipn_app, (skipn_all2 pre) by lia. cbn [app].
  replace (length pre + (N.to_nat off + length bytes) - length pre)%nat with (N.to_nat off + length bytes)%nat by lia.
  rewrite drop_app_le by lia. by rewrite <- !app_assoc.
Qed.

Lemma store_mid (pre c post : list byte) off bytes :
  off + lenN bytes <= lenN c -> store (pre ++ c ++ post) (lenN pre + off) bytes = Some (pre ++ write_at c off bytes ++ post)%list.
Proof.
  intros H. unfold store. rewrite (proj2 (N.leb_le _ _)) by len_lia. by rewrite write_at_app.
Qed.

Lemma load_mid (pre c post : list byte) off len :
  off + len <= lenN c -> load (pre ++ c ++ post) (lenN pre + off) len = Some (slice c off len).
Proof.
  intros H. unfold load. rewrite (proj2 (N.leb_le _ _)) by len_lia. f_equal. unfold slice, lenN in *.
  replace (N.to_nat (N.of_nat (length pre) + off)) with (length pre + N.to_nat off)%nat by lia.
  rewrite skipn_app, (skipn_all2 pre) by lia. cbn [app].
  replace (length pre + N.to_nat off - length pre)%nat with (N.to_nat off) by lia.
  rewrite drop_app_le by lia. rewrite take_app_le; [done|]. rewrite length_drop. lia.
Qed.

Lemma write_at_exact (a b c bytes : list byte) :
  lenN bytes = lenN b -> write_at (a ++ b ++ c) (lenN a) bytes = (a ++ bytes ++ c)%list.
Proof.
  intros H. rewrite <- (N.add_0_r (lenN a)), write_at_app by lia. f_equal. f_equal.
  unfold write_at, lenN in *. cbn. rewrite skipn_all2 by lia. by rewrite app_nil_r.
Qed.

Lemma write_at_head (b c bytes : list byte) : lenN bytes = lenN b -> write_at (b ++ c) 0 bytes = (bytes ++ c)%list.
Proof. intros H. apply (write_at_exact [] b c bytes H). Qed.

Lemma write_at_all (b bytes : list byte) : lenN bytes = lenN b -> write_at b 0 bytes = bytes.
Proof. intros H. pose proof (write_at_head b [] bytes H) as E. by rewrite !app_nil_r in E. Qed.

Lemma write_at_tail (a b bytes : list byte) off :
  off = lenN a -> lenN bytes <= lenN b -> write_at (a ++ b) off bytes = (a ++ write_at b 0 bytes)%list.
Proof.
  intros -> H. pose proof (write_at_app a b [] 0 bytes) as E. rewrite !app_nil_r, N.add_0_r in E. apply E. lia.
Qed.

Lemma slice_app_head (a b : list byte) len : len = lenN a -> slice (a ++ b) 0 len = a.
Proof. intros H. by apply (slice_app_mid [] a b 0 len). Qed.

(** A later write over the same bytes wins. *)
Lemma write_at_twice (c x y : list byte) off :
  lenN x <= lenN y -> off + lenN y <= lenN c -> write_at (write_at c off x) off y = write_at c off y.
Proof.
  intros H1 H2. unfold write_at, lenN in *.
  rewrite take_app_le by (rewrite length_take; lia). rewrite take_take, Nat.min_id. f_equal. f_equal.
  rewrite skipn_app, length_take. rewrite (skipn_all2 (take _ c)) by (rewrite length_take; lia). cbn [app].
  replace (N.to_nat off + length y - N.to_nat off `min` length c)%nat with (length y) by lia.
  rewrite skipn_app, (skipn_all2 x) by lia. cbn [app]. rewrite skipn_skipn. f_equal. lia.
Qed.

Lemma lenN_replicate {A : Type} (n : N) (a : A) : lenN (replicate (N.to_nat n) a) = n.
Proof. unfold lenN. rewrite length_replicate. lia. Qed.
#[export] Hint Rewrite @lenN_replicate : lens.

Lemma lenN_to_le_N (w v : N) : lenN (to_le (N.to_nat w) v) = w.
Proof. rewrite lenN_to_le. lia. Qed.
#[export] Hint Rewrite lenN_to_le_N : lens.

Lemma to_le_zero n : to_le n 0 = replicate n x00.
Proof. induction n as [|n IH]; [done|]. cbn [to_le replicate]. rewrite N.div_0_l by done. by rewrite IH. Qed.

Lemma lenN_probe_read mc addr size : lenN (probe_read mc addr size) = size.
Proof.
  unfold probe_read. destruct (img_read (mc_image mc) addr size) as [bytes|] eqn:E; cbn.
  - by apply img_read_len in E.
  - apply lenN_replicate.
Qed.
#[export] Hint Rewrite lenN_probe_read : lens.

(** ** Layouts *)

Lemma align_to_fixed a n : a <> 0 -> n mod a = 0 -> align_to a n = n.
Proof.
  intros Ha Hn. unfold align_to. apply N.Div0.mod_divides in Hn as [k ->].
  replace (a * k + (a - 1)) with (a - 1 + k * a) by lia. rewrite N.div_add, N.div_small by lia. lia.
Qed.

Lemma align_to_1 n : align_to 1 n = n.
Proof. apply align_to_fixed; [done|]. apply N.mod_1_r. Qed.

Lemma layout_end_app off ds1 ds2 : layout_end off (ds1 ++ ds2) = layout_end (layout_end off ds1) ds2.
Proof. revert off. induction ds1 as [|d ds1 IH]; intros off; cbn; [done|]. apply IH. Qed.

Lemma offset_of_skip m off ds1 ds2 :
  Forall (fun d => d_member d <> m) ds1 -> offset_of m off (ds1 ++ ds2) = offset_of m (layout_end off ds1) ds2.
Proof.
  revert off. induction ds1 as [|d ds1 IH]; intros off H; cbn; [done|].
  inversion_clear H. rewrite decide_False by done. by apply IH.
Qed.

(** Members that belong to the variables before number [i], or to no variable. *)
Definition older (i : N) (m : cmember) : Prop :=
  match m with MVar j | MLen j | MCap j | MStr j | MBlob j => j < i | _ => True end.

Definition var_member (i : N) (m : cmember) : Prop :=
  m = MVar i \/ m = MLen i \/ m = MCap i \/ m = MStr i \/ m = MBlob i.

Lemma older_not_var i m m' : older i m -> var_member i m' -> m <> m'.
Proof. intros Ho Hv ->. unfold var_member in Hv. repeat destruct Hv as [-> | Hv]; try subst m'; cbn in Ho; lia. Qed.

Lemma mod8_add n : n mod 8 = 0 -> (n + 8) mod 8 = 0.
Proof. intros H. rewrite N.Div0.add_mod, H. done. Qed.

Ltac aligned :=
  unfold decl_start, decl_size; cbn [d_type d_count d_member ctype_width from_option id var_decl word_decl bytes_decl];
  rewrite ?align_to_1, ?N.mul_1_r, ?N.mul_1_l;
  repeat match goal with
  | |- context [align_to 8 ?n] => rewrite (align_to_fixed 8 n) by (first [done | repeat apply mod8_add; done])
  end.

(** ** One field *)

Section Field.
Context (mc : machine) (config : CaptureConfig) (debug_op : ReadOp -> string).
Context (p : BpfProgram) (before after : list cdecl) (i off : N) (f : CaptureField).
Context (Hds : event_struct p = (before ++ plan_field_decls config i f ++ after)%list).
Context (Hold : Forall (fun d => older i (d_member d)) before).
Context (Hoff : layout_end 0 before = off) (H8 : off mod 8 = 0).

Lemma field_offset m : var_member i m -> offset_of m 0 (event_struct p) = offset_of m off (plan_field_decls config i f ++ after).
Proof.
  intros Hm. rewrite Hds, offset_of_skip, Hoff; [done|].
  eapply List.Forall_impl; [|exact Hold]. cbn. intros d Hd. by eapply older_not_var.
Qed.

Lemma at_var : lvalue_at p (LMember (MVar i)) = Some (off, 8).
Proof.
  unfold lvalue_at. rewrite field_offset by (unfold var_member; auto). unfold plan_field_decls. cbn [app offset_of var_decl d_member].
  rewrite decide_True by done. cbn. aligned. done.
Qed.

Lemma at_len : (exists rest, plan_field_decls config i f = var_decl i (cf_name f ++ ": plan-op")%string :: word_decl (MLen i) :: rest) ->
  lvalue_at p (LMember (MLen i)) = Some (off + 8, 8).
Proof.
  intros [rest Hr]. unfold lvalue_at. rewrite field_offset by (unfold var_member; auto). rewrite Hr.
  cbn [app offset_of var_decl word_decl d_member].
  rewrite decide_False by done. rewrite decide_True by done. cbn [mbind option_bind]. aligned. cbn. repeat f_equal; lia.
Qed.

Lemma at_third m t n : m <> MVar i -> m <> MLen i -> var_member i m ->
  plan_field_decls config i f = [var_decl i (cf_name f ++ ": plan-op")%string; word_decl (MLen i); mkDecl t " " m n None] ->
  (t = U8 \/ t = U64) -> lvalue_at p (LMember m) = Some (off + 16, ctype_width t).
Proof.
  intros Hv Hl Hm Hr Ht. unfold lvalue_at. rewrite field_offset by done. rewrite Hr.
  cbn [app offset_of var_decl word_decl d_member].
  rewrite !decide_False by done. rewrite decide_True by done. cbn [mbind option_bind].
  destruct Ht as [-> | ->]; aligned; cbn; do 2 f_equal; lia.
Qed.

Lemma at_blob n : plan_field_decls config i f = [var_decl i (cf_name f ++ ": plan-op")%string; bytes_decl " " (MBlob i) n] ->
  offset_of (MBlob i) 0 (event_struct p) = Some (off + 8, U8).
Proof.
  intros Hr. rewrite field_offset by (unfold var_member; tauto). rewrite Hr.
  cbn [app offset_of var_decl bytes_decl d_member].
  rewrite decide_False by done. rewrite decide_True by done. aligned. repeat f_equal; lia.
Qed.

(** *** Statements that write inside the field's part of the record *)

Context (pre post : list byte) (Hpre : lenN pre = off).

Lemma assign_in l at_ width value (c : list byte) :
  lvalue_at p l = Some (off + at_, width) -> at_ + width <= lenN c ->
  assign p l value (pre ++ c ++ post) = Some (pre ++ write_at c at_ (to_le (N.to_nat width) value) ++ post)%list.
Proof using Hpre. intros Hl Hw. unfold assign. rewrite Hl. cbn. rewrite <- Hpre. apply store_mid. by rewrite lenN_to_le_N. Qed.

Lemma read_to_in l at_ width bytes (c : list byte) :
  lvalue_at p l = Some (off + at_, width) -> at_ + lenN bytes <= lenN c ->
  read_to p l bytes (pre ++ c ++ post) = Some (pre ++ write_at c at_ bytes ++ post)%list.
Proof using Hpre. intros Hl Hw. unfold read_to. rewrite Hl. cbn. rewrite <- Hpre. by apply store_mid. Qed.

Lemma member_word_in m at_ width (c : list byte) :
  lvalue_at p (LMember m) = Some (off + at_, width) -> at_ + 8 <= lenN c ->
  member_word p m (pre ++ c ++ post) = Some (of_le (slice c at_ 8)).
Proof using Hpre. intros Hl Hw. unfold member_word. rewrite Hl. cbn. rewrite <- Hpre, load_mid by exact Hw. done. Qed.

Lemma op_bytes_len op width size bytes : op_bytes mc op width size = Some bytes -> lenN bytes = width \/ lenN bytes = size.
Proof.
  induction op; cbn; try done; intros E; try (injection E as <-); lens; auto.
Qed.

Lemma op_word_len op bytes : op_word mc op = Some bytes -> lenN bytes = 8.
Proof. intros H. by apply op_bytes_len in H as []. Qed.

(** A nested read stores its bytes, whatever was there. *)
Lemma read_into_exec op l at_ width size ss bytes (c : list byte) :
  generate_plan_read_into debug_op op l size = Ok ss -> op_bytes mc op width size = Some bytes ->
  lvalue_at p l = Some (off + at_, width) -> width <= size -> at_ + size <= lenN c ->
  exec_stmts mc p ss (pre ++ c ++ post) = Some (pre ++ write_at c at_ bytes ++ post)%list.
Proof.
  intros Hg Hb Hl Hw Hc.
  assert (Hmem : forall b o, op_bytes mc op width size = Some (probe_read mc (offset_address mc b o) size) ->
            exec_stmts mc p (plan_memory_read l b o size) (pre ++ c ++ post)
            = Some (pre ++ write_at c at_ (probe_read mc (offset_address mc b o) size) ++ post)%list).
  { intros b o _. cbn [plan_memory_read exec_stmts exec_stmt address_value].
    rewrite (assign_in _ at_ width) by (done || lia). cbn [mbind option_bind].
    rewrite (read_to_in _ at_ width); [|done|rewrite lenN_write_at; len_lia]. cbn [mbind option_bind].
    rewrite write_at_twice by len_lia. done. }
  induction op; cbn in Hg, Hb; destruct (size =? 0) eqn:Ez; try discriminate; injection Hb as <- || idtac; try (injection Hg as <-); auto.
  cbn. rewrite (assign_in _ at_ width) by (done || lia). done.
Qed.

Lemma exec_stmts_app ss1 ss2 buf :
  exec_stmts mc p (ss1 ++ ss2) buf = (buf ← exec_stmts mc p ss1 buf; exec_stmts mc p ss2 buf).
Proof.
  revert buf. induction ss1 as [|s ss1 IH]; intros buf; cbn; [done|].
  destruct (exec_stmt mc p s buf); cbn; [apply IH|done].
Qed.

(** A scalar shorter than a word is read into a cleared word. *)
Lemma memory_read_exec b o size (c : list byte) :
  size <= 8 -> lenN c = 8 ->
  exec_stmts mc p (plan_memory_read (LMember (MVar i)) b o size) (pre ++ c ++ post)
  = Some (pre ++ (probe_read mc (offset_address mc b o) size ++ replicate (N.to_nat (8 - size)) x00) ++ post)%list.
Proof.
  intros Hs Hc. cbn [plan_memory_read exec_stmts exec_stmt address_value].
  rewrite (assign_in _ 0 8); [|by rewrite N.add_0_r, at_var|lia]. cbn [mbind option_bind].
  rewrite write_at_all by len_lia.
  rewrite (read_to_in _ 0 8); [|by rewrite N.add_0_r, at_var|len_lia]. cbn [mbind option_bind].
  rewrite to_le_zero. replace (N.to_nat 8) with (N.to_nat size + N.to_nat (8 - size))%nat by lia.
  rewrite replicate_add, write_at_head by len_lia. done.
Qed.

(** The text a header points to. *)
Lemma read_text_exec (a b t : list byte) :
  lvalue_at p (LMember (MLen i)) = Some (off + 8, 8) -> lvalue_at p (LMember (MStr i)) = Some (off + 16, 1) ->
  lenN a = 8 -> lenN b = 8 -> lenN t = string_capture config ->
  exec_stmts mc p (text_reads i (string_capture config) EmptyString) (pre ++ (a ++ b ++ t) ++ post)
  = Some (pre ++ (a ++ b ++ text_bytes mc config a b) ++ post)%list.
Proof.
  intros Hl Hs Ha Hb Ht. cbn [text_reads exec_stmts exec_stmt].
  assert (E16 : lenN (a ++ b) = 16) by len_lia.
  assert (Hput : forall x, lenN x = string_capture config -> write_at (a ++ b ++ t) 16 x = (a ++ b ++ x)%list).
  { intros x Hx. rewrite app_assoc, write_at_tail, write_at_all by len_lia. by rewrite <- app_assoc. }
  rewrite (read_to_in _ 16 1) by (done || len_lia). cbn [mbind option_bind]. rewrite Hput by len_lia.
  set (z := replicate (N.to_nat (string_capture config)) x00).
  assert (Hz : lenN z = string_capture config) by (unfold z; len_lia).
  unfold read_text. rewrite (member_word_in (MLen i) 8 8) by (done || len_lia).
  rewrite (member_word_in _ 0 8); [|by rewrite N.add_0_r, at_var|len_lia]. cbn [mbind option_bind].
  rewrite (slice_app_mid a b z 8 8) by done.
  rewrite (slice_app_head a (b ++ z) 8) by done.
  unfold text_bytes. fold z. set (n := N.land _ _).
  destruct (negb (of_le a =? 0) && (0 <? n) && (n <=? string_capture config)) eqn:E; cbn [mbind option_bind]; [|done].
  apply andb_prop in E as [_ E%N.leb_le].
  rewrite (read_to_in _ 16 1) by (done || len_lia). cbn [mbind option_bind].
  do 2 f_equal. rewrite (app_assoc a b z), write_at_tail by len_lia. by rewrite <- !app_assoc.
Qed.

(** The three parts of a header. *)
Lemma split_words (c : list byte) n : lenN c = 16 + n ->
  exists a b t, c = (a ++ b ++ t)%list /\ lenN a = 8 /\ lenN b = 8 /\ lenN t = n.
Proof.
  intros H. exists (take 8 c), (take 8 (drop 8 c)), (drop 16 c). unfold lenN in *.
  rewrite !length_take, !length_drop. repeat split; try lia.
  rewrite <- (take_drop 8 c) at 1. f_equal. rewrite <- (take_drop 8 (drop 8 c)) at 1. f_equal. by rewrite drop_drop.
Qed.

Definition header_extra (text : bool) : list cdecl :=
  if text then [word_decl (MLen i); bytes_decl " " (MStr i) (string_capture config)] else [word_decl (MLen i); word_decl (MCap i)].

Lemma header_exec text ptr len cap ss new (c : list byte) :
  plan_field_decls config i f = var_decl i (cf_name f ++ ": plan-op")%string :: header_extra text ->
  header_reads config debug_op i ptr len cap = Ok ss -> header_chunk mc config text ptr len cap = Some new ->
  lenN c = 16 + (if text then string_capture config else 8) ->
  exec_stmts mc p ss (pre ++ c ++ post) = Some (pre ++ new ++ post)%list.
Proof.
  intros Hd Hss Hnew Hc. apply split_words in Hc as (a0 & b0 & t0 & -> & Ha0 & Hb0 & Ht0).
  assert (Hlen : lvalue_at p (LMember (MLen i)) = Some (off + 8, 8)).
  { apply at_len. rewrite Hd. destruct text; cbn; eauto. }
  unfold header_reads in Hss. unfold header_chunk in Hnew.
  destruct (generate_plan_read_into debug_op ptr _ 8) as [s1|] eqn:E1; [|done]. cbn [res_bind] in Hss.
  destruct (generate_plan_read_into debug_op len _ 8) as [s2|] eqn:E2; [|done]. cbn [res_bind] in Hss.
  destruct (op_word mc ptr) as [a|] eqn:Ea; [|done]. destruct (op_word mc len) as [b|] eqn:Eb; [|done].
  cbn [mbind option_bind] in Hnew. pose proof (op_word_len _ _ Ea) as La. pose proof (op_word_len _ _ Eb) as Lb.
  assert (H12 : forall rest, exec_stmts mc p (s1 ++ s2 ++ rest) (pre ++ (a0 ++ b0 ++ t0) ++ post)
            = exec_stmts mc p rest (pre ++ (a ++ b ++ t0) ++ post)).
  { intros rest. rewrite exec_stmts_app.
    rewrite (read_into_exec ptr (LMember (MVar i)) 0 8 8 s1 a); [|done|done|by rewrite N.add_0_r, at_var|lia|len_lia]. cbn [mbind option_bind].
    rewrite write_at_head, exec_stmts_app by lia.
    rewrite (read_into_exec len (LMember (MLen i)) 8 8 8 s2 b); [|done|done|done|lia|len_lia]. cbn [mbind option_bind].
    rewrite <- La at 1. rewrite write_at_exact by lia. done. }
  destruct cap as [cap|], text; try done.
  - destruct (generate_plan_read_into debug_op cap _ 8) as [s3|] eqn:E3; [|done]. injection Hss as <-.
    destruct (op_word mc cap) as [k|] eqn:Ek; [|done]. injection Hnew as <-. pose proof (op_word_len _ _ Ek) as Lk.
    rewrite H12, (read_into_exec cap (LMember (MCap i)) 16 8 8 s3 k); [|done|done| |lia|len_lia].
    + do 2 f_equal. rewrite app_assoc, write_at_tail, write_at_all by len_lia. by rewrite <- !app_assoc.
    + apply (at_third (MCap i) U64 None); unfold var_member; auto.
  - injection Hss as <-. injection Hnew as <-. rewrite H12. apply read_text_exec; try done.
    apply (at_third (MStr i) U8 (Some (string_capture config))); unfold var_member; auto.
Qed.

(** The pieces of a blob. *)
Lemma pieces_exec capture pieces ss (w blob blob' : list byte) :
  plan_field_decls config i f = [var_decl i (cf_name f ++ ": plan-op")%string; bytes_decl " " (MBlob i) capture] ->
  piece_reads debug_op i capture pieces = Ok ss -> place_pieces mc capture pieces blob = Some blob' ->
  lenN w = 8 -> lenN blob = capture ->
  exec_stmts mc p ss (pre ++ (w ++ blob) ++ post) = Some (pre ++ (w ++ blob') ++ post)%list /\ lenN blob' = capture.
Proof.
  intros Hd. pose proof (at_blob capture Hd) as Hat.
  revert ss blob. induction pieces as [|piece pieces IH]; intros ss blob Hss Hb Hw Hc; cbn in Hss, Hb.
  { injection Hss as <-. by injection Hb as <-. }
  destruct (N.leb_spec capture (cp_offset piece)); [by apply IH|].
  set (size := N.min _ _) in *.
  destruct (cp_op piece) as [op|].
  - destruct (generate_plan_read_into debug_op op _ size) as [s1|] eqn:E1; [|done]. cbn [res_bind] in Hss.
    destruct (piece_reads debug_op i capture pieces) as [s2|] eqn:E2; [|done]. injection Hss as <-.
    destruct (op_bytes mc op 1 size) as [bytes|] eqn:Eb; [|done]. cbn [mbind option_bind] in Hb.
    assert (Hsz : size <> 0).
    { intros Ez. rewrite Ez in E1. destruct op; discriminate E1. }
    assert (Hbytes : lenN bytes <= size) by (destruct (op_bytes_len _ _ _ _ Eb); lia).
    rewrite exec_stmts_app, (read_into_exec op (LElement (MBlob i) (cp_offset piece)) (8 + cp_offset piece) 1 size s1 bytes); [|done|done| |lia|len_lia].
    + cbn [mbind option_bind].
      assert (Eput : write_at (w ++ blob) (8 + cp_offset piece) bytes = (w ++ write_at blob (cp_offset piece) bytes)%list).
      { pose proof (write_at_app w blob [] (cp_offset piece) bytes) as E. rewrite !app_nil_r, Hw in E. apply E. lia. }
      rewrite Eput. apply IH; try done. rewrite lenN_write_at; lia.
    + unfold lvalue_at. rewrite Hat. cbn. do 2 f_equal. lia.
  - destruct (piece_reads debug_op i capture pieces) as [s2|] eqn:E2; [|done]. injection Hss as <-. by apply IH.
Qed.

Definition blob_decls (n : N) : list cdecl := [var_decl i (cf_name f ++ ": plan-op")%string; bytes_decl " " (MBlob i) n].

Lemma set_word_exec s v (c : list byte) :
  (forall buf, exec_stmt mc p s buf = assign p (LMember (MVar i)) v buf) -> lenN c = 8 ->
  exec_stmts mc p [s] (pre ++ c ++ post) = Some (pre ++ to_le 8 v ++ post)%list.
Proof.
  intros Hs Hc. cbn [exec_stmts]. rewrite Hs, (assign_in _ 0 8); [|by rewrite N.add_0_r, at_var|lia].
  cbn [mbind option_bind]. by rewrite write_at_all by len_lia.
Qed.

Lemma base_word_exec base ss new (c : list byte) :
  generate_plan_read_into debug_op base (LMember (MVar i)) 8 = Ok ss -> op_word mc base = Some new -> lenN c = 8 ->
  exec_stmts mc p ss (pre ++ c ++ post) = Some (pre ++ new ++ post)%list.
Proof.
  intros Hss Hnew Hc. pose proof (op_word_len _ _ Hnew) as Hl.
  rewrite (read_into_exec base (LMember (MVar i)) 0 8 8 ss new); [|done|done|by rewrite N.add_0_r, at_var|lia|lia].
  by rewrite write_at_all by lia.
Qed.

Lemma split_blob (c : list byte) n : lenN c = 8 + n -> lenN (take 8 c) = 8 /\ lenN (drop 8 c) = n.
Proof. unfold lenN. rewrite length_take, length_drop. lia. Qed.

Lemma blob_exec o n (c : list byte) :
  plan_field_decls config i f = blob_decls n -> lenN c = 8 + n ->
  exec_stmts mc p [SSetAddr (LMember (MVar i)) (APlan BStack o); SReadArray (MBlob i) n (APlan BStack o)] (pre ++ c ++ post)
  = Some (pre ++ (to_le 8 (offset_address mc BStack o) ++ probe_read mc (offset_address mc BStack o) n) ++ post)%list.
Proof.
  intros Hd Hc. destruct (split_blob c n Hc) as [Ht Hr]. cbn [exec_stmts exec_stmt address_value].
  rewrite (assign_in _ 0 8); [|by rewrite N.add_0_r, at_var|lia]. cbn [mbind option_bind].
  rewrite <- (take_drop 8 c), write_at_head by len_lia.
  rewrite (read_to_in _ 8 1); [| |len_lia].
  - cbn [mbind option_bind]. rewrite write_at_tail, write_at_all by len_lia. done.
  - unfold lvalue_at. by rewrite (at_blob n Hd).
Qed.

Lemma piecewise_exec n pieces ss blob (c : list byte) :
  plan_field_decls config i f = blob_decls n -> piece_reads debug_op i n pieces = Ok ss ->
  place_pieces mc n pieces (replicate (N.to_nat n) x00) = Some blob -> lenN c = 8 + n ->
  exec_stmts mc p (SMemset (MBlob i) n :: ss) (pre ++ c ++ post) = Some (pre ++ (take 8 c ++ blob) ++ post)%list.
Proof.
  intros Hd Hp Hb Hc. destruct (split_blob c n Hc) as [Ht Hr]. cbn [exec_stmts exec_stmt].
  rewrite (read_to_in _ 8 1); [| |len_lia].
  - cbn [mbind option_bind]. rewrite <- (take_drop 8 c) at 1. rewrite write_at_tail, write_at_all by len_lia.
    eapply pieces_exec; [exact Hd|exact Hp|exact Hb|done|len_lia].
  - unfold lvalue_at. by rewrite (at_blob n Hd).
Qed.

(** A field's statements leave in its part of the record what [field_chunk] says. *)
Lemma field_exec ss new (c : list byte) :
  plan_field_reads config debug_op i f = Ok ss -> field_chunk mc config (take 8 c) f = Some new -> lenN c = chunk_size config f ->
  exec_stmts mc p ss (pre ++ c ++ post) = Some (pre ++ new ++ post)%list.
Proof.
  unfold plan_field_reads. intros Hss Hnew Hc.
  destruct (generate_plan_read_expr config debug_op (cf_op f) i (cf_size f)) as [reads|] eqn:Er; [|done].
  injection Hss as <-. cbn [exec_stmts exec_stmt mbind option_bind].
  unfold chunk_size, plan_extra_size in Hc. unfold field_chunk in Hnew. unfold generate_plan_read_expr in Er.
  rewrite !(N.leb_antisym 8) in Hnew.
  assert (Hd : plan_field_decls config i f = plan_field_decls config i f) by done. unfold plan_field_decls at 2 in Hd.
  destruct (cf_op f) as [r sem|o size sem|r o size sem|o size sem|base size|base|base size kind|hptr hlen hcap size kind|o size sem
                        |af size|bytes|o size op|pieces|reason]; try discriminate Hnew; try discriminate Er;
    try (destruct (8 <? cf_size f); [discriminate Hnew|]; cbn [negb] in Hnew).
  - injection Hnew as <-. injection Er as <-. by apply set_word_exec.
  - destruct (N.leb_spec size 8); [|done]. injection Hnew as <-. injection Er as <-. by apply memory_read_exec.
  - destruct (N.leb_spec size 8); [|done]. injection Hnew as <-. injection Er as <-. by apply memory_read_exec.
  - injection Hnew as <-. injection Er as <-. by apply blob_exec.
  - by apply (base_word_exec base).
  - by apply (base_word_exec base).
  - destruct (header_deltas kind) as [[pd ld] cd]. eapply (header_exec (text_kind kind)); [|exact Er|exact Hnew|].
    all: revert Hd Hc; destruct (text_kind kind); intros Hd Hc; done || lia.
  - eapply (header_exec (text_kind kind)); [|exact Er|exact Hnew|].
    all: revert Hd Hc; destruct (text_kind kind); intros Hd Hc; done || lia.
  - injection Hnew as <-. injection Er as <-. by apply set_word_exec.
  - destruct (piece_reads debug_op i _ pieces) as [ps|] eqn:Ep; [|done]. injection Er as <-.
    destruct (place_pieces mc _ pieces _) as [blob|] eqn:Eb; [|done]. injection Hnew as <-. by eapply piecewise_exec.
  - injection Hnew as <-. injection Er as <-. by apply set_word_exec.
Qed.
End Field.

(** ** Sizes *)

Lemma place_pieces_len mc debug_op i capture pieces ss blob blob' :
  piece_reads debug_op i capture pieces = Ok ss ->
  place_pieces mc capture pieces blob = Some blob' -> lenN blob = capture -> lenN blob' = capture.
Proof.
  revert ss blob. induction pieces as [|piece pieces IH]; intros ss blob; cbn; [intros _ [= <-]; done|].
  destruct (N.leb_spec capture (cp_offset piece)); [by apply IH|]. set (size := N.min _ _).
  destruct (cp_op piece) as [op|].
  - destruct (generate_plan_read_into debug_op op _ size) as [s1|] eqn:E1; [|done].
    destruct (piece_reads debug_op i capture pieces) as [s2|] eqn:E2; [|done]. intros _.
    destruct (op_bytes mc op 1 size) as [bytes|] eqn:E; [|done]. cbn. intros Hr Hl. eapply IH; [done|exact Hr|].
    assert (size <> 0) by (intros Ez; rewrite Ez in E1; destruct op; discriminate E1).
    rewrite lenN_write_at; [done|]. destruct (op_bytes_len _ _ _ _ _ E); lia.
  - destruct (piece_reads debug_op i capture pieces) as [s2|] eqn:E2; [|done]. intros _. by eapply IH.
Qed.

Lemma header_chunk_len mc config text ptr len cap c :
  header_chunk mc config text ptr len cap = Some c -> lenN c = 16 + (if text then string_capture config else 8).
Proof.
  unfold header_chunk. destruct (op_word mc ptr) as [a|] eqn:Ea; [|done]. destruct (op_word mc len) as [b|] eqn:Eb; [|done].
  apply op_word_len in Ea, Eb. cbn. destruct cap as [cap|], text; try done.
  - destruct (op_word mc cap) as [k|] eqn:Ek; [|done]. apply op_word_len in Ek. intros [= <-]. len_lia.
  - intros [= <-]. unfold text_bytes. destruct (_ && _) eqn:E; [|len_lia].
    apply andb_prop in E as [_ E%N.leb_le]. lens. rewrite lenN_write_at; len_lia.
Qed.

Lemma field_chunk_len mc config debug_op i f ss old c :
  plan_field_reads config debug_op i f = Ok ss -> lenN old = 8 -> field_chunk mc config old f = Some c -> lenN c = chunk_size config f.
Proof.
  unfold plan_field_reads, generate_plan_read_expr, field_chunk, chunk_size, plan_extra_size. intros Hss Ho Hc.
  rewrite !(N.leb_antisym 8) in Hc.
  destruct (cf_op f); try discriminate Hc;
    try (destruct (8 <? cf_size f); [discriminate Hc|]; cbn [negb] in Hc);
    try (injection Hc as <-; len_lia); try (destruct (size <=? 8) eqn:E; [injection Hc as <-; apply N.leb_le in E; len_lia|done]).
  - apply op_word_len in Hc. lia.
  - apply op_word_len in Hc. lia.
  - destruct (header_deltas kind) as [[pd ld] cd]. apply header_chunk_len in Hc. destruct (text_kind kind); lia.
  - apply header_chunk_len in Hc. destruct (text_kind kind); lia.
  - destruct (piece_reads debug_op i _ pieces) as [ps|] eqn:Ep; [|done].
    destruct (place_pieces mc _ pieces _) as [blob|] eqn:Eb; [|done]. injection Hc as <-.
    apply (place_pieces_len _ _ _ _ _ _ _ _ Ep) in Eb; len_lia.
Qed.

(** The compiler puts a field's members next to each other. *)
Lemma field_layout mc config i f off old c :
  off mod 8 = 0 -> field_chunk mc config old f = Some c -> layout_end off (plan_field_decls config i f) = off + chunk_size config f.
Proof.
  intros H8 Hc. unfold plan_field_decls, field_chunk, chunk_size, plan_extra_size in *.
  rewrite !(N.leb_antisym 8) in Hc.
  destruct (cf_op f); try discriminate Hc;
    try (destruct (8 <? cf_size f); [discriminate Hc|]; cbn [negb] in Hc);
    try (destruct (text_kind kind)); cbn [layout_end]; aligned; lia.
Qed.

Fixpoint record_size (config : CaptureConfig) (fields : list CaptureField) : N :=
  match fields with [] => 0 | f :: fields => chunk_size config f + record_size config fields end.

Definition whole_words (config : CaptureConfig) (f : CaptureField) : Prop := plan_extra_size config f mod 8 = 0.

Lemma whole_words_size config f : whole_words config f -> chunk_size config f mod 8 = 0.
Proof. unfold whole_words, chunk_size. intros H. rewrite N.add_comm. by apply mod8_add. Qed.

Lemma decls_older config i f : Forall (fun d => older (i + 1) (d_member d)) (plan_field_decls config i f).
Proof.
  unfold plan_field_decls. constructor; [cbn; lia|].
  destruct (cf_op f); try (destruct (text_kind kind)); try (destruct (8 <? cf_size f)); repeat constructor; cbn; lia.
Qed.

Lemma older_mono i j m : i <= j -> older i m -> older j m.
Proof. destruct m; cbn; lia || done. Qed.

(** ** All fields *)

Section Fields.
Context (mc : machine) (config : CaptureConfig) (debug_op : ReadOp -> string) (p : BpfProgram).

Lemma fields_exec fields i before off pre ring ss new :
  event_struct p = (before ++ enumerate_from i fields (plan_field_decls config))%list ->
  Forall (fun d => older i (d_member d)) before -> layout_end 0 before = off -> off mod 8 = 0 -> lenN pre = off ->
  Forall (whole_words config) fields ->
  try_enumerate_from i fields (plan_field_reads config debug_op) = Ok ss -> chunks_of mc config fields ring = Some new ->
  lenN ring = record_size config fields ->
  exec_stmts mc p ss (pre ++ ring) = Some (pre ++ new)%list
  /\ layout_end 0 (event_struct p) = off + record_size config fields /\ lenN new = record_size config fields.
Proof.
  revert i before off pre ring ss new. induction fields as [|f fields IH]; intros i before off pre ring ss new Hds Hold Hoff H8 Hpre Hw.
  { cbn [enumerate_from try_enumerate_from chunks_of record_size] in *. intros [= <-] [= <-] Hr. 
    destruct ring; [|rewrite lenN_cons in Hr; lia]. split; [done|]. rewrite Hds, app_nil_r, Hoff. split; [lia|done]. }
  inversion_clear Hw as [|? ? Hwf Hwr]. cbn [enumerate_from try_enumerate_from chunks_of record_size] in *.
  destruct (plan_field_reads config debug_op i f) as [s1|] eqn:E1; [|done]. cbn [res_bind].
  destruct (try_enumerate_from (i + 1) fields _) as [s2|] eqn:E2; [|done]. intros [= <-].
  destruct (field_chunk mc config (take 8 ring) f) as [c|] eqn:Ec; [|done]. cbn [mbind option_bind].
  destruct (chunks_of mc config fields _) as [cs|] eqn:Ecs; [|done]. intros [= <-] Hr.
  set (n := chunk_size config f) in *.
  set (c0 := take (N.to_nat n) ring). set (rest := drop (N.to_nat n) ring) in *.
  assert (Hn : 8 <= n) by (unfold n, chunk_size; lia).
  assert (Hc0 : lenN c0 = n) by (unfold c0, lenN in *; rewrite length_take; lia).
  assert (Hrest : lenN rest = record_size config fields) by (unfold rest, lenN in *; rewrite length_drop; lia).
  assert (Ht : take 8 c0 = take 8 ring) by (unfold c0; rewrite take_take; f_equal; lia).
  assert (Hcl : lenN c = n).
  { eapply field_chunk_len; [exact E1| |exact Ec]. unfold lenN in *. rewrite length_take. lia. }
  destruct (IH (i + 1) (before ++ plan_field_decls config i f)%list (off + n) (pre ++ c)%list rest s2 cs) as (Hx & Hl & Hs); try done.
  - by rewrite Hds, app_assoc.
  - apply Forall_app. split; [|apply decls_older]. eapply List.Forall_impl; [|exact Hold]. intros d. apply older_mono. lia.
  - rewrite layout_end_app, Hoff. by eapply field_layout.
  - rewrite N.Div0.add_mod, H8. unfold n. by rewrite whole_words_size.
  - len_lia.
  - split; [|split; [rewrite Hl; lia|len_lia]].
    replace ring with (c0 ++ rest)%list by apply take_drop. rewrite exec_stmts_app.
    rewrite (field_exec mc config debug_op p before _ i off f Hds Hold Hoff H8 pre rest Hpre s1 c c0); [|done|by rewrite Ht|done].
    cbn [mbind option_bind]. rewrite app_assoc, Hx. by rewrite app_assoc.
Qed.
End Fields.

(** ** The fixed parts *)

Definition header_bytes (mc : machine) (ring : list byte) : list byte :=
  (to_le 4 (host_pid mc) ++ to_le 4 (wrap 32 (mc_pid_tgid mc)) ++ to_le 4 (ns_pid mc) ++ slice ring 12 4 ++ to_le 8 (mc_ktime mc))%list.
Definition envelope_bytes (envelope : option RawEnvelopeSpec) (count payload : N) : list byte :=
  match envelope with
  | None => []
  | Some e => (to_le 4 RAW_ENVELOPE_MAGIC ++ to_le 2 RAW_ENVELOPE_SCHEMA ++ to_le 2 count ++ to_le 4 payload
               ++ to_le 4 (es_profile_tag e) ++ to_le 8 (es_plan_tag e))%list
  end.
Definition goid_bytes (capture_goid : bool) (goid : N) : list byte := if capture_goid then to_le 8 goid else [].

(** A list of known length, as its elements. *)
Ltac explode h H :=
  repeat (destruct h as [|? h]; [discriminate H|cbn [length] in H; injection H as H]); destruct h; [clear H|discriminate H].

Lemma at_prefix p ds m off t w :
  event_struct p = ds -> offset_of m 0 ds = Some (off, t) -> w = ctype_width t -> lvalue_at p (LMember m) = Some (off, w).
Proof. intros Hds H ->. unfold lvalue_at. by rewrite Hds, H. Qed.

Section Prefix.
Context (mc : machine) (p : BpfProgram) (envelope : option RawEnvelopeSpec) (capture_goid : bool) (tail_ : list cdecl).
Context (Hds : event_struct p = (template_decls ++ envelope_decls envelope ++ goid_decls capture_goid ++ tail_)%list).

Ltac write_len := repeat (rewrite lenN_write_at by write_len); lens; lia.
Ltac prefix_side := first [eapply at_prefix; [exact Hds|reflexivity|reflexivity] | write_len].

Lemma prologue_exec (h rest : list byte) :
  lenN h = 24 -> exec_prologue p (prologue mc) (h ++ rest) = Some (header_bytes mc h ++ rest)%list.
Proof.
  intros Hh. assert (Hn : forall (c : list byte) l at_ width v, lvalue_at p l = Some (at_, width) -> at_ + width <= lenN c ->
    assign p l v (c ++ rest) = Some (write_at c at_ (to_le (N.to_nat width) v) ++ rest)%list).
  { intros c l at_ width v Hl Hw. apply (assign_in p 0 [] rest eq_refl); [by rewrite N.add_0_l|done]. }
  cbn [prologue exec_prologue].
  rewrite (Hn _ _ 0 4) by prefix_side. cbn [mbind option_bind].
  rewrite (Hn _ _ 4 4) by prefix_side. cbn [mbind option_bind].
  rewrite (Hn _ _ 16 8) by prefix_side. cbn [mbind option_bind].
  rewrite (Hn _ _ 8 4) by prefix_side. cbn [mbind option_bind].
  f_equal. f_equal. unfold lenN in Hh. assert (length h = 24%nat) as Hl by lia. clear -Hl.
  explode h Hl. reflexivity.
Qed.

Lemma goid_exec (pre g rest : list byte) :
  lenN pre = 24 + lenN (envelope_bytes envelope 0 0) -> lenN g = (if capture_goid then 8 else 0) ->
  exec_stmts mc p (goid_reads capture_goid) (pre ++ g ++ rest) = Some (pre ++ goid_bytes capture_goid (goid_value mc p) ++ rest)%list.
Proof.
  intros Hpre Hg. destruct capture_goid; cbn [goid_reads goid_bytes exec_stmts exec_stmt].
  - rewrite (assign_in p _ pre rest Hpre _ 0 8); [|destruct envelope; (eapply at_prefix; [exact Hds|reflexivity|reflexivity])|lia].
    cbn [mbind option_bind]. by rewrite write_at_all by len_lia.
  - destruct g; [done|rewrite lenN_cons in Hg; lia].
Qed.

Lemma envelope_exec count (pre e rest : list byte) :
  lenN pre = 24 -> lenN e = lenN (envelope_bytes envelope 0 0) -> (is_Some envelope -> 48 <= sizeof_event p < 2 ^ 32) ->
  exec_stmts mc p (envelope_reads envelope count) (pre ++ e ++ rest)
  = Some (pre ++ envelope_bytes envelope count (sizeof_event p - 48) ++ rest)%list.
Proof.
  intros Hpre He Hsz. destruct envelope as [spec|]; cbn [envelope_reads envelope_bytes exec_stmts exec_stmt] in *.
  2:{ destruct e; [done|len_lia]. }
  change (lenN _) with 24 in He at 2. specialize (Hsz ltac:(eauto)).
  assert (Hn : forall (c : list byte) l at_ width v, lvalue_at p l = Some (24 + at_, width) -> at_ + width <= lenN c ->
    assign p l v (pre ++ c ++ rest) = Some (pre ++ write_at c at_ (to_le (N.to_nat width) v) ++ rest)%list).
  { intros. by apply (assign_in p 24 pre rest Hpre). }
  rewrite (Hn _ _ 0 4) by prefix_side. cbn [mbind option_bind].
  rewrite (Hn _ _ 4 2) by prefix_side. cbn [mbind option_bind].
  rewrite (Hn _ _ 6 2) by prefix_side. cbn [mbind option_bind].
  rewrite (Hn _ _ 8 4) by prefix_side. cbn [mbind option_bind].
  rewrite (Hn _ _ 12 4) by prefix_side. cbn [mbind option_bind].
  rewrite (Hn _ _ 16 8) by prefix_side. cbn [mbind option_bind].
  replace (wrap 64 (sizeof_event p + 2 ^ 64 - (24 + RAW_ENVELOPE_SIZE))) with (sizeof_event p - 48).
  2:{ unfold wrap, RAW_ENVELOPE_SIZE. replace (sizeof_event p + 2 ^ 64 - (24 + 24)) with (sizeof_event p - 48 + 1 * 2 ^ 64) by lia.
      rewrite N.Div0.mod_add, N.mod_small by lia. done. }
  f_equal. f_equal. f_equal. unfold lenN in He. assert (length e = 24%nat) as Hl by lia. clear -Hl.
  explode e Hl. reflexivity.
Qed.
End Prefix.

(** ** The whole record *)

Lemma event_size_sum config fields n :
  fold_left (fun size f => size + 8 + plan_extra_size config f) fields n = n + record_size config fields.
Proof. revert n. induction fields as [|f fields IH]; intros n; cbn; [lia|]. rewrite IH. unfold chunk_size. lia. Qed.

Lemma round_up8_fixed n : n mod 8 = 0 -> round_up8 n = n.
Proof.
  intros H. unfold round_up8. change 7 with (N.ones 3) at 2. rewrite N.ldiff_ones_r, N.shiftl_mul_pow2, N.shiftr_div_pow2.
  change (2 ^ 3) with 8. apply N.Div0.mod_divides in H as [k ->].
  replace (8 * k + 7) with (7 + k * 8) by lia. rewrite N.div_add, N.div_small by lia. lia.
Qed.

Lemma record_size_mod8 config fields : Forall (whole_words config) fields -> record_size config fields mod 8 = 0.
Proof.
  induction 1 as [|f fields Hf _ IH]; [done|]. cbn. rewrite N.Div0.add_mod, IH, whole_words_size by done. done.
Qed.

Lemma plan_event_size_words config fields capture_goid envelope :
  Forall (whole_words config) fields ->
  plan_event_size config fields capture_goid envelope = prefix_size capture_goid envelope + record_size config fields.
Proof.
  intros Hw. unfold plan_event_size. rewrite event_size_sum. apply round_up8_fixed.
  rewrite N.Div0.add_mod, record_size_mod8 by done. by destruct capture_goid, envelope.
Qed.

(** An admitted plan keeps its records small. *)
Lemma record_size_bound config plan :
  plan_validate plan = Ok tt -> record_size config (plan_fields plan) <= 64 * 4104.
Proof.
  intros Hv%plan_validate_ok. destruct (pw_count _ Hv) as [_ Hc]. destruct (pw_payload _ Hv) as [_ Hp].
  pose proof (pw_bounds _ Hv) as Hb. pose proof (pw_ops _ Hv) as Ho.
  assert (Hf : Forall (fun f => chunk_size config f <= 4104) (plan_fields plan)).
  { rewrite List.Forall_forall in *. intros f Hin. specialize (Hb f Hin) as [_ Hb]. specialize (Ho f Hin).
    unfold chunk_size, plan_extra_size, blob_capture, string_capture, MAX_CAPTURE_PAYLOAD_BYTES, bounded_read, MAX_CAPTURE_OP_BYTES in *.
    destruct (cf_op f); cbn in Ho; unfold bounded_read, MAX_CAPTURE_OP_BYTES in Ho; try (destruct (text_kind kind));
      try (destruct (8 <? cf_size f)); lia. }
  assert (Hs : record_size config (plan_fields plan) <= lenN (plan_fields plan) * 4104).
  { clear -Hf. induction Hf; cbn; [lia|]. len_lia. }
  unfold MAX_CAPTURE_FIELDS in Hc. nia.
Qed.

Definition record_bytes (mc : machine) (p : BpfProgram) (capture_goid : bool) (envelope : option RawEnvelopeSpec) (count : N)
    (ring chunks : list byte) : list byte :=
  (header_bytes mc ring ++ envelope_bytes envelope count (bp_event_size p - 48)
   ++ goid_bytes capture_goid (goid_value mc p) ++ chunks)%list.

(** What a generated program consists of. *)
Lemma generated_parts config debug_op plan capture_goid g_addr_offset goid_offset envelope p :
  generate_bpf_program_from_plan config debug_op plan capture_goid g_addr_offset goid_offset envelope = Ok p ->
  plan_validate plan = Ok tt /\ bp_fields p = build_plan_event_fields config (plan_fields plan) capture_goid envelope
  /\ bp_event_size p = plan_event_size config (plan_fields plan) capture_goid envelope
  /\ exists vars, try_enumerate_from 0 (plan_fields plan) (plan_field_reads config debug_op) = Ok vars
       /\ bp_reads p = (envelope_reads envelope (lenN (plan_fields plan)) ++ goid_reads capture_goid ++ vars)%list.
Proof.
  unfold generate_bpf_program_from_plan, build_plan_var_reads. destruct (plan_validate plan) as [[]|]; [|done]. cbn [map_err res_bind].
  destruct (_ <? _); [done|]. destruct (try_enumerate_from _ _ _) as [vars|]; [|done]. intros [= <-]. eauto 6.
Qed.

Lemma prefix_len mc p (ring : list byte) capture_goid envelope count payload :
  16 <= lenN ring ->
  lenN (header_bytes mc ring ++ envelope_bytes envelope count payload ++ goid_bytes capture_goid (goid_value mc p))
  = prefix_size capture_goid envelope.
Proof.
  intros Hr. unfold header_bytes. destruct capture_goid, envelope; cbn [goid_bytes envelope_bytes]; lens; rewrite lenN_slice by lia; done.
Qed.

(** The parts of a reserved record. *)
Lemma split_ring (ring : list byte) capture_goid envelope n :
  lenN ring = prefix_size capture_goid envelope + n ->
  exists h e g rest, ring = (h ++ e ++ g ++ rest)%list /\ lenN h = 24 /\ lenN e = lenN (envelope_bytes envelope 0 0)
    /\ lenN g = (if capture_goid then 8 else 0) /\ lenN rest = n
    /\ rest = drop (N.to_nat (prefix_size capture_goid envelope)) ring /\ slice ring 12 4 = slice h 12 4.
Proof.
  intros Hr. set (le := lenN (envelope_bytes envelope 0 0)). set (lg := if capture_goid then 8 else 0).
  assert (Hp : prefix_size capture_goid envelope = 24 + le + lg) by (unfold le, lg; by destruct capture_goid, envelope).
  exists (take 24 ring), (take (N.to_nat le) (drop 24 ring)), (take (N.to_nat lg) (drop (24 + N.to_nat le) ring)),
    (drop (N.to_nat (prefix_size capture_goid envelope)) ring).
  unfold lenN in Hr. repeat split; try (unfold lenN at 1; rewrite ?length_take, ?length_drop; lia).
  - rewrite <- (take_drop 24 ring) at 1. f_equal. rewrite <- (take_drop (N.to_nat le) (drop 24 ring)) at 1. f_equal.
    rewrite drop_drop. rewrite <- (take_drop (N.to_nat lg) (drop (24 + N.to_nat le) ring)) at 1. f_equal.
    rewrite drop_drop. f_equal. lia.
  - unfold slice. cbn [N.to_nat]. change (N.to_nat 12) with 12%nat. change (N.to_nat 4) with 4%nat.
    rewrite skipn_firstn_comm, take_take. done.
Qed.

Theorem plan_program_fills_event config debug_op plan capture_goid g_addr_offset goid_offset envelope p mc ring chunks :
  generate_bpf_program_from_plan config debug_op plan capture_goid g_addr_offset goid_offset envelope = Ok p ->
  Forall (whole_words config) (plan_fields plan) -> lenN ring = bp_event_size p ->
  chunks_of mc config (plan_fields plan) (drop (N.to_nat (prefix_size capture_goid envelope)) ring) = Some chunks ->
  run_probe mc p ring = Some (record_bytes mc p capture_goid envelope (lenN (plan_fields plan)) ring chunks)
  /\ lenN (record_bytes mc p capture_goid envelope (lenN (plan_fields plan)) ring chunks) = bp_event_size p
  /\ sizeof_event p = bp_event_size p.
Proof.
  intros Hg Hw Hr Hch. destruct (generated_parts _ _ _ _ _ _ _ _ Hg) as (Ev & Efields & Esize & vars & Evr & Ereads).
  pose proof (record_size_bound config plan Ev) as Hb.
  rewrite (plan_event_size_words _ _ _ _ Hw) in Esize. pose proof Hr as Hr'. rewrite Esize in Hr'.
  destruct (split_ring _ _ _ _ Hr') as (h & e & g & rest & Ering & Hh & He & Hgl & Hrest & Erest & Eslice).
  set (before := (template_decls ++ envelope_decls envelope ++ goid_decls capture_goid)%list).
  assert (Hds : event_struct p = (before ++ enumerate_from 0 (plan_fields plan) (plan_field_decls config))%list)
    by (unfold before, event_struct; by rewrite Efields, <- !app_assoc).
  assert (Hlay : layout_end 0 before = prefix_size capture_goid envelope) by (unfold before; by destruct capture_goid, envelope).
  assert (Hhr : header_bytes mc ring = header_bytes mc h) by (unfold header_bytes; by rewrite Eslice).
  assert (Hpl := prefix_len mc p h capture_goid envelope (lenN (plan_fields plan)) (bp_event_size p - 48) ltac:(lia)).
  set (pre := (header_bytes mc h ++ _)%list) in Hpl.
  destruct (fields_exec mc config debug_op p (plan_fields plan) 0 before (prefix_size capture_goid envelope) pre rest vars chunks
              Hds) as (Hx & Hend & Hlen); try done.
  - unfold before. by destruct capture_goid, envelope; repeat constructor.
  - by destruct capture_goid, envelope.
  - by rewrite Erest.
  - assert (Hsz : sizeof_event p = bp_event_size p).
    { unfold sizeof_event. rewrite Hend, Esize. apply align_to_fixed; [done|].
      rewrite N.Div0.add_mod, record_size_mod8 by done. by destruct capture_goid, envelope. }
    unfold run_probe, record_bytes. rewrite Hhr, Ereads. split; [|split; [|done]].
    + rewrite Ering. assert (Hds' := Hds). unfold before in Hds'. rewrite <- !app_assoc in Hds'.
      rewrite (prologue_exec mc p _ _ _ Hds' h _ Hh). cbn [mbind option_bind].
      rewrite exec_stmts_app, (envelope_exec mc p _ _ _ Hds'), Hsz; [|unfold header_bytes; lens; rewrite lenN_slice by lia; done|done|].
      2:{ intros [spec ->]. rewrite Hsz, Esize. unfold prefix_size. destruct capture_goid; lia. }
      cbn [mbind option_bind]. rewrite app_assoc, exec_stmts_app, (goid_exec mc p _ _ _ Hds'); [| |done].
      * cbn [mbind option_bind]. unfold pre in Hx. rewrite <- !app_assoc. rewrite <- !app_assoc in Hx. by rewrite Hx.
      * unfold header_bytes. lens. rewrite lenN_slice by lia. by destruct envelope.
    + rewrite (app_assoc (envelope_bytes _ _ _)), app_assoc, lenN_app, Esize, Hlen. unfold pre in Hpl. rewrite Esize in Hpl. by rewrite Hpl.
Qed.
