(* ===== verification/CaptureRoundTrip.v ===== *)
(** * From a variable to its captured value

    The probe compilers, the generated program and the record decoder are three
    separate pieces of code that must agree on every byte of a record.  Here they
    are put together: a probe point is lowered to a plan, the plan's program runs on
    the stopped thread, and the decoder reads the submitted record.

    [location_value] is what is wanted: the value at a variable's location, as the
    registers and the memory of the thread hold it.  What a compiler must provide
    for that is the class [Lowers]; the Go and the Rust lowering are its instances,
    and [capture_round_trip] is proved against the class. *)

From Stdlib Require Import Strings.String Strings.Ascii Init.Byte.
From S2P Require Import Prelude RustStr RustText Dwarf CapturePlan Decode TypeInfo MemReader Policy ProbeValue MapReader StructReader ProbeProgram BpfMachine ProbeRecord RingEvent ProbeCompiler.

Local Open Scope N_scope.

(** ** What a variable holds *)

Record machine_ok (mc : machine) : Prop := {
  mo_regs r : mc_regs mc r < 2 ^ 64;
  mo_pid : mc_pid_tgid mc < 2 ^ 64;
  mo_ktime : mc_ktime mc < 2 ^ 64;
  mo_ns n : mc_ns_tgid mc = Some n -> n < 2 ^ 32
}.

Section Values.
Context (mc : machine) (config : CaptureConfig).

(** The word at a simple location; memory that cannot be read counts as zero. *)
Definition location_word (l : VariableLocation) : N :=
  match l with
  | VRegister r => mc_regs mc r
  | VStackOffset o => probe_word mc (offset_address mc BStack o)
  | VFrameOffset r o => probe_word mc (offset_address mc (BReg r) o)
  | _ => 0
  end.

(** A scalar of at most a word. *)
Definition location_scalar (l : VariableLocation) (size : N) : N :=
  match l with
  | VStackOffset o => of_le (probe_read mc (offset_address mc BStack o) size)
  | VFrameOffset r o => of_le (probe_read mc (offset_address mc (BReg r) o) size)
  | _ => location_word l
  end.

(** The bytes of one piece of a split value; a piece without a location is blank. *)
Definition piece_bytes (piece : VariablePieceOf VariableLocation) : list byte :=
  let size := vp_byte_size _ piece in
  match vp_location _ piece with
  | Some (VStackOffset o) => probe_read mc (offset_address mc BStack o) size
  | Some (VFrameOffset r o) => probe_read mc (offset_address mc (BReg r) o) size
  | Some (VRegister r) => take (N.to_nat size) (to_le 8 (mc_regs mc r))
  | _ => replicate (N.to_nat size) x00
  end.
Definition pieces_bytes (pieces : list (VariablePieceOf VariableLocation)) : list byte := concat (map piece_bytes pieces).

(** The first [capture] bytes of a split value, blank after the last piece. *)
Definition split_bytes (pieces : list (VariablePieceOf VariableLocation)) (capture : N) : list byte :=
  take (N.to_nat capture) (pieces_bytes pieces ++ replicate (N.to_nat capture) x00).

Definition location_text (ptr len : VariableLocation) : list byte :=
  text_bytes mc config (to_le 8 (location_word ptr)) (to_le 8 (location_word len)).

Context (mr : MemReader) (datetime : Z -> option string) (decode_error_text : ScalarDecodeError -> string) (loop_fuel : nat).

(** The value of variable [v] when it lives at [l]. *)
Definition location_value (ns_pid : N) (v : ResolvedVariable) (l : VariableLocation) : run (result CapturedValue EbpfError) :=
  match l with
  | VGoString ptr len | VStringHeader ptr len =>
      Ret (Ok (string_value mr config ns_pid (location_word ptr) (location_word len) (location_text ptr len)))
  | VGoSlice _ len cap | VSliceHeader _ len cap => Ret (Ok (CSlice (location_word len) (location_word cap)))
  | VStackBlob o n =>
      blob_value mr config datetime decode_error_text loop_fuel ns_pid v n
        (probe_read mc (offset_address mc BStack o) (blob_capture config n))
  | VPiecewiseBlob pieces n =>
      blob_value mr config datetime decode_error_text loop_fuel ns_pid v n (split_bytes pieces (blob_capture config n))
  | VStackIndirect o n =>
      run_map Ok (indirect_value mr config datetime decode_error_text loop_fuel ns_pid v n (location_word (VStackOffset o)))
  | VGoMap ptr => run_map Ok (map_value mr config datetime decode_error_text loop_fuel ns_pid v (location_word ptr))
  | VRegister _ | VStackOffset _ | VFrameOffset _ _ =>
      word_value mr config datetime decode_error_text loop_fuel ns_pid v (location_scalar l (size_bytes (rv_size v)))
  end.

Fixpoint location_values (ns_pid : N) (place : ResolvedVariable -> VariableLocation) (variables : list ResolvedVariable)
    : run (result (list CapturedValue) EbpfError) :=
  match variables with
  | [] => Ret (Ok [])
  | v :: variables =>
      run_try (location_value ns_pid v (place v)) (fun value =>
      run_try (location_values ns_pid place variables) (fun values => Ret (Ok (value :: values))))
  end.

(** ** How a location is stored in a record *)

Definition word_bytes (l : VariableLocation) : list byte := to_le 8 (location_word l).
Definition location_chunk (old : list byte) (v : ResolvedVariable) (l : VariableLocation) : list byte :=
  match l with
  | VRegister _ | VStackOffset _ | VFrameOffset _ _ => to_le 8 (location_scalar l (size_bytes (rv_size v)))
  | VGoString ptr len | VStringHeader ptr len => (word_bytes ptr ++ word_bytes len ++ location_text ptr len)%list
  | VGoSlice ptr len cap | VSliceHeader ptr len cap => (word_bytes ptr ++ word_bytes len ++ word_bytes cap)%list
  | VStackBlob o n =>
      (to_le 8 (offset_address mc BStack o) ++ probe_read mc (offset_address mc BStack o) (blob_capture config n))%list
  | VPiecewiseBlob pieces n => (old ++ split_bytes pieces (blob_capture config n))%list
  | VStackIndirect o _ => word_bytes (VStackOffset o)
  | VGoMap ptr => word_bytes ptr
  end.
End Values.

(** The form of a location, which decides how the decoder reads it. *)
Inductive shape : Type := ShWord | ShText | ShSlice | ShBlob (n : N) | ShIndirect (n : N) | ShMap.
Definition shape_of (l : VariableLocation) : shape :=
  match l with
  | VRegister _ | VStackOffset _ | VFrameOffset _ _ => ShWord
  | VGoString _ _ | VStringHeader _ _ => ShText
  | VGoSlice _ _ _ | VSliceHeader _ _ _ => ShSlice
  | VStackBlob _ n | VPiecewiseBlob _ n => ShBlob n
  | VStackIndirect _ n => ShIndirect n
  | VGoMap _ => ShMap
  end.

(** ** The interface of a lowering

    [place v] is where the value of [v] is, and [admits] are the variables the
    lowering captures completely: the plan field it makes for such a variable
    fills its part of the record with what is at [place v], in whole words. *)
Class Lowers (lower : ResolvedVariable -> result (N * ReadOp) CompileError) (place : ResolvedVariable -> VariableLocation)
    (admits : CaptureConfig -> ResolvedVariable -> Prop) : Prop := {
  lo_shape v : shape_of (place v) = shape_of (rv_location v);
  lo_chunk config v size op mc name off old :
    lower v = Ok (size, op) -> admits config v -> machine_ok mc ->
    field_chunk mc config old (mkField name off size op) = Some (location_chunk mc config old v (place v));
  lo_words config v size op name off :
    lower v = Ok (size, op) -> admits config v -> config_ok config -> whole_words config (mkField name off size op)
}.

(** ** Decoding a stored location *)

Lemma lenN_split_bytes mc pieces capture : lenN (split_bytes mc pieces capture) = capture.
Proof. unfold split_bytes, lenN. rewrite length_take, length_app, length_replicate. lia. Qed.

Lemma lenN_text_bytes mc config a b : lenN (text_bytes mc config a b) = string_capture config.
Proof.
  unfold text_bytes. destruct (_ && _) eqn:E; [|len_lia]. apply andb_prop in E as [_ E%N.leb_le].
  rewrite lenN_write_at; len_lia.
Qed.
#[export] Hint Rewrite lenN_split_bytes lenN_text_bytes : lens.

Lemma of_to_le8 n : n < 2 ^ 64 -> of_le (to_le 8 n) = n.
Proof. intros H. rewrite of_to_le. by apply N.mod_small. Qed.

Lemma probe_read_lt mc addr size : size <= 8 -> of_le (probe_read mc addr size) < 2 ^ 64.
Proof.
  intros H. eapply N.lt_le_trans; [apply of_le_lt|]. rewrite lenN_probe_read. change (2 ^ 64) with (256 ^ 8).
  by apply N.pow_le_mono_r.
Qed.

Lemma location_word_lt mc l : machine_ok mc -> location_word mc l < 2 ^ 64.
Proof. intros H. destruct l; cbn; try (by apply probe_read_lt); [apply (mo_regs _ H)|done..]. Qed.

Lemma size_bytes_le s : size_bytes s <= 8.
Proof. destruct s; cbn; lia. Qed.

Lemma location_scalar_lt mc l s : machine_ok mc -> location_scalar mc l (size_bytes s) < 2 ^ 64.
Proof.
  intros H. pose proof (size_bytes_le s). destruct l; cbn [location_scalar]; try (by apply probe_read_lt);
    by apply (location_word_lt mc).
Qed.

Lemma read_le_at n (pre x post : list byte) off :
  off = lenN pre -> lenN x = n -> read_le n (pre ++ x ++ post) off = Ok (of_le x, off + n).
Proof.
  intros -> Hx. unfold read_le. rewrite (proj2 (N.ltb_ge _ _)) by len_lia. by rewrite slice_app_mid.
Qed.

Lemma read_bytes_at n (pre x post : list byte) off :
  off = lenN pre -> lenN x = n -> read_bytes (pre ++ x ++ post) off n = Ok (x, off + n).
Proof.
  intros -> Hx. unfold read_bytes. rewrite (proj2 (N.ltb_ge _ _)) by len_lia. by rewrite slice_app_mid.
Qed.

Lemma read_word_at (pre post : list byte) v off :
  off = lenN pre -> v < 2 ^ 64 -> read_u64 (pre ++ to_le 8 v ++ post) off = Ok (v, off + 8).
Proof. intros Hoff Hv. unfold read_u64. rewrite (read_le_at 8) by (done || len_lia). by rewrite of_to_le8. Qed.

Section Parse.
Context (mc : machine) (config : CaptureConfig) (Hmc : machine_ok mc) (Hcfg : config_ok config).
Context (mr : MemReader) (datetime : Z -> option string) (decode_error_text : ScalarDecodeError -> string) (loop_fuel : nat).

Notation read_var := (read_variable mr config datetime decode_error_text loop_fuel).
Notation value := (location_value mc config mr datetime decode_error_text loop_fuel).

Lemma text_capture : string_capture config = cc_max_string_capture config.
Proof. unfold string_capture. destruct (co_string _ Hcfg). lia. Qed.

(** The three readers that follow the variable's own word. *)
Lemma read_text_parts (pre post : list byte) v ptr len inline ns :
  shape_of (rv_location v) = ShText -> ptr < 2 ^ 64 -> len < 2 ^ 64 -> lenN inline = string_capture config ->
  read_var (pre ++ (to_le 8 ptr ++ to_le 8 len ++ inline) ++ post) ns v (lenN pre)
  = Ret (Ok (string_value mr config ns ptr len inline, lenN pre + (16 + string_capture config))).
Proof.
  intros Hs Hp Hl Hi. unfold read_variable. rewrite <- !app_assoc, read_word_at by done. cbn [map_err run_try run_bind].
  destruct (rv_location v); try discriminate Hs.
  all: rewrite app_assoc, read_word_at by (done || len_lia); cbn [map_err res_bind];
    rewrite app_assoc, read_bytes_at by (rewrite ?Hi, ?text_capture; done || len_lia); cbn [res_bind];
    rewrite text_capture; do 3 f_equal; lia.
Qed.

Lemma read_slice_parts (pre post : list byte) v ptr len cap ns :
  shape_of (rv_location v) = ShSlice -> ptr < 2 ^ 64 -> len < 2 ^ 64 -> cap < 2 ^ 64 ->
  read_var (pre ++ (to_le 8 ptr ++ to_le 8 len ++ to_le 8 cap) ++ post) ns v (lenN pre) = Ret (Ok (CSlice len cap, lenN pre + 24)).
Proof.
  intros Hs Hp Hl Hc. unfold read_variable. rewrite <- !app_assoc, read_word_at by done. cbn [map_err run_try run_bind].
  destruct (rv_location v); try discriminate Hs.
  all: rewrite app_assoc, read_word_at by (done || len_lia); cbn [map_err res_bind];
    rewrite app_assoc, read_word_at by (done || len_lia); cbn [map_err res_bind]; do 3 f_equal; lia.
Qed.

Lemma read_blob_parts (pre post : list byte) v w bytes n ns :
  shape_of (rv_location v) = ShBlob n -> lenN w = 8 -> lenN bytes = blob_capture config n ->
  read_var (pre ++ (w ++ bytes) ++ post) ns v (lenN pre)
  = run_try (blob_value mr config datetime decode_error_text loop_fuel ns v n bytes)
      (fun c => Ret (Ok (c, lenN pre + (8 + blob_capture config n)))).
Proof.
  intros Hs Hw Hb. unfold read_variable, read_u64. rewrite <- !app_assoc, (read_le_at 8) by done. cbn [map_err run_try run_bind].
  destruct (rv_location v) as [| | | | | | |o b|ps b| |]; try discriminate Hs; injection Hs as ->; unfold blob_bytes.
  all: rewrite (proj2 (N.leb_le _ _)) by len_lia; rewrite app_assoc, read_bytes_at by (done || len_lia); cbn [map_err run_bind];
    unfold run_try; destruct (blob_value _ _ _ _ _ _ _ _ _) as [[c|]| |]; cbn; try done; do 3 f_equal; lia.
Qed.

Lemma read_word_parts (pre post : list byte) v val ns (k : run (result CapturedValue EbpfError)) :
  val < 2 ^ 64 ->
  match rv_location v with
  | VRegister _ | VStackOffset _ | VFrameOffset _ _ => k = word_value mr config datetime decode_error_text loop_fuel ns v val
  | VStackIndirect _ n => k = run_map Ok (indirect_value mr config datetime decode_error_text loop_fuel ns v n val)
  | VGoMap _ => k = run_map Ok (map_value mr config datetime decode_error_text loop_fuel ns v val)
  | _ => False
  end ->
  read_var (pre ++ to_le 8 val ++ post) ns v (lenN pre) = run_try k (fun c => Ret (Ok (c, lenN pre + 8))).
Proof.
  intros Hv Hk. unfold read_variable. rewrite read_word_at by done. cbn [map_err run_try run_bind].
  destruct (rv_location v); try contradiction; by subst k.
Qed.

(** The decoder reads back the value at a location from the bytes stored for it. *)
Lemma read_location (pre post old : list byte) v l ns :
  shape_of l = shape_of (rv_location v) -> lenN old = 8 ->
  read_var (pre ++ location_chunk mc config old v l ++ post) ns v (lenN pre)
  = run_try (value ns v l) (fun c => Ret (Ok (c, lenN pre + lenN (location_chunk mc config old v l)))).
Proof.
  intros Hs Ho. pose proof (location_word_lt mc) as Hw.
  assert (Hword : forall val, val < 2 ^ 64 -> lenN (to_le 8 val) = 8) by (intros; len_lia).
  destruct l as [r|o|r o|ptr len|ptr len|ptr len cap|ptr len cap|o n|pieces n|o n|ptr]; cbn [location_chunk location_value] in *;
    unfold word_bytes, location_text.
  1-3: rewrite Hword by (by apply location_scalar_lt); apply read_word_parts; [by apply location_scalar_lt|];
    destruct (rv_location v); try discriminate Hs; reflexivity.
  1-2: rewrite read_text_parts by (try done; try (by apply Hw); len_lia); cbn [run_try run_bind]; do 3 f_equal; len_lia.
  1-2: rewrite read_slice_parts by (try done; by apply Hw); cbn [run_try run_bind]; do 3 f_equal; len_lia.
  1-2: rewrite (read_blob_parts _ _ _ _ _ n) by (try done; len_lia); f_equal; lens; rewrite ?Ho; done.
  1-2: rewrite Hword by (by apply Hw); apply read_word_parts; [by apply Hw|];
    destruct (rv_location v); try discriminate Hs; injection Hs as ->  || idtac; reflexivity.
Qed.
End Parse.

(** ** All variables *)

Section RoundTrip.
Context (lower : ResolvedVariable -> result (N * ReadOp) CompileError) (place : ResolvedVariable -> VariableLocation).
Context (admits : CaptureConfig -> ResolvedVariable -> Prop) (Hlow : Lowers lower place admits).
Context (mc : machine) (config : CaptureConfig) (Hmc : machine_ok mc) (Hcfg : config_ok config).
Context (mr : MemReader) (datetime : Z -> option string) (decode_error_text : ScalarDecodeError -> string) (loop_fuel : nat).

Lemma lowered_words vars off fields end_ :
  lower_variables lower off vars = Ok (fields, end_) -> Forall (admits config) vars ->
  Forall (whole_words config) fields /\ lenN fields = lenN vars.
Proof using Hlow Hcfg.
  revert off fields end_. induction vars as [|v vars IH]; intros off fields end_ Hl Ha; cbn in Hl.
  { injection Hl as <- <-. done. }
  inversion_clear Ha as [|? ? Hv Hr]. destruct (lower v) as [[size op]|] eqn:El; [|done]. cbn in Hl.
  destruct (lower_variables lower _ vars) as [[fs e]|] eqn:Er; [|done]. injection Hl as <- <-.
  destruct (IH _ _ _ Er Hr) as [IHw IHl]. split; [|len_lia]. constructor; [|done].
  by apply (lo_words config v).
Qed.

Lemma lowered_chunks vars off fields end_ ring :
  lower_variables lower off vars = Ok (fields, end_) -> Forall (admits config) vars -> lenN ring = record_size config fields ->
  exists chunks, chunks_of mc config fields ring = Some chunks /\
    forall pre ns, read_variables mr config datetime decode_error_text loop_fuel (pre ++ chunks) ns vars (lenN pre)
                   = location_values mc config mr datetime decode_error_text loop_fuel ns place vars.
Proof using Hlow Hmc Hcfg.
  revert off fields end_ ring. induction vars as [|v vars IH]; intros off fields end_ ring Hl Ha Hr; cbn in Hl.
  { injection Hl as <- <-. exists []. done. }
  inversion_clear Ha as [|? ? Hv Hvs]. destruct (lower v) as [[size op]|] eqn:El; [|done]. cbn in Hl.
  destruct (lower_variables lower _ vars) as [[fs e]|] eqn:Er; [|done]. injection Hl as <- <-.
  set (f := mkField (rv_name v) off size op) in *. cbn [record_size] in Hr.
  destruct (IH _ _ _ (drop (N.to_nat (chunk_size config f)) ring) Er Hvs) as (cs & Hcs & Hread).
  { unfold lenN in *. rewrite length_drop. lia. }
  cbn [chunks_of]. rewrite (lo_chunk config v size op mc (rv_name v) off (take 8 ring) El Hv Hmc : field_chunk mc config (take 8 ring) f = _). cbn [mbind option_bind]. rewrite Hcs.
  eexists. split; [reflexivity|]. intros pre ns. cbn [read_variables location_values].
  rewrite read_location; [|done|done|apply (lo_shape (Lowers := Hlow))|].
  2:{ unfold lenN in *. rewrite length_take. unfold chunk_size in Hr. lia. }
  destruct (location_value _ _ _ _ _ _ _ _ _) as [[c|]| |]; cbn [run_try run_bind]; try done.
  rewrite <- lenN_app, app_assoc, Hread. done.
Qed.

(** ** The header of a record *)

Definition tags_ok (envelope : option RawEnvelopeSpec) : Prop :=
  match envelope with Some e => es_profile_tag e < 2 ^ 32 /\ es_plan_tag e < 2 ^ 64 | None => True end.
Definition expectation (envelope : option RawEnvelopeSpec) (count : N) : option RawEnvelopeExpectation :=
  (fun e => mkExpectation (es_profile_tag e) (es_plan_tag e) count) <$> envelope.

Lemma of_to_le4 n : n < 2 ^ 32 -> of_le (to_le 4 n) = n.
Proof. intros H. rewrite of_to_le. by apply N.mod_small. Qed.

Lemma read4_at (pre post : list byte) v off :
  off = lenN pre -> v < 2 ^ 32 -> read_u32 (pre ++ to_le 4 v ++ post) off = Ok (v, off + 4).
Proof. intros Hoff Hv. unfold read_u32. rewrite (read_le_at 4) by (done || len_lia). by rewrite of_to_le4. Qed.

Lemma read2_at (pre post : list byte) v off :
  off = lenN pre -> v < 2 ^ 16 -> read_u16 (pre ++ to_le 2 v ++ post) off = Ok (v, off + 2).
Proof.
  intros Hoff Hv. unfold read_u16. rewrite (read_le_at 2) by (done || len_lia). rewrite of_to_le. by rewrite N.mod_small.
Qed.

Lemma check_envelope_ok (h rest : list byte) spec count payload :
  lenN h = 24 -> tags_ok (Some spec) -> count < 2 ^ 16 -> payload < 2 ^ 32 -> payload = lenN rest ->
  check_raw_envelope (h ++ envelope_bytes (Some spec) count payload ++ rest) 24 count
    (mkExpectation (es_profile_tag spec) (es_plan_tag spec) count) = Ok 48.
Proof.
  intros Hh [Hpt Hpl] Hc Hpay Elen. unfold check_raw_envelope. cbn [ee_field_count ee_profile_tag ee_plan_tag].
  rewrite N.eqb_refl. cbn [negb].
  rewrite (proj2 (N.ltb_ge _ _)) by (cbn [envelope_bytes]; unfold RAW_ENVELOPE_SIZE; len_lia).
  assert (Hlen : lenN (h ++ envelope_bytes (Some spec) count payload ++ rest) = 48 + payload) by (cbn [envelope_bytes]; len_lia).
  rewrite Hlen. clear Hlen. cbn [envelope_bytes]. rewrite <- !app_assoc.
  rewrite read4_at by done. cbn [res_bind].
  rewrite app_assoc, read2_at by (done || len_lia). cbn [res_bind].
  rewrite app_assoc, read2_at by (done || len_lia). cbn [res_bind].
  rewrite app_assoc, read4_at by (done || len_lia). cbn [res_bind].
  rewrite app_assoc, read4_at by (done || len_lia). cbn [res_bind].
  rewrite app_assoc, read_word_at by (done || len_lia). cbn [res_bind].
  rewrite !N.eqb_refl. cbn [negb orb].
  replace (48 + payload - _) with payload by lia. by rewrite N.eqb_refl.
Qed.

Lemma goid_value_lt p : goid_value mc p < 2 ^ 64.
Proof using Hmc.
  unfold goid_value. assert (H : forall a, probe_word mc a < 2 ^ 64) by (intros; by apply probe_read_lt).
  destruct (mc_arch mc); repeat case_match; done.
Qed.

Lemma fixed_header_ok (ring rest : list byte) :
  24 <= lenN ring ->
  read_fixed_header (header_bytes mc ring ++ rest) = Ok (host_pid mc, wrap 32 (mc_pid_tgid mc), ns_pid mc, mc_ktime mc, 24).
Proof using Hmc.
  intros Hring. assert (Hs : lenN (slice ring 12 4) = 4) by (apply lenN_slice; lia).
  assert (Hpid : host_pid mc < 2 ^ 32).
  { unfold host_pid. rewrite N.shiftr_div_pow2. apply N.Div0.div_lt_upper_bound. apply (mo_pid _ Hmc). }
  assert (Hns : ns_pid mc < 2 ^ 32).
  { unfold ns_pid. destruct (mc_ns_tgid mc) as [n|] eqn:E; cbn; [by apply (mo_ns _ Hmc)|done]. }
  pose proof (mo_ktime _ Hmc) as Hk. unfold read_fixed_header, header_bytes. rewrite <- !app_assoc.
  rewrite (proj2 (N.ltb_ge _ _)) by (unfold MIN_EVENT_SIZE; len_lia).
  assert (E1 : forall r, read_u32 (to_le 4 (host_pid mc) ++ r) 0 = Ok (host_pid mc, 4)) by (intros r; by apply (read4_at [] r)).
  rewrite E1. cbn [res_bind].
  rewrite read4_at by (done || apply wrap_lt). cbn [res_bind].
  rewrite app_assoc, read4_at by (done || len_lia). cbn [res_bind].
  rewrite app_assoc. unfold read_u32. rewrite (read_le_at 4) by (done || len_lia). cbn [res_bind].
  rewrite app_assoc, read_word_at by (done || len_lia). done.
Qed.

Lemma optional_header_ok (h rest : list byte) capture_goid envelope count payload goid :
  lenN h = 24 -> tags_ok envelope -> count < 2 ^ 16 -> payload < 2 ^ 32 -> goid < 2 ^ 64 ->
  (is_Some envelope -> payload = lenN (goid_bytes capture_goid goid) + lenN rest) ->
  read_optional_header (h ++ envelope_bytes envelope count payload ++ goid_bytes capture_goid goid ++ rest) count capture_goid
    (expectation envelope count) 24
  = Ok (if capture_goid then Some goid else None, prefix_size capture_goid envelope).
Proof.
  intros Hh Ht Hc Hp Hg Hlen. unfold read_optional_header.
  assert (Henv : match expectation envelope count with
                 | Some expected => check_raw_envelope (h ++ envelope_bytes envelope count payload ++ goid_bytes capture_goid goid ++ rest)
                                      24 count expected
                 | None => Ok 24 end = Ok (24 + lenN (envelope_bytes envelope count payload))).
  { destruct envelope as [spec|]; [|done]. cbn [expectation fmap option_fmap option_map].
    rewrite check_envelope_ok; try done; try lia. rewrite lenN_app. apply Hlen. eauto. }
  rewrite Henv. cbn [res_bind]. destruct capture_goid; [|by destruct envelope].
  rewrite app_assoc. cbn [goid_bytes]. rewrite read_word_at; [|len_lia|done]. by destruct envelope.
Qed.

(** A record of the right size parses to its header and what the variables read. *)
Lemma parse_record p capture_goid envelope vars (ring chunks : list byte) :
  tags_ok envelope -> lenN vars < 2 ^ 16 -> lenN ring = bp_event_size p -> bp_event_size p < 2 ^ 32 ->
  lenN chunks + prefix_size capture_goid envelope = bp_event_size p ->
  parse_ring_buffer_event_with_envelope mr config datetime decode_error_text loop_fuel
    (record_bytes mc p capture_goid envelope (lenN vars) ring chunks) vars capture_goid (expectation envelope (lenN vars))
  = run_try (read_variables mr config datetime decode_error_text loop_fuel
               (record_bytes mc p capture_goid envelope (lenN vars) ring chunks) (ns_pid mc) vars (prefix_size capture_goid envelope))
      (fun values => Ret (Ok (mkPE (host_pid mc) (wrap 32 (mc_pid_tgid mc))
                                (if capture_goid then Some (goid_value mc p) else None) (mc_ktime mc) values))).
Proof using Hmc.
  intros Ht Hc Hr Hsmall Hch. unfold parse_ring_buffer_event_with_envelope, record_bytes.
  assert (Hring : 24 <= lenN ring) by (rewrite Hr; unfold prefix_size in Hch; lia).
  rewrite fixed_header_ok by done. cbn [run_try run_bind].
  assert (Hh : lenN (header_bytes mc ring) = 24) by (unfold header_bytes; lens; rewrite lenN_slice by lia; done).
  pose proof (goid_value_lt p) as Hg.
  rewrite optional_header_ok; try done; try lia.
  intros [spec ->]. unfold prefix_size in Hch. destruct capture_goid; cbn [goid_bytes]; len_lia.
Qed.

(** What the decoder answers for a record: the values at the variables' places. *)
Definition captured_event (p : BpfProgram) (capture_goid : bool) (vars : list ResolvedVariable) : run (result ProbeEvent EbpfError) :=
  run_try (location_values mc config mr datetime decode_error_text loop_fuel (ns_pid mc) place vars)
    (fun values => Ret (Ok (mkPE (host_pid mc) (wrap 32 (mc_pid_tgid mc))
                              (if capture_goid then Some (goid_value mc p) else None) (mc_ktime mc) values))).

Lemma lowering_round_trip profile architecture probe hash plan debug_op capture_goid g_addr_offset goid_offset envelope p (ring : list byte) :
  plan_from lower profile architecture probe hash = Ok plan ->
  generate_bpf_program_from_plan config debug_op plan capture_goid g_addr_offset goid_offset envelope = Ok p ->
  Forall (admits config) (pp_variables probe) -> tags_ok envelope -> lenN ring = bp_event_size p ->
  exists data, run_probe mc p ring = Some data /\
    parse_ring_buffer_event_with_envelope mr config datetime decode_error_text loop_fuel data (pp_variables probe) capture_goid
      (expectation envelope (lenN (pp_variables probe))) = captured_event p capture_goid (pp_variables probe).
Proof using Hlow Hmc Hcfg.
  unfold plan_from. intros Hplan Hgen Ha Ht Hr.
  destruct (lower_variables lower 0 (pp_variables probe)) as [[fields end_]|] eqn:El; [|done]. cbn [res_bind] in Hplan.
  destruct (plan_validate _) as [[]|] eqn:Ev; [|done]. injection Hplan as <-. set (plan := mkPlan _ _ _ _ _ _ _) in *.
  destruct (lowered_words _ _ _ _ El Ha) as [Hw Hn].
  assert (Hsize : bp_event_size p = prefix_size capture_goid envelope + record_size config fields).
  { destruct (generated_parts _ _ _ _ _ _ _ _ Hgen) as (_ & _ & -> & _). by apply plan_event_size_words. }
  pose proof (record_size_bound config plan Ev) as Hb. destruct (pw_count _ (proj1 (plan_validate_ok plan) Ev)) as [_ Hcount].
  cbn [plan_fields plan] in Hb, Hcount. unfold MAX_CAPTURE_FIELDS in Hcount.
  destruct (lowered_chunks _ _ _ _ (drop (N.to_nat (prefix_size capture_goid envelope)) ring) El Ha) as (chunks & Hch & Hread).
  { unfold lenN in *. rewrite length_drop. lia. }
  destruct (plan_program_fills_event _ _ plan _ _ _ _ _ mc ring chunks Hgen Hw Hr Hch) as (Hrun & Hlen & _).
  eexists. split; [exact Hrun|]. cbn [plan_fields plan] in Hlen |- *. rewrite Hn in Hlen |- *.
  assert (Hh := prefix_len mc p ring capture_goid envelope (lenN (pp_variables probe)) (bp_event_size p - 48)).
  set (h := (header_bytes mc ring ++ _)%list) in Hh.
  assert (Hrec : record_bytes mc p capture_goid envelope (lenN (pp_variables probe)) ring chunks = (h ++ chunks)%list)
    by (unfold h, record_bytes; by rewrite <- !app_assoc).
  assert (Hp : 24 <= prefix_size capture_goid envelope < 2 ^ 16) by (by destruct capture_goid, envelope).
  rewrite Hrec, lenN_app, Hh in Hlen by lia.
  rewrite parse_record by (try done; lia).
  unfold captured_event. f_equal. by rewrite Hrec, <- Hh, Hread by lia.
Qed.
End RoundTrip.

(** ** The lowerings of the two compilers *)

Lemma to_le_app n k x : to_le (n + k) x = (to_le n x ++ to_le k (x / 256 ^ N.of_nat n))%list.
Proof.
  revert x. induction n as [|n IH]; intros x; cbn [Nat.add to_le app]; [by rewrite N.div_1_r|].
  f_equal. rewrite IH. do 2 f_equal. rewrite N.Div0.div_div. f_equal.
  replace (N.of_nat (S n)) with (N.succ (N.of_nat n)) by lia. by rewrite N.pow_succ_r'.
Qed.

(** A short value in a word. *)
Lemma word_of_bytes (b : list byte) : lenN b <= 8 -> to_le 8 (of_le b) = (b ++ replicate (N.to_nat (8 - lenN b)) x00)%list.
Proof.
  intros H. unfold lenN in *. replace 8%nat with (length b + N.to_nat (8 - N.of_nat (length b)))%nat by lia.
  rewrite to_le_app, to_of_le, N.div_small by exact (of_le_lt b). by rewrite to_le_zero.
Qed.

Lemma word_of_probe mc addr : to_le 8 (probe_word mc addr) = probe_read mc addr 8.
Proof. unfold probe_word. rewrite word_of_bytes by len_lia. rewrite lenN_probe_read. by rewrite app_nil_r. Qed.

(** Locations a word can be read from, and their operations. *)
Lemma location_op_word mc debug_location l op :
  location_to_read_op debug_location l = Ok op -> op_word mc op = Some (word_bytes mc l).
Proof.
  unfold word_bytes, op_word. destruct l; cbn [location_to_read_op]; try done; intros [= <-]; cbn [op_bytes location_word];
    by rewrite ?word_of_probe.
Qed.

Definition i64_ok (o : Z) : Prop := (i64_min <= o <= i64_max)%Z.
Definition in_memory (l : VariableLocation) : Prop :=
  match l with VStackOffset o | VFrameOffset _ o => i64_ok o | _ => False end.

Lemma shift_zero l : in_memory l -> shift_location l 0 = l.
Proof. destruct l; cbn; try done; unfold i64_ok, i64_saturating_add; intros H; f_equal; lia. Qed.

(** Shifting a location or its operation is the same. *)
Lemma shifted_op_word mc debug_location l op d :
  in_memory l -> location_to_read_op debug_location l = Ok op -> op_word mc (shift_plan_op op d) = Some (word_bytes mc (shift_location l d)).
Proof.
  intros Hl Ho. apply (location_op_word mc debug_location). destruct l; try contradiction; injection Ho as <-; done.
Qed.

Definition pieces_size (pieces : list (VariablePieceOf VariableLocation)) : N :=
  fold_right (fun piece n => vp_byte_size _ piece + n) 0 pieces.
Definition memory_piece (piece : VariablePieceOf VariableLocation) : Prop :=
  match vp_location _ piece with Some (VStackOffset _) | Some (VFrameOffset _ _) | None => True | _ => False end.

Lemma lenN_pieces_bytes mc pieces : Forall memory_piece pieces -> lenN (pieces_bytes mc pieces) = pieces_size pieces.
Proof.
  unfold pieces_bytes. induction 1 as [|piece pieces Hp _ IH]; [done|]. cbn. rewrite lenN_app, IH. f_equal.
  unfold piece_bytes, memory_piece in *. destruct (vp_location _ piece) as [[]|]; try contradiction; len_lia.
Qed.

Lemma place_lowered mc debug_location capture pieces cursor lowered (filled blank : list byte) :
  lower_pieces debug_location cursor pieces = Ok lowered -> Forall memory_piece pieces ->
  lenN filled = cursor -> lenN filled + lenN blank = capture -> pieces_size pieces <= lenN blank ->
  blank = replicate (N.to_nat (lenN blank)) x00 -> capture < 2 ^ 64 ->
  place_pieces mc capture lowered (filled ++ blank)
  = Some (filled ++ pieces_bytes mc pieces ++ replicate (N.to_nat (lenN blank - pieces_size pieces)) x00)%list.
Proof.
  revert cursor lowered filled blank. induction pieces as [|piece pieces IH]; intros cursor lowered filled blank Hl Hm Hf Hc Hsz Hb Hcap; cbn in Hl.
  { injection Hl as <-. cbn. rewrite N.sub_0_r. do 2 f_equal. exact Hb. }
  inversion_clear Hm as [|? ? Hp Hm']. set (n := vp_byte_size _ piece) in *. cbn [pieces_size fold_right] in Hsz |- *. fold n in Hsz |- *. fold (pieces_size pieces) in Hsz |- *.
  destruct (opt_try _ _) as [op|] eqn:Eop; [|done]. cbn [res_bind] in Hl.
  destruct (lower_pieces debug_location _ pieces) as [rest|] eqn:Er; [|done]. injection Hl as <-.
  assert (Esat : u64_saturating_add cursor n = cursor + n) by (unfold u64_saturating_add; lia). rewrite Esat in Er.
  assert (Hbytes : lenN (piece_bytes mc piece) = n).
  { unfold piece_bytes, memory_piece in *. destruct (vp_location _ piece) as [[]|]; try contradiction; len_lia. }
  assert (Hsplit : blank = (replicate (N.to_nat n) x00 ++ replicate (N.to_nat (lenN blank - n)) x00)%list).
  { rewrite Hb at 1. rewrite <- replicate_add. f_equal. lia. }
  assert (Hnext : place_pieces mc capture rest ((filled ++ piece_bytes mc piece) ++ replicate (N.to_nat (lenN blank - n)) x00)
    = Some ((filled ++ piece_bytes mc piece) ++ pieces_bytes mc pieces ++ replicate (N.to_nat (lenN blank - (n + pieces_size pieces))) x00)%list).
  { rewrite (IH _ _ _ _ Er Hm'); [do 5 f_equal|..]; rewrite ?lenN_replicate; try len_lia; done. }
  cbn [place_pieces cp_offset cp_op cp_size]. unfold pieces_bytes at 1. cbn [map concat]. fold (pieces_bytes mc pieces).
  rewrite <- !app_assoc. rewrite <- !app_assoc in Hnext. rewrite <- Hnext. clear Hnext IH.
  destruct (N.leb_spec capture cursor) as [Hle|Hgt].
  { assert (n = 0) as Hn0 by lia.
    assert (piece_bytes mc piece = []) as -> by (destruct (piece_bytes mc piece); [done|rewrite lenN_cons in Hbytes; lia]).
    rewrite Hsplit at 1. by rewrite Hn0. }
  rewrite N.min_l by lia. unfold piece_bytes, memory_piece in *.
  destruct (vp_location _ piece) as [l|].
  2:{ injection Eop as <-. f_equal. f_equal. exact Hsplit. }
  cbn [opt_try] in Eop. destruct l; try contradiction; injection Eop as <-; cbn [op_bytes mbind option_bind]; f_equal; fold n.
  all: rewrite Hsplit at 1; rewrite <- Hf; apply write_at_exact; len_lia.
Qed.

(** *** What both lowerings capture completely *)

(** A value stored inline takes whole words; its pieces are in memory. *)
Definition inline_ok (config : CaptureConfig) (l : VariableLocation) : Prop :=
  match l with
  | VStackBlob _ n => blob_capture config n mod 8 = 0
  | VPiecewiseBlob pieces n =>
      blob_capture config n mod 8 = 0 /\ Forall memory_piece pieces /\ pieces_size pieces <= blob_capture config n /\ n < 2 ^ 64
  | _ => True
  end.

Lemma piecewise_chunk mc config debug_location name off old pieces n lowered :
  lower_pieces debug_location 0 pieces = Ok lowered -> inline_ok config (VPiecewiseBlob pieces n) ->
  field_chunk mc config old (mkField name off n (RPiecewise lowered)) = Some (old ++ split_bytes mc pieces (blob_capture config n))%list.
Proof.
  intros Hl (_ & Hm & Hs & Hn). unfold field_chunk. cbn [cf_op cf_size].
  set (capture := blob_capture config n) in *.
  pose proof (place_lowered mc debug_location capture pieces 0 lowered [] (replicate (N.to_nat capture) x00)) as E.
  rewrite lenN_replicate in E. cbn [app] in E. rewrite E; try done; [|unfold capture, blob_capture; lia].
  cbn [mbind option_bind app]. do 2 f_equal. unfold split_bytes.
  pose proof (lenN_pieces_bytes mc pieces Hm) as Hlen. unfold lenN in Hlen.
  rewrite take_app_ge by lia. f_equal. rewrite take_replicate. f_equal. lia.
Qed.

Lemma scalar_chunk mc addr size : size <= 8 ->
  Some (probe_read mc addr size ++ replicate (N.to_nat (8 - size)) x00)%list = Some (to_le 8 (of_le (probe_read mc addr size))).
Proof. intros H. rewrite word_of_bytes by len_lia. by rewrite lenN_probe_read. Qed.

(** *** Go *)

(** The parts of a string or slice follow each other in memory. *)
Definition go_admits (config : CaptureConfig) (v : ResolvedVariable) : Prop :=
  inline_ok config (rv_location v) /\
  match rv_location v with
  | VGoString ptr len | VStringHeader ptr len => in_memory ptr /\ len = shift_location ptr 8
  | VGoSlice ptr len cap | VSliceHeader ptr len cap => in_memory ptr /\ len = shift_location ptr 8 /\ cap = shift_location ptr 16
  | _ => True
  end.

Lemma header_chunk_text mc config (a b : ReadOp) la lb :
  op_word mc a = Some (word_bytes mc la) -> op_word mc b = Some (word_bytes mc lb) ->
  header_chunk mc config true a b None = Some (word_bytes mc la ++ word_bytes mc lb ++ location_text mc config la lb)%list.
Proof. intros Ha Hb. unfold header_chunk. by rewrite Ha, Hb. Qed.

Lemma header_chunk_slice mc config (a b c : ReadOp) la lb lc :
  op_word mc a = Some (word_bytes mc la) -> op_word mc b = Some (word_bytes mc lb) -> op_word mc c = Some (word_bytes mc lc) ->
  header_chunk mc config false a b (Some c) = Some (word_bytes mc la ++ word_bytes mc lb ++ word_bytes mc lc)%list.
Proof. intros Ha Hb Hc. unfold header_chunk. by rewrite Ha, Hb, Hc. Qed.

(** Sizes of the record parts are whole words. *)
Lemma header_words config name off size base n kind : config_ok config ->
  whole_words config (mkField name off size (RHeader base n kind)).
Proof.
  intros Hc. unfold whole_words, plan_extra_size. cbn [cf_op]. destruct (text_kind kind); [|done].
  rewrite text_capture by done. rewrite N.add_comm. apply mod8_add, (co_string8 _ Hc).
Qed.

Lemma scalar_words config name off size op : size <= 8 ->
  match op with RRegister _ _ | RStack _ _ _ | RFrame _ _ _ _ | RIndirect _ _ | RMap _ => True | _ => False end ->
  whole_words config (mkField name off size op).
Proof.
  intros Hs Ho. unfold whole_words, plan_extra_size. cbn [cf_op cf_size].
  destruct op; try contradiction; rewrite ?(proj2 (N.ltb_ge 8 size)) by lia; done.
Qed.

#[export] Instance go_lowers debug_location : Lowers (go_lower debug_location) rv_location go_admits.
Proof.
  constructor; [done| |].
  - intros config v size op mc name off old Hl [Hin Hadm] Hmc. unfold go_lower in Hl.
    pose proof (size_bytes_le (rv_size v)) as Hsz.
    destruct (rv_location v) as [r|o|r o|ptr len|ptr len|ptr len cap|ptr len cap|o n|pieces n|o n|ptr]; cbn [location_chunk].
    1-3: injection Hl as <- <-; unfold field_chunk; cbn [cf_op cf_size]; rewrite !(proj2 (N.leb_le _ 8)) by done;
      try apply scalar_chunk; done.
    1-4: destruct (location_to_read_op debug_location ptr) as [op'|] eqn:Eop; [|done]; injection Hl as <- <-;
      unfold field_chunk; cbn [cf_op header_deltas text_kind fmap option_fmap option_map].
    1-2: destruct Hadm as [Hm ->]; apply header_chunk_text; [rewrite <- (shift_zero ptr Hm)|]; by apply (shifted_op_word mc debug_location).
    1-2: destruct Hadm as (Hm & -> & ->); apply header_chunk_slice; [rewrite <- (shift_zero ptr Hm)|..]; by apply (shifted_op_word mc debug_location).
    + injection Hl as <- <-. done.
    + destruct (lower_pieces debug_location 0 pieces) as [lowered|] eqn:Ep; [|done]. injection Hl as <- <-. by apply (piecewise_chunk mc config debug_location).
    + injection Hl as <- <-. unfold field_chunk. cbn [cf_op cf_size]. unfold word_bytes. cbn [location_word].
      by rewrite word_of_probe.
    + destruct (location_to_read_op debug_location ptr) as [op'|] eqn:Eop; [|done]. injection Hl as <- <-.
      by apply (location_op_word mc debug_location).
  - intros config v size op name off Hl [Hin Hadm] Hc. unfold go_lower in Hl.
    pose proof (size_bytes_le (rv_size v)) as Hsz.
    destruct (rv_location v) as [r|o|r o|ptr len|ptr len|ptr len cap|ptr len cap|o n|pieces n|o n|ptr].
    1-3: injection Hl as <- <-; by apply scalar_words.
    1-4: destruct (location_to_read_op debug_location ptr) as [op'|] eqn:Eop; [|done]; injection Hl as <- <-; by apply header_words.
    + by injection Hl as <- <-.
    + destruct (lower_pieces debug_location 0 pieces) as [lowered|] eqn:Ep; [|done]. injection Hl as <- <-. apply Hin.
    + by injection Hl as <- <-.
    + destruct (location_to_read_op debug_location ptr) as [op'|] eqn:Eop; [|done]. by injection Hl as <- <-.
Qed.

(** *** Rust *)

(** Where the value of a Rust variable is.  Its location says it, with one
    convention of the DWARF parser ([upgrade_location_for_type]): the location
    given for the pointer of an owned [String] is that of the first of its three
    words, which are its capacity, its pointer and its length. *)
Definition owned_string (name : string) : bool :=
  String.eqb name "String" || String.eqb name "alloc::string::String" || String.eqb name "std::string::String".
Definition rust_place (v : ResolvedVariable) : VariableLocation :=
  match rv_location v with
  | VStringHeader base len => if owned_string (rv_type_name v) then VStringHeader (shift_location base 8) (shift_location base 16) else VStringHeader base len
  | l => l
  end.

(** Where the compiler takes the words of a header from: it looks at the type's
    name and at the location of the first word only. *)
Definition assumed_location (v : ResolvedVariable) : VariableLocation :=
  match header_kind v, header_ptr (rv_location v) with
  | Some kind, Some ptr => header_location ptr kind
  | _, _ => rv_location v
  end.
(** A header is in memory, and where the compiler assumes it to be. *)
Definition rust_admits (config : CaptureConfig) (v : ResolvedVariable) : Prop :=
  inline_ok config (rv_location v) /\ (forall ptr, header_ptr (rv_location v) = Some ptr -> in_memory ptr) /\ assumed_location v = rust_place v.

Lemma rust_header_chunk mc config debug_location ptr size kind op v old name off n :
  rust_header_op debug_location ptr size kind = Ok op -> in_memory ptr ->
  field_chunk mc config old (mkField name off n op) = Some (location_chunk mc config old v (header_location ptr kind)).
Proof.
  intros Ho Hm. unfold rust_header_op in Ho.
  assert (Hex : forall d, exists o, location_to_read_op debug_location (shift_location ptr d) = Ok o) by (intros d; destruct ptr; try contradiction; eexists; reflexivity).
  assert (Hs : forall o e, location_to_read_op debug_location (header_base_location ptr kind) = Ok o -> kind <> HRustString ->
            op_word mc (shift_plan_op o e) = Some (word_bytes mc (shift_location ptr e))).
  { intros o e Eo Hk. apply (shifted_op_word mc debug_location); [done|]. rewrite <- Eo. f_equal. unfold header_base_location.
    destruct kind; try done; by rewrite shift_zero. }
  destruct (location_to_read_op debug_location (header_base_location ptr kind)) as [base|] eqn:Eb; [|done]. cbn [res_bind] in Ho.
  specialize (Hs base).
  assert (Hk : kind = HRustString \/ kind <> HRustString) by (destruct kind; auto). destruct Hk as [-> | Hk].
  - destruct (Hex 8%Z) as [p8 E8], (Hex 16%Z) as [p16 E16]. rewrite E8 in Ho. cbn in Ho. rewrite E16 in Ho. injection Ho as <-.
    unfold field_chunk. cbn [cf_op text_kind header_location location_chunk].
    apply header_chunk_text; by apply (location_op_word mc debug_location).
  - assert (op = RHeader base size kind) as -> by (destruct kind; try done; by injection Ho as <-).
    unfold field_chunk. cbn [cf_op].
    assert (H0 : op_word mc (shift_plan_op base 0) = Some (word_bytes mc ptr)) by (rewrite Hs by done; by rewrite shift_zero).
    destruct kind; try done; cbn [header_deltas text_kind header_location location_chunk fmap option_fmap option_map];
      (apply header_chunk_text || apply header_chunk_slice); first [exact H0 | by apply Hs].
Qed.

#[export] Instance rust_lowers debug_location : Lowers (rust_lower debug_location) rust_place rust_admits.
Proof.
  constructor.
  - intros v. unfold rust_place. destruct (rv_location v); try done. by destruct (owned_string _).
  - intros config v size op mc name off old Hl (Hin & Hadm & <-) Hmc. unfold rust_lower in Hl. unfold assumed_location.
    destruct (_ || _) eqn:Eg in Hl; [done|]. pose proof (size_bytes_le (rv_size v)) as Hsz.
    destruct (header_kind v) as [kind|] eqn:Ek; [destruct (header_ptr (rv_location v)) as [ptr|] eqn:Ep|].
    + destruct (rust_header_op debug_location ptr _ kind) as [op'|] eqn:Eo; [|done]. injection Hl as <- <-.
      eapply rust_header_chunk; [exact Eo|by apply Hadm].
    + unfold header_kind in Ek. destruct (rv_location v); done.
    + unfold rust_size in Hl. destruct (rv_location v) as [r|o|r o|ptr len|ptr len|ptr len cap|ptr len cap|o n|pieces n|o n|ptr] eqn:El; try discriminate Hl;
        cbn [location_chunk].
      1-3: injection Hl as <- <-; unfold field_chunk; cbn [cf_op cf_size]; rewrite !(proj2 (N.leb_le _ 8)) by done;
        try apply scalar_chunk; done.
      * by injection Hl as <- <-.
      * destruct (lower_pieces debug_location 0 pieces) as [lowered|] eqn:Elp; [|done]. injection Hl as <- <-.
        by apply (piecewise_chunk mc config debug_location).
  - intros config v size op name off Hl (Hin & Hadm & _) Hc. unfold rust_lower in Hl.
    destruct (_ || _) eqn:Eg in Hl; [done|]. pose proof (size_bytes_le (rv_size v)) as Hsz.
    destruct (header_kind v) as [kind|] eqn:Ek; [destruct (header_ptr (rv_location v)) as [ptr|] eqn:Ep|].
    + destruct (rust_header_op debug_location ptr _ kind) as [op'|] eqn:Eo; [|done]. injection Hl as <- <-.
      unfold rust_header_op in Eo. destruct (location_to_read_op _ _) as [base|]; [|done]. cbn in Eo.
      destruct kind; try (injection Eo as <-; by apply header_words).
      destruct (location_to_read_op _ _) as [p8|]; [|done]. cbn in Eo. destruct (location_to_read_op _ _) as [p16|]; [|done].
      injection Eo as <-. exact (header_words config name off (rust_size v) base 0 HRustString Hc).
    + unfold header_kind in Ek. destruct (rv_location v); done.
    + unfold rust_size in Hl. destruct (rv_location v) as [r|o|r o|ptr len|ptr len|ptr len cap|ptr len cap|o n|pieces n|o n|ptr] eqn:El; try discriminate Hl.
      1-3: injection Hl as <- <-; by apply scalar_words.
      * by injection Hl as <- <-.
      * destruct (lower_pieces debug_location 0 pieces) as [lowered|] eqn:Elp; [|done]. injection Hl as <- <-. apply Hin.
Qed.

(** ** The two routes *)

Lemma fold_xor_lt w prime l h : h < 2 ^ w -> 8 <= w ->
  fold_left (fun hash b => N.lxor (wrap w (hash * prime)) (N_of_byte b)) l h < 2 ^ w.
Proof.
  intros Hh Hw. revert h Hh. induction l as [|b l IH]; intros h Hh; cbn; [done|]. apply IH.
  assert (Hx : forall x, x < 2 ^ w -> N.shiftr x w = 0) by (intros x Hx; rewrite N.shiftr_div_pow2; by apply N.div_small).
  assert (E : N.shiftr (N.lxor (wrap w (h * prime)) (N_of_byte b)) w = 0).
  { rewrite N.shiftr_lxor, !Hx; [done| |apply wrap_lt]. eapply N.lt_le_trans; [apply N_of_byte_lt|].
    change 256 with (2 ^ 8). by apply N.pow_le_mono_r. }
  rewrite N.shiftr_div_pow2 in E. apply N.div_small_iff in E; [done|]. apply N.pow_nonzero. done.
Qed.
Lemma profile_tag_lt s : profile_tag s < 2 ^ 32.
Proof. apply (fold_xor_lt 32); done. Qed.
Lemma plan_tag_lt s : plan_tag s < 2 ^ 64.
Proof. apply (fold_xor_lt 64); done. Qed.

(** C26: for the Go variables that a record can carry, the compiler, the generated
    program and the decoder agree.  Take a Go probe that is lowered to a plan, for
    which a program is generated, all of whose variables are admitted: a string or
    slice has its header in memory, its words 8 bytes apart and in order (not in
    registers); a value copied inline is captured in a whole number of words; a
    value in pieces has no piece in a register and fits into what is captured of
    it.  Then a hit submits a record, and the decoder answers for it, value by
    value and error by error, what it would answer for the words and bytes that
    the stopped thread's registers and memory hold at the variables' resolved
    locations (memory that cannot be read counting as zero), with the process,
    thread, time and goroutine of the hit.  How bytes are shown as values (types,
    texts, maps, structs) is the decoder's own reading on both sides and not
    judged here.  The variables left out are captured wrongly or shift those after
    them (see the findings on the compiler and the program). *)
Theorem go_capture_round_trip debug_location debug_op compiler probe hash plan envelope p mc mr datetime decode_error_text loop_fuel
    (ring : list byte) :
  go_plan_from_probe debug_location probe hash = Ok plan -> go_program debug_op compiler plan envelope = Ok p ->
  config_ok (gc_config compiler) -> machine_ok mc -> Forall (go_admits (gc_config compiler)) (pp_variables probe) ->
  tags_ok envelope -> lenN ring = bp_event_size p ->
  exists data, run_probe mc p ring = Some data /\
    parse_ring_buffer_event_with_envelope mr (gc_config compiler) datetime decode_error_text loop_fuel data (pp_variables probe)
      (gc_capture_goid compiler) (expectation envelope (lenN (pp_variables probe)))
    = captured_event rv_location mc (gc_config compiler) mr datetime decode_error_text loop_fuel p (gc_capture_goid compiler) (pp_variables probe).
Proof.
  intros Hplan Hprog Hcfg Hmc Ha Ht Hr. unfold go_program in Hprog.
  destruct (check_profile "go" plan); [|done]. cbn [res_bind] in Hprog.
  destruct (generate_bpf_program_from_plan _ _ plan _ _ _ envelope) as [p'|] eqn:Eg; [|done]. injection Hprog as <-.
  by apply (lowering_round_trip (go_lower debug_location) rv_location go_admits _ mc _ Hmc Hcfg mr datetime decode_error_text loop_fuel
              "go" (infer_architecture (pp_variables probe)) probe hash plan debug_op (gc_capture_goid compiler)
              (gc_g_addr_offset compiler) (gc_goid_offset compiler) envelope p' ring).
Qed.

(** C27: for the Rust variables that a record can carry, the compiler, the generated
    program and the decoder agree.  Take a Rust probe that is lowered to a plan,
    for which a program with the tags of the plan in its envelope is generated,
    all of whose variables are admitted: a text or slice has its header in memory,
    with its words at the distances that the compiler derives from the type's
    name (a variable in memory has such a location from the DWARF parser,
    [DwarfLocate.upgraded_rust_locations_captured]); a value copied inline is
    captured in a whole number of words; a value in pieces has no piece in a
    register and fits into what is captured of it.  Then a hit submits a record
    that passes the check of its envelope, and the decoder answers for it, value
    by value and error by error, what it would answer for the words and bytes that
    the stopped thread's registers and memory hold where the variables are: at the
    resolved location or, for an owned [String], whose location is that of its
    first word, with the pointer 8 and the length 16 bytes after it.  The answer has the process,
    thread and time of the hit.  How bytes are shown as values is the decoder's own
    reading on both sides and not judged here. *)
Theorem rust_capture_round_trip debug_location debug_op compiler probe hash plan p mc mr datetime decode_error_text loop_fuel (ring : list byte) :
  rust_plan_from_probe debug_location probe hash = Ok plan -> compile_plan_to_program debug_op compiler plan = Ok p ->
  config_ok (rc_config compiler) -> machine_ok mc -> Forall (rust_admits (rc_config compiler)) (pp_variables probe) ->
  lenN ring = bp_event_size p ->
  exists data, run_probe mc p ring = Some data /\
    parse_ring_buffer_event_with_envelope mr (rc_config compiler) datetime decode_error_text loop_fuel data (pp_variables probe) false
      (Some (mkExpectation (profile_tag "rust") (plan_tag hash) (lenN (pp_variables probe))))
    = captured_event rust_place mc (rc_config compiler) mr datetime decode_error_text loop_fuel p false (pp_variables probe).
Proof.
  intros Hplan Hprog Hcfg Hmc Ha Hr. unfold compile_plan_to_program, compile_scalar_variables in Hprog.
  destruct (check_profile "rust" plan); [|done]. cbn [res_bind] in Hprog.
  destruct (generate_bpf_program_from_plan _ _ plan _ _ _ _) as [p'|] eqn:Eg; [|done]. injection Hprog as <-.
  assert (Hh : plan_hash plan = hash).
  { unfold rust_plan_from_probe, plan_from in Hplan. destruct (lower_variables _ _ _) as [[fs e]|]; [|done]. cbn [res_bind] in Hplan.
    destruct (plan_validate _); [|done]. by injection Hplan as <-. }
  destruct (lowering_round_trip (rust_lower debug_location) rust_place rust_admits _ mc _ Hmc Hcfg mr datetime decode_error_text loop_fuel
              "rust" (infer_architecture (pp_variables probe)) probe hash plan debug_op false None None
              (Some (rust_envelope plan)) p' ring) as (data & Hrun & Hparse); try done.
  - split; [apply profile_tag_lt|apply plan_tag_lt].
  - exists data. split; [done|]. unfold expectation, rust_envelope in Hparse. cbn in Hparse. by rewrite Hh in Hparse.
Qed.
