(* ===== verification/CaptureOutcomes.v ===== *)
(** * Captures that work and captures that do not

    Consequences of [CaptureRoundTrip] (captured text is the text), and the captures
    its conditions leave out: values whose size is not a whole number of words,
    Go strings in registers, values split over registers, and strings that could
    not be read. *)

From Stdlib Require Import Strings.String Strings.Ascii Init.Byte.
From S2P Require Import Prelude RustStr RustText Dwarf CapturePlan Decode TypeInfo MemReader Policy ProbeValue MapReader MapImage StructReader ProbeProgram BpfMachine ProbeRecord RingEvent ProbeCompiler CaptureRoundTrip.

Local Open Scope N_scope.

(** ** Text *)

Lemma land_255 n : n <= 255 -> N.land n 255 = n.
Proof. intros H. change 255 with (N.ones 8). rewrite N.land_ones. apply N.mod_small. lia. Qed.

(** What the probe reads into the text buffer starts with the text. *)
Lemma text_bytes_read mc config ptr len (bytes : list byte) :
  config_ok config -> 0 < len <= cc_max_string_capture config -> ptr <> 0 -> ptr < 2 ^ 64 ->
  img_read (mc_image mc) ptr len = Some bytes ->
  take (N.to_nat len) (text_bytes mc config (to_le 8 ptr) (to_le 8 len)) = bytes.
Proof.
  intros Hc Hl Hp Hp64 Hr. destruct (co_string _ Hc) as [_ Hmax]. pose proof (text_capture config Hc) as Hcap.
  unfold text_bytes. rewrite !of_to_le8 by lia. rewrite wrap_small, land_255 by lia.
  rewrite (proj2 (N.eqb_neq ptr 0)) by done. rewrite (proj2 (N.ltb_lt 0 len)), (proj2 (N.leb_le _ _)) by lia. cbn [negb andb].
  assert (probe_read mc ptr len = bytes) as -> by (unfold probe_read; by rewrite Hr).
  apply img_read_len in Hr. unfold write_at. change (N.to_nat 0) with 0%nat. rewrite take_0. cbn [app]. unfold lenN in Hr.
  rewrite take_app_le by lia. by rewrite firstn_all2 by lia.
Qed.

(** A string of at most the configured length, mapped at a user address, is
    captured as its bytes. *)
Theorem captured_text mc config mr datetime decode_error_text loop_fuel ns_pid v ptr len (bytes : list byte) :
  config_ok config -> let p := location_word mc ptr in let n := location_word mc len in
  0 < n <= cc_max_string_capture config -> 4096 <= p < 2 ^ 56 ->
  img_read (mc_image mc) p n = Some bytes -> some_nonzero bytes = true ->
  location_value mc config mr datetime decode_error_text loop_fuel ns_pid v (VGoString ptr len) = Ret (Ok (CString bytes n)).
Proof.
  intros Hc p n Hn Hp Hr Hz. cbn [location_value]. fold p n. do 2 f_equal. unfold string_value.
  rewrite (proj2 (N.ltb_ge _ _)) by lia.
  assert (canonicalize_user_pointer p = p) as ->.
  { unfold canonicalize_user_pointer. change (2 ^ 56 - 1) with (N.ones 56). rewrite N.land_ones. apply N.mod_small. lia. }
  rewrite (proj2 (N.eqb_neq p 0)), (proj2 (N.ltb_ge p 4096)), (proj2 (N.leb_gt _ _)) by lia.
  unfold location_text. fold p n.
  rewrite (text_bytes_read mc config p n bytes) by (done || lia).
  rewrite lenN_text_bytes, text_capture by done. rewrite (proj2 (N.leb_le n _)) by lia. by rewrite Hz.
Qed.

(** ** A sample probe *)

Definition stack_machine (img : image) : machine :=
  mkMachine X86_64 (fun r => match r with Rsp => 65536 | Rax => 8192 | Rbx => 3 | _ => 0 end) img 0 (7 * 2 ^ 32 + 9) 1000 None.

Lemma stack_machine_ok img : machine_ok (stack_machine img).
Proof. split; cbn; try done. intros []; done. Qed.

Definition no_reader : MemReader := mkReader (fun _ _ _ => Err (EEbpf "unused")) (fun _ _ _ => Err (EEbpf "unused")) (fun _ _ => Err (EEbpf "unused")).
Definition int_variable (name : string) (l : VariableLocation) : ResolvedVariable := mkRV name l SQWord "int" None.

(** [name] is a string header at the stack pointer, [n] a register, [pair] sixteen
    bytes on the stack. *)
Definition sample_point : ProbePoint := mkPP "/bin/app" 4198400 0 "main.run"
  [mkRV "name" (VGoString (VStackOffset 0) (VStackOffset 8)) SQWord "string" None;
   int_variable "n" (VRegister Rbx);
   mkRV "pair" (VStackBlob 16 16) SQWord "main.Pair" None].
Definition sample_image : image := image_of [(65536, words [8192; 3; 5; 6]); (8192, [x61; x62; x63])].
Definition sample_compiler : GoBpfCompiler := mkGo default_config false None None.
Definition no_debug {A : Type} (_ : A) : string := EmptyString.
Definition or_else {A E : Type} (r : result A E) (a : A) : A := match r with Ok x => x | Err _ => a end.
Definition empty_plan : CapturePlan := mkPlan 0 X86_64 EmptyString EmptyString 0 [] 0.
Definition empty_program : BpfProgram := mkProgram [] [] 0 0 false None None false.
Definition sample_envelope : option RawEnvelopeSpec := Some (mkSpec (profile_tag "go") (plan_tag "probe:401000")).
Definition sample_plan : CapturePlan := Eval vm_compute in or_else (go_plan_from_probe no_debug sample_point "probe:401000") empty_plan.
Definition sample_program : BpfProgram := Eval vm_compute in or_else (go_program no_debug sample_compiler sample_plan sample_envelope) empty_program.
Definition ring_of (p : BpfProgram) : list byte := replicate (N.to_nat (bp_event_size p)) xff.

Lemma default_config_ok : config_ok default_config.
Proof. apply config_validate_ok. reflexivity. Qed.

Definition parse_default (data : list byte) (vars : list ResolvedVariable) (envelope : option RawEnvelopeSpec) :=
  parse_ring_buffer_event_with_envelope no_reader default_config (fun _ => None) no_debug 0 data vars false (expectation envelope (lenN vars)).

Lemma go_capture_round_trip_witness :
  exists data, run_probe (stack_machine sample_image) sample_program (ring_of sample_program) = Some data /\
    parse_default data (pp_variables sample_point) sample_envelope
    = Ret (Ok (mkPE 7 9 None 1000 [CString [x61; x62; x63] 3; CScalar 3; CBytes (words [5; 6])])).
Proof.
  destruct (go_capture_round_trip no_debug no_debug sample_compiler sample_point "probe:401000" sample_plan sample_envelope sample_program
              (stack_machine sample_image) no_reader (fun _ => None) no_debug 0 (ring_of sample_program)) as (data & Hrun & Hparse).
  - vm_compute. reflexivity.
  - vm_compute. reflexivity.
  - apply default_config_ok.
  - apply stack_machine_ok.
  - repeat constructor; vm_compute; intros; discriminate.
  - split; vm_compute; reflexivity.
  - vm_compute. reflexivity.
  - exists data. split; [exact Hrun|]. unfold parse_default. etransitivity; [exact Hparse|]. vm_compute. reflexivity.
Defined.

Lemma captured_text_witness :
  location_value (stack_machine sample_image) default_config no_reader (fun _ => None) no_debug 0 7 (int_variable "name" (VStackOffset 0))
    (VGoString (VStackOffset 0) (VStackOffset 8)) = Ret (Ok (CString [x61; x62; x63] 3)).
Proof.
  apply (captured_text (stack_machine sample_image) default_config no_reader (fun _ => None) no_debug 0 7 (int_variable "name" (VStackOffset 0))
           (VStackOffset 0) (VStackOffset 8) [x61; x62; x63] default_config_ok).
  - split; vm_compute; [reflexivity|intros; discriminate].
  - split; vm_compute; [intros; discriminate|reflexivity].
  - vm_compute. reflexivity.
  - vm_compute. reflexivity.
Defined.

(** A Rust probe: a [String] behind its compact header and a pair of which one half
    is optimised away. *)
Definition rust_point : ProbePoint := mkPP "/bin/app" 4198400 0 "app::run"
  [mkRV "name" (VStringHeader (VStackOffset 0) (VStackOffset 16)) SQWord "alloc::string::String" None;
   mkRV "pair" (VPiecewiseBlob [mkVP _ (Some (VStackOffset 24)) 8; mkVP _ None 8] 16) SQWord "app::Pair" None].
Definition rust_image : image := image_of [(65536, words [16; 8192; 3; 6]); (8192, [x61; x62; x63])].
Definition rust_sample_plan : CapturePlan := Eval vm_compute in or_else (rust_plan_from_probe no_debug rust_point "probe:401000") empty_plan.
Definition rust_sample_program : BpfProgram :=
  Eval vm_compute in or_else (compile_plan_to_program no_debug default_rust_compiler rust_sample_plan) empty_program.

Lemma rust_capture_round_trip_witness :
  exists data, run_probe (stack_machine rust_image) rust_sample_program (ring_of rust_sample_program) = Some data /\
    parse_ring_buffer_event_with_envelope no_reader default_config (fun _ => None) no_debug 0 data (pp_variables rust_point) false
      (Some (mkExpectation (profile_tag "rust") (plan_tag "probe:401000") 2))
    = Ret (Ok (mkPE 7 9 None 1000 [CString [x61; x62; x63] 3; CBytes (words [6; 0])])).
Proof.
  destruct (rust_capture_round_trip no_debug no_debug default_rust_compiler rust_point "probe:401000" rust_sample_plan rust_sample_program
              (stack_machine rust_image) no_reader (fun _ => None) no_debug 0 (ring_of rust_sample_program)) as (data & Hrun & Hparse).
  - vm_compute. reflexivity.
  - vm_compute. reflexivity.
  - apply default_config_ok.
  - apply stack_machine_ok.
  - constructor; [|constructor; [|constructor]].
    + split; [exact I|]. split; [|vm_compute; reflexivity]. intros ptr [= <-]. split; vm_compute; intros; discriminate.
    + split; [|split; [intros ptr; discriminate|reflexivity]]. split; [reflexivity|]. split; [repeat constructor|].
      split; [vm_compute; discriminate|reflexivity].
  - vm_compute. reflexivity.
  - exists data. split; [exact Hrun|]. etransitivity; [exact Hparse|]. vm_compute. reflexivity.
Defined.

(** ** Values that are not whole words *)

(** A struct of three 32-bit integers, then a counter that holds 7. *)
Definition odd_fields : list ResolvedVariable :=
  [mkRV "point" (VStackBlob 0 12) SQWord "main.Point" None; int_variable "count" (VStackOffset 16)].
Definition odd_program (vars : list ResolvedVariable) : result BpfProgram CompileError :=
  let? plan := go_plan_from_probe no_debug (mkPP "/bin/app" 4198400 0 "main.run" vars) "probe:401000" in
  go_program no_debug sample_compiler plan None.
Definition odd_image : image := image_of [(65536, words [1; 2; 7; 0])].

(** The compiler aligns the counter after the twelve bytes, the decoder does not:
    it joins the padding, which holds what an earlier record left there, to the low
    half of the counter.  The counter 7 is reported as 2^32 * 7 and more. *)
Theorem unaligned_capture_shifts_values (garbage : byte) :
  exists p data, odd_program odd_fields = Ok p /\
    run_probe (stack_machine odd_image) p (replicate (N.to_nat (bp_event_size p)) garbage) = Some data /\
    parse_default data odd_fields None
    = Ret (Ok (mkPE 7 9 None 1000 [CBytes (to_le 8 1 ++ to_le 4 2);
                                   CScalar (of_le [garbage; garbage; garbage; garbage] + 7 * 2 ^ 32)])).
Proof.
  eexists _, _. split; [vm_compute; reflexivity|]. split; [vm_compute; reflexivity|].
  destruct garbage; vm_compute; reflexivity.
Qed.

(** With two such structs the last one is written past the end of the reserved
    record, which the verifier refuses: the probe cannot be installed at all. *)
Theorem unaligned_captures_rejected (ring : list byte) :
  exists p, odd_program [mkRV "a" (VStackBlob 0 12) SQWord "main.Point" None; mkRV "b" (VStackBlob 16 12) SQWord "main.Point" None] = Ok p /\
    sizeof_event p = 72 /\ bp_event_size p = 64 /\
    (lenN ring = bp_event_size p -> run_probe (stack_machine odd_image) p ring = None).
Proof.
  eexists. split; [vm_compute; reflexivity|]. split; [vm_compute; reflexivity|]. split; [reflexivity|].
  unfold lenN. cbn [bp_event_size]. intros H. assert (Hl : length ring = 64%nat) by lia. clear H. explode ring Hl. vm_compute. reflexivity.
Qed.

(** ** Strings in registers *)

(** A Go string passed in registers (the Go calling convention since 1.17) is always
    captured as the empty string: the plan keeps only the pointer's register and
    reads the length from it too, and a pointer is larger than any captured length. *)
Theorem register_string_is_empty debug_location mc config mr datetime decode_error_text loop_fuel name ns_pid r1 r2
    (pre old post : list byte) :
  machine_ok mc -> config_ok config -> 4096 <= mc_regs mc r1 ->
  let v := mkRV name (VGoString (VRegister r1) (VRegister r2)) SQWord "string" None in
  exists size op chunk, go_lower debug_location v = Ok (size, op) /\
    field_chunk mc config old (mkField name 0 size op) = Some chunk /\
    read_variable mr config datetime decode_error_text loop_fuel (pre ++ chunk ++ post) ns_pid v (lenN pre)
    = Ret (Ok (CString [] 0, lenN pre + lenN chunk)).
Proof.
  intros Hmc Hcfg Hp v. eexists _, _, _. split; [reflexivity|]. split; [reflexivity|].
  pose proof (mo_regs _ Hmc r1) as Hr. destruct (co_string _ Hcfg) as [_ Hmax].
  rewrite read_text_parts by (try done; len_lia). unfold string_value.
  rewrite (proj2 (N.ltb_lt _ _)) by lia. do 3 f_equal. len_lia.
Qed.

Lemma register_string_is_empty_witness :
  exists size op chunk, go_lower no_debug (mkRV "s" (VGoString (VRegister Rax) (VRegister Rbx)) SQWord "string" None) = Ok (size, op) /\
    field_chunk (stack_machine sample_image) default_config [] (mkField "s" 0 size op) = Some chunk /\
    read_variable no_reader default_config (fun _ => None) no_debug 0 ([] ++ chunk ++ []) 7
      (mkRV "s" (VGoString (VRegister Rax) (VRegister Rbx)) SQWord "string" None) (lenN (@nil byte))
    = Ret (Ok (CString [] 0, lenN (@nil byte) + lenN chunk)).
Proof.
  apply (register_string_is_empty no_debug (stack_machine sample_image) default_config no_reader (fun _ => None) no_debug 0 "s" 7 Rax Rbx [] [] []);
    [apply stack_machine_ok | apply default_config_ok | vm_compute; intros; discriminate].
Defined.

(** ** Values split over registers *)

(** Of a value whose pieces are registers the plan captures the lowest byte of each
    and reports the others as zero. *)
Theorem register_pieces_lose_bytes debug_location mc config old name r1 r2 :
  blob_capture config 16 = 16 ->
  let v := mkRV name (VPiecewiseBlob [mkVP _ (Some (VRegister r1)) 8; mkVP _ (Some (VRegister r2)) 8] 16) SQWord "main.Pair" None in
  exists op, go_lower debug_location v = Ok (16, op) /\
    field_chunk mc config old (mkField name 0 16 op)
    = Some (old ++ (to_le 1 (mc_regs mc r1) ++ replicate 7 x00) ++ (to_le 1 (mc_regs mc r2) ++ replicate 7 x00))%list.
Proof.
  intros Hcap v. eexists. split; [reflexivity|]. unfold field_chunk. cbn [cf_op cf_size]. rewrite Hcap. reflexivity.
Qed.

Lemma register_pieces_lose_bytes_witness :
  exists op, go_lower no_debug (mkRV "p" (VPiecewiseBlob [mkVP _ (Some (VRegister Rax)) 8; mkVP _ (Some (VRegister Rbx)) 8] 16) SQWord "main.Pair" None) = Ok (16, op) /\
    field_chunk (stack_machine sample_image) default_config [] (mkField "p" 0 16 op)
    = Some ([] ++ (to_le 1 8192 ++ replicate 7 x00) ++ (to_le 1 3 ++ replicate 7 x00))%list.
Proof. exact (register_pieces_lose_bytes no_debug (stack_machine sample_image) default_config [] "p" Rax Rbx eq_refl). Defined.

(** ** Strings that could not be read *)

(** The marker of a failed read is cut to the length of the string it replaces, so
    the failure looks like text: a string of four bytes is reported as [<rea]. *)
Theorem failed_read_looks_like_text config mr ns_pid ptr len (inline : list byte) e :
  0 < len <= cc_max_string_capture config -> len <= 13 -> 4096 <= ptr < 2 ^ 56 ->
  some_nonzero (take (N.to_nat len) inline) = false -> mr_read_string mr ns_pid ptr len = Err e ->
  value_as_str (string_value mr config ns_pid ptr len inline) = Some (String.substring 0 (N.to_nat len) "<read-failed>").
Proof.
  intros Hl H13 Hp Hz He. unfold string_value. rewrite (proj2 (N.ltb_ge _ _)) by lia.
  assert (canonicalize_user_pointer ptr = ptr) as ->.
  { unfold canonicalize_user_pointer. change (2 ^ 56 - 1) with (N.ones 56). rewrite N.land_ones. apply N.mod_small. lia. }
  rewrite (proj2 (N.eqb_neq ptr 0)), (proj2 (N.ltb_ge ptr 4096)), (proj2 (N.leb_gt _ _)) by lia.
  rewrite Hz, andb_false_r, He. cbn [value_as_str]. change (lenN read_failed) with 13. rewrite N.min_l by lia.
  assert (Hcases : exists k, (k <= 13)%nat /\ N.to_nat len = k) by (exists (N.to_nat len); split; lia).
  destruct Hcases as (k & Hk & ->). do 14 (destruct k as [|k]; [reflexivity|]). lia.
Qed.

Lemma failed_read_looks_like_text_witness :
  value_as_str (string_value no_reader default_config 7 8192 4 []) = Some "<rea"%string.
Proof.
  apply (failed_read_looks_like_text default_config no_reader 7 8192 4 [] (EEbpf "unused")); try reflexivity;
    repeat split; vm_compute; (reflexivity || (intros; discriminate)).
Defined.
