(* ===== verification/GeneratorsAgree.v ===== *)
(** * The two program generators

    [program.rs] generates programs from capture plans and, for older callers, from
    resolved variables.  [generators_agree]: for the Go variables the plan route
    captures completely, both programs leave the same record. *)

From Stdlib Require Import Strings.String Strings.Ascii Init.Byte.
From S2P Require Import Prelude RustStr RustText Dwarf CapturePlan Decode TypeInfo MemReader Policy ProbeValue ProbeProgram BpfMachine ProbeRecord ProbeCompiler CaptureRoundTrip CaptureOutcomes.

Local Open Scope N_scope.

(** ** Declarations up to their spelling *)

Definition decl_core (d : cdecl) : ctype * cmember * option N := (d_type d, d_member d, d_count d).

Lemma layout_core off ds1 ds2 : map decl_core ds1 = map decl_core ds2 ->
  layout_end off ds1 = layout_end off ds2 /\ forall m, offset_of m off ds1 = offset_of m off ds2.
Proof.
  revert off ds2. induction ds1 as [|d ds1 IH]; intros off [|e ds2]; cbn; try done.
  intros [= Ht Hm Hc Hds]. unfold decl_start, decl_size. rewrite Ht, Hm, Hc.
  destruct (IH (align_to (ctype_width (d_type e)) off + ctype_width (d_type e) * default 1 (d_count e)) ds2 Hds) as [IHl IHo].
  split; [exact IHl|]. intros m. by rewrite IHo.
Qed.

(** Programs with the same declarations give every statement the same effect; what
    else they say of the goroutine id must agree too. *)
Record same_struct (p1 p2 : BpfProgram) : Prop := {
  ss_core : map decl_core (event_struct p1) = map decl_core (event_struct p2);
  ss_goid : bp_goid_offset p1 = bp_goid_offset p2;
  ss_addr : bp_g_addr_offset p1 = bp_g_addr_offset p2
}.

Section Same.
Context (mc : machine) (p1 p2 : BpfProgram) (Hs : same_struct p1 p2).

Lemma same_lvalue l : lvalue_at p1 l = lvalue_at p2 l.
Proof. destruct (layout_core 0 _ _ (ss_core _ _ Hs)) as [_ Ho]. destruct l; cbn [lvalue_at]; by rewrite Ho. Qed.

Lemma same_stmt s buf : exec_stmt mc p1 s buf = exec_stmt mc p2 s buf.
Proof.
  assert (Hsz : sizeof_event p1 = sizeof_event p2).
  { unfold sizeof_event. by destruct (layout_core 0 _ _ (ss_core _ _ Hs)) as [-> _]. }
  assert (Hg : goid_value mc p1 = goid_value mc p2) by (unfold goid_value; by rewrite (ss_goid _ _ Hs), (ss_addr _ _ Hs)).
  destruct s; cbn [exec_stmt]; rewrite ?Hsz, ?Hg; unfold assign, read_to; rewrite ?same_lvalue; try done.
  unfold read_text. assert (Hm : forall m, member_word p1 m buf = member_word p2 m buf) by (intros m; unfold member_word; by rewrite same_lvalue).
  rewrite (Hm (MLen i)). destruct (member_word p2 (MLen i) buf); [|done]. cbn [mbind option_bind].
  rewrite (Hm (MVar i)). destruct (member_word p2 (MVar i) buf); [|done]. cbn [mbind option_bind].
  destruct (_ && _); [|done]. unfold read_to. by rewrite same_lvalue.
Qed.

Lemma same_stmts ss buf : exec_stmts mc p1 ss buf = exec_stmts mc p2 ss buf.
Proof.
  revert buf. induction ss as [|s ss IH]; intros buf; cbn; [done|]. rewrite same_stmt. destruct (exec_stmt mc p2 s buf); cbn; [apply IH|done].
Qed.

Lemma same_prologue l buf : exec_prologue p1 l buf = exec_prologue p2 l buf.
Proof.
  revert buf. induction l as [|[m v] l IH]; intros buf; cbn [exec_prologue]; [done|]. unfold assign. rewrite same_lvalue.
  destruct (lvalue_at p2 (LMember m)) as [[o w]|]; [|done]. cbn [mbind option_bind].
  destruct (store _ _ _); cbn [mbind option_bind]; [apply IH|done].
Qed.
End Same.

(** ** Statement lists with the same effect *)

Section Effects.
Context (mc : machine) (p : BpfProgram).

Definition same_effect (ss1 ss2 : list stmt) : Prop := forall buf, exec_stmts mc p ss1 buf = exec_stmts mc p ss2 buf.

#[export] Instance same_effect_equiv : Equivalence same_effect.
Proof. split; unfold same_effect; [done|intros x y H buf; by rewrite H|intros x y z H1 H2 buf; by rewrite H1]. Qed.

#[export] Instance app_same_effect : Proper (same_effect ==> same_effect ==> same_effect) (@app stmt).
Proof. intros a b Hab c d Hcd buf. rewrite !exec_stmts_app, Hab. destruct (exec_stmts mc p b buf); cbn; [apply Hcd|done]. Qed.

Lemma cons_same_effect s1 s2 a b : (forall buf, exec_stmt mc p s1 buf = exec_stmt mc p s2 buf) -> same_effect a b -> same_effect (s1 :: a) (s2 :: b).
Proof. intros Hs Hab buf. cbn. rewrite Hs. destruct (exec_stmt mc p s2 buf); cbn; [apply Hab|done]. Qed.

(** The members that hold a word are words. *)
Definition word_member (m : cmember) : Prop := match m with MVar _ | MLen _ | MCap _ => True | _ => False end.
Context (Hwords : forall m off t, word_member m -> offset_of m 0 (event_struct p) = Some (off, t) -> t = U64).

(** Clearing a word before reading all of it changes nothing. *)
Lemma clear_then_read m a note : word_member m ->
  same_effect [SSetZero (LMember m) note; SReadInto (LMember m) 8 a] [SReadInto (LMember m) 8 a].
Proof using Hwords.
  intros Hm buf. cbn [exec_stmts exec_stmt]. unfold assign, read_to, lvalue_at.
  destruct (offset_of m 0 (event_struct p)) as [[off t]|] eqn:E; [|done]. rewrite (Hwords m off t Hm E). cbn [mbind option_bind ctype_width].
  unfold store. lens. destruct (N.leb_spec (off + 8) (lenN buf)); [|done]. cbn [mbind option_bind].
  rewrite lenN_write_at by len_lia. rewrite (proj2 (N.leb_le _ _)) by lia. cbn [mbind option_bind]. by rewrite write_at_twice by len_lia.
Qed.
End Effects.

(** ** One variable *)

Definition not_split (v : ResolvedVariable) : Prop := match rv_location v with VPiecewiseBlob _ _ => False | _ => True end.

Section Variable_.
Context (mc : machine) (p : BpfProgram).
Context (Hwords : forall m off t, word_member m -> offset_of m 0 (event_struct p) = Some (off, t) -> t = U64).
Context (config : CaptureConfig) (debug_location : VariableLocation -> string) (debug_op : ReadOp -> string).

(** A word read by either generator. *)
Lemma word_read_same l op m ss :
  word_member m -> location_to_read_op debug_location l = Ok op -> generate_plan_read_into debug_op op (LMember m) 8 = Ok ss ->
  same_effect mc p (simple_read_expr l m) ss /\ same_effect mc p (string_word_read l m) ss.
Proof using Hwords.
  intros Hm Hop Hss. destruct l as [r|o|r o| | | | | | | |]; cbn in Hop; try discriminate Hop; injection Hop as <-;
    cbn in Hss; injection Hss as <-; cbn [simple_read_expr string_word_read]; [done|split|split].
  - symmetry. etransitivity; [by apply clear_then_read|]. by apply cons_same_effect.
  - by apply cons_same_effect; [|apply cons_same_effect].
  - symmetry. by apply clear_then_read.
  - done.
Qed.

Lemma shift_op_location l op d : in_memory l -> location_to_read_op debug_location l = Ok op ->
  location_to_read_op debug_location (shift_location l d) = Ok (shift_plan_op op d).
Proof. intros Hm Ho. destruct l; try contradiction; by injection Ho as <-. Qed.

Lemma text_reads_same i note1 note2 : same_effect mc p (text_reads i (string_capture config) note1) (text_reads i (string_capture config) note2).
Proof. by apply cons_same_effect; [|apply cons_same_effect]. Qed.

Lemma variable_same v size op i ss1 ss2 :
  go_lower debug_location v = Ok (size, op) -> go_admits config v -> not_split v ->
  generate_read_expr config v i = Ret ss1 -> generate_plan_read_expr config debug_op op i size = Ok ss2 -> same_effect mc p ss1 ss2.
Proof using Hwords.
  intros Hl [_ Ha] Hn H1 H2. unfold go_lower in Hl. unfold generate_read_expr in H1. unfold not_split in Hn.
  pose proof (size_bytes_le (rv_size v)) as Hsz.
  destruct (rv_location v) as [r|o|r o|ptr len|ptr len|ptr len cap|ptr len cap|o n|pieces n|o n|ptr]; try contradiction.
  1-3: injection Hl as <- <-; injection H1 as <-; unfold generate_plan_read_expr in H2;
    rewrite (proj2 (N.ltb_ge _ _)) in H2 by done; by injection H2 as <-.
  1-4: destruct (location_to_read_op debug_location ptr) as [op'|] eqn:Eop; [|done]; injection Hl as <- <-; injection H1 as <-;
    unfold generate_plan_read_expr, header_reads in H2; cbn [header_deltas fmap option_fmap option_map] in H2;
    destruct (generate_plan_read_into debug_op (shift_plan_op op' 0) _ 8) as [a|] eqn:Ea; [|done]; cbn [res_bind] in H2;
    destruct (generate_plan_read_into debug_op (shift_plan_op op' 8) _ 8) as [b|] eqn:Eb; [|done]; cbn [res_bind] in H2.
  1-2: injection H2 as <-; destruct Ha as [Hm ->]; rewrite <- (shift_zero ptr Hm) at 1;
    repeat apply app_same_effect; try apply text_reads_same; eapply word_read_same; try done; by apply shift_op_location.
  1-2: destruct (generate_plan_read_into debug_op (shift_plan_op op' 16) _ 8) as [c|] eqn:Ec; [|done]; injection H2 as <-;
    destruct Ha as (Hm & -> & ->); rewrite <- (shift_zero ptr Hm) at 1;
    repeat apply app_same_effect; eapply word_read_same; try done; by apply shift_op_location.
  - injection Hl as <- <-. injection H1 as <-. by injection H2 as <-.
  - injection Hl as <- <-. injection H1 as <-. injection H2 as <-. symmetry. by apply clear_then_read.
  - destruct (location_to_read_op debug_location ptr) as [op'|] eqn:Eop; [|done]. injection Hl as <- <-. injection H1 as <-.
    by eapply word_read_same.
Qed.
End Variable_.

(** The declarations and sizes of a variable are those of its field. *)
Lemma variable_decls config debug_location v size op i name off :
  go_lower debug_location v = Ok (size, op) ->
  map decl_core (event_field_decls config i v) = map decl_core (plan_field_decls config i (mkField name off size op))
  /\ legacy_extra_size config v = plan_extra_size config (mkField name off size op).
Proof.
  intros Hl. unfold go_lower in Hl. unfold event_field_decls, plan_field_decls, legacy_extra_size, plan_extra_size.
  pose proof (size_bytes_le (rv_size v)) as Hsz.
  destruct (rv_location v) as [r|o|r o|ptr len|ptr len|ptr len cap|ptr len cap|o n|pieces n|o n|ptr]; cbn [res_bind] in Hl.
  1-3: injection Hl as <- <-; cbn [cf_op cf_size]; by rewrite (proj2 (N.ltb_ge _ _)) by done.
  1-4: destruct (location_to_read_op debug_location ptr) as [op'|] eqn:Eop; [|done]; by injection Hl as <- <-.
  - by injection Hl as <- <-.
  - destruct (lower_pieces debug_location 0 pieces) as [lowered|]; [|done]. by injection Hl as <- <-.
  - by injection Hl as <- <-.
  - destruct (location_to_read_op debug_location ptr) as [op'|] eqn:Eop; [|done]. by injection Hl as <- <-.
Qed.

(** ** All variables *)

Section Variables_.
Context (config : CaptureConfig) (debug_location : VariableLocation -> string) (debug_op : ReadOp -> string).

Lemma lowered_decls vars off fields end_ i n :
  lower_variables (go_lower debug_location) off vars = Ok (fields, end_) ->
  map decl_core (enumerate_from i vars (event_field_decls config)) = map decl_core (enumerate_from i fields (plan_field_decls config))
  /\ fold_left (fun size v => size + 8 + legacy_extra_size config v) vars n = fold_left (fun size f => size + 8 + plan_extra_size config f) fields n
  /\ lenN vars = lenN fields.
Proof.
  revert off fields end_ i n. induction vars as [|v vars IH]; intros off fields end_ i n Hl; cbn in Hl; [by injection Hl as <- <-|].
  destruct (go_lower debug_location v) as [[size op]|] eqn:El; [|done]. cbn in Hl.
  destruct (lower_variables _ _ vars) as [[fs e]|] eqn:Er; [|done]. injection Hl as <- <-.
  destruct (variable_decls config debug_location v size op i (rv_name v) off El) as [Hd He].
  destruct (IH _ _ _ (i + 1) (n + 8 + plan_extra_size config (mkField (rv_name v) off size op)) Er) as (IHd & IHs & IHn).
  cbn [enumerate_from fold_left]. rewrite !map_app, Hd, He, IHd, IHs. repeat split; len_lia.
Qed.

Lemma variables_same mc p vars off fields end_ i ss1 ss2 :
  (forall m off t, word_member m -> offset_of m 0 (event_struct p) = Some (off, t) -> t = U64) ->
  lower_variables (go_lower debug_location) off vars = Ok (fields, end_) ->
  Forall (go_admits config) vars -> Forall not_split vars ->
  var_reads_from config i vars = Ret ss1 -> try_enumerate_from i fields (plan_field_reads config debug_op) = Ok ss2 ->
  same_effect mc p ss1 ss2.
Proof.
  intros Hw. revert off fields end_ i ss1 ss2. induction vars as [|v vars IH]; intros off fields end_ i ss1 ss2 Hl Ha Hn H1 H2; cbn in Hl.
  { injection Hl as <- <-. injection H1 as <-. by injection H2 as <-. }
  destruct (go_lower debug_location v) as [[size op]|] eqn:El; [|done]. cbn in Hl.
  destruct (lower_variables _ _ vars) as [[fs e]|] eqn:Er; [|done]. injection Hl as <- <-.
  inversion_clear Ha. inversion_clear Hn. cbn in H1, H2.
  destruct (generate_read_expr config v i) as [a| |] eqn:Ea; try done. cbn in H1.
  destruct (var_reads_from config (i + 1) vars) as [r| |] eqn:Erv; try done. injection H1 as <-.
  unfold plan_field_reads in H2 at 1. cbn [cf_op cf_size] in H2.
  destruct (generate_plan_read_expr config debug_op op i size) as [b|] eqn:Eb; [|done]. cbn [res_bind] in H2.
  destruct (try_enumerate_from (i + 1) fs _) as [t|] eqn:Et; [|done]. injection H2 as <-.
  apply cons_same_effect; [done|]. apply app_same_effect; [by eapply variable_same|by eapply IH].
Qed.

(** Words are declared as words. *)
Lemma words_declared ds : Forall (fun d => word_member (d_member d) -> d_type d = U64) ds ->
  forall m off off' t, word_member m -> offset_of m off ds = Some (off', t) -> t = U64.
Proof.
  induction 1 as [|d ds Hd _ IH]; intros m off off' t Hm; cbn; [done|].
  destruct (decide (d_member d = m)) as [<-|]; [intros [= <- <-]; by apply Hd|by apply IH].
Qed.

Lemma plan_words_declared fields i : Forall (fun d => word_member (d_member d) -> d_type d = U64) (enumerate_from i fields (plan_field_decls config)).
Proof.
  revert i. induction fields as [|f fields IH]; intros i; cbn [enumerate_from]; [constructor|]. apply Forall_app. split; [|apply IH].
  unfold plan_field_decls. constructor; [done|].
  destruct (cf_op f); try (destruct (text_kind kind)); try (destruct (8 <? cf_size f)); repeat constructor; done.
Qed.
End Variables_.

(** C30: on the Go variables that a plan captures completely, the two program
    generators agree.  Take a Go probe for which both the route over a plan and
    the older route over the resolved variables give a program, all of whose
    variables are admitted and none of which is in pieces: strings and slices
    have their header in memory with their words 8 bytes apart (not in
    registers), and values copied inline are captured in whole words.  Then the
    two programs have the same record size, and run on any thread and whatever the
    reserved memory held they submit the same record, or neither does.  On strings
    and slices in registers and on values in pieces, which this leaves out, they
    can differ; Rust probes are not compared. *)
Theorem generators_agree debug_location debug_op compiler probe hash plan envelope p1 p2 mc ring :
  go_plan_from_probe debug_location probe hash = Ok plan -> go_program debug_op compiler plan envelope = Ok p2 ->
  generate_bpf_program_with_envelope (gc_config compiler) (pp_variables probe) (gc_capture_goid compiler) (gc_g_addr_offset compiler)
    (gc_goid_offset compiler) envelope = Ret (Ok p1) ->
  Forall (go_admits (gc_config compiler)) (pp_variables probe) -> Forall not_split (pp_variables probe) ->
  bp_event_size p1 = bp_event_size p2 /\ run_probe mc p1 ring = run_probe mc p2 ring.
Proof.
  unfold go_plan_from_probe, plan_from, go_program, generate_bpf_program_with_envelope, generate_bpf_program_from_plan.
  intros Hplan H2 H1 Ha Hn. set (config := gc_config compiler) in *.
  destruct (lower_variables _ 0 (pp_variables probe)) as [[fields end_]|] eqn:El; [|done]. cbn [res_bind] in Hplan.
  destruct (plan_validate _) as [[]|]; [|done]. injection Hplan as <-.
  destruct (check_profile _ _); [|done]. cbn [res_bind] in H2. destruct (plan_validate _) as [[]|]; [|done]. cbn [map_err res_bind plan_fields] in H2.
  destruct (_ <? _) in H2; [done|]. destruct (_ <? _) in H1; [done|].
  unfold build_plan_var_reads in H2. destruct (try_enumerate_from 0 fields _) as [ss2|] eqn:E2; [|done]. injection H2 as <-.
  unfold build_var_reads in H1. destruct (var_reads_from config 0 (pp_variables probe)) as [ss1| |] eqn:E1; try done. injection H1 as <-.
  destruct (lowered_decls config debug_location _ _ _ _ 0 (prefix_size (gc_capture_goid compiler) envelope) El) as (Hd & Hs & Hc).
  split; [cbn; unfold legacy_event_size, plan_event_size; by rewrite Hs|].
  set (p1 := mkProgram _ _ _ _ _ _ _ _). set (p2 := mkProgram _ _ _ _ _ _ _ _).
  assert (Hss : same_struct p1 p2).
  { split; [|done|done]. cbn. unfold build_event_fields, build_plan_event_fields. do 5 f_equal. by rewrite !map_app, Hd. }
  assert (Hall : Forall (fun d => word_member (d_member d) -> d_type d = U64) (event_struct p2)).
  { cbn. unfold build_plan_event_fields. repeat (constructor; [done|]). rewrite !Forall_app.
    split; [destruct envelope; repeat constructor; done|].
    split; [destruct (gc_capture_goid compiler); repeat constructor|apply plan_words_declared]. }
  assert (Heff : same_effect mc p2 (bp_reads p1) (bp_reads p2)).
  { cbn. rewrite Hc. repeat apply app_same_effect; try done. eapply variables_same; try done.
    intros m o t. by apply (words_declared _ Hall m 0). }
  unfold run_probe. rewrite (same_prologue p1 p2 Hss). destruct (exec_prologue p2 _ ring) as [buf|]; [|done]. cbn [mbind option_bind].
  rewrite (same_stmts mc p1 p2 Hss). apply Heff.
Qed.

Definition legacy_sample : BpfProgram :=
  Eval vm_compute in match generate_bpf_program_with_envelope default_config (pp_variables sample_point) false None None sample_envelope with
                     | Ret (Ok p) => p | _ => empty_program end.

Lemma generators_agree_witness :
  bp_event_size legacy_sample = bp_event_size sample_program /\
  run_probe (stack_machine sample_image) legacy_sample (ring_of sample_program) = run_probe (stack_machine sample_image) sample_program (ring_of sample_program).
Proof.
  apply (generators_agree no_debug no_debug sample_compiler sample_point "probe:401000" sample_plan sample_envelope legacy_sample sample_program).
  - vm_compute. reflexivity.
  - vm_compute. reflexivity.
  - vm_compute. reflexivity.
  - repeat constructor; vm_compute; intros; discriminate.
  - repeat constructor.
Defined.
