(* ===== verification/DwarfLocate.v ===== *)
(** * Where a variable is

    The location half of [crates/detrix-ebpf/src/dwarf/parser.rs]: a DWARF location
    expression, evaluated in [Dwarf], becomes machine locations
    ([atom_to_variable_location]), and these become the location of a value of a
    given type ([upgrade_location_for_type]): the words of a string or slice header,
    the bytes of a struct, the pointer of a map.

    [upgraded_locations_captured] ties it to [CaptureRoundTrip]: what the upgrade
    makes of a value in memory is what the Go compiler captures completely. *)

From Stdlib Require Import Strings.String Strings.Ascii Init.Byte.
From S2P Require Import Prelude RustStr RustText Dwarf CapturePlan Decode TypeInfo MemReader Policy ProbeValue ProbeProgram ProbeCompiler CaptureRoundTrip.

Local Open Scope string_scope.

Definition VariablePiece : Type := VariablePieceOf VariableLocation.

(** ** Atoms *)

Section Atoms.
Context (debug_atom : LocationAtom -> string) (arch : TargetArchitecture).
Context (cfa_register : option Register) (cfa_offset : Z).

Definition is_stack_register (r : Register) : bool := match r with Rsp => true | Arm64 n => (n =? 31)%N | _ => false end.

Definition atom_to_variable_location (atom : LocationAtom) : option VariableLocation :=
  match atom with
  | ARegister r => Some (VRegister r)
  | ARegisterOffset r offset => Some (if is_stack_register r then VStackOffset offset else VFrameOffset r offset)
  | AFrameOffset offset =>
      Some (match cfa_register with
            | Some r => VFrameOffset r (i64_saturating_add cfa_offset offset)
            | None => VFrameOffset (match arch with Aarch64 => Arm64 29 | X86_64 => Rbp end) offset
            end)
  | ACfaOffset offset =>
      Some (match cfa_register with
            | Some r => VFrameOffset r (i64_saturating_add cfa_offset offset)
            | None => VStackOffset (i64_saturating_add cfa_offset offset)
            end)
  | ADereference inner =>
      match inner with
      | ARegisterOffset r offset => if is_stack_register r then Some (VStackIndirect offset 0) else None
      | AFrameOffset offset | ACfaOffset offset => Some (VStackIndirect (i64_saturating_add cfa_offset offset) 0)
      | _ => None
      end
  | AAbsolute _ | AConstant _ | AUnavailable _ => None
  end.

Definition evaluate_location_expr (ops : list (result Operation string)) : result (option (list VariablePiece)) EbpfError :=
  let? evaluated := map_err (fun '(DwarfParse msg) => EDwarfParse msg) (evaluate_expression debug_atom arch ops) in
  let pieces := map (fun piece => mkVP _ (if (lpc_value_offset piece =? 0)%N then atom ← lpc_atom piece; atom_to_variable_location atom else None)
                                    (lpc_byte_size piece)) evaluated in
  Ok (match pieces with [] => None | _ => Some pieces end).
End Atoms.

(** ** Types *)

Definition is_rust_owned_string (name : string) : bool :=
  String.eqb name "String" || String.eqb name "alloc::string::String" || String.eqb name "std::string::String".
Definition is_rust_string_type (name : string) : bool :=
  is_rust_owned_string name || starts_with "&str" name || starts_with "&mut str" name.
Definition is_rust_vec (name : string) : bool :=
  starts_with "Vec<" name || starts_with "alloc::vec::Vec<" name || starts_with "std::vec::Vec<" name.
Definition is_rust_borrowed_slice (name : string) : bool := starts_with "&[" name || starts_with "&mut [" name.
Definition is_rust_slice_type (name : string) : bool := is_rust_vec name || is_rust_borrowed_slice name.

Definition header_base_offset (l : VariableLocation) : option (option Register * Z) :=
  match l with
  | VStackOffset offset => Some (None, offset)
  | VFrameOffset register offset => Some (Some register, offset)
  | _ => None
  end.
Definition word_location (base : option Register) (offset : Z) : VariableLocation :=
  match base with Some register => VFrameOffset register offset | None => VStackOffset offset end.

(** [offset + n] on [i64], as a release build computes it *)
Definition i64_add (a b : Z) : Z := to_signed 64 (of_signed 64 (a + b)).

Definition string_location (name : string) (ptr len : VariableLocation) : VariableLocation :=
  if is_rust_string_type name then VStringHeader ptr len else VGoString ptr len.
Definition slice_location (name : string) (ptr len cap : VariableLocation) : VariableLocation :=
  if is_rust_slice_type name then VSliceHeader ptr len cap else VGoSlice ptr len cap.

Definition undefined_piece (what : string) : EbpfError := EDwarfParse ("undefined " ++ what ++ " piece").
Definition piece_location (what : string) (p : VariablePiece) : result VariableLocation EbpfError :=
  ok_or (vp_location _ p) (undefined_piece what).

(** A type whose values are bytes in place. *)
Definition is_aggregate (t : TypeInfo) : bool := ti_is_array t || ti_is_struct t || ti_is_enum t.

Definition upgrade_single (l : VariableLocation) (t : TypeInfo) : VariableLocation :=
  let name := ti_name t in
  if ti_is_string t then
    match header_base_offset l with
    | Some (base, offset) =>
        let '(ptr_offset, len_offset) := if is_rust_owned_string name then (0, 16)%Z else (0, 8)%Z in
        string_location name (word_location base (i64_add offset ptr_offset)) (word_location base (i64_add offset len_offset))
    | None => l
    end
  else if ti_is_slice t then
    match header_base_offset l with
    | Some (base, offset) =>
        if is_rust_vec name then
          VSliceHeader (word_location base offset) (word_location base (i64_add offset 16)) (word_location base (i64_add offset 16))
        else
          let cap_offset := if is_rust_borrowed_slice name then i64_add offset 8 else i64_add offset 16 in
          slice_location name (word_location base offset) (word_location base (i64_add offset 8)) (word_location base cap_offset)
    | None => l
    end
  else if ti_is_map t || starts_with "map[" name then VGoMap l
  else if is_aggregate t && (0 <? ti_byte_size t)%N then
    match l with
    | VStackOffset offset => VStackBlob offset (ti_byte_size t)
    | VFrameOffset register offset => VPiecewiseBlob [mkVP _ (Some (VFrameOffset register offset)) (ti_byte_size t)] (ti_byte_size t)
    | VStackIndirect offset _ => VStackIndirect offset (ti_byte_size t)
    | _ => l
    end
  else l.

Definition upgrade_location_for_type (locations : list VariablePiece) (t : TypeInfo) : result VariableLocation EbpfError :=
  let single :=
    let? l := ok_or (p ← List.hd_error locations; vp_location _ p) (EDwarfParse "empty locations after DWARF resolution") in
    Ok (upgrade_single l t) in
  let split :=
    if (1 <? lenN locations)%N && is_aggregate t && (0 <? ti_byte_size t)%N
       && forallb (fun p => match vp_location _ p with None => true | Some l => is_scalar l end) locations
    then Ok (VPiecewiseBlob locations (ti_byte_size t)) else single in
  match locations with
  | [p; q] =>
      if ti_is_string t then
        let? ptr := piece_location "string pointer" p in
        let? len := piece_location "string length" q in
        Ok (string_location (ti_name t) ptr len)
      else split
  | [p; q; r] =>
      if ti_is_slice t then
        let? ptr := piece_location "slice pointer" p in
        let? len := piece_location "slice length" q in
        let? cap := piece_location "slice capacity" r in
        Ok (slice_location (ti_name t) ptr len cap)
      else split
  | _ => split
  end.

(** ** What the Go compiler makes of it *)

Lemma i64_add_small a b : i64_ok (a + b)%Z -> i64_add a b = (a + b)%Z.
Proof.
  intros H. unfold i64_ok, i64_min, i64_max in H. unfold i64_add. apply to_of_signed; [done|]. change (Z.of_N (64 - 1)) with 63%Z. lia.
Qed.

(** The room a header needs above its first word. *)
Definition header_room (l : VariableLocation) : Prop :=
  match l with VStackOffset o | VFrameOffset _ o => (i64_min <= o /\ o + 16 <= i64_max)%Z | _ => False end.

Lemma shifted_word base offset d : (0 <= d <= 16)%Z -> header_room (word_location base offset) ->
  word_location base (i64_add offset d) = shift_location (word_location base offset) d.
Proof.
  intros Hd Hr. assert (Hb : (i64_min <= offset /\ offset + 16 <= i64_max)%Z) by (destruct base; exact Hr).
  rewrite i64_add_small by (unfold i64_ok; lia).
  assert (E : i64_saturating_add offset d = (offset + d)%Z) by (unfold i64_saturating_add; lia).
  destruct base; cbn; by rewrite E.
Qed.

Lemma shifted_zero base offset : header_room (word_location base offset) -> word_location base (i64_add offset 0) = word_location base offset.
Proof. intros Hr. rewrite shifted_word by (done || lia). apply shift_zero. destruct base; cbn in *; unfold i64_ok; lia. Qed.

Lemma word_location_base l base offset : header_base_offset l = Some (base, offset) -> l = word_location base offset.
Proof. destruct l; cbn; try done; by intros [= <- <-]. Qed.

(** Bytes in place that take whole words and fit the limit. *)
Definition fits_record (config : CaptureConfig) (t : TypeInfo) : Prop :=
  is_aggregate t = true -> (ti_byte_size t <= cc_max_blob_capture config /\ ti_byte_size t mod 8 = 0 /\ ti_byte_size t < 2 ^ 64)%N.

(** A Go value in memory: whatever its type, the location the parser gives it is
    one the Go compiler captures completely, provided a value stored in place
    takes whole words and fits the limit. *)
Theorem upgraded_locations_captured config t l n v :
  upgrade_location_for_type [mkVP _ (Some l) n] t = Ok (rv_location v) -> header_room l ->
  is_rust_string_type (ti_name t) = false -> is_rust_slice_type (ti_name t) = false -> fits_record config t -> go_admits config v.
Proof.
  intros Hu Hr Hs Hsl Hf. cbn in Hu. injection Hu as Hu.
  assert (Hm : in_memory l) by (destruct l; cbn in *; try contradiction; unfold i64_ok; lia).
  unfold is_rust_slice_type in Hsl. apply orb_false_elim in Hsl as [Hv Hb].
  assert (Ho : is_rust_owned_string (ti_name t) = false) by (unfold is_rust_string_type in Hs; by destruct (is_rust_owned_string (ti_name t))).
  unfold go_admits. rewrite <- Hu. unfold upgrade_single, string_location, slice_location, is_rust_slice_type. rewrite Hs, Hv, Hb, Ho. cbn [orb].
  destruct (header_base_offset l) as [[base offset]|] eqn:El; [|by destruct l].
  pose proof (word_location_base l base offset El) as ->.
  destruct (ti_is_string t).
  { cbn. rewrite shifted_zero, shifted_word by (done || lia). done. }
  destruct (ti_is_slice t); [cbn; by rewrite !shifted_word by (done || lia)|].
  destruct (ti_is_map t || _); [done|].
  destruct (is_aggregate t && _) eqn:Ea; [|by destruct base].
  apply andb_prop in Ea as [Ea _]. destruct (Hf Ea) as (Hle & H8 & H64).
  destruct base; cbn; unfold blob_capture; rewrite N.min_l by done; [|done].
  repeat split; try done; [repeat constructor|lia].
Qed.

(** A Rust value in memory: the location the parser gives it is one the Rust
    compiler captures completely, under the same condition and if a text type has
    one of the five names that both sides know. *)
Theorem upgraded_rust_locations_captured config t l n v :
  upgrade_location_for_type [mkVP _ (Some l) n] t = Ok (rv_location v) -> rv_type_name v = ti_name t -> header_room l ->
  (ti_is_string t = true -> ti_name t ∈ ["&str"; "&mut str"; "String"; "alloc::string::String"; "std::string::String"]) ->
  fits_record config t -> rust_admits config v.
Proof.
  intros Hu Hn Hr Hs Hf. cbn in Hu. injection Hu as Hu.
  assert (Hm : in_memory l) by (destruct l; cbn in *; try contradiction; unfold i64_ok; lia).
  unfold rust_admits, assumed_location, header_kind, rust_place. rewrite <- Hu, Hn. unfold upgrade_single.
  destruct (header_base_offset l) as [[base offset]|] eqn:El; [|by destruct l].
  pose proof (word_location_base l base offset El) as ->.
  destruct (ti_is_string t).
  { specialize (Hs eq_refl). repeat (apply elem_of_cons in Hs as [->|Hs]); [..|by apply elem_of_nil in Hs];
      cbn -[i64_add]; rewrite ?shifted_zero, ?shifted_word by (done || lia); (split; [done|split; [by intros ptr [= <-]|reflexivity]]). }
  destruct (ti_is_slice t).
  { unfold slice_location, is_rust_slice_type, is_rust_vec, is_rust_borrowed_slice.
    destruct (starts_with "Vec<" _ || _ || _) eqn:Ev; cbn [orb]; [|destruct (starts_with "&[" _ || _) eqn:Eb]; cbn -[i64_add starts_with];
      rewrite ?Ev, ?Eb; cbn [header_location]; rewrite ?shifted_word by (done || lia); (split; [done|split; [by intros ptr [= <-]|reflexivity]]). }
  destruct (ti_is_map t || _); [split; [done|split; done]|].
  destruct (is_aggregate t && _) eqn:Ea; [|by destruct base].
  apply andb_prop in Ea as [Ea _]. destruct (Hf Ea) as (Hle & H8 & H64).
  destruct base; cbn; unfold blob_capture; rewrite N.min_l by done; [|done].
  repeat split; try done; [repeat constructor|lia].
Qed.

Lemma upgraded_rust_locations_captured_witness :
  rust_admits default_config (mkRV "s" (VStringHeader (VStackOffset 0) (VStackOffset 16)) SQWord "String" None).
Proof.
  apply (upgraded_rust_locations_captured default_config
           (mkTI "String" SQWord 24 false true false false false false false 0 EmptyString EmptyString 0 None) (VStackOffset 0) 8); try reflexivity.
  - split; vm_compute; intros; discriminate.
  - intros _. by do 2 right; left.
  - intros Ha. vm_compute in Ha. discriminate.
Defined.

Lemma upgraded_locations_captured_witness :
  go_admits default_config (mkRV "p" (VPiecewiseBlob [mkVP _ (Some (VFrameOffset Rbp (-32))) 16] 16) SQWord "main.Pair" None).
Proof.
  apply (upgraded_locations_captured default_config
           (mkTI "main.Pair" SQWord 16 false false false false true false false 0 EmptyString EmptyString 0 None) (VFrameOffset Rbp (-32)) 8
           (mkRV "p" (VPiecewiseBlob [mkVP _ (Some (VFrameOffset Rbp (-32))) 16] 16) SQWord "main.Pair" None));
    try reflexivity; [split; vm_compute; intros; discriminate|].
  intros _. repeat split; vm_compute; (reflexivity || (intros; discriminate)).
Defined.
