(* ===== verification/DwarfResolve.v ===== *)
(** * Resolving a probe point

    The search half of [crates/detrix-ebpf/src/dwarf/parser.rs]: a file and a line
    become program counters ([resolve_line_to_pcs]), a program counter a function
    name and the variables in scope there ([find_function_at_pc],
    [resolve_variables_at_pc]), and the candidates a probe point
    ([resolve_probe_point_with_diagnostics]).

    What the DWARF library reads out of the binary is data: compilation units with
    their line rows and their entries in depth-first order, every read with the
    error it may give.  The type and nested type of an entry ([typeinfo.rs],
    [nested_types.rs]) are part of that data.  [Debug] and hash-map order are
    parameters. *)

From Stdlib Require Import Strings.String Strings.Ascii Init.Byte Permutation Sorting.Sorted.
From S2P Require Import Prelude RustStr RustText Dwarf TypeInfo MemReader Policy ProbeValue DwarfLocate.

Local Open Scope string_scope.

(** ** Debug information *)

(** An iterator of the library: reading stops at the first error. *)
Definition reads (A : Type) : Type := list (result A EbpfError).

Record FileEntry : Type := mkFile { fe_path_name : result string EbpfError; fe_directory : option (result string EbpfError) }.
Record LineRow : Type := mkRow { row_line : option N; row_address : N; row_file : option FileEntry }.

Inductive DieTag : Type := TagSubprogram | TagInlined | TagLexicalBlock | TagVariable | TagParameter | TagOther.
Inductive NameAttr : Type := NDebugStr (s : result string EbpfError) | NInline (s : result string EbpfError) | NOtherForm.
Inductive LocationAttr : Type :=
| LExprloc (ops : list (result Operation string))
| LList (entries : result (reads ((N * N) * list (result Operation string))) EbpfError)
| LOtherForm.

Record Die : Type := mkDie {
  die_tag : DieTag;
  die_name : option NameAttr;
  die_ranges : result (reads (N * N)) EbpfError;
  die_location : option LocationAttr;
  die_byte_size : option N;
  die_type_info : result TypeInfo EbpfError;
  die_nested_type : result NestedType EbpfError
}.

(** The entries of a unit come with their depth. *)
Record DwarfUnit : Type := mkUnit {
  u_comp_dir : option string;
  u_rows : option (reads LineRow);
  u_entries : reads (N * Die)
}.
Definition DwarfData : Type := reads DwarfUnit.

(** Run [f] over what an iterator yields. *)
Fixpoint for_each {A S : Type} (f : A -> S -> result S EbpfError) (l : reads A) (s : S) : result S EbpfError :=
  match l with
  | [] => Ok s
  | Err e :: _ => Err e
  | Ok a :: l => let? s := f a s in for_each f l s
  end.

(** ** Lines *)

Definition file_path (comp_dir : option string) (entry : FileEntry) : result string EbpfError :=
  let? name := fe_path_name entry in
  let under dir := if str_is_empty dir then name else dir ++ "/" ++ name in
  if starts_with "/" name then Ok name
  else match fe_directory entry with
  | Some dir => let? dir := dir in Ok (under dir)
  | None => Ok (match comp_dir with Some cd => under cd | None => name end)
  end.

(** A row of the file, with its line and address. *)
Definition path_matches (path file : string) : bool := ends_with file path || ends_with path file.

Definition row_candidate (comp_dir : option string) (file : string) (row : LineRow) (found : list (N * N)) : result (list (N * N)) EbpfError :=
  match row_line row with
  | None => Ok found
  | Some line =>
      if (row_address row =? 0)%N then Ok found
      else match row_file row with
      | None => Ok found
      | Some entry =>
          let? path := file_path comp_dir entry in
          Ok (if path_matches path file then found ++ [(line, row_address row)] else found)%list
      end
  end.

Definition unit_candidates (file : string) (u : DwarfUnit) (found : list (N * N)) : result (list (N * N)) EbpfError :=
  match u_rows u with
  | None => Ok found
  | Some rows => for_each (row_candidate (u_comp_dir u) file) rows found
  end.

(** The smallest of the lines at or after [target]. *)
Definition line_at_or_after (target : N) (found : list (N * N)) : option N :=
  fold_left (fun best c => if (target <=? fst c)%N then Some (match best with Some b => N.min b (fst c) | None => fst c end) else best) found None.

(** [sort_unstable_by(|a, b| b.cmp(a))] and [dedup] *)
Fixpoint insert_desc (x : N) (l : list N) : list N :=
  match l with
  | [] => [x]
  | y :: l' => if (y <? x)%N then x :: l else y :: insert_desc x l'
  end.
Definition sort_desc (l : list N) : list N := fold_right insert_desc [] l.
Fixpoint dedup (l : list N) : list N :=
  match l with
  | [] => []
  | x :: l' => match l' with y :: _ => if (x =? y)%N then dedup l' else x :: dedup l' | [] => [x] end
  end.

(** The first paths seen, in order, for the error message (a [BTreeSet] that stops
    growing at 25); its text is a parameter. *)
Section Lines.
Context (sample_paths : DwarfData -> string).

Definition at_file (file : string) (line : N) : string := file ++ ":" ++ show_N line.

Definition resolve_line_to_pcs (dwarf : DwarfData) (file : string) (line : N) : result (list N) EbpfError :=
  if (line =? 0)%N then Err (EDwarfParse "Line number must be > 0")
  else
    let? found := for_each (unit_candidates file) dwarf [] in
    match found with
    | [] => Err (EDwarfParse ("No PC found for " ++ at_file file line ++ " (file not found in DWARF; sample DWARF paths: ["
                              ++ sample_paths dwarf ++ "])"))
    | _ =>
        let? selected :=
          if existsb (fun c => (fst c =? line)%N) found then Ok line
          else ok_or (line_at_or_after line found)
                 (EDwarfParse ("No PC found for " ++ at_file file line ++ " (no DWARF entry at or after that line)")) in
        Ok (dedup (sort_desc (map snd (List.filter (fun c => (fst c =? selected)%N) found))))
    end.
End Lines.

(** ** Entries *)

Definition read_die_name (d : Die) : result (option string) EbpfError :=
  match die_name d with
  | Some (NDebugStr s) | Some (NInline s) => res_map Some s
  | Some NOtherForm | None => Ok None
  end.

Definition in_range (pc : N) (r : N * N) : bool := ((fst r <=? pc) && (pc <? snd r))%N.

(** Whether some range holds [pc], reading no further than the first that does. *)
Fixpoint any_range (pc : N) (l : reads (N * N)) : result bool EbpfError :=
  match l with
  | [] => Ok false
  | Err e :: _ => Err e
  | Ok r :: l => if in_range pc r then Ok true else any_range pc l
  end.

(** An entry without ranges is where its parent is. *)
Definition die_contains_pc (d : Die) (pc : N) : result bool EbpfError :=
  let? ranges := die_ranges d in
  match ranges with [] => Ok true | _ => any_range pc ranges end.

Fixpoint function_in (pc : N) (entries : reads (N * Die)) : result (option string) EbpfError :=
  match entries with
  | [] => Ok None
  | Err e :: _ => Err e
  | Ok (_, d) :: entries =>
      match die_tag d with
      | TagSubprogram =>
          let? ranges := die_ranges d in
          let? matches := any_range pc ranges in
          if matches then let? name := read_die_name d in match name with Some n => Ok (Some n) | None => function_in pc entries end
          else function_in pc entries
      | _ => function_in pc entries
      end
  end.

Fixpoint find_function_at_pc (dwarf : DwarfData) (pc : N) : result string EbpfError :=
  match dwarf with
  | [] => Err (EDwarfParse ("No function found at PC " ++ hex_prefixed pc))
  | Err e :: _ => Err e
  | Ok u :: dwarf =>
      let? f := function_in pc (u_entries u) in
      match f with Some name => Ok name | None => find_function_at_pc dwarf pc end
  end.

(** ** Variables *)

Section Variables_.
Context (debug_atom : LocationAtom -> string) (arch : TargetArchitecture).
Context (cfa_register : option Register) (cfa_offset : Z) (pc : N).

Definition evaluate (ops : list (result Operation string)) : result (option (list VariablePiece)) EbpfError :=
  evaluate_location_expr debug_atom arch cfa_register cfa_offset ops.

Fixpoint list_entry (l : reads ((N * N) * list (result Operation string))) : result (option (list VariablePiece)) EbpfError :=
  match l with
  | [] => Ok None
  | Err e :: _ => Err e
  | Ok (range, ops) :: l => if in_range pc range then evaluate ops else list_entry l
  end.

Definition resolve_location_attr (d : Die) : result (option (list VariablePiece)) EbpfError :=
  match die_location d with
  | None => Ok None
  | Some (LExprloc ops) => evaluate ops
  | Some (LList entries) => let? entries := entries in list_entry entries
  | Some LOtherForm => Ok None
  end.

Definition resolve_type_size (d : Die) : option VariableSize := size ← die_byte_size d; from_byte_size size.

(** The name in the source; an ampersand before it marks an escaped variable. *)
Definition canonical_name (raw : string) : string := match strip_prefix "&" raw with Some s => s | None => raw end.

Definition should_resolve_nested (t : TypeInfo) : bool :=
  ti_is_struct t || ti_is_enum t || contains "." (ti_name t) || starts_with "map[" (ti_name t).

Context (requested_vars : list string).

Definition is_requested (name : string) : bool :=
  match requested_vars with [] => true | _ => existsb (String.eqb name) requested_vars end.

(** An entry in scope: the variable it describes, if it has a usable location. *)
Definition resolve_entry (d : Die) : result (option ResolvedVariable) EbpfError :=
  match die_tag d with
  | TagVariable | TagParameter =>
      let? raw := read_die_name d in
      match raw with
      | None => Ok None
      | Some raw =>
          let name := canonical_name raw in
          if negb (is_requested name) then Ok None
          else
            let? locations := resolve_location_attr d in
            match locations with
            | None => Ok None
            | Some locations =>
                let? t := die_type_info d in
                let size := match ti_size t with SQWord => default (ti_size t) (resolve_type_size d) | s => s end in
                let? location := upgrade_location_for_type locations t in
                let nested := if should_resolve_nested t then match die_nested_type d with Ok n => Some n | Err _ => None end else None in
                Ok (Some (mkRV name location size (ti_name t) nested))
            end
      end
  | _ => Ok None
  end.

Definition is_scope_tag (t : DieTag) : bool := match t with TagSubprogram | TagInlined | TagLexicalBlock => true | _ => false end.

(** The walk over the entries of a unit: the stack holds, for every depth, whether
    the entry there is in scope. *)
Definition enter (depth : N) (d : Die) (scope_stack : list bool) : result (list bool * bool) EbpfError :=
  let scope_stack := take (N.to_nat depth) scope_stack in
  let parent_active := List.last scope_stack true in
  let? active := if is_scope_tag (die_tag d) then (if parent_active then die_contains_pc d pc else Ok false) else Ok parent_active in
  Ok ((scope_stack ++ [active])%list, active).

Definition visit (entry : N * Die) (s : list bool * list ResolvedVariable) : result (list bool * list ResolvedVariable) EbpfError :=
  let? (scope_stack, active) := enter (fst entry) (snd entry) (fst s) in
  if active then
    let? v := resolve_entry (snd entry) in
    Ok (scope_stack, match v with Some v => snd s ++ [v] | None => snd s end)%list
  else Ok (scope_stack, snd s).

Definition unit_variables (u : DwarfUnit) (resolved : list ResolvedVariable) : result (list ResolvedVariable) EbpfError :=
  let? (_, resolved) := for_each visit (u_entries u) ([], resolved) in Ok resolved.

(** *** One variable per name *)

Definition name_position (resolved : list ResolvedVariable) (v : ResolvedVariable) : nat :=
  match list_find (fun r => rv_name r = rv_name v) resolved with Some (i, _) => i | None => O end.

(** Indices of the first variable of each name: the values of the hash map, in the
    order the map has them. *)
Definition first_indices (resolved : list ResolvedVariable) : list nat :=
  List.filter (fun i => match resolved !! i with Some v => Nat.eqb (name_position resolved v) i | None => false end) (seq 0 (length resolved)).

Fixpoint insert_by_key {A : Type} (key : A -> nat) (x : A) (l : list A) : list A :=
  match l with
  | [] => [x]
  | y :: l' => if Nat.ltb (key x) (key y) then x :: l else y :: insert_by_key key x l'
  end.
(** [sort_by_key], which is stable *)
Definition sort_by_key {A : Type} (key : A -> nat) (l : list A) : list A := fold_left (fun acc x => insert_by_key key x acc) l [].

(** [hash_order] is the order in which the hash map yields the indices. *)
Context (hash_order : list nat -> list nat).
Definition dedup_by_name (resolved : list ResolvedVariable) : list ResolvedVariable :=
  sort_by_key (name_position resolved) (omap (fun i => resolved !! i) (hash_order (first_indices resolved))).

Definition resolve_variables_at_pc (dwarf : DwarfData) : result (list ResolvedVariable) EbpfError :=
  let? resolved := for_each unit_variables dwarf [] in Ok (dedup_by_name resolved).
End Variables_.

(** Whether a location attribute has at least one operation. *)
Definition first_operation (ops : list (result Operation string)) : result bool EbpfError :=
  match ops with [] => Ok false | Err e :: _ => Err (EDwarfParse ("location operation: " ++ e)) | Ok _ :: _ => Ok true end.
Fixpoint some_operation (l : reads ((N * N) * list (result Operation string))) : result bool EbpfError :=
  match l with
  | [] => Ok false
  | Err e :: _ => Err e
  | Ok (_, ops) :: l => let? some := first_operation ops in if some then Ok true else some_operation l
  end.
Definition usable_location_attribute (a : LocationAttr) : result bool EbpfError :=
  match a with
  | LExprloc ops => first_operation ops
  | LList entries => let? entries := entries in some_operation entries
  | LOtherForm => Ok false
  end.

Fixpoint usable_entries (entries : reads (N * Die)) : result bool EbpfError :=
  match entries with
  | [] => Ok false
  | Err e :: _ => Err e
  | Ok (_, d) :: entries =>
      match die_tag d with
      | TagVariable | TagParameter =>
          let? usable := match die_location d with Some a => usable_location_attribute a | None => Ok false end in
          if usable then Ok true else usable_entries entries
      | _ => usable_entries entries
      end
  end.
Fixpoint has_usable_variable_dwarf (dwarf : DwarfData) : result bool EbpfError :=
  match dwarf with
  | [] => Ok false
  | Err e :: _ => Err e
  | Ok u :: dwarf => let? usable := usable_entries (u_entries u) in if usable then Ok true else has_usable_variable_dwarf dwarf
  end.

(** ** Probe points *)

Record ProbePcCandidate : Type := mkPpc { ppc_pc : N; ppc_available : N; ppc_requested : N }.
Record ProbeResolutionDiagnostics : Type := mkPrd { prd_selected_pc : N; prd_candidates : list ProbePcCandidate; prd_rejections : list string }.

(** The image a probe is resolved in: its debug information, the frame base of a
    program counter, and where its text section is in memory and in the file. *)
Record DwarfInfo : Type := mkInfo {
  di_binary_path : string;
  di_architecture : TargetArchitecture;
  di_dwarf : DwarfData;
  di_cfa_base : N -> option Register * Z;
  di_text_base : N;
  di_text_file_offset : N
}.

Section Probe.
Context (debug_atom : LocationAtom -> string) (sample_paths : DwarfData -> string) (hash_order : list nat -> list nat).
Context (info : DwarfInfo) (requested_vars : list string).

Definition count_available (variables : list ResolvedVariable) : N :=
  lenN (List.filter (fun name => existsb (fun v => String.eqb (rv_name v) name) variables) requested_vars).

Definition candidate_at (pc : N) : result (PcCandidate (string * list ResolvedVariable) * list string) EbpfError :=
  let '(name, note) :=
    match find_function_at_pc (di_dwarf info) pc with
    | Ok name => (name, [])
    | Err e => ("<unknown>", ["PC " ++ hex_prefixed pc ++ ": no containing subprogram (" ++ ebpf_error_text e ++ "); using unknown name"])
    end in
  let '(cfa_register, cfa_offset) := di_cfa_base info pc in
  let? variables := resolve_variables_at_pc debug_atom (di_architecture info) cfa_register cfa_offset pc requested_vars hash_order (di_dwarf info) in
  let available := count_available variables in
  let short := if (available <? lenN requested_vars)%N
               then ["PC " ++ hex_prefixed pc ++ ": only " ++ show_N available ++ "/" ++ show_N (lenN requested_vars)
                     ++ " requested variables have usable locations"] else [] in
  Ok (mkPc pc (name, variables) available (lenN requested_vars), (note ++ short)%list).

Definition resolve_probe_point_with_diagnostics (file : string) (line : N) : result (ProbePoint * ProbeResolutionDiagnostics) EbpfError :=
  let? pcs := resolve_line_to_pcs sample_paths (di_dwarf info) file line in
  let? found := collect_results candidate_at pcs in
  let? selected := ok_or (select_best (map fst found)) (EDwarfParse ("No executable PC found for " ++ at_file file line)) in
  let pc := pc_pc selected in
  let '(function_name, variables) := pc_value selected in
  Ok (mkPP (di_binary_path info) pc (u64_saturating_add (di_text_file_offset info) (pc - di_text_base info)) function_name variables,
      mkPrd pc (map (fun c => mkPpc (pc_pc (fst c)) (pc_available (fst c)) (pc_requested (fst c))) found) (concat (map snd found))).

Definition resolve_probe_point (file : string) (line : N) : result ProbePoint EbpfError :=
  res_map fst (resolve_probe_point_with_diagnostics file line).
End Probe.
