(* ===== verification/DwarfOutcomes.v ===== *)
(** * What probe resolution finds

    [line_resolution]: the program counters of a line are exactly those of the
    nearest line of the file that has code.  [scopes_by_stack]: the walk with a
    stack of scopes visits the entries whose enclosing scopes all hold the program
    counter.  [first_of_each_name]: in whatever order the hash map answers, one
    variable per name remains, the first, in its place.  Then two cases where the
    search answers for the wrong file or not at all. *)

From Stdlib Require Import Strings.String Strings.Ascii Init.Byte Permutation Sorting.Sorted.
From S2P Require Import Prelude RustStr RustText Dwarf TypeInfo MemReader Policy ProbeValue DwarfLocate DwarfResolve.

Local Open Scope string_scope.

(** ** Lines *)

Definition row_at (comp_dir : option string) (file : string) (row : LineRow) (l pc : N) : Prop :=
  row_line row = Some l /\ row_address row = pc /\ pc <> 0%N /\
  exists entry path, row_file row = Some entry /\ file_path comp_dir entry = Ok path /\ path_matches path file = true.

(** Some row of the file has code for line [l] at [pc]. *)
Definition has_row (dwarf : DwarfData) (file : string) (l pc : N) : Prop :=
  exists u rows row, In (Ok u) dwarf /\ u_rows u = Some rows /\ In (Ok row) rows /\ row_at (u_comp_dir u) file row l pc.

Lemma for_each_collects {A B : Type} (f : A -> list B -> result (list B) EbpfError) (P : A -> B -> Prop) l s s' :
  (forall a s s', f a s = Ok s' -> forall b, In b s' <-> In b s \/ P a b) ->
  for_each f l s = Ok s' -> forall b, In b s' <-> In b s \/ exists a, In (Ok a) l /\ P a b.
Proof.
  intros Hf. revert s. induction l as [|[a|e] l IH]; intros s; cbn; [intros [= <-] b; split; [auto|intros [?|(? & [] & _)]; done]| |done].
  destruct (f a s) as [s1|] eqn:E; [|done]. cbn. intros H b. rewrite (IH _ H), (Hf _ _ _ E). split.
  - intros [[?|?]|(a' & ? & ?)]; [by left|right; exists a; auto|right; exists a'; auto].
  - intros [?|(a' & [[= <-]|?] & ?)]; [auto|auto|right; exists a'; auto].
Qed.

Lemma row_candidate_in comp_dir file row s s' : row_candidate comp_dir file row s = Ok s' ->
  forall b, In b s' <-> In b s \/ row_at comp_dir file row (fst b) (snd b).
Proof.
  unfold row_candidate, row_at. intros H b.
  destruct (row_line row) as [l|]; [|injection H as <-; naive_solver].
  destruct (N.eqb_spec (row_address row) 0) as [E0|E0];
    [injection H as <-; split; [auto|intros [?|(_ & E1 & E2 & _)]; [done|congruence]]|].
  destruct (row_file row) as [entry|];
    [|injection H as <-; split; [auto|intros [?|(_ & _ & _ & entry & path & E1 & _)]; done]].
  destruct (file_path comp_dir entry) as [path|] eqn:Ep; [|done]. cbn in H. injection H as <-.
  destruct (path_matches path file) eqn:Em.
  - rewrite in_app_iff. cbn. split; [intros [?|[<-|[]]]; [auto|right; cbn; naive_solver]|].
    intros [?|(E1 & E2 & _)]; [auto|]. right. left. destruct b; cbn in *. congruence.
  - split; [auto|]. intros [?|(_ & _ & _ & entry' & path' & [= <-] & E2 & E3)]; [done|]. congruence.
Qed.

Lemma candidates_in file dwarf found : for_each (unit_candidates file) dwarf [] = Ok found ->
  forall l pc, In (l, pc) found <-> has_row dwarf file l pc.
Proof.
  intros H l pc.
  assert (Hu : forall u s s', unit_candidates file u s = Ok s' -> forall b, In b s' <-> In b s \/ (fun u b => exists rows row, u_rows u = Some rows /\ In (Ok row) rows
             /\ row_at (u_comp_dir u) file row (fst b) (snd b)) u b).
  { intros u s s' Hs b. unfold unit_candidates in Hs. destruct (u_rows u) as [rows|]; [|injection Hs as <-; naive_solver].
    rewrite (for_each_collects _ _ _ _ _ (row_candidate_in (u_comp_dir u) file) Hs). naive_solver. }
  rewrite (for_each_collects _ _ _ _ _ Hu H). cbn. unfold has_row. naive_solver.
Qed.

(** *** The chosen line *)

Lemma line_fold target found best :
  fold_left (fun best (c : N * N) => if (target <=? fst c)%N then Some (match best with Some b => N.min b (fst c) | None => fst c end) else best) found best
  = match best, line_at_or_after target found with
    | Some b, Some m => Some (N.min b m) | Some b, None => Some b | None, r => r end.
Proof.
  unfold line_at_or_after. revert best. induction found as [|c found IH]; intros best; cbn [fold_left]; [by destruct best|].
  rewrite IH, (IH (if (target <=? fst c)%N then _ else _)). destruct (target <=? fst c)%N.
  - destruct best as [b|], (fold_left _ found None) as [m|]; cbn; f_equal; lia.
  - by destruct best as [b|], (fold_left _ found None) as [m|].
Qed.

Lemma line_at_or_after_spec target found m : line_at_or_after target found = Some m ->
  (target <= m)%N /\ In m (map fst found) /\ forall l, In l (map fst found) -> (target <= l)%N -> (m <= l)%N.
Proof.
  revert m. induction found as [|c found IH]; intros m; [done|].
  unfold line_at_or_after. cbn [fold_left]. rewrite line_fold. cbn [map]. destruct (N.leb_spec target (fst c)) as [Hle|Hgt].
  - destruct (line_at_or_after target found) as [m'|] eqn:E.
    + intros [= <-]. destruct (IH m' eq_refl) as (H1 & H2 & H3). split; [lia|]. split.
      * destruct (N.min_spec (fst c) m') as [[_ ->]|[_ ->]]; [by left|by right].
      * intros l [<-|Hl] Ht; [lia|]. specialize (H3 l Hl Ht). lia.
    + intros [= <-]. split; [done|]. split; [by left|]. intros l [<-|Hl] Ht; [lia|]. exfalso.
      clear IH. induction found as [|d found IHf]; [done|]. unfold line_at_or_after in E. cbn [fold_left] in E. rewrite line_fold in E.
      destruct Hl as [<-|Hl].
      * rewrite (proj2 (N.leb_le _ _) Ht) in E. by destruct (line_at_or_after target found).
      * destruct (target <=? fst d)%N; [by destruct (line_at_or_after target found)|]. by apply IHf.
  - intros E. destruct (IH m E) as (H1 & H2 & H3). split; [done|]. split; [by right|]. intros l [<-|Hl] Ht; [lia|auto].
Qed.

(** *** Sorting *)

Notation desc := (fun a b : N => b <= a)%N.

Lemma in_insert_desc x l y : In y (insert_desc x l) <-> y = x \/ In y l.
Proof. induction l as [|z l IH]; cbn; [naive_solver|]. destruct (z <? x)%N; cbn; [naive_solver|]. rewrite IH. naive_solver. Qed.

Lemma insert_desc_descending x l : StronglySorted desc l -> StronglySorted desc (insert_desc x l).
Proof.
  induction 1 as [|z l Hs IH Hz]; cbn; [repeat constructor|]. destruct (N.ltb_spec z x).
  - constructor; [by constructor|]. constructor; [lia|]. eapply List.Forall_impl; [|exact Hz]. cbn. lia.
  - constructor; [done|]. rewrite List.Forall_forall in *. intros y [->|Hy]%in_insert_desc; [done|auto].
Qed.

Lemma sort_desc_spec l : StronglySorted desc (sort_desc l) /\ forall x, In x (sort_desc l) <-> In x l.
Proof.
  induction l as [|y l [IHs IHi]]; cbn; [split; [constructor|done]|]. split; [by apply insert_desc_descending|].
  intros x. rewrite in_insert_desc, IHi. naive_solver.
Qed.

Lemma dedup_in l x : In x (dedup l) <-> In x l.
Proof.
  induction l as [|y l IH]; [done|]. cbn [dedup]. destruct l as [|z l]; [done|]. destruct (N.eqb_spec y z) as [->|].
  - rewrite IH. cbn. naive_solver.
  - cbn [In]. rewrite IH. done.
Qed.

Lemma dedup_strict l : StronglySorted desc l -> StronglySorted (fun a b => b < a)%N (dedup l).
Proof.
  induction 1 as [|y l Hs IH Hy]; [constructor|]. cbn [dedup]. destruct l as [|z l]; [repeat constructor|].
  destruct (N.eqb_spec y z) as [->|Hne]; [done|]. constructor; [done|]. apply List.Forall_forall. intros x Hx. apply (proj1 (dedup_in _ _)) in Hx.
  inversion_clear Hy. apply StronglySorted_inv in Hs as [_ Hz]. rewrite List.Forall_forall in Hz.
  apply in_inv in Hx as [<-|Hx]; [lia|]. specialize (Hz _ Hx). lia.
Qed.

(** The program counters of a line: those of the nearest line of the file, at or
    after it, that has code, each once, from the highest down. *)
Theorem line_resolution sample_paths dwarf file line pcs :
  resolve_line_to_pcs sample_paths dwarf file line = Ok pcs ->
  exists selected, (line <= selected)%N /\ pcs <> [] /\ StronglySorted (fun a b => b < a)%N pcs /\
    (forall pc, In pc pcs <-> has_row dwarf file selected pc) /\
    (forall l pc, has_row dwarf file l pc -> (line <= l)%N -> (selected <= l)%N).
Proof.
  unfold resolve_line_to_pcs. destruct (N.eqb_spec line 0); [done|].
  destruct (for_each (unit_candidates file) dwarf []) as [found|] eqn:Ef; [|done]. cbn [res_bind].
  pose proof (candidates_in _ _ _ Ef) as Hin.
  assert (Hfinish : forall sel, (line <= sel)%N -> In sel (map fst found) -> (forall l, In l (map fst found) -> (line <= l)%N -> (sel <= l)%N) ->
    let pcs := dedup (sort_desc (map snd (List.filter (fun c => (fst c =? sel)%N) found))) in
    exists selected, (line <= selected)%N /\ pcs <> [] /\ StronglySorted (fun a b => b < a)%N pcs /\
      (forall pc, In pc pcs <-> has_row dwarf file selected pc) /\ (forall l pc, has_row dwarf file l pc -> (line <= l)%N -> (selected <= l)%N)).
  { intros sel Hle Hsel Hmin ps. exists sel. split; [done|].
    assert (Hpcs : forall pc, In pc ps <-> has_row dwarf file sel pc).
    { intros pc. unfold ps. rewrite dedup_in, (proj2 (sort_desc_spec _)), in_map_iff, <- Hin. split.
      - intros ([l p] & <- & [Hc E%N.eqb_eq]%filter_In). cbn in *. by subst l.
      - intros Hc. exists (sel, pc). split; [done|]. apply filter_In. split; [done|]. apply N.eqb_refl. }
    split; [|split; [|split; [done|]]].
    - apply in_map_iff in Hsel as ([l p] & E & Hc). cbn in E. subst l. intros E. assert (Hp : In p ps) by (apply Hpcs, Hin; done). by rewrite E in Hp.
    - apply dedup_strict, sort_desc_spec.
    - intros l pc Hrow Hl. apply Hmin; [|done]. apply in_map_iff. exists (l, pc). split; [done|]. by apply Hin. }
  destruct found as [|c found]; [done|]. set (all := c :: found) in *.
  destruct (existsb (fun c => (fst c =? line)%N) all) eqn:Ex; cbn [res_bind].
  - intros [= <-]. apply existsb_exists in Ex as (d & Hd & E%N.eqb_eq). apply Hfinish; [lia| |lia]. apply in_map_iff. eauto.
  - destruct (line_at_or_after line all) as [m|] eqn:Em; [|done]. cbn [ok_or res_bind]. intros [= <-].
    destruct (line_at_or_after_spec _ _ _ Em) as (H1 & H2 & H3). by apply Hfinish.
Qed.

(** ** One variable per name *)

Lemma strictly_sorted_unique {A : Type} (key : A -> nat) (l1 l2 : list A) :
  StronglySorted (fun a b => (key a < key b)%nat) l1 -> StronglySorted (fun a b => (key a < key b)%nat) l2 -> Permutation l1 l2 -> l1 = l2.
Proof.
  intros H1. revert l2. induction H1 as [|a l1 Hs IH Ha]; intros l2 H2 Hp; [by apply Permutation_nil in Hp|].
  destruct H2 as [|b l2 Hs2 Hb]; [by apply Permutation_sym, Permutation_nil in Hp|].
  assert (a = b) as ->.
  { rewrite List.Forall_forall in Ha, Hb.
    assert (Hin1 : In a (b :: l2)) by (eapply Permutation_in; [exact Hp|by left]).
    assert (Hin2 : In b (a :: l1)) by (eapply Permutation_in; [exact (Permutation_sym Hp)|by left]).
    destruct Hin1 as [?|Hin1]; [congruence|]. destruct Hin2 as [?|Hin2]; [congruence|]. specialize (Ha _ Hin2). specialize (Hb _ Hin1). lia. }
  f_equal. apply IH; [done|]. by apply Permutation_cons_inv in Hp.
Qed.

Section SortByKey.
Context {A : Type} (key : A -> nat).

Lemma insert_by_key_perm x l : Permutation (insert_by_key key x l) (x :: l).
Proof. induction l as [|y l IH]; cbn [insert_by_key]; [reflexivity|]. destruct (Nat.ltb (key x) (key y)); [reflexivity|]. rewrite IH. apply perm_swap. Qed.

Lemma insert_by_key_sorted x l :
  Forall (fun y => key y <> key x) l -> StronglySorted (fun a b => (key a < key b)%nat) l ->
  StronglySorted (fun a b => (key a < key b)%nat) (insert_by_key key x l).
Proof.
  intros Hne. induction 1 as [|y l Hs IH Hy]; cbn [insert_by_key]; [repeat constructor|]. inversion_clear Hne as [|? ? Hxy Hr].
  destruct (Nat.ltb_spec (key x) (key y)).
  - constructor; [by constructor|]. constructor; [done|]. eapply List.Forall_impl; [|exact Hy]. cbn. lia.
  - constructor; [by apply IH|]. eapply Permutation_Forall; [symmetry; apply insert_by_key_perm|]. constructor; [lia|done].
Qed.

Lemma sort_by_key_spec l : NoDup (map key l) ->
  Permutation (sort_by_key key l) l /\ StronglySorted (fun a b => (key a < key b)%nat) (sort_by_key key l).
Proof.
  unfold sort_by_key. intros Hnd.
  enough (H : forall acc, NoDup (map key (l ++ acc)) -> StronglySorted (fun a b => (key a < key b)%nat) acc ->
            Permutation (fold_left (fun acc x => insert_by_key key x acc) l acc) (l ++ acc) /\
            StronglySorted (fun a b => (key a < key b)%nat) (fold_left (fun acc x => insert_by_key key x acc) l acc)).
  { destruct (H []) as [Hp Hs]; [by rewrite app_nil_r|constructor|]. by rewrite app_nil_r in Hp. }
  clear Hnd. induction l as [|x l IH]; intros acc Hnd Hs; cbn [fold_left app]; [done|].
  cbn [app map] in Hnd. apply list.NoDup_cons in Hnd as [Hx Hnd].
  destruct (IH (insert_by_key key x acc)) as [Hp Hs'].
  - rewrite insert_by_key_perm, <- Permutation_middle. cbn [map]. by apply list.NoDup_cons.
  - apply insert_by_key_sorted; [|done]. apply List.Forall_forall. intros y Hy E. apply Hx. rewrite <- E.
    apply list_elem_of_In, in_map, in_or_app. by right.
  - split; [|done]. rewrite Hp, insert_by_key_perm. by rewrite <- Permutation_middle.
Qed.
End SortByKey.

Lemma first_index_key resolved i v : In i (first_indices resolved) -> resolved !! i = Some v -> name_position resolved v = i.
Proof. unfold first_indices. intros [_ H]%filter_In Hv. rewrite Hv in H. by apply Nat.eqb_eq in H. Qed.

Lemma filter_sorted {A : Type} (R : A -> A -> Prop) (f : A -> bool) (l : list A) : StronglySorted R l -> StronglySorted R (List.filter f l).
Proof.
  induction 1 as [|x l Hs IH Hx]; cbn; [constructor|]. destruct (f x); [|done]. constructor; [done|].
  rewrite List.Forall_forall in *. intros y [Hy _]%filter_In. auto.
Qed.

Lemma seq_sorted a n : StronglySorted lt (seq a n).
Proof.
  revert a. induction n as [|n IH]; intros a; cbn; [constructor|]. constructor; [done|].
  apply List.Forall_forall. intros x Hx%in_seq. lia.
Qed.

Lemma first_indices_sorted resolved : StronglySorted lt (first_indices resolved).
Proof. apply filter_sorted, seq_sorted. Qed.

Lemma first_keys resolved l : (forall i, In i l -> In i (first_indices resolved)) ->
  map (name_position resolved) (omap (fun i => resolved !! i) l) = l.
Proof.
  induction l as [|i l IH]; intros Hl; [done|]. cbn [omap list_omap].
  pose proof (Hl i (or_introl eq_refl)) as Hi. destruct (resolved !! i) as [v|] eqn:E.
  - cbn [map]. rewrite (first_index_key _ _ _ Hi E). f_equal. apply IH. intros j Hj. apply Hl. by right.
  - exfalso. unfold first_indices in Hi. apply filter_In in Hi as [_ Hi]. by rewrite E in Hi.
Qed.

Lemma sorted_by_image {A : Type} (key : A -> nat) l : StronglySorted lt (map key l) -> StronglySorted (fun a b => (key a < key b)%nat) l.
Proof.
  induction l as [|x l IH]; intros H; [constructor|]. cbn [map] in H. apply StronglySorted_inv in H as [Hs Hx].
  constructor; [by apply IH|]. rewrite List.Forall_forall in *. intros y Hy. by apply Hx, in_map.
Qed.

Lemma sorted_nodup (l : list nat) : StronglySorted lt l -> NoDup l.
Proof.
  induction 1 as [|x l Hs IH Hx]; [constructor|]. constructor; [|done]. rewrite List.Forall_forall in Hx.
  intros Hin%list_elem_of_In. specialize (Hx _ Hin). lia.
Qed.

(** Keep the variables whose name has not been seen. *)
Fixpoint keep_first (seen : list string) (l : list ResolvedVariable) : list ResolvedVariable :=
  match l with
  | [] => []
  | v :: l => ((if decide (rv_name v ∈ seen) then [] else [v]) ++ keep_first (seen ++ [rv_name v]) l)%list
  end.

Lemma name_position_first pre v l : name_position (pre ++ v :: l) v = length pre <-> rv_name v ∉ map rv_name pre.
Proof.
  unfold name_position. destruct (list_find _ (pre ++ v :: l)) as [[i w]|] eqn:E.
  - apply list_find_Some in E as (Hi & Hw & Hmin). split.
    + intros -> (w' & Hn & [j Hj]%list_elem_of_lookup)%list_elem_of_fmap. apply (Hmin j w').
      * by apply lookup_app_l_Some.
      * by apply lookup_lt_Some in Hj.
      * done.
    + intros Hfresh. destruct (Nat.lt_trichotomy i (length pre)) as [Hlt|[->|Hgt]]; [|done|].
      * exfalso. apply Hfresh. rewrite lookup_app_l in Hi by done. rewrite <- Hw. apply list_elem_of_fmap. exists w. split; [done|].
        by eapply list_elem_of_lookup_2.
      * exfalso. apply (Hmin (length pre) v); [by apply list_lookup_middle|done|done].
  - exfalso. apply list_find_None in E. apply Forall_app in E as [_ E]. by inversion_clear E.
Qed.

Lemma first_indices_keep pre l :
  omap (fun i => (pre ++ l)%list !! i)
    (List.filter (fun i => match (pre ++ l)%list !! i with Some v => Nat.eqb (name_position (pre ++ l) v) i | None => false end)
       (seq (length pre) (length l))) = keep_first (map rv_name pre) l.
Proof.
  revert pre. induction l as [|v l IH]; intros pre; [done|]. cbn [length seq List.filter keep_first].
  assert (Hv : (pre ++ v :: l)%list !! length pre = Some v) by by apply list_lookup_middle. rewrite Hv.
  specialize (IH (pre ++ [v])%list). rewrite <- app_assoc, length_app, map_app in IH. cbn [app length map] in IH. rewrite Nat.add_1_r in IH.
  destruct (decide _) as [Hin|Hin].
  - rewrite (proj2 (Nat.eqb_neq _ _)) by (intros E%name_position_first; done). done.
  - rewrite (proj2 (Nat.eqb_eq _ _)) by by apply name_position_first. cbn [omap list_omap]. rewrite Hv. by f_equal.
Qed.

(** One variable per name: whatever the order in which the hash map yields its
    entries, what remains is the first variable of each name, in the order found. *)
Theorem first_of_each_name hash_order resolved : (forall l, Permutation (hash_order l) l) ->
  dedup_by_name hash_order resolved = keep_first [] resolved.
Proof.
  intros Horder. change (keep_first [] resolved) with (keep_first (map rv_name []) resolved). rewrite <- (first_indices_keep [] resolved). change ([] ++ resolved)%list with resolved.
  change (List.filter _ (seq _ _)) with (first_indices resolved). unfold dedup_by_name.
  set (idx := first_indices resolved). set (get := omap (fun i => resolved !! i)).
  assert (Hmem : forall i, In i (hash_order idx) -> In i idx) by (intros i; apply Permutation_in, Horder).
  assert (Hk : map (name_position resolved) (get (hash_order idx)) = hash_order idx) by by apply first_keys.
  assert (Hk0 : map (name_position resolved) (get idx) = idx) by (apply first_keys; done).
  pose proof (first_indices_sorted resolved) as Hs. fold idx in Hs.
  destruct (sort_by_key_spec (name_position resolved) (get (hash_order idx))) as [Hp Hsorted].
  { rewrite Hk, Horder. by apply sorted_nodup. }
  apply (strictly_sorted_unique (name_position resolved)); [done|apply sorted_by_image; by rewrite Hk0|].
  rewrite Hp. unfold get. by rewrite Horder.
Qed.

(** ** Scopes *)

(** The entries of a unit as the tree they come from. *)
Inductive DieTree : Type := DNode (d : Die) (children : list DieTree).

Fixpoint flatten (depth : N) (t : DieTree) : reads (N * Die) :=
  let '(DNode d children) := t in Ok (depth, d) :: flat_map (flatten (depth + 1)%N) children.

Definition DieTree_strong_ind (P : DieTree -> Prop) (H : forall d children, Forall P children -> P (DNode d children)) : forall t, P t :=
  fix go t := match t with DNode d children =>
    H d children ((fix all l : Forall P l := match l with [] => @List.Forall_nil _ P | t :: l => @List.Forall_cons _ P t l (go t) (all l) end) children) end.

Section Scopes.
Context (debug_atom : LocationAtom -> string) (arch : TargetArchitecture).
Context (cfa_register : option Register) (cfa_offset : Z) (pc : N) (requested_vars : list string).

Notation visit_ := (visit debug_atom arch cfa_register cfa_offset pc requested_vars).
Notation resolve_entry_ := (resolve_entry debug_atom arch cfa_register cfa_offset pc requested_vars).

Definition fold_ok {A S : Type} (f : A -> S -> result S EbpfError) : list A -> S -> result S EbpfError :=
  fix go l s := match l with [] => Ok s | a :: l => let? s := f a s in go l s end.

(** What a scope holds: an entry is visible when it is inside every scope around
    it, and the children of an entry that is not are not looked at. *)
Fixpoint visible_variables (parent_active : bool) (t : DieTree) (found : list ResolvedVariable) : result (list ResolvedVariable) EbpfError :=
  let '(DNode d children) := t in
  let? active := if is_scope_tag (die_tag d) then (if parent_active then die_contains_pc d pc else Ok false) else Ok parent_active in
  let? v := if active then resolve_entry_ d else Ok None in
  fold_ok (visible_variables active) children (found ++ match v with Some v => [v] | None => [] end)%list.

Lemma for_each_app {A S : Type} (f : A -> S -> result S EbpfError) l1 l2 s :
  for_each f (l1 ++ l2)%list s = (let? s := for_each f l1 s in for_each f l2 s).
Proof. revert s. induction l1 as [|[a|e] l1 IH]; intros s; cbn; [done| |done]. destruct (f a s); cbn; [apply IH|done]. Qed.

(** The stack under an entry stays as it was when the entry was entered. *)
Definition walks (t : DieTree) : Prop :=
  forall base stack found, take (length base) stack = base ->
  match visible_variables (List.last base true) t found with
  | Ok found' => exists stack', for_each visit_ (flatten (lenN base) t) (stack, found) = Ok (stack', found') /\ take (length base) stack' = base
  | Err e => for_each visit_ (flatten (lenN base) t) (stack, found) = Err e
  end.

Lemma walks_children base children : Forall walks children -> forall stack found, take (length base) stack = base ->
  match fold_ok (visible_variables (List.last base true)) children found with
  | Ok found' => exists stack', for_each visit_ (flat_map (flatten (lenN base)) children) (stack, found) = Ok (stack', found') /\ take (length base) stack' = base
  | Err e => for_each visit_ (flat_map (flatten (lenN base)) children) (stack, found) = Err e
  end.
Proof.
  induction 1 as [|t children Ht _ IH]; intros stack found Hb; cbn; [eauto|]. rewrite for_each_app.
  specialize (Ht base stack found Hb). destruct (visible_variables _ t found) as [found'|e]; cbn [res_bind]; [|by rewrite Ht].
  destruct Ht as (stack' & -> & Hb'). cbn [res_bind]. exact (IH stack' found' Hb').
Qed.

Lemma walks_all t : walks t.
Proof.
  induction t as [d children Hc] using DieTree_strong_ind. intros base stack found Hb. cbn [visible_variables flatten for_each].
  assert (Htake : take (N.to_nat (lenN base)) stack = base) by (rewrite <- Hb at 2; f_equal; unfold lenN; lia).
  set (entered := if is_scope_tag (die_tag d) then _ else _).
  assert (Hv : visit_ (lenN base, d) (stack, found) =
    (let? active := entered in let? v := if active then resolve_entry_ d else Ok None in
     Ok (base ++ [active], found ++ match v with Some v => [v] | None => [] end)%list)).
  { unfold visit, enter. cbn [fst snd]. rewrite Htake. fold entered. destruct entered as [active|]; [|done]. cbn [res_bind].
    destruct active; [|cbn; by rewrite app_nil_r]. destruct (resolve_entry_ d) as [[v|]|]; cbn; [done|by rewrite app_nil_r|done]. }
  rewrite Hv. destruct entered as [active|e]; [|done]. cbn [res_bind].
  assert (Hdepth : (lenN base + 1)%N = lenN (base ++ [active])%list) by (unfold lenN; rewrite length_app; cbn; lia).
  assert (Hrest : forall found, match fold_ok (visible_variables active) children found with
    | Ok found' => exists stack', for_each visit_ (flat_map (flatten (lenN base + 1)%N) children) ((base ++ [active])%list, found) = Ok (stack', found')
                                  /\ take (length base) stack' = base
    | Err e => for_each visit_ (flat_map (flatten (lenN base + 1)%N) children) ((base ++ [active])%list, found) = Err e end).
  { intros found0. rewrite Hdepth. pose proof (walks_children (base ++ [active])%list children Hc (base ++ [active])%list found0 (firstn_all _)) as H.
    rewrite last_last in H. destruct (fold_ok _ _ _) as [found'|]; [|done]. destruct H as (stack' & H1 & H2). exists stack'. split; [done|].
    rewrite length_app in H2. apply (f_equal (take (length base))) in H2. rewrite take_take, take_app_length in H2.
    by rewrite Nat.min_l in H2 by lia. }
  destruct (if active then resolve_entry_ d else Ok None) as [v|e]; cbn [res_bind]; [apply Hrest|done].
Qed.

(** C28: which variables are in scope.  The entries of a compilation unit come as a flat
    list in depth-first order, each with its depth, and the resolver walks it once
    with a stack of flags that it cuts back to the depth of each entry.  For the list
    of any tree of readable entries this finds, with the same errors and in the same
    order, the variables that the recursion over the tree gives: an entry counts when
    every scope around it (function, inlined call or block) holds the program counter,
    and nothing below a scope that does not hold it is resolved.  The claim is about the
    walk: whether one scope holds the counter (a scope without ranges does) and what one
    entry resolves to are the resolver's own answers on both sides. *)
Theorem scopes_by_stack comp_dir rows t found :
  unit_variables debug_atom arch cfa_register cfa_offset pc requested_vars (mkUnit comp_dir rows (flatten 0%N t)) found
  = visible_variables true t found.
Proof.
  unfold unit_variables. cbn [u_entries]. pose proof (walks_all t [] [] found eq_refl) as H. cbn [List.last length] in H. change (lenN (@nil bool)) with 0%N in H.
  destruct (visible_variables true t found) as [found'|e]; [destruct H as (stack' & -> & _)|rewrite H]; done.
Qed.
End Scopes.

(** ** Concrete images *)

Definition example_file (name : string) : FileEntry := mkFile (Ok name) (Some (Ok "/srv/app")).
Definition example_unit (rows : list LineRow) (entries : list (N * Die)) : DwarfData :=
  [Ok (mkUnit None (Some (map Ok rows)) (map Ok entries))].
Definition example_int : TypeInfo := mkTI "int" SQWord 8 false false false false false false false 0 EmptyString EmptyString 0 None.
Definition example_die (tag : DieTag) (name : string) (ranges : list (N * N)) (location : option LocationAttr) : Die :=
  mkDie tag (Some (NInline (Ok name))) (Ok (map Ok ranges)) location None (Ok example_int) (Err (EDwarfParse EmptyString)).
Definition no_samples (_ : DwarfData) : string := EmptyString.
Definition no_debug (_ : LocationAtom) : string := EmptyString.

(** Line 7 has no code: the two addresses of line 8 answer for it. *)
Definition example_rows : list LineRow :=
  [mkRow (Some 8) 16 (Some (example_file "main.go")); mkRow (Some 12) 48 (Some (example_file "main.go"));
   mkRow (Some 8) 32 (Some (example_file "main.go")); mkRow (Some 8) 16 (Some (example_file "main.go"));
   mkRow (Some 7) 64 (Some (example_file "other.go"))]%N.

Lemma line_resolution_witness :
  exists pcs selected, resolve_line_to_pcs no_samples (example_unit example_rows []) "main.go" 7 = Ok pcs /\ pcs = [32; 16]%N /\ (7 <= selected)%N
    /\ forall pc, In pc pcs <-> has_row (example_unit example_rows []) "main.go" selected pc.
Proof.
  destruct (line_resolution no_samples (example_unit example_rows []) "main.go" 7 [32; 16]%N) as (selected & H1 & _ & _ & H2 & _).
  { vm_compute. reflexivity. }
  exists [32; 16]%N, selected. split; [vm_compute; reflexivity|done].
Defined.

Definition named (name : string) (r : Register) : ResolvedVariable := mkRV name (VRegister r) SQWord "int" None.

Lemma first_of_each_name_witness :
  dedup_by_name (@rev nat) [named "a" Rax; named "b" Rbx; named "a" Rcx] = [named "a" Rax; named "b" Rbx].
Proof. rewrite (first_of_each_name (@rev nat)); [vm_compute; reflexivity|]. intros l. symmetry. apply Permutation_rev. Defined.

(** A file is matched by the end of its path, with no regard for where a path
    component starts: a probe on [main.go] is put into [domain.go]. *)
Theorem path_suffix_names_another_file :
  resolve_line_to_pcs no_samples (example_unit [mkRow (Some 8) 16 (Some (example_file "domain.go"))]%N []) "main.go" 8 = Ok [16%N].
Proof. vm_compute. reflexivity. Qed.

(** A variable in a register at one address of the line and a constant at the
    other: each address is tried so that one of them may do, but the address where
    the variable is a constant makes the whole resolution fail, while the other
    alone succeeds. *)
Definition split_location : LocationAttr :=
  LList (Ok [Ok ((16, 32)%N, [Ok (OpRegister 0)]); Ok ((32, 48)%N, [Ok (OpUnsignedConstant 5); Ok OpStackValue])]).
Definition split_entries : list (N * Die) :=
  [(0, example_die TagSubprogram "main" [(16, 48)] None); (1, example_die TagVariable "n" [] (Some split_location))]%N.
Definition split_info (rows : list LineRow) : DwarfInfo :=
  mkInfo "/srv/app/bin" X86_64 (example_unit rows split_entries) (fun _ => (None, 0%Z)) 0 0.
Definition split_point (rows : list LineRow) : result ProbePoint EbpfError :=
  resolve_probe_point no_debug no_samples id (split_info rows) ["n"] "main.go" 8.

Theorem constant_candidate_fails_all :
  let row pc := mkRow (Some 8%N) pc (Some (example_file "main.go")) in
  split_point [row 16%N] = Ok (mkPP "/srv/app/bin" 16 16 "main" [named "n" Rax])
  /\ split_point [row 16%N; row 32%N] = Err (EDwarfParse "empty locations after DWARF resolution").
Proof. vm_compute. done. Qed.
