(* ===== verification/EbpfAdapter.v ===== *)
(** * The eBPF adapter

    [crates/detrix-ebpf/src/adapter.rs] and the probe manager of
    [probe/uprobe.rs]: a metric is resolved to a probe point, compiled, attached and
    recorded; the records its probe submits are decoded and become metric events.

    The adapter, the pollers (one per probe), the raw channel between them and the
    correlator task run side by side: the operations below are the moves of the
    step relation [step].  clang, the kernel and the DWARF reader are parameters:
    [load_program] compiles, loads and attaches a program, [parse_dwarf] reads an
    image, and the two offsets of Go's runtime come out of it. *)

From Stdlib Require Import Strings.String Strings.Ascii Init.Byte.
From stdpp Require Import gmap strings.
From S2P Require Import RustStr RustText CoreError Location Metric Event AdapterMetrics Dwarf CapturePlan Wire Decode Runtime TypeInfo MemReader Policy ProbeValue ProbeProgram RingEvent ProbeCompiler BpfMachine DwarfResolve Prelude.

Local Open Scope string_scope.

(** ** Values *)

(** [u64 as f64]: the nearest double, ties to even, as its bit pattern *)
Definition round_half_even (n s : N) : N :=
  let q := N.shiftr n s in
  let r := (n - N.shiftl q s)%N in
  let half := N.shiftl 1 (s - 1) in
  if (half <? r)%N then (q + 1)%N
  else if (r =? half)%N then (if N.testbit q 0 then q + 1 else q)%N
  else q.
Definition u64_to_f64 (n : N) : N :=
  if (n =? 0)%N then 0%N
  else
    let e := N.log2 n in
    let m := if (e <=? 52)%N then N.shiftl n (52 - e) else round_half_even n (e - 52) in
    (N.shiftl (e + 1023) 52 + (m - 2 ^ 52))%N.

Example u64_to_f64_values :
  map u64_to_f64 [0; 1; 5; 2 ^ 53 + 1; 2 ^ 64 - 1]%N
  = [0; 4607182418800017408; 4617315517961601024; 4845873199050653696; 4895412794951729152]%N.
Proof. vm_compute. reflexivity. Qed.

Section Values.
Context (show_f64 : N -> string).

Definition typed_value (v : ResolvedVariable) (captured : CapturedValue) : option TypedValue :=
  match captured with
  | CScalar n =>
      match rv_size v with
      | SByte => Some (Boolean (negb (n =? 0)%N))
      | _ => Some (Numeric (u64_to_f64 n))
      end
  | CString data len => Text <$> from_utf8 (take (N.to_nat (N.min len (lenN data))) data)
  | CFloat f => Some (Numeric f)
  | CSlice len _ => Some (Numeric (u64_to_f64 len))
  | CArray _ _ | CBytes _ | CError _ | CStruct _ _ | CMap _ _ _ _ => None
  end.

Definition expression_value (v : ResolvedVariable) (captured : CapturedValue) : ExpressionValue :=
  mkEV (rv_name v) (to_json_value show_f64 captured (rv_size v)) (typed_value v captured).

(** [now] is the clock reading of [MetricEvent::now_micros]. *)
Definition probe_event_to_metric_event (now : Z) (values : list CapturedValue) (variables : list ResolvedVariable) (metric : Metric)
    (thread_id : option Z) : MetricEvent :=
  mkEvent None (default 0%N (m_id metric)) (m_name metric) (m_connection_id metric) now None thread_id
    (zip_with expression_value variables values) false None None None None None None.
End Values.

(** ** Scalars for the profile runtime *)

Definition scalar_kind (type_name : string) : ScalarKind :=
  if contains "f32" type_name then SFloat32
  else if contains "f64" type_name then SFloat64
  else if String.eqb type_name "bool" then SBool
  else if starts_with "&" type_name || starts_with "*" type_name then SAddress
  else if starts_with "i" type_name then SSigned
  else SUnsigned.

Definition is_aggregate_location (l : VariableLocation) : bool := match l with VStackBlob _ _ | VPiecewiseBlob _ _ => true | _ => false end.

Fixpoint scalar_fields_from (offset : N) (variables : list ResolvedVariable) : result (list ScalarFieldSpec) CoreError.Error :=
  match variables with
  | [] => Ok []
  | v :: variables =>
      let size := size_bytes (rv_size v) in
      if (size =? 0)%N || (8 <? size)%N || bool_decide (is_Some (rv_nested_type v)) || is_aggregate_location (rv_location v)
      then Err (Adapter ("Rust eBPF supports scalar fields up to 8 bytes; '" ++ rv_name v ++ "' is unsupported"))
      else
        let? fields := scalar_fields_from (u64_saturating_add offset size) variables in
        Ok (mkSFS (rv_name v) offset size (scalar_kind (rv_type_name v)) :: fields)
  end.
Definition rust_scalar_fields (variables : list ResolvedVariable) : result (list ScalarFieldSpec) CoreError.Error :=
  scalar_fields_from 0 variables.

Definition scalar_bytes (size : N) (value : option CapturedValue) : list byte * bool :=
  match value with
  | Some (CScalar n) => (to_le 8 n, false)
  | Some (CFloat bits) => (to_le 8 bits, false)
  | Some _ | None => (replicate (N.to_nat size) x00, true)
  end.

Fixpoint payload_of (values : list CapturedValue) (variables : list ResolvedVariable) : list byte * bool :=
  match variables with
  | [] => ([], false)
  | v :: variables =>
      let size := size_bytes (rv_size v) in
      let '(raw, missing) := scalar_bytes size (head values) in
      let '(payload, partial) := payload_of (tail values) variables in
      ((take (N.to_nat (N.min size (lenN raw))) raw ++ payload)%list, missing || partial)
  end.
Definition scalar_payload (values : list CapturedValue) (variables : list ResolvedVariable) : list byte * bool :=
  let '(payload, partial) := payload_of values variables in
  (payload, negb (lenN values =? lenN variables)%N || partial).

(** ** Probes *)

Record ProbeConfig : Type := mkProbeConfig { pcf_binary_path : string; pcf_symbol_offset : N; pcf_var_count : N; pcf_capture_goid : bool }.

(** A probe in the kernel: its program, and the poller that drains its ring buffer
    (by number; [None] when the manager had no channel to poll into). *)
Record AttachedProbe : Type := mkAttached { ap_config : ProbeConfig; ap_program : BpfProgram; ap_poller : option N }.

Record ActiveMetric : Type := mkActive {
  am_metric : Metric;
  am_probe_point : ProbePoint;
  am_capture_goid : bool;
  am_runtime : option Runtime;
  am_raw_envelope : option RawEnvelopeExpectation
}.

Definition capture_goid_for_profile (profile : ProfileId) (configured : bool) : bool :=
  configured && bool_decide (profile = PGo).

Definition metric_probe_key (m : Metric) : string :=
  match m_id m with Some id => "id:" ++ show_N id | None => "name:" ++ m_name m end.

(** [format!("{:x}")] *)
Definition hex_plain (n : N) : string := hex_go 16 n EmptyString.
Definition plan_hash_of (probe_point : ProbePoint) : string := "probe:" ++ hex_plain (pp_pc probe_point).

Definition RAW_EVENT_CHANNEL_CAPACITY : N := 4096.

Record Poller : Type := mkPoller {
  po_key : string;
  po_channel : N;
  po_ring : list (list byte);
  po_drops : N;
  po_running : bool
}.

Inductive TaskState : Type := TRunning | TDone | TPanicked.

(** The adapter and its tasks.  Channels are numbered; the raw channel of the
    correlator is the one it receives from, and [ea_correlator] is its handle with the
    state of the task.  [ea_sent] is what was sent to the subscriber. *)
Record EbpfAdapter : Type := mkEA {
  ea_dwarf : option DwarfInfo;
  ea_probes : gmap string AttachedProbe;
  ea_raw_tx : option N;
  ea_active : gmap string ActiveMetric;
  ea_decode_drops : N;
  ea_unavailable_fields : N;
  ea_decoded_events : N;
  ea_started : bool;
  ea_stopping : bool;
  ea_pollers : list Poller;
  ea_queues : N -> list (string * list byte);
  ea_correlator : option (N * TaskState);
  ea_placeholder : bool;
  ea_channels : N;
  ea_listening : bool;
  ea_subscribed : bool;
  ea_sent : list MetricEvent
}.

Section Adapter_.
Context (profile : ProfileId) (config : CaptureConfig).
Context (debug_location : VariableLocation -> string) (debug_op : ReadOp -> string) (debug_atom : LocationAtom -> string).
Context (sample_paths : DwarfData -> string) (hash_order : list nat -> list nat).
Context (show_f64 : N -> string) (template : string) (host_architecture : TargetArchitecture).
Context (g_addr_offset : DwarfInfo -> result (option Z) EbpfError) (goid_field_offset : DwarfInfo -> option N).
Context (load_program : BpfProgram -> TargetArchitecture -> ProbePoint -> result unit EbpfError).
Context (runtime_error_text : RuntimeError -> string).

(** *** Compiling *)

Record RuntimeMetadata : Type := mkMeta { rm_g_addr_offset : option Z; rm_goid_offset : option N }.
Definition runtime_metadata (dwarf : DwarfInfo) (capture_goid : bool) : RuntimeMetadata :=
  match profile with
  | PGo =>
      if negb capture_goid then mkMeta None None
      else mkMeta (match g_addr_offset dwarf with Ok o => o | Err _ => None end) (goid_field_offset dwarf)
  | PRust => mkMeta None None
  end.

Definition compile_error (e : CompileError) : EbpfError := EEbpf (compile_error_text e).

Definition go_bpf_program (probe_point : ProbePoint) (g_addr : option Z) (goid : option N) (plan_hash : option string)
    : result BpfProgram EbpfError :=
  let compiler := mkGo config (cc_capture_goid config) g_addr goid in
  let? plan := map_err compile_error (go_plan_from_probe debug_location probe_point (plan_hash_of probe_point)) in
  map_err compile_error (go_program debug_op compiler plan ((fun hash => mkSpec (profile_tag "go") (plan_tag hash)) <$> plan_hash)).

Definition rust_bpf_program (probe_point : ProbePoint) (plan_hash : option string) : run (result BpfProgram EbpfError) :=
  match plan_hash with
  | Some hash =>
      Ret (let? plan := map_err compile_error (rust_plan_from_probe debug_location probe_point hash) in
           map_err compile_error (compile_plan_to_program debug_op (mkRust config) plan))
  | None => rust_compile_variables (mkRust config) (pp_variables probe_point)
  end.

Definition blob_prefix (index : N) : string := "var" ++ show_N index ++ "_blob[".

(** The declarations the Rust route insists on finding in the generated text. *)
Fixpoint check_blob_declarations (source : string) (index : N) (variables : list ResolvedVariable) : result unit EbpfError :=
  match variables with
  | [] => Ok tt
  | v :: variables =>
      let? _ :=
        match rv_location v with
        | VStackBlob _ byte_size | VPiecewiseBlob _ byte_size =>
            let declaration := blob_prefix index ++ show_N (N.min byte_size (cc_max_blob_capture config)) ++ "]" in
            if contains declaration source then Ok tt
            else Err (EEbpf ("Rust aggregate field '" ++ rv_name v ++ "' is missing generated declaration '" ++ declaration ++ "'"))
        | _ =>
            if (8 <? size_bytes (rv_size v))%N && negb (contains (blob_prefix index) source)
            then Err (EEbpf ("Rust aggregate field '" ++ rv_name v ++ "' (" ++ show_N (size_bytes (rv_size v))
                             ++ " bytes) has no blob in generated event layout"))
            else Ok tt
        end in
      check_blob_declarations source (index + 1) variables
  end.

Definition location_architecture (l : VariableLocation) : option TargetArchitecture :=
  match l with
  | VRegister (Arm64 _) | VFrameOffset (Arm64 _) _ => Some Aarch64
  | VRegister _ | VFrameOffset _ _ => Some X86_64
  | _ => None
  end.
Fixpoint first_architecture (variables : list ResolvedVariable) : TargetArchitecture :=
  match variables with
  | [] => host_architecture
  | v :: variables => match location_architecture (rv_location v) with Some a => a | None => first_architecture variables end
  end.

(** [load_and_attach_linux] up to the spawning of the poller *)
Definition load_and_attach (probe_point : ProbePoint) (g_addr : option Z) (goid : option N) (plan_hash : option string)
    : run (result BpfProgram EbpfError) :=
  run_try (match profile with
           | PGo => Ret (go_bpf_program probe_point g_addr goid plan_hash)
           | PRust =>
               run_try (rust_bpf_program probe_point plan_hash) (fun p =>
               Ret (let? _ := check_blob_declarations (program_source template p) 0 (pp_variables probe_point) in Ok p))
           end)
    (fun p => Ret (let? _ := load_program p (first_architecture (pp_variables probe_point)) probe_point in Ok p)).

(** *** The manager *)

Definition set_probes (probes : gmap string AttachedProbe) (pollers : list Poller) (a : EbpfAdapter) : EbpfAdapter :=
  mkEA (ea_dwarf a) probes (ea_raw_tx a) (ea_active a) (ea_decode_drops a) (ea_unavailable_fields a) (ea_decoded_events a)
    (ea_started a) (ea_stopping a) pollers (ea_queues a) (ea_correlator a) (ea_placeholder a) (ea_channels a)
    (ea_listening a) (ea_subscribed a) (ea_sent a).
Definition set_active (active : gmap string ActiveMetric) (a : EbpfAdapter) : EbpfAdapter :=
  mkEA (ea_dwarf a) (ea_probes a) (ea_raw_tx a) active (ea_decode_drops a) (ea_unavailable_fields a) (ea_decoded_events a)
    (ea_started a) (ea_stopping a) (ea_pollers a) (ea_queues a) (ea_correlator a) (ea_placeholder a) (ea_channels a)
    (ea_listening a) (ea_subscribed a) (ea_sent a).

Definition attach_for_profile_with_plan (key : string) (probe_point : ProbePoint) (g_addr : option Z) (goid : option N)
    (plan_hash : option string) (a : EbpfAdapter) : run (result EbpfAdapter EbpfError) :=
  match ea_probes a !! key with
  | Some _ => Ret (Err (EEbpf ("Probe already attached for metric '" ++ key ++ "'")))
  | None =>
      run_try (load_and_attach probe_point g_addr goid plan_hash) (fun p =>
      let probe := mkAttached (mkProbeConfig (pp_binary_path probe_point) (pp_symbol_offset probe_point) (lenN (pp_variables probe_point)) false) p in
      Ret (Ok (match ea_raw_tx a with
               | Some channel =>
                   set_probes (<[key := probe (Some (lenN (ea_pollers a)))]> (ea_probes a))
                     (ea_pollers a ++ [mkPoller key channel [] 0 true])%list a
               | None => set_probes (<[key := probe None]> (ea_probes a)) (ea_pollers a) a
               end)))
  end.

(** Dropping the handles aborts the poller, which is a blocking task: aborting it
    once it runs has no effect. *)
Definition detach (key : string) (a : EbpfAdapter) : result EbpfAdapter EbpfError :=
  match ea_probes a !! key with
  | None => Err (EEbpf ("No probe attached for metric '" ++ key ++ "'"))
  | Some _ => Ok (set_probes (delete key (ea_probes a)) (ea_pollers a) a)
  end.
Definition detach_all (a : EbpfAdapter) : EbpfAdapter := set_probes ∅ (ea_pollers a) a.

(** *** Metrics *)

Definition adapter_error (e : EbpfError) : CoreError.Error := Adapter (ebpf_error_text e).

Definition header_or_blob (l : VariableLocation) : bool :=
  match l with
  | VStackBlob _ _ | VPiecewiseBlob _ _ | VGoString _ _ | VStringHeader _ _ | VGoSlice _ _ _ | VSliceHeader _ _ _ => true
  | _ => false
  end.

(** The runtime of a Rust probe of scalars; composites go without one. *)
Definition new_runtime (probe_point : ProbePoint) : result (option Runtime) CoreError.Error :=
  match profile with
  | PGo => Ok None
  | PRust =>
      match rust_scalar_fields (pp_variables probe_point) with
      | Ok fields =>
          let text e := Adapter (runtime_error_text e) in
          let? rt := map_err text (runtime_new "rust" (plan_hash_of probe_point) fields (N.max (cc_max_blob_capture config) 64)) in
          let? _ := map_err text (snd (prepare rt)) in
          let? _ := map_err text (snd (attach (fst (prepare rt)))) in
          let rt := fst (attach (fst (prepare rt))) in
          let? _ := map_err text (snd (activate rt)) in
          Ok (Some (fst (activate rt)))
      | Err e => if forallb (fun v => header_or_blob (rv_location v)) (pp_variables probe_point) then Ok None else Err e
      end
  end.

Definition raw_expectation (probe_point : ProbePoint) : RawEnvelopeExpectation :=
  mkExpectation (profile_tag (profile_str profile)) (plan_tag (plan_hash_of probe_point)) (lenN (pp_variables probe_point)).

Definition set_metric (m : Metric) (a : EbpfAdapter) : run (result (EbpfAdapter * SetMetricResult) CoreError.Error) :=
  match ea_dwarf a with
  | None => Ret (Err (Adapter "Adapter not started"))
  | Some dwarf =>
      run_try (Ret (map_err (fun e => Adapter ("DWARF resolution failed: " ++ ebpf_error_text e))
                      (resolve_probe_point_with_diagnostics debug_atom sample_paths hash_order dwarf (m_expressions m)
                         (loc_file (m_location m)) (loc_line (m_location m))))) (fun '(probe_point, _) =>
      let meta := runtime_metadata dwarf (cc_capture_goid config) in
      let key := metric_probe_key m in
      run_try (Ret (new_runtime probe_point)) (fun runtime =>
      run_try (run_map (map_err adapter_error)
                 (attach_for_profile_with_plan key probe_point (rm_g_addr_offset meta) (rm_goid_offset meta)
                    (Some (plan_hash_of probe_point)) a)) (fun a =>
      let active := mkActive m probe_point (capture_goid_for_profile profile (cc_capture_goid config)) runtime (Some (raw_expectation probe_point)) in
      Ret (Ok (set_active (<[key := active]> (ea_active a)) a, mkSMR true (loc_line (m_location m)) (Some "eBPF uprobe attached"))))))
  end.

Definition remove_metric (m : Metric) (a : EbpfAdapter) : result (EbpfAdapter * RemoveMetricResult) CoreError.Error :=
  let key := metric_probe_key m in
  let? a := map_err adapter_error (detach key a) in
  Ok (set_active (delete key (ea_active a)) a, mkRMR true None).

(** *** Start and stop *)

Definition new_adapter : EbpfAdapter :=
  mkEA None ∅ (Some 0%N) ∅ 0 0 0 false false [] (fun _ => []) None true 1 true false [].

(** [parse_dwarf] is what reading the image gives.  A fresh raw channel is made for
    every start; the receiver of the first one, which nobody reads, is dropped. *)
Definition start (parse_dwarf : result DwarfInfo EbpfError) (a : EbpfAdapter) : EbpfAdapter * result unit CoreError.Error :=
  if ea_started a then (a, Ok tt)
  else match parse_dwarf with
  | Err e => (a, Err (adapter_error e))
  | Ok dwarf =>
      (mkEA (Some dwarf) (ea_probes a) (Some (ea_channels a)) (ea_active a) (ea_decode_drops a) (ea_unavailable_fields a)
         (ea_decoded_events a) true (ea_stopping a) (ea_pollers a) (ea_queues a) (Some (ea_channels a, TRunning)) false
         (ea_channels a + 1) (ea_listening a) (ea_subscribed a) (ea_sent a), Ok tt)
  end.

(** [stop] up to the wait for the correlator, if there is one to wait for *)
Definition stop_begin (a : EbpfAdapter) : EbpfAdapter :=
  let waits := bool_decide (is_Some (ea_correlator a)) in
  mkEA (ea_dwarf a) ∅ None ∅ (ea_decode_drops a) (ea_unavailable_fields a) (ea_decoded_events a)
    (if waits then ea_started a else false) waits (ea_pollers a) (ea_queues a) (ea_correlator a) (ea_placeholder a) (ea_channels a)
    (ea_listening a) (ea_subscribed a) (ea_sent a).

Definition end_wait (started : bool) (a : EbpfAdapter) : EbpfAdapter :=
  mkEA (ea_dwarf a) (ea_probes a) (ea_raw_tx a) (ea_active a) (ea_decode_drops a) (ea_unavailable_fields a) (ea_decoded_events a)
    started false (ea_pollers a) (ea_queues a) None (ea_placeholder a) (ea_channels a) (ea_listening a) (ea_subscribed a) (ea_sent a).

(** The rest of [stop], once the correlator has ended: a panic is returned as an
    error before the adapter is marked as stopped. *)
Definition stop_end (a : EbpfAdapter) : option (EbpfAdapter * result unit CoreError.Error) :=
  match ea_correlator a with
  | Some (_, TDone) => Some (end_wait false a, Ok tt)
  | Some (_, TPanicked) => Some (end_wait (ea_started a) a, Err (Adapter "Event correlator task panicked"))
  | _ => None
  end.

Definition subscribe_events (a : EbpfAdapter) : EbpfAdapter * result unit CoreError.Error :=
  if ea_subscribed a then (a, Err (Adapter "Events already subscribed"))
  else (mkEA (ea_dwarf a) (ea_probes a) (ea_raw_tx a) (ea_active a) (ea_decode_drops a) (ea_unavailable_fields a) (ea_decoded_events a)
          (ea_started a) (ea_stopping a) (ea_pollers a) (ea_queues a) (ea_correlator a) (ea_placeholder a) (ea_channels a)
          (ea_listening a) true (ea_sent a), Ok tt).

(** *** The tasks *)

Definition set_tasks (pollers : list Poller) (queues : N -> list (string * list byte)) (correlator : option (N * TaskState)) (a : EbpfAdapter)
    : EbpfAdapter :=
  mkEA (ea_dwarf a) (ea_probes a) (ea_raw_tx a) (ea_active a) (ea_decode_drops a) (ea_unavailable_fields a) (ea_decoded_events a)
    (ea_started a) (ea_stopping a) pollers queues correlator (ea_placeholder a) (ea_channels a)
    (ea_listening a) (ea_subscribed a) (ea_sent a).
Definition set_counts (drops unavailable decoded : N) (a : EbpfAdapter) : EbpfAdapter :=
  mkEA (ea_dwarf a) (ea_probes a) (ea_raw_tx a) (ea_active a) drops unavailable decoded
    (ea_started a) (ea_stopping a) (ea_pollers a) (ea_queues a) (ea_correlator a) (ea_placeholder a) (ea_channels a)
    (ea_listening a) (ea_subscribed a) (ea_sent a).
Definition send_event (e : MetricEvent) (a : EbpfAdapter) : EbpfAdapter :=
  mkEA (ea_dwarf a) (ea_probes a) (ea_raw_tx a) (ea_active a) (ea_decode_drops a) (ea_unavailable_fields a) (ea_decoded_events a)
    (ea_started a) (ea_stopping a) (ea_pollers a) (ea_queues a) (ea_correlator a) (ea_placeholder a) (ea_channels a)
    (ea_listening a) (ea_subscribed a) (ea_sent a ++ [e])%list.

(** Whether somebody holds the receiving end. *)
Definition channel_open (c : N) (a : EbpfAdapter) : bool :=
  (ea_placeholder a && (c =? 0)%N) || match ea_correlator a with Some (c', TRunning) => (c =? c')%N | _ => false end.

Definition push (c : N) (x : string * list byte) (queues : N -> list (string * list byte)) : N -> list (string * list byte) :=
  fun d => if (d =? c)%N then (queues d ++ [x])%list else queues d.
Definition pop (c : N) (queues : N -> list (string * list byte)) : N -> list (string * list byte) :=
  fun d => if (d =? c)%N then tail (queues d) else queues d.

(** One item of the ring buffer through [try_send]. *)
Definition poll (po : Poller) (item : list byte) (rest : list (list byte)) (a : EbpfAdapter) : Poller * (N -> list (string * list byte)) :=
  if negb (channel_open (po_channel po) a) then (mkPoller (po_key po) (po_channel po) rest (po_drops po) false, ea_queues a)
  else if (RAW_EVENT_CHANNEL_CAPACITY <=? lenN (ea_queues a (po_channel po)))%N
  then (mkPoller (po_key po) (po_channel po) rest (u64_saturating_add (po_drops po) 1) true, ea_queues a)
  else (mkPoller (po_key po) (po_channel po) rest (po_drops po) true, push (po_channel po) (po_key po, item) (ea_queues a)).

Context (mr : MemReader) (datetime : Z -> option string) (decode_error_text : ScalarDecodeError -> string) (loop_fuel : nat).

Definition is_error (v : CapturedValue) : bool := match v with CError _ => true | _ => false end.

(** What the runtime of a Rust probe makes of the values: its next state, and
    whether it refused them. *)
Definition feed_runtime (rt : Runtime) (values : list CapturedValue) (variables : list ResolvedVariable) : Runtime * bool :=
  let '(payload, partial) := scalar_payload values variables in
  match encode_payload rt payload partial with
  | Ok record => let '(rt, r) := ingest rt record in (rt, match r with Ok _ => false | Err _ => true end)
  | Err _ => (rt, true)
  end.

Definition event_thread (e : ProbeEvent) : option Z :=
  Some (match pe_goid e with Some g => to_signed 64 g | None => Z.of_N (pe_tid e) end).

(** One round of [run_event_correlator]. *)
Definition correlate (now : Z) (key : string) (raw : list byte) (a : EbpfAdapter) : run EbpfAdapter :=
  match ea_active a !! key with
  | None => Ret a
  | Some am =>
      let variables := pp_variables (am_probe_point am) in
      let! r := parse_ring_buffer_event_with_envelope mr config datetime decode_error_text loop_fuel raw variables (am_capture_goid am) (am_raw_envelope am) in
      match r with
      | Err _ => Ret (set_counts (wrap 64 (ea_decode_drops a + 1)) (ea_unavailable_fields a) (ea_decoded_events a) a)
      | Ok e =>
          let a := set_counts (ea_decode_drops a) (wrap 64 (ea_unavailable_fields a + lenN (List.filter is_error (pe_values e))))
                     (wrap 64 (ea_decoded_events a + 1)) a in
          let a :=
            match am_runtime am with
            | None => a
            | Some rt =>
                let '(rt, refused) := feed_runtime rt (pe_values e) variables in
                let a := set_active (<[key := mkActive (am_metric am) (am_probe_point am) (am_capture_goid am) (Some rt) (am_raw_envelope am)]> (ea_active a)) a in
                if refused then set_counts (wrap 64 (ea_decode_drops a + 1)) (ea_unavailable_fields a) (ea_decoded_events a) a else a
            end in
          let event := probe_event_to_metric_event show_f64 now (pe_values e) variables (am_metric am) (event_thread e) in
          Ret (if ea_listening a then send_event event a
               else set_tasks (ea_pollers a) (ea_queues a) ((fun c => (fst c, TDone)) <$> ea_correlator a) a)
      end
  end.

(** Nobody can send to the channel any more. *)
Definition no_sender (c : N) (a : EbpfAdapter) : bool :=
  negb (bool_decide (ea_raw_tx a = Some c)) && forallb (fun po => negb (po_running po && (po_channel po =? c)%N)) (ea_pollers a).

(** ** The moves *)

Inductive step : EbpfAdapter -> EbpfAdapter -> Prop :=
| s_start parse_dwarf a : ea_stopping a = false -> step a (fst (start parse_dwarf a))
| s_set m a a' r : set_metric m a = Ret (Ok (a', r)) -> step a a'
| s_remove m a a' r : remove_metric m a = Ok (a', r) -> step a a'
| s_subscribe a : step a (fst (subscribe_events a))
| s_hit key probe i po mc ring data a :
    ea_probes a !! key = Some probe -> ap_poller probe = Some (N.of_nat i) -> ea_pollers a !! i = Some po ->
    run_probe mc (ap_program probe) ring = Some data ->
    step a (set_tasks (<[i := mkPoller (po_key po) (po_channel po) (po_ring po ++ [data]) (po_drops po) (po_running po)]> (ea_pollers a))
              (ea_queues a) (ea_correlator a) a)
| s_poll i po item rest a :
    ea_pollers a !! i = Some po -> po_running po = true -> po_ring po = item :: rest ->
    step a (set_tasks (<[i := fst (poll po item rest a)]> (ea_pollers a)) (snd (poll po item rest a)) (ea_correlator a) a)
| s_correlate now c key raw rest a a' :
    ea_correlator a = Some (c, TRunning) -> ea_queues a c = (key, raw) :: rest ->
    correlate now key raw (set_tasks (ea_pollers a) (pop c (ea_queues a)) (ea_correlator a) a) = Ret a' -> step a a'
| s_panic now c key raw rest a :
    ea_correlator a = Some (c, TRunning) -> ea_queues a c = (key, raw) :: rest ->
    correlate now key raw (set_tasks (ea_pollers a) (pop c (ea_queues a)) (ea_correlator a) a) = Panic ->
    step a (set_tasks (ea_pollers a) (pop c (ea_queues a)) (Some (c, TPanicked)) a)
| s_exit c a :
    ea_correlator a = Some (c, TRunning) -> ea_queues a c = [] -> no_sender c a = true ->
    step a (set_tasks (ea_pollers a) (ea_queues a) (Some (c, TDone)) a)
| s_stop a : ea_stopping a = false -> step a (stop_begin a)
| s_stopped a a' r : ea_stopping a = true -> stop_end a = Some (a', r) -> step a a'
| s_hangup a :
    step a (mkEA (ea_dwarf a) (ea_probes a) (ea_raw_tx a) (ea_active a) (ea_decode_drops a) (ea_unavailable_fields a) (ea_decoded_events a)
              (ea_started a) (ea_stopping a) (ea_pollers a) (ea_queues a) (ea_correlator a) (ea_placeholder a) (ea_channels a)
              false (ea_subscribed a) (ea_sent a)).
End Adapter_.
