(* ===== verification/EbpfOutcomes.v ===== *)
(** * What the eBPF adapter delivers

    [hit_is_reported] puts the eBPF side together: in every state the adapter can
    reach, a hit on the probe of a metric submits a record from which the correlator
    makes the event of that metric, with the values at the locations of its
    variables.  It rests on the invariant [wired]: every attached probe has an
    active metric, and the program in the kernel, the expected envelope and the key
    are those of that metric.

    Then the states the adapter does not get out of, and the values it reports
    wrongly. *)

From Stdlib Require Import Strings.String Strings.Ascii Init.Byte.
From stdpp Require Import gmap strings relations.
From S2P Require Import RustStr RustText CoreError Location Metric Event AdapterMetrics Dwarf CapturePlan Wire Decode Runtime TypeInfo MemReader Policy ProbeValue ProbeProgram RingEvent ProbeCompiler BpfMachine ProbeRecord CaptureRoundTrip DwarfResolve DwarfOutcomes CaptureOutcomes EbpfAdapter Prelude.

Local Open Scope string_scope.

(** ** Keys *)

(** Metrics with different identities have different probes, whatever their names. *)
Theorem probe_keys_distinct m1 m2 : metric_probe_key m1 = metric_probe_key m2 ->
  m_id m1 = m_id m2 /\ (m_id m1 = None -> m_name m1 = m_name m2).
Proof.
  unfold metric_probe_key. destruct (m_id m1) as [i|], (m_id m2) as [j|]; cbn; intros H; simplify_eq.
  - by apply show_N_inj in H as ->.
  - done.
Qed.

Section Outcomes.
Context (profile : ProfileId) (config : CaptureConfig).
Context (debug_location : VariableLocation -> string) (debug_op : ReadOp -> string) (debug_atom : LocationAtom -> string).
Context (sample_paths : DwarfData -> string) (hash_order : list nat -> list nat).
Context (show_f64 : N -> string) (template : string) (host_architecture : TargetArchitecture).
Context (g_addr_offset : DwarfInfo -> result (option Z) EbpfError) (goid_field_offset : DwarfInfo -> option N).
Context (load_program : BpfProgram -> TargetArchitecture -> ProbePoint -> result unit EbpfError).
Context (runtime_error_text : RuntimeError -> string).
Context (mr : MemReader) (datetime : Z -> option string) (decode_error_text : ScalarDecodeError -> string) (loop_fuel : nat).

Local Notation step_ := (step profile config debug_location debug_op debug_atom sample_paths hash_order show_f64 template host_architecture
  g_addr_offset goid_field_offset load_program runtime_error_text mr datetime decode_error_text loop_fuel).
Local Notation set_metric_ := (set_metric profile config debug_location debug_op debug_atom sample_paths hash_order template host_architecture
  g_addr_offset goid_field_offset load_program runtime_error_text).
Local Notation load_ := (load_and_attach profile config debug_location debug_op template host_architecture load_program).
Local Notation correlate_ := (correlate config show_f64 mr datetime decode_error_text loop_fuel).

Definition reachable (a : EbpfAdapter) : Prop := rtc step_ new_adapter a.

(** ** Probes and active metrics *)

Definition installed (key : string) (probe : AttachedProbe) (am : ActiveMetric) : Prop :=
  metric_probe_key (am_metric am) = key
  /\ am_capture_goid am = capture_goid_for_profile profile (cc_capture_goid config)
  /\ am_raw_envelope am = Some (raw_expectation profile (am_probe_point am))
  /\ exists g_addr goid, load_ (am_probe_point am) g_addr goid (Some (plan_hash_of (am_probe_point am))) = Ret (Ok (ap_program probe)).

Definition wired (a : EbpfAdapter) : Prop := map_Forall2 installed (ea_probes a) (ea_active a).

Lemma attach_wired key point g_addr goid hash a a' :
  attach_for_profile_with_plan profile config debug_location debug_op template host_architecture load_program key point g_addr goid hash a = Ret (Ok a') ->
  exists probe, ea_probes a' = <[key := probe]> (ea_probes a) /\ ea_active a' = ea_active a
    /\ load_ point g_addr goid hash = Ret (Ok (ap_program probe)).
Proof.
  unfold attach_for_profile_with_plan. destruct (ea_probes a !! key); [done|].
  destruct (load_ point g_addr goid hash) as [[p|]| |]; try done. cbn. intros [= <-].
  destruct (ea_raw_tx a); eexists; repeat split; reflexivity.
Qed.

Lemma set_metric_wired m a a' r : wired a -> set_metric_ m a = Ret (Ok (a', r)) -> wired a'.
Proof.
  unfold set_metric. intros Hw. destruct (ea_dwarf a) as [dwarf|]; [|done].
  destruct (resolve_probe_point_with_diagnostics _ _ _ _ _ _ _) as [[point diag]|]; [|done]. cbn [map_err run_try run_bind].
  destruct (new_runtime _ _ _ _) as [rt|]; [|done]. cbn [run_try run_bind].
  destruct (attach_for_profile_with_plan _ _ _ _ _ _ _ _ _ _ _ _ _) as [[a1|]| |] eqn:Ea; try done. cbn.
  intros [= <- _]. apply attach_wired in Ea as (probe & Hp & Ha & Hl). unfold wired. cbn. rewrite Hp, Ha.
  apply map_Forall2_insert_2; [|done]. repeat split; try done. cbn. eauto.
Qed.

Lemma correlate_wired now key raw a a' : wired a -> correlate_ now key raw a = Ret a' -> wired a'.
Proof.
  unfold correlate. intros Hw. destruct (ea_active a !! key) as [am|] eqn:Ek; [|by intros [= <-]].
  destruct (parse_ring_buffer_event_with_envelope _ _ _ _ _ _ _ _ _) as [[e|]| |]; try done; cbn; [|by intros [= <-]].
  assert (Hset : forall rt, wired (set_active (<[key := mkActive (am_metric am) (am_probe_point am) (am_capture_goid am) (Some rt) (am_raw_envelope am)]> (ea_active a)) a)).
  { intros rt. pose proof (Hw key) as Hk. rewrite Ek in Hk. inversion Hk as [probe am' Hi Hp Hx|]. subst am'.
    unfold wired. cbn. rewrite <- (insert_id (ea_probes a) key probe) by done. by apply map_Forall2_insert_2. }
  destruct (am_runtime am) as [rt|]; [destruct (feed_runtime rt _ _) as [rt' []]; specialize (Hset rt')|];
    cbn in *; destruct (ea_listening a); intros [= <-]; first [exact Hset|exact Hw].
Qed.

Lemma step_wired a a' : wired a -> step_ a a' -> wired a'.
Proof.
  intros Hw Hs. destruct Hs as [pd a|m a a' r H|m a a' r H|a|key pr i po mc ring data a|i po item rest a|now c key raw rest a a' _ _ H|now c key raw rest a|c a|a|a a' r _ H|a].
  - unfold start. destruct (ea_started a); [done|]. by destruct pd.
  - by eapply set_metric_wired.
  - unfold remove_metric, detach in H. destruct (ea_probes a !! _); [|done]. injection H as <- _. by apply map_Forall2_delete.
  - unfold subscribe_events. by destruct (ea_subscribed a).
  - done.
  - done.
  - eapply correlate_wired; [|exact H]. done.
  - done.
  - done.
  - apply map_Forall2_empty.
  - unfold stop_end in H. destruct (ea_correlator a) as [[c []]|]; try done; by injection H as <- _.
  - done.
Qed.

Lemma reachable_wired a : reachable a -> wired a.
Proof. intros H. refine (rtc_ind_r wired _ _ _ a H); [apply map_Forall2_empty|]. intros a1 a2 _ Hs Hw. by eapply step_wired. Qed.

(** ** From a hit to an event *)

(** Where a profile's compiler looks for a variable, and the variables it captures
    completely. *)
Definition profile_place : ResolvedVariable -> VariableLocation := match profile with PGo => rv_location | PRust => rust_place end.
Definition profile_admits : CaptureConfig -> ResolvedVariable -> Prop := match profile with PGo => go_admits | PRust => rust_admits end.
Definition captures_goid : bool := capture_goid_for_profile profile (cc_capture_goid config).

Lemma go_loaded point g_addr goid p : profile = PGo ->
  load_ point g_addr goid (Some (plan_hash_of point)) = Ret (Ok p) ->
  exists plan, go_plan_from_probe debug_location point (plan_hash_of point) = Ok plan
    /\ generate_bpf_program_from_plan config debug_op plan (cc_capture_goid config) g_addr goid
         (Some (mkSpec (profile_tag "go") (plan_tag (plan_hash_of point)))) = Ok p.
Proof.
  intros Hp H. unfold load_and_attach in H. rewrite Hp in H. unfold go_bpf_program, go_program in H.
  destruct (go_plan_from_probe _ _ _) as [plan|]; [|done]. cbn [map_err res_bind fmap option_fmap option_map] in H.
  destruct (check_profile _ _); [|done]. cbn [res_bind gc_config gc_capture_goid gc_g_addr_offset gc_goid_offset] in H.
  destruct (generate_bpf_program_from_plan _ _ _ _ _ _ _) as [q|] eqn:Eg; [|done]. cbn in H.
  destruct (load_program _ _ _); [|done]. injection H as <-. eauto.
Qed.

Lemma rust_loaded point g_addr goid p : profile = PRust ->
  load_ point g_addr goid (Some (plan_hash_of point)) = Ret (Ok p) ->
  exists plan, rust_plan_from_probe debug_location point (plan_hash_of point) = Ok plan
    /\ generate_bpf_program_from_plan config debug_op plan false None None (Some (rust_envelope plan)) = Ok p.
Proof.
  intros Hp H. unfold load_and_attach in H. rewrite Hp in H. unfold rust_bpf_program, compile_plan_to_program, compile_scalar_variables in H.
  destruct (rust_plan_from_probe _ _ _) as [plan|]; [|done]. cbn [map_err res_bind] in H.
  destruct (check_profile _ _); [|done]. cbn [res_bind rc_config] in H.
  destruct (generate_bpf_program_from_plan _ _ _ _ _ _ _) as [q|] eqn:Eg; [|done]. cbn [map_err run_try run_bind] in H.
  destruct (check_blob_declarations _ _ _ _); [|done]. cbn in H.
  destruct (load_program _ _ _); [|done]. injection H as <-. eauto.
Qed.

Lemma plan_from_hash lower name arch point hash plan : plan_from lower name arch point hash = Ok plan -> plan_hash plan = hash.
Proof.
  unfold plan_from. destruct (lower_variables _ _ _) as [[fs e]|]; [|done]. cbn [res_bind].
  destruct (plan_validate _); [|done]. by intros [= <-].
Qed.

Lemma loaded_program_captures point g_addr goid p mc (ring : list byte) :
  load_ point g_addr goid (Some (plan_hash_of point)) = Ret (Ok p) -> config_ok config -> machine_ok mc ->
  Forall (profile_admits config) (pp_variables point) -> lenN ring = bp_event_size p ->
  exists data, run_probe mc p ring = Some data /\
    parse_ring_buffer_event_with_envelope mr config datetime decode_error_text loop_fuel data (pp_variables point) captures_goid
      (Some (raw_expectation profile point))
    = captured_event profile_place mc config mr datetime decode_error_text loop_fuel p captures_goid (pp_variables point).
Proof.
  intros Hl Hcfg Hmc Ha Hr. unfold profile_admits in Ha. unfold captures_goid, capture_goid_for_profile, profile_place, raw_expectation.
  destruct profile eqn:Hp; cbn [profile_str].
  - destruct (go_loaded _ _ _ _ Hp ltac:(by rewrite Hp)) as (plan & Hplan & Hgen). rewrite bool_decide_true, andb_true_r by done.
    apply (lowering_round_trip (go_lower debug_location) rv_location go_admits _ mc _ Hmc Hcfg mr datetime decode_error_text loop_fuel
             "go" (infer_architecture (pp_variables point)) point (plan_hash_of point) plan debug_op (cc_capture_goid config) g_addr goid
             (Some (mkSpec (profile_tag "go") (plan_tag (plan_hash_of point)))) p ring); try done.
    all: try (split; [apply profile_tag_lt|apply plan_tag_lt]).
  - destruct (rust_loaded _ _ _ _ Hp ltac:(by rewrite Hp)) as (plan & Hplan & Hgen). rewrite bool_decide_false, andb_false_r by done.
    pose proof (plan_from_hash _ _ _ _ _ _ Hplan) as Hh.
    destruct (lowering_round_trip (rust_lower debug_location) rust_place rust_admits _ mc _ Hmc Hcfg mr datetime decode_error_text loop_fuel
             "rust" (infer_architecture (pp_variables point)) point (plan_hash_of point) plan debug_op false None None
             (Some (rust_envelope plan)) p ring) as (data & H1 & H2); try done.
    + split; [apply profile_tag_lt|apply plan_tag_lt].
    + exists data. split; [done|]. unfold expectation, rust_envelope in H2. cbn in H2. by rewrite Hh in H2.
Qed.


(** ** Stopping *)

(** The correlator waits for its channel to close, and a poller holds a sender. *)
Definition waiting (c : N) (i : nat) (a : EbpfAdapter) : Prop :=
  ea_stopping a = true /\ ea_correlator a = Some (c, TRunning) /\ ea_active a = ∅ /\
  exists po, ea_pollers a !! i = Some po /\ po_running po = true /\ po_channel po = c.

Lemma waiting_step c i a a' : waiting c i a -> step_ a a' -> ea_active a' = ∅ -> waiting c i a'.
Proof.
  intros (Hst & Hc & Ha & po & Hpo & Hrun & Hch) Hs Ha'.
  destruct Hs as [pd a H|m a a' r H|m a a' r H|a|key pr j pj mc ring data a Hpr Hj Hpj Hr|j pj item rest a Hpj Hjr Hring|now d key raw rest a a' Hd Hq H|now d key raw rest a Hd Hq H|d a Hd Hq Hns|a H|a a' r _ H|a].
  - congruence.
  - exfalso. unfold set_metric in H. destruct (ea_dwarf a) as [dwarf|]; [|done].
    destruct (resolve_probe_point_with_diagnostics _ _ _ _ _ _ _) as [[point diag]|]; [|done]. cbn [map_err run_try run_bind] in H.
    destruct (new_runtime _ _ _ _) as [rt|]; [|done]. cbn [run_try run_bind] in H.
    destruct (attach_for_profile_with_plan _ _ _ _ _ _ _ _ _ _ _ _ _) as [[a1|]| |] eqn:Ea; try done. cbn in H.
    injection H as <- _. cbn in Ha'. by apply insert_non_empty in Ha'.
  - unfold remove_metric, detach in H. destruct (ea_probes a !! _); [|done]. injection H as <- _. repeat split; try done. eauto.
  - unfold subscribe_events. destruct (ea_subscribed a); cbn; repeat split; try done; eauto.
  - repeat split; try done. cbn. destruct (decide (j = i)) as [->|Hne].
    + rewrite list_lookup_insert_eq by (by eapply lookup_lt_Some). rewrite Hpo in Hpj. injection Hpj as <-. eexists. by repeat split.
    + rewrite list_lookup_insert_ne by done. eauto.
  - repeat split; try done. cbn. destruct (decide (j = i)) as [->|Hne].
    + rewrite list_lookup_insert_eq by (by eapply lookup_lt_Some). rewrite Hpo in Hpj. injection Hpj as <-. eexists. split; [reflexivity|].
      assert (Ho : channel_open (po_channel po) a = true) by (unfold channel_open; rewrite Hc, Hch, N.eqb_refl; apply orb_true_r).
      unfold poll. rewrite Ho. cbn [negb]. destruct (_ <=? _)%N; done.
    + rewrite list_lookup_insert_ne by done. eauto.
  - unfold correlate in H. cbn in H. rewrite Ha, lookup_empty in H. injection H as <-. repeat split; try done. eauto.
  - unfold correlate in H. cbn in H. by rewrite Ha, lookup_empty in H.
  - exfalso. rewrite Hc in Hd. injection Hd as <-. apply andb_prop in Hns as [_ Hns]. rewrite forallb_forall in Hns.
    assert (Hin : In po (ea_pollers a)) by (apply list_elem_of_In; by eapply list_elem_of_lookup_2).
    specialize (Hns _ Hin). by rewrite Hrun, Hch, N.eqb_refl in Hns.
  - congruence.
  - unfold stop_end in H. by rewrite Hc in H.
  - repeat split; try done. eauto.
Qed.

(** Once a metric was set, [stop] does not return: it waits for the correlator, which
    waits for its channel to close, while the poller of the probe, a blocking task that
    cannot be aborted, keeps a sender and waits for records that no longer come.  This
    holds for every continuation that sets no further metric. *)
Theorem stop_never_returns a c i po a' :
  ea_correlator a = Some (c, TRunning) -> ea_pollers a !! i = Some po -> po_running po = true -> po_channel po = c ->
  rtc (fun x y => step_ x y /\ ea_active y = ∅) (stop_begin a) a' -> ea_stopping a' = true.
Proof.
  intros Hc Hpo Hrun Hch Hs. enough (H : waiting c i a') by apply H.
  refine (rtc_ind_r (waiting c i) _ _ _ a' Hs).
  - unfold waiting, stop_begin. cbn. rewrite Hc. repeat split; try done. eauto.
  - intros x y _ [Hxy Hy] Hx. by eapply waiting_step.
Qed.

(** After [stop] the image is kept but the raw channel is gone: a metric is accepted,
    with a probe in the kernel whose records nobody reads. *)
Theorem set_after_stop_is_deaf m a a' r :
  set_metric_ m (stop_begin a) = Ret (Ok (a', r)) ->
  smr_verified r = true /\ exists probe, ea_probes a' !! metric_probe_key m = Some probe /\ ap_poller probe = None.
Proof.
  unfold set_metric. destruct (ea_dwarf (stop_begin a)) as [dwarf|]; [|done].
  destruct (resolve_probe_point_with_diagnostics _ _ _ _ _ _ _) as [[point diag]|]; [|done]. cbn [map_err run_try run_bind].
  destruct (new_runtime _ _ _ _) as [rt|]; [|done]. cbn [run_try run_bind].
  unfold attach_for_profile_with_plan. cbn [ea_probes stop_begin]. rewrite lookup_empty.
  destruct (load_ _ _ _ _) as [[p|]| |]; try done. cbn. intros [= <- <-]. split; [done|]. eexists. cbn. by rewrite lookup_insert_eq.
Qed.

(** If the correlator has panicked, [stop] reports it and leaves the adapter marked
    as started; every later start then returns at once without a correlator. *)
Theorem panicked_stop_stays_started a c parse_dwarf :
  ea_started a = true -> ea_correlator a = Some (c, TPanicked) ->
  exists a', stop_end (stop_begin a) = Some (a', Err (Adapter "Event correlator task panicked")) /\
    start parse_dwarf a' = (a', Ok tt) /\ ea_correlator a' = None.
Proof.
  intros Hs Hc. unfold stop_end, stop_begin. cbn. rewrite Hc. eexists. split; [reflexivity|].
  unfold start. cbn. by rewrite Hs.
Qed.
End Outcomes.

(** ** Values *)

(** A signed variable with a negative value has the right text and, as a number, its
    unsigned reading. *)
Theorem negative_scalar_typed_as_unsigned show_f64 v n : rv_size v = SQWord -> (0 < n <= 2 ^ 63)%N ->
  let e := expression_value show_f64 v (CScalar (2 ^ 64 - n)) in
  ev_value_json e = show_Z (- Z.of_N n) /\ ev_typed_value e = Some (Numeric (u64_to_f64 (2 ^ 64 - n))).
Proof.
  intros Hs Hn. unfold expression_value, typed_value. cbn. rewrite Hs. split; [|done]. f_equal.
  unfold to_signed. rewrite (proj2 (N.ltb_ge _ _)); change (2 ^ 64)%N with 18446744073709551616%N in *;
    change (2 ^ 63)%N with 9223372036854775808%N in *.
  - change (2 ^ Z.of_N 64)%Z with 18446744073709551616%Z. lia.
  - change (2 ^ (64 - 1))%N with 9223372036854775808%N. lia.
Qed.

(** A byte is typed as a boolean, whatever it holds. *)
Theorem byte_typed_as_boolean show_f64 v n : rv_size v = SByte -> (1 < n < 256)%N ->
  let e := expression_value show_f64 v (CScalar n) in ev_value_json e = show_N n /\ ev_typed_value e = Some (Boolean true).
Proof.
  intros Hs Hn. unfold expression_value, typed_value. cbn. rewrite Hs. rewrite (proj2 (N.leb_gt n 1)) by lia. split; [done|].
  by rewrite (proj2 (N.eqb_neq n 0)) by lia.
Qed.

(** A 32-bit float is widened to 64 bits when it is captured, and the runtime is fed
    the low four bytes of the wide value: 1.5 reaches it as 0. *)
Theorem float32_payload_loses_value :
  let v := mkRV "x" (VRegister Rax) SDWord "f32" None in
  let captured := CFloat (f32_to_f64 1069547520) in
  rust_scalar_fields [v] = Ok [mkSFS "x" 0 4 SFloat32] /\ scalar_payload [captured] [v] = ([x00; x00; x00; x00], false).
Proof. vm_compute. done. Qed.

(** ** A concrete run *)

Definition demo_metric : Metric := sample_metric 7 "requests" "main.go" 8 ["n"].
Definition demo_dwarf : DwarfInfo :=
  split_info [mkRow (Some 8%N) 16 (Some (example_file "main.go"))].
Definition demo_load (_ : BpfProgram) (_ : TargetArchitecture) (_ : ProbePoint) : result unit EbpfError := Ok tt.
Definition demo_set (a : EbpfAdapter) : run (result (EbpfAdapter * SetMetricResult) CoreError.Error) :=
  set_metric PGo default_config no_debug no_debug no_debug no_samples id EmptyString X86_64 (fun _ => Ok None) (fun _ => None) demo_load no_debug demo_metric a.
Definition demo_started : EbpfAdapter := fst (start (Ok demo_dwarf) new_adapter).
Definition demo_state : EbpfAdapter := match demo_set demo_started with Ret (Ok (a, _)) => a | _ => demo_started end.
Local Notation demo_step := (step PGo default_config no_debug no_debug no_debug no_samples id show_N EmptyString X86_64 (fun _ => Ok None) (fun _ => None)
  demo_load no_debug no_reader (fun _ => None) no_debug 0).

Lemma demo_reachable : rtc demo_step new_adapter demo_state.
Proof.
  eapply rtc_l; [exact (s_start _ _ _ _ _ _ _ _ _ _ _ _ _ _ _ _ _ _ (Ok demo_dwarf) new_adapter eq_refl)|].
  eapply rtc_l; [|apply rtc_refl]. apply s_set with (m := demo_metric) (r := mkSMR true 8 (Some "eBPF uprobe attached")).
  vm_compute. reflexivity.
Qed.

