(* ===== verification/Breaker.v ===== *)
(** * The output circuit breaker

    [crates/detrix-output/src/circuit_breaker.rs].  Every operation holds the
    breaker's lock for its whole body, so a concurrent history is a sequence of
    operations.  Instants are nanoseconds on a monotonic clock; [elapsed] is
    zero for an instant in the future.  The statistics counters are atomics
    that wrap at 64 bits; the failure and success counters are [u32] fields. *)

From Stdlib Require Import Strings.String Init.Byte.
From S2P Require Import Prelude RustStr.

Local Open Scope string_scope.

Inductive CircuitState : Type := CClosed | COpen | CHalfOpen.
#[export] Instance CircuitState_eq_dec : EqDecision CircuitState.
Proof. solve_decision. Defined.

Definition circuit_state_str (s : CircuitState) : string :=
  match s with CClosed => "closed" | COpen => "open" | CHalfOpen => "half-open" end.

Record CircuitBreakerConfig : Type := mkCBC {
  failure_threshold : N;
  reset_timeout_ms : N;
  success_threshold : N;
  cbc_name : option string
}.
Definition default_breaker_config : CircuitBreakerConfig := mkCBC 5 30000 2 None.
Definition breaker_config_new (failure_threshold reset_timeout_ms : N) : CircuitBreakerConfig :=
  mkCBC failure_threshold reset_timeout_ms (success_threshold default_breaker_config) None.
Definition with_success_threshold (c : CircuitBreakerConfig) (n : N) : CircuitBreakerConfig :=
  mkCBC (failure_threshold c) (reset_timeout_ms c) n (cbc_name c).

Record Breaker : Type := mkBreaker {
  br_config : CircuitBreakerConfig;
  br_state : CircuitState;
  consecutive_failures : N;
  consecutive_successes : N;
  last_failure_time : option N;
  total_requests : N;
  rejected_requests : N;
  total_failures : N;
  total_successes : N;
  state_transitions : N
}.

Definition breaker_new (c : CircuitBreakerConfig) : Breaker := mkBreaker c CClosed 0 0 None 0 0 0 0 0.

(** [last.elapsed()] *)
Definition elapsed (now last : N) : N := (now - last)%N.

Definition timeout_ns (c : CircuitBreakerConfig) : N := (reset_timeout_ms c * 1000000)%N.

Definition compute_effective_state (now : N) (b : Breaker) : CircuitState :=
  match br_state b, last_failure_time b with
  | COpen, Some last => if (timeout_ns (br_config b) <=? elapsed now last)%N then CHalfOpen else COpen
  | s, _ => s
  end.

Definition transition_to (s : CircuitState) (b : Breaker) : Breaker :=
  if bool_decide (br_state b = s) then b
  else mkBreaker (br_config b) s (consecutive_failures b) 0 (last_failure_time b) (total_requests b) (rejected_requests b)
         (total_failures b) (total_successes b) (wrap 64 (state_transitions b + 1)).

Definition allow_request (now : N) (b : Breaker) : Breaker * bool :=
  let b := mkBreaker (br_config b) (br_state b) (consecutive_failures b) (consecutive_successes b) (last_failure_time b)
             (wrap 64 (total_requests b + 1)) (rejected_requests b) (total_failures b) (total_successes b) (state_transitions b) in
  match compute_effective_state now b with
  | CClosed => (b, true)
  | COpen =>
      (mkBreaker (br_config b) (br_state b) (consecutive_failures b) (consecutive_successes b) (last_failure_time b)
         (total_requests b) (wrap 64 (rejected_requests b + 1)) (total_failures b) (total_successes b) (state_transitions b), false)
  | CHalfOpen => ((if bool_decide (br_state b = COpen) then transition_to CHalfOpen b else b), true)
  end.

Definition record_success (b : Breaker) : Breaker :=
  let successes := wrap 64 (total_successes b + 1) in
  let bump (f s : N) := mkBreaker (br_config b) (br_state b) f s (last_failure_time b) (total_requests b) (rejected_requests b)
                          (total_failures b) successes (state_transitions b) in
  match br_state b with
  | CHalfOpen =>
      let b' := bump 0%N (wrap 32 (consecutive_successes b + 1)) in
      if (success_threshold (br_config b) <=? consecutive_successes b')%N then transition_to CClosed b' else b'
  | CClosed => bump 0%N (wrap 32 (consecutive_successes b + 1))
  | COpen => bump (consecutive_failures b) (consecutive_successes b)
  end.

Definition record_failure (now : N) (b : Breaker) : Breaker :=
  let b' := mkBreaker (br_config b) (br_state b) (wrap 32 (consecutive_failures b + 1)) 0 (Some now) (total_requests b)
              (rejected_requests b) (wrap 64 (total_failures b + 1)) (total_successes b) (state_transitions b) in
  match br_state b with
  | CClosed => if (failure_threshold (br_config b) <=? consecutive_failures b')%N then transition_to COpen b' else b'
  | CHalfOpen => transition_to COpen b'
  | COpen => b'
  end.

Definition force_state (s : CircuitState) (b : Breaker) : Breaker := transition_to s b.

Definition reset (b : Breaker) : Breaker :=
  mkBreaker (br_config b) CClosed 0 0 None (total_requests b) (rejected_requests b) (total_failures b) (total_successes b) (state_transitions b).

Record CircuitBreakerStats : Type := mkCBS {
  cs_state : CircuitState; cs_consecutive_failures : N; cs_consecutive_successes : N; cs_total_requests : N;
  cs_rejected_requests : N; cs_total_failures : N; cs_total_successes : N; cs_state_transitions : N
}.
Definition breaker_stats (now : N) (b : Breaker) : CircuitBreakerStats :=
  mkCBS (compute_effective_state now b) (consecutive_failures b) (consecutive_successes b) (total_requests b)
    (rejected_requests b) (total_failures b) (total_successes b) (state_transitions b).

(** ** Histories *)

Inductive breaker_op : Type := BAllow (now : N) | BSuccess | BFailure (now : N) | BReset.

Definition breaker_step (b : Breaker) (op : breaker_op) : Breaker :=
  match op with
  | BAllow now => fst (allow_request now b)
  | BSuccess => record_success b
  | BFailure now => record_failure now b
  | BReset => reset b
  end.
Definition breaker_run (c : CircuitBreakerConfig) (ops : list breaker_op) : Breaker := fold_left breaker_step ops (breaker_new c).

(** The failures recorded since the last success or reset. *)
Fixpoint failure_streak (ops : list breaker_op) (acc : N) : N :=
  match ops with
  | [] => acc
  | BFailure _ :: ops => failure_streak ops (acc + 1)
  | BSuccess :: ops => failure_streak ops 0
  | BReset :: ops => failure_streak ops 0
  | BAllow _ :: ops => failure_streak ops acc
  end.

(** ** Invariant *)

Record breaker_inv (b : Breaker) (streak : N) : Prop := {
  bi_closed : br_state b = CClosed -> consecutive_failures b = streak /\ (streak < N.max 1 (failure_threshold (br_config b)))%N;
  bi_tripped : br_state b <> CClosed -> exists t, last_failure_time b = Some t;
  bi_half_successes : br_state b = CHalfOpen -> (consecutive_successes b < N.max 1 (success_threshold (br_config b)))%N
}.

Definition streak_step (op : breaker_op) (streak : N) : N := failure_streak [op] streak.

Lemma breaker_inv_step b streak op :
  (failure_threshold (br_config b) < 2 ^ 32)%N -> (success_threshold (br_config b) < 2 ^ 32)%N ->
  breaker_inv b streak -> breaker_inv (breaker_step b op) (streak_step op streak).
Proof.
  intros Hf Hs [Hc Ho Hh]. destruct b as [cfg st cf cs lf tr rr tf ts tn]. cbn in *.
  destruct op as [now| |now|]; cbn [breaker_step streak_step failure_streak].
  - unfold allow_request, compute_effective_state. cbn. destruct st; cbn.
    + constructor; cbn; auto.
    + destruct (Ho ltac:(done)) as [t ->]. destruct (_ <=? _)%N; cbn; unfold transition_to; cbn; enum_eq; cbn;
        enum_eq; constructor; cbn; try done; eauto. lia.
    + constructor; cbn; auto.
  - unfold record_success. cbn. destruct st; cbn.
    + constructor; cbn; intros; try done. split; [done|lia].
    + constructor; cbn; intros; try done. eauto.
    + specialize (Hh eq_refl). rewrite wrap_small by lia. destruct (N.leb_spec (success_threshold cfg) (cs + 1)) as [H|H].
      * unfold transition_to. cbn. enum_eq. constructor; cbn; intros; try done. split; [done|lia].
      * constructor; cbn; intros; try done; [by apply Ho|lia].
  - unfold record_failure. cbn. destruct st; cbn.
    + destruct (Hc eq_refl) as [-> Hlt]. rewrite wrap_small by lia.
      destruct (N.leb_spec (failure_threshold cfg) (streak + 1)).
      * unfold transition_to. cbn. enum_eq. constructor; cbn; intros; try done. eauto.
      * constructor; cbn; intros; try done. split; [done|lia].
    + constructor; cbn; intros; try done. eauto.
    + unfold transition_to. cbn. enum_eq. constructor; cbn; intros; try done. eauto.
  - constructor; cbn; intros; try done. split; [done|lia].
Qed.

Lemma breaker_step_config b op : br_config (breaker_step b op) = br_config b.
Proof.
  destruct op; cbn [breaker_step]; unfold allow_request, record_success, record_failure, transition_to;
    repeat (case_bool_decide || case_match); done.
Qed.

Lemma breaker_inv_fold ops b streak :
  (failure_threshold (br_config b) < 2 ^ 32)%N -> (success_threshold (br_config b) < 2 ^ 32)%N ->
  breaker_inv b streak -> breaker_inv (fold_left breaker_step ops b) (failure_streak ops streak).
Proof.
  revert b streak. induction ops as [|op ops IH]; intros b streak Hf Hs Hi; [done|]. cbn [fold_left].
  replace (failure_streak (op :: ops) streak) with (failure_streak ops (streak_step op streak)) by by destruct op.
  apply IH; [by rewrite breaker_step_config..|]. by apply breaker_inv_step.
Qed.

Lemma breaker_inv_run c ops :
  (failure_threshold c < 2 ^ 32)%N -> (success_threshold c < 2 ^ 32)%N -> breaker_inv (breaker_run c ops) (failure_streak ops 0).
Proof.
  intros Hf Hs. apply breaker_inv_fold; [done..|]. constructor; cbn; try done. intros _. split; [done|lia].
Qed.
Lemma breaker_run_config c ops : br_config (breaker_run c ops) = c.
Proof.
  unfold breaker_run. change c with (br_config (breaker_new c)) at 2. generalize (breaker_new c) as b.
  induction ops as [|op ops IH]; intros b; [done|]. cbn [fold_left]. by rewrite IH, breaker_step_config.
Qed.

(** A closed circuit has been failing for less than its threshold. After
    any history, the circuit is closed only if fewer consecutive failures than
    the threshold have been recorded since the last success or reset, and the
    failure that reaches the threshold opens it. *)
Theorem breaker_trips_at_threshold c ops now :
  (0 < failure_threshold c < 2 ^ 32)%N -> (success_threshold c < 2 ^ 32)%N -> br_state (breaker_run c ops) = CClosed ->
  (failure_streak ops 0 < failure_threshold c)%N /\
  (br_state (breaker_run c (ops ++ [BFailure now])) = COpen <-> failure_threshold c = (failure_streak ops 0 + 1)%N).
Proof.
  intros Hf Hs Hst. destruct (breaker_inv_run c ops) as [Hc _ _]; [lia|lia|]. rewrite breaker_run_config in Hc.
  destruct (Hc Hst) as [Hcf Hlt]. split; [lia|]. unfold breaker_run at 1. rewrite fold_left_app. fold (breaker_run c ops).
  cbn [fold_left breaker_step]. unfold record_failure. rewrite Hst, breaker_run_config. cbn [consecutive_failures].
  rewrite Hcf, wrap_small by lia. destruct (N.leb_spec (failure_threshold c) (failure_streak ops 0 + 1)).
  - unfold transition_to. cbn [br_state]. enum_eq. split; [lia|done].
  - cbn [br_state]. split; [done|lia].
Qed.

Lemma breaker_trips_at_threshold_witness :
  br_state (breaker_run (breaker_config_new 2 10) ([BFailure 5] ++ [BFailure 7])) = COpen.
Proof.
  apply (breaker_trips_at_threshold (breaker_config_new 2 10) [BFailure 5] 7); [cbn; lia|cbn; lia|reflexivity|reflexivity].
Defined.

(** An open circuit blocks for exactly its timeout. After any history that
    left the circuit open, there is a last failure, and a request at [now] is
    refused exactly while less than the reset timeout has passed since it; a
    refusal leaves the circuit open, a grant makes it half-open. *)
Theorem breaker_open_until_timeout c ops now :
  (failure_threshold c < 2 ^ 32)%N -> (success_threshold c < 2 ^ 32)%N -> br_state (breaker_run c ops) = COpen ->
  exists t, last_failure_time (breaker_run c ops) = Some t /\
    let '(b', allowed) := allow_request now (breaker_run c ops) in
    if (elapsed now t <? timeout_ns c)%N then allowed = false /\ br_state b' = COpen
    else allowed = true /\ br_state b' = CHalfOpen.
Proof.
  intros Hf Hs Hst. destruct (breaker_inv_run c ops Hf Hs) as [_ Ho _].
  destruct (Ho ltac:(rewrite Hst; done)) as [t Ht]. exists t. split; [done|].
  unfold allow_request, compute_effective_state. cbn. rewrite Hst, Ht, breaker_run_config.
  cmp_cases; cbn; [|done].
  enum_eq. done.
Qed.

Lemma breaker_open_until_timeout_witness :
  exists t, last_failure_time (breaker_run (breaker_config_new 1 10) [BFailure 5]) = Some t /\
    snd (allow_request 6 (breaker_run (breaker_config_new 1 10) [BFailure 5])) = false.
Proof.
  destruct (breaker_open_until_timeout (breaker_config_new 1 10) [BFailure 5] 6) as (t & Ht & H); [reflexivity..|].
  exists t. split; [exact Ht|]. vm_compute in Ht. injection Ht as <-. apply H.
Defined.

Fixpoint probe_successes (n : nat) (b : Breaker) : Breaker :=
  match n with O => b | S k => probe_successes k (record_success b) end.

Lemma half_open_successes n b :
  br_state b = CHalfOpen -> (success_threshold (br_config b) < 2 ^ 32)%N ->
  (consecutive_successes b + N.of_nat n < N.max 1 (success_threshold (br_config b)))%N ->
  br_state (probe_successes n b) = CHalfOpen /\ br_config (probe_successes n b) = br_config b /\
  consecutive_successes (probe_successes n b) = (consecutive_successes b + N.of_nat n)%N.
Proof.
  revert b. induction n as [|n IH]; intros b Hst Ht Hn; cbn [probe_successes]; [rewrite N.add_0_r; done|].
  destruct (IH (record_success b)) as (H1 & H2 & H3); unfold record_success; rewrite Hst; cbn [consecutive_successes];
    rewrite wrap_small by lia; (destruct (N.leb_spec (success_threshold (br_config b)) (consecutive_successes b + 1)); [lia|]); cbn; try done; try lia.
  revert H1 H2 H3. unfold record_success. rewrite Hst. cbn [consecutive_successes]. rewrite wrap_small by lia.
  destruct (N.leb_spec (success_threshold (br_config b)) (consecutive_successes b + 1)); [lia|]. cbn. intros -> -> ->. split; [done|]. split; [done|]. lia.
Qed.

(** Recovery takes exactly the configured number of successful probes: a
    circuit that has just become half-open stays half-open for fewer, and the
    [success_threshold]-th one closes it and clears the failure count. *)
Theorem breaker_recovers b (n : nat) :
  br_state b = CHalfOpen -> consecutive_successes b = 0%N -> (success_threshold (br_config b) < 2 ^ 32)%N ->
  N.of_nat (S n) = N.max 1 (success_threshold (br_config b)) ->
  br_state (probe_successes n b) = CHalfOpen /\
  br_state (probe_successes (S n) b) = CClosed /\ consecutive_failures (probe_successes (S n) b) = 0%N.
Proof.
  intros Hst H0 Ht Hn. destruct (half_open_successes n b) as (H1 & H2 & H3); [done|done|lia|]. split; [done|].
  assert (probe_successes (S n) b = record_success (probe_successes n b)) as ->.
  { clear. revert b. induction n as [|n IH]; intros b; [done|]. cbn in *. apply IH. }
  unfold record_success. rewrite H1. cbn [consecutive_successes]. rewrite H2, H3, H0, wrap_small by lia.
  destruct (N.leb_spec (success_threshold (br_config b)) (0 + N.of_nat n + 1)); [|lia].
  unfold transition_to. cbn. by rewrite bool_decide_false.
Qed.

Lemma breaker_recovers_witness :
  br_state (probe_successes 2 (fst (allow_request 10000005 (breaker_run (breaker_config_new 1 10) [BFailure 5])))) = CClosed.
Proof. apply (breaker_recovers _ 1); reflexivity. Defined.

(** A circuit forced open before any failure never recovers by itself: with
    no failure time to measure from, every later request is refused, however
    long the wait. *)
Theorem forced_open_never_recovers c (times : list N) now :
  let b := fold_left (fun b t => fst (allow_request t b)) times (force_state COpen (breaker_new c)) in
  br_state b = COpen /\ snd (allow_request now b) = false.
Proof.
  assert (H : forall b, br_state b = COpen -> last_failure_time b = None ->
            br_state (fst (allow_request now b)) = COpen /\ snd (allow_request now b) = false)
    by (intros b H1 H2; unfold allow_request, compute_effective_state; cbn; by rewrite H1, H2).
  assert (Hf : forall b, br_state b = COpen -> last_failure_time b = None ->
            br_state (fold_left (fun b t => fst (allow_request t b)) times b) = COpen /\
            last_failure_time (fold_left (fun b t => fst (allow_request t b)) times b) = None).
  { induction times as [|t times IH]; intros b H1 H2; [done|]. cbn [fold_left].
    apply IH; unfold allow_request, compute_effective_state; cbn; by rewrite H1, H2. }
  cbn zeta. destruct (Hf (force_state COpen (breaker_new c)) eq_refl eq_refl) as [H1 H2]. split; [exact H1|]. by apply H.
Qed.
