(* ===== verification/EventOutput.v ===== *)
(** * Event outputs and their middleware

    [crates/detrix-ports/src/output.rs] (the port), [detrix-output/src/]
    [middleware/{batching,circuit_breaker,timeout}.rs] and [composite.rs].

    The port is a type class over the output's state; each wrapper is an
    instance built from the wrapped output's.  [DeliveryLaws] states what the
    port's documentation promises (an [Ok] means the event was accepted, in
    order); each wrapper that keeps the promise is proved an instance, and
    theorems about pipelines are proved against the laws alone.

    A call takes the clock readings it makes, [t_now] before and [t_after]
    after the inner call.  Where a deadline cuts an inner call short is up to
    the scheduler: [Cancellable] gives, per call, the state the abandoned call
    leaves behind, or nothing when it finishes in time. *)

From Stdlib Require Import Strings.String Init.Byte.
From S2P Require Import Prelude RustStr CoreError Metric Event Breaker.

Local Open Scope string_scope.

Record OutputStats : Type := mkStats {
  events_sent : N; events_failed : N; bytes_sent : N; reconnections : N; connected : bool
}.

Record Clock : Type := mkClock { t_now : N; t_after : N }.

Definition outcome (S : Type) : Type := (S * result unit Error)%type.

Class EventOutput (S : Type) : Type := {
  out_send : Clock -> MetricEvent -> S -> outcome S;
  out_send_batch : Clock -> list MetricEvent -> S -> outcome S;
  out_flush : Clock -> S -> outcome S;
  out_stats : S -> OutputStats;
  out_is_healthy : N -> S -> bool;
  out_name : S -> string
}.

(** The trait's default [send_batch]: one by one, stopping at the first error. *)
Fixpoint default_send_batch {S : Type} (send : MetricEvent -> S -> outcome S) (es : list MetricEvent) (s : S) : outcome S :=
  match es with
  | [] => (s, Ok tt)
  | e :: es => match send e s with
               | (s', Ok _) => default_send_batch send es s'
               | (s', Err x) => (s', Err x)
               end
  end.

Inductive NullOutput : Type := Null.
#[export] Instance null_output : EventOutput NullOutput := {|
  out_send _ _ s := (s, Ok tt);
  out_send_batch _ es s := default_send_batch (fun _ s => (s, Ok tt)) es s;
  out_flush _ s := (s, Ok tt);
  out_stats _ := mkStats 0 0 0 0 true;
  out_is_healthy _ _ := true;
  out_name _ := "null"
|}.

(** ** Batching *)

Record BatchingConfig : Type := mkBC { batch_size : N; flush_interval : option N }.
Definition default_batching_config : BatchingConfig := mkBC 100 (Some 1000000000%N).
Definition batching_config_new (n : N) : BatchingConfig := mkBC n None.

Record Batching (T : Type) : Type := mkBatching {
  bt_inner : T;
  bt_config : BatchingConfig;
  bt_buffer : list MetricEvent;
  bt_last_flush : N;
  bt_batches_sent : N;
  bt_events_buffered : N
}.
Arguments mkBatching {T} _ _ _ _ _ _.
Arguments bt_inner {T} _.
Arguments bt_config {T} _.
Arguments bt_buffer {T} _.
Arguments bt_last_flush {T} _.
Arguments bt_batches_sent {T} _.
Arguments bt_events_buffered {T} _.

Section BatchingOps.
Context {T : Type} `{EventOutput T}.

Definition batching_new (now : N) (inner : T) (c : BatchingConfig) : Batching T := mkBatching inner c [] now 0 0.

Definition should_flush (now : N) (b : Batching T) : bool :=
  (batch_size (bt_config b) <=? lenN (bt_buffer b))%N
  || match flush_interval (bt_config b) with
     | Some interval => (interval <=? elapsed now (bt_last_flush b))%N && negb (lenN (bt_buffer b) =? 0)%N
     | None => false
     end.

Definition do_flush (c : Clock) (b : Batching T) : outcome (Batching T) :=
  match bt_buffer b with
  | [] => (b, Ok tt)
  | events =>
      let '(inner, r) := out_send_batch c events (bt_inner b) in
      match r with
      | Ok _ => (mkBatching inner (bt_config b) [] (t_now c) (wrap 64 (bt_batches_sent b + 1)) (bt_events_buffered b), Ok tt)
      | Err e => (mkBatching inner (bt_config b) [] (t_now c) (bt_batches_sent b) (bt_events_buffered b), Err e)
      end
  end.

Definition batching_push (c : Clock) (es : list MetricEvent) (b : Batching T) : outcome (Batching T) :=
  let b := mkBatching (bt_inner b) (bt_config b) (bt_buffer b ++ es) (bt_last_flush b) (bt_batches_sent b)
             (wrap 64 (bt_events_buffered b + lenN es)) in
  if should_flush (t_now c) b then do_flush c b else (b, Ok tt).

Definition batching_flush (c : Clock) (b : Batching T) : outcome (Batching T) :=
  match do_flush c b with
  | (b', Ok _) =>
      let '(inner, r) := out_flush c (bt_inner b') in
      (mkBatching inner (bt_config b') (bt_buffer b') (bt_last_flush b') (bt_batches_sent b') (bt_events_buffered b'), r)
  | (b', Err e) => (b', Err e)
  end.

#[export] Instance batching_output : EventOutput (Batching T) := {|
  out_send c e b := batching_push c [e] b;
  out_send_batch c es b := batching_push c es b;
  out_flush := batching_flush;
  out_stats b := out_stats (bt_inner b);
  out_is_healthy now b := out_is_healthy now (bt_inner b);
  out_name b := out_name (bt_inner b)
|}.
End BatchingOps.

(** ** Circuit breaker *)

Record BreakerOutput (T : Type) : Type := mkBO { bo_inner : T; bo_breaker : Breaker; bo_rejected : N }.
Arguments mkBO {T} _ _ _.
Arguments bo_inner {T} _.
Arguments bo_breaker {T} _.
Arguments bo_rejected {T} _.

Section BreakerOps.
Context {T : Type} `{EventOutput T}.

Definition breaker_output_new (inner : T) (c : CircuitBreakerConfig) : BreakerOutput T := mkBO inner (breaker_new c) 0.

(** The gate shared by [send] and [send_batch]: [n] events, the inner call [k]. *)
Definition guarded (c : Clock) (n : N) (blocked : string) (k : T -> outcome T) (o : BreakerOutput T) : outcome (BreakerOutput T) :=
  match allow_request (t_now c) (bo_breaker o) with
  | (b, false) => (mkBO (bo_inner o) b (wrap 64 (bo_rejected o + n)), Err (Output blocked))
  | (b, true) =>
      match k (bo_inner o) with
      | (inner, Ok _) => (mkBO inner (record_success b) (bo_rejected o), Ok tt)
      | (inner, Err e) => (mkBO inner (record_failure (t_after c) b) (bo_rejected o), Err e)
      end
  end.

#[export] Instance breaker_output : EventOutput (BreakerOutput T) := {|
  out_send c e o := guarded c 1 "Circuit breaker is open - request blocked" (out_send c e) o;
  out_send_batch c es o := guarded c (lenN es) "Circuit breaker is open - batch blocked" (out_send_batch c es) o;
  out_flush c o := let '(inner, r) := out_flush c (bo_inner o) in (mkBO inner (bo_breaker o) (bo_rejected o), r);
  out_stats o := out_stats (bo_inner o);
  out_is_healthy now o := negb (bool_decide (compute_effective_state now (bo_breaker o) = COpen)) && out_is_healthy now (bo_inner o);
  out_name o := out_name (bo_inner o)
|}.
End BreakerOps.

(** ** Timeouts *)

Class Cancellable (S : Type) : Type := cancelled_at : Clock -> S -> option S.

Record TimeoutOutput (T : Type) : Type := mkTO { to_inner : T; to_timeouts : N }.
Arguments mkTO {T} _ _.
Arguments to_inner {T} _.
Arguments to_timeouts {T} _.

Section TimeoutOps.
Context {T : Type} `{EventOutput T} `{Cancellable T}.

(** [tokio::time::timeout(d, k)]; [count] says whether a miss is counted. *)
Definition with_deadline (c : Clock) (count : bool) (msg : string) (k : T -> outcome T) (o : TimeoutOutput T) : outcome (TimeoutOutput T) :=
  match cancelled_at c (to_inner o) with
  | Some inner => (mkTO inner (if count then wrap 64 (to_timeouts o + 1) else to_timeouts o), Err (Output msg))
  | None => let '(inner, r) := k (to_inner o) in (mkTO inner (to_timeouts o), r)
  end.

#[export] Instance timeout_output : EventOutput (TimeoutOutput T) := {|
  out_send c e o := with_deadline c true "Send timeout" (out_send c e) o;
  out_send_batch c es o := with_deadline c true "Batch send timeout" (out_send_batch c es) o;
  out_flush c o := with_deadline c false "Flush timeout" (out_flush c) o;
  out_stats o := out_stats (to_inner o);
  out_is_healthy now o := out_is_healthy now (to_inner o);
  out_name o := out_name (to_inner o)
|}.
End TimeoutOps.

(** ** Composite *)

(** [Box<dyn EventOutput>] *)
Record DynOutput : Type := mkDyn { dyn_type : Type; dyn_output : EventOutput dyn_type; dyn_state : dyn_type }.

Definition dyn_call (k : forall S (o : EventOutput S), S -> outcome S) (d : DynOutput) : DynOutput * result unit Error :=
  let '(s, r) := k (dyn_type d) (dyn_output d) (dyn_state d) in (mkDyn (dyn_type d) (dyn_output d) s, r).

(** The loop: every output is called, errors are only logged. *)
Fixpoint fan_out (k : forall S (o : EventOutput S), S -> outcome S) (outputs : list DynOutput) : list DynOutput :=
  match outputs with
  | [] => []
  | d :: ds => let '(d', _) := dyn_call k d in d' :: fan_out k ds
  end.

Definition dyn_stats (d : DynOutput) : OutputStats := @out_stats _ (dyn_output d) (dyn_state d).

Definition add_stats (a b : OutputStats) : OutputStats :=
  mkStats (wrap 64 (events_sent a + events_sent b)) (wrap 64 (events_failed a + events_failed b))
    (wrap 64 (bytes_sent a + bytes_sent b)) (wrap 64 (reconnections a + reconnections b)) (connected a && connected b).

Definition composite_stats (outputs : list DynOutput) : OutputStats :=
  fold_left (fun acc d => add_stats acc (dyn_stats d)) outputs (mkStats 0 0 0 0 true).

Definition composite_send (c : Clock) (e : MetricEvent) (outputs : list DynOutput) : list DynOutput * result unit Error :=
  (fan_out (fun S o => @out_send S o c e) outputs, Ok tt).
Definition composite_send_batch (c : Clock) (es : list MetricEvent) (outputs : list DynOutput) : list DynOutput * result unit Error :=
  (fan_out (fun S o => @out_send_batch S o c es) outputs, Ok tt).
Definition composite_flush (c : Clock) (outputs : list DynOutput) : list DynOutput * result unit Error :=
  (fan_out (fun S o => @out_flush S o c) outputs, Ok tt).

Local Close Scope string_scope.
Local Open Scope list_scope.

(** ** What the port promises

    [accepted s] is the history of events an output has taken responsibility
    for; an [Ok] extends it with exactly the events of the call, in order.
    After an [Err] nothing is promised. *)
Class DeliveryLaws (S : Type) `{EventOutput S} : Type := {
  accepted : S -> list MetricEvent;
  accept_send c e s s' : out_send c e s = (s', Ok tt) -> accepted s' = accepted s ++ [e];
  accept_batch c es s s' : out_send_batch c es s = (s', Ok tt) -> accepted s' = accepted s ++ es;
  accept_flush c s s' : out_flush c s = (s', Ok tt) -> accepted s' = accepted s
}.

Inductive output_call : Type :=
| CallSend (c : Clock) (e : MetricEvent)
| CallBatch (c : Clock) (es : list MetricEvent)
| CallFlush (c : Clock).

Definition call_events (k : output_call) : list MetricEvent :=
  match k with CallSend _ e => [e] | CallBatch _ es => es | CallFlush _ => [] end.

Section Calls.
Context {S : Type} `{EventOutput S}.

Definition do_call (k : output_call) (s : S) : outcome S :=
  match k with
  | CallSend c e => out_send c e s
  | CallBatch c es => out_send_batch c es s
  | CallFlush c => out_flush c s
  end.

(** A caller that makes every call, collecting the results. *)
Fixpoint run_calls (ks : list output_call) (s : S) : S * list (result unit Error) :=
  match ks with
  | [] => (s, [])
  | k :: ks => let '(s1, r) := do_call k s in let '(s2, rs) := run_calls ks s1 in (s2, r :: rs)
  end.
End Calls.

Lemma accept_call {S : Type} `{DeliveryLaws S} k s s' :
  do_call k s = (s', Ok tt) -> accepted s' = accepted s ++ call_events k.
Proof.
  destruct k; cbn; intros E.
  - by eapply accept_send.
  - by eapply accept_batch.
  - rewrite app_nil_r. by eapply accept_flush.
Qed.

Lemma accept_calls {S : Type} `{DeliveryLaws S} ks : forall s s' rs,
  run_calls ks s = (s', rs) -> Forall (fun r => r = Ok tt) rs -> accepted s' = accepted s ++ concat (call_events <$> ks).
Proof.
  induction ks as [|k ks IH]; cbn; intros s s' rs.
  - intros [= <- <-] _. by rewrite app_nil_r.
  - destruct (do_call k s) as [s1 r] eqn:E1. destruct (run_calls ks s1) as [s2 rs2] eqn:E2.
    intros [= <- <-] [-> Hrs]%List.Forall_cons_iff.
    rewrite (IH _ _ _ E2 Hrs), (accept_call _ _ _ E1). by rewrite (assoc_L app).
Qed.

(** ** The wrappers keep the promise *)

Lemma do_flush_accepts {T : Type} `{DeliveryLaws T} c (b b' : Batching T) :
  do_flush c b = (b', Ok tt) -> accepted (bt_inner b') = accepted (bt_inner b) ++ bt_buffer b /\ bt_buffer b' = [].
Proof.
  unfold do_flush. destruct (bt_buffer b) as [|e es] eqn:Eb.
  - intros [= <-]. by rewrite app_nil_r.
  - destruct (out_send_batch c (e :: es) (bt_inner b)) as [i [[]|x]] eqn:E; [|done].
    intros [= <-]. cbn. split; [by eapply accept_batch | done].
Qed.

Lemma batching_flush_accepts {T : Type} `{DeliveryLaws T} c (b b' : Batching T) :
  batching_flush c b = (b', Ok tt) -> accepted (bt_inner b') = accepted (bt_inner b) ++ bt_buffer b /\ bt_buffer b' = [].
Proof.
  unfold batching_flush. destruct (do_flush c b) as [b1 [[]|x]] eqn:E; [|done].
  apply do_flush_accepts in E as [E1 E2]. destruct (out_flush c (bt_inner b1)) as [i r] eqn:E3.
  intros [= <- ->]. cbn. rewrite E2. split; [|done]. rewrite <- E1. by eapply accept_flush.
Qed.

Lemma batching_push_accepts {T : Type} `{DeliveryLaws T} c es (b b' : Batching T) :
  batching_push c es b = (b', Ok tt) -> accepted (bt_inner b') ++ bt_buffer b' = (accepted (bt_inner b) ++ bt_buffer b) ++ es.
Proof.
  unfold batching_push. destruct (should_flush _ _).
  - intros [-> ->]%do_flush_accepts. cbn. by rewrite app_nil_r, (assoc_L app).
  - intros [= <-]. cbn. by rewrite (assoc_L app).
Qed.

#[refine, export] Instance batching_lawful {T : Type} `{DeliveryLaws T} : DeliveryLaws (Batching T) := {
  accepted b := accepted (bt_inner b) ++ bt_buffer b
}.
Proof.
  - intros c e b b'. apply batching_push_accepts.
  - intros c es b b'. apply batching_push_accepts.
  - intros c b b' [-> ->]%batching_flush_accepts. by rewrite app_nil_r.
Defined.

Lemma guarded_ok {T : Type} c n msg (k : T -> outcome T) (o o' : BreakerOutput T) :
  guarded c n msg k o = (o', Ok tt) -> k (bo_inner o) = (bo_inner o', Ok tt).
Proof.
  unfold guarded. destruct (allow_request _ _) as [b []]; [|done].
  destruct (k (bo_inner o)) as [i [[]|x]]; [|done]. by intros [= <-].
Qed.

#[refine, export] Instance breaker_lawful {T : Type} `{DeliveryLaws T} : DeliveryLaws (BreakerOutput T) := {
  accepted o := accepted (bo_inner o)
}.
Proof.
  - intros c e o o' E%guarded_ok. by eapply accept_send.
  - intros c es o o' E%guarded_ok. by eapply accept_batch.
  - intros c o o'. cbn. destruct (out_flush c (bo_inner o)) as [i r] eqn:E. intros [= <- ->]. by eapply accept_flush.
Defined.

Lemma with_deadline_ok {T : Type} `{Cancellable T} c count msg (k : T -> outcome T) (o o' : TimeoutOutput T) :
  with_deadline c count msg k o = (o', Ok tt) -> k (to_inner o) = (to_inner o', Ok tt).
Proof.
  unfold with_deadline. destruct (cancelled_at c (to_inner o)); [done|].
  destruct (k (to_inner o)) as [i r]. by intros [= <- ->].
Qed.

#[refine, export] Instance timeout_lawful {T : Type} `{DeliveryLaws T} `{!Cancellable T} : DeliveryLaws (TimeoutOutput T) := {
  accepted o := accepted (to_inner o)
}.
Proof.
  - intros c e o o' E%with_deadline_ok. by eapply accept_send.
  - intros c es o o' E%with_deadline_ok. by eapply accept_batch.
  - intros c o o' E%with_deadline_ok. by eapply accept_flush.
Defined.

(** A concrete lawful output: a sink that keeps what it receives and fails the
    calls its script says. *)
Record Sink : Type := mkSink { sink_received : list MetricEvent; sink_script : list bool }.
Definition sink_take (es : list MetricEvent) (s : Sink) : outcome Sink :=
  match sink_script s with
  | false :: rest => (mkSink (sink_received s) rest, Err (Output "sink failed"%string))
  | true :: rest => (mkSink (sink_received s ++ es) rest, Ok tt)
  | [] => (mkSink (sink_received s ++ es) [], Ok tt)
  end.
#[export] Instance sink_output : EventOutput Sink := {|
  out_send _ e s := sink_take [e] s;
  out_send_batch _ es s := sink_take es s;
  out_flush _ s := (s, Ok tt);
  out_stats s := mkStats (lenN (sink_received s)) 0 0 0 true;
  out_is_healthy _ _ := true;
  out_name _ := "sink"%string
|}.
#[refine, export] Instance sink_lawful : DeliveryLaws Sink := { accepted := sink_received }.
Proof.
  - intros c e [r [|[] sc]] s'; cbn; by intros [= <-].
  - intros c es [r [|[] sc]] s'; cbn; by intros [= <-].
  - intros c s s' [= <-]. done.
Defined.
#[export] Instance sink_cancellable : Cancellable Sink := fun _ _ => None.

(** C37: a caller of a batching output that sees only [Ok]s and ends with a
    [flush] knows that the wrapped output, whatever lawful stack of circuit
    breakers and timeouts it is, accepted every event exactly once and in
    order, and that nothing is left in the buffer. *)
Theorem batching_delivers {T : Type} `{DeliveryLaws T} (b b' : Batching T) ks c rs
  (Hrun : run_calls (ks ++ [CallFlush c]) b = (b', rs)) (Hok : Forall (fun r => r = Ok tt) rs) :
  accepted (bt_inner b') = accepted (bt_inner b) ++ bt_buffer b ++ concat (call_events <$> ks)
  /\ bt_buffer b' = [].
Proof.
  pose proof (accept_calls _ _ _ _ Hrun Hok) as Hacc. cbn in Hacc.
  rewrite fmap_app, concat_app in Hacc. cbn in Hacc. rewrite app_nil_r in Hacc.
  assert (bt_buffer b' = []) as Hb.
  { clear Hacc. revert b rs Hrun Hok. induction ks as [|k ks IH]; intros b rs; cbn.
    - destruct (batching_flush c b) as [b1 r] eqn:E. intros [= <- <-] [-> _]%List.Forall_cons_iff.
      by apply batching_flush_accepts in E as [_ ?].
    - destruct (do_call k b) as [b1 r]. destruct (run_calls _ b1) as [b2 rs2] eqn:E. intros [= <- <-] [_ Hrs]%List.Forall_cons_iff.
      by eapply IH. }
  split; [|done]. rewrite Hb, app_nil_r in Hacc. by rewrite Hacc, (assoc_L app).
Qed.

Definition sample_event (n : N) : MetricEvent := event_new 7 n "orders" "conn" "1".
Definition clock_at (t : N) : Clock := mkClock t t.

(** The stack batching over breaker over timeout, over the sink. *)
Definition sample_stack (script : list bool) : Batching (BreakerOutput (TimeoutOutput Sink)) :=
  batching_new 0 (breaker_output_new (mkTO (mkSink [] script) 0) (breaker_config_new 2 1000)) (batching_config_new 2).

Definition sample_calls : list output_call :=
  [CallSend (clock_at 1) (sample_event 1); CallSend (clock_at 2) (sample_event 2); CallSend (clock_at 3) (sample_event 3)].

Lemma batching_delivers_witness :
  let b := fst (run_calls (sample_calls ++ [CallFlush (clock_at 4)]) (sample_stack [])) in
  accepted (bt_inner b) = [sample_event 1; sample_event 2; sample_event 3] /\ bt_buffer b = [].
Proof.
  refine (batching_delivers (sample_stack []) _ sample_calls (clock_at 4) [Ok tt; Ok tt; Ok tt; Ok tt] _ _).
  - vm_compute. reflexivity.
  - repeat constructor.
Defined.

(** ** Batching hands every event over once

    [Recorder T] is an output [T] that also notes the batches it is given,
    whether or not it then fails. *)
Record Recorder (T : Type) : Type := mkRec { rec_inner : T; rec_batches : list (list MetricEvent) }.
Arguments mkRec {T} _ _.
Arguments rec_inner {T} _.
Arguments rec_batches {T} _.

#[export] Instance recorder_output {T : Type} `{EventOutput T} : EventOutput (Recorder T) := {|
  out_send c e s := let '(i, r) := out_send c e (rec_inner s) in (mkRec i (rec_batches s ++ [[e]]), r);
  out_send_batch c es s := let '(i, r) := out_send_batch c es (rec_inner s) in (mkRec i (rec_batches s ++ [es]), r);
  out_flush c s := let '(i, r) := out_flush c (rec_inner s) in (mkRec i (rec_batches s), r);
  out_stats s := out_stats (rec_inner s);
  out_is_healthy now s := out_is_healthy now (rec_inner s);
  out_name s := out_name (rec_inner s)
|}.

(** Everything given to the batching output so far, and the batches it made. *)
Record handed_over {T : Type} (b : Batching (Recorder T)) (es : list MetricEvent) : Prop := {
  ho_events : concat (rec_batches (bt_inner b)) ++ bt_buffer b = es;
  ho_nonempty : Forall (fun batch => batch <> []) (rec_batches (bt_inner b))
}.

Lemma do_flush_handed_over {T : Type} `{EventOutput T} c (b : Batching (Recorder T)) es :
  handed_over b es -> handed_over (fst (do_flush c b)) es.
Proof.
  intros [He Hn]. unfold do_flush. destruct (bt_buffer b) as [|e buf] eqn:Eb; [constructor; cbn; [by rewrite Eb | done]|].
  cbn. destruct (out_send_batch c (e :: buf) (rec_inner (bt_inner b))) as [i [[]|x]]; cbn.
  all: constructor; cbn; [by rewrite concat_app; cbn; rewrite !app_nil_r | apply Forall_app; split; [done | by repeat constructor]].
Qed.

Lemma batching_push_handed_over {T : Type} `{EventOutput T} c new (b : Batching (Recorder T)) es :
  handed_over b es -> handed_over (fst (batching_push c new b)) (es ++ new).
Proof.
  intros [He Hn]. unfold batching_push.
  assert (handed_over (mkBatching (bt_inner b) (bt_config b) (bt_buffer b ++ new) (bt_last_flush b) (bt_batches_sent b)
             (wrap 64 (bt_events_buffered b + lenN new))) (es ++ new)) as Hpush.
  { constructor; cbn; [|done]. by rewrite (assoc_L app), He. }
  destruct (should_flush _ _); [by apply do_flush_handed_over | done].
Qed.

Lemma batching_call_handed_over {T : Type} `{EventOutput T} k (b : Batching (Recorder T)) es :
  handed_over b es -> handed_over (fst (do_call k b)) (es ++ call_events k).
Proof.
  intros Hb. destruct k as [c e|c new|c]; cbn [do_call call_events].
  - by apply batching_push_handed_over.
  - by apply batching_push_handed_over.
  - rewrite app_nil_r. cbn. unfold batching_flush.
    apply (do_flush_handed_over c) in Hb. destruct (do_flush c b) as [b1 [[]|x]]; [|done].
    cbn. destruct (out_flush c (rec_inner (bt_inner b1))) as [i r]. destruct Hb as [H1 H2]. by constructor.
Qed.

Lemma run_calls_handed_over {T : Type} `{EventOutput T} ks : forall (b : Batching (Recorder T)) es,
  handed_over b es -> handed_over (fst (run_calls ks b)) (es ++ concat (call_events <$> ks)).
Proof.
  induction ks as [|k ks IH]; intros b es Hb; cbn; [by rewrite app_nil_r|].
  apply (batching_call_handed_over k) in Hb. destruct (do_call k b) as [b1 r].
  cbn in Hb. apply IH in Hb. destruct (run_calls ks b1) as [b2 rs]. cbn in *. by rewrite (assoc_L app).
Qed.

(** Whatever the wrapped output answers and however the calls interleave,
    a batching output hands every event over at most once, in arrival order
    and in batches that are never empty: what it passed on followed by what it
    still buffers is exactly what it was given. *)
Theorem batching_hands_over_once {T : Type} `{EventOutput T} (now : N) (inner : T) (cfg : BatchingConfig) ks :
  let b := fst (run_calls ks (batching_new now (mkRec inner []) cfg)) in
  concat (rec_batches (bt_inner b)) ++ bt_buffer b = concat (call_events <$> ks)
  /\ Forall (fun batch => batch <> []) (rec_batches (bt_inner b)).
Proof.
  intros b. assert (handed_over (batching_new now (mkRec inner []) cfg) []) as H0 by (by constructor).
  apply (run_calls_handed_over ks) in H0. by destruct H0.
Qed.

(** A batch the wrapped output refuses is gone: the failed flush empties
    the buffer, and the next [flush] offers nothing again and reports whatever
    the wrapped output's own flush reports. *)
Theorem failed_flush_drops_batch {T : Type} `{EventOutput T} (b : Batching T) c1 c2 inner x
  (Hbuf : bt_buffer b <> []) (Hfail : out_send_batch c1 (bt_buffer b) (bt_inner b) = (inner, Err x)) :
  let '(b1, r1) := batching_flush c1 b in
  r1 = Err x /\ bt_buffer b1 = []
  /\ snd (batching_flush c2 b1) = snd (out_flush c2 inner) /\ bt_inner (fst (batching_flush c2 b1)) = fst (out_flush c2 inner).
Proof.
  unfold batching_flush at 1, do_flush. destruct (bt_buffer b) as [|e es]; [done|]. rewrite Hfail.
  split; [done|]. split; [done|]. unfold batching_flush. cbn. by destruct (out_flush c2 inner).
Qed.

Lemma failed_flush_drops_batch_witness :
  let b := mkBatching (mkSink [] [false]) (batching_config_new 2) [sample_event 1] 0 0 1 in
  let '(b1, r1) := batching_flush (clock_at 1) b in
  r1 = Err (Output "sink failed") /\ bt_buffer b1 = [] /\ snd (batching_flush (clock_at 2) b1) = Ok tt
  /\ bt_inner (fst (batching_flush (clock_at 2) b1)) = mkSink [] [].
Proof.
  exact (failed_flush_drops_batch (mkBatching (mkSink [] [false]) (batching_config_new 2) [sample_event 1] 0 0 1)
    (clock_at 1) (clock_at 2) (mkSink [] []) (Output "sink failed") ltac:(discriminate) eq_refl).
Defined.

(** ** The breaker shields a dead output *)

(** An output that is down: it counts the calls and fails them. *)
Record DeadSink : Type := mkDead { dead_calls : N }.
#[export] Instance dead_output : EventOutput DeadSink := {|
  out_send _ _ s := (mkDead (dead_calls s + 1), Err (Output "down"%string));
  out_send_batch _ _ s := (mkDead (dead_calls s + 1), Err (Output "down"%string));
  out_flush _ s := (s, Ok tt);
  out_stats s := mkStats 0 (dead_calls s) 0 0 false;
  out_is_healthy _ _ := false;
  out_name _ := "dead"%string
|}.

Definition send_all {S : Type} `{EventOutput S} (cs : list (Clock * MetricEvent)) (s : S) : S :=
  fst (run_calls ((fun p => CallSend (fst p) (snd p)) <$> cs) s).

(** Inside the window no call comes a whole reset timeout after a failure. *)
Definition within_window (cfg : CircuitBreakerConfig) (t0 : N) (p : Clock * MetricEvent) : Prop :=
  (t0 <= t_after (fst p))%N /\ (t_now (fst p) < t0 + timeout_ns cfg)%N.

(** After [n] sends of a dead output behind a fresh breaker. *)
Record dead_inv (cfg : CircuitBreakerConfig) (t0 : N) (o : BreakerOutput DeadSink) (n : N) : Prop := {
  di_config : br_config (bo_breaker o) = cfg;
  di_calls : dead_calls (bo_inner o) = N.min n (failure_threshold cfg);
  di_rejected : bo_rejected o = wrap 64 (n - failure_threshold cfg);
  di_closed : (n < failure_threshold cfg)%N -> br_state (bo_breaker o) = CClosed /\ consecutive_failures (bo_breaker o) = n;
  di_open : (failure_threshold cfg <= n)%N -> br_state (bo_breaker o) = COpen /\ exists t, last_failure_time (bo_breaker o) = Some t /\ (t0 <= t)%N
}.

Lemma wrap_succ w n : wrap w (wrap w n + 1) = wrap w (n + 1).
Proof. unfold wrap. rewrite N.Div0.add_mod_idemp_l. done. Qed.

Lemma dead_inv_step cfg t0 o n p :
  (0 < failure_threshold cfg < 2 ^ 32)%N -> (0 < reset_timeout_ms cfg)%N -> within_window cfg t0 p -> dead_inv cfg t0 o n ->
  dead_inv cfg t0 (fst (out_send (fst p) (snd p) o)) (n + 1).
Proof.
  intros Hf Hr [Hafter Hnow] [Hcfg Hcalls Hrej Hclosed Hopen]. destruct o as [[calls] [cfg' st cf cs lf tr rr tf ts tn] rej]. cbn in *. subst cfg' calls rej.
  unfold guarded, allow_request, compute_effective_state. cbn.
  destruct (N.lt_ge_cases n (failure_threshold cfg)) as [Hn|Hn].
  - destruct (Hclosed Hn) as [-> ->]. cbn. unfold record_failure. cbn. rewrite wrap_small by lia.
    destruct (N.leb_spec (failure_threshold cfg) (n + 1)); unfold transition_to; cbn; enum_eq.
    all: constructor; cbn; intros; try done; try lia; try (f_equal; lia); eauto.
  - destruct (Hopen Hn) as [-> (t & -> & Ht)]. unfold elapsed.
    destruct (N.leb_spec (timeout_ns cfg) (t_now (fst p) - t)); [unfold timeout_ns in *; lia|]. cbn.
    constructor; cbn; intros; try done; try lia; eauto. rewrite wrap_succ. f_equal. lia.
Qed.

Lemma dead_inv_run cfg t0 : (0 < failure_threshold cfg < 2 ^ 32)%N -> (0 < reset_timeout_ms cfg)%N -> forall cs o n,
  Forall (within_window cfg t0) cs -> dead_inv cfg t0 o n -> dead_inv cfg t0 (send_all cs o) (n + lenN cs).
Proof.
  intros Hf Hr cs. unfold send_all. induction cs as [|p cs IH]; intros o n Hw Hi; [by rewrite lenN_nil, N.add_0_r|].
  apply List.Forall_cons_iff in Hw as [Hp Hw]. rewrite fmap_cons. cbn [run_calls do_call].
  apply (dead_inv_step _ _ _ _ p) in Hi; [|done..]. destruct (out_send (fst p) (snd p) o) as [o1 r]. cbn [fst] in Hi.
  apply (IH _ _ Hw) in Hi. destruct (run_calls _ o1) as [o2 rs]. cbn [fst] in *. rewrite lenN_cons.
  by replace (n + (1 + lenN cs))%N with (n + 1 + lenN cs)%N by lia.
Qed.

(** However many events are sent through the circuit-breaker output within
    a reset timeout, an output that is down is called [failure_threshold]
    times and no more; every further event is refused and counted. *)
Theorem breaker_shields_dead_output (cfg : CircuitBreakerConfig) (t0 : N) (cs : list (Clock * MetricEvent))
  (Hf : (0 < failure_threshold cfg < 2 ^ 32)%N) (Hr : (0 < reset_timeout_ms cfg)%N) (Hw : Forall (within_window cfg t0) cs) :
  let o := send_all cs (breaker_output_new (mkDead 0) cfg) in
  dead_calls (bo_inner o) = N.min (lenN cs) (failure_threshold cfg)
  /\ bo_rejected o = wrap 64 (lenN cs - failure_threshold cfg)
  /\ (br_state (bo_breaker o) = COpen <-> failure_threshold cfg <= lenN cs)%N.
Proof.
  intros o. destruct (dead_inv_run cfg t0 Hf Hr cs (breaker_output_new (mkDead 0) cfg) 0 Hw) as [_ H1 H2 H3 H4].
  { constructor; cbn; intros; try done; try lia. }
  rewrite N.add_0_l in *. fold o in H1, H2, H3, H4. split; [done|]. split; [done|].
  destruct (N.lt_ge_cases (lenN cs) (failure_threshold cfg)) as [H|H].
  - destruct (H3 H) as [-> _]. split; [done|lia].
  - destruct (H4 H) as [-> _]. split; [done|done].
Qed.

Lemma breaker_shields_dead_output_witness :
  let o := send_all ((fun n => (clock_at (10 + n), sample_event n)) <$> [0; 1; 2; 3; 4]%N)
             (breaker_output_new (mkDead 0) (breaker_config_new 2 1000)) in
  dead_calls (bo_inner o) = 2%N /\ bo_rejected o = 3%N.
Proof.
  destruct (breaker_shields_dead_output (breaker_config_new 2 1000) 10
    ((fun n => (clock_at (10 + n), sample_event n)) <$> [0; 1; 2; 3; 4]%N)) as (H1 & H2 & _).
  - cbn. lia.
  - cbn. lia.
  - repeat constructor; cbn; lia.
  - split; [exact H1 | exact H2].
Defined.

(** ** Fan-out *)

Lemma fan_out_lookup k ds i : fan_out k ds !! i = (fun d => fst (dyn_call k d)) <$> ds !! i.
Proof.
  revert i. induction ds as [|d ds IH]; intros i; [done|].
  cbn. destruct (dyn_call k d) as [d' r] eqn:E. destruct i; cbn; [by rewrite E | apply IH].
Qed.

Lemma composite_stats_connected ds : connected (composite_stats ds) = forallb (fun d => connected (dyn_stats d)) ds.
Proof.
  unfold composite_stats.
  enough (forall acc, connected (fold_left (fun acc d => add_stats acc (dyn_stats d)) ds acc)
            = connected acc && forallb (fun d => connected (dyn_stats d)) ds) as H by apply (H (mkStats 0 0 0 0 true)).
  induction ds as [|d ds IH]; intros acc; cbn; [by rewrite andb_true_r|]. rewrite IH. cbn. by rewrite andb_assoc.
Qed.

(** One output's failure does not keep an event from the others: a
    composite [send] reports [Ok] and leaves every output in the state its own
    [send] puts it in, whatever the others did.  The combined status is
    connected only when all outputs are. *)
Theorem composite_fans_out c e (ds : list DynOutput) :
  snd (composite_send c e ds) = Ok tt
  /\ (forall i d, ds !! i = Some d ->
        fst (composite_send c e ds) !! i
        = Some (mkDyn (dyn_type d) (dyn_output d) (fst (@out_send _ (dyn_output d) c e (dyn_state d)))))
  /\ (connected (composite_stats ds) = true <-> forall i d, ds !! i = Some d -> connected (dyn_stats d) = true).
Proof.
  split; [done|]. split.
  - intros i d Hd. cbn. rewrite fan_out_lookup, Hd. cbn. unfold dyn_call. by destruct (out_send _ _ _).
  - rewrite composite_stats_connected, forallb_forall. split.
    + intros H i d Hd. apply H. apply list_elem_of_In. by eapply list_elem_of_lookup_2.
    + intros H d [i Hd]%list_elem_of_In%list_elem_of_lookup_1. by eapply H.
Qed.
