(* ===== verification/GelfUdp.v ===== *)
(** * GELF over UDP

    [crates/detrix-output/src/gelf/udp.rs] and the constants of
    [detrix-config/src/constants.rs].  The message identifier is drawn at
    random; the gzip encoder and the socket are outside the repository's code.
    All three are arguments: an identifier, the encoder [gzip], and a stream of
    answers the socket gives to [send_to] ([None]: sent; the answers after the
    end of the stream are all [None]).  [GelfMessage::from_event] and
    [to_json] enter as the serialised message they yield, or its error. *)

From Stdlib Require Import Strings.String Init.Byte.
From S2P Require Import Prelude RustStr CoreError EventOutput.

Local Open Scope string_scope.
Local Arguments String.append !_ _ / : simpl nomatch.

Definition MAX_GELF_UDP_MESSAGE_SIZE : N := 8192.
Definition GELF_CHUNK_MAGIC : list byte := [x1e; x0f].
Definition GELF_CHUNK_HEADER_SIZE : N := 12.
Definition GELF_CHUNK_DATA_SIZE : N := MAX_GELF_UDP_MESSAGE_SIZE - GELF_CHUNK_HEADER_SIZE.
Definition GELF_MAX_CHUNKS : N := 128.

(** [n.div_ceil(d)] *)
Definition div_ceil (n d : N) : N := (if n mod d =? 0 then n / d else n / d + 1)%N.

Definition chunk_header (message_id : list byte) (seq_num chunk_count : N) : list byte :=
  (GELF_CHUNK_MAGIC ++ message_id ++ [byte_of_N (wrap 8 seq_num); byte_of_N (wrap 8 chunk_count)])%list.

Definition create_chunks (message_id : list byte) (data : list byte) : result (list (list byte)) Error :=
  let chunk_count := div_ceil (lenN data) GELF_CHUNK_DATA_SIZE in
  if (GELF_MAX_CHUNKS <? chunk_count)%N
  then Err (Output ("Message too large: requires " ++ show_N chunk_count ++ " chunks (max " ++ show_N GELF_MAX_CHUNKS
                    ++ "). Consider using TCP transport."))
  else Ok (imap (fun seq_num d => (chunk_header message_id (N.of_nat seq_num) chunk_count ++ d)%list) (chunks GELF_CHUNK_DATA_SIZE data)).

Record GelfUdpConfig : Type := mkUdpConfig {
  address : string; source_host : option string; compress : bool; compression_level : N; enable_chunking : bool
}.
Definition default_udp_config (address : string) : GelfUdpConfig := mkUdpConfig address None true 6 true.
Definition with_compression_level (c : GelfUdpConfig) (level : N) : GelfUdpConfig :=
  mkUdpConfig (address c) (source_host c) (compress c) (N.min level 9) (enable_chunking c).

(** The output with the socket it holds; [udp_wire] are the datagrams the
    socket has taken, [udp_answers] what it will say to the next ones. *)
Record GelfUdp : Type := mkUdp {
  udp_config : GelfUdpConfig;
  udp_bound : bool;
  udp_connected : bool;
  udp_events_sent : N;
  udp_events_failed : N;
  udp_bytes_sent : N;
  udp_wire : list (list byte);
  udp_answers : list (option string)
}.

Definition gelf_udp_new (c : GelfUdpConfig) (answers : list (option string)) : GelfUdp := mkUdp c false false 0 0 0 [] answers.
Definition udp_bind (bind : result unit string) (o : GelfUdp) : outcome GelfUdp :=
  match bind with
  | Ok _ => (mkUdp (udp_config o) true true (udp_events_sent o) (udp_events_failed o) (udp_bytes_sent o) (udp_wire o) (udp_answers o), Ok tt)
  | Err e => (o, Err (Output ("Failed to bind UDP socket: " ++ e)))
  end.

Definition send_bytes (bytes : list byte) (o : GelfUdp) : outcome GelfUdp :=
  if udp_bound o then
    match udp_answers o with
    | Some e :: rest =>
        (mkUdp (udp_config o) true (udp_connected o) (udp_events_sent o) (udp_events_failed o) (udp_bytes_sent o) (udp_wire o) rest,
         Err (Output ("UDP send failed: " ++ e)))
    | answers =>
        (mkUdp (udp_config o) true (udp_connected o) (udp_events_sent o) (udp_events_failed o)
           (wrap 64 (udp_bytes_sent o + lenN bytes)) (udp_wire o ++ [bytes])%list (tail answers), Ok tt)
    end
  else (o, Err (Output "UDP socket not bound")).

Fixpoint send_chunk_list (cs : list (list byte)) (o : GelfUdp) : outcome GelfUdp :=
  match cs with
  | [] => (o, Ok tt)
  | c :: cs => match send_bytes c o with
               | (o, Ok _) => send_chunk_list cs o
               | (o, Err e) => (o, Err e)
               end
  end.

Definition send_chunked (message_id data : list byte) (o : GelfUdp) : outcome GelfUdp :=
  match create_chunks message_id data with
  | Ok cs => send_chunk_list cs o
  | Err e => (o, Err e)
  end.

Definition count_event (ok : bool) (o : GelfUdp) : GelfUdp :=
  mkUdp (udp_config o) (udp_bound o) (udp_connected o)
    (if ok then wrap 64 (udp_events_sent o + 1) else udp_events_sent o)
    (if ok then udp_events_failed o else wrap 64 (udp_events_failed o + 1))
    (udp_bytes_sent o) (udp_wire o) (udp_answers o).

(** [flate2]'s encoder fails while it is fed or when it is finished. *)
Inductive GzipError : Type := GzipWrite (e : string) | GzipFinish (e : string).
Definition compress_data (gzip : N -> list byte -> result (list byte) GzipError) (level : N) (data : list byte) : result (list byte) Error :=
  map_err (fun e => match e with
                    | GzipWrite e => Output ("Compression failed: " ++ e)
                    | GzipFinish e => Output ("Compression finalize failed: " ++ e)
                    end) (gzip level data).

(** The bytes to send: the serialised message, compressed if so configured. *)
Definition payload (gzip : N -> list byte -> result (list byte) GzipError) (c : GelfUdpConfig) (json : result (list byte) string)
  : result (list byte) Error :=
  let? json_bytes := map_err (fun e => Output ("Serialization failed: " ++ e)) json in
  if compress c then compress_data gzip (compression_level c) json_bytes else Ok json_bytes.

Definition gelf_udp_send (gzip : N -> list byte -> result (list byte) GzipError) (message_id : list byte)
    (json : result (list byte) string) (o : GelfUdp) : outcome GelfUdp :=
  match payload gzip (udp_config o) json with
  | Err e => (o, Err e)
  | Ok bytes =>
      if (MAX_GELF_UDP_MESSAGE_SIZE <? lenN bytes)%N && negb (enable_chunking (udp_config o))
      then (o, Err (Output ("Message too large for UDP: " ++ show_N (lenN bytes) ++ " bytes (max "
                            ++ show_N MAX_GELF_UDP_MESSAGE_SIZE ++ "). Enable chunking or use TCP.")))
      else
        let '(o1, r) := if (MAX_GELF_UDP_MESSAGE_SIZE <? lenN bytes)%N then send_chunked message_id bytes o else send_bytes bytes o in
        match r with
        | Ok _ => (count_event true o1, Ok tt)
        | Err e => (count_event false o1, Err e)
        end
  end.

Definition gelf_udp_stats (o : GelfUdp) : OutputStats :=
  mkStats (udp_events_sent o) (udp_events_failed o) (udp_bytes_sent o) 0 (udp_connected o).

(** ** The receiving side of the GELF chunking protocol *)

Definition chunk_seq (c : list byte) : option N := N_of_byte <$> c !! 10%nat.
Definition chunk_total (c : list byte) : option N := N_of_byte <$> c !! 11%nat.
Definition chunk_data (c : list byte) : list byte := drop 12 c.
Definition same_message (message_id c : list byte) : bool := bool_decide (take 10 c = (GELF_CHUNK_MAGIC ++ message_id)%list).

(** Datagrams collected for one message id, in whatever order they came:
    complete when every sequence number below the announced total is there. *)
Definition reassemble (message_id : list byte) (datagrams : list (list byte)) : option (list byte) :=
  let mine := filter (fun c => same_message message_id c = true) datagrams in
  match head mine ≫= chunk_total with
  | None => None
  | Some total =>
      List.concat (A := byte) <$> mapM (fun i => chunk_data <$> List.find (fun c => bool_decide (chunk_seq c = Some (N.of_nat i))) mine)
                   (seq 0 (N.to_nat total))
  end.

Local Close Scope string_scope.
Local Open Scope list_scope.

(** ** Chunking *)

Lemma div_ceil_step n d : (0 < d)%N -> (0 < n)%N -> div_ceil n d = (1 + div_ceil (n - d) d)%N.
Proof.
  intros Hd Hn. destruct (N.lt_ge_cases n d) as [H|H].
  - replace (n - d)%N with 0%N by lia. unfold div_ceil.
    rewrite (N.div_small n d), (N.mod_small n d), N.Div0.mod_0_l, N.Div0.div_0_l by lia. cbn.
    destruct (N.eqb_spec n 0); lia.
  - remember (n - d)%N as m eqn:Em. assert (n = m + 1 * d)%N as -> by lia. unfold div_ceil.
    rewrite N.Div0.mod_add, N.div_add by lia. destruct (_ =? _)%N; lia.
Qed.

Lemma length_chunks_fuel n : (0 < n)%nat -> forall fuel (data : list byte), (length data <= fuel)%nat ->
  lenN (chunks_fuel fuel n data) = div_ceil (lenN data) (N.of_nat n).
Proof.
  intros Hn fuel. induction fuel as [|fuel IH]; intros [|b data] Hf; try (cbn in Hf; lia).
  - unfold div_ceil. cbn. rewrite N.Div0.mod_0_l. done.
  - unfold div_ceil. cbn. rewrite N.Div0.mod_0_l. done.
  - cbn [chunks_fuel]. rewrite lenN_cons, IH by (rewrite length_drop; cbn in *; lia).
    rewrite (div_ceil_step (lenN (b :: data))) by (unfold lenN; cbn; lia).
    do 2 f_equal. unfold lenN. rewrite length_drop. lia.
Qed.

Lemma length_chunks (data : list byte) : lenN (chunks GELF_CHUNK_DATA_SIZE data) = div_ceil (lenN data) GELF_CHUNK_DATA_SIZE.
Proof.
  unfold chunks. rewrite length_chunks_fuel; [by rewrite N2Nat.id | unfold GELF_CHUNK_DATA_SIZE, MAX_GELF_UDP_MESSAGE_SIZE, GELF_CHUNK_HEADER_SIZE; lia | done].
Qed.

(** A chunk announces its place, the total and its data. *)
Lemma chunk_fields message_id i n d :
  length message_id = 8%nat -> (i < 256)%N -> (n < 256)%N ->
  let c := chunk_header message_id i n ++ d in
  chunk_seq c = Some i /\ chunk_total c = Some n /\ chunk_data c = d /\ same_message message_id c = true /\ length c = (12 + length d)%nat.
Proof.
  intros Hid Hi Hn. do 8 (destruct message_id as [|? message_id]; [done|]). destruct message_id; [|done]. cbn.
  unfold chunk_seq, chunk_total, chunk_data, same_message. cbn.
  rewrite !wrap_small, !N_of_byte_of_N, !N.mod_small by done. by rewrite bool_decide_true.
Qed.

Lemma find_unique {A : Type} (p : A -> bool) (l : list A) x :
  x ∈ l -> p x = true -> (forall y, y ∈ l -> p y = true -> y = x) -> List.find p l = Some x.
Proof.
  induction l as [|a l IH]; intros Hx Hp Hu; [by apply not_elem_of_nil in Hx|]. cbn. destruct (p a) eqn:E.
  - f_equal. by apply Hu; [left|].
  - apply IH; [|done|]; [|intros; apply Hu; [by right|done]]. apply elem_of_cons in Hx as [->|]; [congruence|done].
Qed.

Lemma filter_all {A : Type} (P : A -> Prop) `{!forall x, Decision (P x)} (l : list A) : (forall x, x ∈ l -> P x) -> filter P l = l.
Proof.
  induction l as [|a l IH]; intros Hall; [done|]. rewrite filter_cons_True by (apply Hall; left). f_equal.
  apply IH. intros x Hx. apply Hall. by right.
Qed.

Lemma data_size_pos : (0 < GELF_CHUNK_DATA_SIZE)%N.
Proof. done. Qed.

(** What [create_chunks] returns when it returns. *)
Lemma create_chunks_ok message_id data cs :
  create_chunks message_id data = Ok cs ->
  let pieces := chunks GELF_CHUNK_DATA_SIZE data in
  (lenN pieces <= 128)%N /\ cs = imap (fun i d => chunk_header message_id (N.of_nat i) (lenN pieces) ++ d) pieces.
Proof.
  unfold create_chunks. rewrite <- length_chunks. unfold GELF_MAX_CHUNKS.
  destruct (N.ltb_spec 128 (lenN (chunks GELF_CHUNK_DATA_SIZE data))); [done|]. by intros [= <-].
Qed.

Section Reassembly.
Context (message_id : list byte) (pieces : list (list byte)).
Hypothesis Hid : length message_id = 8%nat.
Hypothesis Hcount : (lenN pieces <= 128)%N.

Let cs := imap (fun i d => chunk_header message_id (N.of_nat i) (lenN pieces) ++ d) pieces.

Lemma chunk_of_piece c :
  c ∈ cs <-> exists i d, pieces !! i = Some d /\ c = chunk_header message_id (N.of_nat i) (lenN pieces) ++ d.
Proof.
  unfold cs. rewrite list_elem_of_lookup. setoid_rewrite list_lookup_imap. split.
  - intros (i & E). destruct (pieces !! i) as [d|] eqn:Ed; [|done]. cbn in E. injection E as <-. eauto.
  - intros (i & d & Ed & ->). exists i. by rewrite Ed.
Qed.

Lemma piece_fields i d :
  pieces !! i = Some d ->
  let c := chunk_header message_id (N.of_nat i) (lenN pieces) ++ d in
  chunk_seq c = Some (N.of_nat i) /\ chunk_total c = Some (lenN pieces) /\ chunk_data c = d
  /\ same_message message_id c = true /\ length c = (12 + length d)%nat.
Proof.
  intros Hd%lookup_lt_Some. apply chunk_fields; [done| |lia]. unfold lenN in Hcount. lia.
Qed.

Lemma find_chunk mine i d :
  mine ≡ₚ cs -> pieces !! i = Some d ->
  chunk_data <$> List.find (fun c => bool_decide (chunk_seq c = Some (N.of_nat i))) mine = Some d.
Proof.
  intros Hp Hd. destruct (piece_fields i d Hd) as (Hs & _ & Hdata & _).
  rewrite (find_unique _ _ (chunk_header message_id (N.of_nat i) (lenN pieces) ++ d)); [exact (f_equal Some Hdata)| | |].
  - rewrite Hp. apply chunk_of_piece. eauto.
  - by apply bool_decide_eq_true.
  - intros y Hy E%bool_decide_eq_true. rewrite Hp in Hy. apply chunk_of_piece in Hy as (j & d' & Hd' & ->).
    destruct (piece_fields j d' Hd') as (Hs' & _). assert (i = j) as <- by (rewrite Hs' in E; injection E; lia). congruence.
Qed.

Lemma reassemble_pieces wire :
  pieces <> [] -> filter (fun c => same_message message_id c = true) wire ≡ₚ cs -> reassemble message_id wire = Some (List.concat pieces).
Proof.
  intros Hne Hp. unfold reassemble. cbv zeta. remember (filter _ wire) as mine eqn:Em. clear Em.
  assert (head mine ≫= chunk_total = Some (lenN pieces)) as ->.
  { destruct mine as [|c mine]; cbn [head mbind option_bind].
    - apply Permutation_nil_l in Hp. unfold cs in Hp. apply (f_equal length) in Hp. rewrite length_imap in Hp. by destruct pieces.
    - assert (c ∈ cs) as (i & d & Hd & ->)%chunk_of_piece by (rewrite <- Hp; left). by apply piece_fields. }
  replace (mapM _ _) with (Some pieces); [done|]. symmetry. apply mapM_Some.
  apply Forall2_same_length_lookup_2; [rewrite length_seq; unfold lenN; lia|].
  intros i j d [-> Hj]%lookup_seq Hd. by apply find_chunk.
Qed.
End Reassembly.

(** A message split by [create_chunks] arrives whole.  Whatever order its
    datagrams come in and whatever other traffic they are mixed with, a
    receiver of the GELF protocol puts back exactly the bytes that were split;
    no datagram exceeds the 8192-byte limit and there are at most 128. *)
Theorem gelf_chunks_reassemble message_id data cs wire
  (Hid : length message_id = 8%nat) (Hdata : data <> []) (Hcs : create_chunks message_id data = Ok cs)
  (Hwire : filter (fun c => same_message message_id c = true) wire ≡ₚ cs) :
  reassemble message_id wire = Some data
  /\ Forall (fun c => lenN c <= MAX_GELF_UDP_MESSAGE_SIZE)%N cs /\ (lenN cs <= GELF_MAX_CHUNKS)%N.
Proof.
  apply create_chunks_ok in Hcs as [Hcount ->]. set (pieces := chunks _ _) in *.
  assert (List.concat pieces = data) as Hconcat by (apply concat_chunks; done).
  split; [|split].
  - rewrite (reassemble_pieces message_id pieces Hid Hcount); [by rewrite Hconcat| |done].
    intros ->. by rewrite <- Hconcat in Hdata.
  - apply List.Forall_forall. intros c Hc%list_elem_of_In. apply chunk_of_piece in Hc as (i & d & Hd & ->); [|done..].
    destruct (piece_fields message_id pieces Hid Hcount i d Hd) as (_ & _ & _ & _ & Hlen). unfold lenN at 1. rewrite Hlen.
    assert (length d <= N.to_nat GELF_CHUNK_DATA_SIZE)%nat.
    { exact (proj1 (Forall_lookup _ _) (chunks_fuel_sizes _ _ _) i d Hd). }
    unfold GELF_CHUNK_DATA_SIZE, MAX_GELF_UDP_MESSAGE_SIZE, GELF_CHUNK_HEADER_SIZE in *. lia.
  - unfold lenN. rewrite length_imap. exact Hcount.
Qed.

Definition sample_id : list byte := [x01; x02; x03; x04; x05; x06; x07; x08].

Lemma gelf_chunks_reassemble_witness :
  exists cs, create_chunks sample_id [x41; x42] = Ok cs /\ reassemble sample_id ([x00] :: cs) = Some [x41; x42].
Proof.
  eexists. split; [vm_compute; reflexivity|].
  refine (proj1 (gelf_chunks_reassemble sample_id [x41; x42] _ _ eq_refl ltac:(discriminate) ltac:(vm_compute; reflexivity) _)).
  vm_compute. reflexivity.
Defined.

(** ** Sending *)

(** What sending datagrams leaves alone, and what it puts on the wire. *)
Record sent_prefix (o o' : GelfUdp) (ds : list (list byte)) : Prop := {
  sp_config : udp_config o' = udp_config o;
  sp_sent : udp_events_sent o' = udp_events_sent o;
  sp_failed : udp_events_failed o' = udp_events_failed o;
  sp_wire : udp_wire o' = udp_wire o ++ ds
}.

Lemma sent_prefix_refl o : sent_prefix o o [].
Proof. constructor; try done. by rewrite app_nil_r. Qed.

Lemma sent_prefix_trans o1 o2 o3 ds es : sent_prefix o1 o2 ds -> sent_prefix o2 o3 es -> sent_prefix o1 o3 (ds ++ es).
Proof. intros [] []. constructor; try congruence. rewrite (assoc_L app). congruence. Qed.

Lemma send_bytes_prefix bytes o :
  let '(o', r) := send_bytes bytes o in sent_prefix o o' (if is_ok r then [bytes] else []).
Proof.
  unfold send_bytes. destruct (udp_bound o); [|apply sent_prefix_refl].
  destruct (udp_answers o) as [|[e|] rest]; constructor; cbn; by rewrite ?app_nil_r.
Qed.

Lemma send_chunk_list_prefix cs : forall o,
  let '(o', r) := send_chunk_list cs o in exists ds, ds `prefix_of` cs /\ sent_prefix o o' ds /\ (is_ok r = true -> ds = cs).
Proof.
  induction cs as [|c cs IH]; intros o; cbn.
  - exists []. split; [done|]. split; [apply sent_prefix_refl|done].
  - pose proof (send_bytes_prefix c o) as Hc. destruct (send_bytes c o) as [o1 [[]|e]]; cbn in Hc.
    + specialize (IH o1). destruct (send_chunk_list cs o1) as [o2 r]. destruct IH as (ds & Hp & Hs & Hok).
      exists (c :: ds). split; [by apply prefix_cons|]. split; [exact (sent_prefix_trans _ _ _ _ _ Hc Hs)|].
      intros ->%Hok. done.
    + exists []. split; [apply prefix_nil|]. by split.
Qed.

(** [send] accounts for every event it tries to put on the wire, and an
    [Ok] means a receiver can read it.  With a payload of [bytes]: an [Ok]
    counts one event sent and appended either the payload itself, within the
    datagram limit, or datagrams that reassemble to it; an error counts one
    event failed and left a prefix of such datagrams.  The exception is a
    payload over the limit with chunking switched off, refused before
    anything is sent or counted. *)
Theorem gelf_udp_send_outcomes gzip message_id json o bytes
  (Hid : length message_id = 8%nat) (Hpay : payload gzip (udp_config o) json = Ok bytes) :
  let '(o', r) := gelf_udp_send gzip message_id json o in
  (exists ds, udp_wire o' = udp_wire o ++ ds
    /\ if is_ok r then (ds = [bytes] /\ (lenN bytes <= MAX_GELF_UDP_MESSAGE_SIZE)%N) \/ reassemble message_id ds = Some bytes
       else ds = [] \/ exists cs, create_chunks message_id bytes = Ok cs /\ ds `prefix_of` cs)
  /\ (if is_ok r then udp_events_sent o' = wrap 64 (udp_events_sent o + 1) /\ udp_events_failed o' = udp_events_failed o
      else udp_events_sent o' = udp_events_sent o /\
           udp_events_failed o' = if (MAX_GELF_UDP_MESSAGE_SIZE <? lenN bytes)%N && negb (enable_chunking (udp_config o))
                                  then udp_events_failed o else wrap 64 (udp_events_failed o + 1)).
Proof.
  unfold gelf_udp_send. rewrite Hpay. destruct (N.ltb_spec MAX_GELF_UDP_MESSAGE_SIZE (lenN bytes)) as [Hbig|Hsmall].
  - destruct (enable_chunking (udp_config o)); cbn [andb negb].
    2: { split; [exists []; split; [by rewrite app_nil_r | by left] | done]. }
    unfold send_chunked. destruct (create_chunks message_id bytes) as [cs|e] eqn:Ecs; cbn.
    2: { split; [exists []; split; [by rewrite app_nil_r | by left] | done]. }
    pose proof (send_chunk_list_prefix cs o) as Hs. destruct (send_chunk_list cs o) as [o1 [[]|e]]; cbn in *.
    + destruct Hs as (ds & Hp & [_ Hsent Hfail Hw] & Hok). specialize (Hok eq_refl). subst ds. split; [|by rewrite Hsent].
      exists cs. split; [done|]. right. apply create_chunks_ok in Ecs as [Hcount ->].
      rewrite (reassemble_pieces _ _ Hid Hcount); [by rewrite concat_chunks| |].
      * intros E. pose proof (concat_chunks GELF_CHUNK_DATA_SIZE bytes data_size_pos) as Hc. rewrite E in Hc. by subst bytes.
      * rewrite filter_all; [done|]. intros c (i & d & Hd & ->)%chunk_of_piece.
        by apply (piece_fields message_id (chunks GELF_CHUNK_DATA_SIZE bytes) Hid Hcount i d Hd).
    + destruct Hs as (ds & Hp & [_ Hsent Hfail Hw] & _). split; [|by rewrite Hsent, Hfail].
      exists ds. split; [done|]. right. by exists cs.
  - cbn [andb]. pose proof (send_bytes_prefix bytes o) as Hs. destruct (send_bytes bytes o) as [o1 [[]|e]]; cbn in *; destruct Hs as [_ Hsent Hfail Hw].
    + split; [|by rewrite Hsent]. exists [bytes]. split; [done|]. left. done.
    + split; [|by rewrite Hsent, Hfail]. exists []. split; [done|]. by left.
Qed.

Definition no_gzip (level : N) (data : list byte) : result (list byte) GzipError := Ok data.

Lemma gelf_udp_send_outcomes_witness :
  let o := mkUdp (default_udp_config "graylog:12201"%string) true true 0 0 0 [] [] in
  let '(o', r) := gelf_udp_send no_gzip sample_id (Ok [x41; x42]) o in
  r = Ok tt /\ udp_events_sent o' = 1%N /\ udp_events_failed o' = 0%N /\ udp_wire o' = [[x41; x42]].
Proof.
  pose proof (gelf_udp_send_outcomes no_gzip sample_id (Ok [x41; x42])
    (mkUdp (default_udp_config "graylog:12201"%string) true true 0 0 0 [] []) [x41; x42] eq_refl eq_refl) as [_ [Hs Hf]].
  split; [reflexivity|]. split; [exact Hs|]. split; [exact Hf | reflexivity].
Defined.
