(* ===== verification/AgentBreaker.v ===== *)
(** * The remote adapter's circuit breaker

    [crates/detrix-application/src/services/circuit_breaker.rs].  Each method
    is one step: [on_failure] runs under the timestamps' mutex and [is_open]
    commits with a compare-and-exchange.  Calls overlap: a history interleaves
    the [is_open] of one call with the completions of others.  Times are
    milliseconds since the epoch. *)

From Stdlib Require Import Strings.String Init.Byte.
From S2P Require Import Prelude RustStr CoreError.

Inductive agent_state : Type := STATE_CLOSED | STATE_OPEN | STATE_HALF_OPEN.
#[export] Instance agent_state_eq_dec : EqDecision agent_state.
Proof. solve_decision. Defined.

Record AgentBreaker : Type := mkAB { ab_state : agent_state; last_transition_ms : N; failure_timestamps : list N }.

Definition agent_breaker_new (now : N) : AgentBreaker := mkAB STATE_CLOSED now [].

Definition is_open (now : N) (b : AgentBreaker) : AgentBreaker * bool :=
  match ab_state b with
  | STATE_OPEN =>
      if (30000 <=? now - last_transition_ms b)%N
      then (mkAB STATE_HALF_OPEN (last_transition_ms b) (failure_timestamps b), false)
      else (b, true)
  | _ => (b, false)
  end.

Definition peek_open (b : AgentBreaker) : bool := bool_decide (ab_state b = STATE_OPEN).

Definition on_success (now : N) (b : AgentBreaker) : AgentBreaker :=
  match ab_state b with
  | STATE_HALF_OPEN => mkAB STATE_CLOSED now []
  | s => mkAB s (last_transition_ms b) []
  end.

Definition on_failure (ts : N) (b : AgentBreaker) : AgentBreaker :=
  let stamps := failure_timestamps b ++ [ts] in
  let stamps := if (3 <? lenN stamps)%N then tail stamps else stamps in
  let window := (ts - default 0 (head stamps))%N in
  if (3 <=? lenN stamps)%N && (window <=? 60000)%N
  then mkAB STATE_OPEN ts []
  else mkAB (ab_state b) (last_transition_ms b) stamps.

(** What a call does once its operation has answered. *)
Definition on_result {A : Type} (now : N) (r : result A Error) (b : AgentBreaker) : AgentBreaker :=
  match r with
  | Ok _ => on_success now b
  | Err e => if is_retryable e then on_failure now b else b
  end.

(** [call(f)], where the operation answers [r] at [t_end]. *)
Definition call {A : Type} (t_begin t_end : N) (r : result A Error) (b : AgentBreaker) : AgentBreaker * result A Error :=
  match is_open t_begin b with
  | (b, true) => (b, Err (Adapter "agent circuit open"%string))
  | (b, false) => (on_result t_end r b, r)
  end.

(** ** Overlapping calls *)

Inductive agent_step : Type :=
| ACheck (now : N)
| ADone (now : N) (r : result unit Error).

Definition agent_apply (b : AgentBreaker) (s : agent_step) : AgentBreaker :=
  match s with
  | ACheck now => fst (is_open now b)
  | ADone now r => on_result now r b
  end.
Definition agent_run (t0 : N) (h : list agent_step) : AgentBreaker := fold_left agent_apply h (agent_breaker_new t0).

(** ** What opens the circuit

    The specification keeps the retryable failures since the last success or
    opening: a failure opens the circuit when it and the two before it lie
    within a minute. *)
Definition minute_burst (failures : list N) : bool :=
  match reverse failures with
  | ts :: _ :: first :: _ => (ts - first <=? 60000)%N
  | _ => false
  end.

Definition pending_step (failures : list N) (s : agent_step) : list N :=
  match s with
  | ADone _ (Ok _) => []
  | ADone now (Err e) => if is_retryable e then (if minute_burst (failures ++ [now]) then [] else failures ++ [now]) else failures
  | ACheck _ => failures
  end.
Definition pending_failures (h : list agent_step) : list N := fold_left pending_step h [].

Definition last3 (l : list N) : list N := reverse (take 3 (reverse l)).

Lemma last3_app l x : last3 (l ++ [x]) = let s := last3 l ++ [x] in if (3 <? lenN s)%N then tail s else s.
Proof.
  unfold last3. rewrite reverse_app. destruct (reverse l) as [|a [|b [|c r]]]; done.
Qed.

Lemma head_last3 l : (3 <=? lenN (last3 l))%N && (default 0 (head (reverse l)) - default 0 (head (last3 l)) <=? 60000)%N = minute_burst l.
Proof.
  unfold last3, minute_burst. destruct (reverse l) as [|a [|b [|c r]]]; done.
Qed.

(** The stamps kept are the last three pending failures. *)
Lemma agent_stamps_step b failures s :
  failure_timestamps b = last3 failures -> failure_timestamps (agent_apply b s) = last3 (pending_step failures s).
Proof.
  intros Hb. destruct s as [now|now [[]|e]]; cbn.
  - unfold is_open. destruct (ab_state b); [done| |done]. by destruct (_ <=? _)%N.
  - unfold on_success. by destruct (ab_state b).
  - destruct (is_retryable e); [|done]. unfold on_failure. rewrite Hb. cbv zeta. pose proof (last3_app failures now) as E. cbv zeta in E.
    rewrite <- E. rewrite <- (head_last3 (failures ++ [now])), reverse_snoc. cbn [head default].
    destruct (_ && _); done.
Qed.

Lemma agent_stamps_run t0 h : failure_timestamps (agent_run t0 h) = last3 (pending_failures h).
Proof.
  unfold agent_run, pending_failures. assert (failure_timestamps (agent_breaker_new t0) = last3 []) as H by done.
  revert H. generalize (agent_breaker_new t0), (@nil N). induction h as [|s h IH]; intros b fs Hb; [done|]. cbn [fold_left].
  by apply IH, agent_stamps_step.
Qed.

(** After any interleaving of calls, a completing operation opens the
    circuit exactly when it failed in a retryable way and it and the two
    latest retryable failures since the last success or opening lie within
    60 seconds; business errors never change the breaker. *)
Theorem agent_breaker_opens t0 h now (r : result unit Error) :
  let b := agent_run t0 h in
  let b' := on_result now r b in
  (peek_open b' = true <->
     match r with
     | Ok _ => peek_open b = true
     | Err e => peek_open b = true \/ is_retryable e = true /\ minute_burst (pending_failures h ++ [now]) = true
     end)
  /\ (forall e, r = Err e -> is_retryable e = false -> b' = b).
Proof.
  intros b b'. split; [|intros e E He; subst b' r; cbn; by rewrite He]. subst b'.
  assert (failure_timestamps b = last3 (pending_failures h)) as Hstamps by apply agent_stamps_run.
  destruct r as [[]|e]; cbn; unfold peek_open; rewrite !bool_decide_eq_true.
  - unfold on_success. by destruct (ab_state b).
  - destruct (is_retryable e); [|naive_solver]. unfold on_failure. cbv zeta. rewrite Hstamps.
    pose proof (last3_app (pending_failures h) now) as E. cbv zeta in E. rewrite <- E. clear E.
    pose proof (head_last3 (pending_failures h ++ [now])) as E. rewrite reverse_snoc in E. cbn [head default] in E. rewrite <- E.
    destruct (_ && _); cbn; naive_solver.
Qed.

(** While open and within 30 seconds of opening, calls are refused without
    running the operation; the first call after that runs it, and its success
    closes the circuit and forgets the failures. *)
Theorem agent_breaker_recovers {A : Type} t t_end (r : result A Error) b (Hopen : ab_state b = STATE_OPEN) :
  if (t - last_transition_ms b <? 30000)%N
  then call t t_end r b = (b, Err (Adapter "agent circuit open"%string))
  else snd (call t t_end r b) = r /\ (is_ok r = true -> fst (call t t_end r b) = agent_breaker_new t_end).
Proof.
  unfold call, is_open. rewrite Hopen.
  cmp_cases; [done|].
  split; [done|]. by destruct r.
Qed.

Lemma agent_breaker_recovers_witness :
  call 40000 40001 (Ok 7%N) (agent_run 0 [ADone 1 (Err (Adapter "a"%string)); ADone 2 (Err (Adapter "b"%string)); ADone 3 (Err (Adapter "c"%string))])
  = (agent_breaker_new 40001, Ok 7%N).
Proof.
  pose proof (agent_breaker_recovers 40000 40001 (Ok 7%N)
    (agent_run 0 [ADone 1 (Err (Adapter "a"%string)); ADone 2 (Err (Adapter "b"%string)); ADone 3 (Err (Adapter "c"%string))]) eq_refl) as [H1 H2].
  rewrite (surjective_pairing (call _ _ _ _)), H1, H2; reflexivity.
Defined.

(** A half-open circuit is not reopened by the failure of its probe, nor
    limited to one probe.  Opening forgot the earlier failures, so after the
    cooldown any number of calls go through at once, and the circuit is still
    half-open after two of them fail. *)
Theorem half_open_probe_does_not_reopen t0 h t ta tb ea eb
  (Hopen : ab_state (agent_run t0 h) = STATE_OPEN) (Hfresh : pending_failures h = []) (Hcool : (30000 <= t - last_transition_ms (agent_run t0 h))%N) :
  let b1 := fst (is_open t (agent_run t0 h)) in
  snd (is_open t b1) = false /\ ab_state (fst (is_open t b1)) = STATE_HALF_OPEN
  /\ ab_state (on_result ta (Err (A := unit) ea) b1) = STATE_HALF_OPEN
  /\ ab_state (on_result tb (Err (A := unit) eb) (on_result ta (Err (A := unit) ea) b1)) = STATE_HALF_OPEN.
Proof.
  cbv zeta. pose proof (agent_stamps_run t0 h) as Hs. rewrite Hfresh in Hs. unfold last3 in Hs. cbn in Hs.
  assert (is_open t (agent_run t0 h) = (mkAB STATE_HALF_OPEN (last_transition_ms (agent_run t0 h)) [], false)) as ->.
  { unfold is_open. rewrite Hopen, Hs. by destruct (N.leb_spec 30000 (t - last_transition_ms (agent_run t0 h))); [|lia]. }
  cbn. split; [done|]. split; [done|]. by destruct (is_retryable ea), (is_retryable eb).
Qed.

Lemma half_open_probe_does_not_reopen_witness :
  let h := [ADone 1 (Err (Adapter "a"%string)); ADone 2 (Err (Adapter "b"%string)); ADone 3 (Err (Adapter "c"%string))] in
  ab_state (on_result 40001 (Err (A := unit) (Io "down"%string)) (fst (is_open 40000 (agent_run 0 h)))) = STATE_HALF_OPEN.
Proof.
  apply (half_open_probe_does_not_reopen 0
    [ADone 1 (Err (Adapter "a"%string)); ADone 2 (Err (Adapter "b"%string)); ADone 3 (Err (Adapter "c"%string))]
    40000 40001 40002 (Io "down"%string) (Io "down"%string)); [reflexivity|reflexivity|vm_compute; discriminate].
Defined.
