(* ===== verification/SafetyTables.v ===== *)
(** * Safety configuration

    [crates/detrix-config/src/safety/python.rs], [go.rs] and [rust.rs]: the
    built-in lists of functions that may and may not be called in the expressions
    of a metric, the patterns of variables that must not be observed, and the
    configuration that extends them.  The three configuration types have the same
    fields and are one record here, without the settings of the language servers.
    A [HashSet] is a list; membership is all that is asked of it. *)

From Stdlib Require Import Strings.String.
From S2P Require Import Prelude.

Local Open Scope string_scope.

(** Python: variables that must not be observed *)
Definition default_python_sensitive_patterns : list string :=
  ["password"; "passwd"; "secret"; "api_key"; "apikey"; "auth_token"; "access_token"; "refresh_token"; "bearer_token"; "jwt";
   "token"; "db_password"; "database_password"; "connection_string"; "private_key"; "ssh_key"; "encryption_key"; "signing_key";
   "credential"; "credentials"; "ssn"; "social_security"; "credit_card"; "card_number"; "cvv"; "pin"].

(** Python: output that is acceptable in a metric *)
Definition PYTHON_ACCEPTABLE_IMPURE : list string :=
  ["print"; "logging.info"; "logging.debug"; "logging.warning"; "logging.error"; "logging.critical"; "logging.log";
   "logger.info"; "logger.debug"; "logger.warning"; "logger.error"; "logger.critical"].

(** Python: functions without side effects, part 1 *)
Definition PYTHON_PURE_FUNCTIONS_1 : list string :=
  ["math.sin"; "math.cos"; "math.tan"; "math.sqrt"; "math.pow"; "math.log"; "math.log10"; "math.log2"; "math.exp"; "math.floor";
   "math.ceil"; "math.trunc"; "math.fabs"; "math.factorial"; "math.gcd"; "math.lcm"; "math.isnan"; "math.isinf"; "math.isfinite";
   "json.loads"; "json.dumps"; "dict.keys"; "dict.values"; "dict.items"; "dict.get"; "dict.copy"; "dict.fromkeys"; "keys";
   "values"; "items"; "get"; "list.copy"; "list.count"; "list.index"; "count"; "index"; "copy"; "set.copy"; "set.difference";
   "set.intersection"; "set.isdisjoint"; "set.issubset"; "set.issuperset"; "set.symmetric_difference"; "set.union"; "difference";
   "intersection"; "isdisjoint"; "issubset"; "issuperset"; "symmetric_difference"; "union"; "len"; "range"; "enumerate"; "zip";
   "map"; "filter"; "sorted"; "reversed"; "min"; "max"; "sum"; "abs"; "round"; "isinstance"; "issubclass"; "hasattr"; "getattr";
   "type"; "id"; "hash"; "repr"; "str"; "int"; "float"; "bool"; "list"; "dict"; "set"; "tuple"; "frozenset"; "bytes";
   "bytearray"; "ord"; "chr"; "bin"; "oct"; "hex"; "format"; "ascii"; "callable"; "vars"; "dir"; "all"; "any"; "iter"; "next";
   "slice"].

Definition PYTHON_PURE_FUNCTIONS_2 : list string :=
  ["str.format"; "str.join"; "str.split"; "str.rsplit"; "str.strip"; "str.lstrip"; "str.rstrip"; "str.lower"; "str.upper";
   "str.title"; "str.capitalize"; "str.swapcase"; "str.replace"; "str.find"; "str.rfind"; "str.index"; "str.rindex"; "str.count";
   "str.startswith"; "str.endswith"; "str.isalpha"; "str.isdigit"; "str.isalnum"; "str.isspace"; "str.islower"; "str.isupper";
   "str.istitle"; "str.encode"; "str.zfill"; "str.center"; "str.ljust"; "str.rjust"; "str.partition"; "str.rpartition";
   "str.splitlines"; "str.expandtabs"; "str.translate"; "str.maketrans"; "itertools.chain"; "itertools.combinations";
   "itertools.combinations_with_replacement"; "itertools.compress"; "itertools.count"; "itertools.cycle"; "itertools.dropwhile";
   "itertools.filterfalse"; "itertools.groupby"; "itertools.islice"; "itertools.permutations"; "itertools.product";
   "itertools.repeat"; "itertools.starmap"; "itertools.takewhile"; "itertools.tee"; "itertools.zip_longest"; "functools.reduce";
   "functools.partial"; "functools.partialmethod"; "functools.wraps"; "operator.add"; "operator.sub"; "operator.mul";
   "operator.truediv"; "operator.floordiv"; "operator.mod"; "operator.pow"; "operator.neg"; "operator.pos"; "operator.abs";
   "operator.eq"; "operator.ne"; "operator.lt"; "operator.le"; "operator.gt"; "operator.ge"; "operator.and_"; "operator.or_";
   "operator.xor"; "operator.not_"; "operator.itemgetter"; "operator.attrgetter"; "operator.methodcaller"; "Exception";
   "ValueError"; "TypeError"; "KeyError"; "IndexError"; "AttributeError"; "RuntimeError"; "StopIteration"; "AssertionError";
   "ImportError"; "ModuleNotFoundError"; "NameError"; "ZeroDivisionError"; "OverflowError"; "MemoryError"; "RecursionError";
   "NotImplementedError"; "LookupError"; "ArithmeticError"].

Definition PYTHON_PURE_FUNCTIONS_3 : list string :=
  ["re.match"; "re.search"; "re.findall"; "re.finditer"; "re.sub"; "re.subn"; "re.split"; "re.compile"; "re.escape";
   "re.fullmatch"; "copy.copy"; "copy.deepcopy"; "datetime.datetime"; "datetime.date"; "datetime.time"; "datetime.timedelta";
   "datetime.datetime.now"; "datetime.datetime.utcnow"; "datetime.datetime.fromisoformat"; "datetime.datetime.strptime";
   "collections.Counter"; "collections.OrderedDict"; "collections.defaultdict"; "collections.namedtuple"; "collections.deque";
   "math.dist"; "math.prod"; "math.isqrt"; "math.comb"; "math.perm"; "str.removeprefix"; "str.removesuffix"; "removeprefix";
   "removesuffix"; "functools.cache"; "functools.cached_property"; "dataclasses.asdict"; "dataclasses.astuple";
   "dataclasses.field"; "dataclasses.fields"; "dataclasses.is_dataclass"; "dataclasses.replace"; "enum.auto"; "enum.Enum";
   "enum.IntEnum"; "enum.Flag"; "enum.IntFlag"; "typing.get_type_hints"; "typing.get_origin"; "typing.get_args"; "typing.cast";
   "decimal.Decimal"; "decimal.getcontext"; "fractions.Fraction"; "statistics.mean"; "statistics.median"; "statistics.mode";
   "statistics.stdev"; "statistics.variance"; "statistics.pstdev"; "statistics.pvariance"; "statistics.harmonic_mean";
   "statistics.geometric_mean"; "statistics.quantiles"; "statistics.fmean"; "pathlib.Path"; "pathlib.PurePath";
   "pathlib.Path.exists"; "pathlib.Path.is_file"; "pathlib.Path.is_dir"; "pathlib.Path.is_symlink"; "pathlib.Path.is_absolute";
   "pathlib.Path.is_relative_to"; "pathlib.Path.match"; "pathlib.Path.name"; "pathlib.Path.stem"; "pathlib.Path.suffix";
   "pathlib.Path.parent"; "pathlib.Path.parts"; "pathlib.Path.as_posix"; "pathlib.Path.with_name"; "pathlib.Path.with_stem";
   "pathlib.Path.with_suffix"; "pathlib.Path.joinpath"; "contextlib.suppress"; "contextlib.nullcontext"; "contextlib.ExitStack"].

Definition PYTHON_PURE_FUNCTIONS_4 : list string :=
  ["uuid.uuid1"; "uuid.uuid3"; "uuid.uuid4"; "uuid.uuid5"; "uuid.UUID"; "base64.b64encode"; "base64.b64decode";
   "base64.urlsafe_b64encode"; "base64.urlsafe_b64decode"; "hashlib.md5"; "hashlib.sha1"; "hashlib.sha256"; "hashlib.sha512";
   "hashlib.blake2b"; "hashlib.blake2s"; "struct.pack"; "struct.unpack"; "struct.calcsize"; "tomllib.loads"; "zlib.compress";
   "zlib.decompress"; "zlib.crc32"; "zlib.adler32"].

Definition PYTHON_PURE_FUNCTIONS : list string := (PYTHON_PURE_FUNCTIONS_1 ++ PYTHON_PURE_FUNCTIONS_2 ++ PYTHON_PURE_FUNCTIONS_3 ++ PYTHON_PURE_FUNCTIONS_4)%list.

(** Python: functions that must not be called, part 1 *)
Definition PYTHON_IMPURE_FUNCTIONS_1 : list string :=
  ["open"; "input"; "os.remove"; "os.unlink"; "os.rename"; "os.mkdir"; "os.makedirs"; "os.rmdir"; "os.removedirs"; "os.chdir";
   "os.chmod"; "os.chown"; "os.link"; "os.symlink"; "os.system"; "os.popen"; "os.exec"; "os.execl"; "os.execle"; "os.execlp";
   "os.execlpe"; "os.execv"; "os.execve"; "os.execvp"; "os.execvpe"; "os.fork"; "os.kill"; "os.killpg"; "shutil.rmtree";
   "shutil.copy"; "shutil.copy2"; "shutil.move"; "subprocess.run"; "subprocess.call"; "subprocess.check_call";
   "subprocess.check_output"; "subprocess.Popen"; "socket.socket"; "socket.connect"; "urllib.request.urlopen"; "requests.get";
   "requests.post"; "requests.put"; "requests.delete"; "requests.patch"; "httpx.get"; "httpx.post"; "sqlite3.connect";
   "psycopg2.connect"; "pymysql.connect"; "globals"; "setattr"; "delattr"; "random.seed"; "random.setstate"; "threading.Thread";
   "multiprocessing.Process"; "eval"; "exec"; "compile"; "__import__"; "breakpoint"; "sys.exit"; "exit"; "quit"; "time.sleep";
   "pickle.load"; "pickle.dump"; "pickle.loads"; "pickle.dumps"; "pathlib.Path.write_text"; "pathlib.Path.write_bytes";
   "pathlib.Path.mkdir"; "pathlib.Path.rmdir"; "pathlib.Path.unlink"; "pathlib.Path.rename"; "pathlib.Path.touch";
   "pathlib.Path.read_text"; "pathlib.Path.read_bytes"; "asyncio.run"; "asyncio.create_task"; "asyncio.gather"; "asyncio.wait";
   "asyncio.wait_for"; "asyncio.sleep"; "asyncio.open_connection"; "asyncio.start_server"; "asyncio.get_event_loop";
   "asyncio.new_event_loop"; "asyncio.set_event_loop"].

Definition PYTHON_IMPURE_FUNCTIONS_2 : list string :=
  ["aiohttp.ClientSession"; "aiohttp.get"; "aiohttp.post"; "httpx.AsyncClient"; "tomllib.load"; "tempfile.mktemp";
   "tempfile.mkstemp"; "tempfile.mkdtemp"; "tempfile.NamedTemporaryFile"; "tempfile.SpooledTemporaryFile";
   "tempfile.TemporaryDirectory"; "tempfile.TemporaryFile"; "signal.signal"; "signal.alarm"; "signal.pause"; "atexit.register";
   "atexit.unregister"].

Definition PYTHON_IMPURE_FUNCTIONS : list string := (PYTHON_IMPURE_FUNCTIONS_1 ++ PYTHON_IMPURE_FUNCTIONS_2)%list.

(** Python: methods that mutate their receiver *)
Definition PYTHON_MUTATION_METHODS : list string :=
  ["append"; "extend"; "insert"; "remove"; "pop"; "clear"; "sort"; "reverse"; "update"; "popitem"; "setdefault"; "add";
   "discard"; "intersection_update"; "difference_update"; "symmetric_difference_update"; "appendleft"; "extendleft"; "popleft";
   "rotate"].

(** Go: variables that must not be observed *)
Definition default_go_sensitive_patterns : list string :=
  ["password"; "passwd"; "secret"; "apiKey"; "api_key"; "authToken"; "auth_token"; "accessToken"; "access_token"; "refreshToken";
   "refresh_token"; "bearerToken"; "bearer_token"; "jwt"; "token"; "dbPassword"; "db_password"; "connectionString";
   "connection_string"; "privateKey"; "private_key"; "sshKey"; "ssh_key"; "encryptionKey"; "encryption_key"; "signingKey";
   "signing_key"; "credential"; "credentials"; "ssn"; "socialSecurity"; "creditCard"; "cardNumber"; "cvv"; "pin"].

(** Go: output that is acceptable in a metric *)
Definition GO_ACCEPTABLE_IMPURE : list string :=
  ["fmt.Print"; "fmt.Printf"; "fmt.Println"; "fmt.Fprint"; "fmt.Fprintf"; "fmt.Fprintln"; "log.Print"; "log.Printf";
   "log.Println"; "slog.Debug"; "slog.DebugContext"; "slog.Info"; "slog.InfoContext"; "slog.Warn"; "slog.WarnContext";
   "slog.Error"; "slog.ErrorContext"; "slog.Log"; "slog.LogAttrs"].

(** Go: functions without side effects, part 1 *)
Definition GO_PURE_FUNCTIONS_1 : list string :=
  ["len"; "cap"; "make"; "new"; "append"; "max"; "min"; "complex"; "imag"; "real"; "panic"; "recover"; "math.Abs"; "math.Acos";
   "math.Acosh"; "math.Asin"; "math.Asinh"; "math.Atan"; "math.Atan2"; "math.Atanh"; "math.Cbrt"; "math.Ceil"; "math.Copysign";
   "math.Cos"; "math.Cosh"; "math.Dim"; "math.Erf"; "math.Erfc"; "math.Erfcinv"; "math.Erfinv"; "math.Exp"; "math.Exp2";
   "math.Expm1"; "math.FMA"; "math.Float32bits"; "math.Float32frombits"; "math.Float64bits"; "math.Float64frombits";
   "math.Floor"; "math.Frexp"; "math.Gamma"; "math.Hypot"; "math.Ilogb"; "math.Inf"; "math.IsInf"; "math.IsNaN"; "math.J0";
   "math.J1"; "math.Jn"; "math.Ldexp"; "math.Lgamma"; "math.Log"; "math.Log10"; "math.Log1p"; "math.Log2"; "math.Logb";
   "math.Max"; "math.Min"; "math.Mod"; "math.Modf"; "math.NaN"; "math.Nextafter"; "math.Nextafter32"; "math.Pow"; "math.Pow10";
   "math.Remainder"; "math.Round"; "math.RoundToEven"; "math.Signbit"; "math.Sin"; "math.Sincos"; "math.Sinh"; "math.Sqrt";
   "math.Tan"; "math.Tanh"; "math.Trunc"; "math.Y0"; "math.Y1"; "math.Yn"; "strings.Clone"; "strings.Compare";
   "strings.Contains"; "strings.ContainsAny"; "strings.ContainsRune"; "strings.Count"; "strings.Cut"; "strings.CutPrefix";
   "strings.CutSuffix"; "strings.EqualFold"; "strings.Fields"; "strings.FieldsFunc"; "strings.HasPrefix"; "strings.HasSuffix";
   "strings.Index"; "strings.IndexAny"; "strings.IndexByte"; "strings.IndexFunc"; "strings.IndexRune"; "strings.Join";
   "strings.LastIndex"; "strings.LastIndexAny"; "strings.LastIndexByte"; "strings.LastIndexFunc"; "strings.Map";
   "strings.Repeat"; "strings.Replace"; "strings.ReplaceAll"; "strings.Split"; "strings.SplitAfter"; "strings.SplitAfterN";
   "strings.SplitN"; "strings.Title"; "strings.ToLower"; "strings.ToLowerSpecial"; "strings.ToTitle"; "strings.ToTitleSpecial";
   "strings.ToUpper"; "strings.ToUpperSpecial"; "strings.ToValidUTF8"; "strings.Trim"; "strings.TrimFunc"; "strings.TrimLeft";
   "strings.TrimLeftFunc"; "strings.TrimPrefix"; "strings.TrimRight"; "strings.TrimRightFunc"; "strings.TrimSpace";
   "strings.TrimSuffix"].

Definition GO_PURE_FUNCTIONS_2 : list string :=
  ["strconv.AppendBool"; "strconv.AppendFloat"; "strconv.AppendInt"; "strconv.AppendQuote"; "strconv.AppendQuoteRune";
   "strconv.AppendQuoteRuneToASCII"; "strconv.AppendQuoteRuneToGraphic"; "strconv.AppendQuoteToASCII";
   "strconv.AppendQuoteToGraphic"; "strconv.AppendUint"; "strconv.Atoi"; "strconv.CanBackquote"; "strconv.FormatBool";
   "strconv.FormatComplex"; "strconv.FormatFloat"; "strconv.FormatInt"; "strconv.FormatUint"; "strconv.IsGraphic";
   "strconv.IsPrint"; "strconv.Itoa"; "strconv.ParseBool"; "strconv.ParseComplex"; "strconv.ParseFloat"; "strconv.ParseInt";
   "strconv.ParseUint"; "strconv.Quote"; "strconv.QuoteRune"; "strconv.QuoteRuneToASCII"; "strconv.QuoteRuneToGraphic";
   "strconv.QuoteToASCII"; "strconv.QuoteToGraphic"; "strconv.Unquote"; "strconv.UnquoteChar"; "json.Marshal";
   "json.MarshalIndent"; "json.Unmarshal"; "json.Valid"; "time.Now"; "time.Since"; "time.Until"; "time.Parse";
   "time.ParseDuration"; "time.ParseInLocation"; "time.Date"; "time.Unix"; "time.UnixMicro"; "time.UnixMilli"; "sort.Ints";
   "sort.Float64s"; "sort.Strings"; "sort.IntsAreSorted"; "sort.Float64sAreSorted"; "sort.StringsAreSorted"; "sort.IsSorted";
   "sort.Search"; "sort.SearchFloat64s"; "sort.SearchInts"; "sort.SearchStrings"; "reflect.TypeOf"; "reflect.ValueOf";
   "reflect.DeepEqual"; "fmt.Sprint"; "fmt.Sprintf"; "fmt.Sprintln"; "fmt.Errorf"; "errors.New"; "errors.Is"; "errors.As";
   "errors.Unwrap"; "bytes.Clone"; "bytes.Compare"; "bytes.Contains"; "bytes.ContainsAny"; "bytes.ContainsRune"; "bytes.Count";
   "bytes.Cut"; "bytes.CutPrefix"; "bytes.CutSuffix"; "bytes.Equal"; "bytes.EqualFold"; "bytes.Fields"; "bytes.FieldsFunc";
   "bytes.HasPrefix"; "bytes.HasSuffix"; "bytes.Index"; "bytes.IndexAny"; "bytes.IndexByte"; "bytes.IndexFunc";
   "bytes.IndexRune"; "bytes.Join"; "bytes.LastIndex"; "bytes.LastIndexAny"; "bytes.LastIndexByte"; "bytes.LastIndexFunc";
   "bytes.Map"; "bytes.Repeat"; "bytes.Replace"; "bytes.ReplaceAll"; "bytes.Runes"; "bytes.Split"; "bytes.SplitAfter";
   "bytes.SplitAfterN"; "bytes.SplitN"; "bytes.Title"; "bytes.ToLower"; "bytes.ToLowerSpecial"; "bytes.ToTitle";
   "bytes.ToTitleSpecial"; "bytes.ToUpper"; "bytes.ToUpperSpecial"; "bytes.ToValidUTF8"; "bytes.Trim"; "bytes.TrimFunc";
   "bytes.TrimLeft"; "bytes.TrimLeftFunc"; "bytes.TrimPrefix"; "bytes.TrimRight"; "bytes.TrimRightFunc"; "bytes.TrimSpace";
   "bytes.TrimSuffix"].

Definition GO_PURE_FUNCTIONS_3 : list string :=
  ["unicode.In"; "unicode.Is"; "unicode.IsControl"; "unicode.IsDigit"; "unicode.IsGraphic"; "unicode.IsLetter";
   "unicode.IsLower"; "unicode.IsMark"; "unicode.IsNumber"; "unicode.IsOneOf"; "unicode.IsPrint"; "unicode.IsPunct";
   "unicode.IsSpace"; "unicode.IsSymbol"; "unicode.IsTitle"; "unicode.IsUpper"; "unicode.SimpleFold"; "unicode.To";
   "unicode.ToLower"; "unicode.ToTitle"; "unicode.ToUpper"; "slices.BinarySearch"; "slices.BinarySearchFunc"; "slices.Clip";
   "slices.Clone"; "slices.Compact"; "slices.CompactFunc"; "slices.Compare"; "slices.CompareFunc"; "slices.Concat";
   "slices.Contains"; "slices.ContainsFunc"; "slices.Delete"; "slices.DeleteFunc"; "slices.Equal"; "slices.EqualFunc";
   "slices.Grow"; "slices.Index"; "slices.IndexFunc"; "slices.Insert"; "slices.IsSorted"; "slices.IsSortedFunc"; "slices.Max";
   "slices.MaxFunc"; "slices.Min"; "slices.MinFunc"; "slices.Replace"; "slices.Reverse"; "slices.Sort"; "slices.SortFunc";
   "slices.SortStableFunc"; "maps.Clone"; "maps.Copy"; "maps.DeleteFunc"; "maps.Equal"; "maps.EqualFunc"; "maps.Keys";
   "maps.Values"; "cmp.Compare"; "cmp.Less"; "cmp.Or"; "regexp.Compile"; "regexp.CompilePOSIX"; "regexp.Match";
   "regexp.MatchReader"; "regexp.MatchString"; "regexp.MustCompile"; "regexp.MustCompilePOSIX"; "regexp.QuoteMeta";
   "encoding/json.Marshal"; "encoding/json.MarshalIndent"; "encoding/json.Unmarshal"; "encoding/json.Valid";
   "encoding/base64.StdEncoding.EncodeToString"; "encoding/base64.StdEncoding.DecodeString"; "encoding/hex.EncodeToString";
   "encoding/hex.DecodeString"; "encoding/binary.BigEndian.Uint16"; "encoding/binary.BigEndian.Uint32";
   "encoding/binary.BigEndian.Uint64"; "encoding/binary.LittleEndian.Uint16"; "encoding/binary.LittleEndian.Uint32";
   "encoding/binary.LittleEndian.Uint64"; "path.Base"; "path.Clean"; "path.Dir"; "path.Ext"; "path.IsAbs"; "path.Join";
   "path.Match"; "path.Split"; "filepath.Abs"; "filepath.Base"; "filepath.Clean"; "filepath.Dir"; "filepath.Ext";
   "filepath.FromSlash"; "filepath.IsAbs"; "filepath.IsLocal"; "filepath.Join"; "filepath.Match"; "filepath.Rel";
   "filepath.Split"; "filepath.SplitList"; "filepath.ToSlash"; "filepath.VolumeName"].

Definition GO_PURE_FUNCTIONS_4 : list string :=
  ["crypto/md5.Sum"; "crypto/sha1.Sum"; "crypto/sha256.Sum256"; "crypto/sha512.Sum512"; "slog.With"; "slog.Group"; "slog.String";
   "slog.Int"; "slog.Int64"; "slog.Uint64"; "slog.Float64"; "slog.Bool"; "slog.Time"; "slog.Duration"; "slog.Any";
   "atomic.LoadInt32"; "atomic.LoadInt64"; "atomic.LoadUint32"; "atomic.LoadUint64"; "atomic.LoadPointer"; "atomic.LoadUintptr"].

Definition GO_PURE_FUNCTIONS : list string := (GO_PURE_FUNCTIONS_1 ++ GO_PURE_FUNCTIONS_2 ++ GO_PURE_FUNCTIONS_3 ++ GO_PURE_FUNCTIONS_4)%list.

(** Go: functions that must not be called, part 1 *)
Definition GO_IMPURE_FUNCTIONS_1 : list string :=
  ["log.Fatal"; "log.Fatalf"; "log.Fatalln"; "log.Panic"; "log.Panicf"; "log.Panicln"; "os.Chdir"; "os.Chmod"; "os.Chown";
   "os.Chtimes"; "os.Create"; "os.CreateTemp"; "os.Exit"; "os.Mkdir"; "os.MkdirAll"; "os.MkdirTemp"; "os.Open"; "os.OpenFile";
   "os.ReadFile"; "os.Remove"; "os.RemoveAll"; "os.Rename"; "os.Setenv"; "os.Truncate"; "os.Unsetenv"; "os.WriteFile";
   "exec.Command"; "exec.CommandContext"; "exec.LookPath"; "io.Copy"; "io.CopyBuffer"; "io.CopyN"; "io.Pipe"; "io.ReadAll";
   "io.ReadAtLeast"; "io.ReadFull"; "io.WriteString"; "ioutil.ReadAll"; "ioutil.ReadDir"; "ioutil.ReadFile"; "ioutil.TempDir";
   "ioutil.TempFile"; "ioutil.WriteFile"; "net.Dial"; "net.DialIP"; "net.DialTCP"; "net.DialTimeout"; "net.DialUDP";
   "net.DialUnix"; "net.Listen"; "net.ListenIP"; "net.ListenMulticastUDP"; "net.ListenPacket"; "net.ListenTCP"; "net.ListenUDP";
   "net.ListenUnix"; "net.ListenUnixgram"; "http.Get"; "http.Head"; "http.NewRequest"; "http.NewRequestWithContext"; "http.Post";
   "http.PostForm"; "sql.Open"; "sql.OpenDB"; "syscall.Chdir"; "syscall.Chmod"; "syscall.Chown"; "syscall.Exec"; "syscall.Exit";
   "syscall.Fork"; "syscall.ForkExec"; "syscall.Kill"; "syscall.Mkdir"; "syscall.Mknod"; "syscall.Mount"; "syscall.Open";
   "syscall.Rename"; "syscall.Rmdir"; "syscall.Setenv"; "syscall.Symlink"; "syscall.Unlink"; "syscall.Unmount"; "syscall.Write";
   "runtime.GC"; "runtime.GOMAXPROCS"; "runtime.Goexit"; "runtime.SetFinalizer"; "unsafe.Add"; "unsafe.Alignof";
   "unsafe.Offsetof"; "unsafe.Pointer"; "unsafe.Sizeof"; "unsafe.Slice"; "unsafe.SliceData"; "unsafe.String"; "unsafe.StringData"].

Definition GO_IMPURE_FUNCTIONS_2 : list string :=
  ["plugin.Open"; "C.malloc"; "C.free"; "C.CString"; "C.GoString"; "C.GoBytes"; "context.WithCancel"; "context.WithDeadline";
   "context.WithTimeout"; "context.WithValue"; "context.Background"; "context.TODO"; "atomic.StoreInt32"; "atomic.StoreInt64";
   "atomic.StoreUint32"; "atomic.StoreUint64"; "atomic.StorePointer"; "atomic.StoreUintptr"; "atomic.AddInt32";
   "atomic.AddInt64"; "atomic.AddUint32"; "atomic.AddUint64"; "atomic.AddUintptr"; "atomic.SwapInt32"; "atomic.SwapInt64";
   "atomic.SwapUint32"; "atomic.SwapUint64"; "atomic.SwapPointer"; "atomic.SwapUintptr"; "atomic.CompareAndSwapInt32";
   "atomic.CompareAndSwapInt64"; "atomic.CompareAndSwapUint32"; "atomic.CompareAndSwapUint64"; "atomic.CompareAndSwapPointer";
   "atomic.CompareAndSwapUintptr"; "filepath.Walk"; "filepath.WalkDir"; "filepath.Glob"; "time.AfterFunc"; "time.NewTimer";
   "time.NewTicker"; "time.Sleep"; "time.After"; "time.Tick"; "close"].

Definition GO_IMPURE_FUNCTIONS : list string := (GO_IMPURE_FUNCTIONS_1 ++ GO_IMPURE_FUNCTIONS_2)%list.

(** Go: operations that mutate *)
Definition GO_MUTATION_OPERATIONS : list string :=
  ["close"; "copy"; "delete"; "clear"].

(** Go: methods that mutate their receiver *)
Definition GO_RECEIVER_MUTATION_METHODS : list string :=
  ["Lock"; "Unlock"; "RLock"; "RUnlock"; "Add"; "Done"; "Wait"; "Signal"; "Broadcast"; "Do"; "Get"; "Put"; "Write"; "WriteByte";
   "WriteRune"; "WriteString"; "Reset"; "Truncate"; "ReadFrom"; "PushBack"; "PushFront"; "Remove"; "InsertBefore"; "InsertAfter";
   "MoveToFront"; "MoveToBack"; "MoveBefore"; "MoveAfter"; "Flush"; "CancelFunc"].

(** Rust: variables that must not be observed *)
Definition default_rust_sensitive_patterns : list string :=
  ["password"; "passwd"; "secret"; "api_key"; "apikey"; "auth_token"; "access_token"; "refresh_token"; "bearer_token"; "jwt";
   "token"; "db_password"; "database_password"; "connection_string"; "conn_string"; "private_key"; "ssh_key"; "encryption_key";
   "signing_key"; "credential"; "credentials"; "ssn"; "social_security"; "credit_card"; "card_number"; "cvv"; "pin"].

(** Rust: output that is acceptable in a metric *)
Definition RUST_ACCEPTABLE_IMPURE : list string :=
  ["println"; "print"; "eprintln"; "eprint"; "dbg"; "tracing::info"; "tracing::debug"; "tracing::warn"; "tracing::error";
   "tracing::trace"; "tracing::event"; "log::info"; "log::debug"; "log::warn"; "log::error"; "log::trace"; "env_logger::init";
   "env_logger::try_init"].

(** Rust: functions without side effects, part 1 *)
Definition RUST_PURE_FUNCTIONS_1 : list string :=
  ["String::new"; "String::from"; "String::with_capacity"; "Vec::new"; "Vec::with_capacity"; "Box::new"; "Rc::new"; "Arc::new";
   "Option::Some"; "Option::None"; "Result::Ok"; "Result::Err"; "HashMap::new"; "HashMap::with_capacity"; "HashSet::new";
   "HashSet::with_capacity"; "BTreeMap::new"; "BTreeSet::new"; "VecDeque::new"; "VecDeque::with_capacity"; "LinkedList::new";
   "BinaryHeap::new"; "BinaryHeap::with_capacity"; "Cow::Borrowed"; "Cow::Owned"; "Cell::new"; "RefCell::new"; "Mutex::new";
   "RwLock::new"; "Once::new"; "iter"; "into_iter"; "iter_mut"; "map"; "filter"; "filter_map"; "flat_map"; "flatten"; "fold";
   "reduce"; "collect"; "take"; "skip"; "enumerate"; "zip"; "chain"; "rev"; "cycle"; "cloned"; "copied"; "peekable"; "fuse";
   "inspect"; "by_ref"; "sum"; "product"; "max"; "min"; "max_by"; "min_by"; "max_by_key"; "min_by_key"; "count"; "last"; "nth";
   "find"; "find_map"; "position"; "rposition"; "all"; "any"; "partition"; "unzip"; "len"; "is_empty"; "as_str"; "as_bytes";
   "chars"; "bytes"; "lines"; "split"; "rsplit"; "split_whitespace"; "split_ascii_whitespace"; "trim"; "trim_start"; "trim_end";
   "to_lowercase"; "to_uppercase"; "to_ascii_lowercase"; "to_ascii_uppercase"; "contains"; "starts_with"; "ends_with"; "rfind";
   "replace"; "replacen"; "repeat"; "parse"].

Definition RUST_PURE_FUNCTIONS_2 : list string :=
  ["format"; "format_args"; "to_string"; "Display::fmt"; "Debug::fmt"; "is_some"; "is_none"; "is_ok"; "is_err"; "as_ref";
   "as_mut"; "as_deref"; "as_deref_mut"; "ok"; "err"; "unwrap_or"; "unwrap_or_else"; "unwrap_or_default"; "map_or";
   "map_or_else"; "map_err"; "and"; "and_then"; "or"; "or_else"; "transpose"; "clone"; "default"; "Default::default"; "hash";
   "Hash::hash"; "eq"; "ne"; "cmp"; "partial_cmp"; "Ord::cmp"; "Ord::max"; "Ord::min"; "Ord::clamp"; "PartialOrd::partial_cmp";
   "PartialOrd::lt"; "PartialOrd::le"; "PartialOrd::gt"; "PartialOrd::ge"; "abs"; "signum"; "is_positive"; "is_negative";
   "checked_add"; "checked_sub"; "checked_mul"; "checked_div"; "checked_rem"; "saturating_add"; "saturating_sub";
   "saturating_mul"; "wrapping_add"; "wrapping_sub"; "wrapping_mul"; "overflowing_add"; "overflowing_sub"; "overflowing_mul";
   "pow"; "sqrt"; "cbrt"; "log"; "log2"; "log10"; "ln"; "exp"; "exp2"; "sin"; "cos"; "tan"; "asin"; "acos"; "atan"; "atan2";
   "sinh"; "cosh"; "tanh"; "asinh"; "acosh"; "atanh"; "floor"; "ceil"; "round"; "trunc"; "fract"; "is_nan"; "is_infinite";
   "is_finite"; "is_normal"; "is_sign_positive"; "is_sign_negative"].

Definition RUST_PURE_FUNCTIONS_3 : list string :=
  ["type_name"; "type_id"; "size_of"; "align_of"; "size_of_val"; "align_of_val"; "mem::size_of"; "mem::align_of";
   "mem::size_of_val"; "mem::align_of_val"; "mem::discriminant"; "Instant::now"; "Instant::elapsed"; "Instant::duration_since";
   "Instant::saturating_duration_since"; "SystemTime::now"; "SystemTime::elapsed"; "SystemTime::duration_since"; "Duration::new";
   "Duration::from_secs"; "Duration::from_millis"; "Duration::from_micros"; "Duration::from_nanos"; "Duration::as_secs";
   "Duration::as_millis"; "Duration::as_micros"; "Duration::as_nanos"; "Duration::is_zero"; "Path::new"; "Path::as_os_str";
   "Path::to_str"; "Path::to_string_lossy"; "Path::is_absolute"; "Path::is_relative"; "Path::has_root"; "Path::parent";
   "Path::file_name"; "Path::file_stem"; "Path::extension"; "Path::join"; "Path::with_file_name"; "Path::with_extension";
   "Path::components"; "Path::display"; "PathBuf::new"; "PathBuf::from"; "PathBuf::as_path"; "serde_json::to_string";
   "serde_json::to_string_pretty"; "serde_json::to_vec"; "serde_json::to_vec_pretty"; "serde_json::from_str";
   "serde_json::from_slice"; "serde_json::from_value"; "serde_json::to_value"; "Error::new"; "anyhow::anyhow"; "anyhow::bail";
   "anyhow::ensure"; "thiserror::Error"].

Definition RUST_PURE_FUNCTIONS : list string := (RUST_PURE_FUNCTIONS_1 ++ RUST_PURE_FUNCTIONS_2 ++ RUST_PURE_FUNCTIONS_3)%list.

(** Rust: functions that must not be called *)
Definition RUST_IMPURE_FUNCTIONS : list string :=
  ["std::process::exit"; "std::process::abort"; "std::process::Command::new"; "std::process::Command::spawn";
   "std::process::Command::output"; "std::process::Command::status"; "std::fs::read"; "std::fs::read_to_string";
   "std::fs::write"; "std::fs::create_dir"; "std::fs::create_dir_all"; "std::fs::remove_file"; "std::fs::remove_dir";
   "std::fs::remove_dir_all"; "std::fs::rename"; "std::fs::copy"; "std::fs::hard_link"; "std::fs::soft_link";
   "std::fs::set_permissions"; "std::fs::File::create"; "std::fs::File::open"; "std::fs::OpenOptions::open"; "tokio::fs::read";
   "tokio::fs::read_to_string"; "tokio::fs::write"; "tokio::fs::create_dir"; "tokio::fs::create_dir_all";
   "tokio::fs::remove_file"; "tokio::fs::remove_dir"; "tokio::fs::remove_dir_all"; "tokio::fs::rename"; "tokio::fs::copy";
   "tokio::fs::File::create"; "tokio::fs::File::open"; "std::net::TcpStream::connect"; "std::net::TcpListener::bind";
   "std::net::UdpSocket::bind"; "tokio::net::TcpStream::connect"; "tokio::net::TcpListener::bind"; "tokio::net::UdpSocket::bind";
   "reqwest::get"; "reqwest::Client::get"; "reqwest::Client::post"; "reqwest::Client::put"; "reqwest::Client::delete";
   "reqwest::Client::patch"; "hyper::Client::get"; "sqlx::query"; "sqlx::query_as"; "sqlx::Pool::connect";
   "diesel::Connection::establish"; "rusqlite::Connection::open"; "std::ptr::read"; "std::ptr::write"; "std::ptr::read_volatile";
   "std::ptr::write_volatile"; "std::ptr::copy"; "std::ptr::copy_nonoverlapping"; "std::ptr::swap";
   "std::ptr::swap_nonoverlapping"; "std::ptr::drop_in_place"; "std::mem::transmute"; "std::mem::transmute_copy";
   "std::mem::forget"; "std::mem::zeroed"; "std::mem::uninitialized"; "std::mem::MaybeUninit::uninit";
   "std::mem::MaybeUninit::assume_init"; "std::env::set_var"; "std::env::remove_var"; "std::os::unix::process::CommandExt::exec";
   "std::thread::spawn"; "std::thread::Builder::spawn"; "tokio::spawn"; "tokio::task::spawn"; "tokio::task::spawn_blocking";
   "panic!"; "unreachable!"; "unimplemented!"; "todo!"; "std::ffi::CString::from_raw"; "std::ffi::CStr::from_ptr";
   "std::intrinsics::abort"; "std::intrinsics::breakpoint"].

(** Rust: methods that mutate their receiver *)
Definition RUST_MUTATION_METHODS : list string :=
  ["clone_from"; "push"; "pop"; "insert"; "remove"; "clear"; "truncate"; "resize"; "extend"; "append"; "drain"; "retain";
   "dedup"; "sort"; "sort_by"; "sort_by_key"; "reverse"; "entry"; "get_mut"; "push_str"; "insert_str"; "replace_range"; "write";
   "write_all"; "write_fmt"; "flush"; "lock"; "try_lock"; "read"; "try_read"; "try_write"].

(** ** Configuration *)

Record LangSafetyConfig : Type := mkLangSafety {
  lc_user_allowed_functions : list string;
  lc_user_prohibited_functions : list string;
  lc_sensitive_patterns : list string;
  lc_variable_whitelist : list string
}.

Definition default_python_safety : LangSafetyConfig := mkLangSafety [] [] default_python_sensitive_patterns [].
Definition default_go_safety : LangSafetyConfig := mkLangSafety [] [] default_go_sensitive_patterns [].
Definition default_rust_safety : LangSafetyConfig := mkLangSafety [] [] default_rust_sensitive_patterns [].

Definition python_allowed_set (c : LangSafetyConfig) : list string :=
  (PYTHON_PURE_FUNCTIONS ++ PYTHON_ACCEPTABLE_IMPURE ++ lc_user_allowed_functions c)%list.
Definition python_prohibited_set (c : LangSafetyConfig) : list string :=
  (PYTHON_IMPURE_FUNCTIONS ++ lc_user_prohibited_functions c)%list.
Definition go_allowed_set (c : LangSafetyConfig) : list string :=
  (GO_PURE_FUNCTIONS ++ GO_ACCEPTABLE_IMPURE ++ lc_user_allowed_functions c)%list.
Definition go_prohibited_set (c : LangSafetyConfig) : list string :=
  (GO_IMPURE_FUNCTIONS ++ lc_user_prohibited_functions c)%list.
Definition rust_allowed_set (c : LangSafetyConfig) : list string :=
  (RUST_PURE_FUNCTIONS ++ RUST_ACCEPTABLE_IMPURE ++ lc_user_allowed_functions c)%list.
Definition rust_prohibited_set (c : LangSafetyConfig) : list string :=
  (RUST_IMPURE_FUNCTIONS ++ lc_user_prohibited_functions c)%list.

(** [HashSet::contains]. *)
Definition in_set (x : string) (s : list string) : bool := existsb (String.eqb x) s.

Lemma in_set_spec x s : in_set x s = true <-> x ∈ s.
Proof.
  unfold in_set. rewrite existsb_exists, list_elem_of_In. split.
  - intros (y & Hy & E). apply String.eqb_eq in E. by subst.
  - intros H. exists x. split; [done|]. apply String.eqb_refl.
Qed.

Lemma in_set_false x s : in_set x s = false <-> x ∉ s.
Proof. rewrite <- in_set_spec. by destruct (in_set x s). Qed.
