(* ===== verification/SafetyAnalysis.v ===== *)
(** * Syntax analysis of expressions

    [crates/detrix-application/src/safety/treesitter/mod.rs], [python.rs],
    [go.rs] and [rust_lang.rs]: an expression is parsed by tree-sitter and the
    syntax tree is walked to collect violations, function calls and variable
    accesses.

    The parser is outside the repository: it is the argument [parse], and a tree
    is what the analysis asks of one, a [Node] with its kind, the name of the
    field it fills in its parent, its text and its children.  A node knows its
    parent; two nodes are the same when they are the same child of the same
    parent.  The order in which a hash set is walked is the argument [ord]. *)

From Stdlib Require Import Strings.String Strings.Ascii.
From S2P Require Import Prelude RustStr Metric SafetyTables.

Local Open Scope string_scope.
Local Arguments String.append !_ _ / : simpl nomatch.

(** ** Trees *)

Inductive Node : Type := mkNode {
  n_kind : string;
  n_field : option string;
  n_text : string;
  n_children : list Node
}.

(** A node as the walk meets it: its parent and its index there. *)
Record Visit : Type := mkVisit { v_parent : option (Node * nat); v_node : Node }.

Fixpoint field_index (name : string) (i : nat) (l : list Node) : option (nat * Node) :=
  match l with
  | [] => None
  | c :: r => if bool_decide (n_field c = Some name) then Some (i, c) else field_index name (S i) r
  end.
Definition child_by_field_name (name : string) (n : Node) : option Node := snd <$> field_index name 0 (n_children n).

(** [parent.child_by_field_name(name)] is this very node. *)
Definition is_field_of_parent (name : string) (v : Visit) : bool :=
  match v_parent v with
  | Some (p, i) => match field_index name 0 (n_children p) with Some (j, _) => Nat.eqb i j | None => false end
  | None => false
  end.
Definition parent_kind (v : Visit) : string := match v_parent v with Some (p, _) => n_kind p | None => "" end.

Record SyntaxTree : Type := mkTree { tree_root : Node; tree_has_error : bool }.

(** [traverse_tree]: the callback runs on a node, then on its children in order. *)
Section Traverse.
Context {S : Type} (callback : Visit -> S -> S).
Fixpoint traverse_tree (parent : option (Node * nat)) (n : Node) (st : S) : S :=
  let st := callback (mkVisit parent n) st in
  (fix children (i : nat) (l : list Node) (st : S) : S :=
     match l with
     | [] => st
     | c :: r => children (Datatypes.S i) r (traverse_tree (Some (n, i)) c st)
     end) 0%nat (n_children n) st.
End Traverse.

(** ** Results *)

Record TreeSitterResult : Type := mkTS {
  ts_is_safe : bool;
  ts_violations : list string;
  ts_function_calls : list string;
  ts_variable_accesses : list string;
  ts_has_unsafe : bool
}.

Definition ts_safe : TreeSitterResult := mkTS true [] [] [] false.
Definition unsafe_with_violations (violations : list string) : TreeSitterResult := mkTS false violations [] [] false.
Definition add_violation (violation : string) (r : TreeSitterResult) : TreeSitterResult :=
  mkTS false (ts_violations r ++ [violation])%list (ts_function_calls r) (ts_variable_accesses r) (ts_has_unsafe r).
Definition set_insert (x : string) (s : list string) : list string := if in_set x s then s else (s ++ [x])%list.
Definition add_function_call (name : string) (r : TreeSitterResult) : TreeSitterResult :=
  mkTS (ts_is_safe r) (ts_violations r) (set_insert name (ts_function_calls r)) (ts_variable_accesses r) (ts_has_unsafe r).
Definition add_variable_access (name : string) (r : TreeSitterResult) : TreeSitterResult :=
  mkTS (ts_is_safe r) (ts_violations r) (ts_function_calls r) (set_insert name (ts_variable_accesses r)) (ts_has_unsafe r).
Definition flag_unsafe (r : TreeSitterResult) : TreeSitterResult :=
  mkTS (ts_is_safe r) (ts_violations r) (ts_function_calls r) (ts_variable_accesses r) true.

Definition quoted (label text : string) : string := label ++ ": '" ++ text ++ "'".

(** ** The three languages *)

Definition analyze_python_node (v : Visit) (r : TreeSitterResult) : TreeSitterResult :=
  let n := v_node v in let text := n_text n in
  if in_set (n_kind n) ["assignment"; "augmented_assignment"; "annotated_assignment"] then add_violation (quoted "Assignment detected" text) r
  else if String.eqb (n_kind n) "delete_statement" then add_violation (quoted "Delete statement detected" text) r
  else if in_set (n_kind n) ["import_statement"; "import_from_statement"] then add_violation (quoted "Import statement detected" text) r
  else if in_set (n_kind n) ["global_statement"; "nonlocal_statement"] then add_violation (quoted "Global/nonlocal statement detected" text) r
  else if String.eqb (n_kind n) "call" then
    match child_by_field_name "function" n with Some f => add_function_call (n_text f) r | None => r end
  else if String.eqb (n_kind n) "identifier" then
    if String.eqb (parent_kind v) "call" && is_field_of_parent "function" v then r
    else if String.eqb (parent_kind v) "attribute" then r
    else if negb (str_is_empty text) then add_variable_access text r else r
  else if String.eqb (n_kind n) "attribute" then
    if String.eqb (parent_kind v) "call" && is_field_of_parent "function" v then r else add_variable_access text r
  else r.

Definition analyze_go_node (v : Visit) (r : TreeSitterResult) : TreeSitterResult :=
  let n := v_node v in let text := n_text n in
  if String.eqb (n_kind n) "assignment_statement" then
    if negb (starts_with "_ =" text) then add_violation (quoted "Assignment detected" text) r else r
  else if String.eqb (n_kind n) "short_var_declaration" then add_violation (quoted "Short variable declaration detected" text) r
  else if in_set (n_kind n) ["inc_statement"; "dec_statement"] then add_violation (quoted "Increment/decrement detected" text) r
  else if String.eqb (n_kind n) "go_statement" then add_violation (quoted "Goroutine detected" text) r
  else if String.eqb (n_kind n) "defer_statement" then add_violation (quoted "Defer statement detected" text) r
  else if String.eqb (n_kind n) "send_statement" then add_violation (quoted "Channel send detected" text) r
  else if String.eqb (n_kind n) "call_expression" then
    match child_by_field_name "function" n with Some f => add_function_call (n_text f) r | None => r end
  else if String.eqb (n_kind n) "identifier" then
    if String.eqb (parent_kind v) "call_expression" && is_field_of_parent "function" v then r
    else if in_set (parent_kind v) ["selector_expression"; "package_clause"; "function_declaration"] then r
    else if negb (String.eqb text "_") && negb (String.eqb text "main") then add_variable_access text r else r
  else if String.eqb (n_kind n) "selector_expression" then
    if String.eqb (parent_kind v) "call_expression" && is_field_of_parent "function" v then r else add_variable_access text r
  else r.

Definition analyze_rust_node (v : Visit) (r : TreeSitterResult) : TreeSitterResult :=
  let n := v_node v in let text := n_text n in
  if String.eqb (n_kind n) "assignment_expression" then add_violation (quoted "Assignment detected" text) r
  else if String.eqb (n_kind n) "compound_assignment_expr" then add_violation (quoted "Compound assignment detected" text) r
  else if String.eqb (n_kind n) "unsafe_block" then add_violation (quoted "Unsafe block detected" text) (flag_unsafe r)
  else if String.eqb (n_kind n) "call_expression" then
    match child_by_field_name "function" n with Some f => add_function_call (n_text f) r | None => r end
  else if String.eqb (n_kind n) "method_call_expression" then
    match child_by_field_name "name" n with
    | Some m => match child_by_field_name "receiver" n with
                | Some rc => add_function_call (n_text rc ++ "." ++ n_text m) r
                | None => add_function_call (n_text m) r
                end
    | None => r
    end
  else if String.eqb (n_kind n) "macro_invocation" then
    match child_by_field_name "macro" n with Some m => add_function_call (n_text m ++ "!") r | None => r end
  else if String.eqb (n_kind n) "identifier" then
    if String.eqb (parent_kind v) "call_expression" && is_field_of_parent "function" v then r
    else if in_set (parent_kind v) ["scoped_identifier"; "field_expression"; "method_call_expression"] then r
    else if in_set (parent_kind v) ["function_item"; "let_declaration"] && in_set text ["main"; "_"] then r
    else if negb (str_is_empty text) && negb (String.eqb text "_") && negb (String.eqb text "main") then add_variable_access text r else r
  else if String.eqb (n_kind n) "field_expression" then
    if String.eqb (parent_kind v) "method_call_expression" && is_field_of_parent "receiver" v then r else add_variable_access text r
  else if String.eqb (n_kind n) "scoped_identifier" then
    if String.eqb (parent_kind v) "call_expression" && is_field_of_parent "function" v then r else add_variable_access text r
  else r.

(** ** Base names *)

(** What follows the last [sep], and what precedes the first. *)
Fixpoint after_last_opt (sep s : string) : option string :=
  match s with
  | EmptyString => None
  | String _ r => match after_last_opt sep r with Some t => Some t | None => strip_prefix sep s end
  end.
Definition after_last (sep s : string) : string := match after_last_opt sep s with Some t => t | None => s end.
Fixpoint before_first (sep s : string) : string :=
  if starts_with sep s then "" else match s with EmptyString => "" | String c r => String c (before_first sep r) end.

Fixpoint strip_bang (s : string) : option string :=
  match s with
  | EmptyString => None
  | String c EmptyString => if Ascii.eqb c "!" then Some "" else None
  | String c r => match strip_bang r with Some t => Some (String c t) | None => None end
  end.

Definition extract_simple_base_name (func : string) : list string := [after_last "." func].
Definition extract_rust_base_name (func : string) : list string :=
  let base_name := before_first "(" (after_last "." (after_last "::" (before_first "::<" func))) in
  match strip_bang base_name with Some macro_base => [base_name; macro_base] | None => [base_name] end.

(** ** Analysis *)

Section Analysis.
Context (ord : list string -> list string).

Definition non_whitelisted (allowed : list string) (extract : string -> list string) (func : string) : bool :=
  negb (in_set func allowed) && negb (existsb (fun name => in_set name allowed) (extract func)).

Definition strict_message (func : string) : string := "Non-whitelisted function call '" ++ func ++ "' in strict mode".

Definition check_strict_mode_violations (allowed : list string) (extract : string -> list string) (r : TreeSitterResult) : TreeSitterResult :=
  fold_left (fun r func => add_violation (strict_message func) r)
    (List.filter (non_whitelisted allowed extract) (ord (ts_function_calls r))) r.

Definition parse_and_analyze (parse : string -> option SyntaxTree) (source_text parse_fail_msg syntax_err_msg : string)
    (safety_level : SafetyLevel) (allowed : list string) (analyze_node : Visit -> TreeSitterResult -> TreeSitterResult)
    (extract_base : string -> list string) : TreeSitterResult :=
  match parse source_text with
  | None => unsafe_with_violations [parse_fail_msg]
  | Some tree =>
      if tree_has_error tree then unsafe_with_violations [syntax_err_msg]
      else let r := traverse_tree analyze_node None (tree_root tree) ts_safe in
           match safety_level with
           | Strict => check_strict_mode_violations allowed extract_base r
           | Trusted => r
           end
  end.

Definition go_wrapped (expression : string) : string :=
  "package main" ++ String (ascii_of_N 10) ("func main() { _ = " ++ expression ++ " }").
Definition rust_wrapped (expression : string) : string := "fn main() { let _ = " ++ expression ++ "; }".

Definition analyze_python (parse : string -> option SyntaxTree) (expression : string) (level : SafetyLevel) (allowed : list string) : TreeSitterResult :=
  parse_and_analyze parse expression "Failed to parse Python expression" "Syntax error in Python expression"
    level allowed analyze_python_node extract_simple_base_name.
Definition analyze_go (parse : string -> option SyntaxTree) (expression : string) (level : SafetyLevel) (allowed : list string) : TreeSitterResult :=
  parse_and_analyze parse (go_wrapped expression) "Failed to parse Go expression" "Syntax error in Go expression"
    level allowed analyze_go_node extract_simple_base_name.
Definition analyze_rust (parse : string -> option SyntaxTree) (expression : string) (level : SafetyLevel) (allowed : list string) : TreeSitterResult :=
  parse_and_analyze parse (rust_wrapped expression) "Failed to parse Rust expression" "Syntax error in Rust expression"
    level allowed analyze_rust_node extract_rust_base_name.
End Analysis.

(** ** The walk *)

(** Induction on trees: a property of all trees from that of the children. *)
Lemma node_ind' (P : Node -> Prop) :
  (forall k f t l, Forall P l -> P (mkNode k f t l)) -> forall n, P n.
Proof.
  intros Hn. fix IH 1. intros [k f t l]. apply Hn. induction l as [|c l IHl]; constructor; [apply IH|exact IHl].
Qed.

(** The visits of a walk, in order. *)
Fixpoint visits (parent : option (Node * nat)) (n : Node) : list Visit :=
  (mkVisit parent n ::
   (fix children (i : nat) (l : list Node) : list Visit :=
      match l with [] => [] | c :: r => visits (Some (n, i)) c ++ children (S i) r end) 0%nat (n_children n))%list.

Lemma traverse_tree_visits {S : Type} (callback : Visit -> S -> S) n parent st :
  traverse_tree callback parent n st = fold_left (fun st v => callback v st) (visits parent n) st.
Proof.
  revert parent st. induction n as [k f t l IH] using node_ind'. intros parent st.
  cbn [traverse_tree visits fold_left]. set (st1 := callback _ st). generalize st1. clear st1 st. generalize 0%nat as i.
  cbn [n_children]. set (root := mkNode k f t l). clearbody root. induction IH as [|c l Hc Hl IHl]; intros i st; cbn; [done|].
  rewrite fold_left_app. rewrite <- Hc. apply IHl.
Qed.

(** ** What an analyser does with a node

    A node is forbidden, or is a call, or names a variable, or is of no
    interest. *)

Record NodeSpec : Type := mkNodeSpec {
  ns_forbidden : Visit -> bool;
  ns_call : Visit -> option string;
  ns_variable : Visit -> option string
}.

Definition node_effect (ns : NodeSpec) (v : Visit) (r r' : TreeSitterResult) : Prop :=
  (if ns_forbidden ns v then exists m, ts_violations r' = (ts_violations r ++ [m])%list /\ ts_is_safe r' = false
   else ts_violations r' = ts_violations r /\ ts_is_safe r' = ts_is_safe r)
  /\ ts_function_calls r' = match ns_call ns v with Some f => set_insert f (ts_function_calls r) | None => ts_function_calls r end
  /\ ts_variable_accesses r' = match ns_variable ns v with Some x => set_insert x (ts_variable_accesses r) | None => ts_variable_accesses r end.

Definition implements (analyze : Visit -> TreeSitterResult -> TreeSitterResult) (ns : NodeSpec) : Prop :=
  forall v r, node_effect ns v r (analyze v r).

Lemma elem_of_set_insert x y s : x ∈ set_insert y s <-> x = y \/ x ∈ s.
Proof.
  unfold set_insert. destruct (in_set y s) eqn:E; [apply in_set_spec in E; naive_solver|].
  rewrite elem_of_app, list_elem_of_singleton. naive_solver.
Qed.

(** The collected sets are those of the visited nodes. *)
Lemma analysis_collects analyze ns vs r : implements analyze ns ->
  let r' := fold_left (fun r v => analyze v r) vs r in
  (forall f, f ∈ ts_function_calls r' <-> f ∈ ts_function_calls r \/ exists v, v ∈ vs /\ ns_call ns v = Some f)
  /\ (forall x, x ∈ ts_variable_accesses r' <-> x ∈ ts_variable_accesses r \/ exists v, v ∈ vs /\ ns_variable ns v = Some x)
  /\ (ts_is_safe r' = true <-> ts_is_safe r = true /\ forall v, v ∈ vs -> ns_forbidden ns v = false)
  /\ ((ts_is_safe r = true <-> ts_violations r = []) -> ts_is_safe r' = true <-> ts_violations r' = []).
Proof.
  intros Himp. revert r. induction vs as [|v vs IH]; intros r; cbn [fold_left].
  { repeat split; try naive_solver; setoid_rewrite elem_of_nil; naive_solver. }
  destruct (IH (analyze v r)) as (Hc & Hv & Hs & Hw). destruct (Himp v r) as (H1 & H2 & H3). split; [|split; [|split]].
  - intros f. rewrite Hc, H2. setoid_rewrite elem_of_cons. destruct (ns_call ns v) as [g|] eqn:E; rewrite ?elem_of_set_insert; naive_solver.
  - intros x. rewrite Hv, H3. setoid_rewrite elem_of_cons. destruct (ns_variable ns v) as [g|] eqn:E; rewrite ?elem_of_set_insert; naive_solver.
  - rewrite Hs. setoid_rewrite elem_of_cons. destruct (ns_forbidden ns v) eqn:E; [destruct H1 as (m & _ & ->)|destruct H1 as [_ ->]]; naive_solver.
  - intros Hr. apply Hw. destruct (ns_forbidden ns v); [|destruct H1 as [-> ->]; done].
    destruct H1 as (m & -> & ->). split; [done|]. by destruct (ts_violations r).
Qed.

(** *** The three languages *)

Definition python_spec : NodeSpec := {|
  ns_forbidden v := in_set (n_kind (v_node v))
    ["assignment"; "augmented_assignment"; "annotated_assignment"; "delete_statement"; "import_statement"; "import_from_statement"; "global_statement"; "nonlocal_statement"];
  ns_call v := if String.eqb (n_kind (v_node v)) "call" then n_text <$> child_by_field_name "function" (v_node v) else None;
  ns_variable v :=
    let called := String.eqb (parent_kind v) "call" && is_field_of_parent "function" v in
    if String.eqb (n_kind (v_node v)) "identifier" && negb called && negb (String.eqb (parent_kind v) "attribute") && negb (str_is_empty (n_text (v_node v)))
       || String.eqb (n_kind (v_node v)) "attribute" && negb called
    then Some (n_text (v_node v)) else None
|}.

Definition go_spec : NodeSpec := {|
  ns_forbidden v :=
    in_set (n_kind (v_node v)) ["short_var_declaration"; "inc_statement"; "dec_statement"; "go_statement"; "defer_statement"; "send_statement"]
    || String.eqb (n_kind (v_node v)) "assignment_statement" && negb (starts_with "_ =" (n_text (v_node v)));
  ns_call v := if String.eqb (n_kind (v_node v)) "call_expression" then n_text <$> child_by_field_name "function" (v_node v) else None;
  ns_variable v :=
    let called := String.eqb (parent_kind v) "call_expression" && is_field_of_parent "function" v in
    if String.eqb (n_kind (v_node v)) "identifier" && negb called
         && negb (in_set (parent_kind v) ["selector_expression"; "package_clause"; "function_declaration"]) && negb (in_set (n_text (v_node v)) ["_"; "main"])
       || String.eqb (n_kind (v_node v)) "selector_expression" && negb called
    then Some (n_text (v_node v)) else None
|}.

Definition rust_spec : NodeSpec := {|
  ns_forbidden v := in_set (n_kind (v_node v)) ["assignment_expression"; "compound_assignment_expr"; "unsafe_block"];
  ns_call v :=
    if String.eqb (n_kind (v_node v)) "call_expression" then n_text <$> child_by_field_name "function" (v_node v)
    else if String.eqb (n_kind (v_node v)) "method_call_expression" then
      m ← child_by_field_name "name" (v_node v);
      Some (match child_by_field_name "receiver" (v_node v) with Some rc => n_text rc ++ "." ++ n_text m | None => n_text m end)
    else if String.eqb (n_kind (v_node v)) "macro_invocation" then (fun m => n_text m ++ "!") <$> child_by_field_name "macro" (v_node v)
    else None;
  ns_variable v :=
    let called := String.eqb (parent_kind v) "call_expression" && is_field_of_parent "function" v in
    let text := n_text (v_node v) in
    if String.eqb (n_kind (v_node v)) "identifier" && negb called
         && negb (in_set (parent_kind v) ["scoped_identifier"; "field_expression"; "method_call_expression"]) && negb (in_set text [""; "_"; "main"])
       || String.eqb (n_kind (v_node v)) "field_expression" && negb (String.eqb (parent_kind v) "method_call_expression" && is_field_of_parent "receiver" v)
       || String.eqb (n_kind (v_node v)) "scoped_identifier" && negb called
    then Some text else None
|}.

(** Case analysis on a kind against the literals it is compared with. *)
Ltac kind_cases k :=
  repeat match goal with
  | |- context [String.eqb k ?lit] => destruct (String.eqb_spec k lit) as [->|?]; [cbn|]
  end; cbn.

Ltac node_effect_done := unfold node_effect; cbn; repeat split; try done; try (by eexists).

Lemma python_implements : implements analyze_python_node python_spec.
Proof.
  intros [p [k f t l]] r. unfold analyze_python_node, node_effect, in_set. cbn [v_node n_kind n_text python_spec ns_forbidden ns_call ns_variable existsb].
  unfold in_set. cbn [existsb]. generalize (String.eqb (parent_kind (mkVisit p (mkNode k f t l))) "call" && is_field_of_parent "function" (mkVisit p (mkNode k f t l))) as called.
  generalize (String.eqb (parent_kind (mkVisit p (mkNode k f t l))) "attribute") as at_. intros at_ called. unfold child_by_field_name. cbn [n_children].
  kind_cases k; try solve [node_effect_done].
  - destruct (field_index _ _ _) as [[j c]|]; node_effect_done.
  - destruct called, at_, (str_is_empty t); node_effect_done.
  - destruct called; node_effect_done.
Qed.

Lemma go_implements : implements analyze_go_node go_spec.
Proof.
  intros [p [k f t l]] r. unfold analyze_go_node, node_effect, in_set. cbn [v_node n_kind n_text go_spec ns_forbidden ns_call ns_variable existsb].
  unfold in_set. cbn [existsb]. generalize (String.eqb (parent_kind (mkVisit p (mkNode k f t l))) "call_expression" && is_field_of_parent "function" (mkVisit p (mkNode k f t l))) as called.
  generalize (parent_kind (mkVisit p (mkNode k f t l))) as pk. intros pk called. unfold child_by_field_name. cbn [n_children].
  kind_cases k; try solve [node_effect_done].
  - destruct (starts_with "_ =" t); node_effect_done.
  - destruct (field_index _ _ _) as [[j c]|]; node_effect_done.
  - destruct called, (String.eqb pk _), (String.eqb pk _), (String.eqb pk _), (String.eqb t "_"), (String.eqb t "main"); node_effect_done.
  - destruct called; node_effect_done.
Qed.

Lemma rust_implements : implements analyze_rust_node rust_spec.
Proof.
  intros [p [k f t l]] r. unfold analyze_rust_node, node_effect, in_set. cbn [v_node n_kind n_text rust_spec ns_forbidden ns_call ns_variable existsb].
  unfold in_set. cbn [existsb]. generalize (String.eqb (parent_kind (mkVisit p (mkNode k f t l))) "call_expression" && is_field_of_parent "function" (mkVisit p (mkNode k f t l))) as called.
  generalize (is_field_of_parent "receiver" (mkVisit p (mkNode k f t l))) as rc.
  generalize (parent_kind (mkVisit p (mkNode k f t l))) as pk. intros pk rc called. unfold child_by_field_name. cbn [n_children].
  kind_cases k; try solve [node_effect_done].
  - destruct (field_index _ _ _) as [[j c]|]; node_effect_done.
  - destruct (field_index "name" _ _) as [[j c]|], (field_index "receiver" _ _) as [[j2 c2]|]; node_effect_done.
  - destruct (field_index _ _ _) as [[j c]|]; node_effect_done.
  - assert (str_is_empty t = String.eqb t "") as -> by by destruct t.
    destruct called, (String.eqb pk "scoped_identifier"), (String.eqb pk "field_expression"), (String.eqb pk "method_call_expression"),
      (String.eqb pk "function_item"), (String.eqb pk "let_declaration"), (String.eqb t ""), (String.eqb t "_"), (String.eqb t "main"); node_effect_done.
  - destruct (String.eqb pk "method_call_expression"), rc; node_effect_done.
  - destruct called; node_effect_done.
Qed.

(** ** Strict mode and the whole analysis *)

Definition whitelisted (allowed : list string) (extract : string -> list string) (func : string) : Prop :=
  func ∈ allowed \/ exists name, name ∈ extract func /\ name ∈ allowed.

Lemma non_whitelisted_false allowed extract func : non_whitelisted allowed extract func = false <-> whitelisted allowed extract func.
Proof.
  unfold non_whitelisted, whitelisted. rewrite andb_false_iff, !negb_false_iff, in_set_spec, existsb_exists.
  setoid_rewrite in_set_spec. by setoid_rewrite list_elem_of_In.
Qed.

Lemma add_violations_spec (f : string -> string) l r :
  let r' := fold_left (fun r x => add_violation (f x) r) l r in
  ts_violations r' = (ts_violations r ++ map f l)%list /\ ts_is_safe r' = match l with [] => ts_is_safe r | _ => false end
  /\ ts_function_calls r' = ts_function_calls r /\ ts_variable_accesses r' = ts_variable_accesses r /\ ts_has_unsafe r' = ts_has_unsafe r.
Proof.
  revert r. induction l as [|x l IH]; intros r; cbn [fold_left map]; [by rewrite app_nil_r|].
  destruct (IH (add_violation (f x) r)) as (H1 & H2 & H3 & H4 & H5). rewrite H1, H2, H3, H4, H5. cbn. rewrite <- app_assoc. by destruct l.
Qed.

Section Exact.
Context (ord : list string -> list string) (Hord : forall l, ord l ≡ₚ l).

Lemma filter_nil_iff (f : string -> bool) l : List.filter f l = [] <-> forall x, x ∈ l -> f x = false.
Proof.
  induction l as [|y l IH]; cbn; [split; [intros _ x Hx; by apply elem_of_nil in Hx|done]|]. destruct (f y) eqn:E.
  - split; [done|]. intros Hf. specialize (Hf y (list_elem_of_here _ _)). congruence.
  - rewrite IH. split; intros Hf x Hx; [|apply Hf; by right]. apply elem_of_cons in Hx as [->|Hx]; [done|by apply Hf].
Qed.

(** The trees an analysis at a level lets through. *)
Definition tree_accepted (ns : NodeSpec) (extract : string -> list string) (level : SafetyLevel) (allowed : list string) (root : Node) : Prop :=
  forall v, v ∈ visits None root ->
    ns_forbidden ns v = false
    /\ (level = Strict -> forall f, ns_call ns v = Some f -> whitelisted allowed extract f).

Lemma parse_and_analyze_spec parse src msg1 msg2 level allowed analyze extract ns :
  implements analyze ns ->
  let r := parse_and_analyze ord parse src msg1 msg2 level allowed analyze extract in
  (ts_is_safe r = true <-> exists tree, parse src = Some tree /\ tree_has_error tree = false /\ tree_accepted ns extract level allowed (tree_root tree))
  /\ (ts_is_safe r = true <-> ts_violations r = [])
  /\ forall tree, parse src = Some tree -> tree_has_error tree = false ->
     (forall f, f ∈ ts_function_calls r <-> exists v, v ∈ visits None (tree_root tree) /\ ns_call ns v = Some f)
     /\ (forall x, x ∈ ts_variable_accesses r <-> exists v, v ∈ visits None (tree_root tree) /\ ns_variable ns v = Some x).
Proof.
  intros Himp. unfold parse_and_analyze. destruct (parse src) as [tree|].
  2: { cbn. split; [split; [done|by intros (? & [=] & _)]|]. split; [done|]. by intros ? [=]. }
  destruct (tree_has_error tree) eqn:Ee.
  { cbn. split; [split; [done|intros (? & [= <-] & He & _); congruence]|]. split; [done|]. intros ? [= <-] He; congruence. } rewrite traverse_tree_visits.
  destruct (analysis_collects analyze ns (visits None (tree_root tree)) ts_safe Himp) as (Hc & Hv & Hs & Hw).
  set (r := fold_left _ _ _) in *. cbn in Hc, Hv, Hs, Hw. setoid_rewrite elem_of_nil in Hc. setoid_rewrite elem_of_nil in Hv.
  assert (tree_accepted ns extract Trusted allowed (tree_root tree) <-> ts_is_safe r = true) as Ht by (rewrite Hs; unfold tree_accepted; naive_solver).
  destruct level; cbn zeta.
  - unfold check_strict_mode_violations. destruct (add_violations_spec strict_message (List.filter (non_whitelisted allowed extract) (ord (ts_function_calls r))) r) as (H1 & H2 & H3 & H4 & _).
    cbn zeta in *. rewrite H1, H2, H3, H4.
    assert (List.filter (non_whitelisted allowed extract) (ord (ts_function_calls r)) = [] <-> forall f, f ∈ ts_function_calls r -> whitelisted allowed extract f) as Hf.
    { rewrite filter_nil_iff. setoid_rewrite Hord. by setoid_rewrite non_whitelisted_false. }
    assert (tree_accepted ns extract Strict allowed (tree_root tree) <-> ts_is_safe r = true /\ forall f, f ∈ ts_function_calls r -> whitelisted allowed extract f) as Ha.
    { rewrite Hs. unfold tree_accepted. setoid_rewrite Hc. split.
      - intros Hall. split; [split; [done|]; intros v Hin; by apply Hall|]. intros f [[]|(v & Hin & E)]. by eapply Hall.
      - intros [[_ Hn] Hw'] v Hin. split; [by apply Hn|]. intros _ f E. apply Hw'. right. by exists v. }
    split; [|split].
    + destruct (List.filter _ _) as [|x l] eqn:E; split; intros HH; try done.
      * exists tree. split; [done|]. split; [done|]. apply Ha. split; [done|]. by apply Hf.
      * destruct HH as (? & [= <-] & _ & HH). by apply Ha.
      * destruct HH as (? & [= <-] & _ & HH). apply Ha in HH as [_ HH]. by apply Hf in HH.
    + destruct (List.filter _ _) as [|x l] eqn:E; cbn; [rewrite app_nil_r; by apply Hw|]. split; [done|]. by destruct (ts_violations r).
    + intros ? [= <-] _. split; intros ?; [rewrite Hc|rewrite Hv]; naive_solver.
  - split; [|split; [by apply Hw|]].
    + rewrite <- Ht. split; [intros HH; by exists tree|]. by intros (? & [= <-] & _ & HH).
    + intros ? [= <-] _. split; intros ?; [rewrite Hc|rewrite Hv]; naive_solver.
Qed.
End Exact.
