(* ===== verification/SafetyCache.v ===== *)
(** * The cache of syntax analyses

    [crates/detrix-application/src/safety/treesitter/cache.rs] and
    [cached_analysis] of [mod.rs]: results of the syntax analysis are kept under a
    hash of the expression, the language, the level and, at the strict level, the
    whitelist.  [sha256] is a parameter; [entries_of] is the order in which the
    concurrent map is iterated.  Calls are taken one at a time. *)

From Stdlib Require Import Strings.String Strings.Ascii Sorted.
From stdpp Require Import gmap sorting.
From S2P Require Import Prelude RustStr RustText Metric SafetyTables SafetyAnalysis.

Local Open Scope string_scope.
Local Arguments String.append !_ _ / : simpl nomatch.

Record CacheEntry : Type := mkEntry { ce_result : TreeSitterResult; ce_last_access : N }.
Record TreeSitterCache : Type := mkCache {
  tc_cache : gmap string CacheEntry; tc_max_entries : N; tc_hits : N; tc_misses : N
}.
Record CacheStats : Type := mkStats { cs_entries : N; cs_max_entries : N; cs_hits : N; cs_misses : N }.

Definition cache_new (max_entries : N) : TreeSitterCache := mkCache ∅ max_entries 0 0.
Definition cache_len (c : TreeSitterCache) : N := N.of_nat (size (tc_cache c)).
Definition access_counter (c : TreeSitterCache) : N := wrap 64 (tc_hits c + tc_misses c).
Definition cache_stats (c : TreeSitterCache) : CacheStats := mkStats (cache_len c) (tc_max_entries c) (tc_hits c) (tc_misses c).
Definition cache_clear (c : TreeSitterCache) : TreeSitterCache := mkCache ∅ (tc_max_entries c) 0 0.

(** ** Keys *)

Definition level_byte (l : SafetyLevel) : ascii := match l with Strict => "000" | Trusted => "001" end.

(** [Ord] of [String]: lexicographic on bytes. *)
Fixpoint str_leb (a b : string) : bool :=
  match a, b with
  | EmptyString, _ => true
  | String _ _, EmptyString => false
  | String x a', String y b' => if (code x <? code y)%N then true else if (code y <? code x)%N then false else str_leb a' b'
  end.
Fixpoint insert_sorted (x : string) (l : list string) : list string :=
  match l with [] => [x] | y :: r => if str_leb x y then x :: l else y :: insert_sorted x r end.
Definition sort_strings (l : list string) : list string := fold_right insert_sorted [] l.

(** The bytes that are hashed. *)
Definition key_preimage (expression language : string) (level : SafetyLevel) (allowed : list string) : string :=
  expression ++ language ++ String (level_byte level)
    (match level with Strict => String.concat "" (sort_strings allowed) | Trusted => "" end).

Section Cache.
Context (sha256 : list Byte.byte -> list Byte.byte) (entries_of : gmap string CacheEntry -> list (string * CacheEntry)).

Definition make_key (expression language : string) (level : SafetyLevel) (allowed : list string) : string :=
  hex_lower (take 16 (sha256 (as_bytes (key_preimage expression language level allowed)))).

(** ** Eviction *)

(** [sort_by_key], which is stable. *)
Fixpoint insert_by_access (x : string * N) (l : list (string * N)) : list (string * N) :=
  match l with [] => [x] | y :: r => if (snd x <=? snd y)%N then x :: l else y :: insert_by_access x r end.
Definition sort_by_access (l : list (string * N)) : list (string * N) := fold_right insert_by_access [] l.

Definition evicted (c : TreeSitterCache) : list (string * N) :=
  take (N.to_nat (tc_max_entries c / 10)) (sort_by_access (map (fun e => (fst e, ce_last_access (snd e))) (entries_of (tc_cache c)))).

Definition evict_oldest (c : TreeSitterCache) : TreeSitterCache :=
  if (tc_max_entries c / 10 =? 0)%N then c
  else mkCache (foldr (fun e m => delete (fst e) m) (tc_cache c) (evicted c)) (tc_max_entries c) (tc_hits c) (tc_misses c).

Definition get_or_insert (key : string) (compute : TreeSitterResult) (c : TreeSitterCache) : TreeSitterCache * TreeSitterResult :=
  match tc_cache c !! key with
  | Some entry =>
      let c1 := mkCache (tc_cache c) (tc_max_entries c) (wrap 64 (tc_hits c + 1)) (tc_misses c) in
      (mkCache (<[key := mkEntry (ce_result entry) (access_counter c1)]> (tc_cache c)) (tc_max_entries c1) (tc_hits c1) (tc_misses c1), ce_result entry)
  | None =>
      let c1 := mkCache (tc_cache c) (tc_max_entries c) (tc_hits c) (wrap 64 (tc_misses c + 1)) in
      let c2 := if (tc_max_entries c1 <=? cache_len c1)%N then evict_oldest c1 else c1 in
      (mkCache (<[key := mkEntry compute (access_counter c2)]> (tc_cache c2)) (tc_max_entries c2) (tc_hits c2) (tc_misses c2), compute)
  end.

Definition cached_analysis (expression language : string) (level : SafetyLevel) (allowed : list string)
    (uncached : TreeSitterResult) (c : TreeSitterCache) : TreeSitterCache * TreeSitterResult :=
  get_or_insert (make_key expression language level allowed) uncached c.
End Cache.

(** ** Keys tell queries apart *)

(** The grammars and the names their analysers pass. *)
Inductive Grammar : Type := GPython | GGo | GRust.
#[export] Instance Grammar_eq_dec : EqDecision Grammar.
Proof. solve_decision. Defined.
Definition grammar_key (g : Grammar) : string := match g with GPython => "python" | GGo => "go" | GRust => "rust" end.

Record Query : Type := mkQuery { q_expression : string; q_grammar : Grammar; q_level : SafetyLevel }.

(** Text without the bytes that stand for the levels. *)
Definition plain (s : string) : bool := str_forall (fun c => negb (code c <? 2)%N) s.

Lemma split_at_level (u w t t' : string) c d :
  (code c < 2)%N -> (code d < 2)%N -> plain t = true -> plain t' = true ->
  u ++ String c t = w ++ String d t' -> u = w /\ c = d /\ t = t'.
Proof.
  intros Hc Hd Ht Ht'. assert (forall x e z, (code e < 2)%N -> plain (x ++ String e z) = false) as Hno.
  { intros x e z He. unfold plain. rewrite str_forall_app. cbn [str_forall]. apply N.ltb_lt in He. rewrite He. cbn [negb andb]. by rewrite andb_false_r. }
  revert w. induction u as [|x u IH]; intros [|y w] E; cbn in E.
  - by injection E as -> ->.
  - injection E as -> ->. by rewrite Hno in Ht.
  - injection E as -> <-. by rewrite Hno in Ht'.
  - injection E as -> E. destruct (IH w E) as (-> & -> & ->). done.
Qed.

Lemma grammar_suffix (e e' : string) g g' : e ++ grammar_key g = e' ++ grammar_key g' -> e = e' /\ g = g'.
Proof.
  intros E. apply (f_equal str_rev) in E. rewrite !str_rev_app_distr in E.
  assert (g = g') as <- by (destruct g, g'; done). split; [|done].
  apply str_app_inj_l in E. rewrite <- (str_rev_involutive e), <- (str_rev_involutive e'). by rewrite E.
Qed.

Definition query_preimage (allowed : Grammar -> list string) (q : Query) : string :=
  key_preimage (q_expression q) (grammar_key (q_grammar q)) (q_level q) (allowed (q_grammar q)).

Lemma plain_concat l : forallb plain l = true -> plain (String.concat "" l) = true.
Proof.
  induction l as [|x l IH]; [done|]. cbn [forallb]. rewrite andb_true_iff. intros [Hx Hl]. rewrite RustText.concat_cons. unfold plain in *. rewrite str_forall_app. by rewrite Hx, IH.
Qed.
Lemma insert_sorted_plain x l : forallb plain (insert_sorted x l) = plain x && forallb plain l.
Proof. induction l as [|y l IH]; cbn [insert_sorted forallb]; [done|]. destruct (str_leb x y); cbn [forallb]; [done|]. rewrite IH. by destruct (plain x), (plain y). Qed.
Lemma sort_strings_plain l : forallb plain (sort_strings l) = forallb plain l.
Proof. induction l as [|x l IH]; [done|]. cbn [sort_strings fold_right forallb]. unfold sort_strings in IH. by rewrite insert_sorted_plain, IH. Qed.

Lemma query_preimage_inj allowed q q' : (forall g, forallb plain (allowed g) = true) ->
  query_preimage allowed q = query_preimage allowed q' -> q = q'.
Proof.
  intros Hp E. unfold query_preimage, key_preimage in E. rewrite <- !str_app_assoc in E.
  assert (forall lv, (code (level_byte lv) < 2)%N) as Hlv by (intros []; by vm_compute).
  assert (forall lv g, plain (match lv with Strict => String.concat "" (sort_strings (allowed g)) | Trusted => "" end) = true) as Htail.
  { intros [] g; [|done]. apply plain_concat. rewrite sort_strings_plain. apply Hp. }
  apply split_at_level in E as (E & El & _); auto.
  apply grammar_suffix in E as [E1 E2]. destruct q as [e g lv], q' as [e' g' lv']; cbn in *. subst. f_equal. by destruct lv, lv'.
Qed.

(** ** Sorting and eviction *)

Lemma insert_by_access_perm x l : insert_by_access x l ≡ₚ x :: l.
Proof. induction l as [|y l IH]; cbn; [done|]. destruct (_ <=? _)%N; [done|]. rewrite IH. constructor. Qed.
Lemma sort_by_access_perm l : sort_by_access l ≡ₚ l.
Proof. induction l as [|x l IH]; cbn; [done|]. by rewrite insert_by_access_perm, IH. Qed.

Definition older (x y : string * N) : Prop := (snd x <= snd y)%N.
Lemma insert_by_access_sorted x l : StronglySorted older l -> StronglySorted older (insert_by_access x l).
Proof.
  induction 1 as [|y l Hl IH Hy]; cbn; [repeat constructor|]. destruct (N.leb_spec (snd x) (snd y)) as [Hle|Hlt].
  - constructor; [by constructor|]. constructor; [done|]. eapply List.Forall_impl; [|exact Hy]. unfold older. lia.
  - constructor; [done|]. rewrite List.Forall_forall in *. intros z Hz.
    apply list_elem_of_In in Hz. rewrite (insert_by_access_perm x l) in Hz. apply elem_of_cons in Hz as [->|Hz]; [unfold older; lia|]. apply Hy. by apply list_elem_of_In.
Qed.
Lemma sort_by_access_sorted l : StronglySorted older (sort_by_access l).
Proof. induction l as [|x l IH]; cbn; [constructor|]. by apply insert_by_access_sorted. Qed.

Lemma sorted_take_drop n (l : list (string * N)) x y : StronglySorted older l -> x ∈ take n l -> y ∈ drop n l -> older x y.
Proof.
  intros Hs. revert n. induction Hs as [|z l Hl IH Hz]; intros n Hx Hy; [by rewrite take_nil in Hx; apply elem_of_nil in Hx|].
  destruct n as [|n]; [by apply elem_of_nil in Hx|]. cbn in Hx, Hy. apply elem_of_cons in Hx as [->|Hx]; [|by eapply IH].
  rewrite List.Forall_forall in Hz. apply Hz, list_elem_of_In. rewrite <- (take_drop n l). apply elem_of_app. by right.
Qed.

(** ** The cache in use *)

Section Use.
Context (sha256 : list Byte.byte -> list Byte.byte) (entries_of : gmap string CacheEntry -> list (string * CacheEntry)).
Context (Hperm : forall m, entries_of m ≡ₚ map_to_list m).
(** The whitelists of the three grammars, fixed for the process, and the analysis. *)
Context (allowed : Grammar -> list string) (analysis : Query -> TreeSitterResult).

Definition query_key (q : Query) : string := make_key sha256 (q_expression q) (grammar_key (q_grammar q)) (q_level q) (allowed (q_grammar q)).
Definition ask (q : Query) (c : TreeSitterCache) : TreeSitterCache * TreeSitterResult :=
  cached_analysis sha256 entries_of (q_expression q) (grammar_key (q_grammar q)) (q_level q) (allowed (q_grammar q)) (analysis q) c.

Fixpoint ask_all (qs : list Query) (c : TreeSitterCache) : TreeSitterCache * list TreeSitterResult :=
  match qs with
  | [] => (c, [])
  | q :: r => let '(c1, x) := ask q c in let '(c2, xs) := ask_all r c1 in (c2, x :: xs)
  end.

(** Entries only ever shrink by eviction. *)
Lemma foldr_delete_lookup (l : list (string * N)) (m : gmap string CacheEntry) k :
  foldr (fun e m => delete (fst e) m) m l !! k = if bool_decide (k ∈ map fst l) then None else m !! k.
Proof.
  induction l as [|[a n] l IH]; cbn [foldr map fst]; [done|]. destruct (decide (k = a)) as [->|Hne].
  - rewrite lookup_delete_eq, bool_decide_true; [done|]. by left.
  - rewrite lookup_delete_ne by done. rewrite IH. assert (bool_decide (k ∈ a :: map fst l) = bool_decide (k ∈ map fst l)) as -> by (apply bool_decide_ext; rewrite elem_of_cons; naive_solver). done.
Qed.

Lemma evict_subseteq c : tc_cache (evict_oldest entries_of c) ⊆ tc_cache c.
Proof.
  unfold evict_oldest. destruct (_ =? 0)%N; [done|]. cbn. apply map_subseteq_spec. intros k e. rewrite foldr_delete_lookup. by case_bool_decide.
Qed.

(** Where two queries have the same key only when they hash the same bytes, an
    entry holds the analysis of every query that finds it. *)
Definition cache_sound (qs : list Query) (c : TreeSitterCache) : Prop :=
  forall k e q, tc_cache c !! k = Some e -> q ∈ qs -> query_key q = k -> ce_result e = analysis q.

Lemma ask_sound qs q c : (forall a b, a ∈ qs -> b ∈ qs -> query_key a = query_key b -> a = b) -> q ∈ qs -> cache_sound qs c ->
  snd (ask q c) = analysis q /\ cache_sound qs (fst (ask q c)).
Proof.
  intros Hinj Hq Hs. unfold ask, cached_analysis, get_or_insert. fold (query_key q). destruct (tc_cache c !! query_key q) as [e|] eqn:E; cbn [fst snd].
  - split; [by eapply Hs|]. intros k e' q' Hk Hq' Hkq. cbn in Hk. apply lookup_insert_Some in Hk as [[<- <-]|[Hne Hk]]; [|by eapply Hs].
    cbn. assert (q' = q) as -> by by apply Hinj. by eapply Hs.
  - split; [done|]. intros k e' q' Hk Hq' Hkq. cbn in Hk. apply lookup_insert_Some in Hk as [[<- <-]|[Hne Hk]].
    + cbn. assert (q' = q) as -> by by apply Hinj. done.
    + eapply (Hs k e' q'); [|done|done]. destruct (_ <=? _)%N; [|done]. by eapply lookup_weaken, (evict_subseteq (mkCache _ _ _ _)).
Qed.

Lemma ask_all_sound all qs c : (forall a b, a ∈ all -> b ∈ all -> query_key a = query_key b -> a = b) -> qs ⊆ all -> cache_sound all c ->
  snd (ask_all qs c) = map analysis qs.
Proof.
  intros Hinj. revert c. induction qs as [|q qs IH]; intros c Hsub Hs; cbn [ask_all map]; [done|].
  destruct (ask_sound all q c Hinj (Hsub q (list_elem_of_here _ _)) Hs) as [Hr Hs1]. destruct (ask q c) as [c1 x]. cbn in Hr, Hs1.
  specialize (IH c1 (fun y Hy => Hsub y (list_elem_of_further _ _ _ Hy)) Hs1). destruct (ask_all qs c1) as [c2 xs]. cbn in *. by subst.
Qed.

(** The cache is transparent.  With whitelists whose names are text, and a
    hash that does not collide on the bytes hashed in a history, the results
    handed out over the whole history, with hits, misses and evictions of any
    order, are those of the analysis itself; in particular the bytes hashed tell
    expression, language and level apart. *)
Theorem cache_transparent (qs : list Query) (max_entries : N)
  (Hplain : forall g, forallb plain (allowed g) = true)
  (Hhash : forall a b, a ∈ qs -> b ∈ qs -> query_key a = query_key b -> query_preimage allowed a = query_preimage allowed b) :
  snd (ask_all qs (cache_new max_entries)) = map analysis qs.
Proof.
  apply (ask_all_sound qs); [|done|].
  - intros a b Ha Hb E. apply (query_preimage_inj allowed); auto.
  - intros k e q Hk. cbn in Hk. by rewrite lookup_empty in Hk.
Qed.

(** ** Size *)

Lemma foldr_delete_size (l : list (string * N)) (m : gmap string CacheEntry) :
  List.NoDup (map fst l) -> (forall k, k ∈ map fst l -> is_Some (m !! k)) ->
  size (foldr (fun e m => delete (fst e) m) m l) = (size m - length l)%nat /\ (length l <= size m)%nat.
Proof.
  induction l as [|[a n] l IH]; intros Hnd Hin; cbn [foldr map fst length] in *; [lia|]. inversion Hnd as [|? ? Hni Hnd']; subst.
  destruct (IH Hnd' (fun k Hk => Hin k (list_elem_of_further _ _ _ Hk))) as [Hs Hl].
  assert (is_Some (foldr (fun e m => delete (fst e) m) m l !! a)) as Hsome.
  { rewrite foldr_delete_lookup, bool_decide_false; [apply Hin; left|]. by rewrite list_elem_of_In. }
  assert (size (delete a (foldr (fun e m => delete (fst e) m) m l)) = pred (size (foldr (fun e m => delete (fst e) m) m l))) as -> by by apply map_size_delete_Some.
  rewrite Hs. assert (size (foldr (fun e m => delete (fst e) m) m l) <> 0)%nat as Hnz by (rewrite map_size_ne_0_lookup; by exists a). lia.
Qed.

Lemma evicted_keys c : map fst (evicted entries_of c) ⊆ map fst (map_to_list (tc_cache c)) /\ List.NoDup (map fst (evicted entries_of c)).
Proof.
  unfold evicted. set (l := map _ (entries_of _)).
  assert (map fst l ≡ₚ map fst (map_to_list (tc_cache c))) as Hl by (subst l; rewrite map_map; cbn; apply Permutation_map, Hperm).
  assert (map fst (sort_by_access l) ≡ₚ map fst (map_to_list (tc_cache c))) as Hs by (rewrite <- Hl; apply Permutation_map, sort_by_access_perm).
  set (n := N.to_nat _). split.
  - intros k Hk. rewrite <- Hs. rewrite <- (take_drop n (sort_by_access l)), map_app. apply elem_of_app. by left.
  - eapply (List.NoDup_app_remove_r _ (map fst (drop n (sort_by_access l)))). rewrite <- map_app, take_drop. apply (Permutation_NoDup (Permutation_sym Hs)).
    apply NoDup_ListNoDup. apply (NoDup_fst_map_to_list (tc_cache c)).
Qed.

Lemma ask_size q c : (10 <= tc_max_entries c)%N -> (cache_len c <= tc_max_entries c)%N ->
  (cache_len (fst (ask q c)) <= tc_max_entries c)%N /\ tc_max_entries (fst (ask q c)) = tc_max_entries c.
Proof.
  intros Hmax Hlen. unfold ask, cached_analysis, get_or_insert. set (k := make_key _ _ _ _ _). destruct (tc_cache c !! k) as [e|] eqn:E; cbn [fst].
  - split; [|done]. unfold cache_len in *. cbn. rewrite map_size_insert_Some by by exists e. done.
  - unfold cache_len in *. cbn [tc_cache tc_max_entries]. set (c1 := mkCache _ _ _ _). destruct (N.leb_spec (tc_max_entries c) (N.of_nat (size (tc_cache c)))) as [Hfull|Hroom].
    + unfold evict_oldest. cbn [tc_max_entries c1]. assert (1 <= tc_max_entries c / 10)%N as Hd by (apply N.div_le_lower_bound; lia).
      destruct (N.eqb_spec (tc_max_entries c / 10) 0); [lia|]. cbn [tc_cache tc_max_entries]. split; [|done].
      destruct (evicted_keys c1) as [Hsub Hnd].
      destruct (foldr_delete_size (evicted entries_of c1) (tc_cache c1) Hnd) as [Hs Hl].
      { intros x Hx. apply Hsub in Hx. apply list_elem_of_fmap in Hx as ([x' e'] & -> & Hx). apply elem_of_map_to_list in Hx. by exists e'. }
      assert (1 <= length (evicted entries_of c1))%nat as Hone.
      { unfold evicted. rewrite length_take, sort_by_access_perm, length_map, Hperm, length_map_to_list. cbn [tc_max_entries tc_cache c1]. lia. }
      assert (S (size (foldr (fun e m => delete (fst e) m) (tc_cache c1) (evicted entries_of c1))) <= size (tc_cache c1))%nat as Hfin by (rewrite Hs; lia).
      assert (forall x y z : nat, (x <= y)%nat -> (y <= z)%nat -> (N.of_nat z <= tc_max_entries c)%N -> (N.of_nat x <= tc_max_entries c)%N) as Hle by lia.
      eapply Hle; [|exact Hfin|exact Hlen]. rewrite map_size_insert. case_match; [apply Nat.le_succ_diag_r|apply Nat.le_refl].
    + split; [|done]. cbn [tc_cache c1]. rewrite map_size_insert_None by done. lia.
Qed.

Lemma ask_all_size qs c : (10 <= tc_max_entries c)%N -> (cache_len c <= tc_max_entries c)%N ->
  (cache_len (fst (ask_all qs c)) <= tc_max_entries c)%N.
Proof.
  revert c. induction qs as [|q qs IH]; intros c Hmax Hlen; cbn [ask_all]; [done|].
  destruct (ask_size q c Hmax Hlen) as [H1 H2]. destruct (ask q c) as [c1 x]. cbn in H1, H2. specialize (IH c1). rewrite H2 in IH. specialize (IH Hmax H1).
  by destruct (ask_all qs c1).
Qed.

(** The cache stays within its limit, and forgets the oldest.  With a limit
    of at least ten entries, the cache never holds more than the limit, whatever
    is asked; and what an eviction removes was last used no later than anything
    it keeps. *)
Theorem cache_bounded (qs : list Query) (max_entries : N) (Hmax : (10 <= max_entries)%N) :
  (cache_len (fst (ask_all qs (cache_new max_entries))) <= max_entries)%N
  /\ forall c k e k' e', tc_cache c !! k = Some e -> tc_cache (evict_oldest entries_of c) !! k = None ->
     tc_cache (evict_oldest entries_of c) !! k' = Some e' -> (ce_last_access e <= ce_last_access e')%N.
Proof.
  split; [apply (ask_all_size qs (cache_new max_entries)); [done|cbn; unfold cache_len; cbn; rewrite map_size_empty; lia]|].
  intros c k e k' e' Hk Hgone Hkept. unfold evict_oldest in *. destruct (_ =? 0)%N; [congruence|]. cbn in Hgone, Hkept.
  rewrite foldr_delete_lookup in Hgone, Hkept. case_bool_decide as H2; [done|]. case_bool_decide as H1; [|congruence].
  set (l := map (fun e => (fst e, ce_last_access (snd e))) (entries_of (tc_cache c))) in *.
  assert (forall x y, tc_cache c !! x = Some y -> (x, ce_last_access y) ∈ sort_by_access l) as Hin.
  { intros x y Hx. rewrite sort_by_access_perm. subst l. apply list_elem_of_fmap. exists (x, y). split; [done|]. rewrite (Hperm _). by apply elem_of_map_to_list. }
  assert (forall x n, (x, n) ∈ sort_by_access l -> exists y, tc_cache c !! x = Some y /\ n = ce_last_access y) as Hout.
  { intros x n. rewrite sort_by_access_perm. subst l. intros Hx. apply list_elem_of_fmap in Hx as ([x' y] & [= -> ->] & Hx). rewrite (Hperm _) in Hx.
    apply elem_of_map_to_list in Hx. by exists y. }
  unfold evicted in H1, H2. fold l in H1, H2. set (n := N.to_nat _) in *.
  apply list_elem_of_fmap in H1 as ([x m] & Hx & H1). cbn in Hx. subst x. destruct (Hout k m) as (y & Hy & ->); [rewrite <- (take_drop n); apply elem_of_app; by left|].
  assert (y = e) as -> by congruence. apply (sorted_take_drop n (sort_by_access l) (k, ce_last_access e) (k', ce_last_access e')); [apply sort_by_access_sorted|done|].
  pose proof (Hin _ _ Hkept) as Hk'. rewrite <- (take_drop n (sort_by_access l)) in Hk'. apply elem_of_app in Hk' as [Hk'|Hk']; [|done].
  exfalso. apply H2. apply list_elem_of_fmap. by exists (k', ce_last_access e').
Qed.

(** Below ten entries nothing is ever evicted. *)
Lemma small_cache_never_evicts c : (tc_max_entries c < 10)%N -> evict_oldest entries_of c = c.
Proof. intros Hlt. unfold evict_oldest. by rewrite N.div_small. Qed.
End Use.

(** ** Instances *)

(** A hash that keeps short inputs apart. *)
Definition padded (l : list Byte.byte) : list Byte.byte := (l ++ replicate 32 (byte_of_N 255))%list.
Definition few_names (g : Grammar) : list string := match g with GPython => ["len"] | GGo => ["cap"] | GRust => [] end.
Definition few_queries : list Query := [mkQuery "a" GPython Strict; mkQuery "b" GGo Trusted; mkQuery "a" GPython Strict; mkQuery "a" GPython Trusted].
Definition count_length (q : Query) : TreeSitterResult := mkTS true [] [q_expression q] [] false.

Lemma cache_transparent_witness :
  snd (ask_all padded map_to_list few_names count_length few_queries (cache_new 10)) = map count_length few_queries.
Proof.
  apply (cache_transparent padded map_to_list few_names count_length few_queries 10).
  - intros []; by vm_compute.
  - intros a b Ha Hb. unfold few_queries in *. rewrite !elem_of_cons, elem_of_nil in Ha, Hb.
    destruct Ha as [->|[->|[->|[->|[]]]]], Hb as [->|[->|[->|[->|[]]]]]; vm_compute; done.
Defined.

Definition fourteen_queries : list Query := map (fun n => mkQuery (show_N (N.of_nat n)) GPython Trusted) (seq 0 14).

Lemma cache_bounded_witness :
  (cache_len (fst (ask_all padded map_to_list few_names count_length fourteen_queries (cache_new 10))) <= 10)%N.
Proof.
  assert (10 <= 10)%N as Hten by lia.
  exact (proj1 (cache_bounded padded map_to_list (fun m => reflexivity (map_to_list m)) few_names count_length fourteen_queries 10 Hten)).
Defined.

(** A small limit is no limit.  With a limit below ten the number of entries
    to evict rounds down to zero: a cache of at most three entries holds fourteen
    after fourteen queries. *)
Theorem small_cache_is_unbounded :
  cache_len (fst (ask_all padded map_to_list few_names count_length fourteen_queries (cache_new 3))) = 14%N
  /\ forall entries_of c, (tc_max_entries c < 10)%N -> evict_oldest entries_of c = c.
Proof. split; [by vm_compute|apply small_cache_never_evicts]. Qed.
