(* ===== verification/SafetyValidator.v ===== *)
(** * Expression validators

    [crates/detrix-core/src/entities/purity.rs],
    [crates/detrix-application/src/safety/validation_result.rs],
    [base_validator.rs], [python.rs], [go.rs], [rust.rs]: what a validator makes
    of the result of the syntax analysis.  The trait [BaseValidator] is a class
    of accessors; its provided methods are functions over it, and the two methods
    a language overrides are fields.

    [lower] is [str::to_lowercase] and [ord] the order in which a hash set is
    walked; the default configuration, whose patterns are ASCII, is run with the
    lower-casing of [RustStr]. *)

From Stdlib Require Import Strings.String Strings.Ascii.
From S2P Require Import Prelude RustStr Metric Language SafetyTables SafetyAnalysis.

Local Open Scope string_scope.
Local Arguments String.append !_ _ / : simpl nomatch.

(** ** Purity *)

Inductive PurityLevel : Type := Pure | UnknownPurity | Impure.
#[export] Instance PurityLevel_eq_dec : EqDecision PurityLevel.
Proof. solve_decision. Defined.

Definition purity_is_safe (p : PurityLevel) : bool := match p with Pure => true | _ => false end.
Definition needs_analysis (p : PurityLevel) : bool := match p with UnknownPurity => true | _ => false end.
Definition is_blocked (p : PurityLevel) : bool := match p with Impure => true | _ => false end.
Definition purity_combine (a b : PurityLevel) : PurityLevel :=
  match a, b with
  | Impure, _ | _, Impure => Impure
  | UnknownPurity, _ | _, UnknownPurity => UnknownPurity
  | Pure, Pure => Pure
  end.

Record ImpureCall : Type := mkImpureCall { ic_function_name : string; ic_reason : string; ic_call_path : string }.
Record PurityAnalysis : Type := mkPurityAnalysis {
  pa_level : PurityLevel; pa_impure_calls : list ImpureCall; pa_unknown_calls : list string; pa_max_depth_reached : bool
}.
Definition impure_call_new (name reason : string) : ImpureCall := mkImpureCall name reason "".
Definition pure_analysis : PurityAnalysis := mkPurityAnalysis Pure [] [] false.
Definition unknown_analysis (calls : list string) : PurityAnalysis := mkPurityAnalysis UnknownPurity [] calls false.
Definition impure_analysis (calls : list ImpureCall) : PurityAnalysis := mkPurityAnalysis Impure calls [] false.
Definition add_impure_call (c : ImpureCall) (a : PurityAnalysis) : PurityAnalysis :=
  mkPurityAnalysis Impure (pa_impure_calls a ++ [c])%list (pa_unknown_calls a) (pa_max_depth_reached a).
Definition add_unknown_call (name : string) (a : PurityAnalysis) : PurityAnalysis :=
  mkPurityAnalysis (if bool_decide (pa_level a <> Impure) then UnknownPurity else pa_level a) (pa_impure_calls a)
    (pa_unknown_calls a ++ [name])%list (pa_max_depth_reached a).
Definition analysis_combine (a b : PurityAnalysis) : PurityAnalysis :=
  mkPurityAnalysis (purity_combine (pa_level a) (pa_level b)) (pa_impure_calls a ++ pa_impure_calls b)%list
    (pa_unknown_calls a ++ pa_unknown_calls b)%list (pa_max_depth_reached a || pa_max_depth_reached b).

(** ** Validation results *)

Record ResolvedFunction : Type := mkResolved { rf_name : string; rf_resolution : string; rf_source : string }.
Record ValidationResult : Type := mkVR {
  vr_is_safe : bool;
  vr_purity : PurityLevel;
  vr_errors : list string;
  vr_warnings : list string;
  vr_function_calls : list string;
  vr_unknown_functions : list string;
  vr_impure_functions : list string;
  vr_resolved : list ResolvedFunction
}.
Definition vr_safe : ValidationResult := mkVR true Pure [] [] [] [] [] [].

(** ** Validators *)

Record ValidatorData : Type := mkValidatorData {
  allowed_functions : list string;
  prohibited_functions : list string;
  sensitive_patterns : list string;
  variable_whitelist : list string
}.

Class BaseValidator (V : Type) : Type := {
  validator_data : V -> ValidatorData;
  extract_base_name : V -> string -> string;
  check_sensitive_pattern : (string -> string) -> V -> string -> option string
}.

(** [iter().find]. *)
Fixpoint find_string (f : string -> bool) (l : list string) : option string :=
  match l with [] => None | x :: r => if f x then Some x else find_string f r end.

Definition matches_sensitive_pattern_base (lower : string -> string) (d : ValidatorData) (var_name : string) : option string :=
  find_string (fun pattern => contains (lower pattern) (lower var_name)) (sensitive_patterns d).

(** [s.replace(c, with)] for a single character. *)
Fixpoint replace_char (c : ascii) (by_ s : string) : string :=
  match s with
  | EmptyString => ""
  | String a r => if Ascii.eqb a c then by_ ++ replace_char c by_ r else String a (replace_char c by_ r)
  end.

Definition dot_base_name (func_name : string) : string := after_last "." func_name.

Record PythonValidator : Type := mkPythonValidator { pv_data : ValidatorData }.
Record GoValidator : Type := mkGoValidator { gv_data : ValidatorData }.
Record RustValidator : Type := mkRustValidator { rv_data : ValidatorData }.

Definition go_check_sensitive_pattern (lower : string -> string) (d : ValidatorData) (var_name : string) : option string :=
  match matches_sensitive_pattern_base lower d var_name with
  | Some p => Some p
  | None => find_string (fun pattern => contains (lower (replace_char "_" "" pattern)) (lower var_name)) (sensitive_patterns d)
  end.
Definition rust_check_sensitive_pattern (lower : string -> string) (d : ValidatorData) (var_name : string) : option string :=
  match matches_sensitive_pattern_base lower d var_name with
  | Some p => Some p
  | None => find_string (fun pattern => contains (lower (replace_char "-" "_" pattern)) (lower var_name)) (sensitive_patterns d)
  end.
Definition rust_extract_base_name (func_name : string) : string := after_last "." (after_last "::" func_name).

#[export] Instance python_base : BaseValidator PythonValidator := {|
  validator_data := pv_data;
  extract_base_name _ f := dot_base_name f;
  check_sensitive_pattern lower v x := matches_sensitive_pattern_base lower (pv_data v) x
|}.
#[export] Instance go_base : BaseValidator GoValidator := {|
  validator_data := gv_data;
  extract_base_name _ f := dot_base_name f;
  check_sensitive_pattern lower v x := go_check_sensitive_pattern lower (gv_data v) x
|}.
#[export] Instance rust_base : BaseValidator RustValidator := {|
  validator_data := rv_data;
  extract_base_name _ f := rust_extract_base_name f;
  check_sensitive_pattern lower v x := rust_check_sensitive_pattern lower (rv_data v) x
|}.

Definition python_validator_new (c : LangSafetyConfig) : PythonValidator :=
  mkPythonValidator (mkValidatorData (python_allowed_set c) (python_prohibited_set c) (lc_sensitive_patterns c) (lc_variable_whitelist c)).
Definition go_validator_new (c : LangSafetyConfig) : GoValidator :=
  mkGoValidator (mkValidatorData (go_allowed_set c) (go_prohibited_set c) (lc_sensitive_patterns c) (lc_variable_whitelist c)).
Definition rust_validator_new (c : LangSafetyConfig) : RustValidator :=
  mkRustValidator (mkValidatorData (rust_allowed_set c) (rust_prohibited_set c) (lc_sensitive_patterns c) (lc_variable_whitelist c)).

Section Validate.
Context {V : Type} `{BaseValidator V} (lower : string -> string) (ord : list string -> list string) (v : V).
Notation d := (validator_data v).

Definition is_function_allowed_base (func_name : string) (level : SafetyLevel) : bool :=
  if in_set func_name (allowed_functions d) then true
  else if in_set func_name (prohibited_functions d) then false
  else match level with Strict => false | Trusted => true end.

Definition classify_function (func_name : string) : PurityLevel :=
  if in_set func_name (allowed_functions d) then Pure
  else if in_set func_name (prohibited_functions d) then Impure else UnknownPurity.

Definition classify_function_with_suffix (func_name : string) : PurityLevel :=
  if in_set func_name (allowed_functions d) then Pure
  else if in_set func_name (prohibited_functions d) then Impure
  else if existsb (fun a => ends_with a func_name) (allowed_functions d) then Pure
  else if existsb (fun p => ends_with p func_name) (prohibited_functions d) then Impure
  else UnknownPurity.

Definition prohibited_message (name : string) : string := "Prohibited function '" ++ name ++ "' detected (blacklisted)".
Definition unknown_message (func : string) : string :=
  "Unknown function '" ++ func ++ "' - purity cannot be determined without LSP analysis".
Definition not_whitelisted_message (var : string) : string := "Variable '" ++ var ++ "' is not in the allowed variable whitelist".
Definition sensitive_message (var pattern : string) : string :=
  "Sensitive variable '" ++ var ++ "' detected (matches pattern '" ++ pattern ++ "')".

(** The locals of the loop over the function calls. *)
Record Loop : Type := mkLoop {
  lp_errors : list string; lp_warnings : list string; lp_unknown : list string; lp_impure : list string; lp_purity : PurityLevel
}.

Definition block_call (name func : string) (s : Loop) : Loop :=
  mkLoop (lp_errors s ++ [prohibited_message name])%list (lp_warnings s) (lp_unknown s) (set_insert func (lp_impure s))
    (purity_combine (lp_purity s) Impure).

Definition classify_call (s : Loop) (func : string) : Loop :=
  let base_name := extract_base_name v func in
  if in_set func (allowed_functions d) || in_set base_name (allowed_functions d) then s
  else if in_set func (prohibited_functions d) then block_call func func s
  else if in_set base_name (prohibited_functions d) && negb (existsb (contains func) (lp_errors s)) then block_call base_name func s
  else mkLoop (lp_errors s) (lp_warnings s ++ [unknown_message func])%list (set_insert func (lp_unknown s)) (lp_impure s)
         (purity_combine (lp_purity s) UnknownPurity).

Definition check_variable (warnings : list string) (var : string) : list string :=
  match variable_whitelist d with
  | [] => match check_sensitive_pattern lower v var with
          | Some pattern => (warnings ++ [sensitive_message var pattern])%list
          | None => warnings
          end
  | ws => if existsb (fun w => String.eqb (lower w) (lower var)) ws then warnings
          else (warnings ++ [not_whitelisted_message var])%list
  end.

Definition has_sensitive_vars (warnings : list string) : bool :=
  existsb (fun w => contains "Sensitive variable" w || contains "not in the allowed variable whitelist" w) warnings.

Definition validate_ast_result (ast : TreeSitterResult) (initial_purity : PurityLevel) : ValidationResult :=
  let s := fold_left classify_call (ord (ts_function_calls ast)) (mkLoop (ts_violations ast) [] [] [] initial_purity) in
  let warnings := fold_left check_variable (ord (ts_variable_accesses ast)) (lp_warnings s) in
  mkVR (bool_decide (lp_errors s = []) && ts_is_safe ast && negb (has_sensitive_vars warnings))
    (lp_purity s) (lp_errors s) warnings (ts_function_calls ast) (lp_unknown s) (lp_impure s) [].
End Validate.

(** [ExpressionValidator::validate] of the three languages. *)
Section Languages.
Context (lower : string -> string) (ord : list string -> list string) (parse : SourceLanguage -> string -> option SyntaxTree).

Definition python_validate (v : PythonValidator) (expression : string) (level : SafetyLevel) : ValidationResult :=
  validate_ast_result lower ord v (analyze_python ord (parse Python) expression level (allowed_functions (pv_data v))) Pure.
Definition go_validate (v : GoValidator) (expression : string) (level : SafetyLevel) : ValidationResult :=
  validate_ast_result lower ord v (analyze_go ord (parse Go) expression level (allowed_functions (gv_data v))) Pure.
Definition rust_validate (v : RustValidator) (expression : string) (level : SafetyLevel) : ValidationResult :=
  let ast := analyze_rust ord (parse Rust) expression level (allowed_functions (rv_data v)) in
  validate_ast_result lower ord v ast (if ts_has_unsafe ast then Impure else Pure).
End Languages.

(** ** What a validator accepts *)

Section Accepted.
Context {V : Type} `{BaseValidator V} (lower : string -> string) (ord : list string -> list string) (Hord : forall l, ord l ≡ₚ l) (v : V).
Notation d := (validator_data v).

(** The whitelist, by the full or the base name, comes before the blacklist. *)
Definition call_whitelisted (func : string) : Prop := func ∈ allowed_functions d \/ extract_base_name v func ∈ allowed_functions d.
Definition call_ok (func : string) : Prop :=
  call_whitelisted func \/ (func ∉ prohibited_functions d /\ extract_base_name v func ∉ prohibited_functions d).
Definition variable_ok (x : string) : Prop :=
  match variable_whitelist d with
  | [] => check_sensitive_pattern lower v x = None
  | ws => exists w, w ∈ ws /\ lower w = lower x
  end.
(** Warnings that mark an expression unsafe. *)
Definition alarming (w : string) : bool := contains "Sensitive variable" w || contains "not in the allowed variable whitelist" w.

Lemma classify_call_errors s func :
  lp_errors (classify_call v s func) = [] <-> lp_errors s = [] /\ call_ok func.
Proof.
  unfold classify_call, call_ok, call_whitelisted.
  destruct (in_set func (allowed_functions d)) eqn:Ea; [apply in_set_spec in Ea; cbn; naive_solver|].
  destruct (in_set (extract_base_name v func) (allowed_functions d)) eqn:Eb; [apply in_set_spec in Eb; cbn; naive_solver|]. cbn [orb].
  apply in_set_false in Ea, Eb. destruct (in_set func (prohibited_functions d)) eqn:Ec.
  { apply in_set_spec in Ec. cbn. split; [by destruct (lp_errors s)|naive_solver]. }
  apply in_set_false in Ec. destruct (in_set (extract_base_name v func) (prohibited_functions d)) eqn:Ed.
  - apply in_set_spec in Ed. cbn [andb]. destruct (existsb (contains func) (lp_errors s)) eqn:Ee; cbn.
    + split; [intros Hz; by rewrite Hz in Ee|naive_solver].
    + split; [by destruct (lp_errors s)|naive_solver].
  - apply in_set_false in Ed. cbn. naive_solver.
Qed.

Lemma classify_call_purity s func :
  lp_purity (classify_call v s func) = Pure <-> lp_purity s = Pure /\ call_whitelisted func.
Proof.
  unfold classify_call, call_whitelisted.
  destruct (in_set func (allowed_functions d)) eqn:Ea; [apply in_set_spec in Ea; cbn; naive_solver|].
  destruct (in_set (extract_base_name v func) (allowed_functions d)) eqn:Eb; [apply in_set_spec in Eb; cbn; naive_solver|]. cbn [orb].
  apply in_set_false in Ea, Eb. destruct (in_set _ _); [|destruct (_ && _)]; cbn; (split; [by destruct (lp_purity s)|naive_solver]).
Qed.

Lemma classify_call_warnings s func : lp_errors (classify_call v s func) = [] ->
  (existsb alarming (lp_warnings (classify_call v s func)) = false
   <-> existsb alarming (lp_warnings s) = false /\ (call_whitelisted func \/ alarming (unknown_message func) = false)).
Proof.
  intros He. pose proof He as Hok. apply classify_call_errors in Hok as [Hs Hok]. unfold classify_call, call_whitelisted in *.
  destruct (in_set func (allowed_functions d)) eqn:Ea; [apply in_set_spec in Ea; cbn; naive_solver|].
  destruct (in_set (extract_base_name v func) (allowed_functions d)) eqn:Eb; [apply in_set_spec in Eb; cbn; naive_solver|]. cbn [orb] in *.
  apply in_set_false in Ea, Eb. destruct (in_set func (prohibited_functions d)); [cbn in He; by destruct (lp_errors s)|].
  destruct (_ && _); [cbn in He; by destruct (lp_errors s)|]. cbn [lp_warnings]. rewrite existsb_app. cbn [existsb]. rewrite orb_false_r, orb_false_iff. naive_solver.
Qed.

(** The loop over the calls. *)
Lemma classify_calls l s :
  let s' := fold_left (classify_call v) l s in
  (lp_errors s' = [] <-> lp_errors s = [] /\ forall f, f ∈ l -> call_ok f)
  /\ (lp_purity s' = Pure <-> lp_purity s = Pure /\ forall f, f ∈ l -> call_whitelisted f)
  /\ (lp_errors s' = [] -> existsb alarming (lp_warnings s') = false
      <-> existsb alarming (lp_warnings s) = false /\ forall f, f ∈ l -> call_whitelisted f \/ alarming (unknown_message f) = false).
Proof.
  revert s. induction l as [|f l IH]; intros s; cbn [fold_left].
  { setoid_rewrite elem_of_nil. repeat split; try naive_solver. }
  destruct (IH (classify_call v s f)) as (H1 & H2 & H3). cbn zeta in *. setoid_rewrite elem_of_cons. split; [|split].
  - rewrite H1, classify_call_errors. naive_solver.
  - rewrite H2, classify_call_purity. naive_solver.
  - intros He. rewrite (H3 He). apply H1 in He as [He _]. rewrite (classify_call_warnings _ _ He). naive_solver.
Qed.

Lemma check_variable_alarm ws x :
  existsb alarming (check_variable lower v ws x) = false <-> existsb alarming ws = false /\ variable_ok x.
Proof.
  unfold check_variable, variable_ok. destruct (variable_whitelist d) as [|w l].
  - destruct (check_sensitive_pattern lower v x) as [p|]; [|naive_solver]. rewrite existsb_app. cbn [existsb].
    assert (alarming (sensitive_message x p) = true) as ->.
    { unfold alarming. apply orb_true_iff. left. apply contains_spec. exists "", (" '" ++ x ++ "' detected (matches pattern '" ++ p ++ "')"). done. }
    rewrite orb_true_r. naive_solver.
  - assert (existsb (fun w => String.eqb (lower w) (lower x)) (w :: l) = true <-> exists w', w' ∈ w :: l /\ lower w' = lower x) as He.
    { rewrite existsb_exists. setoid_rewrite String.eqb_eq. by setoid_rewrite list_elem_of_In. }
    destruct (existsb _ (w :: l)) eqn:E; [naive_solver|]. rewrite existsb_app. cbn [existsb].
    assert (alarming (not_whitelisted_message x) = true) as ->.
    { unfold alarming. apply orb_true_iff. right. apply contains_spec. exists ("Variable '" ++ x ++ "' is "), "". by rewrite !str_app_assoc. }
    rewrite orb_true_r. naive_solver.
Qed.

Lemma check_variables_alarm l ws :
  existsb alarming (fold_left (check_variable lower v) l ws) = false <-> existsb alarming ws = false /\ forall x, x ∈ l -> variable_ok x.
Proof.
  revert ws. induction l as [|x l IH]; intros ws; cbn [fold_left]; [setoid_rewrite elem_of_nil; naive_solver|].
  rewrite IH, check_variable_alarm. setoid_rewrite elem_of_cons. naive_solver.
Qed.

Lemma elem_of_ord x l : x ∈ ord l <-> x ∈ l.
Proof. by rewrite (Hord l). Qed.

(** The verdict, exactly. *)
Lemma validate_ast_result_safe ast p : (ts_is_safe ast = true <-> ts_violations ast = []) ->
  vr_is_safe (validate_ast_result lower ord v ast p) = true
  <-> ts_is_safe ast = true /\ (forall f, f ∈ ts_function_calls ast -> call_ok f /\ (call_whitelisted f \/ alarming (unknown_message f) = false))
      /\ forall x, x ∈ ts_variable_accesses ast -> variable_ok x.
Proof.
  intros Hw. unfold validate_ast_result. cbn [vr_is_safe]. set (s0 := mkLoop _ _ _ _ _).
  destruct (classify_calls (ord (ts_function_calls ast)) s0) as (H1 & _ & H3). cbn zeta in *. change (lp_errors s0) with (ts_violations ast) in H1.
  change (lp_warnings s0) with (@nil string) in H3. unfold has_sensitive_vars.
  change (fun w => contains "Sensitive variable" w || contains "not in the allowed variable whitelist" w) with alarming.
  rewrite !andb_true_iff, bool_decide_eq_true, negb_true_iff, check_variables_alarm. setoid_rewrite elem_of_ord.
  setoid_rewrite elem_of_ord in H1. setoid_rewrite elem_of_ord in H3. split.
  - intros [[He Hs] [Ha Hv]]. split; [done|]. split; [|done]. intros f Hf. apply (H3 He) in Ha as [_ Ha]. apply H1 in He as [_ He]. split; auto.
  - intros (Hs & Hf & Hv). assert (lp_errors (fold_left (classify_call v) (ord (ts_function_calls ast)) s0) = []) as He.
    { apply H1. split; [by apply Hw|]. intros f Hin. by apply Hf. }
    split; [done|]. split; [|done]. apply (H3 He). split; [done|]. intros f Hin. by apply Hf.
Qed.

Lemma classify_whitelisted l s : (forall f, f ∈ l -> call_whitelisted f) -> fold_left (classify_call v) l s = s.
Proof.
  induction l as [|f l IH]; intros Hl; cbn [fold_left]; [done|]. assert (classify_call v s f = s) as ->.
  { unfold classify_call. destruct (Hl f (list_elem_of_here _ _)) as [Hf|Hf]; apply in_set_spec in Hf; rewrite Hf; [done|]. by rewrite orb_true_r. }
  apply IH. intros g Hg. apply Hl. by right.
Qed.

Lemma check_variables_ok l ws : (forall x, x ∈ l -> variable_ok x) -> fold_left (check_variable lower v) l ws = ws.
Proof.
  induction l as [|x l IH]; intros Hl; cbn [fold_left]; [done|]. assert (check_variable lower v ws x = ws) as ->.
  { specialize (Hl x (list_elem_of_here _ _)). unfold variable_ok, check_variable in *. destruct (variable_whitelist d) as [|w k]; [by rewrite Hl|].
    destruct Hl as (w' & Hw' & E). assert (existsb (fun w => String.eqb (lower w) (lower x)) (w :: k) = true) as ->; [|done].
    apply existsb_exists. exists w'. split; [by apply list_elem_of_In|by apply String.eqb_eq]. }
  apply IH. intros y Hy. apply Hl. by right.
Qed.
End Accepted.

(** ** Accepted expressions *)

(** Every node of the tree passes the rules: it is no forbidden construct; a
    function it calls is whitelisted by its full or its base name or blacklisted
    by neither (the whitelist comes first), and at the strict level whitelisted; a
    variable it names, other than the object of an attribute access or of a method
    call, may be observed. *)
Definition tree_permitted {V : Type} `{BaseValidator V} (lower : string -> string) (v : V) (ns : NodeSpec) (extract : string -> list string)
    (level : SafetyLevel) (root : Node) : Prop :=
  forall x, x ∈ visits None root ->
    ns_forbidden ns x = false
    /\ (forall f, ns_call ns x = Some f -> call_ok v f /\ (level = Strict -> whitelisted (allowed_functions (validator_data v)) extract f))
    /\ (forall y, ns_variable ns x = Some y -> variable_ok lower v y).

Section Sound.
Context (lower : string -> string) (ord : list string -> list string) (Hord : forall l, ord l ≡ₚ l) (parse : SourceLanguage -> string -> option SyntaxTree).

Lemma validate_sound {V : Type} `{BaseValidator V} (v : V) parse1 src msg1 msg2 level analyze extract ns p :
  implements analyze ns ->
  vr_is_safe (validate_ast_result lower ord v (parse_and_analyze ord parse1 src msg1 msg2 level (allowed_functions (validator_data v)) analyze extract) p) = true ->
  exists tree, parse1 src = Some tree /\ tree_has_error tree = false /\ tree_permitted lower v ns extract level (tree_root tree).
Proof.
  intros Himp Hsafe. destruct (parse_and_analyze_spec ord Hord parse1 src msg1 msg2 level (allowed_functions (validator_data v)) analyze extract ns Himp) as (H1 & H2 & H3).
  cbn zeta in *. apply (validate_ast_result_safe lower ord Hord v) in Hsafe as (Hs & Hf & Hv); [|done].
  apply H1 in Hs as (tree & Hp & He & Ha). exists tree. split; [done|]. split; [done|]. destruct (H3 tree Hp He) as [Hc Hx].
  intros x Hin. destruct (Ha x Hin) as [Hn Hst]. split; [done|]. split.
  - intros f E. split; [apply Hf, Hc; by exists x|]. intros Hl. by apply Hst.
  - intros y E. apply Hv, Hx. by exists x.
Qed.

(** What a validator lets through has passed its rules.  For every configuration,
    every parser and every order in which sets are walked: an expression that
    the Python, Go or Rust validator declares safe was parsed without errors, and
    in its syntax tree no node is a forbidden construct, every function called is
    whitelisted or not on the blacklist (at the strict level: whitelisted), and
    every variable the analysis sees is on the variable whitelist or, without
    one, matches no sensitive pattern. *)
Theorem accepted_expressions_are_permitted (pv : PythonValidator) (gv : GoValidator) (rv : RustValidator) (expression : string) (level : SafetyLevel) :
  (vr_is_safe (python_validate lower ord parse pv expression level) = true ->
     exists tree, parse Python expression = Some tree /\ tree_has_error tree = false
       /\ tree_permitted lower pv python_spec extract_simple_base_name level (tree_root tree))
  /\ (vr_is_safe (go_validate lower ord parse gv expression level) = true ->
     exists tree, parse Go (go_wrapped expression) = Some tree /\ tree_has_error tree = false
       /\ tree_permitted lower gv go_spec extract_simple_base_name level (tree_root tree))
  /\ (vr_is_safe (rust_validate lower ord parse rv expression level) = true ->
     exists tree, parse Rust (rust_wrapped expression) = Some tree /\ tree_has_error tree = false
       /\ tree_permitted lower rv rust_spec extract_rust_base_name level (tree_root tree)).
Proof.
  split; [|split]; intros Hs.
  - by eapply (validate_sound pv), Hs; apply python_implements.
  - by eapply (validate_sound gv), Hs; apply go_implements.
  - by eapply (validate_sound rv), Hs; apply rust_implements.
Qed.

(** The strict Python validator decides exactly.  At the strict level an
    expression is accepted if and only if it parses without errors and its tree
    has no forbidden construct, no call outside the whitelist and no variable
    that must not be observed; and an accepted expression is reported pure, with
    no errors, no warnings and no unknown or impure functions. *)
Theorem python_strict_validation_exact (pv : PythonValidator) (expression : string) :
  let r := python_validate lower ord parse pv expression Strict in
  (vr_is_safe r = true <-> exists tree, parse Python expression = Some tree /\ tree_has_error tree = false
     /\ tree_permitted lower pv python_spec extract_simple_base_name Strict (tree_root tree))
  /\ (vr_is_safe r = true -> r = mkVR true Pure [] [] (vr_function_calls r) [] [] []).
Proof.
  cbn zeta. unfold python_validate, analyze_python.
  destruct (parse_and_analyze_spec ord Hord (parse Python) expression "Failed to parse Python expression" "Syntax error in Python expression" Strict
    (allowed_functions (pv_data pv)) analyze_python_node extract_simple_base_name python_spec python_implements) as (H1 & H2 & H3).
  set (ast := parse_and_analyze _ _ _ _ _ _ _ _ _) in *. cbn zeta in *.
  assert (forall f, whitelisted (allowed_functions (pv_data pv)) extract_simple_base_name f -> call_whitelisted pv f) as Hwl.
  { intros f [Hf|(n & Hn & Hf)]; [by left|]. right. apply list_elem_of_singleton in Hn as ->. exact Hf. }
  assert (vr_is_safe (validate_ast_result lower ord pv ast Pure) = true -> forall f, f ∈ ts_function_calls ast -> call_whitelisted pv f) as Hall.
  { intros Hs f Hf. apply (validate_ast_result_safe lower ord Hord pv) in Hs as (Hs & _ & _); [|done]. apply H1 in Hs as (tree & Hp & He & Ha).
    destruct (H3 tree Hp He) as [Hc _]. apply Hc in Hf as (x & Hx & E). apply Hwl. by eapply (Ha x Hx). }
  split; [split|].
  - intros Hs. by eapply (validate_sound pv), Hs; apply python_implements.
  - intros (tree & Hp & He & Hh). destruct (H3 tree Hp He) as [Hc Hx]. apply (validate_ast_result_safe lower ord Hord pv); [done|]. split; [|split].
    + apply H1. exists tree. split; [done|]. split; [done|]. intros x Hin. destruct (Hh x Hin) as (Hn & Hf & _). split; [done|]. intros _ f E. by apply Hf.
    + intros f Hf. apply Hc in Hf as (x & Hin & E). destruct (Hh x Hin) as (_ & Hf & _). destruct (Hf f E) as [Hok Hw]. split; [done|]. left. auto.
    + intros y Hy. apply Hx in Hy as (x & Hin & E). destruct (Hh x Hin) as (_ & _ & Hv). by apply Hv.
  - intros Hs. specialize (Hall Hs). pose proof Hs as Hs'. apply (validate_ast_result_safe lower ord Hord pv) in Hs' as (Hsafe & _ & Hv); [|done].
    apply H2 in Hsafe as Hviol. unfold validate_ast_result in *. cbn [vr_function_calls].
    rewrite (classify_whitelisted pv); [|intros f Hf; rewrite (Hord _) in Hf; by apply Hall]. cbn [lp_errors lp_warnings lp_purity lp_unknown lp_impure].
    rewrite (check_variables_ok lower pv); [|intros f Hf; rewrite (Hord _) in Hf; by apply Hv]. by rewrite Hviol, Hsafe.
Qed.
End Sound.

(** ** Instances *)

Definition leaf (kind : string) (field : option string) (text : string) : Node := mkNode kind field text [].

(** The trees of [f(arg)] and [recv.meth(arg)] in Python's grammar. *)
Definition py_module (text : string) (n : Node) : SyntaxTree :=
  mkTree (mkNode "module" None text [mkNode "expression_statement" None text [n]]) false.
Definition py_args (arg : string) : Node :=
  mkNode "argument_list" (Some "arguments") ("(" ++ arg ++ ")") (leaf "(" None "(" :: (if str_is_empty arg then [] else [leaf "identifier" None arg]) ++ [leaf ")" None ")"])%list.
Definition py_call (f arg : string) : SyntaxTree :=
  let text := f ++ "(" ++ arg ++ ")" in
  py_module text (mkNode "call" None text [leaf "identifier" (Some "function") f; py_args arg]).
Definition py_method_call (recv meth arg : string) : SyntaxTree :=
  let text := recv ++ "." ++ meth ++ "(" ++ arg ++ ")" in
  py_module text (mkNode "call" None text
    [mkNode "attribute" (Some "function") (recv ++ "." ++ meth) [leaf "identifier" (Some "object") recv; leaf "." None "."; leaf "identifier" (Some "attribute") meth];
     py_args arg]).

Definition default_python : PythonValidator := python_validator_new default_python_safety.

(** The default Python validator, run on a tree. *)
Definition run_python (tree : SyntaxTree) (level : SafetyLevel) : ValidationResult :=
  python_validate to_lowercase (fun l => l) (fun _ _ => Some tree) default_python "" level.

Lemma accepted_expressions_are_permitted_witness :
  tree_permitted to_lowercase default_python python_spec extract_simple_base_name Strict (tree_root (py_call "len" "items")).
Proof.
  destruct (accepted_expressions_are_permitted to_lowercase (fun l => l) (fun l => reflexivity l) (fun _ _ => Some (py_call "len" "items"))
    default_python (go_validator_new default_go_safety) (rust_validator_new default_rust_safety) "len(items)" Strict) as [Hp _].
  destruct Hp as (tree & [= <-] & _ & Hh); [by vm_compute|exact Hh].
Defined.

Lemma python_strict_validation_exact_witness :
  vr_is_safe (run_python (py_call "len" "items") Strict) = true
  /\ run_python (py_call "len" "items") Strict = mkVR true Pure [] [] ["len"] [] [] [].
Proof.
  destruct (python_strict_validation_exact to_lowercase (fun l => l) (fun l => reflexivity l) (fun _ _ => Some (py_call "len" "items")) default_python "") as [_ Hr].
  split; [by vm_compute|]. exact (Hr eq_refl).
Defined.

(** The built-in whitelist overrides the built-in blacklist.  A call is
    let through when the last component of its name is whitelisted, so in the
    default configuration the prohibited functions [shutil.copy], [requests.get],
    [httpx.get] and [aiohttp.get], and no other prohibited Python function, are
    accepted at both levels as pure, without a warning. *)
Theorem blacklisted_calls_accepted :
  List.filter (fun f => in_set (dot_base_name f) (python_allowed_set default_python_safety)) PYTHON_IMPURE_FUNCTIONS
    = ["shutil.copy"; "requests.get"; "httpx.get"; "aiohttp.get"]
  /\ (forall level, run_python (py_method_call "requests" "get" "url") level = mkVR true Pure [] [] ["requests.get"] [] [] [])
  /\ in_set "requests.get" (prohibited_functions (pv_data default_python)) = true
  /\ (forall level, vr_is_safe (run_python (py_method_call "subprocess" "run" "cmd") level) = false).
Proof. split; [by vm_compute|]. split; [intros []; by vm_compute|]. split; [by vm_compute|intros []; by vm_compute]. Qed.

(** A method call hides its receiver.  The object a method is called on is
    recorded neither as a variable nor by its name alone, so a sensitive
    variable is observed through any whitelisted method at the strict level,
    while the variable by itself is rejected, and then without a single violation
    in the list that is reported to the user. *)
Theorem sensitive_receiver_accepted :
  run_python (py_method_call "credentials" "items" "") Strict = mkVR true Pure [] [] ["credentials.items"] [] [] []
  /\ vr_is_safe (run_python (py_module "credentials" (leaf "identifier" None "credentials")) Strict) = false
  /\ vr_errors (run_python (py_module "credentials" (leaf "identifier" None "credentials")) Strict) = [].
Proof. split; [by vm_compute|]. split; by vm_compute. Qed.
