(* ===== verification/MetricService.v ===== *)
(** * The metric service

    [crates/detrix-application/src/services/metric_service/{mod,crud,toggle,validation}.rs]
    with [src/scope.rs] (tenant scopes) and the errors and warnings of
    [src/error.rs].  The service is the use-case layer: it validates a metric,
    stores it through the repository port, installs it through the adapter of
    its connection, and undoes the first when the second fails.

    An operation is a state transformer with the [?] of the source as its bind:
    it stops at the first error and keeps the effects made so far.  Repository
    and adapters are the interfaces [MetricRepository] and [DapAdapter]; the
    safety validators (tree-sitter, language servers), the file inspector and
    the anchor service are arguments, gathered in [Env].  One operation runs at
    a time. *)

From Stdlib Require Import Strings.String Strings.Ascii.
From stdpp Require Import gmap sorting.
From S2P Require Import Prelude RustStr CoreError Location Language Metric MetricRepo OutputParsers AdapterMetrics SafetyValidator.

Local Open Scope string_scope.
Local Arguments String.append !_ _ / : simpl nomatch.

(** ** Scopes *)

Inductive UserRole : Type := RoleAdmin | RoleUser.
Inductive MetricScope : Type :=
| ScopeAdmin
| ScopeUser (uid : string)
| ScopeAgent (user_id agent_id : string).

Definition can_read (s : MetricScope) (m : Metric) : bool :=
  match s with
  | ScopeAdmin => true
  | ScopeUser uid => bool_decide (m_user_id m = Some uid)
  | ScopeAgent uid _ => bool_decide (m_user_id m = Some uid)
  end.
Definition can_mutate (s : MetricScope) (m : Metric) : bool :=
  match s with
  | ScopeAdmin => true
  | ScopeUser uid => bool_decide (m_user_id m = Some uid)
  | ScopeAgent uid aid => bool_decide (m_user_id m = Some uid) && bool_decide (m_agent_id m = Some aid)
  end.
Definition extract_scope (user_id : string) (role : UserRole) (agent_id : option string) : MetricScope :=
  match role, agent_id with
  | RoleAdmin, _ => ScopeAdmin
  | RoleUser, Some aid => ScopeAgent user_id aid
  | RoleUser, None => ScopeUser user_id
  end.

(** ** Errors and warnings *)

(** Typed sub-errors are kept as their code and display text. *)
Inductive AppError : Type :=
| AppCore (e : Error)
| AppConfigTyped (code : ErrorCode) (msg : string)
| AppSafetyTyped (code : ErrorCode) (msg : string)
| AppFileInspectionTyped (code : ErrorCode) (msg : string)
| AppStorage (msg : string)
| AppConnectionNotFound (msg : string)
| AppOutput (msg : string)
| AppPartialGroupFailure (succeeded : N) (failures : list (string * string))
| AppRollbackFailure (primary rollback context : string)
| AppSubprocessTimeout (command : string) (timeout_ms : N)
| AppAuth (msg : string)
| AppAccessDenied (msg : string).

Definition app_code (e : AppError) : ErrorCode :=
  match e with
  | AppCore e => error_code e
  | AppConfigTyped c _ | AppSafetyTyped c _ | AppFileInspectionTyped c _ => c
  | AppStorage _ => StorageError
  | AppConnectionNotFound _ => ConnectionNotFound
  | AppOutput _ => OutputError
  | AppPartialGroupFailure _ _ => PartialGroupFailure
  | AppRollbackFailure _ _ _ => RollbackFailure
  | AppSubprocessTimeout _ _ => SubprocessTimeout
  | AppAuth _ => Unauthorized
  | AppAccessDenied _ => Forbidden
  end.

Definition is_rollback_failure (e : AppError) : bool :=
  match e with AppRollbackFailure _ _ _ => true | _ => false end.

Section Display.
(** [{:?}] of a [Vec<String>]. *)
Context (debug_strings : list string -> string).

Definition error_display (e : Error) : string :=
  match e with
  | InvalidMetricName s => "Invalid metric name: " ++ s
  | InvalidLocation s => "Invalid location format: " ++ s ++ ". Expected @file.py#line"
  | MetricNotFound s => "Metric not found: " ++ s
  | DuplicateMetric s => "Duplicate metric: " ++ s
  | MetricLocationConflict loc conn name id =>
      "Metric already exists at " ++ loc ++ " for connection " ++ conn ++ ": existing metric '" ++ name ++ "' (ID: " ++ show_N id ++ ")"
  | InvalidTenantId s => "Invalid tenant ID: " ++ s
  | SafetyViolation vs => "Safety violation: " ++ debug_strings vs
  | AstAnalysisFailed s => "AST analysis failed: " ++ s
  | Safety s => "Safety error: " ++ s
  | SafeModeViolation op conn => "SafeMode: " ++ op ++ " blocked - connection '" ++ conn ++ "' is in SafeMode (only logpoints allowed)"
  | InvalidConfig s => "Invalid configuration: " ++ s
  | InvalidExpression s => "Invalid expression: " ++ s
  | ExpressionTooLong len max => "Expression too long: " ++ show_N len ++ " > " ++ show_N max
  | Database s => "Database error: " ++ s
  | Serialization s => "Serialization error: " ++ s
  | Adapter s => "Adapter error: " ++ s
  | NotConnected s => "Not connected: " ++ s
  | Io s => "I/O error: " ++ s
  | Output s => "Output error: " ++ s
  | FileNotFound s => "File not found: " ++ s
  | RemoteApp s => "Remote app error: " ++ s
  end.

Definition app_display (e : AppError) : string :=
  match e with
  | AppCore e => error_display e
  | AppConfigTyped _ s | AppSafetyTyped _ s | AppFileInspectionTyped _ s => s
  | AppStorage s => "Storage error: " ++ s
  | AppConnectionNotFound s => "Connection not found: " ++ s
  | AppOutput s => "Output error: " ++ s
  | AppPartialGroupFailure n fs => "Partial group operation failure: " ++ show_N n ++ " succeeded, " ++ show_N (lenN fs) ++ " failed"
  | AppRollbackFailure p r _ => p ++ ". Additionally, rollback failed: " ++ r
  | AppSubprocessTimeout c ms => "Subprocess '" ++ c ++ "' timed out after " ++ show_N ms ++ "ms"
  | AppAuth s => "Auth error: " ++ s
  | AppAccessDenied s => "Access denied: " ++ s
  end.
End Display.

Inductive OperationWarning : Type :=
| NoSafetyValidator (language metric_name : string)
| AdapterSyncFailed (metric_name error : string)
| BreakpointNotVerified (location : string) (line : N) (message : option string)
| MetricReplaced (replaced_name : string) (replaced_id : N) (location : string)
| FetchFailed (context error : string)
| ExpressionsMerged (metric_name : string) (metric_id : N) (added : list string) (location : string)
| AnchorCaptureFailed (metric_name location error : string)
| PurityResolution (function_name resolution source : string).

Record OperationOutcome (A : Type) : Type := mkOutcome { oo_value : A; oo_warnings : list OperationWarning }.
Arguments mkOutcome {A} _ _.
Arguments oo_value {A} _.
Arguments oo_warnings {A} _.

Inductive SystemEvent : Type :=
| EvMetricAdded (id : N) (name conn : string)
| EvMetricRemoved (id : N) (name conn : string)
| EvMetricToggled (id : N) (name : string) (enabled : bool) (conn : string)
| EvMetricRelocated (id : N) (name : string) (old_line new_line : N) (symbol : option string) (conn : string)
| EvMetricOrphaned (id : N) (name last_known_location reason conn : string).

(** ** The ports the service calls *)

Class DapAdapter (A : Type) : Type := {
  adapter_set_metric : Metric -> A -> A * result SetMetricResult Error;
  adapter_remove_metric : Metric -> A -> A * result RemoveMetricResult Error
}.

Record LimitsConfig : Type := mkLimits { max_expression_length : N; max_expressions_per_metric : N }.

Record Env : Type := mkEnv {
  env_debug_strings : list string -> string;
  env_limits : LimitsConfig;
  (** the validator registry: languages with a validator, and its verdict *)
  env_supports_language : string -> bool;
  env_validate : string -> string -> SafetyLevel -> result ValidationResult AppError;
  (** purity analysis of the functions left unknown, for a source file *)
  env_resolve_purity : ValidationResult -> SourceLanguage -> string -> ValidationResult;
  (** the variables in scope at a line, when the file can be inspected *)
  env_inspect_line : string -> N -> result (option (list string)) string;
  env_capture_anchor : Location -> SourceLanguage -> result MetricAnchor string;
  (** the order in which a hash map of affected locations yields its values *)
  env_map_order : list Metric -> list Metric;
  env_now : Z
}.

Record ManagedAdapter (A : Type) : Type := mkManaged { ma_adapter : A; ma_safe_mode : bool }.
Arguments mkManaged {A} _ _.
Arguments ma_adapter {A} _.
Arguments ma_safe_mode {A} _.

Record Service (R A : Type) : Type := mkService {
  sv_storage : R;
  sv_adapters : gmap string (ManagedAdapter A);
  sv_vfs : list (string * string * string);
  sv_events : list SystemEvent
}.
Arguments mkService {R A} _ _ _ _.
Arguments sv_storage {R A} _.
Arguments sv_adapters {R A} _.
Arguments sv_vfs {R A} _.
Arguments sv_events {R A} _.

(** ** The service monad *)

Definition M (S X : Type) : Type := S -> S * result X AppError.
Definition m_ret {S X : Type} (x : X) : M S X := fun s => (s, Ok x).
Definition m_err {S X : Type} (e : AppError) : M S X := fun s => (s, Err e).
Definition m_bind {S X Y : Type} (m : M S X) (k : X -> M S Y) : M S Y :=
  fun s => match m s with (s', Ok x) => k x s' | (s', Err e) => (s', Err e) end.
(** [match op.await] without [?]: the error becomes a value. *)
Definition m_try {S X : Type} (m : M S X) : M S (result X AppError) := fun s => let '(s', r) := m s in (s', Ok r).
Definition m_lift {S X : Type} (r : result X AppError) : M S X := fun s => (s, r).

Declare Scope svc_scope.
Delimit Scope svc_scope with svc.
Notation "'let!' x := m 'in' k" := (m_bind m (fun x => k))
  (at level 200, x pattern, m at level 100, k at level 200, right associativity) : svc_scope.
Local Open Scope svc_scope.

(** Fields the service assigns. *)
Definition with_enabled (m : Metric) (b : bool) : Metric :=
  mkMetric (m_id m) (m_name m) (m_connection_id m) (m_group m) (m_location m) (m_expressions m) (m_language m)
    b (m_mode m) (m_condition m) (m_safety_level m) (m_created_at m) (m_user_id m) (m_agent_id m)
    (m_capture_stack_trace m) (m_stack_trace_ttl m) (m_stack_trace_slice m) (m_capture_memory_snapshot m)
    (m_snapshot_scope m) (m_snapshot_ttl m) (m_anchor m) (m_anchor_status m).
Definition with_expressions (m : Metric) (es : list string) : Metric :=
  mkMetric (m_id m) (m_name m) (m_connection_id m) (m_group m) (m_location m) es (m_language m)
    (m_enabled m) (m_mode m) (m_condition m) (m_safety_level m) (m_created_at m) (m_user_id m) (m_agent_id m)
    (m_capture_stack_trace m) (m_stack_trace_ttl m) (m_stack_trace_slice m) (m_capture_memory_snapshot m)
    (m_snapshot_scope m) (m_snapshot_ttl m) (m_anchor m) (m_anchor_status m).
Definition with_id (m : Metric) (id : option N) : Metric :=
  mkMetric id (m_name m) (m_connection_id m) (m_group m) (m_location m) (m_expressions m) (m_language m)
    (m_enabled m) (m_mode m) (m_condition m) (m_safety_level m) (m_created_at m) (m_user_id m) (m_agent_id m)
    (m_capture_stack_trace m) (m_stack_trace_ttl m) (m_stack_trace_slice m) (m_capture_memory_snapshot m)
    (m_snapshot_scope m) (m_snapshot_ttl m) (m_anchor m) (m_anchor_status m).
Definition with_anchor (m : Metric) (a : option MetricAnchor) (st : AnchorStatus) : Metric :=
  mkMetric (m_id m) (m_name m) (m_connection_id m) (m_group m) (m_location m) (m_expressions m) (m_language m)
    (m_enabled m) (m_mode m) (m_condition m) (m_safety_level m) (m_created_at m) (m_user_id m) (m_agent_id m)
    (m_capture_stack_trace m) (m_stack_trace_ttl m) (m_stack_trace_slice m) (m_capture_memory_snapshot m)
    (m_snapshot_scope m) (m_snapshot_ttl m) a st.

Definition with_line (m : Metric) (line : N) : Metric :=
  mkMetric (m_id m) (m_name m) (m_connection_id m) (m_group m) (mkLocation (loc_file (m_location m)) line) (m_expressions m) (m_language m)
    (m_enabled m) (m_mode m) (m_condition m) (m_safety_level m) (m_created_at m) (m_user_id m) (m_agent_id m)
    (m_capture_stack_trace m) (m_stack_trace_ttl m) (m_stack_trace_slice m) (m_capture_memory_snapshot m)
    (m_snapshot_scope m) (m_snapshot_ttl m) (m_anchor m) (m_anchor_status m).

Definition location_str (m : Metric) : string := loc_file (m_location m) ++ ":" ++ show_N (loc_line (m_location m)).

(** [collect::<BTreeSet<_>>()] read back in order. *)
Definition str_le (a b : string) : Prop := String.leb a b = true.
#[export] Instance str_le_dec : RelDecision str_le := fun a b => decide (String.leb a b = true).
Definition sorted_set (es : list string) : list string := merge_sort str_le (remove_dups es).

(** ** Validation *)

Definition requires_breakpoint (m : Metric) : bool := needs_introspection m || is_go_function_call m.

Definition safe_mode_operation (m : Metric) : string :=
  if is_go_function_call m && negb (needs_introspection m) then "Go function call (requires breakpoint)"
  else String.concat " and "
         ((if m_capture_stack_trace m then ["capture_stack_trace"] else [])
          ++ (if m_capture_memory_snapshot m then ["capture_memory_snapshot"] else [])
          ++ (if is_go_function_call m then ["Go function call"] else []))%list.

Definition validate_safe_mode (safe_mode : option bool) (m : Metric) : result unit AppError :=
  if negb (requires_breakpoint m) then Ok tt
  else match safe_mode with
       | Some true => Err (AppCore (SafeModeViolation (safe_mode_operation m) (m_connection_id m)))
       | Some false => Ok tt
       | None =>
           let feature := if is_go_function_call m && negb (needs_introspection m)
                          then "Go function calls (they require breakpoints)"
                          else "capture_stack_trace or capture_memory_snapshot" in
           Err (AppConnectionNotFound ("Connection '" ++ m_connection_id m
                 ++ "' not active. Start the connection before adding metrics with " ++ feature ++ "."))
       end.

Section Validation.
Context (env : Env).

(** One expression: the static verdict, then purity of the unknown functions. *)
Definition check_expression (m : Metric) (expr : string) : result (list OperationWarning) AppError :=
  let? r := env_validate env (lang_as_str (m_language m)) expr (m_safety_level m) in
  if negb (vr_is_safe r) then Err (AppCore (SafetyViolation (vr_errors r)))
  else if bool_decide (m_safety_level m = Trusted) && negb (bool_decide (vr_unknown_functions r = [])) then
    let r := env_resolve_purity env r (m_language m) (loc_file (m_location m)) in
    if negb (vr_is_safe r) then Err (AppCore (SafetyViolation (vr_errors r)))
    else Ok (map (fun f => PurityResolution (rf_name f) (rf_resolution f) (rf_source f)) (vr_resolved r))
  else Ok [].

Definition validate_metric_fields (m : Metric) : result (list OperationWarning) AppError :=
  let? _ := map_err AppCore (validate_name (m_name m)) in
  if bool_decide (m_expressions m = []) || forallb (fun e => str_is_empty (trim e)) (m_expressions m)
  then Err (AppCore (InvalidExpression "Expression cannot be empty")) else
  if (max_expressions_per_metric (env_limits env) <? lenN (m_expressions m))%N
  then Err (AppCore (InvalidExpression ("Too many expressions: " ++ show_N (lenN (m_expressions m)) ++ " (max "
              ++ show_N (max_expressions_per_metric (env_limits env)) ++ ")"))) else
  let? _ := map_err AppCore (validate_expressions_length (m_expressions m) (max_expression_length (env_limits env))) in
  if env_supports_language env (lang_as_str (m_language m))
  then let? ws := collect_results (check_expression m) (m_expressions m) in Ok (List.concat ws)
  else Ok [NoSafetyValidator (lang_as_str (m_language m)) (m_name m)].

Definition has_scope_validation (l : SourceLanguage) : bool :=
  match l with Python | Go | Rust => true | _ => false end.

(** Expressions the static scope check looks at. *)
Definition simple_expressions (m : Metric) : list string :=
  List.filter (fun e => negb (contains "." e) && negb (contains "(" e) && negb (contains "[" e)) (map trim (m_expressions m)).

Definition scope_error (m : Metric) (vars : list string) (expr : string) : AppError :=
  AppCore (InvalidExpression ("Variable '" ++ expr ++ "' is not in scope at " ++ loc_file (m_location m) ++ ":"
    ++ show_N (loc_line (m_location m)) ++ ". Available variables: "
    ++ (if bool_decide (vars = []) then "none" else String.concat ", " vars))).

Definition validate_expression_scope (m : Metric) : result unit AppError :=
  if negb (has_scope_validation (m_language m)) then Ok tt
  else match env_inspect_line env (loc_file (m_location m)) (loc_line (m_location m)) with
       | Err _ => Ok tt
       | Ok inspection =>
           match simple_expressions m, inspection with
           | [], _ => Ok tt
           | _, None => Ok tt
           | es, Some vars => try_each (fun e => if bool_decide (e ∈ vars) then Ok tt else Err (scope_error m vars e)) es
           end
       end.

Definition validate_metric (m : Metric) : result (list OperationWarning) AppError :=
  let? ws := validate_metric_fields m in
  let? _ := validate_expression_scope m in
  Ok ws.
End Validation.

(** ** Operations *)

Section Operations.
Context {R A : Type} `{MetricRepository R} `{DapAdapter A}.
Context (env : Env).
Notation svc := (M (Service R A)).
Notation display := (app_display (env_debug_strings env)).
Notation core_display := (error_display (env_debug_strings env)).

(** A repository call; [?] turns its error into an application error. *)
Definition storage {X : Type} (k : R -> R * result X Error) : svc X :=
  fun s => let '(r, x) := k (sv_storage s) in
           (mkService r (sv_adapters s) (sv_vfs s) (sv_events s), map_err AppCore x).

Definition no_adapter (conn : string) : AppError :=
  AppConnectionNotFound ("No adapter found for connection '" ++ conn ++ "'").

(** [get_adapter_for_connection]; the adapter itself is shared, so a call on it
    goes through the map. *)
Definition get_adapter (conn : string) : svc unit :=
  fun s => (s, match sv_adapters s !! conn with Some _ => Ok tt | None => Err (no_adapter conn) end).
Definition on_adapter {X : Type} (conn : string) (k : A -> A * result X Error) : svc X :=
  fun s => match sv_adapters s !! conn with
           | None => (s, Err (no_adapter conn))
           | Some ma => let '(a, x) := k (ma_adapter ma) in
                        (mkService (sv_storage s) (<[conn := mkManaged a (ma_safe_mode ma)]> (sv_adapters s)) (sv_vfs s) (sv_events s),
                         map_err AppCore x)
           end.
(** [if let Ok(adapter) = get_adapter(..) { if let Err(e) = call { warn! } }] *)
Definition quietly {X : Type} (conn : string) (k : A -> A * result X Error) : svc unit :=
  let! _ := m_try (on_adapter conn k) in m_ret tt.

Definition emit (e : SystemEvent) : svc unit :=
  fun s => (mkService (sv_storage s) (sv_adapters s) (sv_vfs s) (sv_events s ++ [e])%list, Ok tt).
Definition vfs_store (conn file content : string) : svc unit :=
  fun s => (mkService (sv_storage s) (sv_adapters s) (sv_vfs s ++ [(conn, file, content)])%list (sv_events s), Ok tt).
Definition safe_mode_of (conn : string) : svc (option bool) := fun s => (s, Ok (ma_safe_mode <$> sv_adapters s !! conn)).

Definition check_mutate_access (scope : MetricScope) (m : Metric) : result unit AppError :=
  if can_mutate scope m then Ok tt
  else Err (AppAccessDenied ("Cannot mutate metric '" ++ m_name m ++ "' (id="
              ++ match m_id m with Some id => "Some(" ++ show_N id ++ ")" | None => "None" end ++ ")")).

(** [sync_logpoint] *)
Definition merged_logpoint (enabled : list Metric) : option Metric :=
  match enabled with
  | template :: _ =>
      match sorted_set (List.concat (map m_expressions enabled)) with
      | [] => None
      | es => Some (with_expressions template es)
      end
  | [] => None
  end.

Definition sync_logpoint (conn file : string) (line : N) (fallback : option Metric) : svc unit :=
  let! all_metrics := storage (repo_find_all_at_location conn file line) in
  match merged_logpoint (List.filter m_enabled all_metrics) with
  | None =>
      match (match fallback with Some m => Some m | None => head all_metrics end) with
      | Some m => quietly conn (adapter_remove_metric m)
      | None => m_ret tt
      end
  | Some merged => quietly conn (adapter_set_metric merged)
  end.

Definition import_metric (m : Metric) : svc N :=
  let! _ := m_lift (validate_metric_fields env m) in
  storage (repo_save (env_now env) m).

(** The replace branch of [add_metric]. *)
Definition replace_existing (m existing : Metric) (warnings : list OperationWarning) : svc (list OperationWarning) :=
  match m_id existing with
  | None => m_err (AppStorage "Stored metric missing ID - database integrity issue")
  | Some existing_id =>
      let! _ := if m_enabled existing then quietly (m_connection_id m) (adapter_remove_metric existing) else m_ret tt in
      let! _ := storage (repo_delete existing_id) in
      m_ret (warnings ++ [MetricReplaced (m_name existing) existing_id (location_str m)])%list
  end.

(** The merge branch: new expressions are appended to the metric that is there. *)
Definition new_expressions (m existing : Metric) : list string :=
  List.filter (fun e => negb (bool_decide (e ∈ m_expressions existing))) (m_expressions m).

Definition merge_into_existing (m existing : Metric) (warnings : list OperationWarning) : svc (OperationOutcome N) :=
  match m_id existing with
  | None => m_err (AppStorage ("Existing metric '" ++ m_name existing ++ "' at " ++ location_str m ++ " missing ID - database integrity issue"))
  | Some existing_id =>
      match new_expressions m existing with
      | [] => m_ret (mkOutcome existing_id warnings)
      | new_exprs =>
          let merged := with_expressions existing (m_expressions existing ++ new_exprs)%list in
          let! _ := storage (repo_update merged) in
          let! _ := if m_enabled merged
                    then (let! _ := quietly (m_connection_id m) (adapter_remove_metric existing) in
                          quietly (m_connection_id m) (adapter_set_metric merged))
                    else m_ret tt in
          m_ret (mkOutcome existing_id (warnings ++ [ExpressionsMerged (m_name existing) existing_id new_exprs (location_str m)])%list)
      end
  end.

(** Anchor, save, install; the saved metric is deleted again when the adapter refuses it. *)
Definition capture_anchor (m : Metric) : Metric * list OperationWarning :=
  match env_capture_anchor env (m_location m) (m_language m) with
  | Ok a => (with_anchor m (Some a) Verified, [])
  | Err e => (with_anchor m (m_anchor m) Unanchored, [AnchorCaptureFailed (m_name m) (location_str m) e])
  end.

Definition install (m : Metric) (id : N) : svc (list OperationWarning) :=
  let! _ := get_adapter (m_connection_id m) in
  let! set := m_try (on_adapter (m_connection_id m) (adapter_set_metric (with_id m (Some id)))) in
  match set with
  | Ok r => m_ret (if smr_verified r then [] else [BreakpointNotVerified (loc_file (m_location m)) (smr_line r) (smr_message r)])
  | Err e =>
      let! rollback := m_try (storage (repo_delete id)) in
      match rollback with
      | Ok _ => m_err e
      | Err rollback_err => m_err (AppRollbackFailure (display e) (display rollback_err) ("metric_id=" ++ show_N id))
      end
  end.

Definition insert_new (m : Metric) (warnings : list OperationWarning) : svc (OperationOutcome N) :=
  let '(anchored, anchor_warnings) := capture_anchor m in
  let! id := storage (repo_save (env_now env) anchored) in
  let! install_warnings := if m_enabled anchored then install anchored id else m_ret [] in
  let! _ := emit (EvMetricAdded id (m_name anchored) (m_connection_id anchored)) in
  m_ret (mkOutcome id (warnings ++ anchor_warnings ++ install_warnings)%list).

Definition add_metric (m : Metric) (replace : bool) (file_content : option string) : svc (OperationOutcome N) :=
  let! _ := match file_content with
            | Some content => vfs_store (m_connection_id m) (loc_file (m_location m)) content
            | None => m_ret tt
            end in
  let! mode := safe_mode_of (m_connection_id m) in
  let! _ := m_lift (validate_safe_mode mode m) in
  let! _ := m_lift (map_err AppCore (validate_tenant_ids (m_user_id m) (m_agent_id m))) in
  let! warnings := m_lift (validate_metric env m) in
  let! existing := storage (repo_find_by_location (m_connection_id m) (loc_file (m_location m)) (loc_line (m_location m))
                              (owner_of (m_user_id m))) in
  match existing with
  | Some ex =>
      if replace
      then let! warnings := replace_existing m ex warnings in insert_new m warnings
      else merge_into_existing m ex warnings
  | None => insert_new m warnings
  end.

Definition metric_or_not_found (id : N) (m : option Metric) : result Metric AppError :=
  ok_or m (AppCore (MetricNotFound ("Metric " ++ show_N id))).

Definition svc_remove_metric (id : N) (scope : MetricScope) : svc unit :=
  let! found := storage (repo_find_by_id id) in
  let! m := m_lift (metric_or_not_found id found) in
  let! _ := m_lift (check_mutate_access scope m) in
  let! _ := storage (repo_delete id) in
  let! _ := sync_logpoint (m_connection_id m) (loc_file (m_location m)) (loc_line (m_location m)) (Some m) in
  emit (EvMetricRemoved id (m_name m) (m_connection_id m)).

(** What [update_metric] does with the adapter, given the old enabled state. *)
Definition update_adapter (old : option Metric) (m : Metric) : svc unit :=
  let conn := m_connection_id m in
  match old with
  | Some o =>
      match m_enabled o, m_enabled m with
      | false, true => let! _ := on_adapter conn (adapter_set_metric m) in m_ret tt
      | true, false => let! _ := on_adapter conn (adapter_remove_metric m) in m_ret tt
      | true, true => let! _ := on_adapter conn (adapter_remove_metric o) in
                      let! _ := on_adapter conn (adapter_set_metric m) in m_ret tt
      | false, false => m_ret tt
      end
  | None => if m_enabled m then let! _ := on_adapter conn (adapter_set_metric m) in m_ret tt else m_ret tt
  end.

Definition update_metric (m : Metric) (scope : MetricScope) : svc (OperationOutcome unit) :=
  let! _ := m_lift (check_mutate_access scope m) in
  let! mode := safe_mode_of (m_connection_id m) in
  let! _ := m_lift (validate_safe_mode mode m) in
  let! _ := m_lift (validate_metric env m) in
  let! fetched := match m_id m with
                  | Some id => m_try (storage (repo_find_by_id id))
                  | None => m_ret (Ok None)
                  end in
  let '(old, warnings) := match fetched with
                          | Ok o => (o, [])
                          | Err e => (None, [FetchFailed ("old metric (id=" ++ default EmptyString (show_N <$> m_id m) ++ ") for comparison") (display e)])
                          end in
  let! _ := storage (repo_update m) in
  let! adapter := m_try (get_adapter (m_connection_id m)) in
  match adapter with
  | Err e => m_ret (mkOutcome tt (warnings ++ [AdapterSyncFailed (m_name m) (String.append "Failed to get adapter for connection: " (display e))])%list)
  | Ok _ => let! _ := update_adapter old m in m_ret (mkOutcome tt warnings)
  end.

Record ToggleMetricResult : Type := mkToggle {
  tg_storage_updated : bool; tg_dap_confirmed : bool; tg_actual_line : option N; tg_message : option string
}.

(** The adapter part of [toggle_metric], whose errors are rolled back. *)
Definition toggle_adapter (m : Metric) (enabled : bool) : svc unit :=
  let! _ := get_adapter (m_connection_id m) in
  let! all_at_loc := storage (repo_find_all_at_location (m_connection_id m) (loc_file (m_location m)) (loc_line (m_location m))) in
  let! _ := if enabled then m_ret tt
            else (let! _ := on_adapter (m_connection_id m) (adapter_remove_metric m) in m_ret tt) in
  match List.filter m_enabled all_at_loc with
  | [] => m_ret tt
  | template :: _ as ms =>
      let merged := with_expressions template (sorted_set (List.concat (map m_expressions ms))) in
      let! _ := on_adapter (m_connection_id m) (adapter_set_metric merged) in m_ret tt
  end.

(** Storage first, then the adapter; storage is restored when the adapter fails. *)
Definition toggle_stored (id : N) (m : Metric) (enabled : bool) : svc ToggleMetricResult :=
  let toggled := with_enabled m enabled in
  let! _ := storage (repo_update toggled) in
  let! outcome := m_try (toggle_adapter toggled enabled) in
  match outcome with
  | Err e =>
      let! rollback := m_try (storage (repo_update m)) in
      match rollback with
      | Ok _ => m_err e
      | Err rollback_err => m_err (AppRollbackFailure (display e) (display rollback_err) ("toggle metric '" ++ m_name m ++ "'"))
      end
  | Ok _ =>
      let! _ := emit (EvMetricToggled id (m_name m) enabled (m_connection_id m)) in
      m_ret (mkToggle true true (if enabled then Some (loc_line (m_location m)) else None) None)
  end.

Definition toggle_metric (id : N) (enabled : bool) (scope : MetricScope) : svc ToggleMetricResult :=
  let! found := storage (repo_find_by_id id) in
  let! m := m_lift (metric_or_not_found id found) in
  let! _ := m_lift (check_mutate_access scope m) in
  if Bool.eqb (m_enabled m) enabled then m_ret (mkToggle false true None (Some "No change needed")) else toggle_stored id m enabled.

Record GroupOperationResult : Type := mkGroup { go_succeeded : N; go_failed : list (string * string); go_skipped : N }.

(** The first loop of [enable_group] and [disable_group]: storage updates, and
    one metric per affected location. *)
Definition same_place (x y : Metric) : bool :=
  String.eqb (m_connection_id x) (m_connection_id y) && String.eqb (loc_file (m_location x)) (loc_file (m_location y))
  && (loc_line (m_location x) =? loc_line (m_location y))%N.

Fixpoint update_group (enabled : bool) (scope : MetricScope) (ms : list Metric) (acc : GroupOperationResult) (locs : list Metric)
    : svc (GroupOperationResult * list Metric) :=
  match ms with
  | [] => m_ret (acc, locs)
  | m :: rest =>
      if negb (can_mutate scope m)
      then update_group enabled scope rest (mkGroup (go_succeeded acc) (go_failed acc) (go_skipped acc + 1)) locs
      else if Bool.eqb (m_enabled m) enabled then update_group enabled scope rest acc locs
      else
        let toggled := with_enabled m enabled in
        let! r := m_try (storage (repo_update toggled)) in
        match r with
        | Err e => update_group enabled scope rest
                     (mkGroup (go_succeeded acc) (go_failed acc ++ [(m_name m, String.append "Storage error: " (display e))])%list (go_skipped acc)) locs
        | Ok _ => update_group enabled scope rest (mkGroup (go_succeeded acc + 1) (go_failed acc) (go_skipped acc))
                    (if existsb (same_place toggled) locs then locs else locs ++ [toggled])%list
        end
  end.

Fixpoint sync_all (locs : list Metric) : svc unit :=
  match locs with
  | [] => m_ret tt
  | m :: rest =>
      let! _ := m_try (sync_logpoint (m_connection_id m) (loc_file (m_location m)) (loc_line (m_location m)) (Some m)) in
      sync_all rest
  end.

Definition set_group (enabled : bool) (group : string) (scope : MetricScope) : svc GroupOperationResult :=
  let! ms := storage (repo_find_by_group group) in
  let! (r, locs) := update_group enabled scope ms (mkGroup 0 [] 0) [] in
  let! _ := sync_all (env_map_order env locs) in
  m_ret r.
Definition enable_group : string -> MetricScope -> svc GroupOperationResult := set_group true.
Definition disable_group : string -> MetricScope -> svc GroupOperationResult := set_group false.
End Operations.

(** ** Reasoning about operations

    [holds V P m s]: run from [s], operation [m] keeps the repository's
    invariant and the property [V] of every stored metric, and relates the
    stored metrics before and after by [P], whatever it returns. *)

(** Properties of metrics that survive what the service and the columns change. *)
Class Stable (V : Metric -> Prop) : Prop := {
  stable_saved now id m : V m -> V (saved_metric now id m);
  stable_updated old m : V m -> V (updated_metric old m);
  stable_enabled m b : V m -> V (with_enabled m b);
  stable_anchor m a st : V m -> V (with_anchor m a st);
  stable_line m line : V m -> V (with_line m line)
}.

Section Logic.
Context {R A : Type} `{HR : MetricRepository R} `{HL : !RepositoryLaws R} `{HA : DapAdapter A}.
Context (V : Metric -> Prop) `{HV : !Stable V}.
Notation svc := (M (Service R A)).

Definition contents (s : Service R A) : gmap N Metric := stored (sv_storage s).
Definition service_inv (s : Service R A) : Prop :=
  repo_inv (sv_storage s) /\ forall id m, contents s !! id = Some m -> V m.

Definition holds (P : relation (gmap N Metric)) {X : Type} (m : svc X) (s : Service R A) : Prop :=
  service_inv (fst (m s)) /\ P (contents s) (contents (fst (m s))).

Context (P : relation (gmap N Metric)) `{!PreOrder P}.

Lemma holds_same {X : Type} (m : svc X) s : service_inv s -> sv_storage (fst (m s)) = sv_storage s -> holds P m s.
Proof. unfold holds, service_inv, contents. by intros [? ?] ->. Qed.

Lemma holds_bind {X Y : Type} (m : svc X) (k : X -> svc Y) s :
  holds P m s -> (forall s' x, m s = (s', Ok x) -> holds P (k x) s') -> holds P (m_bind m k) s.
Proof.
  unfold holds, m_bind. destruct (m s) as [s' [x|e]]; cbn; [|done].
  intros [Hi Hp] Hk. destruct (Hk s' x eq_refl) as [Hi' Hp']. split; [done|]. by etransitivity.
Qed.

Lemma holds_try {X : Type} (m : svc X) s : holds P m s -> holds P (m_try m) s.
Proof. unfold holds, m_try. by destruct (m s) as [s' r]. Qed.

Lemma holds_ret {X : Type} (x : X) s : service_inv s -> holds P (m_ret x) s.
Proof. intros. by apply holds_same. Qed.
Lemma holds_lift {X : Type} (r : result X AppError) s : service_inv s -> holds P (m_lift r) s.
Proof. intros. by apply holds_same. Qed.
Lemma holds_err {X : Type} (e : AppError) s : service_inv s -> holds P (m_err (X := X) e) s.
Proof. intros. by apply holds_same. Qed.
Lemma holds_emit e s : service_inv s -> holds P (emit e) s.
Proof. intros. by apply holds_same. Qed.
Lemma holds_get_adapter conn s : service_inv s -> holds P (get_adapter conn) s.
Proof. intros. by apply holds_same. Qed.
Lemma holds_on_adapter {X : Type} conn (k : A -> A * result X Error) s : service_inv s -> holds P (on_adapter conn k) s.
Proof. intros. apply holds_same; [done|]. unfold on_adapter. destruct (sv_adapters s !! conn) as [ma|]; [|done]. by destruct (k _). Qed.
Lemma holds_quietly {X : Type} conn (k : A -> A * result X Error) s : service_inv s -> holds P (quietly conn k) s.
Proof.
  intros. apply holds_bind; [by apply holds_try, holds_on_adapter|]. intros s' x E. apply holds_ret.
  pose proof (holds_try _ _ (holds_on_adapter conn k s ltac:(done))) as [Hi _]. by rewrite E in Hi.
Qed.

(** A state an operation reached still satisfies the invariant. *)
Lemma holds_inv {X : Type} (m : svc X) s s' r : holds P m s -> m s = (s', r) -> service_inv s'.
Proof. intros [Hi _] E. by rewrite E in Hi. Qed.

Lemma holds_rel {X : Type} (m : svc X) s s' r : holds P m s -> m s = (s', r) -> P (contents s) (contents s').
Proof. intros [_ Hp] E. by rewrite E in Hp. Qed.

Lemma holds_find_by_id id s : service_inv s ->
  holds P (storage (repo_find_by_id id)) s /\
  forall s' o, storage (repo_find_by_id id) s = (s', Ok o) -> o = contents s !! id /\ contents s' = contents s.
Proof.
  intros Hs. pose proof (find_by_id_law (sv_storage s) id (proj1 Hs)) as Hlaw. unfold holds, storage, service_inv, contents.
  destruct (repo_find_by_id id (sv_storage s)) as [r x]. cbn. destruct Hlaw as (H1 & H2 & H3). rewrite H2. split; [by destruct Hs|].
  intros s' o [= <- E]. cbn. destruct x; [|done]. injection E as ->. auto.
Qed.

Lemma holds_find_all_at_location c f l s : service_inv s ->
  holds P (storage (repo_find_all_at_location c f l)) s /\
  forall s' ms, storage (repo_find_all_at_location c f l) s = (s', Ok ms) ->
    contents s' = contents s /\ forall m, m ∈ ms <-> exists id, contents s !! id = Some m /\ located c f l m.
Proof.
  intros Hs. pose proof (find_all_at_location_law (sv_storage s) c f l (proj1 Hs)) as Hlaw. unfold holds, storage, service_inv, contents.
  destruct (repo_find_all_at_location c f l (sv_storage s)) as [r x]. cbn. destruct Hlaw as (H1 & H2 & H3). rewrite H2. split; [by destruct Hs|].
  intros s' o [= <- E]. cbn. destruct x; [|done]. injection E as ->. auto.
Qed.

Lemma holds_find_by_group g s : service_inv s ->
  holds P (storage (repo_find_by_group g)) s /\
  forall s' ms, storage (repo_find_by_group g) s = (s', Ok ms) ->
    contents s' = contents s /\ forall m, m ∈ ms <-> exists id, contents s !! id = Some m /\ m_group m = Some g.
Proof.
  intros Hs. pose proof (find_by_group_law (sv_storage s) g (proj1 Hs)) as Hlaw. unfold holds, storage, service_inv, contents.
  destruct (repo_find_by_group g (sv_storage s)) as [r x]. cbn. destruct Hlaw as (H1 & H2 & H3). rewrite H2. split; [by destruct Hs|].
  intros s' o [= <- E]. cbn. destruct x; [|done]. injection E as ->. auto.
Qed.

Lemma holds_find_by_location c f l o s : service_inv s -> owner_ok o ->
  holds P (storage (repo_find_by_location c f l o)) s /\
  forall s' x, storage (repo_find_by_location c f l o) s = (s', Ok x) ->
    contents s' = contents s /\
    match x with
    | Some m => exists id, contents s !! id = Some m /\ located c f l m /\ owned o m
    | None => forall id m, contents s !! id = Some m -> ~ (located c f l m /\ owned o m)
    end.
Proof.
  intros Hs Ho. pose proof (find_by_location_law (sv_storage s) c f l o (proj1 Hs) Ho) as Hlaw. unfold holds, storage, service_inv, contents.
  destruct (repo_find_by_location c f l o (sv_storage s)) as [r x]. cbn. destruct Hlaw as (H1 & H2 & H3 & H4). rewrite H2. split; [by destruct Hs|].
  intros s' y [= <- E]. cbn. split; [done|]. destruct x as [[m|]|]; [| |done]; injection E as <-; [by apply H3 | by apply H4].
Qed.

(** Writes: what has to be checked of [P]. *)
Lemma holds_update m s : service_inv s -> storable m = true -> V m ->
  (forall id old, m_id m = Some id -> contents s !! id = Some old -> P (contents s) (<[id := updated_metric old m]> (contents s))) ->
  holds P (storage (repo_update m)) s.
Proof.
  intros Hs Hm HVm HP. pose proof (update_law (sv_storage s) m (proj1 Hs) Hm) as Hlaw. unfold holds, storage, service_inv, contents in *.
  destruct (repo_update m (sv_storage s)) as [r x]. cbn. destruct Hlaw as (H1 & H2). destruct Hs as [_ Hs].
  destruct x; [destruct H2 as (id & old & Hid & Hold & ->); split; [split; [done|]|by eauto] | by rewrite H2].
  intros j n [[<- <-]|[_ Hn]]%lookup_insert_Some; [by apply stable_updated | by eauto].
Qed.

Lemma holds_delete id s : service_inv s -> (is_Some (contents s !! id) -> P (contents s) (delete id (contents s))) ->
  holds P (storage (repo_delete id)) s.
Proof.
  intros Hs HP. pose proof (delete_law (sv_storage s) id (proj1 Hs)) as Hlaw. unfold holds, storage, service_inv, contents in *.
  destruct (repo_delete id (sv_storage s)) as [r x]. cbn. destruct Hlaw as (H1 & H2). destruct Hs as [_ Hs].
  destruct x; [destruct H2 as (Hid & ->); split; [split; [done|]|by eauto] | by rewrite H2].
  intros j n [_ Hn]%lookup_delete_Some. by eauto.
Qed.

Lemma holds_save now m s : service_inv s -> storable m = true -> V m ->
  (forall id, contents s !! id = None -> P (contents s) (<[id := saved_metric now id m]> (contents s))) ->
  holds P (storage (repo_save now m)) s.
Proof.
  intros Hs Hm HVm HP. pose proof (save_law (sv_storage s) now m (proj1 Hs) Hm) as Hlaw. unfold holds, storage, service_inv, contents in *.
  destruct (repo_save now m (sv_storage s)) as [r x]. cbn. destruct Hlaw as (H1 & H2). destruct Hs as [_ Hs].
  destruct x as [id|]; [destruct H2 as (Hid & ->); split; [split; [done|]|by eauto] | by rewrite H2].
  intros j n [[<- <-]|[_ Hn]]%lookup_insert_Some; [by apply stable_saved | by eauto].
Qed.

Lemma holds_sync_logpoint c f l fb s : service_inv s -> holds P (sync_logpoint c f l fb) s.
Proof.
  intros Hs. destruct (holds_find_all_at_location c f l s Hs) as [Hh _]. apply holds_bind; [done|].
  intros s' ms E. pose proof (holds_inv _ _ _ _ Hh E) as Hs'.
  destruct (merged_logpoint _); [by apply holds_quietly|]. destruct (match fb with Some m => Some m | None => head ms end); [by apply holds_quietly|by apply holds_ret].
Qed.
End Logic.

(** Step through a bind whose first operation is a pure value. *)
Tactic Notation "h_apply" uconstr(L) :=
  apply L; try lazymatch goal with |- PreOrder _ => apply _ | |- Stable _ => apply _ end.
Ltac svc_pure s' x E := h_apply holds_bind; [by h_apply holds_lift | intros s' x E; unfold m_lift in E; injection E as <- E].

(** ** Tenants *)

(** What a caller of [scope] may do to the stored metrics: those it cannot
    mutate stay as they are, no new ones appear, and its own stay its own. *)
Definition tenant_rel (scope : MetricScope) (a b : gmap N Metric) : Prop :=
  forall id, match a !! id with
             | None => b !! id = None
             | Some m => if can_mutate scope m then forall m', b !! id = Some m' -> can_mutate scope m' = true
                         else b !! id = Some m
             end.

#[export] Instance tenant_rel_preorder scope : PreOrder (tenant_rel scope).
Proof.
  split.
  - intros a id. destruct (a !! id) as [m|]; [|done]. destruct (can_mutate scope m) eqn:E; [|done]. by intros m' [= <-].
  - intros a b c Hab Hbc id. specialize (Hab id). specialize (Hbc id). destruct (a !! id) as [m|].
    + destruct (can_mutate scope m) eqn:Em.
      * destruct (b !! id) as [n|]; [|congruence]. rewrite (Hab n eq_refl) in Hbc. done.
      * rewrite Hab, Em in Hbc. done.
    + by rewrite Hab in Hbc.
Qed.

Lemma can_mutate_owner scope m n : m_user_id m = m_user_id n -> m_agent_id m = m_agent_id n -> can_mutate scope m = can_mutate scope n.
Proof. intros Hu Ha. destruct scope; cbn; by rewrite ?Hu, ?Ha. Qed.

Lemma tenant_rel_insert scope a id old m' :
  a !! id = Some old -> can_mutate scope old = true -> can_mutate scope m' = true -> tenant_rel scope a (<[id := m']> a).
Proof.
  intros Hold Hm Hm' j. destruct (decide (id = j)) as [->|Hne].
  - rewrite Hold, Hm, lookup_insert_eq. by intros ? [= <-].
  - rewrite lookup_insert_ne by done. destruct (a !! j) as [n|] eqn:E; [|done]. destruct (can_mutate scope n) eqn:En; [|done]. by intros ? [= <-].
Qed.

Lemma tenant_rel_delete scope a id old : a !! id = Some old -> can_mutate scope old = true -> tenant_rel scope a (delete id a).
Proof.
  intros Hold Hm j. destruct (decide (id = j)) as [->|Hne].
  - rewrite Hold, Hm, lookup_delete_eq. done.
  - rewrite lookup_delete_ne by done. destruct (a !! j) as [n|] eqn:E; [|done]. destruct (can_mutate scope n) eqn:En; [|done]. by intros ? [= <-].
Qed.

Section Tenants.
Context {R A : Type} `{HR : MetricRepository R} `{HL : !RepositoryLaws R} `{HA : DapAdapter A}.
Context (V : Metric -> Prop) `{HV : !Stable V}.
Context (env : Env) (scope : MetricScope).
Notation svc := (M (Service R A)).
Notation service_inv := (service_inv V).
Notation isolated := (holds V (tenant_rel scope)).

Lemma check_access_ok m u : check_mutate_access scope m = Ok u -> can_mutate scope m = true.
Proof. unfold check_mutate_access. by destruct (can_mutate scope m). Qed.

Lemma metric_or_not_found_ok id o m : metric_or_not_found id o = Ok m -> o = Some m.
Proof. by apply ok_or_ok. Qed.

(** Updating a metric the caller read and may mutate. *)
Lemma isolated_update (s : Service R A) id m' :
  service_inv s -> m_id m' = Some id -> storable m' = true -> V m' ->
  (forall old, contents s !! id = Some old -> can_mutate scope old = true) -> isolated (storage (repo_update m')) s.
Proof.
  intros Hs Hid Hst HVm Hmut. h_apply holds_update; [done|done|done|]. intros id' old Hid' Hold. assert (id' = id) as -> by congruence.
  eapply tenant_rel_insert; [done|by apply Hmut|]. rewrite <- (Hmut old Hold). by apply can_mutate_owner.
Qed.

Lemma isolated_remove id (s : Service R A) : service_inv s -> isolated (svc_remove_metric id scope) s.
Proof.
  intros Hs. unfold svc_remove_metric. destruct (holds_find_by_id V (tenant_rel scope) id s Hs) as [Hf Hv].
  h_apply holds_bind; [done|]. intros s1 o E. pose proof (holds_inv _ _ _ _ _ _ Hf E) as Hs1. destruct (Hv _ _ E) as [-> Hc].
  svc_pure s2 m Em. apply metric_or_not_found_ok in Em. svc_pure s3 u Hu. apply check_access_ok in Hu.
  assert (isolated (storage (repo_delete id)) s1) as Hd by (h_apply holds_delete; [done|]; intros _; rewrite Hc; by eapply tenant_rel_delete).
  h_apply holds_bind; [done|]. intros s4 [] E4. pose proof (holds_inv _ _ _ _ _ _ Hd E4) as Hs4.
  h_apply holds_bind; [by h_apply holds_sync_logpoint|]. intros s5 [] E5. h_apply holds_emit.
  by apply (holds_inv _ _ _ _ _ _ (holds_sync_logpoint V (tenant_rel scope) _ _ _ _ _ Hs4) E5).
Qed.

Lemma isolated_toggle_adapter m b (s : Service R A) : service_inv s -> isolated (toggle_adapter m b) s.
Proof.
  intros Hs. unfold toggle_adapter. h_apply holds_bind; [by h_apply holds_get_adapter|].
  intros s1 [] E1. pose proof (holds_inv V (tenant_rel scope) _ _ _ _ (holds_get_adapter _ _ _ _ Hs) E1) as Hs1.
  destruct (holds_find_all_at_location V (tenant_rel scope) (m_connection_id m) (loc_file (m_location m)) (loc_line (m_location m)) s1 Hs1) as [Hf _].
  h_apply holds_bind; [done|]. intros s2 ms E2. pose proof (holds_inv _ _ _ _ _ _ Hf E2) as Hs2.
  assert (forall X (k : A -> A * result X Error) s, service_inv s -> isolated (m_bind (on_adapter (m_connection_id m) k) (fun _ => m_ret tt)) s) as Hon.
  { intros X k s' Hs'. h_apply holds_bind; [by h_apply holds_on_adapter|]. intros s'' x E. h_apply holds_ret.
    by apply (holds_inv V (tenant_rel scope) _ _ _ _ (holds_on_adapter _ _ _ k _ Hs') E). }
  assert (isolated (if b then m_ret tt else let! _ := on_adapter (m_connection_id m) (adapter_remove_metric m) in m_ret tt)%svc s2) as Hrm
    by (destruct b; [by h_apply holds_ret | by apply Hon]).
  h_apply holds_bind; [exact Hrm|]. intros s3 [] E3. pose proof (holds_inv _ _ _ _ _ _ Hrm E3) as Hs3.
  destruct (List.filter m_enabled ms); [by h_apply holds_ret | by apply Hon].
Qed.

Lemma storable_with_enabled m b : storable (with_enabled m b) = storable m.
Proof. done. Qed.

Lemma isolated_toggle id b (s : Service R A) : service_inv s -> isolated (toggle_metric env id b scope) s.
Proof.
  intros Hs. unfold toggle_metric. destruct (holds_find_by_id V (tenant_rel scope) id s Hs) as [Hf Hv].
  h_apply holds_bind; [done|]. intros s1 o E. pose proof (holds_inv _ _ _ _ _ _ Hf E) as Hs1. destruct (Hv _ _ E) as [-> Hc].
  svc_pure s2 m Em. apply metric_or_not_found_ok in Em. rewrite <- Hc in Em. svc_pure s3 u Hu. apply check_access_ok in Hu.
  destruct (Bool.eqb (m_enabled m) b); [by h_apply holds_ret|]. unfold toggle_stored.
  destruct (stored_wf (sv_storage s1) id m (proj1 Hs1) Em) as (Hid & Hst & _).
  assert (isolated (storage (repo_update (with_enabled m b))) s1) as Hup
    by (eapply isolated_update; [done|exact Hid|done|by eapply stable_enabled, Hs1|]; intros old Hold; assert (old = m) as -> by congruence; done).
  h_apply holds_bind; [done|]. intros s4 [] E4. pose proof (holds_inv _ _ _ _ _ _ Hup E4) as Hs4.
  pose proof (isolated_toggle_adapter (with_enabled m b) b s4 Hs4) as Hta%holds_try.
  h_apply holds_bind; [exact Hta|]. intros s5 [[]|e] E5; pose proof (holds_inv _ _ _ _ _ _ Hta E5) as Hs5.
  - h_apply holds_bind; [by h_apply holds_emit|]. intros s6 [] E6. h_apply holds_ret. by apply (holds_inv V (tenant_rel scope) _ _ _ _ (holds_emit _ _ _ _ Hs5) E6).
  - assert (isolated (m_try (storage (repo_update m))) s5) as Hrb.
    { apply holds_try. eapply isolated_update; [done|exact Hid|done|by eapply Hs1|]. intros old Hold.
      pose proof (transitivity (holds_rel _ _ _ _ _ _ Hup E4) (holds_rel _ _ _ _ _ _ Hta E5) id) as Hrel.
      unfold contents in *. rewrite Em, Hu in Hrel. by apply Hrel. }
    h_apply holds_bind; [exact Hrb|]. intros s6 [[]|e'] E6; h_apply holds_err; exact (holds_inv _ _ _ _ _ _ Hrb E6).
Qed.

Lemma isolated_update_group b ms : forall acc locs (s0 s : Service R A),
  service_inv s0 -> service_inv s -> tenant_rel scope (contents s0) (contents s) ->
  (forall m, m ∈ ms -> exists id, contents s0 !! id = Some m) -> isolated (update_group env b scope ms acc locs) s.
Proof.
  induction ms as [|m ms IH]; intros acc locs s0 s Hs0 Hs Hrel Hms; cbn [update_group]; [by h_apply holds_ret|].
  assert (forall m, m ∈ ms -> exists id, contents s0 !! id = Some m) as Hrest by (intros; apply Hms; by right).
  destruct (can_mutate scope m) eqn:Hmut; cbn [negb]; [|by apply (IH _ _ s0)].
  destruct (Bool.eqb (m_enabled m) b); [by apply (IH _ _ s0)|].
  destruct (Hms m ltac:(left)) as (id & Hm). destruct (stored_wf (sv_storage s0) id m (proj1 Hs0) Hm) as (Hid & Hst & _).
  assert (isolated (m_try (storage (repo_update (with_enabled m b)))) s) as Hup.
  { apply holds_try. eapply isolated_update; [done|exact Hid|done|by eapply stable_enabled, Hs0|]. intros old Hold. specialize (Hrel id). rewrite Hm, Hmut in Hrel. by apply Hrel. }
  h_apply holds_bind; [exact Hup|]. intros s' [[]|e] E; (eapply IH; [exact Hs0|exact (holds_inv _ _ _ _ _ _ Hup E)|etransitivity; [exact Hrel|exact (holds_rel _ _ _ _ _ _ Hup E)]|done]).
Qed.

Lemma isolated_sync_all locs : forall (s : Service R A), service_inv s -> isolated (sync_all locs) s.
Proof.
  induction locs as [|m locs IH]; intros s Hs; cbn [sync_all]; [by h_apply holds_ret|].
  pose proof (holds_try _ _ _ _ (holds_sync_logpoint V (tenant_rel scope) (m_connection_id m) (loc_file (m_location m)) (loc_line (m_location m)) (Some m) s Hs)) as Hh.
  h_apply holds_bind; [exact Hh|]. intros s' r E. apply IH. exact (holds_inv _ _ _ _ _ _ Hh E).
Qed.

Lemma isolated_set_group b g (s : Service R A) : service_inv s -> isolated (set_group env b g scope) s.
Proof.
  intros Hs. unfold set_group. destruct (holds_find_by_group V (tenant_rel scope) g s Hs) as [Hf Hv].
  h_apply holds_bind; [done|]. intros s1 ms E1. pose proof (holds_inv _ _ _ _ _ _ Hf E1) as Hs1. destruct (Hv _ _ E1) as [Hc Hms].
  assert (isolated (update_group env b scope ms (mkGroup 0 [] 0) []) s1) as Hg.
  { eapply isolated_update_group; [exact Hs|done| |]; [by rewrite Hc|]. intros m (id & Hm & _)%Hms. eauto. }
  h_apply holds_bind; [exact Hg|]. intros s2 [r locs] E2. pose proof (holds_inv _ _ _ _ _ _ Hg E2) as Hs2.
  h_apply holds_bind; [by apply isolated_sync_all|]. intros s3 [] E3. h_apply holds_ret.
  exact (holds_inv _ _ _ _ _ _ (isolated_sync_all (env_map_order env locs) s2 Hs2) E3).
Qed.
End Tenants.

#[export] Instance stable_true : Stable (fun _ => True).
Proof. by constructor. Qed.

(** The operations a caller makes under a scope. *)
Inductive scoped_call : Type :=
| CallRemove (id : N)
| CallToggle (id : N) (enabled : bool)
| CallEnableGroup (group : string)
| CallDisableGroup (group : string).

Definition run_scoped {R A : Type} `{MetricRepository R} `{DapAdapter A} (env : Env) (scope : MetricScope) (c : scoped_call) (s : Service R A) : Service R A :=
  match c with
  | CallRemove id => fst (svc_remove_metric id scope s)
  | CallToggle id b => fst (toggle_metric env id b scope s)
  | CallEnableGroup g => fst (enable_group env g scope s)
  | CallDisableGroup g => fst (disable_group env g scope s)
  end.

(** ** A concrete adapter, for instances: it accepts the metrics its script says. *)
Record ScriptAdapter : Type := mkScript { sa_log : list (bool * Metric); sa_script : list bool }.
Definition script_answer {X : Type} (set : bool) (ok : X) (m : Metric) (a : ScriptAdapter) : ScriptAdapter * result X Error :=
  match sa_script a with
  | false :: rest => (mkScript (sa_log a) rest, Err (Adapter "refused"))
  | _ :: rest => (mkScript (sa_log a ++ [(set, m)])%list rest, Ok ok)
  | [] => (mkScript (sa_log a ++ [(set, m)])%list [], Ok ok)
  end.
#[export] Instance script_adapter : DapAdapter ScriptAdapter := {|
  adapter_set_metric m a := script_answer true (mkSMR true (loc_line (m_location m)) None) m a;
  adapter_remove_metric m a := script_answer false (mkRMR true None) m a
|}.

Definition sample_env : Env :=
  mkEnv (fun _ => EmptyString) (mkLimits 10000 20) (fun _ => true) (fun _ _ _ => Ok vr_safe) (fun r _ _ => r)
    (fun _ _ => Err "no file") (fun _ _ => Err "no anchor") (fun l => l) 1000.

Definition owned_metric (name user file : string) (line : N) (exprs : list string) : Metric :=
  mkMetric None name "conn" (Some "g") (mkLocation file line) exprs Python true Stream None Strict None (Some user) None
    false None None false None None None Unanchored.

Definition sample_service (script : list bool) : Service Table ScriptAdapter :=
  mkService empty_table {[ "conn" := mkManaged (mkScript [] script) false ]} [] [].

Lemma run_scoped_holds {R A : Type} `{HR : MetricRepository R} `{!RepositoryLaws R} `{HA : DapAdapter A}
  V `{!Stable V} (env : Env) (scope : MetricScope) (c : scoped_call) (s : Service R A) :
  service_inv V s -> service_inv V (run_scoped env scope c s) /\ tenant_rel scope (contents s) (contents (run_scoped env scope c s)).
Proof. intros Hs. destruct c; [by apply isolated_remove|by apply isolated_toggle|by apply isolated_set_group..]. Qed.

(** C24: tenants are isolated. Whatever a caller does through [remove_metric],
    [toggle_metric], [enable_group] and [disable_group], and whatever fails in
    the database or the debugger meanwhile, a stored metric its scope does not
    allow it to mutate stays exactly as it was. *)
Theorem tenant_isolation {R A : Type} `{HR : MetricRepository R} `{!RepositoryLaws R} `{HA : DapAdapter A}
  (env : Env) (scope : MetricScope) (calls : list scoped_call) (s : Service R A) id m
  (Hs : repo_inv (sv_storage s)) (Hm : contents s !! id = Some m) (Hdeny : can_mutate scope m = false) :
  contents (fold_left (fun s c => run_scoped env scope c s) calls s) !! id = Some m.
Proof.
  assert (service_inv (fun _ => True) s) as Hinv by by split.
  enough (tenant_rel scope (contents s) (contents (fold_left (fun s c => run_scoped env scope c s) calls s))) as Hrel.
  { specialize (Hrel id). by rewrite Hm, Hdeny in Hrel. }
  clear m Hm Hdeny Hs. revert s Hinv. induction calls as [|c calls IH]; intros s Hs; [done|]. cbn [fold_left].
  destruct (run_scoped_holds _ env scope c s Hs) as [H1 H2]. etransitivity; [exact H2|by apply IH].
Qed.

(** ** What is stored has been validated *)

(** Name, expressions and lengths as [validate_metric_fields] checks them. *)
Record valid_fields (limits : LimitsConfig) (m : Metric) : Prop := {
  vf_name : validate_name (m_name m) = Ok tt;
  vf_expressions : m_expressions m <> [];
  vf_lengths : Forall (fun e => str_len e <= max_expression_length limits)%N (m_expressions m)
}.

#[export] Instance valid_fields_stable limits : Stable (valid_fields limits).
Proof. by constructor; intros; match goal with H : valid_fields _ _ |- _ => destruct H end; constructor. Qed.

Lemma validate_expressions_length_ok es max : validate_expressions_length es max = Ok tt <-> Forall (fun e => str_len e <= max)%N es.
Proof.
  unfold validate_expressions_length. rewrite try_each_ok. apply Forall_iff. intros e. unfold validate_expression_length.
  destruct (N.ltb_spec max (str_len e)); split; try done; lia.
Qed.

Lemma validated_fields env m ws : validate_metric_fields env m = Ok ws -> valid_fields (env_limits env) m.
Proof.
  unfold validate_metric_fields. intros E. apply res_bind_ok in E as ([] & Hn & E). apply map_err_ok in Hn.
  destruct (bool_decide (m_expressions m = [])) eqn:Ee; [done|]. destruct (forallb _ _); [done|]. cbn [orb] in E.
  destruct (_ <? _)%N; [done|]. apply res_bind_ok in E as ([] & Hl & _). apply map_err_ok in Hl.
  constructor; [done|by apply bool_decide_eq_false in Ee|by apply validate_expressions_length_ok].
Qed.

Lemma validated_metric env m ws : validate_metric env m = Ok ws -> valid_fields (env_limits env) m.
Proof. unfold validate_metric. intros (ws' & E & _)%res_bind_ok. by eapply validated_fields. Qed.

Definition any_rel : relation (gmap N Metric) := fun _ _ => True.
#[export] Instance any_rel_preorder : PreOrder any_rel.
Proof. by constructor. Qed.

Section Stored.
Context {R A : Type} `{HR : MetricRepository R} `{HL : !RepositoryLaws R} `{HA : DapAdapter A}.
Context (env : Env).
Notation svc := (M (Service R A)).
Notation valid := (valid_fields (env_limits env)).
Notation service_ok := (service_inv (A := A) valid).
Notation kept := (holds (A := A) valid any_rel).

Lemma kept_inv {X : Type} (m : svc X) s s' r : kept m s -> m s = (s', r) -> service_ok s'.
Proof. apply holds_inv. Qed.

Lemma storable_owner m : storable m = true -> owner_ok (owner_of (m_user_id m)).
Proof. intros (_ & _ & Hu)%storable_spec. destruct (m_user_id m) eqn:E; cbn; [congruence|done]. Qed.

Lemma kept_replace m ex ws s : service_ok s -> kept (replace_existing m ex ws) s.
Proof.
  intros Hs. unfold replace_existing. destruct (m_id ex) as [id|]; [|by h_apply holds_err].
  assert (kept (if m_enabled ex then quietly (m_connection_id m) (adapter_remove_metric ex) else m_ret tt) s) as Hq
    by (destruct (m_enabled ex); [by h_apply holds_quietly|by h_apply holds_ret]).
  h_apply holds_bind; [exact Hq|]. intros s1 [] E1. pose proof (kept_inv _ _ _ _ Hq E1) as Hs1.
  assert (kept (storage (repo_delete id)) s1) as Hd by by h_apply holds_delete.
  h_apply holds_bind; [exact Hd|]. intros s2 [] E2. h_apply holds_ret. exact (kept_inv _ _ _ _ Hd E2).
Qed.

Lemma new_expressions_elem m ex e : e ∈ new_expressions m ex <-> e ∈ m_expressions m /\ e ∉ m_expressions ex.
Proof.
  unfold new_expressions. rewrite list_elem_of_In, filter_In, negb_true_iff, bool_decide_eq_false, <- list_elem_of_In. done.
Qed.

Lemma merged_valid m ex : valid m -> valid ex -> valid (with_expressions ex (m_expressions ex ++ new_expressions m ex)%list).
Proof.
  intros [_ _ Hm] [Hn He Hl]. constructor; cbn; [done|by intros [? _]%app_eq_nil|].
  apply Forall_app. split; [done|]. rewrite List.Forall_forall in *. intros e Hin.
  apply Hm, list_elem_of_In. by apply list_elem_of_In, new_expressions_elem in Hin as [? _].
Qed.

Lemma kept_merge m ex ws s id : service_ok s -> valid m -> contents s !! id = Some ex -> kept (merge_into_existing m ex ws) s.
Proof.
  intros Hs Hm Hex. destruct (stored_wf (sv_storage s) id ex (proj1 Hs) Hex) as (Hid & Hst & _). unfold merge_into_existing. rewrite Hid.
  destruct (new_expressions m ex) as [|e es] eqn:En; [by h_apply holds_ret|]. rewrite <- En. clear En.
  assert (kept (storage (repo_update (with_expressions ex (m_expressions ex ++ new_expressions m ex)%list))) s) as Hu
    by (h_apply holds_update; [done|done|apply merged_valid; [done|by eapply Hs]|done]).
  h_apply holds_bind; [exact Hu|]. intros s1 [] E1. pose proof (kept_inv _ _ _ _ Hu E1) as Hs1. cbn [m_enabled with_expressions].
  match goal with |- holds _ _ (m_bind ?q _) _ => assert (kept q s1) as Hq end.
  { destruct (m_enabled ex); [|by h_apply holds_ret]. h_apply holds_bind; [by h_apply holds_quietly|]. intros s2 [] E2. h_apply holds_quietly.
    by apply (kept_inv _ _ _ _ (holds_quietly _ _ _ _ _ Hs1) E2). }
  h_apply holds_bind; [exact Hq|]. intros s2 [] E2. h_apply holds_ret. exact (kept_inv _ _ _ _ Hq E2).
Qed.

Lemma kept_install m id s : service_ok s -> kept (install env m id) s.
Proof.
  intros Hs. unfold install. h_apply holds_bind; [by h_apply holds_get_adapter|]. intros s1 [] E1.
  pose proof (kept_inv _ _ _ _ (holds_get_adapter _ _ _ _ Hs) E1) as Hs1.
  h_apply holds_bind; [by apply holds_try; h_apply holds_on_adapter|]. intros s2 x E2.
  pose proof (kept_inv _ _ _ _ (holds_try _ _ _ _ (holds_on_adapter _ _ _ _ _ Hs1)) E2) as Hs2.
  destruct x as [r|e]; [by h_apply holds_ret|].
  assert (kept (m_try (storage (repo_delete id))) s2) as Hd by by apply holds_try; h_apply holds_delete.
  h_apply holds_bind; [exact Hd|]. intros s3 [[]|e'] E3; h_apply holds_err; exact (kept_inv _ _ _ _ Hd E3).
Qed.

Lemma anchored_fields m : valid m -> storable m = true -> let m' := fst (capture_anchor env m) in valid m' /\ storable m' = true.
Proof. intros Hm Hst. unfold capture_anchor. destruct (env_capture_anchor env _ _); cbn; split; try done; by apply stable_anchor. Qed.

Lemma kept_insert m ws s : service_ok s -> valid m -> storable m = true -> kept (insert_new env m ws) s.
Proof.
  intros Hs Hm Hst. unfold insert_new. destruct (anchored_fields m Hm Hst) as [Hm' Hst'].
  destruct (capture_anchor env m) as [m' aws]. cbn [fst] in *.
  assert (kept (storage (repo_save (env_now env) m')) s) as Hsv by by h_apply holds_save.
  h_apply holds_bind; [exact Hsv|]. intros s1 id E1. pose proof (kept_inv _ _ _ _ Hsv E1) as Hs1.
  assert (kept (if m_enabled m' then install env m' id else m_ret []) s1) as Hin
    by (destruct (m_enabled m'); [by apply kept_install|by h_apply holds_ret]).
  h_apply holds_bind; [exact Hin|]. intros s2 iws E2. pose proof (kept_inv _ _ _ _ Hin E2) as Hs2.
  h_apply holds_bind; [by h_apply holds_emit|]. intros s3 [] E3. h_apply holds_ret. by apply (kept_inv _ _ _ _ (holds_emit _ _ _ _ Hs2) E3).
Qed.

Lemma kept_add m replace content s : service_ok s -> storable m = true -> kept (add_metric env m replace content) s.
Proof.
  intros Hs Hst. unfold add_metric.
  match goal with |- holds _ _ (m_bind ?q _) _ => assert (kept q s) as Hq by (destruct content; by apply holds_same) end.
  h_apply holds_bind; [exact Hq|]. intros s1 [] E1. pose proof (kept_inv _ _ _ _ Hq E1) as Hs1.
  h_apply holds_bind; [by apply holds_same|]. intros s2 mode E2. injection E2 as <- E2.
  svc_pure s3 u3 Hsafe. svc_pure s4 u4 Hten. svc_pure s5 ws Hval. apply validated_metric in Hval.
  destruct (holds_find_by_location valid any_rel (m_connection_id m) (loc_file (m_location m)) (loc_line (m_location m))
    (owner_of (m_user_id m)) s1 Hs1 (storable_owner m Hst)) as [Hf Hv].
  h_apply holds_bind; [exact Hf|]. intros s6 ex E6. pose proof (kept_inv _ _ _ _ Hf E6) as Hs6. destruct (Hv _ _ E6) as [Hc Hex].
  destruct ex as [ex|]; [|by apply kept_insert]. destruct Hex as (id & Hex & _). destruct replace.
  - pose proof (kept_replace m ex ws s6 Hs6) as Hr. h_apply holds_bind; [exact Hr|]. intros s7 ws' E7.
    apply kept_insert; [exact (kept_inv _ _ _ _ Hr E7)|done|done].
  - apply (kept_merge _ _ _ _ id); [done|done|by rewrite Hc].
Qed.

Lemma kept_import m s : service_ok s -> storable m = true -> kept (import_metric env m) s.
Proof. intros Hs Hst. unfold import_metric. svc_pure s1 ws Hv. h_apply holds_save; [done|done|by eapply validated_fields|done]. Qed.

Lemma kept_update_adapter old m s : service_ok s -> kept (update_adapter old m) s.
Proof.
  assert (forall X (k : A -> A * result X Error) s, service_ok s -> kept (m_bind (on_adapter (m_connection_id m) k) (fun _ => m_ret tt)) s) as Hon.
  { intros X k s' Hs'. h_apply holds_bind; [by h_apply holds_on_adapter|]. intros s'' x E. h_apply holds_ret.
    by apply (kept_inv _ _ _ _ (holds_on_adapter _ _ _ k _ Hs') E). }
  intros Hs. unfold update_adapter. destruct old as [o|]; [|destruct (m_enabled m); [by apply Hon|by h_apply holds_ret]].
  destruct (m_enabled o), (m_enabled m); [|by apply Hon..|by h_apply holds_ret].
  h_apply holds_bind; [by h_apply holds_on_adapter|]. intros s1 x E1. apply Hon.
  by apply (kept_inv _ _ _ _ (holds_on_adapter _ _ _ _ _ Hs) E1).
Qed.

Lemma kept_update m scope s : service_ok s -> storable m = true -> kept (update_metric env m scope) s.
Proof.
  intros Hs Hst. unfold update_metric. svc_pure s1 u Hacc.
  h_apply holds_bind; [by apply holds_same|]. intros s2 mode E2. injection E2 as <- E2.
  svc_pure s3 u3 Hsafe. svc_pure s5 ws Hval. apply validated_metric in Hval.
  match goal with |- holds _ _ (m_bind ?q _) _ => assert (kept q s) as Hq end.
  { destruct (m_id m); [|by h_apply holds_ret]. apply holds_try. by apply holds_find_by_id. }
  h_apply holds_bind; [exact Hq|]. intros s6 fetched E6. pose proof (kept_inv _ _ _ _ Hq E6) as Hs6.
  destruct (match fetched with Ok o => _ | Err e => _ end) as [old ws'].
  assert (kept (storage (repo_update m)) s6) as Hu by by h_apply holds_update.
  h_apply holds_bind; [exact Hu|]. intros s7 [] E7. pose proof (kept_inv _ _ _ _ Hu E7) as Hs7.
  h_apply holds_bind; [by apply holds_try; h_apply holds_get_adapter|]. intros s8 r E8.
  pose proof (kept_inv _ _ _ _ (holds_try _ _ _ _ (holds_get_adapter _ _ _ _ Hs7)) E8) as Hs8.
  destruct r as [[]|e]; [|by h_apply holds_ret].
  h_apply holds_bind; [by apply kept_update_adapter|]. intros s9 [] E9. h_apply holds_ret.
  exact (kept_inv _ _ _ _ (kept_update_adapter old m s8 Hs8) E9).
Qed.
End Stored.

(** ** Whole histories *)

Inductive service_call : Type :=
| SAdd (m : Metric) (replace : bool) (content : option string)
| SImport (m : Metric)
| SUpdate (m : Metric) (scope : MetricScope)
| SScoped (scope : MetricScope) (c : scoped_call).

Definition run_call {R A : Type} `{MetricRepository R} `{DapAdapter A} (env : Env) (s : Service R A) (c : service_call) : Service R A :=
  match c with
  | SAdd m replace content => fst (add_metric env m replace content s)
  | SImport m => fst (import_metric env m s)
  | SUpdate m scope => fst (update_metric env m scope s)
  | SScoped scope c => run_scoped env scope c s
  end.

Definition call_storable (c : service_call) : Prop :=
  match c with SAdd m _ _ | SImport m | SUpdate m _ => storable m = true | SScoped _ _ => True end.

Definition run_history {R A : Type} `{MetricRepository R} `{DapAdapter A} (env : Env) (calls : list service_call) (s : Service R A) : Service R A :=
  fold_left (run_call env) calls s.

Lemma run_history_inv {R A : Type} `{HR : MetricRepository R} `{!RepositoryLaws R} `{HA : DapAdapter A}
  (env : Env) (calls : list service_call) (s : Service R A) :
  Forall call_storable calls -> service_inv (valid_fields (env_limits env)) s ->
  service_inv (valid_fields (env_limits env)) (run_history env calls s).
Proof.
  intros Hc. revert s. induction Hc as [|c calls Hc Hcs IH]; intros s Hs; [done|]. apply IH.
  destruct c; cbn in Hc; [by apply kept_add|by apply kept_import|by apply kept_update|by apply run_scoped_holds; [apply _|]].
Qed.

(** The registry stays consistent. Starting from an empty repository, after
    any history of additions, imports, updates, removals, toggles and group
    operations, with any failures of the database and of the debuggers, no two
    stored metrics have the same connection, location and owner, every stored
    metric carries its own id, and each has passed the checks of its name and
    of the presence and length of its expressions. *)
Theorem registry_consistent {R A : Type} `{HR : MetricRepository R} `{!RepositoryLaws R} `{HA : DapAdapter A}
  (env : Env) (calls : list service_call) (s : Service R A)
  (Hempty : contents s = ∅) (Hrepo : repo_inv (sv_storage s)) (Hcalls : Forall call_storable calls) :
  let c := contents (run_history env calls s) in
  (forall i j m n, c !! i = Some m -> c !! j = Some n -> m_connection_id m = m_connection_id n ->
     m_location m = m_location n -> m_user_id m = m_user_id n -> i = j)
  /\ (forall i m, c !! i = Some m -> m_id m = Some i /\ valid_fields (env_limits env) m).
Proof.
  destruct (run_history_inv env calls s Hcalls) as [Hr Hv]; [split; [done|]; intros id m; by rewrite Hempty|].
  split; [intros; by eapply stored_unique|]. intros i m Hm. split; [by eapply stored_wf|by eapply Hv].
Qed.

Lemma registry_consistent_witness :
  let c := contents (run_history sample_env
             [SAdd (owned_metric "m1" "bob" "a.py" 3 ["x"]) false None; SAdd (owned_metric "m2" "alice" "a.py" 3 ["y"]) false None;
              SScoped (ScopeUser "alice") (CallRemove 1)] (sample_service [])) in
  (forall i m, c !! i = Some m -> m_id m = Some i /\ valid_fields (mkLimits 10000 20) m) /\ size c = 2%nat.
Proof.
  split; [|vm_compute; reflexivity].
  apply (registry_consistent sample_env
    [SAdd (owned_metric "m1" "bob" "a.py" 3 ["x"]) false None; SAdd (owned_metric "m2" "alice" "a.py" 3 ["y"]) false None;
     SScoped (ScopeUser "alice") (CallRemove 1)] (sample_service [])); [reflexivity|apply empty_table_inv|].
  repeat constructor.
Defined.

(** bob's metric, stored by him. *)
Definition bobs_service : Service Table ScriptAdapter :=
  run_history sample_env [SAdd (owned_metric "m1" "bob" "a.py" 3 ["x"]) false None] (sample_service []).

Lemma bobs_service_inv : repo_inv (sv_storage bobs_service).
Proof.
  apply (run_history_inv sample_env [SAdd (owned_metric "m1" "bob" "a.py" 3 ["x"]) false None] (sample_service []));
    [by repeat constructor|split; [apply empty_table_inv|done]].
Qed.

Lemma tenant_isolation_witness :
  exists m, m_name m = "m1" /\
  contents (fold_left (fun s c => run_scoped sample_env (ScopeUser "alice") c s) [CallToggle 1 false; CallDisableGroup "g"; CallRemove 1] bobs_service)
  !! 1%N = Some m.
Proof.
  eexists. split; [|apply (tenant_isolation sample_env (ScopeUser "alice") [CallToggle 1 false; CallDisableGroup "g"; CallRemove 1] bobs_service 1 _
    bobs_service_inv); [vm_compute; reflexivity|reflexivity]]. reflexivity.
Defined.
