(* ===== verification/MetricOutcomes.v ===== *)
(** * What the operations of the metric service do

    Outcome theorems for [add_metric], its merge branch, [toggle_metric],
    [sync_logpoint] and the safe-mode check of [MetricService], against any
    repository that keeps its laws and any debugger adapter. *)

From Stdlib Require Import Strings.String Strings.Ascii.
From stdpp Require Import gmap sorting.
From S2P Require Import Prelude RustStr CoreError Location Language Metric MetricRepo OutputParsers AdapterMetrics MetricService SafetyValidator.

Local Open Scope string_scope.
Local Arguments String.append !_ _ / : simpl nomatch.
Local Open Scope svc_scope.

(** ** Adding *)

(** Everything of a metric but its id, its time of creation and its anchor, which
    adding it sets. *)
Definition settings (m : Metric) : Metric :=
  mkMetric None (m_name m) (m_connection_id m) (m_group m) (m_location m) (m_expressions m) (m_language m) (m_enabled m) (m_mode m) (m_condition m)
    (m_safety_level m) None (m_user_id m) (m_agent_id m) (m_capture_stack_trace m) (m_stack_trace_ttl m) (m_stack_trace_slice m)
    (m_capture_memory_snapshot m) (m_snapshot_scope m) (m_snapshot_ttl m) None Unanchored.
Definition same_settings (m m' : Metric) : Prop := settings m' = settings m.
Lemma same_settings_fields m m' : same_settings m m' ->
  m_name m' = m_name m /\ m_connection_id m' = m_connection_id m /\ m_location m' = m_location m /\ m_expressions m' = m_expressions m
  /\ m_enabled m' = m_enabled m /\ m_user_id m' = m_user_id m /\ m_agent_id m' = m_agent_id m.
Proof. unfold same_settings, settings. intros [=]. by repeat split. Qed.

Section Adding.
Context {R A : Type} `{HR : MetricRepository R} `{HL : !RepositoryLaws R} `{HA : DapAdapter A}.
Context (env : Env).

Lemma save_outcome now m (s : Service R A) :
  repo_inv (sv_storage s) -> storable m = true ->
  let '(s', x) := storage (repo_save now m) s in
  repo_inv (sv_storage s') /\ sv_adapters s' = sv_adapters s /\ sv_events s' = sv_events s /\
  match x with
  | Ok id => contents s !! id = None /\ contents s' = <[id := saved_metric now id m]> (contents s)
  | Err e => contents s' = contents s /\ is_rollback_failure e = false
  end.
Proof.
  intros Hs Hm. pose proof (save_law _ now m Hs Hm) as Hlaw. unfold storage, contents.
  destruct (repo_save now m (sv_storage s)) as [r x]. cbn. destruct Hlaw as [Hi Hx]. destruct x; naive_solver.
Qed.

Lemma delete_outcome id (s : Service R A) :
  repo_inv (sv_storage s) ->
  let '(s', x) := storage (repo_delete id) s in
  repo_inv (sv_storage s') /\ sv_adapters s' = sv_adapters s /\ sv_events s' = sv_events s /\
  match x with Ok _ => contents s' = delete id (contents s) | Err e => contents s' = contents s /\ is_rollback_failure e = false end.
Proof.
  intros Hs. pose proof (delete_law _ id Hs) as Hlaw. unfold storage, contents.
  destruct (repo_delete id (sv_storage s)) as [r x]. cbn. destruct Hlaw as [Hi Hx]. destruct x; naive_solver.
Qed.

Lemma on_adapter_outcome {X : Type} conn (k : A -> A * result X Error) (s : Service R A) :
  let '(s', x) := on_adapter conn k s in
  sv_storage s' = sv_storage s /\ sv_events s' = sv_events s /\ forall e, x = Err e -> is_rollback_failure e = false.
Proof.
  unfold on_adapter. destruct (sv_adapters s !! conn) as [ma|]; [|cbn; naive_solver].
  destruct (k (ma_adapter ma)) as [a [x|e]]; cbn; naive_solver.
Qed.

(** The adapter refuses: the metric saved under a fresh id is deleted again. *)
Lemma install_outcome m id (s : Service R A) :
  repo_inv (sv_storage s) -> is_Some (sv_adapters s !! m_connection_id m) ->
  let '(s', x) := install env m id s in
  sv_events s' = sv_events s /\
  match x with
  | Ok _ => contents s' = contents s
  | Err e => is_rollback_failure e = false -> contents s' = delete id (contents s)
  end.
Proof.
  intros Hs [ma Hma]. unfold install, m_bind at 1, get_adapter. rewrite Hma. unfold m_bind at 1, m_try at 1.
  pose proof (on_adapter_outcome (m_connection_id m) (adapter_set_metric (with_id m (Some id))) s) as Ho.
  destruct (on_adapter _ _ s) as [s1 [r|e]]; destruct Ho as (Hst & Hev & _); [cbn; unfold contents; by rewrite Hst|].
  unfold m_bind, m_try. pose proof (delete_outcome id s1) as Hd. rewrite Hst in Hd. specialize (Hd Hs).
  destruct (storage (repo_delete id) s1) as [s2 [[]|e2]]; destruct Hd as (_ & _ & Hev2 & Hc); cbn; (split; [congruence|]); [|done].
  intros _. rewrite Hc. unfold contents. by rewrite Hst.
Qed.

Lemma insert_outcome m ws (s : Service R A) :
  repo_inv (sv_storage s) -> storable m = true -> is_Some (sv_adapters s !! m_connection_id m) ->
  let '(s', x) := insert_new env m ws s in
  match x with
  | Ok out => contents s !! oo_value out = None
      /\ (exists m', contents s' = <[oo_value out := m']> (contents s) /\ same_settings m m')
      /\ sv_events s' = (sv_events s ++ [EvMetricAdded (oo_value out) (m_name m) (m_connection_id m)])%list
  | Err e => sv_events s' = sv_events s /\ (is_rollback_failure e = false -> contents s' = contents s)
  end.
Proof.
  intros Hs Hst Had. unfold insert_new. destruct (capture_anchor env m) as [m' aws] eqn:Ea.
  assert (same_settings m m' /\ storable m' = true) as [Hsame Hst'].
  { unfold capture_anchor in Ea. destruct (env_capture_anchor env _ _); injection Ea as <- _; by repeat split. }
  pose proof (same_settings_fields _ _ Hsame) as (Hn & Hc & Hl & He & Hen & Hu & Hag).
  unfold m_bind at 1. pose proof (save_outcome (env_now env) m' s Hs Hst') as Hsv.
  destruct (storage (repo_save (env_now env) m') s) as [s1 [id|e]]; destruct Hsv as (Hr1 & Ha1 & He1 & Hx); [|by destruct Hx].
  destruct Hx as [Hfresh Hc1]. unfold m_bind at 1.
  assert (let '(s', x) := (if m_enabled m' then install env m' id else m_ret []) s1 in
          sv_events s' = sv_events s1 /\
          match x with Ok _ => contents s' = contents s1 | Err e => is_rollback_failure e = false -> contents s' = delete id (contents s1) end) as Hin.
  { destruct (m_enabled m'); [|done]. apply install_outcome; [done|]. by rewrite Ha1, Hc. }
  destruct ((if m_enabled m' then install env m' id else m_ret []) s1) as [s2 [iws|e]]; destruct Hin as [He2 Hc2]; cbn.
  - split; [done|]. split; [|by rewrite He2, He1, Hn, Hc]. exists (saved_metric (env_now env) id m').
    split; [unfold contents in *; cbn; by rewrite Hc2|]. by repeat split.
  - split; [congruence|]. intros Hrb. rewrite (Hc2 Hrb), Hc1. by apply delete_insert_id.
Qed.
End Adding.

(** The checks that precede the lookup touch nothing stored. *)
Lemma add_metric_checks {R A : Type} `{HR : MetricRepository R} `{HA : DapAdapter A} env m replace content (s : Service R A) :
  let vfs := match content with Some c => (sv_vfs s ++ [(m_connection_id m, loc_file (m_location m), c)])%list | None => sv_vfs s end in
  let s1 := mkService (sv_storage s) (sv_adapters s) vfs (sv_events s) in
  (exists e, add_metric env m replace content s = (s1, Err e)) \/
  exists ws, validate_metric env m = Ok ws /\
    add_metric env m replace content s =
    m_bind (storage (repo_find_by_location (m_connection_id m) (loc_file (m_location m)) (loc_line (m_location m)) (owner_of (m_user_id m))))
      (fun existing => match existing with
                       | Some ex => if replace then m_bind (replace_existing m ex ws) (insert_new env m) else merge_into_existing m ex ws
                       | None => insert_new env m ws
                       end) s1.
Proof.
  intros vfs s1. destruct (add_metric env m replace content s) as [s' x] eqn:E. unfold add_metric in E. unfold m_bind at 1 in E.
  assert (match content with Some c => vfs_store (m_connection_id m) (loc_file (m_location m)) c | None => m_ret tt end s = (s1, Ok tt)) as Ev
    by (subst vfs s1; destruct content, s; reflexivity).
  rewrite Ev in E. unfold m_bind at 1, safe_mode_of in E. unfold m_bind at 1, m_lift at 1 in E.
  destruct (validate_safe_mode _ m) as [[]|e]; [|left; exists e; congruence].
  unfold m_bind at 1, m_lift at 1 in E. destruct (map_err AppCore (validate_tenant_ids _ _)) as [[]|e]; [|left; exists e; congruence].
  unfold m_bind at 1, m_lift at 1 in E. destruct (validate_metric env m) as [ws|e]; [|left; exists e; congruence]. right. exists ws. by rewrite <- E.
Qed.

(** C2: adding is all or nothing.  When the owner has no metric at the location,
    the connection has an adapter, and the metric has a location and an owner that
    its table columns can hold: on success exactly one metric appears, under a
    fresh id and with all the settings asked for (everything but its id, its time
    of creation and its anchor), and one [metric_added] event is sent; on failure,
    at whatever step, nothing is stored and no event is sent, unless the rollback
    itself failed and is reported as such. *)
Theorem add_metric_all_or_nothing {R A : Type} `{HR : MetricRepository R} `{!RepositoryLaws R} `{HA : DapAdapter A}
  (env : Env) (m : Metric) (replace : bool) (content : option string) (s : Service R A)
  (Hs : repo_inv (sv_storage s)) (Hst : storable m = true) (Had : is_Some (sv_adapters s !! m_connection_id m))
  (Hfree : forall id n, contents s !! id = Some n ->
     ~ (located (m_connection_id m) (loc_file (m_location m)) (loc_line (m_location m)) n /\ m_user_id n = m_user_id m)) :
  let '(s', x) := add_metric env m replace content s in
  match x with
  | Ok out => contents s !! oo_value out = None
      /\ (exists m', contents s' = <[oo_value out := m']> (contents s) /\ same_settings m m')
      /\ sv_events s' = (sv_events s ++ [EvMetricAdded (oo_value out) (m_name m) (m_connection_id m)])%list
  | Err e => sv_events s' = sv_events s /\ (is_rollback_failure e = false -> contents s' = contents s)
  end.
Proof.
  destruct (add_metric_checks env m replace content s) as [[e ->]|(ws & _ & ->)]; [by split|].
  set (s1 := mkService _ _ _ _). assert (contents s1 = contents s) as Hc1 by done. unfold m_bind.
  pose proof (find_by_location_law (sv_storage s1) (m_connection_id m) (loc_file (m_location m)) (loc_line (m_location m))
    (owner_of (m_user_id m)) Hs (storable_owner m Hst)) as Hlaw.
  unfold storage. destruct (repo_find_by_location _ _ _ _ (sv_storage s1)) as [r [[ex|]|e]]; cbn [map_err]; destruct Hlaw as (Hr & Hcr & Hsome & _).
  - destruct (Hsome ex eq_refl) as (id & Hex & Hloc & Hown). exfalso. eapply Hfree; [exact Hex|]. split; [done|].
    unfold owned, owner_of in Hown. by destruct (m_user_id m).
  - pose proof (insert_outcome env m ws (mkService r (sv_adapters s1) (sv_vfs s1) (sv_events s1)) Hr Hst Had) as Hi.
    unfold contents in Hi |- *. cbn in Hi. by rewrite Hcr in Hi.
  - split; [done|]. intros _. unfold contents. cbn. by rewrite Hcr.
Qed.

Lemma add_metric_all_or_nothing_witness :
  let '(s', x) := add_metric sample_env (owned_metric "m1" "bob" "a.py" 3 ["x"]) false None (sample_service [false]) in
  x = Err (AppCore (Adapter "refused")) /\ contents s' = ∅.
Proof.
  pose proof (add_metric_all_or_nothing sample_env (owned_metric "m1" "bob" "a.py" 3 ["x"]) false None (sample_service [false])
    (empty_table_inv []) eq_refl ltac:(by eexists) ltac:(intros id n Hn; discriminate Hn)) as Hh.
  assert (snd (add_metric sample_env (owned_metric "m1" "bob" "a.py" 3 ["x"]) false None (sample_service [false])) = Err (AppCore (Adapter "refused"))) as Ex
    by (vm_compute; reflexivity).
  destruct (add_metric _ _ _ _ _) as [s' x]. cbn [snd] in Ex. subst x. split; [reflexivity|]. by apply Hh.
Defined.

(** An enabled metric added while its connection has no adapter is stored
    although the call fails: the lookup of the adapter comes after the save and
    its failure is not rolled back.  A second attempt then finds the metric and
    succeeds without installing anything. *)
Theorem add_without_adapter_leaves_metric {R A : Type} `{HR : MetricRepository R} `{!RepositoryLaws R} `{HA : DapAdapter A}
  (env : Env) (m : Metric) ws (s : Service R A) (Hs : repo_inv (sv_storage s)) (Hst : storable m = true)
  (Hen : m_enabled m = true) (Hno : sv_adapters s !! m_connection_id m = None)
  (Hsave : is_ok (snd (repo_save (env_now env) (fst (capture_anchor env m)) (sv_storage s))) = true) :
  let '(s', x) := insert_new env m ws s in
  x = Err (no_adapter (m_connection_id m)) /\ exists id m', contents s !! id = None /\ contents s' = <[id := m']> (contents s) /\ same_settings m m'.
Proof.
  unfold insert_new. destruct (capture_anchor env m) as [m' aws] eqn:Ea.
  assert (same_settings m m' /\ storable m' = true) as [Hsame Hst'].
  { unfold capture_anchor in Ea. destruct (env_capture_anchor env _ _); injection Ea as <- _; by repeat split. }
  pose proof (same_settings_fields _ _ Hsame) as (Hn & Hc & Hl & He & Hen' & Hu & Hag). unfold m_bind at 1.
  pose proof (save_outcome (env_now env) m' s Hs Hst') as Hsv. unfold storage in *. cbn [fst] in Hsave.
  destruct (repo_save (env_now env) m' (sv_storage s)) as [r [id|e]]; [|done]. cbn [map_err] in *. destruct Hsv as (_ & _ & _ & Hfresh & Hc1).
  unfold m_bind at 1. rewrite Hen', Hen. unfold install, m_bind at 1, get_adapter. cbn [sv_adapters]. rewrite Hc, Hno. split; [done|].
  exists id, (saved_metric (env_now env) id m'). by repeat split.
Qed.

Lemma add_without_adapter_leaves_metric_witness :
  let s := mkService (A := ScriptAdapter) empty_table ∅ [] [] in
  let '(s', x) := insert_new sample_env (owned_metric "m1" "bob" "a.py" 3 ["x"]) [] s in
  x = Err (no_adapter "conn") /\ exists id m', contents s !! id = None /\ contents s' = <[id := m']> (contents s)
    /\ same_settings (owned_metric "m1" "bob" "a.py" 3 ["x"]) m'.
Proof.
  exact (add_without_adapter_leaves_metric sample_env (owned_metric "m1" "bob" "a.py" 3 ["x"]) []
    (mkService (A := ScriptAdapter) empty_table ∅ [] []) (empty_table_inv []) eq_refl eq_refl eq_refl ltac:(vm_compute; reflexivity)).
Defined.

(** ** Merging *)

(** A stored metric updated in the columns the service assigns reads back as assigned. *)
Lemma updated_expressions m es : stored_anchor (m_anchor m) = m_anchor m -> updated_metric m (with_expressions m es) = with_expressions m es.
Proof. intros H. unfold updated_metric, with_expressions. cbn. by rewrite H. Qed.
Lemma updated_enabled m b : stored_anchor (m_anchor m) = m_anchor m -> updated_metric m (with_enabled m b) = with_enabled m b.
Proof. intros H. unfold updated_metric, with_enabled. cbn. by rewrite H. Qed.
Lemma updated_back m b : stored_anchor (m_anchor m) = m_anchor m -> updated_metric (with_enabled m b) m = m.
Proof. intros H. destruct m. unfold updated_metric, with_enabled. cbn in *. by rewrite H. Qed.
Lemma with_expressions_id m : with_expressions m (m_expressions m) = m.
Proof. by destruct m. Qed.

Section Merging.
Context {R A : Type} `{HR : MetricRepository R} `{HL : !RepositoryLaws R} `{HA : DapAdapter A}.

Lemma update_outcome m (s : Service R A) :
  repo_inv (sv_storage s) -> storable m = true ->
  let '(s', x) := storage (repo_update m) s in
  repo_inv (sv_storage s') /\ sv_adapters s' = sv_adapters s /\ sv_events s' = sv_events s /\
  match x with
  | Ok _ => exists id old, m_id m = Some id /\ contents s !! id = Some old /\ contents s' = <[id := updated_metric old m]> (contents s)
  | Err e => contents s' = contents s /\ is_rollback_failure e = false
  end.
Proof.
  intros Hs Hm. pose proof (update_law _ m Hs Hm) as Hlaw. unfold storage, contents.
  destruct (repo_update m (sv_storage s)) as [r x]. cbn. destruct Hlaw as [Hi Hx]. destruct x; naive_solver.
Qed.

Lemma quietly_outcome {X : Type} conn (k : A -> A * result X Error) (s : Service R A) :
  let '(s', x) := quietly conn k s in x = Ok tt /\ sv_storage s' = sv_storage s /\ sv_events s' = sv_events s.
Proof.
  unfold quietly, m_bind, m_try. pose proof (on_adapter_outcome conn k s) as Ho.
  destruct (on_adapter conn k s) as [s1 x]. by destruct Ho as (? & ? & _).
Qed.

Lemma merge_outcome m ex id ws (s : Service R A) :
  repo_inv (sv_storage s) -> contents s !! id = Some ex ->
  let '(s', x) := merge_into_existing m ex ws s in
  sv_events s' = sv_events s /\
  match x with
  | Ok out => oo_value out = id /\ contents s' = <[id := with_expressions ex (m_expressions ex ++ new_expressions m ex)%list]> (contents s)
  | Err e => contents s' = contents s
  end.
Proof.
  intros Hs Hex. destruct (stored_wf _ _ _ Hs Hex) as (Hid & Hst & Hanc). unfold merge_into_existing. rewrite Hid.
  destruct (new_expressions m ex) as [|e0 es] eqn:En.
  { cbn. split; [done|]. split; [done|]. rewrite List.app_nil_r, with_expressions_id. by rewrite insert_id. }
  set (merged := with_expressions ex (m_expressions ex ++ e0 :: es)%list). unfold m_bind at 1.
  pose proof (update_outcome merged s Hs Hst) as Hu. destruct (storage (repo_update merged) s) as [s1 [[]|e]];
    destruct Hu as (Hr1 & _ & He1 & Hx); [|naive_solver].
  destruct Hx as (id' & old & Hid' & Hold & Hc1). cbn in Hid'. assert (id' = id) as -> by congruence.
  unfold contents in Hold, Hex. assert (old = ex) as -> by congruence. unfold m_bind at 1.
  assert (exists s2, (if m_enabled merged
     then let! _ := quietly (m_connection_id m) (adapter_remove_metric ex) in quietly (m_connection_id m) (adapter_set_metric merged)
     else m_ret tt) s1 = (s2, Ok tt) /\ sv_storage s2 = sv_storage s1 /\ sv_events s2 = sv_events s1) as (s2 & -> & Hst2 & He2).
  { destruct (m_enabled merged); [|by exists s1]. unfold m_bind. pose proof (quietly_outcome (m_connection_id m) (adapter_remove_metric ex) s1) as H1.
    destruct (quietly (m_connection_id m) (adapter_remove_metric ex) s1) as [s2 x2]. destruct H1 as (-> & H1 & H1').
    pose proof (quietly_outcome (m_connection_id m) (adapter_set_metric merged) s2) as H2.
    destruct (quietly (m_connection_id m) (adapter_set_metric merged) s2) as [s3 x3]. destruct H2 as (-> & H2 & H2').
    exists s3. split; [done|]. split; congruence. }
  cbn. split; [congruence|]. split; [done|]. unfold contents in *. rewrite Hst2, Hc1. subst merged. by rewrite updated_expressions.
Qed.
End Merging.

Lemma new_expressions_spec m ex e : e ∈ new_expressions m ex <-> e ∈ m_expressions m /\ e ∉ m_expressions ex.
Proof.
  unfold new_expressions. rewrite list_elem_of_In, List.filter_In, <- list_elem_of_In, negb_true_iff, bool_decide_eq_false. done.
Qed.

(** Adding where the owner already has a metric, without replacing, merges.
    The id of the metric that is there is returned, its settings stay, and its
    expressions become its old ones, in their order, followed by the requested
    ones it lacked, so that every requested expression is captured and adding
    the same metric again changes nothing.  A failure changes nothing, and no
    event is sent either way. *)
Theorem add_metric_merges {R A : Type} `{HR : MetricRepository R} `{!RepositoryLaws R} `{HA : DapAdapter A}
  (env : Env) (m ex : Metric) (id : N) (content : option string) (s : Service R A)
  (Hs : repo_inv (sv_storage s)) (Hst : storable m = true) (Hex : contents s !! id = Some ex)
  (Hloc : located (m_connection_id m) (loc_file (m_location m)) (loc_line (m_location m)) ex) (Hown : m_user_id ex = m_user_id m) :
  let merged := with_expressions ex (m_expressions ex ++ new_expressions m ex)%list in
  (let '(s', x) := add_metric env m false content s in
   sv_events s' = sv_events s /\
   match x with Ok out => oo_value out = id /\ contents s' = <[id := merged]> (contents s) | Err _ => contents s' = contents s end)
  /\ (forall e, e ∈ m_expressions merged <-> e ∈ m_expressions ex \/ e ∈ m_expressions m)
  /\ new_expressions m merged = [].
Proof.
  intros merged. assert (forall e, e ∈ m_expressions merged <-> e ∈ m_expressions ex \/ e ∈ m_expressions m) as Hall.
  { intros e. cbn. rewrite elem_of_app, new_expressions_spec. destruct (decide (e ∈ m_expressions ex)); naive_solver. }
  split; [|split; [done|]].
  2: { destruct (new_expressions m merged) as [|e es] eqn:E; [done|]. assert (e ∈ new_expressions m merged) as He by (rewrite E; left).
       apply new_expressions_spec in He. destruct He as [He Hn]. exfalso. apply Hn, Hall. by right. }
  destruct (add_metric_checks env m false content s) as [[e ->]|(ws & _ & ->)]; [by split|].
  set (s1 := mkService _ _ _ _). unfold m_bind.
  pose proof (find_by_location_law (sv_storage s1) (m_connection_id m) (loc_file (m_location m)) (loc_line (m_location m))
    (owner_of (m_user_id m)) Hs (storable_owner m Hst)) as Hlaw.
  unfold storage. destruct (repo_find_by_location _ _ _ _ (sv_storage s1)) as [r [[ex'|]|e]]; cbn [map_err]; destruct Hlaw as (Hr & Hcr & Hsome & Hnone).
  - destruct (Hsome ex' eq_refl) as (id' & Hex' & Hloc' & Hown').
    assert (m_user_id ex' = m_user_id m) as Hu' by (unfold owned, owner_of in Hown'; by destruct (m_user_id m)).
    destruct Hloc as (L1 & L2 & L3), Hloc' as (L1' & L2' & L3').
    assert (m_location ex' = m_location ex) as Hll by (destruct (m_location ex'), (m_location ex); cbn in *; congruence).
    assert (id' = id) as -> by (eapply (stored_unique (sv_storage s)); eauto; congruence).
    assert (ex' = ex) as -> by (unfold contents in Hex; cbn in Hex'; congruence).
    pose proof (merge_outcome m ex id ws (mkService r (sv_adapters s1) (sv_vfs s1) (sv_events s1)) Hr) as Hm.
    unfold contents in Hm |- *. cbn in Hm, Hcr. rewrite Hcr in Hm. exact (Hm Hex).
  - exfalso. eapply Hnone; [done|exact Hex|]. split; [done|]. unfold owned, owner_of. by destruct (m_user_id m).
  - split; [done|]. unfold contents. cbn. by rewrite Hcr.
Qed.

Lemma add_metric_merges_witness :
  let m := owned_metric "m2" "bob" "a.py" 3 ["x"; "y"] in
  exists out s', add_metric sample_env m false None bobs_service = (s', Ok out) /\ oo_value out = 1%N
    /\ (m_expressions <$> contents s' !! 1%N) = Some ["x"; "y"].
Proof.
  intros m. assert (exists ex, contents bobs_service !! 1%N = Some ex) as [ex Hex] by (eexists; vm_compute; reflexivity).
  assert (located "conn" "a.py" 3 ex /\ m_user_id ex = Some "bob" /\ m_expressions ex = ["x"]) as (Hl & Hu & He)
    by (vm_compute in Hex; injection Hex as <-; by repeat split).
  pose proof (add_metric_merges sample_env m ex 1 None bobs_service bobs_service_inv eq_refl Hex Hl Hu) as [Hh _].
  destruct (add_metric sample_env m false None bobs_service) as [s' x] eqn:E.
  assert (is_ok x = true) as Hok by (replace x with (snd (add_metric sample_env m false None bobs_service)) by (by rewrite E); vm_compute; reflexivity).
  destruct x as [out|]; [|discriminate Hok]. exists out, s'. split; [done|]. destruct Hh as (_ & Hv & Hc). split; [done|].
  rewrite Hc, lookup_insert_eq. cbn [fmap option_fmap option_map with_expressions m_expressions]. unfold new_expressions. rewrite He. reflexivity.
Defined.

(** ** Toggling *)

Section Toggling.
Context {R A : Type} `{HR : MetricRepository R} `{HL : !RepositoryLaws R} `{HA : DapAdapter A}.
Context (env : Env).

Lemma toggle_adapter_outcome m b (s : Service R A) :
  repo_inv (sv_storage s) ->
  let '(s', _) := toggle_adapter m b s in repo_inv (sv_storage s') /\ contents s' = contents s /\ sv_events s' = sv_events s.
Proof.
  intros Hs. unfold toggle_adapter, m_bind at 1, get_adapter. destruct (sv_adapters s !! m_connection_id m); [|done]. unfold m_bind at 1.
  pose proof (find_all_at_location_law (sv_storage s) (m_connection_id m) (loc_file (m_location m)) (loc_line (m_location m)) Hs) as Hlaw.
  unfold storage. destruct (repo_find_all_at_location _ _ _ (sv_storage s)) as [r [ms|e]]; destruct Hlaw as (Hr & Hc & _); cbn [map_err]; [|done].
  set (s1 := mkService r _ _ _).
  assert (forall X (k : A -> A * result X Error) (s0 : Service R A), sv_storage (fst (m_bind (on_adapter (m_connection_id m) k) (fun _ => m_ret tt) s0)) = sv_storage s0
    /\ sv_events (fst (m_bind (on_adapter (m_connection_id m) k) (fun _ => m_ret tt) s0)) = sv_events s0) as Hon.
  { intros X k s0. unfold m_bind. pose proof (on_adapter_outcome (m_connection_id m) k s0) as Ho. destruct (on_adapter _ k s0) as [? []]; naive_solver. }
  assert (exists s2 x, (if b then m_ret tt else let! _ := on_adapter (m_connection_id m) (adapter_remove_metric m) in m_ret tt) s1 = (s2, x)
    /\ sv_storage s2 = sv_storage s1 /\ sv_events s2 = sv_events s1) as (s2 & x & E & Hst2 & He2).
  { destruct b; [by exists s1, (Ok tt)|]. pose proof (Hon _ (adapter_remove_metric m) s1) as H1. destruct (m_bind _ _ s1) as [s2 x]. by exists s2, x. }
  unfold m_bind at 1. rewrite E. destruct x as [[]|e]; [|unfold contents; rewrite Hst2; done].
  destruct (List.filter m_enabled ms) as [|t ts]; [cbn; unfold contents; rewrite Hst2; done|].
  match goal with |- context [m_bind (on_adapter _ ?k) _] => pose proof (Hon _ k s2) as H3; destruct (m_bind (on_adapter _ k) _ s2) as [s3 y] end.
  cbn [fst] in H3. destruct H3 as [H3 H4]. unfold contents. rewrite H3, Hst2, H4, He2. done.
Qed.

Lemma toggle_stored_outcome id m b (s : Service R A) :
  repo_inv (sv_storage s) -> contents s !! id = Some m ->
  let '(s', x) := toggle_stored env id m b s in
  match x with
  | Ok r => tg_storage_updated r = true /\ contents s' = <[id := with_enabled m b]> (contents s)
            /\ sv_events s' = (sv_events s ++ [EvMetricToggled id (m_name m) b (m_connection_id m)])%list
  | Err e => sv_events s' = sv_events s /\ (is_rollback_failure e = false -> contents s' = contents s)
  end.
Proof.
  intros Hs Hm. destruct (stored_wf _ _ _ Hs Hm) as (Hid & Hst & Hanc). unfold toggle_stored, m_bind at 1.
  pose proof (update_outcome (with_enabled m b) s Hs Hst) as Hu.
  destruct (storage (repo_update (with_enabled m b)) s) as [s1 [[]|e]]; destruct Hu as (Hr1 & _ & He1 & Hx); [|naive_solver].
  destruct Hx as (id' & old & Hid' & Hold & Hc1). cbn in Hid'. assert (id' = id) as -> by congruence.
  unfold contents in Hold, Hm. assert (old = m) as -> by congruence. rewrite updated_enabled in Hc1 by done. unfold m_bind at 1, m_try at 1.
  pose proof (toggle_adapter_outcome (with_enabled m b) b s1 Hr1) as Ht.
  destruct (toggle_adapter (with_enabled m b) b s1) as [s2 [[]|e]]; destruct Ht as (Hr2 & Hc2 & He2).
  { cbn. split; [done|]. split; [unfold contents in *; cbn; congruence|]. by rewrite He2, He1. }
  unfold m_bind at 1, m_try at 1. pose proof (update_outcome m s2 Hr2 Hst) as Hu.
  destruct (storage (repo_update m) s2) as [s3 [[]|e2]]; destruct Hu as (_ & _ & He3 & Hx); cbn; (split; [congruence|]); [|done].
  intros _. destruct Hx as (id' & old & Hid'' & Hold' & ->). assert (id' = id) as -> by congruence.
  rewrite Hc2, Hc1, lookup_insert_eq in Hold'. injection Hold' as <-. rewrite updated_back by done.
  rewrite Hc2, Hc1, insert_insert_eq. by apply insert_id.
Qed.
End Toggling.

(** Toggling is all or nothing.  On success the caller may mutate the metric
    and exactly its [enabled] flag has become the requested one, with one event
    if it was not so already; on failure nothing has changed and no event is
    sent, unless the rollback itself failed and is reported as such. *)
Theorem toggle_metric_all_or_nothing {R A : Type} `{HR : MetricRepository R} `{!RepositoryLaws R} `{HA : DapAdapter A}
  (env : Env) (id : N) (b : bool) (scope : MetricScope) (s : Service R A) (Hs : repo_inv (sv_storage s)) :
  let '(s', x) := toggle_metric env id b scope s in
  match x with
  | Ok r => exists m, contents s !! id = Some m /\ can_mutate scope m = true
      /\ contents s' = <[id := with_enabled m b]> (contents s) /\ tg_storage_updated r = negb (Bool.eqb (m_enabled m) b)
      /\ sv_events s' = (sv_events s ++ if Bool.eqb (m_enabled m) b then [] else [EvMetricToggled id (m_name m) b (m_connection_id m)])%list
  | Err e => sv_events s' = sv_events s /\ (is_rollback_failure e = false -> contents s' = contents s)
  end.
Proof.
  unfold toggle_metric, m_bind at 1. pose proof (find_by_id_law (sv_storage s) id Hs) as Hlaw.
  unfold storage. destruct (repo_find_by_id id (sv_storage s)) as [r [o|e]]; destruct Hlaw as (Hr & Hc & Ho); cbn [map_err];
    [|split; [done|]; intros _; exact Hc].
  specialize (Ho o eq_refl). set (s1 := mkService r _ _ _). assert (contents s1 = contents s) as Hc1 by exact Hc.
  unfold m_bind at 1, m_lift at 1. destruct (metric_or_not_found id o) as [m|e] eqn:Em; [|by split].
  apply metric_or_not_found_ok in Em. rewrite Em in Ho. symmetry in Ho. unfold m_bind at 1, m_lift at 1.
  destruct (check_mutate_access scope m) as [u|e] eqn:Ea; [|by split]. apply check_access_ok in Ea.
  assert (contents s !! id = Some m) as Hm by exact Ho.
  destruct (Bool.eqb (m_enabled m) b) eqn:Eb.
  { cbn. exists m. rewrite Eb. apply Bool.eqb_prop in Eb. split; [done|]. split; [done|]. rewrite Hc1.
    assert (with_enabled m b = m) as -> by (subst b; by destruct m). rewrite insert_id by done. by rewrite List.app_nil_r. }
  pose proof (toggle_stored_outcome env id m b s1 Hr) as Ht. rewrite Hc1 in Ht. specialize (Ht Hm).
  destruct (toggle_stored env id m b s1) as [s2 [x|e]]; [|done]. destruct Ht as (H1 & H2 & H3). exists m. by rewrite Eb.
Qed.

Lemma toggle_metric_all_or_nothing_witness :
  let '(s', x) := toggle_metric sample_env 1 false (ScopeUser "bob") bobs_service in
  (m_enabled <$> contents s' !! 1%N) = Some false.
Proof.
  pose proof (toggle_metric_all_or_nothing sample_env 1 false (ScopeUser "bob") bobs_service bobs_service_inv) as Hh.
  destruct (toggle_metric sample_env 1 false (ScopeUser "bob") bobs_service) as [s' x] eqn:E.
  assert (is_ok x = true) as Hok
    by (replace x with (snd (toggle_metric sample_env 1 false (ScopeUser "bob") bobs_service)) by (by rewrite E); vm_compute; reflexivity).
  destruct x as [r|]; [|discriminate Hok]. destruct Hh as (m & _ & _ & Hc & _). by rewrite Hc, lookup_insert_eq.
Defined.

(** ** One logpoint per line *)

#[export] Instance str_le_total : Total str_le.
Proof.
  intros a b. unfold str_le, String.leb. rewrite (String.compare_antisym b a). destruct (String.compare a b); cbn; auto.
Qed.
Lemma str_le_cons c a d b :
  str_le (String c a) (String d b) <-> (N_of_ascii c < N_of_ascii d)%N \/ N_of_ascii c = N_of_ascii d /\ str_le a b.
Proof.
  unfold str_le, String.leb. cbn [String.compare]. unfold Ascii.compare.
  destruct (N.compare_spec (N_of_ascii c) (N_of_ascii d)); split; try done; try lia; auto; intros [?|[? ?]]; try lia; done.
Qed.
#[export] Instance str_le_trans : Transitive str_le.
Proof.
  intros a. induction a as [|c a IH]; intros [|d b] [|e x]; try done. rewrite !str_le_cons.
  intros [H1|[H1 H1']] [H2|[H2 H2']]; try (left; lia). right. split; [lia|]. by eapply IH.
Qed.

Lemma sorted_set_spec es e : e ∈ sorted_set es <-> e ∈ es.
Proof. unfold sorted_set. by rewrite merge_sort_Permutation, elem_of_remove_dups. Qed.
Lemma sorted_set_NoDup es : NoDup (sorted_set es).
Proof. unfold sorted_set. rewrite merge_sort_Permutation. apply NoDup_remove_dups. Qed.

(** The logpoint [sync_logpoint] asks for: on the template's settings, every
    expression some enabled metric of the line captures, once, in order. *)
Record merged_for (ms : list Metric) (merged : Metric) : Prop := {
  mf_template : exists t, t ∈ ms /\ m_enabled t = true /\ merged = with_expressions t (m_expressions merged);
  mf_union : forall e, e ∈ m_expressions merged <-> exists m, m ∈ ms /\ m_enabled m = true /\ e ∈ m_expressions m;
  mf_sorted : StronglySorted str_le (m_expressions merged);
  mf_once : NoDup (m_expressions merged)
}.

Lemma enabled_expressions ms e :
  e ∈ sorted_set (List.concat (map m_expressions (List.filter m_enabled ms))) <-> exists m, m ∈ ms /\ m_enabled m = true /\ e ∈ m_expressions m.
Proof.
  rewrite sorted_set_spec, list_elem_of_In, in_concat. setoid_rewrite in_map_iff. setoid_rewrite List.filter_In. setoid_rewrite list_elem_of_In. naive_solver.
Qed.

Lemma merged_logpoint_spec ms :
  match merged_logpoint (List.filter m_enabled ms) with
  | Some merged => merged_for ms merged
  | None => forall m, m ∈ ms -> m_enabled m = true -> m_expressions m = []
  end.
Proof.
  pose proof (enabled_expressions ms) as Hall. unfold merged_logpoint. destruct (List.filter m_enabled ms) as [|t ts] eqn:E.
  { intros m Hm Hen. assert (In m (List.filter m_enabled ms)) as Hin by (apply List.filter_In; by rewrite <- list_elem_of_In). by rewrite E in Hin. }
  destruct (sorted_set (List.concat (map m_expressions (t :: ts)))) as [|e0 es] eqn:Es.
  { intros m Hm Hen. destruct (m_expressions m) as [|e es] eqn:Em; [done|]. exfalso.
    assert (e ∈ []) as []%elem_of_nil by (apply Hall; exists m; rewrite Em; repeat split; [done..|left]). }
  assert (In t (List.filter m_enabled ms)) as Ht by (rewrite E; by left). apply List.filter_In in Ht as [Ht Hen].
  rewrite <- list_elem_of_In in Ht. split; cbn.
  - exists t. done.
  - done.
  - rewrite <- Es. unfold sorted_set. apply StronglySorted_merge_sort; apply _.
  - rewrite <- Es. apply sorted_set_NoDup.
Qed.

Section Reconciling.
Context {R A : Type} `{HR : MetricRepository R} `{HL : !RepositoryLaws R} `{HA : DapAdapter A}.

(** What the adapter of a connection has become. *)
Definition adapter_became (s : Service R A) (conn : string) (ma : ManagedAdapter A) (a : A) (s' : Service R A) : Prop :=
  sv_adapters s' = <[conn := mkManaged a (ma_safe_mode ma)]> (sv_adapters s).

Lemma quietly_adapter {X : Type} conn (k : A -> A * result X Error) (s : Service R A) ma :
  sv_adapters s !! conn = Some ma ->
  exists s', quietly conn k s = (s', Ok tt) /\ sv_storage s' = sv_storage s /\ sv_events s' = sv_events s
    /\ adapter_became s conn ma (fst (k (ma_adapter ma))) s'.
Proof.
  intros Hma. unfold quietly, m_bind, m_try, on_adapter. rewrite Hma. destruct (k (ma_adapter ma)) as [a x]. cbn. by eexists.
Qed.

(** After a change at a line the debugger is told to hold one logpoint there,
    which captures exactly the expressions of the enabled metrics of that line,
    of every owner, each once and in order; when none is left, it is told to
    remove the logpoint.  Nothing stored changes. *)
Theorem sync_logpoint_reconciles (conn file : string) (line : N) (fallback : option Metric) (s : Service R A) (ma : ManagedAdapter A)
  (Hs : repo_inv (sv_storage s)) (Hma : sv_adapters s !! conn = Some ma) :
  let '(s', x) := sync_logpoint conn file line fallback s in
  contents s' = contents s /\ sv_events s' = sv_events s /\
  match x with
  | Err _ => sv_adapters s' = sv_adapters s
  | Ok _ => exists ms, (forall m, m ∈ ms <-> exists id, contents s !! id = Some m /\ located conn file line m) /\
      ((exists merged, merged_for ms merged /\ adapter_became s conn ma (fst (adapter_set_metric merged (ma_adapter ma))) s')
       \/ (forall m, m ∈ ms -> m_enabled m = true -> m_expressions m = [])
          /\ match (match fallback with Some m => Some m | None => head ms end) with
             | Some m => adapter_became s conn ma (fst (adapter_remove_metric m (ma_adapter ma))) s'
             | None => sv_adapters s' = sv_adapters s
             end)
  end.
Proof.
  unfold sync_logpoint, m_bind. pose proof (find_all_at_location_law (sv_storage s) conn file line Hs) as Hlaw.
  unfold storage. destruct (repo_find_all_at_location conn file line (sv_storage s)) as [r [ms|e]]; destruct Hlaw as (Hr & Hc & Hms); cbn [map_err]; [|done].
  specialize (Hms ms eq_refl). set (s1 := mkService r _ _ _). assert (sv_adapters s1 !! conn = Some ma) as Hma1 by done.
  pose proof (merged_logpoint_spec ms) as Hsp. destruct (merged_logpoint (List.filter m_enabled ms)) as [merged|].
  { destruct (quietly_adapter conn (adapter_set_metric merged) s1 ma Hma1) as (s' & -> & H1 & H2 & H3).
    unfold contents. rewrite H1, H2. split; [done|]. split; [done|]. exists ms. split; [done|]. left. exists merged. split; [done|exact H3]. }
  destruct (match fallback with Some m => Some m | None => head ms end) as [m|] eqn:Ef.
  - destruct (quietly_adapter conn (adapter_remove_metric m) s1 ma Hma1) as (s' & -> & H1 & H2 & H3).
    unfold contents. rewrite H1, H2. split; [done|]. split; [done|]. exists ms. split; [done|]. right. rewrite Ef. split; [done|exact H3].
  - cbn. split; [done|]. split; [done|]. exists ms. split; [done|]. right. by rewrite Ef.
Qed.
End Reconciling.

Lemma sync_logpoint_reconciles_witness :
  let '(s', x) := sync_logpoint "conn" "a.py" 3 None bobs_service in
  x = Ok tt /\ contents s' = contents bobs_service.
Proof.
  assert (exists ma, sv_adapters bobs_service !! "conn" = Some ma) as [ma Hma] by (eexists; vm_compute; reflexivity).
  pose proof (sync_logpoint_reconciles "conn" "a.py" 3 None bobs_service ma bobs_service_inv Hma) as Hh.
  destruct (sync_logpoint "conn" "a.py" 3 None bobs_service) as [s' x] eqn:E.
  assert (x = Ok tt) as -> by (replace x with (snd (sync_logpoint "conn" "a.py" 3 None bobs_service)) by (by rewrite E); vm_compute; reflexivity).
  split; [reflexivity|]. by destruct Hh as (Hc & _).
Defined.

(** ** Safe mode and limits *)

(** On a connection in safe mode exactly those metrics pass the check whose
    breakpoint is a logpoint for every adapter: no capture and no call of a Go
    function, which would stop the program. *)
Theorem safe_mode_only_logpoints (m : Metric) :
  validate_safe_mode (Some true) m = Ok tt <->
  forall introspects msg, sb_log_message (build_source_breakpoint m introspects msg) = Some msg.
Proof.
  unfold validate_safe_mode, requires_breakpoint, build_source_breakpoint.
  destruct (needs_introspection m), (is_go_function_call m); cbn; split; try done; intros H; try done;
    [specialize (H false EmptyString)|specialize (H false EmptyString)|specialize (H true EmptyString)]; done.
Qed.

(** Limits of one expression per metric. *)
Definition one_expression_env : Env :=
  mkEnv (fun _ => EmptyString) (mkLimits 100 1) (fun _ => true) (fun _ _ _ => Ok vr_safe) (fun r _ _ => r)
    (fun _ _ => Err "no file") (fun _ _ => Err "no anchor") (fun l => l) 1000.

(** Merging does not respect the limit on expressions per metric: with at
    most one allowed, two accepted additions at a line leave a stored metric
    with two, although what is stored is meant to have been validated. *)
Theorem merge_exceeds_expression_limit :
  let s := run_history one_expression_env
             [SAdd (owned_metric "m1" "bob" "a.py" 3 ["x"]) false None; SAdd (owned_metric "m2" "bob" "a.py" 3 ["y"]) false None] (sample_service []) in
  exists m, contents s !! 1%N = Some m /\ (max_expressions_per_metric (env_limits one_expression_env) < lenN (m_expressions m))%N
    /\ is_ok (validate_metric_fields one_expression_env m) = false.
Proof. eexists. split; [vm_compute; reflexivity|]. split; vm_compute; reflexivity. Qed.

(** [update_metric] checks the owner the caller wrote into the metric, not the
    owner of the stored one: a caller who may not mutate a stored metric changes
    its expressions by sending its id with his own name as the owner. *)
Theorem update_metric_trusts_supplied_owner :
  let forged := with_id (owned_metric "m1" "alice" "a.py" 3 ["secret"]) (Some 1%N) in
  let '(s', x) := update_metric sample_env forged (ScopeUser "alice") bobs_service in
  is_ok x = true
  /\ (can_mutate (ScopeUser "alice") <$> contents bobs_service !! 1%N) = Some false
  /\ (m_expressions <$> contents bobs_service !! 1%N) = Some ["x"]
  /\ (m_expressions <$> contents s' !! 1%N) = Some ["secret"].
Proof. vm_compute. repeat split. Qed.
