(* ===== verification/Lifecycle.v ===== *)
(** * The adapter lifecycle

    [crates/detrix-application/src/services/adapter_lifecycle_manager.rs]:
    starting, registering and stopping the adapters of connections, the event
    listeners and the task that cleans up after crashes.  Calls of
    [start_adapter] overlap with each other and with everything else, so a call
    has a program counter, and a move of the system runs one call up to its next
    use of the shared maps ([pending_starts], [adapters]); what happens in
    between concerns only the adapter the call has made.  The answers of
    factories, debuggers and repositories are arguments of the moves.  An adapter
    is known by its number; its log says what was asked of it. *)

From Stdlib Require Import Strings.String.
From stdpp Require Import gmap.
From S2P Require Import Prelude CoreError RustStr Language Metric.

Local Open Scope string_scope.

(** ** State *)

(** What was done for an adapter.  [AAdopt]: a caller of [register_adapter] handed
    it over, started; [ALoaded]: the repository was asked for the metrics of the
    connection, and this was its answer. *)
Inductive Action : Type := AStart | AAdopt | ALoaded (answer : result (list Metric) Error) | ASetMetrics (ms : list Metric) | AContinue | AStop.

(** [LDetached]: the registry entry with the listener's shutdown channel is gone,
    and nobody holds a handle of the task. *)
Inductive Listener : Type := LRunning | LEnded | LDetached.

Record Session : Type := mkSession { ad_conn : string; ad_log : list Action; ad_listener : Listener }.

Record ManagedAdapter : Type := mkManaged { ma_adapter : nat; ma_safe_mode : bool }.

Record StartAdapterResult : Type := mkStart {
  sr_sync_failed : bool; sr_resume_failed : bool; sr_metrics_synced : N; sr_metrics_failed : N
}.
Definition default_start_result : StartAdapterResult := mkStart false false 0 0.

(** Where a call of [start_adapter] stands. *)
Inductive Pc : Type :=
| Enter (retry_count : N)
| TakeOver
| Waiting (retry_count : N)
| CheckExisting
| Creating
| Started (i : nat)
| Synced (i : nat) (r : StartAdapterResult)
| Inserting (i : nat) (r : StartAdapterResult)
| Dropping (r : result StartAdapterResult Error).

Record Call : Type := mkCall { ca_conn : string; ca_port : N; ca_language : SourceLanguage; ca_safe_mode : bool; ca_pc : Pc }.

Record Manager : Type := mkMgr {
  mg_adapters : gmap string ManagedAdapter;
  mg_pending : gmap string N;
  mg_instances : list Session;
  mg_cleanup : list string;
  mg_calls : gmap nat Call;
  mg_returned : list (nat * result StartAdapterResult Error)
}.
Definition new_manager : Manager := mkMgr ∅ ∅ [] [] ∅ [].

Definition set_adapters (x : gmap string ManagedAdapter) (m : Manager) : Manager :=
  mkMgr x (mg_pending m) (mg_instances m) (mg_cleanup m) (mg_calls m) (mg_returned m).
Definition set_pending (x : gmap string N) (m : Manager) : Manager :=
  mkMgr (mg_adapters m) x (mg_instances m) (mg_cleanup m) (mg_calls m) (mg_returned m).
Definition set_instances (x : list Session) (m : Manager) : Manager :=
  mkMgr (mg_adapters m) (mg_pending m) x (mg_cleanup m) (mg_calls m) (mg_returned m).
Definition set_cleanup (x : list string) (m : Manager) : Manager :=
  mkMgr (mg_adapters m) (mg_pending m) (mg_instances m) x (mg_calls m) (mg_returned m).
Definition set_call (k : nat) (c : Call) (m : Manager) : Manager :=
  mkMgr (mg_adapters m) (mg_pending m) (mg_instances m) (mg_cleanup m) (<[k := c]> (mg_calls m)) (mg_returned m).
Definition end_call (k : nat) (m : Manager) : Manager :=
  mkMgr (mg_adapters m) (mg_pending m) (mg_instances m) (mg_cleanup m) (delete k (mg_calls m)) (mg_returned m).
Definition return_call (k : nat) (r : result StartAdapterResult Error) (m : Manager) : Manager :=
  mkMgr (mg_adapters m) (mg_pending m) (mg_instances m) (mg_cleanup m) (delete k (mg_calls m)) (mg_returned m ++ [(k, r)])%list.

Definition at_pc (c : Call) (pc : Pc) : Call := mkCall (ca_conn c) (ca_port c) (ca_language c) (ca_safe_mode c) pc.
Definition goto (k : nat) (c : Call) (pc : Pc) (m : Manager) : Manager := set_call k (at_pc c pc) m.

Definition act (i : nat) (f : Session -> Session) (m : Manager) : Manager := set_instances (alter f i (mg_instances m)) m.
Definition log (a : Action) (x : Session) : Session := mkSession (ad_conn x) (ad_log x ++ [a]) (ad_listener x).
Definition listen (l : Listener) (x : Session) : Session := mkSession (ad_conn x) (ad_log x) l.

(** ** Stopping *)

(** [stop_adapter]: the entry is removed first, so only one caller stops it.  The
    listener drains or is aborted; a failure to stop is logged. *)
Definition stop_adapter (connection_id : string) (m : Manager) : Manager :=
  match mg_adapters m !! connection_id with
  | Some ma => act (ma_adapter ma) (log AStop ∘ listen LEnded) (set_adapters (delete connection_id (mg_adapters m)) m)
  | None => m
  end.

(** [stop_all] stops the connections it has listed; [disconnect_all] counts them. *)
Definition stop_all (order : list string) (m : Manager) : Manager := fold_left (fun m cid => stop_adapter cid m) order m.
Definition disconnect_all (order : list string) (m : Manager) : Manager * (nat * bool) :=
  (stop_all order m, (size (mg_adapters m), false)).

(** The cleanup task handles the requests in order, each by connection. *)
Definition cleanup_next (m : Manager) : Manager :=
  match mg_cleanup m with
  | [] => m
  | cid :: rest => stop_adapter cid (set_cleanup rest m)
  end.

(** The event channel of a listener closes: the adapter recovers, or the crash is
    announced and cleanup requested for the connection. *)
Definition channel_closed (i : nat) (recovered : bool) (m : Manager) : Manager :=
  match mg_instances m !! i with
  | Some a => match ad_listener a with
              | LRunning => if recovered then m
                            else act i (listen LEnded) (set_cleanup (mg_cleanup m ++ [ad_conn a])%list m)
              | _ => m
              end
  | None => m
  end.

(** ** Starting *)

(** What the outside answers to the step a call takes. *)
Record Answers : Type := mkAnswers {
  an_agent_managed : bool; an_created : result unit Error; an_started : result unit Error; an_subscribed : result unit Error;
  an_metrics : result (list Metric) Error; an_failed_sets : N; an_resumed : result bool Error; an_timed_out : bool
}.

(** The pair [contains_key] and [insert] of a fresh entry, or the sight of another. *)
Definition enter (k : nat) (c : Call) (n : N) (m : Manager) : Manager :=
  match mg_pending m !! ca_conn c with
  | None => goto k c CheckExisting (set_pending (<[ca_conn c := ca_port c]> (mg_pending m)) m)
  | Some old_port =>
      if (old_port =? ca_port c)%N then goto k c (Waiting n) m
      else goto k c TakeOver (set_pending (delete (ca_conn c) (mg_pending m)) m)
  end.

Definition wait_timeout_error (cid : string) : Error :=
  CoreError.Adapter ("Timeout waiting for connection " ++ cid ++ " to be started by another caller").
Definition retries_error (cid : string) (n : N) : Error :=
  CoreError.Adapter ("Failed to start connection " ++ cid ++ " after " ++ show_N n ++ " retries").
Definition superseded_error (cid : string) : Error :=
  CoreError.Adapter ("Connection " ++ cid ++ " start was superseded by a newer request").

(** A call that waits: for the entry to go, then for what the other call left. *)
Definition await_other (max_retries : N) (k : nat) (c : Call) (n : N) (timed_out : bool) (m : Manager) : Manager :=
  match mg_pending m !! ca_conn c with
  | Some _ => if timed_out then return_call k (Err (wait_timeout_error (ca_conn c))) m else m
  | None =>
      match mg_adapters m !! ca_conn c with
      | Some _ => return_call k (Ok default_start_result) m
      | None => if (max_retries <=? n + 1)%N then return_call k (Err (retries_error (ca_conn c) max_retries)) m
                else goto k c (Enter (n + 1)) m
      end
  end.

(** The factory by language; a connection of an agent has its own adapter. *)
Definition create_adapter (c : Call) (an : Answers) : result unit Error :=
  if an_agent_managed an then Ok tt
  else match ca_language c with
       | Go | Python | Rust => an_created an
       | l => Err (InvalidConfig (language_error (lang_as_str l)))
       end.

(** Create, start and subscribe: an adapter that cannot be heard is stopped. *)
Definition create (k : nat) (c : Call) (an : Answers) (m : Manager) : Manager :=
  match create_adapter c an with
  | Err e => goto k c (Dropping (Err e)) m
  | Ok _ =>
      match an_started an with
      | Err e => goto k c (Dropping (Err e)) m
      | Ok _ =>
          let i := length (mg_instances m) in
          match an_subscribed an with
          | Err e => goto k c (Dropping (Err e)) (set_instances (mg_instances m ++ [mkSession (ca_conn c) [AStart; AStop] LEnded])%list m)
          | Ok _ => goto k c (Started i) (set_instances (mg_instances m ++ [mkSession (ca_conn c) [AStart] LRunning])%list m)
          end
      end
  end.

(** Set the enabled metrics as logpoints, then let the program run. *)
Definition sync_and_resume (k : nat) (c : Call) (i : nat) (an : Answers) (m : Manager) : Manager :=
  let metrics := match an_metrics an with Ok ms => ms | Err _ => [] end in
  let enabled_metrics := List.filter m_enabled metrics in
  let m0 := act i (log (ALoaded (an_metrics an))) m in
  let m1 := match enabled_metrics with [] => m0 | _ => act i (log (ASetMetrics enabled_metrics)) m0 end in
  let failed := N.min (an_failed_sets an) (lenN enabled_metrics) in
  let r := mkStart (negb (is_ok (an_metrics an))) (negb (is_ok (an_resumed an))) (lenN enabled_metrics - failed) failed in
  goto k c (Synced i r) (act i (log AContinue) m1).

(** The port of this call is still the one pending, or a newer call took over. *)
Definition check_cancelled (k : nat) (c : Call) (i : nat) (r : StartAdapterResult) (m : Manager) : Manager :=
  if bool_decide (mg_pending m !! ca_conn c = Some (ca_port c)) then goto k c (Inserting i r) m
  else goto k c (Dropping (Err (superseded_error (ca_conn c)))) (act i (log AStop ∘ listen LEnded) m).

(** [adapters.insert] drops an entry it replaces, with its shutdown channel. *)
Definition insert_managed (cid : string) (ma : ManagedAdapter) (m : Manager) : Manager :=
  let m1 := match mg_adapters m !! cid with Some old => act (ma_adapter old) (listen LDetached) m | None => m end in
  set_adapters (<[cid := ma]> (mg_adapters m1)) m1.

(** The guard's [remove_if]. *)
Definition drop_guard (c : Call) (m : Manager) : Manager :=
  if bool_decide (mg_pending m !! ca_conn c = Some (ca_port c)) then set_pending (delete (ca_conn c) (mg_pending m)) m else m.

Definition run_call (max_retries : N) (k : nat) (c : Call) (an : Answers) (m : Manager) : Manager :=
  match ca_pc c with
  | Enter n => enter k c n m
  | TakeOver => goto k c CheckExisting (set_pending (<[ca_conn c := ca_port c]> (mg_pending m)) m)
  | Waiting n => await_other max_retries k c n (an_timed_out an) m
  | CheckExisting => goto k c Creating (stop_adapter (ca_conn c) m)
  | Creating => create k c an m
  | Started i => sync_and_resume k c i an m
  | Synced i r => check_cancelled k c i r m
  | Inserting i r => goto k c (Dropping (Ok r)) (insert_managed (ca_conn c) (mkManaged i (ca_safe_mode c)) m)
  | Dropping r => return_call k r (drop_guard c m)
  end.

(** [register_adapter], with an adapter its caller has started. *)
Definition register_adapter (cid : string) (safe_mode : bool) (subscribed : result unit Error) (m : Manager) : Manager * result unit Error :=
  let m := stop_adapter cid m in
  match subscribed with
  | Err e => (m, Err e)
  | Ok _ =>
      let i := length (mg_instances m) in
      (insert_managed cid (mkManaged i safe_mode) (set_instances (mg_instances m ++ [mkSession cid [AAdopt] LRunning])%list m), Ok tt)
  end.

Definition has_adapter (cid : string) (m : Manager) : bool := bool_decide (is_Some (mg_adapters m !! cid)).
Definition is_safe_mode (cid : string) (m : Manager) : option bool := ma_safe_mode <$> mg_adapters m !! cid.

(** [update_safe_mode]: the database first ([stored] is whether it has the
    connection, [persisted] the outcome of the update), then the entry. *)
Definition update_safe_mode (cid : string) (safe_mode : bool) (stored : result bool Error) (persisted : result unit Error) (m : Manager)
  : Manager * result bool Error :=
  if negb (has_adapter cid m) then (m, Ok false)
  else match (let? found := stored in if found then persisted else Ok tt) with
       | Err e => (m, Err e)
       | Ok _ => (set_adapters (alter (fun ma => mkManaged (ma_adapter ma) safe_mode) cid (mg_adapters m)) m, Ok true)
       end.

(** ** Moves *)

Inductive Move : Type :=
| MCall (k : nat) (c : string * N * SourceLanguage * bool)
| MRun (k : nat) (an : Answers)
| MCancel (k : nat)
| MRegister (cid : string) (safe_mode : bool) (subscribed : result unit Error)
| MStop (cid : string)
| MStopAll (order : list string)
| MChannelClosed (i : nat) (recovered : bool)
| MCleanup
| MSafeMode (cid : string) (safe_mode : bool) (stored : result bool Error) (persisted : result unit Error).

(** A call whose future is dropped while it awaits: the guard still runs. *)
Definition cancellable (pc : Pc) : bool :=
  match pc with Waiting _ | CheckExisting | Creating | Started _ => true | _ => false end.
Definition owns (pc : Pc) : bool :=
  match pc with Enter _ | TakeOver | Waiting _ => false | _ => true end.

Definition move (max_retries : N) (mv : Move) (m : Manager) : Manager :=
  match mv with
  | MCall k (cid, port, lang, safe_mode) =>
      match mg_calls m !! k with Some _ => m | None => set_call k (mkCall cid port lang safe_mode (Enter 0)) m end
  | MRun k an => match mg_calls m !! k with Some c => run_call max_retries k c an m | None => m end
  | MCancel k =>
      match mg_calls m !! k with
      | Some c => if cancellable (ca_pc c) then end_call k (if owns (ca_pc c) then drop_guard c m else m) else m
      | None => m
      end
  | MRegister cid safe_mode subscribed => fst (register_adapter cid safe_mode subscribed m)
  | MStop cid => stop_adapter cid m
  | MStopAll order => stop_all order m
  | MChannelClosed i recovered => channel_closed i recovered m
  | MCleanup => cleanup_next m
  | MSafeMode cid safe_mode stored persisted => fst (update_safe_mode cid safe_mode stored persisted m)
  end.

Definition moves (max_retries : N) (l : list Move) (m : Manager) : Manager := fold_left (fun m mv => move max_retries mv m) l m.

(** ** No start is blocked for ever *)

(** Every pending entry belongs to a call that is under way and will remove it. *)
Definition pending_owned (m : Manager) : Prop :=
  forall cid p, mg_pending m !! cid = Some p ->
    exists k c, mg_calls m !! k = Some c /\ ca_conn c = cid /\ ca_port c = p /\ owns (ca_pc c) = true.

Lemma stop_adapter_frame cid m :
  mg_pending (stop_adapter cid m) = mg_pending m /\ mg_calls (stop_adapter cid m) = mg_calls m /\
  mg_returned (stop_adapter cid m) = mg_returned m /\ length (mg_instances (stop_adapter cid m)) = length (mg_instances m).
Proof. unfold stop_adapter. destruct (mg_adapters m !! cid); [|done]. cbn. by rewrite length_alter. Qed.

Lemma insert_managed_frame cid ma m :
  mg_pending (insert_managed cid ma m) = mg_pending m /\ mg_calls (insert_managed cid ma m) = mg_calls m.
Proof. unfold insert_managed. by destruct (mg_adapters m !! cid). Qed.

Lemma stop_all_frame order : forall m, mg_pending (stop_all order m) = mg_pending m /\ mg_calls (stop_all order m) = mg_calls m.
Proof.
  induction order as [|cid order IH]; intros m; [done|]. destruct (IH (stop_adapter cid m)) as [E1 E2].
  destruct (stop_adapter_frame cid m) as (E3 & E4 & _). change (stop_all (cid :: order) m) with (stop_all order (stop_adapter cid m)).
  by rewrite E1, E2, E3, E4.
Qed.

(** A call that goes on keeps what it owns. *)
Lemma pending_owned_goto k c pc m m' :
  pending_owned m -> mg_calls m !! k = Some c -> (owns (ca_pc c) = true -> owns pc = true) ->
  mg_pending m' = mg_pending m -> mg_calls m' = mg_calls m -> pending_owned (goto k c pc m').
Proof.
  intros Ho Hk Hpc Ep Ec cid p. cbn. rewrite Ep, Ec. intros (k' & c' & Hk' & H1 & H2 & H3)%Ho.
  destruct (decide (k' = k)) as [->|Hne].
  - exists k, (at_pc c pc). rewrite lookup_insert_eq. rewrite Hk in Hk'. injection Hk' as <-. split; [done|]. split; [done|]. split; [done|]. by apply Hpc.
  - exists k', c'. by rewrite lookup_insert_ne.
Qed.

(** A call that writes its entry owns it. *)
Lemma pending_owned_claim k c pc m :
  pending_owned m -> mg_calls m !! k = Some c -> owns pc = true ->
  pending_owned (goto k c pc (set_pending (<[ca_conn c := ca_port c]> (mg_pending m)) m)).
Proof.
  intros Ho Hk Hpc cid p. cbn. destruct (decide (cid = ca_conn c)) as [->|Hne].
  - rewrite lookup_insert_eq. intros [= <-]. exists k, (at_pc c pc). rewrite lookup_insert_eq. done.
  - rewrite lookup_insert_ne by done. intros (k' & c' & Hk' & H1 & H2 & H3)%Ho. destruct (decide (k' = k)) as [->|Hk2].
    + rewrite Hk in Hk'. injection Hk' as <-. congruence.
    + exists k', c'. by rewrite lookup_insert_ne.
Qed.

(** A call that ends takes its entry with it. *)
Lemma pending_owned_end k c m r :
  pending_owned m -> mg_calls m !! k = Some c ->
  pending_owned (return_call k r (drop_guard c m)) /\ pending_owned (end_call k (drop_guard c m)).
Proof.
  intros Ho Hk.
  assert (forall cid p, mg_pending (drop_guard c m) !! cid = Some p ->
            exists k' c', delete k (mg_calls (drop_guard c m)) !! k' = Some c' /\ ca_conn c' = cid /\ ca_port c' = p /\ owns (ca_pc c') = true) as Hd; [|by split].
  intros cid p. unfold drop_guard. case_bool_decide as Hp; cbn.
  - intros [Hne Hc]%lookup_delete_Some. apply Ho in Hc as (k' & c' & Hk' & H1 & H2 & H3). exists k', c'. split; [|done].
    apply lookup_delete_Some. split; [|done]. intros ->. congruence.
  - intros Hc. destruct (Ho _ _ Hc) as (k' & c' & Hk' & H1 & H2 & H3). exists k', c'. split; [|done].
    apply lookup_delete_Some. split; [|done]. intros ->. rewrite Hk in Hk'. injection Hk' as <-. subst. done.
Qed.

Lemma pending_owned_leave k c m r :
  pending_owned m -> mg_calls m !! k = Some c -> owns (ca_pc c) = false ->
  pending_owned (return_call k r m) /\ pending_owned (end_call k m).
Proof.
  intros Ho Hk Hpc.
  assert (forall cid p, mg_pending m !! cid = Some p ->
            exists k' c', delete k (mg_calls m) !! k' = Some c' /\ ca_conn c' = cid /\ ca_port c' = p /\ owns (ca_pc c') = true) as Hd; [|by split].
  intros cid p (k' & c' & Hk' & H1 & H2 & H3)%Ho. exists k', c'. split; [|done]. apply lookup_delete_Some. split; [|done]. intros ->. congruence.
Qed.

Lemma run_call_owned max k c an m : pending_owned m -> mg_calls m !! k = Some c -> pending_owned (run_call max k c an m).
Proof.
  intros Ho Hk. unfold run_call. destruct (ca_pc c) as [n| |n| | |i|i r|i r|r] eqn:Epc.
  - unfold enter. destruct (mg_pending m !! ca_conn c) as [old|] eqn:Ep; [|by apply pending_owned_claim].
    destruct (old =? ca_port c)%N; [by eapply pending_owned_goto; rewrite ?Epc|].
    assert (pending_owned (set_pending (delete (ca_conn c) (mg_pending m)) m)) as Ho' by (intros cid p Hp; cbn in Hp; apply lookup_delete_Some in Hp as [_ Hp]; by apply Ho).
    eapply pending_owned_goto; [exact Ho'|exact Hk|by rewrite Epc|done|done].
  - by apply pending_owned_claim.
  - unfold await_other.
    assert (forall r, pending_owned (return_call k r m)) as Hl by (intros r; apply (pending_owned_leave k c m r); [done|done|by rewrite Epc]).
    destruct (mg_pending m !! ca_conn c); [by destruct (an_timed_out an)|].
    destruct (mg_adapters m !! ca_conn c); [done|]. destruct (max <=? n + 1)%N; [done|]. by eapply pending_owned_goto; rewrite ?Epc.
  - destruct (stop_adapter_frame (ca_conn c) m) as (E1 & E2 & _). by eapply pending_owned_goto.
  - unfold create. destruct (create_adapter c an); [|by eapply pending_owned_goto]. destruct (an_started an); [|by eapply pending_owned_goto].
    destruct (an_subscribed an); by eapply pending_owned_goto.
  - unfold sync_and_resume. eapply pending_owned_goto; [done|done|done|..]; by destruct (List.filter _ _).
  - unfold check_cancelled. case_bool_decide; by eapply pending_owned_goto.
  - destruct (insert_managed_frame (ca_conn c) (mkManaged i (ca_safe_mode c)) m) as [E1 E2]. by eapply pending_owned_goto.
  - by apply pending_owned_end.
Qed.

Lemma move_owned max mv m : pending_owned m -> pending_owned (move max mv m).
Proof.
  assert (forall m', mg_pending m' = mg_pending m -> mg_calls m' = mg_calls m -> pending_owned m -> pending_owned m') as Hframe
    by (intros m' E1 E2 Ho; unfold pending_owned; by rewrite E1, E2).
  intros Ho. destruct mv as [k [[[cid port] lang] sm]|k an|k|cid sm sub|cid|order|i rec| |cid sm st pe]; cbn [move].
  - destruct (mg_calls m !! k) eqn:Ek; [done|]. intros cid' p. cbn. intros (k' & c' & Hk' & Hrest)%Ho. exists k', c'. split; [|done].
    rewrite lookup_insert_ne by congruence. done.
  - destruct (mg_calls m !! k) eqn:Ek; [by apply run_call_owned|done].
  - destruct (mg_calls m !! k) as [c|] eqn:Ek; [|done]. destruct (cancellable (ca_pc c)); [|done].
    destruct (owns (ca_pc c)) eqn:Eo; [by apply (pending_owned_end k c m (Ok default_start_result)) | by apply (pending_owned_leave k c m (Ok default_start_result))].
  - unfold register_adapter. destruct (stop_adapter_frame cid m) as (E1 & E2 & _). destruct sub; cbn [fst]; [|by apply Hframe].
    match goal with |- pending_owned (insert_managed ?a ?b ?c) => destruct (insert_managed_frame a b c) as [E3 E4] end.
    apply Hframe; [by rewrite E3|by rewrite E4|done].
  - destruct (stop_adapter_frame cid m) as (E1 & E2 & _). by apply Hframe.
  - destruct (stop_all_frame order m) as [E1 E2]. by apply Hframe.
  - unfold channel_closed. destruct (mg_instances m !! i); [|done]. destruct (ad_listener _); [|done|done]. by destruct rec.
  - unfold cleanup_next. destruct (mg_cleanup m) as [|cid rest]; [done|]. destruct (stop_adapter_frame cid (set_cleanup rest m)) as (E1 & E2 & _). by apply Hframe.
  - unfold update_safe_mode. destruct (negb (has_adapter cid m)); [done|]. by destruct (res_bind _ _).
Qed.

(** C7: no start of a connection is blocked for ever by a start that is over.  In
    every history of overlapping calls, take-overs by another port, cancelled
    calls, crashes, stops and failures, each entry of [pending_starts] belongs to
    a call that is still under way; when no call is under way the map is empty. *)
Theorem pending_starts_have_owners max l :
  let m := moves max l new_manager in
  (forall cid p, mg_pending m !! cid = Some p ->
     exists k c, mg_calls m !! k = Some c /\ ca_conn c = cid /\ ca_port c = p /\ owns (ca_pc c) = true) /\
  (mg_calls m = ∅ -> mg_pending m = ∅).
Proof.
  assert (pending_owned (moves max l new_manager)) as Ho.
  { unfold moves. assert (pending_owned new_manager) as H0 by done. revert H0. generalize new_manager.
    induction l as [|mv l IH]; intros m Hm; [done|]. by apply IH, move_owned. }
  split; [exact Ho|]. intros Ec. apply map_empty. intros cid. destruct (mg_pending _ !! cid) eqn:E; [|done].
  apply Ho in E as (k & c & Hk & _). by rewrite Ec, lookup_empty in Hk.
Qed.

(** ** Adapters are well managed *)

(** The enabled metrics among those the repository answered with: none when it
    failed. *)
Definition enabled_of (answer : result (list Metric) Error) : list Metric :=
  match answer with Ok ms => List.filter m_enabled ms | Err _ => [] end.
Definition sync_log (answer : result (list Metric) Error) : list Action :=
  (ALoaded answer :: match enabled_of answer with [] => [] | es => [ASetMetrics es] end ++ [AContinue])%list.

(** Started, then given exactly the enabled metrics of the connection, then
    resumed. *)
Definition resumed_log (l : list Action) : Prop := exists answer, l = AStart :: sync_log answer.
Definition ready_log (l : list Action) : Prop := l = [AAdopt] \/ resumed_log l.
(** At most one stop, and nothing after it. *)
Definition live_log (l : list Action) : Prop := l = [AStart] \/ ready_log l.
Definition log_ok (l : list Action) : Prop := live_log l \/ exists l', live_log l' /\ l = (l' ++ [AStop])%list.

Definition pc_session (pc : Pc) : option nat :=
  match pc with Started i | Synced i _ | Inserting i _ => Some i | _ => None end.
(** What was done for the adapter a call holds. *)
Definition pc_log (pc : Pc) : list Action -> Prop := match pc with Started _ => eq [AStart] | _ => resumed_log end.

(** The session [i] is there for connection [cid], with such a log. *)
Definition session_with (P : list Action -> Prop) (m : Manager) (cid : string) (i : nat) : Prop :=
  exists s, mg_instances m !! i = Some s /\ ad_conn s = cid /\ P (ad_log s).

Record managed (m : Manager) : Prop := {
  md_logs : forall i s, mg_instances m !! i = Some s -> log_ok (ad_log s);
  md_registered : forall cid ma, mg_adapters m !! cid = Some ma -> session_with ready_log m cid (ma_adapter ma);
  md_held : forall k c i, mg_calls m !! k = Some c -> pc_session (ca_pc c) = Some i -> session_with (pc_log (ca_pc c)) m (ca_conn c) i;
  md_apart : forall cid ma k c, mg_adapters m !! cid = Some ma -> mg_calls m !! k = Some c -> pc_session (ca_pc c) <> Some (ma_adapter ma);
  md_distinct : forall k1 k2 c1 c2 i, mg_calls m !! k1 = Some c1 -> mg_calls m !! k2 = Some c2 ->
    pc_session (ca_pc c1) = Some i -> pc_session (ca_pc c2) = Some i -> k1 = k2
}.

Lemma pc_log_live pc l : pc_log pc l -> live_log l.
Proof. destruct pc; cbn; intros H; first [by left | right; by right]. Qed.
Lemma session_weaken (P Q : list Action -> Prop) m cid i : (forall l, P l -> Q l) -> session_with P m cid i -> session_with Q m cid i.
Proof. intros H (s & H1 & H2 & H3). exists s. auto. Qed.

(** Only these three parts matter. *)
Lemma managed_ext m m' :
  mg_adapters m' = mg_adapters m -> mg_instances m' = mg_instances m -> mg_calls m' = mg_calls m -> managed m -> managed m'.
Proof. intros E1 E2 E3 [H1 H2 H3 H4 H5]. constructor; unfold session_with in *; rewrite ?E1, ?E2, ?E3; done. Qed.

(** Changing one session nobody else needs: whoever holds another keeps it. *)
Lemma session_act P m i f cid j : j <> i -> session_with P (act i f m) cid j <-> session_with P m cid j.
Proof. intros Hne. unfold session_with. cbn. by rewrite list_lookup_alter_ne. Qed.

Lemma logs_act m i f : managed m -> (forall s, mg_instances m !! i = Some s -> log_ok (ad_log (f s))) ->
  forall j s, mg_instances (act i f m) !! j = Some s -> log_ok (ad_log s).
Proof.
  intros Hm Hf j s. cbn. destruct (decide (j = i)) as [->|Hne].
  - rewrite list_lookup_alter_eq. destruct (mg_instances m !! i) as [s0|]; [|done]. intros [= <-]. by apply Hf.
  - rewrite list_lookup_alter_ne by done. by apply md_logs.
Qed.

(** A session changed in a way that keeps its log. *)
Lemma session_listen P m i l cid j : session_with P (act i (listen l) m) cid j <-> session_with P m cid j.
Proof.
  destruct (decide (j = i)) as [->|Hne]; [|by apply session_act]. unfold session_with. cbn. rewrite list_lookup_alter_eq.
  destruct (mg_instances m !! i) as [s|]; cbn; [|done]. split; intros (s' & [= <-] & H1 & H2); eexists; (split; [done|]); done.
Qed.

Lemma managed_listen m i l : managed m -> managed (act i (listen l) m).
Proof.
  intros Hm. pose proof Hm as [H1 H2 H3 H4 H5]. constructor; [|..|exact H4|exact H5].
  - apply logs_act; [done|]. intros s Hs. exact (H1 i s Hs).
  - intros cid ma Hc. apply session_listen. by apply H2.
  - intros k c j Hk Hj. apply session_listen. by apply (H3 k).
Qed.

Lemma stop_log s : live_log (ad_log s) -> log_ok (ad_log ((log AStop ∘ listen LEnded) s)).
Proof. intros Hl. right. by exists (ad_log s). Qed.

Lemma managed_stop cid m : managed m -> managed (stop_adapter cid m).
Proof.
  intros Hm. pose proof Hm as [H1 H2 H3 H4 H5]. unfold stop_adapter. destruct (mg_adapters m !! cid) as [ma|] eqn:Ec; [|done].
  destruct (H2 _ _ Ec) as (s0 & Hs0 & Hc0 & Hl0). constructor.
  - apply (logs_act m (ma_adapter ma)); [done|]. intros s Hs. rewrite Hs0 in Hs. injection Hs as <-. apply stop_log. by right.
  - intros cid' ma' Hc'. cbn in Hc'. apply lookup_delete_Some in Hc' as [Hne Hc']. destruct (H2 _ _ Hc') as (s' & Hs' & Hcs & Hl').
    assert (ma_adapter ma' <> ma_adapter ma) by congruence. exists s'. cbn. by rewrite list_lookup_alter_ne.
  - intros k c i Hk Hi. cbn in Hk. assert (i <> ma_adapter ma) as Hne by (intros ->; by eapply H4).
    apply session_act; [done|]. by apply H3 with k.
  - intros cid' ma' k c Hc'. cbn in Hc'. apply lookup_delete_Some in Hc' as [_ Hc']. by apply H4 with cid'.
  - exact H5.
Qed.

(** A call that changes its own session and goes on. *)
Lemma managed_update k c pc i f m :
  managed m -> mg_calls m !! k = Some c -> pc_session (ca_pc c) = Some i ->
  (forall s, mg_instances m !! i = Some s -> pc_log (ca_pc c) (ad_log s) ->
     ad_conn (f s) = ad_conn s /\ log_ok (ad_log (f s)) /\ (pc_session pc = Some i -> pc_log pc (ad_log (f s)))) ->
  (pc_session pc = Some i \/ pc_session pc = None) -> managed (goto k c pc (act i f m)).
Proof.
  intros Hm Hk Hi Hf Hpc. pose proof Hm as [H1 H2 H3 H4 H5]. destruct (H3 k c i Hk Hi) as (s0 & Hs0 & Hc0 & Hl0).
  destruct (Hf s0 Hs0 Hl0) as (Hfc & Hfl & Hfs).
  constructor.
  - apply (logs_act m i); [done|]. intros s Hs. rewrite Hs0 in Hs. by injection Hs as <-.
  - intros cid ma Hc. apply (session_act _ m); [|by apply H2]. intros E. by apply (H4 cid ma k c Hc Hk); rewrite E.
  - intros k' c' j. cbn [goto set_call mg_calls]. destruct (decide (k' = k)) as [->|Hne].
    + rewrite lookup_insert_eq. intros [= <-] Hj. cbn in Hj. destruct Hpc as [Hpc|Hpc]; [|congruence]. assert (j = i) as -> by congruence.
      exists (f s0). cbn. rewrite list_lookup_alter_eq, Hs0. cbn. split; [done|]. split; [congruence|by apply Hfs].
    + rewrite lookup_insert_ne by done. intros Hk' Hj. assert (j <> i) as Hji by (intros ->; by apply Hne, (H5 k' k c' c i)).
      apply (session_act _ m); [done|]. by apply (H3 k').
  - intros cid ma k' c' Hc. cbn. destruct (decide (k' = k)) as [->|Hne].
    + rewrite lookup_insert_eq. intros [= <-]. cbn. destruct Hpc as [Hpc|Hpc]; rewrite Hpc; [rewrite <- Hi; by eapply H4|done].
    + rewrite lookup_insert_ne by done. by apply H4 with cid.
  - intros k1 k2 c1 c2 j. cbn. intros Hk1 Hk2 Hj1 Hj2.
    assert (forall k' c', <[k:=at_pc c pc]> (mg_calls m) !! k' = Some c' -> pc_session (ca_pc c') = Some j ->
              exists c'', mg_calls m !! k' = Some c'' /\ pc_session (ca_pc c'') = Some j) as Hback.
    { intros k' c' Hl Hj. destruct (decide (k' = k)) as [->|Hne]; [|rewrite lookup_insert_ne in Hl by done; by exists c'].
      rewrite lookup_insert_eq in Hl. injection Hl as <-. cbn in Hj. exists c. split; [done|]. destruct Hpc; congruence. }
    destruct (Hback _ _ Hk1 Hj1) as (c1' & ? & ?), (Hback _ _ Hk2 Hj2) as (c2' & ? & ?). by eapply H5.
Qed.

(** Calls that hold no more than before. *)
Lemma managed_calls m m' :
  mg_adapters m' = mg_adapters m -> mg_instances m' = mg_instances m ->
  (forall k c' i, mg_calls m' !! k = Some c' -> pc_session (ca_pc c') = Some i ->
     exists c, mg_calls m !! k = Some c /\ pc_session (ca_pc c) = Some i /\ ca_conn c = ca_conn c' /\ pc_log (ca_pc c') = pc_log (ca_pc c)) ->
  managed m -> managed m'.
Proof.
  intros E1 E2 Hc [H1 H2 H3 H4 H5]. constructor; unfold session_with in *; rewrite ?E1, ?E2.
  - done.
  - done.
  - intros k c' i Hk Hi. destruct (Hc k c' i Hk Hi) as (c & Hk0 & Hi0 & Econ & Hst). rewrite Hst, <- Econ. by apply (H3 k).
  - intros cid ma k c' Hcid Hk E. destruct (Hc k c' _ Hk E) as (c & Hk0 & Hi0 & _). by apply (H4 cid ma k c).
  - intros k1 k2 c1 c2 i Hk1 Hk2 Hi1 Hi2. destruct (Hc _ _ _ Hk1 Hi1) as (c1' & ? & ? & _), (Hc _ _ _ Hk2 Hi2) as (c2' & ? & ? & _). by eapply H5.
Qed.

Lemma managed_goto k c pc m :
  managed m -> mg_calls m !! k = Some c -> (pc_session pc = None \/ pc_session pc = pc_session (ca_pc c) /\ pc_log pc = pc_log (ca_pc c)) ->
  managed (goto k c pc m).
Proof.
  intros Hm Hk Hpc. apply (managed_calls m); [done|done| |exact Hm]. intros k' c' i. cbn. destruct (decide (k' = k)) as [->|Hne].
  - rewrite lookup_insert_eq. intros [= <-] Hi. cbn in Hi. exists c. cbn. destruct Hpc as [Hpc|[Hpc Hl]]; [congruence|]. split; [done|]. split; [congruence|done].
  - rewrite lookup_insert_ne by done. intros. by exists c'.
Qed.

Lemma managed_leave k r m : managed m -> managed (return_call k r m) /\ managed (end_call k m).
Proof.
  intros Hm. split; (apply (managed_calls m); [done|done| |exact Hm]); intros k' c' i; cbn; intros [_ Hk]%lookup_delete_Some ?; by exists c'.
Qed.

Lemma session_new P m x cid i : session_with P m cid i -> session_with P (set_instances (mg_instances m ++ [x])%list m) cid i.
Proof. intros (s & Hs & Hr). exists s. cbn. split; [by apply lookup_app_l_Some|done]. Qed.

(** A new session that nobody holds yet. *)
Lemma managed_new m x : managed m -> log_ok (ad_log x) -> managed (set_instances (mg_instances m ++ [x])%list m).
Proof.
  intros [H1 H2 H3 H4 H5] Hx. constructor; [|..|exact H4|exact H5].
  - intros i s. cbn. intros [Hs|[_ Hs]]%lookup_app_Some; [by apply (H1 i)|]. apply list_lookup_singleton_Some in Hs as [_ <-]. done.
  - intros cid ma Hc. apply session_new. by apply (H2 cid ma).
  - intros k c i Hk Hi. apply session_new. by apply (H3 k).
Qed.

Lemma session_bound P m cid i : session_with P m cid i -> (i < length (mg_instances m))%nat.
Proof. intros (s & Hs & _). by eapply lookup_lt_Some. Qed.

Lemma managed_create k c m : managed m -> mg_calls m !! k = Some c ->
  managed (goto k c (Started (length (mg_instances m))) (set_instances (mg_instances m ++ [mkSession (ca_conn c) [AStart] LRunning])%list m)).
Proof.
  intros Hm Hk. assert (log_ok (ad_log (mkSession (ca_conn c) [AStart] LRunning))) as Hx by (left; by left).
  pose proof (managed_new m _ Hm Hx) as [H1 H2 H3 H4 H5]. pose proof Hm as [_ G2 G3 _ _].
  set (m' := set_instances (mg_instances m ++ [mkSession (ca_conn c) [AStart] LRunning])%list m) in *.
  assert (mg_instances m' !! length (mg_instances m) = Some (mkSession (ca_conn c) [AStart] LRunning)) as Hn by (cbn; by apply list_lookup_middle).
  constructor; [exact H1|exact H2|..].
  - intros k' c' i. cbn [goto set_call mg_calls]. destruct (decide (k' = k)) as [->|Hne].
    + rewrite lookup_insert_eq. intros [= <-] [= <-]. eexists. split; [exact Hn|done].
    + rewrite lookup_insert_ne by done. apply H3.
  - intros cid ma k' c' Hc. cbn [goto set_call mg_calls]. destruct (decide (k' = k)) as [->|Hne].
    + rewrite lookup_insert_eq. intros [= <-] [= E]. apply G2, session_bound in Hc. lia.
    + rewrite lookup_insert_ne by done. by apply (H4 cid).
  - intros k1 k2 c1 c2 i. cbn [goto set_call mg_calls]. intros Hk1 Hk2 Hi1 Hi2.
    assert (forall k' c', <[k:=at_pc c (Started (length (mg_instances m)))]> (mg_calls m) !! k' = Some c' -> pc_session (ca_pc c') = Some i ->
              (k' = k /\ i = length (mg_instances m)) \/ (mg_calls m !! k' = Some c' /\ (i < length (mg_instances m))%nat)) as Hcase.
    { intros k' c' Hl Hi. destruct (decide (k' = k)) as [->|Hne].
      - rewrite lookup_insert_eq in Hl. injection Hl as <-. cbn in Hi. left. split; congruence.
      - rewrite lookup_insert_ne in Hl by done. right. split; [done|]. by apply (G3 k' c'), session_bound in Hi. }
    destruct (Hcase _ _ Hk1 Hi1) as [[-> ?]|[Hm1 ?]], (Hcase _ _ Hk2 Hi2) as [[-> ?]|[Hm2 ?]]; [done|lia|lia|by eapply H5].
Qed.

(** A session passes into the registry when no call holds it any more. *)
Lemma managed_adopt cid ma m :
  managed m -> session_with ready_log m cid (ma_adapter ma) -> (forall k c, mg_calls m !! k = Some c -> pc_session (ca_pc c) <> Some (ma_adapter ma)) ->
  managed (insert_managed cid ma m).
Proof.
  intros Hm Hl Hno. unfold insert_managed.
  set (m1 := match mg_adapters m !! cid with Some old => act (ma_adapter old) (listen LDetached) m | None => m end).
  assert (managed m1) as Hm1 by (unfold m1; destruct (mg_adapters m !! cid); [by apply managed_listen|done]).
  assert (session_with ready_log m1 cid (ma_adapter ma)) as Hl1 by (unfold m1; destruct (mg_adapters m !! cid); [by apply session_listen|done]).
  assert (mg_calls m1 = mg_calls m) as Ec by (unfold m1; by destruct (mg_adapters m !! cid)).
  destruct Hm1 as [H1 H2 H3 H4 H5]. constructor; [exact H1|..|exact H3| |exact H5].
  - intros cid' ma'. cbn. destruct (decide (cid' = cid)) as [->|Hne]; [rewrite lookup_insert_eq; intros [= <-]; exact Hl1|].
    rewrite lookup_insert_ne by done. apply H2.
  - intros cid' ma' k c. cbn [set_adapters mg_adapters mg_calls]. destruct (decide (cid' = cid)) as [->|Hne].
    + rewrite lookup_insert_eq, Ec. intros [= <-]. apply Hno.
    + rewrite lookup_insert_ne by done. apply H4.
Qed.

Lemma drop_guard_managed c m : managed m -> managed (drop_guard c m).
Proof. unfold drop_guard. case_bool_decide; [|done]. by apply managed_ext. Qed.

(** Loading, setting and resuming are one change of the session. *)
Lemma sync_acts k c i an m : exists r,
  sync_and_resume k c i an m = goto k c (Synced i r) (act i (fun s => mkSession (ad_conn s) (ad_log s ++ sync_log (an_metrics an)) (ad_listener s))%list m).
Proof.
  eexists. unfold sync_and_resume, sync_log, enabled_of. f_equal. unfold act, set_instances. cbn [mg_instances mg_adapters mg_pending mg_cleanup mg_calls mg_returned].
  destruct (an_metrics an) as [ms|e]; [destruct (List.filter m_enabled ms) as [|x xs] eqn:E|]; cbn; rewrite ?E; cbn;
    rewrite ?list_alter_alter_eq; f_equal; apply list_alter_ext; try done; intros s _; unfold log; cbn; by rewrite <- ?app_assoc.
Qed.

Lemma run_call_managed max k c an m : managed m -> mg_calls m !! k = Some c -> managed (run_call max k c an m).
Proof.
  intros Hm Hk. unfold run_call. destruct (ca_pc c) as [n| |n| | |i|i r|i r|r] eqn:Epc.
  - unfold enter. destruct (mg_pending m !! ca_conn c) as [old|];
      [destruct (old =? ca_port c)%N; [by apply managed_goto; auto|]|];
      (apply managed_goto; [by eapply managed_ext; [..|exact Hm]|done|by left]).
  - apply managed_goto; [by eapply managed_ext; [..|exact Hm]|done|by left].
  - unfold await_other. destruct (mg_pending m !! ca_conn c); [destruct (an_timed_out an); [by apply managed_leave|done]|].
    destruct (mg_adapters m !! ca_conn c); [by apply managed_leave|]. destruct (max <=? n + 1)%N; [by apply managed_leave|]. apply managed_goto; auto.
  - destruct (stop_adapter_frame (ca_conn c) m) as (_ & Ec & _). apply managed_goto; [by apply managed_stop|by rewrite Ec|by left].
  - unfold create. destruct (create_adapter c an); [|apply managed_goto; auto]. destruct (an_started an); [|apply managed_goto; auto].
    destruct (an_subscribed an); [by apply managed_create|]. apply managed_goto; [|done|by left]. apply managed_new; [done|].
    right. exists [AStart]. split; [by left|done].
  - destruct (sync_acts k c i an m) as [r ->]. apply managed_update; [done|done|by rewrite Epc| |by left]. intros s _. rewrite Epc. intros Hs. cbn in Hs |- *.
    rewrite <- Hs. split; [done|]. split; [left; right; right|intros _]; by eexists.
  - unfold check_cancelled. case_bool_decide; [apply managed_goto; [done|done|by right; rewrite Epc]|].
    apply managed_update; [done|done|by rewrite Epc| |by right]. intros s _ Hl. split; [done|]. split; [by eapply stop_log, pc_log_live|done].
  - pose proof (md_held _ Hm k c i Hk) as Hl. rewrite Epc in Hl. specialize (Hl eq_refl).
    assert (managed (goto k c (Dropping (Ok r)) m)) as Hg by (apply managed_goto; auto).
    assert (goto k c (Dropping (Ok r)) (insert_managed (ca_conn c) (mkManaged i (ca_safe_mode c)) m)
            = insert_managed (ca_conn c) (mkManaged i (ca_safe_mode c)) (goto k c (Dropping (Ok r)) m)) as ->
      by (unfold insert_managed; cbn; by destruct (mg_adapters m !! ca_conn c)).
    apply managed_adopt; [done|by eapply (session_weaken resumed_log); [intros ? ?; right|exact Hl]|]. intros k' c'. cbn. destruct (decide (k' = k)) as [->|Hne]; [rewrite lookup_insert_eq; by intros [= <-]|].
    rewrite lookup_insert_ne by done. intros Hk' E. apply Hne. eapply (md_distinct _ Hm); [exact Hk'|exact Hk|exact E|by rewrite Epc].
  - by apply managed_leave, drop_guard_managed.
Qed.

Lemma move_managed max mv m : managed m -> managed (move max mv m).
Proof.
  intros Hm. destruct mv as [k [[[cid port] lang] sm]|k an|k|cid sm sub|cid|order|i rec| |cid sm st pe]; cbn [move].
  - destruct (mg_calls m !! k) eqn:Ek; [done|]. apply (managed_calls m); [done|done| |done]. intros k' c' i. cbn.
    destruct (decide (k' = k)) as [->|Hne]; [rewrite lookup_insert_eq; by intros [= <-]|]. rewrite lookup_insert_ne by done. intros. by exists c'.
  - destruct (mg_calls m !! k) eqn:Ek; [by apply run_call_managed|done].
  - destruct (mg_calls m !! k) as [c|]; [|done]. destruct (cancellable (ca_pc c)); [|done].
    apply (managed_leave k (Ok default_start_result)). destruct (owns (ca_pc c)); [by apply drop_guard_managed|done].
  - unfold register_adapter. pose proof (managed_stop cid m Hm) as Hs. destruct sub; [|done]. cbn [fst].
    set (m1 := stop_adapter cid m) in *. set (x := mkSession cid [AAdopt] LRunning).
    assert (log_ok (ad_log x)) as Hx by (left; right; by left). pose proof (managed_new m1 x Hs Hx) as Hn.
    apply managed_adopt; [done| |].
    + exists x. split; [cbn; by apply list_lookup_middle|]. split; [done|by left].
    + intros k c Hk E. cbn in Hk, E. apply (md_held _ Hs k c), session_bound in E; [lia|done].
  - by apply managed_stop.
  - revert m Hm. induction order as [|cid order IH]; intros m Hm; [done|]. by apply IH, managed_stop.
  - unfold channel_closed. destruct (mg_instances m !! i); [|done]. destruct (ad_listener _); [|done|done]. destruct rec; [done|].
    apply managed_listen. by eapply managed_ext; [..|exact Hm].
  - unfold cleanup_next. destruct (mg_cleanup m); [done|]. apply managed_stop. by eapply managed_ext; [..|exact Hm].
  - unfold update_safe_mode. destruct (negb (has_adapter cid m)); [done|]. destruct (res_bind _ _); [|done]. cbn [fst].
    destruct Hm as [H1 H2 H3 H4 H5]. constructor; [exact H1| |exact H3| |exact H5].
    + intros cid' ma'. cbn. rewrite lookup_alter_Some. intros [(-> & ma & Hc & ->)|[_ Hc]]; by apply (H2 _ _ Hc).
    + intros cid' ma' k c. cbn. rewrite lookup_alter_Some. intros [(-> & ma & Hc & ->)|[_ Hc]]; by apply (H4 _ _ k c Hc).
Qed.

Lemma moves_managed max l : managed (moves max l new_manager).
Proof.
  unfold moves. assert (managed new_manager) as H0.
  { constructor; cbn; try (intros; by rewrite lookup_empty in * ). intros i s Hs. by rewrite lookup_nil in Hs. }
  revert H0. generalize new_manager. induction l as [|mv l IH]; intros m Hm; [done|]. by apply IH, move_managed.
Qed.


(** ** A start by itself *)

Section Alone.
Context (max : N) (k : nat) (c : Call) (an : Answers).

Lemma run_goto pc m : move max (MRun k an) (goto k c pc m) = run_call max k (at_pc c pc) an (goto k c pc m).
Proof. cbn. by rewrite lookup_insert_eq. Qed.

(** The position of the call does not matter to what the steps do. *)
Lemma goto_act pc pc' i f m : goto k (at_pc c pc) pc' (act i f (goto k c pc m)) = goto k c pc' (act i f m).
Proof. unfold goto, set_call, act, set_instances. cbn. by rewrite insert_insert_eq. Qed.
Lemma goto_goto pc pc' m : goto k (at_pc c pc) pc' (goto k c pc m) = goto k c pc' m.
Proof. unfold goto, set_call. cbn. by rewrite insert_insert_eq. Qed.

Lemma run_enter n m : mg_pending m !! ca_conn c = None ->
  move max (MRun k an) (goto k c (Enter n) m) = goto k c CheckExisting (set_pending (<[ca_conn c := ca_port c]> (mg_pending m)) m).
Proof.
  intros Hp. rewrite run_goto. cbn [run_call at_pc ca_pc]. unfold enter. cbn [goto set_call mg_pending at_pc ca_conn]. rewrite Hp.
  unfold goto, set_call, set_pending. cbn. by rewrite insert_insert_eq.
Qed.

Lemma run_check m : move max (MRun k an) (goto k c CheckExisting m) = goto k c Creating (stop_adapter (ca_conn c) m).
Proof.
  rewrite run_goto. cbn [run_call at_pc ca_pc ca_conn]. unfold stop_adapter. cbn [goto set_call mg_adapters].
  destruct (mg_adapters m !! ca_conn c); unfold goto, set_call; cbn; by rewrite insert_insert_eq.
Qed.

Lemma run_create m : create_adapter c an = Ok tt -> an_started an = Ok tt -> an_subscribed an = Ok tt ->
  move max (MRun k an) (goto k c Creating m) =
  goto k c (Started (length (mg_instances m))) (set_instances (mg_instances m ++ [mkSession (ca_conn c) [AStart] LRunning])%list m).
Proof.
  intros H1 H2 H3. rewrite run_goto. cbn [run_call at_pc ca_pc]. unfold create.
  assert (create_adapter (at_pc c Creating) an = Ok tt) as -> by exact H1. rewrite H2, H3. unfold goto, set_call. cbn. by rewrite insert_insert_eq.
Qed.

Lemma run_sync m i ms resumed : an_metrics an = Ok ms -> an_resumed an = Ok resumed ->
  let es := List.filter m_enabled ms in let failed := N.min (an_failed_sets an) (lenN es) in
  move max (MRun k an) (goto k c (Started i) m) =
  goto k c (Synced i (mkStart false false (lenN es - failed) failed))
    (act i (fun s => mkSession (ad_conn s) (ad_log s ++ sync_log (Ok ms)) (ad_listener s))%list m).
Proof.
  intros H1 H2 es failed. rewrite run_goto. cbn [run_call at_pc ca_pc]. unfold sync_and_resume, sync_log, enabled_of. rewrite H1, H2. cbn [is_ok negb]. fold es failed.
  unfold goto, set_call, act, set_instances. cbn. destruct es as [|e es']; cbn; rewrite insert_insert_eq; f_equal;
    rewrite !list_alter_alter_eq; apply list_alter_ext; try done; intros s _; unfold log; cbn; by rewrite <- !app_assoc.
Qed.

Lemma run_check_cancelled m i r : mg_pending m !! ca_conn c = Some (ca_port c) ->
  move max (MRun k an) (goto k c (Synced i r) m) = goto k c (Inserting i r) m.
Proof. intros Hp. rewrite run_goto. cbn [run_call at_pc ca_pc]. unfold check_cancelled. rewrite bool_decide_true by exact Hp. apply goto_goto. Qed.

Lemma run_insert m i r : mg_adapters m !! ca_conn c = None ->
  move max (MRun k an) (goto k c (Inserting i r) m) =
  goto k c (Dropping (Ok r)) (set_adapters (<[ca_conn c := mkManaged i (ca_safe_mode c)]> (mg_adapters m)) m).
Proof.
  intros Hn. rewrite run_goto. cbn [run_call at_pc ca_pc ca_conn ca_safe_mode]. unfold insert_managed. cbn [goto set_call mg_adapters]. rewrite Hn.
  unfold goto, set_call. cbn. by rewrite insert_insert_eq.
Qed.

Lemma run_drop m r : mg_pending m !! ca_conn c = Some (ca_port c) -> mg_calls m !! k = None ->
  move max (MRun k an) (goto k c (Dropping r) m) =
  mkMgr (mg_adapters m) (delete (ca_conn c) (mg_pending m)) (mg_instances m) (mg_cleanup m) (mg_calls m) (mg_returned m ++ [(k, r)])%list.
Proof.
  intros Hp Hk. rewrite run_goto. cbn [run_call at_pc ca_pc]. unfold drop_guard. rewrite bool_decide_true by exact Hp.
  unfold return_call. cbn. by rewrite delete_insert_id.
Qed.

End Alone.

(** The session a successful start makes. *)
Definition started_session (cid : string) (ms : list Metric) : Session :=
  mkSession cid (AStart :: sync_log (Ok ms)) LRunning.

(** A start that nothing interferes with replaces the adapter of its
    connection: the old one is stopped, the new one is started, given the enabled
    metrics and resumed, and registered in the mode asked for; the result counts
    the logpoints; no entry of [pending_starts] stays behind. *)
Theorem lone_start_registers max k cid port lang safe_mode an ms resumed m :
  mg_calls m !! k = None -> mg_pending m !! cid = None -> In lang [Python; Go; Rust] ->
  an_created an = Ok tt -> an_started an = Ok tt -> an_subscribed an = Ok tt -> an_metrics an = Ok ms -> an_resumed an = Ok resumed ->
  let failed := N.min (an_failed_sets an) (lenN (List.filter m_enabled ms)) in
  let stopped := stop_adapter cid m in
  moves max (MCall k (cid, port, lang, safe_mode) :: repeat (MRun k an) 7) m =
  mkMgr (<[cid := mkManaged (length (mg_instances m)) safe_mode]> (mg_adapters m)) (mg_pending m)
    (mg_instances stopped ++ [started_session cid ms]) (mg_cleanup m) (mg_calls m)
    (mg_returned m ++ [(k, Ok (mkStart false false (lenN (List.filter m_enabled ms) - failed) failed))])%list.
Proof.
  intros Hk Hp Hlang H1 H2 H3 H4 H5 failed stopped. set (c := mkCall cid port lang safe_mode (Enter 0)).
  assert (create_adapter c an = Ok tt) as Hc by (unfold create_adapter; destruct (an_agent_managed an); [done|]; destruct Hlang as [<-|[<-|[<-|[]]]]; exact H1).
  change (moves max ?l m) with (fold_left (fun m mv => move max mv m) l m). cbn [fold_left repeat].
  assert (move max (MCall k (cid, port, lang, safe_mode)) m = goto k c (Enter 0) m) as -> by (cbn [move]; by rewrite Hk).
  rewrite run_enter, run_check, run_create by done.
  set (m1 := set_pending (<[ca_conn c := ca_port c]> (mg_pending m)) m). set (m2 := stop_adapter (ca_conn c) m1).
  assert (mg_pending m2 = <[cid := port]> (mg_pending m) /\ mg_calls m2 = mg_calls m /\ mg_instances m2 = mg_instances stopped /\
          length (mg_instances m2) = length (mg_instances m) /\ mg_adapters m2 = delete cid (mg_adapters m) /\
          mg_cleanup m2 = mg_cleanup m /\ mg_returned m2 = mg_returned m) as (E1 & E2 & E3 & E4 & E5 & E6 & E7).
  { unfold m2, stopped, stop_adapter. cbn. destruct (mg_adapters m !! cid) eqn:Ea; cbn; [by rewrite length_alter|]. by rewrite delete_id. }
  rewrite (run_sync max k c an _ _ ms resumed), run_check_cancelled, run_insert, run_drop by (first [done | cbn; rewrite ?E1, ?E2, ?E5, ?lookup_insert_eq, ?lookup_delete_eq; done]).
  cbn. fold failed. rewrite E1, E2, E5, E6, E7, E4, insert_delete_eq, delete_insert_id by done. f_equal.
  rewrite <- E4. rewrite alter_app_r_alt by lia. rewrite E3, Nat.sub_diag. done.
Qed.

(** ** Races *)

(** Nobody has a way to reach the session any more. *)
Definition orphan (m : Manager) (i : nat) : Prop :=
  (i < length (mg_instances m))%nat /\
  (forall cid ma, mg_adapters m !! cid = Some ma -> ma_adapter ma <> i) /\
  (forall k c, mg_calls m !! k = Some c -> pc_session (ca_pc c) <> Some i).
Definition log_of (m : Manager) (i : nat) : option (list Action) := ad_log <$> mg_instances m !! i.

(** What a move may do while [i] stays an orphan with its log unchanged. *)
Definition keeps (i : nat) (m m' : Manager) : Prop := orphan m i -> orphan m' i /\ log_of m' i = log_of m i.

Lemma keeps_trans i m1 m2 m3 : keeps i m1 m2 -> keeps i m2 m3 -> keeps i m1 m3.
Proof. intros H1 H2 Ho. destruct (H1 Ho) as [Ho2 E]. destruct (H2 Ho2) as [Ho3 E']. split; [done|congruence]. Qed.

Lemma keeps_act i j f m : (orphan m i -> j <> i) \/ (forall s, ad_log (f s) = ad_log s) -> keeps i m (act j f m).
Proof.
  intros Hj Ho. pose proof Ho as (H1 & H2 & H3). split; [split; [cbn; by rewrite length_alter|done]|]. unfold log_of. cbn.
  destruct (decide (j = i)) as [->|Hne]; [|by rewrite list_lookup_alter_ne]. rewrite list_lookup_alter_eq.
  destruct Hj as [Hj|Hj]; [by apply Hj in Ho|]. destruct (mg_instances m !! i); cbn; [by rewrite Hj|done].
Qed.

Lemma keeps_frame i m m' : mg_instances m' = mg_instances m -> (forall cid ma, mg_adapters m' !! cid = Some ma -> exists cid' ma', mg_adapters m !! cid' = Some ma' /\ ma_adapter ma' = ma_adapter ma) ->
  (forall k c j, mg_calls m' !! k = Some c -> pc_session (ca_pc c) = Some j -> exists k' c', mg_calls m !! k' = Some c' /\ pc_session (ca_pc c') = Some j) -> keeps i m m'.
Proof.
  intros E Ha Hc (H1 & H2 & H3). unfold orphan, log_of. rewrite E. split; [|done]. split; [done|]. split.
  - intros cid ma (cid' & ma' & Hx & <-)%Ha. by eapply H2.
  - intros k c Hk Ei. destruct (Hc _ _ _ Hk Ei) as (k' & c' & Hk' & Ei'). by eapply H3.
Qed.

Lemma keeps_goto i k c pc m : mg_calls m !! k = Some c -> (pc_session pc = None \/ pc_session pc = pc_session (ca_pc c)) -> keeps i m (goto k c pc m).
Proof.
  intros Hk Hpc. apply keeps_frame; [done|eauto|]. intros k' c' j. cbn. destruct (decide (k' = k)) as [->|Hne].
  - rewrite lookup_insert_eq. intros [= <-] Hj. cbn in Hj. exists k, c. destruct Hpc; split; congruence.
  - rewrite lookup_insert_ne by done. eauto.
Qed.

Lemma keeps_return i k r m : keeps i m (return_call k r m).
Proof. apply keeps_frame; [done|eauto|]. intros k' c' j. cbn. intros [_ Hk]%lookup_delete_Some. eauto. Qed.
Lemma keeps_end i k m : keeps i m (end_call k m).
Proof. apply keeps_frame; [done|eauto|]. intros k' c' j. cbn. intros [_ Hk]%lookup_delete_Some. eauto. Qed.

Lemma keeps_pending i x m : keeps i m (set_pending x m).
Proof. apply keeps_frame; [done|eauto|eauto]. Qed.

Lemma keeps_stop i cid m : keeps i m (stop_adapter cid m).
Proof.
  unfold stop_adapter. destruct (mg_adapters m !! cid) as [ma|] eqn:Ec; [|by intros ?]. intros Ho. pose proof Ho as (H1 & H2 & H3).
  destruct (keeps_act i (ma_adapter ma) (log AStop ∘ listen LEnded) (set_adapters (delete cid (mg_adapters m)) m)) as [Ho' E']; [|..|by split].
  - left. intros _. by apply (H2 cid).
  - split; [done|]. split; [|done]. intros cid' ma'. cbn. intros [_ Hc]%lookup_delete_Some. by apply (H2 cid').
Qed.

Lemma keeps_new i x m : keeps i m (set_instances (mg_instances m ++ [x])%list m).
Proof.
  intros (H1 & H2 & H3). split; [split; [cbn; rewrite length_app; lia|done]|]. unfold log_of. cbn. by rewrite lookup_app_l.
Qed.

Lemma keeps_create i k c x m : keeps i m (goto k c (Started (length (mg_instances m))) (set_instances (mg_instances m ++ [x])%list m)).
Proof.
  intros Ho. destruct (keeps_new i x m Ho) as [(H1 & H2 & H3) E]. split; [|exact E]. split; [exact H1|]. split; [exact H2|].
  intros k' c'. cbn. destruct (decide (k' = k)) as [->|Hne]; [|rewrite lookup_insert_ne by done; apply H3].
  rewrite lookup_insert_eq. intros [= <-] [= Ei]. destruct Ho as [Hlt _]. lia.
Qed.

Lemma keeps_insert i cid ma m : (orphan m i -> ma_adapter ma <> i) -> keeps i m (insert_managed cid ma m).
Proof.
  intros Hne Ho. unfold insert_managed.
  set (m1 := match mg_adapters m !! cid with Some old => act (ma_adapter old) (listen LDetached) m | None => m end).
  assert (keeps i m m1) as Hk by (unfold m1; destruct (mg_adapters m !! cid); [apply keeps_act; by right|by intros ?]).
  destruct (Hk Ho) as [(H1 & H2 & H3) E]. split; [|exact E]. split; [exact H1|]. split; [|exact H3].
  intros cid' ma'. cbn. destruct (decide (cid' = cid)) as [->|Hc]; [rewrite lookup_insert_eq; intros [= <-]; by apply Hne|].
  rewrite lookup_insert_ne by done. apply H2.
Qed.

Lemma orphan_held m i k c j : orphan m i -> mg_calls m !! k = Some c -> pc_session (ca_pc c) = Some j -> j <> i.
Proof. intros (_ & _ & H3) Hk Hj ->. by apply (H3 k c). Qed.

Lemma keeps_run i max k c an m : mg_calls m !! k = Some c -> keeps i m (run_call max k c an m).
Proof.
  intros Hk. unfold run_call. destruct (ca_pc c) as [n| |n| | |j|j r|j r|r] eqn:Epc.
  - unfold enter. destruct (mg_pending m !! ca_conn c) as [old|]; [destruct (old =? ca_port c)%N; [by apply keeps_goto; auto|]|];
      (eapply keeps_trans; [apply keeps_pending|]; apply keeps_goto; auto).
  - eapply keeps_trans; [apply keeps_pending|]. apply keeps_goto; auto.
  - unfold await_other. destruct (mg_pending m !! ca_conn c); [destruct (an_timed_out an); [apply keeps_return|by intros ?]|].
    destruct (mg_adapters m !! ca_conn c); [apply keeps_return|]. destruct (max <=? n + 1)%N; [apply keeps_return|]. apply keeps_goto; auto.
  - eapply keeps_trans; [apply keeps_stop|]. destruct (stop_adapter_frame (ca_conn c) m) as (_ & Ec & _). apply keeps_goto; [by rewrite Ec|by left].
  - unfold create. destruct (create_adapter c an); [|apply keeps_goto; auto]. destruct (an_started an); [|apply keeps_goto; auto].
    destruct (an_subscribed an); [apply keeps_create|]. eapply keeps_trans; [apply keeps_new|]. apply keeps_goto; auto.
  - destruct (sync_acts k c j an m) as [r ->]. eapply keeps_trans; [apply keeps_act; left; intros Ho; apply (orphan_held m i k c j Ho Hk); by rewrite Epc|].
    apply keeps_goto; [done|right; by rewrite Epc].
  - unfold check_cancelled. case_bool_decide; [apply keeps_goto; [done|right; by rewrite Epc]|].
    eapply keeps_trans; [apply keeps_act; left; intros Ho; apply (orphan_held m i k c j Ho Hk); by rewrite Epc|]. apply keeps_goto; auto.
  - eapply keeps_trans; [apply (keeps_insert i (ca_conn c) (mkManaged j (ca_safe_mode c))); intros Ho; cbn; apply (orphan_held m i k c j Ho Hk); by rewrite Epc|].
    destruct (insert_managed_frame (ca_conn c) (mkManaged j (ca_safe_mode c)) m) as [_ Ec]. apply keeps_goto; [by rewrite Ec|by left].
  - eapply keeps_trans; [|apply keeps_return]. unfold drop_guard. case_bool_decide; [apply keeps_pending|by intros ?].
Qed.

Lemma keeps_move i max mv m : keeps i m (move max mv m).
Proof.
  destruct mv as [k [[[cid port] lang] sm]|k an|k|cid sm sub|cid|order|j rec| |cid sm st pe]; cbn [move].
  - destruct (mg_calls m !! k) eqn:Ek; [by intros ?|]. apply keeps_frame; [done|eauto|]. intros k' c' j. cbn.
    destruct (decide (k' = k)) as [->|Hne]; [rewrite lookup_insert_eq; by intros [= <-]|]. rewrite lookup_insert_ne by done. eauto.
  - destruct (mg_calls m !! k) eqn:Ek; [by apply keeps_run|by intros ?].
  - destruct (mg_calls m !! k) as [c|]; [|by intros ?]. destruct (cancellable (ca_pc c)); [|by intros ?]. eapply keeps_trans; [|apply keeps_end].
    destruct (owns (ca_pc c)); [|by intros ?]. unfold drop_guard. case_bool_decide; [apply keeps_pending|by intros ?].
  - unfold register_adapter. destruct sub; [|apply keeps_stop]. cbn [fst]. eapply keeps_trans; [apply keeps_stop|]. set (m1 := stop_adapter cid m).
    intros Ho. pose proof Ho as (Hlt & _). eapply keeps_trans; [apply keeps_new|apply (keeps_insert i cid (mkManaged (length (mg_instances m1)) sm))|exact Ho].
    intros _. cbn [ma_adapter]. unfold m1. lia.
  - apply keeps_stop.
  - revert m. induction order as [|cid order IH]; intros m; [by intros ?|]. eapply keeps_trans; [apply keeps_stop|apply IH].
  - unfold channel_closed. destruct (mg_instances m !! j); [|by intros ?]. destruct (ad_listener _); [|by intros ?|by intros ?]. destruct rec; [by intros ?|].
    eapply keeps_trans; [|apply keeps_act; by right]. apply keeps_frame; [done|eauto|eauto].
  - unfold cleanup_next. destruct (mg_cleanup m) as [|cid rest]; [by intros ?|]. eapply keeps_trans; [|apply keeps_stop]. apply keeps_frame; [done|eauto|eauto].
  - unfold update_safe_mode. destruct (negb (has_adapter cid m)); [by intros ?|]. destruct (res_bind _ _); [|by intros ?]. cbn [fst].
    apply keeps_frame; [done| |eauto]. intros cid' ma'. cbn. rewrite lookup_alter_Some. intros [(-> & ma & Hc & ->)|[_ Hc]]; by eexists _, _.
Qed.

(** An adapter that is out of reach is never stopped. *)
Lemma orphans_stay i max l : forall m, orphan m i -> log_of (moves max l m) i = log_of m i.
Proof.
  induction l as [|mv l IH]; intros m Ho; [done|]. destruct (keeps_move i max mv m Ho) as [Ho' E]. rewrite <- E. by apply IH.
Qed.

Module SampleRaces.
Definition answers : Answers := mkAnswers false (Ok tt) (Ok tt) (Ok tt) (Ok []) 0 (Ok true) false.
Definition call (k : nat) (port : N) : Move := MCall k ("c", port, Python, false).
Definition runs (k n : nat) : list Move := repeat (MRun k answers) n.

(** Call 1 has found its port unchanged when call 2 takes the connection over. *)
Definition overlap : list Move := [call 1 5678] ++ runs 1 5 ++ [call 2 5679] ++ runs 2 3 ++ runs 1 2 ++ runs 2 5.
(** The cleanup of a crash is handled after the connection was started again. *)
Definition late_cleanup : list Move := [call 1 5678] ++ runs 1 7 ++ [MChannelClosed 0 false; call 2 5678] ++ runs 2 7.
End SampleRaces.
Import SampleRaces.

(** Two starts of one connection on different ports can both succeed and leave
    an adapter running for ever.  Between the check that a call was not taken
    over and its registration, a second call takes over and finds no adapter to
    stop; its own registration then replaces the first adapter's entry.  The
    first adapter is still connected, its listener has lost its shutdown channel,
    and whatever happens later it is not stopped. *)
Theorem overlapping_starts_orphan_adapter :
  let m := moves 3 overlap new_manager in
  mg_returned m = [(1%nat, Ok default_start_result); (2%nat, Ok default_start_result)] /\
  mg_adapters m !! "c" = Some (mkManaged 1 false) /\ mg_instances m !! 0%nat = Some (mkSession "c" [AStart; ALoaded (Ok []); AContinue] LDetached) /\
  forall max l, log_of (moves max l m) 0 = Some [AStart; ALoaded (Ok []); AContinue].
Proof.
  split; [vm_compute; reflexivity|]. split; [vm_compute; reflexivity|]. split; [vm_compute; reflexivity|]. intros max l. rewrite orphans_stay; [vm_compute; reflexivity|].
  assert (mg_adapters (moves 3 overlap new_manager) = {["c" := mkManaged 1 false]}) as Ea by (vm_compute; reflexivity).
  assert (mg_calls (moves 3 overlap new_manager) = ∅) as Ec by (vm_compute; reflexivity).
  split; [vm_compute; lia|]. rewrite Ea, Ec. split.
  - intros cid ma [<- <-]%lookup_singleton_Some. done.
  - intros k c Hk. by rewrite lookup_empty in Hk.
Qed.

(** A late cleanup stops a healthy adapter.  Cleanup is requested and performed
    by connection, so a request left by a crashed adapter removes the adapter
    that was started for the connection in the meantime. *)
Theorem late_cleanup_stops_new_adapter :
  let m := moves 3 late_cleanup new_manager in
  mg_adapters m !! "c" = Some (mkManaged 1 false) /\ log_of m 1 = Some [AStart; ALoaded (Ok []); AContinue] /\
  let m' := moves 3 [MCleanup] m in
  mg_adapters m' !! "c" = None /\ log_of m' 1 = Some [AStart; ALoaded (Ok []); AContinue; AStop].
Proof. vm_compute. repeat split. Qed.

Lemma lone_start_registers_witness :
  moves 3 (MCall 1 ("c", 5678%N, Python, true) :: repeat (MRun 1 answers) 7) new_manager =
  mkMgr {["c" := mkManaged 0 true]} ∅ [started_session "c" []] [] ∅ [(1%nat, Ok (mkStart false false 0 0))].
Proof. exact (lone_start_registers 3 1 "c" 5678 Python true answers [] true new_manager eq_refl eq_refl (or_introl eq_refl) eq_refl eq_refl eq_refl eq_refl eq_refl). Defined.
