(* ===== verification/EventPipeline.v ===== *)
(** * The event pipeline

    The write path of events: [services/event_capture_service.rs], and of
    [services/adapter_lifecycle_manager.rs] ([crates/detrix-application/src/])
    the buffering of [process_event], [flush_buffer_static] with its callers (the
    flush task, [flush_events], [stop_all]).  A flush takes the buffered events
    under the lock and stores them after releasing it, so it is two steps:
    events arrive in between, several flushes can be under way, and aborting the
    flush task drops what it had taken.  A history is a list of steps; a ledger
    beside the state records what became of each event. *)

From Stdlib Require Import Strings.String.
From stdpp Require Import gmap.
From AAC_tactics Require Import AAC.
From AAC_tactics Require Instances.
From S2P Require Import Prelude CoreError RustStr Event Sql EventRepo DeadLetter EventOutput MetricService.
Import AAC_tactics.Instances.Lists.

Local Open Scope string_scope.
Local Open Scope list_scope.

(** Concatenation is associative and commutative up to permutation. *)
#[local] Instance permutation_lift {A : Type} : AAC_lift (@Permutation A) (@Permutation A).
Proof. constructor; typeclasses eauto. Qed.

Section Pipeline.
Context `{Engine} {R : Type} `{ERepo : EventRepository R} `{EJson : EventJson} {O : Type} `{EventOutput O}.
(** [{:?}] of a [Vec<String>], in error texts. *)
Context (debug_strings : list string -> string).

(** ** The capture service *)

Record EventCaptureService : Type := mkCapture { cp_storage : R; cp_dlq : option (Db DlqTable) }.

Definition has_dlq (c : EventCaptureService) : bool := match cp_dlq c with Some _ => true | None => false end.

Definition serialised (e : MetricEvent) : option string := match event_to_json e with Ok json => Some json | Err _ => None end.

(** Returns the number of events saved. *)
Definition save_to_dlq (now : Z) (events : list MetricEvent) (error_message : string) (c : EventCaptureService) : EventCaptureService * N :=
  match cp_dlq c with
  | None => (c, 0%N)
  | Some dlq =>
      let dlq_entries := map (fun json => (json, error_message)) (omap serialised events) in
      match dlq_entries with
      | [] => (c, 0%N)
      | _ => let '(dlq, r) := dlq_save_batch now dlq_entries dlq in
             (mkCapture (cp_storage c) (Some dlq), match r with Ok ids => lenN ids | Err _ => 0%N end)
      end
  end.

Definition capture_event (e : MetricEvent) (c : EventCaptureService) : EventCaptureService * result Z Error :=
  let '(r, x) := ev_save e (cp_storage c) in (mkCapture r (cp_dlq c), x).

Definition capture_events (events : list MetricEvent) (c : EventCaptureService) : EventCaptureService * result (list Z) Error :=
  match events with
  | [] => (c, Ok [])
  | _ => let '(r, x) := ev_save_batch events (cp_storage c) in (mkCapture r (cp_dlq c), x)
  end.

(** The part of [flush_buffer_static] after the lock is released. *)
Definition store_batch (now : Z) (events_to_save : list MetricEvent) (c : EventCaptureService) : EventCaptureService :=
  match capture_events events_to_save c with
  | (c, Ok _) => c
  | (c, Err e) => fst (save_to_dlq now events_to_save (error_display debug_strings e) c)
  end.

(** ** The buffer *)

Record EventBatchingConfig : Type := mkBatching { eb_batch_size : N; eb_flush_interval_ms : N; eb_max_buffer_size : N }.

(** What an arriving event displaces. *)
Definition overflow (cfg : EventBatchingConfig) (buffer : list MetricEvent) : nat :=
  if (eb_max_buffer_size cfg <=? lenN buffer)%N then N.to_nat (lenN buffer - eb_max_buffer_size cfg + 1) else 0.

(** Who flushes: the background task, or a caller of [flush_events]. *)
Inductive Flusher : Type := FlushTask | Caller (n : N).
#[export] Instance flusher_eq_dec : EqDecision Flusher.
Proof. solve_decision. Defined.

Record Manager : Type := mkManager {
  mg_buffer : list MetricEvent;
  mg_in_flight : list (Flusher * list MetricEvent);
  mg_flush_requested : bool;
  mg_capture : EventCaptureService;
  mg_broadcast : list MetricEvent;
  mg_output : option O
}.

(** A request reaches the flush task only if it was spawned. *)
Definition flush_task_runs (cfg : EventBatchingConfig) : bool := (0 <? eb_flush_interval_ms cfg)%N.

Definition process_event (cfg : EventBatchingConfig) (c : Clock) (event : MetricEvent) (m : Manager) : Manager :=
  let buffer := drop (overflow cfg (mg_buffer m)) (mg_buffer m) ++ [event] in
  let should_flush := (eb_batch_size cfg <=? lenN buffer)%N in
  mkManager buffer (mg_in_flight m)
    (mg_flush_requested m || (should_flush && flush_task_runs cfg))
    (mg_capture m) (mg_broadcast m ++ [event])
    (match mg_output m with Some o => Some (fst (out_send c event o)) | None => None end).

(** The locked part of [flush_buffer_static]. *)
Definition take_buffer (who : Flusher) (m : Manager) : Manager :=
  match mg_buffer m with
  | [] => m
  | events_to_save => mkManager [] (mg_in_flight m ++ [(who, events_to_save)]) (mg_flush_requested m) (mg_capture m) (mg_broadcast m) (mg_output m)
  end.

Fixpoint remove_flight (who : Flusher) (l : list (Flusher * list MetricEvent)) : option (list MetricEvent * list (Flusher * list MetricEvent)) :=
  match l with
  | [] => None
  | x :: l' => if bool_decide (fst x = who) then Some (snd x, l')
               else match remove_flight who l' with Some (b, r) => Some (b, x :: r) | None => None end
  end.

(** ** Steps *)

(** [Take FlushTask] is the timer, [TakeRequested] a request on the channel. *)
Inductive Step : Type :=
| Arrive (c : Clock) (e : MetricEvent)
| Take (who : Flusher)
| TakeRequested
| Store (now : Z) (who : Flusher)
| AbortTask.

(** What became of the events that arrived. *)
Record Ledger : Type := mkLedger {
  lg_arrived : list MetricEvent; lg_overflowed : list MetricEvent; lg_stored : list MetricEvent;
  lg_queued : list MetricEvent; lg_lost : list MetricEvent; lg_aborted : list MetricEvent
}.
Definition empty_ledger : Ledger := mkLedger [] [] [] [] [] [].

Definition serialises (e : MetricEvent) : bool := match serialised e with Some _ => true | None => false end.

(** Where a batch goes: stored, or queued as far as it serialises, or lost. *)
Definition book (now : Z) (b : list MetricEvent) (c : EventCaptureService) (g : Ledger) : Ledger :=
  match capture_events b c with
  | (_, Ok _) => mkLedger (lg_arrived g) (lg_overflowed g) (b ++ lg_stored g) (lg_queued g) (lg_lost g) (lg_aborted g)
  | (c, Err e) =>
      if (snd (save_to_dlq now b (error_display debug_strings e) c) =? 0)%N
      then mkLedger (lg_arrived g) (lg_overflowed g) (lg_stored g) (lg_queued g) (b ++ lg_lost g) (lg_aborted g)
      else mkLedger (lg_arrived g) (lg_overflowed g) (lg_stored g) (List.filter serialises b ++ lg_queued g)
             (List.filter (fun e => negb (serialises e)) b ++ lg_lost g) (lg_aborted g)
  end.

(** A flusher takes the next batch only after storing its last one. *)
Definition busy (who : Flusher) (m : Manager) : bool := existsb (fun x => bool_decide (fst x = who)) (mg_in_flight m).

Definition step (cfg : EventBatchingConfig) (st : Step) (x : Manager * Ledger) : Manager * Ledger :=
  let '(m, g) := x in
  match st with
  | Arrive c e =>
      (process_event cfg c e m,
       mkLedger (e :: lg_arrived g) (take (overflow cfg (mg_buffer m)) (mg_buffer m) ++ lg_overflowed g) (lg_stored g) (lg_queued g) (lg_lost g) (lg_aborted g))
  | Take who => if busy who m then x else (take_buffer who m, g)
  | TakeRequested =>
      if busy FlushTask m || negb (mg_flush_requested m) then x
      else (take_buffer FlushTask (mkManager (mg_buffer m) (mg_in_flight m) false (mg_capture m) (mg_broadcast m) (mg_output m)), g)
  | Store now who =>
      match remove_flight who (mg_in_flight m) with
      | None => x
      | Some (b, rest) =>
          (mkManager (mg_buffer m) rest (mg_flush_requested m) (store_batch now b (mg_capture m)) (mg_broadcast m) (mg_output m),
           book now b (mg_capture m) g)
      end
  | AbortTask =>
      match remove_flight FlushTask (mg_in_flight m) with
      | None => x
      | Some (b, rest) =>
          (mkManager (mg_buffer m) rest (mg_flush_requested m) (mg_capture m) (mg_broadcast m) (mg_output m),
           mkLedger (lg_arrived g) (lg_overflowed g) (lg_stored g) (lg_queued g) (lg_lost g) (b ++ lg_aborted g))
      end
  end.

Definition run (cfg : EventBatchingConfig) (steps : list Step) (x : Manager * Ledger) : Manager * Ledger :=
  fold_left (fun x st => step cfg st x) steps x.

(** [flush_events], uninterrupted. *)
Definition flush_events (cfg : EventBatchingConfig) (now : Z) (n : N) : list Step := [Take (Caller n); Store now (Caller n)].

(** The end of [stop_all]: a last flush, then the flush task is aborted. *)
Definition stop_all (cfg : EventBatchingConfig) (now : Z) (n : N) : list Step := flush_events cfg now n ++ [AbortTask].

(** ** The ledger balances *)

Definition in_flight (m : Manager) : list MetricEvent := List.concat (map snd (mg_in_flight m)).

(** Every event that arrived is in exactly one place. *)
Definition balanced (x : Manager * Ledger) : Prop :=
  let '(m, g) := x in
  lg_arrived g ≡ₚ lg_overflowed g ++ mg_buffer m ++ in_flight m ++ lg_stored g ++ lg_queued g ++ lg_lost g ++ lg_aborted g.

Lemma remove_flight_perm who l b rest : remove_flight who l = Some (b, rest) -> List.concat (map snd l) ≡ₚ b ++ List.concat (map snd rest).
Proof.
  revert b rest. induction l as [|x l IH]; intros b rest; cbn; [done|]. case_bool_decide; [by intros [= <- <-]|].
  destruct (remove_flight who l) as [[b' r']|]; [|done]. intros [= <- <-]. cbn. rewrite (IH _ _ eq_refl). aac_reflexivity.
Qed.

Lemma book_total now b c g :
  let g' := book now b c g in
  lg_arrived g' = lg_arrived g /\ lg_overflowed g' = lg_overflowed g /\ lg_aborted g' = lg_aborted g /\
  lg_stored g' ++ lg_queued g' ++ lg_lost g' ≡ₚ b ++ lg_stored g ++ lg_queued g ++ lg_lost g.
Proof.
  unfold book. destruct (capture_events b c) as [c' [ids|err]]; cbn; [repeat split; aac_reflexivity|].
  destruct (_ =? 0)%N; cbn; (split; [done|]; split; [done|]; split; [done|]); [aac_reflexivity|].
  rewrite <- (DeadLetter.filter_split serialises b) at 3. aac_reflexivity.
Qed.

Lemma take_buffer_total who m : mg_buffer (take_buffer who m) ++ in_flight (take_buffer who m) ≡ₚ mg_buffer m ++ in_flight m.
Proof.
  unfold take_buffer. destruct (mg_buffer m) as [|e b] eqn:E; [by rewrite E|]. unfold in_flight. cbn [mg_buffer mg_in_flight].
  rewrite map_app, List.concat_app. cbn [map List.concat snd]. aac_reflexivity.
Qed.

Lemma step_balanced cfg st x : balanced x -> balanced (step cfg st x).
Proof.
  destruct x as [m g]. unfold balanced. intros Hb. destruct st as [c e|who| |now who|]; cbn [step].
  - rewrite <- (take_drop (overflow cfg (mg_buffer m)) (mg_buffer m)) in Hb. unfold in_flight in *. cbn. rewrite Hb.
    change (e :: ?l) with ([e] ++ l). aac_reflexivity.
  - destruct (busy who m); [done|]. pose proof (take_buffer_total who m) as Ht. rewrite Hb.
    rewrite (app_assoc (mg_buffer (take_buffer who m))), Ht. aac_reflexivity.
  - destruct (busy FlushTask m || negb (mg_flush_requested m)); [done|].
    set (m' := mkManager (mg_buffer m) (mg_in_flight m) false (mg_capture m) (mg_broadcast m) (mg_output m)).
    pose proof (take_buffer_total FlushTask m') as Ht. rewrite Hb. rewrite (app_assoc (mg_buffer (take_buffer FlushTask m'))), Ht.
    change (in_flight m') with (in_flight m). change (mg_buffer m') with (mg_buffer m). aac_reflexivity.
  - destruct (remove_flight who (mg_in_flight m)) as [[b rest]|] eqn:E; [|done]. apply remove_flight_perm in E.
    destruct (book_total now b (mg_capture m) g) as (-> & -> & -> & Ht). rewrite Hb. unfold in_flight. cbn [mg_in_flight mg_buffer].
    rewrite E. rewrite !app_assoc in Ht. rewrite <- !app_assoc in Ht |- *. aac_rewrite <- Ht. aac_reflexivity.
  - destruct (remove_flight FlushTask (mg_in_flight m)) as [[b rest]|] eqn:E; [|done]. apply remove_flight_perm in E.
    cbn. rewrite Hb. unfold in_flight. cbn. rewrite E. aac_reflexivity.
Qed.

End Pipeline.

(** ** The ledger is true *)

Section Accounting.
Context `{Engine} {R : Type} `{ELaws : EventRepositoryLaws R} {O : Type} `{EOut : EventOutput O}.
Context (debug_strings : list string -> string).
Notation manager := (Manager (R := R) (O := O)).
Notation capture := (EventCaptureService (R := R)).

Definition queue_jsons (t : DlqTable) : list string := map (fun x => dr_event_json (snd x)) (map_to_list (dt_rows t)).

(** The event can be written as JSON, whole and column by column. *)
Definition representable (e : MetricEvent) : Prop := faithful e /\ serialises e = true.
Definition step_ok (st : Step) : Prop := match st with Arrive _ e => representable e | _ => True end.

Lemma queue_jsons_insert t now entries : dlq_fresh t ->
  dlq_fresh (dlq_insert_rows t (map (new_row now) entries)) /\
  queue_jsons (dlq_insert_rows t (map (new_row now) entries)) ≡ₚ map fst entries ++ queue_jsons t.
Proof.
  intros Hf. rewrite dlq_insert_rows_eq. destruct (add_rows_spec (map (new_row now) entries) _ _ Hf) as [Hx1 Hx2]. split; [done|].
  unfold queue_jsons. cbn. rewrite Hx2, map_app. f_equiv. apply reflexive_eq. generalize (dt_next t). clear.
  induction entries as [|x entries IH]; intros n; [done|]. cbn. f_equal. rewrite <- (IH (n + 1)%Z). f_equal. apply imap_ext. intros i r _. cbn. f_equal. lia.
Qed.

Lemma serialised_all b : Forall representable b -> length (omap serialised b) = length b /\ List.filter serialises b = b /\
  List.filter (fun e => negb (serialises e)) b = [].
Proof.
  intros Hb. induction Hb as [|e b [_ He] _ (IH1 & IH2 & IH3)]; [done|]. cbn. unfold serialises in He |- *. destruct (serialised e); [|done].
  cbn. unfold serialises in IH2, IH3. by rewrite IH1, IH2, IH3.
Qed.

(** What storing a batch does to the two databases. *)
Record linked (r0 : R) (dlq0 : option (Db DlqTable)) (c : capture) (g : Ledger) : Prop := {
  lk_inv : ev_inv (cp_storage c);
  lk_wanted : forall e, ev_wanted (cp_storage c) e = ev_wanted r0 e;
  lk_recorded : ev_recorded (cp_storage c) ≡ₚ map (stored_event None) (List.filter (ev_wanted r0) (lg_stored g)) ++ ev_recorded r0;
  lk_queue : match cp_dlq c, dlq0 with
             | None, None => lg_queued g = []
             | Some db, Some db0 =>
                 dlq_fresh (db_data db) /\ queue_jsons (db_data db) ≡ₚ omap serialised (lg_queued g) ++ queue_jsons (db_data db0) /\
                 (db_faults db0 = [] -> db_faults db = [] /\ lg_lost g = [])
             | _, _ => False
             end
}.

Lemma statement_no_faults {T A : Type} (k : T -> T * A) d : statement k (mkDb d []) = (mkDb (fst (k d)) [], Ok (snd (k d))).
Proof. unfold statement. cbn. by destruct (k d). Qed.

Lemma dlq_chunks_no_faults now cs d : exists d' ids, dlq_save_chunks now cs (mkDb d []) = (mkDb d' [], Ok ids).
Proof.
  revert d. induction cs as [|c cs IH]; intros d; [by eexists _, _|]. cbn [dlq_save_chunks]. unfold sql_bind at 1. rewrite statement_no_faults.
  destruct (IH (fst (dlq_insert_all now c d))) as (d' & ids & E). unfold sql_bind. rewrite E. by eexists _, _.
Qed.

Lemma dlq_batch_no_faults now es d : exists d' ids, dlq_save_batch now es (mkDb d []) = (mkDb d' [], Ok ids).
Proof.
  destruct es as [|e es]; [by eexists _, _|]. unfold dlq_save_batch, transaction. rewrite statement_no_faults. cbn [fst].
  destruct (dlq_chunks_no_faults now (chunks DLQ_CHUNK_SIZE (e :: es)) d) as (d' & ids & ->). rewrite statement_no_faults. by eexists _, _.
Qed.

Lemma store_linked r0 dlq0 now b c g : b <> [] -> Forall representable b -> linked r0 dlq0 c g ->
  linked r0 dlq0 (store_batch debug_strings now b c) (book debug_strings now b c g).
Proof.
  intros Hne Hb [Hi Hw Hr Hq]. destruct b as [|e0 b0]; [done|]. set (b := e0 :: b0) in *. clear Hne.
  assert (Forall faithful b) as Hf by (eapply List.Forall_impl; [|exact Hb]; by intros e []).
  unfold store_batch, book, capture_events. cbn [b]. fold b. pose proof (ev_save_batch_law (cp_storage c) b Hi Hf) as Hl.
  pose proof (ev_save_batch_keeps (cp_storage c) b Hi) as Hk. destruct (ev_save_batch b (cp_storage c)) as [r [ids|err]]; destruct Hk as (Hi' & Hw' & _).
  { constructor; cbn [cp_storage cp_dlq lg_stored lg_queued lg_lost]; [done|by intros e; rewrite Hw'| |done].
    rewrite Hl, Hr, List.filter_app, map_app, <- app_assoc. f_equiv. apply reflexive_eq. f_equal. by apply List.filter_ext. }
  destruct (serialised_all b Hb) as (Hlen & Hfil & Hneg).
  unfold save_to_dlq. cbn [cp_dlq cp_storage]. destruct (cp_dlq c) as [db|] eqn:Ed, dlq0 as [db0|]; try done.
  - destruct Hq as (Hfr & Hqj & Hfl). remember (map (fun json => (json, error_display debug_strings err)) (omap serialised b)) as es eqn:Ees.
    destruct es as [|x xs]; [apply (f_equal length) in Ees; rewrite length_map, Hlen in Ees; done|]. rewrite Ees. clear x xs Ees.
    pose proof (dlq_save_batch_spec now (map (fun json => (json, error_display debug_strings err)) (omap serialised b)) db) as Hs.
    destruct (dlq_save_batch now _ db) as [db' rq] eqn:Edb. destruct rq as [ids|err2].
    + destruct Hs as [Hd Hids]. cbn [fst snd]. assert (lenN ids <> 0%N) as Hn0.
      { rewrite Hids. unfold lenN. rewrite length_map, length_seq, length_map, Hlen. cbn. lia. }
      destruct (N.eqb_spec (lenN ids) 0) as [?|_]; [done|]. constructor; cbn [cp_storage cp_dlq lg_stored lg_queued lg_lost];
        [done | by intros e; rewrite Hw' | by rewrite Hl, Hr |].
      destruct (queue_jsons_insert (db_data db) now (map (fun json => (json, error_display debug_strings err)) (omap serialised b)) Hfr) as [Hf1 Hf2].
      rewrite Hd. split; [done|]. split.
      * rewrite Hf2, Hqj, Hfil, omap_app, <- app_assoc. f_equiv. apply reflexive_eq. rewrite List.map_map. cbn. by rewrite List.map_id.
      * intros E0. destruct (Hfl E0) as [Hdf Hlost]. rewrite Hneg, Hlost. split; [|done]. destruct db as [d fs]. cbn in Hdf. subst fs.
        destruct (dlq_batch_no_faults now (map (fun json => (json, error_display debug_strings err)) (omap serialised b)) d) as (d' & ids' & E').
        rewrite Edb in E'. by injection E' as -> _.
    + cbn [fst snd]. cbn [N.eqb]. constructor; cbn [cp_storage cp_dlq lg_stored lg_queued lg_lost];
        [done | by intros e; rewrite Hw' | by rewrite Hl, Hr |]. rewrite Hs. split; [done|]. split; [done|]. intros E0. destruct (Hfl E0) as [Hdf _].
      exfalso. destruct db as [d fs]. cbn in Hdf. subst fs.
      destruct (dlq_batch_no_faults now (map (fun json => (json, error_display debug_strings err)) (omap serialised b)) d) as (d' & ids' & E').
      by rewrite Edb in E'.
  - cbn. constructor; cbn; [done | by intros e; rewrite Hw' | by rewrite Hl, Hr | done].
Qed.

Definition batch_ok (x : Flusher * list MetricEvent) : Prop := snd x <> [] /\ Forall representable (snd x).

Lemma remove_flight_ok who l b rest : Forall batch_ok l -> remove_flight who l = Some (b, rest) ->
  b <> [] /\ Forall representable b /\ Forall batch_ok rest.
Proof.
  intros Hl. revert b rest. induction Hl as [|x l Hx Hl IH]; intros b rest; cbn; [done|]. case_bool_decide.
  - intros [= <- <-]. split; [apply Hx|]. split; [apply Hx|done].
  - destruct (remove_flight who l) as [[b' r']|]; [|done]. intros [= <- <-]. destruct (IH _ _ eq_refl) as (Hb1 & Hb2 & Hb3). split; [done|]. split; [done|]. by constructor.
Qed.

Record consistent (r0 : R) (dlq0 : option (Db DlqTable)) (x : manager * Ledger) : Prop := {
  cs_balanced : balanced x;
  cs_linked : linked r0 dlq0 (mg_capture (fst x)) (snd x);
  cs_buffer : Forall representable (mg_buffer (fst x));
  cs_flights : Forall batch_ok (mg_in_flight (fst x))
}.

Lemma take_buffer_ok who (m : manager) : Forall representable (mg_buffer m) -> Forall batch_ok (mg_in_flight m) ->
  Forall representable (mg_buffer (take_buffer who m)) /\ Forall batch_ok (mg_in_flight (take_buffer who m)) /\
  mg_capture (take_buffer who m) = mg_capture m.
Proof.
  intros Hb Hf. unfold take_buffer. destruct (mg_buffer m) as [|e b] eqn:E; [by rewrite E|]. cbn. split; [constructor|]. split; [|done].
  apply Forall_app. split; [done|]. constructor; [|constructor]. by split.
Qed.

Lemma linked_ledger r0 dlq0 (c : capture) g g' :
  lg_stored g' = lg_stored g -> lg_queued g' = lg_queued g -> lg_lost g' = lg_lost g -> linked r0 dlq0 c g -> linked r0 dlq0 c g'.
Proof. intros E1 E2 E3 [H1' H2' H3' H4']. constructor; rewrite ?E1, ?E2, ?E3; done. Qed.

Lemma step_consistent cfg st r0 dlq0 x : step_ok st -> consistent r0 dlq0 x -> consistent r0 dlq0 (step debug_strings cfg st x).
Proof.
  intros Hok Hc. pose proof (step_balanced debug_strings cfg st x (cs_balanced _ _ _ Hc)) as Hb. constructor; [exact Hb|..]; clear Hb;
    destruct Hc as [_ Hl Hb Hf], x as [m g]; cbn [fst snd] in *;
    destruct st as [c e|who| |now who|]; cbn [step].
  - eapply linked_ledger; [..|exact Hl]; done.
  - destruct (busy who m); [done|]. cbn. by destruct (take_buffer_ok who m Hb Hf) as (_ & _ & ->).
  - destruct (busy FlushTask m || _); [done|]. cbn [fst snd].
    by destruct (take_buffer_ok FlushTask (mkManager (mg_buffer m) (mg_in_flight m) false (mg_capture m) (mg_broadcast m) (mg_output m)) Hb Hf) as (_ & _ & ->).
  - destruct (remove_flight who (mg_in_flight m)) as [[b rest]|] eqn:E; [|done]. destruct (remove_flight_ok _ _ _ _ Hf E) as (Hn & Hr & _).
    by apply store_linked.
  - destruct (remove_flight FlushTask (mg_in_flight m)) as [[b rest]|] eqn:E; [|done]. eapply linked_ledger; [..|exact Hl]; done.
  - cbn. apply Forall_app. split; [by apply Forall_drop|]. by constructor; [|constructor].
  - destruct (busy who m); [done|]. cbn. by apply take_buffer_ok.
  - destruct (busy FlushTask m || _); [done|]. cbn [fst snd]. by apply take_buffer_ok.
  - destruct (remove_flight who (mg_in_flight m)) as [[b rest]|]; done.
  - destruct (remove_flight FlushTask (mg_in_flight m)) as [[b rest]|]; done.
  - done.
  - destruct (busy who m); [done|]. cbn. by apply take_buffer_ok.
  - destruct (busy FlushTask m || _); [done|]. cbn [fst snd]. by apply take_buffer_ok.
  - destruct (remove_flight who (mg_in_flight m)) as [[b rest]|] eqn:E; [|done]. by destruct (remove_flight_ok _ _ _ _ Hf E) as (_ & _ & Hr).
  - destruct (remove_flight FlushTask (mg_in_flight m)) as [[b rest]|] eqn:E; [|done]. by destruct (remove_flight_ok _ _ _ _ Hf E) as (_ & _ & Hr).
Qed.

Lemma run_consistent cfg steps r0 dlq0 : Forall step_ok steps -> forall x, consistent r0 dlq0 x -> consistent r0 dlq0 (run debug_strings cfg steps x).
Proof. intros Hs. induction Hs as [|st steps Hst _ IH]; intros x Hx; [done|]. apply IH. by apply step_consistent. Qed.

Definition start (r : R) (dlq : option (Db DlqTable)) (o : option O) : manager * Ledger :=
  (mkManager [] [] false (mkCapture r dlq) [] o, empty_ledger).

Lemma start_consistent r dlq o : ev_inv r -> (forall db, dlq = Some db -> dlq_fresh (db_data db)) -> consistent r dlq (start r dlq o).
Proof.
  intros Hi Hq. constructor; [by cbn| |constructor|constructor]. constructor; cbn; [done|done|done|]. destruct dlq as [db|]; [|done].
  split; [by apply Hq|]. by split.
Qed.

(** C4: no event of the write path is unaccounted for.  After any history of
    arrivals, overlapping flushes and an aborted flush task, with any failures
    of either database, each event that arrived is in exactly one of: the events
    displaced by overflow, the buffer, a flush under way, the events stored, the
    events queued as dead letters, the events lost, the events of an aborted
    flush.  The stored ones are recorded in the event repository once each (those
    of removed metrics excepted), the queued ones are in the dead-letter table
    once each, and with a working dead-letter database none is lost. *)
Theorem events_accounted cfg steps r dlq (o : option O) :
  ev_inv r -> (forall db, dlq = Some db -> dlq_fresh (db_data db)) -> Forall step_ok steps ->
  let '(m, g) := run debug_strings cfg steps (start r dlq o) in
  lg_arrived g ≡ₚ lg_overflowed g ++ mg_buffer m ++ in_flight m ++ lg_stored g ++ lg_queued g ++ lg_lost g ++ lg_aborted g /\
  ev_recorded (cp_storage (mg_capture m)) ≡ₚ map (stored_event None) (List.filter (ev_wanted r) (lg_stored g)) ++ ev_recorded r /\
  match cp_dlq (mg_capture m), dlq with
  | None, None => lg_queued g = []
  | Some db', Some db => queue_jsons (db_data db') ≡ₚ omap serialised (lg_queued g) ++ queue_jsons (db_data db) /\
                         (db_faults db = [] -> lg_lost g = [])
  | _, _ => False
  end.
Proof.
  intros Hi Hq Hs. pose proof (run_consistent cfg steps r dlq Hs _ (start_consistent r dlq o Hi Hq)) as [Hb Hl _ _].
  destruct (run debug_strings cfg steps (start r dlq o)) as [m g]. cbn in Hl. split; [exact Hb|]. destruct Hl as [_ _ Hr Hqu]. split; [exact Hr|].
  destruct (cp_dlq (mg_capture m)), dlq; try done. destruct Hqu as (_ & Hj & Hx). split; [done|]. intros E. by apply Hx.
Qed.

Definition capacity (cfg : EventBatchingConfig) : N := N.max 1 (eb_max_buffer_size cfg).

Lemma process_event_buffer cfg c e (m : manager) :
  mg_buffer (process_event cfg c e m) = drop (length (mg_buffer m) + 1 - N.to_nat (capacity cfg)) (mg_buffer m ++ [e]).
Proof.
  cbn. unfold overflow, lenN, capacity. destruct (N.leb_spec (eb_max_buffer_size cfg) (N.of_nat (length (mg_buffer m)))) as [Hle|Hgt].
  - destruct (decide (eb_max_buffer_size cfg = 0)%N) as [E0|E0].
    + rewrite (drop_ge (mg_buffer m)), drop_app_ge by (rewrite ?E0; lia). rewrite E0.
      by replace (length (mg_buffer m) + 1 - N.to_nat (N.max 1 0) - length (mg_buffer m))%nat with 0%nat by lia.
    + rewrite drop_app_le by lia. do 2 f_equal. lia.
  - replace (length (mg_buffer m) + 1 - N.to_nat (N.max 1 (eb_max_buffer_size cfg)))%nat with 0%nat by lia. by rewrite !drop_0.
Qed.

Lemma take_buffer_shrinks who (m : manager) : (lenN (mg_buffer (take_buffer who m)) <= lenN (mg_buffer m))%N.
Proof. unfold take_buffer, lenN. destruct (mg_buffer m) eqn:E; [by rewrite E|]. cbn. lia. Qed.

Lemma step_buffer cfg st (x : manager * Ledger) : (lenN (mg_buffer (fst x)) <= capacity cfg)%N ->
  (lenN (mg_buffer (fst (step debug_strings cfg st x))) <= capacity cfg)%N.
Proof.
  destruct x as [m g]. cbn [fst]. intros Hx. destruct st as [c e|who| |now who|]; cbn [step].
  - cbn [fst]. rewrite process_event_buffer. unfold lenN, capacity in *. rewrite length_drop, length_app. cbn. lia.
  - destruct (busy who m); [done|]. cbn. pose proof (take_buffer_shrinks who m). lia.
  - destruct (busy FlushTask m || _); [done|]. cbn [fst].
    pose proof (take_buffer_shrinks FlushTask (mkManager (mg_buffer m) (mg_in_flight m) false (mg_capture m) (mg_broadcast m) (mg_output m))) as Hs.
    etransitivity; [exact Hs|exact Hx].
  - by destruct (remove_flight who (mg_in_flight m)) as [[b rest]|].
  - by destruct (remove_flight FlushTask (mg_in_flight m)) as [[b rest]|].
Qed.

(** C40: the buffer never holds more than [max_buffer_size] events (one, if the
    limit is zero), whatever the history, and an event that arrives at a full
    buffer displaces the oldest and no other. *)
Theorem buffer_bounded cfg steps r dlq (o : option O) :
  (lenN (mg_buffer (fst (run debug_strings cfg steps (start r dlq o)))) <= capacity cfg)%N /\
  forall c e (m : manager), mg_buffer (process_event cfg c e m) = drop (length (mg_buffer m) + 1 - N.to_nat (capacity cfg)) (mg_buffer m ++ [e]).
Proof.
  split; [|intros; apply process_event_buffer]. unfold run.
  assert (lenN (mg_buffer (fst (start r dlq o))) <= capacity cfg)%N as Hx by (cbn [start fst mg_buffer]; rewrite lenN_nil; apply N.le_0_l). revert Hx.
  generalize (start r dlq o). induction steps as [|st steps IH]; intros x Hx; [done|]. by apply IH, step_buffer.
Qed.

(** ** A failed flush is made good *)

(** The event's JSON reads back as the event. *)
Definition recoverable (e : MetricEvent) : Prop :=
  faithful e /\ exists json, event_to_json e = Ok json /\ event_of_json json = Ok e.

Lemma recoverable_representable e : recoverable e -> representable e.
Proof. intros [Hf (json & E & _)]. split; [done|]. unfold serialises, serialised. by rewrite E. Qed.

Lemma queued_row now msg b e t : dlq_fresh t -> recoverable e -> e ∈ b -> exists id json,
  event_of_json json = Ok e /\
  dt_rows (dlq_insert_rows t (map (new_row now) (map (fun json => (json, msg)) (omap serialised b)))) !! id = Some (new_row now (json, msg)).
Proof.
  intros Hf [_ (json & E1 & E2)] Hin.
  assert ((json, msg) ∈ map (fun json => (json, msg)) (omap serialised b)) as Hj.
  { apply list_elem_of_In, in_map_iff. exists json. split; [done|]. apply list_elem_of_In, list_elem_of_omap. exists e. split; [done|].
    unfold serialised. by rewrite E1. }
  apply list_elem_of_lookup in Hj as [i Hi]. exists (dt_next t + Z.of_nat i)%Z, json. split; [done|]. rewrite dlq_insert_rows_eq. cbn.
  rewrite add_rows_lookup; [|done|rewrite length_map; by eapply lookup_lt_Some]. rewrite list_lookup_fmap, Hi. done.
Qed.

Lemma match_nonempty {A B : Type} (l : list A) (x y : B) : l <> [] -> match l with [] => x | _ => y end = y.
Proof. by destruct l. Qed.

Lemma counts_insert now t entries : dlq_fresh t -> counts_ok t -> counts_ok (dlq_insert_rows t (map (new_row now) entries)).
Proof.
  intros Hf Hc id row Hr. rewrite dlq_insert_rows_eq in Hr. cbn in Hr. apply elem_of_map_to_list in Hr.
  destruct (add_rows_spec (map (new_row now) entries) _ _ Hf) as [_ Hp]. rewrite Hp, elem_of_app in Hr. destruct Hr as [Hr|Hr].
  - apply elem_of_lookup_imap in Hr as (i & y & [= -> ->] & Hy). apply list_lookup_fmap_Some in Hy as (x & -> & _). cbn. lia.
  - apply elem_of_map_to_list in Hr. by apply (Hc id).
Qed.

(** C25: a flush refused by the event database is made good, when the manager has a
    dead-letter queue and the queue's database works.  Suppose every event of the
    batch has a JSON text that reads back as the event and fields that fit the
    columns ([recoverable]), and the batch size of the recovery is between 1 and
    998, so that the ids of a batch fit into one statement.  Then the refused
    batch is queued, and after (max_retries + 1) rounds for each entry of the
    queue, whatever the event database answers to each of them, every event of
    the batch has been recorded (or its metric is gone), or is kept in the queue,
    marked failed after at least [max_retries] attempts.  Without a queue, or
    when the queue refuses the batch too, the events are lost
    ([events_accounted] counts them). *)
Theorem failed_flush_is_recovered cfg ticks now b r r1 err t :
  (dc_max_retries cfg < 2 ^ 32)%N -> (0 < dc_batch_size cfg)%N -> batch_fits cfg -> ev_inv r -> dlq_fresh t -> counts_ok t -> Forall recoverable b ->
  ev_save_batch b r = (r1, Err err) ->
  ((N.to_nat (dc_max_retries cfg) + 1) * (size (dt_rows t) + length b) <= length ticks)%nat ->
  let c := store_batch debug_strings now b (mkCapture r (Some (mkDb t []))) in
  exists db, cp_dlq c = Some db /\
  let s := recovery_ticks cfg ticks (DeadLetter.mkRec db (cp_storage c)) in
  forall e, e ∈ b ->
    (ev_wanted r e = true -> stored_event None e ∈ ev_recorded (rc_events s)) \/
    exists id row, dt_rows (queue s) !! id = Some row /\ event_of_json (dr_event_json row) = Ok e /\
                   dr_status row = "failed" /\ (Z.of_N (dc_max_retries cfg) <= dr_retry_count row)%Z.
Proof.
  intros Hm Hb Hfit Hi Hf Hc Hrec Hsave Hl. set (msg := error_display debug_strings err).
  set (entries := map (fun json => (json, msg)) (omap serialised b)). set (t' := dlq_insert_rows t (map (new_row now) entries)).
  pose proof (ev_save_batch_keeps r b Hi) as Hk. rewrite Hsave in Hk. destruct Hk as (Hi1 & Hw1 & _).
  destruct b as [|e0 b0].
  { eexists. split; [done|]. intros s e He. by apply not_elem_of_nil in He. }
  set (bb := e0 :: b0) in *.
  assert (length entries = length bb) as Hlen.
  { unfold entries. rewrite length_map. apply serialised_all. eapply List.Forall_impl; [|exact Hrec]. apply recoverable_representable. }
  assert (store_batch debug_strings now bb (mkCapture r (Some (mkDb t []))) = mkCapture r1 (Some (mkDb t' []))) as ->.
  { unfold store_batch, capture_events. cbn [bb]. fold bb. cbn [cp_storage cp_dlq]. rewrite Hsave. unfold save_to_dlq. cbn [cp_dlq cp_storage].
    fold msg entries. rewrite match_nonempty by (intros E0; rewrite E0 in Hlen; done).
    destruct (dlq_batch_no_faults now entries t) as (d' & ids & Es). pose proof (dlq_save_batch_spec now entries (mkDb t [])) as Hsp.
    rewrite Es in Hsp |- *. destruct Hsp as [Hd _]. cbn [db_data] in Hd. cbn [fst]. by rewrite Hd. }
  eexists. split; [done|]. cbn zeta. cbn [cp_storage]. intros e He.
  assert (recoverable e) as Hre by (rewrite List.Forall_forall in Hrec; by apply Hrec, list_elem_of_In).
  destruct (queued_row now msg bb e t Hf Hre He) as (id & json & Hj & Hrow). fold entries t' in Hrow.
  assert (size (dt_rows t') = size (dt_rows t) + length bb)%nat as Hsz.
  { unfold t'. rewrite dlq_insert_rows_eq. cbn [dt_rows]. rewrite <- !length_map_to_list.
    destruct (add_rows_spec (map (new_row now) entries) _ _ Hf) as [_ ->]. rewrite length_app, length_imap, length_map. lia. }
  destruct (ticks_settle cfg t' r1 ticks Hm Hb Hfit (counts_insert now t entries Hf Hc) ltac:(lia) id _ Hrow eq_refl) as [Hn|(row' & Hr' & Hj' & Hs')].
  - left. intros Hw. destruct (ticks_accounted cfg ticks (DeadLetter.mkRec (mkDb t' []) r1) Hi1) as [(_ & Hwk & _) Hacc].
    destruct (Hacc id json) as [Hq|(ev & Eev & Hset)]; [unfold jsons; rewrite lookup_fmap; cbn [queue rc_dlq db_data]; by rewrite Hrow| |].
    + unfold jsons in Hq. rewrite lookup_fmap, Hn in Hq. done.
    + rewrite Hj in Eev. injection Eev as <-. apply Hset; [apply Hre|]. rewrite Hwk. cbn [rc_events]. by rewrite Hw1.
  - right. exists id, row'. split; [done|]. rewrite Hj'. by split.
Qed.

End Accounting.

(** ** Examples *)

Module SamplePipeline.
Definition texts (vs : list string) : string := "[]".
Definition dlq : Db DlqTable := mkDb (mkDT ∅ 1) [].
Definition storage (faults : list bool) : Db EventTable := mkDb EventRepo.Sample.table faults.
Definition cfg : EventBatchingConfig := mkBatching 2 100 3.
Definition clock : Clock := mkClock 0 0.
Definition ev (m : N) : MetricEvent := EventRepo.Sample.event 0 m.
Definition arrivals (ms : list N) : list Step := map (fun m => Arrive clock (ev m)) ms.
End SamplePipeline.
Import EventRepo.Sample SamplePipeline.

Lemma sample_step_ok ms : Forall (fun m => (m < 2 ^ 64)%N) ms -> Forall step_ok (arrivals ms).
Proof. intros Hm. induction Hm as [|m ms Hm _ IH]; [constructor|]. constructor; [|done]. split; [by apply faithful_event|done]. Qed.

Lemma events_accounted_witness :
  let '(m, g) := run texts cfg (arrivals [1; 2; 9; 1] ++ [Take FlushTask; Store 5 FlushTask])%N (start (storage [true]) (Some dlq) (@None NullOutput)) in
  lg_arrived g ≡ₚ lg_overflowed g ++ mg_buffer m ++ in_flight m ++ lg_stored g ++ lg_queued g ++ lg_lost g ++ lg_aborted g /\ lg_lost g = [].
Proof.
  assert (Forall step_ok (arrivals [1; 2; 9; 1] ++ [Take FlushTask; Store 5 FlushTask])%N) as Hs
    by (apply Forall_app; split; [apply sample_step_ok; by repeat constructor | by repeat constructor]).
  assert (forall db, Some dlq = Some db -> dlq_fresh (db_data db)) as Hq by (intros db [= <-] id row E; cbn in E; by rewrite lookup_empty in E).
  pose proof (events_accounted texts cfg (arrivals [1; 2; 9; 1] ++ [Take FlushTask; Store 5 FlushTask])%N (storage [true]) (Some dlq) (@None NullOutput)
    sample_fresh Hq Hs) as Ht.
  destruct (run texts cfg _ _) as [m g]. destruct Ht as (H1 & _ & H3). split; [exact H1|]. destruct (cp_dlq (mg_capture m)); [apply H3; reflexivity|destruct H3].
Defined.

Lemma failed_flush_is_recovered_witness :
  let c := store_batch texts 5 [ev 1; ev 2]%N (mkCapture (storage [true]) (Some dlq)) in
  exists db, cp_dlq c = Some db /\
  let s := recovery_ticks default_dlq_config (repeat (0, 0)%Z 8) (DeadLetter.mkRec db (cp_storage c)) in
  (ev_wanted (storage [true]) (ev 1) = true -> stored_event None (ev 1) ∈ ev_recorded (rc_events s)) \/
  exists id row, dt_rows (queue s) !! id = Some row /\ event_of_json (dr_event_json row) = Ok (ev 1) /\
                 dr_status row = "failed" /\ (3 <= dr_retry_count row)%Z.
Proof.
  assert (Forall recoverable [ev 1; ev 2]%N) as Hr.
  { repeat (constructor; [split; [by apply faithful_event|by eexists]|]). constructor. }
  assert (dlq_fresh (db_data dlq)) as Hf by (intros id row E; cbn in E; by rewrite lookup_empty in E).
  assert (counts_ok (db_data dlq)) as Hc by (intros id row E; cbn in E; by rewrite lookup_empty in E).
  destruct (failed_flush_is_recovered texts default_dlq_config (repeat (0, 0)%Z 8) 5 [ev 1; ev 2]%N (storage [true]) (storage []) (Database "database error")
    (db_data dlq) ltac:(done) ltac:(done) ltac:(done) sample_fresh Hf Hc Hr eq_refl ltac:(vm_compute; lia)) as (db & E & Hall).
  exists db. split; [exact E|]. apply Hall. left.
Defined.

(** Stopping can lose events although both databases work.  The flush task has
    taken a batch and is storing it when [stop_all] flushes what is left and
    aborts the task: the batch is neither recorded nor queued. *)
Theorem stop_all_loses_flight :
  let '(m, g) := run texts cfg ((arrivals [1; 2] ++ [TakeRequested]) ++ arrivals [2] ++ stop_all cfg 7 0)%N (start (storage []) (Some dlq) (@None NullOutput)) in
  lg_aborted g = [ev 1; ev 2]%N /\ recorded (db_data (cp_storage (mg_capture m))) = [stored_event None (ev 2)] /\
  lg_stored g = [ev 2] /\ lg_queued g = [] /\ mg_buffer m = [] /\ mg_in_flight m = [].
Proof. vm_compute. repeat split. Qed.

(** With a flush interval of zero the flush task is not started and reaching
    the batch size has no effect: no history of arrivals and requests stores an
    event, and beyond [max_buffer_size] they are dropped. *)
Theorem zero_interval_never_flushes `{Engine} `{EventJson} cfg steps r dlq :
  eb_flush_interval_ms cfg = 0%N -> Forall (fun st => match st with Arrive _ _ | TakeRequested => True | _ => False end) steps ->
  let '(m, g) := run texts cfg steps (start (R := Db EventTable) r dlq (@None NullOutput)) in
  lg_stored g = [] /\ mg_in_flight m = [] /\ cp_storage (mg_capture m) = r.
Proof.
  intros Hz Hs. assert (forall x : Manager (O := NullOutput) * Ledger, mg_flush_requested (fst x) = false -> mg_in_flight (fst x) = [] -> lg_stored (snd x) = [] ->
    cp_storage (mg_capture (fst x)) = r -> let '(m, g) := run texts cfg steps x in lg_stored g = [] /\ mg_in_flight m = [] /\ cp_storage (mg_capture m) = r) as Hgen.
  { induction Hs as [|st steps Hst _ IH]; intros [m g] H1 H2 H3 H4; [done|]. cbn in H1, H2, H3, H4. cbn [run fold_left].
    apply IH; destruct st; try done; cbn [step]; rewrite ?H1, ?orb_true_r; try done.
    cbn. unfold flush_task_runs. by rewrite H1, Hz, andb_false_r. }
  by apply Hgen.
Qed.

Lemma zero_interval_never_flushes_witness :
  let '(m, g) := run texts (mkBatching 2 0 3) (arrivals [1; 2; 1; 2] ++ [TakeRequested])%N (start (storage []) (Some dlq) (@None NullOutput)) in
  lg_stored g = [] /\ mg_in_flight m = [] /\ cp_storage (mg_capture m) = storage [].
Proof. apply zero_interval_never_flushes; [reflexivity|]. repeat constructor. Defined.
