(* ===== verification/ConnectionService.v ===== *)
(** * The connection service

    [crates/detrix-application/src/services/connection_service.rs]: creating,
    starting, disconnecting and deleting connections, the references that clients
    hold on them, migration after a restart, cleanup and restoration.  The
    service works on the connection tables ([ConnectionRepo]), on the metric port
    ([MetricRepository] with [ConnectionMetrics]) and on the lifecycle manager,
    which is the class [AdapterLifecycle] with its laws; the manager of
    [Lifecycle] is an instance.  A start in the background is a task of the
    state that a later step runs.  The clock is a sequence of readings. *)

From Stdlib Require Import Strings.String Init.Byte.
From stdpp Require Import gmap.
From S2P Require Import Prelude CoreError RustStr Language Metric MetricRepo Sql Connection ConnectionRepo Lifecycle.

Local Open Scope string_scope.
Local Open Scope Z_scope.
Local Open Scope sql_scope.
Local Open Scope list_scope.

(** ** The lifecycle manager as a port *)

Record StartRequest : Type := mkReq {
  sq_connection_id : string; sq_host : string; sq_port : N; sq_language : SourceLanguage;
  sq_program : option string; sq_pid : option N; sq_safe_mode : bool
}.

(** [E] says how the debugger and the scheduler behave during a start;
    [lc_abandon] is a start whose future is dropped before it has finished. *)
Class AdapterLifecycle (L E : Type) : Type := {
  lc_has : string -> L -> bool;
  lc_stop : string -> L -> L;
  lc_start : E -> StartRequest -> L -> L * result unit Error;
  lc_abandon : E -> StartRequest -> L -> L
}.

Class AdapterLifecycleLaws (L E : Type) `{AdapterLifecycle L E} : Type := {
  lc_inv : L -> Prop;
  stop_law m cid : lc_inv m -> lc_inv (lc_stop cid m) /\ lc_has cid (lc_stop cid m) = false /\
    forall other, other <> cid -> lc_has other (lc_stop cid m) = lc_has other m;
  start_law m e q : lc_inv m -> let '(m', r) := lc_start e q m in
    lc_inv m' /\ lc_has (sq_connection_id q) m' = is_ok r /\
    forall other, other <> sq_connection_id q -> lc_has other m' = lc_has other m;
  abandon_law m e q : lc_inv m -> let m' := lc_abandon e q m in
    lc_inv m' /\ forall other, other <> sq_connection_id q -> lc_has other m' = lc_has other m
}.

(** The events the service broadcasts ([SystemEvent::connection_*]). *)
Inductive Notice : Type :=
| NCreated (connection_id host : string) (port : N) (language : string)
| NClosed (connection_id : string)
| NRestored (connection_id : string) (reconnect_attempts : N).

Inductive VfsCall : Type := VMarkStale (connection_id : string) | VClear (connection_id : string).

(** A spawned start: what it will ask for, and for whom. *)
Record Background : Type := mkBg { bg_request : StartRequest; bg_user : option string }.

Record CreateRequest : Type := mkCreate {
  q_host : string; q_port : N; q_identity : ConnectionIdentity; q_program : option string; q_pid : option N; q_safe_mode : bool;
  q_control_plane_url : option string; q_build_commit : option string; q_build_tag : option string; q_user_id : option string
}.

Section Service.
Context `{Engine} {L E R : Type} `{AdapterLifecycle L E} `{MetricRepository R} `{ConnectionMetrics R}.
Context (sha256 : list byte -> list byte).

Record Svc : Type := mkSvc {
  sv_db : Db Store; sv_metrics : R; sv_lc : L; sv_vfs : list VfsCall; sv_sent : list Notice;
  sv_background : list Background; sv_clock : nat -> Z; sv_ticks : nat
}.

Definition on_db {A : Type} (m : Sql Store A) : Eff Svc A := fun s =>
  let '(db, r) := m (sv_db s) in
  (mkSvc db (sv_metrics s) (sv_lc s) (sv_vfs s) (sv_sent s) (sv_background s) (sv_clock s) (sv_ticks s), r).
Definition on_metrics {A : Type} (m : R -> R * result A Error) : Eff Svc A := fun s =>
  let '(ms, r) := m (sv_metrics s) in
  (mkSvc (sv_db s) ms (sv_lc s) (sv_vfs s) (sv_sent s) (sv_background s) (sv_clock s) (sv_ticks s), r).
Definition on_lc {A : Type} (m : L -> L * result A Error) : Eff Svc A := fun s =>
  let '(lc, r) := m (sv_lc s) in
  (mkSvc (sv_db s) (sv_metrics s) lc (sv_vfs s) (sv_sent s) (sv_background s) (sv_clock s) (sv_ticks s), r).
Definition vfs (c : VfsCall) : Eff Svc unit := fun s =>
  (mkSvc (sv_db s) (sv_metrics s) (sv_lc s) (sv_vfs s ++ [c]) (sv_sent s) (sv_background s) (sv_clock s) (sv_ticks s), Ok tt).
Definition send (n : Notice) : Eff Svc unit := fun s =>
  (mkSvc (sv_db s) (sv_metrics s) (sv_lc s) (sv_vfs s) (sv_sent s ++ [n]) (sv_background s) (sv_clock s) (sv_ticks s), Ok tt).
Definition spawn (b : Background) : Eff Svc unit := fun s =>
  (mkSvc (sv_db s) (sv_metrics s) (sv_lc s) (sv_vfs s) (sv_sent s) (sv_background s ++ [b]) (sv_clock s) (sv_ticks s), Ok tt).
Definition now : Eff Svc Z := fun s =>
  (mkSvc (sv_db s) (sv_metrics s) (sv_lc s) (sv_vfs s) (sv_sent s) (sv_background s) (sv_clock s) (S (sv_ticks s)), Ok (sv_clock s (sv_ticks s))).

(** [if let Err(e) = m { warn }], and a [match] on a result. *)
Definition attempt {S A : Type} (m : Eff S A) : Eff S (result A Error) := fun s => let '(s, r) := m s in (s, Ok r).

Definition has_adapter (cid : string) : Eff Svc bool := on_lc (fun m => (m, Ok (lc_has cid m))).
Definition stop_adapter (cid : string) : Eff Svc unit := on_lc (fun m => (lc_stop cid m, Ok tt)).
Definition start_adapter (e : E) (q : StartRequest) : Eff Svc unit := on_lc (lc_start e q).

Definition update_status (cid : string) (status : ConnectionStatus) : Eff Svc unit :=
  let* t := now in on_db (conn_update_status t cid status).

(** ** References *)

Definition add_reference (cid : string) (client : ClientIdentity) (kind : ReferenceKind) : Eff Svc unit :=
  let* t := now in on_db (ref_add (reference_new t cid client kind)).

(** A caller with an identity gets a reference; failure is only logged. *)
Definition hold_reference (cid : string) (user_id : option string) : Eff Svc unit :=
  match user_id with
  | Some client_id => let* _ := attempt (add_reference cid (Bridge client_id) KClient) in sql_ret tt
  | None => sql_ret tt
  end.

Definition attach_to_connection (cid : string) (client : ClientIdentity) : Eff Svc unit :=
  let* found := on_db (conn_find_by_id cid) in
  match found with
  | None => sql_lift (Err (NotConnected ("Connection " ++ cid ++ " not found")))
  | Some _ => add_reference cid client KClient
  end.
Definition add_daemon_reference (cid : string) : Eff Svc unit := add_reference cid Daemon KDaemon.
Definition get_reference_count (cid : string) : Eff Svc N := on_db (ref_count_references cid).
Definition list_references (cid : string) : Eff Svc (list ConnectionReference) := on_db (ref_find_by_connection cid).

(** ** Disconnecting and deleting *)

Definition disconnect (cid : string) : Eff Svc unit :=
  let* _ := stop_adapter cid in
  let* _ := vfs (VMarkStale cid) in
  let* _ := update_status cid Disconnected in
  send (NClosed cid).

Definition delete_connection (cid : string) : Eff Svc unit :=
  let* _ := attempt (stop_adapter cid) in
  let* _ := vfs (VClear cid) in
  let* _ := attempt (on_db (ref_remove_all_by_connection cid)) in
  let* deleted_metrics := on_metrics (repo_delete_by_connection_id cid) in
  let* _ := on_db (conn_delete cid) in
  send (NClosed cid).

Definition release_reference (cid : string) (client : ClientIdentity) : Eff Svc (bool * bool) :=
  let* x := on_db (ref_remove_and_count cid client) in
  let '(was_removed, remaining) := x in
  if (was_removed : bool) && (remaining =? 0)%N then
    let* r := attempt (disconnect cid) in sql_ret (was_removed, is_ok r)
  else sql_ret (was_removed, false).

Fixpoint disconnect_unreferenced (results : list (string * N)) (disconnected : N) : Eff Svc N :=
  match results with
  | [] => sql_ret disconnected
  | (cid, remaining) :: rest =>
      if (remaining =? 0)%N then
        let* r := attempt (disconnect cid) in
        disconnect_unreferenced rest (if is_ok r then disconnected + 1 else disconnected)%N
      else disconnect_unreferenced rest disconnected
  end.

Definition release_all_client_references (client : ClientIdentity) : Eff Svc (N * N) :=
  let* results := on_db (ref_remove_all_by_client client) in
  let* disconnected := disconnect_unreferenced results 0 in
  sql_ret (lenN results, disconnected).
Definition disconnect_all_connections (client : ClientIdentity) : Eff Svc (N * N) := release_all_client_references client.

Fixpoint admin_disconnect_each (cs : list Connection) (n : nat) : Eff Svc nat :=
  match cs with
  | [] => sql_ret n
  | c :: rest =>
      let* _ := attempt (on_db (ref_remove_all_by_connection (c_id c))) in
      let* r := attempt (disconnect (c_id c)) in
      admin_disconnect_each rest (if is_ok r then S n else n)
  end.
Definition admin_disconnect_all : Eff Svc nat :=
  let* cs := on_db conn_list_all in admin_disconnect_each cs 0.

(** ** Creating *)

Definition finalize_connection_start (q : StartRequest) (user_id : option string) : Eff Svc unit :=
  let* _ := update_status (sq_connection_id q) Connected in
  let* _ := hold_reference (sq_connection_id q) user_id in
  send (NCreated (sq_connection_id q) (sq_host q) (sq_port q) (lang_as_str (sq_language q))).

(** Metrics of the same project's dead connections move over; then these go. *)
Fixpoint absorb_each (stale_ids : list string) (cid : string) : Eff Svc unit :=
  match stale_ids with
  | [] => sql_ret tt
  | stale_id :: rest =>
      let* _ := attempt (on_metrics (repo_migrate_connection_id stale_id cid)) in
      let* _ := attempt (delete_connection stale_id) in
      absorb_each rest cid
  end.
Definition absorb_stale (c : Connection) : Eff Svc unit :=
  let* stale := attempt (on_db (conn_find_stale_same_project (default EmptyString (c_name c)) (lang_as_str (c_language c)) (c_workspace_root c) (c_id c))) in
  match stale with Ok ids => absorb_each ids (c_id c) | Err _ => sql_ret tt end.

Definition with_metadata (q : CreateRequest) (c : Connection) : Connection :=
  mkConn (c_id c) (c_name c) (c_workspace_root c) (c_hostname c) (c_host c) (c_port c) (c_language c) (c_status c)
    (c_auto_reconnect c) (q_safe_mode q) (q_control_plane_url q) (q_build_commit q) (q_build_tag q) (q_user_id q)
    (c_created_at c) (c_last_connected_at c) (c_last_active c).

Definition start_request (q : CreateRequest) (c : Connection) : StartRequest :=
  mkReq (c_id c) (c_host c) (c_port c) (c_language c) (q_program q) (q_pid q) (c_safe_mode c).

(** Steps 3 and 4 of the source: save, absorb, start. *)
Definition start_connection (e : E) (q : CreateRequest) (c : Connection) : Eff Svc string :=
  let* _ := on_db (conn_save c) in
  let* _ := absorb_stale c in
  match q_pid q with
  | Some _ =>
      let* _ := update_status (c_id c) Connecting in
      let* _ := spawn (mkBg (start_request q c) (q_user_id q)) in
      sql_ret (c_id c)
  | None =>
      let* _ := start_adapter e (start_request q c) in
      let* _ := finalize_connection_start (start_request q c) (q_user_id q) in
      sql_ret (c_id c)
  end.

Definition already_there (existing : Connection) : Eff Svc bool :=
  match c_status existing with
  | Connected => has_adapter (c_id existing)
  | Connecting => sql_ret true
  | _ => sql_ret false
  end.

Definition create_connection_with_metadata (e : E) (q : CreateRequest) : Eff Svc string :=
  let* t := now in
  let* c0 := sql_lift (new_with_identity sha256 t (q_identity q) (q_host q) (q_port q)) in
  let* _ := sql_lift (validate_user_id (q_user_id q)) in
  let c := with_metadata q c0 in
  let* found := attempt (on_db (conn_find_by_id (c_id c))) in
  match found with
  | Ok (Some existing) =>
      let* there := already_there existing in
      if (there : bool) then let* _ := hold_reference (c_id existing) (q_user_id q) in sql_ret (c_id existing)
      else start_connection e q c
  | _ => start_connection e q c
  end.

Definition create_connection (e : E) (host : string) (port : N) (identity : ConnectionIdentity) (program : option string)
    (pid : option N) (safe_mode : bool) : Eff Svc string :=
  create_connection_with_metadata e (mkCreate host port identity program pid safe_mode None None None None).

(** The background task; the outer time-out drops the start. *)
Definition ADAPTER_START_TIMEOUT_SECS : N := 540.
Definition timeout_error : Error :=
  CoreError.Adapter ("adapter start timed out after " ++ show_N ADAPTER_START_TIMEOUT_SECS ++ " s (outer safety limit)").

Definition run_background (error_text : Error -> string) (timed_out : bool) (e : E) (b : Background) : Eff Svc unit :=
  let q := bg_request b in
  let* started := if timed_out then on_lc (fun m => (lc_abandon e q m, Ok (Err timeout_error))) else attempt (start_adapter e q) in
  match started with
  | Ok _ => let* _ := attempt (finalize_connection_start q (bg_user b)) in sql_ret tt
  | Err err => let* _ := attempt (update_status (sq_connection_id q) (Failed (error_text err))) in sql_ret tt
  end.

(** The task in position [k] runs to its end. *)
Definition finish_background (error_text : Error -> string) (timed_out : bool) (e : E) (k : nat) : Eff Svc unit := fun s =>
  match sv_background s !! k with
  | Some b => run_background error_text timed_out e b
      (mkSvc (sv_db s) (sv_metrics s) (sv_lc s) (sv_vfs s) (sv_sent s) (delete k (sv_background s)) (sv_clock s) (sv_ticks s))
  | None => (s, Ok tt)
  end.

Fixpoint connections_of (xs : list (ConnectionIdentity * string * N * bool)) : Eff Svc (list Connection) :=
  match xs with
  | [] => sql_ret []
  | (identity, host, port, safe_mode) :: rest =>
      let* _ := sql_lift (validate_user_id None) in
      let* t := now in
      let* c := sql_lift (new_with_identity sha256 t identity host port) in
      let* cs := connections_of rest in
      sql_ret (with_metadata (mkCreate host port identity None None safe_mode None None None None) c :: cs)
  end.
Definition create_connections_batch (xs : list (ConnectionIdentity * string * N * bool)) : Eff Svc (list string) :=
  let* cs := connections_of xs in
  let* _ := on_db (conn_save_batch cs) in
  sql_ret (map c_id cs).

(** ** Upkeep *)

Definition list_connections : Eff Svc (list Connection) := on_db conn_list_all.
Definition get_connection (cid : string) : Eff Svc (option Connection) := on_db (conn_find_by_id cid).
Definition list_active_connections : Eff Svc (list Connection) := on_db conn_find_active.
Definition connection_exists (cid : string) : Eff Svc bool := on_db (conn_exists cid).
Definition touch_connection (cid : string) : Eff Svc unit := let* t := now in on_db (conn_touch t cid).

Definition with_url (url : string) (c : Connection) : Connection :=
  mkConn (c_id c) (c_name c) (c_workspace_root c) (c_hostname c) (c_host c) (c_port c) (c_language c) (c_status c)
    (c_auto_reconnect c) (c_safe_mode c) (Some url) (c_build_commit c) (c_build_tag c) (c_user_id c)
    (c_created_at c) (c_last_connected_at c) (c_last_active c).
Definition set_control_plane_url (cid url : string) : Eff Svc unit :=
  let* found := on_db (conn_find_by_id cid) in
  match found with
  | Some conn => match c_control_plane_url conn with
                 | None => on_db (conn_update (with_url url conn))
                 | Some _ => sql_ret tt
                 end
  | None => sql_ret tt
  end.

Fixpoint cleanup_each (ttl_days now_micros : Z) (cs : list Connection) (removed_count : N) : Eff Svc N :=
  match cs with
  | [] => sql_ret removed_count
  | c :: rest =>
      if inactive_for_days ttl_days now_micros c then
        let* counted := attempt (on_db (ref_count_references (c_id c))) in
        let ref_count := match counted with Ok n => n | Err _ => 0%N end in
        if (0 <? ref_count)%N then cleanup_each ttl_days now_micros rest removed_count
        else
          let* _ := attempt (disconnect (c_id c)) in
          let* _ := on_db (conn_delete (c_id c)) in
          cleanup_each ttl_days now_micros rest (removed_count + 1)
      else cleanup_each ttl_days now_micros rest removed_count
  end.
Definition cleanup_stale_connections (ttl_days : Z) : Eff Svc N :=
  if ttl_days <? 0 then sql_ret 0%N
  else
    let* t := now in
    let* stale_refs := on_db (ref_cleanup_stale t ttl_days) in
    let* now_micros := now in
    let* cs := on_db conn_list_all in
    cleanup_each ttl_days now_micros cs 0.

(** ** Restoring at startup *)

Definition list_connections_for_startup_restore : Eff Svc (list Connection) :=
  let* r := attempt (on_db conn_list_all) in sql_ret (match r with Ok cs => cs | Err _ => [] end).

Definition live_status (s : ConnectionStatus) : bool := match s with Connected | Connecting | Reconnecting => true | _ => false end.

Definition active_here (c : Connection) : Eff Svc bool :=
  match c_status c with Connected | Connecting => has_adapter (c_id c) | _ => sql_ret false end.

(** What a connection of the snapshot becomes: reconnected, deleted, or neither. *)
Definition restore_one (e : E) (c : Connection) : Eff Svc (nat * nat) :=
  if is_agent_managed c then
    let* _ := (if live_status (c_status c) then let* _ := attempt (update_status (c_id c) Disconnected) in sql_ret tt else sql_ret tt) in
    sql_ret (0, 0)%nat
  else
    let* active := active_here c in
    if (active : bool) then sql_ret (0, 0)%nat
    else
      let* _ := attempt (update_status (c_id c) Reconnecting) in
      let* started := attempt (start_adapter e (mkReq (c_id c) (c_host c) (c_port c) (c_language c) None None (c_safe_mode c))) in
      match started with
      | Ok _ =>
          let* _ := attempt (update_status (c_id c) Connected) in
          let* _ := send (NRestored (c_id c) 1) in
          sql_ret (1, 0)%nat
      | Err _ =>
          let* deleted := attempt (on_db (conn_delete (c_id c))) in
          if is_ok deleted then let* _ := send (NClosed (c_id c)) in sql_ret (0, 1)%nat else sql_ret (0, 0)%nat
      end.

Fixpoint restore_connections_on_startup (es : nat -> E) (cs : list Connection) : Eff Svc (nat * nat) :=
  match cs with
  | [] => sql_ret (0, 0)%nat
  | c :: rest =>
      let* a := restore_one (es 0%nat) c in
      let* b := restore_connections_on_startup (fun n => es (S n)) rest in
      sql_ret ((fst a + fst b)%nat, (snd a + snd b)%nat)
  end.

End Service.

(** ** The lifecycle manager is an instance

    One call at a time: the moves of [Lifecycle] for a start that nothing else
    interleaves with.  The answers are those of the debugger; the number says
    at which of its waits an abandoned start is dropped. *)

Definition lone_moves (an : Answers) (q : StartRequest) (cut : list Move) : list Move :=
  MCall 0 (sq_connection_id q, sq_port q, sq_language q, sq_safe_mode q) :: cut ++ repeat (MRun 0 an) 7.
Definition last_result (m : Manager) : result unit Error :=
  match reverse (mg_returned m) with (_, r) :: _ => res_map (fun _ => tt) r | [] => Ok tt end.

Definition manager_start (max_retries : N) (e : Answers * nat) (q : StartRequest) (m : Manager) : Manager * result unit Error :=
  let m' := moves max_retries (lone_moves (fst e) q []) m in (m', last_result m').
Definition manager_abandon (max_retries : N) (e : Answers * nat) (q : StartRequest) (m : Manager) : Manager :=
  moves max_retries (lone_moves (fst e) q (repeat (MRun 0 (fst e)) (S (Nat.min (snd e) 2)) ++ [MCancel 0])) m.

#[export] Instance manager_lifecycle (max_retries : N) : AdapterLifecycle Manager (Answers * nat) := {|
  lc_has := Lifecycle.has_adapter; lc_stop := Lifecycle.stop_adapter;
  lc_start := manager_start max_retries; lc_abandon := manager_abandon max_retries
|}.

(** No other call is under way. *)
Definition quiet (m : Manager) : Prop := mg_pending m = ∅ /\ mg_calls m = ∅.

Section Manager.
Context (max : N) (q : StartRequest) (an : Answers).
Notation c := (mkCall (sq_connection_id q) (sq_port q) (sq_language q) (sq_safe_mode q) (Enter 0)).
Notation cid := (sq_connection_id q).

Lemma run_sync_any m i : exists r f, move max (MRun 0 an) (goto 0 c (Started i) m) = goto 0 c (Synced i r) (act i f m).
Proof.
  rewrite run_goto. cbn [run_call at_pc ca_pc]. destruct (sync_acts 0 (at_pc c (Started i)) i an (goto 0 c (Started i) m)) as [r ->].
  eexists r, _. apply goto_act.
Qed.

Lemma run_create_fails m err : create_adapter c an = Err err \/ create_adapter c an = Ok tt /\ (an_started an = Err err \/ an_started an = Ok tt /\ an_subscribed an = Err err) ->
  exists x, move max (MRun 0 an) (goto 0 c Creating m) = goto 0 c (Dropping (Err err)) (set_instances x m).
Proof.
  intros Hf. rewrite run_goto. cbn [run_call at_pc ca_pc]. unfold create.
  change (create_adapter (at_pc c Creating) an) with (create_adapter c an).
  destruct Hf as [->|[-> [->|[-> ->]]]]; eexists; unfold goto, set_call, set_instances; cbn; rewrite insert_insert_eq; [|done..].
  by instantiate (1 := mg_instances m).
Qed.

Lemma create_cases :
  create_adapter c an = Ok tt /\ an_started an = Ok tt /\ an_subscribed an = Ok tt \/
  exists err, create_adapter c an = Err err \/ create_adapter c an = Ok tt /\ (an_started an = Err err \/ an_started an = Ok tt /\ an_subscribed an = Err err).
Proof.
  destruct (create_adapter c an) as [[]|err]; [|by eauto]. destruct (an_started an) as [[]|err]; [|by eauto 6].
  destruct (an_subscribed an) as [[]|err]; [by left|by eauto 8].
Qed.

Lemma run_gone m : mg_calls m !! 0%nat = None -> move max (MRun 0 an) m = m.
Proof. intros Hk. cbn. by rewrite Hk. Qed.

(** The part of a start that ends with the factory. *)
Definition before_create (m : Manager) : Manager := Lifecycle.stop_adapter cid (set_pending (<[cid := sq_port q]> (mg_pending m)) m).

Lemma before_create_frame m : quiet m ->
  mg_pending (before_create m) = {[cid := sq_port q]} /\ mg_calls (before_create m) = ∅ /\ mg_adapters (before_create m) = delete cid (mg_adapters m).
Proof.
  intros [Hp Hc]. unfold before_create, Lifecycle.stop_adapter. cbn. destruct (mg_adapters m !! cid) eqn:Ea; cbn; rewrite Hp, Hc; [done|].
  by rewrite delete_id.
Qed.

Lemma start_prefix m : quiet m -> move max (MRun 0 an) (move max (MRun 0 an) (move max (MCall 0 (cid, sq_port q, sq_language q, sq_safe_mode q)) m)) = goto 0 c Creating (before_create m).
Proof.
  intros [Hp Hc]. assert (move max (MCall 0 (cid, sq_port q, sq_language q, sq_safe_mode q)) m = goto 0 c (Enter 0) m) as -> by (cbn; by rewrite Hc).
  rewrite run_enter by (cbn; by rewrite Hp). by rewrite run_check.
Qed.

Lemma end_pending m r : mg_pending m = {[cid := sq_port q]} -> mg_calls m = ∅ ->
  let m' := move max (MRun 0 an) (goto 0 c (Dropping r) m) in quiet m' /\ mg_adapters m' = mg_adapters m /\ last_result m' = res_map (fun _ => tt) r.
Proof.
  intros Hp Hc. cbn zeta. rewrite run_drop by (cbn; by rewrite ?Hp, ?Hc, ?lookup_singleton_eq). unfold quiet, last_result.
  cbn [mg_pending mg_calls mg_adapters mg_returned ca_conn]. rewrite Hp, Hc, reverse_snoc. split; [split; [apply delete_singleton_eq|done]|done].
Qed.

(** A start either registers its adapter or leaves none. *)
Lemma manager_start_cases n m : quiet m ->
  let '(m', r) := manager_start max (an, n) q m in
  quiet m' /\ mg_adapters m' = match r with Ok _ => <[cid := mkManaged (length (mg_instances (before_create m))) (sq_safe_mode q)]> (mg_adapters m) | Err _ => delete cid (mg_adapters m) end.
Proof.
  intros Hq. unfold manager_start, lone_moves. cbn [fst]. unfold moves. cbn [fold_left repeat app].
  rewrite start_prefix by done. destruct (before_create_frame m Hq) as (Hp & Hc & Ha). set (b := before_create m) in *.
  destruct create_cases as [(H1 & H2 & H3)|[err Herr]].
  - rewrite run_create by done. set (m1 := set_instances _ b). destruct (run_sync_any m1 (length (mg_instances b))) as (r & f & ->).
    rewrite run_check_cancelled by (cbn; by rewrite Hp, lookup_singleton_eq).
    rewrite run_insert by (cbn; by rewrite Ha, lookup_delete_eq).
    set (m2 := set_adapters _ _). destruct (end_pending m2 (Ok r)) as (E1 & E2 & ->); [done|done|]. split; [done|]. rewrite E2. cbn. rewrite Ha. apply insert_delete_eq.
  - destruct (run_create_fails b err Herr) as [x ->]. destruct (end_pending (set_instances x b) (Err err)) as ((E0 & E1) & E2 & E3); [done|done|].
    set (m' := move max (MRun 0 an) (goto 0 c (Dropping (Err err)) (set_instances x b))) in *.
    rewrite !(run_gone m') by (by rewrite E1). rewrite E3. split; [done|]. by rewrite E2.
Qed.

(** A start that is dropped while it waits leaves the others alone. *)
Lemma cancel_at pc m : cancellable pc = true -> owns pc = true -> mg_pending m = {[cid := sq_port q]} -> mg_calls m = ∅ ->
  let m' := move max (MCancel 0) (goto 0 c pc m) in quiet m' /\ mg_adapters m' = mg_adapters m.
Proof.
  intros H1 H2 Hp Hc. cbn. rewrite lookup_insert_eq. cbn. rewrite H1, H2. unfold drop_guard. cbn. rewrite Hp, lookup_singleton_eq, bool_decide_true by done.
  cbn. split; [split; cbn|done]; [apply delete_singleton_eq|rewrite Hc; apply delete_insert_id, lookup_empty].
Qed.

Lemma gone_runs n m : mg_calls m !! 0%nat = None -> fold_left (fun m mv => move max mv m) (repeat (MRun 0 an) n) m = m.
Proof. intros Hk. induction n as [|n IH]; [done|]. cbn [repeat fold_left]. by rewrite run_gone. Qed.

Lemma manager_abandon_cases n m : quiet m ->
  let m' := manager_abandon max (an, n) q m in
  quiet m' /\ forall other, other <> cid -> mg_adapters m' !! other = mg_adapters m !! other.
Proof.
  intros Hq. cbn zeta. unfold manager_abandon, lone_moves. cbn [fst snd]. unfold moves. cbn [fold_left]. rewrite fold_left_app.
  destruct (before_create_frame m Hq) as (Hp & Hc & Ha). pose proof Hq as [Hp0 Hc0].
  assert (forall x, quiet x -> fold_left (fun m mv => move max mv m) (repeat (MRun 0 an) 7) x = x) as Hend.
  { intros x [_ Hx]. apply gone_runs. by rewrite Hx. }
  assert (forall x other, other <> cid -> mg_adapters x = delete cid (mg_adapters m) -> mg_adapters x !! other = mg_adapters m !! other) as Hoth.
  { intros x other Hne ->. by rewrite lookup_delete_ne. }
  set (tl := repeat (MRun 0 an) 7) in *. destruct (Nat.min n 2) as [|[|k]] eqn:En; cbn [repeat app fold_left].
  - assert (move max (MRun 0 an) (move max (MCall 0 (cid, sq_port q, sq_language q, sq_safe_mode q)) m)
            = goto 0 c CheckExisting (set_pending (<[cid := sq_port q]> (mg_pending m)) m)) as ->.
    { assert (move max (MCall 0 (cid, sq_port q, sq_language q, sq_safe_mode q)) m = goto 0 c (Enter 0) m) as -> by (cbn; by rewrite Hc0).
      by rewrite run_enter by (cbn; by rewrite Hp0). }
    edestruct (cancel_at CheckExisting) as [E1 E2]; [done|done|..]; [| |rewrite (Hend _ E1); split; [exact E1|by rewrite E2]]; cbn; [by rewrite Hp0|done].
  - rewrite start_prefix by done. destruct (cancel_at Creating (before_create m)) as [E1 E2]; [done..|]. rewrite (Hend _ E1). split; [exact E1|].
    intros other Hne. apply Hoth; [done|]. by rewrite E2.
  - rewrite start_prefix by done. assert (k = 0%nat) as -> by lia. cbn [repeat app fold_left].
    destruct create_cases as [(H1 & H2 & H3)|[err Herr]].
    + rewrite run_create by done. set (m1 := set_instances _ _). destruct (cancel_at (Started (length (mg_instances (before_create m)))) m1) as [E1 E2]; [done..|].
      rewrite (Hend _ E1). split; [exact E1|]. intros other Hne. apply Hoth; [done|]. by rewrite E2.
    + destruct (run_create_fails (before_create m) err Herr) as [x ->].
      assert (move max (MCancel 0) (goto 0 c (Dropping (Err err)) (set_instances x (before_create m))) = goto 0 c (Dropping (Err err)) (set_instances x (before_create m))) as ->
        by (cbn; by rewrite lookup_insert_eq).
      change tl with (MRun 0 an :: repeat (MRun 0 an) 6). cbn [fold_left].
      destruct (end_pending (set_instances x (before_create m)) (Err err)) as ((E0 & E1) & E2 & _); [done|done|].
      rewrite gone_runs by (by rewrite E1). split; [done|]. intros other Hne. apply Hoth; [done|]. by rewrite E2.
Qed.
End Manager.

#[refine, export] Instance manager_laws (max_retries : N) : @AdapterLifecycleLaws Manager (Answers * nat) (manager_lifecycle max_retries) := {| lc_inv := quiet |}.
Proof.
  - intros m cid [Hp Hc]. cbn. unfold Lifecycle.stop_adapter, Lifecycle.has_adapter. destruct (mg_adapters m !! cid) as [ma|] eqn:Ea.
    + split; [done|]. cbn. rewrite lookup_delete_eq. split; [done|]. intros other Hne. by rewrite lookup_delete_ne.
    + split; [done|]. by rewrite Ea.
  - intros m [an n] q Hq. change (lc_start (an, n) q m) with (manager_start max_retries (an, n) q m). cbn [lc_has manager_lifecycle].
    pose proof (manager_start_cases max_retries q an n m Hq) as Hs. destruct (manager_start _ _ _ _) as [m' r].
    destruct Hs as [Hq' Ha]. split; [done|]. unfold Lifecycle.has_adapter. rewrite Ha.
    destruct r; cbn; rewrite ?lookup_insert_eq, ?lookup_delete_eq; (split; [done|]); intros other Hne; by rewrite ?lookup_insert_ne, ?lookup_delete_ne.
  - intros m [an n] q Hq. cbn. destruct (manager_abandon_cases max_retries q an n m Hq) as [Hq' Ha]. split; [done|].
    intros other Hne. unfold Lifecycle.has_adapter. by rewrite Ha.
Defined.
