(* ===== verification/ConnectionOutcomes.v ===== *)
(** * What the connection service guarantees

    References protect connections from other clients, creation and restart, and
    what failures of the database make of the operations of
    [ConnectionService].  The theorems hold for every lifecycle manager and every
    metric repository that keep their laws. *)

From Stdlib Require Import Strings.String Init.Byte.
From stdpp Require Import gmap.
From S2P Require Import Prelude CoreError RustStr Language Metric MetricRepo Sql Connection ConnectionRepo Lifecycle ConnectionService.

Local Open Scope string_scope.
Local Open Scope Z_scope.
Local Open Scope sql_scope.
Local Open Scope list_scope.

Section Outcomes.
Context `{Engine} {L E R : Type} `{LC : AdapterLifecycle L E} `{LL : !AdapterLifecycleLaws L E}.
Context `{MR : MetricRepository R} `{RL : !RepositoryLaws R} `{CM : !ConnectionMetrics R} `{CL : !ConnectionMetricsLaws R}.
Context (sha256 : list byte -> list byte).

Notation svc := (Svc (L := L) (R := R)).

(** ** Invariants of the parts *)

Section Frames.
Context (I : Db Store -> Prop) (M : R -> Prop) (J : L -> Prop).

Definition good (s : svc) : Prop := I (sv_db s) /\ M (sv_metrics s) /\ J (sv_lc s).

Lemma good_db {A : Type} (m : Sql Store A) : preserves I m -> preserves good (on_db m).
Proof. intros Hm s (H1 & H2 & H3). specialize (Hm _ H1). unfold on_db. destruct (m (sv_db s)). done. Qed.
Lemma good_metrics {A : Type} (m : R -> R * result A Error) : (forall r, M r -> M (fst (m r))) -> preserves good (on_metrics m).
Proof. intros Hm s (H1 & H2 & H3). specialize (Hm _ H2). unfold on_metrics. destruct (m (sv_metrics s)). done. Qed.
Lemma good_lc {A : Type} (m : L -> L * result A Error) : (forall l, J l -> J (fst (m l))) -> preserves good (on_lc m).
Proof. intros Hm s (H1 & H2 & H3). specialize (Hm _ H3). unfold on_lc. destruct (m (sv_lc s)). done. Qed.
Lemma good_vfs c : preserves good (vfs c).
Proof. by intros s. Qed.
Lemma good_send n : preserves good (send n).
Proof. by intros s. Qed.
Lemma good_spawn b : preserves good (spawn b).
Proof. by intros s. Qed.
Lemma good_now : preserves good now.
Proof. by intros s. Qed.
Lemma good_attempt {A : Type} (m : Eff svc A) : preserves good m -> preserves good (attempt m).
Proof. intros Hm s Hs. specialize (Hm s Hs). unfold attempt. by destruct (m s). Qed.

Lemma good_has cid : preserves good (has_adapter cid).
Proof. by apply good_lc. Qed.

Hint Resolve preserves_bind preserves_ret preserves_lift good_vfs good_send good_spawn good_now good_attempt good_has : core.

Lemma good_update_status cid st : (forall t, preserves I (conn_update_status t cid st)) -> preserves good (update_status cid st).
Proof. intros Hu. apply preserves_bind; [auto|]. intros t. by apply good_db. Qed.

Lemma good_disconnect cid : (forall t, preserves I (conn_update_status t cid Disconnected)) ->
  (forall l, J l -> J (lc_stop cid l)) -> preserves good (disconnect cid).
Proof.
  intros Hu Hl. apply preserves_bind; [by apply good_lc|]. intros _. apply preserves_bind; [auto|]. intros _.
  apply preserves_bind; [by apply good_update_status|]. auto.
Qed.

Lemma good_add_reference cid client kind : (forall r, preserves I (ref_add r)) -> preserves good (add_reference cid client kind).
Proof. intros Hr. apply preserves_bind; [auto|]. intros t. by apply good_db. Qed.

Lemma good_hold_reference cid user : (forall r, preserves I (ref_add r)) -> preserves good (hold_reference cid user).
Proof. intros Hr. destruct user; [|apply preserves_ret]. apply preserves_bind; [|auto]. by apply good_attempt, good_add_reference. Qed.

Lemma good_delete_connection cid :
  preserves I (ref_remove_all_by_connection cid) -> preserves I (conn_delete cid) ->
  (forall r, M r -> M (fst (repo_delete_by_connection_id cid r))) -> (forall l, J l -> J (lc_stop cid l)) -> preserves good (delete_connection cid).
Proof.
  intros H1 H2 H3 H4. apply preserves_bind; [by apply good_attempt, good_lc|]. intros _. apply preserves_bind; [auto|]. intros _.
  apply preserves_bind; [by apply good_attempt, good_db|]. intros _. apply preserves_bind; [by apply good_metrics|]. intros _.
  apply preserves_bind; [by apply good_db|]. auto.
Qed.
End Frames.

(** Reading by id tells what the row says, and changes nothing. *)
Lemma find_by_id_cases id db : store_ok (db_data db) ->
  let '(db', x) := conn_find_by_id id db in
  db_data db' = db_data db /\
  match x with
  | Ok None => st_conns (db_data db) !! id = None
  | Ok (Some c) => exists r, st_conns (db_data db) !! id = Some r /\ row_to_connection id r = Ok c
  | Err e => e = Database "database error"
  end.
Proof.
  intros Hs. unfold conn_find_by_id, fetch_optional_conn, sql_bind.
  pose proof (statement_cases (fun s => (s, select_conns (fun i _ => String.eqb i id) s)) db) as Hc. destruct (statement _ db) as [db' r].
  destruct Hc as [[Ed ->]|[Ed ->]]; [done|]. cbn in Ed |- *. rewrite select_by_id. unfold no_rows_but.
  destruct (st_conns (db_data db) !! id) as [row|] eqn:Er; [|done]. cbn.
  destruct (readable_ok id row) as (c & Hc & _); [by apply (so_rows _ Hs id)|]. rewrite Hc. cbn. split; [done|]. by exists row.
Qed.

(** Removing a reference says whether it was there and how many are left. *)
Lemma remove_and_count_cases cid client db :
  let '(db', x) := ref_remove_and_count cid client db in
  match x with
  | Ok (removed, remaining) =>
      db_data db' = set_refs (delete (cid, client_as_str client) (st_refs (db_data db))) (db_data db) /\
      removed = bool_decide (is_Some (st_refs (db_data db) !! (cid, client_as_str client))) /\ remaining = ref_count cid (db_data db')
  | Err _ => db_data db' = db_data db
  end.
Proof.
  unfold ref_remove_and_count. pose proof (transaction_cases (let* removed := statement (delete_refs (fun k _ => bool_decide (k = (cid, client_as_str client)))) in
    let* remaining := ref_count_references cid in sql_ret ((0 <? removed)%N, remaining)) db) as Ht.
  destruct (transaction _ db) as [db' [[removed remaining]|e]]; [|done]. destruct Ht as (fs & fs' & H1 & H2).
  destruct (sql_bind _ _ (mkDb (db_data db) fs)) as [db2 r2] eqn:Eb. cbn in H1, H2. subst r2 db2.
  apply sql_bind_ok in Eb as (db1 & n & Hn%statement_ok & Eb). apply sql_bind_ok in Eb as (db3 & k & Hk%statement_ok & [= -> <- ->]).
  injection Hn as Hd Hn. injection Hk as Hk Hcount. cbn in Hk, Hcount, Hd, Hn. rewrite Hk in *. subst remaining. rewrite <- Hd.
  assert (filter (fun x => bool_decide (fst x = (cid, client_as_str client)) = true) (st_refs (db_data db)) =
          match st_refs (db_data db) !! (cid, client_as_str client) with Some r => {[(cid, client_as_str client) := r]} | None => ∅ end) as Hf.
  { apply map_eq. intros k. apply option_eq. intros r. rewrite map_lookup_filter_Some. cbn. rewrite bool_decide_eq_true.
    destruct (st_refs (db_data db) !! (cid, client_as_str client)) eqn:Er.
    - rewrite lookup_singleton_Some. naive_solver.
    - rewrite lookup_empty. naive_solver. }
  unfold set_refs in Hd |- *. rewrite Hf in *. split; [|split].
  - cbn. f_equal. destruct (st_refs (db_data db) !! _) eqn:Er.
    + apply map_eq. intros k. destruct (decide (k = (cid, client_as_str client))) as [->|Hne].
      * rewrite lookup_delete_eq. apply lookup_difference_None. right. by rewrite lookup_singleton_eq.
      * rewrite lookup_delete_ne by done. rewrite lookup_difference. by rewrite lookup_singleton_ne.
    + rewrite map_difference_empty. by rewrite delete_id.
  - subst n. destruct (st_refs (db_data db) !! _); cbn; [by rewrite map_size_singleton|done].
  - done.
Qed.

Lemma count_each_cases ids db : match count_each ids db with
  | (db', Ok l) => db_data db' = db_data db /\ Forall (fun x => snd x = ref_count (fst x) (db_data db)) l
  | (db', Err _) => db_data db' = db_data db
  end.
Proof.
  revert db. induction ids as [|i ids IH]; intros db; [done|]. cbn [count_each]. unfold sql_bind.
  pose proof (statement_cases (fun s => (s, ref_count i s)) db) as Hc. fold (ref_count_references i) in Hc.
  destruct (ref_count_references i db) as [db1 x]. destruct Hc as [[E1 ->]|[E1 ->]]; [done|]. cbn in E1.
  specialize (IH db1). destruct (count_each ids db1) as [db2 [l|e]]; cbn.
  - destruct IH as [E2 Hl]. rewrite E1 in *. split; [done|]. by constructor.
  - by rewrite IH, E1.
Qed.

(** Removing all references of a client: what is left of each connection. *)
Lemma remove_all_cases client db :
  match ref_remove_all_by_client client db with
  | (db', Ok l) => (db_data db' = db_data db \/ db_data db' = fst (delete_refs (fun k _ => String.eqb (snd k) (client_as_str client)) (db_data db))) /\
      Forall (fun x => snd x = ref_count (fst x) (db_data db')) l
  | (db', Err _) => db_data db' = db_data db
  end.
Proof.
  unfold ref_remove_all_by_client. set (body := sql_bind _ _). pose proof (transaction_cases body db) as Ht.
  destruct (transaction body db) as [db' [l|e]]; [|done]. destruct Ht as (fs & fs' & H1 & H2).
  destruct (body (mkDb (db_data db) fs)) as [db2 r2] eqn:Eb. cbn in H1, H2. subst r2 db2.
  apply sql_bind_ok in Eb as (db1 & ids & Hn%statement_ok & Eb). injection Hn as Hd _. cbn in Hd.
  destruct ids as [|i ids]; [injection Eb as -> <-; split; [by left|constructor]|].
  apply sql_bind_ok in Eb as (db3 & n & Hk%statement_ok & Eb). rewrite <- Hd in Hk. pose proof (count_each_cases (i :: ids) db3) as Hc.
  rewrite Eb in Hc. destruct Hc as [Hd3 Hl]. cbn in Hd3. rewrite Hd3. split; [|done]. right. by rewrite Hk.
Qed.

Lemma ref_add_cases r db : match ref_add r db with
  | (db', Ok _) => is_Some (st_conns (db_data db) !! cr_connection_id r) /\
      exists row, db_data db' = set_refs (<[(cr_connection_id r, client_as_str (cr_client r)) := row]> (st_refs (db_data db))) (db_data db)
  | (db', Err e) => db_data db' = db_data db /\ (e = Database "database error" \/ st_conns (db_data db) !! cr_connection_id r = None)
  end.
Proof.
  unfold ref_add. match goal with |- context [try_statement ?f db] => pose proof (try_statement_cases f db) as Hc; destruct (try_statement f db) as [db' [a|e]] end.
  - cbn in Hc. destruct (st_conns (db_data db) !! _) as [row|]; [|done]. injection Hc as <- _. split; [done|]. by eexists.
  - destruct Hc as [-> [->|Hc]]; [by auto|]. cbn in Hc. split; [done|]. right. by destruct (st_conns (db_data db) !! _).
Qed.

(** ** A reference protects a connection *)

Section Held.
Context (cid : string) (b : ClientIdentity).

(** The client [b] holds a reference, and the connection is recorded as connected. *)
Definition held (s : Store) : Prop :=
  store_ok s /\ is_Some (st_refs s !! (cid, client_as_str b)) /\ exists r, st_conns s !! cid = Some r /\ r_status r = status_display Connected.
Definition running (l : L) : Prop := lc_inv l /\ lc_has cid l = true.
Definition protected : svc -> Prop := good (fun db => held (db_data db)) (fun _ => True) running.

Notation keeps_held m := (preserves (fun db => held (db_data db)) m).

Lemma held_count s : held s -> ref_count cid s <> 0%N.
Proof.
  intros (_ & [r Hr] & _). unfold ref_count, refs_of. intros Hz. assert (size (filter (fun x : string * string * RefRow => fst (fst x) = cid) (st_refs s)) = 0%nat) as Hs by lia.
  apply map_size_empty_iff in Hs. apply (f_equal (lookup (cid, client_as_str b))) in Hs. rewrite lookup_empty in Hs.
  rewrite (proj2 (map_lookup_filter_Some _ _ _ r)) in Hs; done.
Qed.

Lemma held_update id f : (forall r, row_readable r -> row_readable (f r)) -> (id = cid -> forall r, r_status r = status_display Connected -> r_status (f r) = status_display Connected) ->
  keeps_held (update_row id f).
Proof.
  intros Hf Hst. apply preserves_bind; [|intros []; auto with sql]. apply preserves_try_statement. intros s s' a (Hs & Hb & r & Hr & Er).
  destruct (st_conns s !! id) as [old|] eqn:Eo; [|intros [= <- <-]; split; [done|]; split; [done|]; by exists r]. intros Hw. res_inv Hw. destruct v as [s1 []]. injection Hw as <- <-.
  split; [eapply write_row_ok; [|done|done]; by apply Hf, (so_rows _ Hs id)|]. unfold write_row in E0. res_inv E0. injection E0 as <-. cbn.
  split; [done|]. destruct (decide (id = cid)) as [->|Hne].
  - rewrite lookup_insert_eq. eexists. split; [done|]. apply Hst; [done|]. congruence.
  - rewrite lookup_insert_ne by done. by exists r.
Qed.

Lemma held_update_status id t st : id <> cid -> keeps_held (conn_update_status t id st).
Proof. intros Hne. apply held_update; [|done]. intros r [H1 H2]. split; [by eexists|done]. Qed.
Lemma held_touch t id : keeps_held (conn_touch t id).
Proof. by apply held_update. Qed.

Lemma held_add r : keeps_held (ref_add r).
Proof.
  intros db (Hs & Hb & Hr). split; [by apply add_ok|]. pose proof (ref_add_cases r db) as Hc. destruct (ref_add r db) as [db' [[]|e]]; cbn; [|by destruct Hc as [-> _]].
  destruct Hc as (_ & row & ->). cbn. split; [|done].
  destruct (decide ((cr_connection_id r, client_as_str (cr_client r)) = (cid, client_as_str b))) as [->|Hne]; [by rewrite lookup_insert_eq|by rewrite lookup_insert_ne].
Qed.

Lemma held_delete_refs p s : held s -> (forall r, p (cid, client_as_str b) r = false) -> held (fst (delete_refs p s)).
Proof.
  intros (Hs & [r Hr] & Hc) Hp. split; [by apply delete_refs_ok|]. split; [|done]. exists r. cbn. apply lookup_difference_Some. split; [done|].
  apply map_lookup_filter_None. right. intros r' _. cbn. by rewrite Hp.
Qed.

Lemma held_delete id : id <> cid -> keeps_held (conn_delete id).
Proof.
  intros Hne. apply preserves_bind; [|intros n; destruct (n =? 0)%N; auto with sql]. apply preserves_statement.
  intros s (Hs & [r Hr] & row & Hrow & Est). assert (filter (fun x : string * ConnRow => String.eqb (fst x) id = true) (st_conns s) !! cid = None) as Hg.
  { apply map_lookup_filter_None. right. intros x _. cbn. by destruct (String.eqb_spec cid id). }
  split; [by apply delete_where_ok|]. cbn. split.
  - exists r. by apply map_lookup_filter_Some.
  - exists row. split; [|done]. by apply lookup_difference_Some.
Qed.

Lemma running_stop other l : other <> cid -> running l -> running (lc_stop other l).
Proof. intros Hne [Hi Hh]. destruct (stop_law l other Hi) as (H1 & _ & H3). split; [done|]. by rewrite H3. Qed.

Lemma protected_disconnect other : other <> cid -> preserves protected (disconnect other).
Proof. intros Hne. apply good_disconnect; [intros t; by apply held_update_status|]. intros l. by apply running_stop. Qed.

Lemma protected_release other a : client_as_str a <> client_as_str b -> preserves protected (release_reference other a).
Proof.
  intros Ha s (Hh & HM & Hr). unfold release_reference, sql_bind, on_db. pose proof (remove_and_count_cases other a (sv_db s)) as Hc.
  destruct (ref_remove_and_count other a (sv_db s)) as [db' [[removed remaining]|e]]; cbn; [|by rewrite <- Hc in Hh].
  destruct Hc as (Hd & _ & Hn). assert (held (db_data db')) as Hh'.
  { rewrite Hd. destruct Hh as (Hs & [r Er] & Hrow). split; [|split; [|exact Hrow]].
    - apply refs_ok; [done|]. intros k x [_ Hx]%lookup_delete_Some. by eapply so_refs.
    - exists r. cbn. by rewrite lookup_delete_ne by (intros [= _ Eab]; by apply Ha). }
  destruct (removed && (remaining =? 0)%N) eqn:Eb; [|done]. apply andb_true_iff in Eb as [_ Hz]. apply N.eqb_eq in Hz.
  assert (other <> cid) as Hne by (intros ->; apply (held_count _ Hh'); congruence). unfold attempt.
  set (s1 := mkSvc db' _ _ _ _ _ _ _). pose proof (protected_disconnect other Hne s1 (conj Hh' (conj HM Hr))) as Hp.
  by destruct (disconnect other s1) as [s' r].
Qed.

Lemma protected_unreferenced l n : Forall (fun x => snd x = 0%N -> fst x <> cid) l -> preserves protected (disconnect_unreferenced l n).
Proof.
  revert n. induction l as [|[other k] l IH]; intros n Hl; [apply preserves_ret|]. inversion Hl as [|? ? Hk Hl']; subst. cbn.
  destruct (N.eqb_spec k 0) as [->|Hne]; [|by apply IH]. apply preserves_bind; [|intros r; by apply IH].
  apply good_attempt, protected_disconnect. by apply Hk.
Qed.

Lemma protected_release_all a : client_as_str a <> client_as_str b -> preserves protected (release_all_client_references a).
Proof.
  intros Ha s (Hh & HM & Hr). unfold release_all_client_references, sql_bind, on_db. pose proof (remove_all_cases a (sv_db s)) as Hc.
  destruct (ref_remove_all_by_client a (sv_db s)) as [db' [l|e]]; cbn; [|by rewrite <- Hc in Hh].
  destruct Hc as [Hd Hl]. assert (held (db_data db')) as Hh'.
  { destruct Hd as [->| ->]; [done|]. apply held_delete_refs; [done|]. intros r. cbn. destruct (String.eqb_spec (client_as_str b) (client_as_str a)); [|done]. by destruct Ha. }
  assert (Forall (fun x => snd x = 0%N -> fst x <> cid) l) as Hl'.
  { eapply List.Forall_impl; [|exact Hl]. intros [other k] Hk Hz Heq. cbn in *. subst other. apply (held_count _ Hh'). congruence. }
  set (s1 := mkSvc db' _ _ _ _ _ _ _). pose proof (protected_unreferenced l 0%N Hl' s1 (conj Hh' (conj HM Hr))) as Hp.
  by destruct (disconnect_unreferenced l 0 s1) as [s' [r|e]].
Qed.

Lemma protected_attach other a : preserves protected (attach_to_connection other a).
Proof.
  intros s Hp. unfold attach_to_connection, sql_bind, on_db. destruct Hp as (Hh & HM & Hr). pose proof (find_by_id_cases other (sv_db s) (proj1 Hh)) as Hc.
  destruct (conn_find_by_id other (sv_db s)) as [db' x]. destruct Hc as [Hd _]. set (s1 := mkSvc db' _ _ _ _ _ _ _).
  assert (protected s1) as Hp1 by (split; [cbn; by rewrite Hd|done]). destruct x as [[c|]|e]; [|done|done].
  by apply (good_add_reference _ _ _ other a KClient held_add s1).
Qed.

Lemma protected_set_url other url : preserves protected (set_control_plane_url other url).
Proof.
  intros s (Hh & HM & Hr). unfold set_control_plane_url, sql_bind, on_db. pose proof (find_by_id_cases other (sv_db s) (proj1 Hh)) as Hc.
  destruct (conn_find_by_id other (sv_db s)) as [db' x]. destruct Hc as [Hd Hx]. set (s1 := mkSvc db' _ _ _ _ _ _ _).
  assert (protected s1) as Hp1 by (split; [cbn; by rewrite Hd|done]). destruct x as [[c|]|e]; [|done|done]. destruct Hx as (r & Hrow & Hc).
  destruct (c_control_plane_url c); [done|]. cbn [sv_db s1]. change (protected (fst (on_db (conn_update (with_url url c)) s1))).
  apply good_db; [|done]. apply held_update; [intros; apply (connection_row_readable (with_url url c))|].
  intros Ec r' _. cbn. pose proof (conn_row_fields _ _ _ Hc) as [Ei _]. cbn in Ec. rewrite Ei in Ec. subst other.
  destruct Hh as (_ & _ & row & Hrow' & Est). rewrite Hrow in Hrow'. injection Hrow' as <-. unfold row_to_connection in Hc. rewrite Est, row_status_display in Hc.
  cbn [read_status res_bind] in Hc. res_inv Hc. by injection Hc as <-.
Qed.

(** What clients and operators ask of the service. *)
Inductive ClientOp : Type :=
| ClRelease (other : string) (a : ClientIdentity) | ClReleaseAll (a : ClientIdentity) | ClAttach (other : string) (a : ClientIdentity)
| ClAddDaemon (other : string) | ClTouch (other : string) | ClSetUrl (other url : string)
| ClDisconnect (other : string) | ClDelete (other : string).

Definition client_op (o : ClientOp) (s : svc) : svc :=
  match o with
  | ClRelease other a => fst (release_reference other a s)
  | ClReleaseAll a => fst (disconnect_all_connections a s)
  | ClAttach other a => fst (attach_to_connection other a s)
  | ClAddDaemon other => fst (add_daemon_reference other s)
  | ClTouch other => fst (touch_connection other s)
  | ClSetUrl other url => fst (set_control_plane_url other url s)
  | ClDisconnect other => fst (disconnect other s)
  | ClDelete other => fst (delete_connection other s)
  end.

(** The operations the theorem below speaks of: those of [ClientOp], less the
    releases by [b] itself and the explicit end of this connection, which no
    reference prevents. *)
Definition by_others (o : ClientOp) : Prop :=
  match o with
  | ClRelease _ a | ClReleaseAll a => client_as_str a <> client_as_str b
  | ClDisconnect other | ClDelete other => other <> cid
  | _ => True
  end.

(** C8: a reference protects a connection from what other clients give up.  While
    a client holds a reference on a running connection, any sequence of these
    operations, with any database statement failing, leaves its adapter running,
    its status connected and the reference in place: other clients' releases of
    one reference or of all of theirs (each of which disconnects what is then
    unreferenced), anybody's attaching to a connection, the daemon's own
    references, touches, control plane URLs, and the disconnection or deletion of
    a different connection.  Nothing else is covered: the explicit disconnection
    or deletion of this connection (the HTTP, gRPC and MCP endpoints that ask for
    it do not look at references), the creation of a connection, the holder's own
    releases, and the administrative and clean-up operations. *)
Theorem references_protect l s : Forall by_others l -> protected s -> protected (fold_left (fun s o => client_op o s) l s).
Proof.
  intros Hl. revert s. induction Hl as [|o l Ho Hl IH]; intros s Hs; [done|]. cbn. apply IH.
  destruct o as [other a|a|other a|other|other|other url|other|other]; cbn in Ho |- *.
  - by apply protected_release.
  - by apply protected_release_all.
  - by apply protected_attach.
  - apply good_add_reference; [apply held_add|done].
  - assert (preserves protected (touch_connection other)) as Ht; [|by apply Ht]. apply preserves_bind; [apply good_now|]. intros t. apply good_db, held_touch.
  - by apply protected_set_url.
  - by apply protected_disconnect.
  - apply good_delete_connection; [| |done| |done].
    + apply preserves_statement. intros s0 Hs0. apply held_delete_refs; [done|]. intros r. cbn. by destruct (String.eqb_spec cid other).
    + by apply held_delete.
    + intros l0. by apply running_stop.
Qed.
End Held.

(** ** Creating *)

Lemma identity_kept id r f s : store_ok s -> st_conns s !! id = Some r ->
  r_name (f r) = r_name r -> r_language (f r) = r_language r -> r_workspace_root (f r) = r_workspace_root r -> r_hostname (f r) = r_hostname r ->
  identity_taken id (f r) s = false.
Proof.
  intros Hs Hr E1 E2 E3 E4. destruct (identity_taken id (f r) s) eqn:Ei; [|done]. unfold identity_taken in Ei. apply existsb_exists in Ei as ([j a] & Hin & Ha).
  apply list_elem_of_In, elem_of_map_to_list in Hin. cbn in Ha. apply andb_true_iff in Ha as [Hne Hsame].
  assert (same_identity a (f r) = same_identity a r) as Eq by (unfold same_identity; by rewrite E1, E2, E3, E4).
  rewrite Eq in Hsame. rewrite (so_unique _ Hs j id a r Hin Hr Hsame), String.eqb_refl in Hne. done.
Qed.

(** Without failures, the status of a stored connection is set. *)
Lemma update_status_calm t id st s r : store_ok s -> st_conns s !! id = Some r ->
  conn_update_status t id st (mkDb s []) = (mkDb (set_conns (<[id := status_row st t r]> (st_conns s)) s) [], Ok tt).
Proof.
  intros Hs Hr. unfold conn_update_status, update_row, sql_bind. rewrite try_statement_calm, Hr. unfold write_row.
  change (check_row (status_row st t r)) with (check_row r). rewrite (proj1 (so_rows _ Hs _ _ Hr)). cbn [negb].
  rewrite (identity_kept id r (status_row st t) s Hs Hr) by done. done.
Qed.

Lemma ref_add_calm r s : is_Some (st_conns s !! cr_connection_id r) ->
  exists row, ref_add r (mkDb s []) = (mkDb (set_refs (<[(cr_connection_id r, client_as_str (cr_client r)) := row]> (st_refs s)) s) [], Ok tt).
Proof. intros [c Hc]. unfold ref_add. rewrite try_statement_calm, Hc. by eexists. Qed.

(** The connection [id] is stored with the status [st], and nothing fails. *)
Definition stored_as (id : string) (st : ConnectionStatus) (db : Db Store) : Prop :=
  calm db /\ store_ok (db_data db) /\ exists r, st_conns (db_data db) !! id = Some r /\ r_status r = status_display st.

Lemma stored_as_delete id st other : other <> id -> preserves (stored_as id st) (conn_delete other).
Proof.
  intros Hne. apply (preserves_and calm); [apply preserves_bind; [apply calm_statement|intros n; destruct (n =? 0)%N; auto with sql]|].
  apply preserves_bind; [|intros n; destruct (n =? 0)%N; auto with sql].
  apply (preserves_statement (fun d => store_ok d /\ exists r, st_conns d !! id = Some r /\ r_status r = status_display st)).
  intros d (Hs & r & Hr & Est). split; [by apply delete_where_ok|]. exists r. cbn. split; [|done]. apply lookup_difference_Some. split; [done|].
  apply map_lookup_filter_None. right. intros x _. cbn. by destruct (String.eqb_spec id other).
Qed.

Lemma stored_as_refs id st other : preserves (stored_as id st) (ref_remove_all_by_connection other).
Proof.
  apply (preserves_and calm); [apply calm_statement|].
  apply (preserves_statement (fun d => store_ok d /\ exists r, st_conns d !! id = Some r /\ r_status r = status_display st)).
  intros d [Hs Hr]. split; [by apply delete_refs_ok|done].
Qed.

Notation at_rest id st := (good (stored_as id st) (fun r => repo_inv r) lc_inv).

Lemma delete_by_connection_inv cid (r : R) : repo_inv r -> repo_inv (fst (repo_delete_by_connection_id cid r)).
Proof. intros Hr. pose proof (delete_by_connection_law r cid Hr) as Hd. destruct (repo_delete_by_connection_id cid r) as [r' x]. apply Hd. Qed.
Lemma migrate_inv from to (r : R) : repo_inv r -> repo_inv (fst (repo_migrate_connection_id from to r)).
Proof. intros Hr. pose proof (migrate_law r from to Hr) as Hd. destruct (repo_migrate_connection_id from to r) as [r' x]. apply Hd. Qed.

Lemma absorb_each_rest id st ids : id ∉ ids -> preserves (at_rest id st) (absorb_each ids id).
Proof.
  induction ids as [|other ids IH]; intros Hn; [apply preserves_ret|]. cbn. apply not_elem_of_cons in Hn as [Hne Hn].
  apply preserves_bind; [apply good_attempt, good_metrics; intros r; apply migrate_inv|]. intros _. apply preserves_bind; [|intros _; by apply IH].
  apply good_attempt, good_delete_connection; [apply stored_as_refs|by apply stored_as_delete|intros r; apply delete_by_connection_inv|].
  intros l Hl. by destruct (stop_law l other Hl).
Qed.

Lemma absorb_each_ok ids id s : snd (absorb_each ids id s : svc * result unit Error) = Ok tt.
Proof.
  revert s. induction ids as [|other ids IH]; intros s; [done|]. cbn. unfold sql_bind, attempt. destruct (on_metrics _ s) as [s1 x1].
  destruct (delete_connection other s1) as [s2 x2]. apply IH.
Qed.

Lemma find_stale_calm name lang ws id d :
  exists ids, conn_find_stale_same_project name lang ws id (mkDb d []) = (mkDb d [], Ok ids) /\ id ∉ ids.
Proof.
  unfold conn_find_stale_same_project. rewrite statement_calm. eexists. split; [done|]. cbn. intros ([i r] & Ei & Hin)%list_elem_of_fmap.
  cbn in Ei. subst i. apply select_conns_spec in Hin as [_ Hp]. cbn in Hp. rewrite String.eqb_refl in Hp. by rewrite andb_false_r in Hp.
Qed.

Lemma absorb_stale_rest c st s : at_rest (c_id c) st s ->
  at_rest (c_id c) st (fst (absorb_stale c s)) /\ snd (absorb_stale c s) = Ok tt.
Proof.
  intros Hs. unfold absorb_stale, sql_bind, attempt. destruct s as [[d fs] ms lc v n bg clock ticks]. pose proof (proj1 (proj1 Hs)) as Hc.
  change (fs = []) in Hc. subst fs.
  destruct (find_stale_calm (default EmptyString (c_name c)) (lang_as_str (c_language c)) (c_workspace_root c) (c_id c) d) as (ids & Ef & Hids).
  unfold on_db. cbn [sv_db]. rewrite Ef. cbn [sv_metrics sv_lc sv_vfs sv_sent sv_background sv_clock sv_ticks].
  set (s1 := mkSvc (mkDb d []) ms lc v n bg clock ticks) in *. split; [by apply absorb_each_rest|apply absorb_each_ok].
Qed.

Lemma update_status_rest id st st' s : at_rest id st s ->
  let '(s', x) := update_status id st' s in x = Ok tt /\ at_rest id st' s' /\ sv_lc s' = sv_lc s.
Proof.
  intros ((Hc & Hs & r & Hr & _) & HM & HJ). destruct s as [[d fs] ms lc v n bg clock ticks]. change (fs = []) in Hc. subst fs. cbn in Hs, Hr, HM, HJ.
  unfold update_status, sql_bind, now, on_db. cbn [sv_db sv_clock sv_ticks].
  pose proof (conn_update_status_ok (clock ticks) id st' (mkDb d []) Hs) as Hk. rewrite (update_status_calm _ _ st' d r Hs Hr) in Hk |- *. cbn in Hk |- *.
  split; [done|]. split; [|done]. split; [|by split]. split; [done|]. split; [exact Hk|]. eexists. split; [cbn; apply lookup_insert_eq|done].
Qed.

(** The end of a successful start. *)
Lemma finalize_rest q user st s : at_rest (sq_connection_id q) st s ->
  let '(s', x) := finalize_connection_start q user s in
  x = Ok tt /\ at_rest (sq_connection_id q) Connected s' /\ sv_lc s' = sv_lc s /\
  (forall u, user = Some u -> is_Some (st_refs (db_data (sv_db s')) !! (sq_connection_id q, u))).
Proof.
  intros ((Hc & Hs & r & Hr & _) & HM & HJ). destruct s as [[d fs] ms lc v n bg clock ticks]. change (fs = []) in Hc. subst fs. cbn in Hs, Hr, HM, HJ.
  unfold finalize_connection_start, update_status, sql_bind, now, on_db, send. cbn [sv_db sv_clock sv_ticks].
  rewrite (update_status_calm _ _ Connected d r Hs Hr). cbn [sv_db sv_clock sv_ticks sv_metrics sv_lc sv_vfs sv_sent sv_background].
  set (row := status_row _ _ r). set (d1 := set_conns _ d).
  assert (store_ok d1) as Hd1.
  { pose proof (conn_update_status_ok (clock ticks) (sq_connection_id q) Connected (mkDb d []) Hs) as Hk. by rewrite (update_status_calm _ _ Connected d r Hs Hr) in Hk. }
  assert (st_conns d1 !! sq_connection_id q = Some row) as Hrow by apply lookup_insert_eq.
  destruct user as [u|]; cbn [hold_reference].
  - unfold sql_bind, attempt, add_reference, now, on_db, sql_bind. cbn [sv_db sv_clock sv_ticks sv_metrics sv_lc sv_vfs sv_sent sv_background].
    destruct (ref_add_calm (reference_new (clock (S ticks)) (sq_connection_id q) (Bridge u) KClient) d1) as (rr & ->); [by eexists|].
    cbn. split; [done|]. split; [|split; [done|]].
    + split; [|by split]. split; [done|]. cbn. split; [|by exists row].
      apply refs_ok; [done|]. intros k x [[<- _]|[_ Hx]]%lookup_insert_Some; [by eexists|]. by eapply so_refs.
    + intros u' [= <-]. by rewrite lookup_insert_eq.
  - cbn. split; [done|]. split; [|by split]. split; [|by split]. split; [done|]. split; [done|]. by exists row.
Qed.

(** Tables, metrics and adapters as they were. *)
Definition untouched (s s' : svc) : Prop :=
  db_data (sv_db s') = db_data (sv_db s) /\ sv_metrics s' = sv_metrics s /\ sv_lc s' = sv_lc s.

Definition at_peace (s : svc) : Prop := calm (sv_db s) /\ store_ok (db_data (sv_db s)) /\ repo_inv (sv_metrics s) /\ lc_inv (sv_lc s).

(** The connection is stored as connected, its adapter runs and the caller holds
    a reference. *)
Definition live_for (id : string) (user : option string) (s : svc) : Prop :=
  (exists r, st_conns (db_data (sv_db s)) !! id = Some r /\ r_status r = status_display Connected) /\ lc_has id (sv_lc s) = true /\
  (forall u, user = Some u -> is_Some (st_refs (db_data (sv_db s)) !! (id, u))).

(** The start that was spawned in position [k], when it ends before anything
    else happens: the connection is live, or stored with the text of the error. *)
Definition will_settle (id : string) (user : option string) (k : nat) (s : svc) : Prop :=
  forall error_text timed_out e, let s' := fst (finish_background error_text timed_out e k s) in
  live_for id user s' \/
  (exists r err, st_conns (db_data (sv_db s')) !! id = Some r /\ r_status r = status_display (Failed (error_text err))) /\
  (timed_out = false -> lc_has id (sv_lc s') = false).

Lemma background_settles q user st k s : at_rest (sq_connection_id q) st s -> sv_background s !! k = Some (mkBg q user) ->
  will_settle (sq_connection_id q) user k s.
Proof.
  intros (Hdb & HM & HJ) Hk error_text timed_out e. unfold finish_background. rewrite Hk. unfold run_background. cbn [bg_request bg_user].
  set (s0 := mkSvc _ _ _ _ _ (delete k _) _ _).
  assert (forall lc' err, lc_inv lc' -> (timed_out = false -> lc_has (sq_connection_id q) lc' = false) ->
            let s1 := mkSvc (sv_db s0) (sv_metrics s0) lc' (sv_vfs s0) (sv_sent s0) (sv_background s0) (sv_clock s0) (sv_ticks s0) in
            let s2 := fst (update_status (sq_connection_id q) (Failed (error_text err)) s1) in
            (exists r err, st_conns (db_data (sv_db s2)) !! sq_connection_id q = Some r /\ r_status r = status_display (Failed (error_text err))) /\
            (timed_out = false -> lc_has (sq_connection_id q) (sv_lc s2) = false)) as Hfail.
  { intros lc' err Hi Hh s1. pose proof (update_status_rest (sq_connection_id q) st (Failed (error_text err)) s1) as Hu.
    destruct (update_status (sq_connection_id q) (Failed (error_text err)) s1) as [s2 x2].
    destruct Hu as (-> & ((_ & _ & r & Hr & Er) & _) & El); [by split|]. cbn. split; [by exists r, err|]. by rewrite El. }
  destruct timed_out; cbn [sql_bind on_lc].
  - right. destruct (abandon_law (sv_lc s) e q HJ) as [Hi _]. unfold sql_bind, on_lc, attempt. cbn [sv_lc s0].
    specialize (Hfail (lc_abandon e q (sv_lc s)) timeout_error Hi ltac:(done)). cbn [sv_lc s0] in Hfail.
    destruct (update_status _ _ _) as [s2 x2]. exact Hfail.
  - unfold sql_bind, attempt, start_adapter, on_lc. cbn [sv_lc s0]. pose proof (start_law (sv_lc s) e q HJ) as Hl.
    destruct (lc_start e q (sv_lc s)) as [lc' [[]|err]]; cbn in Hl; destruct Hl as (Hi & Hh & _).
    + left. set (s3 := mkSvc _ _ lc' _ _ _ _ _). pose proof (finalize_rest q user st s3) as Hf.
      destruct (finalize_connection_start q user s3) as [s4 x4]. destruct Hf as (-> & ((_ & _ & r & Hr & Er) & _) & El & Hrefs); [by split|].
      cbn. split; [by exists r|]. split; [by rewrite El|exact Hrefs].
    + right. specialize (Hfail lc' err Hi ltac:(done)). cbn [sv_lc s0] in Hfail. destruct (update_status _ _ _) as [s2 x2]. exact Hfail.
Qed.

(** Spawned, stored as connecting, and about to settle. *)
Definition under_way (id : string) (user : option string) (s : svc) : Prop :=
  (exists r, st_conns (db_data (sv_db s)) !! id = Some r /\ r_status r = status_display Connecting) /\
  exists k b, sv_background s !! k = Some b /\ bg_user b = user /\ sq_connection_id (bg_request b) = id /\ will_settle id user k s.

Lemma start_connection_outcome e q c s : at_peace s -> c_status c = Disconnected ->
  match start_connection e q c s with
  | (s', Ok id) => id = c_id c /\ match q_pid q with None => live_for (c_id c) (q_user_id q) s' | Some _ => under_way (c_id c) (q_user_id q) s' end
  | (s', Err _) => untouched s s' \/ at_rest (c_id c) Disconnected s' /\ lc_has (c_id c) (sv_lc s') = false
  end.
Proof.
  intros (Hc & Hs & HM & HJ) Hst. destruct s as [[d fs] ms lc v n bg clock ticks]. change (fs = []) in Hc. subst fs. cbn in Hs, HM, HJ.
  unfold start_connection, sql_bind. pose proof (conn_save_ok c (mkDb d []) Hs) as Hok. unfold on_db at 1. cbn [sv_db].
  unfold conn_save, sql_bind in *. rewrite try_statement_calm in *. destruct (upsert c d) as [[d1 []]|err] eqn:Eu; [|by left].
  cbn [sql_ret sv_metrics sv_lc sv_vfs sv_sent sv_background sv_clock sv_ticks fst db_data] in *.
  set (s1 := mkSvc (mkDb d1 []) ms lc v n bg clock ticks) in *.
  assert (at_rest (c_id c) Disconnected s1) as H1.
  { split; [|by split]. split; [done|]. split; [exact Hok|]. cbn. unfold upsert, write_row in Eu. res_inv Eu. injection Eu as <-. cbn. rewrite lookup_insert_eq.
    eexists. split; [done|]. destruct (st_conns d !! c_id c); cbn; by rewrite Hst. }
  destruct (absorb_stale_rest c Disconnected s1 H1) as [H2 E2]. destruct (absorb_stale c s1) as [s2 x2]. cbn in E2, H2. subst x2.
  destruct (q_pid q) as [pid|].
  - pose proof (update_status_rest (c_id c) Disconnected Connecting s2 H2) as Hu. destruct (update_status (c_id c) Connecting s2) as [s3 x3].
    destruct Hu as (-> & H3 & _). cbn. split; [done|]. split; [by destruct H3 as [(_ & _ & H3) _]|].
    exists (length (sv_background s3)), (mkBg (start_request q c) (q_user_id q)). cbn.
    assert ((sv_background s3 ++ [mkBg (start_request q c) (q_user_id q)])%list !! length (sv_background s3) = Some (mkBg (start_request q c) (q_user_id q))) as Hb
      by by apply list_lookup_middle.
    split; [exact Hb|]. split; [done|]. split; [done|]. by apply (background_settles (start_request q c) (q_user_id q) Connecting).
  - unfold start_adapter, on_lc. pose proof H2 as (Hdb2 & HM2 & HJ2). pose proof (start_law (sv_lc s2) e (start_request q c) HJ2) as Hl.
    destruct (lc_start e (start_request q c) (sv_lc s2)) as [lc' [[]|err]]; cbn in Hl; destruct Hl as (Hi & Hh & _).
    + set (s3 := mkSvc _ _ lc' _ _ _ _ _). pose proof (finalize_rest (start_request q c) (q_user_id q) Disconnected s3) as Hf.
      destruct (finalize_connection_start (start_request q c) (q_user_id q) s3) as [s4 x4]. destruct Hf as (-> & H4 & El & Hrefs); [by split|].
      split; [done|]. split; [by destruct H4 as [(_ & _ & H4) _]|]. split; [by rewrite El|]. exact Hrefs.
    + right. by split.
Qed.


(** ** The last release *)

Lemma remove_calm cid client d :
  ref_remove_and_count cid client (mkDb d []) =
  (mkDb (fst (delete_refs (fun k _ => bool_decide (k = (cid, client_as_str client))) d)) [],
   Ok ((0 <? snd (delete_refs (fun k _ => bool_decide (k = (cid, client_as_str client))) d))%N,
       ref_count cid (fst (delete_refs (fun k _ => bool_decide (k = (cid, client_as_str client))) d)))).
Proof. unfold ref_remove_and_count. apply transaction_calm. unfold sql_bind, ref_count_references. by rewrite !statement_calm. Qed.

(** The release of the last reference, without failures, ends the connection: its
    adapter is stopped and it is recorded as disconnected; it stays in the table,
    and its metrics stay. *)
Theorem last_release_disconnects cid a (s : svc) r :
  at_peace s -> st_conns (db_data (sv_db s)) !! cid = Some r ->
  (forall client, is_Some (st_refs (db_data (sv_db s)) !! (cid, client)) <-> client = client_as_str a) ->
  let '(s', x) := release_reference cid a s in
  x = Ok (true, true) /\ lc_has cid (sv_lc s') = false /\ sv_metrics s' = sv_metrics s /\ sv_sent s' = sv_sent s ++ [NClosed cid] /\
  exists r', st_conns (db_data (sv_db s')) !! cid = Some r' /\ r_status r' = status_display Disconnected.
Proof.
  intros (Hc & Hs & HM & HJ) Hr Hrefs. destruct s as [[d fs] ms lc v n bg clock ticks]. change (fs = []) in Hc. subst fs. cbn in Hs, Hr, Hrefs, HM, HJ.
  unfold release_reference, sql_bind at 1, on_db at 1. cbn [sv_db]. pose proof (remove_and_count_cases cid a (mkDb d [])) as Hcase.
  rewrite remove_calm in *. set (d1 := fst (delete_refs _ d)) in *. destruct Hcase as (Hd & Hrem & _). cbn [db_data] in Hd, Hrem. rewrite Hrem.
  rewrite bool_decide_true by (by apply Hrefs). cbn [sv_db sv_metrics sv_lc sv_vfs sv_sent sv_background sv_clock sv_ticks].
  assert (ref_count cid d1 = 0%N) as ->.
  { unfold ref_count, refs_of. rewrite Hd. cbn. apply N2Nat.inj. rewrite Nat2N.id. apply map_size_empty_iff, map_empty. intros [c k]. apply map_lookup_filter_None.
    destruct (decide ((c, k) = (cid, client_as_str a))) as [->|Hne]; [left; apply lookup_delete_eq|]. right. cbn. intros x Hx ->.
    rewrite lookup_delete_ne in Hx by done. apply Hne. f_equal. apply Hrefs. by eexists. }
  cbn [andb N.eqb]. assert (store_ok d1) as Hs1 by by apply delete_refs_ok. assert (st_conns d1 !! cid = Some r) as Hr1 by (rewrite Hd; done).
  destruct (stop_law lc cid HJ) as (_ & Hstop & _).
  unfold sql_bind at 1, attempt, disconnect, stop_adapter, on_lc, vfs, update_status, now, on_db, send, sql_bind.
  cbn [sv_db sv_metrics sv_lc sv_vfs sv_sent sv_background sv_clock sv_ticks]. rewrite (update_status_calm _ _ Disconnected d1 r Hs1 Hr1).
  cbn. split; [done|]. split; [done|]. split; [done|]. split; [done|]. rewrite lookup_insert_eq. by eexists.
Qed.

(** ** The control-plane address *)

(** [set_control_plane_url] writes through [update], whose statement leaves the
    column out: the address of no connection ever changes. *)
Theorem control_plane_url_not_stored cid url (s : svc) i r :
  store_ok (db_data (sv_db s)) -> st_conns (db_data (sv_db s)) !! i = Some r ->
  exists r', st_conns (db_data (sv_db (fst (set_control_plane_url cid url s)))) !! i = Some r' /\ r_control_plane_url r' = r_control_plane_url r.
Proof.
  intros Hs Hr. unfold set_control_plane_url, sql_bind, on_db. pose proof (find_by_id_cases cid (sv_db s) Hs) as Hc.
  destruct (conn_find_by_id cid (sv_db s)) as [db' x]. destruct Hc as [Hd _]. rewrite <- Hd in Hr.
  destruct x as [[c|]|e]; cbn [fst sv_db]; [|by eauto|by eauto]. destruct (c_control_plane_url c); cbn [fst sv_db sql_ret]; [by eauto|].
  assert (preserves (fun db => exists r', st_conns (db_data db) !! i = Some r' /\ r_control_plane_url r' = r_control_plane_url r) (conn_update (with_url url c))) as Hp.
  { apply preserves_bind; [|intros []; auto with sql].
    apply (preserves_try_statement (fun d => exists r', st_conns d !! i = Some r' /\ r_control_plane_url r' = r_control_plane_url r)).
    intros d d' a (r' & Hr' & Eu). destruct (st_conns d !! c_id (with_url url c)) as [old|] eqn:Eo; [|by intros [= <- <-]; eauto].
    intros Hw. res_inv Hw. destruct v as [d1 []]. injection Hw as <- <-. unfold write_row in E0. res_inv E0. injection E0 as <-. cbn.
    cbn in Eo. destruct (decide (c_id c = i)) as [<-|Hne].
    - rewrite lookup_insert_eq. eexists. split; [done|]. cbn. congruence.
    - rewrite lookup_insert_ne by done. eauto. }
  specialize (Hp db' (ex_intro _ r (conj Hr eq_refl))). by destruct (conn_update (with_url url c) db').
Qed.
End Outcomes.

(** ** A restart under a new host name

    The metrics are those of the SQLite table, whose failures can be excluded. *)

Section Restart.
Context `{Engine} {L E : Type} `{LC : AdapterLifecycle L E} `{LL : !AdapterLifecycleLaws L E} (sha256 : list byte -> list byte).

Notation svc := (Svc (L := L) (R := Table)).

Definition same_place (m m' : Metric) : Prop := m_location m' = m_location m /\ m_user_id m' = m_user_id m.

Lemma migrate_calm from to t : table_inv t -> t_faults t = [] ->
  let '(t', x) := table_migrate_connection_id from to t in is_ok x = true /\ t_faults t' = [] /\ table_inv t' /\
    forall i m, rows_stored (t_rows t) !! i = Some m -> exists m', rows_stored (t_rows t') !! i = Some m' /\ migrated from to (rows_stored (t_rows t)) i m m'.
Proof.
  intros Ht Hf. pose proof (migrate_law t from to Ht) as Hm. change (repo_migrate_connection_id from to t) with (table_migrate_connection_id from to t) in Hm.
  unfold table_migrate_connection_id, MetricRepo.statement in *. rewrite Hf in *. destruct Hm as (H1 & _ & H3). split; [done|]. split; [done|]. by split.
Qed.

Lemma delete_metrics_calm cid t : table_inv t -> t_faults t = [] ->
  let '(t', x) := table_delete_by_connection_id cid t in is_ok x = true /\ t_faults t' = [] /\ table_inv t' /\
    forall i m, rows_stored (t_rows t') !! i = Some m <-> rows_stored (t_rows t) !! i = Some m /\ m_connection_id m <> cid.
Proof.
  intros Ht Hf. pose proof (delete_by_connection_law t cid Ht) as Hm. change (repo_delete_by_connection_id cid t) with (table_delete_by_connection_id cid t) in Hm.
  unfold table_delete_by_connection_id, MetricRepo.statement in *. rewrite Hf in *. destruct Hm as (H1 & H2). split; [done|]. split; [done|]. by split.
Qed.

(** One dead connection: its places go over, the rest stays. *)
Lemma absorb_one_metrics old id t : old <> id -> table_inv t -> t_faults t = [] ->
  let t2 := fst (table_delete_by_connection_id old (fst (table_migrate_connection_id old id t))) in
  table_inv t2 /\ t_faults t2 = [] /\
  forall i m, rows_stored (t_rows t) !! i = Some m -> exists j m', rows_stored (t_rows t2) !! j = Some m' /\ same_place m m' /\
    m_connection_id m' = if bool_decide (m_connection_id m = old) then id else m_connection_id m.
Proof.
  intros Hne Ht Hf t2. pose proof (migrate_calm old id t Ht Hf) as Hm. unfold t2. destruct (table_migrate_connection_id old id t) as [t1 x1].
  destruct Hm as (_ & Hf1 & Ht1 & Hm). cbn [fst]. pose proof (delete_metrics_calm old t1 Ht1 Hf1) as Hd. destruct (table_delete_by_connection_id old t1) as [t3 x3].
  destruct Hd as (_ & Hf3 & Ht3 & Hd). cbn [fst]. split; [done|]. split; [done|]. intros i m Hi. destruct (Hm i m Hi) as (m' & Hi' & Hmig).
  destruct (decide (m_connection_id m = old)) as [Eo|Eo]; [rewrite bool_decide_true by done|rewrite bool_decide_false by done].
  - destruct Hmig as [(_ & _ & ->)|[[Hx|(j & n & Hj & Hij & Hc & Hl & Hu)] ->]]; [|done|].
    + exists i, (set_connection id m). split; [|done]. apply Hd. split; [done|]. cbn. congruence.
    + destruct (Hm j n Hj) as (n' & Hj' & Hmn). exists j, n.
      assert (n' = n) as -> by (destruct Hmn as [(Hx & _)|[_ ->]]; [congruence|done]). split; [apply Hd; split; [done|congruence]|done].
  - exists i, m. assert (m' = m) as -> by (destruct Hmig as [(Hx & _)|[_ ->]]; [congruence|done]). split; [apply Hd; by split|done].
Qed.

(** What absorbing [old] does when nothing fails. *)
Lemma absorb_one_calm old id (s : svc) : old <> id -> at_peace s -> t_faults (sv_metrics s) = [] ->
  let s' := fst (delete_connection old (fst (on_metrics (repo_migrate_connection_id old id) s))) in
  at_peace s' /\ sv_metrics s' = fst (table_delete_by_connection_id old (fst (table_migrate_connection_id old id (sv_metrics s)))) /\
  st_conns (db_data (sv_db s')) !! old = None /\ (forall i, st_conns (db_data (sv_db s)) !! i = None -> st_conns (db_data (sv_db s')) !! i = None).
Proof.
  intros Hne (Hc & Hs & HM & HJ) Hf. destruct s as [[d fs] t lc v n bg clock ticks]. change (fs = []) in Hc. subst fs. cbn in Hs, HM, HJ, Hf.
  unfold on_metrics. cbn [sv_metrics]. change (repo_migrate_connection_id old id t) with (table_migrate_connection_id old id t).
  pose proof (migrate_calm old id t HM Hf) as Hm. destruct (table_migrate_connection_id old id t) as [t1 x1]. destruct Hm as (_ & Hf1 & Ht1 & _).
  cbn [fst sv_db sv_lc sv_vfs sv_sent sv_background sv_clock sv_ticks].
  unfold delete_connection, sql_bind, attempt, stop_adapter, on_lc, vfs, on_db. cbn [sv_db sv_metrics sv_lc sv_vfs sv_sent sv_background sv_clock sv_ticks].
  unfold ref_remove_all_by_connection. rewrite statement_calm. cbn [sv_db sv_metrics sv_lc sv_vfs sv_sent sv_background sv_clock sv_ticks].
  unfold on_metrics. cbn [sv_metrics]. change (repo_delete_by_connection_id old t1) with (table_delete_by_connection_id old t1).
  pose proof (delete_metrics_calm old t1 Ht1 Hf1) as Hd. destruct (table_delete_by_connection_id old t1) as [t3 x3]. destruct Hd as (Hx3 & Hf3 & Ht3 & _).
  destruct x3 as [k|]; [|done]. cbn [sv_db sv_metrics sv_lc sv_vfs sv_sent sv_background sv_clock sv_ticks].
  set (d1 := fst (delete_refs _ d)). assert (store_ok d1) as Hd1 by by apply delete_refs_ok.
  unfold conn_delete, sql_bind. rewrite statement_calm. set (d2 := fst (delete_where _ d1)). assert (store_ok d2) as Hd2 by by apply delete_where_ok.
  set (nn := snd (delete_where _ d1)).
  assert (lc_inv (lc_stop old lc)) as Hlc by (by destruct (stop_law lc old HJ)).
  assert (st_conns d2 !! old = None /\ forall i, st_conns d !! i = None -> st_conns d2 !! i = None) as [Hgone Hstay].
  { cbn. split; [|intros i Hi; apply lookup_difference_None; by left]. apply lookup_difference_None. destruct (st_conns d !! old) eqn:Eo; [right|by left].
    eexists. apply map_lookup_filter_Some. split; [exact Eo|]. apply String.eqb_refl. }
  destruct (nn =? 0)%N; (split; [exact (conj eq_refl (conj Hd2 (conj Ht3 Hlc)))|]); (split; [done|]); by split.
Qed.

Lemma absorb_each_metrics id ids (s : svc) : id ∉ ids -> at_peace s -> t_faults (sv_metrics s) = [] ->
  let s' := fst (absorb_each ids id s) in
  at_peace s' /\ t_faults (sv_metrics s') = [] /\
  (forall i, i ∈ ids \/ st_conns (db_data (sv_db s)) !! i = None -> st_conns (db_data (sv_db s')) !! i = None) /\
  forall i m, rows_stored (t_rows (sv_metrics s)) !! i = Some m -> m_connection_id m = id \/ m_connection_id m ∈ ids ->
    exists j m', rows_stored (t_rows (sv_metrics s')) !! j = Some m' /\ same_place m m' /\ m_connection_id m' = id.
Proof.
  revert s. induction ids as [|old ids IH]; intros s Hn Hp Hf s'.
  - split; [done|]. split; [done|]. split; [intros i [Hi|Hi]; [by apply not_elem_of_nil in Hi|done]|].
    intros i m Hi [Hm|Hm]; [by exists i, m|by apply not_elem_of_nil in Hm].
  - apply not_elem_of_cons in Hn as [Hne Hn]. destruct (absorb_one_calm old id s) as (Hp1 & Em & Hgone & Hstay); [done..|].
    assert (s' = fst (absorb_each ids id (fst (delete_connection old (fst (on_metrics (repo_migrate_connection_id old id) s)))))) as ->.
    { unfold s'. cbn [absorb_each]. unfold sql_bind, attempt. destruct (on_metrics _ s) as [s1 x1]. cbn [fst]. by destruct (delete_connection old s1). }
    set (s1 := fst (delete_connection old _)) in *. destruct (absorb_one_metrics old id (sv_metrics s)) as (Ht & Hf1 & Hcov); [done|apply Hp|done|].
    rewrite <- Em in Ht, Hf1, Hcov. destruct (IH s1 Hn Hp1 Hf1) as (Hp2 & Hf2 & Hg & Hc2). split; [done|]. split; [done|]. split.
    + intros i [[->|Hi]%elem_of_cons|Hi]; apply Hg; auto.
    + intros i m Hi Hm. destruct (Hcov i m Hi) as (j & m' & Hj & [P1 P2] & Ec).
      assert (m_connection_id m' = id \/ m_connection_id m' ∈ ids) as Hm'.
      { rewrite Ec. destruct (decide (m_connection_id m = old)) as [Eo|Eo]; [rewrite bool_decide_true by done; by left|]. rewrite bool_decide_false by done.
        destruct Hm as [Hm|[Hm|Hm]%elem_of_cons]; [by left|done|by right]. }
      destruct (Hc2 j m' Hj Hm') as (k & m2 & Hk & [Q1 Q2] & Ec2). exists k, m2. split; [done|]. split; [split; congruence|done].
Qed.

(** The dead connections of a project. *)
Definition dead_sibling (i : ConnectionIdentity) (id : string) (s : Store) (old : string) : Prop :=
  old <> id /\ exists r, st_conns s !! old = Some r /\ r_name r = Some (ci_name i) /\ r_language r = lang_as_str (ci_language i) /\
    r_workspace_root r = ci_workspace_root i /\ disconnected_or_failed r = true.

Lemma find_dead i c d old : c_name c = Some (ci_name i) -> c_language c = ci_language i -> c_workspace_root c = ci_workspace_root i ->
  forall ids, snd (conn_find_stale_same_project (default EmptyString (c_name c)) (lang_as_str (c_language c)) (c_workspace_root c) (c_id c) (mkDb d [])) = Ok ids ->
  dead_sibling i (c_id c) d old -> old ∈ ids.
Proof.
  intros En El Ew ids. unfold conn_find_stale_same_project. rewrite statement_calm. cbn [snd]. intros [= <-] (Hne & r & Hr & H1 & H2 & H3 & H4).
  apply list_elem_of_fmap. exists (old, r). split; [done|]. apply select_conns_spec. split; [done|]. cbn [fst snd].
  rewrite En, El, Ew, H1, H2, H3, H4. cbn [default]. rewrite bool_decide_true, !String.eqb_refl by done. cbn. by destruct (String.eqb_spec old (c_id c)).
Qed.

Lemma absorb_stale_metrics i c st (s : svc) : c_name c = Some (ci_name i) -> c_language c = ci_language i -> c_workspace_root c = ci_workspace_root i ->
  good (stored_as (c_id c) st) (fun r => repo_inv r) lc_inv s -> t_faults (sv_metrics s) = [] ->
  let s' := fst (absorb_stale c s) in
  (forall old, dead_sibling i (c_id c) (db_data (sv_db s)) old -> st_conns (db_data (sv_db s')) !! old = None) /\
  forall k m, rows_stored (t_rows (sv_metrics s)) !! k = Some m -> m_connection_id m = c_id c \/ dead_sibling i (c_id c) (db_data (sv_db s)) (m_connection_id m) ->
    exists j m', rows_stored (t_rows (sv_metrics s')) !! j = Some m' /\ same_place m m' /\ m_connection_id m' = c_id c.
Proof.
  intros En El Ew ((Hc & Hs & _) & HM & HJ) Hf. unfold absorb_stale, sql_bind, attempt. destruct s as [[d fs] ms lc v n bg clock ticks].
  change (fs = []) in Hc. subst fs. pose proof (find_dead i c d) as Hdead.
  destruct (find_stale_calm (default EmptyString (c_name c)) (lang_as_str (c_language c)) (c_workspace_root c) (c_id c) d) as (ids & Ef & Hids).
  unfold on_db. cbn [sv_db db_data]. rewrite Ef in *. cbn [sv_metrics sv_lc sv_vfs sv_sent sv_background sv_clock sv_ticks].
  set (s1 := mkSvc (mkDb d []) ms lc v n bg clock ticks) in *.
  destruct (absorb_each_metrics (c_id c) ids s1 Hids (conj eq_refl (conj Hs (conj HM HJ))) Hf) as (_ & _ & Hg & Hcov). split.
  - intros old Hold. apply Hg. left. by eapply Hdead.
  - intros k m Hk [Hm|Hm]; (eapply Hcov; [exact Hk|]); [by left|]. right. by eapply Hdead.
Qed.

(** After the rows are saved and the dead ones absorbed, the rest of a start
    touches neither the metrics nor other rows. *)
Lemma start_rest e q c (I : Db Store -> Prop) (t : Table) :
  (forall tm st, preserves I (conn_update_status tm (c_id c) st)) -> (forall r, preserves I (ref_add r)) ->
  preserves (good I (eq t) (fun _ : L => True))
    (match q_pid q with
     | Some _ => let* _ := update_status (c_id c) Connecting in let* _ := spawn (mkBg (start_request q c) (q_user_id q)) in sql_ret (c_id c)
     | None => let* _ := start_adapter e (start_request q c) in let* _ := finalize_connection_start (start_request q c) (q_user_id q) in sql_ret (c_id c)
     end).
Proof.
  intros Hu Hr. destruct (q_pid q).
  - apply preserves_bind; [by apply good_update_status|]. intros _. apply preserves_bind; [apply good_spawn|]. auto with sql.
  - apply preserves_bind; [by apply good_lc|]. intros _. apply preserves_bind; [|auto with sql].
    apply preserves_bind; [by apply good_update_status|]. intros _. apply preserves_bind; [by apply good_hold_reference|]. intros _. apply good_send.
Qed.

Lemma gone_update_status old id tm st : old <> id -> preserves (fun db => st_conns (db_data db) !! old = None) (conn_update_status tm id st).
Proof.
  intros Hne. apply preserves_bind; [|intros []; auto with sql]. apply (preserves_try_statement (fun d => st_conns d !! old = None)). intros d d' a Hd.
  destruct (st_conns d !! id); [|by intros [= <- <-]]. intros Hw. res_inv Hw. destruct v as [d1 []]. injection Hw as <- <-.
  unfold write_row in E0. res_inv E0. injection E0 as <-. cbn. by rewrite lookup_insert_ne.
Qed.
Lemma gone_ref_add old r : preserves (fun db => st_conns (db_data db) !! old = None) (ref_add r).
Proof. intros db Hd. pose proof (ref_add_cases r db) as Hc. destruct (ref_add r db) as [db' [a|err]]; cbn; [by destruct Hc as (_ & row & ->)|by destruct Hc as [-> _]]. Qed.

(** C10: a restart keeps the metrics.  When a program comes back under a new host
    name, its connection gets a new id; as far as nothing fails in the databases,
    the dead connections of the project are gone after the creation, and for every
    metric of theirs and of the new connection, the owner has a metric of the new
    connection at the same place. *)
Theorem restart_keeps_metrics e q (s s' : svc) id : at_peace s -> t_faults (sv_metrics s) = [] ->
  id = to_uuid sha256 (q_identity q) -> st_conns (db_data (sv_db s)) !! id = None ->
  create_connection_with_metadata sha256 e q s = (s', Ok id) ->
  (forall old, dead_sibling (q_identity q) id (db_data (sv_db s)) old -> st_conns (db_data (sv_db s')) !! old = None) /\
  forall k m, rows_stored (t_rows (sv_metrics s)) !! k = Some m -> m_connection_id m = id \/ dead_sibling (q_identity q) id (db_data (sv_db s)) (m_connection_id m) ->
    exists j m', rows_stored (t_rows (sv_metrics s')) !! j = Some m' /\ same_place m m' /\ m_connection_id m' = id.
Proof.
  intros (Hc & Hs & HM & HJ) Hf Eid Hnone. unfold create_connection_with_metadata, sql_bind at 1. destruct s as [[d fs] ms lc v n bg clock ticks].
  change (fs = []) in Hc. subst fs. cbn in Hs, HM, HJ, Hf, Hnone. unfold now. cbn [sv_clock sv_ticks sv_db sv_metrics sv_lc sv_vfs sv_sent sv_background].
  unfold sql_bind at 1, sql_lift at 1. destruct (new_with_identity sha256 (clock ticks) (q_identity q) (q_host q) (q_port q)) as [c0|err] eqn:Ec; [|done].
  unfold sql_bind at 1, sql_lift. destruct (validate_user_id (q_user_id q)) as [[]|err]; [|done].
  assert (c_id c0 = id /\ c_status c0 = Disconnected /\ c_name c0 = Some (ci_name (q_identity q)) /\ c_language c0 = ci_language (q_identity q) /\ c_workspace_root c0 = ci_workspace_root (q_identity q)) as (E1 & E2 & E3 & E4 & E5).
  { unfold new_with_identity in Ec. res_inv Ec. by injection Ec as <-. }
  set (c := with_metadata q c0). assert (c_id c = id) as Ei by exact E1. unfold sql_bind at 1, attempt, on_db at 1. cbn [sv_db].
  rewrite Ei, (find_by_id_calm id d Hs), Hnone. cbn [sv_clock sv_ticks sv_db sv_metrics sv_lc sv_vfs sv_sent sv_background].
  set (s1 := mkSvc (mkDb d []) ms lc v n bg clock (S ticks)). unfold start_connection, sql_bind at 1. unfold on_db at 1. cbn [s1 sv_db].
  unfold conn_save, sql_bind at 1. rewrite try_statement_calm. unfold upsert at 1. rewrite Ei, Hnone. unfold write_row.
  destruct (negb (check_row (connection_row c))) eqn:Ek; [done|]. destruct (identity_taken id (connection_row c) d) eqn:Et; [done|].
  cbn [s1 sql_ret sv_metrics sv_lc sv_vfs sv_sent sv_background sv_clock sv_ticks]. set (d1 := set_conns _ d).
  set (s2 := mkSvc (mkDb d1 []) ms lc v n bg clock (S ticks)).
  assert (store_ok d1) as Hd1.
  { eapply (write_row_ok id (connection_row c) d d1 tt); [apply connection_row_readable|done|]. unfold write_row. by rewrite Ek, Et. }
  assert (good (stored_as (c_id c) Disconnected) (fun r => repo_inv r) lc_inv s2) as H2.
  { split; [|by split]. split; [done|]. split; [done|]. rewrite Ei. exists (connection_row c). split; [apply lookup_insert_eq|]. cbn. by rewrite E2. }
  destruct (absorb_stale_rest c Disconnected s2 H2) as [H3 Eo]. destruct (absorb_stale_metrics (q_identity q) c Disconnected s2) as [Hgone Hcov]; [done..|].
  unfold sql_bind at 1. destruct (absorb_stale c s2) as [s3 x3]. cbn [snd fst] in *. subst x3. rewrite Ei in *.
  assert (forall old, dead_sibling (q_identity q) id d old -> dead_sibling (q_identity q) id d1 old) as Hsib.
  { intros old (Hne & r & Hr & Hx). split; [done|]. exists r. split; [|done]. cbn. by rewrite lookup_insert_ne. }
  intros Hrun. assert (sv_metrics s3 = sv_metrics s') as Em.
  { pose proof (start_rest e q c (fun _ => True) (sv_metrics s3)) as Hp. rewrite Ei in Hp.
    specialize (Hp ltac:(done) ltac:(done) s3 (conj Logic.I (conj eq_refl Logic.I))). rewrite Hrun in Hp. by destruct Hp as (_ & ? & _). }
  split.
  - intros old Hold. pose proof (start_rest e q c (fun db => st_conns (db_data db) !! old = None) (sv_metrics s3)) as Hp. rewrite Ei in Hp.
    specialize (Hp ltac:(intros; apply gone_update_status, Hold) ltac:(intros; apply gone_ref_add) s3 (conj (Hgone _ (Hsib _ Hold)) (conj eq_refl Logic.I))).
    rewrite Hrun in Hp. by destruct Hp as (? & _).
  - intros k m Hk Hm. rewrite <- Em. apply (Hcov k m Hk). destruct Hm; auto.
Qed.
End Restart.

(** ** Witnesses, and what failures lead to *)

Section Examples.
Local Existing Instance insertion_order.

Definition plain_hash (l : list byte) : list byte := l.
Definition demo_lifecycle : AdapterLifecycle Manager (Answers * nat) := manager_lifecycle 3.
Local Existing Instance demo_lifecycle.

Definition all_well : Answers * nat := (mkAnswers false (Ok tt) (Ok tt) (Ok tt) (Ok []) 0 (Ok true) false, 0%nat).
Definition no_debugger : Answers * nat :=
  (mkAnswers false (Err (CoreError.Adapter "refused")) (Ok tt) (Ok tt) (Ok []) 0 (Ok true) false, 0%nat).

Definition on_host (hostname : string) : ConnectionIdentity := mkIdentity "app" Python "/w" hostname.
Definition id_of (hostname : string) : string := to_uuid plain_hash (on_host hostname).
Definition request (hostname user : string) (pid : option N) : CreateRequest :=
  mkCreate "127.0.0.1" 5678 (on_host hostname) None pid false None None None (Some user).

Definition svc_with (faults metric_faults : list bool) (db : Db Store) (t : Table) (m : Manager) : Svc :=
  mkSvc (mkDb (db_data db) faults) (mkTable (t_rows t) (t_next t) metric_faults) m [] [] [] Z.of_nat 100.

Definition saved (hostname : string) (now : Z) : Connection :=
  mkConn (id_of hostname) (Some "app") "/w" hostname "127.0.0.1" 5678 Python Disconnected true false None None None None now None now.

(** One connection of the host [h1], connected, that two clients share. *)
Definition shared : Db Store :=
  fold_left (fun db o => repo_op o db)
    [OSave (saved "h1" 1); OUpdateStatus 2 (id_of "h1") Connected;
     OAddReference (reference_new 3 (id_of "h1") (Bridge "alice") KClient); OAddReference (reference_new 4 (id_of "h1") (Bridge "bob") KClient)]
    (mkDb empty_store []).
Definition one_adapter : Manager := fst (lc_start all_well (mkReq (id_of "h1") "127.0.0.1" 5678 Python None None false) new_manager).

Lemma shared_ok : store_ok (db_data shared).
Proof. apply repo_ops_ok, empty_store_ok. Qed.

Lemma one_adapter_quiet : quiet one_adapter.
Proof. split; by vm_compute. Qed.

Lemma references_protect_witness :
  let s := svc_with [false; true] [] shared empty_table one_adapter in
  let l := [ClRelease (id_of "h1") (Bridge "alice"); ClReleaseAll (Bridge "alice")] in
  protected (id_of "h1") (Bridge "bob") (fold_left (fun s o => client_op o s) l s).
Proof.
  cbn zeta. apply (references_protect (id_of "h1") (Bridge "bob")).
  - by repeat constructor.
  - split; [|split; [done|split; [exact one_adapter_quiet|by vm_compute]]]. split; [exact shared_ok|]. split; [vm_compute; by eexists|].
    eexists. split; [vm_compute; reflexivity|done].
Defined.


(** The program of [h1] is gone; its metric is still there. *)
Definition gone : Db Store := fold_left (fun db o => repo_op o db) [OSave (saved "h1" 1)] (mkDb empty_store []).
Lemma gone_ok : store_ok (db_data gone).
Proof. apply repo_ops_ok, empty_store_ok. Qed.
Definition watched : Metric := set_connection (id_of "h1") (sample_metric 0 "total" "f.py" 3 ["x"]).
Definition one_metric : Table := fst (table_save 7 watched empty_table).
Lemma one_metric_inv : table_inv one_metric.
Proof. pose proof (table_save_ok empty_table 7 watched (empty_table_inv []) eq_refl) as Hw. unfold one_metric. destruct (table_save 7 watched empty_table). apply Hw. Qed.

Definition comes_back (metric_faults : list bool) : Svc * result string Error :=
  create_connection_with_metadata plain_hash all_well (request "h2" "alice" None) (svc_with [] metric_faults gone one_metric new_manager).

Lemma restart_keeps_metrics_witness :
  exists j m', rows_stored (t_rows (sv_metrics (fst (comes_back [])))) !! j = Some m' /\ same_place watched m' /\ m_connection_id m' = id_of "h2".
Proof.
  set (s := svc_with [] [] gone one_metric new_manager).
  assert (at_peace s) as Hp by (split; [done|]; split; [exact gone_ok|]; split; [exact one_metric_inv|by vm_compute]).
  assert (snd (comes_back []) = Ok (id_of "h2")) as Hok by by vm_compute.
  assert (comes_back [] = (fst (comes_back []), Ok (id_of "h2"))) as Hrun by (rewrite <- Hok; apply surjective_pairing).
  destruct (restart_keeps_metrics plain_hash all_well (request "h2" "alice" None) s (fst (comes_back [])) (id_of "h2") Hp eq_refl eq_refl) as [_ Hk];
    [by vm_compute|exact Hrun|].
  apply (Hk 1%N (saved_metric 7 1 watched)); [by vm_compute|]. right.
  split; [intros Heq; by vm_compute in Heq|]. exists (connection_row (saved "h1" 1)). repeat (split; [vm_compute; reflexivity|]). vm_compute. reflexivity.
Defined.

(** A migration that the database refuses is only logged, and the deletion that
    follows takes the metrics with it: the creation succeeds without them. *)
Theorem failed_migration_loses_metrics :
  snd (comes_back [true]) = Ok (id_of "h2") /\ rows_stored (t_rows (sv_metrics (fst (comes_back [true])))) = ∅.
Proof. split; by vm_compute. Qed.

(** A connection deleted while its start is under way: the start registers its
    adapter all the same, and no row is left through which to stop it. *)
Theorem deletion_during_start_leaves_adapter :
  let s0 := svc_with [] [] (mkDb empty_store []) empty_table new_manager in
  let s1 := fst (create_connection_with_metadata plain_hash all_well (request "h1" "alice" (Some 42%N)) s0) in
  let s2 := fst (delete_connection (id_of "h1") s1) in
  let s3 := fst (finish_background (fun _ => EmptyString) false all_well 0 s2) in
  snd (delete_connection (id_of "h1") s1) = Ok tt /\ lc_has (id_of "h1") (sv_lc s3) = true /\ st_conns (db_data (sv_db s3)) = ∅.
Proof. cbn zeta. split; [|split]; by vm_compute. Qed.

(** When a failed start cannot be recorded, the connection stays connecting, and
    every later creation returns it as if a start were under way. *)
Theorem unrecorded_failure_blocks_creation :
  let s0 := svc_with [] [] (mkDb empty_store []) empty_table new_manager in
  let s1 := fst (create_connection_with_metadata plain_hash all_well (request "h1" "alice" (Some 42%N)) s0) in
  let s2 := mkSvc (mkDb (db_data (sv_db s1)) [true]) (sv_metrics s1) (sv_lc s1) (sv_vfs s1) (sv_sent s1) (sv_background s1) (sv_clock s1) (sv_ticks s1) in
  let s3 := fst (finish_background (fun _ => EmptyString) false no_debugger 0 s2) in
  let '(s4, r) := create_connection_with_metadata plain_hash all_well (request "h1" "alice" None) s3 in
  sv_background s3 = [] /\ r = Ok (id_of "h1") /\ lc_has (id_of "h1") (sv_lc s4) = false.
Proof. by vm_compute. Qed.

(** Cleanup takes a count it cannot read for zero: a connection with fresh
    references is deleted, and they with it. *)
Theorem unreadable_count_deletes_connection :
  let old := fold_left (fun db o => repo_op o db)
    [OSave (saved "h1" 1); OAddReference (reference_new (200 * MICROS_PER_DAY) (id_of "h1") (Bridge "alice") KClient)] (mkDb empty_store []) in
  let s := fun faults => mkSvc (mkDb (db_data old) faults) empty_table new_manager [] [] [] (fun _ => 200 * MICROS_PER_DAY) 0 in
  size (st_refs (db_data old)) = 1%nat /\
  snd (cleanup_stale_connections 30 (s [])) = Ok 0%N /\
  snd (cleanup_stale_connections 30 (s [false; false; true])) = Ok 1%N /\
  st_refs (db_data (sv_db (fst (cleanup_stale_connections 30 (s [false; false; true]))))) = ∅.
Proof. cbn zeta. repeat split; by vm_compute. Qed.
End Examples.
