(* ===== verification/SafetyRegistry.v ===== *)
(** * The validator registry and the metric service

    [ValidatorRegistry] of [crates/detrix-application/src/safety/mod.rs]: the
    validators by language, dispatch by the language's name, and the resolution
    of unknown functions by a language server, which is an argument
    ([PurityAnalyzer], [crates/detrix-ports/src/purity.rs]).  The metric service
    is then run with this registry as its validator. *)

From Stdlib Require Import Strings.String Strings.Ascii.
From S2P Require Import Prelude RustStr CoreError Location Language Metric SafetyTables SafetyAnalysis SafetyValidator MetricRepo MetricService MetricOutcomes.

Local Open Scope string_scope.
Local Arguments String.append !_ _ / : simpl nomatch.

(** [ExpressionValidator]. *)
Record ExpressionValidator : Type := mkEV {
  ev_language : SourceLanguage;
  ev_validate : string -> SafetyLevel -> ValidationResult;
  ev_is_function_allowed : string -> SafetyLevel -> bool
}.
(** A hash map by language. *)
Definition ValidatorRegistry : Type := SourceLanguage -> option ExpressionValidator.

Definition empty_registry : ValidatorRegistry := fun _ => None.
Definition register (v : ExpressionValidator) (r : ValidatorRegistry) : ValidatorRegistry :=
  fun l => if bool_decide (l = ev_language v) then Some v else r l.

Record SafetyConfig : Type := mkSafetyConfig { sc_python : LangSafetyConfig; sc_go : LangSafetyConfig; sc_rust : LangSafetyConfig }.
Definition default_safety_config : SafetyConfig := mkSafetyConfig default_python_safety default_go_safety default_rust_safety.

Section Registry.
Context (lower : string -> string) (ord : list string -> list string) (parse : SourceLanguage -> string -> option SyntaxTree).

Definition python_ev (c : LangSafetyConfig) : ExpressionValidator :=
  let v := python_validator_new c in mkEV Python (python_validate lower ord parse v) (is_function_allowed_base v).
Definition go_ev (c : LangSafetyConfig) : ExpressionValidator :=
  let v := go_validator_new c in mkEV Go (go_validate lower ord parse v) (is_function_allowed_base v).
Definition rust_ev (c : LangSafetyConfig) : ExpressionValidator :=
  let v := rust_validator_new c in mkEV Rust (rust_validate lower ord parse v) (is_function_allowed_base v).

Definition registry_new (c : SafetyConfig) : ValidatorRegistry :=
  register (rust_ev (sc_rust c)) (register (go_ev (sc_go c)) (register (python_ev (sc_python c)) empty_registry)).

Definition language_of (language : string) : result SourceLanguage AppError :=
  map_err (fun e => AppCore (InvalidConfig (ple_display e))) (parse_language language).
Definition unsupported (l : SourceLanguage) : AppError :=
  AppSafetyTyped SafetyUnsupportedLanguage ("No safety validator for language: " ++ lang_as_str l).

Definition registry_validate (r : ValidatorRegistry) (language expression : string) (level : SafetyLevel) : result ValidationResult AppError :=
  let? lang := language_of language in
  let? v := ok_or (r lang) (unsupported lang) in
  Ok (ev_validate v expression level).
Definition registry_is_function_allowed (r : ValidatorRegistry) (language func_name : string) (level : SafetyLevel) : result bool AppError :=
  let? lang := language_of language in
  let? v := ok_or (r lang) (unsupported lang) in
  Ok (ev_is_function_allowed v func_name level).
Definition supports_language (r : ValidatorRegistry) (language : string) : bool :=
  match lang_from_str language with Ok l => match r l with Some _ => true | None => false end | Err _ => false end.

(** ** Resolution of unknown functions *)

Record PurityAnalyzer : Type := mkPurityAnalyzer {
  an_ensure_ready : result unit string;
  an_analyze_function : string -> string -> result PurityAnalysis string
}.

Definition lsp_source : string := "LSP call hierarchy analysis".
Definition impure_message (func_name : string) (calls : list ImpureCall) : string :=
  "Function '" ++ func_name ++ "' is impure (LSP analysis): "
  ++ String.concat ", " (map (fun c => ic_function_name c ++ ": " ++ ic_reason c) calls).

Definition remove_string (x : string) (l : list string) : list string := List.filter (fun y => negb (String.eqb y x)) l.

Definition resolve_one (a : PurityAnalyzer) (file_path : string) (r : ValidationResult) (func_name : string) : ValidationResult :=
  match an_analyze_function a func_name file_path with
  | Err _ => r
  | Ok analysis =>
      match pa_level analysis with
      | Pure => mkVR (vr_is_safe r) (vr_purity r) (vr_errors r)
                  (List.filter (fun w => negb (contains ("'" ++ func_name ++ "'") w)) (vr_warnings r)) (vr_function_calls r)
                  (remove_string func_name (vr_unknown_functions r)) (vr_impure_functions r)
                  (vr_resolved r ++ [mkResolved func_name "pure" lsp_source])%list
      | Impure => mkVR false (vr_purity r) (vr_errors r ++ [impure_message func_name (pa_impure_calls analysis)])%list
                    (vr_warnings r) (vr_function_calls r) (remove_string func_name (vr_unknown_functions r))
                    (set_insert func_name (vr_impure_functions r)) (vr_resolved r ++ [mkResolved func_name "impure" lsp_source])%list
      | UnknownPurity => r
      end
  end.

Definition update_purity (r : ValidationResult) : ValidationResult :=
  match vr_unknown_functions r, vr_impure_functions r with
  | [], [] => mkVR true Pure (vr_errors r) (vr_warnings r) (vr_function_calls r) [] [] (vr_resolved r)
  | _, [] => r
  | us, im => mkVR false Impure (vr_errors r) (vr_warnings r) (vr_function_calls r) us im (vr_resolved r)
  end.

Definition resolve_purity (analyzers : SourceLanguage -> option PurityAnalyzer) (r : ValidationResult) (language : SourceLanguage) (file_path : string) : ValidationResult :=
  match analyzers language with
  | None => r
  | Some a => match an_ensure_ready a with
              | Err _ => r
              | Ok _ => update_purity (fold_left (resolve_one a file_path) (ord (vr_unknown_functions r)) r)
              end
  end.

(** The environment of the metric service with this registry. *)
Definition with_registry (env : Env) (reg : ValidatorRegistry) (analyzers : SourceLanguage -> option PurityAnalyzer) : Env :=
  mkEnv (env_debug_strings env) (env_limits env) (supports_language reg) (registry_validate reg) (resolve_purity analyzers)
    (env_inspect_line env) (env_capture_anchor env) (env_map_order env) (env_now env).
End Registry.

(** ** Resolution, as a function of the analyser's verdicts *)

Section Resolution.
Context (ord : list string -> list string) (Hord : forall l, ord l ≡ₚ l) (a : PurityAnalyzer) (file : string).

Definition verdict (f : string) : PurityLevel :=
  match an_analyze_function a f file with Ok x => pa_level x | Err _ => UnknownPurity end.

Lemma elem_of_remove_string x y l : x ∈ remove_string y l <-> x ∈ l /\ x <> y.
Proof.
  unfold remove_string. rewrite !list_elem_of_In, filter_In, negb_true_iff, String.eqb_neq. done.
Qed.

Lemma resolve_one_spec r f :
  let r' := resolve_one a file r f in
  (forall x, x ∈ vr_unknown_functions r' <-> x ∈ vr_unknown_functions r /\ (x <> f \/ verdict f = UnknownPurity))
  /\ (forall x, x ∈ vr_impure_functions r' <-> x ∈ vr_impure_functions r \/ (x = f /\ verdict f = Impure))
  /\ vr_is_safe r' = vr_is_safe r && negb (bool_decide (verdict f = Impure)) /\ vr_function_calls r' = vr_function_calls r.
Proof.
  unfold resolve_one, verdict. destruct (an_analyze_function a f file) as [x|e].
  2: { cbn. rewrite andb_true_r. split; [naive_solver|]. split; [naive_solver|done]. }
  destruct (pa_level x); cbn; rewrite ?andb_true_r, ?andb_false_r.
  - setoid_rewrite elem_of_remove_string. split; [naive_solver|]. split; [naive_solver|done].
  - split; [naive_solver|]. split; [naive_solver|done].
  - setoid_rewrite elem_of_remove_string. setoid_rewrite elem_of_set_insert. split; [naive_solver|]. split; [naive_solver|done].
Qed.

Lemma resolve_all_spec l r :
  let r' := fold_left (resolve_one a file) l r in
  (forall x, x ∈ vr_unknown_functions r' <-> x ∈ vr_unknown_functions r /\ (x ∉ l \/ verdict x = UnknownPurity))
  /\ (forall x, x ∈ vr_impure_functions r' <-> x ∈ vr_impure_functions r \/ (x ∈ l /\ verdict x = Impure))
  /\ (vr_is_safe r' = true <-> vr_is_safe r = true /\ forall x, x ∈ l -> verdict x <> Impure).
Proof.
  revert r. induction l as [|f l IH]; intros r; cbn [fold_left].
  { setoid_rewrite elem_of_nil. split; [naive_solver|]. split; naive_solver. }
  destruct (resolve_one_spec r f) as (H1 & H2 & H3 & _). destruct (IH (resolve_one a file r f)) as (I1 & I2 & I3). cbn zeta in *.
  setoid_rewrite elem_of_cons. split; [|split].
  - intros x. rewrite I1, H1. destruct (decide (x = f)) as [->|]; naive_solver.
  - intros x. rewrite I2, H2. destruct (decide (x = f)) as [->|]; naive_solver.
  - rewrite I3, H3, andb_true_iff, negb_true_iff, bool_decide_eq_false. naive_solver.
Qed.

Lemma list_empty_iff (l : list string) : l = [] <-> forall x, x ∉ l.
Proof. split; [intros -> x; apply not_elem_of_nil|]. destruct l as [|y l]; [done|]. intros H. destruct (H y). left. Qed.

(** What is left of a safe result after resolution. *)
Lemma resolve_safe r : vr_is_safe r = true -> vr_impure_functions r = [] ->
  let r' := update_purity (fold_left (resolve_one a file) (ord (vr_unknown_functions r)) r) in
  (vr_is_safe r' = true <-> forall f, f ∈ vr_unknown_functions r -> verdict f <> Impure)
  /\ (forall f, f ∈ vr_unknown_functions r' <-> f ∈ vr_unknown_functions r /\ verdict f = UnknownPurity)
  /\ (forall f, f ∈ vr_impure_functions r' <-> f ∈ vr_unknown_functions r /\ verdict f = Impure).
Proof.
  intros Hs Hi. destruct (resolve_all_spec (ord (vr_unknown_functions r)) r) as (H1 & H2 & H3). cbn zeta in *.
  setoid_rewrite (elem_of_ord ord Hord) in H1. setoid_rewrite (elem_of_ord ord Hord) in H2. setoid_rewrite (elem_of_ord ord Hord) in H3.
  rewrite Hi in H2. setoid_rewrite elem_of_nil in H2. set (r1 := fold_left _ _ _) in *.
  assert (forall r2, vr_unknown_functions r2 = vr_unknown_functions r1 -> vr_impure_functions r2 = vr_impure_functions r1 ->
    (forall f, f ∈ vr_unknown_functions r2 <-> f ∈ vr_unknown_functions r /\ verdict f = UnknownPurity)
    /\ (forall f, f ∈ vr_impure_functions r2 <-> f ∈ vr_unknown_functions r /\ verdict f = Impure)) as Hsets.
  { intros r2 E1 E2. rewrite E1, E2. split; intros f; [rewrite H1|rewrite H2]; naive_solver. }
  assert (vr_impure_functions r1 = [] <-> forall f, f ∈ vr_unknown_functions r -> verdict f <> Impure) as Hnone.
  { rewrite list_empty_iff. setoid_rewrite H2. naive_solver. }
  unfold update_purity. destruct (vr_unknown_functions r1) as [|u us] eqn:Eu, (vr_impure_functions r1) as [|i im] eqn:Ei; cbn [vr_is_safe].
  - split; [split; [intros _; by apply Hnone|done]|]. by apply Hsets.
  - split; [split; [done|intros Hn; by apply Hnone in Hn]|]. by apply Hsets.
  - split; [rewrite H3; naive_solver|]. apply Hsets; congruence.
  - split; [split; [done|intros Hn; by apply Hnone in Hn]|]. by apply Hsets.
Qed.
End Resolution.

(** ** The metric service with the registry *)

Lemma classify_calls_impure {V : Type} `{BaseValidator V} (v : V) l s :
  lp_errors (fold_left (classify_call v) l s) = [] -> lp_impure (fold_left (classify_call v) l s) = lp_impure s.
Proof.
  revert s. induction l as [|f l IH]; intros s He; cbn [fold_left] in *; [done|]. rewrite (IH _ He).
  destruct (classify_calls (fun x => x) v l (classify_call v s f)) as [H1 _]. apply H1 in He as [Hf _].
  unfold classify_call in *. destruct (_ || _); [done|]. destruct (in_set f _); [cbn in Hf; by destruct (lp_errors s)|].
  destruct (_ && _); [cbn in Hf; by destruct (lp_errors s)|done].
Qed.

Lemma safe_result_has_no_impure {V : Type} `{BaseValidator V} lower ord (v : V) ast p :
  vr_is_safe (validate_ast_result lower ord v ast p) = true -> vr_impure_functions (validate_ast_result lower ord v ast p) = [].
Proof.
  unfold validate_ast_result. cbn [vr_is_safe vr_impure_functions]. rewrite !andb_true_iff, bool_decide_eq_true. intros [[He _] _].
  by rewrite classify_calls_impure.
Qed.

Section Service.
Context (lower : string -> string) (ord : list string -> list string) (Hord : forall l, ord l ≡ₚ l).
Context (parse : SourceLanguage -> string -> option SyntaxTree) (config : SafetyConfig) (analyzers : SourceLanguage -> option PurityAnalyzer).
Notation registry := (registry_new lower ord parse config).

(** The expression passes the rules of the validator of its language. *)
Definition permitted_expression (l : SourceLanguage) (level : SafetyLevel) (e : string) : Prop :=
  match l with
  | Python => exists tree, parse Python e = Some tree /\ tree_has_error tree = false
      /\ tree_permitted lower (python_validator_new (sc_python config)) python_spec extract_simple_base_name level (tree_root tree)
  | Go => exists tree, parse Go (go_wrapped e) = Some tree /\ tree_has_error tree = false
      /\ tree_permitted lower (go_validator_new (sc_go config)) go_spec extract_simple_base_name level (tree_root tree)
  | Rust => exists tree, parse Rust (rust_wrapped e) = Some tree /\ tree_has_error tree = false
      /\ tree_permitted lower (rust_validator_new (sc_rust config)) rust_spec extract_rust_base_name level (tree_root tree)
  | _ => False
  end.

(** A language server that is ready finds no unknown function impure. *)
Definition none_found_impure (l : SourceLanguage) (file : string) (r : ValidationResult) : Prop :=
  forall a, analyzers l = Some a -> is_ok (an_ensure_ready a) = true -> forall f, f ∈ vr_unknown_functions r -> verdict a file f <> Impure.

Lemma registry_validate_safe l e level r : registry_validate registry (lang_as_str l) e level = Ok r -> vr_is_safe r = true ->
  permitted_expression l level e /\ vr_impure_functions r = [].
Proof.
  unfold registry_validate, language_of. intros Hv Hs.
  assert (parse_language (lang_as_str l) = Ok l) as Hl by by destruct l. rewrite Hl in Hv. cbn [map_err res_bind] in Hv.
  destruct l; try discriminate Hv; cbn in Hv; injection Hv as <-; (split; [|by apply safe_result_has_no_impure]).
  - by apply (validate_sound lower ord Hord (python_validator_new (sc_python config)) (parse Python) _ _ _ _ _ _ _ _ python_implements Hs).
  - by apply (validate_sound lower ord Hord (go_validator_new (sc_go config)) (parse Go) _ _ _ _ _ _ _ _ go_implements Hs).
  - by apply (validate_sound lower ord Hord (rust_validator_new (sc_rust config)) (parse Rust) _ _ _ _ _ _ _ _ rust_implements Hs).
Qed.

Lemma check_expression_permitted env m e ws : check_expression (with_registry ord env registry analyzers) m e = Ok ws ->
  exists r, registry_validate registry (lang_as_str (m_language m)) e (m_safety_level m) = Ok r
    /\ permitted_expression (m_language m) (m_safety_level m) e
    /\ (m_safety_level m = Trusted -> none_found_impure (m_language m) (loc_file (m_location m)) r).
Proof.
  unfold check_expression. cbn [env_validate with_registry env_resolve_purity]. intros Hc. apply res_bind_ok in Hc as (r & Hr & Hc).
  exists r. split; [done|]. destruct (vr_is_safe r) eqn:Es; [|done]. cbn [negb] in Hc.
  destruct (registry_validate_safe _ _ _ _ Hr Es) as [Hh Hi]. split; [done|]. intros Ht a Ha Hready f Hf.
  rewrite Ht in Hc. rewrite bool_decide_true in Hc by done. cbn [andb] in Hc.
  destruct (decide (vr_unknown_functions r = [])) as [Hz|Hz]; [rewrite Hz in Hf; by apply elem_of_nil in Hf|]. rewrite bool_decide_false in Hc by done. cbn [negb] in Hc.
  unfold resolve_purity in Hc. rewrite Ha in Hc. destruct (an_ensure_ready a); [|done].
  destruct (resolve_safe ord Hord a (loc_file (m_location m)) r Es Hi) as [Hsafe _]. destruct (vr_is_safe (update_purity _)); [|done]. by apply Hsafe.
Qed.

(** C3: what the service accepts has passed the rules of its validator.  With the
    validator registry in the metric service: when a metric in Python, Go or Rust
    is added, every one of its expressions parses without errors and its tree has
    no forbidden construct (assignments, imports, deletions, unsafe blocks and the
    like); every function it calls is on the whitelist by its full name or by the
    last component of its name, or, at the trusted level only, is on the blacklist
    by neither (the whitelist comes first: a blacklisted function whose last
    component is whitelisted passes); every variable or attribute path that stands
    neither for the function of a call nor for the object of an attribute access
    or method call is on the configured variable whitelist or, without one, matches
    no sensitive pattern; and at the trusted level no function that is on neither
    list was found impure by a language server that was ready. *)
Theorem added_metrics_are_permitted {R A : Type} `{HR : MetricRepository R} `{HA : DapAdapter A} (env : Env) (m : Metric) (replace : bool)
  (content : option string) (s s' : Service R A) (out : OperationOutcome N)
  (Hlang : m_language m = Python \/ m_language m = Go \/ m_language m = Rust)
  (Hadd : add_metric (with_registry ord env registry analyzers) m replace content s = (s', Ok out)) :
  forall e, e ∈ m_expressions m ->
    permitted_expression (m_language m) (m_safety_level m) e
    /\ (m_safety_level m = Trusted -> exists r, registry_validate registry (lang_as_str (m_language m)) e Trusted = Ok r
          /\ none_found_impure (m_language m) (loc_file (m_location m)) r).
Proof.
  destruct (add_metric_checks (with_registry ord env registry analyzers) m replace content s) as [[e E]|(ws & Hv & _)].
  { cbn zeta in E. rewrite Hadd in E. discriminate. }
  unfold validate_metric in Hv. res_inv Hv. unfold validate_metric_fields in E. res_inv E. cbn [env_supports_language with_registry] in E.
  assert (supports_language registry (lang_as_str (m_language m)) = true) as Hsup by (destruct Hlang as [->|[->| ->]]; reflexivity).
  rewrite Hsup in E. res_inv E. intros e He.
  match goal with H : collect_results _ _ = Ok _ |- _ => apply collect_results_ok in H; rename H into Hall end.
  apply list_elem_of_lookup in He as [i Hi]. destruct (Forall2_lookup_l _ _ _ _ _ Hall Hi) as (w & _ & Hw).
  destruct (check_expression_permitted _ _ _ _ Hw) as (r & Hr & Hh & Ht). split; [done|]. intros Hl. exists r. split; [by rewrite <- Hl|by apply Ht].
Qed.
End Service.

(** ** Instances *)

Definition name_tree (x : string) : SyntaxTree := py_module x (leaf "identifier" None x).
Definition sample_registry : ValidatorRegistry := registry_new to_lowercase (fun l => l) (fun _ e => Some (name_tree e)) default_safety_config.

Lemma added_metrics_are_permitted_witness :
  permitted_expression to_lowercase (fun _ e => Some (name_tree e)) default_safety_config Python Strict "x".
Proof.
  set (env := with_registry (fun l => l) sample_env sample_registry (fun _ => None)).
  set (m := owned_metric "m1" "bob" "a.py" 3 ["x"]).
  destruct (add_metric env m false None (sample_service [])) as [s' [out|e]] eqn:E; [|by vm_compute in E].
  apply (added_metrics_are_permitted to_lowercase (fun l => l) (fun l => reflexivity l) (fun _ e => Some (name_tree e)) default_safety_config (fun _ => None)
    sample_env m false None (sample_service []) s' out (or_introl eq_refl) E "x"). left.
Defined.
