(* ===== verification/PurityCache.v ===== *)
(** * The purity cache

    The port [PurityCache] of [crates/detrix-ports/src/cache.rs], its SQLite
    implementation [crates/detrix-storage/src/purity_cache.rs] (the table
    [purity_cache] of [migrations/001_schema.sql], unique by function, file and
    content hash), and the two functions of [crates/detrix-lsp/src/cache.rs] that
    the purity analyzers use it through.

    Statements may fail, see [Sql].  The JSON library is an argument
    ([CallJson]); the digest of a file and the clock are arguments too. *)

From Stdlib Require Import Strings.String.
From stdpp Require Import gmap.
From S2P Require Import Prelude RustStr CoreError Sql SafetyValidator.

Local Open Scope string_scope.
Local Open Scope Z_scope.
Local Open Scope list_scope.

Record PurityCacheKey : Type := mkKey { ck_function_name : string; ck_file_path : string; ck_content_hash : string }.
#[export] Instance PurityCacheKey_eq_dec : EqDecision PurityCacheKey.
Proof. solve_decision. Defined.
#[export] Instance PurityCacheKey_countable : Countable PurityCacheKey.
Proof.
  refine (inj_countable' (fun k => (ck_function_name k, ck_file_path k, ck_content_hash k)) (fun p => mkKey p.1.1 p.1.2 p.2) _).
  by intros [].
Defined.

Record PurityCacheEntry : Type := mkEntry { ce_analysis : PurityAnalysis; ce_created_at : Z; ce_max_depth : N }.
Record PurityCacheStats : Type := mkStats { cs_entry_count : N; cs_hits : N; cs_misses : N }.

(** [serde_json] on the two columns that hold lists. *)
Class CallJson : Type := {
  calls_to_json : list ImpureCall -> result string string;
  calls_of_json : string -> result (list ImpureCall) string;
  names_to_json : list string -> result string string;
  names_of_json : string -> result (list string) string
}.
(** What is written is read back. *)
Class CallJsonLaws (J : CallJson) : Prop := {
  calls_json : forall l, exists s, calls_to_json l = Ok s /\ calls_of_json s = Ok l;
  names_json : forall l, exists s, names_to_json l = Ok s /\ names_of_json s = Ok l
}.

Definition parse_purity_level (s : string) : PurityLevel :=
  if String.eqb s "pure" then Pure else if String.eqb s "unknown" then UnknownPurity
  else if String.eqb s "impure" then Impure else UnknownPurity.
Definition purity_level_to_str (level : PurityLevel) : string :=
  match level with Pure => "pure" | UnknownPurity => "unknown" | Impure => "impure" end.

(** A row without its key; the two integers are SQL integers. *)
Record CacheRow : Type := mkCacheRow {
  cr_purity_level : string; cr_impure_calls_json : string; cr_unknown_calls_json : string;
  cr_max_depth_reached : Z; cr_max_depth_used : Z; cr_created_at : Z
}.
Notation CacheTable := (gmap PurityCacheKey CacheRow).
Record SqlitePurityCache : Type := mkCache { sc_db : Db CacheTable; sc_hits : N; sc_misses : N }.

(** [as i32] and [as u32]. *)
Definition u32_as_i32 (n : N) : Z := to_signed 32 n.
Definition i32_as_u32 (z : Z) : N := of_signed 32 z.

Definition unwrap_or {A E : Type} (d : A) (r : result A E) : A := match r with Ok a => a | Err _ => d end.

Section Sqlite.
Context {J : CallJson}.

Definition cache_new (db : Db CacheTable) : SqlitePurityCache := mkCache db 0 0.

Definition entry_of_row (r : CacheRow) : PurityCacheEntry :=
  mkEntry (mkPurityAnalysis (parse_purity_level (cr_purity_level r)) (unwrap_or [] (calls_of_json (cr_impure_calls_json r)))
             (unwrap_or [] (names_of_json (cr_unknown_calls_json r))) (negb (cr_max_depth_reached r =? 0)))
    (cr_created_at r) (i32_as_u32 (cr_max_depth_used r)).

Definition row_of_entry (e : PurityCacheEntry) : CacheRow :=
  let a := ce_analysis e in
  mkCacheRow (purity_level_to_str (pa_level a)) (unwrap_or "[]" (calls_to_json (pa_impure_calls a)))
    (unwrap_or "[]" (names_to_json (pa_unknown_calls a))) (if pa_max_depth_reached a then 1 else 0)
    (u32_as_i32 (ce_max_depth e)) (ce_created_at e).

(** [fetch_add(1)] on an [AtomicU64] wraps. *)
Definition cache_get (key : PurityCacheKey) (c : SqlitePurityCache) : SqlitePurityCache * result (option PurityCacheEntry) Error :=
  match statement (fun t : CacheTable => (t, t !! key)) (sc_db c) with
  | (db, Err e) => (mkCache db (sc_hits c) (sc_misses c), Err e)
  | (db, Ok (Some row)) => (mkCache db (wrap 64 (sc_hits c + 1)) (sc_misses c), Ok (Some (entry_of_row row)))
  | (db, Ok None) => (mkCache db (sc_hits c) (wrap 64 (sc_misses c + 1)), Ok None)
  end.

Definition on_db {A : Type} (k : CacheTable -> CacheTable * A) (c : SqlitePurityCache) : SqlitePurityCache * result A Error :=
  let '(db, r) := statement k (sc_db c) in (mkCache db (sc_hits c) (sc_misses c), r).

Definition cache_set (key : PurityCacheKey) (e : PurityCacheEntry) : SqlitePurityCache -> SqlitePurityCache * result unit Error :=
  on_db (fun t => (<[key := row_of_entry e]> t, tt)).
Definition cache_remove (key : PurityCacheKey) : SqlitePurityCache -> SqlitePurityCache * result bool Error :=
  on_db (fun t => (delete key t, bool_decide (is_Some (t !! key)))).
Definition in_file (file_path : string) (p : PurityCacheKey * CacheRow) : Prop := ck_file_path p.1 = file_path.
#[global] Instance in_file_dec file_path p : Decision (in_file file_path p).
Proof. unfold in_file. apply _. Defined.
Definition cache_invalidate_file (file_path : string) : SqlitePurityCache -> SqlitePurityCache * result N Error :=
  on_db (fun t => (filter (fun p => ~ in_file file_path p) t, N.of_nat (size (filter (in_file file_path) t)))).
Definition cache_clear (c : SqlitePurityCache) : SqlitePurityCache * result N Error :=
  match on_db (fun t => (∅, N.of_nat (size t))) c with
  | (c', Ok n) => (mkCache (sc_db c') 0 0, Ok n)
  | (c', Err e) => (c', Err e)
  end.
Definition cache_stats (c : SqlitePurityCache) : SqlitePurityCache * result PurityCacheStats Error :=
  match on_db (fun t => (t, N.of_nat (size t))) c with
  | (c', Ok n) => (c', Ok (mkStats n (sc_hits c') (sc_misses c')))
  | (c', Err e) => (c', Err e)
  end.
End Sqlite.

(** ** The port *)

(** [PurityCache], for the operations the analyzers use. *)
Class PurityCache (S : Type) : Type := {
  pc_get : PurityCacheKey -> S -> S * result (option PurityCacheEntry) Error;
  pc_set : PurityCacheKey -> PurityCacheEntry -> S -> S * result unit Error
}.
(** What the analyzers rely on.  [view] is what a cache holds; a look-up answers
    from it and does not change it, a store that succeeds puts one entry in, one
    that fails changes nothing. *)
Class PurityCacheLaws (S : Type) `{PurityCache S} (view : S -> PurityCacheKey -> option PurityCacheEntry) : Prop := {
  get_view : forall k s s' r, pc_get k s = (s', Ok r) -> r = view s k;
  get_keeps : forall k s k', view (pc_get k s).1 k' = view s k';
  set_view : forall k e s s', pc_set k e s = (s', Ok tt) -> (ce_max_depth e < 2 ^ 32)%N ->
    forall k', view s' k' = if bool_decide (k' = k) then Some e else view s k';
  set_failed : forall k e s s' err, pc_set k e s = (s', Err err) -> forall k', view s' k' = view s k'
}.

#[export] Instance sqlite_purity_cache `{CallJson} : PurityCache SqlitePurityCache := { pc_get := cache_get; pc_set := cache_set }.

Definition sqlite_view `{CallJson} (c : SqlitePurityCache) (k : PurityCacheKey) : option PurityCacheEntry :=
  entry_of_row <$> db_data (sc_db c) !! k.

(** ** The functions of the analyzers *)

Section Analyzers.
Context {S : Type} `{PurityCache S}.
(** [file_hash path]: the SHA-256 of the file as text, if it can be read. *)
Context (file_hash : string -> result string string).

Definition get_cached (cache_enabled : bool) (cache : option S) (function_name file_path : string) : option S * option PurityAnalysis :=
  if negb cache_enabled then (cache, None)
  else match cache with
       | None => (None, None)
       | Some c =>
           match file_hash file_path with
           | Err _ => (Some c, None)
           | Ok content_hash =>
               match pc_get (mkKey function_name file_path content_hash) c with
               | (c', Ok (Some e)) => (Some c', Some (ce_analysis e))
               | (c', _) => (Some c', None)
               end
           end
       end.

Definition cache_result (cache_enabled : bool) (max_call_depth : N) (now : Z) (cache : option S) (function_name file_path : string)
  (analysis : PurityAnalysis) : option S :=
  if negb cache_enabled then cache
  else match cache with
       | None => None
       | Some c =>
           match file_hash file_path with
           | Err _ => Some c
           | Ok content_hash =>
               Some (pc_set (mkKey function_name file_path content_hash) (mkEntry analysis now (wrap 32 max_call_depth)) c).1
           end
       end.
End Analyzers.

(** ** Lemmas *)

Lemma parse_level_to_str l : parse_purity_level (purity_level_to_str l) = l.
Proof. by destruct l. Qed.

Lemma i32_u32_roundtrip n : (n < 2 ^ 32)%N -> i32_as_u32 (u32_as_i32 n) = n.
Proof.
  intros H. unfold i32_as_u32, u32_as_i32, of_signed, to_signed. assert (Z.of_N n < 2 ^ 32) by lia.
  destruct (n <? _)%N eqn:E.
  - rewrite Z.mod_small; lia.
  - apply N.ltb_ge in E. cbn in *.
    replace (Z.of_N n - _) with (Z.of_N n + (-1) * 4294967296) by lia. rewrite Z.mod_add by lia. rewrite Z.mod_small; lia.
Qed.

Lemma entry_roundtrip `{CallJsonLaws} e : (ce_max_depth e < 2 ^ 32)%N -> entry_of_row (row_of_entry e) = e.
Proof.
  intros He. destruct e as [[l ic uc m] t d]. unfold entry_of_row, row_of_entry. cbn -[parse_purity_level i32_as_u32 u32_as_i32] in *.
  destruct (calls_json ic) as (s1 & -> & E1), (names_json uc) as (s2 & -> & E2). cbn. rewrite E1, E2. cbn.
  rewrite parse_level_to_str, i32_u32_roundtrip by done. by destruct m.
Qed.

(** The SQLite cache keeps the port's promises, with or without failures. *)
#[export] Instance sqlite_purity_cache_laws `{CallJsonLaws} : PurityCacheLaws SqlitePurityCache sqlite_view.
Proof.
  split.
  - intros k [db h m] s' r. cbn. unfold cache_get, statement, sqlite_view. cbn.
    destruct (db_faults db) as [|[] fs]; cbn; try done; destruct (db_data db !! k); intros [= <- <-]; done.
  - intros k [db h m] k'. cbn. unfold cache_get, statement, sqlite_view. cbn.
    destruct (db_faults db) as [|[] fs]; cbn; try done; destruct (db_data db !! k); done.
  - intros k e [db h m] s' Hs He k'. revert Hs. cbn. unfold cache_set, on_db, statement, sqlite_view. cbn.
    assert (forall t : CacheTable, entry_of_row <$> ((<[k := row_of_entry e]> t : CacheTable) !! k') = if bool_decide (k' = k) then Some e else entry_of_row <$> (t !! k')) as Hv.
    { intros t. case_bool_decide; [subst; rewrite lookup_insert_eq; cbn; by rewrite entry_roundtrip|by rewrite lookup_insert_ne]. }
    destruct (db_faults db) as [|[] fs]; cbn; try done; intros [= <-]; cbn; apply Hv.
  - intros k e [db h m] s' err. cbn. unfold cache_set, on_db, statement, sqlite_view. cbn.
    destruct (db_faults db) as [|[] fs]; cbn; try done. by intros [= <- _].
Qed.
