(* ===== verification/CallGraph.v ===== *)
(** * Purity of functions by their call graph

    [crates/detrix-lsp/src/base.rs], [error.rs] and the part of [protocol.rs] they
    use: the two searches behind every purity analyzer.  [traverse_call_hierarchy]
    walks the calls that a language server reports; [analyze_function_recursively]
    walks the calls found in the text of function bodies.  What depends on the
    language is the trait [LanguageAnalyzer], a record here; the language server
    is an argument: whether a client is available and the reply to each request,
    with the values of the replies already decoded or not decodable.

    Both searches recurse with a depth that grows until it exceeds
    [max_call_depth]; the definitions recurse on what is [remaining] of it, that is
    [max_call_depth + 1 - depth], and stop at zero where the code stops. *)

From Stdlib Require Import Strings.String.
From stdpp Require Import gmap.
From S2P Require Import Prelude RustStr CoreError SafetyValidator PurityCache.

Local Open Scope string_scope.
Local Arguments String.append !_ _ / : simpl nomatch.

Definition is_empty {A : Type} (l : list A) : bool := match l with [] => true | _ :: _ => false end.

(** ** Errors *)

Inductive LspError : Type :=
| ServerStartFailed (m : string) | ServerNotAvailable (m : string) | ConnectionFailed (m : string) | LspTimeout (ms : N)
| LspProtocol (m : string) | LspRpc (code : Z) (message : string) | CallHierarchyNotSupported | LspFileNotFound (m : string)
| FunctionNotFound (function file : string) | MaxDepthExceeded (n : N) | LspIo (m : string) | LspJson (m : string) | LspUtf8 (m : string).

Definition lsp_error_display (e : LspError) : string :=
  match e with
  | ServerStartFailed m => "Failed to start LSP server: " ++ m
  | ServerNotAvailable m => "LSP server not available: " ++ m
  | ConnectionFailed m => "Connection failed: " ++ m
  | LspTimeout ms => "Request timed out after " ++ show_N ms ++ "ms"
  | LspProtocol m => "Protocol error: " ++ m
  | LspRpc code m => "LSP error " ++ show_Z code ++ ": " ++ m
  | CallHierarchyNotSupported => "Call hierarchy not supported by LSP server"
  | LspFileNotFound m => "File not found: " ++ m
  | FunctionNotFound f file => "Function '" ++ f ++ "' not found in " ++ file
  | MaxDepthExceeded n => "Maximum call depth (" ++ show_N n ++ ") exceeded"
  | LspIo m => "IO error: " ++ m
  | LspJson m => "JSON error: " ++ m
  | LspUtf8 m => "Invalid UTF-8 in response: " ++ m
  end.
Definition core_of_lsp (e : LspError) : Error := Safety (lsp_error_display e).

(** ** Messages *)

Record Position : Type := mkPosition { pos_line : N; pos_character : N }.
Record Range : Type := mkRange { rg_start : Position; rg_end : Position }.
Record CallHierarchyItem : Type := mkItem {
  ci_name : string; ci_kind : N; ci_tags : option (list N); ci_detail : option string; ci_uri : string;
  ci_range : Range; ci_selection_range : Range; ci_data : option string
}.
Record CallHierarchyOutgoingCall : Type := mkCall { oc_to : CallHierarchyItem; oc_from_ranges : list Range }.

(** [LspResponse::into_result] and [serde_json::from_value] on its value: an
    error object, [null] (or no result), a value of the expected shape, or
    another value. *)
Inductive Reply (A : Type) : Type :=
| ReplyError (code : Z) (message : string) | ReplyNull | ReplyValue (a : A) | ReplyOther (json_error : string).
Arguments ReplyError {A} _ _.
Arguments ReplyNull {A}.
Arguments ReplyValue {A} _.
Arguments ReplyOther {A} _.

Record LanguageServer : Type := mkServer {
  ls_ensure_started : result unit LspError;
  ls_client : result bool LspError;
  ls_prepare : string -> Position -> result (Reply (list CallHierarchyItem)) LspError;
  ls_outgoing : CallHierarchyItem -> result (Reply (list CallHierarchyOutgoingCall)) LspError
}.

(** ** What a language contributes *)

Record ExtractedFunction : Type := mkExtracted {
  ef_body : string; ef_parameters : list string; ef_mutable_params : list string; ef_is_mut_self : bool; ef_receiver : option string
}.
Definition extracted_new (body : string) (parameters : list string) : ExtractedFunction := mkExtracted body parameters [] false None.
Definition with_receiver (r : option string) (f : ExtractedFunction) : ExtractedFunction :=
  mkExtracted (ef_body f) (ef_parameters f) (ef_mutable_params f) (ef_is_mut_self f) r.
Definition with_mutable_params (ps : list string) (f : ExtractedFunction) : ExtractedFunction :=
  mkExtracted (ef_body f) (ef_parameters f) ps (ef_is_mut_self f) (ef_receiver f).
Definition with_mut_self (b : bool) (f : ExtractedFunction) : ExtractedFunction :=
  mkExtracted (ef_body f) (ef_parameters f) (ef_mutable_params f) b (ef_receiver f).

Record BodyAnalysisResult : Type := mkBody { br_is_pure : bool; br_impure_calls : list ImpureCall; br_user_function_calls : list string }.

(** [extract_function] reads the file of the path it is given.  The functions on
    texts may panic. *)
Record LanguageAnalyzer : Type := mkAnalyzer {
  la_classify_function : string -> PurityLevel;
  la_extract_function : string -> string -> run (result ExtractedFunction LspError);
  la_analyze_body : ExtractedFunction -> run BodyAnalysisResult
}.

(** A loop over a list that updates a state. *)
Fixpoint run_fold {A S : Type} (f : S -> A -> run S) (l : list A) (s : S) : run S :=
  match l with [] => Ret s | a :: l => let! s := f s a in run_fold f l s end.

Record LspConfig : Type := mkLspConfig { lc_enabled : bool; lc_max_call_depth : N; lc_cache_enabled : bool }.

Section Base.
Context (srv : LanguageServer) (an : LanguageAnalyzer) (config : LspConfig).

Definition get_client : result unit LspError :=
  let? c := ls_client srv in if c then Ok tt else Err (ServerNotAvailable "No LSP client available").

Definition METHOD_NOT_FOUND : Z := -32601.
Definition prepare_call_hierarchy (file_path : string) (line character : N) : result (option (list CallHierarchyItem)) LspError :=
  let? _ := get_client in
  let? reply := ls_prepare srv ("file://" ++ file_path) (mkPosition line character) in
  match reply with
  | ReplyError code m => if (code =? METHOD_NOT_FOUND)%Z then Ok None else Err (LspRpc code m)
  | ReplyNull => Ok (Some [])
  | ReplyValue items => Ok (Some items)
  | ReplyOther e => Err (LspJson e)
  end.

Definition get_outgoing_calls (item : CallHierarchyItem) : result (list CallHierarchyOutgoingCall) LspError :=
  let? _ := get_client in
  let? reply := ls_outgoing srv item in
  match reply with
  | ReplyError code m => Err (LspRpc code m)
  | ReplyNull => Ok []
  | ReplyValue calls => Ok calls
  | ReplyOther e => Err (LspJson e)
  end.

(** ** The search over the server's call graph *)

Definition item_key (item : CallHierarchyItem) : string := ci_uri item ++ ":" ++ ci_name item.
Definition arrow (a b : string) : string := a ++ " -> " ++ b.
Definition known_impure (name path : string) : ImpureCall := mkImpureCall name "Known impure function" path.
Definition extend_path (name : string) (c : ImpureCall) : ImpureCall :=
  mkImpureCall (ic_function_name c) (ic_reason c) (arrow name (ic_call_path c)).

Notation Visited := (gset string).
Definition search_start : PurityAnalysis := pure_analysis.

(** The body of the loop over the outgoing calls; [rec] is the recursive call. *)
Definition visit_call (rec : CallHierarchyItem -> Visited -> PurityAnalysis * Visited) (name : string)
  (acc : PurityAnalysis * Visited) (call : CallHierarchyOutgoingCall) : PurityAnalysis * Visited :=
  let '(a, visited) := acc in
  let called_name := ci_name (oc_to call) in
  match la_classify_function an called_name with
  | Impure => (mkPurityAnalysis (purity_combine (pa_level a) Impure)
                 (pa_impure_calls a ++ [known_impure called_name (arrow name called_name)])%list (pa_unknown_calls a)
                 (pa_max_depth_reached a), visited)
  | Pure => acc
  | UnknownPurity =>
      let '(sub, visited) := rec (oc_to call) visited in
      let max_depth_reached := if pa_max_depth_reached sub then true else pa_max_depth_reached a in
      match pa_level sub with
      | Impure => (mkPurityAnalysis (purity_combine (pa_level a) Impure)
                     (pa_impure_calls a ++ map (extend_path name) (pa_impure_calls sub))%list (pa_unknown_calls a)
                     max_depth_reached, visited)
      | UnknownPurity => (mkPurityAnalysis (purity_combine (pa_level a) UnknownPurity) (pa_impure_calls a)
                            (pa_unknown_calls a ++ pa_unknown_calls sub)%list max_depth_reached, visited)
      | Pure => (mkPurityAnalysis (pa_level a) (pa_impure_calls a) (pa_unknown_calls a) max_depth_reached, visited)
      end
  end.

Definition outgoing_or_none (item : CallHierarchyItem) : list CallHierarchyOutgoingCall :=
  match get_outgoing_calls item with Ok calls => calls | Err _ => [] end.

Fixpoint traverse_call_hierarchy (remaining : nat) (item : CallHierarchyItem) (visited : Visited) : PurityAnalysis * Visited :=
  match remaining with
  | O => (mkPurityAnalysis UnknownPurity [] ["Max depth " ++ show_N (lc_max_call_depth config) ++ " reached"] true, visited)
  | S remaining =>
      if bool_decide (item_key item ∈ visited) then (pure_analysis, visited)
      else fold_left (visit_call (traverse_call_hierarchy remaining) (ci_name item)) (outgoing_or_none item)
             (search_start, {[item_key item]} ∪ visited)
  end.

Definition depth_allowance : nat := S (N.to_nat (lc_max_call_depth config)).

(** ** The search over function bodies *)

(** The four mutable arguments of the recursion. *)
Record BodySearch : Type := mkSearch {
  bs_visited : Visited; bs_impure : list ImpureCall; bs_unknown : list string; bs_max_depth_reached : bool
}.
Definition function_key (file_path function_name : string) : string := file_path ++ ":" ++ function_name.

Fixpoint analyze_function_recursively (remaining : nat) (file_path function_name call_path : string) (s : BodySearch) : run BodySearch :=
  match remaining with
  | O => Ret (mkSearch (bs_visited s) (bs_impure s) (bs_unknown s) true)
  | S remaining =>
      let key := function_key file_path function_name in
      if bool_decide (key ∈ bs_visited s) then Ret s
      else
        let s := mkSearch ({[key]} ∪ bs_visited s) (bs_impure s) (bs_unknown s) (bs_max_depth_reached s) in
        let! extracted := la_extract_function an function_name file_path in
        match extracted with
        | Err _ => Ret (mkSearch (bs_visited s) (bs_impure s) (bs_unknown s ++ [function_name])%list (bs_max_depth_reached s))
        | Ok extracted =>
            let! body := la_analyze_body an extracted in
            let s := mkSearch (bs_visited s)
                       (bs_impure s ++ map (fun c => mkImpureCall (ic_function_name c) (ic_reason c) (arrow call_path (ic_function_name c)))
                                         (br_impure_calls body))%list (bs_unknown s) (bs_max_depth_reached s) in
            run_fold (fun s f => analyze_function_recursively remaining file_path f (arrow call_path f) s) (br_user_function_calls body) s
        end
  end.

Definition search_level (s : BodySearch) : PurityLevel :=
  match bs_impure s with
  | _ :: _ => Impure
  | [] => if negb (is_empty (bs_unknown s)) || bs_max_depth_reached s then UnknownPurity else Pure
  end.
Definition empty_search : BodySearch := mkSearch ∅ [] [] false.
Definition search_analysis (s : BodySearch) : PurityAnalysis :=
  mkPurityAnalysis (search_level s) (bs_impure s) (bs_unknown s) (bs_max_depth_reached s).
Definition analyze_function_body_for_purity (function_name file_path : string) : run PurityAnalysis :=
  run_map search_analysis (analyze_function_recursively depth_allowance file_path function_name function_name empty_search).

(** ** The entry points *)

Definition classified (function_name : string) (c : PurityLevel) : PurityAnalysis :=
  mkPurityAnalysis c (match c with Impure => [known_impure function_name function_name] | _ => [] end) [] false.

Definition by_name (function_name : string) (i : CallHierarchyItem) : bool := String.eqb (ci_name i) function_name.

(** [analyze_with_call_hierarchy] without the calls of the cache: every result
    it returns is also stored. *)
Definition analyze_uncached (function_name file_path : string) : run (result PurityAnalysis Error) :=
  match la_classify_function an function_name with
  | (Pure | Impure) as c => Ret (Ok (classified function_name c))
  | UnknownPurity =>
      match ls_ensure_started srv with
      | Err e => Ret (Err (core_of_lsp e))
      | Ok _ =>
          match prepare_call_hierarchy file_path 0 0 with
          | Ok None | Err _ => run_map Ok (analyze_function_body_for_purity function_name file_path)
          | Ok (Some items) =>
              match List.find (by_name function_name) items with
              | None => run_map Ok (analyze_function_body_for_purity function_name file_path)
              | Some item =>
                  let result := (traverse_call_hierarchy depth_allowance item ∅).1 in
                  if is_empty (pa_impure_calls result) && is_empty (pa_unknown_calls result) && bool_decide (pa_level result = Pure)
                  then let! body_analysis := analyze_function_body_for_purity function_name file_path in
                       if negb (is_empty (pa_impure_calls body_analysis)) then Ret (Ok body_analysis) else Ret (Ok result)
                  else Ret (Ok result)
              end
          end
      end
  end.

Section Cached.
Context {S : Type} `{PurityCache S} (file_hash : string -> result string string) (now : Z).

Definition analyze_with_call_hierarchy (function_name file_path : string) (cache : option S) : run (option S * result PurityAnalysis Error) :=
  let! r := analyze_uncached function_name file_path in
  match r with
  | Err e => Ret (cache, Err e)
  | Ok analysis =>
      Ret (cache_result file_hash (lc_cache_enabled config) (lc_max_call_depth config) now cache function_name file_path analysis, Ok analysis)
  end.

(** An analysis whose time has expired is dropped before it stores anything. *)
Definition analyze_with_timeout (expires : bool) (function_name file_path : string) (cache : option S) : run (option S * result PurityAnalysis Error) :=
  match get_cached file_hash (lc_cache_enabled config) cache function_name file_path with
  | (cache, Some cached) => Ret (cache, Ok cached)
  | (cache, None) => if expires then Ret (cache, Ok (unknown_analysis [])) else analyze_with_call_hierarchy function_name file_path cache
  end.
End Cached.
End Base.
