(* ===== verification/CallGraphOutcomes.v ===== *)
(** * What the call-graph searches find

    The verdicts of [CallGraph] against the graph itself: a graph of functions
    whose edges are the calls followed, and the known impure calls at its nodes.
    A search keeps a set of visited keys and stops at a depth; the lemmas on the
    searches say that the keys it adds are closed under calls when the verdict is
    [Pure], that every reported call lies on a path, and that [UnknownPurity]
    comes from a long chain of different functions (or, for bodies, a function
    that cannot be found). *)

From Stdlib Require Import Strings.String.
From stdpp Require Import gmap relations.
From S2P Require Import Prelude RustStr CoreError SafetyValidator PurityCache CallGraph.

Local Open Scope string_scope.
Local Open Scope list_scope.

(** A walk through a graph, node by node. *)
Fixpoint is_chain {A : Type} (edge : A -> A -> Prop) (p : list A) : Prop :=
  match p with
  | i :: ((j :: _) as q) => edge i j /\ is_chain edge q
  | _ => True
  end.

Section Chains.
Context {A : Type} (edge : A -> A -> Prop) (key : A -> string).

(** [q] followed by [j] is a chain from [i] of [n] different nodes outside [v]. *)
Definition long_chain (n : nat) (v : gset string) (i : A) : Prop :=
  exists q j, is_chain edge (q ++ [j]) /\ head (q ++ [j]) = Some i /\ length q = n /\ NoDup (key <$> q) /\ Forall (fun x => key x ∉ v) q.

Lemma long_chain_zero v i : long_chain 0 v i.
Proof. exists [], i. repeat split; constructor. Qed.

Lemma long_chain_step n v v' i j : edge i j -> key i ∉ v -> {[key i]} ∪ v ⊆ v' -> long_chain n v' j -> long_chain (S n) v i.
Proof.
  intros He Hi Hv (q & k & Hc & Hh & Hl & Hnd & Hq). rewrite list.Forall_forall in Hq. exists (i :: q), k. repeat split; [|cbn; lia| |].
  - cbn. destruct (q ++ [k]) eqn:E; [done|]. injection Hh as ->. done.
  - cbn. constructor; [|done]. intros Hin. apply list_elem_of_fmap in Hin as (x & Ex & Hx). apply (Hq x Hx). rewrite <- Ex. set_solver.
  - constructor; [done|]. apply list.Forall_forall. intros x Hx. specialize (Hq x Hx). set_solver.
Qed.
End Chains.

Section Server.
Context (srv : LanguageServer) (an : LanguageAnalyzer) (config : LspConfig).
Notation calls := (outgoing_or_none srv).
Notation class c := (la_classify_function an (ci_name (oc_to c))).
Notation traverse := (traverse_call_hierarchy srv an config).

(** The server's answer to the request for the calls of [i] names [c]; a request
    that fails names none. *)
Definition names_call (i : CallHierarchyItem) (c : CallHierarchyOutgoingCall) : Prop :=
  exists cs, get_outgoing_calls srv i = Ok cs /\ c ∈ cs.
Lemma calls_named i c : c ∈ calls i <-> names_call i c.
Proof.
  unfold outgoing_or_none, names_call. destruct (get_outgoing_calls srv i) as [cs|e]; [split; [by exists cs|by intros (? & [= <-] & ?)]|].
  split; [by intros ?%elem_of_nil|by intros (? & ? & _)].
Qed.

(** A call that is followed, and a known impure one. *)
Definition follows (i j : CallHierarchyItem) : Prop := exists c, names_call i c /\ oc_to c = j /\ class c = UnknownPurity.
Definition calls_impure (i : CallHierarchyItem) : Prop := exists c, names_call i c /\ class c = Impure.

(** The reported calls that a path from [i] accounts for, with their texts. *)
Inductive impure_path : CallHierarchyItem -> ImpureCall -> Prop :=
| path_here i c : names_call i c -> class c = Impure ->
    impure_path i (known_impure (ci_name (oc_to c)) (arrow (ci_name i) (ci_name (oc_to c))))
| path_there i c ic : names_call i c -> class c = UnknownPurity -> impure_path (oc_to c) ic ->
    impure_path i (extend_path (ci_name i) ic).

Lemma impure_path_reach i ic : impure_path i ic -> exists j, rtc follows i j /\ calls_impure j.
Proof.
  induction 1 as [i c Hc Hk|i c ic Hc Hk _ (j & Hr & Hj)]; [exists i; split; [done|by exists c]|].
  exists j. split; [|done]. eapply rtc_l; [|exact Hr]. by exists c.
Qed.

(** All calls of [i] have been dealt with. *)
Definition settled (v : gset string) (i : CallHierarchyItem) : Prop :=
  forall c, c ∈ calls i -> class c <> Impure /\ (class c = UnknownPurity -> item_key (oc_to c) ∈ v).

Lemma settled_mono v v' i : v ⊆ v' -> settled v i -> settled v' i.
Proof. intros Hv H c Hc. destruct (H c Hc). split; [done|]. set_solver. Qed.

Definition consistent (a : PurityAnalysis) : Prop :=
  (pa_level a = Impure <-> pa_impure_calls a <> []) /\ (pa_level a = UnknownPurity -> pa_max_depth_reached a = true).

(** What one search promises, and the loop over the calls of [i] from it. *)
Definition search_ok (n : nat) (rec : CallHierarchyItem -> gset string -> PurityAnalysis * gset string) : Prop :=
  forall i v a v', rec i v = (a, v') ->
    v ⊆ v' /\ consistent a /\ Forall (impure_path i) (pa_impure_calls a) /\
    (pa_level a = UnknownPurity -> long_chain follows item_key n v i) /\
    (pa_level a = Pure -> (forall i j, item_key i = item_key j -> calls i = calls j) ->
       item_key i ∈ v' /\ forall j, item_key j ∈ v' -> item_key j ∉ v -> settled v' j).

Lemma combine_pure a b : purity_combine a b = Pure <-> a = Pure /\ b = Pure.
Proof. destruct a, b; cbn; naive_solver. Qed.

Lemma combine_impure a : purity_combine a Impure = Impure.
Proof. by destruct a. Qed.

Lemma visit_calls_ok n rec i v0 : search_ok n rec -> forall cs, (forall c, c ∈ cs -> c ∈ calls i) -> forall a v a' v', v0 ⊆ v ->
  fold_left (visit_call an rec (ci_name i)) cs (a, v) = (a', v') ->
  consistent a -> Forall (impure_path i) (pa_impure_calls a) ->
  (pa_level a = UnknownPurity -> exists j v1, follows i j /\ v0 ⊆ v1 /\ long_chain follows item_key n v1 j) ->
  v ⊆ v' /\ consistent a' /\ Forall (impure_path i) (pa_impure_calls a') /\
  (pa_level a' = UnknownPurity -> exists j v1, follows i j /\ v0 ⊆ v1 /\ long_chain follows item_key n v1 j) /\
  (pa_level a' = Pure -> pa_level a = Pure /\ ((forall i j, item_key i = item_key j -> calls i = calls j) ->
     (forall c, c ∈ cs -> class c <> Impure /\ (class c = UnknownPurity -> item_key (oc_to c) ∈ v')) /\
     forall j, item_key j ∈ v' -> item_key j ∉ v -> settled v' j)).
Proof.
  intros Hrec. induction cs as [|c cs IH]; intros Hcs a v a' v' Hv; cbn.
  { intros [= <- <-] H1 H2 H3. do 4 (split; [done|]). intros HP. split; [done|]. intros _. split; [intros c Hc; inversion Hc|done]. }
  assert (c ∈ calls i) as Hc by (apply Hcs; left). assert (forall c, c ∈ cs -> c ∈ calls i) as Hcs' by (intros; apply Hcs; by right).
  destruct (class c) eqn:Ec.
  - intros Hf H1 H2 H3. destruct (IH Hcs' _ _ _ _ Hv Hf H1 H2 H3) as (E1 & E2 & E3 & E4 & E5). do 4 (split; [done|]).
    intros HP. destruct (E5 HP) as [? E6]. split; [done|]. intros Hk. destruct (E6 Hk) as [E7 E8]. split; [|done].
    intros d [->|Hd]%elem_of_cons; [split; congruence|by apply E7].
  - destruct (rec (oc_to c) v) as [sub v1] eqn:Er. destruct (Hrec _ _ _ _ Er) as (R1 & (R2a & R2b) & R3 & R4 & R5).
    intros Hf [H1a H1b] H2 H3.
    pose proof (proj1 (calls_named i c) Hc) as Hnc. assert (follows i (oc_to c)) as Hfo by by exists c.
    destruct (pa_level sub) eqn:Es.
    + apply IH in Hf as (E1 & E2 & E3 & E4 & E5); [|done|set_solver|split; [exact H1a|intros E; cbn in *; destruct (pa_max_depth_reached sub); auto]|done|done].
      split; [set_solver|]. do 3 (split; [done|]). intros HP. destruct (E5 HP) as [HPa E6]. split; [exact HPa|]. intros Hk.
      destruct (E6 Hk) as [E7 E8]. destruct (R5 eq_refl Hk) as [Rk Rs]. split.
      * intros d [->|Hd]%elem_of_cons; [split; [congruence|set_solver]|by apply E7].
      * intros j Hj Hj'. destruct (decide (item_key j ∈ v1)) as [Hin|Hni]; [|by apply E8]. apply (settled_mono v1); [done|by apply Rs].
    + apply IH in Hf as (E1 & E2 & E3 & E4 & E5); [|done|set_solver| |done|].
      * split; [set_solver|]. do 3 (split; [done|]). intros HP. destruct (E5 HP) as [HPa _]. by apply combine_pure in HPa as [_ ?].
      * split; cbn; [rewrite <- H1a; destruct (pa_level a); naive_solver|]. intros _. by rewrite (R2b eq_refl).
      * intros _. exists (oc_to c), v. split; [done|]. split; [done|]. by apply R4.
    + apply IH in Hf as (E1 & E2 & E3 & E4 & E5); [|done|set_solver| | |].
      * split; [set_solver|]. do 3 (split; [done|]). intros HP. destruct (E5 HP) as [HPa _]. by apply combine_pure in HPa as [_ ?].
      * split; cbn; rewrite combine_impure; [|done]. split; [|done]. intros _ E. apply app_eq_nil in E as [_ E]. apply map_eq_nil in E.
        by apply (proj1 R2a eq_refl).
      * cbn. apply Forall_app. split; [done|]. apply Forall_map. eapply list.Forall_impl; [exact R3|]. intros ic Hic. by eapply path_there.
      * cbn. by rewrite combine_impure.
  - intros Hf [H1a H1b] H2 H3. apply IH in Hf as (E1 & E2 & E3 & E4 & E5); [|done|done| | |].
    + do 4 (split; [done|]). intros HP. destruct (E5 HP) as [HPa _]. by apply combine_pure in HPa as [_ ?].
    + split; cbn; rewrite combine_impure; [|done]. split; [|done]. intros _ E. by apply app_eq_nil in E as [_ E].
    + cbn. apply Forall_app. split; [done|]. constructor; [|done]. apply path_here; [by apply calls_named|done].
    + cbn. by rewrite combine_impure.
Qed.

Lemma traverse_ok n : search_ok n (traverse n).
Proof.
  induction n as [|n IH]; intros i v a v'; cbn -[outgoing_or_none].
  { intros [= <- <-]. split; [done|]. split; [by split|]. split; [constructor|]. split; [intros _; apply long_chain_zero|done]. }
  case_bool_decide as Hi.
  { intros [= <- <-]. split; [done|]. split; [by split|]. split; [constructor|]. split; [done|]. intros _ _. by split. }
  intros Hf. apply (visit_calls_ok n (traverse n) i ({[item_key i]} ∪ v)) in Hf as (E1 & E2 & E3 & E4 & E5); try done.
  split; [set_solver|]. do 2 (split; [done|]). split.
  - intros HU. destruct (E4 HU) as (j & v1 & Hj & Hv1 & Hch). by eapply long_chain_step.
  - intros HP Hk. destruct (E5 HP) as [_ E6]. destruct (E6 Hk) as [E7 E8]. split; [set_solver|].
    intros j Hj Hj'. destruct (decide (item_key j = item_key i)) as [Eq|Ne]; [|apply E8; set_solver].
    intros c Hc. rewrite (Hk _ _ Eq) in Hc. by apply E7.
Qed.

(** A closed set of keys contains all that is reachable. *)
Lemma settled_reach v : (forall j, item_key j ∈ v -> settled v j) -> forall i j, rtc follows i j -> item_key i ∈ v -> item_key j ∈ v.
Proof.
  intros Hs i j Hr. induction Hr as [|i k j (c & Hc%calls_named & <- & Hk) _ IH]; [done|]. intros Hi. apply IH. by apply (Hs i Hi).
Qed.

(** C32: the verdict of the search over the server's answers.  The calls of a function
    are those that the server's answer to [outgoingCalls] names; a request that
    fails names none and is passed over in silence, so a function for which it
    fails counts as one without calls ([failed_request_is_pure]), and nothing is
    said about what such a function does.  With that, where the keys under which
    functions are remembered identify their calls: [Pure] only if no call known to
    be impure is named by an answer for any function reached from the item
    through answers; [Impure] exactly when calls are reported, each
    of them at the end of a path of named calls whose names are its text; [UnknownPurity] only when
    some chain of more than [max_call_depth] different functions starts at the
    item. *)
Theorem call_graph_verdict (item : CallHierarchyItem) (a : PurityAnalysis) (v : gset string) :
  traverse (depth_allowance config) item ∅ = (a, v) ->
  (forall i j, item_key i = item_key j -> calls i = calls j) ->
  (pa_level a = Pure -> forall j, rtc follows item j -> ~ calls_impure j) /\
  (pa_level a = Impure <-> pa_impure_calls a <> []) /\ Forall (impure_path item) (pa_impure_calls a) /\
  (pa_level a = UnknownPurity -> long_chain follows item_key (depth_allowance config) ∅ item).
Proof.
  intros Ht Hk. destruct (traverse_ok _ _ _ _ _ Ht) as (_ & [H1 _] & H2 & H3 & H4). split; [|done].
  intros HP j Hr (c & Hc%calls_named & Hi). destruct (H4 HP Hk) as [Hin Hs].
  assert (forall j, item_key j ∈ v -> settled v j) as Hs' by (intros; apply Hs; set_solver).
  by apply (Hs' j (settled_reach v Hs' _ _ Hr Hin) c Hc).
Qed.
End Server.

(** ** Function bodies *)

Section Bodies.
Context (an : LanguageAnalyzer) (config : LspConfig) (path : string).
Notation search := (analyze_function_recursively an).
Notation key := (function_key path).

(** The analysis of one body; none when the function is not found. *)
Definition body_of (f : string) : run (option BodyAnalysisResult) :=
  let! r := la_extract_function an f path in
  match r with Ok e => run_map Some (la_analyze_body an e) | Err _ => Ret None end.
(** [g] is among the user functions that the body of [f] calls. *)
Definition body_calls (f g : string) : Prop := exists b, body_of f = Ret (Some b) /\ g ∈ br_user_function_calls b.

(** The reported calls that a path from [f] accounts for; [cp] is the text of
    the path so far. *)
Inductive body_path : string -> string -> ImpureCall -> Prop :=
| bpath_here f cp b c : body_of f = Ret (Some b) -> c ∈ br_impure_calls b ->
    body_path f cp (mkImpureCall (ic_function_name c) (ic_reason c) (arrow cp (ic_function_name c)))
| bpath_there f cp g ic : body_calls f g -> body_path g (arrow cp g) ic -> body_path f cp ic.

Definition body_settled (v : gset string) (f : string) : Prop :=
  exists b, body_of f = Ret (Some b) /\ br_impure_calls b = [] /\ forall g, g ∈ br_user_function_calls b -> key g ∈ v.

Lemma body_settled_mono v v' f : v ⊆ v' -> body_settled v f -> body_settled v' f.
Proof. intros Hv (b & H1 & H2 & H3). exists b. set_solver. Qed.

Lemma function_key_inj f g : key f = key g -> f = g.
Proof. unfold function_key. intros H. apply str_app_inj_l in H. by apply (str_app_inj_l ":") in H. Qed.

(** What going from [s] to [s'] has found; [chain] says how a depth limit was
    met, [closed] what a search without findings has visited. *)
Definition found (f cp : string) (chain : Prop) (closed : gset string -> Prop) (s s' : BodySearch) : Prop :=
  bs_visited s ⊆ bs_visited s' /\
  exists ni nu, bs_impure s' = bs_impure s ++ ni /\ Forall (body_path f cp) ni /\
    bs_unknown s' = bs_unknown s ++ nu /\ Forall (fun g => rtc body_calls f g /\ body_of g = Ret None) nu /\
    (bs_max_depth_reached s' = true -> bs_max_depth_reached s = true \/ chain) /\
    (ni = [] -> nu = [] -> bs_max_depth_reached s' = false -> bs_max_depth_reached s = false /\ closed (bs_visited s') /\
       forall g, key g ∈ bs_visited s' -> key g ∉ bs_visited s -> body_settled (bs_visited s') g).

(** All bodies reachable from [f] can be analysed. *)
Definition readable (f : string) : Prop := forall g, rtc body_calls f g -> exists o, body_of g = Ret o.

Lemma readable_call f g : readable f -> body_calls f g -> readable g.
Proof. intros Hf Hg h Hh. apply Hf. by eapply rtc_l. Qed.

(** A set of names closed under calls, all of whose bodies can be analysed. *)
Definition closed_names (fs : list string) : bool :=
  forallb (fun g => match body_of g with
                    | Ret (Some b) => forallb (fun h => existsb (String.eqb h) fs) (br_user_function_calls b)
                    | Ret None => true
                    | _ => false
                    end) fs.

Lemma closed_names_readable fs f : closed_names fs = true -> In f fs -> readable f.
Proof.
  intros Hc Hf g Hg. unfold closed_names in Hc. rewrite forallb_forall in Hc. revert Hf. induction Hg as [g|f h g (b & Hb & Hh) _ IH]; intros Hf.
  - specialize (Hc g Hf). cbn beta in Hc. destruct (body_of g) as [o| |]; [by exists o|done|done].
  - apply IH. specialize (Hc f Hf). cbn beta in Hc. rewrite Hb, forallb_forall in Hc. apply list_elem_of_In in Hh.
    specialize (Hc h Hh). apply existsb_exists in Hc as (x & Hx & ->%String.eqb_eq). done.
Qed.

Definition body_search_ok (n : nat) (rec : string -> string -> BodySearch -> run BodySearch) : Prop :=
  forall f cp s, readable f -> exists s', rec f cp s = Ret s' /\
    found f cp (long_chain body_calls key n (bs_visited s) f) (fun v => key f ∈ v) s s'.

Lemma found_there f cp g ch cl ch' cl' s s' : body_calls f g -> (ch -> ch') -> (forall v, cl v -> cl' v) ->
  found g (arrow cp g) ch cl s s' -> found f cp ch' cl' s s'.
Proof.
  intros Hg Hch Hcl (Hv & ni & nu & E1 & H1 & E2 & H2 & H3 & H4). split; [done|]. exists ni, nu. split; [done|]. split.
  { eapply list.Forall_impl; [exact H1|]. intros. by eapply bpath_there. }
  split; [done|]. split. { eapply list.Forall_impl; [exact H2|]. intros h [Hr Hn]. split; [by eapply rtc_l|done]. }
  split; [naive_solver|]. intros A B C. destruct (H4 A B C) as (? & ? & ?). auto.
Qed.

Lemma found_trans f cp ch cl1 cl2 s s1 s2 : (forall v v', v ⊆ v' -> cl1 v -> cl1 v') ->
  found f cp ch cl1 s s1 -> found f cp ch cl2 s1 s2 -> found f cp ch (fun v => cl1 v /\ cl2 v) s s2.
Proof.
  intros Hm (V1 & ni & nu & A1 & A2 & A3 & A4 & A5 & A6) (V2 & mi & mu & B1 & B2 & B3 & B4 & B5 & B6).
  split; [set_solver|]. exists (ni ++ mi), (nu ++ mu). rewrite B1, A1, B3, A3, !(assoc_L (++)).
  split; [done|]. split; [by apply Forall_app|]. split; [done|]. split; [by apply Forall_app|].
  split; [naive_solver|]. intros [-> ->]%app_eq_nil [-> ->]%app_eq_nil HM.
  destruct (B6 eq_refl eq_refl HM) as (M1 & C2 & S2). destruct (A6 eq_refl eq_refl M1) as (M0 & C1 & S1).
  split; [done|]. split; [split; [by eapply Hm|done]|]. intros g Hg Hn.
  destruct (decide (key g ∈ bs_visited s1)); [|by apply S2]. eapply body_settled_mono; [exact V2|]. by apply S1.
Qed.

Lemma search_calls_ok n rec f cp v0 : body_search_ok n rec -> readable f -> forall gs, (forall g, g ∈ gs -> body_calls f g) -> forall s, v0 ⊆ bs_visited s ->
  exists s', run_fold (fun s g => rec g (arrow cp g) s) gs s = Ret s' /\
    found f cp (exists g v1, body_calls f g /\ v0 ⊆ v1 /\ long_chain body_calls key n v1 g) (fun v => forall g, g ∈ gs -> key g ∈ v) s s'.
Proof.
  intros Hrec Hf. induction gs as [|g gs IH]; intros Hgs s Hs; cbn.
  { exists s. split; [done|]. split; [done|]. exists [], []. rewrite !app_nil_r. do 4 (split; [done|]). split; [by left|].
    intros _ _ ?. split; [done|]. split; [|done]. intros g Hg. inversion Hg. }
  assert (body_calls f g) as Hg by (apply Hgs; left).
  destruct (Hrec g (arrow cp g) s (readable_call _ _ Hf Hg)) as (s1 & -> & H1). cbn.
  assert (v0 ⊆ bs_visited s1) as Hs1 by (destruct H1; set_solver).
  destruct (IH (fun h Hh => Hgs h (list_elem_of_further _ _ _ Hh)) s1 Hs1) as (s2 & -> & H2). exists s2. split; [done|].
  apply (found_there f cp g _ _ (exists g v1, body_calls f g /\ v0 ⊆ v1 /\ long_chain body_calls key n v1 g) (fun v => key g ∈ v)) in H1; [|done| |done].
  2: { intros Hc. by exists g, (bs_visited s). }
  pose proof (found_trans _ _ _ _ _ _ _ _ (fun v v' Hv Hk => Hv _ Hk) H1 H2) as (Hv & ni & nu & E1 & F1 & E2 & F2 & F3 & F4).
  split; [done|]. exists ni, nu. do 5 (split; [done|]). intros A B C. destruct (F4 A B C) as (? & [Ck Cr] & ?).
  split; [done|]. split; [|done]. intros h [->|Hh]%elem_of_cons; auto.
Qed.

Lemma body_search_found n : body_search_ok n (search n path).
Proof.
  induction n as [|n IH]; intros f cp s Hr; cbn.
  { eexists. split; [done|]. split; [done|]. exists [], []. rewrite !app_nil_r. do 4 (split; [done|]). split; [intros _; right; apply long_chain_zero|done]. }
  case_bool_decide as Hf.
  { eexists. split; [done|]. split; [done|]. exists [], []. rewrite !app_nil_r. do 4 (split; [done|]). split; [by left|done]. }
  destruct (Hr f (rtc_refl _ _)) as [o Ho]. pose proof Ho as Hb. unfold body_of in Hb. apply run_bind_ret in Hb as (r & -> & Hb). cbn.
  destruct r as [e|err].
  2: { injection Hb as <-. eexists. split; [done|]. split; [cbn; set_solver|]. exists [], [f]. cbn. rewrite app_nil_r. do 3 (split; [done|]).
       split; [|by split; [left|]]. by constructor. }
  apply run_bind_ret in Hb as (b & -> & [= <-]). cbn.
  match goal with |- exists _, run_fold _ _ ?s1 = _ /\ _ => set (s1' := s1) end.
  destruct (search_calls_ok n (search n path) f cp ({[key f]} ∪ bs_visited s) IH Hr (br_user_function_calls b)
              (fun g Hg => ex_intro _ b (conj Ho Hg)) s1' ltac:(subst s1'; cbn; set_solver)) as (s' & -> & Hv & ni & nu & E1 & F1 & E2 & F2 & F3 & F4).
  exists s'. split; [done|]. subst s1'. cbn in *. split; [set_solver|].
  exists (map (fun c => mkImpureCall (ic_function_name c) (ic_reason c) (arrow cp (ic_function_name c))) (br_impure_calls b) ++ ni), nu.
  split; [by rewrite E1, (assoc_L (++))|]. split.
  { apply Forall_app. split; [|done]. apply Forall_map, list.Forall_forall. intros c Hc. by eapply bpath_here. }
  split; [done|]. split; [done|]. split.
  { intros HM. destruct (F3 HM) as [?|(g & v1 & Hg & Hv1 & Hch)]; [by left|right]. by eapply long_chain_step. }
  intros [A1%map_eq_nil A2]%app_eq_nil B C. destruct (F4 A2 B C) as (? & Ck & Cs). split; [done|]. split; [set_solver|].
  intros g Hg Hn. destruct (decide (g = f)) as [->|Ne]; [by exists b|].
  apply Cs; [done|]. intros [Eq%elem_of_singleton|?]%elem_of_union; [by apply Ne, function_key_inj|done].
Qed.

Lemma body_panic_propagates f e : la_extract_function an f path = Ret (Ok e) -> la_analyze_body an e = Panic ->
  analyze_function_body_for_purity an config f path = Panic.
Proof.
  intros He Hb. unfold analyze_function_body_for_purity, depth_allowance. cbn [analyze_function_recursively].
  rewrite bool_decide_eq_false_2 by (cbn; set_solver). by rewrite He; cbn [run_bind]; rewrite Hb.
Qed.

Lemma body_settled_reach v : (forall f, key f ∈ v -> body_settled v f) -> forall f g, rtc body_calls f g -> key f ∈ v -> key g ∈ v.
Proof.
  intros Hs f g Hr. induction Hr as [|f h g (b & Hb & Hh) _ IH]; [done|]. intros Hf. apply IH.
  destruct (Hs f Hf) as (b' & Hb' & _ & Hc). rewrite Hb in Hb'. injection Hb' as <-. by apply Hc.
Qed.

Lemma search_impure_iff s : pa_level (search_analysis s) = Impure <-> pa_impure_calls (search_analysis s) <> [].
Proof. cbn. unfold search_level. destruct (bs_impure s); [|done]. destruct (_ || _); split; congruence. Qed.

Lemma body_search_verdict (f : string) : readable f -> exists a, analyze_function_body_for_purity an config f path = Ret a /\
  (pa_level a = Pure -> forall g, rtc body_calls f g -> exists b, body_of g = Ret (Some b) /\ br_impure_calls b = []) /\
  (pa_level a = Impure <-> pa_impure_calls a <> []) /\ Forall (body_path f f) (pa_impure_calls a) /\
  (pa_level a = UnknownPurity -> (exists g, rtc body_calls f g /\ body_of g = Ret None) \/
                                 long_chain body_calls key (depth_allowance config) ∅ f).
Proof.
  intros Hf. destruct (body_search_found (depth_allowance config) f f empty_search Hf) as (s & Es & _ & ni & nu & E1 & F1 & E2 & F2 & F3 & F4).
  exists (search_analysis s). unfold analyze_function_body_for_purity. rewrite Es. split; [done|]. clear Es.
  cbn in *. split; [|split; [apply search_impure_iff|split; [by rewrite E1|]]]; unfold search_level; rewrite E1, E2.
  - destruct ni; [|done]. destruct nu; cbn; [|done]. destruct (bs_max_depth_reached s) eqn:EM; [done|]. intros _ g Hr.
    destruct (F4 eq_refl eq_refl eq_refl) as (_ & Hk & Hs). assert (forall f, key f ∈ bs_visited s -> body_settled (bs_visited s) f) as Hs' by set_solver.
    destruct (Hs' g (body_settled_reach _ Hs' f g Hr Hk)) as (b & ? & ? & _). by exists b.
  - destruct ni; [|done]. destruct nu as [|g nu]; cbn.
    + destruct (bs_max_depth_reached s); [|done]. intros _. destruct (F3 eq_refl) as [?|?]; [done|by right].
    + intros _. left. exists g. by inversion F2.
Qed.
(** C33: when every body that can be reached from [f] can be analysed, the
    analysis of bodies returns, and its verdict is exact up to the depth limit:
    [Pure] only if every function reachable through calls by name is found in the
    file and its body reports no impure call; [Impure] exactly when it reports
    calls, each of them found in the body at the end of a path of calls whose
    names are its text; [UnknownPurity] only when a reachable function is not
    found, or a chain of more than [max_call_depth] different functions starts
    here. *)
Theorem body_verdict (f : string) : readable f -> exists a, analyze_function_body_for_purity an config f path = Ret a /\
  (pa_level a = Pure -> forall g, rtc body_calls f g -> exists b, body_of g = Ret (Some b) /\ br_impure_calls b = []) /\
  (pa_level a = Impure <-> pa_impure_calls a <> []) /\ Forall (body_path f f) (pa_impure_calls a) /\
  (pa_level a = UnknownPurity -> (exists g, rtc body_calls f g /\ body_of g = Ret None) \/
                                 long_chain body_calls key (depth_allowance config) ∅ f).
Proof. apply body_search_verdict. Qed.
End Bodies.

(** ** The cache of verdicts *)

Section Cache.
Context (srv : LanguageServer) (an : LanguageAnalyzer) (config : LspConfig).
Context {S : Type} `{PurityCacheLaws S view} (file_hash : string -> result string string).

(** Every entry for a file as it is now holds the verdict of a fresh analysis. *)
Definition cache_sound (c : S) : Prop := forall k e, view c k = Some e -> file_hash (ck_file_path k) = Ok (ck_content_hash k) ->
  analyze_uncached srv an config (ck_function_name k) (ck_file_path k) = Ret (Ok (ce_analysis e)).

Lemma get_cached_sound enabled cache f path : (forall c, cache = Some c -> cache_sound c) ->
  let r := get_cached file_hash enabled cache f path in
  (forall c, r.1 = Some c -> cache_sound c) /\ (forall a, r.2 = Some a -> analyze_uncached srv an config f path = Ret (Ok a)).
Proof.
  intros Hc. unfold get_cached. destruct enabled; [|done]. destruct cache as [c|]; [|done]. destruct (file_hash path) as [h|] eqn:Eh; [|done].
  cbn. pose proof (get_keeps (mkKey f path h) c) as Hk. pose proof (get_view (mkKey f path h) c) as Hv.
  destruct (pc_get (mkKey f path h) c) as [c' [[e|]|err]] eqn:Eg; cbn in *; (split; [|try done]).
  2: { intros a [= <-]. specialize (Hv _ _ eq_refl). symmetry in Hv. by apply (Hc c eq_refl (mkKey f path h) e Hv). }
  all: intros c0 [= <-] k e0; rewrite Hk; by apply (Hc c eq_refl).
Qed.

Lemma cache_result_sound enabled depth now cache f path a : (forall c, cache = Some c -> cache_sound c) ->
  analyze_uncached srv an config f path = Ret (Ok a) ->
  forall c, cache_result file_hash enabled depth now cache f path a = Some c -> cache_sound c.
Proof.
  intros Hc Ha c. unfold cache_result. destruct enabled; [|apply Hc]. destruct cache as [c0|]; [|done].
  destruct (file_hash path) as [h|] eqn:Eh; [|apply Hc]. intros [= <-].
  destruct (pc_set _ _ c0) as [c1 [[]|err]] eqn:Es; cbn; intros k e.
  - rewrite (set_view _ _ _ _ Es) by apply wrap_lt. case_bool_decide; [|by apply (Hc c0 eq_refl)]. subst k. by intros [= <-].
  - rewrite (set_failed _ _ _ _ _ Es). by apply (Hc c0 eq_refl).
Qed.

(** While the files and the server stay as they are, the cache does not
    change verdicts: an analysis that returns answers with the verdict of a fresh
    one, or with [UnknownPurity] when its time has expired; and it leaves a cache
    that will.  This holds for any cache that keeps the port's promises,
    whichever of its operations fail; and where a fresh analysis returns, so does
    one with the cache. *)
Theorem cached_verdict_is_fresh (cache : option S) (expires : bool) (now : Z) (f path : string) :
  (forall c, cache = Some c -> cache_sound c) ->
  let m := analyze_with_timeout srv an config file_hash now expires f path cache in
  (forall cache' r, m = Ret (cache', r) -> (forall c, cache' = Some c -> cache_sound c) /\
     (analyze_uncached srv an config f path = Ret r \/ expires = true /\ r = Ok (unknown_analysis []))) /\
  (forall r, analyze_uncached srv an config f path = Ret r -> exists x, m = Ret x).
Proof.
  intros Hc. unfold analyze_with_timeout. pose proof (get_cached_sound (lc_cache_enabled config) cache f path Hc) as [H1 H2].
  destruct (get_cached file_hash _ _ _ _) as [cache0 [a|]]; cbn in *.
  { split; [|by eauto]. intros cache' r [= <- <-]. split; [done|]. left. by apply H2. }
  destruct expires; cbn; [split; [intros cache' r [= <- <-]; split; [done|by right]|by eauto]|]. unfold analyze_with_call_hierarchy.
  destruct (analyze_uncached srv an config f path) as [[a|e]| |] eqn:Ea; cbn; (split; [|by eauto || done]); intros cache' r; try done;
    intros [= <- <-]; (split; [|by left]); [|done]. by eapply cache_result_sound.
Qed.
End Cache.

(** ** Where the searches are too generous *)

(** A request for outgoing calls that fails counts as a function without calls. *)
Theorem failed_request_is_pure srv an config n item e : get_outgoing_calls srv item = Err e ->
  (traverse_call_hierarchy srv an config (S n) item ∅).1 = pure_analysis.
Proof. intros He. cbn -[outgoing_or_none]. unfold outgoing_or_none. by rewrite He. Qed.

(** The verdict stands although the body analysis cannot decide. *)
Theorem undecided_body_keeps_pure srv an config f path items item b : la_classify_function an f = UnknownPurity ->
  ls_ensure_started srv = Ok tt -> prepare_call_hierarchy srv path 0 0 = Ok (Some items) -> List.find (by_name f) items = Some item ->
  is_ok (get_outgoing_calls srv item) = false -> analyze_function_body_for_purity an config f path = Ret b -> pa_level b = UnknownPurity ->
  analyze_uncached srv an config f path = Ret (Ok pure_analysis).
Proof.
  intros Hc Hs Hp Hi Ho Hb Hl. unfold analyze_uncached. rewrite Hc, Hs, Hp, Hi.
  destruct (get_outgoing_calls srv item) as [|e] eqn:Eo; [done|]. unfold depth_allowance. rewrite (failed_request_is_pure _ _ _ _ _ _ Eo).
  cbn [pa_impure_calls pa_unknown_calls pa_level pure_analysis is_empty andb].
  rewrite bool_decide_eq_true_2 by done. rewrite Hb. cbn [run_bind]. apply run_bind_ret in Hb as (s & _ & [= <-]).
  pose proof (search_impure_iff s) as [_ Hi']. destruct (pa_impure_calls (search_analysis s)); [done|]. rewrite Hi' in Hl; done.
Qed.
