(* ===== verification/FunctionText.v ===== *)
(** * The text of functions

    [crates/detrix-lsp/src/common.rs] and [mutation.rs]: cutting a function's
    body out of the lines of its file, by braces for Go and Rust, by indentation
    for Python; and what kind of variable a mutation hits, for each language.

    Also the two tests on characters that the analyzers use.  Inside ASCII they
    are those of [RustStr]; outside, they are the arguments [uni_alphabetic] and
    [uni_numeric]. *)

From Stdlib Require Import Strings.String Strings.Ascii.
From S2P Require Import Prelude RustStr RustText.

Local Open Scope string_scope.
Local Arguments String.append !_ _ / : simpl nomatch.

(** ** Characters *)

Section Chars.
Context (uni_alphabetic uni_numeric : string -> bool).

Definition char_test (ascii_test : ascii -> bool) (uni : string -> bool) (ch : string) : bool :=
  match ch with
  | String c EmptyString => if (code c <? 128)%N then ascii_test c else uni ch
  | _ => uni ch
  end.
Definition is_alphabetic : string -> bool := char_test is_ascii_alphabetic uni_alphabetic.
Definition is_numeric : string -> bool := char_test is_ascii_digit uni_numeric.
Definition is_alphanumeric (ch : string) : bool := is_alphabetic ch || is_numeric ch.
Definition is_word_char (ch : string) : bool := is_alphanumeric ch || String.eqb ch "_".
End Chars.

(** ** Bodies *)

(** The effect of a line on the brace counter, a character at a time. *)
Fixpoint line_braces (s : string) : Z :=
  match s with
  | EmptyString => 0
  | String c r => ((if Ascii.eqb c "{" then 1 else if Ascii.eqb c "}" then -1 else 0) + line_braces r)%Z
  end.

(** [lines] are those from line [i] on. *)
Fixpoint braces_loop (signature_end : nat) (i : nat) (brace_count : Z) (found_opening_brace : bool) (lines : list string) : list string :=
  match lines with
  | [] => []
  | line :: rest =>
      let brace_count := (brace_count + line_braces line)%Z in
      let found_opening_brace := found_opening_brace || contains "{" line in
      if negb found_opening_brace then braces_loop signature_end (S i) brace_count found_opening_brace rest
      else ((if Nat.ltb signature_end i then [line] else []) ++
            (if Z.eqb brace_count 0 then [] else braces_loop signature_end (S i) brace_count found_opening_brace rest))%list
  end.
Definition extract_body_with_braces (lines : list string) (start_line signature_end : nat) : string :=
  join nl (braces_loop signature_end start_line 0 false (drop start_line lines)).

(** Bytes of leading white space. *)
Definition indent (line : string) : N := (str_len line - str_len (trim_start line))%N.

Fixpoint indent_loop (base_indent : N) (lines : list string) : list string :=
  match lines with
  | [] => []
  | line :: rest =>
      if str_is_empty (trim line) then indent_loop base_indent rest
      else if (indent line <=? base_indent)%N then []
      else line :: indent_loop base_indent rest
  end.
Definition extract_body_with_indent (lines : list string) (start_line : nat) (base_indent : N) : string :=
  join nl (indent_loop base_indent (drop (S start_line) lines)).

(** The first line that satisfies [p], with its number. *)
Fixpoint find_line (p : string -> bool) (i : nat) (lines : list string) : option (nat * string) :=
  match lines with
  | [] => None
  | line :: rest => if p line then Some (i, line) else find_line p (S i) rest
  end.

(** ** Targets of mutations *)

Inductive PythonMutationTarget : Type := PyLocal | PySelfAttribute | PyParameter | PyGlobal | PyNonlocal | PyUnknown.
Inductive GoMutationTarget : Type := GoLocal | GoReceiver | GoParameter | GoPackageVar | GoUnknown.
Inductive RustMutationTarget : Type := RsLocal | RsMutableSelf | RsMutableParameter | RsStaticVariable | RsUnsafeMutation | RsUnknown.

(** The trait [MutationTarget]: no reason is given for what is not impure. *)
Class MutationTarget (T : Type) : Type := { is_impure : T -> bool; impurity_reason : T -> option string }.

#[export] Instance python_mutation_target : MutationTarget PythonMutationTarget := {
  is_impure t := match t with PyLocal => false | _ => true end;
  impurity_reason t := match t with
    | PyLocal => None
    | PySelfAttribute => Some "Mutation of instance state (self.xxx)"
    | PyParameter => Some "Mutation of function parameter"
    | PyGlobal => Some "Mutation of global variable"
    | PyNonlocal => Some "Mutation of nonlocal variable"
    | PyUnknown => Some "Mutation of unknown scope variable"
    end
}.
#[export] Instance go_mutation_target : MutationTarget GoMutationTarget := {
  is_impure t := match t with GoLocal => false | _ => true end;
  impurity_reason t := match t with
    | GoLocal => None
    | GoReceiver => Some "Mutation of method receiver (struct state)"
    | GoParameter => Some "Mutation of function parameter"
    | GoPackageVar => Some "Mutation of package-level variable"
    | GoUnknown => Some "Mutation of unknown scope variable"
    end
}.
#[export] Instance rust_mutation_target : MutationTarget RustMutationTarget := {
  is_impure t := match t with RsLocal => false | _ => true end;
  impurity_reason t := match t with
    | RsLocal => None
    | RsMutableSelf => Some "Mutation of &mut self (instance state)"
    | RsMutableParameter => Some "Mutation of &mut parameter (caller's data)"
    | RsStaticVariable => Some "Mutation of static variable (global state)"
    | RsUnsafeMutation => Some "Unsafe mutation (raw pointer or transmute)"
    | RsUnknown => Some "Mutation of unknown scope variable"
    end
}.

(** ** Lemmas *)

Local Open Scope list_scope.

Lemma find_line_some p ls : forall i k line, find_line p i ls = Some (k, line) ->
  exists j, k = (i + j)%nat /\ ls !! j = Some line /\ p line = true /\ forall m l, (m < j)%nat -> ls !! m = Some l -> p l = false.
Proof.
  induction ls as [|l ls IH]; intros i k line; cbn; [done|]. destruct (p l) eqn:Ep.
  - intros [= <- <-]. exists 0%nat. split; [lia|]. do 2 (split; [done|]). intros; lia.
  - intros (j & -> & H1 & H2 & H3)%IH. exists (S j). split; [lia|]. do 2 (split; [done|]).
    intros [|m] l' Hm; cbn; [congruence|]. apply H3. lia.
Qed.

(** The brace counter after a number of lines. *)
Fixpoint balance (lines : list string) : Z := match lines with [] => 0%Z | l :: rest => (line_braces l + balance rest)%Z end.

Lemma balance_app a b : balance (a ++ b) = (balance a + balance b)%Z.
Proof. induction a as [|l a IH]; cbn; [done|]. lia. Qed.

(** After the opening line: the lines up to the one that balances the braces. *)
Lemma braces_loop_inner e rest : forall inner i n, (e < i)%nat -> (n <> 0)%Z -> (n + balance inner = 0)%Z ->
  (forall p q, inner = p ++ q -> q <> [] -> (n + balance p <> 0)%Z) -> braces_loop e i n true (inner ++ rest) = inner.
Proof.
  induction inner as [|l inner IH]; intros i n He Hn Hb Hp; cbn -[Nat.ltb] in *; [lia|].
  rewrite (proj2 (Nat.ltb_lt _ _) He). cbn. f_equal. destruct (Z.eqb_spec (n + line_braces l) 0) as [E|E].
  - destruct inner as [|l' inner]; [done|]. exfalso. apply (Hp [l] (l' :: inner) eq_refl); [done|]. cbn. lia.
  - apply IH; [lia|done|lia|]. intros p q -> Hq. specialize (Hp (l :: p) q eq_refl Hq). cbn in Hp. lia.
Qed.

Definition braceless (l : string) : Prop := contains "{" l = false /\ line_braces l = 0%Z.

(** The body is what follows the line with the first brace, up to and including
    the line that closes it; what follows on the opening line is not in it. *)
Lemma braces_loop_body header opening inner rest start : Forall braceless header -> contains "{" opening = true ->
  balance (opening :: inner) = 0%Z ->
  (forall p q, inner = p ++ q -> q <> [] -> balance (opening :: p) <> 0%Z) ->
  braces_loop (start + length header) start 0 false (header ++ opening :: inner ++ rest) = inner.
Proof.
  intros Hh Ho Hb Hp. assert (forall hd i e, Forall braceless hd -> e = (i + length hd)%nat ->
    braces_loop e i 0 false (hd ++ opening :: inner ++ rest) = inner) as H; [|by apply H]. clear start header Hh.
  induction hd as [|l hd IH]; intros i e Hh He.
  - cbn -[Nat.ltb] in He |- *. rewrite Ho. cbn -[Nat.ltb]. rewrite (proj2 (Nat.ltb_ge e i)) by lia. cbn.
    rewrite Z.add_0_l. destruct (Z.eqb_spec (line_braces opening) 0) as [E|E].
    + destruct inner as [|l inner]; [done|]. exfalso. apply (Hp [] (l :: inner) eq_refl); [done|]. cbn. lia.
    + apply braces_loop_inner; [lia|cbn in E |- *; lia|cbn in Hb; lia|]. intros p q Epq Hq. by apply (Hp p q).
  - inversion Hh as [|? ? [H1 H2] H3]; subst. cbn. rewrite H1, H2. cbn. apply IH; [done|cbn; lia].
Qed.

(** The indented lines after the definition, without blank ones. *)
Lemma indent_loop_spec base ls rest : Forall (fun l => trim l = EmptyString \/ (base < indent l)%N) ls ->
  (match rest with [] => True | l :: _ => trim l <> EmptyString /\ (indent l <= base)%N end) ->
  indent_loop base (ls ++ rest) = List.filter (fun l => negb (str_is_empty (trim l))) ls.
Proof.
  intros Hls Hr. induction Hls as [|l ls Hl _ IH]; cbn.
  - destruct rest as [|l rest]; [done|]. destruct Hr as [H1 H2]. cbn. destruct (str_is_empty (trim l)) eqn:E; [by apply str_is_empty_true in E|].
    by rewrite (proj2 (N.leb_le _ _) H2).
  - destruct (str_is_empty (trim l)) eqn:E; cbn; [done|]. destruct Hl as [Hl|Hl]; [by rewrite Hl in E|].
    rewrite (proj2 (N.leb_gt _ _) Hl). by f_equal.
Qed.
