(* ===== verification/PythonPurity.v ===== *)
(** * Purity of Python functions

    [crates/detrix-lsp/src/python.rs]: classification of names, extraction of a
    function's parameters and body from the lines of its file, the scope of its
    variables, and the search of the body for impure calls and for mutations of
    what is not local.  The file system is the argument [read_file].

    The scan of [extract_mutation_target] counts brackets in an [i32]: a build
    with [overflow_checks] panics when it overflows, one without them wraps.  The
    loop is run for [scan_limit] steps, which is more than it can take: a step
    either moves to the left or changes a counter, and a counter comes back to
    zero within [2 ^ 32] steps. *)

From Stdlib Require Import Strings.String Strings.Ascii.
From stdpp Require Import gmap.
From S2P Require Import Prelude RustStr RustText CoreError Location Metric Event Logpoint SafetyTables SafetyAnalysis SafetyValidator PurityCache CallGraph FunctionText.

Local Open Scope string_scope.
Local Arguments String.append !_ _ / : simpl nomatch.

Definition in_strings (x : string) (l : list string) : bool := existsb (String.eqb x) l.

(** [name == f || name.ends_with(&format!(".{}", f))] for some [f] of a table. *)
Definition names_one_of (table : list string) (name : string) : bool :=
  existsb (fun f => String.eqb name f || ends_with ("." ++ f) name) table.

Definition classify_function (name : string) : PurityLevel :=
  if names_one_of PYTHON_ACCEPTABLE_IMPURE name then Pure
  else if names_one_of PYTHON_IMPURE_FUNCTIONS name then Impure
  else if names_one_of PYTHON_PURE_FUNCTIONS name then Pure
  else UnknownPurity.

(** ** Scopes *)

Record ScopeContext : Type := mkScope {
  sx_local_vars : gset string; sx_parameters : gset string; sx_global_vars : gset string; sx_nonlocal_vars : gset string
}.
Definition scope_new (parameters : list string) : ScopeContext := mkScope ∅ (list_to_set parameters) ∅ ∅.
Definition is_local (c : ScopeContext) (name : string) : bool :=
  bool_decide (name ∈ sx_local_vars c) && negb (bool_decide (name ∈ sx_parameters c)) && negb (bool_decide (name ∈ sx_global_vars c))
  && negb (bool_decide (name ∈ sx_nonlocal_vars c)).
Definition add_local (name : string) (c : ScopeContext) : ScopeContext :=
  if negb (bool_decide (name ∈ sx_parameters c)) && negb (bool_decide (name ∈ sx_global_vars c)) && negb (bool_decide (name ∈ sx_nonlocal_vars c))
  then mkScope ({[name]} ∪ sx_local_vars c) (sx_parameters c) (sx_global_vars c) (sx_nonlocal_vars c) else c.
Definition add_global (name : string) (c : ScopeContext) : ScopeContext :=
  mkScope (sx_local_vars c ∖ {[name]}) (sx_parameters c) ({[name]} ∪ sx_global_vars c) (sx_nonlocal_vars c).
Definition add_nonlocal (name : string) (c : ScopeContext) : ScopeContext :=
  mkScope (sx_local_vars c ∖ {[name]}) (sx_parameters c) (sx_global_vars c) ({[name]} ∪ sx_nonlocal_vars c).

(** The first part of [s.split(c)]. *)
Definition before_char (c : ascii) (s : string) : string := match str_split c s with p :: _ => p | [] => s end.

Section Python.
Context (uni_alphabetic uni_numeric : string -> bool) (overflow_checks : bool) (read_file : string -> result string string).
Notation is_alnum := (is_alphanumeric uni_alphabetic uni_numeric).
Notation is_alpha := (is_alphabetic uni_alphabetic).
Notation is_word := (is_word_char uni_alphabetic uni_numeric).

(** ** Extraction *)

Definition parameter_name (param : string) : string := trim_start_matches "*" (trim (before_char "=" (before_char ":" param))).
Definition parameters_of (param_str : string) : list string :=
  List.filter (fun n => negb (str_is_empty n))
    (map parameter_name (List.filter (fun p => negb (str_is_empty p)) (map trim (str_split "," param_str)))).

(** The slice between the first [(] and the last [)], which panics when they are
    in the other order. *)
Definition extract_parameters (def_line : string) : run (list string) :=
  match split_once "(" def_line, rsplit_once ")" def_line with
  | Some (before, _), Some (until, _) =>
      let start := (str_len before + 1)%N in
      if (str_len until <? start)%N then Panic
      else Ret (parameters_of (substring (N.to_nat start) (String.length until - N.to_nat start) def_line))
  | _, _ => Ret []
  end.

Definition is_definition (function_name line : string) : bool :=
  contains ("def " ++ function_name ++ "(") line || contains ("async def " ++ function_name ++ "(") line.

Definition extract_function_with_params (function_name file_path : string) : run (result (string * list string) LspError) :=
  match read_file file_path with
  | Err e => Ret (Err (LspFileNotFound (file_path ++ ": " ++ e)))
  | Ok content =>
      let lines := lines content in
      match find_line (is_definition function_name) 0 lines with
      | None => Ret (Err (FunctionNotFound function_name file_path))
      | Some (start, def_line) =>
          let! parameters := extract_parameters def_line in
          Ret (Ok (extract_body_with_indent lines start (indent def_line), parameters))
      end
  end.

(** ** The scope of a body *)

Definition declared (add : string -> ScopeContext -> ScopeContext) (rest : string) (c : ScopeContext) : ScopeContext :=
  fold_left (fun c var => let var := trim var in if str_is_empty var then c else add var c) (str_split "," rest) c.

Definition last_char (s : string) : string := List.last (chars s) " ".
Definition ends_with_one_of (l : list string) (s : string) : bool := existsb (fun q => ends_with q s) l.

Definition scope_line (c : ScopeContext) (line : string) : ScopeContext :=
  let trimmed := trim line in
  if starts_with "#" trimmed then c
  else match strip_prefix "global " trimmed with
  | Some rest => declared add_global rest c
  | None =>
  match strip_prefix "nonlocal " trimmed with
  | Some rest => declared add_nonlocal rest c
  | None =>
  match split_once "=" trimmed with
  | None => c
  | Some (lhs, _) =>
      let prev_char := last_char lhs in
      if negb (str_is_empty lhs) && in_strings prev_char ["!"; "<"; ">"; "="] then c
      else if bool_decide (chars trimmed !! (S (String.length lhs)) = Some "=") then c
      else if ends_with_one_of ["+"; "-"; "*"; "/"; "%"; "|"; "&"; "^"] lhs then c
      else let var_part := trim (before_char ":" lhs) in
           if forallb is_word (chars var_part) && negb (str_is_empty var_part) then add_local var_part c else c
  end end end.
Definition build_scope_context (body : string) (parameters : list string) : ScopeContext :=
  fold_left scope_line (lines body) (scope_new parameters).

Definition classify_mutation_target (target : string) (c : ScopeContext) : PythonMutationTarget :=
  if starts_with "self." target || String.eqb target "self" then PySelfAttribute
  else
    let base_name := trim (before_char "[" (before_char "." target)) in
    if bool_decide (base_name ∈ sx_global_vars c) then PyGlobal
    else if bool_decide (base_name ∈ sx_nonlocal_vars c) then PyNonlocal
    else if bool_decide (base_name ∈ sx_parameters c) then PyParameter
    else if is_local c base_name then PyLocal
    else PyUnknown.

(** ** The target of a mutation *)

Definition i32_incr (z : Z) : run Z :=
  if (z <? 2 ^ 31 - 1)%Z then Ret (z + 1)%Z else if overflow_checks then Panic else Ret (- 2 ^ 31)%Z.

Record Scan : Type := mkScan { sn_start : nat; sn_parens : Z; sn_brackets : Z }.
Inductive ScanStep : Type := ScanOn (s : Scan) | ScanDone (start : nat) | ScanPanic.

Definition char_at (cs : list string) (i : nat) : string := nth i cs EmptyString.

(** The second half of a round: one more character to the left outside brackets. *)
Definition scan_extra (cs : list string) (s : Scan) : Scan :=
  match sn_start s with
  | S p => if (sn_parens s =? 0)%Z && (sn_brackets s =? 0)%Z
              && (is_alnum (char_at cs p) || in_strings (char_at cs p) ["_"; "."; ")"; "]"])
           then mkScan p (sn_parens s) (sn_brackets s) else s
  | O => s
  end.

(** A round of [while start > 0]. *)
Definition scan_round (cs : list string) (s : Scan) : ScanStep :=
  match sn_start s with
  | O => ScanDone 0
  | S p =>
      let c := char_at cs p in
      let next s := ScanOn (scan_extra cs s) in
      if String.eqb c ")" then match i32_incr (sn_parens s) with Ret n => next (mkScan (sn_start s) n (sn_brackets s)) | _ => ScanPanic end
      else if String.eqb c "(" then
        if (0 <? sn_parens s)%Z then next (mkScan (sn_start s) (sn_parens s - 1) (sn_brackets s)) else ScanDone (sn_start s)
      else if String.eqb c "]" then match i32_incr (sn_brackets s) with Ret n => next (mkScan (sn_start s) (sn_parens s) n) | _ => ScanPanic end
      else if String.eqb c "[" then
        if (0 <? sn_brackets s)%Z then next (mkScan (sn_start s) (sn_parens s) (sn_brackets s - 1)) else ScanDone (sn_start s)
      else if String.eqb c "." || String.eqb c "_" || is_alnum c then next (mkScan p (sn_parens s) (sn_brackets s))
      else if (0 <? sn_parens s)%Z || (0 <? sn_brackets s)%Z then next (mkScan p (sn_parens s) (sn_brackets s))
      else ScanDone (sn_start s)
  end.

(** [p] rounds, or fewer when the loop ends before. *)
Fixpoint scan_rounds (cs : list string) (p : positive) (s : Scan) : ScanStep :=
  let again q s := match scan_rounds cs q s with ScanOn s => scan_rounds cs q s | r => r end in
  match p with
  | xH => scan_round cs s
  | xO q => again q s
  | xI q => match scan_round cs s with ScanOn s => again q s | r => r end
  end.
Definition scan_limit (cs : list string) : positive := (Pos.of_succ_nat (length cs) * 2 ^ 34)%positive.

Definition extract_mutation_target (expr : string) : run string :=
  let cs := chars (trim expr) in
  let fin := length (rev (drop_while is_whitespace (rev cs))) in
  match scan_rounds cs (scan_limit cs) (mkScan fin 0 0) with
  | ScanDone start => Ret (String.concat EmptyString (drop start (take fin cs)))
  | ScanPanic => Panic
  | ScanOn _ => Looping
  end.

(** The loop over [PYTHON_MUTATION_METHODS]. *)
Fixpoint detect_methods (methods : list string) (line : string) (c : ScopeContext) : run (option (string * string * PythonMutationTarget)) :=
  match methods with
  | [] => Ret None
  | method :: rest =>
      match find_str ("." ++ method ++ "(") line with
      | None => detect_methods rest line c
      | Some (before, _) =>
          let! target := extract_mutation_target before in
          if str_is_empty target then detect_methods rest line c
          else let target_type := classify_mutation_target target c in
               if is_impure target_type then Ret (Some (target, method, target_type)) else detect_methods rest line c
      end
  end.
Definition detect_impure_mutation (line : string) (c : ScopeContext) : run (option (string * string * PythonMutationTarget)) :=
  let line := trim line in
  if starts_with "#" line then Ret None else detect_methods PYTHON_MUTATION_METHODS line c.

(** ** Calls *)

Definition keywords : list string :=
  ["if"; "else"; "elif"; "for"; "while"; "with"; "try"; "except"; "finally"; "def"; "class"; "return"; "yield"; "raise"; "import"; "from";
   "as"; "in"; "and"; "or"; "not"; "is"; "lambda"; "pass"; "break"; "continue"; "assert"; "global"; "nonlocal"; "True"; "False"; "None"].
(** A name that is not a user function. *)
Definition skipped (name : string) : bool :=
  in_strings name keywords || names_one_of PYTHON_PURE_FUNCTIONS name || in_strings name PYTHON_IMPURE_FUNCTIONS
  || in_strings name PYTHON_ACCEPTABLE_IMPURE.

(** [rest] are the characters from the current one on, [prev] the one before. *)
Fixpoint calls_loop (fuel : nat) (prev : option string) (rest : list string) (calls : list string) : list string :=
  match fuel, rest with
  | S fuel, c :: tl =>
      if is_alpha c || String.eqb c "_" then
        let word := take_while is_word rest in
        let after := drop_while is_word rest in
        let name := String.concat EmptyString word in
        match after with
        | p :: after' =>
            if String.eqb p "(" then
              calls_loop fuel (Some p) after'
                (if bool_decide (prev = Some ".") || skipped name || in_strings name calls then calls else (calls ++ [name])%list)
            else calls_loop fuel (Some (List.last word EmptyString)) after calls
        | [] => calls
        end
      else calls_loop fuel (Some c) tl calls
  | _, _ => calls
  end.
Definition extract_function_calls (line : string) (calls : list string) : list string :=
  let cs := chars line in calls_loop (S (length cs)) None cs calls.

(** ** The body *)

Definition mutations_of (body : string) (c : ScopeContext) : run (list ImpureCall) :=
  run_fold (fun acc line =>
    let! d := detect_impure_mutation line c in
    Ret match d with
        | Some (target, method, target_type) =>
            match impurity_reason target_type with
            | Some reason => (acc ++ [mkImpureCall (target ++ "." ++ method) reason (target ++ "." ++ method)])%list
            | None => acc
            end
        | None => acc
        end) (lines body) [].

Definition tab : string := String (ascii_of_N 9) EmptyString.
Definition calls_pattern (body impure_fn : string) : bool :=
  contains (impure_fn ++ "(") body || contains (" " ++ impure_fn ++ "(") body || contains (tab ++ impure_fn ++ "(") body
  || contains ("(" ++ impure_fn ++ "(") body.
Definition truly_impure (body : string) : list ImpureCall :=
  map (fun f => mkImpureCall f ("Truly impure function call: " ++ f) f)
    (List.filter (fun f => negb (in_strings f PYTHON_ACCEPTABLE_IMPURE) && calls_pattern body f) PYTHON_IMPURE_FUNCTIONS).

Definition user_calls (body : string) : list string :=
  fold_left (fun calls line => let trimmed := trim line in if starts_with "#" trimmed then calls else extract_function_calls trimmed calls) (lines body) [].

Definition analyze_function_body_with_params (body : string) (parameters : list string) : run BodyAnalysisResult :=
  let! mutations := mutations_of body (build_scope_context body parameters) in
  let impure_calls := (mutations ++ truly_impure body)%list in
  Ret (mkBody (is_empty impure_calls) impure_calls (user_calls body)).

Definition extract_function (function_name file_path : string) : run (result ExtractedFunction LspError) :=
  run_map (res_map (fun p => extracted_new p.1 p.2)) (extract_function_with_params function_name file_path).

(** [impl LanguageAnalyzer for PythonPurityAnalyzer]. *)
Definition python_analyzer : LanguageAnalyzer :=
  mkAnalyzer classify_function extract_function (fun e => analyze_function_body_with_params (ef_body e) (ef_parameters e)).
End Python.
