(* ===== verification/PythonOutcomes.v ===== *)
(** * What the Python analyzer establishes

    The scan for the target of a mutation, which returns exactly on texts without
    closing brackets at the wrong place; the body that is cut out of a file; and
    the verdict [Pure] on a function in terms of the texts of the functions it
    reaches.  Then the programs on which the verdict is wrong, run as they are. *)

From Stdlib Require Import Strings.String Strings.Ascii.
From stdpp Require Import gmap relations.
From S2P Require Import Prelude RustStr RustText CoreError Sql SafetyTables SafetyValidator PurityCache CallGraph CallGraphOutcomes FunctionText PythonPurity.

Local Open Scope string_scope.
Local Open Scope list_scope.

(** ** The scan *)

Section Scan.
Context (uni_alphabetic uni_numeric : string -> bool) (checks : bool) (cs : list string).
Notation round := (scan_round uni_alphabetic uni_numeric checks cs).
Notation rounds := (scan_rounds uni_alphabetic uni_numeric checks cs).

(** The rounds one by one. *)
Fixpoint scan_steps (n : nat) (s : Scan) : ScanStep :=
  match n with O => ScanOn s | S n => match round s with ScanOn s => scan_steps n s | r => r end end.

Lemma scan_steps_add n m s : scan_steps (n + m) s = match scan_steps n s with ScanOn s => scan_steps m s | r => r end.
Proof. revert s. induction n as [|n IH]; intros s; cbn; [done|]. destruct (round s); [apply IH|done|done]. Qed.

Lemma scan_rounds_steps p s : rounds p s = scan_steps (Pos.to_nat p) s.
Proof.
  revert s. induction p as [p IH|p IH|]; intros s; cbn [scan_rounds].
  - rewrite Pos2Nat.inj_xI. cbn [scan_steps Nat.mul]. destruct (round s) as [s'| |]; [|done|done].
    rewrite Nat.add_0_r, scan_steps_add, IH. destruct (scan_steps _ _); [apply IH|done|done].
  - rewrite Pos2Nat.inj_xO. cbn [Nat.mul]. rewrite Nat.add_0_r, scan_steps_add, IH. destruct (scan_steps _ _); [apply IH|done|done].
  - change (Pos.to_nat 1) with 1%nat. cbn [scan_steps]. by destruct (round s).
Qed.

Lemma scan_extra_le s : (sn_start (scan_extra uni_alphabetic uni_numeric cs s) <= sn_start s)%nat.
Proof. unfold scan_extra. destruct (sn_start s) eqn:E; [lia|]. destruct (_ && _); cbn; lia. Qed.

Lemma scan_extra_same s : sn_parens (scan_extra uni_alphabetic uni_numeric cs s) = sn_parens s /\
  sn_brackets (scan_extra uni_alphabetic uni_numeric cs s) = sn_brackets s.
Proof. unfold scan_extra. destruct (sn_start s); [done|]. by destruct (_ && _). Qed.

Definition no_closers : Prop := Forall (fun c => c <> ")" /\ c <> "]") cs.

Lemma char_at_open p : no_closers -> String.eqb (char_at cs p) ")" = false /\ String.eqb (char_at cs p) "]" = false.
Proof.
  intros H. unfold char_at. destruct (Nat.lt_ge_cases p (length cs)) as [Hp|Hp].
  - pose proof (nth_In cs EmptyString Hp) as Hin. unfold no_closers in H. rewrite List.Forall_forall in H. destruct (H _ Hin).
    split; by apply String.eqb_neq.
  - rewrite nth_overflow by done. done.
Qed.

(** Without closing brackets every round moves to the left. *)
Lemma scan_open_ends n s : no_closers -> sn_parens s = 0%Z -> sn_brackets s = 0%Z -> (sn_start s < n)%nat ->
  exists start, scan_steps n s = ScanDone start /\ (start <= sn_start s)%nat.
Proof.
  intros Hc. revert s. induction n as [|n IH]; intros s Hp Hb Hn; [lia|]. cbn [scan_steps]. unfold scan_round.
  destruct (sn_start s) as [|p] eqn:Es; [by exists 0%nat|]. destruct (char_at_open p Hc) as [-> ->]. rewrite Hp, Hb. cbn [Z.ltb Z.compare orb].
  assert (forall s', s' = mkScan p 0 0 -> exists start, scan_steps n (scan_extra uni_alphabetic uni_numeric cs s') = ScanDone start /\ (start <= S p)%nat) as Hgo.
  { intros s' ->. pose proof (scan_extra_le (mkScan p 0 0)) as Hle. destruct (scan_extra_same (mkScan p 0 0)) as [H1 H2]. cbn in *.
    destruct (IH _ H1 H2) as (st & -> & ?); [lia|]. exists st. split; [done|lia]. }
  destruct (String.eqb (char_at cs p) "("); [by exists (S p)|]. destruct (String.eqb (char_at cs p) "["); [by exists (S p)|].
  destruct (_ || _ || _); [by apply Hgo|by exists (S p)].
Qed.

(** At a closing bracket the counter grows and the scan does not move. *)
Definition closer (c : string) : Prop := c = ")" \/ c = "]".
Definition counting (c : string) (start : nat) (n : Z) : Scan := if String.eqb c ")" then mkScan start n 0 else mkScan start 0 n.

Lemma closer_round c p n : closer c -> char_at cs p = c -> (n <> -1)%Z -> (- 2 ^ 31 <= n < 2 ^ 31)%Z ->
  round (counting c (S p) n) =
  if (n <? 2 ^ 31 - 1)%Z then ScanOn (counting c (S p) (n + 1)) else if checks then ScanPanic else ScanOn (counting c (S p) (- 2 ^ 31)).
Proof.
  intros [-> | ->] Hc Hn Hr; unfold counting; cbn [String.eqb Ascii.eqb Bool.eqb]; unfold scan_round; cbn [sn_start]; rewrite Hc; cbn -[Z.ltb Z.pow scan_extra];
    unfold i32_incr; destruct (n <? 2 ^ 31 - 1)%Z eqn:E; try (destruct checks; [done|]); f_equal; unfold scan_extra; cbn -[Z.pow];
    rewrite ?andb_true_l, ?andb_true_r; try done;
    (rewrite (proj2 (Z.eqb_neq _ _)) by lia); done.
Qed.

Lemma closer_steps c p : closer c -> char_at cs p = c -> forall n z,
  (0 <= z /\ z + Z.of_nat n < 2 ^ 31 \/ - 2 ^ 31 <= z /\ z + Z.of_nat n <= -1)%Z ->
  scan_steps n (counting c (S p) z) = ScanOn (counting c (S p) (z + Z.of_nat n)).
Proof.
  intros Hc Hp. induction n as [|n IH]; intros z Hz; cbn [scan_steps]; [by rewrite Z.add_0_r|].
  rewrite (closer_round c p z Hc Hp) by lia. rewrite (proj2 (Z.ltb_lt _ _)) by lia. rewrite IH by lia. do 2 f_equal. lia.
Qed.

(** Up to the overflow, and from it on. *)
Lemma closer_overflow c p n k : closer c -> char_at cs p = c -> (Z.of_nat k = 2 ^ 31 - 1)%Z ->
  scan_steps (k + S n) (counting c (S p) 0) = if checks then ScanPanic else scan_steps n (counting c (S p) (- 2 ^ 31)).
Proof.
  intros Hc Hp Hk. rewrite scan_steps_add, (closer_steps c p Hc Hp) by lia. rewrite Hk. cbn [scan_steps].
  rewrite (closer_round c p _ Hc Hp) by lia. rewrite (proj2 (Z.ltb_ge _ _)) by lia. by destruct checks.
Qed.

Lemma overflow_split (n : nat) : (2 ^ 31 <= Z.of_nat n)%Z -> exists k m, n = (k + S m)%nat /\ (Z.of_nat k = 2 ^ 31 - 1)%Z.
Proof.
  intros H. destruct (Z_of_nat_complete (2 ^ 31 - 1)) as [k Hk]; [lia|]. exists k, (n - S k)%nat. split; lia.
Qed.
End Scan.

Section Targets.
Context (uni_alphabetic uni_numeric : string -> bool).
Notation target := (extract_mutation_target uni_alphabetic uni_numeric).

(** Where the scan of [expr] begins. *)
Definition scan_end (cs : list string) : nat := length (rev (drop_while is_whitespace (rev cs))).

Lemma closer_scan_end l c : closer c -> scan_end (l ++ [c]) = S (length l) /\ char_at (l ++ [c]) (length l) = c.
Proof.
  intros Hc. unfold scan_end, char_at. rewrite rev_app_distr. cbn [rev app drop_while].
  assert (is_whitespace c = false) as -> by (destruct Hc as [-> | ->]; reflexivity). rewrite length_rev. cbn [length]. rewrite length_rev.
  split; [done|]. rewrite app_nth2, Nat.sub_diag by lia. done.
Qed.

Lemma scan_limit_big cs : (2 ^ 34 <= Z.of_nat (Pos.to_nat (scan_limit cs)))%Z.
Proof. rewrite positive_nat_Z. unfold scan_limit. rewrite Pos2Z.inj_mul, Pos2Z.inj_pow. change (Z.pos 2) with 2%Z. change (Z.pos 34) with 34%Z. nia. Qed.

(** Without closing brackets the target is found. *)
Lemma open_target_returns checks expr : no_closers (chars (trim expr)) -> exists t, target checks expr = Ret t.
Proof.
  intros Hc. unfold extract_mutation_target. cbn zeta. set (cs := chars (trim expr)) in *. fold (scan_end cs).
  rewrite scan_rounds_steps.
  destruct (scan_open_ends uni_alphabetic uni_numeric checks cs (Pos.to_nat (scan_limit cs)) (mkScan (scan_end cs) 0 0) Hc eq_refl eq_refl) as (st & -> & _); [|eauto].
  cbn [sn_start]. assert (scan_end cs <= length cs)%nat as Hle.
  { unfold scan_end. rewrite length_rev, <- (length_rev cs). generalize (rev cs). intros l. induction l as [|x l IH]; cbn; [lia|]. destruct (is_whitespace x); cbn; lia. }
  unfold scan_limit. rewrite Pos2Nat.inj_mul, SuccNat2Pos.id_succ. pose proof (Pos2Nat.is_pos (2 ^ 34)). nia.
Qed.

Lemma mutation_target_panics expr l c : chars (trim expr) = l ++ [c] -> closer c -> target true expr = Panic.
Proof.
  intros Hl Hc. destruct (closer_scan_end l c Hc) as [He Hch].
  assert (mkScan (S (length l)) 0 0 = counting c (S (length l)) 0) as Hs0 by (unfold counting; by destruct (String.eqb c ")")).
  unfold extract_mutation_target. cbn zeta. rewrite Hl. fold (scan_end (l ++ [c])). rewrite He, scan_rounds_steps, Hs0.
  destruct (overflow_split (Pos.to_nat (scan_limit (l ++ [c])))) as (k & m & -> & Hk); [pose proof (scan_limit_big (l ++ [c])); lia|].
  by rewrite (closer_overflow _ _ _ _ c _ _ k Hc Hch Hk).
Qed.

(** The receiver of a mutating method is found when it contains no closing
    bracket.  When it ends with one, as in [d[k].append(x)] or
    [get().append(x)], a build with overflow checks panics; one without them
    repeats the same round [2 ^ 32 - 1] times without moving. *)
Theorem mutation_target_scan (expr : string) :
  (no_closers (chars (trim expr)) -> forall checks, exists t, target checks expr = Ret t) /\
  (forall l c, chars (trim expr) = l ++ [c] -> closer c -> target true expr = Panic /\
     forall p, (Z.pos p < 2 ^ 32)%Z -> exists s, scan_rounds uni_alphabetic uni_numeric false (l ++ [c]) p (mkScan (S (length l)) 0 0) = ScanOn s /\
       sn_start s = S (length l)).
Proof.
  split; [intros; by apply open_target_returns|]. intros l c Hl Hc. destruct (closer_scan_end l c Hc) as [He Hch].
  assert (mkScan (S (length l)) 0 0 = counting c (S (length l)) 0) as Hs0 by (unfold counting; by destruct (String.eqb c ")")).
  assert (forall z, sn_start (counting c (S (length l)) z) = S (length l)) as Hst by (intros; unfold counting; by destruct (String.eqb c ")")).
  split.
  - by eapply mutation_target_panics.
  - intros p Hp. rewrite scan_rounds_steps, Hs0. pose proof (positive_nat_Z p) as Hpz.
    destruct (Z.lt_ge_cases (Z.pos p) (2 ^ 31)).
    + rewrite (closer_steps _ _ _ _ c _ Hc Hch) by lia. by eexists.
    + destruct (overflow_split (Pos.to_nat p)) as (k & m & Hn & Hk); [lia|]. rewrite Hn, (closer_overflow _ _ _ _ c _ _ k Hc Hch Hk).
      rewrite (closer_steps _ _ _ _ c _ Hc Hch) by lia. by eexists.
Qed.
End Targets.

(** ** Bodies *)

Section Bodies.
Context (uni_alphabetic uni_numeric : string -> bool) (checks : bool) (read_file : string -> result string string).
Notation analyzer := (python_analyzer uni_alphabetic uni_numeric checks read_file).
Notation detect := (detect_impure_mutation uni_alphabetic uni_numeric checks).
Notation scope := (build_scope_context uni_alphabetic uni_numeric).

(** A function that is defined in one line and whose body is indented under
    it is cut out of its file: the lines up to the first that is not blank and not
    deeper than the definition, without the blank ones. *)
Theorem python_body_extracted (f path content def_line : string) (before body after : list string) :
  read_file path = Ok content -> lines content = before ++ def_line :: body ++ after ->
  Forall (fun l => is_definition f l = false) before -> is_definition f def_line = true ->
  Forall (fun l => trim l = EmptyString \/ (indent def_line < indent l)%N) body ->
  (match after with [] => True | l :: _ => trim l <> EmptyString /\ (indent l <= indent def_line)%N end) ->
  extract_function_with_params read_file f path =
  run_map (fun ps => Ok (join nl (List.filter (fun l => negb (str_is_empty (trim l))) body), ps)) (extract_parameters def_line).
Proof.
  intros Hr Hl Hb Hd Hbody Hafter. unfold extract_function_with_params. rewrite Hr. cbn zeta. rewrite Hl.
  assert (forall i, find_line (is_definition f) i (before ++ def_line :: body ++ after) = Some ((i + length before)%nat, def_line)) as Hf.
  { clear Hl. induction Hb as [|l before Hl0 _ IH]; intros i; cbn.
    - by rewrite Hd, Nat.add_0_r.
    - rewrite Hl0, IH. do 2 f_equal. lia. }
  rewrite Hf. cbn [Nat.add]. unfold run_map, extract_body_with_indent.
  rewrite (cons_middle def_line before), app_assoc, drop_app_length' by (rewrite length_app; cbn; lia).
  by rewrite (indent_loop_spec _ body after Hbody Hafter).
Qed.

Lemma detect_methods_impure ms line c t m ty : detect_methods uni_alphabetic uni_numeric checks ms line c = Ret (Some (t, m, ty)) -> is_impure ty = true.
Proof.
  induction ms as [|m0 ms IH]; cbn; [done|]. destruct (Logpoint.find_str _ line) as [[b r]|]; [|done].
  intros (t0 & _ & H)%run_bind_ret. destruct (str_is_empty t0); [by apply IH|].
  destruct (classify_mutation_target t0 c); cbn in H; try (injection H as <- <- <-; done). by apply IH.
Qed.

Lemma detect_first_panics m ms line c before after : Logpoint.find_str ("." ++ m ++ "(")%string line = Some (before, after) ->
  extract_mutation_target uni_alphabetic uni_numeric checks before = Panic -> detect_methods uni_alphabetic uni_numeric checks (m :: ms) line c = Panic.
Proof. intros Hf Ht. cbn. by rewrite Hf, Ht. Qed.

Lemma mutations_grow c ls : forall acc r,
  run_fold (fun acc line => let! d := detect line c in
    Ret match d with
        | Some (target, method, target_type) =>
            match impurity_reason target_type with
            | Some reason => acc ++ [mkImpureCall (target ++ "." ++ method)%string reason (target ++ "." ++ method)%string]
            | None => acc
            end
        | None => acc
        end) ls acc = Ret r ->
  exists more, r = acc ++ more /\ (more = [] -> Forall (fun line => detect line c = Ret None) ls).
Proof.
  induction ls as [|line ls IH]; intros acc r; cbn [run_fold].
  { intros [= <-]. exists []. by rewrite app_nil_r. }
  intros (acc1 & (d & Hd & [= <-])%run_bind_ret & Hf)%run_bind_ret. apply IH in Hf as (more & -> & Hm). destruct d as [[[t m] ty]|].
  - assert (is_impure ty = true) as Hi.
    { unfold detect_impure_mutation in Hd. destruct (starts_with _ _); [done|]. by eapply detect_methods_impure. }
    destruct ty; [done|..]; cbn -[app]; rewrite <- (app_assoc acc); eexists; (split; [reflexivity|done]).
  - exists more. split; [done|]. intros E. constructor; [done|]. by apply Hm.
Qed.

(** What the analysis looks for on a line that is no comment: the first call of each
    mutating method, which must be on nothing or on a target that is local.  Later
    calls of the same method on the line are not looked at. *)
Definition passed_line (c : ScopeContext) (line : string) : Prop :=
  starts_with "#" (trim line) = false -> forall method before after, method ∈ PYTHON_MUTATION_METHODS ->
  Logpoint.find_str ("." ++ method ++ "(")%string (trim line) = Some (before, after) ->
  exists target, extract_mutation_target uni_alphabetic uni_numeric checks before = Ret target /\
    (target = EmptyString \/ is_impure (classify_mutation_target target c) = false).

(** A body without findings: its text has no call, by name, of a function listed as
    impure and not as acceptable (such as [print]), and all its lines pass. *)
Definition passed_body (body : string) (params : list string) : Prop :=
  (forall name, name ∈ PYTHON_IMPURE_FUNCTIONS -> in_strings name PYTHON_ACCEPTABLE_IMPURE = false -> contains (name ++ "(")%string body = false) /\
  Forall (passed_line (scope body params)) (lines body).

Lemma detect_methods_none ms line c : detect_methods uni_alphabetic uni_numeric checks ms line c = Ret None ->
  forall method before after, method ∈ ms -> Logpoint.find_str ("." ++ method ++ "(")%string line = Some (before, after) ->
  exists target, extract_mutation_target uni_alphabetic uni_numeric checks before = Ret target /\
    (target = EmptyString \/ is_impure (classify_mutation_target target c) = false).
Proof.
  induction ms as [|m0 ms IH]; cbn [detect_methods]; [intros _ ? ? ? []%not_elem_of_nil|].
  intros H method before after Hm Hf. apply elem_of_cons in Hm as [->|Hm].
  - rewrite Hf in H. apply run_bind_ret in H as (t & Ht & H). exists t. split; [done|].
    destruct t; [by left|]. right. cbn [str_is_empty] in H. by destruct (is_impure _).
  - apply (IH) with (after := after) (method := method); [|done|done]. destruct (Logpoint.find_str _ line) as [[b r]|]; [|done].
    apply run_bind_ret in H as (t & _ & H). destruct (str_is_empty t); [done|]. by destruct (is_impure _).
Qed.

Lemma detect_none_passed c line : detect line c = Ret None -> passed_line c line.
Proof.
  unfold detect_impure_mutation. intros H Hc. rewrite Hc in H. by eapply detect_methods_none.
Qed.

Lemma truly_impure_nil body : truly_impure body = [] ->
  forall name, name ∈ PYTHON_IMPURE_FUNCTIONS -> in_strings name PYTHON_ACCEPTABLE_IMPURE = false -> contains (name ++ "(")%string body = false.
Proof.
  unfold truly_impure. generalize PYTHON_IMPURE_FUNCTIONS, PYTHON_ACCEPTABLE_IMPURE. intros table acceptable Ht%map_eq_nil name Hn Ha.
  destruct (contains (name ++ "(")%string body) eqn:E; [|done]. exfalso. apply list_elem_of_In in Hn.
  assert (In name (List.filter (fun f => negb (in_strings f acceptable) && calls_pattern body f) table)) as Hin.
  { apply List.filter_In. split; [done|]. unfold calls_pattern. by rewrite Ha, E. }
  by rewrite Ht in Hin.
Qed.

Lemma clean_body_passed body params r :
  analyze_function_body_with_params uni_alphabetic uni_numeric checks body params = Ret r -> br_impure_calls r = [] ->
  br_user_function_calls r = user_calls uni_alphabetic uni_numeric body /\ passed_body body params.
Proof.
  unfold analyze_function_body_with_params. intros (m & Hm & [= <-])%run_bind_ret. cbn [br_impure_calls br_user_function_calls].
  intros [-> Ht]%app_eq_nil. split; [reflexivity|]. split.
  - by apply truly_impure_nil.
  - destruct (mutations_grow _ _ _ _ Hm) as (more & Hmore & H).
    assert (more = []) as ->; [by destruct more|]. specialize (H eq_refl). induction H; constructor; [by apply detect_none_passed|done].
Qed.

End Bodies.

(** ** A program *)

Module Program.

Definition ascii_only (ch : string) : bool := false.
Definition source : string := "
def total(items: list, rate: int = 1) -> int:
    result = []

    for item in items:
        result.append(scale(item, rate))
    return sum(result)

def scale(x, rate):
    # os.system is not called here
    return x * rate

def archive(path):
    return remove_all(path)

def remove_all(path):
    os.system(path)

def bump(n):
    global counter
    counter += n
    return counter

def wipe(path): return os.system(path)

def purge(
    path,
    force,
):
    os.system(path)
    return force

def index(groups, item):
    groups[item].append(item)
    return groups
".
Definition files (path : string) : result string string := Ok source.
Definition analyzer : LanguageAnalyzer := python_analyzer ascii_only ascii_only true files.
Definition config : LspConfig := mkLspConfig true 10 true.
Definition verdict (f : string) : run PurityLevel := run_map pa_level (analyze_function_body_for_purity analyzer config f "app.py").

Lemma total_readable : readable analyzer "app.py" "total".
Proof. apply (closed_names_readable _ _ ["total"; "scale"]); [vm_compute; reflexivity|by left]. Qed.

(** A verdict that is right, and one found two calls away. *)
Lemma program_verdicts : verdict "total" = Ret Pure /\ verdict "archive" = Ret Impure /\ verdict "missing" = Ret UnknownPurity.
Proof. by vm_compute. Qed.

Lemma total_calls_scale : rtc (body_calls analyzer "app.py") "total" "scale".
Proof. apply rtc_once. eexists. split; [vm_compute; reflexivity|]. by left. Qed.


Lemma body_verdict_witness : exists a, analyze_function_body_for_purity analyzer config "total" "app.py" = Ret a /\
  (pa_level a = Impure <-> pa_impure_calls a <> []).
Proof.
  destruct (body_verdict analyzer config "app.py" "total" total_readable) as (a & Ha & _ & Hi & _). exact (ex_intro _ a (conj Ha Hi)).
Defined.

Lemma python_body_extracted_witness :
  extract_function_with_params files "scale" "app.py" =
  run_map (fun ps => Ok (join nl ["    # os.system is not called here"; "    return x * rate"], ps)) (extract_parameters "def scale(x, rate):").
Proof.
  apply (python_body_extracted files "scale" "app.py" source "def scale(x, rate):"
           (firstn 8 (lines source)) ["    # os.system is not called here"; "    return x * rate"; ""] (skipn 12 (lines source)));
    [reflexivity|vm_compute; reflexivity|vm_compute; repeat constructor|reflexivity| |vm_compute; split; congruence].
  constructor; [right; by vm_compute|]. constructor; [right; by vm_compute|]. constructor; [left; by vm_compute|constructor].
Defined.

(** Functions called pure that are not: an assignment to a global variable, a
    body on the line of the definition, and a signature over several lines, of
    which only the parameters are taken for the body. *)
Theorem impure_functions_called_pure : verdict "bump" = Ret Pure /\ verdict "wipe" = Ret Pure /\ verdict "purge" = Ret Pure.
Proof. by vm_compute. Qed.

(** A mutation through an index: the analysis panics. *)
Theorem indexed_mutation_panics : verdict "index" = Panic.
Proof.
  assert (extract_mutation_target ascii_only ascii_only true "groups[item]" = Panic) as H.
  { eapply (mutation_target_panics ascii_only ascii_only "groups[item]" (chars "groups[item") "]"); [reflexivity|by right]. }
  assert (forall c, detect_impure_mutation ascii_only ascii_only true "    groups[item].append(item)" c = Panic) as Hd.
  { intros c. unfold detect_impure_mutation.
    replace (trim "    groups[item].append(item)") with "groups[item].append(item)" by (vm_compute; reflexivity).
    change PYTHON_MUTATION_METHODS with ("append" :: tl PYTHON_MUTATION_METHODS).
    apply (detect_first_panics _ _ _ "append" _ _ c "groups[item]" ".append(item)"); [vm_compute; reflexivity|exact H]. }
  pose (e := extracted_new ("    groups[item].append(item)" ++ nl ++ "    return groups")%string ["groups"; "item"]).
  assert (la_extract_function analyzer "index" "app.py" = Ret (Ok e)) as He by (vm_compute; reflexivity).
  assert (la_analyze_body analyzer e = Panic) as Hb.
  { cbn [la_analyze_body analyzer python_analyzer ef_body ef_parameters extracted_new e]. unfold analyze_function_body_with_params, mutations_of.
    replace (lines ("    groups[item].append(item)" ++ nl ++ "    return groups")%string) with ["    groups[item].append(item)"; "    return groups"]
      by (vm_compute; reflexivity). cbn [run_fold]. by rewrite Hd. }
  unfold verdict. rewrite (body_panic_propagates analyzer config "app.py" "index" e He Hb). reflexivity.
Qed.

(** A smiley in a comment before a definition: the slice of the parameters
    panics. *)
Theorem comment_before_parameters_panics : extract_parameters "# :) def total(" = Panic.
Proof. by vm_compute. Qed.

(** ** With a language server *)

Definition no_range : Range := mkRange (mkPosition 0 0) (mkPosition 0 0).
Definition item (name uri detail : string) : CallHierarchyItem := mkItem name 12 None (Some detail) uri no_range no_range None.
Definition call (i : CallHierarchyItem) : CallHierarchyOutgoingCall := mkCall i [].
Definition server (outgoing : CallHierarchyItem -> list CallHierarchyOutgoingCall) (start : CallHierarchyItem) : LanguageServer :=
  mkServer (Ok tt) (Ok true) (fun _ _ => Ok (ReplyValue [start])) (fun i => Ok (ReplyValue (outgoing i))).

(** [report] of [app.py] calls [load] of [io.py]; that [load] calls [os.system]
    is so only after an edit of [io.py]. *)
Definition report : CallHierarchyItem := item "report" "file://app.py" "def report".
Definition load : CallHierarchyItem := item "load" "file://io.py" "def load".
Definition os_system : CallHierarchyItem := item "os.system" "file://os.py" "def system".
Definition calls_of (edited : bool) (key : string) : list CallHierarchyOutgoingCall :=
  if String.eqb key "file://app.py:report" then [call load]
  else if String.eqb key "file://io.py:load" then (if edited then [call os_system] else []) else [].
Definition project (edited : bool) : LanguageServer := server (fun i => calls_of edited (item_key i)) report.
Definition app_text : string := "def report(x):
    return load(x)
def load(x):
    return x".
Definition app_files (path : string) : result string string := Ok app_text.
Definition app_analyzer : LanguageAnalyzer := python_analyzer ascii_only ascii_only true app_files.

Lemma project_keys edited i j : item_key i = item_key j -> outgoing_or_none (project edited) i = outgoing_or_none (project edited) j.
Proof. intros H. unfold outgoing_or_none. cbn -[calls_of item_key]. by rewrite H. Qed.

Lemma call_graph_verdict_witness :
  let '(a, v) := traverse_call_hierarchy (project false) app_analyzer config (depth_allowance config) report ∅ in
  pa_level a = Pure /\ forall j, rtc (follows (project false) app_analyzer) report j -> ~ calls_impure (project false) app_analyzer j.
Proof.
  destruct (traverse_call_hierarchy (project false) app_analyzer config (depth_allowance config) report ∅) as [a v] eqn:E.
  destruct (call_graph_verdict (project false) app_analyzer config report a v E (project_keys false)) as (HP & _).
  assert (pa_level a = Pure) as Ha by (change a with (a, v).1; rewrite <- E; vm_compute; reflexivity). exact (conj Ha (HP Ha)).
Defined.

(** A cache in which lists are written as the numbers that encode them. *)
#[export] Instance ImpureCall_eq_dec : EqDecision ImpureCall.
Proof. solve_decision. Defined.
#[export] Instance ImpureCall_countable : Countable ImpureCall.
Proof.
  refine (inj_countable' (fun c => (ic_function_name c, ic_reason c, ic_call_path c)) (fun p => mkImpureCall p.1.1 p.1.2 p.2) _). by intros [].
Defined.
Definition show_code {A : Type} `{Countable A} (a : A) : result string string := Ok (show_N (Npos (encode a))).
Definition read_code {A : Type} `{Countable A} (s : string) : result A string :=
  match digits_val 0 s with Some (Npos p) => match decode p with Some a => Ok a | None => Err "value" end | _ => Err "number" end.
#[export] Instance number_json : CallJson := {
  calls_to_json := show_code; calls_of_json := read_code; names_to_json := show_code; names_of_json := read_code }.

Lemma code_roundtrip {A : Type} `{Countable A} (a : A) : exists s, show_code a = Ok s /\ read_code s = Ok a.
Proof. eexists. split; [done|]. unfold read_code. by rewrite digits_val_show, decode_encode. Qed.
#[export] Instance number_json_laws : CallJsonLaws number_json.
Proof. split; apply @code_roundtrip. Qed.

Definition app_hash (path : string) : result string string := Ok "0f1e".
Definition empty_cache : SqlitePurityCache := cache_new (mkDb ∅ []).

Lemma empty_cache_sound : cache_sound (view := sqlite_view) (project false) app_analyzer config app_hash empty_cache.
Proof. intros k e H. done. Qed.

Lemma cached_verdict_is_fresh_witness :
  exists cache' r, analyze_with_timeout (project false) app_analyzer config app_hash 0 false "report" "app.py" (Some empty_cache) = Ret (cache', r) /\
  (analyze_uncached (project false) app_analyzer config "report" "app.py" = Ret r \/ false = true /\ r = Ok (unknown_analysis [])).
Proof.
  destruct (cached_verdict_is_fresh (view := sqlite_view) (project false) app_analyzer config app_hash (Some empty_cache) false 0 "report" "app.py")
    as [Hfresh Hruns]; [intros c [= <-]; exact empty_cache_sound|].
  destruct (Hruns (Ok pure_analysis)) as [[cache' r] Hr]; [vm_compute; reflexivity|].
  exists cache', r. split; [exact Hr|]. exact (proj2 (Hfresh cache' r Hr)).
Defined.

(** The entry of [app.py] survives an edit of [io.py] that makes [load] impure. *)
Theorem verdict_survives_edit_of_callee :
  exists cache, analyze_with_timeout (project false) app_analyzer config app_hash 0 false "report" "app.py" (Some empty_cache) = Ret (cache, Ok pure_analysis) /\
    run_map snd (analyze_with_timeout (project true) app_analyzer config app_hash 1 false "report" "app.py" cache) = Ret (Ok pure_analysis) /\
    run_map (res_map pa_level) (analyze_uncached (project true) app_analyzer config "report" "app.py") = Ret (Ok Impure).
Proof. eexists. split; [vm_compute; reflexivity|]. split; vm_compute; reflexivity. Qed.

(** Two methods [run] in one file share a key: the second is not looked at. *)
Definition start_item : CallHierarchyItem := item "start" "file://jobs.py" "def start".
Definition dry_run : CallHierarchyItem := item "run" "file://jobs.py" "class Dry".
Definition real_run : CallHierarchyItem := item "run" "file://jobs.py" "class Real".
Definition jobs : LanguageServer := server (fun i =>
  if String.eqb (ci_name i) "start" then [call dry_run; call real_run]
  else if bool_decide (ci_detail i = Some "class Real") then [call os_system] else []) start_item.

Theorem namesake_hides_impure_call : (traverse_call_hierarchy jobs app_analyzer config (depth_allowance config) start_item ∅).1 = pure_analysis /\
  follows jobs app_analyzer start_item real_run /\ calls_impure jobs app_analyzer real_run.
Proof.
  split; [vm_compute; reflexivity|]. split.
  - exists (call real_run). split; [eexists; split; [reflexivity|right; left]|]. split; [done|]. vm_compute. reflexivity.
  - exists (call os_system). split; [eexists; split; [reflexivity|left]|]. vm_compute. reflexivity.
Qed.
End Program.
