(* ===== verification/GoPurity.v ===== *)
(** * Purity of Go functions

    [crates/detrix-lsp/src/go.rs]: classification of names, receiver and
    parameters of a signature, the scope of a body, and the search of its lines for
    impure calls and for mutations of what is not local.

    The regular-expression library is the argument [captures_iter]: for the text
    of a pattern and a line, the successive matches, each with its groups (group 0
    is the whole match).  [read_file] is the file system. *)

From Stdlib Require Import Strings.String Strings.Ascii.
From stdpp Require Import gmap relations.
From S2P Require Import Prelude RustStr RustText CoreError Location Metric Event Logpoint SafetyTables SafetyAnalysis SafetyValidator PurityCache CallGraph CallGraphOutcomes FunctionText.

Local Open Scope string_scope.
Local Arguments String.append !_ _ / : simpl nomatch.

Definition mem (x : string) (l : list string) : bool := existsb (String.eqb x) l.

(** ** Patterns *)

Definition CALL_PATTERN : string := "([a-zA-Z_][a-zA-Z0-9_]*(?:\.[a-zA-Z_][a-zA-Z0-9_]*)*)\s*\(".
Definition METHOD_PATTERN : string := "([a-zA-Z_][a-zA-Z0-9_]*)\s*\.\s*([a-zA-Z_][a-zA-Z0-9_]*)\s*\(".
Definition FIELD_ASSIGN_PATTERN : string := "([a-zA-Z_][a-zA-Z0-9_]*)\s*\.\s*[a-zA-Z_][a-zA-Z0-9_]*(?:\[[^\]]*\])?\s*=".
Definition INDEX_ASSIGN_PATTERN : string := "([a-zA-Z_][a-zA-Z0-9_]*)\s*\[[^\]]*\]\s*=".
Definition FIELD_INCR_DECR_PATTERN : string := "([a-zA-Z_][a-zA-Z0-9_]*)\s*\.\s*[a-zA-Z_][a-zA-Z0-9_]*\s*(\+\+|--)".
Definition DIRECT_INCR_DECR_PATTERN : string := "^\s*([a-zA-Z_][a-zA-Z0-9_]*)\s*(\+\+|--)".
Definition DIRECT_ASSIGN_PATTERN : string := "^\s*([a-zA-Z_][a-zA-Z0-9_]*)\s*[+\-*/]?=\s*[^=]".

(** ** Scopes *)

Record GoScopeContext : Type := mkGoScope {
  gs_local_vars : gset string; gs_parameters : gset string; gs_receiver : option string; gs_package_vars : gset string
}.
Definition go_scope_new (parameters : list string) : GoScopeContext := mkGoScope ∅ (list_to_set parameters) None ∅.
Definition for_method (receiver : string) (parameters : list string) : GoScopeContext := mkGoScope ∅ (list_to_set parameters) (Some receiver) ∅.
Definition is_receiver (c : GoScopeContext) (name : string) : bool := bool_decide (gs_receiver c = Some name).
Definition go_is_local (c : GoScopeContext) (name : string) : bool :=
  bool_decide (name ∈ gs_local_vars c) && negb (bool_decide (name ∈ gs_parameters c)) && negb (is_receiver c name)
  && negb (bool_decide (name ∈ gs_package_vars c)).
Definition go_add_local (name : string) (c : GoScopeContext) : GoScopeContext :=
  if negb (bool_decide (name ∈ gs_parameters c)) && negb (is_receiver c name) && negb (bool_decide (name ∈ gs_package_vars c))
  then mkGoScope ({[name]} ∪ gs_local_vars c) (gs_parameters c) (gs_receiver c) (gs_package_vars c) else c.

Definition classify_go_mutation_target (name : string) (c : GoScopeContext) : GoMutationTarget :=
  if is_receiver c name then GoReceiver
  else if bool_decide (name ∈ gs_parameters c) then GoParameter
  else if bool_decide (name ∈ gs_package_vars c) then GoPackageVar
  else if go_is_local c name then GoLocal
  else GoUnknown.
Definition is_go_mutation_method (method : string) : bool := mem method GO_RECEIVER_MUTATION_METHODS || mem method GO_MUTATION_OPERATIONS.

(** ** Classification *)

Definition is_pure_function (name : string) : bool := mem name GO_PURE_FUNCTIONS || mem name GO_ACCEPTABLE_IMPURE.
Definition is_impure_function (name : string) : bool := mem name GO_IMPURE_FUNCTIONS.
Definition go_classify_function (name : string) : PurityLevel :=
  if is_impure_function name then Impure else if is_pure_function name then Pure else UnknownPurity.

(** ** Signatures *)

(** What follows the first occurrence of [q]. *)
Definition after_str (q s : string) : option string :=
  match find_str q s with Some (_, from) => strip_prefix q from | None => None end.

(** [s[1..n]], where [n] bytes are [before]: the slice panics when byte 1 is not
    the start of a character. *)
Definition slice_from_one (before : string) : run string :=
  match before with
  | String _ r => if head_is is_cont r then Panic else Ret r
  | EmptyString => Panic
  end.

Definition receiver_of (def_line : string) : run (option string) :=
  match after_str "func " def_line with
  | None => Ret None
  | Some after_func =>
      if starts_with "(" (trim after_func) then
        match split_once ")" after_func with
        | None => Ret None
        | Some (before, _) =>
            let! receiver_part := slice_from_one before in
            let recv_name := trim_start_matches "*" (default EmptyString (head (split_whitespace receiver_part))) in
            Ret (if str_is_empty recv_name then None else Some recv_name)
        end
      else Ret None
  end.

(** The text up to the parenthesis that closes [depth] open ones, or all of it. *)
Fixpoint until_closed (depth : nat) (s : string) : string :=
  match s with
  | EmptyString => EmptyString
  | String c r =>
      if Ascii.eqb c "(" then String c (until_closed (S depth) r)
      else if Ascii.eqb c ")" then match depth with S (S d) => String c (until_closed (S d) r) | _ => EmptyString end
      else String c (until_closed depth r)
  end.

Definition trim_end_commas (s : string) : string := str_rev (trim_start_matches "," (str_rev s)).
Definition go_parameter (part : string) : list string :=
  match split_whitespace part with
  | [] => []
  | tok :: _ => let name := trim_end_commas tok in if str_is_empty name || String.eqb name "..." then [] else [name]
  end.
Definition go_parameters (param_str : string) : list string := List.concat (map (fun p => go_parameter (trim p)) (str_split "," param_str)).

Definition extract_go_signature (def_line : string) : run (option string * list string) :=
  let! receiver := receiver_of def_line in
  let rest := match receiver with
              | Some _ => default def_line (after_str ") " def_line)
              | None => default def_line (after_str "func " def_line)
              end in
  Ret (receiver, match split_once "(" rest with Some (_, after_paren) => go_parameters (until_closed 1 after_paren) | None => [] end).

(** ** Extraction *)

Definition is_go_definition (function_name line : string) : bool :=
  let trimmed := trim line in
  starts_with "func " trimmed && (contains (" " ++ function_name ++ "(") trimmed || contains (") " ++ function_name ++ "(") trimmed).

(** The loop for the opening brace, from line [i] on: where the signature ends,
    and the definition with the lines before that. *)
Fixpoint signature_loop (start i : nat) (def_line : string) (lines : list string) : nat * string :=
  match lines with
  | [] => (start, def_line)
  | line :: rest =>
      if contains "{" line then (i, def_line)
      else signature_loop start (S i) (if Nat.ltb start i then def_line ++ line else def_line) rest
  end.

Section Go.
Context (captures_iter : string -> string -> list (list (option string))) (read_file : string -> result string string).

Definition extract_go_function (function_name file_path : string) : run (result (string * list string * option string) LspError) :=
  match read_file file_path with
  | Err e => Ret (Err (LspFileNotFound (file_path ++ ": " ++ e)))
  | Ok content =>
      let lines := lines content in
      match find_line (is_go_definition function_name) 0 lines with
      | None => Ret (Err (FunctionNotFound function_name file_path))
      | Some (start, line) =>
          let '(signature_end, def_line) := signature_loop start start line (drop start lines) in
          let! sig := extract_go_signature def_line in
          Ret (Ok (extract_body_with_braces lines start signature_end, sig.2, sig.1))
      end
  end.

(** ** The scope of a body *)

Definition short_declaration (trimmed : string) (c : GoScopeContext) : GoScopeContext :=
  match find_str ":=" trimmed with
  | None => c
  | Some (lhs, _) =>
      fold_left (fun c var => let var := trim var in if str_is_empty var || contains "." var then c else go_add_local var c)
        (str_split "," (trim lhs)) c
  end.
Definition var_declaration (trimmed : string) (c : GoScopeContext) : GoScopeContext :=
  match strip_prefix "var " trimmed with
  | None => c
  | Some rest =>
      let var_name := trim_end_commas (default EmptyString (head (split_whitespace rest))) in
      if str_is_empty var_name then c else go_add_local var_name c
  end.
Definition go_scope_line (c : GoScopeContext) (line : string) : GoScopeContext :=
  let trimmed := trim line in
  if starts_with "//" trimmed then c else var_declaration trimmed (short_declaration trimmed c).
Definition go_build_scope_context (body : string) (parameters : list string) (receiver : option string) : GoScopeContext :=
  fold_left go_scope_line (lines body)
    (match receiver with Some recv => for_method recv parameters | None => go_scope_new parameters end).

(** ** The body *)

Definition group (m : list (option string)) (i : nat) : option string := mjoin (m !! i).
(** [pattern.captures(line)]: the first match. *)
Definition captures (pattern line : string) : option (list (option string)) := head (captures_iter pattern line).

(** A finding about a mutation of [target], called [what]. *)
Definition mutation_call (c : GoScopeContext) (target what : string) : list ImpureCall :=
  let t := classify_go_mutation_target target c in
  if is_impure t then match impurity_reason t with Some reason => [mkImpureCall what reason ""] | None => [] end else [].

Definition line_impure_calls (line : string) : list ImpureCall :=
  List.concat (map (fun m => match group m 1 with
                             | Some f => if is_impure_function f then [known_impure f ""] else []
                             | None => []
                             end) (captures_iter CALL_PATTERN line)).
Definition looks_like_user_function (f : string) : bool :=
  negb (is_impure_function f) && negb (is_pure_function f) && negb (starts_with "fmt." f) && negb (starts_with "log." f)
  && negb (starts_with "math." f) && negb (starts_with "strings." f).
Definition line_user_calls (line : string) : list string :=
  List.concat (map (fun m => match group m 1 with
                             | Some f => if looks_like_user_function f then [f] else []
                             | None => []
                             end) (captures_iter CALL_PATTERN line)).
Definition line_method_mutations (c : GoScopeContext) (line : string) : list ImpureCall :=
  List.concat (map (fun m => match group m 1, group m 2 with
                             | Some target, Some method =>
                                 if is_go_mutation_method method then mutation_call c target (target ++ "." ++ method) else []
                             | _, _ => []
                             end) (captures_iter METHOD_PATTERN line)).
Definition line_assignments (c : GoScopeContext) (pattern suffix line : string) : list ImpureCall :=
  List.concat (map (fun m => match group m 1 with
                             | Some target => mutation_call c target (target ++ suffix)
                             | None => []
                             end) (captures_iter pattern line)).
Definition check_direct_mutation (c : GoScopeContext) (trimmed : string) : list ImpureCall :=
  match m ← captures DIRECT_INCR_DECR_PATTERN trimmed; group m 1 with
  | Some var_name => mutation_call c var_name (var_name ++ " (direct increment/decrement)")
  | None => []
  end.
Definition check_direct_assignment (c : GoScopeContext) (trimmed : string) : list ImpureCall :=
  match m ← captures DIRECT_ASSIGN_PATTERN trimmed; group m 1 with
  | Some var_name =>
      if String.eqb var_name "err" || String.eqb var_name "_" then [] else mutation_call c var_name (var_name ++ " (direct assignment)")
  | None => []
  end.

(** Everything one line contributes, in the order of the checks. *)
Definition line_findings (c : GoScopeContext) (line : string) : list ImpureCall :=
  let trimmed := trim line in
  if starts_with "//" trimmed then []
  else (line_impure_calls line ++ line_method_mutations c line
        ++ line_assignments c FIELD_ASSIGN_PATTERN " (field assignment)" line
        ++ line_assignments c INDEX_ASSIGN_PATTERN " (index assignment)" line
        ++ line_assignments c FIELD_INCR_DECR_PATTERN " (field increment/decrement)" line
        ++ check_direct_mutation c trimmed
        ++ (if contains ":=" trimmed then [] else check_direct_assignment c trimmed))%list.

Definition go_analyze_body (body : string) (parameters : list string) (receiver : option string) : BodyAnalysisResult :=
  let ctx := go_build_scope_context body parameters receiver in
  let impure_calls := List.concat (map (line_findings ctx) (lines body)) in
  mkBody (is_empty impure_calls) impure_calls
    (List.concat (map (fun line => if starts_with "//" (trim line) then [] else line_user_calls line) (lines body))).

(** [impl LanguageAnalyzer for GoPurityAnalyzer]. *)
Definition go_analyzer : LanguageAnalyzer :=
  mkAnalyzer go_classify_function
    (fun function_name file_path =>
       run_map (res_map (fun p => with_receiver p.2 (extracted_new p.1.1 p.1.2))) (extract_go_function function_name file_path))
    (fun e => Ret (go_analyze_body (ef_body e) (ef_parameters e) (ef_receiver e))).
End Go.

(** ** What the Go analyzer establishes

    The body that is cut out of a file by counting braces, the scope of its
    variables, and the verdict [Pure] in terms of the matches on the lines of the
    functions reached, for every regular-expression library.  A function written
    on one line has an empty body and is always called pure. *)

Local Open Scope list_scope.

(** ** Scopes *)

(** No local variable is also a parameter, the receiver or a package variable. *)
Definition scope_disjoint (c : GoScopeContext) : Prop :=
  forall x, x ∈ gs_local_vars c -> x ∉ gs_parameters c /\ gs_receiver c <> Some x /\ x ∉ gs_package_vars c.

Lemma go_add_local_disjoint x c : scope_disjoint c -> scope_disjoint (go_add_local x c).
Proof.
  intros H. unfold go_add_local, is_receiver. repeat case_bool_decide; try done. intros y [->%elem_of_singleton|Hy]%elem_of_union; [done|by apply H].
Qed.

Lemma fold_scope_disjoint {A : Type} (f : GoScopeContext -> A -> GoScopeContext) l c :
  (forall c a, scope_disjoint c -> scope_disjoint (f c a)) -> scope_disjoint c -> scope_disjoint (fold_left f l c).
Proof. intros Hf. revert c. induction l as [|a l IH]; cbn; auto. Qed.

Lemma go_scope_line_disjoint c line : scope_disjoint c -> scope_disjoint (go_scope_line c line).
Proof.
  intros H. unfold go_scope_line, var_declaration, short_declaration. destruct (starts_with _ _); [done|].
  assert (forall q : option (string * string), scope_disjoint match q with Some (lhs, _) =>
      fold_left (fun c var => let var := trim var in if str_is_empty var || contains "." var then c else go_add_local var c) (Logpoint.str_split "," (trim lhs)) c
    | None => c end) as Hs.
  { intros [[lhs r]|]; [|done]. apply fold_scope_disjoint; [|done]. intros c' a Hc'. cbn zeta. destruct (_ || _); [done|by apply go_add_local_disjoint]. }
  destruct (strip_prefix "var " _); [|apply Hs]. destruct (str_is_empty _); [apply Hs|]. apply go_add_local_disjoint, Hs.
Qed.

Lemma go_scope_disjoint body params receiver : scope_disjoint (go_build_scope_context body params receiver).
Proof. apply fold_scope_disjoint; [intros; by apply go_scope_line_disjoint|]. destruct receiver; intros x Hx; cbn in Hx; set_solver. Qed.

Lemma classify_local name c : scope_disjoint c -> classify_go_mutation_target name c = GoLocal <-> name ∈ gs_local_vars c.
Proof.
  intros Hc. specialize (Hc name). unfold classify_go_mutation_target, go_is_local, is_receiver. repeat case_bool_decide; cbn; naive_solver.
Qed.

(** ** Bodies *)

Lemma signature_loop_spec start opening rest header : forall i def, (start < i)%nat -> Forall (fun l => contains "{" l = false) header ->
  contains "{" opening = true ->
  signature_loop start i def (header ++ opening :: rest) = ((i + length header)%nat, (def ++ String.concat "" header)%string).
Proof.
  intros i def Hi Hh Ho. revert i def Hi. induction Hh as [|l header Hl _ IH]; intros i def Hi; cbn -[Nat.ltb String.concat].
  - rewrite Ho. cbn. by rewrite Nat.add_0_r, str_app_nil_r.
  - rewrite Hl, (proj2 (Nat.ltb_lt _ _) Hi), IH by lia. f_equal; [lia|]. by rewrite RustText.concat_cons, str_app_assoc.
Qed.

(** The definition as one text: a signature over several lines is joined up to
    the line with the brace. *)
Definition definition_text (header : list string) (opening : string) : string :=
  match header with [] => opening | _ => String.concat "" header end.

Lemma find_line_app p before line after : Forall (fun l => p l = false) before -> p line = true ->
  forall i, find_line p i (before ++ line :: after) = Some ((i + length before)%nat, line).
Proof.
  intros Hb Hp. induction Hb as [|l before Hl _ IH]; intros i; cbn; [by rewrite Hp, Nat.add_0_r|]. rewrite Hl, IH. do 2 f_equal. lia.
Qed.

(** A function in the lines of a file: its definition is the first line that
    [is_def] accepts, its signature has no brace before the one that opens the
    body, and [inner] are the lines up to the one that balances the braces. *)
Definition function_at (is_def : string -> bool) (ls before header : list string) (opening : string) (inner after : list string) : Prop :=
  ls = before ++ header ++ opening :: inner ++ after /\
  Forall (fun l => is_def l = false) before /\ is_def (default opening (head header)) = true /\
  Forall braceless header /\ contains "{" opening = true /\ balance (opening :: inner) = 0%Z /\
  (forall p q, inner = p ++ q -> q <> [] -> balance (opening :: p) <> 0%Z).

Lemma function_located is_def ls before header opening inner after : function_at is_def ls before header opening inner after ->
  exists first, find_line is_def 0 ls = Some (length before, first) /\
    signature_loop (length before) (length before) first (drop (length before) ls) = ((length before + length header)%nat, definition_text header opening) /\
    extract_body_with_braces ls (length before) (length before + length header) = join nl inner.
Proof.
  intros (-> & Hb & Hd & Hh & Ho & Hbal & Hp).
  assert (exists first tail, header ++ opening :: inner ++ after = first :: tail /\ is_def first = true /\
    signature_loop (length before) (length before) first (first :: tail) = ((length before + length header)%nat, definition_text header opening))
    as (first & tail & Hft & Hfd & Hsig).
  { destruct header as [|h header]; cbn in Hd.
    - exists opening, (inner ++ after). do 2 (split; [done|]). cbn. rewrite Ho. by rewrite Nat.add_0_r.
    - exists h, (header ++ opening :: inner ++ after). do 2 (split; [done|]). inversion Hh as [|? ? [Hh1 _] Hh2]; subst. cbn -[Nat.ltb String.concat].
      rewrite Hh1, Nat.ltb_irrefl, signature_loop_spec; [|lia|eapply list.Forall_impl; [exact Hh2|by intros ? []]|done].
      f_equal; [lia|]. by rewrite RustText.concat_cons. }
  exists first. rewrite Hft, (find_line_app _ before first tail Hb Hfd), drop_app_length. split; [done|]. split; [done|].
  unfold extract_body_with_braces. rewrite drop_app_length, <- Hft. by rewrite (braces_loop_body header opening inner after (length before) Hh Ho Hbal Hp).
Qed.

Section Bodies.
Context (captures_iter : string -> string -> list (list (option string))) (read_file : string -> result string string).
Notation analyzer := (go_analyzer captures_iter read_file).

(** A function whose signature has no brace before the one that opens its
    body is cut out of its file: the lines after the opening one up to the line
    that closes it, with the receiver and the parameters of its signature. *)
Theorem go_body_extracted (f path content : string) (before header : list string) (opening : string) (inner after : list string) :
  read_file path = Ok content -> function_at (is_go_definition f) (lines content) before header opening inner after ->
  extract_go_function read_file f path =
  run_map (fun sig => Ok (join nl inner, sig.2, sig.1)) (extract_go_signature (definition_text header opening)).
Proof.
  intros Hr Hf. destruct (function_located _ _ _ _ _ _ _ Hf) as (first & H1 & H2 & H3).
  unfold extract_go_function. rewrite Hr. cbn zeta. rewrite H1, H2. unfold run_map. by rewrite H3.
Qed.

(** What a line without findings matches. *)
Definition clean_line (c : GoScopeContext) (line : string) : Prop :=
  starts_with "//" (trim line) = true \/
  (forall m f, m ∈ captures_iter CALL_PATTERN line -> group m 1 = Some f -> is_impure_function f = false) /\
  (forall m target method, m ∈ captures_iter METHOD_PATTERN line -> group m 1 = Some target -> group m 2 = Some method ->
     is_go_mutation_method method = true -> target ∈ gs_local_vars c) /\
  (forall p m target, p ∈ [FIELD_ASSIGN_PATTERN; INDEX_ASSIGN_PATTERN; FIELD_INCR_DECR_PATTERN] -> m ∈ captures_iter p line ->
     group m 1 = Some target -> target ∈ gs_local_vars c) /\
  (forall m x, captures captures_iter DIRECT_INCR_DECR_PATTERN (trim line) = Some m -> group m 1 = Some x -> x ∈ gs_local_vars c) /\
  (contains ":=" (trim line) = false -> forall m x, captures captures_iter DIRECT_ASSIGN_PATTERN (trim line) = Some m -> group m 1 = Some x ->
     x = "err" \/ x = "_" \/ x ∈ gs_local_vars c).

Lemma concat_map_nil {A B : Type} (f : A -> list B) l : List.concat (map f l) = [] -> forall a, a ∈ l -> f a = [].
Proof.
  induction l as [|x l IH]; cbn; [intros _ a Ha; inversion Ha|]. intros [H1 H2]%app_eq_nil a [->|Ha]%elem_of_cons; [done|by apply IH].
Qed.

Lemma mutation_call_nil c target what : scope_disjoint c -> mutation_call c target what = [] -> target ∈ gs_local_vars c.
Proof.
  intros Hc. rewrite <- (classify_local target c Hc). unfold mutation_call. by destruct (classify_go_mutation_target target c).
Qed.

Lemma line_findings_nil c line : scope_disjoint c -> line_findings captures_iter c line = [] -> clean_line c line.
Proof.
  intros Hc H. unfold line_findings in H. destruct (starts_with "//" (trim line)) eqn:E; [by left|]. cbn zeta in H. right.
  apply app_eq_nil in H as [H1 H]. apply app_eq_nil in H as [H2 H]. apply app_eq_nil in H as [H3 H]. apply app_eq_nil in H as [H4 H].
  apply app_eq_nil in H as [H5 H]. apply app_eq_nil in H as [H6 H7]. split_and!.
  - intros m f Hm Hg. pose proof (concat_map_nil _ _ H1 m Hm) as Hx. cbn beta in Hx. rewrite Hg in Hx. by destruct (is_impure_function f).
  - intros m t me Hm Hg1 Hg2 Hi. pose proof (concat_map_nil _ _ H2 m Hm) as Hx. cbn beta in Hx. rewrite Hg1, Hg2, Hi in Hx. by eapply mutation_call_nil.
  - intros p m t Hp Hm Hg. assert (exists suffix, line_assignments captures_iter c p suffix line = []) as [suffix Ha] by (set_unfold; naive_solver).
    pose proof (concat_map_nil _ _ Ha m Hm) as Hx. cbn beta in Hx. rewrite Hg in Hx. by eapply mutation_call_nil.
  - intros m x Hm Hg. unfold check_direct_mutation in H6. rewrite Hm in H6. cbn in H6. rewrite Hg in H6. by eapply mutation_call_nil.
  - intros Hn m x Hm Hg. rewrite Hn in H7. unfold check_direct_assignment in H7. rewrite Hm in H7. cbn in H7. rewrite Hg in H7.
    destruct (String.eqb_spec x "err"); [by left|]. destruct (String.eqb_spec x "_"); [by right; left|]. cbn in H7. right; right. by eapply mutation_call_nil.
Qed.

(** If the analysis of bodies calls a Go function pure, then it and every
    function it reaches by name in the file has been found, and no line of its
    body that is not a comment matches a call of a function known to be impure, a
    mutating method, an assignment or an increment whose target is anything but a
    local variable (an assignment to [err] or [_] excepted). *)
Theorem go_pure_verdict (config : LspConfig) (f path : string) (a : PurityAnalysis) :
  readable analyzer path f -> analyze_function_body_for_purity analyzer config f path = Ret a -> pa_level a = Pure ->
  forall g, rtc (body_calls analyzer path) f g -> exists body params receiver,
    extract_go_function read_file g path = Ret (Ok (body, params, receiver)) /\
    Forall (clean_line (go_build_scope_context body params receiver)) (lines body).
Proof.
  intros Hr Ha HP g Hg. destruct (body_search_verdict analyzer config path f Hr) as (a' & Ha' & Hpure & _).
  rewrite Ha in Ha'. injection Ha' as <-. destruct (Hpure HP g Hg) as (b & Hb & Hc). unfold body_of in Hb. cbn -[go_analyze_body] in Hb.
  apply run_bind_ret in Hb as (r & Hr' & Hb). apply run_bind_ret in Hr' as (x & Hx & [= <-]).
  destruct x as [[[body params] receiver]|e]; cbn -[go_analyze_body] in Hb; [|done]. injection Hb as <-.
  exists body, params, receiver. split; [done|]. apply list.Forall_forall. intros line Hline.
  apply line_findings_nil; [apply go_scope_disjoint|]. by apply (concat_map_nil _ _ Hc).
Qed.

(** A function on one line has no body for the analysis, whatever it does. *)
Theorem one_line_function_called_pure (config : LspConfig) (f path content line : string) (before after : list string) sig :
  read_file path = Ok content -> lines content = before ++ line :: after ->
  Forall (fun l => is_go_definition f l = false) before -> is_go_definition f line = true ->
  contains "{" line = true -> line_braces line = 0%Z -> extract_go_signature line = Ret sig ->
  analyze_function_body_for_purity analyzer config f path = Ret pure_analysis.
Proof.
  intros Hr Hl Hb Hd Ho Hbal Hs.
  assert (la_extract_function analyzer f path = Ret (Ok (with_receiver sig.1 (extracted_new EmptyString sig.2)))) as He.
  { cbn. unfold extract_go_function. rewrite Hr. cbn zeta. rewrite Hl, (find_line_app _ before line after Hb Hd). cbn [Nat.add].
    rewrite drop_app_length. cbn. rewrite Ho. cbn. rewrite Hs. cbn. unfold extract_body_with_braces. rewrite drop_app_length. cbn -[Nat.ltb].
    rewrite Ho, Hbal. cbn -[Nat.ltb]. by rewrite Nat.ltb_irrefl. }
  unfold analyze_function_body_for_purity, depth_allowance. cbn [analyze_function_recursively].
  rewrite bool_decide_eq_false_2 by (cbn; set_solver). rewrite He. done.
Qed.
End Bodies.

(** ** A program *)

Module Program.

Definition source : string := "package stats

func Sum(xs []int) int {
	total := 0
	for _, x := range xs {
		total = add(total, x)
	}
	return total
}

func add(a, b int) int {
	return a + b
}

func (c *Counter) Quit(
	code int,
) error { os.Exit(code); return nil }
".
Definition files (path : string) : result string string := Ok source.

(** The matches of the patterns on the lines above. *)
Definition matches (pattern line : string) : list (list (option string)) :=
  if String.eqb pattern CALL_PATTERN && String.eqb line "		total = add(total, x)" then [[Some "add("; Some "add"]]
  else if String.eqb pattern DIRECT_ASSIGN_PATTERN && String.eqb line "total = add(total, x)" then [[Some "total = a"; Some "total"]]
  else [].
Definition analyzer : LanguageAnalyzer := go_analyzer matches files.
Definition config : LspConfig := mkLspConfig true 10 true.

Lemma sum_readable : readable analyzer "stats.go" "Sum".
Proof. apply (closed_names_readable _ _ ["Sum"; "add"]); [vm_compute; reflexivity|by left]. Qed.

Lemma go_pure_verdict_witness : forall g, rtc (body_calls analyzer "stats.go") "Sum" g -> exists body params receiver,
  extract_go_function files g "stats.go" = Ret (Ok (body, params, receiver)) /\
  Forall (clean_line matches (go_build_scope_context body params receiver)) (lines body).
Proof. apply (go_pure_verdict matches files config "Sum" "stats.go" pure_analysis); [exact sum_readable|vm_compute; reflexivity|reflexivity]. Defined.

Lemma no_definition f ls : forallb (fun l => negb (is_go_definition f l)) ls = true -> Forall (fun l => is_go_definition f l = false) ls.
Proof.
  intros H. apply List.Forall_forall. intros l Hl. rewrite forallb_forall in H. specialize (H l Hl). by destruct (is_go_definition f l).
Qed.

Lemma go_body_extracted_witness :
  extract_go_function files "add" "stats.go" =
  run_map (fun sig => Ok (join nl ["	return a + b"; "}"], sig.2, sig.1)) (extract_go_signature (definition_text [] "func add(a, b int) int {")).
Proof.
  apply (go_body_extracted files "add" "stats.go" source (firstn 10 (lines source)) [] "func add(a, b int) int {" ["	return a + b"; "}"] (skipn 13 (lines source)));
    [reflexivity|]. split_and!;
    [vm_compute; reflexivity|by apply no_definition|vm_compute; reflexivity|constructor|vm_compute; reflexivity|vm_compute; reflexivity|].
  intros p q E Hq. destruct p as [|x [|y [|z p]]]; [vm_compute; discriminate| | |discriminate E].
  - injection E as <- _. vm_compute. discriminate.
  - injection E as _ _ E. by subst q.
Defined.

(** The last parameters of a signature stand on the line of the brace, and so
    does the body: neither is seen. *)
Lemma quit_called_pure : run_map pa_level (analyze_function_body_for_purity analyzer config "Quit" "stats.go") = Ret Pure.
Proof. vm_compute. reflexivity. Qed.
End Program.
