(* ===== verification/RustPurity.v ===== *)
(** * Purity of Rust functions

    [crates/detrix-lsp/src/rust.rs]: classification of names by paths, the
    parameters of a signature, the scope of a body, and the search of its lines for
    impure calls and mutations.  The loop for the opening brace is the one of
    [GoPurity].  [captures_iter] and [read_file] as there; [uni_lowercase] is
    [char::is_lowercase] outside ASCII. *)

From Stdlib Require Import Strings.String Strings.Ascii.
From stdpp Require Import gmap relations.
From S2P Require Import Prelude RustStr RustText CoreError Location Metric Event Logpoint SafetyTables SafetyAnalysis SafetyValidator PurityCache CallGraph CallGraphOutcomes FunctionText GoPurity.

Local Open Scope string_scope.
Local Arguments String.append !_ _ / : simpl nomatch.

Definition RUST_CALL_PATTERN : string := "([a-zA-Z_][a-zA-Z0-9_]*(?:::[a-zA-Z_][a-zA-Z0-9_]*)*)\s*[(<]".
Definition RUST_METHOD_PATTERN : string := "([a-zA-Z_][a-zA-Z0-9_]*)\s*\.\s*([a-zA-Z_][a-zA-Z0-9_]*)\s*\(".
Definition RUST_DEREF_PATTERN : string := "\*([a-zA-Z_][a-zA-Z0-9_]*)\s*[\+\-\*/%&\|]?=".

(** ** Scopes *)

Record RustScopeContext : Type := mkRustScope {
  rs_local_vars : gset string; rs_parameters : gset string; rs_mutable_parameters : gset string; rs_has_mut_self : bool; rs_static_vars : gset string
}.
Definition rust_scope_new (mut_self : bool) (parameters : list string) : RustScopeContext := mkRustScope ∅ (list_to_set parameters) ∅ mut_self ∅.
Definition rust_is_local (c : RustScopeContext) (name : string) : bool :=
  bool_decide (name ∈ rs_local_vars c) && negb (bool_decide (name ∈ rs_parameters c)) && negb (bool_decide (name ∈ rs_static_vars c)).
Definition rust_add_local (name : string) (c : RustScopeContext) : RustScopeContext :=
  if negb (bool_decide (name ∈ rs_parameters c)) && negb (bool_decide (name ∈ rs_static_vars c))
  then mkRustScope ({[name]} ∪ rs_local_vars c) (rs_parameters c) (rs_mutable_parameters c) (rs_has_mut_self c) (rs_static_vars c) else c.
Definition add_mut_parameter (c : RustScopeContext) (name : string) : RustScopeContext :=
  mkRustScope (rs_local_vars c) ({[name]} ∪ rs_parameters c) ({[name]} ∪ rs_mutable_parameters c) (rs_has_mut_self c) (rs_static_vars c).
Definition add_static (name : string) (c : RustScopeContext) : RustScopeContext :=
  mkRustScope (rs_local_vars c ∖ {[name]}) (rs_parameters c) (rs_mutable_parameters c) (rs_has_mut_self c) ({[name]} ∪ rs_static_vars c).

Definition classify_rust_mutation_target (name : string) (c : RustScopeContext) : RustMutationTarget :=
  if String.eqb name "self" && rs_has_mut_self c then RsMutableSelf
  else if bool_decide (name ∈ rs_mutable_parameters c) then RsMutableParameter
  else if bool_decide (name ∈ rs_static_vars c) then RsStaticVariable
  else if rust_is_local c name then RsLocal
  else RsUnknown.
Definition is_rust_mutation_method (method : string) : bool := mem method RUST_MUTATION_METHODS.

(** ** Classification *)

(** [q] is a suffix of [s] at a boundary: what comes before it satisfies [ok],
    or nothing does. *)
Definition suffix_at (ok : string -> bool) (q s : string) : bool :=
  if ends_with q s then
    let prefix := substring 0 (String.length s - String.length q) s in str_is_empty prefix || ok prefix
  else false.
Definition matches_with_boundary (name pattern : string) : bool :=
  String.eqb name pattern || suffix_at (fun prefix => ends_with "::" prefix || ends_with "." prefix) pattern name.
Definition rust_is_pure_function (name : string) : bool :=
  mem name RUST_PURE_FUNCTIONS || existsb (matches_with_boundary name) RUST_PURE_FUNCTIONS
  || mem name RUST_ACCEPTABLE_IMPURE || existsb (matches_with_boundary name) RUST_ACCEPTABLE_IMPURE.
Definition rust_is_impure_function (name : string) : bool :=
  mem name RUST_IMPURE_FUNCTIONS || existsb (fun p => suffix_at (ends_with "::") name p) RUST_IMPURE_FUNCTIONS.
Definition rust_classify_function (name : string) : PurityLevel :=
  if rust_is_impure_function name then Impure else if rust_is_pure_function name then Pure else UnknownPurity.

(** ** Signatures *)

Definition extract_param_name (param : string) : option string :=
  let param := trim param in
  if mem param ["self"; "&self"; "&mut self"; "mut self"] then Some "self"
  else
    let name_part := trim (match str_split ":" param with p :: _ => p | [] => param end) in
    let name := trim (trim_start_matches "&" (trim_start_matches "&mut " (trim_start_matches "mut " name_part))) in
    if str_is_empty name || String.eqb name "_" then None else Some name.

Definition is_mut_ref_param (param : string) : bool :=
  match split_once ":" param with Some (_, ty) => starts_with "&mut " (trim ty) | None => false end.

Record RustParams : Type := mkRustParams { rp_params : list string; rp_mut_params : list string; rp_is_mut_self : bool }.

(** A parameter between two commas. *)
Definition take_param (acc : RustParams) (current : string) : RustParams :=
  let param := trim current in
  if str_is_empty param then acc
  else match extract_param_name param with
       | None => acc
       | Some extracted =>
           if String.eqb extracted "self"
           then (if contains "&mut self" param then mkRustParams (rp_params acc) (rp_mut_params acc) true else acc)
           else mkRustParams (rp_params acc ++ [extracted])%list
                  (if is_mut_ref_param param then (rp_mut_params acc ++ [extracted])%list else rp_mut_params acc) (rp_is_mut_self acc)
       end.

Fixpoint params_loop (angle_depth paren_depth : Z) (current : string) (acc : RustParams) (s : string) : RustParams :=
  match s with
  | EmptyString => take_param acc current
  | String ch r =>
      let pushed := current ++ String ch EmptyString in
      if Ascii.eqb ch "<" then params_loop (angle_depth + 1) paren_depth pushed acc r
      else if Ascii.eqb ch ">" then params_loop (angle_depth - 1) paren_depth pushed acc r
      else if Ascii.eqb ch "(" then params_loop angle_depth (paren_depth + 1) pushed acc r
      else if Ascii.eqb ch ")" then params_loop angle_depth (paren_depth - 1) pushed acc r
      else if Ascii.eqb ch "," && (angle_depth =? 0)%Z && (paren_depth =? 0)%Z
           then params_loop angle_depth paren_depth EmptyString (take_param acc current) r
      else params_loop angle_depth paren_depth pushed acc r
  end.

(** The text up to the parenthesis that closes the one it follows, if any. *)
Fixpoint closed_text (depth : nat) (s : string) : option string :=
  match s with
  | EmptyString => None
  | String c r =>
      if Ascii.eqb c "(" then String c <$> closed_text (S depth) r
      else if Ascii.eqb c ")" then match depth with S (S d) => String c <$> closed_text (S d) r | _ => Some EmptyString end
      else String c <$> closed_text depth r
  end.

(** Without a closing parenthesis [end] stays at the opening one, and the slice
    that starts after it panics. *)
Definition extract_parameters_rust (def_line : string) : run RustParams :=
  match split_once "(" def_line with
  | None => Ret (mkRustParams [] [] false)
  | Some (_, after_paren) =>
      match closed_text 1 after_paren with
      | None => Panic
      | Some param_str => Ret (params_loop 0 0 EmptyString (mkRustParams [] [] false) param_str)
      end
  end.

(** ** Extraction *)

Definition is_rust_definition (f line : string) : bool :=
  existsb (fun p => contains p line)
    ["fn " ++ f ++ "("; "fn " ++ f ++ "<"; "pub fn " ++ f ++ "("; "pub fn " ++ f ++ "<"; "pub(crate) fn " ++ f ++ "("; "async fn " ++ f ++ "(";
     "pub async fn " ++ f ++ "("].

Section Rust.
Context (uni_alphabetic uni_numeric uni_lowercase : string -> bool).
Context (captures_iter : string -> string -> list (list (option string))) (read_file : string -> result string string).

Definition extract_rust_function (function_name file_path : string) : run (result (string * RustParams) LspError) :=
  match read_file file_path with
  | Err e => Ret (Err (LspFileNotFound (file_path ++ ": " ++ e)))
  | Ok content =>
      let lines := lines content in
      match find_line (is_rust_definition function_name) 0 lines with
      | None => Ret (Err (FunctionNotFound function_name file_path))
      | Some (start, line) =>
          let '(signature_end, def_line) := signature_loop start start line (drop start lines) in
          let! params := extract_parameters_rust def_line in
          Ret (Ok (extract_body_with_braces lines start signature_end, params))
      end
  end.

(** ** The scope of a body *)

Definition let_binding (trimmed : string) (c : RustScopeContext) : RustScopeContext :=
  match strip_prefix "let " trimmed with
  | None => c
  | Some rest =>
      let rest := trim_start_matches "mut " rest in
      let before_colon := match str_split ":" rest with p :: _ => p | [] => rest end in
      let var_name := trim (match str_split "=" before_colon with p :: _ => p | [] => EmptyString end) in
      if str_is_empty var_name || starts_with "_" var_name then c else rust_add_local var_name c
  end.
Definition static_reference (trimmed : string) (c : RustScopeContext) : RustScopeContext :=
  match find_str "STATIC_" trimmed with
  | None => c
  | Some (_, rest) =>
      let name := String.concat EmptyString (take_while (is_word_char uni_alphabetic uni_numeric) (chars rest)) in
      if str_is_empty name then c else add_static name c
  end.
Definition rust_scope_line (c : RustScopeContext) (line : string) : RustScopeContext :=
  let trimmed := trim line in
  if starts_with "//" trimmed then c else static_reference trimmed (let_binding trimmed c).
Definition rust_build_scope_context (body : string) (p : RustParams) : RustScopeContext :=
  fold_left rust_scope_line (lines body) (fold_left add_mut_parameter (rp_mut_params p) (rust_scope_new (rp_is_mut_self p) (rp_params p))).

(** ** The body *)

Definition rust_mutation_call (c : RustScopeContext) (target what : string) : list ImpureCall :=
  let t := classify_rust_mutation_target target c in
  if is_impure t then match impurity_reason t with Some reason => [mkImpureCall what reason ""] | None => [] end else [].

Definition is_lowercase : string -> bool := char_test is_ascii_lower uni_lowercase.
Definition rust_user_function (f : string) : bool :=
  negb (rust_is_impure_function f) && negb (rust_is_pure_function f) && negb (contains "::" f)
  && match chars f with ch :: _ => is_lowercase ch | [] => false end.

Definition rust_line_findings (c : RustScopeContext) (line : string) : list ImpureCall :=
  if starts_with "//" (trim line) then []
  else (List.concat (map (fun m => match group m 1 with
                                   | Some f => if rust_is_impure_function f then [known_impure f ""] else []
                                   | None => []
                                   end) (captures_iter RUST_CALL_PATTERN line))
        ++ List.concat (map (fun m => match group m 1, group m 2 with
                                      | Some target, Some method =>
                                          if is_rust_mutation_method method then rust_mutation_call c target (target ++ "." ++ method) else []
                                      | _, _ => []
                                      end) (captures_iter RUST_METHOD_PATTERN line))
        ++ List.concat (map (fun m => match group m 1 with
                                      | Some x => rust_mutation_call c x ("*" ++ x)
                                      | None => []
                                      end) (captures_iter RUST_DEREF_PATTERN line)))%list.
Definition rust_line_user_calls (line : string) : list string :=
  if starts_with "//" (trim line) then []
  else List.concat (map (fun m => match group m 1 with Some f => if rust_user_function f then [f] else [] | None => [] end)
                      (captures_iter RUST_CALL_PATTERN line)).
Definition unsafe_blocks (body : string) : list ImpureCall :=
  if contains "unsafe {" body || contains "unsafe{" body then [mkImpureCall "unsafe" "Contains unsafe block" ""] else [].

Definition rust_analyze_body (body : string) (p : RustParams) : BodyAnalysisResult :=
  let ctx := rust_build_scope_context body p in
  let impure_calls := (unsafe_blocks body ++ List.concat (map (rust_line_findings ctx) (lines body)))%list in
  mkBody (is_empty impure_calls) impure_calls (List.concat (map rust_line_user_calls (lines body))).

(** [impl LanguageAnalyzer for RustPurityAnalyzer]. *)
Definition rust_extracted (p : string * RustParams) : ExtractedFunction :=
  with_mut_self (rp_is_mut_self p.2) (with_mutable_params (rp_mut_params p.2) (extracted_new p.1 (rp_params p.2))).
Definition rust_analyzer : LanguageAnalyzer :=
  mkAnalyzer rust_classify_function
    (fun function_name file_path => run_map (res_map rust_extracted) (extract_rust_function function_name file_path))
    (fun e => Ret (rust_analyze_body (ef_body e) (mkRustParams (ef_parameters e) (ef_mutable_params e) (ef_is_mut_self e)))).
End Rust.

(** ** What the Rust analyzer establishes

    The body that is cut out of a file and the verdict [Pure], as for Go.  A
    signature that is spread over several lines, with the closing parenthesis on
    the line of the brace, makes the extraction panic. *)

Local Open Scope list_scope.

(** No local variable is a parameter, and mutable parameters are parameters. *)
Definition rust_scope_ok (c : RustScopeContext) : Prop :=
  (forall x, x ∈ rs_local_vars c -> x ∉ rs_parameters c /\ x ∉ rs_static_vars c) /\ rs_mutable_parameters c ⊆ rs_parameters c.

Lemma rust_add_local_ok x c : rust_scope_ok c -> rust_scope_ok (rust_add_local x c).
Proof. intros [H1 H2]. unfold rust_add_local. repeat case_bool_decide; cbn; try by split. split; cbn; set_solver. Qed.

Lemma add_static_ok x c : rust_scope_ok c -> rust_scope_ok (add_static x c).
Proof. intros [H1 H2]. split; cbn; set_solver. Qed.

Lemma add_mut_parameters_ok ps c : rs_local_vars c = ∅ -> rs_mutable_parameters c ⊆ rs_parameters c -> rust_scope_ok (fold_left add_mut_parameter ps c).
Proof. revert c. induction ps as [|p ps IH]; intros c H1 H2; cbn; [split; set_solver|]. apply IH; cbn; [done|set_solver]. Qed.

Section Scope.
Context (uni_alphabetic uni_numeric : string -> bool).

Lemma rust_scope_line_ok c line : rust_scope_ok c -> rust_scope_ok (rust_scope_line uni_alphabetic uni_numeric c line).
Proof.
  intros Hc. unfold rust_scope_line, static_reference, let_binding. destruct (starts_with "//" _); [done|].
  assert (forall o : option string, rust_scope_ok match o with
    | Some rest =>
        let rest := trim_start_matches "mut " rest in
        let before_colon := match Logpoint.str_split ":" rest with p :: _ => p | [] => rest end in
        let var_name := trim (match Logpoint.str_split "=" before_colon with p :: _ => p | [] => EmptyString end) in
        if str_is_empty var_name || starts_with "_" var_name then c else rust_add_local var_name c
    | None => c end) as Hl.
  { intros [rest|]; [|done]. cbn zeta. destruct (_ || _); [done|by apply rust_add_local_ok]. }
  destruct (Logpoint.find_str "STATIC_" _) as [[]|]; [|apply Hl]. cbn zeta. destruct (str_is_empty _); [apply Hl|apply add_static_ok, Hl].
Qed.

Lemma rust_scope_built body p : rust_scope_ok (rust_build_scope_context uni_alphabetic uni_numeric body p).
Proof.
  unfold rust_build_scope_context. assert (rust_scope_ok (fold_left add_mut_parameter (rp_mut_params p) (rust_scope_new (rp_is_mut_self p) (rp_params p)))) as H
    by (apply add_mut_parameters_ok; [done|cbn; set_solver]).
  revert H. generalize (fold_left add_mut_parameter (rp_mut_params p) (rust_scope_new (rp_is_mut_self p) (rp_params p))). induction (lines body) as [|l ls IH]; intros c Hc; cbn; [done|].
  apply IH. by apply rust_scope_line_ok.
Qed.
End Scope.

Lemma rust_mutation_call_nil c target what : rust_scope_ok c -> rust_mutation_call c target what = [] -> target ∈ rs_local_vars c.
Proof.
  intros [H1 H2]. specialize (H1 target). unfold rust_mutation_call, classify_rust_mutation_target, rust_is_local.
  destruct (String.eqb target "self" && rs_has_mut_self c); [done|]. repeat case_bool_decide; cbn; naive_solver.
Qed.

Section Bodies.
Context (uni_alphabetic uni_numeric uni_lowercase : string -> bool).
Context (captures_iter : string -> string -> list (list (option string))) (read_file : string -> result string string).
Notation analyzer := (rust_analyzer uni_alphabetic uni_numeric uni_lowercase captures_iter read_file).

(** A function with its braces in order is cut out as for Go. *)
Lemma rust_body_extracted f path content before header opening inner after :
  read_file path = Ok content -> function_at (is_rust_definition f) (lines content) before header opening inner after ->
  extract_rust_function read_file f path =
  run_map (fun ps => Ok (join nl inner, ps)) (extract_parameters_rust (definition_text header opening)).
Proof.
  intros Hr Hf. destruct (function_located _ _ _ _ _ _ _ Hf) as (first & H1 & H2 & H3).
  unfold extract_rust_function. rewrite Hr. cbn zeta. rewrite H1, H2. unfold run_map. by rewrite H3.
Qed.

(** What a line without findings matches. *)
Definition rust_clean_line (c : RustScopeContext) (line : string) : Prop :=
  starts_with "//" (trim line) = true \/
  (forall m f, m ∈ captures_iter RUST_CALL_PATTERN line -> group m 1 = Some f -> rust_is_impure_function f = false) /\
  (forall m target method, m ∈ captures_iter RUST_METHOD_PATTERN line -> group m 1 = Some target -> group m 2 = Some method ->
     is_rust_mutation_method method = true -> target ∈ rs_local_vars c) /\
  (forall m x, m ∈ captures_iter RUST_DEREF_PATTERN line -> group m 1 = Some x -> x ∈ rs_local_vars c).

Lemma rust_line_findings_nil c line : rust_scope_ok c -> rust_line_findings captures_iter c line = [] -> rust_clean_line c line.
Proof.
  intros Hc H. unfold rust_line_findings in H. destruct (starts_with "//" (trim line)) eqn:E; [by left|]. right.
  apply app_eq_nil in H as [H1 H]. apply app_eq_nil in H as [H2 H3]. split_and!.
  - intros m f Hm Hg. pose proof (concat_map_nil _ _ H1 m Hm) as Hx. cbn beta in Hx. rewrite Hg in Hx. by destruct (rust_is_impure_function f).
  - intros m t me Hm Hg1 Hg2 Hi. pose proof (concat_map_nil _ _ H2 m Hm) as Hx. cbn beta in Hx. rewrite Hg1, Hg2, Hi in Hx. by eapply rust_mutation_call_nil.
  - intros m x Hm Hg. pose proof (concat_map_nil _ _ H3 m Hm) as Hx. cbn beta in Hx. rewrite Hg in Hx. by eapply rust_mutation_call_nil.
Qed.

(** If the analysis of bodies calls a Rust function pure, then it and every
    function it reaches by name in the file has been found, its body contains no
    unsafe block, and no line of it that is not a comment matches a call of a
    function known to be impure, or a mutating method or an assignment through a
    reference whose target is anything but a local variable. *)
Theorem rust_pure_verdict (config : LspConfig) (f path : string) (a : PurityAnalysis) :
  readable analyzer path f -> analyze_function_body_for_purity analyzer config f path = Ret a -> pa_level a = Pure ->
  forall g, rtc (body_calls analyzer path) f g -> exists body params,
    extract_rust_function read_file g path = Ret (Ok (body, params)) /\
    contains "unsafe {" body = false /\ contains "unsafe{" body = false /\
    Forall (rust_clean_line (rust_build_scope_context uni_alphabetic uni_numeric body params)) (lines body).
Proof.
  intros Hr Ha HP g Hg. destruct (body_search_verdict analyzer config path f Hr) as (a' & Ha' & Hpure & _).
  rewrite Ha in Ha'. injection Ha' as <-. destruct (Hpure HP g Hg) as (b & Hb & Hc). unfold body_of in Hb. cbn -[rust_analyze_body] in Hb.
  apply run_bind_ret in Hb as (r & Hr' & Hb). apply run_bind_ret in Hr' as (x & Hx & [= <-]).
  destruct x as [[body [ps mps ms]]|e]; cbn -[rust_analyze_body] in Hb; [|done]. injection Hb as <-.
  exists body, (mkRustParams ps mps ms). split; [done|]. cbn [br_impure_calls rust_analyze_body] in Hc. apply app_eq_nil in Hc as [Hu Hc].
  unfold unsafe_blocks in Hu. destruct (contains "unsafe {" body); [done|]. destruct (contains "unsafe{" body); [done|]. do 2 (split; [done|]).
  apply list.Forall_forall. intros line Hline.
  apply rust_line_findings_nil; [apply rust_scope_built|]. by apply (concat_map_nil _ _ Hc).
Qed.

Lemma closed_text_none s : str_forall (fun c => negb (Ascii.eqb c ")")) s = true -> forall depth, closed_text depth s = None.
Proof.
  induction s as [|c s IH]; cbn; [done|]. intros [Hc Hs]%andb_true_iff depth. destruct (Ascii.eqb c ")"); [done|].
  destruct (Ascii.eqb c "("); by rewrite IH.
Qed.

(** A signature whose first parenthesis is not closed before the line of the
    brace: the analysis panics. *)
Theorem split_signature_panics (config : LspConfig) (f path content : string) before header opening inner after x rest :
  read_file path = Ok content -> function_at (is_rust_definition f) (lines content) before header opening inner after ->
  split_once "(" (definition_text header opening) = Some (x, rest) -> str_forall (fun c => negb (Ascii.eqb c ")")) rest = true ->
  analyze_function_body_for_purity analyzer config f path = Panic.
Proof.
  intros Hr Hf Hs Hn. unfold analyze_function_body_for_purity, depth_allowance. cbn [analyze_function_recursively].
  rewrite bool_decide_eq_false_2 by (cbn; set_solver). cbn [la_extract_function rust_analyzer].
  rewrite (rust_body_extracted f path content before header opening inner after Hr Hf).
  unfold extract_parameters_rust. rewrite Hs, closed_text_none by done. done.
Qed.
End Bodies.

(** ** A program *)

Module Program.

Definition source : string := "fn total(items: &[u32]) -> u32 {
    let mut sum = 0;
    for x in items {
        sum += scale(*x);
    }
    sum
}

fn scale(x: u32) -> u32 {
    x * 2
}

pub fn merge(
    left: &mut Vec<u32>,
    right: &[u32],
) -> usize {
    left.extend(right);
    left.len()
}
".
Definition files (path : string) : result string string := Ok source.
Definition matches (pattern line : string) : list (list (option string)) :=
  if String.eqb pattern RUST_CALL_PATTERN && String.eqb line "        sum += scale(*x);" then [[Some "scale("; Some "scale"]] else [].
Definition outside_ascii (ch : string) : bool := false.
Definition analyzer : LanguageAnalyzer := rust_analyzer outside_ascii outside_ascii outside_ascii matches files.
Definition config : LspConfig := mkLspConfig true 10 true.

Lemma rust_total_readable : readable analyzer "stats.rs" "total".
Proof. apply (closed_names_readable _ _ ["total"; "scale"]); [vm_compute; reflexivity|by left]. Qed.

Lemma rust_pure_verdict_witness : forall g, rtc (body_calls analyzer "stats.rs") "total" g -> exists body params,
  extract_rust_function files g "stats.rs" = Ret (Ok (body, params)) /\ contains "unsafe {" body = false /\ contains "unsafe{" body = false /\
  Forall (rust_clean_line matches (rust_build_scope_context outside_ascii outside_ascii body params)) (lines body).
Proof.
  apply (rust_pure_verdict outside_ascii outside_ascii outside_ascii matches files config "total" "stats.rs" pure_analysis);
    [exact rust_total_readable|vm_compute; reflexivity|reflexivity].
Defined.

(** A function laid out by the standard formatter. *)
Lemma merge_panics : analyze_function_body_for_purity analyzer config "merge" "stats.rs" = Panic.
Proof. vm_compute. reflexivity. Qed.
End Program.
