(* ===== verification/DebugSession.v ===== *)
(** * The service over a debug session

    [crates/detrix-dap/src/base/adapter.rs]: [BaseAdapter] implements the adapter
    port with the metric manager of [AdapterMetrics], turning its errors into
    core errors ([crates/detrix-dap/src/error.rs]).  With it the theorems of the
    metric service reach the debugger. *)

From Stdlib Require Import Strings.String Strings.Ascii.
From stdpp Require Import gmap sorting.
From S2P Require Import Prelude RustStr CoreError Location Language Metric MetricRepo OutputParsers AdapterMetrics MetricService MetricOutcomes.

Local Open Scope string_scope.
Local Arguments String.append !_ _ / : simpl nomatch.
Local Open Scope svc_scope.

Definition dap_display (e : DapError) : string :=
  match e with
  | DapProtocol s => "Protocol error: " ++ s
  | DapInvalidMessage s => "Invalid message format: " ++ s
  | DapAdapterNotFound s => "Adapter not found: " ++ s
  | DapCommunication s => "Adapter communication error: " ++ s
  | DapInitializationFailed s => "Initialization failed: " ++ s
  | DapTimeout ms => "Request timed out after " ++ show_N ms ++ "ms"
  end.
Definition core_of_dap (e : DapError) : Error := Adapter (dap_display e).

(** A started adapter: its parser, base path, the iteration order of its map of
    active metrics, and its state. *)
Record BaseAdapter (P D : Type) : Type := mkBaseAdapter {
  ba_parser : P; ba_base_path : string; ba_entries : gmap string Metric -> list (string * Metric); ba_state : AdapterState D
}.
Arguments mkBaseAdapter {P D} _ _ _ _.
Arguments ba_parser {P D} _.
Arguments ba_base_path {P D} _.
Arguments ba_entries {P D} _ _.
Arguments ba_state {P D} _.

Section Adapter.
Context {P D : Type} `{LogpointLanguage P} `{Debugger D}.

Definition ba_set_metric (m : Metric) (a : BaseAdapter P D) : BaseAdapter P D * result SetMetricResult Error :=
  let '(st, x) := set_metric (ba_parser a) (ba_base_path a) (ba_entries a) (Ok tt) m (ba_state a) in
  (mkBaseAdapter (ba_parser a) (ba_base_path a) (ba_entries a) st, map_err core_of_dap x).
Definition ba_remove_metric (m : Metric) (a : BaseAdapter P D) : BaseAdapter P D * result RemoveMetricResult Error :=
  let '(st, x) := remove_metric (ba_parser a) (ba_base_path a) (ba_entries a) (Ok tt) m (ba_state a) in
  (mkBaseAdapter (ba_parser a) (ba_base_path a) (ba_entries a) st, map_err core_of_dap x).

#[export] Instance base_adapter : DapAdapter (BaseAdapter P D) :=
  {| adapter_set_metric := ba_set_metric; adapter_remove_metric := ba_remove_metric |}.
End Adapter.

Section Reaches.
Context {R : Type} `{HR : MetricRepository R} `{HL : !RepositoryLaws R}.
Context {P D : Type} `{HP : LogpointLanguage P} `{HD : Debugger D} `{!DebuggerLaws D}.
Context (env : Env).
Notation Sv := (Service R (BaseAdapter P D)).

(** [m] is tracked by the adapter of its connection, and the debugger holds, at
    the path of its file, the breakpoints of exactly the metrics tracked under the
    same spelling of the file. *)
Definition in_debugger (s : Sv) (m : Metric) : Prop :=
  exists ma, sv_adapters s !! m_connection_id m = Some ma
    /\ as_active (ba_state (ma_adapter ma)) !! m_name m = Some m
    /\ mirrored_at (ba_parser (ma_adapter ma)) (ba_base_path (ma_adapter ma)) (ba_state (ma_adapter ma)) (loc_file (m_location m)).

Lemma install_reaches m id (s s' : Sv) ws ma :
  sv_adapters s !! m_connection_id m = Some ma -> (forall l, ba_entries (ma_adapter ma) l ≡ₚ map_to_list l) ->
  install env m id s = (s', Ok ws) ->
  in_debugger s' (with_id m (Some id)) /\ contents s' = contents s.
Proof.
  intros Hma Hperm. unfold install, m_bind at 1, get_adapter. rewrite Hma. unfold m_bind at 1, m_try at 1, on_adapter. rewrite Hma.
  cbn [adapter_set_metric base_adapter]. unfold ba_set_metric.
  destruct (set_metric _ _ _ _ _ _) as [st [r|e]] eqn:Eset; cbn [map_err].
  2: { unfold m_bind, m_try. destruct (storage (repo_delete id) _) as [s2 [[]|e2]]; cbn; discriminate. }
  intros [= <- _]. split; [|done]. destruct (set_metric_ok_inv _ _ _ _ _ _ _ Eset) as (resp & Hsend & Hok & Hact).
  destruct (request_mirrors_at (ba_parser (ma_adapter ma)) (ba_base_path (ma_adapter ma)) (ba_entries (ma_adapter ma)) Hperm _ _ _ _ _ Hsend Hok) as [Hmir _].
  eexists. cbn [sv_adapters]. split; [apply lookup_insert_eq|]. cbn [ma_adapter ba_state ba_parser]. destruct st as [active d]. cbn in Hact, Hmir |- *. subst active.
  split; [apply lookup_insert_eq|done].
Qed.

(** C1: an accepted metric is in the debugger.  When an enabled metric (with a
    location and an owner that its table columns can hold) is added for a
    connection with an adapter, at a line where its owner has none, and the call
    succeeds, then a metric with all the settings asked for is stored under the
    returned id, and one with the same settings and that id is tracked by the
    adapter of its connection under its name; and the debugger, as long as it
    keeps the law of [setBreakpoints], holds at the path to which the metric's
    file name resolves exactly the breakpoints of the metrics tracked under that
    same spelling of the file name (two spellings of one file do not share their
    breakpoints). *)
Theorem added_metric_reaches_debugger (m : Metric) (replace : bool) (content : option string) (s : Sv) (ma : ManagedAdapter (BaseAdapter P D))
  (Hs : repo_inv (sv_storage s)) (Hst : storable m = true) (Hen : m_enabled m = true)
  (Hma : sv_adapters s !! m_connection_id m = Some ma) (Hperm : forall l, ba_entries (ma_adapter ma) l ≡ₚ map_to_list l)
  (Hfree : forall id n, contents s !! id = Some n ->
     ~ (located (m_connection_id m) (loc_file (m_location m)) (loc_line (m_location m)) n /\ m_user_id n = m_user_id m)) :
  let '(s', x) := add_metric env m replace content s in
  forall out, x = Ok out -> exists installed stored,
    same_settings m installed /\ m_id installed = Some (oo_value out) /\ in_debugger s' installed
    /\ contents s' !! oo_value out = Some stored /\ same_settings installed stored.
Proof.
  destruct (add_metric_checks env m replace content s) as [[e ->]|(ws & _ & ->)]; [done|]. set (s1 := mkService _ _ _ _). unfold m_bind at 1.
  pose proof (find_by_location_law (sv_storage s1) (m_connection_id m) (loc_file (m_location m)) (loc_line (m_location m))
    (owner_of (m_user_id m)) Hs (storable_owner m Hst)) as Hlaw.
  unfold storage at 1. destruct (repo_find_by_location _ _ _ _ (sv_storage s1)) as [r [[ex|]|e]]; cbn [map_err]; destruct Hlaw as (Hr & Hcr & Hsome & _); [| |done].
  { exfalso. destruct (Hsome ex eq_refl) as (id & Hex & Hloc & Hown). eapply Hfree; [exact Hex|]. split; [done|].
    unfold owned, owner_of in Hown. by destruct (m_user_id m). }
  set (s2 := mkService r _ _ _). unfold insert_new. destruct (capture_anchor env m) as [m' aws] eqn:Ea.
  assert (same_settings m m' /\ storable m' = true) as [Hsame Hst'].
  { unfold capture_anchor in Ea. destruct (env_capture_anchor env _ _); injection Ea as <- _; by repeat split. }
  pose proof (same_settings_fields _ _ Hsame) as (Hn & Hc & Hl & He & Hen' & Hu & Hag). unfold m_bind at 1.
  pose proof (save_outcome (env_now env) m' s2 Hr Hst') as Hsv.
  destruct (storage (repo_save (env_now env) m') s2) as [s3 [id|e]]; [|done]. destruct Hsv as (_ & Had & _ & Hfresh & Hc3).
  rewrite Hen', Hen. unfold m_bind at 1. destruct (install env m' id s3) as [s4 [iws|e]] eqn:Ei; [|done].
  apply (install_reaches m' id s3 s4 iws ma) in Ei as [Hin Hc4]; [|by rewrite Had, Hc|done].
  cbn. intros out [= <-]. cbn. exists (with_id m' (Some id)), (saved_metric (env_now env) id m').
  split; [by repeat split|]. split; [done|]. split; [exact Hin|]. split; [|by repeat split].
  unfold contents in *. cbn. rewrite Hc4, Hc3. apply lookup_insert_eq.
Qed.
End Reaches.

(** ** Instances *)

Definition session_service : Service Table (BaseAdapter PythonParser EchoDebugger) :=
  mkService empty_table {[ "conn" := mkManaged (mkBaseAdapter PythonP "/w" map_to_list empty_session) false ]} [] [].

Definition debugger_lines {P : Type} (s : Service Table (BaseAdapter P EchoDebugger)) (file : string) : list N :=
  match sv_adapters s !! "conn" with
  | Some ma => map sb_line (breakpoints_of (as_debugger (ba_state (ma_adapter ma))) file)
  | None => []
  end.

Lemma added_metric_reaches_debugger_witness :
  let m := owned_metric "m1" "bob" "/a.py" 3 ["x"] in
  let '(s', x) := add_metric sample_env m false None session_service in
  (exists installed, same_settings m installed /\ in_debugger s' installed) /\ debugger_lines s' "/a.py" = [3%N].
Proof.
  intros m.
  pose proof (added_metric_reaches_debugger sample_env m false None session_service
    (mkManaged (mkBaseAdapter PythonP "/w" map_to_list empty_session) false) (empty_table_inv []) eq_refl eq_refl eq_refl
    (fun l => Permutation_refl _) ltac:(intros id n Hn; discriminate Hn)) as Hh.
  assert (exists out, snd (add_metric sample_env m false None session_service) = Ok out) as [out Hout] by (eexists; vm_compute; reflexivity).
  assert (debugger_lines (fst (add_metric sample_env m false None session_service)) "/a.py" = [3%N]) as Hl by (vm_compute; reflexivity).
  destruct (add_metric sample_env m false None session_service) as [s' x]. cbn [fst snd] in *. subst x.
  destruct (Hh out eq_refl) as (inst & st & H1 & _ & H2 & _). split; [by exists inst|exact Hl].
Defined.

(** Metrics of the same name displace each other.  Nothing forbids two
    metrics, of one owner or of two, to share a name, but the adapter tracks
    metrics by name: once alice has added hers in another file, bob's metric is
    no longer tracked, and the next change to its file takes its logpoint out of
    the debugger although it is stored as enabled. *)
Theorem same_name_metrics_displace :
  let s := run_history sample_env
             [SAdd (owned_metric "m1" "bob" "/a.py" 3 ["x"]) false None; SAdd (owned_metric "m1" "alice" "/b.py" 7 ["y"]) false None;
              SAdd (owned_metric "m2" "bob" "/a.py" 9 ["z"]) false None] session_service in
  (m_enabled <$> contents s !! 1%N) = Some true /\ (m_location <$> contents s !! 1%N) = Some (mkLocation "/a.py" 3)
  /\ debugger_lines s "/a.py" = [9%N].
Proof. vm_compute. repeat split. Qed.
