(* ===== verification/Reconnect.v ===== *)
(** * Reconnection

    [crates/detrix-application/src/middleware/reconnecting_adapter.rs] and
    [reconnecting_factory.rs]: an adapter around another one that starts it again
    when a connection fails and puts the metrics back.  The inner adapter is any
    implementation of the port [DapAdapter] of [crates/detrix-ports/src/adapter.rs],
    here the class [AdapterPort].

    Operations run one after another; [Waiting] at the end models the overlap of
    two callers on the flag and the notification.  The delay between attempts is
    left out: it only passes time.  The number of attempts is bounded by
    [max_attempts], on which [reconnect_loop] recurses. *)

From Stdlib Require Import Strings.String.
From stdpp Require Import gmap relations.
From S2P Require Import Prelude RustStr CoreError Location Language Metric AdapterMetrics.

Local Open Scope string_scope.
Local Arguments String.append !_ _ / : simpl nomatch.

(** ** The port *)

Class AdapterPort (A : Type) : Type := {
  ap_start : A -> A * result unit Error;
  ap_stop : A -> A * result unit Error;
  ap_is_connected : A -> bool;
  ap_set_metric : Metric -> A -> A * result SetMetricResult Error;
  ap_remove_metric : Metric -> A -> A * result RemoveMetricResult Error;
  ap_subscribe_events : A -> A * result unit Error;
  ap_continue_execution : A -> A * result bool Error;
  ap_get_total_drop_count : A -> result N Error
}.
(** The provided methods of the trait. *)
Definition default_continue_execution {A : Type} (a : A) : A * result bool Error := (a, Ok true).
Definition default_total_drop_count {A : Type} (a : A) : result N Error := Ok 0%N.

(** ** The wrapper *)

Inductive ConnectionState : Type := Disconnected | Connecting | Connected | Backoff | Failed.
#[export] Instance ConnectionState_eq_dec : EqDecision ConnectionState.
Proof. solve_decision. Defined.

Record ReconnectStats : Type := mkRStats {
  rs_total_attempts : N; rs_successful_reconnects : N; rs_failed_attempts : N; rs_metrics_restored : N; rs_consecutive_failures : N
}.
Record ReconnectConfig : Type := mkRConfig { rc_enabled : bool; rc_max_attempts : N; rc_restore_metrics : bool }.

Record ReconnectingAdapter (A : Type) : Type := mkRA {
  ra_inner : A; ra_state : ConnectionState; ra_attempt : N; ra_registered : list Metric; ra_stats : ReconnectStats
}.
Arguments mkRA {A} _ _ _ _ _.
Arguments ra_inner {A} _.
Arguments ra_state {A} _.
Arguments ra_attempt {A} _.
Arguments ra_registered {A} _.
Arguments ra_stats {A} _.

Section Wrapper.
Context {A : Type} `{AdapterPort A} (config : ReconnectConfig).
Notation RA := (ReconnectingAdapter A).

Definition ra_new (inner : A) : RA := mkRA inner Disconnected 0 [] (mkRStats 0 0 0 0 0).

Definition set_inner (a : A) (r : RA) : RA := mkRA a (ra_state r) (ra_attempt r) (ra_registered r) (ra_stats r).
Definition set_conn_state (s : ConnectionState) (r : RA) : RA := mkRA (ra_inner r) s (ra_attempt r) (ra_registered r) (ra_stats r).
Definition set_attempt (n : N) (r : RA) : RA := mkRA (ra_inner r) (ra_state r) n (ra_registered r) (ra_stats r).
Definition set_registered (ms : list Metric) (r : RA) : RA := mkRA (ra_inner r) (ra_state r) (ra_attempt r) ms (ra_stats r).
Definition set_stats (s : ReconnectStats) (r : RA) : RA := mkRA (ra_inner r) (ra_state r) (ra_attempt r) (ra_registered r) s.

(** [+= 1] on a [u32] of a release build. *)
Definition u32_add (a b : N) : N := wrap 32 (a + b).
Definition count_attempt (s : ReconnectStats) : ReconnectStats :=
  mkRStats (u32_add (rs_total_attempts s) 1) (rs_successful_reconnects s) (rs_failed_attempts s) (rs_metrics_restored s) (rs_consecutive_failures s).
Definition count_success (s : ReconnectStats) : ReconnectStats :=
  mkRStats (rs_total_attempts s) (u32_add (rs_successful_reconnects s) 1) (rs_failed_attempts s) (rs_metrics_restored s) 0.
Definition count_failure (s : ReconnectStats) : ReconnectStats :=
  mkRStats (rs_total_attempts s) (rs_successful_reconnects s) (u32_add (rs_failed_attempts s) 1) (rs_metrics_restored s) (u32_add (rs_consecutive_failures s) 1).
Definition count_restored (n : N) (s : ReconnectStats) : ReconnectStats :=
  mkRStats (rs_total_attempts s) (rs_successful_reconnects s) (rs_failed_attempts s) (u32_add (rs_metrics_restored s) n) (rs_consecutive_failures s).

(** The loop of [restore_metrics] over the inner adapter. *)
Definition restore_one (acc : A * N) (m : Metric) : A * N :=
  let '(a, restored) := acc in
  match ap_set_metric m a with (a, Ok _) => (a, (restored + 1)%N) | (a, Err _) => (a, restored) end.
Definition restore_metrics (r : RA) : RA :=
  match ra_registered r with
  | [] => r
  | metrics => let '(a, restored) := fold_left restore_one metrics (ra_inner r, 0%N) in set_stats (count_restored restored (ra_stats r)) (set_inner a r)
  end.

(** The loop of [do_reconnect]; [left] attempts remain, this is number [attempt]. *)
Definition exhausted (max_attempts : N) : Error := NotConnected ("Max reconnection attempts (" ++ show_N max_attempts ++ ") exhausted").
Fixpoint reconnect_loop (remaining : nat) (attempt max_attempts : N) (r : RA) : RA * result unit Error :=
  match remaining with
  | O => (set_conn_state Failed r, Err (exhausted max_attempts))
  | S remaining =>
      let r := set_stats (count_attempt (ra_stats r)) (set_attempt attempt r) in
      let r := set_conn_state Connecting (if (0 <? attempt)%N then set_conn_state Backoff r else r) in
      match ap_start (ra_inner r) with
      | (a, Ok _) =>
          let r := set_stats (count_success (ra_stats r)) (set_attempt 0 (set_conn_state Connected (set_inner a r))) in
          ((if rc_restore_metrics config then restore_metrics r else r), Ok tt)
      | (a, Err _) => reconnect_loop remaining (attempt + 1) max_attempts (set_stats (count_failure (ra_stats r)) (set_inner a r))
      end
  end.
Definition max_attempts : N := if (rc_max_attempts config =? 0)%N then (2 ^ 32 - 1)%N else rc_max_attempts config.
Definition do_reconnect (r : RA) : RA * result unit Error :=
  reconnect_loop (N.to_nat max_attempts) 0 max_attempts (set_conn_state Connecting r).

(** Without another caller the flag is free. *)
Definition attempt_reconnect (r : RA) : RA * result unit Error :=
  if negb (rc_enabled config) then (r, Err (NotConnected "Reconnection disabled")) else do_reconnect r.

Definition same_id (id : N) (m : Metric) : bool := bool_decide (m_id m = Some id).
Definition without_id (id : N) (ms : list Metric) : list Metric := List.filter (fun m => negb (same_id id m)) ms.
Definition track_metric (m : Metric) (r : RA) : RA :=
  set_registered (match m_id m with Some id => without_id id (ra_registered r) | None => ra_registered r end ++ [m])%list r.
Definition untrack_metric (m : Metric) (r : RA) : RA :=
  match m_id m with Some id => set_registered (without_id id (ra_registered r)) r | None => r end.

Definition is_connection_error (e : Error) : bool := match e with NotConnected _ | Adapter _ | Io _ => true | _ => false end.

Definition on_inner {X : Type} (f : A -> A * X) (r : RA) : RA * X := let '(a, x) := f (ra_inner r) in (set_inner a r, x).

Definition ra_start (r : RA) : RA * result unit Error :=
  match ap_start (ra_inner r) with
  | (a, Ok _) => (set_conn_state Connected (set_inner a r), Ok tt)
  | (a, Err e) => if rc_enabled config then attempt_reconnect (set_inner a r) else (set_inner a r, Err e)
  end.
Definition ra_stop (r : RA) : RA * result unit Error :=
  on_inner ap_stop (set_registered [] (set_conn_state Disconnected r)).
Definition ra_is_connected (r : RA) : bool := ap_is_connected (ra_inner r).
Definition ra_ensure_connected (r : RA) : RA * result unit Error :=
  if ap_is_connected (ra_inner r) then (r, Ok tt)
  else match ra_state r with
       | Connected => (r, Ok tt)
       | Failed => if negb (rc_enabled config) then (r, Err (NotConnected "Connection failed and reconnection is disabled")) else attempt_reconnect r
       | _ => attempt_reconnect r
       end.

(** An operation on the inner adapter, again after a reconnection when the
    connection was the problem. *)
Definition retried {X : Type} (op : A -> A * result X Error) (r : RA) : RA * result X Error :=
  match on_inner op r with
  | (r, Err e) =>
      if rc_enabled config && is_connection_error e
      then match attempt_reconnect r with (r, Ok _) => on_inner op r | (r, Err e) => (r, Err e) end
      else (r, Err e)
  | ok => ok
  end.

Definition ra_set_metric (m : Metric) (r : RA) : RA * result SetMetricResult Error :=
  let r := if rc_restore_metrics config then track_metric m r else r in
  if ra_is_connected r then retried (ap_set_metric m) r
  else match ra_ensure_connected r with
       | (r, Ok _) => retried (ap_set_metric m) r
       | (r, Err e) => (r, Err e)
       end.
Definition ra_remove_metric (m : Metric) (r : RA) : RA * result RemoveMetricResult Error :=
  let r := untrack_metric m r in
  if negb (ra_is_connected r) then (r, Ok (mkRMR true None)) else retried (ap_remove_metric m) r.
Definition ra_subscribe_events (r : RA) : RA * result unit Error :=
  if ra_is_connected r then on_inner ap_subscribe_events r
  else match ra_ensure_connected r with
       | (r, Ok _) => on_inner ap_subscribe_events r
       | (r, Err e) => (r, Err e)
       end.

(** The wrapper as an adapter: what it does not define is provided by the trait. *)
#[export] Instance reconnecting_port : AdapterPort RA := {
  ap_start := ra_start; ap_stop := ra_stop; ap_is_connected := ra_is_connected; ap_set_metric := ra_set_metric;
  ap_remove_metric := ra_remove_metric; ap_subscribe_events := ra_subscribe_events;
  ap_continue_execution := default_continue_execution; ap_get_total_drop_count := default_total_drop_count
}.
End Wrapper.

(** ** Overlapping callers *)

(** Where a caller of [attempt_reconnect] stands: it holds the flag; it has found
    the flag taken but not yet asked to be notified; it waits; it has returned. *)
Inductive Phase : Type := Holding | Refused | Waiting | Returned.
Record Lock : Type := mkLock { lk_flag : bool; lk_callers : gmap nat Phase }.

Definition wake (p : Phase) : Phase := match p with Waiting => Returned | p => p end.

(** [compare_exchange]; [notified().await]; the drop of the guard, which frees the
    flag and wakes those who wait at that moment. *)
Inductive lock_step : Lock -> Lock -> Prop :=
| step_take l i : lk_flag l = false -> lk_callers l !! i = None -> lock_step l (mkLock true (<[i := Holding]> (lk_callers l)))
| step_refused l i : lk_flag l = true -> lk_callers l !! i = None -> lock_step l (mkLock true (<[i := Refused]> (lk_callers l)))
| step_wait l i : lk_callers l !! i = Some Refused -> lock_step l (mkLock (lk_flag l) (<[i := Waiting]> (lk_callers l)))
| step_release l i : lk_callers l !! i = Some Holding -> lock_step l (mkLock false (<[i := Returned]> (wake <$> lk_callers l))).

(** ** What reconnection keeps

    The list of tracked metrics as a finite map by id, over any history of calls;
    which calls a reconnection makes of the inner adapter; when it gives up.
    Nothing is assumed of the inner adapter.  At the end, what the wrapper does not
    do. *)

Local Open Scope list_scope.

(** ** The list of tracked metrics *)

Section History.
Context {A : Type} `{AdapterPort A} (config : ReconnectConfig).
Notation RA := (ReconnectingAdapter A).

Inductive Op : Type := OpStart | OpStop | OpEnsure | OpSet (m : Metric) | OpRemove (m : Metric) | OpSubscribe.
Definition apply_op (r : RA) (op : Op) : RA :=
  match op with
  | OpStart => (ra_start config r).1
  | OpStop => (ra_stop r).1
  | OpEnsure => (ra_ensure_connected config r).1
  | OpSet m => (ra_set_metric config m r).1
  | OpRemove m => (ra_remove_metric config m r).1
  | OpSubscribe => (ra_subscribe_events config r).1
  end.
(** The metrics wanted after a history. *)
Definition want (w : gmap N Metric) (op : Op) : gmap N Metric :=
  match op with
  | OpSet m => match m_id m with Some id => <[id := m]> w | None => w end
  | OpRemove m => match m_id m with Some id => delete id w | None => w end
  | OpStop => ∅
  | _ => w
  end.
(** Metrics come from the registry, with an id. *)
Definition numbered (op : Op) : Prop := match op with OpSet m | OpRemove m => is_Some (m_id m) | _ => True end.

Lemma restore_metrics_registered r : ra_registered (restore_metrics r) = ra_registered r.
Proof. unfold restore_metrics. destruct (ra_registered r) eqn:E; [done|]. by destruct (fold_left _ _ _). Qed.

Lemma reconnect_loop_registered n : forall k mx r, ra_registered (reconnect_loop config n k mx r).1 = ra_registered r.
Proof.
  induction n as [|n IH]; intros k mx r; cbn; [done|]. destruct (ap_start _) as [a [[]|e]]; cbn.
  - destruct (rc_restore_metrics config); [rewrite restore_metrics_registered|]; by destruct (0 <? k)%N.
  - rewrite IH. by destruct (0 <? k)%N.
Qed.

Lemma attempt_registered r : ra_registered (attempt_reconnect config r).1 = ra_registered r.
Proof. unfold attempt_reconnect, do_reconnect. destruct (negb _); [done|]. by rewrite reconnect_loop_registered. Qed.

Lemma ensure_registered r : ra_registered (ra_ensure_connected config r).1 = ra_registered r.
Proof. unfold ra_ensure_connected. destruct (ap_is_connected _); [done|]. destruct (ra_state r); try done; try apply attempt_registered. destruct (negb _); [done|apply attempt_registered]. Qed.

Lemma on_inner_registered {X} (f : A -> A * X) r : ra_registered (on_inner f r).1 = ra_registered r.
Proof. unfold on_inner. by destruct (f _). Qed.

Lemma retried_registered {X} (op : A -> A * result X Error) r : ra_registered (retried config op r).1 = ra_registered r.
Proof.
  unfold retried. pose proof (on_inner_registered op r) as H1. destruct (on_inner op r) as [r1 [x|e]]; [done|]. cbn in H1.
  destruct (_ && _); [|done]. pose proof (attempt_registered r1) as H2. destruct (attempt_reconnect config r1) as [r2 [[]|e2]]; cbn in H2 |- *; [|congruence].
  rewrite on_inner_registered. congruence.
Qed.

Lemma set_metric_registered m r :
  ra_registered (ra_set_metric config m r).1 = ra_registered (if rc_restore_metrics config then track_metric m r else r).
Proof.
  unfold ra_set_metric. set (r1 := if rc_restore_metrics config then _ else _). destruct (ra_is_connected r1); [apply retried_registered|].
  pose proof (ensure_registered r1) as H1. destruct (ra_ensure_connected config r1) as [r2 [[]|e]]; cbn in H1 |- *; [|done]. rewrite retried_registered. done.
Qed.

Lemma remove_metric_registered m r : ra_registered (ra_remove_metric config m r).1 = ra_registered (untrack_metric m r).
Proof. unfold ra_remove_metric. destruct (negb _); [done|apply retried_registered]. Qed.

Lemma other_registered r op : (match op with OpStart | OpEnsure | OpSubscribe => True | _ => False end) ->
  ra_registered (apply_op r op) = ra_registered r.
Proof.
  destruct op; try done; intros _; cbn.
  - unfold ra_start. destruct (ap_start _) as [a [[]|e]]; [done|]. destruct (rc_enabled config); [by rewrite attempt_registered|done].
  - apply ensure_registered.
  - unfold ra_subscribe_events. destruct (ra_is_connected r); [apply on_inner_registered|].
    pose proof (ensure_registered r) as H1. destruct (ra_ensure_connected config r) as [r2 [[]|e]]; cbn in H1 |- *; [|done]. by rewrite on_inner_registered.
Qed.

(** The list holds, in some order, one metric for each id of [w]. *)
Definition tracks (ms : list Metric) (w : gmap N Metric) : Prop :=
  forall id m, w !! id = Some m <-> m ∈ ms /\ m_id m = Some id.
Definition unique_ids (ms : list Metric) : Prop := (forall m, m ∈ ms -> is_Some (m_id m)) /\ base.NoDup (map m_id ms).

Lemma elem_without_id id ms m : m ∈ without_id id ms <-> m ∈ ms /\ m_id m <> Some id.
Proof.
  unfold without_id, same_id. rewrite !list_elem_of_In, List.filter_In. case_bool_decide; cbn; naive_solver.
Qed.

Lemma unique_without id ms : unique_ids ms -> unique_ids (without_id id ms).
Proof.
  intros [H1 H2]. split; [intros m [Hm _]%elem_without_id; by apply H1|]. clear H1. induction ms as [|m ms IH]; [done|]. cbn in H2 |- *.
  apply list.NoDup_cons in H2 as [Hm Hn]. specialize (IH Hn). destruct (negb (same_id id m)); [|done]. cbn. constructor; [|done].
  intros Hin. apply Hm. apply list_elem_of_fmap in Hin as (x & -> & Hx). apply list_elem_of_fmap. exists x. by apply elem_without_id in Hx as [Hx _].
Qed.
Lemma unique_add id ms m : m_id m = Some id -> unique_ids ms -> unique_ids (without_id id ms ++ [m]).
Proof.
  intros Hid Hu. destruct (unique_without id ms Hu) as [H1 H2]. split.
  - intros x [Hx|Hx]%elem_of_app; [by apply H1|]. apply list_elem_of_singleton in Hx as ->. by exists id.
  - rewrite map_app. apply list.NoDup_app. split; [done|]. split; [|repeat constructor; by intros ?%elem_of_nil].
    intros o (x & -> & [_ Hx]%elem_without_id)%list_elem_of_fmap Hin. apply list_elem_of_singleton in Hin. congruence.
Qed.

Lemma tracks_set ms w m id : m_id m = Some id -> tracks ms w -> tracks (without_id id ms ++ [m]) (<[id := m]> w).
Proof.
  intros Hid Ht i x. rewrite elem_of_app, elem_without_id, list_elem_of_singleton. destruct (decide (i = id)) as [->|Ne].
  - rewrite lookup_insert_eq. naive_solver.
  - rewrite lookup_insert_ne by done. rewrite (Ht i x). naive_solver.
Qed.

Lemma tracks_remove ms w id : tracks ms w -> tracks (without_id id ms) (delete id w).
Proof.
  intros Ht i x. rewrite elem_without_id. destruct (decide (i = id)) as [->|Ne].
  - rewrite lookup_delete_eq. naive_solver.
  - rewrite lookup_delete_ne by done. rewrite (Ht i x). naive_solver.
Qed.

Lemma apply_tracks op r w : rc_restore_metrics config = true -> numbered op ->
  tracks (ra_registered r) w -> unique_ids (ra_registered r) ->
  tracks (ra_registered (apply_op r op)) (want w op) /\ unique_ids (ra_registered (apply_op r op)).
Proof.
  intros Hc Hn Ht Hu. destruct op as [| | |m|m|]; try (rewrite other_registered by done; done); cbn [apply_op want].
  - unfold ra_stop. rewrite on_inner_registered. cbn. split; [|split; [intros m Hm; inversion Hm|constructor]]. intros id m. rewrite lookup_empty.
    split; [done|]. intros [Hm _]. inversion Hm.
  - rewrite set_metric_registered, Hc. destruct Hn as [id Hid]. unfold track_metric. rewrite Hid. cbn. split; [by apply tracks_set|by apply unique_add].
  - rewrite remove_metric_registered. destruct Hn as [id Hid]. unfold untrack_metric. rewrite Hid. cbn. split; [by apply tracks_remove|by apply unique_without].
Qed.

Lemma history_tracks ops : rc_restore_metrics config = true -> Forall numbered ops -> forall (r : RA) w,
  tracks (ra_registered r) w -> unique_ids (ra_registered r) ->
  tracks (ra_registered (fold_left apply_op ops r)) (fold_left want ops w) /\ unique_ids (ra_registered (fold_left apply_op ops r)).
Proof.
  intros Hc Hn. induction Hn as [|op ops Hop _ IH]; intros r w Ht Hu; cbn; [done|].
  destruct (apply_tracks op r w Hc Hop Ht Hu). by apply IH.
Qed.

Lemma new_tracks (a : A) : tracks (ra_registered (ra_new a)) ∅ /\ unique_ids (ra_registered (ra_new a)).
Proof. split; [|split; [intros m Hm; inversion Hm|constructor]]. intros id m. rewrite lookup_empty. split; [done|]. intros [Hm _]. inversion Hm. Qed.
End History.

(** ** Restoring *)

Section Restore.
Context {A : Type} `{AdapterPort A} (config : ReconnectConfig).
Notation RA := (ReconnectingAdapter A).

(** [n] attempts to start that fail. *)
Fixpoint failing_starts (n : nat) (a : A) : option A :=
  match n with
  | O => Some a
  | S n => match ap_start a with (a', Err _) => failing_starts n a' | (_, Ok _) => None end
  end.

Lemma reconnect_loop_spec n : forall k mx (r : RA),
  let res := reconnect_loop config n k mx r in
  (exists j a1 a2 r1, (j < n)%nat /\ failing_starts j (ra_inner r) = Some a1 /\ ap_start a1 = (a2, Ok tt) /\ res.2 = Ok tt /\
     ra_inner r1 = a2 /\ ra_state r1 = Connected /\ ra_registered r1 = ra_registered r /\
     res.1 = if rc_restore_metrics config then restore_metrics r1 else r1) \/
  (exists a1, failing_starts n (ra_inner r) = Some a1 /\ res.2 = Err (exhausted mx) /\ ra_state res.1 = Failed /\ ra_inner res.1 = a1).
Proof.
  induction n as [|n IH]; intros k mx r; cbn [reconnect_loop]; [right; by exists (ra_inner r)|].
  set (r0 := set_conn_state Connecting _). assert (ra_inner r0 = ra_inner r) as Hi by (subst r0; by destruct (0 <? k)%N).
  assert (ra_registered r0 = ra_registered r) as Hreg by (subst r0; by destruct (0 <? k)%N). rewrite Hi. clearbody r0.
  destruct (ap_start (ra_inner r)) as [a [[]|e]] eqn:Es; cbn zeta.
  - left. eexists 0%nat, (ra_inner r), a, _. split; [lia|]. split; [done|]. split; [done|]. split; [done|]. split; [|split; [|split; [|reflexivity]]]; done.
  - destruct (IH (k + 1)%N mx (set_stats (count_failure (ra_stats r0)) (set_inner a r0))) as [(j & a1 & a2 & r1 & Hj & Hf & H1)|(a1 & Hf & H1)].
    + left. exists (S j), a1, a2, r1. split; [lia|]. cbn. rewrite Es. split; [exact Hf|]. rewrite <- Hreg. exact H1.
    + right. exists a1. cbn. rewrite Es. split; [exact Hf|exact H1].
Qed.

(** The inner adapter after it was asked to set these metrics, one after another,
    whatever it answers to each. *)
Definition asked_to_set (ms : list Metric) (a : A) : A := fold_left (fun a m => (ap_set_metric m a).1) ms a.

Lemma restore_asks ms : forall a n, (fold_left restore_one ms (a, n)).1 = asked_to_set ms a.
Proof.
  induction ms as [|m ms IH]; intros a n; [done|]. unfold asked_to_set. cbn. destruct (ap_set_metric m a) as [a' [x|e]]; apply IH.
Qed.

Lemma restored (r : RA) : ra_inner (restore_metrics r) = asked_to_set (ra_registered r) (ra_inner r) /\ ra_state (restore_metrics r) = ra_state r.
Proof.
  unfold restore_metrics. destruct (ra_registered r) as [|m ms] eqn:Er; [done|]. pose proof (restore_asks (m :: ms) (ra_inner r) 0) as Hf.
  destruct (fold_left restore_one (m :: ms) (ra_inner r, 0%N)) as [a n]. cbn [fst] in Hf. by subst a.
Qed.

(** C35: metrics survive a lost connection, as far as the wrapper can see to it.
    With reconnection and restoring enabled, after any history of calls whose
    metrics have ids, the list of tracked metrics holds exactly those that the
    wrapper was asked to set (whether the inner adapter accepted them or not) and
    not asked to remove since, nor dropped by a stop, each once and in its latest
    version.  A reconnection succeeds as soon as one of the allowed attempts to start the inner
    adapter does; then the state is connected, and after that start the inner
    adapter has been asked to set every tracked metric, once each and nothing
    else.  Nothing is assumed of the inner adapter: what it answers to a metric is
    not looked at (a refusal is only left out of the count), so whether the
    metric is in the debugger again is up to it. *)
Theorem metrics_survive_reconnection (ops : list Op) (a0 : A) :
  rc_restore_metrics config = true -> rc_enabled config = true -> Forall numbered ops ->
  let r := fold_left (apply_op config) ops (ra_new a0) in
  (forall id m, fold_left want ops ∅ !! id = Some m <-> m ∈ ra_registered r /\ m_id m = Some id) /\
  (forall m, m ∈ ra_registered r -> is_Some (m_id m)) /\ base.NoDup (map m_id (ra_registered r)) /\
  (forall j a1, (j < N.to_nat (max_attempts config))%nat -> failing_starts j (ra_inner r) = Some a1 -> is_ok (ap_start a1).2 = true ->
     (attempt_reconnect config r).2 = Ok tt) /\
  (forall r', attempt_reconnect config r = (r', Ok tt) ->
     ra_state r' = Connected /\
     exists j a1 a2, (j < N.to_nat (max_attempts config))%nat /\ failing_starts j (ra_inner r) = Some a1 /\ ap_start a1 = (a2, Ok tt) /\
       ra_inner r' = asked_to_set (ra_registered r) a2).
Proof.
  intros Hc He Hn r. destruct (new_tracks (A := A) a0) as [Ht0 Hu0].
  destruct (history_tracks config ops Hc Hn _ _ Ht0 Hu0) as [Ht [Hu1 Hu2]]. fold r in Ht, Hu1, Hu2.
  pose proof (reconnect_loop_spec (N.to_nat (max_attempts config)) 0 (max_attempts config) (set_conn_state Connecting r)) as Hspec.
  split; [exact Ht|]. split; [exact Hu1|]. split; [exact Hu2|].
  unfold attempt_reconnect, do_reconnect. rewrite He. cbn [negb ra_inner set_conn_state] in *. split.
  - intros j a1 Hj Hf Hs. destruct Hspec as [(? & ? & ? & ? & _ & _ & _ & Hres & _)|(a2 & Hall & _)]; [exact Hres|exfalso].
    cbn in Hall. revert Hj Hf Hall. generalize (N.to_nat (max_attempts config)) (ra_inner r). clear -Hs. intros n. revert n.
    induction j as [|j IH]; intros [|n] a Hj; cbn; [lia| |lia|].
    + intros [= ->]. destruct (ap_start a1) as [a [[]|e]]; done.
    + destruct (ap_start a) as [a' [[]|e]]; [done|]. apply IH. lia.
  - intros r' E. rewrite E in Hspec. destruct Hspec as [(j & a1 & a2 & r1 & Hj & Hf & Hst & _ & Hi & Hstate & Hreg & Hr')|(a1 & _ & Herr & _)]; [|done].
    cbn in Hr', Hreg. rewrite Hc in Hr'. subst r'. destruct (restored r1) as [H1 H2]. split; [congruence|].
    exists j, a1, a2. rewrite H1, Hreg, Hi. done.
Qed.

(** A reconnection gives up after [max_attempts] starts that all fail, and
    only then; it then says so and leaves the state [Failed]. *)
Theorem reconnection_gives_up (r : RA) : rc_enabled config = true ->
  ((attempt_reconnect config r).2 <> Ok tt <-> is_Some (failing_starts (N.to_nat (max_attempts config)) (ra_inner r))) /\
  ((attempt_reconnect config r).2 <> Ok tt ->
     (attempt_reconnect config r).2 = Err (exhausted (max_attempts config)) /\ ra_state (attempt_reconnect config r).1 = Failed).
Proof.
  intros He. unfold attempt_reconnect, do_reconnect. rewrite He. cbn [negb].
  pose proof (reconnect_loop_spec (N.to_nat (max_attempts config)) 0 (max_attempts config) (set_conn_state Connecting r)) as Hspec. cbn zeta in Hspec.
  set (res := reconnect_loop _ _ _ _ _) in *. clearbody res. cbn [ra_inner set_conn_state] in Hspec.
  destruct Hspec as [(j & a1 & a2 & r1 & Hj & Hf & Hs & Hres & _)|(a1 & Hf & Hres & Hst & _)].
  - split; [|congruence]. split; [congruence|]. intros [a3 Ha3]. exfalso. revert Hj Hf Ha3. generalize (N.to_nat (max_attempts config)) (ra_inner r).
    clear -Hs. intros n. revert n. induction j as [|j IH]; intros [|n] a Hj; cbn; [lia| |lia|].
    + intros [= ->]. by rewrite Hs.
    + destruct (ap_start a) as [a' [[]|e]]; [done|]. apply IH. lia.
  - rewrite Hres. split; [split; [by eexists|done]|done].
Qed.
End Restore.

(** ** What the wrapper does not do *)

Section Gaps.
Context {A : Type} `{AdapterPort A} (config : ReconnectConfig).
Notation RA := (ReconnectingAdapter A).

(** Resuming the program and the count of lost events never reach the inner
    adapter: the wrapper has the trait's provided methods. *)
Theorem continue_not_forwarded (r : RA) :
  ap_continue_execution (AdapterPort := reconnecting_port config) r = (r, Ok true) /\
  ap_get_total_drop_count (AdapterPort := reconnecting_port config) r = Ok 0%N.
Proof. done. Qed.

(** Once the state is [Connected], a connection that is lost is not noticed. *)
Theorem lost_connection_counts_as_connected (r : RA) : ra_state r = Connected -> ra_ensure_connected config r = (r, Ok tt).
Proof. intros Hs. unfold ra_ensure_connected. destruct (ap_is_connected _); [done|]. by rewrite Hs. Qed.

(** A metric that the debugger refuses stays on the list, and the next
    reconnection tries it again. *)
Theorem refused_metric_stays_tracked (m : Metric) (r r' : RA) e :
  rc_restore_metrics config = true -> ra_set_metric config m r = (r', Err e) -> m ∈ ra_registered r'.
Proof.
  intros Hc Hs. pose proof (set_metric_registered config m r) as Hr. rewrite Hs, Hc in Hr. cbn in Hr. rewrite Hr. apply elem_of_app. right. left.
Qed.

(** A metric without an id is never taken off the list. *)
Theorem unnumbered_metric_stays_tracked (m : Metric) (r : RA) : m_id m = None -> m ∈ ra_registered r -> m ∈ ra_registered (ra_remove_metric config m r).1.
Proof. intros Hid Hm. rewrite remove_metric_registered. unfold untrack_metric. by rewrite Hid. Qed.
End Gaps.

(** ** Overlapping callers *)

(** The flag is set exactly while one caller holds it. *)
Definition exclusive (l : Lock) : Prop :=
  (lk_flag l = true <-> exists i, lk_callers l !! i = Some Holding) /\
  (forall i j, lk_callers l !! i = Some Holding -> lk_callers l !! j = Some Holding -> i = j).

Lemma wake_holding (m : gmap nat Phase) i : (wake <$> m) !! i = Some Holding <-> m !! i = Some Holding.
Proof. rewrite lookup_fmap. destruct (m !! i) as [[]|]; cbn; naive_solver. Qed.

Lemma lock_step_exclusive l l' : exclusive l -> lock_step l l' -> exclusive l'.
Proof.
  intros [H1 H2] Hs. destruct Hs as [l i Hf Hi|l i Hf Hi|l i Hi|l i Hi]; unfold exclusive; cbn.
  - assert (forall j, lk_callers l !! j <> Some Holding) as Hno by (intros j Hj; assert (lk_flag l = true) by (apply H1; by exists j); congruence).
    split; [split; [|done]; intros _; exists i; apply lookup_insert_eq|]. intros j k Hj Hk.
    apply lookup_insert_Some in Hj as [[<- _]|[_ Hj]]; [|by apply Hno in Hj]. apply lookup_insert_Some in Hk as [[<- _]|[_ Hk]]; [done|by apply Hno in Hk].
  - assert (forall j, <[i := Refused]> (lk_callers l) !! j = Some Holding <-> lk_callers l !! j = Some Holding) as Hsame
      by (intros j; rewrite lookup_insert_Some; destruct (decide (i = j)) as [<-|]; naive_solver).
    split; [|intros j k; rewrite !Hsame; apply H2]. setoid_rewrite Hsame. rewrite <- H1. naive_solver.
  - assert (forall j, <[i := Waiting]> (lk_callers l) !! j = Some Holding <-> lk_callers l !! j = Some Holding) as Hsame
      by (intros j; rewrite lookup_insert_Some; destruct (decide (i = j)) as [<-|]; naive_solver).
    split; [|intros j k; rewrite !Hsame; apply H2]. setoid_rewrite Hsame. apply H1.
  - assert (forall j, <[i := Returned]> (wake <$> lk_callers l) !! j <> Some Holding) as Hno.
    { intros j. rewrite lookup_insert_Some. intros [[_ ?]|[Ne Hj]]; [done|]. rewrite wake_holding in Hj. by apply Ne, (H2 i j). }
    split; [split; [done|]; intros [j Hj]; by apply Hno in Hj|]. intros j k Hj. by apply Hno in Hj.
Qed.

Definition free_lock : Lock := mkLock false ∅.

(** At most one caller reconnects at a time, whatever the order in which
    callers find the flag, wait and return. *)
Theorem one_reconnection_at_a_time (l : Lock) : rtc lock_step free_lock l -> exclusive l.
Proof.
  intros Hr. assert (exclusive free_lock) as H0. { split; [split; [done|intros [i Hi]; cbn in Hi; by rewrite lookup_empty in Hi]|]. intros i j Hi. cbn in Hi. by rewrite lookup_empty in Hi. }
  revert H0. induction Hr as [|l1 l2 l3 Hs _ IH]; [done|]. intros H0. apply IH. by eapply lock_step_exclusive.
Qed.

(** The flag is freed between a caller's look at it and its wait: that caller is
    not woken, and nothing wakes it unless someone reconnects again. *)
Definition no_new_holder (l l' : Lock) : Prop := lock_step l l' /\ (lk_flag l = false -> lk_flag l' = false).

Theorem notification_can_be_missed : exists l, rtc lock_step free_lock l /\ lk_callers l !! 1%nat = Some Waiting /\ lk_callers l !! 0%nat = Some Returned /\
  forall l', rtc no_new_holder l l' -> lk_callers l' !! 1%nat = Some Waiting.
Proof.
  pose (c1 := <[0%nat := Holding]> (∅ : gmap nat Phase)). pose (c2 := <[1%nat := Refused]> c1).
  pose (c3 := <[0%nat := Returned]> (wake <$> c2)). pose (c4 := <[1%nat := Waiting]> c3).
  exists (mkLock false c4). split; [|split; [by vm_compute|split; [by vm_compute|]]].
  - eapply rtc_l; [apply (step_take free_lock 0); done|]. eapply rtc_l; [apply (step_refused (mkLock true c1) 1); done|].
    eapply rtc_l; [apply (step_release (mkLock true c2) 0); done|]. apply rtc_once. by apply (step_wait (mkLock false c3) 1).
  - intros l' Hr. assert (forall l l', no_new_holder l l' -> lk_flag l = false /\ lk_callers l !! 1%nat = Some Waiting /\ (forall i, lk_callers l !! i <> Some Holding) ->
      lk_flag l' = false /\ lk_callers l' !! 1%nat = Some Waiting /\ (forall i, lk_callers l' !! i <> Some Holding)) as Hstep.
    { clear. intros l l' [Hs Hn] (Hf & Hw & Hh). specialize (Hn Hf). destruct Hs as [l i Hf' Hi|l i Hf' Hi|l i Hi|l i Hi]; cbn in *; try congruence; try (by apply Hh in Hi).
      split; [done|]. split; [by apply lookup_insert_Some; destruct (decide (i = 1%nat)); subst; [left|right]|].
      intros j Hj. apply lookup_insert_Some in Hj as [[_ ?]|[_ Hj]]; [done|by apply Hh in Hj]. }
    assert (lk_flag (mkLock false c4) = false /\ lk_callers (mkLock false c4) !! 1%nat = Some Waiting /\ (forall i, lk_callers (mkLock false c4) !! i <> Some Holding)) as H0.
    { split; [done|]. split; [by vm_compute|]. intros i Hi. cbn in Hi. unfold c4, c3 in Hi. apply lookup_insert_Some in Hi as [[_ ?]|[N1 Hi]]; [done|].
      apply lookup_insert_Some in Hi as [[_ ?]|[N0 Hi]]; [done|]. rewrite wake_holding in Hi. unfold c2, c1 in Hi.
      rewrite !lookup_insert_ne in Hi by done. by rewrite lookup_empty in Hi. }
    revert H0. induction Hr as [|l1 l2 l3 Hs _ IH]; [by intros (_ & ? & _)|]. intros H0. apply IH. by eapply Hstep.
Qed.

(** ** An adapter *)

(** A debugger that is reached at the third attempt; [dm_ids] are the ids of
    the metrics it holds. *)
Record Demo : Type := mkDemo { dm_connected : bool; dm_refusals : nat; dm_ids : gset N; dm_paused : bool }.
Definition numbers (m : Metric) : gset N := match m_id m with Some id => {[id]} | None => ∅ end.
Definition demo_start (d : Demo) : Demo * result unit Error :=
  match dm_refusals d with
  | S n => (mkDemo false n (dm_ids d) (dm_paused d), Err (Io "refused"))
  | O => (mkDemo true 0 ∅ true, Ok tt)
  end.
Definition demo_set (m : Metric) (d : Demo) : Demo * result SetMetricResult Error :=
  if dm_connected d then (mkDemo true (dm_refusals d) (numbers m ∪ dm_ids d) (dm_paused d), Ok (mkSMR true 1 None))
  else (d, Err (NotConnected "no session")).
#[export] Instance demo_port : AdapterPort Demo := {
  ap_start := demo_start; ap_stop := fun d => (mkDemo false (dm_refusals d) ∅ true, Ok tt); ap_is_connected := dm_connected;
  ap_set_metric := demo_set; ap_remove_metric := fun m d => (mkDemo (dm_connected d) (dm_refusals d) (dm_ids d ∖ numbers m) (dm_paused d), Ok (mkRMR true None));
  ap_subscribe_events := fun d => (d, Ok tt); ap_continue_execution := fun d => (mkDemo (dm_connected d) (dm_refusals d) (dm_ids d) false, Ok true);
  ap_get_total_drop_count := fun _ => Ok 0%N
}.
Definition demo_config : ReconnectConfig := mkRConfig true 5 true.
Definition m1 : Metric := sample_metric 1 "requests" "app.py" 3 ["n"].
Definition m2 : Metric := sample_metric 2 "errors" "app.py" 9 ["e"].
Definition m3 : Metric := sample_metric 3 "latency" "app.py" 12 ["t"].
Definition demo_history : list Op := [OpStart; OpSet m1; OpSet m2; OpSubscribe; OpRemove m1; OpSet m3].

(** The session of the demo is lost after its history, and two starts fail before
    it is back. *)
Lemma metrics_survive_reconnection_witness :
  let r := fold_left (apply_op demo_config) demo_history (ra_new (mkDemo false 2 ∅ true)) in
  exists r', attempt_reconnect demo_config r = (r', Ok tt) /\ ra_state r' = Connected /\
  exists a2, ra_inner r' = asked_to_set (ra_registered r) a2 /\ m2 ∈ ra_registered r.
Proof.
  intros r. destruct (metrics_survive_reconnection demo_config demo_history (mkDemo false 2 ∅ true) eq_refl eq_refl) as (Ht & _ & _ & _ & Hr);
    [repeat constructor; by eexists|]. fold r in Ht, Hr.
  destruct (attempt_reconnect demo_config r) as [r' x] eqn:E. assert (x = Ok tt) as -> by (apply (f_equal snd) in E; vm_compute in E; by symmetry).
  exists r'. split; [done|]. destruct (Hr r' eq_refl) as (Hs & j & a1 & a2 & _ & _ & _ & Ha). split; [exact Hs|]. exists a2. split; [exact Ha|].
  apply (Ht 2%N m2). vm_compute. reflexivity.
Defined.

Lemma reconnection_gives_up_witness : (attempt_reconnect demo_config (ra_new (mkDemo false 9 ∅ true))).2 = Err (exhausted 5).
Proof.
  apply (reconnection_gives_up demo_config (ra_new (mkDemo false 9 ∅ true)) eq_refl). vm_compute. discriminate.
Defined.

Lemma one_reconnection_at_a_time_witness : exclusive (mkLock true (<[0%nat := Holding]> ∅)).
Proof. apply one_reconnection_at_a_time. apply rtc_once. by apply (step_take free_lock 0). Defined.
