(* ===== verification/Relocation.v ===== *)
(** * File changes

    [crates/detrix-application/src/services/metric_service/relocation.rs]: when a
    watched file changes, every metric of the file is verified at its line,
    moved to where its code went, or disabled when the code is gone.  The anchor
    port is a record of its two operations; [default_anchors] is the service of
    [Anchor]. *)

From Stdlib Require Import Strings.String Strings.Ascii Init.Byte.
From stdpp Require Import gmap sorting.
From S2P Require Import Prelude RustStr CoreError Location Language Metric Anchor MetricRepo OutputParsers AdapterMetrics MetricService SafetyValidator.

Local Open Scope string_scope.
Local Arguments String.append !_ _ / : simpl nomatch.
Local Open Scope svc_scope.

Record AnchorPort : Type := mkAnchorPort {
  ap_verify : Location -> MetricAnchor -> SourceLanguage -> result bool Error;
  ap_relocate : string -> MetricAnchor -> SourceLanguage -> result RelocationResult Error
}.

Definition default_anchors (sha256 : list byte -> list byte) (strip_comments : string -> SourceLanguage -> result string Error)
    (fs_read_to_string : string -> result string string) (self : DefaultAnchorService) : AnchorPort :=
  mkAnchorPort (verify_anchor sha256 strip_comments fs_read_to_string self) (relocate strip_comments fs_read_to_string self).

Record FileChangeResult : Type := mkFileChange { fc_verified : N; fc_relocated : N; fc_orphaned : N; fc_skipped : N; fc_failed : N }.
Definition no_changes : FileChangeResult := mkFileChange 0 0 0 0 0.
Definition fc_total (r : FileChangeResult) : N := (fc_verified r + fc_relocated r + fc_orphaned r + fc_skipped r + fc_failed r)%N.
Definition fc_all_ok (r : FileChangeResult) : bool := (fc_orphaned r =? 0)%N && (fc_failed r =? 0)%N.
Definition add_changes (a b : FileChangeResult) : FileChangeResult :=
  mkFileChange (fc_verified a + fc_verified b) (fc_relocated a + fc_relocated b) (fc_orphaned a + fc_orphaned b)
    (fc_skipped a + fc_skipped b) (fc_failed a + fc_failed b).

Section Relocation.
Context {R A : Type} `{HR : MetricRepository R} `{HA : DapAdapter A}.
Context (env : Env) (anchors : AnchorPort).
Notation svc := (M (Service R A)).

Definition verified_anchor (now : Z) (a : MetricAnchor) : MetricAnchor :=
  mkAnchor (enclosing_symbol a) (symbol_kind a) (symbol_range a) (offset_in_symbol a) (context_fingerprint a) (context_before a)
    (source_line a) (context_after a) (Some now) (original_location a).

(** The metric at its new line, with a fresh anchor when one can be captured. *)
Definition moved_metric (m : Metric) (new_line : N) : Metric :=
  let moved := with_anchor (with_line m new_line) (m_anchor m) Relocated in
  match env_capture_anchor env (m_location moved) (m_language moved) with
  | Ok a => with_anchor moved (Some a) Relocated
  | Err _ => moved
  end.

Definition move_metric (id : N) (m : Metric) (old_line new_line : N) (symbol : option string) : svc FileChangeResult :=
  let updated := moved_metric m new_line in
  let! saved := m_try (storage (repo_update updated)) in
  match saved with
  | Err _ => m_ret (mkFileChange 0 0 0 0 1)
  | Ok _ =>
      let! _ := if m_enabled updated
                then (let! _ := quietly (m_connection_id updated) (adapter_remove_metric m) in
                      quietly (m_connection_id updated) (adapter_set_metric updated))
                else m_ret tt in
      let! _ := emit (EvMetricRelocated id (m_name m) old_line new_line symbol (m_connection_id m)) in
      m_ret (mkFileChange 0 1 0 0 0)
  end.

Definition orphan_metric (id : N) (m : Metric) (last_known_location reason : string) : svc FileChangeResult :=
  let updated := with_enabled (with_anchor m (m_anchor m) Orphaned) false in
  let! _ := m_try (storage (repo_update updated)) in
  let! _ := if m_enabled m then quietly (m_connection_id m) (adapter_remove_metric m) else m_ret tt in
  let! _ := emit (EvMetricOrphaned id (m_name m) last_known_location reason (m_connection_id m)) in
  m_ret (mkFileChange 0 0 1 0 0).

(** One metric of the changed file. *)
Definition relocate_metric (file_path : string) (m : Metric) : svc FileChangeResult :=
  match m_id m with
  | None => m_ret no_changes
  | Some id =>
      match m_anchor m with
      | None => m_ret (mkFileChange 0 0 0 1 0)
      | Some a =>
          if (match ap_verify anchors (m_location m) a (m_language m) with Ok b => b | Err _ => false end) then
            let! _ := m_try (storage (repo_update (with_anchor m (Some (verified_anchor (env_now env) a)) Verified))) in
            m_ret (mkFileChange 1 0 0 0 0)
          else
            match ap_relocate anchors file_path a (m_language m) with
            | Ok (RelocatedInSymbol old_line new_line symbol_name) => move_metric id m old_line new_line (Some symbol_name)
            | Ok (RelocatedByContext old_line new_line _) => move_metric id m old_line new_line None
            | Ok ExactMatch => m_ret (mkFileChange 1 0 0 0 0)
            | Ok (OrphanedAt last reason) => orphan_metric id m last reason
            | Err _ => m_ret (mkFileChange 0 0 0 0 1)
            end
      end
  end.

Fixpoint relocate_all (file_path : string) (ms : list Metric) (acc : FileChangeResult) : svc FileChangeResult :=
  match ms with
  | [] => m_ret acc
  | m :: rest => let! r := relocate_metric file_path m in relocate_all file_path rest (add_changes acc r)
  end.

Definition handle_file_change (file_path : string) : svc FileChangeResult :=
  let! all_metrics := storage repo_find_all in
  relocate_all file_path (List.filter (fun m => String.eqb (loc_file (m_location m)) file_path) all_metrics) no_changes.
End Relocation.

(** ** What a file change does to the stored metrics *)

(** A metric after a file change: only its line, anchor, anchor status and
    enabled flag may differ; the line differs only when it was relocated, and
    the flag only when it was disabled as an orphan. *)
Definition moved_from (m m' : Metric) : Prop :=
  exists line a st b, m' = with_enabled (with_anchor (with_line m line) a st) b
    /\ (line = loc_line (m_location m) \/ st = Relocated) /\ (b = m_enabled m \/ b = false /\ st = Orphaned).

Definition file_rel (file : string) (a b : gmap N Metric) : Prop :=
  forall id, match a !! id with
             | None => b !! id = None
             | Some m => b !! id = Some m \/ loc_file (m_location m) = file /\ exists m', b !! id = Some m' /\ moved_from m m'
             end.

(** New lines are [u32]. *)
Definition anchors_typed (anchors : AnchorPort) : Prop :=
  forall f a l r, ap_relocate anchors f a l = Ok r ->
    match r with RelocatedInSymbol _ n _ | RelocatedByContext _ n _ => (n < 2 ^ 32)%N | _ => True end.

Section Facts.
Context {R A : Type} `{HR : MetricRepository R} `{HL : !RepositoryLaws R} `{HA : DapAdapter A}.
Context (env : Env) (anchors : AnchorPort).
Notation svc := (M (Service R A)).

(** A step for the metric stored under [id]: at most that metric changes. *)
Definition step_ok (id : N) (m : Metric) (s s' : Service R A) : Prop :=
  repo_inv (sv_storage s') /\
  (contents s' = contents s \/ exists m', contents s' = <[id := m']> (contents s) /\ moved_from m m').

Lemma quietly_keeps {X : Type} conn (k : A -> A * result X Error) (s : Service R A) :
  exists s', quietly conn k s = (s', Ok tt) /\ sv_storage s' = sv_storage s.
Proof.
  unfold quietly, m_bind, m_try, on_adapter. destruct (sv_adapters s !! conn) as [ma|]; [destruct (k (ma_adapter ma)) as [a x]|]; cbn; eauto.
Qed.

(** Storing a changed copy of the metric that is there. *)
Lemma update_step id m upd (s : Service R A) :
  repo_inv (sv_storage s) -> contents s !! id = Some m -> storable upd = true -> m_id upd = Some id -> moved_from m (updated_metric m upd) ->
  step_ok id m s (fst (storage (repo_update upd) s)).
Proof.
  intros Hs Hm Hst Hid Hmoved. pose proof (update_law _ upd Hs Hst) as Hlaw. unfold storage, step_ok, contents in *.
  destruct (repo_update upd (sv_storage s)) as [r x]. cbn. destruct Hlaw as [Hr Hx]. split; [done|]. destruct x; [|by left].
  destruct Hx as (id' & old & Hid' & Hold & Hx). assert (id' = id) as -> by congruence. assert (old = m) as -> by congruence. right. eauto.
Qed.

Lemma updated_moved m line a st b :
  (line = loc_line (m_location m) \/ st = Relocated) -> (b = m_enabled m \/ b = false /\ st = Orphaned) ->
  moved_from m (updated_metric m (with_enabled (with_anchor (with_line m line) a st) b)).
Proof. intros H1 H2. exists line, (stored_anchor a), st, b. done. Qed.

Lemma with_line_id m : with_line m (loc_line (m_location m)) = m.
Proof. by destruct m as [? ? ? ? []]. Qed.

Lemma storable_moved m line a st b :
  storable m = true -> (line < 2 ^ 32)%N -> storable (with_enabled (with_anchor (with_line m line) a st) b) = true.
Proof.
  intros (H1 & H2 & H3)%storable_spec Hl. apply storable_spec. split; [done|]. split; [by apply N.ltb_lt|done].
Qed.

Lemma move_metric_step id m old_line new_line symbol (s : Service R A) :
  repo_inv (sv_storage s) -> contents s !! id = Some m -> (new_line < 2 ^ 32)%N ->
  exists s' r, move_metric env id m old_line new_line symbol s = (s', Ok r) /\ fc_total r = 1%N /\ step_ok id m s s'.
Proof.
  intros Hs Hm Hl. destruct (stored_wf _ _ _ Hs Hm) as (Hid & Hst & _).
  assert (exists a, moved_metric env m new_line = with_enabled (with_anchor (with_line m new_line) a Relocated) (m_enabled m)) as [a Ha].
  { unfold moved_metric. destruct (env_capture_anchor env _ _) as [x|x]; [exists (Some x)|exists (m_anchor m)]; reflexivity. }
  unfold move_metric. rewrite Ha. set (upd := with_enabled _ _). unfold m_bind at 1, m_try at 1.
  pose proof (update_step id m upd s Hs Hm (storable_moved _ _ _ _ _ Hst Hl) Hid
    ltac:(apply updated_moved; [by right|by left])) as Hstep.
  destruct (storage (repo_update upd) s) as [s1 [[]|e]]; cbn [fst] in Hstep; [|by exists s1, (mkFileChange 0 0 0 0 1)].
  unfold m_bind at 1.
  assert (exists s2, (if m_enabled upd then let! _ := quietly (m_connection_id upd) (adapter_remove_metric m) in
     quietly (m_connection_id upd) (adapter_set_metric upd) else m_ret tt) s1 = (s2, Ok tt) /\ sv_storage s2 = sv_storage s1) as (s2 & -> & Hst2).
  { destruct (m_enabled upd); [|by exists s1]. unfold m_bind. destruct (quietly_keeps (m_connection_id upd) (adapter_remove_metric m) s1) as (s2 & -> & H2).
    destruct (quietly_keeps (m_connection_id upd) (adapter_set_metric upd) s2) as (s3 & -> & H3). exists s3. split; [done|congruence]. }
  cbn. do 2 eexists. split; [reflexivity|]. split; [done|]. unfold step_ok, contents in *. cbn. by rewrite Hst2.
Qed.

Lemma orphan_metric_step id m last reason (s : Service R A) :
  repo_inv (sv_storage s) -> contents s !! id = Some m ->
  exists s' r, orphan_metric id m last reason s = (s', Ok r) /\ fc_total r = 1%N /\ step_ok id m s s'.
Proof.
  intros Hs Hm. destruct (stored_wf _ _ _ Hs Hm) as (Hid & Hst & _). unfold orphan_metric. unfold m_bind at 1, m_try at 1.
  set (upd := with_enabled _ _).
  assert (upd = with_enabled (with_anchor (with_line m (loc_line (m_location m))) (m_anchor m) Orphaned) false) as Hupd by by rewrite with_line_id.
  assert (step_ok id m s (fst (storage (repo_update upd) s))) as Hstep.
  { apply update_step; [done..|]. rewrite Hupd. apply updated_moved; [by left|by right]. }
  destruct (storage (repo_update upd) s) as [s1 x]. cbn [fst] in Hstep. unfold m_bind at 1.
  assert (exists s2, (if m_enabled m then quietly (m_connection_id m) (adapter_remove_metric m) else m_ret tt) s1 = (s2, Ok tt)
    /\ sv_storage s2 = sv_storage s1) as (s2 & -> & Hst2) by (destruct (m_enabled m); [apply quietly_keeps|by exists s1]).
  cbn. do 2 eexists. split; [reflexivity|]. split; [done|]. unfold step_ok, contents in *. cbn. by rewrite Hst2.
Qed.

Lemma relocate_metric_step file id m (s : Service R A) :
  anchors_typed anchors -> repo_inv (sv_storage s) -> contents s !! id = Some m ->
  exists s' r, relocate_metric env anchors file m s = (s', Ok r) /\ fc_total r = 1%N /\ step_ok id m s s'.
Proof.
  intros Ht Hs Hm. destruct (stored_wf _ _ _ Hs Hm) as (Hid & Hst & _). unfold relocate_metric. rewrite Hid.
  assert (step_ok id m s s) as Hrefl by (split; [done|by left]).
  destruct (m_anchor m) as [a|]; [|by do 2 eexists].
  destruct (match ap_verify anchors (m_location m) a (m_language m) with Ok b => b | Err _ => false end).
  { unfold m_bind, m_try. set (upd := with_anchor m _ _).
    assert (step_ok id m s (fst (storage (repo_update upd) s))) as Hstep.
    { apply update_step; [done..|].
      assert (upd = with_enabled (with_anchor (with_line m (loc_line (m_location m))) (Some (verified_anchor (env_now env) a)) Verified) (m_enabled m)) as ->
        by by rewrite with_line_id. apply updated_moved; by left. }
    destruct (storage (repo_update upd) s) as [s1 x]. cbn. by do 2 eexists. }
  destruct (ap_relocate anchors file a (m_language m)) as [r|e] eqn:Er; [|by do 2 eexists]. apply Ht in Er.
  destruct r; [by do 2 eexists|by apply move_metric_step|by apply move_metric_step|by apply orphan_metric_step].
Qed.

(** The loop touches each listed metric once and nothing else. *)
Definition loop_rel (ms : list Metric) (a b : gmap N Metric) : Prop :=
  forall id, match a !! id with
             | None => b !! id = None
             | Some m => b !! id = Some m \/ m ∈ ms /\ exists m', b !! id = Some m' /\ moved_from m m'
             end.

Lemma moved_from_id m m' : moved_from m m' -> m_id m' = m_id m.
Proof. by intros (? & ? & ? & ? & -> & _). Qed.

Lemma loop_rel_cons id m ms a b c :
  a !! id = Some m -> (b = a \/ exists m', b = <[id := m']> a /\ moved_from m m') ->
  (forall x, x ∈ ms -> m_id x <> Some id) -> m_id m = Some id -> loop_rel ms b c -> loop_rel (m :: ms) a c.
Proof.
  intros Hm Hb Hms Hid Hbc j. specialize (Hbc j). destruct Hb as [->|(m' & -> & Hmv)].
  - destruct (a !! j); [|done]. destruct Hbc as [?|[? ?]]; [by left|right; split; [by right|done]].
  - destruct (decide (id = j)) as [<-|Hne].
    + rewrite lookup_insert_eq in Hbc. rewrite Hm. right. split; [left|]. destruct Hbc as [Hc|[Hin _]]; [eauto|].
      exfalso. apply (Hms m' Hin). by rewrite (moved_from_id _ _ Hmv).
    + rewrite lookup_insert_ne in Hbc by done. destruct (a !! j); [|done]. destruct Hbc as [?|[? ?]]; [by left|right; split; [by right|done]].
Qed.

Lemma relocate_all_outcome file ms acc (s : Service R A) :
  anchors_typed anchors -> repo_inv (sv_storage s) -> NoDup (map m_id ms) ->
  (forall m, m ∈ ms -> exists id, contents s !! id = Some m) ->
  exists s' r, relocate_all env anchors file ms acc s = (s', Ok r) /\ fc_total r = (fc_total acc + lenN ms)%N
    /\ repo_inv (sv_storage s') /\ loop_rel ms (contents s) (contents s').
Proof.
  intros Ht. revert acc s. induction ms as [|m ms IH]; intros acc s Hs Hnd Hms.
  { exists s, acc. cbn. rewrite lenN_nil, N.add_0_r. split; [done|]. split; [done|]. split; [done|].
    intros id. destruct (contents s !! id); [by left|done]. }
  destruct (Hms m) as [id Hm]; [left|]. destruct (stored_wf _ _ _ Hs Hm) as (Hid & _). cbn [map] in Hnd. inversion Hnd as [|? ? Hnin Hnd']; subst. clear Hnd. rename Hnd' into Hnd.
  assert (forall x, x ∈ ms -> m_id x <> Some id) as Hother.
  { intros x Hx E. apply Hnin. rewrite Hid, <- E. by apply list_elem_of_In, in_map, list_elem_of_In. }
  cbn [relocate_all]. unfold m_bind. destruct (relocate_metric_step file id m s Ht Hs Hm) as (s1 & r1 & -> & Hr1 & Hs1 & Hc1).
  destruct (IH (add_changes acc r1) s1 Hs1 Hnd) as (s' & r & -> & Hr & Hs' & Hrel).
  { intros x Hx. destruct (Hms x) as [j Hj]; [by right|]. exists j. destruct (stored_wf _ _ _ Hs Hj) as (Hjd & _).
    destruct Hc1 as [->|(m' & -> & _)]; [done|]. rewrite lookup_insert_ne; [done|]. intros ->. by apply (Hother x Hx). }
  exists s', r. split; [done|]. split; [unfold fc_total, add_changes in *; cbn in *; rewrite lenN_cons; lia|]. split; [done|].
  by eapply loop_rel_cons.
Qed.

Lemma ids_distinct (s : Service R A) ms :
  repo_inv (sv_storage s) -> NoDup ms -> (forall m, m ∈ ms -> exists id, contents s !! id = Some m) -> NoDup (map m_id ms).
Proof.
  intros Hs. induction 1 as [|m ms Hnin Hnd IH]; intros Hms; cbn [map]; constructor.
  - intros (x & Hx & Hin)%list_elem_of_In%in_map_iff. apply Hnin. destruct (Hms m) as [id Hm]; [left|].
    destruct (Hms x) as [j Hj]; [right; by apply list_elem_of_In|].
    destruct (stored_wf _ _ _ Hs Hm) as (E1 & _), (stored_wf _ _ _ Hs Hj) as (E2 & _). assert (id = j) as <- by congruence.
    assert (m = x) as -> by congruence. by apply list_elem_of_In.
  - apply IH. intros x Hx. apply Hms. by right.
Qed.

(** C38: a change of a file moves metrics and loses none.  The repository keeps
    its invariant (in particular no two metrics of an owner collide), metrics of
    other files stay as they are, a metric of the file keeps everything but its
    line, anchor and status, changes line only when its anchor was relocated and
    is disabled only as an orphan; and the counts of the summary add up to the
    number of metrics of the file. *)
Theorem file_change_outcome (file : string) (s : Service R A) (Ht : anchors_typed anchors) (Hs : repo_inv (sv_storage s)) :
  let '(s', x) := handle_file_change env anchors file s in
  repo_inv (sv_storage s') /\ file_rel file (contents s) (contents s') /\
  match x with
  | Ok r => exists ms, NoDup ms /\ fc_total r = lenN ms
      /\ forall m, m ∈ ms <-> exists id, contents s !! id = Some m /\ loc_file (m_location m) = file
  | Err _ => contents s' = contents s
  end.
Proof.
  unfold handle_file_change, m_bind. pose proof (find_all_law (sv_storage s) Hs) as Hlaw. unfold storage.
  destruct (repo_find_all (sv_storage s)) as [r0 [all|e]]; destruct Hlaw as (Hr & Hc & Hall); cbn [map_err].
  2: { split; [done|]. split; [|done]. intros id. unfold contents. cbn. rewrite Hc. destruct (stored _ !! id); [by left|done]. }
  destruct (Hall all eq_refl) as [Hnd Hin]. set (ms := List.filter _ all). set (s1 := mkService r0 _ _ _).
  assert (contents s1 = contents s) as Hc1 by exact Hc.
  assert (forall m, m ∈ ms <-> exists id, contents s !! id = Some m /\ loc_file (m_location m) = file) as Hms.
  { intros m. subst ms. rewrite list_elem_of_In, List.filter_In, <- list_elem_of_In, Hin, String.eqb_eq. unfold contents. naive_solver. }
  assert (NoDup ms) as Hndm by (apply NoDup_ListNoDup, List.NoDup_filter, NoDup_ListNoDup; done).
  assert (forall m, m ∈ ms -> exists id, contents s1 !! id = Some m) as Hex by (rewrite Hc1; intros m Hm; apply Hms in Hm as (id & ? & _); eauto).
  destruct (relocate_all_outcome file ms no_changes s1 Ht Hr (ids_distinct s1 ms Hr Hndm Hex) Hex) as (s' & r & -> & Hr' & Hs' & Hrel).
  split; [done|]. split; [|by exists ms]. rewrite Hc1 in Hrel. intros id. specialize (Hrel id). destruct (contents s !! id) as [m|]; [|done].
  destruct Hrel as [?|[Hm ?]]; [by left|]. right. split; [|done]. by apply Hms in Hm as (_ & _ & ?).
Qed.
End Facts.

(** ** Instances *)

(** Anchors that remember their line, and code that moved down by two lines. *)
Definition anchoring_env (now : Z) : Env :=
  mkEnv (fun _ => EmptyString) (mkLimits 10000 20) (fun _ => true) (fun _ _ _ => Ok vr_safe) (fun r _ _ => r)
    (fun _ _ => Err "no file")
    (fun l _ => Ok (mkAnchor None None None None None None (Some "code") None None (Some (to_string_format l)))) (fun l => l) now.
Definition shifted_down : AnchorPort :=
  mkAnchorPort (fun _ _ _ => Ok false)
    (fun _ a _ => match parse_line_from_location (original_location a) with
                  | Some l => if (l + 2 <? 2 ^ 32)%N then Ok (RelocatedByContext l (l + 2) f32_one) else Err (Io "gone")
                  | None => Err (Io "gone")
                  end).

(** Two metrics, the second added later. *)
Definition two_metrics (first second : N) : Service Table ScriptAdapter :=
  run_history (anchoring_env 2000) [SAdd (owned_metric "m2" "bob" "a.py" second ["y"]) false None]
    (run_history (anchoring_env 1000) [SAdd (owned_metric "m1" "bob" "a.py" first ["x"]) false None] (sample_service [])).

Lemma two_metrics_inv first second :
  storable (owned_metric "m1" "bob" "a.py" first ["x"]) = true -> storable (owned_metric "m2" "bob" "a.py" second ["y"]) = true ->
  repo_inv (sv_storage (two_metrics first second)).
Proof.
  intros H1 H2. apply (run_history_inv (anchoring_env 2000)); [by repeat constructor|].
  apply (run_history_inv (anchoring_env 1000)); [by repeat constructor|]. split; [apply empty_table_inv|done].
Qed.

Lemma shifted_down_typed : anchors_typed shifted_down.
Proof.
  intros f a l r. cbn. destruct (parse_line_from_location (original_location a)) as [n|]; [|done].
  destruct (N.ltb_spec (n + 2) (2 ^ 32)); [|done]. by intros [= <-].
Qed.

Lemma file_change_outcome_witness :
  let '(s', x) := handle_file_change (anchoring_env 3000) shifted_down "a.py" (two_metrics 3 9) in
  repo_inv (sv_storage s') /\ exists r, x = Ok r /\ fc_total r = 2%N.
Proof.
  pose proof (file_change_outcome (anchoring_env 3000) shifted_down "a.py" (two_metrics 3 9) shifted_down_typed (two_metrics_inv 3 9 eq_refl eq_refl)) as Hh.
  destruct (handle_file_change (anchoring_env 3000) shifted_down "a.py" (two_metrics 3 9)) as [s' x] eqn:E.
  destruct Hh as (Hr & _ & _). split; [exact Hr|].
  assert (exists r, snd (handle_file_change (anchoring_env 3000) shifted_down "a.py" (two_metrics 3 9)) = Ok r /\ fc_total r = 2%N) as (r & Hx & Hn)
    by (eexists; split; vm_compute; reflexivity).
  exists r. rewrite E in Hx. by split.
Defined.

(** Whether metrics can follow moved code depends on the order in which they
    were added.  Two metrics two lines apart, and the code moved down by two
    lines: when the upper one was added last it is moved first, onto the line the
    other still occupies, the unique index refuses it and it stays behind on its
    old line; added in the other order, both move. *)
Theorem relocation_order_matters :
  let run first second := handle_file_change (anchoring_env 3000) shifted_down "a.py" (two_metrics first second) in
  let line (s : Service Table ScriptAdapter) id := (fun m => loc_line (m_location m)) <$> contents s !! id in
  (snd (run 3%N 5%N) = Ok (mkFileChange 0 2 0 0 0) /\ line (fst (run 3%N 5%N)) 1%N = Some 5%N /\ line (fst (run 3%N 5%N)) 2%N = Some 7%N)
  /\ snd (run 5%N 3%N) = Ok (mkFileChange 0 1 0 0 1) /\ line (fst (run 5%N 3%N)) 1%N = Some 7%N /\ line (fst (run 5%N 3%N)) 2%N = Some 3%N.
Proof. vm_compute. repeat split. Qed.
