(* ===== verification/AgentManager.v ===== *)
(** * The agent connection manager

    [crates/detrix-application/src/services/agent_connection_manager]: agents
    register over a stream and are told to create connections; the manager
    keeps which agent serves which connection, matches their answers with
    waiting requests, forwards their events and reacts to their status
    messages.

    A stream is the number of its outgoing channel.  A request that waits is an
    entry of [am_calls] under the number of its reply channel: operations run
    one at a time, except that other operations run between the sending of a
    request and the end of its wait.  The lifecycle manager, the connection
    table and the metric table are those of [ConnectionService], [ConnectionRepo]
    and [MetricRepo]; the calls that the lifecycle manager makes back
    ([refresh_event_channel], [subscribe_events], [record_liveness]) are
    operations of their own.  The orders of hash maps are the [Engine]'s. *)

From Stdlib Require Import Strings.String Strings.Ascii Init.Byte.
From stdpp Require Import gmap.
From S2P Require Import Prelude CoreError RustStr RustText Language Event Metric Logpoint MetricRepo Sql Connection ConnectionRepo Lifecycle MetricService ConnectionService.

Local Open Scope string_scope.
Local Open Scope N_scope.
Local Arguments String.append !_ _ / : simpl nomatch.

(** ** Messages *)

Record AgentCapabilities : Type := mkCaps {
  cap_ebpf : bool; cap_dap_python : bool; cap_dap_go : bool; cap_dap_rust : bool;
  cap_envelope_schemas : list N; cap_capture_profiles : list string; cap_max_payload : N
}.

Record AgentBinaryInfo : Type := mkBinary {
  bi_path : string; bi_pid : N; bi_inode : N; bi_build_info : string; bi_has_dwarf : bool;
  bi_functions : list string; bi_language : SourceLanguage
}.

Record VariableInfo : Type := mkVar { vi_name : string; vi_type : string; vi_line : N }.

Record Update : Type := mkUpdate {
  up_connection : string; up_status : ConnectionStatus; up_error : option string; up_backend : string; up_profile : string;
  up_reason : string; up_debug_image : string; up_failure_class : string;
  up_schemas : list N; up_profiles : list string; up_max_payload : N; up_architecture : string
}.

Inductive IncomingAgentMessage : Type :=
| InConnectionUpdate (u : Update)
| InEventBatch (connection_id : string) (events : list MetricEvent)
| InSetMetricAck (request_id : string) (verified : bool) (actual_line : option N) (error : option string)
| InRemoveMetricAck (request_id : string) (confirmed : bool) (error : option string)
| InFileResponse (request_id : string) (content : list byte) (error : option string)
| InInspectResponse (request_id : string) (variables : list VariableInfo) (error : option string)
| InDropCount (connection_id : string) (total kernel decode unavailable decoded : N)
| InHeartbeat (cpu memory_bytes active_probes uptime_secs events_forwarded events_dropped : N)
| InRegisterUpdate (binaries : list AgentBinaryInfo)
| InPong
| InError (code message : string).

Record Creation : Type := mkCreation {
  cn_connection : string; cn_language : string; cn_binary_path : string; cn_host : string; cn_port : N; cn_safe_mode : bool;
  cn_backend : string; cn_profile : string; cn_debug_info : string
}.

Inductive OutgoingAgentMessage : Type :=
| OutRegisterAck (accepted : bool) (rejection_reason min_compatible_version : string)
| OutCreateConnection (c : Creation)
| OutCloseConnection (connection_id : string)
| OutSetMetric (request_id connection_id metric_name file : string) (line : N) (expressions : list string) (enabled : bool) (metric_id : N)
| OutRemoveMetric (request_id connection_id metric_name : string)
| OutReadFile (request_id connection_id path : string)
| OutInspectFile (request_id connection_id file : string) (line : N) (find_variable : string)
| OutPing.

Inductive RegisterResult : Type := Accepted | Rejected (reason : string).

Definition incoming_connection_id (m : IncomingAgentMessage) : option string :=
  match m with
  | InConnectionUpdate u => Some (up_connection u)
  | InEventBatch c _ | InDropCount c _ _ _ _ _ => Some c
  | _ => None
  end.
Definition incoming_request_id (m : IncomingAgentMessage) : option string :=
  match m with
  | InSetMetricAck r _ _ _ | InRemoveMetricAck r _ _ | InFileResponse r _ _ | InInspectResponse r _ _ => Some r
  | _ => None
  end.
Definition extract_request_id (m : OutgoingAgentMessage) : option string :=
  match m with
  | OutSetMetric r _ _ _ _ _ _ _ | OutRemoveMetric r _ _ | OutReadFile r _ _ | OutInspectFile r _ _ _ _ => Some r
  | _ => None
  end.

(** ** Versions and capabilities *)

Definition parse_version (v : string) : option (N * N * N) :=
  match str_split "." v with
  | major :: minor :: rest =>
      match parse_uint 64 major, parse_uint 64 minor with
      | Some major, Some minor => Some (major, minor, default 0 (match rest with patch :: _ => parse_uint 64 patch | [] => None end))
      | _, _ => None
      end
  | _ => None
  end.

Inductive SemverCmp : Type := Compatible | Incompatible (reason : string).

Definition semver_compare (agent_version min_version : string) : SemverCmp :=
  let reason text := Incompatible (text ++ ": agent=" ++ agent_version ++ ", min=" ++ min_version) in
  match parse_version agent_version, parse_version min_version with
  | Some (major, minor, patch), Some (min_major, min_minor, min_patch) =>
      if negb (major =? min_major) then reason "Major version mismatch"
      else if minor <? min_minor then reason "Minor version too low"
      else if (minor =? min_minor) && (patch <? min_patch) then reason "Patch version too low"
      else Compatible
  | _, _ => reason "Invalid version format"
  end.

Definition eq_ignore_ascii_case (a b : string) : bool := String.eqb (to_ascii_lowercase a) (to_ascii_lowercase b).

Definition DRX1_SCHEMA : N := 1.
Definition DRX1_MIN_PAYLOAD_BYTES : N := 4096.

Definition offers_drx1 (schemas : list N) (profiles : list string) (max_payload : N) (profile : string) : bool :=
  existsb (N.eqb DRX1_SCHEMA) schemas && existsb (fun p => eq_ignore_ascii_case p profile) profiles
  && (DRX1_MIN_PAYLOAD_BYTES <=? max_payload).
Definition supports_profile_drx1 (c : AgentCapabilities) (profile : string) : bool :=
  cap_ebpf c && offers_drx1 (cap_envelope_schemas c) (cap_capture_profiles c) (cap_max_payload c) profile.

Definition validate_capture_admission (c : AgentCapabilities) (selected_backend capture_profile : string)
    (schemas : list N) (profiles : list string) (max_payload : N) : result unit string :=
  if negb (eq_ignore_ascii_case selected_backend "ebpf") then Ok tt
  else if negb (existsb (String.eqb (to_ascii_lowercase capture_profile)) ["go"; "rust"]) then Ok tt
  else
    let registered_ok := supports_profile_drx1 c capture_profile in
    if eq_ignore_ascii_case capture_profile "go" && negb registered_ok then Ok tt
    else
      let reported_ok := offers_drx1 schemas profiles max_payload capture_profile in
      if registered_ok && reported_ok then Ok tt
      else if negb registered_ok
      then Err ("agent registration does not advertise " ++ capture_profile ++ " DRX1/schema 1 with a 4096-byte payload")
      else Err ("connection update does not confirm " ++ capture_profile ++ " DRX1/schema 1 with a 4096-byte payload").

(** The identity of a binary does not name the agent, so its metrics survive
    the replacement of the agent. *)
Definition agent_connection_identity (binary_path : string) (language : SourceLanguage) (hostname : string) : ConnectionIdentity :=
  mkIdentity (AGENT_NAME_PREFIX ++ trim_start_matches "/" binary_path) language "/" hostname.

(** ** State *)

Record AgentInfo : Type := mkAgent {
  ai_hostname : string; ai_capabilities : AgentCapabilities; ai_binaries : list AgentBinaryInfo; ai_session : N
}.

(** The tables that say who serves what. *)
Record Routing : Type := mkRouting {
  rt_agents : gmap string AgentInfo; rt_routes : gmap string string;
  rt_channels : gmap string N; rt_receivers : gmap string N;
  rt_requests : gmap string (gset string); rt_liveness : gmap string Z
}.

(** A request under way: its reply channel has a message, lost its sender, or neither. *)
Inductive CallState : Type := CWaiting | CAnswered (m : IncomingAgentMessage) | CDropped.
Record Call : Type := mkCallOf { cl_connection : string; cl_request : string; cl_state : CallState }.

Inductive PingState : Type := PWaiting | PAnswered | PDropped.
Record PingCall : Type := mkPing { pg_agent : string; pg_id : N; pg_state : PingState }.

(** The tables that match answers with requests. *)
Record Correlation : Type := mkCorr {
  co_pending : gmap string N; co_request_conn : gmap string string; co_calls : gmap N Call;
  co_pings : gmap string (gmap N N); co_ping_calls : gmap N PingCall; co_ping_counter : N; co_next : N
}.

Inductive Output : Type :=
| OSent (session : N) (m : OutgoingAgentMessage)
| OEvent (channel : N) (e : MetricEvent)
| OClosed (connection_id : string).

(** ** Matching answers with requests *)

Definition set_calls (calls : gmap N Call) (c : Correlation) : Correlation :=
  mkCorr (co_pending c) (co_request_conn c) calls (co_pings c) (co_ping_calls c) (co_ping_counter c) (co_next c).
Definition set_matching (pending : gmap string N) (request_conn : gmap string string) (c : Correlation) : Correlation :=
  mkCorr pending request_conn (co_calls c) (co_pings c) (co_ping_calls c) (co_ping_counter c) (co_next c).
Definition set_pings (pings : gmap string (gmap N N)) (calls : gmap N PingCall) (c : Correlation) : Correlation :=
  mkCorr (co_pending c) (co_request_conn c) (co_calls c) pings calls (co_ping_counter c) (co_next c).

(** [tx.send(m)], and the drop of [tx]: only the first has an effect. *)
Definition settle (st : CallState) (c : Call) : Call :=
  match cl_state c with CWaiting => mkCallOf (cl_connection c) (cl_request c) st | _ => c end.
Definition settle_call (n : N) (st : CallState) (c : Correlation) : Correlation := set_calls (alter (settle st) n (co_calls c)) c.

(** [pending_requests.remove(r)], whose sender gets [st]. *)
Definition take_pending (r : string) (st : CallState) (c : Correlation) : Correlation :=
  match co_pending c !! r with
  | Some n => settle_call n st (set_matching (delete r (co_pending c)) (co_request_conn c) c)
  | None => c
  end.
Definition forget_request (r : string) (c : Correlation) : Correlation :=
  set_matching (co_pending c) (delete r (co_request_conn c)) c.

Definition connection_removed : IncomingAgentMessage := InError "CONNECTION_REMOVED" "connection removed by scanner update".

Definition settle_ping (n : N) (st : PingState) (calls : gmap N PingCall) : gmap N PingCall :=
  alter (fun p => match pg_state p with PWaiting => mkPing (pg_agent p) (pg_id p) st | _ => p end) n calls.
(** [pending_pings.remove(agent)] with every waiter getting [st]. *)
Definition take_pings (agent_id : string) (st : PingState) (c : Correlation) : Correlation :=
  match co_pings c !! agent_id with
  | Some waiters => set_pings (delete agent_id (co_pings c)) (map_fold (fun _ n calls => settle_ping n st calls) (co_ping_calls c) waiters) c
  | None => c
  end.

(** ** The per-connection tables *)

Definition set_agents (x : gmap string AgentInfo) (t : Routing) : Routing :=
  mkRouting x (rt_routes t) (rt_channels t) (rt_receivers t) (rt_requests t) (rt_liveness t).
Definition set_requests (x : gmap string (gset string)) (t : Routing) : Routing :=
  mkRouting (rt_agents t) (rt_routes t) (rt_channels t) (rt_receivers t) x (rt_liveness t).
Definition set_liveness (x : gmap string Z) (t : Routing) : Routing :=
  mkRouting (rt_agents t) (rt_routes t) (rt_channels t) (rt_receivers t) (rt_requests t) x.
Definition track_request (c r : string) (t : Routing) : Routing := set_requests (alter (fun rs => {[r]} ∪ rs) c (rt_requests t)) t.
Definition untrack_request (c r : string) (t : Routing) : Routing := set_requests (alter (fun rs => rs ∖ {[r]}) c (rt_requests t)) t.
Definition set_channel (c : string) (n : N) (t : Routing) : Routing :=
  mkRouting (rt_agents t) (rt_routes t) (<[c := n]> (rt_channels t)) (<[c := n]> (rt_receivers t)) (rt_requests t) (rt_liveness t).
Definition route (c agent_id : string) (t : Routing) : Routing :=
  mkRouting (rt_agents t) (<[c := agent_id]> (rt_routes t)) (rt_channels t) (rt_receivers t) (<[c := ∅]> (rt_requests t)) (rt_liveness t).
Definition forget_connection (c : string) (t : Routing) : Routing :=
  mkRouting (rt_agents t) (delete c (rt_routes t)) (delete c (rt_channels t)) (delete c (rt_receivers t)) (delete c (rt_requests t))
    (delete c (rt_liveness t)).

Definition owns_connection (agent_id c : string) (t : Routing) : bool := bool_decide (rt_routes t !! c = Some agent_id).
Definition is_current (agent_id : string) (session : N) (t : Routing) : bool :=
  match rt_agents t !! agent_id with Some info => ai_session info =? session | None => false end.

(** ** The manager *)

Section Manager.
Context `{Engine} {L E R : Type} `{AdapterLifecycle L E} `{ConnectionMetrics R}.
Context (sha256 : list byte -> list byte) (debug_strings : list string -> string).
(** [min_compatible_agent_version], whether a bus for system events is there,
    and the two environment variables. *)
Context (min_version : option string) (has_bus : bool) (rust_ebpf_enabled : bool) (debug_info_path : string).

Record World : Type := mkWorld {
  wo_db : Db Store; wo_metrics : R; wo_lc : option L; wo_starting : gset string; wo_out : list Output;
  wo_hung : gset N; wo_gone : gset N; wo_clock : nat -> Z; wo_ticks : nat
}.

Record Manager : Type := mkManager { mg_routing : Routing; mg_corr : Correlation; mg_world : World }.

Definition on_routing (f : Routing -> Routing) (s : Manager) : Manager := mkManager (f (mg_routing s)) (mg_corr s) (mg_world s).
Definition on_corr (f : Correlation -> Correlation) (s : Manager) : Manager := mkManager (mg_routing s) (f (mg_corr s)) (mg_world s).

Definition set_lc (lc : option L) (starting : gset string) (s : Manager) : Manager :=
  let w := mg_world s in
  mkManager (mg_routing s) (mg_corr s) (mkWorld (wo_db w) (wo_metrics w) lc starting (wo_out w) (wo_hung w) (wo_gone w) (wo_clock w) (wo_ticks w)).
Definition on_table {A : Type} (m : Sql Store A) (s : Manager) : Manager * result A Error :=
  let w := mg_world s in let '(db, r) := m (wo_db w) in
  (mkManager (mg_routing s) (mg_corr s) (mkWorld db (wo_metrics w) (wo_lc w) (wo_starting w) (wo_out w) (wo_hung w) (wo_gone w) (wo_clock w) (wo_ticks w)), r).
Definition migrate (from to : string) (s : Manager) : Manager :=
  let w := mg_world s in let '(ms, _) := repo_migrate_connection_id from to (wo_metrics w) in
  mkManager (mg_routing s) (mg_corr s) (mkWorld (wo_db w) ms (wo_lc w) (wo_starting w) (wo_out w) (wo_hung w) (wo_gone w) (wo_clock w) (wo_ticks w)).
Definition emit (o : Output) (s : Manager) : Manager :=
  let w := mg_world s in
  mkManager (mg_routing s) (mg_corr s) (mkWorld (wo_db w) (wo_metrics w) (wo_lc w) (wo_starting w) (wo_out w ++ [o]) (wo_hung w) (wo_gone w) (wo_clock w) (wo_ticks w)).
Definition tick (s : Manager) : Manager * Z :=
  let w := mg_world s in
  (mkManager (mg_routing s) (mg_corr s) (mkWorld (wo_db w) (wo_metrics w) (wo_lc w) (wo_starting w) (wo_out w) (wo_hung w) (wo_gone w) (wo_clock w) (S (wo_ticks w))),
   wo_clock w (wo_ticks w)).
(** The reader of a stream, or the receiver of events, goes away. *)
Definition hang_up (session : N) (s : Manager) : Manager :=
  let w := mg_world s in
  mkManager (mg_routing s) (mg_corr s) (mkWorld (wo_db w) (wo_metrics w) (wo_lc w) (wo_starting w) (wo_out w) ({[session]} ∪ wo_hung w) (wo_gone w) (wo_clock w) (wo_ticks w)).
Definition drop_receiver (channel : N) (s : Manager) : Manager :=
  let w := mg_world s in
  mkManager (mg_routing s) (mg_corr s) (mkWorld (wo_db w) (wo_metrics w) (wo_lc w) (wo_starting w) (wo_out w) (wo_hung w) ({[channel]} ∪ wo_gone w) (wo_clock w) (wo_ticks w)).
(** A new channel. *)
Definition fresh (s : Manager) : Manager * N :=
  let c := mg_corr s in
  (mkManager (mg_routing s) (mkCorr (co_pending c) (co_request_conn c) (co_calls c) (co_pings c) (co_ping_calls c) (co_ping_counter c) (co_next c + 1)) (mg_world s),
   co_next c).

Definition send_session (session : N) (m : OutgoingAgentMessage) (s : Manager) : Manager * bool :=
  if bool_decide (session ∈ wo_hung (mg_world s)) then (s, false) else (emit (OSent session m) s, true).
Definition closed_event (c : string) (s : Manager) : Manager := if has_bus then emit (OClosed c) s else s.
Definition set_connection_status (c : string) (status : ConnectionStatus) (s : Manager) : Manager :=
  let '(s, t) := tick s in fst (on_table (conn_update_status t c status) s).
Definition record_liveness (c : string) (s : Manager) : Manager :=
  let '(s, t) := tick s in on_routing (fun rt => set_liveness (<[c := t]> (rt_liveness rt)) rt) s.
Definition liveness_age (c : string) (s : Manager) : Manager * option Z :=
  let '(s, t) := tick s in (s, (fun t0 => (t - t0)%Z) <$> rt_liveness (mg_routing s) !! c).
Definition agent_routed (c : string) (s : Manager) : bool := bool_decide (is_Some (rt_routes (mg_routing s) !! c)).

Definition refresh_event_channel (c : string) (s : Manager) : Manager :=
  let '(s, n) := fresh s in on_routing (set_channel c n) s.
Definition take_receiver (c : string) (s : Manager) : Manager * option N :=
  (on_routing (fun t => mkRouting (rt_agents t) (rt_routes t) (rt_channels t) (delete c (rt_receivers t)) (rt_requests t) (rt_liveness t)) s,
   rt_receivers (mg_routing s) !! c).

(** *** Requests *)

Definition resolve_pending (r : string) (response : IncomingAgentMessage) (s : Manager) : Manager :=
  let conn := co_request_conn (mg_corr s) !! r in
  let s := on_corr (fun c => take_pending r (CAnswered response) (forget_request r c)) s in
  match conn with Some c => on_routing (untrack_request c r) s | None => s end.

Definition cancel_pending_for_connection (c : string) (s : Manager) : Manager :=
  match rt_requests (mg_routing s) !! c with
  | None => s
  | Some rs =>
      on_corr (fun co => foldl (fun co r => take_pending r (CAnswered connection_removed) co) co (visit (elements rs)))
        (on_routing (fun t => set_requests (<[c := ∅]> (rt_requests t)) t) s)
  end.

Definition send_to_agent (c : string) (m : OutgoingAgentMessage) (s : Manager) : Manager * result unit Error :=
  match rt_routes (mg_routing s) !! c ≫= fun a => rt_agents (mg_routing s) !! a with
  | Some info =>
      match send_session (ai_session info) m s with
      | (s, true) => (s, Ok tt)
      | (s, false) => (s, Err (Adapter "Agent stream closed"))
      end
  | None => (s, Err (NotConnected "Agent not found for connection"))
  end.

(** What every end of a request does to the three tables. *)
Definition drop_request (c r : string) (s : Manager) : Manager :=
  on_routing (untrack_request c r) (on_corr (fun co => forget_request r (take_pending r CDropped co)) s).

(** [pending_requests.insert(r, tx)]: a sender that was there is dropped. *)
Definition put_pending (c r : string) (n : N) (co : Correlation) : Correlation :=
  let co := take_pending r CDropped co in
  set_calls (<[n := mkCallOf c r CWaiting]> (co_calls co)) (set_matching (<[r := n]> (co_pending co)) (<[r := c]> (co_request_conn co)) co).
Definition end_call (n : N) (co : Correlation) : Correlation := set_calls (delete n (co_calls co)) co.

(** [send_and_await_raw] up to its wait; the call is known by its reply channel. *)
Definition begin_request (c : string) (m : OutgoingAgentMessage) (s : Manager) : Manager * result N Error :=
  match extract_request_id m with
  | None => (s, Err (Adapter "OutgoingAgentMessage has no request_id"))
  | Some r =>
      let '(s, n) := fresh s in
      let s := on_corr (put_pending c r n) (on_routing (track_request c r) s) in
      match send_to_agent c m s with
      | (s, Err e) => (on_corr (end_call n) (drop_request c r s), Err e)
      | (s, Ok _) => (s, Ok n)
      end
  end.

Definition call_result (st : CallState) : result IncomingAgentMessage Error :=
  match st with
  | CAnswered m => Ok m
  | CDropped => Err (Adapter "Agent disconnected while waiting for response")
  | CWaiting => Err (Adapter "Request timed out waiting for agent response")
  end.
(** The end of the wait; a call that still waits ends by its time-out. *)
Definition finish_request (n : N) (s : Manager) : option (Manager * result IncomingAgentMessage Error) :=
  match co_calls (mg_corr s) !! n with
  | Some call => Some (on_corr (end_call n) (drop_request (cl_connection call) (cl_request call) s), call_result (cl_state call))
  | None => None
  end.
(** [send_and_await]: the answer is converted. *)
Definition finish_request_as {T : Type} (convert : IncomingAgentMessage -> result T Error) (n : N) (s : Manager) : option (Manager * result T Error) :=
  (fun p => (fst p, res_bind (snd p) convert)) <$> finish_request n s.

(** *** Pings *)

Definition begin_ping (agent_id : string) (s : Manager) : Manager * result N Error :=
  let '(s, n) := fresh s in
  let id := co_ping_counter (mg_corr s) in
  let s := on_corr (fun c => mkCorr (co_pending c) (co_request_conn c) (co_calls c)
                       (<[agent_id := <[id := n]> (default ∅ (co_pings c !! agent_id))]> (co_pings c))
                       (<[n := mkPing agent_id id PWaiting]> (co_ping_calls c)) (wrap 64 (co_ping_counter c + 1)) (co_next c)) s in
  match (fun info => send_session (ai_session info) OutPing s) <$> rt_agents (mg_routing s) !! agent_id with
  | Some (s, true) => (s, Ok n)
  | _ => (on_corr (fun c => set_pings (alter (delete id) agent_id (co_pings c)) (delete n (co_ping_calls c)) c) s,
          Err (Adapter "agent not found or channel closed"))
  end.
Definition finish_ping (n : N) (s : Manager) : option (Manager * result unit Error) :=
  match co_ping_calls (mg_corr s) !! n with
  | None => None
  | Some p =>
      let over c := set_pings (co_pings c) (delete n (co_ping_calls c)) c in
      let removed c := set_pings (alter (delete (pg_id p)) (pg_agent p) (co_pings c)) (delete n (co_ping_calls c)) c in
      Some (match pg_state p with
            | PAnswered => (on_corr over s, Ok tt)
            | PWaiting => (on_corr removed s, Err (Adapter "ping timed out"))
            | PDropped => (on_corr removed s, Err (Adapter "ping channel dropped"))
            end)
  end.

(** *** Registration *)

(** One stale connection: a connection some agent serves is left alone. *)
Definition absorb_stale_connection (to : string) (s : Manager) (stale_id : string) : Manager :=
  if agent_routed stale_id s then s
  else
    let s := migrate stale_id to s in
    match on_table (conn_delete stale_id) s with
    | (s, Err _) => s
    | (s, Ok _) => closed_event stale_id (on_routing (forget_connection stale_id) (cancel_pending_for_connection stale_id s))
    end.
Definition cleanup_stale_connections (c : Connection) (s : Manager) : Manager :=
  match on_table (conn_find_stale_same_project (default EmptyString (c_name c)) (lang_as_str (c_language c)) (c_workspace_root c) (c_id c)) s with
  | (s, Err _) => s
  | (s, Ok stale_ids) => foldl (absorb_stale_connection (c_id c)) s stale_ids
  end.

Definition binary_identity (hostname : string) (b : AgentBinaryInfo) : ConnectionIdentity :=
  agent_connection_identity (bi_path b) (bi_language b) hostname.
Definition binary_connection (hostname : string) (b : AgentBinaryInfo) : string := to_uuid sha256 (binary_identity hostname b).

Definition agent_row (hostname : string) (c : Connection) : Connection :=
  mkConn (c_id c) (c_name c) (c_workspace_root c) hostname (c_host c) (c_port c) (c_language c) (c_status c) (c_auto_reconnect c) true
    (c_control_plane_url c) (c_build_commit c) (c_build_tag c) (c_user_id c) (c_created_at c) (c_last_connected_at c) (c_last_active c).
Definition new_agent_connection (hostname : string) (b : AgentBinaryInfo) (s : Manager) : Manager * result Connection Error :=
  let '(s, t) := tick s in
  (s, match new_with_identity sha256 t (binary_identity hostname b) (bi_path b) 0 with
      | Ok c => Ok (agent_row hostname c)
      | Err e => Err (Adapter ("Invalid connection identity: " ++ error_display debug_strings e))
      end).
Fixpoint new_agent_connections (hostname : string) (bs : list AgentBinaryInfo) (s : Manager) : Manager * result (list Connection) Error :=
  match bs with
  | [] => (s, Ok [])
  | b :: rest =>
      match new_agent_connection hostname b s with
      | (s, Err e) => (s, Err e)
      | (s, Ok c) => match new_agent_connections hostname rest s with (s, Err e) => (s, Err e) | (s, Ok cs) => (s, Ok (c :: cs)) end
      end
  end.

(** Channels that are there are kept, so that a reconnecting agent keeps them. *)
Definition install (agent_id : string) (s : Manager) (c : string) : Manager :=
  let s := match rt_channels (mg_routing s) !! c with Some _ => s | None => refresh_event_channel c s end in
  on_routing (route c agent_id) s.

Definition creation (hostname : string) (ebpf : bool) (b : AgentBinaryInfo) : Creation :=
  mkCreation (binary_connection hostname b) (lang_as_str (bi_language b)) (bi_path b) hostname 0 true
    (if ebpf then "ebpf" else EmptyString) (if ebpf then "rust" else EmptyString) debug_info_path.
Definition announce (session : N) (hostname : string) (s : Manager) (b : AgentBinaryInfo) : Manager :=
  fst (send_session session (OutCreateConnection (creation hostname (rust_ebpf_enabled && bool_decide (bi_language b = Rust)) b)) s).

Definition rejection (agent_version : string) : option (string * string) :=
  match min_version with
  | Some v => match semver_compare agent_version v with Incompatible reason => Some (reason, v) | Compatible => None end
  | None => None
  end.

Definition register_atomic (agent_id hostname agent_version : string) (capabilities : AgentCapabilities) (binaries : list AgentBinaryInfo)
    (session : N) (s : Manager) : Manager * result RegisterResult Error :=
  match rejection agent_version with
  | Some (reason, v) => (fst (send_session session (OutRegisterAck false reason v) s), Ok (Rejected reason))
  | None =>
      match new_agent_connections hostname binaries s with
      | (s, Err e) => (s, Err e)
      | (s, Ok connections) =>
          match on_table (conn_save_batch connections) s with
          | (s, Err e) => (s, Err e)
          | (s, Ok _) =>
              let s := foldl (fun s c => cleanup_stale_connections c s) s connections in
              let s := foldl (install agent_id) s (map (binary_connection hostname) binaries) in
              let s := on_routing (fun t => set_agents (<[agent_id := mkAgent hostname capabilities binaries session]> (rt_agents t)) t) s in
              let s := fst (send_session session (OutRegisterAck true EmptyString (default EmptyString min_version)) s) in
              (foldl (announce session hostname) s binaries, Ok Accepted)
          end
      end
  end.

(** What happens to a connection whose agent, or whose process, has gone. *)
Definition disconnect_connection (s : Manager) (c : string) : Manager :=
  let s := cancel_pending_for_connection c s in
  let s := set_connection_status c Disconnected s in
  on_routing (forget_connection c) (closed_event c s).

Definition served_by (agent_id : string) (t : Routing) : list string :=
  visit (map fst (List.filter (fun p => String.eqb (snd p) agent_id) (map_to_list (rt_routes t)))).

Definition unregister_agent_matching (agent_id : string) (session : option N) (s : Manager) : Manager :=
  if match session with
     | Some n => is_current agent_id n (mg_routing s)
     | None => bool_decide (is_Some (rt_agents (mg_routing s) !! agent_id))
     end
  then
    let s := on_routing (fun t => set_agents (delete agent_id (rt_agents t)) t) s in
    let s := foldl disconnect_connection s (served_by agent_id (mg_routing s)) in
    on_corr (take_pings agent_id PDropped) s
  else s.

(** *** Scanner updates *)

Definition binary_key (b : AgentBinaryInfo) : string * N * N := (bi_path b, bi_pid b, bi_inode b).
(** Collecting into a hash map: the last entry of a key stays. *)
Definition binary_map (bs : list AgentBinaryInfo) : gmap (string * N * N) AgentBinaryInfo :=
  list_to_map (reverse (map (fun b => (binary_key b, b)) bs)).
Definition added_binaries (current new : list AgentBinaryInfo) : list AgentBinaryInfo :=
  List.filter (fun b => bool_decide (binary_map current !! binary_key b = None)) new.
Definition removed_binaries (current new : list AgentBinaryInfo) : list AgentBinaryInfo :=
  map snd (List.filter (fun p => bool_decide (binary_map new !! fst p = None)) (visit (map_to_list (binary_map current)))).

Definition add_binary (agent_id hostname : string) (session : N) (s : Manager) (b : AgentBinaryInfo) : Manager :=
  match new_agent_connection hostname b s with
  | (s, Err _) => s
  | (s, Ok c) =>
      match on_table (conn_save_batch [c]) s with
      | (s, Err _) => s
      | (s, Ok _) =>
          let s := cleanup_stale_connections c s in
          let s := refresh_event_channel (binary_connection hostname b) s in
          let s := on_routing (route (binary_connection hostname b) agent_id) s in
          fst (send_session session (OutCreateConnection (creation hostname false b)) s)
      end
  end.

Definition handle_register_update (agent_id : string) (binaries : list AgentBinaryInfo) (s : Manager) : Manager :=
  match rt_agents (mg_routing s) !! agent_id with
  | None => s
  | Some info =>
      let hostname := ai_hostname info in
      let s := foldl disconnect_connection s (map (binary_connection hostname) (removed_binaries (ai_binaries info) binaries)) in
      let s := foldl (add_binary agent_id hostname (ai_session info)) s (added_binaries (ai_binaries info) binaries) in
      on_routing (fun t => set_agents (alter (fun i => mkAgent (ai_hostname i) (ai_capabilities i) binaries (ai_session i)) agent_id (rt_agents t)) t) s
  end.

(** *** Messages from agents *)

Definition start_request (c : string) (conn : Connection) : StartRequest :=
  mkReq c (c_host conn) (c_port conn) (c_language conn) None None (c_safe_mode conn).

(** The adapter follows the status; [false] when the handler returns early. *)
Definition follow_status (e : E) (c : string) (status : ConnectionStatus) (s : Manager) : Manager * bool :=
  match wo_lc (mg_world s) with
  | None => (s, true)
  | Some lc =>
      let starting := wo_starting (mg_world s) in
      if bool_decide (status = Connected) && negb (lc_has c lc) && bool_decide (c ∉ starting) then
        match on_table (conn_find_by_id c) (set_lc (Some lc) ({[c]} ∪ starting) s) with
        | (s, Ok (Some conn)) =>
            let '(lc, r) := lc_start e (start_request c conn) lc in
            let s := set_lc (Some lc) (wo_starting (mg_world s) ∖ {[c]}) s in
            match r with
            | Ok _ => (s, true)
            | Err x => (set_connection_status c (Failed (error_display debug_strings x)) s, false)
            end
        | (s, Ok None) => (set_lc (Some lc) (wo_starting (mg_world s) ∖ {[c]}) s, true)
        | (s, Err _) => (set_lc (Some lc) (wo_starting (mg_world s) ∖ {[c]}) s, false)
        end
      else
        match status with
        | Disconnected | Failed _ => (if lc_has c lc then set_lc (Some (lc_stop c lc)) starting s else s, true)
        | _ => (s, true)
        end
  end.

Definition admission_error (agent_id : string) (u : Update) (t : Routing) : option string :=
  match rt_agents t !! agent_id with
  | Some info =>
      match validate_capture_admission (ai_capabilities info) (up_backend u) (up_profile u) (up_schemas u) (up_profiles u) (up_max_payload u) with
      | Err reason => Some reason
      | Ok _ => None
      end
  | None => None
  end.

Definition handle_connection_update (e : E) (agent_id : string) (u : Update) (s : Manager) : Manager :=
  let c := up_connection u in
  match admission_error agent_id u (mg_routing s) with
  | Some reason =>
      let s := match rt_agents (mg_routing s) !! agent_id with
               | Some info => fst (send_session (ai_session info) (OutCloseConnection c) s)
               | None => s
               end in
      set_connection_status c (Failed reason) s
  | None =>
      match follow_status e c (up_status u) s with
      | (s, false) => s
      | (s, true) =>
          let s := set_connection_status c (up_status u) s in
          match up_status u with Disconnected | Failed _ => closed_event c s | _ => s end
      end
  end.

Definition forward_events (c : string) (events : list MetricEvent) (s : Manager) : Manager :=
  match rt_channels (mg_routing s) !! c with
  | Some n => if bool_decide (n ∈ wo_gone (mg_world s)) then s else foldl (fun s ev => emit (OEvent n ev) s) s events
  | None => s
  end.

Definition handle_heartbeat (agent_id : string) (s : Manager) : Manager :=
  foldl (fun s c => record_liveness c s) s (served_by agent_id (mg_routing s)).

Definition handle_message (e : E) (agent_id : string) (m : IncomingAgentMessage) (s : Manager) : Manager :=
  match m with
  | InConnectionUpdate u => handle_connection_update e agent_id u s
  | InEventBatch c events => forward_events c events s
  | InSetMetricAck r _ _ _ | InRemoveMetricAck r _ _ | InFileResponse r _ _ | InInspectResponse r _ _ => resolve_pending r m s
  | InDropCount _ _ _ _ _ _ | InError _ _ => s
  | InHeartbeat _ _ _ _ _ _ => handle_heartbeat agent_id s
  | InRegisterUpdate binaries => handle_register_update agent_id binaries s
  | InPong => on_corr (take_pings agent_id PAnswered) s
  end.

(** Whether the message may be handled: it comes over the agent's current
    stream, and is about a connection and a request of that agent. *)
Definition admitted (agent_id : string) (session : N) (m : IncomingAgentMessage) (s : Manager) : bool :=
  is_current agent_id session (mg_routing s)
  && match incoming_connection_id m with Some c => owns_connection agent_id c (mg_routing s) | None => true end
  && match incoming_request_id m with
     | Some r => match co_request_conn (mg_corr s) !! r with Some c => owns_connection agent_id c (mg_routing s) | None => false end
     | None => true
     end.

Definition dispatch (e : E) (agent_id : string) (session : N) (m : IncomingAgentMessage) (s : Manager) : Manager :=
  if admitted agent_id session m s then handle_message e agent_id m s else s.

(** ** Histories *)

Inductive Move : Type :=
| MRegister (agent_id hostname agent_version : string) (capabilities : AgentCapabilities) (binaries : list AgentBinaryInfo) (session : N)
| MDispatch (e : E) (agent_id : string) (session : N) (m : IncomingAgentMessage)
| MUnregister (agent_id : string) (session : option N)
| MBegin (c : string) (m : OutgoingAgentMessage)
| MFinish (n : N)
| MPing (agent_id : string)
| MFinishPing (n : N)
| MRefresh (c : string)
| MSubscribe (c : string)
| MLiveness (c : string)
| MHangUp (session : N)
| MDropReceiver (channel : N).

Definition move (v : Move) (s : Manager) : Manager :=
  match v with
  | MRegister a h ver caps bs n => fst (register_atomic a h ver caps bs n s)
  | MDispatch e a n m => dispatch e a n m s
  | MUnregister a n => unregister_agent_matching a n s
  | MBegin c m => fst (begin_request c m s)
  | MFinish n => from_option fst s (finish_request n s)
  | MPing a => fst (begin_ping a s)
  | MFinishPing n => from_option fst s (finish_ping n s)
  | MRefresh c => refresh_event_channel c s
  | MSubscribe c => fst (take_receiver c s)
  | MLiveness c => record_liveness c s
  | MHangUp n => hang_up n s
  | MDropReceiver n => drop_receiver n s
  end.

Definition manager_new (db : Db Store) (metrics : R) (lc : option L) (clock : nat -> Z) : Manager :=
  mkManager (mkRouting ∅ ∅ ∅ ∅ ∅ ∅) (mkCorr ∅ ∅ ∅ ∅ ∅ 0 0) (mkWorld db metrics lc ∅ [] ∅ ∅ clock 0).
Definition after (history : list Move) (s : Manager) : Manager := foldl (fun s v => move v s) s history.
End Manager.
