(* ===== verification/AgentReach.v ===== *)
(** * How far the agent manager's operations reach

    Lemmas on [AgentManager]: calls are settled through the table of pending
    requests, the tables stay consistent under every move, and an operation
    changes nothing outside the connections it is given ([Reach]). *)

From Stdlib Require Import Strings.String Strings.Ascii Init.Byte.
From stdpp Require Import gmap.
From S2P Require Import Prelude CoreError RustStr RustText Language Event Metric Logpoint MetricRepo Sql Connection ConnectionRepo Lifecycle MetricService ConnectionService AgentManager.

Local Open Scope string_scope.
Local Open Scope N_scope.
Local Arguments String.append !_ _ / : simpl nomatch.

(** ** Calls *)

(** Every call of [co] is in [co'], unchanged or settled as [P] allows. *)
Definition calls_step (P : Call -> CallState -> Prop) (co co' : Correlation) : Prop :=
  forall n call, co_calls co !! n = Some call ->
    co_calls co' !! n = Some call \/
    (cl_state call = CWaiting /\ exists st, P call st /\ co_calls co' !! n = Some (mkCallOf (cl_connection call) (cl_request call) st)).

Lemma calls_step_refl P co : calls_step P co co.
Proof. intros n call Hc. by left. Qed.
Lemma calls_step_same P co co' : co_calls co' = co_calls co -> calls_step P co co'.
Proof. intros He n call Hc. left. by rewrite He. Qed.
Lemma calls_step_trans P co co1 co2 : (forall call st, P call st -> st <> CWaiting) ->
  calls_step P co co1 -> calls_step P co1 co2 -> calls_step P co co2.
Proof.
  intros Hst H1 H2 n call Hc. destruct (H1 _ _ Hc) as [H1c | (Hw & st & HP & H1c)].
  - exact (H2 _ _ H1c).
  - right. split; [done|]. exists st. split; [done|].
    destruct (H2 _ _ H1c) as [H2c | (Hw' & _)]; [done|]. by destruct (Hst _ _ HP).
Qed.
Lemma calls_step_weaken (P Q : Call -> CallState -> Prop) co co' : (forall call st, P call st -> Q call st) -> calls_step P co co' -> calls_step Q co co'.
Proof.
  intros HPQ Hs n call Hc. destruct (Hs _ _ Hc) as [|(Hw & st & HP & Hc')]; [by left|]. right. eauto 6.
Qed.

(** The tables of pending requests and of calls agree. *)
Record matched (co : Correlation) : Prop := mkMatched {
  mt_pending r n : co_pending co !! r = Some n -> exists c, co_calls co !! n = Some (mkCallOf c r CWaiting) /\ co_request_conn co !! r = Some c;
  mt_waiting n c r : co_calls co !! n = Some (mkCallOf c r CWaiting) -> co_pending co !! r = Some n;
  mt_fresh n call : co_calls co !! n = Some call -> n < co_next co
}.

Lemma settle_waiting st call : cl_state call = CWaiting -> settle st call = mkCallOf (cl_connection call) (cl_request call) st.
Proof. unfold settle. by intros ->. Qed.
Lemma settle_settled st call : cl_state call <> CWaiting -> settle st call = call.
Proof. unfold settle. by destruct (cl_state call). Qed.

Lemma take_pending_step r st co : matched co -> calls_step (fun call st' => cl_request call = r /\ st' = st) co (take_pending r st co).
Proof.
  intros Hm n call Hc. unfold take_pending. destruct (co_pending co !! r) as [n0|] eqn:Hr; [|by left]. cbn.
  destruct (decide (n = n0)) as [->|Hne]; [|left; by rewrite lookup_alter_ne].
  destruct (mt_pending _ Hm _ _ Hr) as (c & Hc' & _). simplify_eq. right. split; [done|]. exists st.
  rewrite lookup_alter_eq, Hc. by cbn.
Qed.

Lemma take_pending_matched r st co : st <> CWaiting -> matched co -> matched (take_pending r st co).
Proof.
  intros Hst Hm. unfold take_pending. destruct (co_pending co !! r) as [n0|] eqn:Hr; [|done].
  destruct (mt_pending _ Hm _ _ Hr) as (c0 & Hc0 & Hq0). split; cbn.
  - intros r' n. destruct (decide (r' = r)) as [->|Hne]; [by rewrite lookup_delete_eq|].
    rewrite lookup_delete_ne by done. intros Hp. destruct (mt_pending _ Hm _ _ Hp) as (c & Hc & Hq).
    exists c. split; [|done]. rewrite lookup_alter_ne; [done|]. intros ->. congruence.
  - intros n c r'. destruct (decide (n = n0)) as [->|Hne].
    + rewrite lookup_alter_eq, Hc0. cbn. intros. simplify_eq.
    + rewrite lookup_alter_ne by done. intros Hc. pose proof (mt_waiting _ Hm _ _ _ Hc) as Hp.
      rewrite lookup_delete_ne; [done|]. intros ->. congruence.
  - intros n call. destruct (decide (n = n0)) as [->|Hne].
    + intros _. exact (mt_fresh _ Hm _ _ Hc0).
    + rewrite lookup_alter_ne by done. apply (mt_fresh _ Hm).
Qed.

Lemma take_pending_none r st co : co_pending (take_pending r st co) !! r = None.
Proof. unfold take_pending. destruct (co_pending co !! r) eqn:Hr; [|done]. cbn. apply lookup_delete_eq. Qed.
Lemma take_forget r st co : take_pending r st (forget_request r co) = forget_request r (take_pending r st co).
Proof. unfold take_pending, forget_request. cbn. by destruct (co_pending co !! r). Qed.
Lemma forget_matched r co : co_pending co !! r = None -> matched co -> matched (forget_request r co).
Proof.
  intros Hr [H1 H2 H3]. split; cbn; [|done..]. intros r' n Hp. destruct (H1 _ _ Hp) as (c & Hc & Hq). exists c. split; [done|].
  rewrite lookup_delete_ne; [done|]. intros ->. congruence.
Qed.

Lemma drop_matched r co : matched co -> matched (forget_request r (take_pending r CDropped co)).
Proof. intros Hm. apply forget_matched; [apply take_pending_none|]. by apply take_pending_matched. Qed.

Lemma end_call_matched n c r st co : matched co -> co_calls co !! n = Some (mkCallOf c r st) -> co_pending co !! r = None -> matched (end_call n co).
Proof.
  intros Hm Hc Hr. split; cbn.
  - intros r' n' Hp. destruct (mt_pending _ Hm _ _ Hp) as (c' & Hc' & Hq). exists c'. split; [|done].
    rewrite lookup_delete_ne; [done|]. intros ->. congruence.
  - intros n' c' r'. rewrite lookup_delete_Some. intros [_ Hc']. exact (mt_waiting _ Hm _ _ _ Hc').
  - intros n' call. rewrite lookup_delete_Some. intros [_ Hc']. exact (mt_fresh _ Hm _ _ Hc').
Qed.

Definition bump (co : Correlation) : Correlation :=
  mkCorr (co_pending co) (co_request_conn co) (co_calls co) (co_pings co) (co_ping_calls co) (co_ping_counter co) (co_next co + 1).
Lemma bump_matched co : matched co -> matched (bump co).
Proof. intros [H1 H2 H3]. split; cbn; [done..|]. intros n call Hc. specialize (H3 _ _ Hc). lia. Qed.

Lemma put_pending_matched c r n co : co_calls co !! n = None -> n < co_next co -> matched co -> matched (put_pending c r n co).
Proof.
  intros Hn Hlt Hm. unfold put_pending. pose proof (take_pending_matched r CDropped co ltac:(done) Hm) as Hm1.
  assert (Hn1 : co_calls (take_pending r CDropped co) !! n = None).
  { unfold take_pending. destruct (co_pending co !! r); [|done]. cbn. apply lookup_alter_None. done. }
  assert (Hlt1 : n < co_next (take_pending r CDropped co)) by (unfold take_pending; by destruct (co_pending co !! r)).
  pose proof (take_pending_none r CDropped co) as Hr1.
  destruct Hm1 as [H1 H2 H3]. split; cbn.
  - intros r' n'. rewrite lookup_insert_Some. intros [[<- <-]|[Hne Hp]].
    + exists c. by rewrite !lookup_insert_eq.
    + destruct (H1 _ _ Hp) as (c' & Hc & Hq). exists c'. rewrite !lookup_insert_ne by congruence. done.
  - intros n' c' r'. rewrite lookup_insert_Some. intros [[<- Hc]|[Hne Hc]].
    + simplify_eq. apply lookup_insert_eq.
    + pose proof (H2 _ _ _ Hc). rewrite lookup_insert_ne by congruence. done.
  - intros n' call. rewrite lookup_insert_Some. intros [[<- _]|[_ Hc]]; eauto.
Qed.

Lemma pings_matched pings calls co : matched co -> matched (set_pings pings calls co).
Proof. intros [H1 H2 H3]. by split. Qed.
Lemma take_pings_matched a st co : matched co -> matched (take_pings a st co).
Proof. unfold take_pings. destruct (co_pings co !! a); [apply pings_matched|done]. Qed.
Lemma take_pings_calls a st co : co_calls (take_pings a st co) = co_calls co.
Proof. unfold take_pings. by destruct (co_pings co !! a). Qed.

(** Cancelling settles the requests of a list. *)
Definition cancel_all (rs : list string) (co : Correlation) : Correlation :=
  foldl (fun co r => take_pending r (CAnswered connection_removed) co) co rs.
Lemma cancel_all_none rs r : forall co, co_pending co !! r = None -> co_pending (cancel_all rs co) !! r = None.
Proof.
  induction rs as [|x rs IH]; intros co Hr; cbn; [done|]. apply IH. unfold take_pending.
  destruct (co_pending co !! x); cbn; [|done]. apply lookup_delete_None. by right.
Qed.
(** No call appears, and none changes its request. *)
Definition calls_old (co co' : Correlation) : Prop :=
  forall n call', co_calls co' !! n = Some call' ->
    exists call, co_calls co !! n = Some call /\ cl_connection call' = cl_connection call /\ cl_request call' = cl_request call.
Lemma calls_old_same co co' : co_calls co' = co_calls co -> calls_old co co'.
Proof. intros He n call'. rewrite He. eauto. Qed.
Lemma calls_old_trans co co1 co2 : calls_old co co1 -> calls_old co1 co2 -> calls_old co co2.
Proof. intros H1 H2 n call Hc. destruct (H2 _ _ Hc) as (call1 & Hc1 & -> & ->). destruct (H1 _ _ Hc1) as (call0 & Hc0 & -> & ->). eauto. Qed.
Lemma take_pending_old r st co : calls_old co (take_pending r st co).
Proof.
  intros n call'. unfold take_pending. destruct (co_pending co !! r) as [n0|]; [|eauto]. cbn. rewrite lookup_alter_Some.
  intros [(-> & call & Hc & ->)|[_ Hc]]; [|eauto]. exists call. split; [done|]. unfold settle. by destruct (cl_state call).
Qed.
Lemma cancel_all_old rs : forall co, calls_old co (cancel_all rs co).
Proof. induction rs as [|r rs IH]; intros co; cbn; [by apply calls_old_same|]. eapply calls_old_trans; [apply take_pending_old|apply IH]. Qed.

Lemma cancel_all_spec rs : forall co, matched co ->
  matched (cancel_all rs co) /\
  calls_step (fun call st => st = CAnswered connection_removed /\ cl_request call ∈ rs) co (cancel_all rs co) /\
  forall r, r ∈ rs -> co_pending (cancel_all rs co) !! r = None.
Proof.
  induction rs as [|r rs IH]; intros co Hm; cbn.
  - split_and!; [done|apply calls_step_refl|]. intros r Hr. by apply elem_of_nil in Hr.
  - destruct (IH (take_pending r (CAnswered connection_removed) co)) as (Hm' & Hs & Hp); [by apply take_pending_matched|].
    split_and!; [done| |].
    + eapply calls_step_trans; [by intros ?? [-> _]| |].
      * eapply calls_step_weaken; [|by apply take_pending_step]. intros call st [Hq ->]. split; [done|]. rewrite Hq. by left.
      * eapply calls_step_weaken; [|exact Hs]. intros call st [-> Hq]. split; [done|]. by right.
    + intros r' [->|Hr']%elem_of_cons; [|by apply Hp]. apply cancel_all_none, take_pending_none.
Qed.

(** ** The routing tables *)

(** A route satisfies [ok] and has a channel and a set of requests. *)
Definition tables_in (ok : string -> string -> Prop) (t : Routing) : Prop :=
  forall c a, rt_routes t !! c = Some a -> ok c a /\ is_Some (rt_channels t !! c) /\ is_Some (rt_requests t !! c).
Definition registered (t : Routing) (c a : string) : Prop := is_Some (rt_agents t !! a).

Lemma tables_weaken (ok ok' : string -> string -> Prop) t : (forall c a, rt_routes t !! c = Some a -> ok c a -> ok' c a) -> tables_in ok t -> tables_in ok' t.
Proof. intros Hok Ht c a Hr. destruct (Ht _ _ Hr) as (Ho & Hc & Hq). eauto. Qed.

Lemma forget_connection_tables ok c t : tables_in ok t -> tables_in (fun c' a => ok c' a /\ c' <> c) (forget_connection c t).
Proof.
  intros Ht c' a. cbn. rewrite lookup_delete_Some. intros [Hne Hr]. destruct (Ht _ _ Hr) as (Ho & Hc & Hq).
  rewrite !lookup_delete_ne by done. done.
Qed.
Lemma set_requests_tables ok x t : (forall c, is_Some (rt_requests t !! c) -> is_Some (x !! c)) -> tables_in ok t -> tables_in ok (set_requests x t).
Proof. intros Hx Ht c a Hr. destruct (Ht _ _ Hr) as (Ho & Hc & Hq). cbn. auto. Qed.
Lemma alter_tables ok f c t : tables_in ok t -> tables_in ok (set_requests (alter f c (rt_requests t)) t).
Proof. apply set_requests_tables. intros c'. by rewrite lookup_alter_is_Some. Qed.
Lemma set_channel_tables ok c n t : tables_in ok t -> tables_in ok (set_channel c n t).
Proof.
  intros Ht c' a Hr. destruct (Ht _ _ Hr) as (Ho & Hc & Hq). cbn. split_and!; [done| |done].
  destruct (decide (c = c')) as [->|Hne]; [by rewrite lookup_insert_eq|by rewrite lookup_insert_ne].
Qed.
Lemma route_tables (ok : string -> string -> Prop) c a t : ok c a -> is_Some (rt_channels t !! c) -> tables_in ok t -> tables_in ok (route c a t).
Proof.
  intros Hok Hch Ht c' a'. cbn. rewrite lookup_insert_Some. intros [[<- <-]|[Hne Hr]].
  - by rewrite lookup_insert_eq.
  - destruct (Ht _ _ Hr) as (Ho & Hc & Hq). by rewrite lookup_insert_ne.
Qed.

Local Arguments new_agent_connection : simpl never.
Local Arguments on_table : simpl never.
Local Arguments send_session : simpl never.
Local Arguments set_connection_status : simpl never.

Section Outcomes.
Context `{Engine} {L E R : Type} `{AdapterLifecycle L E} `{ConnectionMetrics R}.
Context (sha256 : list byte -> list byte) (debug_strings : list string -> string).
Context (min_version : option string) (has_bus : bool) (rust_ebpf_enabled : bool) (debug_info_path : string).

Local Abbreviation Manager := (@Manager L R).
Local Abbreviation register_atomic := (register_atomic sha256 debug_strings min_version has_bus rust_ebpf_enabled debug_info_path).
Local Abbreviation dispatch := (dispatch sha256 debug_strings has_bus debug_info_path).
Local Abbreviation unregister := (unregister_agent_matching has_bus).
Local Abbreviation move := (move sha256 debug_strings min_version has_bus rust_ebpf_enabled debug_info_path).
Local Abbreviation after := (after sha256 debug_strings min_version has_bus rust_ebpf_enabled debug_info_path).
Local Abbreviation binary_connection := (binary_connection sha256).

(** ** Operations that only touch the outside *)

Definition adds (Q : Output -> Prop) (s s' : Manager) : Prop :=
  exists outs, wo_out (mg_world s') = (wo_out (mg_world s) ++ outs)%list /\ Forall Q outs.
Lemma adds_refl Q s : adds Q s s.
Proof. exists []. by rewrite app_nil_r. Qed.
Lemma adds_trans Q s s1 s2 : adds Q s s1 -> adds Q s1 s2 -> adds Q s s2.
Proof. intros (o1 & E1 & F1) (o2 & E2 & F2). exists (o1 ++ o2)%list. rewrite E2, E1, app_assoc. split; [done|]. by apply Forall_app. Qed.
Lemma adds_weaken (Q Q' : Output -> Prop) s s' : (forall o, Q o -> Q' o) -> adds Q s s' -> adds Q' s s'.
Proof. intros HQ (o & E1 & F1). exists o. split; [done|]. by eapply Forall_impl. Qed.

Record quiet (Q : Output -> Prop) (s s' : Manager) : Prop := mkQuiet {
  qt_routing : mg_routing s' = mg_routing s; qt_corr : mg_corr s' = mg_corr s; qt_adds : adds Q s s';
  qt_hung : wo_hung (mg_world s') = wo_hung (mg_world s)
}.
Lemma quiet_refl Q s : quiet Q s s.
Proof. split; [done|done|apply adds_refl|done]. Qed.
Lemma quiet_trans Q s s1 s2 : quiet Q s s1 -> quiet Q s1 s2 -> quiet Q s s2.
Proof. intros [R1 C1 A1 W1] [R2 C2 A2 W2]. split; [congruence|congruence|by eapply adds_trans|congruence]. Qed.
Lemma quiet_weaken (Q Q' : Output -> Prop) s s' : (forall o, Q o -> Q' o) -> quiet Q s s' -> quiet Q' s s'.
Proof. intros HQ [R1 C1 A1 W1]. split; [done|done|by eapply adds_weaken|done]. Qed.

Definition nothing (o : Output) : Prop := False.
Lemma quiet_nothing Q s s' : mg_routing s' = mg_routing s -> mg_corr s' = mg_corr s -> wo_out (mg_world s') = wo_out (mg_world s) ->
  wo_hung (mg_world s') = wo_hung (mg_world s) -> quiet Q s s'.
Proof. intros HR HC HO HW. split; [done|done| |done]. exists []. by rewrite app_nil_r. Qed.
Lemma quiet_emit (Q : Output -> Prop) o s : Q o -> quiet Q s (emit o s).
Proof. intros HQ. split; [done|done| |done]. exists [o]. split; [done|]. by constructor. Qed.

Lemma quiet_on_table {A : Type} Q (m : Sql Store A) (s : Manager) : quiet Q s (fst (on_table m s)).
Proof. unfold on_table. destruct (m _). by apply quiet_nothing. Qed.
Lemma quiet_tick Q (s : Manager) : quiet Q s (fst (tick s)).
Proof. by apply quiet_nothing. Qed.
Lemma quiet_migrate Q from to (s : Manager) : quiet Q s (migrate from to s).
Proof. unfold migrate. destruct (repo_migrate_connection_id _ _ _). by apply quiet_nothing. Qed.
Lemma quiet_set_lc Q lc st (s : Manager) : quiet Q s (set_lc lc st s).
Proof. by apply quiet_nothing. Qed.
Lemma quiet_status Q c st (s : Manager) : quiet Q s (set_connection_status c st s).
Proof.
  unfold set_connection_status. destruct (tick s) as [s1 t] eqn:Ht. pose proof (quiet_tick Q s) as Hq. rewrite Ht in Hq.
  eapply quiet_trans; [exact Hq|]. apply quiet_on_table.
Qed.
Lemma quiet_session (Q : Output -> Prop) n m (s : Manager) : Q (OSent n m) -> quiet Q s (fst (send_session n m s)).
Proof. intros HQ. unfold send_session. case_bool_decide; [apply quiet_refl|by apply quiet_emit]. Qed.
Lemma quiet_closed (Q : Output -> Prop) c (s : Manager) : Q (OClosed c) -> quiet Q s (closed_event has_bus c s).
Proof. intros HQ. unfold closed_event. destruct has_bus; [by apply quiet_emit|apply quiet_refl]. Qed.
Lemma quiet_new_connection Q h b (s : Manager) : quiet Q s (fst (new_agent_connection sha256 debug_strings h b s)).
Proof. by apply quiet_nothing. Qed.
Lemma quiet_new_connections Q h bs : forall s : Manager, quiet Q s (fst (new_agent_connections sha256 debug_strings h bs s)).
Proof.
  induction bs as [|b bs IH]; intros s; cbn; [apply quiet_refl|].
  destruct (new_agent_connection sha256 debug_strings h b s) as [s1 [c|e]] eqn:E1; pose proof (quiet_new_connection Q h b s) as Hq; rewrite E1 in Hq; cbn in *; [|exact Hq].
  specialize (IH s1). destruct (new_agent_connections sha256 debug_strings h bs s1) as [s2 [cs|e]]; cbn in *; by eapply quiet_trans.
Qed.

(** ** The tables stay consistent *)

Record good (ok : string -> string -> Prop) (s : Manager) : Prop := mkGood {
  gd_tables : tables_in ok (mg_routing s); gd_matched : matched (mg_corr s)
}.
Lemma quiet_good ok Q (s s' : Manager) : quiet Q s s' -> good ok s -> good ok s'.
Proof. intros [HR HC _ _] [Ht Hm]. split; by rewrite ?HR, ?HC. Qed.

Lemma on_routing_good ok f (s : Manager) : tables_in ok (f (mg_routing s)) -> good ok s -> good ok (on_routing f s).
Proof. intros Ht [_ Hm]. by split. Qed.
Lemma on_corr_good ok f (s : Manager) : matched (f (mg_corr s)) -> good ok s -> good ok (on_corr f s).
Proof. intros Hm [Ht _]. by split. Qed.

Lemma cancel_corr c (s : Manager) : mg_corr (cancel_pending_for_connection c s) =
  match rt_requests (mg_routing s) !! c with Some rs => cancel_all (visit (elements rs)) (mg_corr s) | None => mg_corr s end.
Proof. unfold cancel_pending_for_connection. by destruct (rt_requests (mg_routing s) !! c). Qed.
Lemma cancel_routing c (s : Manager) : mg_routing (cancel_pending_for_connection c s) =
  match rt_requests (mg_routing s) !! c with Some _ => set_requests (<[c := ∅]> (rt_requests (mg_routing s))) (mg_routing s) | None => mg_routing s end.
Proof. unfold cancel_pending_for_connection. by destruct (rt_requests (mg_routing s) !! c). Qed.
Lemma cancel_world c (s : Manager) : mg_world (cancel_pending_for_connection c s) = mg_world s.
Proof. unfold cancel_pending_for_connection. by destruct (rt_requests (mg_routing s) !! c). Qed.

Lemma cancel_good ok c (s : Manager) : good ok s -> good ok (cancel_pending_for_connection c s).
Proof.
  intros [Ht Hm]. split.
  - rewrite cancel_routing. destruct (rt_requests (mg_routing s) !! c) eqn:Hr; [|done]. apply set_requests_tables; [|done].
    intros c' Hc'. destruct (decide (c = c')) as [->|Hne]; [by rewrite lookup_insert_eq|by rewrite lookup_insert_ne].
  - rewrite cancel_corr. destruct (rt_requests (mg_routing s) !! c); [|done]. by apply cancel_all_spec.
Qed.

Lemma disconnect_good ok c (s : Manager) : good ok s -> good (fun c' a => ok c' a /\ c' <> c) (disconnect_connection has_bus s c).
Proof.
  intros Hg. unfold disconnect_connection.
  assert (Hg' : good ok (closed_event has_bus c (set_connection_status c Disconnected (cancel_pending_for_connection c s)))).
  { eapply quiet_good; [by apply (quiet_closed (fun _ => True))|]. eapply quiet_good; [by apply (quiet_status (fun _ => True))|]. by apply cancel_good. }
  destruct Hg' as [Ht Hm]. split; [|exact Hm]. by apply forget_connection_tables.
Qed.
Lemma disconnect_all_good cs : forall ok (s : Manager), good ok s ->
  good (fun c' a => ok c' a /\ c' ∉ cs) (foldl (disconnect_connection has_bus) s cs).
Proof.
  induction cs as [|c cs IH]; intros ok s Hg; cbn.
  - destruct Hg as [Ht Hm]. split; [|done]. eapply tables_weaken; [|exact Ht]. intros c' a _ Ho. split; [done|]. apply not_elem_of_nil.
  - destruct (IH _ _ (disconnect_good _ c _ Hg)) as [Ht Hm]. split; [|done]. eapply tables_weaken; [|exact Ht].
    intros c' a _ [[Ho Hne] Hnin]. split; [done|]. by apply not_elem_of_cons.
Qed.

Lemma absorb_good ok to (s : Manager) stale : good ok s -> good ok (absorb_stale_connection has_bus to s stale).
Proof.
  intros Hg. unfold absorb_stale_connection. destruct (agent_routed stale s); [done|].
  pose proof (quiet_migrate (fun _ => True) stale to s) as Hq. pose proof (quiet_on_table (fun _ => True) (conn_delete stale) (migrate stale to s)) as Hq2.
  destruct (on_table (conn_delete stale) (migrate stale to s)) as [s1 [u|e]]; cbn in Hq2;
    (assert (Hg1 : good ok s1) by (eapply quiet_good; [exact Hq2|]; eapply quiet_good; [exact Hq|done])); [|done].
  eapply quiet_good; [by apply (quiet_closed (fun _ => True))|]. apply on_routing_good; [|by apply cancel_good].
  eapply tables_weaken; [|apply forget_connection_tables; apply (cancel_good _ stale _ Hg1)]. by intros c a _ [Ho _].
Qed.
Lemma foldl_good {A : Type} ok (f : Manager -> A -> Manager) l : (forall s x, x ∈ l -> good ok s -> good ok (f s x)) -> forall s, good ok s -> good ok (foldl f s l).
Proof.
  induction l as [|x l IH]; intros Hf s Hg; cbn; [done|]. apply IH; [intros; apply Hf; [by right|done]|]. apply Hf; [by left|done].
Qed.
Lemma cleanup_good ok c (s : Manager) : good ok s -> good ok (cleanup_stale_connections has_bus c s).
Proof.
  intros Hg. unfold cleanup_stale_connections.
  match goal with |- context [on_table ?m s] => pose proof (quiet_on_table (fun _ => True) m s) as Hq; destruct (on_table m s) as [s1 [ids|e]] end;
    cbn in Hq; (assert (Hg1 : good ok s1) by (by eapply quiet_good)); [|done].
  apply foldl_good; [|done]. intros. by apply absorb_good.
Qed.

Lemma refresh_good ok c (s : Manager) : good ok s -> good ok (refresh_event_channel c s).
Proof. intros [Ht Hm]. split; [by apply set_channel_tables|by apply (bump_matched (mg_corr s))]. Qed.
Lemma refresh_channel c (s : Manager) : is_Some (rt_channels (mg_routing (refresh_event_channel c s)) !! c).
Proof. cbn. by rewrite lookup_insert_eq. Qed.

Lemma install_good (ok : string -> string -> Prop) a (s : Manager) c : ok c a -> good ok s -> good ok (install a s c).
Proof.
  intros Ho Hg. unfold install. destruct (rt_channels (mg_routing s) !! c) eqn:Hc.
  - apply on_routing_good; [|done]. apply route_tables; [done|by rewrite Hc|apply Hg].
  - pose proof (refresh_good _ c _ Hg) as Hg1. apply on_routing_good; [|done]. apply route_tables; [done|apply refresh_channel|apply Hg1].
Qed.

Lemma add_binary_good (ok : string -> string -> Prop) a h n (s : Manager) b : ok (binary_connection h b) a -> good ok s ->
  good ok (add_binary sha256 debug_strings has_bus debug_info_path a h n s b).
Proof.
  intros Ho Hg. unfold add_binary. pose proof (quiet_new_connection (fun _ => True) h b s) as Hq.
  destruct (new_agent_connection sha256 debug_strings h b s) as [s1 [c|e]]; cbn in Hq;
    (assert (Hg1 : good ok s1) by (by eapply quiet_good)); [|done].
  pose proof (quiet_on_table (fun _ => True) (conn_save_batch [c]) s1) as Hq1. destruct (on_table (conn_save_batch [c]) s1) as [s2 [u|e]]; cbn in Hq1;
    (assert (Hg2 : good ok s2) by (by eapply quiet_good)); [|done].
  eapply quiet_good; [by apply (quiet_session (fun _ => True))|].
  pose proof (refresh_good _ (binary_connection h b) _ (cleanup_good _ c _ Hg2)) as Hg3.
  apply on_routing_good; [|done]. apply route_tables; [done|apply refresh_channel|apply Hg3].
Qed.

(** Only registering and leaving change the agents. *)
Definition agents_of (s : Manager) : gmap string AgentInfo := rt_agents (mg_routing s).
Lemma quiet_agents Q (s s' : Manager) : quiet Q s s' -> agents_of s' = agents_of s.
Proof. intros [HR _ _ _]. unfold agents_of. by rewrite HR. Qed.
Lemma cancel_agents c (s : Manager) : agents_of (cancel_pending_for_connection c s) = agents_of s.
Proof. unfold agents_of. rewrite cancel_routing. by destruct (rt_requests (mg_routing s) !! c). Qed.
Lemma disconnect_agents (s : Manager) c : agents_of (disconnect_connection has_bus s c) = agents_of s.
Proof.
  unfold disconnect_connection. transitivity (agents_of (closed_event has_bus c (set_connection_status c Disconnected (cancel_pending_for_connection c s)))); [done|].
  etransitivity; [by apply (quiet_agents (fun _ => True)), quiet_closed|]. etransitivity; [apply (quiet_agents (fun _ => True)), quiet_status|]. apply cancel_agents.
Qed.
Lemma absorb_agents to (s : Manager) stale : agents_of (absorb_stale_connection has_bus to s stale) = agents_of s.
Proof.
  unfold absorb_stale_connection. destruct (agent_routed stale s); [done|].
  pose proof (quiet_on_table (fun _ => True) (conn_delete stale) (migrate stale to s)) as Hq.
  destruct (on_table (conn_delete stale) (migrate stale to s)) as [s1 [u|e]]; cbn in Hq; apply quiet_agents in Hq;
    rewrite (quiet_agents (fun _ => True) s (migrate stale to s)) in Hq by apply quiet_migrate; [|done].
  etransitivity; [by apply (quiet_agents (fun _ => True)), quiet_closed|]. etransitivity; [|exact Hq].
  transitivity (agents_of (cancel_pending_for_connection stale s1)); [done|]. apply cancel_agents.
Qed.
Lemma foldl_agents {A : Type} (f : Manager -> A -> Manager) l : (forall s x, agents_of (f s x) = agents_of s) -> forall s, agents_of (foldl f s l) = agents_of s.
Proof. intros Hf. induction l as [|x l IH]; intros s; cbn; [done|]. by rewrite IH, Hf. Qed.
Lemma cleanup_agents c (s : Manager) : agents_of (cleanup_stale_connections has_bus c s) = agents_of s.
Proof.
  unfold cleanup_stale_connections.
  match goal with |- context [on_table ?m s] => pose proof (quiet_on_table (fun _ => True) m s) as Hq; destruct (on_table m s) as [s1 [ids|e]] end;
    cbn in Hq; apply quiet_agents in Hq; [|done]. rewrite foldl_agents; [done|]. intros. apply absorb_agents.
Qed.
Lemma install_agents a (s : Manager) c : agents_of (install a s c) = agents_of s.
Proof. unfold install. by destruct (rt_channels (mg_routing s) !! c). Qed.
Lemma add_binary_agents a h n (s : Manager) b : agents_of (add_binary sha256 debug_strings has_bus debug_info_path a h n s b) = agents_of s.
Proof.
  unfold add_binary. pose proof (quiet_new_connection (fun _ => True) h b s) as Hq.
  destruct (new_agent_connection sha256 debug_strings h b s) as [s1 [c|e]]; cbn in Hq; apply quiet_agents in Hq; [|done].
  pose proof (quiet_on_table (fun _ => True) (conn_save_batch [c]) s1) as Hq1.
  destruct (on_table (conn_save_batch [c]) s1) as [s2 [u|e]]; cbn in Hq1; apply quiet_agents in Hq1; [|congruence].
  etransitivity; [by apply (quiet_agents (fun _ => True)), quiet_session|]. etransitivity; [|etransitivity; [exact Hq1|exact Hq]].
  transitivity (agents_of (cleanup_stale_connections has_bus c s2)); [done|]. apply cleanup_agents.
Qed.

Definition consistent (s : Manager) : Prop := good (registered (mg_routing s)) s.

Lemma quiet_consistent Q (s s' : Manager) : quiet Q s s' -> consistent s -> consistent s'.
Proof. intros Hq Hg. unfold consistent. pose proof (qt_routing _ _ _ Hq) as HR. rewrite HR. by eapply quiet_good. Qed.

Lemma register_consistent a h ver caps bs n (s : Manager) : consistent s -> consistent (fst (register_atomic a h ver caps bs n s)).
Proof.
  intros Hg. unfold register_atomic. destruct (rejection min_version ver) as [[reason v]|].
  { eapply quiet_consistent; [by apply (quiet_session (fun _ => True))|done]. }
  pose proof (quiet_new_connections (fun _ => True) h bs s) as Hq.
  destruct (new_agent_connections sha256 debug_strings h bs s) as [s1 [cs|e]]; cbn in Hq;
    (assert (Hg1 : consistent s1) by (by eapply quiet_consistent)); [|done].
  pose proof (quiet_on_table (fun _ => True) (conn_save_batch cs) s1) as Hq1.
  destruct (on_table (conn_save_batch cs) s1) as [s2 [u|e]]; cbn in Hq1;
    (assert (Hg2 : consistent s2) by (by eapply quiet_consistent)); [|done]. cbn.
  set (ok := fun (c a' : string) => a' = a \/ is_Some (agents_of s2 !! a')).
  assert (Hok2 : good ok s2) by (destruct Hg2 as [Ht Hm]; split; [|done]; eapply tables_weaken; [|exact Ht]; intros c a' _ Ha; by right).
  set (s3 := foldl (fun s c => cleanup_stale_connections has_bus c s) s2 cs).
  assert (Hg3 : good ok s3) by (apply foldl_good; [|done]; intros; by apply cleanup_good).
  set (s4 := foldl (install a) s3 (map (binary_connection h) bs)).
  assert (Hg4 : good ok s4) by (apply foldl_good; [|done]; intros; apply install_good; [by left|done]).
  assert (Ha4 : agents_of s4 = agents_of s2) by (unfold s4, s3; rewrite !foldl_agents; [done|intros; apply cleanup_agents|intros; apply install_agents]).
  match goal with |- consistent (foldl _ ?x bs) => set (s5 := x) end.
  assert (Hg5 : consistent s5).
  { eapply quiet_consistent; [by apply (quiet_session (fun _ => True))|]. destruct Hg4 as [Ht Hm]. split; [|exact Hm].
    eapply tables_weaken; [|exact Ht]. intros c a' _ Ha. unfold registered. cbn. fold (agents_of s4). rewrite Ha4.
    destruct (decide (a = a')) as [->|Hne]; [by rewrite lookup_insert_eq|]. rewrite lookup_insert_ne by done. by destruct Ha as [->|]. }
  clearbody s5. clear -Hg5. revert s5 Hg5. induction bs as [|b bs IH]; intros s5 Hg5; cbn; [done|]. apply IH.
  eapply quiet_consistent; [by apply (quiet_session (fun _ => True))|done].
Qed.

Lemma served_by_iff a t c : c ∈ served_by a t <-> rt_routes t !! c = Some a.
Proof.
  unfold served_by. rewrite visit_perm, list_elem_of_fmap. split.
  - intros ((c' & a') & -> & Hin%list_elem_of_In%filter_In). destruct Hin as [Hin Heq]. apply String.eqb_eq in Heq. cbn in Heq. subst.
    by apply list_elem_of_In, elem_of_map_to_list in Hin.
  - intros Hr. exists (c, a). split; [done|]. apply list_elem_of_In, filter_In. split; [|by apply String.eqb_eq].
    by apply list_elem_of_In, elem_of_map_to_list.
Qed.

Lemma disconnect_routes (s : Manager) x c a : rt_routes (mg_routing (disconnect_connection has_bus s x)) !! c = Some a -> rt_routes (mg_routing s) !! c = Some a.
Proof.
  unfold disconnect_connection. cbn. rewrite lookup_delete_Some. intros [_ Hr]. revert Hr.
  erewrite (qt_routing (fun _ => True)) by (by apply quiet_closed). erewrite (qt_routing (fun _ => True)) by apply quiet_status.
  rewrite cancel_routing. by destruct (rt_requests (mg_routing s) !! x).
Qed.
Lemma disconnect_all_routes l c a : forall s : Manager, rt_routes (mg_routing (foldl (disconnect_connection has_bus) s l)) !! c = Some a -> rt_routes (mg_routing s) !! c = Some a.
Proof. induction l as [|x l IH]; intros s; cbn; [done|]. intros Hr. by apply IH, disconnect_routes in Hr. Qed.

Lemma unregister_consistent a n (s : Manager) : consistent s -> consistent (unregister a n s).
Proof.
  intros [Ht Hm]. unfold unregister. match goal with |- context [if ?b then _ else _] => destruct b end; [|by split].
  set (s1 := on_routing _ s).
  assert (Hg1 : good (fun c a' => a' = a \/ is_Some (agents_of s1 !! a')) s1).
  { split; [|exact Hm]. intros c a' Hr. destruct (Ht _ _ Hr) as (Ho & Hc & Hq). split_and!; [|done..].
    destruct (decide (a' = a)) as [->|Hne]; [by left|right]. unfold agents_of. cbn. by rewrite lookup_delete_ne. }
  pose proof (disconnect_all_good (served_by a (mg_routing s1)) _ _ Hg1) as [Ht2 Hm2]. split; [|by apply take_pings_matched].
  eapply tables_weaken; [|exact Ht2]. intros c a' Hr [[->|Ha] Hnin].
  - exfalso. apply Hnin, served_by_iff. by apply (disconnect_all_routes _ _ _ _ Hr).
  - unfold registered. cbn. change (is_Some (agents_of (foldl (disconnect_connection has_bus) s1 (served_by a (mg_routing s1))) !! a')).
    rewrite foldl_agents; [done|]. intros. apply disconnect_agents.
Qed.

Lemma update_consistent a bs (s : Manager) : consistent s -> consistent (handle_register_update sha256 debug_strings has_bus debug_info_path a bs s).
Proof.
  intros Hg. unfold handle_register_update. destruct (rt_agents (mg_routing s) !! a) as [info|] eqn:Ha; [|done].
  match goal with |- context [foldl (disconnect_connection has_bus) s ?cs] => pose proof (disconnect_all_good cs _ _ Hg) as Hg1; set (s1 := foldl (disconnect_connection has_bus) s cs) in *;
    assert (Ha1 : agents_of s1 = agents_of s) by (apply foldl_agents; intros; apply disconnect_agents) end.
  set (ok := fun (_ a' : string) => is_Some (agents_of s !! a')).
  assert (Hg1' : good ok s1) by (destruct Hg1 as [Ht Hm]; split; [|done]; eapply tables_weaken; [|exact Ht]; by intros c a' _ [Ho _]).
  match goal with |- context [foldl (add_binary ?x1 ?x2 ?x3 ?x4 a ?h ?n) s1 ?cs] =>
    assert (Hg2 : good ok (foldl (add_binary x1 x2 x3 x4 a h n) s1 cs)) by (apply foldl_good; [|done]; intros; apply add_binary_good; [by exists info|done]);
    assert (Ha2 : agents_of (foldl (add_binary x1 x2 x3 x4 a h n) s1 cs) = agents_of s1) by (apply foldl_agents; intros; apply add_binary_agents);
    set (s2 := foldl (add_binary x1 x2 x3 x4 a h n) s1 cs) in * end.
  destruct Hg2 as [Ht Hm]. split; [|exact Hm]. eapply tables_weaken; [|exact Ht]. intros c a' _ Ho. unfold registered. cbn.
  apply lookup_alter_is_Some. change (is_Some (agents_of s2 !! a')). by rewrite Ha2, Ha1.
Qed.

Lemma liveness_consistent c (s : Manager) : consistent s -> consistent (record_liveness c s).
Proof. intros [Ht Hm]. by split. Qed.
Lemma resolve_consistent r m (s : Manager) : consistent s -> consistent (resolve_pending r m s).
Proof.
  intros [Ht Hm]. unfold resolve_pending.
  assert (Hm' : matched (take_pending r (CAnswered m) (forget_request r (mg_corr s)))).
  { rewrite take_forget. apply forget_matched; [apply take_pending_none|]. by apply take_pending_matched. }
  destruct (co_request_conn (mg_corr s) !! r); split; try done. by apply alter_tables.
Qed.
Lemma quiet_follow Q e c st (s : Manager) : quiet Q s (fst (follow_status debug_strings e c st s)).
Proof.
  unfold follow_status. destruct (wo_lc (mg_world s)) as [lc|]; [|apply quiet_refl].
  match goal with |- context [if ?b then _ else _] => destruct b end; [|by repeat case_match; cbn; (apply quiet_refl || apply quiet_set_lc)].
  match goal with |- context [on_table ?m ?x] => pose proof (quiet_on_table Q m x) as Hq; destruct (on_table m x) as [s1 [[conn|]|x0]] end; cbn in Hq;
    (assert (Hq1 : quiet Q s s1) by (eapply quiet_trans; [apply quiet_set_lc|exact Hq]));
    [|by eapply quiet_trans; [exact Hq1|apply quiet_set_lc]..].
  destruct (lc_start e _ lc) as [lc' [u|x]]; cbn.
  - eapply quiet_trans; [exact Hq1|apply quiet_set_lc].
  - eapply quiet_trans; [exact Hq1|]. eapply quiet_trans; [apply quiet_set_lc|apply quiet_status].
Qed.
Lemma quiet_update (Q : Output -> Prop) e a u (s : Manager) :
  (forall n, Q (OSent n (OutCloseConnection (up_connection u)))) -> Q (OClosed (up_connection u)) ->
  quiet Q s (handle_connection_update debug_strings has_bus e a u s).
Proof.
  intros HQ1 HQ2. unfold handle_connection_update. destruct (admission_error a u (mg_routing s)).
  - eapply quiet_trans; [|apply quiet_status]. destruct (rt_agents (mg_routing s) !! a); [by apply quiet_session|apply quiet_refl].
  - pose proof (quiet_follow Q e (up_connection u) (up_status u) s) as Hq. destruct (follow_status debug_strings e _ _ s) as [s1 [|]]; cbn in Hq; [|done].
    eapply quiet_trans; [exact Hq|]. eapply quiet_trans; [apply (quiet_status Q (up_connection u) (up_status u))|]. destruct (up_status u); (apply quiet_refl || by apply quiet_closed).
Qed.
Lemma quiet_forward (Q : Output -> Prop) c evs (s : Manager) : (forall n ev, rt_channels (mg_routing s) !! c = Some n -> ev ∈ evs -> Q (OEvent n ev)) ->
  quiet Q s (forward_events c evs s).
Proof.
  intros HQ. unfold forward_events. destruct (rt_channels (mg_routing s) !! c) as [n|]; [|apply quiet_refl].
  case_bool_decide as Hgone; [apply quiet_refl|]. assert (HQ' : forall ev, ev ∈ evs -> Q (OEvent n ev)) by auto. clear HQ Hgone. revert s.
  induction evs as [|ev evs IH]; intros s; cbn; [apply quiet_refl|].
  eapply quiet_trans; [apply quiet_emit, HQ'; by left|]. apply IH. intros ev' Hin. apply HQ'. by right.
Qed.

Lemma dispatch_consistent e a n m (s : Manager) : consistent s -> consistent (dispatch e a n m s).
Proof.
  intros Hg. unfold AgentManager.dispatch. destruct (admitted a n m s); [|done]. destruct m; cbn; try done.
  - eapply quiet_consistent; [by apply (quiet_update (fun _ => True))|done].
  - eapply quiet_consistent; [by apply (quiet_forward (fun _ => True))|done].
  - by apply resolve_consistent.
  - by apply resolve_consistent.
  - by apply resolve_consistent.
  - by apply resolve_consistent.
  - unfold handle_heartbeat. revert s Hg. generalize (served_by a). intros f s Hg. generalize (f (mg_routing s)). intros l. revert s Hg.
    induction l as [|c l IH]; intros s Hg; cbn; [done|]. apply IH. by apply liveness_consistent.
  - by apply update_consistent.
  - destruct Hg as [Ht Hm]. split; [exact Ht|by apply take_pings_matched].
Qed.

Lemma quiet_send_to_agent (Q : Output -> Prop) c m (s : Manager) : (forall n, Q (OSent n m)) -> quiet Q s (fst (send_to_agent c m s)).
Proof.
  intros HQ. unfold send_to_agent. destruct (_ ≫= _) as [info|]; [|apply quiet_refl].
  pose proof (quiet_session Q (ai_session info) m s (HQ _)) as Hq. by destruct (send_session (ai_session info) m s) as [s1 [|]].
Qed.

(** The end of a call: its tracks go, and then the call. *)
Lemma over_consistent n call (s : Manager) : consistent s -> co_calls (mg_corr s) !! n = Some call ->
  consistent (on_corr (end_call n) (drop_request (cl_connection call) (cl_request call) s)).
Proof.
  intros [Ht Hm] Hc. split; [by apply alter_tables|]. cbn.
  pose proof (take_pending_step (cl_request call) CDropped _ Hm _ _ Hc) as Hstep.
  destruct call as [c r st]. cbn in *.
  assert (exists st', co_calls (take_pending r CDropped (mg_corr s)) !! n = Some (mkCallOf c r st')) as [st' Hc'].
  { destruct Hstep as [|(_ & st' & _ & Hst)]; eauto. }
  eapply (end_call_matched n c r st'); [by apply drop_matched|done|]. cbn. apply take_pending_none.
Qed.

Definition put_call (c r : string) (s : Manager) : Manager :=
  on_corr (put_pending c r (co_next (mg_corr s))) (on_routing (track_request c r) (fst (fresh s))).
Lemma put_call_consistent c r (s : Manager) : consistent s -> consistent (put_call c r s) /\
  co_calls (mg_corr (put_call c r s)) !! co_next (mg_corr s) = Some (mkCallOf c r CWaiting).
Proof.
  intros [Ht Hm]. split; [|cbn; by rewrite lookup_insert_eq]. split; [by apply alter_tables|]. cbn.
  apply put_pending_matched; [|cbn; lia|by apply (bump_matched (mg_corr s))]. cbn.
  destruct (co_calls (mg_corr s) !! co_next (mg_corr s)) eqn:Hc; [|done]. apply (mt_fresh _ Hm) in Hc. lia.
Qed.
Lemma begin_request_eq c m (s : Manager) : begin_request c m s =
  match extract_request_id m with
  | None => (s, Err (Adapter "OutgoingAgentMessage has no request_id"))
  | Some r => match send_to_agent c m (put_call c r s) with
              | (s1, Err e) => (on_corr (end_call (co_next (mg_corr s))) (drop_request c r s1), Err e)
              | (s1, Ok _) => (s1, Ok (co_next (mg_corr s)))
              end
  end.
Proof. unfold begin_request. by destruct (extract_request_id m). Qed.

Lemma begin_consistent c m (s : Manager) : consistent s -> consistent (fst (begin_request c m s)).
Proof.
  intros Hg. rewrite begin_request_eq. destruct (extract_request_id m) as [r|]; [|done].
  destruct (put_call_consistent c r s Hg) as [Hg1 Hc1].
  pose proof (quiet_send_to_agent (fun _ => True) c m (put_call c r s) ltac:(done)) as Hq.
  destruct (send_to_agent c m (put_call c r s)) as [s1 [u|e]]; cbn in Hq; pose proof (quiet_consistent _ _ _ Hq Hg1) as Hg2; [done|].
  apply (over_consistent _ (mkCallOf c r CWaiting) _ Hg2). by rewrite (qt_corr _ _ _ Hq).
Qed.
Lemma finish_consistent n (s : Manager) : consistent s -> consistent (from_option fst s (finish_request n s)).
Proof. intros Hg. unfold finish_request. destruct (co_calls (mg_corr s) !! n) as [call|] eqn:Hc; cbn; [|done]. by apply over_consistent. Qed.

Lemma corr_consistent f (s : Manager) : matched (f (mg_corr s)) -> consistent s -> consistent (on_corr f s).
Proof. intros Hm [Ht _]. by split. Qed.
Lemma ping_consistent a (s : Manager) : consistent s -> consistent (fst (begin_ping a s)).
Proof.
  intros Hg. unfold begin_ping. destruct (fresh s) as [s1 n] eqn:Hf.
  assert (Hg1 : consistent s1). { injection Hf as <- _. apply (corr_consistent bump); [by apply bump_matched, Hg|done]. }
  match goal with |- context [on_corr ?f s1] => assert (Hg2 : consistent (on_corr f s1)) by (apply corr_consistent; [|done]; destruct (gd_matched _ _ Hg1) as [M1 M2 M3]; by split);
    set (s2 := on_corr f s1) in * end.
  destruct (rt_agents (mg_routing s2) !! a) as [info|]; cbn; [|by apply corr_consistent; [apply pings_matched, Hg2|]].
  pose proof (quiet_session (fun _ => True) (ai_session info) OutPing s2 I) as Hq.
  destruct (send_session (ai_session info) OutPing s2) as [s3 [|]]; cbn in *; pose proof (quiet_consistent _ _ _ Hq Hg2) as Hg3; [done|].
  apply corr_consistent; [apply pings_matched, Hg2|done].
Qed.
Lemma finish_ping_consistent n (s : Manager) : consistent s -> consistent (from_option fst s (finish_ping n s)).
Proof.
  intros Hg. unfold finish_ping. destruct (co_ping_calls (mg_corr s) !! n) as [p|]; cbn; [|done].
  destruct (pg_state p); cbn; apply corr_consistent; (apply pings_matched, Hg || done).
Qed.

Lemma move_consistent v (s : Manager) : consistent s -> consistent (move v s).
Proof.
  intros Hg. destruct v; cbn [AgentManager.move].
  - by apply register_consistent.
  - by apply dispatch_consistent.
  - by apply unregister_consistent.
  - by apply begin_consistent.
  - by apply finish_consistent.
  - by apply ping_consistent.
  - by apply finish_ping_consistent.
  - destruct Hg as [Ht Hm]. split; [by apply set_channel_tables|by apply (bump_matched (mg_corr s))].
  - destruct Hg as [Ht Hm]. split; [exact Ht|exact Hm].
  - by apply liveness_consistent.
  - destruct Hg as [Ht Hm]. by split.
  - destruct Hg as [Ht Hm]. by split.
Qed.
Lemma after_consistent history : forall s : Manager, consistent s -> consistent (after history s).
Proof. induction history as [|v history IH]; intros s Hg; cbn; [done|]. by apply IH, move_consistent. Qed.
Lemma new_consistent db metrics lc clock : consistent (manager_new db metrics lc clock : Manager).
Proof. split; [intros c a Hr; exfalso; exact (lookup_empty_Some _ _ Hr)|]. split; intros * Hr; exfalso; exact (lookup_empty_Some _ _ Hr). Qed.

(** ** How far an operation reaches

    [X] holds of the connections that an operation may change; [owner_of] says
    which connection a request id belongs to. *)
Section Reach.
Context (owner_of : string -> string) (X : string -> Prop) `{!forall c, Decision (X c)}.

Definition view (c : string) (t : Routing) : option string * option N * option N * option (gset string) * option Z :=
  (rt_routes t !! c, rt_channels t !! c, rt_receivers t !! c, rt_requests t !! c, rt_liveness t !! c).

Definition released (call : Call) (st : CallState) : Prop := st = CAnswered connection_removed /\ X (owner_of (cl_request call)).
Definition noticed (o : Output) : Prop := match o with OSent _ _ => True | OEvent _ _ => False | OClosed c => X c end.

Record confined (s s' : Manager) : Prop := mkConfined {
  cf_view c : ~ X c -> view c (mg_routing s') = view c (mg_routing s);
  cf_calls : calls_step released (mg_corr s) (mg_corr s');
  cf_out : adds noticed s s';
  cf_shrink c r : r ∈ default ∅ (rt_requests (mg_routing s') !! c) -> r ∈ default ∅ (rt_requests (mg_routing s) !! c);
  cf_old : calls_old (mg_corr s) (mg_corr s')
}.
Lemma confined_refl s : confined s s.
Proof. split; [done|apply calls_step_refl|apply adds_refl|done|by apply calls_old_same]. Qed.
Lemma confined_trans s s1 s2 : confined s s1 -> confined s1 s2 -> confined s s2.
Proof.
  intros [V1 C1 O1 R1 P1] [V2 C2 O2 R2 P2]. split; [intros c Hc; by rewrite V2, V1| |by eapply adds_trans|by auto|by eapply calls_old_trans].
  eapply calls_step_trans; [by intros call st [-> _]|done..].
Qed.

(** What the operations need: the tables agree, requests are filed under
    their connection, and what is out of reach has an agent. *)
Record guarded (s : Manager) : Prop := mkGuarded {
  gu_good : good (fun _ _ => True) s;
  gu_filed c rs r : X c -> rt_requests (mg_routing s) !! c = Some rs -> r ∈ rs -> X (owner_of r);
  gu_served c : ~ X c -> is_Some (rt_routes (mg_routing s) !! c)
}.
Definition tame (f : Manager -> Manager) : Prop := forall s, guarded s -> guarded (f s) /\ confined s (f s).

Lemma tame_id : tame (fun s => s).
Proof. intros s Hg. split; [done|apply confined_refl]. Qed.
Lemma tame_comp f g : tame f -> tame g -> tame (fun s => g (f s)).
Proof. intros Hf Hg s Hs. destruct (Hf s Hs) as [Hs1 Hc1]. destruct (Hg _ Hs1) as [Hs2 Hc2]. split; [done|by eapply confined_trans]. Qed.
Lemma tame_foldl {A : Type} (f : Manager -> A -> Manager) l : (forall x, x ∈ l -> tame (fun s => f s x)) -> tame (fun s => foldl f s l).
Proof.
  induction l as [|x l IH]; intros Hf; cbn; [apply tame_id|]. apply (tame_comp (fun s => f s x) (fun s => foldl f s l)); [apply Hf; by left|].
  apply IH. intros y Hy. apply Hf. by right.
Qed.
Lemma quiet_step s s' : quiet noticed s s' -> guarded s -> guarded s' /\ confined s s'.
Proof.
  intros Hq [Hg Hf Hs]. pose proof Hq as [HR HC HO _]. split; [split|split]; rewrite ?HR, ?HC; [by eapply quiet_good|done|done|done|apply calls_step_refl|done|done|by apply calls_old_same].
Qed.

(** A change of the tables of one connection within reach. *)
Lemma tame_routing c f : X c ->
  (forall t, tables_in (fun _ _ => True) t -> tables_in (fun _ _ => True) (f t)) ->
  (forall c' t, c' <> c -> view c' (f t) = view c' t) ->
  (forall t rs', rt_requests (f t) !! c = Some rs' -> exists rs, rt_requests t !! c = Some rs /\ rs' ⊆ rs \/ rs' = ∅) ->
  tame (on_routing f).
Proof.
  intros HX Ht Hv Hr s [Hg Hf Hs].
  assert (Hne : forall c', ~ X c' -> c' <> c) by (intros c' HX' ->; done).
  split; [split|split].
  - apply on_routing_good; [apply Ht, Hg|done].
  - intros c' rs r HX' Hrs Hin. destruct (decide (c' = c)) as [->|Hne'].
    + destruct (Hr _ _ Hrs) as (rs0 & [[Hrs0 Hsub]|Hemp]); [|set_solver]. apply (Hf c rs0); [done..|set_solver].
    + pose proof (Hv c' (mg_routing s) Hne') as Hveq. unfold view in Hveq. simplify_eq. apply (Hf c' rs); [done| |done]. cbn in Hrs. congruence.
  - intros c' HX'. pose proof (Hv c' (mg_routing s) (Hne _ HX')) as Hveq. unfold view in Hveq. cbn. assert (rt_routes (f (mg_routing s)) !! c' = rt_routes (mg_routing s) !! c') as -> by congruence. auto.
  - intros c' HX'. cbn. auto.
  - apply calls_step_refl.
  - exists []. by rewrite app_nil_r.
  - intros c' r. destruct (decide (c' = c)) as [->|Hne'].
    + cbn. destruct (rt_requests (f (mg_routing s)) !! c) as [rs'|] eqn:Hrs; cbn; [|set_solver].
      destruct (Hr _ _ Hrs) as (rs0 & [[-> Hsub]|Hemp]); cbn; set_solver.
    + pose proof (Hv c' (mg_routing s) Hne') as Hveq. unfold view in Hveq. cbn. by assert (rt_requests (f (mg_routing s)) !! c' = rt_requests (mg_routing s) !! c') as -> by congruence.
  - by apply calls_old_same.
Qed.

Lemma tame_cancel c : X c -> tame (cancel_pending_for_connection c).
Proof.
  intros HX s Hgu. pose proof Hgu as [Hg Hf Hs]. unfold cancel_pending_for_connection.
  destruct (rt_requests (mg_routing s) !! c) as [rs|] eqn:Hrs; [|split; [done|apply confined_refl]].
  assert (Hr : tame (on_routing (fun t => set_requests (<[c := ∅]> (rt_requests t)) t))).
  { apply (tame_routing c); [done| | |].
    - intros t Ht. apply set_requests_tables; [|done]. intros c' Hc'. destruct (decide (c = c')) as [->|Hne]; [by rewrite lookup_insert_eq|by rewrite lookup_insert_ne].
    - intros c' t Hne. unfold view. cbn. by rewrite lookup_insert_ne.
    - intros t rs'. cbn. rewrite lookup_insert_eq. intros [= <-]. exists ∅. by right. }
  destruct (Hr s Hgu) as [[Hg1 Hf1 Hs1] Hc1]. destruct (cancel_all_spec (visit (elements rs)) (mg_corr s) (gd_matched _ _ Hg)) as (Hm & Hst & _).
  split; [split; [by apply on_corr_good|done..]|]. eapply confined_trans; [exact Hc1|]. split; [done| |exists []; by rewrite app_nil_r|done|apply cancel_all_old].
  eapply calls_step_weaken; [|exact Hst]. intros call st [-> Hin]. split; [done|]. apply (Hf c rs); [done..|].
  rewrite visit_perm in Hin. by apply elem_of_elements.
Qed.
Lemma tame_forget c : X c -> tame (on_routing (forget_connection c)).
Proof.
  intros HX. apply (tame_routing c); [done| | |].
  - intros t Ht. eapply tables_weaken; [|by apply forget_connection_tables]. done.
  - intros c' t Hne. unfold view. cbn. by rewrite !lookup_delete_ne.
  - intros t rs'. cbn. by rewrite lookup_delete_eq.
Qed.
Lemma tame_disconnect c : X c -> tame (fun s => disconnect_connection has_bus s c).
Proof.
  intros HX. unfold disconnect_connection. apply (tame_comp (cancel_pending_for_connection c) (fun s => on_routing (forget_connection c) (closed_event has_bus c (set_connection_status c Disconnected s)))); [by apply tame_cancel|].
  apply (tame_comp (fun s => closed_event has_bus c (set_connection_status c Disconnected s)) (on_routing (forget_connection c))); [|by apply tame_forget].
  intros s Hs. apply quiet_step; [|done]. eapply quiet_trans; [apply quiet_status|by apply quiet_closed].
Qed.
Lemma tame_absorb to stale : tame (fun s => absorb_stale_connection has_bus to s stale).
Proof.
  intros s Hs. unfold absorb_stale_connection, agent_routed. case_bool_decide as Hr; [split; [done|apply confined_refl]|].
  assert (HX : X stale) by (destruct (decide (X stale)) as [|HX]; [done|]; by destruct Hr; apply (gu_served _ Hs)).
  destruct (quiet_step _ _ (quiet_migrate noticed stale to s) Hs) as [Hs1 Hc1].
  destruct (quiet_step _ _ (quiet_on_table noticed (conn_delete stale) (migrate stale to s)) Hs1) as [Hs2 Hc2].
  pose proof (confined_trans _ _ _ Hc1 Hc2) as Hc.
  destruct (on_table (conn_delete stale) (migrate stale to s)) as [s2 [u|e]]; cbn in *; [|done].
  assert (Ht : tame (fun s => closed_event has_bus stale (on_routing (forget_connection stale) (cancel_pending_for_connection stale s)))).
  { apply (tame_comp (cancel_pending_for_connection stale) (fun s => closed_event has_bus stale (on_routing (forget_connection stale) s))); [by apply tame_cancel|].
    apply (tame_comp (on_routing (forget_connection stale)) (closed_event has_bus stale)); [by apply tame_forget|].
    intros s' Hs'. apply quiet_step; [|done]. by apply quiet_closed. }
  destruct (Ht s2 Hs2) as [Hs3 Hc3]. split; [done|by eapply confined_trans].
Qed.
Lemma tame_cleanup c : tame (cleanup_stale_connections has_bus c).
Proof.
  intros s Hs. unfold cleanup_stale_connections.
  match goal with |- context [on_table ?m s] => destruct (quiet_step _ _ (quiet_on_table noticed m s) Hs) as [Hs1 Hc1]; destruct (on_table m s) as [s1 [ids|e]] end;
    cbn in *; [|done].
  destruct (tame_foldl (absorb_stale_connection has_bus (c_id c)) ids ltac:(intros; apply tame_absorb) s1 Hs1) as [Hs2 Hc2].
  split; [done|by eapply confined_trans].
Qed.
Lemma tame_refresh c : X c -> tame (refresh_event_channel c).
Proof.
  intros HX s Hs. assert (Hr : tame (on_routing (set_channel c (co_next (mg_corr s))))).
  { apply (tame_routing c); [done|intros t Ht; by apply set_channel_tables| |].
    - intros c' t Hne. unfold view. cbn. by rewrite !lookup_insert_ne.
    - intros t rs' Hrs. exists rs'. by left. }
  destruct (Hr s Hs) as [[Hg1 Hf1 Hs1] [V1 C1 O1 R1 P1]]. split; split; try done.
  apply refresh_good, Hs.
Qed.
Lemma tame_route_after c a (f : Manager -> Manager) : X c -> tame f -> (forall s, is_Some (rt_channels (mg_routing (f s)) !! c)) ->
  tame (fun s => on_routing (route c a) (f s)).
Proof.
  intros HX Hf Hch s Hs. destruct (Hf s Hs) as [Hs1 Hc1].
  assert (Hr : tame (on_routing (fun t => if decide (is_Some (rt_channels t !! c)) then route c a t else t))).
  { apply (tame_routing c); [done| | |].
    - intros t Ht. destruct (decide _); [by apply route_tables|done].
    - intros c' t Hne. destruct (decide _); [|done]. unfold view. cbn. by rewrite !lookup_insert_ne.
    - intros t rs'. destruct (decide _); [|intros Hrs; exists rs'; by left]. cbn. rewrite lookup_insert_eq. intros [= <-]. exists ∅. by right. }
  destruct (Hr _ Hs1) as [Hs2 Hc2]. unfold on_routing at 1 in Hs2. unfold on_routing in Hc2. rewrite decide_True in Hs2, Hc2 by apply Hch.
  split; [done|by eapply confined_trans].
Qed.
Lemma tame_install a c : X c -> tame (fun s => install a s c).
Proof.
  intros HX. unfold install. apply (tame_route_after c a (fun s => match rt_channels (mg_routing s) !! c with Some _ => s | None => refresh_event_channel c s end)); [done| |].
  - intros s Hs. destruct (rt_channels (mg_routing s) !! c); [by apply tame_id|by apply tame_refresh].
  - intros s. destruct (rt_channels (mg_routing s) !! c) eqn:Hc; [by rewrite Hc|apply refresh_channel].
Qed.
Lemma tame_add_binary a h n b : X (binary_connection h b) -> tame (fun s => add_binary sha256 debug_strings has_bus debug_info_path a h n s b).
Proof.
  intros HX s Hs. unfold add_binary.
  destruct (quiet_step _ _ (quiet_new_connection noticed h b s) Hs) as [Hs1 Hc1].
  destruct (new_agent_connection sha256 debug_strings h b s) as [s1 [c|e]]; cbn in Hs1, Hc1; [|done].
  destruct (quiet_step _ _ (quiet_on_table noticed (conn_save_batch [c]) s1) Hs1) as [Hs2 Hc2].
  destruct (on_table (conn_save_batch [c]) s1) as [s2 [u|e]]; cbn in Hs2, Hc2; [|split; [done|by eapply confined_trans]].
  assert (Ht : tame (fun s => on_routing (route (binary_connection h b) a) (refresh_event_channel (binary_connection h b) (cleanup_stale_connections has_bus c s)))).
  { apply (tame_route_after _ a (fun s => refresh_event_channel (binary_connection h b) (cleanup_stale_connections has_bus c s))); [done| |intros; apply refresh_channel].
    apply (tame_comp (cleanup_stale_connections has_bus c)); [apply tame_cleanup|by apply tame_refresh]. }
  destruct (Ht s2 Hs2) as [Hs3 Hc3].
  match goal with |- context [send_session n ?m ?x] => destruct (quiet_step _ _ (quiet_session noticed n m x I) Hs3) as [Hs4 Hc4] end.
  split; [done|]. eapply confined_trans; [exact Hc1|]. eapply confined_trans; [exact Hc2|]. by eapply confined_trans.
Qed.
Lemma tame_agents (f : gmap string AgentInfo -> gmap string AgentInfo) : tame (on_routing (fun t => set_agents (f (rt_agents t)) t)).
Proof. intros s [[Ht Hm] Hf Hs]. split; split; try done; [apply calls_step_refl|exists []; by rewrite app_nil_r|by apply calls_old_same]. Qed.

Lemma tame_register a h ver caps bs n : (forall b, b ∈ bs -> X (binary_connection h b)) -> tame (fun s => fst (register_atomic a h ver caps bs n s)).
Proof.
  intros HX s Hs. unfold AgentManager.register_atomic. destruct (rejection min_version ver) as [[reason v]|]; [by apply quiet_step; [apply quiet_session|]|].
  destruct (quiet_step _ _ (quiet_new_connections noticed h bs s) Hs) as [Hs1 Hc1].
  destruct (new_agent_connections sha256 debug_strings h bs s) as [s1 [cs|e]]; cbn in Hs1, Hc1; [|done].
  destruct (quiet_step _ _ (quiet_on_table noticed (conn_save_batch cs) s1) Hs1) as [Hs2 Hc2].
  pose proof (confined_trans _ _ _ Hc1 Hc2) as Hc.
  destruct (on_table (conn_save_batch cs) s1) as [s2 [u|e]]; cbn in Hs2, Hc2, Hc; [|done]. cbn.
  destruct (tame_foldl (fun s c => cleanup_stale_connections has_bus c s) cs ltac:(intros; apply tame_cleanup) s2 Hs2) as [Hs3 Hc3].
  set (s3 := foldl _ s2 cs) in *.
  assert (Hin : forall c, c ∈ map (binary_connection h) bs -> X c) by (intros c (b & -> & Hb)%list_elem_of_fmap; auto).
  destruct (tame_foldl (install a) (map (binary_connection h) bs) ltac:(intros; apply tame_install; auto) s3 Hs3) as [Hs4 Hc4].
  set (s4 := foldl _ s3 _) in *.
  destruct (tame_agents (fun x => <[a := mkAgent h caps bs n]> x) s4 Hs4) as [Hs5 Hc5]. set (s5 := on_routing _ s4) in *.
  match goal with |- context [send_session n ?m s5] => destruct (quiet_step _ _ (quiet_session noticed n m s5 I) Hs5) as [Hs6 Hc6]; set (s6 := fst (send_session n m s5)) in * end.
  destruct (tame_foldl (announce sha256 rust_ebpf_enabled debug_info_path n h) bs
    ltac:(intros b _ s' Hs'; apply quiet_step; [by apply quiet_session|done]) s6 Hs6) as [Hs7 Hc7].
  split; [done|]. do 5 (eapply confined_trans; [eassumption|]). done.
Qed.
Lemma unregister_step a n s : guarded s -> (forall c, rt_routes (mg_routing s) !! c = Some a -> X c) ->
  guarded (unregister a n s) /\ confined s (unregister a n s).
Proof.
  intros Hs HX. unfold unregister. match goal with |- context [if ?b then _ else _] => destruct b end; [|split; [done|apply confined_refl]].
  destruct (tame_agents (delete a) s Hs) as [Hs1 Hc1]. set (s1 := on_routing _ s) in *.
  destruct (tame_foldl (disconnect_connection has_bus) (served_by a (mg_routing s1))
    ltac:(intros c Hin; apply tame_disconnect, HX; by apply served_by_iff in Hin) s1 Hs1) as [Hs2 Hc2].
  set (s2 := foldl _ s1 _) in *. pose proof (confined_trans _ _ _ Hc1 Hc2) as Hc. split.
  - destruct Hs2 as [Hg Hf Hsv]. split; [|done..]. apply on_corr_good; [by apply take_pings_matched, Hg|done].
  - eapply confined_trans; [exact Hc|]. split; [done|by apply calls_step_same, take_pings_calls|exists []; by rewrite app_nil_r|done|by apply calls_old_same, take_pings_calls].
Qed.

Lemma binary_map_elem bs k b : binary_map bs !! k = Some b -> b ∈ bs.
Proof.
  unfold binary_map. intros Hb%elem_of_list_to_map_2. rewrite elem_of_reverse in Hb. apply list_elem_of_fmap in Hb as (b' & [= -> ->] & Hb). done.
Qed.
Lemma removed_elem current new b : b ∈ removed_binaries current new -> b ∈ current.
Proof.
  unfold removed_binaries. intros ((k & b') & -> & Hin%list_elem_of_In%filter_In)%list_elem_of_fmap. destruct Hin as [Hin _].
  apply list_elem_of_In in Hin. rewrite visit_perm in Hin. apply elem_of_map_to_list, binary_map_elem in Hin. done.
Qed.
Lemma added_elem current new b : b ∈ added_binaries current new -> b ∈ new.
Proof. unfold added_binaries. intros [Hin _]%list_elem_of_In%filter_In. by apply list_elem_of_In. Qed.

Lemma register_update_step a bs s : guarded s ->
  (forall info b, rt_agents (mg_routing s) !! a = Some info -> b ∈ ai_binaries info \/ b ∈ bs -> X (binary_connection (ai_hostname info) b)) ->
  guarded (handle_register_update sha256 debug_strings has_bus debug_info_path a bs s) /\
  confined s (handle_register_update sha256 debug_strings has_bus debug_info_path a bs s).
Proof.
  intros Hs HX. unfold handle_register_update. destruct (rt_agents (mg_routing s) !! a) as [info|] eqn:Ha; [|split; [done|apply confined_refl]].
  assert (HX' : forall b, b ∈ ai_binaries info \/ b ∈ bs -> X (binary_connection (ai_hostname info) b)) by (intros b; by apply HX).
  match goal with |- context [foldl (disconnect_connection has_bus) s ?cs] =>
    destruct (tame_foldl (disconnect_connection has_bus) cs
      ltac:(intros c (b & -> & Hb%removed_elem)%list_elem_of_fmap; apply tame_disconnect; auto) s Hs) as [Hs1 Hc1];
    set (s1 := foldl (disconnect_connection has_bus) s cs) in * end.
  match goal with |- context [foldl (add_binary ?x1 ?x2 ?x3 ?x4 a ?h ?n) s1 ?cs] =>
    destruct (tame_foldl (add_binary x1 x2 x3 x4 a h n) cs ltac:(intros b Hb%added_elem; apply tame_add_binary; auto) s1 Hs1) as [Hs2 Hc2];
    set (s2 := foldl (add_binary x1 x2 x3 x4 a h n) s1 cs) in * end.
  destruct (tame_agents (alter (fun i => mkAgent (ai_hostname i) (ai_capabilities i) bs (ai_session i)) a) s2 Hs2) as [Hs3 Hc3].
  split; [exact Hs3|]. eapply confined_trans; [exact Hc1|]. by eapply confined_trans.
Qed.
End Reach.
End Outcomes.
