(* ===== verification/AgentOutcomes.v ===== *)
(** * What the agent manager guarantees

    Properties of [AgentManager] over all histories: the tables agree with each
    other, a request is settled once and only by the agent that serves its
    connection, an agent does not touch what another one serves, a registration
    happens wholly or not at all, and an agent that leaves releases its
    callers. *)

From Stdlib Require Import Strings.String Strings.Ascii Init.Byte.
From stdpp Require Import gmap.
From S2P Require Import Prelude CoreError RustStr RustText Language Event Metric Logpoint MetricRepo Sql Connection ConnectionRepo Lifecycle MetricService ConnectionService AgentManager AgentReach.

Local Open Scope string_scope.
Local Open Scope N_scope.
Local Arguments String.append !_ _ / : simpl nomatch.
Local Arguments new_agent_connection : simpl never.
Local Arguments on_table : simpl never.
Local Arguments send_session : simpl never.
Local Arguments set_connection_status : simpl never.

Section Guarantees.
Context `{Engine} {L E R : Type} `{AdapterLifecycle L E} `{ConnectionMetrics R}.
Context (sha256 : list byte -> list byte) (debug_strings : list string -> string).
Context (min_version : option string) (has_bus : bool) (rust_ebpf_enabled : bool) (debug_info_path : string).

Local Abbreviation Manager := (@Manager L R).
Local Abbreviation Move := (@Move E).
Local Abbreviation register_atomic := (register_atomic sha256 debug_strings min_version has_bus rust_ebpf_enabled debug_info_path).
Local Abbreviation dispatch := (dispatch sha256 debug_strings has_bus debug_info_path).
Local Abbreviation unregister := (unregister_agent_matching has_bus).
Local Abbreviation move := (move sha256 debug_strings min_version has_bus rust_ebpf_enabled debug_info_path).
Local Abbreviation after := (after sha256 debug_strings min_version has_bus rust_ebpf_enabled debug_info_path).
Local Abbreviation binary_connection := (binary_connection sha256).

(** In every history: a connection that is routed leads to a registered
    agent and has an event channel and a set of requests; a request id is
    pending exactly when a call with it waits, on the reply channel the table
    names, and it is filed under the connection of that call. *)
Theorem agent_tables_agree db metrics lc clock history : let s := after history (manager_new db metrics lc clock : Manager) in
  (forall c a, rt_routes (mg_routing s) !! c = Some a ->
     is_Some (rt_agents (mg_routing s) !! a) /\ is_Some (rt_channels (mg_routing s) !! c) /\ is_Some (rt_requests (mg_routing s) !! c)) /\
  (forall r n, co_pending (mg_corr s) !! r = Some n <-> exists c, co_calls (mg_corr s) !! n = Some (mkCallOf c r CWaiting)) /\
  (forall n c r, co_calls (mg_corr s) !! n = Some (mkCallOf c r CWaiting) -> co_request_conn (mg_corr s) !! r = Some c).
Proof.
  intros s. assert (consistent s) as [Ht [M1 M2 M3]] by apply after_consistent, new_consistent. split_and!.
  - intros c a Hr. by apply Ht.
  - intros r n. split; [intros (c & Hc & _)%M1; eauto|]. by intros [c Hc%M2].
  - intros n c r Hc. pose proof (M2 _ _ _ Hc) as (c' & Hc' & Hq)%M1. by simplify_eq.
Qed.

(** ** The life of a request *)

Definition removes_connections (v : Move) : Prop :=
  match v with MRegister _ _ _ _ _ _ | MUnregister _ _ | MDispatch _ _ _ (InRegisterUpdate _) => True | _ => False end.
(** Another request with the id [r] is begun or ended. *)
Definition reuses (v : Move) (r : string) (n : N) (s : Manager) : Prop :=
  match v with
  | MBegin _ m => extract_request_id m = Some r
  | MFinish n' => n' <> n /\ exists call, co_calls (mg_corr s) !! n' = Some call /\ cl_request call = r
  | _ => False
  end.
(** The message [m] came over the current stream of the agent that serves the
    connection of [call], and answers its request. *)
Definition answered_by_server (v : Move) (s : Manager) (call : Call) (m : IncomingAgentMessage) : Prop :=
  exists e a session, v = MDispatch e a session m /\ incoming_request_id m = Some (cl_request call) /\
    is_current a session (mg_routing s) = true /\ rt_routes (mg_routing s) !! cl_connection call = Some a.
Definition settles (v : Move) (s : Manager) (n : N) (call : Call) (st : CallState) : Prop :=
  (exists m, st = CAnswered m /\ answered_by_server v s call m) \/
  (st = CAnswered connection_removed /\ removes_connections v) \/
  (st = CDropped /\ reuses v (cl_request call) n s).
Definition lives_on (v : Move) (s : Manager) (n : N) (call : Call) (x : option Call) : Prop :=
  x = Some call \/ (v = MFinish n /\ x = None) \/
  (cl_state call = CWaiting /\ exists st, settles v s n call st /\ x = Some (mkCallOf (cl_connection call) (cl_request call) st)).

Lemma step_lives P v (s s' : Manager) n call : calls_step P (mg_corr s) (mg_corr s') ->
  (forall st, cl_state call = CWaiting -> P call st -> settles v s n call st) ->
  co_calls (mg_corr s) !! n = Some call -> lives_on v s n call (co_calls (mg_corr s') !! n).
Proof.
  intros Hs HP Hc. destruct (Hs _ _ Hc) as [->|(Hw & st & HPs & ->)]; [by left|]. right; right. eauto.
Qed.
Lemma same_lives v (s s' : Manager) n call : co_calls (mg_corr s') = co_calls (mg_corr s) ->
  co_calls (mg_corr s) !! n = Some call -> lives_on v s n call (co_calls (mg_corr s') !! n).
Proof. intros -> Hc. by left. Qed.

(** Everything is within reach. *)
Definition anywhere (c : string) : Prop := True.
#[local] Instance anywhere_dec c : Decision (anywhere c) := left I.

Lemma consistent_guarded (s : Manager) : consistent s -> guarded id anywhere s.
Proof. intros [Ht Hm]. split; [split; [|done]|done|intros c Hc; by destruct Hc]. eapply tables_weaken; [|exact Ht]. done. Qed.
Lemma confined_lives v (s s' : Manager) n call : confined id anywhere s s' -> removes_connections v ->
  co_calls (mg_corr s) !! n = Some call -> lives_on v s n call (co_calls (mg_corr s') !! n).
Proof.
  intros Hc Hv. apply (step_lives _ v s s' n call (cf_calls _ _ _ _ Hc)). intros st _ [-> _]. right; left. done.
Qed.
Lemma heartbeat_corr a (s : Manager) : mg_corr (handle_heartbeat a s) = mg_corr s.
Proof.
  unfold handle_heartbeat. generalize (served_by a (mg_routing s)). intros l. revert s. induction l as [|c l IH]; intros s; cbn; [done|]. by rewrite IH.
Qed.
Lemma resolve_calls r m (s : Manager) : co_calls (mg_corr (resolve_pending r m s)) = co_calls (take_pending r (CAnswered m) (mg_corr s)).
Proof.
  unfold resolve_pending. transitivity (co_calls (take_pending r (CAnswered m) (forget_request r (mg_corr s)))); [by destruct (co_request_conn (mg_corr s) !! r)|].
  by rewrite take_forget.
Qed.

Lemma waiting_filed (s : Manager) n call : consistent s -> co_calls (mg_corr s) !! n = Some call -> cl_state call = CWaiting ->
  co_pending (mg_corr s) !! cl_request call = Some n /\ co_request_conn (mg_corr s) !! cl_request call = Some (cl_connection call).
Proof.
  intros [_ [M1 M2 M3]] Hc Hw. destruct call as [c r st]. cbn in *. subst st. pose proof (M2 _ _ _ Hc) as Hp.
  split; [done|]. destruct (M1 _ _ Hp) as (c' & Hc' & Hq). by simplify_eq.
Qed.
Lemma resolve_lives e a session m r (s : Manager) n call : consistent s -> admitted a session m s = true -> incoming_request_id m = Some r ->
  co_calls (mg_corr s) !! n = Some call -> lives_on (MDispatch e a session m) s n call (co_calls (mg_corr (resolve_pending r m s)) !! n).
Proof.
  intros Hg Had Hr Hc. apply (step_lives (fun call st' => cl_request call = r /\ st' = CAnswered m) _ s); [|intros st Hw [Hreq ->]|done].
  - intros n' call' Hc'. rewrite resolve_calls. by apply take_pending_step; [apply Hg|].
  - left. exists m. split; [done|]. exists e, a, session. subst r. destruct (waiting_filed s n call Hg Hc Hw) as [_ Hq].
    unfold admitted in Had. rewrite Hr, Hq in Had. apply andb_true_iff in Had as [[Hcur _]%andb_true_iff Hown].
    split_and!; [done..|]. by apply bool_decide_eq_true in Hown.
Qed.
Lemma dispatch_lives e a session m (s : Manager) n call : consistent s -> co_calls (mg_corr s) !! n = Some call ->
  lives_on (MDispatch e a session m) s n call (co_calls (mg_corr (dispatch e a session m s)) !! n).
Proof.
  intros Hg Hc. unfold AgentManager.dispatch. destruct (admitted a session m s) eqn:Had; [|by left].
  destruct m; cbn [handle_message]; try (by left); try (by apply resolve_lives).
  - apply same_lives; [|done]. f_equal. by apply (qt_corr (fun _ => True)), quiet_update.
  - apply same_lives; [|done]. f_equal. by apply (qt_corr (fun _ => True)), quiet_forward.
  - apply same_lives; [|done]. by rewrite heartbeat_corr.
  - apply confined_lives; [|done..]. by apply (register_update_step _ _ _ _ id anywhere); [apply consistent_guarded|].
  - apply same_lives; [|done]. apply take_pings_calls.
Qed.

Lemma end_call_other n n' co : n <> n' -> co_calls (end_call n' co) !! n = co_calls co !! n.
Proof. intros Hne. cbn. by rewrite lookup_delete_ne. Qed.

Lemma finish_lives n' (s : Manager) n call : consistent s -> co_calls (mg_corr s) !! n = Some call ->
  lives_on (MFinish n') s n call (co_calls (mg_corr (from_option fst s (finish_request n' s))) !! n).
Proof.
  intros Hg Hc. unfold finish_request. destruct (co_calls (mg_corr s) !! n') as [call'|] eqn:Hc'; [|by left].
  destruct (decide (n = n')) as [->|Hne]; [right; left; split; [done|]; cbn; apply lookup_delete_eq|].
  cbn -[end_call]. rewrite end_call_other by done.
  pose proof (take_pending_step (cl_request call') CDropped _ (gd_matched _ _ Hg) n call Hc) as [Hsame|(Hw & st & [Hreq ->] & Hst)]; [by left; rewrite <- Hsame|].
  right; right. split; [done|]. exists CDropped. split; [|exact Hst]. right; right. split; [done|]. split; [by intros ->|]. by exists call'.
Qed.
Lemma begin_lives c m (s : Manager) n call : consistent s -> co_calls (mg_corr s) !! n = Some call ->
  lives_on (MBegin c m) s n call (co_calls (mg_corr (fst (begin_request c m s))) !! n).
Proof.
  intros Hg Hc. rewrite begin_request_eq. destruct (extract_request_id m) as [r|] eqn:Hr; [|by left].
  pose proof (mt_fresh _ (gd_matched _ _ Hg) _ _ Hc) as Hlt. assert (Hne : n <> co_next (mg_corr s)) by lia.
  destruct (put_call_consistent c r s Hg) as [Hg1 Hc1].
  assert (Hput : lives_on (MBegin c m) s n call (co_calls (mg_corr (put_call c r s)) !! n)).
  { cbn. rewrite lookup_insert_ne by done.
    pose proof (take_pending_step r CDropped (bump (mg_corr s)) (bump_matched _ (gd_matched _ _ Hg)) n call Hc) as [Hsame|(Hw & st & [Hreq ->] & Hst)]; [left; exact Hsame|].
    right; right. split; [done|]. exists CDropped. split; [|exact Hst]. right; right. split; [done|]. cbn. congruence. }
  pose proof (quiet_send_to_agent (fun _ => True) c m (put_call c r s) ltac:(done)) as Hq.
  destruct (send_to_agent c m (put_call c r s)) as [s1 [u|e]]; cbn in Hq; cbn -[end_call]; rewrite ?end_call_other by done;
    cbn; rewrite (qt_corr _ _ _ Hq); [done|].
  unfold take_pending. destruct (co_pending (mg_corr (put_call c r s)) !! r) as [n0|] eqn:Hp; [|done]. cbn in Hp. rewrite lookup_insert_eq in Hp.
  injection Hp as <-. cbn. rewrite lookup_alter_ne by done. exact Hput.
Qed.

Lemma ping_calls a (s : Manager) : co_calls (mg_corr (fst (begin_ping a s))) = co_calls (mg_corr s).
Proof.
  unfold begin_ping. cbn. destruct (rt_agents (mg_routing s) !! a) as [info|]; cbn; [|done].
  unfold send_session. by case_bool_decide.
Qed.
Lemma finish_ping_calls n (s : Manager) : co_calls (mg_corr (from_option fst s (finish_ping n s))) = co_calls (mg_corr s).
Proof. unfold finish_ping. destruct (co_ping_calls (mg_corr s) !! n) as [p|]; [|done]. by destruct (pg_state p). Qed.

Lemma move_lives v (s : Manager) n call : consistent s -> co_calls (mg_corr s) !! n = Some call ->
  lives_on v s n call (co_calls (mg_corr (move v s)) !! n).
Proof.
  intros Hg Hc. destruct v; cbn [AgentManager.move]; try (by apply same_lives).
  - apply confined_lives; [|done..]. by apply (tame_register _ _ _ _ _ _ id anywhere); [|apply consistent_guarded].
  - by apply dispatch_lives.
  - apply confined_lives; [|done..]. by apply (unregister_step _ id anywhere); [apply consistent_guarded|].
  - by apply begin_lives.
  - by apply finish_lives.
  - by apply same_lives; [apply ping_calls|].
  - by apply same_lives; [apply finish_ping_calls|].
Qed.

(** C12: a request under way is settled once and by the right party.  Whatever
    happens next in a history, a call stays as it is, ends, or, if it waits, is
    settled in one of three ways: with a message that answers its request id
    and came over the current stream of the agent that serves its connection
    at that moment; with the notice that its connection was removed, when
    registrations change or an agent leaves; or by losing its sender, when
    another request with the same id is begun or ended.  A call that was
    settled is not settled again. *)
Theorem requests_settled_by_their_agent db metrics lc clock history v n call :
  let s := after history (manager_new db metrics lc clock : Manager) in
  co_calls (mg_corr s) !! n = Some call -> lives_on v s n call (co_calls (mg_corr (move v s)) !! n).
Proof. intros s Hc. apply move_lives; [|done]. apply after_consistent, new_consistent. Qed.

(** ** Agents keep to their own connections *)

Section Scoped.
(** The connection that a request id names. *)
Context (owner_of : string -> string).

Definition scoped (v : Move) : Prop :=
  match v with MBegin c m => forall r, extract_request_id m = Some r -> owner_of r = c | _ => True end.

Record filed (s : Manager) : Prop := mkFiled {
  fl_requests c r : r ∈ default ∅ (rt_requests (mg_routing s) !! c) -> owner_of r = c;
  fl_calls n call : co_calls (mg_corr s) !! n = Some call -> owner_of (cl_request call) = cl_connection call
}.

Lemma old_filed (s s' : Manager) : (forall c r, r ∈ default ∅ (rt_requests (mg_routing s') !! c) -> r ∈ default ∅ (rt_requests (mg_routing s) !! c)) ->
  calls_old (mg_corr s) (mg_corr s') -> filed s -> filed s'.
Proof.
  intros Hr Ho [F1 F2]. split; [eauto|]. intros n call' Hc. destruct (Ho _ _ Hc) as (call & Hc0 & -> & ->). eauto.
Qed.
Lemma confined_filed (s s' : Manager) : confined id anywhere s s' -> filed s -> filed s'.
Proof. intros [_ _ _ Hr Ho]. by apply old_filed. Qed.
Lemma quiet_filed Q (s s' : Manager) : quiet Q s s' -> filed s -> filed s'.
Proof. intros [HR HC _ _] [F1 F2]. split; rewrite ?HR, ?HC; done. Qed.
Lemma untrack_shrinks c r c' r' t : r' ∈ default ∅ (rt_requests (untrack_request c r t) !! c') -> r' ∈ default ∅ (rt_requests t !! c').
Proof.
  cbn. destruct (decide (c = c')) as [->|Hne]; [|by rewrite lookup_alter_ne]. rewrite lookup_alter_eq. destruct (rt_requests t !! c'); cbn; set_solver.
Qed.
Lemma drop_filed c r n (s : Manager) : filed s -> filed (on_corr (end_call n) (drop_request c r s)).
Proof.
  apply old_filed; [intros c' r'; apply untrack_shrinks|]. intros n' call'. cbn. rewrite lookup_delete_Some. intros [_ Hc]. exact (take_pending_old r CDropped _ _ _ Hc).
Qed.
Lemma put_call_filed c r (s : Manager) : owner_of r = c -> filed s -> filed (put_call c r s).
Proof.
  intros Hr [F1 F2]. split.
  - intros c' r'. cbn. destruct (decide (c = c')) as [<-|Hne]; [|rewrite lookup_alter_ne by done; apply F1].
    rewrite lookup_alter_eq. specialize (F1 c r'). destruct (rt_requests (mg_routing s) !! c); cbn in *; set_solver.
  - intros n call. cbn. rewrite lookup_insert_Some. intros [[_ <-]|[_ Hc]]; [done|].
    destruct (take_pending_old r CDropped (bump (mg_corr s)) n call Hc) as (call0 & Hc0 & -> & ->). by apply (F2 n).
Qed.
Lemma heartbeat_filed a (s : Manager) : filed s -> filed (handle_heartbeat a s).
Proof.
  unfold handle_heartbeat. generalize (served_by a (mg_routing s)). intros l. revert s. induction l as [|c l IH]; intros s Hf; cbn; [done|].
  apply IH. destruct Hf as [F1 F2]. by split.
Qed.
Lemma resolve_filed r m (s : Manager) : filed s -> filed (resolve_pending r m s).
Proof.
  apply old_filed.
  - intros c' r'. unfold resolve_pending. destruct (co_request_conn (mg_corr s) !! r); [apply untrack_shrinks|done].
  - intros n call'. rewrite resolve_calls. apply take_pending_old.
Qed.
Lemma dispatch_filed e a session m (s : Manager) : consistent s -> filed s -> filed (dispatch e a session m s).
Proof.
  intros Hg Hf. unfold AgentManager.dispatch. destruct (admitted a session m s); [|done].
  destruct m; cbn [handle_message]; try done; try (by apply resolve_filed).
  - by eapply quiet_filed; [apply (quiet_update _ _ (fun _ => True))|].
  - by eapply quiet_filed; [apply (quiet_forward (fun _ => True))|].
  - by apply heartbeat_filed.
  - eapply confined_filed; [|done]. by apply (register_update_step _ _ _ _ id anywhere); [apply consistent_guarded|].
  - destruct Hf as [F1 F2]. split; [exact F1|]. intros n call. cbn. rewrite take_pings_calls. apply F2.
Qed.
Lemma move_filed v (s : Manager) : consistent s -> scoped v -> filed s -> filed (move v s).
Proof.
  intros Hg Hv Hf. destruct v; cbn [AgentManager.move].
  - eapply confined_filed; [|done]. by apply (tame_register _ _ _ _ _ _ id anywhere); [|apply consistent_guarded].
  - by apply dispatch_filed.
  - eapply confined_filed; [|done]. by apply (unregister_step _ id anywhere); [apply consistent_guarded|].
  - rewrite begin_request_eq. destruct (extract_request_id m) as [r|] eqn:Hr; [|done].
    pose proof (quiet_send_to_agent (fun _ => True) c m (put_call c r s) ltac:(done)) as Hq.
    pose proof (put_call_filed c r s (Hv r Hr) Hf) as Hf1.
    destruct (send_to_agent c m (put_call c r s)) as [s1 [u|x]]; cbn in Hq; pose proof (quiet_filed _ _ _ Hq Hf1) as Hf2; [done|]. by apply drop_filed.
  - unfold finish_request. destruct (co_calls (mg_corr s) !! n); [|done]. by apply drop_filed.
  - destruct Hf as [F1 F2]. split; [|by rewrite ping_calls]. unfold begin_ping. cbn. destruct (rt_agents (mg_routing s) !! agent_id); cbn; [|done].
    unfold send_session. by case_bool_decide.
  - destruct Hf as [F1 F2]. split; [|by rewrite finish_ping_calls]. unfold finish_ping.
    destruct (co_ping_calls (mg_corr s) !! n) as [p|]; [|done]. by destruct (pg_state p).
  - by destruct Hf.
  - by destruct Hf.
  - by destruct Hf.
  - by destruct Hf.
  - by destruct Hf.
Qed.
Lemma after_filed history : forall s : Manager, consistent s -> Forall scoped history -> filed s -> filed (after history s).
Proof.
  induction history as [|v history IH]; intros s Hg Hv Hf; cbn; [done|]. inversion_clear Hv as [|? ? Hv1 Hvs].
  apply IH; [by apply move_consistent|done|by apply move_filed].
Qed.
Lemma new_filed db metrics lc clock : filed (manager_new db metrics lc clock : Manager).
Proof. split; [|intros * Hc; exfalso; exact (lookup_empty_Some _ _ Hc)]. intros c r. change (r ∈ default (∅ : gset string) ((∅ : gmap string (gset string)) !! c) -> owner_of r = c). rewrite lookup_empty. set_solver. Qed.

(** What a message of the agent [a] may put out without touching [c]. *)
Definition elsewhere (c a : string) (s : Manager) (o : Output) : Prop :=
  match o with
  | OSent _ _ => True
  | OEvent n _ => exists c', rt_routes (mg_routing s) !! c' = Some a /\ rt_channels (mg_routing s) !! c' = Some n
  | OClosed c' => c' <> c
  end.
Record untouched (c a : string) (s s' : Manager) : Prop := mkUntouched {
  un_view : view c (mg_routing s') = view c (mg_routing s);
  un_calls n call : co_calls (mg_corr s) !! n = Some call -> cl_connection call = c -> co_calls (mg_corr s') !! n = Some call;
  un_out : adds (elsewhere c a s) s s'
}.
Lemma quiet_untouched c a (s s' : Manager) : quiet (elsewhere c a s) s s' -> untouched c a s s'.
Proof. intros [HR HC HO _]. split; [by rewrite HR|by rewrite HC|done]. Qed.

Lemma heartbeat_untouched c a b (s : Manager) : rt_routes (mg_routing s) !! c = Some b -> b <> a -> untouched c a s (handle_heartbeat a s).
Proof.
  intros Hr Hb. split; [|by rewrite heartbeat_corr|]; unfold handle_heartbeat.
  - assert (Hnin : c ∉ served_by a (mg_routing s)) by (rewrite served_by_iff; congruence). revert Hnin.
    generalize (served_by a (mg_routing s)). intros l. clear Hr. revert s. induction l as [|x l IH]; intros s Hnin; cbn; [done|].
    apply not_elem_of_cons in Hnin as [Hne Hnin]. rewrite IH by done. unfold view. cbn. by rewrite lookup_insert_ne.
  - exists []. rewrite app_nil_r. split; [|done]. generalize (served_by a (mg_routing s)). intros l. clear Hr. revert s.
    induction l as [|x l IH]; intros s; cbn; [done|]. by rewrite IH.
Qed.
Lemma resolve_untouched c a b session m r (s : Manager) : consistent s -> admitted a session m s = true -> incoming_request_id m = Some r ->
  rt_routes (mg_routing s) !! c = Some b -> b <> a -> untouched c a s (resolve_pending r m s).
Proof.
  intros Hg Had Hm Hr Hb. unfold admitted in Had. rewrite Hm in Had. apply andb_true_iff in Had as [_ Hown].
  destruct (co_request_conn (mg_corr s) !! r) as [c'|] eqn:Hq; [|done]. apply bool_decide_eq_true in Hown.
  assert (Hne : c' <> c) by congruence. split.
  - unfold resolve_pending. rewrite Hq. unfold view. cbn. by rewrite lookup_alter_ne.
  - intros n call Hc Hcc. rewrite resolve_calls.
    destruct (take_pending_step r (CAnswered m) _ (gd_matched _ _ Hg) n call Hc) as [|(Hw & st & [Hreq _] & _)]; [done|].
    destruct (waiting_filed s n call Hg Hc Hw) as [_ Hq']. congruence.
  - exists []. unfold resolve_pending. rewrite Hq, app_nil_r. done.
Qed.
Definition out_of_reach (c c' : string) : Prop := c' <> c.
#[local] Instance out_of_reach_dec c c' : Decision (out_of_reach c c').
Proof. unfold out_of_reach. apply _. Defined.

Lemma filed_guarded c b (s : Manager) : good (fun _ _ => True) s -> filed s -> rt_routes (mg_routing s) !! c = Some b -> guarded owner_of (out_of_reach c) s.
Proof.
  intros Hg [F1 F2] Hr. split; [done| |].
  - intros c' rs r Hc' Hrs Hin. rewrite (F1 c' r); [done|]. by rewrite Hrs.
  - intros c' Hc'. assert (c' = c) as -> by (destruct (decide (c' = c)) as [|Hne]; [done|]; by destruct (Hc' Hne)). by exists b.
Qed.
Lemma confined_untouched c a (s s' : Manager) : filed s -> confined owner_of (out_of_reach c) s s' -> untouched c a s s'.
Proof.
  intros [F1 F2] [V C O _ _]. split.
  - apply V. by intros Hne.
  - intros n call Hc Hcc. destruct (C _ _ Hc) as [|(_ & st & [_ Hne] & _)]; [done|]. rewrite (F2 _ _ Hc) in Hne. done.
  - eapply adds_weaken; [|exact O]. by intros [].
Qed.
Lemma update_untouched c a b bs (s : Manager) : consistent s -> filed s -> rt_routes (mg_routing s) !! c = Some b ->
  (forall info bin, rt_agents (mg_routing s) !! a = Some info -> bin ∈ ai_binaries info \/ bin ∈ bs -> binary_connection (ai_hostname info) bin <> c) ->
  untouched c a s (handle_register_update sha256 debug_strings has_bus debug_info_path a bs s).
Proof.
  intros [Ht Hm] Hf Hr Hbin. apply confined_untouched; [done|].
  apply (register_update_step sha256 debug_strings has_bus debug_info_path owner_of (out_of_reach c)); [|exact Hbin].
  eapply filed_guarded; [|done|exact Hr]. split; [by eapply tables_weaken; [|exact Ht]|done].
Qed.

Definition update_binaries (m : IncomingAgentMessage) : list AgentBinaryInfo := match m with InRegisterUpdate bs => bs | _ => [] end.

(** C13: an agent cannot touch what another agent serves.  Let request ids name
    their connection, as those of the remote adapter do.  Whatever message an
    agent sends over whatever stream, a connection served by another agent
    keeps its route, its event channel, its open requests and its time of
    life, every call on it stays as it is, no event reaches any but the
    sender's own channels, and it is not announced as closed; the exception is
    a connection that is the identity of a binary which the sender reports or
    has reported. *)
Theorem agents_keep_to_their_own db metrics lc clock history e a session m c b :
  let s := after history (manager_new db metrics lc clock : Manager) in
  Forall scoped history -> rt_routes (mg_routing s) !! c = Some b -> b <> a ->
  (forall info bin, rt_agents (mg_routing s) !! a = Some info -> bin ∈ ai_binaries info \/ bin ∈ update_binaries m ->
     binary_connection (ai_hostname info) bin <> c) ->
  untouched c a s (dispatch e a session m s).
Proof.
  intros s Hsc Hr Hb Hbin. assert (Hg : consistent s) by apply after_consistent, new_consistent.
  assert (Hf : filed s) by (apply after_filed; [apply new_consistent|done|apply new_filed]).
  unfold AgentManager.dispatch. destruct (admitted a session m s) eqn:Had; [|by apply quiet_untouched, quiet_refl].
  assert (Hown : forall c', incoming_connection_id m = Some c' -> rt_routes (mg_routing s) !! c' = Some a).
  { intros c' Hc'. unfold admitted in Had. rewrite Hc' in Had. apply andb_true_iff in Had as [[_ Ho]%andb_true_iff _]. by apply bool_decide_eq_true in Ho. }
  destruct m; cbn [handle_message]; try (by apply quiet_untouched, quiet_refl); try (by eapply resolve_untouched).
  - apply quiet_untouched, quiet_update; [done|]. cbn. intros Heq. specialize (Hown _ eq_refl). congruence.
  - apply quiet_untouched, quiet_forward. intros n ev Hn _. cbn. exists connection_id. auto.
  - by eapply heartbeat_untouched.
  - by eapply update_untouched.
  - split; [done|cbn; by rewrite take_pings_calls|exists []; by rewrite app_nil_r].
Qed.

(** *** An agent that leaves *)

Lemma disconnect_releases c n call (s : Manager) : matched (mg_corr s) -> co_calls (mg_corr s) !! n = Some call -> cl_state call = CWaiting ->
  cl_request call ∈ default ∅ (rt_requests (mg_routing s) !! c) ->
  co_calls (mg_corr (disconnect_connection has_bus s c)) !! n = Some (settle (CAnswered connection_removed) call).
Proof.
  intros Hm Hc Hw Hin. destruct (rt_requests (mg_routing s) !! c) as [rs|] eqn:Hrs; cbn in Hin; [|set_solver].
  assert (Hco : mg_corr (disconnect_connection has_bus s c) = cancel_all (visit (elements rs)) (mg_corr s)).
  { unfold disconnect_connection. cbn. rewrite (qt_corr (fun _ => True) (set_connection_status c Disconnected (cancel_pending_for_connection c s))) by (by apply quiet_closed).
    rewrite (qt_corr (fun _ => True) (cancel_pending_for_connection c s)) by apply quiet_status. rewrite cancel_corr. by rewrite Hrs. }
  rewrite Hco. destruct (cancel_all_spec (visit (elements rs)) _ Hm) as (Hm' & Hst & Hnone). rewrite settle_waiting by done.
  destruct (Hst _ _ Hc) as [Hsame|(_ & st & [-> _] & ->)]; [|done]. exfalso.
  assert (Hp : co_pending (cancel_all (visit (elements rs)) (mg_corr s)) !! cl_request call = None) by (apply Hnone; rewrite visit_perm; by apply elem_of_elements).
  destruct call as [c0 r0 st0]. cbn in *. subst st0. apply (mt_waiting _ Hm') in Hsame. congruence.
Qed.
Lemma disconnect_all_good_true l (s : Manager) : good (fun _ _ => True) s -> good (fun _ _ => True) (foldl (disconnect_connection has_bus) s l).
Proof. intros Hg. destruct (disconnect_all_good has_bus l _ _ Hg) as [Ht Hm]. split; [|done]. by eapply tables_weaken; [|exact Ht]. Qed.

Lemma leaving_releases l c n call (s : Manager) : c ∈ l -> good (fun _ _ => True) s -> filed s -> is_Some (rt_routes (mg_routing s) !! c) ->
  co_calls (mg_corr s) !! n = Some call -> cl_connection call = c -> cl_state call = CWaiting ->
  cl_request call ∈ default ∅ (rt_requests (mg_routing s) !! c) ->
  co_calls (mg_corr (foldl (disconnect_connection has_bus) s l)) !! n = Some (settle (CAnswered connection_removed) call).
Proof.
  intros (l1 & l2 & -> & Hnin)%list_elem_of_split_l Hg Hf [b Hr] Hc Hcc Hw Hin. rewrite foldl_app. cbn.
  pose proof (filed_guarded c b s Hg Hf Hr) as Hgu.
  destruct (tame_foldl owner_of (out_of_reach c) (disconnect_connection has_bus) l1
    ltac:(intros x Hx; apply tame_disconnect; intros ->; done) s Hgu) as [Hgu1 Hc1].
  destruct (confined_untouched c b s _ Hf Hc1) as [V1 C1 _]. set (s1 := foldl _ s l1) in *.
  pose proof (C1 _ _ Hc Hcc) as Hcall1.
  assert (Hin1 : cl_request call ∈ default ∅ (rt_requests (mg_routing s1) !! c)) by (unfold view in V1; congruence).
  pose proof (disconnect_releases c n call s1 (gd_matched _ _ (gu_good _ _ _ Hgu1)) Hcall1 Hw Hin1) as Hrel.
  set (s2 := disconnect_connection has_bus s1 c) in *.
  assert (Hg2 : good (fun _ _ => True) s2) by (apply (disconnect_all_good_true [c]), Hgu1).
  assert (Hgu2 : guarded id anywhere s2) by (split; [done|done|intros c' Hc'; by destruct Hc']).
  destruct (tame_foldl id anywhere (disconnect_connection has_bus) l2 ltac:(intros; by apply tame_disconnect) s2 Hgu2) as [_ [_ C2 _ _ _]].
  destruct (C2 _ _ Hrel) as [|(Hw2 & _)]; [done|]. by rewrite settle_waiting in Hw2.
Qed.

(** C14: when the current stream of an agent ends, the agent and all its routes
    are gone, every call that waits for it is answered at once with the notice
    that its connection was removed, if its request is on the list of its
    connection, and what other agents serve is untouched.  The end of a stream
    that was replaced changes nothing. *)
Theorem leaving_agent_releases_callers db metrics lc clock history a session :
  let s := after history (manager_new db metrics lc clock : Manager) in
  let s' := unregister a (Some session) s in
  Forall scoped history ->
  (is_current a session (mg_routing s) = false -> s' = s) /\
  (is_current a session (mg_routing s) = true ->
     rt_agents (mg_routing s') !! a = None /\ (forall c, rt_routes (mg_routing s') !! c <> Some a) /\
     (forall n call, co_calls (mg_corr s) !! n = Some call -> cl_state call = CWaiting -> rt_routes (mg_routing s) !! cl_connection call = Some a ->
        cl_request call ∈ default ∅ (rt_requests (mg_routing s) !! cl_connection call) ->
        co_calls (mg_corr s') !! n = Some (settle (CAnswered connection_removed) call)) /\
     (forall c b, rt_routes (mg_routing s) !! c = Some b -> b <> a -> untouched c a s s')).
Proof.
  intros s s' Hsc. assert (Hg : consistent s) by apply after_consistent, new_consistent.
  assert (Hf : filed s) by (apply after_filed; [apply new_consistent|done|apply new_filed]).
  assert (Hg' : good (fun _ _ => True) s) by (destruct Hg as [Ht Hm]; split; [by eapply tables_weaken; [|exact Ht]|done]).
  subst s'. unfold unregister_agent_matching. split; intros Hcur; rewrite Hcur; [done|].
  set (s1 := on_routing _ s). set (s2 := foldl (disconnect_connection has_bus) s1 (served_by a (mg_routing s1))).
  assert (Ha2 : agents_of s2 = delete a (rt_agents (mg_routing s))) by (unfold s2; rewrite foldl_agents; [done|]; intros; apply disconnect_agents).
  split_and!.
  - change (agents_of s2 !! a = None). rewrite Ha2. apply lookup_delete_eq.
  - intros c Hr. assert (Hg1 : good (fun _ _ => True) s1) by (split; apply Hg').
    destruct (disconnect_all_good has_bus (served_by a (mg_routing s1)) _ _ Hg1) as [Ht2 _]. destruct (Ht2 _ _ Hr) as [[_ Hnin] _].
    apply Hnin, served_by_iff. exact (disconnect_all_routes _ _ _ _ _ Hr).
  - intros n call Hc Hw Hr Hin. change (mg_corr (on_corr (take_pings a PDropped) s2)) with (take_pings a PDropped (mg_corr s2)). rewrite take_pings_calls.
    apply (leaving_releases _ (cl_connection call)); [by apply served_by_iff|split; apply Hg'|destruct Hf; by split|by exists a|done..].
  - intros c b Hr Hb. destruct (unregister_step has_bus owner_of (out_of_reach c) a (Some session) s) as [_ Hc].
    + by eapply filed_guarded.
    + intros c' Hr' ->. congruence.
    + unfold unregister_agent_matching in Hc. rewrite Hcur in Hc. by apply confined_untouched.
Qed.
End Scoped.

(** ** Registration *)

Definition closing (o : Output) : Prop := exists c, o = OClosed c.
Definition tells (Q : Output -> Prop) (s s' : Manager) : Prop := adds Q s s' /\ wo_hung (mg_world s') = wo_hung (mg_world s).
Lemma tells_trans Q s s1 s2 : tells Q s s1 -> tells Q s1 s2 -> tells Q s s2.
Proof. intros [A1 W1] [A2 W2]. split; [by eapply adds_trans|congruence]. Qed.
Lemma tells_same Q (s s' : Manager) : mg_world s' = mg_world s -> tells Q s s'.
Proof. intros HW. split; [exists []; by rewrite HW, app_nil_r|by rewrite HW]. Qed.
Lemma quiet_tells Q (s s' : Manager) : quiet Q s s' -> tells Q s s'.
Proof. intros [_ _ HO HW]. done. Qed.
Lemma tells_foldl {A : Type} Q (f : Manager -> A -> Manager) l : (forall s x, tells Q s (f s x)) -> forall s, tells Q s (foldl f s l).
Proof. intros Hf. induction l as [|x l IH]; intros s; cbn; [by apply tells_same|]. eapply tells_trans; [apply Hf|apply IH]. Qed.

Lemma absorb_tells to (s : Manager) stale : tells closing s (absorb_stale_connection has_bus to s stale).
Proof.
  unfold absorb_stale_connection. destruct (agent_routed stale s); [by apply tells_same|].
  pose proof (quiet_trans closing _ _ _ (quiet_migrate closing stale to s) (quiet_on_table closing (conn_delete stale) (migrate stale to s))) as Hq%quiet_tells.
  destruct (on_table (conn_delete stale) (migrate stale to s)) as [s1 [u|e]]; cbn in Hq; [|done].
  eapply tells_trans; [exact Hq|]. eapply tells_trans; [|apply quiet_tells, quiet_closed; by exists stale].
  apply tells_same. cbn. apply cancel_world.
Qed.
Lemma cleanup_tells c (s : Manager) : tells closing s (cleanup_stale_connections has_bus c s).
Proof.
  unfold cleanup_stale_connections.
  match goal with |- context [on_table ?m s] => pose proof (quiet_tells _ _ _ (quiet_on_table closing m s)) as Hq; destruct (on_table m s) as [s1 [ids|e]] end;
    cbn in Hq; [|done]. eapply tells_trans; [exact Hq|]. apply tells_foldl. intros. apply absorb_tells.
Qed.
Lemma install_world a (s : Manager) c : mg_world (install a s c) = mg_world s.
Proof. unfold install. by destruct (rt_channels (mg_routing s) !! c). Qed.

(** A connection that is ready for the agent. *)
Definition ready (a c : string) (s : Manager) : Prop :=
  rt_routes (mg_routing s) !! c = Some a /\ is_Some (rt_channels (mg_routing s) !! c) /\ rt_requests (mg_routing s) !! c = Some ∅.
Lemma install_ready a (s : Manager) c : ready a c (install a s c).
Proof.
  unfold install, ready. destruct (rt_channels (mg_routing s) !! c) eqn:Hc; cbn; rewrite ?lookup_insert_eq, ?Hc; done.
Qed.
Lemma install_ready_other a (s : Manager) c c' : ready a c s -> ready a c (install a s c').
Proof.
  intros Hr. destruct (decide (c = c')) as [->|Hne]; [apply install_ready|]. unfold install, ready in *.
  destruct (rt_channels (mg_routing s) !! c'); cbn; rewrite ?lookup_insert_ne by done; done.
Qed.
Lemma install_all_ready a l : forall (s : Manager) c, c ∈ l \/ ready a c s -> ready a c (foldl (install a) s l).
Proof.
  induction l as [|x l IH]; intros s c Hc; cbn; [destruct Hc as [Hc|]; [by apply not_elem_of_nil in Hc|done]|].
  apply IH. destruct Hc as [[->|Hc]%elem_of_cons|Hr]; [right; apply install_ready|by left|right; by apply install_ready_other].
Qed.

(** What reaches the agent over a stream: nothing when it has hung up. *)
Definition delivered (session : N) (s : Manager) (ms : list OutgoingAgentMessage) : list Output :=
  if bool_decide (session ∈ wo_hung (mg_world s)) then [] else map (OSent session) ms.
Definition command (h : string) (b : AgentBinaryInfo) : OutgoingAgentMessage :=
  OutCreateConnection (creation sha256 debug_info_path h (rust_ebpf_enabled && bool_decide (bi_language b = Rust)) b).

Lemma send_session_delivers session m (s : Manager) :
  let s' := fst (send_session session m s) in
  mg_routing s' = mg_routing s /\ wo_hung (mg_world s') = wo_hung (mg_world s) /\ wo_out (mg_world s') = (wo_out (mg_world s) ++ delivered session s [m])%list.
Proof. unfold send_session, delivered. case_bool_decide; cbn; by rewrite ?app_nil_r. Qed.

Lemma announce_all session h bs : forall s : Manager,
  mg_routing (foldl (announce sha256 rust_ebpf_enabled debug_info_path session h) s bs) = mg_routing s /\
  wo_out (mg_world (foldl (announce sha256 rust_ebpf_enabled debug_info_path session h) s bs)) =
  (wo_out (mg_world s) ++ delivered session s (map (command h) bs))%list.
Proof.
  induction bs as [|b bs IH]; intros s; cbn [foldl map]; [unfold delivered; by case_bool_decide; rewrite app_nil_r|].
  destruct (send_session_delivers session (command h b) s) as (E1 & E2 & E3).
  change (announce sha256 rust_ebpf_enabled debug_info_path session h s b) with (fst (send_session session (command h b) s)).
  destruct (IH (fst (send_session session (command h b) s))) as [-> ->]. rewrite E1, E3. split; [done|]. unfold delivered. rewrite E2.
  case_bool_decide; cbn; [by rewrite !app_nil_r|by rewrite <- app_assoc].
Qed.

(** C15: a registration changes the server's tables wholly or not at all.  If the
    agent is too old, at most the refusal is sent; if an identity is invalid or
    the connections cannot be stored, nothing is sent; in both cases no table in
    memory changes.  If it is accepted, every binary's connection leads to the
    agent and has an event channel, its table of open requests is empty, and the
    agent is registered with the stream; over the stream go the acknowledgement
    and then one command for every binary, in order, or none of them if the agent
    has hung up in the meantime.  Emptying the table of open requests does not
    end the calls behind them: those keep waiting for an answer or their time
    limit.  That a failed transaction leaves the memory as it was is the code's
    behaviour; the comment on [register_atomic] describes the opposite order. *)
Theorem registration_all_or_nothing a h ver caps bs session (s : Manager) :
  let '(s', r) := register_atomic a h ver caps bs session s in
  match r with
  | Ok (Rejected reason) => quiet (fun o => exists v, o = OSent session (OutRegisterAck false reason v)) s s'
  | Err _ => quiet nothing s s'
  | Ok Accepted =>
      rt_agents (mg_routing s') !! a = Some (mkAgent h caps bs session) /\
      (forall b, b ∈ bs -> rt_routes (mg_routing s') !! binary_connection h b = Some a /\
         is_Some (rt_channels (mg_routing s') !! binary_connection h b) /\
         rt_requests (mg_routing s') !! binary_connection h b = Some ∅) /\
      exists closed, Forall (fun o => exists c, o = OClosed c) closed /\
        wo_out (mg_world s') = (wo_out (mg_world s) ++ closed ++
          delivered session s (OutRegisterAck true EmptyString (default EmptyString min_version) :: map (command h) bs))%list
  end.
Proof.
  unfold AgentManager.register_atomic. destruct (rejection min_version ver) as [[reason v]|].
  { apply quiet_session. by exists v. }
  pose proof (quiet_new_connections sha256 debug_strings nothing h bs s) as Hq.
  destruct (new_agent_connections sha256 debug_strings h bs s) as [s1 [cs|e]]; cbn in Hq; [|done].
  pose proof (quiet_trans _ _ _ _ Hq (quiet_on_table nothing (conn_save_batch cs) s1)) as Hq2.
  destruct (on_table (conn_save_batch cs) s1) as [s2 [u|e]]; cbn in Hq2; [|done]. cbn -[foldl].
  assert (Ht2 : tells closing s s2) by (apply quiet_tells; eapply quiet_weaken; [|exact Hq2]; by intros o []).
  pose proof (tells_trans _ _ _ _ Ht2 (tells_foldl closing (fun s c => cleanup_stale_connections has_bus c s) cs ltac:(intros; apply cleanup_tells) s2)) as Ht3.
  set (s3 := foldl _ s2 cs) in *.
  pose proof (tells_trans _ _ _ _ Ht3 (tells_foldl closing (install a) (map (binary_connection h) bs) ltac:(intros; apply tells_same, install_world) s3)) as [(closed & Hout & Hcl) Hw].
  pose proof (fun c Hc => install_all_ready a (map (binary_connection h) bs) s3 c (or_introl Hc)) as Hready.
  set (s4 := foldl (install a) s3 _) in *. clearbody s4.
  set (s5 := on_routing _ s4). set (s6 := fst (send_session session _ s5)).
  destruct (send_session_delivers session (OutRegisterAck true EmptyString (default EmptyString min_version)) s5) as (E1 & E2 & E3). fold s6 in E1, E2, E3.
  destruct (announce_all session h bs s6) as [-> ->]. rewrite E1, E3. split_and!.
  - cbn. apply lookup_insert_eq.
  - intros b Hb. apply (Hready (binary_connection h b)). apply list_elem_of_fmap. eauto.
  - exists closed. split; [done|]. change (wo_out (mg_world s5)) with (wo_out (mg_world s4)). rewrite Hout, <- !app_assoc. f_equal. f_equal.
    unfold delivered. rewrite E2. change (wo_hung (mg_world s5)) with (wo_hung (mg_world s4)). rewrite Hw. by case_bool_decide.
Qed.
End Guarantees.
