(* ===== verification/RemoteAdapter.v ===== *)
(** * The remote adapter

    [crates/detrix-application/src/services/remote_adapter.rs]: the adapter
    port of a connection that an agent serves.  Metrics are set and removed by
    requests to the agent ([AgentManager]) behind the circuit breaker of
    [AgentBreaker]; a call is split at its wait.  The breaker reads milliseconds,
    the manager's clock counts microseconds. *)

From Stdlib Require Import Strings.String Strings.Ascii Init.Byte.
From stdpp Require Import gmap.
From S2P Require Import Prelude RustStr RustText CoreError Location Language Metric MetricRepo Logpoint Sql Connection ConnectionRepo AdapterMetrics AgentBreaker MetricService Lifecycle ConnectionService AgentManager AgentReach AgentOutcomes.

Local Open Scope string_scope.
Local Open Scope N_scope.
Local Arguments String.append !_ _ / : simpl nomatch.

Record RemoteAdapter : Type := mkRemote {
  ra_connection : string; ra_receiver : option N; ra_circuit : AgentBreaker; ra_confirmed_at : option Z; ra_counter : N
}.

Definition scoped_request_id (connection_id : string) (sequence : N) : string := "req-" ++ connection_id ++ "-" ++ show_N sequence.
(** The connection that such an id names. *)
Definition request_owner (r : string) : string :=
  match strip_prefix "req-" r with
  | Some rest => match rsplit_once "-" rest with Some (c, _) => c | None => EmptyString end
  | None => EmptyString
  end.

Section Remote.
Context {L R : Type}.
Local Abbreviation Manager := (@Manager L R).

Definition set_circuit (b : AgentBreaker) (x : RemoteAdapter) : RemoteAdapter :=
  mkRemote (ra_connection x) (ra_receiver x) b (ra_confirmed_at x) (ra_counter x).
(** [fetch_add] on a 64-bit counter. *)
Definition next_request_id (x : RemoteAdapter) : RemoteAdapter * string :=
  (mkRemote (ra_connection x) (ra_receiver x) (ra_circuit x) (ra_confirmed_at x) (wrap 64 (ra_counter x + 1)),
   scoped_request_id (ra_connection x) (ra_counter x)).

Definition remote_new (now_ms : N) (connection_id : string) (s : Manager) : Manager * RemoteAdapter :=
  let '(s, rx) := take_receiver connection_id s in (s, mkRemote connection_id rx (agent_breaker_new now_ms) None 0).

Definition confirm_alive (x : RemoteAdapter) (s : Manager) : RemoteAdapter * Manager :=
  let s := record_liveness (ra_connection x) s in
  let '(s, t) := tick s in (mkRemote (ra_connection x) (ra_receiver x) (ra_circuit x) (Some t) (ra_counter x), s).

Definition remote_start (x : RemoteAdapter) (s : Manager) : RemoteAdapter * Manager * result unit Error :=
  if agent_routed (ra_connection x) s then (confirm_alive x s, Ok tt)
  else (x, s, Err (Adapter "Agent connection is no longer routed")).
Definition remote_stop (x : RemoteAdapter) (s : Manager) : RemoteAdapter * Manager * result unit Error :=
  (x, fst (send_to_agent (ra_connection x) (OutCloseConnection (ra_connection x)) s), Ok tt).

Definition STALE_THRESHOLD : Z := 60000000.
Definition remote_ensure_connected (now_ms : N) (x : RemoteAdapter) (s : Manager) : RemoteAdapter * Manager * result unit Error :=
  let '(b, is_open) := is_open now_ms (ra_circuit x) in
  let x := set_circuit b x in
  if is_open then (x, s, Err (Adapter "agent circuit open"))
  else if negb (agent_routed (ra_connection x) s) then (x, s, Err (Adapter "agent connection is not routed"))
  else
    let '(s, age) := liveness_age (ra_connection x) s in
    if match age with Some age => (STALE_THRESHOLD <? age)%Z | None => false end
    then (x, s, Err (Adapter "agent connection is stale (no liveness proof)"))
    else (x, s, Ok tt).
Definition remote_is_connected (x : RemoteAdapter) (s : Manager) : bool := negb (peek_open (ra_circuit x)) && agent_routed (ra_connection x) s.

(** [circuit.call] up to the wait of the request that [build] makes of its id. *)
Definition remote_begin (t_begin t_end : N) (build : string -> OutgoingAgentMessage) (x : RemoteAdapter) (s : Manager) : RemoteAdapter * Manager * result N Error :=
  match is_open t_begin (ra_circuit x) with
  | (b, true) => (set_circuit b x, s, Err (Adapter "agent circuit open"))
  | (b, false) =>
      let '(x, r) := next_request_id (set_circuit b x) in
      match begin_request (ra_connection x) (build r) s with
      | (s, Ok n) => (x, s, Ok n)
      | (s, Err e) => (set_circuit (on_result t_end (Err e : result N Error) (ra_circuit x)) x, s, Err e)
      end
  end.
(** The rest of it, from the end of the wait on. *)
Definition remote_finish (t_end : N) (n : N) (x : RemoteAdapter) (s : Manager) : option (RemoteAdapter * Manager * result IncomingAgentMessage Error) :=
  match finish_request n s with
  | None => None
  | Some (s, Ok m) => let '(x, s) := confirm_alive x s in Some (set_circuit (on_success t_end (ra_circuit x)) x, s, Ok m)
  | Some (s, Err e) => Some (set_circuit (on_result t_end (Err e : result IncomingAgentMessage Error) (ra_circuit x)) x, s, Err e)
  end.

Definition set_metric_message (c : string) (m : Metric) (r : string) : OutgoingAgentMessage :=
  OutSetMetric r c (m_name m) (loc_file (m_location m)) (loc_line (m_location m)) (m_expressions m) (m_enabled m) (default 0 (m_id m)).
Definition remove_metric_message (c : string) (m : Metric) (r : string) : OutgoingAgentMessage := OutRemoveMetric r c (m_name m).

Definition set_metric_result (m : Metric) (response : IncomingAgentMessage) : SetMetricResult :=
  match response with
  | InSetMetricAck _ _ _ (Some err) => mkSMR false (loc_line (m_location m)) (Some err)
  | InSetMetricAck _ verified actual_line None => mkSMR verified (default (loc_line (m_location m)) actual_line) None
  | _ => mkSMR false (loc_line (m_location m)) (Some "Unexpected response")
  end.
Definition remove_metric_result (response : IncomingAgentMessage) : RemoveMetricResult :=
  match response with
  | InRemoveMetricAck _ confirmed error => mkRMR confirmed error
  | _ => mkRMR false (Some "Unexpected response")
  end.

Definition begin_set_metric (t_begin t_end : N) (m : Metric) (x : RemoteAdapter) (s : Manager) : RemoteAdapter * Manager * result N Error :=
  remote_begin t_begin t_end (set_metric_message (ra_connection x) m) x s.
Definition finish_set_metric (t_end : N) (m : Metric) (n : N) (x : RemoteAdapter) (s : Manager) : option (RemoteAdapter * Manager * result SetMetricResult Error) :=
  (fun p => (fst p, res_bind (snd p) (fun response => Ok (set_metric_result m response)))) <$> remote_finish t_end n x s.
Definition begin_remove_metric (t_begin t_end : N) (m : Metric) (x : RemoteAdapter) (s : Manager) : RemoteAdapter * Manager * result N Error :=
  remote_begin t_begin t_end (remove_metric_message (ra_connection x) m) x s.
Definition finish_remove_metric (t_end : N) (n : N) (x : RemoteAdapter) (s : Manager) : option (RemoteAdapter * Manager * result RemoveMetricResult Error) :=
  (fun p => (fst p, res_bind (snd p) (fun response => Ok (remove_metric_result response)))) <$> remote_finish t_end n x s.

Definition remote_subscribe_events (x : RemoteAdapter) : RemoteAdapter * result N Error :=
  (mkRemote (ra_connection x) None (ra_circuit x) (ra_confirmed_at x) (ra_counter x),
   match ra_receiver x with Some rx => Ok rx | None => Err (Adapter "Event receiver already consumed") end).
End Remote.

(** ** What the remote adapter guarantees

    The ids of its requests name their connection, so the guarantees of
    [AgentOutcomes] hold for it, and a metric it sets is set by the agent:
    request, answer and result fit together.  [Program] runs the manager and
    the adapter on concrete agents: it shows that the hypotheses can hold, and
    the defects of the code. *)

Lemma digit_no_dash s : str_forall is_ascii_digit s = true -> str_forall (fun a => negb (Ascii.eqb a "-")) s = true.
Proof.
  induction s as [|a s IH]; [done|]. cbn. intros [Ha Hs]%andb_true_iff. apply andb_true_iff. split; [|by apply IH].
  destruct (Ascii.eqb a "-") eqn:He; [|done]. apply Ascii.eqb_eq in He. by subst.
Qed.
Lemma request_owner_scoped c n : request_owner (scoped_request_id c n) = c.
Proof.
  unfold request_owner, scoped_request_id. assert (strip_prefix "req-" ("req-" ++ c ++ "-" ++ show_N n) = Some (c ++ "-" ++ show_N n)) as -> by done.
  change ("-" ++ show_N n) with (String "-" (show_N n)). rewrite rsplit_once_last; [done|]. apply digit_no_dash, show_N_digits.
Qed.
Lemma scoped_request_id_inj c n c' n' : scoped_request_id c n = scoped_request_id c' n' -> c = c' /\ n = n'.
Proof.
  intros He. assert (c = c') as ->. { rewrite <- (request_owner_scoped c n), He. apply request_owner_scoped. }
  split; [done|]. unfold scoped_request_id in He. apply (inj (String.append "req-")) in He. apply (inj (String.append c')) in He.
  apply (inj (String.append "-")) in He. by apply show_N_inj.
Qed.

Local Arguments scoped_request_id : simpl never.

Section Completes.
Context `{Engine} {L E R : Type} `{AdapterLifecycle L E} `{ConnectionMetrics R}.
Context (sha256 : list byte -> list byte) (debug_strings : list string -> string).
Context (min_version : option string) (has_bus : bool) (rust_ebpf_enabled : bool) (debug_info_path : string).

Local Abbreviation Manager := (@Manager L R).
Local Abbreviation dispatch := (dispatch sha256 debug_strings has_bus debug_info_path).
Local Abbreviation after := (after sha256 debug_strings min_version has_bus rust_ebpf_enabled debug_info_path).

(** The answer of the serving agent ends the wait of the caller. *)
Lemma answer_reaches_caller e a session m n c r (s : Manager) : consistent s ->
  co_calls (mg_corr s) !! n = Some (mkCallOf c r CWaiting) -> rt_routes (mg_routing s) !! c = Some a -> is_current a session (mg_routing s) = true ->
  incoming_request_id m = Some r -> handle_message sha256 debug_strings has_bus debug_info_path e a m s = resolve_pending r m s ->
  exists s', finish_request n (dispatch e a session m s) = Some (s', Ok m) /\
    co_calls (mg_corr s') !! n = None /\ co_pending (mg_corr s') !! r = None /\ r ∉ default ∅ (rt_requests (mg_routing s') !! c).
Proof.
  intros Hg Hc Hr Hcur Hm Hres. destruct (waiting_filed s n _ Hg Hc eq_refl) as [Hp Hq]. cbn in Hp, Hq.
  assert (Had : admitted a session m s = true).
  { unfold admitted. rewrite Hcur, Hm, Hq. unfold owns_connection. rewrite (bool_decide_eq_true_2 _ Hr).
    destruct m; cbn in *; congruence. }
  unfold AgentManager.dispatch. rewrite Had, Hres.
  assert (Hc' : co_calls (mg_corr (resolve_pending r m s)) !! n = Some (mkCallOf c r (CAnswered m))).
  { rewrite resolve_calls. unfold take_pending. rewrite Hp. cbn. by rewrite lookup_alter_eq, Hc. }
  unfold finish_request. rewrite Hc'. cbn [cl_connection cl_request cl_state call_result]. eexists. split; [done|]. cbn. split_and!.
  - apply lookup_delete_eq.
  - apply take_pending_none.
  - rewrite lookup_alter_eq. destruct (rt_requests _ !! c); cbn; set_solver.
Qed.

Lemma send_ok c a info m (s : Manager) : rt_routes (mg_routing s) !! c = Some a -> rt_agents (mg_routing s) !! a = Some info ->
  ai_session info ∉ wo_hung (mg_world s) -> send_to_agent c m s = (emit (OSent (ai_session info) m) s, Ok tt).
Proof. intros Hr Ha Hn. unfold send_to_agent. rewrite Hr. cbn. rewrite Ha. unfold send_session. by rewrite bool_decide_eq_false_2. Qed.

(** C16: setting a metric through an agent.  If the breaker is closed and the
    connection has an agent with an open stream, exactly one command goes out,
    over that stream, and the call waits.  However the history goes on, as long
    as the call still waits and its connection has an agent, the answer of that
    agent over its current stream ends the call: the caller gets what the agent
    says of the metric, and nothing of the request is left in the tables. *)
Theorem remote_set_metric_completes t t' t3 m x a info (s : Manager) : consistent s ->
  rt_routes (mg_routing s) !! ra_connection x = Some a -> rt_agents (mg_routing s) !! a = Some info -> ai_session info ∉ wo_hung (mg_world s) ->
  snd (is_open t (ra_circuit x)) = false ->
  let c := ra_connection x in let r := scoped_request_id c (ra_counter x) in
  exists x1 s1 n, begin_set_metric t t' m x s = (x1, s1, Ok n) /\
    wo_out (mg_world s1) = (wo_out (mg_world s) ++ [OSent (ai_session info) (set_metric_message c m r)])%list /\
    co_calls (mg_corr s1) !! n = Some (mkCallOf c r CWaiting) /\
    forall history e a' session verified line, let s2 := after history s1 in
      co_calls (mg_corr s2) !! n = Some (mkCallOf c r CWaiting) -> rt_routes (mg_routing s2) !! c = Some a' ->
      is_current a' session (mg_routing s2) = true ->
      exists x3 s3, finish_set_metric t3 m n x1 (dispatch e a' session (InSetMetricAck r verified line None) s2) =
          Some (x3, s3, Ok (mkSMR verified (default (loc_line (m_location m)) line) None)) /\
        co_calls (mg_corr s3) !! n = None /\ co_pending (mg_corr s3) !! r = None /\ r ∉ default ∅ (rt_requests (mg_routing s3) !! c).
Proof.
  intros Hg Hr Ha Hn Hopen c r. unfold begin_set_metric, remote_begin. destruct (is_open t (ra_circuit x)) as [b o]. cbn in Hopen. subst o.
  cbn -[begin_request begin_request]. rewrite begin_request_eq. cbn [extract_request_id set_metric_message].
  destruct (put_call_consistent c r s Hg) as [Hg1 Hc1].
  rewrite (send_ok _ a info) by done. eexists _, _, _. split_and!; [done|done|exact Hc1|].
  intros history e a' session verified line Hc2 Hr2 Hcur. set (s2 := after history _) in *.
  assert (Hg2 : consistent s2) by (apply after_consistent; eapply quiet_consistent; [by apply (quiet_emit (fun _ => True))|done]).
  destruct (answer_reaches_caller e a' session (InSetMetricAck r verified line None) _ c r s2 Hg2 Hc2 Hr2 Hcur eq_refl eq_refl) as (s3 & Hfin & Hcs & Hps & Hrs).
  unfold finish_set_metric, remote_finish. rewrite Hfin. cbn. eexists _, _. split; [done|]. split_and!; [exact Hcs|exact Hps|exact Hrs].
Qed.
End Completes.

(** ** Concrete agents *)
Module Program.

#[local] Existing Instance insertion_order.
(** A lifecycle manager that refuses every start. *)
#[local] Instance no_lifecycle : AdapterLifecycle unit unit := {|
  lc_has := fun _ _ => false; lc_stop := fun _ l => l; lc_start := fun _ _ l => (l, Err (Adapter "no debugger")); lc_abandon := fun _ _ l => l
|}.

Definition digest (bytes : list byte) : list byte := bytes.
Definition shown (l : list string) : string := EmptyString.
Abbreviation run := (after (E := unit) (L := unit) (R := Table) digest shown None true false EmptyString).
Abbreviation one := (move (E := unit) (L := unit) (R := Table) digest shown None true false EmptyString).
Abbreviation tell := (dispatch (E := unit) (L := unit) (R := Table) digest shown true EmptyString tt).
Abbreviation start := (manager_new (L := unit) (mkDb empty_store []) empty_table (Some tt) Z.of_nat).

Definition plain_caps : AgentCapabilities := mkCaps true false true false [] [] 0.
Definition binary (path : string) (pid : N) : AgentBinaryInfo := mkBinary path pid 7 EmptyString true [] Go.
Definition connection (host path : string) : string := binary_connection digest host (binary path 1).
Definition register (agent host : string) (bs : list AgentBinaryInfo) (session : N) : @Move unit := MRegister agent host "1.0.0" plain_caps bs session.
Definition read_file (c : string) (n : N) : @Move unit := MBegin c (OutReadFile (scoped_request_id c n) c "/etc/app.conf").

(** Two agents, each with a connection, and a request to the first. *)
Definition two_agents : list (@Move unit) :=
  [register "a" "h" [binary "/x" 1] 1; register "b" "i" [binary "/y" 1] 2; read_file (connection "h" "/x") 0].

Lemma two_agents_scoped : Forall (scoped request_owner) two_agents.
Proof. repeat constructor. cbn. intros r [= <-]. apply request_owner_scoped. Qed.

Lemma two_agents_wait : exists n, co_calls (mg_corr (run two_agents start)) !! n =
  Some (mkCallOf (connection "h" "/x") (scoped_request_id (connection "h" "/x") 0) CWaiting).
Proof. exists 2. by vm_compute. Qed.

Lemma requests_settled_by_their_agent_witness : exists n call v, co_calls (mg_corr (run two_agents start)) !! n = Some call /\
  lives_on v (run two_agents start) n call (co_calls (mg_corr (one v (run two_agents start))) !! n).
Proof.
  destruct two_agents_wait as [n Hn]. eexists n, _, (MUnregister "a" None). split; [exact Hn|].
  apply (requests_settled_by_their_agent digest shown None true false EmptyString (mkDb empty_store []) empty_table (Some tt) Z.of_nat two_agents). exact Hn.
Defined.

Lemma agents_keep_to_their_own_witness : rt_routes (mg_routing (run two_agents start)) !! connection "i" "/y" = Some "b" /\
  untouched (connection "i" "/y") "a" (run two_agents start) (tell "a" 1 (InRegisterUpdate []) (run two_agents start)).
Proof.
  split; [by vm_compute|].
  apply (agents_keep_to_their_own digest shown None true false EmptyString request_owner (mkDb empty_store []) empty_table (Some tt) Z.of_nat two_agents tt "a" 1 (InRegisterUpdate []) (connection "i" "/y") "b");
    [exact two_agents_scoped|by vm_compute|done|].
  intros info bin Hi. assert (info = mkAgent "h" plain_caps [binary "/x" 1] 1) as -> by (vm_compute in Hi; by injection Hi).
  intros [Hin|Hin]; [|destruct (not_elem_of_nil _ Hin)]. unfold ai_binaries in Hin. apply list_elem_of_singleton in Hin as ->. by vm_compute.
Defined.

Lemma leaving_agent_releases_callers_witness : exists n, co_calls (mg_corr (unregister_agent_matching true "a" (Some 1) (run two_agents start))) !! n =
  Some (mkCallOf (connection "h" "/x") (scoped_request_id (connection "h" "/x") 0) (CAnswered connection_removed)).
Proof.
  destruct two_agents_wait as [n Hn]. exists n.
  destruct (leaving_agent_releases_callers digest shown None true false EmptyString request_owner (mkDb empty_store []) empty_table (Some tt) Z.of_nat two_agents "a" 1 two_agents_scoped) as [_ Hl].
  destruct Hl as (_ & _ & Hl & _); [by vm_compute|]. exact (Hl n _ Hn eq_refl ltac:(by vm_compute) ltac:(by vm_compute)).
Defined.

Lemma registration_all_or_nothing_witness : exists s', register_atomic (L := unit) digest shown None true false EmptyString "a" "h" "1.0.0" plain_caps [binary "/x" 1] 1 start = (s', Ok Accepted) /\
  rt_routes (mg_routing s') !! connection "h" "/x" = Some "a".
Proof.
  pose proof (registration_all_or_nothing digest shown None true false EmptyString "a" "h" "1.0.0" plain_caps [binary "/x" 1] 1 start) as Hr.
  destruct (register_atomic digest shown None true false EmptyString "a" "h" "1.0.0" plain_caps [binary "/x" 1] 1 start) as [s' r] eqn:Hreg.
  assert (r = Ok Accepted) as -> by (pose proof (f_equal snd Hreg) as Hs; vm_compute in Hs; by symmetry).
  exists s'. split; [done|]. destruct Hr as (_ & Hr & _). destruct (Hr (binary "/x" 1)) as [Hroute _]; [by left|]. exact Hroute.
Defined.

Definition example_metric : Metric := sample_metric 1 "orders" "order.go" 12 ["n"].
Definition x_of : string := connection "h" "/x".
Definition served : @Manager unit Table := run [register "a" "h" [binary "/x" 1] 1] start.
Definition adapter : RemoteAdapter := snd (remote_new 0 x_of served).

Lemma served_ok : consistent served /\ rt_routes (mg_routing served) !! x_of = Some "a" /\ rt_agents (mg_routing served) !! "a" = Some (mkAgent "h" plain_caps [binary "/x" 1] 1).
Proof. split; [apply after_consistent, new_consistent|by vm_compute]. Qed.

Lemma remote_set_metric_completes_witness : exists x1 s1 n, begin_set_metric 0 0 example_metric adapter served = (x1, s1, Ok n) /\
  co_calls (mg_corr s1) !! n = Some (mkCallOf x_of (scoped_request_id x_of 0) CWaiting).
Proof.
  destruct served_ok as (Hg & Hr & Ha).
  destruct (remote_set_metric_completes (E := unit) digest shown None true false EmptyString 0 0 0 example_metric adapter "a" _ served Hg Hr Ha) as (x1 & s1 & n & Hb & _ & Hc & _);
    [by vm_compute..|]. exists x1, s1, n. split; [exact Hb|exact Hc].
Defined.

(** ** Defects *)

(** A second agent on the host takes over a connection; when the scanner of
    the first no longer reports the binary, the connection is torn down
    although the second agent serves it. *)
Theorem removal_ignores_new_server :
  let s := run [register "a" "h" [binary "/x" 1] 1; register "b" "h" [binary "/x" 1] 2] start in
  rt_routes (mg_routing s) !! x_of = Some "b" /\
  rt_routes (mg_routing (tell "a" 1 (InRegisterUpdate []) s)) !! x_of = None.
Proof. by vm_compute. Qed.

(** Registering anew empties the list of open requests: when the agent leaves
    afterwards, the caller is not released. *)
Theorem reconnecting_agent_forgets_requests :
  let s := run [register "a" "h" [binary "/x" 1] 1; read_file x_of 0; register "a" "h" [binary "/x" 1] 3; MUnregister "a" (Some 3)] start in
  rt_agents (mg_routing s) !! "a" = None /\
  co_calls (mg_corr s) !! 1 = Some (mkCallOf x_of (scoped_request_id x_of 0) CWaiting).
Proof. by vm_compute. Qed.

(** An agent that comes back without a binary keeps the route of the binary's
    connection: the end of the old stream is ignored. *)
Theorem reconnection_keeps_old_routes :
  let s := run [register "a" "h" [binary "/x" 1] 1; register "a" "h" [] 3; MUnregister "a" (Some 1)] start in
  rt_routes (mg_routing s) !! x_of = Some "a" /\ ai_binaries <$> rt_agents (mg_routing s) !! "a" = Some [].
Proof. by vm_compute. Qed.

(** Two processes of one binary share a connection; when one of them ends, the
    connection of the other is gone. *)
Theorem second_process_is_cut_off :
  let s := tell "a" 1 (InRegisterUpdate [binary "/x" 2]) (run [register "a" "h" [binary "/x" 1; binary "/x" 2] 1] start) in
  rt_routes (mg_routing s) !! x_of = None /\ ai_binaries <$> rt_agents (mg_routing s) !! "a" = Some [binary "/x" 2].
Proof. by vm_compute. Qed.

(** The notice that a connection was removed counts as an answer of the agent:
    the caller is told that the metric is not verified, not that it failed, and
    the removed connection gets a new proof of life. *)
Theorem removed_connection_counts_as_alive :
  match begin_set_metric 0 0 example_metric adapter served with
  | (x1, s1, Ok n) =>
      match finish_set_metric 0 example_metric n x1 (one (MUnregister "a" None) s1) with
      | Some (x2, s2, r) => r = Ok (mkSMR false 12 (Some "Unexpected response")) /\
          rt_routes (mg_routing s2) !! x_of = None /\ is_Some (rt_liveness (mg_routing s2) !! x_of)
      | None => False
      end
  | _ => False
  end.
Proof. vm_compute. split_and!; [done|done|]. by eexists. Qed.

(** A new adapter of a connection counts its requests from 0 again: its first
    request takes over the id of one that still waits, whose caller is told
    that the agent has disconnected. *)
Theorem restarted_adapter_reuses_ids :
  match begin_set_metric 0 0 example_metric adapter served with
  | (x1, s1, Ok n) =>
      let '(s2, fresh) := remote_new 0 x_of s1 in
      match begin_set_metric 0 0 example_metric fresh s2 with
      | (_, s3, Ok _) => snd <$> finish_set_metric 0 example_metric n x1 s3 = Some (Err (Adapter "Agent disconnected while waiting for response")) /\
          rt_routes (mg_routing s3) !! x_of = Some "a"
      | _ => False
      end
  | _ => False
  end.
Proof. by vm_compute. Qed.
End Program.
