(* ===== verification/AgentWire.v ===== *)
(** * The messages between agents and the server

    [crates/detrix-api/src/generated/detrix.v1.rs] (the messages),
    [crates/detrix-api/src/grpc/agent.rs] (the server's end of an agent's stream)
    and [crates/detrix-agent/src/proto_convert.rs] (the agent's conversions).
    The JSON of expression values is that of [EventJson].  A message that the
    server reads is dispatched by a task of its own; the order in which the
    tasks of a stream run is the history's. *)

From Stdlib Require Import Strings.String Strings.Ascii Init.Byte.
From stdpp Require Import gmap.
From S2P Require Import Prelude CoreError RustStr RustText Language Location Event Metric AdapterMetrics MetricRepo Sql EventRepo Connection ConnectionRepo Lifecycle MetricService ConnectionService AgentBreaker AgentManager RemoteAdapter.

Local Open Scope string_scope.
Local Open Scope N_scope.
Local Arguments String.append !_ _ / : simpl nomatch.

(** ** Messages *)

Record BinaryInfo : Type := mkBin {
  pb_path : string; pb_pid : N; pb_build_info : string; pb_has_dwarf : bool; pb_functions : list string; pb_inode : N; pb_language : string
}.
#[export] Instance BinaryInfo_eq_dec : EqDecision BinaryInfo.
Proof. solve_decision. Defined.

Record RegisterAgent : Type := mkRegister {
  rg_agent_id : string; rg_hostname : string; rg_agent_version : string; rg_capabilities : option AgentCapabilities; rg_binaries : list BinaryInfo
}.

(** The values of the enumeration [ConnectionStatus]. *)
Inductive WireStatus : Type := WUnspecified | WDisconnected | WConnecting | WConnected | WFailed.
Definition wire_status (s : WireStatus) : Z :=
  match s with WUnspecified => 0 | WDisconnected => 1 | WConnecting => 2 | WConnected => 3 | WFailed => 4 end.

Record AgentConnectionUpdate : Type := mkCU {
  cu_connection_id : string; cu_status : Z; cu_error_message : string; cu_selected_backend : string; cu_capture_profile : string;
  cu_backend_reason : string; cu_debug_image_source : string; cu_failure_class : string; cu_schemas : list N; cu_profiles : list string;
  cu_max_payload : N; cu_architecture : string
}.
(** [status()]: a number that names no status is the default. *)
Definition cu_wire_status (u : AgentConnectionUpdate) : WireStatus :=
  match cu_status u with 1 => WDisconnected | 2 => WConnecting | 3 => WConnected | 4 => WFailed | _ => WUnspecified end%Z.

Record SerializedMetricEvent : Type := mkSE {
  se_metric_id : N; se_metric_name : string; se_timestamp_ns : Z; se_thread_name : string; se_thread_id : Z; se_values_json : string;
  se_is_error : bool; se_error_message : string
}.
Record MetricEventBatch : Type := mkEB { eb_connection_id : string; eb_events : list SerializedMetricEvent }.
Record Heartbeat : Type := mkHB {
  hb_cpu_usage : N; hb_memory_bytes : N; hb_active_probes : N; hb_uptime_seconds : N; hb_events_forwarded : N; hb_events_dropped : N
}.
Record FileResponse : Type := mkFR { fr_request_id : string; fr_path : string; fr_content : list byte; fr_error : string }.
Record InspectResponse : Type := mkIR { ir_request_id : string; ir_variables : list VariableInfo; ir_error : string }.
Record DropCountUpdate : Type := mkDC {
  dc_connection_id : string; dc_total : N; dc_kernel : N; dc_decode : N; dc_unavailable : N; dc_decoded : N
}.
Record SetMetricAck : Type := mkSA { sa_request_id : string; sa_verified : bool; sa_actual_line : N; sa_message : string; sa_error : string }.
Record RemoveMetricAck : Type := mkRAck { rk_request_id : string; rk_confirmed : bool; rk_error : string }.

Inductive AgentMsg : Type :=
| AmRegister (r : RegisterAgent)
| AmConnectionUpdate (u : AgentConnectionUpdate)
| AmEvents (b : MetricEventBatch)
| AmHeartbeat (h : Heartbeat)
| AmFileResponse (f : FileResponse)
| AmInspectResponse (i : InspectResponse)
| AmDropCount (d : DropCountUpdate)
| AmSetMetricAck (a : SetMetricAck)
| AmRemoveMetricAck (a : RemoveMetricAck)
| AmPong
| AmError (code message : string).
(** An [AgentMessage] may hold nothing, as may a [ServerMessage]. *)
Definition AgentMessage : Type := option AgentMsg.

Record SetMetric : Type := mkSetMetric {
  sm_request_id : string; sm_connection_id : string; sm_metric_name : string; sm_file : string; sm_line : N; sm_expressions : list string;
  sm_enabled : bool; sm_metric_id : N
}.
Record RemoveMetric : Type := mkRemoveMetric { rm_request_id : string; rm_connection_id : string; rm_metric_name : string }.
Record ReadFile : Type := mkReadFile { rf_request_id : string; rf_connection_id : string; rf_path : string }.
Record InspectFile : Type := mkInspectFile {
  if_request_id : string; if_connection_id : string; if_file : string; if_line : N; if_find_variable : string
}.
(** [AgentCreateConnection] has the fields of [Creation]. *)
Inductive ServerMsg : Type :=
| SmRegisterAck (accepted : bool) (rejection_reason min_compatible_version : string)
| SmCreateConnection (c : Creation)
| SmCloseConnection (connection_id : string)
| SmSetMetric (m : SetMetric)
| SmRemoveMetric (m : RemoveMetric)
| SmReadFile (f : ReadFile)
| SmInspectFile (f : InspectFile)
| SmPing.

Definition server_request_id (m : ServerMsg) : option string :=
  match m with
  | SmSetMetric m => Some (sm_request_id m)
  | SmRemoveMetric m => Some (rm_request_id m)
  | SmReadFile f => Some (rf_request_id f)
  | SmInspectFile f => Some (if_request_id f)
  | _ => None
  end.
Definition answer_request_id (m : AgentMsg) : option string :=
  match m with
  | AmSetMetricAck a => Some (sa_request_id a)
  | AmRemoveMetricAck a => Some (rk_request_id a)
  | AmFileResponse f => Some (fr_request_id f)
  | AmInspectResponse i => Some (ir_request_id i)
  | _ => None
  end.

(** ** The agent's conversions *)

(** Wrapping multiplication of signed 64-bit integers. *)
Definition i64_mul (a b : Z) : Z := to_signed 64 (of_signed 64 (a * b)).

Definition set_metric_of_proto (m : SetMetric) (l : SourceLanguage) : Metric :=
  mkMetric (Some (sm_metric_id m)) (sm_metric_name m) (sm_connection_id m) None (mkLocation (sm_file m) (sm_line m)) (sm_expressions m) l
    (sm_enabled m) Stream None Strict None None None false None None false None None None Unanchored.

Definition MAX_VALUES_JSON : N := 65536.
Definition quoted (s : string) : string := String "034" (s ++ String "034" EmptyString).
Definition truncate_values_json (values_json : string) : string :=
  if MAX_VALUES_JSON <? str_len values_json
  then "{" ++ quoted "_truncated" ++ ":true," ++ quoted "_size_bytes" ++ ":" ++ show_N (str_len values_json) ++ "}"
  else values_json.

Section Json.
Context `{EventJson}.

Definition metric_event_to_proto (e : MetricEvent) : SerializedMetricEvent :=
  mkSE (e_metric_id e) (e_metric_name e) (i64_mul (e_timestamp e) 1000) (default EmptyString (e_thread_name e)) (default 0%Z (e_thread_id e))
    (match values_to_json (e_values e) with Ok s => s | Err _ => EmptyString end) (e_is_error e) (default EmptyString (e_error_message e)).

(** ** The server's conversions *)

Definition none_if_empty (s : string) : option string := if str_is_empty s then None else Some s.

Definition proto_event (connection_id : string) (se : SerializedMetricEvent) : MetricEvent :=
  mkEvent None (se_metric_id se) (se_metric_name se) connection_id (Z.quot (se_timestamp_ns se) 1000) (none_if_empty (se_thread_name se))
    (if (se_thread_id se =? 0)%Z then None else Some (se_thread_id se))
    (match values_of_json (se_values_json se) with Ok values => values | Err _ => [] end)
    (se_is_error se) None (none_if_empty (se_error_message se)) None None None None.

Definition update_of_proto (u : AgentConnectionUpdate) : Update :=
  mkUpdate (cu_connection_id u)
    (match cu_wire_status u with
     | WConnected => Connected | WDisconnected => Disconnected | WFailed => Failed (cu_error_message u) | _ => Disconnected
     end)
    (none_if_empty (cu_error_message u)) (cu_selected_backend u) (cu_capture_profile u) (cu_backend_reason u) (cu_debug_image_source u)
    (cu_failure_class u) (cu_schemas u) (cu_profiles u) (cu_max_payload u) (cu_architecture u).

Definition binary_with (language : string -> SourceLanguage) (b : BinaryInfo) : AgentBinaryInfo :=
  mkBinary (pb_path b) (pb_pid b) (pb_inode b) (pb_build_info b) (pb_has_dwarf b) (pb_functions b) (language (pb_language b)).
(** The language of a binary at registration, and in a later snapshot. *)
Definition registered_language (l : string) : SourceLanguage := if String.eqb l "rust" then Rust else Go.
Definition updated_language (l : string) : SourceLanguage :=
  if String.eqb l "rust" then Rust else if String.eqb l "python" then Python else Go.

Definition proto_to_domain (m : AgentMessage) : option IncomingAgentMessage :=
  match m with
  | None => None
  | Some m => Some
      match m with
      | AmConnectionUpdate u => InConnectionUpdate (update_of_proto u)
      | AmEvents b => InEventBatch (eb_connection_id b) (map (proto_event (eb_connection_id b)) (eb_events b))
      | AmHeartbeat h => InHeartbeat (hb_cpu_usage h) (hb_memory_bytes h) (hb_active_probes h) (hb_uptime_seconds h)
                           (hb_events_forwarded h) (hb_events_dropped h)
      | AmFileResponse f => InFileResponse (fr_request_id f) (fr_content f) (none_if_empty (fr_error f))
      | AmInspectResponse i => InInspectResponse (ir_request_id i) (ir_variables i) (none_if_empty (ir_error i))
      | AmDropCount d => InDropCount (dc_connection_id d) (dc_total d) (dc_kernel d) (dc_decode d) (dc_unavailable d) (dc_decoded d)
      | AmSetMetricAck a => InSetMetricAck (sa_request_id a) (sa_verified a) (if sa_actual_line a =? 0 then None else Some (sa_actual_line a))
                              (none_if_empty (sa_error a))
      | AmRemoveMetricAck a => InRemoveMetricAck (rk_request_id a) (rk_confirmed a) (none_if_empty (rk_error a))
      | AmPong => InPong
      | AmError code message => InError code message
      | AmRegister r => InRegisterUpdate (map (binary_with updated_language) (rg_binaries r))
      end
  end.

Definition domain_to_proto (m : OutgoingAgentMessage) : ServerMsg :=
  match m with
  | OutRegisterAck accepted reason version => SmRegisterAck accepted reason version
  | OutCreateConnection c => SmCreateConnection c
  | OutCloseConnection c => SmCloseConnection c
  | OutSetMetric r c name file line expressions enabled id => SmSetMetric (mkSetMetric r c name file line expressions enabled id)
  | OutRemoveMetric r c name => SmRemoveMetric (mkRemoveMetric r c name)
  | OutReadFile r c path => SmReadFile (mkReadFile r c path)
  | OutInspectFile r c file line v => SmInspectFile (mkInspectFile r c file line v)
  | OutPing => SmPing
  end.

(** *** What survives the wire *)

(** The event that arrives: the agent's, without what the message has no field
    for. *)
Definition carried (c : string) (e : MetricEvent) : MetricEvent :=
  mkEvent None (e_metric_id e) (e_metric_name e) c (e_timestamp e) (e_thread_name e) (e_thread_id e) (e_values e) (e_is_error e) None
    (e_error_message e) None None None None.

Lemma none_if_empty_default o : o <> Some EmptyString -> none_if_empty (default EmptyString o) = o.
Proof. destruct o as [[|a s]|]; done. Qed.

Lemma i64_mul_exact a b : (i64_min <= a * b <= i64_max)%Z -> i64_mul a b = (a * b)%Z.
Proof.
  unfold i64_min, i64_max, i64_mul, to_signed, of_signed. intros Hab. set (z := (a * b)%Z) in *. clearbody z.
  change (Z.of_N 64) with 64%Z. change (2 ^ (64 - 1)) with 9223372036854775808.
  destruct (Z.lt_ge_cases z 0).
  - assert (z mod 2 ^ 64 = z + 2 ^ 64)%Z as -> by (symmetry; apply (Z.mod_unique _ _ (-1)); lia).
    destruct (N.ltb_spec (Z.to_N (z + 2 ^ 64)) 9223372036854775808); lia.
  - rewrite Z.mod_small by lia. destruct (N.ltb_spec (Z.to_N z) 9223372036854775808); lia.
Qed.

(** An event sent by an agent arrives as it was, but for the fields the message
    does not have: its stack trace and memory snapshot, its error type and its
    own connection id. *)
Theorem event_over_the_wire (c : string) (e : MetricEvent) (json : string) :
  values_to_json (e_values e) = Ok json -> values_of_json json = Ok (e_values e) -> (str_len json <= MAX_VALUES_JSON) ->
  (i64_min <= e_timestamp e * 1000 <= i64_max)%Z -> e_thread_name e <> Some EmptyString -> e_thread_id e <> Some 0%Z ->
  e_error_message e <> Some EmptyString ->
  let sent := metric_event_to_proto e in
  proto_event c (mkSE (se_metric_id sent) (se_metric_name sent) (se_timestamp_ns sent) (se_thread_name sent) (se_thread_id sent)
    (truncate_values_json (se_values_json sent)) (se_is_error sent) (se_error_message sent)) = carried c e.
Proof.
  intros Hto Hof Hlen Ht Hn Hid He. unfold metric_event_to_proto, proto_event, carried. cbn -[Z.quot i64_mul]. rewrite Hto.
  unfold truncate_values_json. destruct (N.ltb_spec MAX_VALUES_JSON (str_len json)); [lia|].
  rewrite Hof, i64_mul_exact, Z.quot_mul, !none_if_empty_default by done. f_equal.
  destruct (e_thread_id e) as [z|]; [|done]. cbn. destruct (Z.eqb_spec z 0); congruence.
Qed.
End Json.

(** ** The server's end of a stream *)

Inductive Status : Type := InvalidArgument (message : string) | Internal (message : string) | Transport (message : string).

Definition proto_capabilities (c : option AgentCapabilities) : AgentCapabilities :=
  match c with Some c => c | None => mkCaps false false false false [] [] 0 end.

Section Stream.
Context `{Engine} `{EventJson} {L E R : Type} `{AdapterLifecycle L E} `{ConnectionMetrics R}.
Context (sha256 : list byte -> list byte) (debug_strings : list string -> string) (display : Error -> string).
Context (min_version : option string) (has_bus : bool) (rust_ebpf_enabled : bool) (debug_info_path : string).
Local Abbreviation Manager := (@Manager L R).
Local Abbreviation register_atomic := (@register_atomic _ L R _ sha256 debug_strings min_version has_bus rust_ebpf_enabled debug_info_path).
Local Abbreviation dispatch := (dispatch sha256 debug_strings has_bus debug_info_path).
Local Abbreviation after := (after sha256 debug_strings min_version has_bus rust_ebpf_enabled debug_info_path).
Local Abbreviation unregister := (unregister_agent_matching (L := L) (R := R) has_bus).

(** [connect_agent] up to the reading loop; [session] is the stream's outgoing
    channel, [first] what reading the first message gives.  The result is the
    registration, or the status the call ends with. *)
Definition connect_agent (session : N) (first : result (option AgentMessage) Status) (s : Manager) : Manager * result RegisterResult Status :=
  match first with
  | Err status => (s, Err status)
  | Ok (Some (Some (AmRegister r))) =>
      let '(s, x) := register_atomic (rg_agent_id r) (rg_hostname r) (rg_agent_version r) (proto_capabilities (rg_capabilities r))
                       (map (binary_with registered_language) (rg_binaries r)) session s in
      (s, match x with Ok y => Ok y | Err e => Err (Internal ("registration failed: " ++ display e)) end)
  | Ok _ => (s, Err (InvalidArgument "first message must be RegisterAgent"))
  end.

(** A round of the reading loop, and whether there is another. *)
Definition incoming_step (e : E) (agent_id : string) (session : N) (next : result (option AgentMessage) Status) (s : Manager) : Manager * bool :=
  match next with
  | Ok (Some msg) => (match proto_to_domain msg with Some m => dispatch e agent_id session m s | None => s end, true)
  | Ok None | Err _ => (unregister agent_id (Some session) s, false)
  end.

(** What is left to read of a stream. *)
Fixpoint incoming_loop (e : E) (agent_id : string) (session : N) (stream : list (result (option AgentMessage) Status)) (s : Manager) : Manager * bool :=
  match stream with
  | [] => (s, true)
  | next :: stream =>
      let '(s, more) := incoming_step e agent_id session next s in
      if more then incoming_loop e agent_id session stream s else (s, false)
  end.

Lemma after_app h1 h2 s : after (h1 ++ h2)%list s = after h2 (after h1 s).
Proof. apply foldl_app. Qed.

(** Whatever arrives on a stream, its handling is a history of the manager, so
    what holds of histories holds of it; a stream that ends, cleanly or not, has
    unregistered its agent if the agent has no newer stream. *)
Theorem stream_is_history (e : E) (agent_id : string) (session : N) (stream : list (result (option AgentMessage) Status)) (s : Manager) :
  exists history, fst (incoming_loop e agent_id session stream s) = after history s /\
    (snd (incoming_loop e agent_id session stream s) = false -> exists before, history = (before ++ [MUnregister agent_id (Some session)])%list) /\
    Forall (fun v => match v with MDispatch _ a n _ => a = agent_id /\ n = session | MUnregister a n => a = agent_id /\ n = Some session | _ => False end) history.
Proof.
  revert s. induction stream as [|next stream IH]; intros s; cbn [incoming_loop]; [by exists []|].
  unfold incoming_step. destruct next as [[msg|]|status].
  - destruct (proto_to_domain msg) as [m|]; [|apply IH].
    destruct (IH (dispatch e agent_id session m s)) as (h & Hs & Hend & Hall). exists (MDispatch e agent_id session m :: h). split_and!.
    + by rewrite Hs.
    + intros Hf. destruct (Hend Hf) as [before ->]. by exists (MDispatch e agent_id session m :: before).
    + by constructor.
  - exists [MUnregister agent_id (Some session)]. split_and!; [done|by exists []|by repeat constructor].
  - exists [MUnregister agent_id (Some session)]. split_and!; [done|by exists []|by repeat constructor].
Qed.
End Stream.

(** A binary announced as Python is a Go binary at registration and a Python
    binary in the next snapshot. *)
Theorem registration_forgets_python (b : BinaryInfo) : pb_language b = "python" ->
  bi_language (binary_with registered_language b) = Go /\ bi_language (binary_with updated_language b) = Python.
Proof. intros Hb. cbn. by rewrite Hb. Qed.

(** Values of more than 64 KB are replaced by an object, which the server does
    not read as a list: the event arrives without values. *)
Theorem oversized_values_are_lost `{EventJson} (c : string) (e : MetricEvent) (json : string) :
  values_to_json (e_values e) = Ok json -> (MAX_VALUES_JSON < str_len json) ->
  (forall n, exists err, values_of_json ("{" ++ quoted "_truncated" ++ ":true," ++ quoted "_size_bytes" ++ ":" ++ show_N n ++ "}") = Err err) ->
  e_values (proto_event c (mkSE (e_metric_id e) (e_metric_name e) 0 EmptyString 0
    (truncate_values_json (se_values_json (metric_event_to_proto e))) (e_is_error e) EmptyString)) = [].
Proof.
  intros Hto Hlen Hno. unfold metric_event_to_proto, proto_event, truncate_values_json. cbn [se_values_json e_values]. rewrite Hto.
  destruct (N.ltb_spec MAX_VALUES_JSON (str_len json)); [|lia]. destruct (Hno (str_len json)) as [err ->]. done.
Qed.
