(* ===== verification/AgentAdapters.v ===== *)
(** * The agent

    [crates/detrix-agent/src/adapter_manager.rs], the session and the reconnection
    of [crates/detrix-agent/src/agent.rs], the snapshots of
    [crates/detrix-agent/src/scanner.rs]: the agent makes adapters for the
    connections the server announces, sets and removes metrics in them, forwards
    their events in batches and answers requests.

    Adapters, drop counters, forwarding tasks and other tasks have numbers:
    tables and tasks share them.  A task is cut at the points where it waits, for
    an adapter to stop, to start or to subscribe; what the adapter's call does
    is done when it is made, its result is used when the task goes on.  A message
    of the server is read when the reader is free; creating and closing are tasks
    of their own, except that the creations announced with the registration run
    one after another before anything else is read.  Adapters change on their own
    between calls ([MvEvolve]).  The adapters are an [AdapterPort]; how they are
    made, and the file system, are arguments. *)

From Stdlib Require Import Strings.String Strings.Ascii Init.Byte.
From stdpp Require Import gmap.
From S2P Require Import Prelude CoreError RustStr RustText Language Location Event Metric AdapterMetrics MetricRepo Sql EventRepo Connection ConnectionRepo Lifecycle MetricService ConnectionService Policy Reconnect AgentBreaker AgentManager RemoteAdapter AgentWire.

Local Open Scope string_scope.
Local Open Scope N_scope.
Local Arguments String.append !_ _ / : simpl nomatch.

(** ** Errors and reconnection *)

Inductive AgentError : Type :=
| ErrConnection (message : string)
| ErrAgentId (message : string)
| ErrRegistrationRejected (reason : string)
| ErrAdapter (connection_id source : string)
| ErrScanner (message : string)
| ErrMetricsServer (message : string)
| ErrProtoConversion (message : string)
| ErrConfig (message : string).
Definition agent_error_display (e : AgentError) : string :=
  match e with
  | ErrConnection s => "gRPC connection failed: " ++ s
  | ErrAgentId s => "Agent ID error: " ++ s
  | ErrRegistrationRejected s => "Registration rejected: " ++ s
  | ErrAdapter c s => "Adapter error for connection " ++ c ++ ": " ++ s
  | ErrScanner s => "Scanner error: " ++ s
  | ErrMetricsServer s => "Metrics server error: " ++ s
  | ErrProtoConversion s => "Protocol conversion error: " ++ s
  | ErrConfig s => "Configuration error: " ++ s
  end.
Definition is_fatal (e : AgentError) : bool := match e with ErrRegistrationRejected _ | ErrConfig _ | ErrAgentId _ => true | _ => false end.

(** The answer to the registration *)
Definition registration_outcome (first : result (option (option ServerMsg)) string) : result unit AgentError :=
  match first with
  | Err e => Err (ErrConnection e)
  | Ok None => Err (ErrConnection "stream closed before RegisterAck")
  | Ok (Some (Some (SmRegisterAck true _ _))) => Ok tt
  | Ok (Some (Some (SmRegisterAck false reason _))) => Err (ErrRegistrationRejected reason)
  | Ok (Some _) => Err (ErrConnection "expected RegisterAck")
  end.

(** The loop of [run] over the ends of its sessions: the waits between them, and
    the error it returns if it does. *)
Fixpoint reconnect_waits (initial max : N) (wait : N) (ends : list (result unit AgentError)) : list N * option AgentError :=
  match ends with
  | [] => ([], None)
  | e :: ends =>
      let go wait := let '(waits, stop) := reconnect_waits initial max (N.min (wrap 64 (wait * 2)) max) ends in (wait :: waits, stop) in
      match e with
      | Ok _ => go initial
      | Err e => if is_fatal e then ([], Some e) else go wait
      end
  end.

(** The waits between sessions stay within the configured bounds, double while
    sessions are lost, and a fatal error ends the agent at once. *)
Theorem reconnection_backs_off (initial max : N) (ends : list (result unit AgentError)) :
  let '(waits, stop) := reconnect_waits initial max initial ends in
  Forall (fun w => w <= N.max initial max) waits /\
  match stop with Some e => is_fatal e = true /\ Err e ∈ ends | None => length waits = length ends end.
Proof.
  assert (forall wait, wait <= N.max initial max -> let '(waits, stop) := reconnect_waits initial max wait ends in
    Forall (fun w => w <= N.max initial max) waits /\
    match stop with Some e => is_fatal e = true /\ Err e ∈ ends | None => length waits = length ends end) as Hgo; [|apply Hgo; lia].
  induction ends as [|e ends IH]; intros wait Hw; cbn [reconnect_waits]; [by split|].
  assert (forall w, w <= N.max initial max -> let '(waits, stop) :=
      (let '(waits, stop) := reconnect_waits initial max (N.min (wrap 64 (w * 2)) max) ends in (w :: waits, stop)) in
    Forall (fun w => w <= N.max initial max) waits /\
    match stop with Some e0 => is_fatal e0 = true /\ Err e0 ∈ e :: ends | None => length waits = length (e :: ends) end) as Hnext.
  { intros w Hle. specialize (IH (N.min (wrap 64 (w * 2)) max)). destruct (reconnect_waits _ _ _ ends) as [waits stop]. destruct IH as [H1 H2]; [lia|].
    split; [by constructor|]. destruct stop; [destruct H2; split; [done|by right]|cbn; congruence]. }
  destruct e as [[]|e]; [apply Hnext; lia|]. destruct (is_fatal e) eqn:Ef; [split; [done|]; split; [done|left]|by apply Hnext].
Qed.

(** ** Scanning *)

Record ProcScanner : Type := mkScanner { ps_known : gmap (N * N) BinaryInfo; ps_registered_at : option N }.
Definition MIN_REREGISTER_SECS : N := 300.
Definition binary_key (b : BinaryInfo) : N * N := (pb_pid b, pb_inode b).
Definition snapshot (l : list BinaryInfo) : gmap (N * N) BinaryInfo := foldl (fun m b => <[binary_key b := b]> m) ∅ l.

(** [binaries] is what the scan of [/proc] finds; times are seconds. *)
Definition scan_full (now : N) (binaries : list BinaryInfo) (p : ProcScanner) : ProcScanner * list BinaryInfo :=
  (mkScanner (snapshot binaries) (Some now), binaries).

Definition removal_detected (known now_known : gmap (N * N) BinaryInfo) : bool :=
  existsb (fun q => match now_known !! fst q with None => true | Some _ => false end) (map_to_list known).
Definition cooling_down (now : N) (p : ProcScanner) : bool :=
  match ps_registered_at p with Some t => now - t <? MIN_REREGISTER_SECS | None => false end.
Definition scan_delta_from (now : N) (binaries : list BinaryInfo) (p : ProcScanner) : ProcScanner * option (list BinaryInfo) :=
  let new_known := snapshot binaries in
  let removal := removal_detected (ps_known p) new_known in
  if cooling_down now p && negb removal then (p, None)
  else
    let changed := negb (size new_known =? size (ps_known p))%nat
                   || existsb (fun q => negb (bool_decide (ps_known p !! fst q = Some (snd q)))) (map_to_list new_known) in
    if changed then (mkScanner new_known (if removal then None else Some now), Some binaries)
    else (mkScanner new_known (ps_registered_at p), None).

Lemma unchanged_equal (known now_known : gmap (N * N) BinaryInfo) :
  negb (size now_known =? size known)%nat || existsb (fun q => negb (bool_decide (known !! fst q = Some (snd q)))) (map_to_list now_known) = false ->
  now_known = known.
Proof.
  intros [Hs He]%orb_false_iff. apply negb_false_iff, Nat.eqb_eq in Hs. apply map_subseteq_size_eq; [|lia]. apply map_subseteq_spec. intros k b Hb.
  destruct (decide (known !! k = Some b)) as [|Hne]; [done|]. exfalso. assert (existsb (fun q => negb (bool_decide (known !! fst q = Some (snd q)))) (map_to_list now_known) = true) as Ht.
  { apply List.existsb_exists. exists (k, b). split; [by apply list_elem_of_In, elem_of_map_to_list|]. cbn. by rewrite bool_decide_eq_false_2. }
  congruence.
Qed.
Lemma removal_detected_spec (known now_known : gmap (N * N) BinaryInfo) :
  removal_detected known now_known = true <-> exists k, is_Some (known !! k) /\ now_known !! k = None.
Proof.
  unfold removal_detected. rewrite List.existsb_exists. split.
  - intros ([k b] & Hin & Hn). apply list_elem_of_In, elem_of_map_to_list in Hin. exists k. split; [by eexists|]. cbn in Hn. by destruct (now_known !! k).
  - intros (k & [b Hb] & Hn). exists (k, b). split; [by apply list_elem_of_In, elem_of_map_to_list|]. cbn. by rewrite Hn.
Qed.

(** What the scanner knows is what the server was told.  A scan reports the whole
    list when it differs from what was last told, except that for five minutes
    after a report mere additions wait; a process that has gone is reported at
    once, and then additions do not wait. *)
Theorem scanner_tells_the_server (now : N) (binaries : list BinaryInfo) (p : ProcScanner) :
  let '(p', report) := scan_delta_from now binaries p in
  ps_known p' = match report with Some l => snapshot l | None => ps_known p end /\
  (report = None -> snapshot binaries = ps_known p \/ cooling_down now p = true /\ dom (ps_known p) ⊆ dom (snapshot binaries)) /\
  (forall l, report = Some l -> l = binaries /\ snapshot l <> ps_known p) /\
  ((exists k, is_Some (ps_known p !! k) /\ snapshot binaries !! k = None) -> report = Some binaries /\ forall later, cooling_down later p' = false).
Proof.
  unfold scan_delta_from. destruct (removal_detected (ps_known p) (snapshot binaries)) eqn:Er.
  - rewrite andb_false_r. destruct (_ || existsb _ _) eqn:Ec.
    + split_and!; [done|done| |by intros _; split]. intros l [= <-]. split; [done|]. intros He. apply removal_detected_spec in Er as (k & [b Hb] & Hn).
      rewrite He in Hn. congruence.
    + apply unchanged_equal in Ec. apply removal_detected_spec in Er as (k & [b Hb] & Hn). rewrite Ec in Hn. congruence.
  - rewrite andb_true_r. assert (~ exists k, is_Some (ps_known p !! k) /\ snapshot binaries !! k = None) as Hnone.
    { intros H1%removal_detected_spec. congruence. }
    destruct (cooling_down now p) eqn:Ed.
    + split_and!; [done| |done|done]. intros _. right. split; [done|]. intros k Hk%elem_of_dom. apply elem_of_dom.
      destruct (snapshot binaries !! k) eqn:Ek; [by eexists|]. exfalso. apply Hnone. by exists k.
    + destruct (_ || existsb _ _) eqn:Ec.
      * split_and!; [done|done| |done]. intros l [= <-]. split; [done|]. intros He. apply orb_true_iff in Ec as [Ec|Ec].
        -- rewrite He, Nat.eqb_refl in Ec. done.
        -- apply List.existsb_exists in Ec as ([k b] & Hin & Hb). apply list_elem_of_In, elem_of_map_to_list in Hin. rewrite He in Hin. cbn in Hb.
           by rewrite bool_decide_eq_true_2 in Hb.
      * apply unchanged_equal in Ec. split_and!; [cbn; by rewrite Ec|intros _; by left|done|done].
Qed.

(** ** Choosing a backend *)

Definition preflight_display (e : PreflightError) : string :=
  match e with
  | UnknownBackend s => "unknown capture backend: " ++ s
  | UnsupportedProfile s => "unsupported profile: " ++ s
  | UnsupportedPlatform => "unsupported platform for eBPF"
  | UnsupportedAbi s => "unsupported ABI for " ++ s
  | MissingDebugInfo s => "missing debug info: " ++ s
  end.

Definition backend_name (b : CaptureBackend) : string := match b with BAuto => "auto" | BDap => "dap" | BEbpf => "ebpf" end.

Definition infer_requested_profile (language requested : string) : result ProfileId string :=
  let language := to_ascii_lowercase (trim language) in
  let requested := to_ascii_lowercase (trim requested) in
  let? profile :=
    if String.eqb requested EmptyString then
      if String.eqb language "go" then Ok PGo else if String.eqb language "rust" then Ok PRust
      else Err ("unsupported source language/profile: " ++ language)
    else if String.eqb requested "go" then Ok PGo else if String.eqb requested "rust" then Ok PRust
    else Err ("unsupported capture profile: " ++ requested) in
  if (String.eqb language "go" && negb (bool_decide (profile = PGo))) || (String.eqb language "rust" && negb (bool_decide (profile = PRust)))
  then Err "capture_profile does not match connection language"
  else Ok profile.

Definition classify_failure (error : option string) : string :=
  match error with
  | None => EmptyString
  | Some error =>
      let text := to_ascii_lowercase error in
      if contains "unsupported platform" text then "unsupported_platform"
      else if contains "missing debug" text || contains "dwarf" text then "missing_debug_info"
      else if contains "unsupported abi" text then "unsupported_abi"
      else if contains "unsupported profile" text || contains "unsupported language" text then "unsupported_profile"
      else if contains "plan" text && (contains "reject" text || contains "invalid" text) then "plan_rejected"
      else if contains "verifier" text then "verifier_rejected"
      else if contains "attach" text then "attach_failed"
      else if contains "decode" text || contains "ring buffer" text then "decode_failed"
      else if contains "target exited" text then "target_exited"
      else "adapter_error"
  end.

Definition supported_capture_capabilities (decision : option BackendDecision) (capture_profile : string) : list N * list string * N :=
  if match decision with Some d => bool_decide (bd_selected d = BEbpf) | None => false end
     && (String.eqb capture_profile "go" || String.eqb capture_profile "rust")
  then ([1], [capture_profile], 4096) else ([], [], 0).

(** ** State *)

(** The counters an adapter offers beside those of [AdapterPort]. *)
Class CaptureCounts (A : Type) : Type := {
  cc_decode_drops : A -> result N Error;
  cc_unavailable_fields : A -> result N Error;
  cc_decoded_events : A -> result N Error
}.

(** How adapters are made on this host. *)
Record Factories (A : Type) : Type := mkFactories {
  fa_available : bool;
  fa_rust_auto : bool;
  (** the source of a usable debug image of the binary *)
  fa_preflight : ProfileId -> string -> option string -> result string string;
  fa_create_registered : string -> string -> option string -> result A string;
  fa_has_profile : string -> bool;
  fa_has_backend : string -> bool;
  fa_go : string -> N -> A;
  fa_python : string -> N -> A;
  fa_rust : string -> N -> A;
  fa_lowercase : string -> string;
  fa_architecture : string
}.
Arguments fa_available {A} _.
Arguments fa_rust_auto {A} _.
Arguments fa_preflight {A} _ _ _ _.
Arguments fa_create_registered {A} _ _ _ _.
Arguments fa_has_profile {A} _ _.
Arguments fa_has_backend {A} _ _.
Arguments fa_go {A} _ _ _.
Arguments fa_python {A} _ _ _.
Arguments fa_rust {A} _ _ _.
Arguments fa_lowercase {A} _ _.
Arguments fa_architecture {A} _.

Record Tables : Type := mkTables {
  tb_adapters : gmap string N; tb_languages : gmap string string; tb_decisions : gmap string BackendDecision;
  tb_sources : gmap string string; tb_drops : gmap string N; tb_handles : gmap string N
}.
Definition no_tables : Tables := mkTables ∅ ∅ ∅ ∅ ∅ ∅.
Definition put_adapter (c : string) (n : option N) (t : Tables) : Tables :=
  mkTables (partial_alter (fun _ => n) c (tb_adapters t)) (tb_languages t) (tb_decisions t) (tb_sources t) (tb_drops t) (tb_handles t).
Definition put_handle (c : string) (f : option N) (t : Tables) : Tables :=
  mkTables (tb_adapters t) (tb_languages t) (tb_decisions t) (tb_sources t) (tb_drops t) (partial_alter (fun _ => f) c (tb_handles t)).
Definition put_source (c source : string) (t : Tables) : Tables :=
  mkTables (tb_adapters t) (tb_languages t) (tb_decisions t) (<[c := source]> (tb_sources t)) (tb_drops t) (tb_handles t).
Definition put_drops (c : string) (n : N) (t : Tables) : Tables :=
  mkTables (tb_adapters t) (tb_languages t) (tb_decisions t) (tb_sources t) (<[c := n]> (tb_drops t)) (tb_handles t).
Definition put_record (c language : string) (d : BackendDecision) (counter : N) (t : Tables) : Tables :=
  mkTables (tb_adapters t) (<[c := language]> (tb_languages t)) (<[c := d]> (tb_decisions t)) (tb_sources t) (<[c := counter]> (tb_drops t)) (tb_handles t).
Definition forget_record (c : string) (t : Tables) : Tables :=
  mkTables (tb_adapters t) (delete c (tb_languages t)) (delete c (tb_decisions t)) (delete c (tb_sources t)) (delete c (tb_drops t)) (tb_handles t).
Definition clear_records (t : Tables) : Tables := mkTables (tb_adapters t) ∅ ∅ ∅ ∅ (tb_handles t).

(** The counters shared with the metrics endpoint. *)
Record Tallies : Type := mkTallies {
  ta_received : N; ta_in_flight : N; ta_forwarded : N; ta_dropped : N; ta_kernel : N; ta_decode : N; ta_decoded : N; ta_active : N; ta_uptime : N
}.
(** [fetch_add] and [fetch_sub] of a 64-bit counter *)
Definition fetch_add (a b : N) : N := wrap 64 (a + b).
Definition fetch_sub (a b : N) : N := wrap 64 (a + (2 ^ 64 - wrap 64 b)).

(** The last counters an adapter reported. *)
Record Reported : Type := mkReported { rp_kernel : N; rp_decode : N; rp_unavailable : N; rp_decoded : N }.

(** A forwarding task: its batch and the count that its guard owns. *)
Record Forwarder : Type := mkForwarder {
  fw_connection : string; fw_adapter : N; fw_counter : N; fw_batch : list MetricEvent; fw_count : N; fw_reported : Reported
}.

(** A connection to make: by a registered profile, or as the source's match on
    the language does it. *)
Record Plan : Type := mkPlan {
  pl_msg : Creation; pl_language : string; pl_decision : BackendDecision; pl_profile : string; pl_registered : bool
}.
Definition pl_connection (p : Plan) : string := cn_connection (pl_msg p).

Inductive Task : Type :=
| TCreate (msg : Creation)
| TReplacing (p : Plan)
| TStarting (p : Plan) (n : N) (r : result unit Error)
| TSubscribing (p : Plan) (n : N) (r : result unit Error)
| TClose (c : string)
| TClosing (c : string)
| TStopping (keys : list string).

(** The reader before and after the creations announced with the registration. *)
Inductive Reader : Type :=
| Draining (waiting : option N)
| Reading (answer : option AgentMsg).

Inductive AdapterCall : Type := Started (n : N) | Stopped (n : N).

Record Agent (A : Type) : Type := mkAgentState {
  ag_tables : Tables; ag_tallies : Tallies; ag_heap : gmap N A; ag_counters : gmap N N; ag_forwarders : gmap N Forwarder; ag_tasks : gmap N Task;
  ag_next : N; ag_reader : Reader; ag_refresh : bool;
  (** what was sent on the control channel, and what waits in the event channel *)
  ag_ctrl : list AgentMsg; ag_queue : list AgentMsg; ag_queue_open : bool;
  (** the starts and stops of adapters; events in batches that were given up *)
  ag_log : list AdapterCall; ag_lost : N
}.
Arguments mkAgentState {A} _ _ _ _ _ _ _ _ _ _ _ _ _ _.
Arguments ag_tables {A} _.
Arguments ag_tallies {A} _.
Arguments ag_heap {A} _.
Arguments ag_counters {A} _.
Arguments ag_forwarders {A} _.
Arguments ag_tasks {A} _.
Arguments ag_next {A} _.
Arguments ag_reader {A} _.
Arguments ag_refresh {A} _.
Arguments ag_ctrl {A} _.
Arguments ag_queue {A} _.
Arguments ag_queue_open {A} _.
Arguments ag_log {A} _.
Arguments ag_lost {A} _.

Definition EVENT_QUEUE_CAPACITY : N := 1024.
Definition FORWARD_BATCH : N := 64.

Section Agent.
Context {A : Type} `{AdapterPort A} `{CaptureCounts A} `{EventJson}.
Context (fa : Factories A) (debug_strings : list string -> string).
Local Abbreviation Agent := (Agent A).
Local Abbreviation show_error := (error_display debug_strings).

Definition agent_new : Agent :=
  mkAgentState no_tables (mkTallies 0 0 0 0 0 0 0 0 0) ∅ ∅ ∅ ∅ 0 (Draining None) false [] [] true [] 0.

Definition on_tables (f : Tables -> Tables) (s : Agent) : Agent :=
  mkAgentState (f (ag_tables s)) (ag_tallies s) (ag_heap s) (ag_counters s) (ag_forwarders s) (ag_tasks s) (ag_next s) (ag_reader s) (ag_refresh s)
    (ag_ctrl s) (ag_queue s) (ag_queue_open s) (ag_log s) (ag_lost s).
Definition on_tallies (f : Tallies -> Tallies) (s : Agent) : Agent :=
  mkAgentState (ag_tables s) (f (ag_tallies s)) (ag_heap s) (ag_counters s) (ag_forwarders s) (ag_tasks s) (ag_next s) (ag_reader s) (ag_refresh s)
    (ag_ctrl s) (ag_queue s) (ag_queue_open s) (ag_log s) (ag_lost s).
Definition on_heap (f : gmap N A -> gmap N A) (log : list AdapterCall) (s : Agent) : Agent :=
  mkAgentState (ag_tables s) (ag_tallies s) (f (ag_heap s)) (ag_counters s) (ag_forwarders s) (ag_tasks s) (ag_next s) (ag_reader s) (ag_refresh s)
    (ag_ctrl s) (ag_queue s) (ag_queue_open s) (ag_log s ++ log)%list (ag_lost s).
Definition on_counters (f : gmap N N -> gmap N N) (s : Agent) : Agent :=
  mkAgentState (ag_tables s) (ag_tallies s) (ag_heap s) (f (ag_counters s)) (ag_forwarders s) (ag_tasks s) (ag_next s) (ag_reader s) (ag_refresh s)
    (ag_ctrl s) (ag_queue s) (ag_queue_open s) (ag_log s) (ag_lost s).
Definition on_forwarders (f : gmap N Forwarder -> gmap N Forwarder) (lost : N) (s : Agent) : Agent :=
  mkAgentState (ag_tables s) (ag_tallies s) (ag_heap s) (ag_counters s) (f (ag_forwarders s)) (ag_tasks s) (ag_next s) (ag_reader s) (ag_refresh s)
    (ag_ctrl s) (ag_queue s) (ag_queue_open s) (ag_log s) (ag_lost s + lost).
Definition on_tasks (f : gmap N Task -> gmap N Task) (s : Agent) : Agent :=
  mkAgentState (ag_tables s) (ag_tallies s) (ag_heap s) (ag_counters s) (ag_forwarders s) (f (ag_tasks s)) (ag_next s) (ag_reader s) (ag_refresh s)
    (ag_ctrl s) (ag_queue s) (ag_queue_open s) (ag_log s) (ag_lost s).
(** A fresh number. *)
Definition take_number (s : Agent) : Agent * N :=
  (mkAgentState (ag_tables s) (ag_tallies s) (ag_heap s) (ag_counters s) (ag_forwarders s) (ag_tasks s) (ag_next s + 1) (ag_reader s) (ag_refresh s)
    (ag_ctrl s) (ag_queue s) (ag_queue_open s) (ag_log s) (ag_lost s), ag_next s).
Definition set_reader (r : Reader) (s : Agent) : Agent :=
  mkAgentState (ag_tables s) (ag_tallies s) (ag_heap s) (ag_counters s) (ag_forwarders s) (ag_tasks s) (ag_next s) r (ag_refresh s)
    (ag_ctrl s) (ag_queue s) (ag_queue_open s) (ag_log s) (ag_lost s).
Definition set_refresh (b : bool) (s : Agent) : Agent :=
  mkAgentState (ag_tables s) (ag_tallies s) (ag_heap s) (ag_counters s) (ag_forwarders s) (ag_tasks s) (ag_next s) (ag_reader s) b
    (ag_ctrl s) (ag_queue s) (ag_queue_open s) (ag_log s) (ag_lost s).
Definition send_ctrl (m : AgentMsg) (s : Agent) : Agent :=
  mkAgentState (ag_tables s) (ag_tallies s) (ag_heap s) (ag_counters s) (ag_forwarders s) (ag_tasks s) (ag_next s) (ag_reader s) (ag_refresh s)
    (ag_ctrl s ++ [m])%list (ag_queue s) (ag_queue_open s) (ag_log s) (ag_lost s).
Definition set_queue (q : list AgentMsg) (is_open : bool) (s : Agent) : Agent :=
  mkAgentState (ag_tables s) (ag_tallies s) (ag_heap s) (ag_counters s) (ag_forwarders s) (ag_tasks s) (ag_next s) (ag_reader s) (ag_refresh s)
    (ag_ctrl s) q is_open (ag_log s) (ag_lost s).

(** ** Forwarding *)

Definition add_received (t : Tallies) : Tallies :=
  mkTallies (fetch_add (ta_received t) 1) (fetch_add (ta_in_flight t) 1) (ta_forwarded t) (ta_dropped t) (ta_kernel t) (ta_decode t) (ta_decoded t)
    (ta_active t) (ta_uptime t).
Definition add_forwarded (n : N) (t : Tallies) : Tallies :=
  mkTallies (ta_received t) (ta_in_flight t) (fetch_add (ta_forwarded t) n) (ta_dropped t) (ta_kernel t) (ta_decode t) (ta_decoded t)
    (ta_active t) (ta_uptime t).
Definition add_dropped (n : N) (t : Tallies) : Tallies :=
  mkTallies (ta_received t) (ta_in_flight t) (ta_forwarded t) (fetch_add (ta_dropped t) n) (ta_kernel t) (ta_decode t) (ta_decoded t)
    (ta_active t) (ta_uptime t).
Definition add_capture (kernel decode decoded : N) (t : Tallies) : Tallies :=
  mkTallies (ta_received t) (ta_in_flight t) (ta_forwarded t) (ta_dropped t) (fetch_add (ta_kernel t) kernel) (fetch_add (ta_decode t) decode)
    (fetch_add (ta_decoded t) decoded) (ta_active t) (ta_uptime t).
(** [InFlightBatch::release_all] *)
Definition release_all (count : N) (t : Tallies) : Tallies :=
  if count =? 0 then t
  else mkTallies (ta_received t) (fetch_sub (ta_in_flight t) count) (ta_forwarded t) (ta_dropped t) (ta_kernel t) (ta_decode t) (ta_decoded t)
         (ta_active t) (ta_uptime t).

Definition serialized (e : MetricEvent) : SerializedMetricEvent :=
  let p := metric_event_to_proto e in
  mkSE (se_metric_id p) (se_metric_name p) (se_timestamp_ns p) (se_thread_name p) (se_thread_id p) (truncate_values_json (se_values_json p))
    (se_is_error p) (se_error_message p).

(** [try_send] of a bounded channel *)
Definition try_send_event (m : AgentMsg) (s : Agent) : Agent * bool :=
  if ag_queue_open s && (lenN (ag_queue s) <? EVENT_QUEUE_CAPACITY) then (set_queue (ag_queue s ++ [m])%list true s, true) else (s, false).

Definition forward_batch (c : string) (counter : N) (events : list MetricEvent) (s : Agent) : Agent :=
  let count := lenN events in
  match try_send_event (AmEvents (mkEB c (map serialized events))) s with
  | (s, true) => on_tallies (add_forwarded count) s
  | (s, false) =>
      let s := on_tallies (add_dropped count) s in
      let dropped := fetch_add (default 0 (ag_counters s !! counter)) count in
      let s := on_counters <[counter := dropped]> s in
      send_ctrl (AmDropCount (mkDC c dropped 0 0 0 0)) s
  end.

Definition ok_or_zero (r : result N Error) : N := match r with Ok n => n | Err _ => 0 end.

(** The report of an adapter's counters; [due] when a second has passed since
    the last. *)
Definition report_drops (due : bool) (fw : Forwarder) (s : Agent) : Agent * Reported :=
  let last := fw_reported fw in
  match due, ag_heap s !! fw_adapter fw with
  | true, Some a =>
      let now := mkReported (ok_or_zero (ap_get_total_drop_count a)) (ok_or_zero (cc_decode_drops a)) (ok_or_zero (cc_unavailable_fields a))
                   (ok_or_zero (cc_decoded_events a)) in
      if (rp_kernel last <? rp_kernel now) || (rp_decode last <? rp_decode now) || (rp_unavailable last <? rp_unavailable now)
         || (rp_decoded last <? rp_decoded now)
      then (send_ctrl (AmDropCount (mkDC (fw_connection fw) 0 (rp_kernel now) (rp_decode now) (rp_unavailable now) (rp_decoded now)))
              (on_tallies (add_capture (rp_kernel now - rp_kernel last) (rp_decode now - rp_decode last) (rp_decoded now - rp_decoded last)) s), now)
      else (s, last)
  | _, _ => (s, last)
  end.

(** The rest of a round, once the batch is ready or the stream closed: the batch
    is forwarded and its count released. *)
Definition finish_round (f : N) (due closed : bool) (s : Agent) : Agent :=
  match ag_forwarders s !! f with
  | None => s
  | Some fw =>
      let s := match fw_batch fw with
               | [] => s
               | events => on_tallies (release_all (fw_count fw)) (forward_batch (fw_connection fw) (fw_counter fw) events s)
               end in
      let '(s, reported) := report_drops due fw s in
      if closed then on_forwarders (delete f) 0 s
      else on_forwarders <[f := mkForwarder (fw_connection fw) (fw_adapter fw) (fw_counter fw) [] 0 reported]> 0 s
  end.

Definition receive_event (f : N) (e : MetricEvent) (due : bool) (s : Agent) : Agent :=
  match ag_forwarders s !! f with
  | None => s
  | Some fw =>
      let fw := mkForwarder (fw_connection fw) (fw_adapter fw) (fw_counter fw) (fw_batch fw ++ [e])%list (u64_saturating_add (fw_count fw) 1) (fw_reported fw) in
      let s := on_forwarders <[f := fw]> 0 (on_tallies add_received s) in
      if FORWARD_BATCH <=? lenN (fw_batch fw) then finish_round f due false s else s
  end.

(** [handle.abort()]: the task is gone at its next wait, its guard releases what
    it counted. *)
Definition abort_forwarder (f : N) (s : Agent) : Agent :=
  match ag_forwarders s !! f with
  | None => s
  | Some fw => on_forwarders (delete f) (lenN (fw_batch fw)) (on_tallies (release_all (fw_count fw)) s)
  end.
Definition abort_handle (c : string) (s : Agent) : Agent :=
  match tb_handles (ag_tables s) !! c with
  | None => s
  | Some f => abort_forwarder f (on_tables (put_handle c None) s)
  end.

Definition spawn_event_forwarder (c : string) (n : N) (s : Agent) : Agent :=
  let '(s, counter) :=
    match tb_drops (ag_tables s) !! c with
    | Some counter => (s, counter)
    | None => let '(s, counter) := take_number s in (on_tables (put_drops c counter) (on_counters <[counter := 0]> s), counter)
    end in
  let '(s, f) := take_number s in
  on_tables (put_handle c (Some f)) (on_forwarders <[f := mkForwarder c n counter [] 0 (mkReported 0 0 0 0)]> 0 s).

(** ** Connections *)

Definition refresh_active_connections (s : Agent) : Agent :=
  on_tallies (fun t => mkTallies (ta_received t) (ta_in_flight t) (ta_forwarded t) (ta_dropped t) (ta_kernel t) (ta_decode t) (ta_decoded t)
    (N.min (N.of_nat (size (tb_adapters (ag_tables s)))) (2 ^ 32 - 1)) (ta_uptime t)) s.
Definition insert_adapter (c : string) (n : N) (s : Agent) : Agent := refresh_active_connections (on_tables (put_adapter c (Some n)) s).

Definition connection_update (c : string) (status : WireStatus) (error : option string) (s : Agent) : AgentConnectionUpdate :=
  let decision := tb_decisions (ag_tables s) !! c in
  let profile := from_option bd_profile_name EmptyString decision in
  let '(schemas, profiles, payload) := supported_capture_capabilities decision profile in
  mkCU c (wire_status status) (default EmptyString error) (from_option (fun d => backend_name (bd_selected d)) EmptyString decision) profile
    (from_option bd_reason EmptyString decision) (default EmptyString (tb_sources (ag_tables s) !! c)) (classify_failure error)
    schemas profiles payload (fa_architecture fa).
Definition send_connection_update (c : string) (status : WireStatus) (error : option string) (s : Agent) : Agent :=
  let s := send_ctrl (AmConnectionUpdate (connection_update c status error s)) s in
  match status with WFailed => on_tables (forget_record c) s | _ => s end.
Definition fail_connection (c error : string) (s : Agent) : Agent := send_connection_update c WFailed (Some error) s.

(** The call of an adapter's method; the adapter changes in place. *)
Definition call_adapter {T : Type} (n : N) (call : A -> A * result T Error) (log : list AdapterCall) (s : Agent) : Agent * option (result T Error) :=
  match ag_heap s !! n with
  | None => (s, None)
  | Some a => let '(a, r) := call a in (on_heap <[n := a]> log s, Some r)
  end.

Definition put_task (k : N) (t : Task) (s : Agent) : Agent := on_tasks <[k := t]> s.
Definition end_task (k : N) (s : Agent) : Agent := on_tasks (delete k) s.

(** The path of the debug image, if the message names one. *)
Definition debug_path (msg : Creation) : option string := if str_is_empty (trim (cn_debug_info msg)) then None else Some (cn_debug_info msg).
Definition dap_port (msg : Creation) : result N string :=
  if cn_port msg <? 65536 then Ok (cn_port msg) else Err ("port " ++ show_N (cn_port msg) ++ " out of valid range").

(** The adapter a plan asks for. *)
Definition construct (p : Plan) : result A string :=
  let msg := pl_msg p in
  let registered := fa_create_registered fa (pl_profile p) (cn_binary_path msg) (debug_path msg) in
  if pl_registered p || bool_decide (bd_selected (pl_decision p) = BEbpf) then registered
  else if String.eqb (pl_language p) "go" then
    match bd_selected (pl_decision p) with
    | BAuto => registered
    | _ => let? port := dap_port msg in Ok (fa_go fa (cn_host msg) port)
    end
  else if String.eqb (pl_language p) "python" then let? port := dap_port msg in Ok (fa_python fa (cn_host msg) port)
  else if String.eqb (pl_language p) "rust" then let? port := dap_port msg in Ok (fa_rust fa (cn_host msg) port)
  else Err "Unsupported language".

(** From the records on: the adapter is made and its start called. *)
Definition build_connection (k : N) (p : Plan) (s : Agent) : Agent :=
  let c := pl_connection p in
  let '(s, counter) := take_number s in
  let s := on_tables (put_record c (pl_language p) (pl_decision p) counter) (on_counters <[counter := 0]> s) in
  match construct p with
  | Err error => end_task k (fail_connection c error s)
  | Ok a =>
      let '(s, n) := take_number s in
      let '(a, r) := ap_start a in
      put_task k (TStarting p n r) (on_heap <[n := a]> [Started n] s)
  end.
Definition started_connection (k : N) (p : Plan) (n : N) (r : result unit Error) (s : Agent) : Agent :=
  match r with
  | Err e => end_task k (fail_connection (pl_connection p) (show_error e) s)
  | Ok _ =>
      match call_adapter n ap_subscribe_events [] s with
      | (s, Some r) => put_task k (TSubscribing p n r) s
      | (s, None) => s
      end
  end.
Definition subscribed_connection (k : N) (p : Plan) (n : N) (r : result unit Error) (s : Agent) : Agent :=
  let c := pl_connection p in
  match r with
  | Err e => end_task k (fail_connection c (show_error e) s)
  | Ok _ => end_task k (send_connection_update c WConnected None (spawn_event_forwarder c n (insert_adapter c n s)))
  end.

(** [replace_connection], whose wait is for the adapter it finds *)
Definition replace_connection (k : N) (p : Plan) (s : Agent) : Agent :=
  let c := pl_connection p in
  let s := abort_handle c s in
  match tb_adapters (ag_tables s) !! c with
  | None => build_connection k p s
  | Some n => put_task k (TReplacing p) (fst (call_adapter n ap_stop [Stopped n] (on_tables (put_adapter c None) s)))
  end.
Definition replaced_connection (k : N) (p : Plan) (s : Agent) : Agent := build_connection k p (refresh_active_connections s).

Definition language_profile (language : string) : option ProfileId :=
  if String.eqb language "go" then Some PGo else if String.eqb language "rust" then Some PRust else None.

(** Whether the binary has a debug image that eBPF can use, and which. *)
Definition debug_image (requested : CaptureBackend) (profile : ProfileId) (msg : Creation) : bool * string :=
  if negb (bool_decide (requested = BDap)) && fa_available fa && negb (str_is_empty (trim (cn_binary_path msg))) then
    match fa_preflight fa profile (cn_binary_path msg) (debug_path msg) with Ok source => (true, source) | Err _ => (false, "missing") end
  else (false, "missing").

Definition create_connection (k : N) (msg : Creation) (s : Agent) : Agent :=
  let c := cn_connection msg in
  let language := fa_lowercase fa (cn_language msg) in
  let fail error s := end_task k (fail_connection c error s) in
  match backend_parse (cn_backend msg) with
  | Err e => fail (preflight_display e) s
  | Ok requested =>
      match infer_requested_profile language (cn_profile msg) with
      | Err error =>
          let name := to_ascii_lowercase (if str_is_empty (trim (cn_profile msg)) then language else trim (cn_profile msg)) in
          if bool_decide (requested = BEbpf) && fa_has_profile fa name && fa_has_backend fa name
          then replace_connection k (mkPlan msg (to_ascii_lowercase (cn_language msg))
                 (mkDecision BEbpf BEbpf None name "registry-provided eBPF profile") name true) s
          else fail error s
      | Ok profile =>
          let plan decision := mkPlan msg language decision (profile_str profile) false in
          match language_profile language with
          | Some p =>
              if negb (bool_decide (p = profile)) then fail "capture_profile does not match connection language" s
              else
                let '(ready, source) := debug_image requested profile msg in
                let s := on_tables (put_source c source) s in
                match resolve_backend_with_rust_auto requested profile (fa_available fa) ready (fa_rust_auto fa) with
                | Err e => fail (preflight_display e) s
                | Ok decision => replace_connection k (plan decision) s
                end
          | None =>
              if bool_decide (requested = BEbpf) then fail "eBPF backend is unsupported for this language" s
              else replace_connection k (plan (mkDecision requested BDap (Some profile) (profile_str profile) "language has no registered eBPF profile")) s
          end
      end
  end.

Definition close_connection (k : N) (c : string) (s : Agent) : Agent :=
  let s := abort_handle c (set_refresh true s) in
  match tb_adapters (ag_tables s) !! c with
  | None => end_task k (on_tables (forget_record c) s)
  | Some n => put_task k (TClosing c) (fst (call_adapter n ap_stop [Stopped n] (on_tables (put_adapter c None) s)))
  end.
Definition closed_connection (k : N) (c : string) (s : Agent) : Agent := end_task k (on_tables (forget_record c) (refresh_active_connections s)).

(** [stop_all], from the adapter of the first key on *)
Fixpoint stop_adapters (k : N) (keys : list string) (s : Agent) : Agent :=
  match keys with
  | [] => end_task k (on_tables clear_records (refresh_active_connections s))
  | key :: keys =>
      match tb_adapters (ag_tables s) !! key with
      | None => stop_adapters k keys s
      | Some n => put_task k (TStopping keys) (fst (call_adapter n ap_stop [Stopped n] (on_tables (put_adapter key None) s)))
      end
  end.
Definition stop_all (k : N) (s : Agent) : Agent :=
  let s := foldl (fun s key => abort_handle key s) s (map fst (map_to_list (tb_handles (ag_tables s)))) in
  stop_adapters k (map fst (map_to_list (tb_adapters (ag_tables s)))) s.

(** A task goes on from where it waits. *)
Definition resume (k : N) (s : Agent) : Agent :=
  match ag_tasks s !! k with
  | None => s
  | Some (TCreate msg) => create_connection k msg s
  | Some (TReplacing p) => replaced_connection k p s
  | Some (TStarting p n r) => started_connection k p n r s
  | Some (TSubscribing p n r) => subscribed_connection k p n r s
  | Some (TClose c) => close_connection k c s
  | Some (TClosing c) => closed_connection k c s
  | Some (TStopping keys) => stop_adapters k keys s
  end.

(** ** Requests *)

Definition connection_language (c : string) (s : Agent) : result SourceLanguage string :=
  match tb_languages (ag_tables s) !! c with
  | Some l => Ok (parse_language_lossy l)
  | None => Err ("Scanner error: no language record for connection " ++ c)
  end.

Definition set_metric_ack (request_id : string) (r : result SetMetricResult Error) : AgentMsg :=
  AmSetMetricAck match r with
  | Ok x => mkSA request_id (smr_verified x) (smr_line x) (default EmptyString (smr_message x)) EmptyString
  | Err e => mkSA request_id false 0 EmptyString (show_error e)
  end.
Definition remove_metric_ack (request_id : string) (r : result RemoveMetricResult Error) : AgentMsg :=
  AmRemoveMetricAck match r with
  | Ok _ => mkRAck request_id true EmptyString
  | Err e => mkRAck request_id false (show_error e)
  end.

(** The metric by which a removal names the metric to remove. *)
Definition removal_metric (m : RemoveMetric) (l : SourceLanguage) : Metric :=
  mkMetric None (rm_metric_name m) (rm_connection_id m) None (mkLocation EmptyString 0) [] l false Stream None Strict None None None false None None
    false None None None Unanchored.

(** The reader waits for the adapter's call; what it will answer is in
    [ag_reader]. *)
Definition handle_set_metric (m : SetMetric) (s : Agent) : Agent :=
  let refuse error := send_ctrl (AmSetMetricAck (mkSA (sm_request_id m) false 0 EmptyString error)) s in
  match connection_language (sm_connection_id m) s with
  | Err e => refuse e
  | Ok l =>
      match tb_adapters (ag_tables s) !! sm_connection_id m with
      | None => refuse "Connection not found"
      | Some n =>
          match call_adapter n (ap_set_metric (set_metric_of_proto m l)) [] s with
          | (s, Some r) => set_reader (Reading (Some (set_metric_ack (sm_request_id m) r))) s
          | (s, None) => s
          end
      end
  end.
Definition handle_remove_metric (m : RemoveMetric) (s : Agent) : Agent :=
  let refuse error := send_ctrl (AmRemoveMetricAck (mkRAck (rm_request_id m) false error)) s in
  match connection_language (rm_connection_id m) s with
  | Err e => refuse e
  | Ok l =>
      match tb_adapters (ag_tables s) !! rm_connection_id m with
      | None => refuse "Connection not found"
      | Some n =>
          match call_adapter n (ap_remove_metric (removal_metric m l)) [] s with
          | (s, Some r) => set_reader (Reading (Some (remove_metric_ack (rm_request_id m) r))) s
          | (s, None) => s
          end
      end
  end.

(** Reading files.  [canonicalize] and [read] are the file system's; a path in
    canonical form is the list of its components. *)
Context (canonicalize : string -> result (list string) string) (read : list string -> result (list byte) string).
Context (allowed_read_prefixes : list string) (show_path : list string -> string) (debug_path_text : string -> string).

Definition path_starts_with (path prefix : list string) : bool := bool_decide (prefix `prefix_of` path).
Definition read_file (path : string) : result (list byte) string :=
  match canonicalize path with
  | Err e => Err ("Scanner error: Cannot canonicalize " ++ path ++ ": " ++ e)
  | Ok canonical =>
      if match allowed_read_prefixes with
         | [] => true
         | _ => existsb (fun prefix => match canonicalize prefix with Ok p => path_starts_with canonical p | Err _ => false end) allowed_read_prefixes
         end
      then map_err (fun e => "Scanner error: Cannot read " ++ show_path canonical ++ ": " ++ e) (read canonical)
      else Err ("Scanner error: Path " ++ debug_path_text path ++ " is outside allowed read prefixes")
  end.
Definition inspect_file (f : InspectFile) : InspectResponse := mkIR (if_request_id f) [] "Not yet implemented".

(** ** The session *)

(** A message in the reading loop. *)
Definition read_message (m : ServerMsg) (s : Agent) : Agent :=
  match m with
  | SmCreateConnection msg => let '(s, k) := take_number s in put_task k (TCreate msg) s
  | SmCloseConnection c => let '(s, k) := take_number s in put_task k (TClose c) s
  | SmSetMetric m => handle_set_metric m s
  | SmRemoveMetric m => handle_remove_metric m s
  | SmReadFile f =>
      send_ctrl (AmFileResponse match read_file (rf_path f) with
                                | Ok content => mkFR (rf_request_id f) (rf_path f) content EmptyString
                                | Err e => mkFR (rf_request_id f) (rf_path f) [] e
                                end) s
  | SmInspectFile f => send_ctrl (AmInspectResponse (inspect_file f)) s
  | SmPing => send_ctrl AmPong s
  | SmRegisterAck _ _ _ => s
  end.
(** A message right after the registration: the first that is no creation ends
    the phase, and is answered only if it is a ping. *)
Definition drain_message (m : ServerMsg) (s : Agent) : Agent :=
  match m with
  | SmCreateConnection msg => let '(s, k) := take_number s in create_connection k msg (put_task k (TCreate msg) (set_reader (Draining (Some k)) s))
  | SmPing => send_ctrl AmPong (set_reader (Reading None) s)
  | _ => set_reader (Reading None) s
  end.
(** Whether the reader reads. *)
Definition reader_free (s : Agent) : bool :=
  match ag_reader s with
  | Draining None | Reading None => true
  | Draining (Some k) => match ag_tasks s !! k with Some _ => false | None => true end
  | Reading (Some _) => false
  end.

Inductive AgentMove : Type :=
| MvRead (m : ServerMsg)
| MvDrained
| MvAnswer
| MvResume (k : N)
| MvEvent (f : N) (e : MetricEvent) (due : bool)
| MvDeadline (f : N) (due : bool)
| MvEnd (f : N) (due : bool)
| MvEvolve (n : N) (a : A)
| MvDequeue
| MvHeartbeat (interval : N)
| MvHangUp
| MvStopAll.

Definition heartbeat (interval : N) (s : Agent) : Agent :=
  let s := on_tallies (fun t => mkTallies (ta_received t) (ta_in_flight t) (ta_forwarded t) (ta_dropped t) (ta_kernel t) (ta_decode t) (ta_decoded t)
             (ta_active t) (fetch_add (ta_uptime t) interval)) s in
  send_ctrl (AmHeartbeat (mkHB 0 0 0 0 0 (N.min (ta_dropped (ag_tallies s)) (2 ^ 32 - 1)))) s.

Definition agent_move (v : AgentMove) (s : Agent) : Agent :=
  match v with
  | MvRead m => if reader_free s then match ag_reader s with Draining _ => drain_message m s | Reading _ => read_message m s end else s
  | MvDrained => match ag_reader s with Draining _ => if reader_free s then set_reader (Reading None) s else s | Reading _ => s end
  | MvAnswer => match ag_reader s with Reading (Some m) => send_ctrl m (set_reader (Reading None) s) | _ => s end
  | MvResume k => resume k s
  | MvEvent f e due => receive_event f e due s
  | MvDeadline f due => finish_round f due false s
  | MvEnd f due => finish_round f due true s
  | MvEvolve n a => match ag_heap s !! n with Some _ => on_heap <[n := a]> [] s | None => s end
  | MvDequeue => set_queue (tl (ag_queue s)) (ag_queue_open s) s
  | MvHeartbeat interval => heartbeat interval s
  | MvHangUp => set_queue [] false s
  | MvStopAll => let '(s, k) := take_number s in stop_all k s
  end.
Definition agent_after (history : list AgentMove) (s : Agent) : Agent := foldl (fun s v => agent_move v s) s history.
End Agent.
