(* ===== verification/AgentSession.v ===== *)
(** * What an agent's session guarantees

    For every history of [AgentAdapters]: the counters of events agree with the
    batches, requests are answered in order and once, adapters are started and
    stopped once, files outside the allowed directories are not sent.  A creation
    that runs alone ends with a connection that works or with nothing. *)

From Stdlib Require Import Strings.String Strings.Ascii Init.Byte.
From stdpp Require Import gmap.
From S2P Require Import Prelude CoreError RustStr RustText Language Location Event Metric AdapterMetrics MetricRepo Sql EventRepo Connection ConnectionRepo Lifecycle MetricService ConnectionService Policy Reconnect AgentBreaker AgentManager RemoteAdapter AgentWire AgentAdapters.

Local Open Scope string_scope.
Local Open Scope N_scope.
Local Arguments String.append !_ _ / : simpl nomatch.
Ltac Zify.zify_post_hook ::= Z.to_euclidean_division_equations.

(** ** Counters *)

Definition batched (fs : gmap N Forwarder) : N := map_fold (fun _ fw acc => lenN (fw_batch fw) + acc) 0 fs.

Lemma batched_delete fs f fw : fs !! f = Some fw -> batched fs = lenN (fw_batch fw) + batched (delete f fs).
Proof. intros Hf. unfold batched. apply (map_fold_delete_L (fun _ fw acc => lenN (fw_batch fw) + acc)); [intros; lia|done]. Qed.
Lemma batched_insert fs f fw : batched (<[f := fw]> fs) = lenN (fw_batch fw) + batched (delete f fs).
Proof. rewrite (batched_delete _ f fw), delete_insert_eq by apply lookup_insert_eq. done. Qed.
Lemma batched_fresh fs f : fs !! f = None -> batched (delete f fs) = batched fs.
Proof. intros Hf. by rewrite delete_id. Qed.

Section Counters.
Context {A : Type}.
Local Abbreviation Agent := (Agent A).

(** The counters match: what is in the batches is in flight, and every event
    received was forwarded, dropped, is in flight or was given up. *)
Definition balanced (s : Agent) : Prop :=
  let t := ag_tallies s in let n := batched (ag_forwarders s) in
  ta_in_flight t = wrap 64 n /\ ta_received t = wrap 64 (ta_forwarded t + ta_dropped t + n + ag_lost s) /\
  map_Forall (fun f fw => f < ag_next s /\ fw_count fw = lenN (fw_batch fw) /\ lenN (fw_batch fw) < FORWARD_BATCH) (ag_forwarders s).

(** The parts of the state that it is about. *)
Definition books (s : Agent) : N * N * N * N * gmap N Forwarder * N :=
  let t := ag_tallies s in (ta_received t, ta_in_flight t, ta_forwarded t, ta_dropped t, ag_forwarders s, ag_lost s).

Lemma balanced_keep (s s' : Agent) : books s' = books s -> ag_next s <= ag_next s' -> balanced s -> balanced s'.
Proof.
  unfold books, balanced. intros [= Hr Hi Hf Hd Hfs Hl] Hn (H1 & H2 & H3). rewrite Hr, Hi, Hf, Hd, Hfs, Hl. split_and!; [done|done|].
  intros f fw Hfw. destruct (H3 f fw Hfw) as (? & ? & ?). split_and!; [lia|done|done].
Qed.

Lemma abort_forwarder_balanced f (s : Agent) : balanced s -> balanced (abort_forwarder f s).
Proof.
  unfold abort_forwarder. destruct (ag_forwarders s !! f) as [fw|] eqn:Ef; [|done]. intros (H1 & H2 & H3).
  destruct (H3 f fw Ef) as (Hlt & Hc & Hb). rewrite (batched_delete _ _ _ Ef) in H1, H2. unfold balanced, on_forwarders, on_tallies, release_all.
  cbn [ag_tallies ag_forwarders ag_lost ag_next]. rewrite Hc. set (b := batched (delete f (ag_forwarders s))) in *. set (n := lenN (fw_batch fw)) in *.
  unfold FORWARD_BATCH in Hb. unfold wrap in *. change (2 ^ 64) with 18446744073709551616 in *.
  destruct (N.eqb_spec n 0) as [Hn|Hn]; cbn [ta_in_flight ta_received ta_forwarded ta_dropped]; unfold fetch_sub, wrap; change (2 ^ 64) with 18446744073709551616;
    (split_and!; [lia|lia|]); intros g fw' Hg; apply lookup_delete_Some in Hg as [_ Hg]; by apply H3.
Qed.
Lemma abort_handle_balanced c (s : Agent) : balanced s -> balanced (abort_handle c s).
Proof. unfold abort_handle. destruct (tb_handles _ !! c); [|done]. intros Hs. apply abort_forwarder_balanced. by eapply balanced_keep; [..|exact Hs]. Qed.
Lemma abort_forwarder_next f (s : Agent) : ag_next (abort_forwarder f s) = ag_next s.
Proof. unfold abort_forwarder. by destruct (ag_forwarders s !! f). Qed.

Lemma spawn_balanced c n (s : Agent) : balanced s -> balanced (spawn_event_forwarder c n s).
Proof.
  intros Hs. unfold spawn_event_forwarder. set (p := match tb_drops _ !! c with Some _ => _ | None => _ end).
  assert (balanced (fst p)) as Hp by (unfold p; destruct (tb_drops _ !! c); [done|]; eapply balanced_keep; [..|exact Hs]; [done|cbn; lia]).
  destruct p as [s1 counter]. cbn in Hp. clear Hs s. destruct Hp as (H1 & H2 & H3).
  assert (ag_forwarders s1 !! ag_next s1 = None) as Hfree.
  { destruct (ag_forwarders s1 !! ag_next s1) as [fw|] eqn:E; [|done]. destruct (H3 _ _ E). lia. }
  unfold balanced. cbn. rewrite batched_insert, batched_fresh by done. cbn. split_and!; [done|by rewrite N.add_0_r|].
  intros f fw [[<- <-]|[_ Hf]]%lookup_insert_Some; [cbn; repeat split; lia|]. destruct (H3 f fw Hf) as (? & ? & ?). split_and!; [lia|done|done].
Qed.

Context `{HP : AdapterPort A} `{HC : CaptureCounts A} `{HJ : EventJson}.

(** Forwarding or dropping moves the batch from the one side to the other. *)
Lemma forward_batch_books c counter events (s : Agent) :
  let s' := forward_batch c counter events s in
  ag_forwarders s' = ag_forwarders s /\ ag_lost s' = ag_lost s /\ ag_next s' = ag_next s /\
  ta_received (ag_tallies s') = ta_received (ag_tallies s) /\ ta_in_flight (ag_tallies s') = ta_in_flight (ag_tallies s) /\
  wrap 64 (ta_forwarded (ag_tallies s') + ta_dropped (ag_tallies s')) =
    wrap 64 (ta_forwarded (ag_tallies s) + ta_dropped (ag_tallies s) + lenN events).
Proof.
  unfold forward_batch, try_send_event. destruct (ag_queue_open s && _); cbn -[wrap N.pow]; unfold fetch_add, wrap;
    change (2 ^ 64) with 18446744073709551616; split_and!; try done; lia.
Qed.
Lemma report_drops_books due fw (s : Agent) : books (fst (report_drops due fw s)) = books s /\ ag_next (fst (report_drops due fw s)) = ag_next s.
Proof. unfold report_drops. destruct due; [|done]. destruct (ag_heap s !! _); [|done]. by destruct (_ || _). Qed.

Lemma batched_empty_insert fs f fw : fw_batch fw = [] -> batched (<[f := fw]> fs) = batched (delete f fs).
Proof. intros Hb. by rewrite batched_insert, Hb. Qed.

(** The state between the batch and the report: the batch of [f] is accounted
    for elsewhere. *)
Lemma flush_balanced f fw (s : Agent) :
  ag_forwarders s !! f = Some fw -> f < ag_next s -> fw_count fw = lenN (fw_batch fw) -> fw_count fw < 2 ^ 64 ->
  let n := batched (ag_forwarders s) in
  ta_in_flight (ag_tallies s) = wrap 64 n ->
  ta_received (ag_tallies s) = wrap 64 (ta_forwarded (ag_tallies s) + ta_dropped (ag_tallies s) + n + ag_lost s) ->
  let s' := match fw_batch fw with
            | [] => s
            | events => on_tallies (release_all (fw_count fw)) (forward_batch (fw_connection fw) (fw_counter fw) events s)
            end in
  let n' := batched (delete f (ag_forwarders s)) in
  ag_forwarders s' = ag_forwarders s /\ ag_next s' = ag_next s /\ ag_lost s' = ag_lost s /\ ta_in_flight (ag_tallies s') = wrap 64 n' /\
  ta_received (ag_tallies s') = wrap 64 (ta_forwarded (ag_tallies s') + ta_dropped (ag_tallies s') + n' + ag_lost s).
Proof.
  intros Hf Hlt Hc Hsmall. cbn zeta. rewrite (batched_delete _ _ _ Hf). set (n' := batched (delete f _)). intros H1 H2.
  destruct (fw_batch fw) as [|e events] eqn:Eb.
  { cbn in H1, H2. by split_and!. }
  rewrite <- Eb in *. destruct (forward_batch_books (fw_connection fw) (fw_counter fw) (fw_batch fw) s) as (Hfs & Hl & Hn & Hr & Hi & Hfd).
  set (s1 := forward_batch _ _ _ s) in *. clearbody s1. unfold on_tallies, release_all. cbn [ag_forwarders ag_next ag_lost ag_tallies].
  assert (fw_count fw <> 0) as Hnz by (rewrite Hc, Eb; unfold lenN; cbn; lia). destruct (N.eqb_spec (fw_count fw) 0); [done|].
  cbn [ta_in_flight ta_received ta_forwarded ta_dropped]. rewrite Hr, Hi. split_and!; [done|done|done| |].
  - rewrite H1. unfold fetch_sub, wrap in *. change (2 ^ 64) with 18446744073709551616 in *. lia.
  - rewrite H2. unfold wrap in *. change (2 ^ 64) with 18446744073709551616 in *. lia.
Qed.

(** A round of forwarder [f] settles its batch, also one that has just reached
    its full length. *)
Lemma finish_round_settles f due closed fw (s : Agent) :
  ag_forwarders s !! f = Some fw -> f < ag_next s -> fw_count fw = lenN (fw_batch fw) -> fw_count fw < 2 ^ 64 ->
  let n := batched (ag_forwarders s) in
  ta_in_flight (ag_tallies s) = wrap 64 n ->
  ta_received (ag_tallies s) = wrap 64 (ta_forwarded (ag_tallies s) + ta_dropped (ag_tallies s) + n + ag_lost s) ->
  map_Forall (fun g gw => g < ag_next s /\ fw_count gw = lenN (fw_batch gw) /\ lenN (fw_batch gw) < FORWARD_BATCH) (delete f (ag_forwarders s)) ->
  balanced (finish_round f due closed s).
Proof.
  intros Hf Hlt Hc Hsmall n H1 H2 H3. unfold finish_round. rewrite Hf.
  destruct (flush_balanced f fw s Hf Hlt Hc Hsmall H1 H2) as (Hfs & Hn & Hl & H1' & H2'). set (s1 := match fw_batch fw with [] => s | _ => _ end) in *. clearbody s1.
  destruct (report_drops_books due fw s1) as [Hb Hn2]. destruct (report_drops due fw s1) as [s2 reported]. cbn [fst] in Hb, Hn2.
  unfold books in Hb. injection Hb as Hr2 Hi2 Hf2 Hd2 Hfs2 Hl2. unfold balanced.
  destruct closed; cbn [on_forwarders ag_tallies ag_forwarders ag_lost ag_next]; rewrite ?Hr2, ?Hi2, ?Hf2, ?Hd2, ?Hfs2, ?Hl2, ?Hn2, ?Hfs, ?Hn, ?Hl, N.add_0_r.
  - by split_and!.
  - rewrite batched_empty_insert by done. split_and!; [done|done|]. intros g gw [[<- <-]|[Hne Hg]]%lookup_insert_Some; [by repeat split|].
    apply (H3 g gw). by apply lookup_delete_Some.
Qed.

Lemma finish_round_balanced f due closed (s : Agent) : balanced s -> balanced (finish_round f due closed s).
Proof.
  intros (H1 & H2 & H3). destruct (ag_forwarders s !! f) as [fw|] eqn:Ef; [|unfold finish_round; rewrite Ef; by split_and!].
  destruct (H3 f fw Ef) as (Hlt & Hc & Hb). eapply finish_round_settles; [exact Ef|done|done| |done|done|].
  - rewrite Hc. unfold FORWARD_BATCH in Hb. lia.
  - intros g gw [_ Hg]%lookup_delete_Some. by apply H3.
Qed.

Lemma receive_event_balanced f e due (s : Agent) : balanced s -> balanced (receive_event f e due s).
Proof.
  intros (H1 & H2 & H3). unfold receive_event. destruct (ag_forwarders s !! f) as [fw|] eqn:Ef; [|by split_and!].
  destruct (H3 f fw Ef) as (Hlt & Hc & Hb). unfold FORWARD_BATCH in *. cbn zeta. cbn [fw_batch fw_connection fw_adapter fw_counter fw_count fw_reported].
  assert (lenN (fw_batch fw ++ [e]) = lenN (fw_batch fw) + 1) as Hlen by (unfold lenN; rewrite length_app; cbn; lia).
  assert (u64_saturating_add (fw_count fw) 1 = lenN (fw_batch fw ++ [e])) as Hc' by (rewrite Hlen, Hc; unfold u64_saturating_add; lia).
  set (fw' := mkForwarder _ _ _ _ _ _). set (s1 := on_forwarders _ 0 _).
  assert (ta_in_flight (ag_tallies s1) = wrap 64 (batched (ag_forwarders s1))) as H1'.
  { cbn [s1 on_forwarders on_tallies ag_tallies ag_forwarders add_received ta_in_flight]. rewrite batched_insert, H1, (batched_delete _ _ _ Ef).
    cbn [fw' fw_batch]. rewrite Hlen. unfold fetch_add, wrap. change (2 ^ 64) with 18446744073709551616. lia. }
  assert (ta_received (ag_tallies s1) = wrap 64 (ta_forwarded (ag_tallies s1) + ta_dropped (ag_tallies s1) + batched (ag_forwarders s1) + ag_lost s1)) as H2'.
  { cbn [s1 on_forwarders on_tallies ag_tallies ag_forwarders add_received ta_received ta_forwarded ta_dropped ag_lost]. rewrite batched_insert, H2, (batched_delete _ _ _ Ef).
    cbn [fw' fw_batch]. rewrite Hlen. unfold fetch_add, wrap. change (2 ^ 64) with 18446744073709551616. lia. }
  assert (map_Forall (fun g gw => g < ag_next s1 /\ fw_count gw = lenN (fw_batch gw) /\ lenN (fw_batch gw) < 64) (delete f (ag_forwarders s1))) as H3'.
  { intros g gw [Hne Hg]%lookup_delete_Some. cbn in Hg. rewrite lookup_insert_ne in Hg by done. by apply H3. }
  destruct (N.leb_spec 64 (lenN (fw_batch fw ++ [e]))) as [Hfull|Hfull].
  - eapply (finish_round_settles f due false fw' s1); [apply lookup_insert_eq|exact Hlt|exact Hc'| |exact H1'|exact H2'|exact H3'].
    cbn [fw' fw_count]. rewrite Hc', Hlen. lia.
  - split_and!; [exact H1'|exact H2'|]. intros g gw. destruct (decide (g = f)) as [->|Hne].
    + cbn. rewrite lookup_insert_eq. intros [= <-]. split_and!; [exact Hlt|exact Hc'|exact Hfull].
    + intros Hg. apply (H3' g gw). by rewrite lookup_delete_ne.
Qed.
End Counters.

(** ** Every move *)

Create HintDb agent discriminated.

Section Moves.
Context {A : Type} `{HP : AdapterPort A} `{HC : CaptureCounts A} `{HJ : EventJson}.
Context (fa : Factories A) (debug_strings : list string -> string).
Context (canonicalize : string -> result (list string) string) (read : list string -> result (list byte) string).
Context (allowed_read_prefixes : list string) (show_path : list string -> string) (debug_path_text : string -> string).
Local Abbreviation Agent := (Agent A).
Local Abbreviation move := (agent_move fa debug_strings canonicalize read allowed_read_prefixes show_path debug_path_text).
Local Abbreviation after := (agent_after fa debug_strings canonicalize read allowed_read_prefixes show_path debug_path_text).

(** Whatever is kept by the small steps and by the tasks is kept by every move. *)
Lemma balanced_same (s s' : Agent) : balanced s -> books s' = books s -> ag_next s' = ag_next s -> balanced s'.
Proof. intros Hs Hb Hn. apply (balanced_keep s); [exact Hb|lia|exact Hs]. Qed.
Lemma balanced_next (s : Agent) : balanced s -> balanced (fst (take_number s)).
Proof. intros Hs. apply (balanced_keep s); [done|cbn; lia|exact Hs]. Qed.

Ltac keep := match goal with Hs : balanced ?s |- _ => apply (balanced_same s); [exact Hs|reflexivity|reflexivity] end.

Lemma send_connection_update_balanced c status error (s : Agent) : balanced s -> balanced (send_connection_update fa c status error s).
Proof. intros Hs. unfold send_connection_update. destruct status; keep. Qed.

Lemma call_adapter_balanced {T} n (call : A -> A * result T Error) log (s : Agent) : balanced s -> balanced (fst (call_adapter n call log s)).
Proof. intros Hs. unfold call_adapter. destruct (ag_heap s !! n); [|done]. destruct (call a). keep. Qed.

Lemma end_task_balanced k (s : Agent) : balanced s -> balanced (end_task k s).
Proof. intros Hs. keep. Qed.
Lemma put_task_balanced k t (s : Agent) : balanced s -> balanced (put_task k t s).
Proof. intros Hs. keep. Qed.
Lemma on_tables_balanced f (s : Agent) : balanced s -> balanced (on_tables f s).
Proof. intros Hs. keep. Qed.
Lemma send_ctrl_balanced m (s : Agent) : balanced s -> balanced (send_ctrl m s).
Proof. intros Hs. keep. Qed.
Lemma set_reader_balanced r (s : Agent) : balanced s -> balanced (set_reader r s).
Proof. intros Hs. keep. Qed.
Lemma set_refresh_balanced b (s : Agent) : balanced s -> balanced (set_refresh b s).
Proof. intros Hs. keep. Qed.
Lemma on_heap_balanced f log (s : Agent) : balanced s -> balanced (on_heap f log s).
Proof. intros Hs. keep. Qed.
Lemma on_counters_balanced f (s : Agent) : balanced s -> balanced (on_counters f s).
Proof. intros Hs. keep. Qed.
Lemma refresh_active_balanced (s : Agent) : balanced s -> balanced (refresh_active_connections s).
Proof. intros Hs. keep. Qed.
#[local] Hint Resolve send_connection_update_balanced call_adapter_balanced end_task_balanced put_task_balanced on_tables_balanced send_ctrl_balanced
  set_reader_balanced set_refresh_balanced on_heap_balanced on_counters_balanced refresh_active_balanced balanced_next abort_handle_balanced spawn_balanced
  finish_round_balanced receive_event_balanced : agent.

Lemma called {T} n (call : A -> A * result T Error) log (s : Agent) (g : result T Error -> Agent -> Agent) :
  balanced s -> (forall r s, balanced s -> balanced (g r s)) ->
  balanced (match call_adapter n call log s with (s, Some r) => g r s | (s, None) => s end).
Proof.
  intros Hs Hg. pose proof (call_adapter_balanced n call log s Hs) as H1. destruct (call_adapter n call log s) as [s1 [r|]]; [by apply Hg|done].
Qed.

Lemma build_connection_balanced k p (s : Agent) : balanced s -> balanced (build_connection fa k p s).
Proof.
  intros Hs. unfold build_connection. pose proof (balanced_next s Hs) as H1. destruct (take_number s) as [s1 counter]. cbn [fst] in H1.
  destruct (construct fa p); [|unfold fail_connection; auto 6 with agent]. cbn [take_number]. destruct (ap_start a).
  apply put_task_balanced, on_heap_balanced. apply balanced_next; auto with agent.
Qed.
#[local] Hint Resolve build_connection_balanced : agent.

Lemma replace_connection_balanced k p (s : Agent) : balanced s -> balanced (replace_connection fa k p s).
Proof. intros Hs. unfold replace_connection. destruct (tb_adapters _ !! _); auto 6 with agent. Qed.
#[local] Hint Resolve replace_connection_balanced : agent.

Lemma create_connection_balanced k msg (s : Agent) : balanced s -> balanced (create_connection fa k msg s).
Proof.
  intros Hs. unfold create_connection, fail_connection. repeat case_match; auto 6 with agent.
Qed.

Lemma stop_adapters_balanced k keys (s : Agent) : balanced s -> balanced (stop_adapters k keys s).
Proof. revert s. induction keys as [|key keys IH]; intros s Hs; cbn; [auto 6 with agent|]. destruct (tb_adapters _ !! key); auto 6 with agent. Qed.

Lemma abort_handles_balanced keys (s : Agent) : balanced s -> balanced (foldl (fun s key => abort_handle key s) s keys).
Proof. revert s. induction keys as [|key keys IH]; intros s Hs; cbn; [done|]. apply IH. auto with agent. Qed.
#[local] Hint Resolve create_connection_balanced stop_adapters_balanced abort_handles_balanced : agent.

Lemma resume_balanced k (s : Agent) : balanced s -> balanced (resume fa debug_strings k s).
Proof.
  intros Hs. unfold resume. destruct (ag_tasks s !! k) as [[msg|p|p n r|p n r|c|c|keys]|]; [..|done]; unfold replaced_connection,
    started_connection, subscribed_connection, close_connection, closed_connection, fail_connection, insert_adapter; [auto with agent|auto 6 with agent| | | |auto 6 with agent|auto with agent].
  - destruct r; [|auto with agent]. apply called; [done|]. auto with agent.
  - destruct r; auto 8 with agent.
  - destruct (tb_adapters _ !! c); auto 8 with agent.
Qed.

Lemma read_message_balanced m (s : Agent) :
  balanced s -> balanced (read_message debug_strings canonicalize read allowed_read_prefixes show_path debug_path_text m s).
Proof.
  intros Hs. destruct m; cbn -[handle_set_metric handle_remove_metric read_file]; auto with agent;
    try (apply put_task_balanced; by apply balanced_next).
  - unfold handle_set_metric. destruct (connection_language _ s); [|auto with agent]. destruct (tb_adapters _ !! _) as [n|]; [|auto with agent].
    apply called; [done|]. auto with agent.
  - unfold handle_remove_metric. destruct (connection_language _ s); [|auto with agent]. destruct (tb_adapters _ !! _) as [n|]; [|auto with agent].
    apply called; [done|]. auto with agent.
Qed.

Lemma move_balanced v (s : Agent) : balanced s -> balanced (move v s).
Proof.
  intros Hs. destruct v; cbn [agent_move]; auto with agent.
  - destruct (reader_free s); [|done]. destruct (ag_reader s); [|by apply read_message_balanced]. destruct m; cbn; auto with agent.
    apply create_connection_balanced, put_task_balanced, set_reader_balanced. by apply (balanced_next s).
  - destruct (ag_reader s); [|done]. destruct (reader_free s); auto with agent.
  - destruct (ag_reader s) as [|[m|]]; auto with agent.
  - by apply resume_balanced.
  - destruct (ag_heap s !! n); auto with agent.
  - unfold stop_all. apply stop_adapters_balanced, abort_handles_balanced. by apply balanced_next.
Qed.

Lemma after_balanced history (s : Agent) : balanced s -> balanced (after history s).
Proof. revert s. induction history as [|v history IH]; intros s Hs; [done|]. apply IH. by apply move_balanced. Qed.

(** C20: no event is unaccounted for.  Whatever connections are made, replaced, closed
    and torn down, and however forwarding overlaps with that, the gauge of events
    in flight is what the batches hold, and the events received are those
    forwarded, those dropped, those in flight and those of batches that were
    given up with their connection (all modulo 2^64); no batch is longer than 64
    events. *)
Theorem agent_events_accounted (history : list (AgentMove (A := A))) :
  let s := after history agent_new in let t := ag_tallies s in let n := batched (ag_forwarders s) in
  ta_in_flight t = wrap 64 n /\ ta_received t = wrap 64 (ta_forwarded t + ta_dropped t + n + ag_lost s) /\
  map_Forall (fun _ fw => fw_count fw = lenN (fw_batch fw) /\ lenN (fw_batch fw) < 64) (ag_forwarders s).
Proof.
  destruct (after_balanced history agent_new) as (H1 & H2 & H3); [by split_and!|]. split_and!; [done|done|]. intros f fw Hf. by apply (H3 f fw).
Qed.

(** ** Adapters *)

(** Who holds an adapter: the table, or the task that makes its connection. *)
Inductive Owner : Type := InTable (c : string) | InTask (k : N).
Definition task_adapter (t : Task) : option N := match t with TStarting _ n _ | TSubscribing _ n _ => Some n | _ => None end.
Definition owns (s : Agent) (o : Owner) (n : N) : Prop :=
  match o with
  | InTable c => tb_adapters (ag_tables s) !! c = Some n
  | InTask k => ag_tasks s !! k ≫= task_adapter = Some n
  end.
Definition call_number (x : AdapterCall) : N := match x with Started n | Stopped n => n end.

(** Every adapter held is running and has one holder; starts and stops happen
    once, a stop after the start; numbers are used once. *)
Definition managed (s : Agent) : Prop :=
  (forall o n, owns s o n -> Started n ∈ ag_log s /\ Stopped n ∉ ag_log s) /\
  (forall o o' n, owns s o n -> owns s o' n -> o = o') /\
  NoDup (ag_log s) /\ (forall n, Stopped n ∈ ag_log s -> Started n ∈ ag_log s) /\
  (forall n, Started n ∈ ag_log s -> is_Some (ag_heap s !! n)) /\
  (forall x, x ∈ ag_log s -> call_number x < ag_next s) /\ (forall k t, ag_tasks s !! k = Some t -> k < ag_next s).

Lemma managed_fewer (s s' : Agent) : managed s -> (forall o n, owns s' o n -> owns s o n) -> ag_log s' = ag_log s ->
  (forall n, is_Some (ag_heap s !! n) -> is_Some (ag_heap s' !! n)) -> ag_next s <= ag_next s' ->
  (forall k t, ag_tasks s' !! k = Some t -> k < ag_next s') -> managed s'.
Proof.
  intros (H1 & H2 & H3 & H4 & H5 & H6 & H7) Ho Hl Hh Hn Ht. unfold managed. rewrite Hl. split_and!; [by eauto|by eauto|done|done|by eauto| |done].
  intros x Hx. specialize (H6 x Hx). lia.
Qed.
(** The common case: tables' adapters, tasks, heap and log are as before. *)
Lemma managed_same (s s' : Agent) : managed s -> tb_adapters (ag_tables s') = tb_adapters (ag_tables s) -> ag_tasks s' = ag_tasks s ->
  ag_log s' = ag_log s -> ag_heap s' = ag_heap s -> ag_next s <= ag_next s' -> managed s'.
Proof.
  intros Hs Ht Hk Hl Hh Hn. apply (managed_fewer s); [done| |done|by rewrite Hh|done|].
  - intros [c|k] n; cbn; [by rewrite Ht|by rewrite Hk].
  - intros k t. rewrite Hk. intros Hkt. destruct Hs as (_ & _ & _ & _ & _ & _ & H7). specialize (H7 k t Hkt). lia.
Qed.
Lemma managed_task k t (s : Agent) : managed s -> k < ag_next s -> task_adapter t = None -> managed (put_task k t s).
Proof.
  intros Hs Hk Ht. apply (managed_fewer s); [done| |done|done|cbn; lia|].
  - intros [c|k'] n; cbn; [done|]. destruct (decide (k' = k)) as [->|Hne]; [rewrite lookup_insert_eq; cbn; congruence|by rewrite lookup_insert_ne].
  - intros k' t'. cbn. intros [[<- _]|[_ Hk']]%lookup_insert_Some; [done|]. by apply Hs in Hk'.
Qed.
Lemma managed_end_task k (s : Agent) : managed s -> managed (end_task k s).
Proof.
  intros Hs. apply (managed_fewer s); [done| |done|done|cbn; lia|].
  - intros [c|k'] n; cbn; [done|]. destruct (decide (k' = k)) as [->|Hne]; [by rewrite lookup_delete_eq|by rewrite lookup_delete_ne].
  - intros k' t'. cbn. intros [_ Hk']%lookup_delete_Some. by apply Hs in Hk'.
Qed.
Lemma managed_call {T} n (call : A -> A * result T Error) (s : Agent) : managed s -> managed (fst (call_adapter n call [] s)).
Proof.
  intros Hs. unfold call_adapter. destruct (ag_heap s !! n) as [a|] eqn:En; [|done]. destruct (call a) as [a' r]. cbn [fst].
  apply (managed_fewer s); [done|done|cbn; by rewrite app_nil_r| |cbn; lia|apply Hs].
  intros n' [x Hx]. cbn. destruct (decide (n' = n)) as [->|Hne]; [by rewrite lookup_insert_eq|]. by rewrite lookup_insert_ne, Hx.
Qed.
Lemma managed_evolve n a x (s : Agent) : managed s -> ag_heap s !! n = Some x -> managed (on_heap <[n := a]> [] s).
Proof.
  intros Hs Hx. apply (managed_fewer s); [done|done|cbn; by rewrite app_nil_r| |cbn; lia|apply Hs].
  intros n' [y Hy]. cbn. destruct (decide (n' = n)) as [->|Hne]; [by rewrite lookup_insert_eq|]. by rewrite lookup_insert_ne, Hy.
Qed.

(** An adapter taken out of the table is stopped. *)
Lemma managed_stopped c n (s : Agent) : managed s -> tb_adapters (ag_tables s) !! c = Some n ->
  managed (fst (call_adapter n ap_stop [Stopped n] (on_tables (put_adapter c None) s))).
Proof.
  intros Hs Hc. pose proof Hs as (H1 & H2 & H3 & H4 & H5 & H6 & H7). destruct (H1 (InTable c) n Hc) as [Hst Hnst]. destruct (H5 n Hst) as [a Ha].
  unfold call_adapter. cbn [on_tables ag_heap]. rewrite Ha. destruct (ap_stop a) as [a' r]. cbn [fst].
  assert (forall o n', owns (on_heap <[n := a']> [Stopped n] (on_tables (put_adapter c None) s)) o n' -> owns s o n' /\ n' <> n) as Ho.
  { intros [c'|k] n'; cbn.
    - intros Hc'. destruct (decide (c' = c)) as [->|Hne]; [by rewrite lookup_partial_alter_eq in Hc'|]. rewrite lookup_partial_alter_ne in Hc' by done.
      split; [done|]. intros ->. specialize (H2 (InTable c') (InTable c) n Hc' Hc). congruence.
    - intros Hk. split; [done|]. intros ->. by specialize (H2 (InTask k) (InTable c) n Hk Hc). }
  unfold managed. cbn [on_heap on_tables ag_log ag_heap ag_next ag_tasks]. split_and!.
  - intros o n' [Hown Hne]%Ho. destruct (H1 o n' Hown). split; [set_solver|]. intros [?| [= ->]%list_elem_of_singleton]%elem_of_app; done.
  - intros o o' n' [Hown _]%Ho [Hown' _]%Ho. by eapply H2.
  - apply list.NoDup_app. split_and!; [done| |apply NoDup_singleton]. intros x Hx ->%list_elem_of_singleton. done.
  - intros n' [Hn'|[= ->]%list_elem_of_singleton]%elem_of_app; apply elem_of_app; left; auto.
  - intros n' [Hn'|?%list_elem_of_singleton]%elem_of_app; [|done]. destruct (H5 n' Hn') as [y Hy]. destruct (decide (n' = n)) as [->|Hne];
      [by rewrite lookup_insert_eq|by rewrite lookup_insert_ne, Hy].
  - intros x [Hx| ->%list_elem_of_singleton]%elem_of_app; [by apply H6|]. exact (H6 _ Hst).
  - exact H7.
Qed.

(** A new adapter is started by its task. *)
Lemma managed_start k p a r (s : Agent) : managed s -> k < ag_next s ->
  managed (put_task k (TStarting p (ag_next s) r) (on_heap <[ag_next s := a]> [Started (ag_next s)] (fst (take_number s)))).
Proof.
  intros Hs Hk. pose proof Hs as (H1 & H2 & H3 & H4 & H5 & H6 & H7). set (n := ag_next s) in *.
  assert (forall x, x ∈ ag_log s -> call_number x <> n) as Hnew by (intros x Hx; specialize (H6 x Hx); lia).
  set (s' := put_task _ _ _). assert (forall o n', owns s' o n' -> (o = InTask k /\ n' = n) \/ (o <> InTask k /\ owns s o n' /\ n' <> n)) as Ho.
  { assert (forall o n', owns s o n' -> n' <> n) as Hold by (intros o n' Hown; exact (Hnew _ (proj1 (H1 o n' Hown)))).
    intros [c|k'] n' Hown; [right; split_and!; [done|done|exact (Hold (InTable c) n' Hown)]|]. cbn in Hown. destruct (decide (k' = k)) as [->|Hne].
    - rewrite lookup_insert_eq in Hown. left. cbn in Hown. split; congruence.
    - rewrite lookup_insert_ne in Hown by done. right. split_and!; [congruence|done|exact (Hold (InTask k') n' Hown)]. }
  unfold managed. cbn [s' put_task on_tasks on_heap take_number fst ag_log ag_heap ag_next ag_tasks]. fold n. split_and!.
  - intros o n' [[-> ->]|(_ & Hown & Hne)]%Ho.
    + split; [set_solver|]. intros [Hin|[=]%list_elem_of_singleton]%elem_of_app. by apply (Hnew _ Hin).
    + destruct (H1 o n' Hown). split; [set_solver|]. intros [?|[=]%list_elem_of_singleton]%elem_of_app; done.
  - intros o o' n' [[-> ->]|(Hne1 & Hown & Hne)]%Ho [[-> Heq]|(Hne2 & Hown' & Hne')]%Ho; try done. by eapply H2.
  - apply list.NoDup_app. split_and!; [done| |apply NoDup_singleton]. intros x Hx ->%list_elem_of_singleton. by apply (Hnew _ Hx).
  - intros n' [Hn'|[=]%list_elem_of_singleton]%elem_of_app; apply elem_of_app; left; auto.
  - intros n' [Hn'|[= ->]%list_elem_of_singleton]%elem_of_app; [|by rewrite lookup_insert_eq]. destruct (H5 n' Hn') as [y Hy].
    rewrite lookup_insert_ne, Hy; [done|]. intros <-. by apply (Hnew _ Hn').
  - intros x [Hx| ->%list_elem_of_singleton]%elem_of_app; [specialize (H6 x Hx); lia|cbn; lia].
  - intros k' t' [[<- _]|[_ Hk']]%lookup_insert_Some; [lia|]. specialize (H7 k' t' Hk'). lia.
Qed.

(** The adapter of a task goes over to the table. *)
Lemma managed_hand_over k c n (s : Agent) : managed s -> owns s (InTask k) n -> managed (end_task k (on_tables (put_adapter c (Some n)) s)).
Proof.
  intros Hs Hk. pose proof Hs as (H1 & H2 & H3 & H4 & H5 & H6 & H7). set (s' := end_task _ _).
  assert (forall o n', owns s' o n' -> (o = InTable c /\ n' = n) \/ (o <> InTable c /\ owns s o n' /\ n' <> n)) as Ho.
  { intros [c'|k'] n' Hown; cbn in Hown.
    - destruct (decide (c' = c)) as [->|Hne]; [rewrite lookup_partial_alter_eq in Hown; left; split; congruence|].
      rewrite lookup_partial_alter_ne in Hown by done. right. split_and!; [congruence|done|]. intros ->. by specialize (H2 (InTable c') (InTask k) n Hown Hk).
    - destruct (decide (k' = k)) as [->|Hne]; [by rewrite lookup_delete_eq in Hown|]. rewrite lookup_delete_ne in Hown by done.
      right. split_and!; [done|done|]. intros ->. specialize (H2 (InTask k') (InTask k) n Hown Hk). congruence. }
  unfold managed. cbn [s' end_task on_tasks on_tables ag_log ag_heap ag_next ag_tasks]. split_and!; [| |done|done|done|done|].
  - intros o n' [[-> ->]|(_ & Hown & _)]%Ho; [by apply (H1 (InTask k))|by eapply H1].
  - intros o o' n' [[-> ->]|(Hne1 & Hown & Hne)]%Ho [[-> Heq]|(Hne2 & Hown' & Hne')]%Ho; try done. by eapply H2.
  - intros k' t' [_ Hk']%lookup_delete_Some. by eapply H7.
Qed.

(** What the forwarding side leaves alone. *)
Definition still (s s' : Agent) : Prop :=
  tb_adapters (ag_tables s') = tb_adapters (ag_tables s) /\ ag_tasks s' = ag_tasks s /\ ag_log s' = ag_log s /\ ag_heap s' = ag_heap s /\
  ag_next s <= ag_next s'.
Lemma managed_still (s s' : Agent) : managed s -> still s s' -> managed s'.
Proof. intros Hs (H1 & H2 & H3 & H4 & H5). by apply (managed_same s). Qed.
Lemma still_trans (s1 s2 s3 : Agent) : still s1 s2 -> still s2 s3 -> still s1 s3.
Proof. unfold still. intros (-> & -> & -> & -> & ?) (-> & -> & -> & -> & ?). split_and!; [done..|lia]. Qed.
Lemma still_abort_handle c (s : Agent) : still s (abort_handle c s).
Proof.
  unfold abort_handle. destruct (tb_handles _ !! c) as [f|]; [|by split_and!]. unfold abort_forwarder. cbn. by destruct (ag_forwarders s !! f).
Qed.
Lemma still_abort_handles keys (s : Agent) : still s (foldl (fun s key => abort_handle key s) s keys).
Proof. revert s. induction keys as [|key keys IH]; intros s; [by split_and!|]. eapply still_trans; [apply still_abort_handle|apply IH]. Qed.
Lemma still_forward_batch c counter events (s : Agent) : still s (forward_batch c counter events s).
Proof. unfold forward_batch, try_send_event. by destruct (ag_queue_open s && _). Qed.
Lemma still_finish_round f due closed (s : Agent) : still s (finish_round f due closed s).
Proof.
  unfold finish_round. destruct (ag_forwarders s !! f) as [fw|]; [|by split_and!].
  set (s1 := match fw_batch fw with [] => s | _ => _ end). assert (still s s1) as H1.
  { unfold s1. destruct (fw_batch fw); [by split_and!|]. eapply still_trans; [apply still_forward_batch|by split_and!]. }
  assert (still s1 (fst (report_drops due fw s1))) as H2.
  { unfold report_drops. destruct due; [|by split_and!]. destruct (ag_heap s1 !! _); [|by split_and!]. by destruct (_ || _). }
  destruct (report_drops due fw s1) as [s2 reported]. cbn in H2. eapply still_trans; [exact H1|]. eapply still_trans; [exact H2|]. by destruct closed.
Qed.
Lemma still_receive f e due (s : Agent) : still s (receive_event f e due s).
Proof.
  unfold receive_event. destruct (ag_forwarders s !! f); [|by split_and!]. cbn zeta. set (s1 := on_forwarders _ 0 _). assert (still s s1) as H1 by done.
  destruct (_ <=? _); [|done]. eapply still_trans; [exact H1|apply still_finish_round].
Qed.
Lemma still_spawn c n (s : Agent) : still s (spawn_event_forwarder c n s).
Proof. unfold spawn_event_forwarder. destruct (tb_drops _ !! c); cbn; unfold still; cbn; split_and!; done || lia. Qed.
Lemma still_update c status error (s : Agent) : still s (send_connection_update fa c status error s).
Proof. unfold send_connection_update. by destruct status. Qed.

Lemma build_connection_managed k p (s : Agent) : managed s -> k < ag_next s -> managed (build_connection fa k p s).
Proof.
  intros Hs Hk. unfold build_connection. cbn [take_number]. set (s1 := on_tables _ (on_counters _ _)).
  assert (managed s1) as Hs1 by (apply (managed_same s); [done..|cbn; lia]). destruct (construct fa p) as [a|error].
  - cbn [take_number]. destruct (ap_start a) as [a' r]. apply managed_start; [done|cbn; lia].
  - apply managed_end_task. eapply managed_still; [exact Hs1|apply still_update].
Qed.
Lemma replace_connection_managed k p (s : Agent) : managed s -> k < ag_next s -> managed (replace_connection fa k p s).
Proof.
  intros Hs Hk. unfold replace_connection. pose proof (still_abort_handle (pl_connection p) s) as Hq. pose proof (managed_still _ _ Hs Hq) as Hs1.
  assert (k < ag_next (abort_handle (pl_connection p) s)) as Hk1 by (destruct Hq as (_ & _ & _ & _ & ?); lia).
  destruct (tb_adapters _ !! _) as [n|] eqn:En; [|by apply build_connection_managed].
  apply managed_task; [by apply managed_stopped| |done]. unfold call_adapter. cbn. by destruct (ag_heap _ !! n); [destruct (ap_stop a)|].
Qed.
Lemma create_connection_managed k msg (s : Agent) : managed s -> k < ag_next s -> managed (create_connection fa k msg s).
Proof.
  intros Hs Hk. assert (forall c error s, managed s -> managed (end_task k (fail_connection fa c error s))) as Hfail.
  { intros c error s1 Hs1. apply managed_end_task. eapply managed_still; [exact Hs1|apply still_update]. }
  assert (forall f, managed (on_tables (put_source (cn_connection msg) f) s)) as Hsrc by (intros f; by apply (managed_same s)).
  unfold create_connection. repeat case_match; auto using replace_connection_managed.
Qed.
Lemma stop_adapters_managed k keys (s : Agent) : managed s -> k < ag_next s -> managed (stop_adapters k keys s).
Proof.
  revert s. induction keys as [|key keys IH]; intros s Hs Hk; cbn; [apply managed_end_task; by apply (managed_same s)|].
  destruct (tb_adapters _ !! key) as [n|] eqn:En; [|by apply IH]. apply managed_task; [by apply managed_stopped| |done].
  unfold call_adapter. cbn. by destruct (ag_heap _ !! n); [destruct (ap_stop a)|].
Qed.

Lemma call_adapter_same {T} n (call : A -> A * result T Error) log (s : Agent) :
  ag_tasks (fst (call_adapter n call log s)) = ag_tasks s /\ ag_tables (fst (call_adapter n call log s)) = ag_tables s /\
  ag_next (fst (call_adapter n call log s)) = ag_next s.
Proof. unfold call_adapter. destruct (ag_heap s !! n) as [a|]; [|done]. by destruct (call a). Qed.

Lemma started_managed k p n r (s : Agent) : managed s -> ag_tasks s !! k = Some (TStarting p n r) -> managed (started_connection fa debug_strings k p n r s).
Proof.
  intros Hs Hk. unfold started_connection. destruct r as [[]|e].
  2: { apply managed_end_task. eapply managed_still; [exact Hs|apply still_update]. }
  pose proof (managed_call n ap_subscribe_events s Hs) as H1. pose proof (call_adapter_same n ap_subscribe_events [] s) as (Ht & _ & Hn).
  destruct (call_adapter n ap_subscribe_events [] s) as [s1 [r|]]; cbn [fst] in *; [|done].
  apply (managed_fewer s1); [done| |done|done|cbn; lia|].
  - intros [c|k'] n'; cbn; [done|]. destruct (decide (k' = k)) as [->|Hne]; [|by rewrite lookup_insert_ne]. rewrite lookup_insert_eq, Ht, Hk. done.
  - intros k' t'. cbn. intros [[<- _]|[_ Hk']]%lookup_insert_Some; [|by apply H1 in Hk']. rewrite Hn. by apply Hs in Hk.
Qed.
Lemma subscribed_managed k p n r (s : Agent) : managed s -> ag_tasks s !! k = Some (TSubscribing p n r) -> managed (subscribed_connection fa debug_strings k p n r s).
Proof.
  intros Hs Hk. unfold subscribed_connection. destruct r as [[]|e].
  2: { apply managed_end_task. eapply managed_still; [exact Hs|apply still_update]. }
  assert (managed (end_task k (on_tables (put_adapter (pl_connection p) (Some n)) s))) as H1 by (apply managed_hand_over; [done|cbn; by rewrite Hk]).
  set (s1 := insert_adapter _ n s). set (s2 := send_connection_update _ _ _ _ _).
  assert (still s1 s2) as (Ha & Ht & Hl & Hh & Hn) by (eapply still_trans; [apply still_spawn|apply still_update]).
  apply (managed_same (end_task k (on_tables (put_adapter (pl_connection p) (Some n)) s)));
    [exact H1|exact Ha|exact (f_equal (delete k) Ht)|exact Hl|exact Hh|exact Hn].
Qed.

Lemma resume_managed k (s : Agent) : managed s -> managed (resume fa debug_strings k s).
Proof.
  intros Hs. unfold resume. destruct (ag_tasks s !! k) as [t|] eqn:Ek; [|done]. assert (k < ag_next s) as Hk by (by apply Hs in Ek).
  destruct t as [msg|p|p n r|p n r|c|c|keys].
  - by apply create_connection_managed.
  - apply build_connection_managed; [by apply (managed_same s)|done].
  - by apply started_managed.
  - by apply subscribed_managed.
  - unfold close_connection. pose proof (still_abort_handle c (set_refresh true s)) as Hq.
    assert (managed (abort_handle c (set_refresh true s))) as H1 by (eapply managed_still; [|exact Hq]; by apply (managed_same s)).
    assert (k < ag_next (abort_handle c (set_refresh true s))) as Hk1 by (destruct Hq as (_ & _ & _ & _ & Hq); cbn in Hq; lia).
    destruct (tb_adapters _ !! c) as [n|] eqn:En.
    + apply managed_task; [by apply managed_stopped| |done]. by rewrite (proj2 (proj2 (call_adapter_same n ap_stop [Stopped n] _))).
    + apply managed_end_task. by eapply managed_same; [exact H1|..].
  - apply managed_end_task. by apply (managed_same s).
  - by apply stop_adapters_managed.
Qed.

Lemma fresh_task_managed t (s : Agent) : managed s -> task_adapter t = None -> managed (put_task (ag_next s) t (fst (take_number s))).
Proof. intros Hs Ht. apply managed_task; [apply (managed_same s); [done..|cbn; lia]|cbn; lia|done]. Qed.

Lemma handle_managed {T} n (call : A -> A * result T Error) (answer : result T Error -> AgentMsg) (s : Agent) : managed s ->
  managed (match call_adapter n call [] s with (s, Some r) => set_reader (Reading (Some (answer r))) s | (s, None) => s end).
Proof.
  intros Hs. pose proof (managed_call n call s Hs) as H1. destruct (call_adapter n call [] s) as [s1 [r|]]; [|done]. by apply (managed_same s1).
Qed.

Lemma move_keeps_managed v (s : Agent) : managed s -> managed (move v s).
Proof.
  intros Hs. destruct v as [m| | |k|f e due|f due|f due|n a| |i| |]; cbn [agent_move].
  - destruct (reader_free s); [|done]. destruct (ag_reader s).
    + destruct m; cbn; try by apply (managed_same s). apply create_connection_managed; [|cbn; lia].
      apply (fresh_task_managed (TCreate c) (set_reader (Draining (Some (ag_next s))) s)); [by apply (managed_same s)|done].
    + destruct m; cbn -[handle_set_metric handle_remove_metric read_file]; try (by apply (managed_same s));
        try (by apply (fresh_task_managed (TCreate _))); try (by apply (fresh_task_managed (TClose _))).
      * unfold handle_set_metric. destruct (connection_language _ s); [|by apply (managed_same s)].
        destruct (tb_adapters _ !! _); [by apply handle_managed|by apply (managed_same s)].
      * unfold handle_remove_metric. destruct (connection_language _ s); [|by apply (managed_same s)].
        destruct (tb_adapters _ !! _); [by apply handle_managed|by apply (managed_same s)].
  - destruct (ag_reader s); [|done]. destruct (reader_free s); [by apply (managed_same s)|done].
  - destruct (ag_reader s) as [|[m|]]; [done| |done]. by apply (managed_same s).
  - by apply resume_managed.
  - eapply managed_still; [exact Hs|apply still_receive].
  - eapply managed_still; [exact Hs|apply still_finish_round].
  - eapply managed_still; [exact Hs|apply still_finish_round].
  - destruct (ag_heap s !! n) eqn:En; [by eapply managed_evolve|done].
  - by apply (managed_same s).
  - by apply (managed_same s).
  - by apply (managed_same s).
  - unfold stop_all. cbn. set (s1 := mkAgentState _ _ _ _ _ _ _ _ _ _ _ _ _ _). assert (managed s1) as H1 by (apply (managed_same s); [done..|cbn; lia]).
    pose proof (still_abort_handles (map fst (map_to_list (tb_handles (ag_tables s1)))) s1) as Hq. apply stop_adapters_managed.
    + by eapply managed_still.
    + destruct Hq as (_ & _ & _ & _ & Hq). cbn in Hq |- *. lia.
Qed.
Lemma after_managed history (s : Agent) : managed s -> managed (after history s).
Proof. revert s. induction history as [|v history IH]; intros s Hs; [done|]. apply IH. by apply move_keeps_managed. Qed.
Lemma new_managed : managed (agent_new (A := A)).
Proof.
  unfold managed. split_and!; [intros [c|k] n; cbn; by rewrite lookup_empty|intros [c|k] o' n; cbn; by rewrite lookup_empty|constructor|..]; try (intros; by apply elem_of_nil in H || set_solver).
Qed.

(** C19: an adapter in use runs and has one user.  Whatever the server asks for and
    however creations, closings and the end of the session overlap: an adapter in
    the table, or in the hands of the task that makes its connection, was asked to
    start and was not stopped, and no other entry or task has it; every adapter was asked to start
    once, and to stop once at most, never before its start.  Not claimed: that
    every running adapter is in the table or in the hands of a task.  Of two
    creations of one connection that overlap, the first adapter is replaced in the
    table without being stopped ([overlapping_creations_leak]), and an adapter
    whose start or subscription fails is dropped without a stop. *)
Theorem agent_adapters_managed (history : list (AgentMove (A := A))) :
  let s := after history agent_new in
  (forall o n, owns s o n -> Started n ∈ ag_log s /\ Stopped n ∉ ag_log s /\ forall o', owns s o' n -> o' = o) /\
  NoDup (ag_log s) /\ (forall n, Stopped n ∈ ag_log s -> Started n ∈ ag_log s).
Proof.
  destruct (after_managed history agent_new new_managed) as (H1 & H2 & H3 & H4 & _). split_and!; [|done|done].
  intros o n Ho. destruct (H1 o n Ho). split_and!; [done|done|]. intros o' Ho'. by eapply H2.
Qed.

(** ** Requests *)

Definition answered (s : Agent) : list string := omap answer_request_id (ag_ctrl s).
Definition awaited (s : Agent) : list string := match ag_reader s with Reading (Some m) => option_list (answer_request_id m) | _ => [] end.

(** The requests that a history reads, in order: every message taken from the
    stream counts, also the one that ends the announcements. *)
Definition read_request (v : AgentMove (A := A)) (s : Agent) : list string :=
  match v with MvRead m => if reader_free s then option_list (server_request_id m) else [] | _ => [] end.
Fixpoint requests_read (history : list (AgentMove (A := A))) (s : Agent) : list string :=
  match history with [] => [] | v :: history => (read_request v s ++ requests_read history (move v s))%list end.

(** Those among them read while the agent still waits for announcements, and
    those read later. *)
Definition early_request (v : AgentMove (A := A)) (s : Agent) : list string :=
  match ag_reader s with Draining _ => read_request v s | Reading _ => [] end.
Fixpoint requests_early (history : list (AgentMove (A := A))) (s : Agent) : list string :=
  match history with [] => [] | v :: history => (early_request v s ++ requests_early history (move v s))%list end.
Definition late_request (v : AgentMove (A := A)) (s : Agent) : list string :=
  match v, ag_reader s with MvRead m, Reading None => option_list (server_request_id m) | _, _ => [] end.
Fixpoint requests_late (history : list (AgentMove (A := A))) (s : Agent) : list string :=
  match history with [] => [] | v :: history => (late_request v s ++ requests_late history (move v s))%list end.

Definition is_answer (m : AgentMsg) : bool := match answer_request_id m with Some _ => true | None => false end.
Definition answers (s : Agent) : list AgentMsg := List.filter is_answer (ag_ctrl s).
Lemma answered_answers (s : Agent) : answered s = omap answer_request_id (answers s).
Proof.
  unfold answered, answers. induction (ag_ctrl s) as [|m l IH]; [done|]. cbn. unfold is_answer at 1. destruct (answer_request_id m) eqn:Em; cbn; [|done].
  by rewrite Em, IH.
Qed.

(** Neither an answer nor the reader is touched. *)
Definition mute (s s' : Agent) : Prop := answers s' = answers s /\ ag_reader s' = ag_reader s.
Lemma mute_trans (s1 s2 s3 : Agent) : mute s1 s2 -> mute s2 s3 -> mute s1 s3.
Proof. unfold mute. by intros [-> ->] [-> ->]. Qed.
Lemma mute_send m (s : Agent) : answer_request_id m = None -> mute s (send_ctrl m s).
Proof. intros Hm. split; [|done]. unfold answers. cbn. rewrite List.filter_app. cbn. unfold is_answer at 2. rewrite Hm. by rewrite app_nil_r. Qed.
Lemma mute_update c status error (s : Agent) : mute s (send_connection_update fa c status error s).
Proof. unfold send_connection_update. eapply mute_trans; [apply (mute_send (AmConnectionUpdate (connection_update fa c status error s)) s eq_refl)|]. by destruct status. Qed.
Lemma mute_abort_handle c (s : Agent) : mute s (abort_handle c s).
Proof. unfold abort_handle. destruct (tb_handles _ !! c) as [f|]; [|done]. unfold abort_forwarder. cbn. by destruct (ag_forwarders s !! f). Qed.
Lemma mute_abort_handles keys (s : Agent) : mute s (foldl (fun s key => abort_handle key s) s keys).
Proof. revert s. induction keys as [|key keys IH]; intros s; [done|]. eapply mute_trans; [apply mute_abort_handle|apply IH]. Qed.
Lemma mute_forward_batch c counter events (s : Agent) : mute s (forward_batch c counter events s).
Proof.
  unfold forward_batch, try_send_event. destruct (ag_queue_open s && _); [done|]. eapply mute_trans; [|apply mute_send; reflexivity]. done.
Qed.
Lemma mute_finish_round f due closed (s : Agent) : mute s (finish_round f due closed s).
Proof.
  unfold finish_round. destruct (ag_forwarders s !! f) as [fw|]; [|done].
  set (s1 := match fw_batch fw with [] => s | _ => _ end). assert (mute s s1) as H1.
  { unfold s1. destruct (fw_batch fw); [done|]. eapply mute_trans; [apply mute_forward_batch|done]. }
  assert (mute s1 (fst (report_drops due fw s1))) as H2.
  { unfold report_drops. destruct due; [|done]. destruct (ag_heap s1 !! _); [|done]. destruct (_ || _); [|done].
    eapply mute_trans; [|apply mute_send; reflexivity]. done. }
  destruct (report_drops due fw s1) as [s2 reported]. cbn in H2. eapply mute_trans; [exact H1|]. eapply mute_trans; [exact H2|]. by destruct closed.
Qed.
Lemma mute_receive f e due (s : Agent) : mute s (receive_event f e due s).
Proof.
  unfold receive_event. destruct (ag_forwarders s !! f); [|done]. cbn zeta. set (s1 := on_forwarders _ 0 _). assert (mute s s1) as H1 by done.
  destruct (_ <=? _); [|done]. eapply mute_trans; [exact H1|apply mute_finish_round].
Qed.
Lemma mute_spawn c n (s : Agent) : mute s (spawn_event_forwarder c n s).
Proof. unfold spawn_event_forwarder. by destruct (tb_drops _ !! c). Qed.
Lemma mute_call {T} n (call : A -> A * result T Error) log (s : Agent) : mute s (fst (call_adapter n call log s)).
Proof. unfold call_adapter. destruct (ag_heap s !! n) as [a|]; [|done]. by destruct (call a). Qed.
Lemma mute_fail k c error (s : Agent) : mute s (end_task k (fail_connection fa c error s)).
Proof. eapply mute_trans; [apply mute_update|done]. Qed.
Lemma mute_build k p (s : Agent) : mute s (build_connection fa k p s).
Proof.
  unfold build_connection. cbn [take_number]. destruct (construct fa p) as [a|e]; [cbn [take_number]; by destruct (ap_start a)|].
  eapply mute_trans; [|apply mute_fail]. done.
Qed.
Lemma mute_replace k p (s : Agent) : mute s (replace_connection fa k p s).
Proof.
  unfold replace_connection. eapply mute_trans; [apply (mute_abort_handle (pl_connection p))|]. destruct (tb_adapters _ !! _) as [n|]; [|apply mute_build].
  eapply mute_trans; [|apply (mute_call n ap_stop)]. done.
Qed.
Lemma mute_create k msg (s : Agent) : mute s (create_connection fa k msg s).
Proof.
  unfold create_connection. repeat case_match; auto using mute_fail, mute_replace;
    (eapply mute_trans; [|apply mute_fail || apply mute_replace]; done).
Qed.
Lemma mute_stop k keys (s : Agent) : mute s (stop_adapters k keys s).
Proof.
  revert s. induction keys as [|key keys IH]; intros s; cbn; [done|]. destruct (tb_adapters _ !! key) as [n|]; [|apply IH].
  eapply mute_trans; [|apply (mute_call n ap_stop)]. done.
Qed.
Lemma mute_resume k (s : Agent) : mute s (resume fa debug_strings k s).
Proof.
  unfold resume. destruct (ag_tasks s !! k) as [[msg|p|p n r|p n r|c|c|keys]|]; [..|done]; unfold replaced_connection, started_connection,
    subscribed_connection, close_connection, closed_connection; [apply mute_create| | | | |done|apply mute_stop].
  - eapply mute_trans; [|apply mute_build]. done.
  - destruct r; [|apply mute_fail]. pose proof (mute_call n ap_subscribe_events [] s) as H1. by destruct (call_adapter n _ [] s) as [s1 [r|]].
  - destruct r; [|apply mute_fail]. apply (mute_trans _ (insert_adapter (pl_connection p) n s)); [done|].
    eapply mute_trans; [apply (mute_spawn (pl_connection p) n)|]. eapply mute_trans; [apply (mute_update (pl_connection p) WConnected None)|]. done.
  - apply (mute_trans _ (set_refresh true s)); [done|]. eapply mute_trans; [apply (mute_abort_handle c)|].
    destruct (tb_adapters _ !! c) as [n|]; [|done]. eapply mute_trans; [|apply (mute_call n ap_stop)]. done.
Qed.

Lemma send_answered m (s : Agent) : answered (send_ctrl m s) = (answered s ++ option_list (answer_request_id m))%list.
Proof. unfold answered. cbn. rewrite omap_app. cbn. by destruct (answer_request_id m). Qed.

(** The request of a call whose adapter exists will be answered. *)
Lemma handle_answers {T} n (call : A -> A * result T Error) (answer : result T Error -> AgentMsg) r (s : Agent) :
  is_Some (ag_heap s !! n) -> (forall x, answer_request_id (answer x) = Some r) -> ag_reader s = Reading None ->
  let s' := match call_adapter n call [] s with (s, Some x) => set_reader (Reading (Some (answer x))) s | (s, None) => s end in
  (answered s' ++ awaited s')%list = (answered s ++ [r])%list.
Proof.
  intros [a Ha] Hr Hread. unfold call_adapter. rewrite Ha. destruct (call a) as [a' x]. cbn [awaited set_reader ag_reader].
  unfold awaited. cbn. by rewrite Hr.
Qed.

Lemma read_answers m (s : Agent) : managed s -> ag_reader s = Reading None ->
  let s' := read_message debug_strings canonicalize read allowed_read_prefixes show_path debug_path_text m s in
  (answered s' ++ awaited s')%list = (answered s ++ option_list (server_request_id m))%list.
Proof.
  intros Hs Hr. assert (awaited s = []) as Ha by (unfold awaited; by rewrite Hr).
  assert (forall x, (answered (send_ctrl x s) ++ awaited (send_ctrl x s))%list = (answered s ++ option_list (answer_request_id x))%list) as Hsend.
  { intros x. rewrite send_answered. change (awaited (send_ctrl x s)) with (awaited s). by rewrite Ha, app_nil_r. }
  assert (forall c n, tb_adapters (ag_tables s) !! c = Some n -> is_Some (ag_heap s !! n)) as Hheap.
  { intros c n Hc. destruct Hs as (H1 & _ & _ & _ & H5 & _). apply H5. by destruct (H1 (InTable c) n Hc). }
  destruct m as [acc rej ver|msg|c|m|m|f|f|]; cbn zeta; cbn [read_message server_request_id option_list].
  - by rewrite Ha.
  - cbn [take_number]. change (answered (put_task _ _ _)) with (answered s). change (awaited (put_task _ _ _)) with (awaited s). by rewrite Ha.
  - cbn [take_number]. change (answered (put_task _ _ _)) with (answered s). change (awaited (put_task _ _ _)) with (awaited s). by rewrite Ha.
  - unfold handle_set_metric. destruct (connection_language _ s); [|by apply Hsend]. destruct (tb_adapters _ !! _) as [n|] eqn:En; [|by apply Hsend].
    apply handle_answers; [by eapply Hheap|by intros []|done].
  - unfold handle_remove_metric. destruct (connection_language _ s); [|by apply Hsend]. destruct (tb_adapters _ !! _) as [n|] eqn:En; [|by apply Hsend].
    apply handle_answers; [by eapply Hheap|by intros []|done].
  - rewrite Hsend. by destruct (read_file _ _ _ _ _ _).
  - by rewrite Hsend.
  - by rewrite Hsend.
Qed.

Lemma move_answers v (s : Agent) : managed s ->
  (answered (move v s) ++ awaited (move v s))%list = (answered s ++ awaited s ++ late_request v s)%list.
Proof.
  intros Hs. assert (forall s', mute s s' -> (answered s' ++ awaited s')%list = (answered s ++ awaited s)%list) as Hmute.
  { intros s' [H1 H2]. rewrite !answered_answers. unfold awaited. by rewrite H1, H2. }
  destruct v as [m| | |k|f e due|f due|f due|n a| |i| |]; cbn [agent_move late_request]; rewrite ?app_nil_r; try (apply Hmute; done).
  - unfold reader_free. destruct (ag_reader s) as [w|[x|]] eqn:Er; cbn [awaited]; [|by rewrite app_nil_r|].
    2: { unfold awaited at 2. rewrite Er. cbn. by apply read_answers. }
    rewrite app_nil_r. assert (awaited s = []) as Ha by (unfold awaited; by rewrite Er). rewrite Ha, app_nil_r.
    destruct (match w with Some k => _ | None => true end); [|by rewrite Ha, app_nil_r].
    destruct m; cbn -[create_connection]; try (unfold answered; cbn; by rewrite app_nil_r).
    + destruct (mute_create (ag_next s) c (put_task (ag_next s) (TCreate c) (set_reader (Draining (Some (ag_next s))) (fst (take_number s))))) as [H1 H2].
      rewrite !answered_answers. unfold awaited. cbn in H1, H2. rewrite H2, H1. by rewrite app_nil_r.
    + unfold awaited, answered. cbn. rewrite omap_app. cbn. by rewrite !app_nil_r.
  - destruct (ag_reader s) as [w|x] eqn:Er; [|done]. unfold awaited. rewrite Er. destruct (reader_free s); [done|by rewrite Er].
  - destruct (ag_reader s) as [w|[x|]] eqn:Er; [done| |done]. rewrite send_answered. unfold awaited. rewrite Er. cbn. by rewrite app_nil_r.
  - apply Hmute, mute_resume.
  - apply Hmute, mute_receive.
  - apply Hmute, mute_finish_round.
  - apply Hmute, mute_finish_round.
  - by destruct (ag_heap s !! n).
  - apply Hmute. unfold heartbeat. eapply mute_trans; [|apply mute_send; reflexivity]. done.
  - apply Hmute. unfold stop_all. cbn. eapply mute_trans; [|eapply mute_trans; [apply mute_abort_handles|apply mute_stop]]. done.
Qed.

Lemma after_answers history (s : Agent) : managed s ->
  (answered (after history s) ++ awaited (after history s))%list = (answered s ++ awaited s ++ requests_late history s)%list.
Proof.
  revert s. induction history as [|v history IH]; intros s Hs; cbn [agent_after foldl requests_late]; [by rewrite app_nil_r|].
  unfold agent_after in IH. rewrite (IH _ (move_keeps_managed v s Hs)), app_assoc, (move_answers v s Hs), <- !app_assoc. done.
Qed.

Lemma call_stays_reading {T} n (call : A -> A * result T Error) (ack : result T Error -> AgentMsg) (s : Agent) : ag_reader s = Reading None ->
  exists w, ag_reader match call_adapter n call [] s with (s, Some r) => set_reader (Reading (Some (ack r))) s | (s, None) => s end = Reading w.
Proof. intros Hr. unfold call_adapter. destruct (ag_heap s !! n) as [a|]; [destruct (call a); by eexists|by exists None]. Qed.

Lemma read_stays_reading m (s : Agent) : ag_reader s = Reading None ->
  exists w, ag_reader (read_message debug_strings canonicalize read allowed_read_prefixes show_path debug_path_text m s) = Reading w.
Proof.
  intros Hr. destruct m; cbn; try (by exists None).
  - unfold handle_set_metric. destruct (connection_language _ s); [|by exists None]. destruct (tb_adapters _ !! _); [|by exists None]. by apply call_stays_reading.
  - unfold handle_remove_metric. destruct (connection_language _ s); [|by exists None]. destruct (tb_adapters _ !! _); [|by exists None]. by apply call_stays_reading.
Qed.

(** The announcements come first, and the request that ends them is read once. *)
Lemma draining_before v (s : Agent) w : ag_reader (move v s) = Draining w -> (exists w', ag_reader s = Draining w') /\ read_request v s = [].
Proof.
  assert (forall s', mute s s' -> ag_reader s' = Draining w -> exists w', ag_reader s = Draining w') as Hmute by (intros s' [_ <-]; eauto).
  destruct v as [m| | |k|f e due|f due|f due|n a| |i| |]; cbn [agent_move read_request].
  - destruct (reader_free s) eqn:Ef; [|intros Hd; split; [by eexists|done]]. destruct (ag_reader s) as [w'|w'] eqn:Er.
    + destruct m; try (by cbn). intros _. split; [by eexists|done].
    + destruct w' as [x|]; [unfold reader_free in Ef; by rewrite Er in Ef|]. destruct (read_stays_reading m s Er) as [x ->]. done.
  - destruct (ag_reader s) as [w'|w'] eqn:Er; [intros _; split; [by eexists|done]|]. rewrite Er. done.
  - destruct (ag_reader s) as [w'|[x|]] eqn:Er; [intros _; split; [by eexists|done]|done|]. rewrite Er. done.
  - intros Hd. split; [by eapply Hmute; [apply mute_resume|]|done].
  - intros Hd. split; [by eapply Hmute; [apply mute_receive|]|done].
  - intros Hd. split; [by eapply Hmute; [apply mute_finish_round|]|done].
  - intros Hd. split; [by eapply Hmute; [apply mute_finish_round|]|done].
  - intros Hd. split; [|done]. destruct (ag_heap s !! n); by eexists.
  - intros Hd. split; [by eexists|done].
  - intros Hd. split; [|done]. eapply Hmute; [|exact Hd]. unfold heartbeat. eapply mute_trans; [|apply mute_send; reflexivity]. done.
  - intros Hd. split; [by eexists|done].
  - intros Hd. split; [|done]. eapply Hmute; [|exact Hd]. unfold stop_all. cbn. eapply mute_trans; [|eapply mute_trans; [apply mute_abort_handles|apply mute_stop]]. done.
Qed.

Lemma requests_split history (s : Agent) :
  requests_read history s = (requests_early history s ++ requests_late history s)%list /\ (length (requests_early history s) <= 1)%nat /\
  ((exists w, ag_reader s = Reading w) -> requests_early history s = []).
Proof.
  revert s. induction history as [|v history IH]; intros s; [by split_and!; cbn; [|lia|]|]. cbn [requests_read requests_early requests_late].
  destruct (IH (move v s)) as (H1 & H2 & H3). rewrite H1. unfold early_request. destruct (ag_reader s) as [w|w] eqn:Er.
  - assert (late_request v s = []) as Hl by (unfold late_request; rewrite Er; by destruct v). rewrite Hl. split_and!; [by rewrite <- app_assoc| |by intros [w' Hw]].
    destruct (ag_reader (move v s)) as [w'|w'] eqn:Ed; [destruct (draining_before v s w' Ed) as [_ Hn]; by rewrite Hn|].
    rewrite (H3 ltac:(by eexists)), app_nil_r. unfold read_request. destruct v; cbn; try lia. destruct (reader_free s); [|cbn; lia]. destruct (server_request_id m); cbn; lia.
  - assert (requests_early history (move v s) = []) as He.
    { apply H3. destruct (ag_reader (move v s)) as [w'|w'] eqn:Ed; [|by eexists]. destruct (draining_before v s w' Ed) as [[w'' Hw] _]. congruence. }
    rewrite He in *. cbn. split_and!; [|lia|done]. f_equal. unfold read_request, late_request, reader_free. rewrite Er. destruct v; try done. by destruct w.
Qed.

(** C18: requests are answered in order and once, the first one perhaps excepted.
    The requests read from the stream are, in order: the one that ends the wait
    for announcements after the registration, if that was ended by a request,
    which the agent drops without an answer; then those it has answered, each
    once; then the one it is working on, if any.  So no answer is repeated or
    sent for another request, no later request is left out or overtaken, and at most one request is lost. *)
Theorem requests_answered_in_order (history : list (AgentMove (A := A))) :
  let s := after history agent_new in
  requests_read history agent_new = (requests_early history agent_new ++ answered s ++ awaited s)%list /\
  (length (requests_early history agent_new) <= 1)%nat /\ (length (awaited s) <= 1)%nat.
Proof.
  cbn zeta. destruct (requests_split history agent_new) as (H1 & H2 & _). rewrite (after_answers history agent_new new_managed). split_and!; [exact H1|exact H2|].
  unfold awaited. destruct (ag_reader _) as [|[m|]]; cbn; [lia| |lia]. destruct (answer_request_id m); cbn; lia.
Qed.

(** ** Files *)

(** The file was read, and lies in an allowed directory if any are configured. *)
Definition file_allowed (f : FileResponse) : Prop :=
  exists path, canonicalize (fr_path f) = Ok path /\ read path = Ok (fr_content f) /\
    (allowed_read_prefixes <> [] -> exists prefix dir, prefix ∈ allowed_read_prefixes /\ canonicalize prefix = Ok dir /\ dir `prefix_of` path).
Definition discreet (s : Agent) : Prop :=
  (forall f, AmFileResponse f ∈ answers s -> fr_content f = [] \/ file_allowed f) /\
  match ag_reader s with Reading (Some (AmFileResponse _)) => False | _ => True end.

Lemma read_file_allowed path content :
  read_file canonicalize read allowed_read_prefixes show_path debug_path_text path = Ok content ->
  exists canonical, canonicalize path = Ok canonical /\ read canonical = Ok content /\
    (allowed_read_prefixes <> [] -> exists prefix dir, prefix ∈ allowed_read_prefixes /\ canonicalize prefix = Ok dir /\ dir `prefix_of` canonical).
Proof.
  unfold read_file. destruct (canonicalize path) as [canonical|e]; [|done]. destruct (match allowed_read_prefixes with [] => true | _ => _ end) eqn:Ea; [|done].
  intros Hr%map_err_ok. exists canonical. split_and!; [done|done|]. intros Hne. assert (existsb (fun prefix => match canonicalize prefix with
    Ok p => path_starts_with canonical p | Err _ => false end) allowed_read_prefixes = true) as Hex by (by destruct allowed_read_prefixes).
  apply List.existsb_exists in Hex as (prefix & Hin & Hp). destruct (canonicalize prefix) as [dir|e] eqn:Ed; [|done].
  exists prefix, dir. split_and!; [by apply list_elem_of_In|done|]. by apply bool_decide_eq_true in Hp.
Qed.

Lemma discreet_mute (s s' : Agent) : discreet s -> mute s s' -> discreet s'.
Proof. unfold discreet. by intros [H1 H2] [-> ->]. Qed.
Lemma discreet_send m (s : Agent) : discreet s -> match m with AmFileResponse f => fr_content f = [] \/ file_allowed f | _ => True end -> discreet (send_ctrl m s).
Proof.
  intros [H1 H2] Hm. split; [|done]. intros f. unfold answers. cbn. rewrite List.filter_app, elem_of_app. intros [Hf|Hf]; [by apply H1|].
  cbn in Hf. destruct (is_answer m); [|by apply elem_of_nil in Hf]. apply list_elem_of_singleton in Hf. by subst m.
Qed.
Lemma discreet_handle {T} n (call : A -> A * result T Error) (answer : result T Error -> AgentMsg) (s : Agent) :
  discreet s -> (forall x, match answer x with AmFileResponse _ => False | _ => True end) ->
  discreet (match call_adapter n call [] s with (s, Some x) => set_reader (Reading (Some (answer x))) s | (s, None) => s end).
Proof.
  intros Hs Hx. pose proof (discreet_mute _ _ Hs (mute_call n call [] s)) as H1. destruct (call_adapter n call [] s) as [s1 [x|]]; [|done].
  split; [apply H1|]. cbn. specialize (Hx x). by destruct (answer x).
Qed.

Lemma move_discreet v (s : Agent) : discreet s -> discreet (move v s).
Proof.
  intros Hs. destruct v as [m| | |k|f e due|f due|f due|n a| |i| |]; cbn [agent_move].
  - destruct (reader_free s); [|done]. destruct (ag_reader s) as [w|x] eqn:Er.
    + assert (forall r, match r with Reading (Some (AmFileResponse _)) => False | _ => True end -> discreet (set_reader r s)) as Hset by (intros r Hr; split; [apply Hs|done]).
      destruct m; cbn [drain_message]; try (by apply Hset); [|by apply discreet_send; [apply Hset|]].
      cbn [take_number]. eapply discreet_mute; [apply (Hset (Draining (Some (ag_next s)))); done|]. eapply mute_trans; [|apply mute_create]. done.
    + destruct m; cbn [read_message]; try done; try (by apply discreet_send).
      * unfold handle_set_metric. destruct (connection_language _ s); [|by apply discreet_send]. destruct (tb_adapters _ !! _); [|by apply discreet_send].
        by apply discreet_handle.
      * unfold handle_remove_metric. destruct (connection_language _ s); [|by apply discreet_send]. destruct (tb_adapters _ !! _); [|by apply discreet_send].
        by apply discreet_handle.
      * apply discreet_send; [done|]. destruct (read_file _ _ _ _ _ _) as [content|e] eqn:Ef; [|by left]. right. by apply read_file_allowed.
  - destruct (ag_reader s) as [w|x] eqn:Er; [|done]. destruct (reader_free s); [|done]. split; [apply Hs|done].
  - destruct (ag_reader s) as [w|[x|]] eqn:Er; [done| |done]. apply discreet_send; [split; [apply Hs|done]|]. destruct Hs as [_ Hs]. rewrite Er in Hs. by destruct x.
  - eapply discreet_mute; [exact Hs|apply mute_resume].
  - eapply discreet_mute; [exact Hs|apply mute_receive].
  - eapply discreet_mute; [exact Hs|apply mute_finish_round].
  - eapply discreet_mute; [exact Hs|apply mute_finish_round].
  - by destruct (ag_heap s !! n).
  - done.
  - unfold heartbeat. by apply discreet_send.
  - done.
  - eapply discreet_mute; [exact Hs|]. unfold stop_all. cbn. eapply mute_trans; [|eapply mute_trans; [apply mute_abort_handles|apply mute_stop]]. done.
Qed.

(** C21: only allowed files leave the host.  Whatever the server asks for, in every
    message with the contents of a file, the file is the one named by the
    canonical form of the path asked for, and when directories are configured the
    canonical form lies in the canonical form of one of them: neither [..] nor a
    symbolic link leads out of them. *)
Theorem files_stay_confined (history : list (AgentMove (A := A))) (f : FileResponse) :
  AmFileResponse f ∈ ag_ctrl (after history agent_new) -> fr_content f <> [] -> file_allowed f.
Proof.
  intros Hf Hc. assert (discreet (after history agent_new)) as [Hd _].
  { assert (forall s : Agent, discreet s -> discreet (after history s)) as Hafter; [|apply Hafter; split; [intros g Hg; by apply elem_of_nil in Hg|done]].
    clear. induction history as [|v history IH]; intros s Hs; [done|]. apply IH. by apply move_discreet. }
  destruct (Hd f) as [Hd'|Hd']; [|done|done]. unfold answers. apply list_elem_of_In, List.filter_In. split; [by apply list_elem_of_In|done].
Qed.
End Moves.
