(* ===== verification/AgentProgram.v ===== *)
(** * An agent at work

    What a creation that runs undisturbed leads to, how a metric set through an
    agent reaches the adapter and its result the server ([RemoteAdapter],
    [AgentWire], [AgentAdapters]), and on concrete agents where the code does not
    do what it means to. *)

From Stdlib Require Import Strings.String Strings.Ascii Init.Byte.
From stdpp Require Import gmap.
From S2P Require Import Prelude CoreError RustStr RustText Language Location Event Metric OutputParsers AdapterMetrics MetricRepo Sql EventRepo Connection ConnectionRepo Lifecycle MetricService ConnectionService DebugSession Policy EbpfAdapter Reconnect AgentBreaker AgentManager RemoteAdapter AgentWire AgentAdapters AgentSession.

Local Open Scope string_scope.
Local Open Scope N_scope.
Local Arguments String.append !_ _ / : simpl nomatch.

Section Creation.
Context {A : Type} `{HP : AdapterPort A} `{HC : CaptureCounts A} `{HJ : EventJson}.
Context (fa : Factories A) (debug_strings : list string -> string).
Local Abbreviation Agent := (Agent A).
Local Abbreviation resume := (resume fa debug_strings).

(** A task alone, for at most [fuel] waits. *)
Fixpoint run_task (fuel : nat) (k : N) (s : Agent) : Agent :=
  match fuel, ag_tasks s !! k with S fuel, Some _ => run_task fuel k (resume k s) | _, _ => s end.

Lemma run_step fuel k t (s : Agent) : ag_tasks s !! k = Some t -> run_task (S fuel) k s = run_task fuel k
  match t with
  | TCreate msg => create_connection fa k msg s
  | TReplacing p => replaced_connection fa k p s
  | TStarting p n r => started_connection fa debug_strings k p n r s
  | TSubscribing p n r => subscribed_connection fa debug_strings k p n r s
  | TClose c => close_connection k c s
  | TClosing c => closed_connection k c s
  | TStopping keys => stop_adapters k keys s
  end.
Proof. intros Hk. cbn. rewrite Hk. f_equal. unfold AgentAdapters.resume. by rewrite Hk. Qed.
Lemma run_done fuel k (s : Agent) : ag_tasks s !! k = None -> run_task fuel k s = s.
Proof. intros Hk. destruct fuel; [done|]. cbn. by rewrite Hk. Qed.
Lemma end_task_done k (s : Agent) : ag_tasks (end_task k s) !! k = None.
Proof. apply lookup_delete_eq. Qed.

(** The tables hold for other connections what they held. *)
Definition others_kept (c : string) (t t' : Tables) : Prop :=
  forall c', c' <> c -> tb_adapters t' !! c' = tb_adapters t !! c' /\ tb_languages t' !! c' = tb_languages t !! c' /\
    tb_decisions t' !! c' = tb_decisions t !! c' /\ tb_sources t' !! c' = tb_sources t !! c' /\ tb_drops t' !! c' = tb_drops t !! c' /\
    tb_handles t' !! c' = tb_handles t !! c'.

(** The connection works: its adapter is in the table, its events are forwarded
    and its records are kept. *)
Definition connected (c : string) (s : Agent) : Prop :=
  exists n f fw, tb_adapters (ag_tables s) !! c = Some n /\ is_Some (ag_heap s !! n) /\ tb_handles (ag_tables s) !! c = Some f /\
    ag_forwarders s !! f = Some fw /\ fw_connection fw = c /\ fw_adapter fw = n /\
    is_Some (tb_languages (ag_tables s) !! c) /\ is_Some (tb_decisions (ag_tables s) !! c).
(** Of the connection's language, back end, source and lost events nothing is
    kept; its adapter and forwarder are in two other tables. *)
Definition no_record (c : string) (t : Tables) : Prop :=
  tb_languages t !! c = None /\ tb_decisions t !! c = None /\ tb_sources t !! c = None /\ tb_drops t !! c = None.

(** No adapter and no forwarder of the connection are known. *)
Definition cleared (c : string) (t : Tables) : Prop := tb_adapters t !! c = None /\ tb_handles t !! c = None.
Definition retained (c : string) (t0 t : Tables) : Prop := tb_adapters t !! c = tb_adapters t0 !! c /\ tb_handles t !! c = tb_handles t0 !! c.

(** One message tells how it went, and the tables agree with it. *)
Definition settled (c : string) (s0 s : Agent) : Prop :=
  others_kept c (ag_tables s0) (ag_tables s) /\
  exists u, ag_ctrl s = (ag_ctrl s0 ++ [AmConnectionUpdate u])%list /\ cu_connection_id u = c /\
    (cu_wire_status u = WFailed /\ no_record c (ag_tables s) /\ (cleared c (ag_tables s) \/ retained c (ag_tables s0) (ag_tables s) /\ ag_log s = ag_log s0) \/
     cu_wire_status u = WConnected /\ connected c s).

(** The state while the creation goes on. *)
Definition underway (c : string) (s0 s : Agent) : Prop := others_kept c (ag_tables s0) (ag_tables s) /\ ag_ctrl s = ag_ctrl s0.

Lemma others_trans c t1 t2 t3 : others_kept c t1 t2 -> others_kept c t2 t3 -> others_kept c t1 t3.
Proof.
  intros H1 H2 c' Hc. destruct (H2 c' Hc) as (-> & -> & -> & -> & -> & ->). by apply H1.
Qed.
Lemma others_record c l d n t : others_kept c t (put_record c l d n t).
Proof. intros c' Hc. cbn. by rewrite !lookup_insert_ne. Qed.
Lemma others_forget c t : others_kept c t (forget_record c t).
Proof. intros c' Hc. cbn. by rewrite !lookup_delete_ne. Qed.
Lemma others_source c x t : others_kept c t (put_source c x t).
Proof. intros c' Hc. cbn. by rewrite lookup_insert_ne. Qed.
Lemma others_adapter c x t : others_kept c t (put_adapter c x t).
Proof. intros c' Hc. cbn. by rewrite lookup_partial_alter_ne. Qed.
Lemma others_handle c x t : others_kept c t (put_handle c x t).
Proof. intros c' Hc. cbn. by rewrite lookup_partial_alter_ne. Qed.
Lemma others_drops c x t : others_kept c t (put_drops c x t).
Proof. intros c' Hc. cbn. by rewrite lookup_insert_ne. Qed.
Lemma underway_tables c f (s0 s : Agent) : underway c s0 s -> others_kept c (ag_tables s) (f (ag_tables s)) -> underway c s0 (on_tables f s).
Proof. intros [H1 H2] Hf. split; [by eapply others_trans|done]. Qed.

Lemma fail_settles c e k (s0 s : Agent) : underway c s0 s ->
  cleared c (ag_tables s) \/ retained c (ag_tables s0) (ag_tables s) /\ ag_log s = ag_log s0 -> settled c s0 (end_task k (fail_connection fa c e s)).
Proof.
  intros [Ho Hc] Hk. split; [eapply others_trans; [exact Ho|apply others_forget]|]. eexists. split; [cbn; by rewrite Hc|]. unfold connection_update.
  destruct (supported_capture_capabilities _ _) as [[schemas profiles] payload]. split; [done|]. left. split; [done|].
  split; [|exact Hk]. unfold no_record. cbn. by rewrite !lookup_delete_eq.
Qed.

Lemma call_adapter_underway {T} c n (call : A -> A * result T Error) log (s0 s : Agent) : underway c s0 s -> underway c s0 (fst (call_adapter n call log s)).
Proof. unfold call_adapter. destruct (ag_heap s !! n) as [a|]; [|done]. by destruct (call a). Qed.

Lemma subscribed_settles k p n r (s0 s : Agent) : underway (pl_connection p) s0 s -> cleared (pl_connection p) (ag_tables s) -> is_Some (ag_heap s !! n) ->
  is_Some (tb_languages (ag_tables s) !! pl_connection p) -> is_Some (tb_decisions (ag_tables s) !! pl_connection p) ->
  is_Some (tb_drops (ag_tables s) !! pl_connection p) ->
  let s' := subscribed_connection fa debug_strings k p n r s in settled (pl_connection p) s0 s' /\ ag_tasks s' !! k = None.
Proof.
  intros Hu Hcl Hn Hl Hd [counter Hdr]. unfold subscribed_connection. set (c := pl_connection p) in *. destruct r as [[]|e].
  2: { split; [apply fail_settles; [done|by left]|apply end_task_done]. }
  split; [|cbn; by rewrite lookup_delete_eq]. unfold spawn_event_forwarder. cbn [insert_adapter refresh_active_connections on_tallies on_tables ag_tables put_adapter tb_drops].
  rewrite Hdr. cbn [take_number]. destruct Hu as [Ho Hc]. split.
  - cbn. eapply others_trans; [exact Ho|]. eapply others_trans; [apply others_adapter|apply others_handle].
  - eexists. split; [cbn; by rewrite Hc|]. unfold connection_update. destruct (supported_capture_capabilities _ _) as [[schemas profiles] payload].
    split; [done|]. right. split; [done|]. eexists n, _, _. cbn. rewrite !lookup_partial_alter_eq, lookup_insert_eq. by split_and!.
Qed.

Lemma started_settles k p n r (s0 s : Agent) : underway (pl_connection p) s0 s -> cleared (pl_connection p) (ag_tables s) -> ag_tasks s !! k = Some (TStarting p n r) -> is_Some (ag_heap s !! n) ->
  is_Some (tb_languages (ag_tables s) !! pl_connection p) -> is_Some (tb_decisions (ag_tables s) !! pl_connection p) ->
  is_Some (tb_drops (ag_tables s) !! pl_connection p) ->
  let s' := run_task 2 k s in settled (pl_connection p) s0 s' /\ ag_tasks s' !! k = None.
Proof.
  intros Hu Hcl Hk [a Ha] Hl Hd Hdr. cbn zeta. rewrite (run_step 1 k _ s Hk). unfold started_connection. destruct r as [[]|e].
  - unfold call_adapter. rewrite Ha. destruct (ap_subscribe_events a) as [a' r]. set (s1 := put_task _ _ _).
    assert (ag_tasks s1 !! k = Some (TSubscribing p n r)) as Hk1 by apply lookup_insert_eq. rewrite (run_step 0 k _ s1 Hk1). cbn [run_task].
    apply subscribed_settles; try done. cbn. by rewrite lookup_insert_eq.
  - rewrite run_done by apply end_task_done. split; [apply fail_settles; [done|by left]|apply end_task_done].
Qed.

Lemma build_settles k p (s0 s : Agent) : underway (pl_connection p) s0 s -> cleared (pl_connection p) (ag_tables s) ->
  let s' := run_task 2 k (build_connection fa k p s) in settled (pl_connection p) s0 s' /\ ag_tasks s' !! k = None.
Proof.
  intros Hu Hcl. unfold build_connection. cbn [take_number]. set (s1 := on_tables _ (on_counters _ _)).
  assert (underway (pl_connection p) s0 s1) as Hu1 by (apply underway_tables; [done|apply others_record]). destruct (construct fa p) as [a|e].
  - cbn [take_number]. destruct (ap_start a) as [a' r]. eapply started_settles.
    + exact Hu1.
    + exact Hcl.
    + apply lookup_insert_eq.
    + cbn. by rewrite lookup_insert_eq.
    + cbn. by rewrite lookup_insert_eq.
    + cbn. by rewrite lookup_insert_eq.
    + cbn. by rewrite lookup_insert_eq.
  - cbn zeta. rewrite run_done by apply end_task_done. split; [apply fail_settles; [done|by left]|apply end_task_done].
Qed.

Lemma run_task_more fuel k (s : Agent) : ag_tasks (run_task fuel k s) !! k = None -> run_task (S fuel) k s = run_task fuel k s.
Proof.
  revert s. induction fuel as [|fuel IH]; intros s; cbn.
  - intros ->. done.
  - destruct (ag_tasks s !! k) eqn:Ek; [|done]. intros Hk. apply (IH _ Hk).
Qed.

Lemma abort_handle_underway c (s0 s : Agent) : underway c s0 s -> underway c s0 (abort_handle c s).
Proof.
  intros Hu. unfold abort_handle. destruct (tb_handles _ !! c) as [f|]; [|done]. unfold abort_forwarder. cbn.
  assert (underway c s0 (on_tables (put_handle c None) s)) as H1 by (apply underway_tables; [done|apply others_handle]).
  by destruct (ag_forwarders s !! f).
Qed.
Lemma abort_handle_clears c (s : Agent) : tb_handles (ag_tables (abort_handle c s)) !! c = None /\ tb_adapters (ag_tables (abort_handle c s)) = tb_adapters (ag_tables s).
Proof.
  unfold abort_handle. destruct (tb_handles (ag_tables s) !! c) as [f|] eqn:Eh; [|by rewrite Eh]. unfold abort_forwarder. cbn.
  destruct (ag_forwarders s !! f); cbn; by rewrite lookup_partial_alter_eq.
Qed.
Lemma call_adapter_tables {T} n (call : A -> A * result T Error) log (s : Agent) : ag_tables (fst (call_adapter n call log s)) = ag_tables s.
Proof. unfold call_adapter. destruct (ag_heap s !! n) as [a|]; [|done]. by destruct (call a). Qed.
Lemma replace_settles k p (s0 s : Agent) : underway (pl_connection p) s0 s ->
  let s' := run_task 3 k (replace_connection fa k p s) in settled (pl_connection p) s0 s' /\ ag_tasks s' !! k = None.
Proof.
  intros Hu. unfold replace_connection. pose proof (abort_handle_underway _ _ _ Hu) as H1.
  destruct (abort_handle_clears (pl_connection p) s) as [Eh Ea]. destruct (tb_adapters _ !! _) as [n|] eqn:En.
  - set (s1 := put_task _ _ _). assert (ag_tasks s1 !! k = Some (TReplacing p)) as Hk by apply lookup_insert_eq. cbn zeta.
    rewrite (run_step 2 k _ s1 Hk). unfold replaced_connection. apply (build_settles k p s0).
    + change (underway (pl_connection p) s0 (fst (call_adapter n ap_stop [Stopped n] (on_tables (put_adapter (pl_connection p) None)
        (abort_handle (pl_connection p) s))))). apply call_adapter_underway, underway_tables; [done|apply others_adapter].
    + change (cleared (pl_connection p) (ag_tables (fst (call_adapter n ap_stop [Stopped n] (on_tables (put_adapter (pl_connection p) None) (abort_handle (pl_connection p) s)))))).
      rewrite call_adapter_tables. split; cbn; [by rewrite lookup_partial_alter_eq|exact Eh].
  - destruct (build_settles k p s0 _ H1) as [H2 H3]; [by split|]. cbn zeta. rewrite (run_task_more 2) by exact H3. by split.
Qed.

(** C22: a creation ends, and says how.  However the message is made, a creation
    that is not disturbed takes at most four steps and sends one message about its
    connection.  Either that it is connected: then its adapter is in the table, its
    events are forwarded and its records are there.  Or that it has failed: then the records
    of the connection (language, back end, source, lost events) are gone, and as
    to its adapter and its forwarder either the agent has neither any more, or both are what
    they were before and no adapter was started or stopped.  The latter is what
    happens to a connection that worked when a second creation of it is refused
    at once: its adapter stays without its records
    ([failed_retry_orphans_adapter]).  Nothing changes for other connections. *)
Theorem creation_settles (k : N) (msg : Creation) (s : Agent) : ag_tasks s !! k = Some (TCreate msg) ->
  settled (cn_connection msg) s (run_task 4 k s) /\ ag_tasks (run_task 4 k s) !! k = None.
Proof.
  intros Hk. rewrite (run_step 3 k _ s Hk). set (c := cn_connection msg).
  assert (underway c s s) as Hu by (split; [by intros c' _|done]).
  assert (forall x, underway c s (on_tables (put_source c x) s)) as Hsrc by (intros x; apply underway_tables; [done|apply others_source]).
  assert (forall e s1, underway c s s1 -> retained c (ag_tables s) (ag_tables s1) /\ ag_log s1 = ag_log s -> settled c s (run_task 3 k (end_task k (fail_connection fa c e s1))) /\ ag_tasks (run_task 3 k (end_task k (fail_connection fa c e s1))) !! k = None) as Hfail.
  { intros e s1 H1 H2. rewrite run_done by apply end_task_done. split; [apply fail_settles; [done|by right]|apply end_task_done]. }
  unfold create_connection. fold c. repeat case_match; try (by apply Hfail); by apply (replace_settles k (mkPlan msg _ _ _ _) s).
Qed.
End Creation.

(** ** A metric set through an agent *)

(** [m'] is what the message for [m] says of a metric of connection [c]: these
    fields are those of [m], with 0 for a missing id. *)
Definition carried (c : string) (m m' : Metric) : Prop :=
  m_id m' = Some (default 0 (m_id m)) /\ m_name m' = m_name m /\ m_connection_id m' = c /\
  loc_file (m_location m') = loc_file (m_location m) /\ loc_line (m_location m') = loc_line (m_location m) /\
  m_expressions m' = m_expressions m /\ m_enabled m' = m_enabled m.
(** The settings of which the message has no field, at their defaults. *)
Definition plain_settings (m : Metric) : Prop :=
  m_group m = None /\ m_mode m = Stream /\ m_condition m = None /\ m_safety_level m = Strict /\ m_created_at m = None /\
  m_user_id m = None /\ m_agent_id m = None /\ m_capture_stack_trace m = false /\ m_stack_trace_ttl m = None /\ m_stack_trace_slice m = None /\
  m_capture_memory_snapshot m = false /\ m_snapshot_scope m = None /\ m_snapshot_ttl m = None /\ m_anchor m = None /\ m_anchor_status m = Unanchored.

Section Remote.
Context {A : Type} `{HP : AdapterPort A} `{HC : CaptureCounts A} `{HJ : EventJson}.
Context (fa : Factories A) (debug_strings : list string -> string).
Context (canonicalize : string -> result (list string) string) (read : list string -> result (list byte) string).
Context (allowed_read_prefixes : list string) (show_path : list string -> string) (debug_path_text : string -> string).
Local Abbreviation Agent := (Agent A).
Local Abbreviation after := (agent_after fa debug_strings canonicalize read allowed_read_prefixes show_path debug_path_text).
Local Abbreviation show_error := (error_display debug_strings).

(** C17: a metric set on the server is set in the agent's adapter, as far as the
    protocol carries it.  When the agent, between two requests, reads the server's
    message for a metric of a connection it has an adapter and a language for, it
    calls that adapter once.  The metric it passes has the id (0 if there is
    none), name, file, line, expressions and enabled flag of the server's metric,
    the connection of the message and the recorded language; every other
    setting (mode, condition, safety level, group, user, stack and snapshot
    settings, anchor) is at its default, whatever the server's metric says, so the
    adapter gets the same metric only if that one has default settings too.  The
    agent's next message is the answer to this request.  What the server makes of
    it: if the adapter succeeded, its verdict and its line (the metric's own line
    when it said 0), without its message; if it failed, not verified, the metric's
    line, and the text of the error. *)
Theorem remote_metric_is_set (c r : string) (m : Metric) (l : string) (n : N) (a : A) (s : Agent) :
  ag_reader s = Reading None -> tb_adapters (ag_tables s) !! c = Some n -> tb_languages (ag_tables s) !! c = Some l -> ag_heap s !! n = Some a ->
  exists m' a' x, ap_set_metric m' a = (a', x) /\
    carried c m m' /\ m_language m' = parse_language_lossy l /\ plain_settings m' /\
    (is_Some (m_id m) -> m_connection_id m = c -> m_language m = parse_language_lossy l -> plain_settings m -> m' = m) /\
    let s' := after [MvRead (domain_to_proto (set_metric_message c m r)); MvAnswer] s in
    ag_heap s' = <[n := a']> (ag_heap s) /\ ag_reader s' = Reading None /\
    exists ack response, ag_ctrl s' = (ag_ctrl s ++ [ack])%list /\ proto_to_domain (Some ack) = Some response /\ incoming_request_id response = Some r /\
      let result := set_metric_result m response in
      match x with
      | Ok y => smr_verified result = smr_verified y /\ smr_line result = (if smr_line y =? 0 then loc_line (m_location m) else smr_line y) /\ smr_message result = None
      | Err e => show_error e <> EmptyString ->
          smr_verified result = false /\ smr_line result = loc_line (m_location m) /\ smr_message result = Some (show_error e)
      end.
Proof.
  intros Hr Ha Hl Hh. set (m' := set_metric_of_proto (mkSetMetric r c (m_name m) (loc_file (m_location m)) (loc_line (m_location m)) (m_expressions m) (m_enabled m)
    (default 0 (m_id m))) (parse_language_lossy l)). destruct (ap_set_metric m' a) as [a' x] eqn:Hset. exists m', a', x. split; [exact Hset|].
  split; [done|]. split; [done|]. split; [done|]. split.
  { intros [i Hi] Hc Hlang Hp. destruct m as [? ? ? ? [? ?] ? ? ? ? ? ? ? ? ? ? ? ? ? ? ? ? ?]. unfold plain_settings in Hp. cbn in Hi, Hc, Hlang, Hp. destruct_and! Hp. subst. done. }
  cbn zeta. cbn [agent_after foldl agent_move]. unfold reader_free. rewrite Hr. cbn [domain_to_proto set_metric_message read_message].
  unfold handle_set_metric, connection_language. cbn [sm_connection_id sm_request_id]. rewrite Hl, Ha. unfold call_adapter. rewrite Hh.
  change (set_metric_of_proto _ (parse_language_lossy l)) with m'. rewrite Hset.
  cbn [set_reader ag_reader on_heap]. split; [done|]. split; [done|]. eexists _, _. split; [done|]. split; [done|]. split; [by destruct x|].
  destruct x as [y|e]; cbn.
  - unfold none_if_empty. cbn. by destruct (smr_line y =? 0).
  - intros Hshow. unfold none_if_empty. by destruct (show_error e).
Qed.

(** The message that ends the announcements after a registration is lost unless
    it is a ping: a request sent at that time is not answered. *)
Theorem first_request_is_dropped (m : ServerMsg) (r : string) : server_request_id m = Some r ->
  let s := after [MvRead m] agent_new in ag_ctrl s = [] /\ ag_reader s = Reading None /\ ag_tasks s = ∅ /\ ag_heap s = ∅.
Proof. intros Hm. by destruct m. Qed.

(** A Python connection without a profile is refused, although there is an
    adapter for Python: only a profile for another language lets it through. *)
Theorem python_connection_is_refused (k : N) (msg : Creation) (s : Agent) :
  ag_tasks s !! k = Some (TCreate msg) -> fa_lowercase fa (cn_language msg) = "python" -> trim (cn_profile msg) = EmptyString ->
  backend_parse (cn_backend msg) = Ok BAuto \/ backend_parse (cn_backend msg) = Ok BDap ->
  exists u, ag_ctrl (resume fa debug_strings k s) = (ag_ctrl s ++ [AmConnectionUpdate u])%list /\ cu_wire_status u = WFailed /\
    cu_error_message u = "unsupported source language/profile: python".
Proof.
  intros Hk Hl Hp Hb. unfold resume. rewrite Hk. unfold create_connection. rewrite Hl. unfold infer_requested_profile. rewrite Hp.
  assert (trim "python" = "python") as -> by (vm_compute; reflexivity). destruct Hb as [-> | ->];
    (eexists; split; [reflexivity|]; unfold connection_update; by destruct (supported_capture_capabilities _ _) as [[? ?] ?]).
Qed.
End Remote.

(** ** Removals *)

(** A removal names the metric without its file, so that the debugger's
    breakpoints stay as they were everywhere but at the path of the empty name;
    the adapter has forgotten the metric and the removal counts as confirmed. *)
Theorem remote_removal_keeps_logpoint {P D : Type} `{LogpointLanguage P} `{HD : Debugger D} `{!DebuggerLaws D} (debug_strings : list string -> string)
    (rm : RemoveMetric) (l : SourceLanguage) (a a' : BaseAdapter P D) (x : RemoveMetricResult) :
  ba_remove_metric (removal_metric rm l) a = (a', Ok x) ->
  (forall path, path <> resolve_path (ba_base_path a) EmptyString ->
     breakpoints_of (as_debugger (ba_state a')) path = breakpoints_of (as_debugger (ba_state a)) path) /\
  as_active (ba_state a') !! rm_metric_name rm = None /\
  remove_metric_ack debug_strings (rm_request_id rm) (Ok x) = AmRemoveMetricAck (mkRAck (rm_request_id rm) true EmptyString).
Proof.
  unfold ba_remove_metric, AdapterMetrics.remove_metric. cbn [removal_metric m_location loc_file m_name]. set (args := request_for _ _ _ _ _).
  destruct (send_set_breakpoints (as_debugger (ba_state a)) args) as [d [resp|e]] eqn:Es; cbn; [|done]. intros [= <- <-]. cbn. split_and!; [|apply lookup_delete_eq|done].
  intros path Hpath. destruct (sbr_success resp) eqn:Eok.
  - destruct (set_breakpoints_replaces _ _ _ _ (resolve_path (ba_base_path a) EmptyString) Es Eok eq_refl) as [_ Hother]. by apply Hother.
  - by apply (set_breakpoints_refused _ _ _ _ Es Eok).
Qed.

(** An eBPF adapter files the probes of an agent under the ids of their metrics
    and a removal has no id: none is ever found. *)
Theorem remote_removal_finds_no_probe (rm : RemoveMetric) (l : SourceLanguage) (a : EbpfAdapter) :
  (forall key, is_Some (ea_probes a !! key) -> exists (m : SetMetric) (l : SourceLanguage), key = metric_probe_key (set_metric_of_proto m l)) ->
  exists e, EbpfAdapter.remove_metric (removal_metric rm l) a = Err e.
Proof.
  intros Hkeys. unfold EbpfAdapter.remove_metric, detach. destruct (ea_probes a !! metric_probe_key (removal_metric rm l)) eqn:Ek; [|by eexists].
  destruct (Hkeys _ (ltac:(eexists; exact Ek))) as (m & l' & Hm). cbn in Hm. discriminate.
Qed.

(** ** Concrete agents *)
Module Program.

Inductive Steady : Type := steady.
#[local] Instance steady_port : AdapterPort Steady := {|
  ap_start a := (a, Ok tt); ap_stop a := (a, Ok tt); ap_is_connected _ := true;
  ap_set_metric m a := (a, Ok (mkSMR true (loc_line (m_location m)) None)); ap_remove_metric _ a := (a, Ok (mkRMR true None));
  ap_subscribe_events a := (a, Ok tt); ap_continue_execution a := (a, Ok true); ap_get_total_drop_count _ := Ok 0
|}.
#[local] Instance steady_counts : CaptureCounts Steady := {| cc_decode_drops _ := Ok 0; cc_unavailable_fields _ := Ok 0; cc_decoded_events _ := Ok 0 |}.
#[local] Instance no_json : EventJson := {|
  values_to_json _ := Ok "[]"; values_of_json s := if String.eqb s "[]" then Ok [] else Err "expected a list"; trace_to_json _ := Err EmptyString;
  trace_of_json _ := Err EmptyString; snapshot_to_json _ := Err EmptyString; snapshot_of_json _ := Err EmptyString;
  event_to_json _ := Err EmptyString; event_of_json _ := Err EmptyString
|}.

Definition host : Factories Steady :=
  mkFactories Steady false false (fun _ _ _ => Err "no image") (fun _ _ _ => Err "no backend") (fun _ => false) (fun _ => false)
    (fun _ _ => steady) (fun _ _ => steady) (fun _ _ => steady) (fun s => s) "x86_64".
Definition shown (l : list string) : string := EmptyString.
(** A host with two files, and a link out of the allowed directory. *)
Definition canonical (path : string) : result (list string) string :=
  if String.eqb path "/srv" then Ok ["srv"] else if String.eqb path "/srv/a" then Ok ["srv"; "a"]
  else if String.eqb path "/srv/link" then Ok ["etc"; "shadow"] else Err "not found".
Definition contents (path : list string) : result (list byte) string := Ok [x61].
Definition joined (path : list string) : string := EmptyString.

Definition run (history : list AgentMove) : Agent Steady := agent_after host shown canonical contents ["/srv"] joined (fun s => s) history agent_new.
Definition creation (backend : string) : Creation := mkCreation "c" "go" "/bin/x" "localhost" 4000 false backend EmptyString EmptyString.
Definition connect : list (AgentMove (A := Steady)) := [MvRead (SmCreateConnection (creation "dap")); MvResume 0; MvResume 0; MvDrained].
Definition setting : SetMetric := mkSetMetric "req-c-0" "c" "m" "/a.go" 3 ["x"] true 7.

Definition requested : Agent Steady := run [MvDrained; MvRead (SmCreateConnection (creation "dap"))].
Lemma creation_settles_witness : settled "c" requested (run_task host shown 4 0 requested) /\ connected "c" (run_task host shown 4 0 requested).
Proof.
  split; [apply (creation_settles host shown 0 (creation "dap") requested); vm_compute; reflexivity|].
  eexists _, _, _. vm_compute. by split_and!; try eexists.
Defined.

Lemma files_stay_confined_witness : file_allowed canonical contents ["/srv"] (mkFR "r" "/srv/a" [x61] EmptyString).
Proof.
  apply (files_stay_confined host shown canonical contents ["/srv"] joined (fun s => s)
    [MvDrained; MvRead (SmReadFile (mkReadFile "q" "c" "/srv/link")); MvRead (SmReadFile (mkReadFile "r" "c" "/srv/a"))]); [|done].
  apply list_elem_of_In. vm_compute. by right; left.
Defined.

Lemma remote_metric_is_set_witness :
  let m := set_metric_of_proto setting Go in
  let s' := agent_after host shown canonical contents ["/srv"] joined (fun s => s)
              [MvRead (domain_to_proto (set_metric_message "c" m "req-c-0")); MvAnswer] (run connect) in
  exists ack response, ag_ctrl s' = (ag_ctrl (run connect) ++ [ack])%list /\ proto_to_domain (Some ack) = Some response /\
    incoming_request_id response = Some "req-c-0" /\ set_metric_result m response = mkSMR true 3 None.
Proof.
  intros m s'.
  destruct (remote_metric_is_set host shown canonical contents ["/srv"] joined (fun s => s) "c" "req-c-0" m "go" 2 steady (run connect))
    as (m' & a' & x & Hset & _ & _ & _ & Hsame & _ & _ & ack & response & H1 & H2 & H3 & H4); [vm_compute; reflexivity..|].
  assert (m' = m) as -> by (apply Hsame; [by exists 7|reflexivity|vm_compute; reflexivity|repeat split]). clear Hsame.
  change (ap_set_metric m steady) with (steady, Ok (E := Error) (mkSMR true 3 None)) in Hset. injection Hset as <- <-. destruct H4 as (V1 & V2 & V3).
  exists ack, response. split; [exact H1|]. split; [exact H2|]. split; [exact H3|].
  destruct (set_metric_result m response) as [v ln msg]. cbn in V1, V2, V3. by subst.
Defined.

Lemma remote_removal_keeps_logpoint_witness :
  let m := set_metric_of_proto setting Go in
  let a := fst (ba_set_metric m (mkBaseAdapter GoP "/" map_to_list empty_session)) in
  let a' := fst (ba_remove_metric (removal_metric (mkRemoveMetric "r" "c" "m") Go) a) in
  map sb_line (breakpoints_of (as_debugger (ba_state a')) "/a.go") = [3] /\ as_active (ba_state a') !! "m" = None.
Proof.
  intros m a a'. destruct (ba_remove_metric (removal_metric (mkRemoveMetric "r" "c" "m") Go) a) as [b [x|e]] eqn:E; [|vm_compute in E; discriminate].
  destruct (remote_removal_keeps_logpoint shown (mkRemoveMetric "r" "c" "m") Go a b x E) as (Hpaths & Hgone & _).
  assert (a' = b) as -> by reflexivity. split; [|exact Hgone]. rewrite Hpaths; [vm_compute; reflexivity|vm_compute; discriminate].
Defined.

Lemma remote_removal_finds_no_probe_witness : exists e, EbpfAdapter.remove_metric (removal_metric (mkRemoveMetric "r" "c" "m") Go) new_adapter = Err e.
Proof. apply remote_removal_finds_no_probe. intros key [x Hx]. vm_compute in Hx. discriminate Hx. Defined.

(** A second creation that cannot be granted, of a connection that works, takes
    its records and leaves its adapter: it runs, but no metric can be set. *)
Theorem failed_retry_orphans_adapter :
  let s := run (connect ++ [MvRead (SmCreateConnection (creation "bogus")); MvResume 4; MvRead (SmSetMetric setting)]) in
  tb_adapters (ag_tables s) !! "c" = Some 2 /\ ag_log s = [Started 2] /\ tb_languages (ag_tables s) !! "c" = None /\
  List.last (ag_ctrl s) AmPong = AmSetMetricAck (mkSA "req-c-0" false 0 EmptyString "Scanner error: no language record for connection c").
Proof. vm_compute. done. Qed.

(** A connection closed while its adapter starts is reported as connected
    afterwards, and no metric can be set in it. *)
Theorem close_overtaken_by_creation :
  let s := run [MvDrained; MvRead (SmCreateConnection (creation "dap")); MvResume 0; MvRead (SmCloseConnection "c"); MvResume 3; MvResume 0; MvResume 0] in
  tb_adapters (ag_tables s) !! "c" = Some 2 /\ ag_log s = [Started 2] /\ tb_languages (ag_tables s) !! "c" = None /\
  (exists u, List.last (ag_ctrl s) AmPong = AmConnectionUpdate u /\ cu_wire_status u = WConnected).
Proof. vm_compute. split_and!; try done. by eexists. Qed.

(** Of two creations of one connection that overlap, both adapters run and both
    forward events; the first is in no table and nothing will stop it. *)
Theorem overlapping_creations_leak :
  let s := run [MvDrained; MvRead (SmCreateConnection (creation "dap")); MvRead (SmCreateConnection (creation "dap")); MvResume 0; MvResume 1;
                MvResume 0; MvResume 0; MvResume 1; MvResume 1] in
  ag_log s = [Started 3; Started 5] /\ tb_adapters (ag_tables s) = {["c" := 5]} /\ ag_tasks s = ∅ /\
  map (fun p => fw_adapter (snd p)) (map_to_list (ag_forwarders s)) ≡ₚ [3; 5].
Proof. vm_compute. split_and!; try done. Qed.

(** A creation under way when the session ends is not ended with it. *)
Theorem creation_outlives_session :
  let s := run [MvDrained; MvRead (SmCreateConnection (creation "dap")); MvResume 0; MvHangUp; MvStopAll; MvResume 0; MvResume 0] in
  tb_adapters (ag_tables s) !! "c" = Some 2 /\ ag_log s = [Started 2] /\ ag_tasks s = ∅.
Proof. vm_compute. done. Qed.
End Program.
